(* ===== verification/_CoqProject ===== *)
-Q . S2P
Prelude.v
BTree.v
Types.v
Capacity.v
WarmPool.v
Artifacts.v
Admission.v
Scheduler.v
Ext4Layout.v
Ext4Path.v
Ext4Tree.v
Ext4TreeInv.v
Ext4TreeOps.v
Ext4TreeSpec.v
Ext4Encode.v
Ext4DirCodec.v
Ext4ExtentCodec.v
Ext4XattrCodec.v
Ext4Image.v
Ext4Bitmaps.v
Ext4Groups.v
Ext4Inodes.v
Ext4Limits.v
Ext4Writer.v
Ext4Layers.v
Ext4HostTree.v
Ext4InitBlock.v
OciReference.v
HostPaths.v
HostFs.v
LogRotation.v
Hygiene.v
Envd.v
NodeState.v
DiskGuard.v
Backend.v
BackendInv.v
E2bWire.v
E2bRoutes.v
E2bRegistry.v
E2bServer.v
E2bServerInv.v
E2bDurable.v
ArtifactFiles.v
Trace.v
RuntimeRestore.v
RuntimePool.v
Template.v
FirkinAdapter.v
FirkinAdapterInv.v
SessionFiles.v
RuntimeProcesses.v
OciClient.v
ContainerSpec.v
PodLayout.v
Pod.v
PodInv.v
EnvdHttp.v
EnvdHost.v
DomainProxy.v
HostRuntime.v
HostRuntimeInv.v
SandboxApi.v
RetainedShell.v
SandboxNode.v
SandboxNodeInv.v
Float64.v
MetricCatalog.v
MetricDerive.v
Evidence.v
Scorecard.v
