(* ===== verification/Prelude.v ===== *)
(** * Firkin: a verification development

    Firkin runs Linux sandboxes in virtual machines on macOS.  A node admits a
    sandbox against a budget of memory, processors and guest processes, starts
    it from a warm pool, a snapshot or an image, and records what it runs so
    that a restart of the controller finds it again.  An HTTP control plane
    speaks the E2B protocol: its registries know sandboxes, pods, templates and
    volumes, and a runtime adapter starts and stops what they name.  Root file
    systems are ext4 images written block by block, without mounting anything,
    from OCI layers or host trees.  The crates under [src/crates] modelled here
    are [types], [admission], [artifacts], [ext4], [oci], [hygiene], [envd]
    (process data), [single-node], [e2b-wire], [e2b-contract], [e2b-server],
    [trace], [template], [runtime], [sandbox], [evidence] and, of [core], the specification of
    containers and the pods.

    ** The files

    Shared: [Prelude] (outcomes, machine integers, strings, tactics, hint
    databases), [BTree] (ordered maps), [HostPaths] ([std::path]) and [HostFs]
    (the files of a host, with a fault per call).

    Values and admission:
    - [Types]: [types/src/lib.rs], identifiers, host names, the proxy host
      [{port}-{sandbox}.{domain}], network policy and sizes;
    - [Capacity], [WarmPool], [Admission]: [admission/src], the ledger of
      reservations, the queues of restored sandboxes and the planners;
    - [Scheduler]: [single-node/src/scheduler.rs], admission behind a mutex;
    - [Artifacts]: [artifacts/src], manifests of snapshots.

    Images ([ext4/src]):
    - [Ext4Layout] ([layout.rs], [types.rs]), [Ext4Path] and [Ext4Tree]
      (the tree of [builder.rs]), [Ext4Encode] (its encoders), [Ext4Image]
      (its [Finalizer]), [Ext4Writer] ([lib.rs]) and [Ext4InitBlock]
      ([init_block.rs]) hold the definitions;
    - [Ext4TreeInv], [Ext4TreeOps], [Ext4TreeSpec] (the tree refines an
      abstract file system), [Ext4DirCodec], [Ext4ExtentCodec],
      [Ext4XattrCodec] (what is written reads back), [Ext4Bitmaps],
      [Ext4Groups], [Ext4Inodes] (the image is consistent), [Ext4Layers],
      [Ext4HostTree] (layers and host trees) and [Ext4Limits] (concrete
      departures from the intent) hold the theorems.

    The host and the node:
    - [OciReference]: [oci/src/reference.rs]; [OciClient]: [oci/src/{client,
      bundle,descriptor,cache,image_config}.rs], pulling images into a cache;
    - [LogRotation], [Hygiene]: [hygiene/src], log rotation, collection of
      snapshot artifacts, what a restarted controller does with what it finds;
    - [Envd]: [envd/src/process.rs];
    - [NodeState], [DiskGuard], [Backend]: [single-node/src/{model,state,disk,
      driver,backend}.rs], the stores and their files, the disk guard and the
      facade that composes scheduler, driver, stores and guard; [BackendInv]
      holds the theorems on it.

    The control plane ([e2b-wire], [e2b-contract], [e2b-server]):
    - [E2bWire] (wire types), [E2bRoutes] (routes, escapes, auth), [E2bRegistry]
      (the registries of sandboxes, pods, templates and volumes, with their
      theorems), [E2bServer] (the backend over its adapter, the dispatcher,
      detached creation, expiration, the state file, the HTTP front);
    - [E2bServerInv], [E2bDurable]: the theorems on the server.

    The runtime ([runtime/src], [template/src], [trace/src]):
    - [ArtifactFiles]: manifests and integrity records as files;
    - [Trace]: event traces, samples and recorders;
    - [RuntimeRestore]: [disk.rs], [preflight.rs], [restore.rs] and
      [continuation.rs], restoring a session from a snapshot;
    - [RuntimePool]: [warm_pool.rs], the pool that retains restored sessions;
    - [Template]: freshness gates and template builds, host and guest;
    - [FirkinAdapter]: [adapter.rs], the runtime adapter, every operation cut
      where the source takes and gives up its mutex, and the requests in flight
      as steps on the shared state; [FirkinAdapterInv] holds the theorems;
    - [RuntimeProcesses]: the processes and interactive handles of a sandbox
      ([adapter.rs], [interactive.rs]) and their isolation;
    - [SessionFiles]: the file operations of a sandbox ([adapter.rs],
      [hygiene.rs]), shell commands and the parsing of what they print.

    Containers and pods ([core/src], [oci/src/runtime_spec.rs],
    [vminitd-client/src/{bundle,guest_ops}.rs]):
    - [ContainerSpec]: from a builder to the OCI runtime specification;
    - [PodLayout]: declarations of pods, the paths of the pod store and the
      requests to the guest agent;
    - [Pod]: the operations of a pod, with the phases of an add and of a wait
      ([single-node/src/apple_vz.rs]) as steps; [PodInv] holds the theorems.

    The envd service ([e2b-server/src/envd_http.rs]) and the way to it:
    - [EnvdHttp]: framing, the three wire encodings, uploads and the routes to
      an adapter ([EnvdAdapter]);
    - [EnvdHost]: the adapter over the files and processes of a host, with the
      tasks of a streamed process as steps;
    - [DomainProxy]: [domain_proxy.rs], routing, pooled connections and upgrade
      answers;
    - [HostRuntime]: the runtime adapter that runs sandboxes as directories and
      processes of the host ([backend.rs]), an instance of [RuntimeAdapter];
      [HostRuntimeInv] holds the theorems.

    The public sandbox API ([sandbox/src], [single-node/src/sandbox_api.rs]):
    - [SandboxApi]: its vocabulary (requests, templates, commands, errors);
    - [RetainedShell]: the shells kept open between the commands of a sandbox,
      the framing of a command in the shell's input and output;
    - [SandboxNode]: the implementation over [Backend] (templates, warm pool,
      sandboxes, processes, files, snapshots); [SandboxNodeInv] holds the
      theorems.

    Evidence ([evidence/src]):
    - [Float64]: [f64] as bits over the standard library's IEEE 754, and the
      two orders on it;
    - [MetricCatalog]: the tables of metrics, owners, scorecards and contracts
      ([catalog.rs], [metric_contract.rs]) and their lookups;
    - [MetricDerive]: samples derived from event traces ([derive.rs]);
    - [Evidence]: summaries, reports, SLO gates and soak evidence
      ([benchmark.rs], [lifecycle.rs], [overhead.rs], [slo.rs], [soak.rs]);
    - [Scorecard]: the three scorecards, their targets and what keeps them from
      being promoted ([scorecard.rs]).

    ** How code becomes definitions

    A [Result] is [result], a call that may also panic is [exec].  Code that
    changes state is a state-passing function whose new state is returned on
    the error branch too, so that what a failing call leaves behind can be
    stated ([Ext4Tree], [HostFs], [Backend]).  Integers are [Z]; where the
    source wraps or saturates the model writes [wrap] or [sat_add].  A
    [BTreeMap] is a key-sorted association list or a [gmap] listed in key
    order, a [HashMap] a [gmap].  A mutex is a flag (poisoned or not) beside
    the value.  Traits are classes: [ReservationSide] (the sides of the
    ledger), [Sink] ([Write + Seek]), [RuntimeDriver], [RuntimeAdapter],
    [DiskPressureProbe], [SnapshotSessionLauncher], [RuntimeSession],
    [RuntimeCommandRunner], [RuntimeInteractiveProcessRunner],
    [RuntimeCommandStreamRunner], [Guest] (the guest agent and its machine),
    [EnvdAdapter], [HostOs] and [HostRt] (the operating system of the host adapters);
    the answers of an image registry are a record ([Registry]); documents are [Json], [WireJson], [StateJson] and
    [Serde].  The laws a theorem needs are classes of their own
    ([SerdeRoundtrip], [SerdeTotal], [SessionIdentity]), with instances that
    show they can hold; a runtime adapter has none, it is watched instead
    ([E2bServerInv.Observed]).  Third-party code (gzip, SHA-256,
    [serde_json], [tar], [df], [git]) enters as a parameter or as input data.
    Code that gives up a mutex in the middle of an operation is one definition
    per section, and a step relation interleaves the sections.

    ** What is shown

    - Capacity: no sequence of reservations over-commits the ledger or the
      scheduler; a warm pool's entries add up to the warm reservation; the
      planners' plans can be carried out and do what they say.
    - Node (with a driver, sessions created under identities not in use): what
      the sessions of a node reserve is what its scheduler has admitted, through
      every operation and every fault; a failed creation leaves nothing behind;
      a restart recovers the sessions on disk.  [BackendInv] also has what a
      duplicate identity and a node without a driver do.
    - Tree (whose root is never removed): the builder refines a map from paths
      to entries, with failures that change nothing; layers without a bare
      [.wh.] at the top, and host trees, act on that map.  [Ext4Limits] has
      what removing the root does.
    - Image: directories, extents and attributes read back as written;
      bitmaps, descriptors and superblock agree; inode numbers are unique;
      the estimate of block groups ends and is enough.
    - Host: rotation shifts logs and survives faults, collection keeps what is
      referenced, state files round-trip, the disk guard is sound.
    - Parsers: references, proxy hosts and host names round-trip or agree with
      their compile-time twins.
    - Images of a registry: a pulled layer has the digest it is named by,
      whatever the registry sends and whatever fails, and a pulled bundle is
      found again.
    - Containers and pods: mounts are ordered parents first; the directories
      of a pod never overlap; the registry of a pod stays consistent in every
      interleaving and no started container is forgotten; an image is unpacked
      once, its layers in order; a pod that booted comes up whole or is stopped.
    - Envd: a client's call carries out exactly the operation it means and its
      answer reads back, in every encoding in which it can; the host adapter stays below its
      root, lists directories completely, reports exactly what changed in a
      watched one, and what it streams of a process is what it records; the
      proxy never mixes up the connections it keeps.
    - Control plane: the registry holds what the adapter has acknowledged, in
      every interleaving of requests and detached creations; a change
      that was answered is on disk, a save is atomic, every route reaches its
      operation, expiration is exact, volumes and templates keep their form; the
      host runtime keeps the adapter's contract and every job it starts belongs
      to one sandbox.
    - Sandbox API: a command run through a retained shell gives its output and
      exit code and leaves the shell ready for the next one, every argument
      vector is quoted to words the shell reads back; a warm sandbox is leased
      to one caller at a time, in every sequence of calls.
    - Evidence: the tables agree with each other and every metric has one
      owner; derived samples are exactly the spans between the first successful
      start and end events of a contract row;
      percentiles are nearest ranks, a passed gate bounds the samples, and a
      scorecard without blockers is backed by samples tagged as live.
    - Runtime: a restore is all or nothing and refuses an artifact that is not
      the recorded one; the warm pool never loses a session; the adapter's
      ledger accounts for every session and request in every interleaving, and
      every session launched is active, warm, in flight or stopped; a full
      recorder keeps lifecycle samples; the process requests of one sandbox
      cannot be told apart from a run without the others; listings parse back;
      a closed freshness gate keeps files as they are.

    ** Fuel

    Every loop that is not structural takes fuel that the proofs show to be
    enough: [delete_subtree] and the breadth-first numbering take the length
    of the arena (a node is visited once), [add_dir] the length of its path
    (every recursive call drops a component), the estimate of block groups
    and of inodes per group a bound of the quantity that grows, the extent
    splitter the number of blocks left, directory packing and reading the
    number of entries, eviction the number of retained entries, and decimal
    printing the binary logarithm of the number.  Frames are cut with the
    length of the body as fuel, a directory listing with the number of
    directories below it ([EnvdHost.host_listing_exact]).  The state lock is tried fifty
    times because the source tries it fifty times.

    ** Not modelled

    The bindings to Virtualization.framework ([vmm]), the gRPC client of the
    guest agent ([vminitd-client], but for its requests) and [vsock] are
    foreign functions or network I/O; so is the rest of [core], which starts
    machines, moves the bytes of processes and takes snapshots.  [vminitd-bytes] embeds binaries and
    [firkin] re-exports.  The [cli] is argument parsing over the other crates,
    [benchmark] drives live machines and measures them.  Of [e2b-server] the
    copying of bytes by the domain proxy and the accept loops are left out; of [runtime] the servers inside a session and the launcher over the
    virtual machine; of [sandbox] the clients, logs, metrics, events and the
    contract tests.  Concurrency inside an operation
    of the node (its [await] points) is looked at in one concrete interleaving
    only; the adapter's is modelled in full.  Sizes of host memory (allocation
    failure) are ignored. *)
From stdpp Require Export base gmap strings list sorting.
From Stdlib Require Export ZArith Lia ZifyBool ZifyNat Ascii.

#[global] Open Scope Z_scope.

(** ** Outcomes

    [result] is Rust's [Result<A, E>]; [exec] adds the third way a Rust call
    can end, a panic (index out of range, [unwrap] of [None], ...). *)
Inductive result (E A : Type) : Type :=
| Ok (a : A)
| Err (e : E).
Arguments Ok {E A} a.
Arguments Err {E A} e.

Inductive exec (E A : Type) : Type :=
| Done (a : A)
| Failed (e : E)
| Panic.
Arguments Done {E A} a.
Arguments Failed {E A} e.
Arguments Panic {E A}.

#[global] Instance result_ret {E} : MRet (result E) := fun A a => Ok a.
#[global] Instance result_bind {E} : MBind (result E) := fun A B f m =>
  match m with Ok a => f a | Err e => Err e end.
#[global] Instance result_fmap {E} : FMap (result E) := fun A B f m =>
  match m with Ok a => Ok (f a) | Err e => Err e end.
#[global] Instance exec_ret {E} : MRet (exec E) := fun A a => Done a.
#[global] Instance exec_bind {E} : MBind (exec E) := fun A B f m =>
  match m with Done a => f a | Failed e => Failed e | Panic => Panic end.

Definition map_err {E F A} (f : E -> F) (m : result E A) : result F A :=
  match m with Ok a => Ok a | Err e => Err (f e) end.
Definition ok_or {E A} (e : E) (o : option A) : result E A :=
  match o with Some a => Ok a | None => Err e end.
Definition is_ok {E A} (m : result E A) : bool :=
  match m with Ok _ => true | Err _ => false end.

(** [v[i]]: indexing a vector, a panic when out of range. *)
Definition idx {E A} (l : list A) (i : nat) : exec E A :=
  match l !! i with Some a => Done a | None => Panic end.
(** [o.unwrap()]. *)
Definition unwrap {E A} (o : option A) : exec E A :=
  match o with Some a => Done a | None => Panic end.

#[global] Instance result_eq_dec {E A} `{EqDecision E, EqDecision A} :
  EqDecision (result E A).
Proof. solve_decision. Defined.
#[global] Instance exec_eq_dec {E A} `{EqDecision E, EqDecision A} :
  EqDecision (exec E A).
Proof. solve_decision. Defined.

(** ** Machine integers

    A [w]-bit unsigned integer is a [Z] in [[0, 2^w)]; the plain operators
    wrap, the [saturating_*] methods clamp. *)
Definition in_uint (w z : Z) : Prop := 0 <= z < 2 ^ w.
Definition max_uint (w : Z) : Z := 2 ^ w - 1.
Definition wrap (w z : Z) : Z := z mod 2 ^ w.
Definition sat_add (w a b : Z) : Z := Z.min (a + b) (max_uint w).
Definition sat_sub (a b : Z) : Z := Z.max (a - b) 0.
Definition sat_mul (w a b : Z) : Z := Z.min (a * b) (max_uint w).

Abbreviation u8 := 8 (only parsing).
Abbreviation u16 := 16 (only parsing).
Abbreviation u32 := 32 (only parsing).
Abbreviation u64 := 64 (only parsing).

(** ** Proof automation *)
Create HintDb firkin.

(** Case split on the boolean comparisons of the goal, keep the equations. *)
Ltac zcases :=
  repeat match goal with
  | |- context [if ?b then _ else _] => destruct b eqn:?
  | |- context [match ?o with Some _ => _ | None => _ end] => destruct o eqn:?
  end.

(** Unfold the arithmetic of machine integers and solve linearly. *)
Ltac uint_lia :=
  intros; unfold sat_add, sat_sub, sat_mul, in_uint, max_uint in *; lia.

(** Open one layer of a monadic computation known to have succeeded. *)
Ltac bind_inv H :=
  match type of H with
  | (mbind _ ?m = _) => destruct m eqn:?; simpl in H; try discriminate H
  end.

Lemma wrap_small w z : in_uint w z -> wrap w z = z.
Proof. unfold in_uint, wrap. intros. by apply Z.mod_small. Qed.

Lemma wrap_range w z : 0 <= w -> in_uint w (wrap w z).
Proof. unfold in_uint, wrap. intros. apply Z.mod_pos_bound. by apply Z.pow_pos_nonneg. Qed.

Lemma sat_add_exact w a b : a + b <= max_uint w -> sat_add w a b = a + b.
Proof. uint_lia. Qed.

Lemma sat_add_range w a b :
  0 <= w -> in_uint w a -> in_uint w b -> in_uint w (sat_add w a b).
Proof. intros. uint_lia. Qed.

Lemma sat_sub_range w a b : in_uint w a -> 0 <= b -> in_uint w (sat_sub a b).
Proof. uint_lia. Qed.

#[export] Hint Resolve wrap_range sat_add_range sat_sub_range : firkin.

(** ** Sums over lists *)
Fixpoint sumZ {A} (f : A -> Z) (l : list A) : Z :=
  match l with [] => 0 | x :: l => f x + sumZ f l end.

Lemma sumZ_app {A} (f : A -> Z) l k : sumZ f (l ++ k) = sumZ f l + sumZ f k.
Proof. induction l; simpl; lia. Qed.

Lemma sumZ_nonneg {A} (f : A -> Z) l :
  Forall (fun x => 0 <= f x) l -> 0 <= sumZ f l.
Proof. induction 1; simpl; lia. Qed.

Lemma sumZ_ext {A} (f g : A -> Z) l :
  Forall (fun x => f x = g x) l -> sumZ f l = sumZ g l.
Proof. induction 1; simpl; lia. Qed.

Lemma sumZ_perm {A} (f : A -> Z) l k : l ≡ₚ k -> sumZ f l = sumZ f k.
Proof. induction 1; simpl; lia. Qed.

(** ** Byte strings

    A Rust [str] is its UTF-8 bytes, so a [string] of 8-bit characters;
    [len] counts bytes, [chars().count()] the bytes that do not continue a
    code point. *)
Definition bytes (s : string) : list ascii := String.list_ascii_of_string s.
Definition code (c : ascii) : Z := Z.of_N (N_of_ascii c).
Definition len (s : string) : Z := Z.of_nat (String.length s).
Definition is_empty (s : string) : bool :=
  match s with EmptyString => true | _ => false end.
Definition all_bytes (f : ascii -> bool) (s : string) : bool := forallb f (bytes s).
Definition is_char_start (c : ascii) : bool :=
  negb ((128 <=? code c) && (code c <? 192)).
Definition chars_count (s : string) : Z :=
  Z.of_nat (length (List.filter is_char_start (bytes s))).

Definition is_ascii_digit (c : ascii) : bool :=
  (48 <=? code c) && (code c <=? 57).
Definition is_ascii_alphanumeric (c : ascii) : bool :=
  is_ascii_digit c || ((65 <=? code c) && (code c <=? 90))
  || ((97 <=? code c) && (code c <=? 122)).

Definition chr (s : string) : ascii :=
  match s with String c _ => c | EmptyString => Ascii.zero end.

(** [s.strip_suffix(suf)]. *)
Fixpoint strip_suffix (suf s : string) : option string :=
  if String.eqb s suf then Some EmptyString
  else match s with
       | EmptyString => None
       | String c s => option_map (String c) (strip_suffix suf s)
       end.
(** [s.strip_prefix(pre)]. *)
Fixpoint strip_prefix (pre s : string) : option string :=
  match pre, s with
  | EmptyString, _ => Some s
  | String p pre, String c s => if Ascii.eqb p c then strip_prefix pre s else None
  | String _ _, EmptyString => None
  end.
(** [s.split_once(c)]: split at the first occurrence. *)
Fixpoint split_once (c : ascii) (s : string) : option (string * string) :=
  match s with
  | EmptyString => None
  | String d s =>
      if Ascii.eqb c d then Some (EmptyString, s)
      else match split_once c s with
           | Some (a, b) => Some (String d a, b)
           | None => None
           end
  end.
(** [s.rsplit_once(c)]: split at the last occurrence. *)
Fixpoint rsplit_once (c : ascii) (s : string) : option (string * string) :=
  match s with
  | EmptyString => None
  | String d s =>
      match rsplit_once c s with
      | Some (a, b) => Some (String d a, b)
      | None => if Ascii.eqb c d then Some (EmptyString, s) else None
      end
  end.
(** [s.split(c).collect()]. *)
Fixpoint split (c : ascii) (s : string) : list string :=
  match s with
  | EmptyString => [EmptyString]
  | String d s =>
      if Ascii.eqb c d then EmptyString :: split c s
      else match split c s with
           | [] => [String d EmptyString]
           | h :: t => String d h :: t
           end
  end.
Definition contains (c : ascii) (s : string) : bool :=
  existsb (Ascii.eqb c) (bytes s).
Definition starts_with (c : ascii) (s : string) : bool :=
  match s with String d _ => Ascii.eqb c d | EmptyString => false end.
Fixpoint ends_with (c : ascii) (s : string) : bool :=
  match s with
  | EmptyString => false
  | String d EmptyString => Ascii.eqb c d
  | String _ s => ends_with c s
  end.
Fixpoint join (sep : string) (l : list string) : string :=
  match l with
  | [] => EmptyString
  | [s] => s
  | s :: l => (s +:+ sep +:+ join sep l)%string
  end.

(** *** Decimal numbers: [{}] of an unsigned integer and [str::parse]. *)
Definition digit (d : Z) : ascii := ascii_of_N (Z.to_N (48 + d)).
Fixpoint print_dec_aux (fuel : nat) (n : Z) (acc : string) : string :=
  match fuel with
  | O => acc
  | S fuel =>
      if n <? 10 then String (digit n) acc
      else print_dec_aux fuel (n / 10) (String (digit (n mod 10)) acc)
  end.
(** [1 + log2 n] decimal digits are more than enough for [n]. *)
Definition print_dec (n : Z) : string :=
  print_dec_aux (S (Z.to_nat (Z.log2 n))) n EmptyString.

Fixpoint parse_digits (w acc : Z) (s : string) : option Z :=
  match s with
  | EmptyString => Some acc
  | String c s =>
      if is_ascii_digit c then
        let acc := acc * 10 + (code c - 48) in
        if acc <=? max_uint w then parse_digits w acc s else None
      else None
  end.
(** [str::parse::<uW>()]: an optional [+], then at least one digit, checked
    against the width. *)
Definition parse_uint (w : Z) (s : string) : option Z :=
  match s with
  | EmptyString => None
  | String c rest =>
      if Ascii.eqb c "+" then
        match rest with EmptyString => None | _ => parse_digits w 0 rest end
      else parse_digits w 0 s
  end.

(** *** Lemmas on strings *)
Lemma is_empty_true s : is_empty s = true <-> s = EmptyString.
Proof. destruct s; simpl; split; congruence. Qed.
Lemma is_empty_false s : is_empty s = false <-> s <> EmptyString.
Proof. destruct s; simpl; split; congruence. Qed.

Lemma append_cons c s t : String c s +:+ t = String c (s +:+ t).
Proof. done. Qed.
Lemma append_nil_l t : EmptyString +:+ t = t.
Proof. done. Qed.
Lemma bytes_app s t : bytes (s +:+ t) = bytes s ++ bytes t.
Proof. induction s; simpl; [done | congruence]. Qed.
Lemma length_bytes s : length (bytes s) = String.length s.
Proof. induction s; simpl; [done | congruence]. Qed.
Lemma all_bytes_app f s t : all_bytes f (s +:+ t) = all_bytes f s && all_bytes f t.
Proof. unfold all_bytes. rewrite bytes_app. apply forallb_app. Qed.
Lemma contains_app c s t : contains c (s +:+ t) = contains c s || contains c t.
Proof. unfold contains. rewrite bytes_app. apply existsb_app. Qed.
Lemma contains_cons c d s : contains c (String d s) = Ascii.eqb c d || contains c s.
Proof. done. Qed.
Lemma length_append s t :
  String.length (s +:+ t) = (String.length s + String.length t)%nat.
Proof. induction s; simpl; [done | congruence]. Qed.
Lemma len_append s t : len (s +:+ t) = len s + len t.
Proof. unfold len. rewrite length_append. lia. Qed.
Lemma append_nil_r s : s +:+ EmptyString = s.
Proof. induction s as [|c s IH]; [done|]. by rewrite append_cons, IH. Qed.
Lemma append_assoc s t u : (s +:+ t) +:+ u = s +:+ (t +:+ u).
Proof. induction s as [|c s IH]; [done|]. by rewrite !append_cons, IH. Qed.

Lemma append_inj_l s t u : s +:+ t = s +:+ u -> t = u.
Proof. induction s as [|c s IH]; [done|]. rewrite !append_cons. intros [= E]. auto. Qed.

Lemma strip_suffix_eq suf s :
  strip_suffix suf s =
    if String.eqb s suf then Some EmptyString
    else match s with
         | EmptyString => None
         | String c s => option_map (String c) (strip_suffix suf s)
         end.
Proof. by destruct s. Qed.
Lemma strip_suffix_app suf p : strip_suffix suf (p +:+ suf) = Some p.
Proof.
  induction p as [|c p IH]; rewrite ?append_cons, strip_suffix_eq.
  - by rewrite append_nil_l, String.eqb_refl.
  - destruct (String.eqb_spec (String c (p +:+ suf)) suf) as [E|_].
    + apply (f_equal String.length) in E. simpl in E.
      rewrite length_append in E. lia.
    + by rewrite IH.
Qed.
Lemma strip_suffix_sound suf s p : strip_suffix suf s = Some p -> s = p +:+ suf.
Proof.
  revert p. induction s as [|c s IH]; intros p; rewrite strip_suffix_eq.
  - destruct (String.eqb_spec EmptyString suf) as [<-|]; [by intros [= <-]|done].
  - destruct (String.eqb_spec (String c s) suf) as [E|_].
    + intros [= <-]. done.
    + destruct (strip_suffix suf s) as [q|] eqn:Hq; simpl; [|done].
      intros [= <-]. rewrite append_cons. f_equal. by apply IH.
Qed.

Lemma strip_prefix_app pre s : strip_prefix pre (pre +:+ s) = Some s.
Proof.
  induction pre as [|c pre IH]; [by destruct s|]. rewrite append_cons. simpl.
  by rewrite Ascii.eqb_refl.
Qed.
Lemma strip_prefix_sound pre s r : strip_prefix pre s = Some r -> s = pre +:+ r.
Proof.
  revert s. induction pre as [|p pre IH]; intros [|c s]; simpl;
    try (by intros [= <-]); try done.
  destruct (Ascii.eqb_spec p c) as [->|]; [|done]. intros. rewrite append_cons. f_equal. auto.
Qed.

Lemma split_once_app c a b :
  contains c a = false -> split_once c (a +:+ String c b) = Some (a, b).
Proof.
  induction a as [|d a IH]; [simpl; by rewrite Ascii.eqb_refl|].
  rewrite append_cons, contains_cons. intros [Hd Ha]%orb_false_iff. simpl.
  by rewrite Hd, IH.
Qed.
Lemma split_once_sound c s a b :
  split_once c s = Some (a, b) -> s = a +:+ String c b /\ contains c a = false.
Proof.
  revert a. induction s as [|d s IH]; intros a; simpl; [done|].
  destruct (Ascii.eqb_spec c d) as [<-|Hne]; [by intros [= <- <-]|].
  destruct (split_once c s) as [[a' b']|]; [|done]. intros [= <- <-].
  destruct (IH a') as [-> Ha']; [done|]. rewrite contains_cons, append_cons, Ha'.
  by apply Ascii.eqb_neq in Hne as ->.
Qed.
Lemma split_once_none c s : split_once c s = None <-> contains c s = false.
Proof.
  induction s as [|d s IH]; simpl; [done|]. rewrite contains_cons.
  destruct (Ascii.eqb c d); simpl; [done|]. rewrite <- IH.
  by destruct (split_once c s) as [[]|].
Qed.

Lemma split_nonempty c s : split c s <> [].
Proof. destruct s; simpl; [done|]. destruct (Ascii.eqb c a); [done|]. by destruct (split c s). Qed.

(** *** Decimal round trip *)
Lemma code_digit d : 0 <= d <= 9 -> code (digit d) = 48 + d.
Proof.
  intros. assert (d = 0 \/ d = 1 \/ d = 2 \/ d = 3 \/ d = 4 \/ d = 5 \/ d = 6
    \/ d = 7 \/ d = 8 \/ d = 9) by lia.
  by destruct_or!; subst.
Qed.
Lemma is_ascii_digit_digit d : 0 <= d <= 9 -> is_ascii_digit (digit d) = true.
Proof. intros. unfold is_ascii_digit. rewrite code_digit; lia. Qed.

Lemma parse_print_aux w fuel n tail :
  0 <= n <= max_uint w -> n < 10 ^ Z.of_nat fuel ->
  parse_digits w 0 (print_dec_aux fuel n tail) = parse_digits w n tail.
Proof.
  revert n tail. induction fuel as [|fuel IH]; intros n tail Hn Hf.
  { simpl in *. by replace n with 0 by lia. }
  rewrite Nat2Z.inj_succ, Z.pow_succ_r in Hf by lia. cbn [print_dec_aux].
  destruct (n <? 10) eqn:H10.
  - cbn [parse_digits]. rewrite is_ascii_digit_digit, code_digit by lia.
    replace (0 * 10 + (48 + n - 48)) with n by lia.
    by replace (n <=? max_uint w) with true by lia.
  - rewrite IH by (try split; try apply Z.div_lt_upper_bound; Z.to_euclidean_division_equations; lia).
    cbn [parse_digits]. pose proof (Z.mod_pos_bound n 10).
    rewrite is_ascii_digit_digit, code_digit by lia.
    replace (n / 10 * 10 + (48 + n mod 10 - 48)) with n
      by (Z.to_euclidean_division_equations; lia).
    by replace (n <=? max_uint w) with true by lia.
Qed.

Lemma print_dec_aux_digits fuel n tail :
  0 <= n -> all_bytes is_ascii_digit tail = true ->
  all_bytes is_ascii_digit (print_dec_aux fuel n tail) = true.
Proof.
  revert n tail. induction fuel as [|fuel IH]; intros n tail Hn Ht; [done|].
  cbn [print_dec_aux]. destruct (n <? 10) eqn:?.
  - unfold all_bytes in *. simpl. rewrite is_ascii_digit_digit by lia. done.
  - apply IH; [apply Z.div_pos; lia|]. unfold all_bytes in *. simpl.
    rewrite is_ascii_digit_digit; [done|]. pose proof (Z.mod_pos_bound n 10). lia.
Qed.
Lemma print_dec_digits n : 0 <= n -> all_bytes is_ascii_digit (print_dec n) = true.
Proof. intros. by apply print_dec_aux_digits. Qed.
Lemma print_dec_aux_nonempty fuel n c tail :
  print_dec_aux fuel n (String c tail) <> EmptyString.
Proof. revert n c tail. induction fuel; intros; simpl; [done|]. by destruct (n <? 10). Qed.
Lemma print_dec_nonempty n : print_dec n <> EmptyString.
Proof.
  unfold print_dec. cbn [print_dec_aux]. destruct (n <? 10); [done|].
  apply print_dec_aux_nonempty.
Qed.

Lemma log2_fuel n : 0 <= n -> n < 10 ^ Z.of_nat (S (Z.to_nat (Z.log2 n))).
Proof.
  intros. rewrite Nat2Z.inj_succ, Z2Nat.id by apply Z.log2_nonneg.
  destruct (decide (n = 0)) as [->|]; [done|].
  apply Z.lt_le_trans with (2 ^ Z.succ (Z.log2 n)); [apply Z.log2_spec; lia|].
  apply Z.pow_le_mono_l; lia.
Qed.

Lemma parse_digits_range w acc s n : in_uint w acc -> parse_digits w acc s = Some n -> in_uint w n.
Proof.
  revert acc. induction s as [|c s IH]; intros acc Ha; cbn [parse_digits]; [by intros [= <-]|].
  destruct (is_ascii_digit c) eqn:Ed; [|done]. destruct (acc * 10 + (code c - 48) <=? max_uint w) eqn:El; [|done]. apply IH.
  unfold is_ascii_digit in Ed. unfold in_uint, max_uint in *. lia.
Qed.
Lemma parse_uint_range w s n : 0 < w -> parse_uint w s = Some n -> in_uint w n.
Proof.
  intros Hw. assert (H0 : in_uint w 0) by (split; [lia|]; apply Z.pow_pos_nonneg; lia). unfold parse_uint.
  destruct s as [|c s]; [done|]. destruct (Ascii.eqb c "+"); [destruct s; [done|]|]; by apply parse_digits_range.
Qed.
Lemma parse_uint_print w n : in_uint w n -> parse_uint w (print_dec n) = Some n.
Proof.
  intros Hn. pose proof (print_dec_digits n ltac:(uint_lia)) as Hd.
  pose proof (print_dec_nonempty n). pose proof (log2_fuel n ltac:(uint_lia)).
  unfold parse_uint. destruct (print_dec n) as [|c s] eqn:E; [done|].
  destruct (Ascii.eqb_spec c "+") as [->|]; [by vm_compute in Hd|].
  rewrite <- E. unfold print_dec. rewrite parse_print_aux; uint_lia || done.
Qed.

(** A string over a class of bytes has no byte outside of the class. *)
Lemma all_bytes_no_byte f c s : f c = false -> all_bytes f s = true -> contains c s = false.
Proof.
  intros Hc. induction s as [|d s IH]; [done|]. rewrite contains_cons. simpl.
  unfold all_bytes in *. simpl. intros [Hd Hs]%andb_true_iff. rewrite IH by done.
  destruct (Ascii.eqb_spec c d); [congruence|done].
Qed.
Lemma digits_no_byte c s :
  is_ascii_digit c = false -> all_bytes is_ascii_digit s = true -> contains c s = false.
Proof. apply all_bytes_no_byte. Qed.

(** *** Splitting and joining *)
Definition sep (c : ascii) : string := String c EmptyString.
Lemma split_join c l :
  l <> [] -> Forall (fun s => contains c s = false) l -> split c (join (sep c) l) = l.
Proof.
  intros Hne H. induction H as [|s l Hs H IH]; [done|]. clear Hne.
  assert (Hsingle : split c s = [s]).
  { clear IH H. induction s as [|d s IH]; [done|]. rewrite contains_cons in Hs.
    apply orb_false_iff in Hs as [Hd Hs]. cbn [split]. by rewrite Hd, IH. }
  destruct l as [|s' l]; [done|]. assert (Ht : s' :: l <> []) by done. specialize (IH Ht).
  change (join (sep c) (s :: s' :: l)) with (s +:+ String c (join (sep c) (s' :: l))).
  revert IH. generalize (join (sep c) (s' :: l)). intros r IH. clear Hsingle H.
  induction s as [|d s IHs].
  - rewrite append_nil_l. cbn [split]. by rewrite Ascii.eqb_refl, IH.
  - rewrite contains_cons in Hs. apply orb_false_iff in Hs as [Hd Hs]. rewrite append_cons. cbn [split].
    by rewrite Hd, IHs.
Qed.
Lemma split_single {c} s : contains c s = false -> split c s = [s].
Proof. intros Hc. apply (split_join c [s]); [done|]. by repeat constructor. Qed.
Lemma join_split c s : join (sep c) (split c s) = s.
Proof.
  induction s as [|d s IH]; [done|]. cbn [split]. pose proof (split_nonempty c s) as Hne.
  destruct (Ascii.eqb_spec c d) as [<-|_]; destruct (split c s) as [|h t]; try done.
  - cbn [join] in *. by rewrite append_nil_l, <- IH.
  - destruct t as [|h' t]; cbn [join] in *; by rewrite <- IH.
Qed.
Lemma split_no_sep c s : Forall (fun p => contains c p = false) (split c s).
Proof.
  induction s as [|d s IH]; [by repeat constructor|]. cbn [split].
  destruct (Ascii.eqb c d) eqn:E; [by constructor|]. destruct (split c s) as [|h t].
  - repeat constructor. rewrite contains_cons, E. done.
  - inversion IH; subst. constructor; [|done]. by rewrite contains_cons, E.
Qed.
Lemma contains_join d c l :
  d <> c -> contains d (join (sep c) l) = existsb (contains d) l.
Proof.
  intros Hdc. induction l as [|s l IH]; [done|]. destruct l as [|s' l]; [cbn; by rewrite orb_false_r|].
  change (join (sep c) (s :: s' :: l)) with (s +:+ String c (join (sep c) (s' :: l))).
  rewrite contains_app, contains_cons, IH. apply Ascii.eqb_neq in Hdc as ->. done.
Qed.
Lemma join_snoc c l s : l <> [] -> join (sep c) (l ++ [s]) = join (sep c) l +:+ String c s.
Proof.
  induction l as [|x l IH]; [done|]. intros _. destruct l as [|y l]; [done|].
  change (join (sep c) ((x :: y :: l) ++ [s])) with (x +:+ String c (join (sep c) ((y :: l) ++ [s]))).
  rewrite IH by done. change (join (sep c) (x :: y :: l)) with (x +:+ String c (join (sep c) (y :: l))).
  by rewrite append_assoc, append_cons.
Qed.

#[export] Hint Resolve print_dec_digits print_dec_nonempty split_nonempty : firkin.
