(* ===== verification/BTree.v ===== *)
(** * Ordered maps

    Rust's [BTreeMap<K, V>] as the association list its iterator yields:
    strictly increasing keys.  [OrdKey] is what [derive(Ord)] gives the key
    type; strings compare bytewise, structs field by field. *)
From S2P Require Import Prelude.

Class OrdKey (K : Type) := {
  kcmp : K -> K -> comparison;
  kcmp_eq a b : kcmp a b = Eq <-> a = b;
  kcmp_opp a b : kcmp b a = CompOpp (kcmp a b);
  kcmp_trans a b c : kcmp a b = Lt -> kcmp b c = Lt -> kcmp a c = Lt
}.

(** ** Bytewise order of strings *)
Definition ascii_cmp (a b : ascii) : comparison := N.compare (N_of_ascii a) (N_of_ascii b).
Fixpoint string_cmp (s t : string) : comparison :=
  match s, t with
  | EmptyString, EmptyString => Eq
  | EmptyString, String _ _ => Lt
  | String _ _, EmptyString => Gt
  | String a s, String b t =>
      match ascii_cmp a b with Eq => string_cmp s t | c => c end
  end.

Lemma ascii_cmp_eq a b : ascii_cmp a b = Eq <-> a = b.
Proof.
  unfold ascii_cmp. rewrite N.compare_eq_iff. split; [|by intros ->].
  intros H. rewrite <- (ascii_N_embedding a), H. apply ascii_N_embedding.
Qed.
Lemma ascii_cmp_opp a b : ascii_cmp b a = CompOpp (ascii_cmp a b).
Proof. apply N.compare_antisym. Qed.
Lemma ascii_cmp_trans a b c : ascii_cmp a b = Lt -> ascii_cmp b c = Lt -> ascii_cmp a c = Lt.
Proof. unfold ascii_cmp. rewrite !N.compare_lt_iff. lia. Qed.

#[export, refine] Instance string_ord : OrdKey string := {| kcmp := string_cmp |}.
Proof.
  - induction a as [|x a IH]; intros [|y b]; simpl; try (split; congruence).
    destruct (ascii_cmp x y) eqn:E.
    + apply ascii_cmp_eq in E as ->. rewrite IH. naive_solver.
    + split; [done|]. intros [= -> _]. by rewrite (proj2 (ascii_cmp_eq y y)) in E.
    + split; [done|]. intros [= -> _]. by rewrite (proj2 (ascii_cmp_eq y y)) in E.
  - induction a as [|x a IH]; intros [|y b]; simpl; try done.
    rewrite (ascii_cmp_opp x y). destruct (ascii_cmp x y); simpl; auto.
  - induction a as [|x a IH]; intros [|y b] [|z c]; simpl; try done.
    destruct (ascii_cmp x y) eqn:E1; [|intros _|done].
    + apply ascii_cmp_eq in E1 as ->. destruct (ascii_cmp y z); eauto.
    + destruct (ascii_cmp y z) eqn:E2; [|intros _|done].
      * apply ascii_cmp_eq in E2 as ->. by rewrite E1.
      * by rewrite (ascii_cmp_trans x y z).
Defined.

(** ** Lexicographic order of pairs: [derive(Ord)] on consecutive fields *)
#[export, refine] Instance pair_ord {A B} `{OrdKey A, OrdKey B} : OrdKey (A * B) :=
  {| kcmp p q := match kcmp p.1 q.1 with Eq => kcmp p.2 q.2 | c => c end |}.
Proof.
  - intros [a b] [a' b']. simpl. destruct (kcmp a a') eqn:E.
    + apply kcmp_eq in E as ->. rewrite kcmp_eq. naive_solver.
    + split; [done|]. intros [= -> _]. by rewrite (proj2 (kcmp_eq a' a')) in E.
    + split; [done|]. intros [= -> _]. by rewrite (proj2 (kcmp_eq a' a')) in E.
  - intros [a b] [a' b']. simpl. rewrite (kcmp_opp a a').
    destruct (kcmp a a'); simpl; [apply kcmp_opp|done|done].
  - intros [a1 b1] [a2 b2] [a3 b3]. simpl.
    destruct (kcmp a1 a2) eqn:E1; [|intros _|done].
    + apply kcmp_eq in E1 as ->. destruct (kcmp a2 a3); eauto using kcmp_trans.
    + destruct (kcmp a2 a3) eqn:E2; [|intros _|done].
      * apply kcmp_eq in E2 as ->. by rewrite E1.
      * by rewrite (kcmp_trans a1 a2 a3).
Defined.

Section Map.
Context {K V : Type} `{!OrdKey K}.
Implicit Types (m : list (K * V)) (k : K) (v : V).

(** [m.get(k)] *)
Fixpoint bt_get k m : option V :=
  match m with
  | [] => None
  | (k', v) :: m =>
      match kcmp k k' with Eq => Some v | Lt => None | Gt => bt_get k m end
  end.
(** [m.insert(k, v)] *)
Fixpoint bt_insert k v m : list (K * V) :=
  match m with
  | [] => [(k, v)]
  | (k', v') :: m' =>
      match kcmp k k' with
      | Eq => (k, v) :: m'
      | Lt => (k, v) :: m
      | Gt => (k', v') :: bt_insert k v m'
      end
  end.
(** [m.remove(k)] *)
Fixpoint bt_remove k m : list (K * V) :=
  match m with
  | [] => []
  | (k', v') :: m' =>
      match kcmp k k' with
      | Eq => m'
      | Lt => m
      | Gt => (k', v') :: bt_remove k m'
      end
  end.

Definition klt k k' : Prop := kcmp k k' = Lt.
(** Strictly increasing keys. *)
Fixpoint bt_sorted m : Prop :=
  match m with
  | [] => True
  | (k, _) :: m => Forall (fun p => klt k p.1) m /\ bt_sorted m
  end.

Lemma kcmp_refl k : kcmp k k = Eq.
Proof. by apply kcmp_eq. Qed.
Lemma kcmp_gt k k' : kcmp k k' = Gt -> klt k' k.
Proof. intros H. unfold klt. rewrite kcmp_opp, H. done. Qed.

Lemma bt_insert_forall (P : K -> Prop) k v m :
  P k -> Forall (fun p => P p.1) m -> Forall (fun p => P p.1) (bt_insert k v m).
Proof.
  intros Hk. induction m as [|[k' v'] m IH]; simpl; [by constructor|].
  intros [? ?]%Forall_cons. destruct (kcmp k k'); eauto using Forall_cons_2.
Qed.
Lemma bt_insert_sorted k v m : bt_sorted m -> bt_sorted (bt_insert k v m).
Proof.
  induction m as [|[k' v'] m IH]; simpl; [by repeat constructor|].
  intros [Hf Hs]. destruct (kcmp k k') eqn:E; simpl.
  - apply kcmp_eq in E as ->. done.
  - split_and!; [|done|done]. constructor; [done|].
    eapply Forall_impl; [exact Hf|]. simpl. intros [k'' ?] ?. by eapply kcmp_trans.
  - split; [|by apply IH]. apply bt_insert_forall; [by apply kcmp_gt|done].
Qed.
Lemma bt_remove_forall (P : K * V -> Prop) k m :
  Forall P m -> Forall P (bt_remove k m).
Proof.
  induction m as [|[k' v'] m IH]; simpl; [done|]. intros [? ?]%Forall_cons.
  destruct (kcmp k k'); eauto using Forall_cons_2.
Qed.
Lemma bt_remove_sorted k m : bt_sorted m -> bt_sorted (bt_remove k m).
Proof.
  induction m as [|[k' v'] m IH]; simpl; [done|]. intros [Hf Hs].
  destruct (kcmp k k'); simpl; [done|done|]. split; [|by apply IH].
  by apply bt_remove_forall.
Qed.

(** Splitting a sorted map at a key it holds. *)
Lemma bt_get_split k v m :
  bt_sorted m -> bt_get k m = Some v ->
  exists m1 m2, m = m1 ++ (k, v) :: m2 /\
    (forall v', bt_insert k v' m = m1 ++ (k, v') :: m2) /\ bt_remove k m = m1 ++ m2.
Proof.
  induction m as [|[k' v'] m IH]; simpl; [done|]. intros [Hf Hs].
  destruct (kcmp k k') eqn:E; [|done|].
  - intros [= ->]. apply kcmp_eq in E as ->. by exists [], m.
  - intros Hg. destruct (IH Hs Hg) as (m1 & m2 & -> & Hi & Hr).
    exists ((k', v') :: m1), m2. split_and!; [done| |by rewrite Hr].
    intros v''. by rewrite Hi.
Qed.
Lemma bt_get_none_split k m :
  bt_sorted m -> bt_get k m = None ->
  exists m1 m2, m = m1 ++ m2 /\ forall v, bt_insert k v m = m1 ++ (k, v) :: m2.
Proof.
  induction m as [|[k' v'] m IH]; simpl; [by exists [], []|]. intros [Hf Hs].
  destruct (kcmp k k') eqn:E; [done| |].
  - intros _. by exists [], ((k', v') :: m).
  - intros Hg. destruct (IH Hs Hg) as (m1 & m2 & -> & Hi).
    exists ((k', v') :: m1), m2. split; [done|]. intros v. by rewrite Hi.
Qed.
Lemma bt_insert_head k v v' m : bt_insert k v ((k, v') :: m) = (k, v) :: m.
Proof. simpl. by rewrite kcmp_refl. Qed.
Lemma bt_remove_head k v' m : bt_remove k ((k, v') :: m) = m.
Proof. simpl. by rewrite kcmp_refl. Qed.
Lemma bt_get_head k v m : bt_get k ((k, v) :: m) = Some v.
Proof. simpl. by rewrite kcmp_refl. Qed.
Lemma bt_get_insert k v m : bt_get k (bt_insert k v m) = Some v.
Proof.
  induction m as [|[k' v'] m IH]; simpl; [by rewrite kcmp_refl|].
  destruct (kcmp k k') eqn:E; simpl; by rewrite ?kcmp_refl, ?E.
Qed.

(** A sorted map holds what it lists. *)
Lemma bt_get_small k m : Forall (fun p => klt k p.1) m -> bt_get k m = None.
Proof. intros Hf. destruct m as [|[k' v] m]; [done|]. apply Forall_cons in Hf as [Hk _]. cbn in *. by rewrite Hk. Qed.
Lemma bt_get_elem k v m : bt_sorted m -> bt_get k m = Some v <-> (k, v) ∈ m.
Proof.
  induction m as [|[k' v'] m IH]; cbn [bt_sorted bt_get]; [by rewrite elem_of_nil|]. intros [Hf Hs]. rewrite elem_of_cons. destruct (kcmp k k') eqn:E.
  - apply kcmp_eq in E as ->. split; [intros [= ->]; by left|]. intros [[= ->]|Hin]; [done|]. rewrite Forall_forall in Hf.
    specialize (Hf _ Hin). unfold klt in Hf. cbn in Hf. by rewrite kcmp_refl in Hf.
  - split; [done|]. intros [[= -> _]|Hin]; [by rewrite kcmp_refl in E|]. rewrite Forall_forall in Hf. specialize (Hf _ Hin). unfold klt in Hf. cbn in Hf.
    pose proof (kcmp_trans _ _ _ E Hf) as Hc. by rewrite kcmp_refl in Hc.
  - rewrite (IH Hs). split; [by right|]. intros [[= -> _]|Hin]; [by rewrite kcmp_refl in E|done].
Qed.
Lemma bt_sorted_keys m : bt_sorted m -> NoDup m.*1.
Proof.
  induction m as [|[k v] m IH]; cbn [bt_sorted]; [constructor|]. intros [Hf Hs]. rewrite fmap_cons. constructor; [|by apply IH].
  intros ([k' v'] & E & Hin)%list_elem_of_fmap. cbn in E. subst k'. rewrite Forall_forall in Hf. specialize (Hf _ Hin). unfold klt in Hf. cbn in Hf.
  by rewrite kcmp_refl in Hf.
Qed.
Lemma bt_get_insert_ne k k' v m : bt_sorted m -> k <> k' -> bt_get k (bt_insert k' v m) = bt_get k m.
Proof.
  intros Hs Hne. induction m as [|[k1 v1] m IH]; cbn [bt_insert bt_get bt_sorted] in *.
  - destruct (kcmp k k') eqn:E; [by apply kcmp_eq in E|done|done].
  - destruct Hs as [Hf Hs]. destruct (kcmp k' k1) eqn:E1; cbn [bt_get].
    + apply kcmp_eq in E1 as ->. destruct (kcmp k k1) eqn:E; [by apply kcmp_eq in E|done|done].
    + destruct (kcmp k k') eqn:E; [by apply kcmp_eq in E| |done]. by rewrite (kcmp_trans _ _ _ E E1).
    + destruct (kcmp k k1) eqn:E; [done|done|]. by apply IH.
Qed.
Lemma bt_ext m1 m2 : bt_sorted m1 -> bt_sorted m2 -> (forall k, bt_get k m1 = bt_get k m2) -> m1 = m2.
Proof.
  revert m2. induction m1 as [|[k1 v1] m1 IH]; intros [|[k2 v2] m2] H1 H2 He; [done|specialize (He k2); cbn in He; by rewrite kcmp_refl in He|
    specialize (He k1); cbn in He; by rewrite kcmp_refl in He|]. cbn [bt_sorted] in *. destruct H1 as [F1 S1], H2 as [F2 S2].
  assert (Hk : kcmp k1 k2 = Eq).
  { pose proof (He k1) as E1. pose proof (He k2) as E2. cbn [bt_get] in E1, E2. rewrite kcmp_refl in E1, E2. rewrite (kcmp_opp k1 k2) in E2.
    destruct (kcmp k1 k2) eqn:E; [done|done|]. cbn in E2. done. }
  apply kcmp_eq in Hk as ->. pose proof (He k2) as E. cbn [bt_get] in E. rewrite kcmp_refl in E. injection E as ->. f_equal. apply IH; [done..|].
  intros k. specialize (He k). cbn [bt_get] in He. destruct (kcmp k k2) eqn:E; [|by rewrite !bt_get_small by
    (eapply Forall_impl; [eassumption|]; intros p Hp; by eapply kcmp_trans)|done]. apply kcmp_eq in E as ->. by rewrite !bt_get_small.
Qed.
End Map.

(** ** Hashed maps listed in key order

    A [BTreeMap] whose order shows only when it is listed is a [gmap]; [entries]
    is what its iterator yields. *)
Definition entries {V} (m : gmap string V) : list (string * V) :=
  foldr (fun p acc => bt_insert p.1 p.2 acc) [] (map_to_list m).

Lemma bt_insert_perm {V} (k : string) (v : V) m :
  Forall (fun p => p.1 <> k) m -> bt_insert k v m ≡ₚ (k, v) :: m.
Proof.
  induction 1 as [|[k' v'] m Hk _ IH]; [done|]. cbn [bt_insert]. destruct (kcmp k k') eqn:E; [|done|].
  - apply kcmp_eq in E. simpl in Hk. congruence.
  - rewrite IH. apply Permutation_swap.
Qed.
Lemma entries_perm {V} (m : gmap string V) : entries m ≡ₚ map_to_list m.
Proof.
  unfold entries. pose proof (NoDup_fst_map_to_list m) as Hnd. induction (map_to_list m) as [|[k v] l IH]; [done|].
  rewrite fmap_cons, NoDup_cons in Hnd. destruct Hnd as [Hk Hnd]. cbn [foldr fst snd].
  rewrite bt_insert_perm; [by rewrite IH|]. rewrite (IH Hnd). apply Forall_forall. intros [k' v'] Hin; simpl; intros ->.
  apply Hk. by apply (list_elem_of_fmap_2 fst) in Hin.
Qed.
Lemma elem_of_entries {V} (m : gmap string V) k v : (k, v) ∈ entries m <-> m !! k = Some v.
Proof. rewrite entries_perm. apply elem_of_map_to_list. Qed.
Lemma entries_sorted {V} (m : gmap string V) : bt_sorted (entries m).
Proof. unfold entries. induction (map_to_list m); [done|]. by apply bt_insert_sorted. Qed.
Lemma NoDup_entries {V} (m : gmap string V) : NoDup (entries m).*1.
Proof. rewrite entries_perm. apply NoDup_fst_map_to_list. Qed.
