(* ===== verification/Types.v ===== *)
(** * Shared value types ([crates/types/src/lib.rs])

    [Ids]: container and process identities and virtiofs tags, with the
    run-time validators and the [const fn] validators of the [container_id!]
    and [virtiofs_tag!] macros.  [Hostnames]: hostnames, again with both
    validators.  [ProxyHosts]: the [{port}-{sandbox}.{domain}] routing host,
    its parser and printer.  [Network]: the sandbox network policy.
    [Sizes]: byte sizes with saturating arithmetic. *)
From S2P Require Import Prelude.

(** ** Identities *)
Module Ids.

Definition is_id_byte (byte : ascii) : bool :=
  is_ascii_alphanumeric byte || Ascii.eqb byte "_" || Ascii.eqb byte "."
  || Ascii.eqb byte "-".
Definition is_printable_ascii (byte : ascii) : bool :=
  (32 <=? code byte) && (code byte <=? 126).

Inductive IdValidationError := IdEmpty | IdTooLong | IdForbiddenChars.
Inductive InvalidContainerId :=
| Empty
| TooLong (s : string)
| ForbiddenChars (s : string).
Inductive InvalidProcessId :=
| PEmpty
| PTooLong (s : string)
| PForbiddenChars (s : string).

Definition into_container_error (e : IdValidationError) (value : string) : InvalidContainerId :=
  match e with
  | IdEmpty => Empty
  | IdTooLong => TooLong value
  | IdForbiddenChars => ForbiddenChars value
  end.
Definition into_process_error (e : IdValidationError) (value : string) : InvalidProcessId :=
  match e with
  | IdEmpty => PEmpty
  | IdTooLong => PTooLong value
  | IdForbiddenChars => PForbiddenChars value
  end.

Definition validate_id_runtime (s : string) : result IdValidationError unit :=
  if is_empty s then Err IdEmpty
  else if 64 <? chars_count s then Err IdTooLong
  else if negb (all_bytes is_id_byte s) then Err IdForbiddenChars
  else Ok tt.

Record ContainerId := mk_ContainerId { container_str : string }.
Record ProcessId := mk_ProcessId { process_str : string }.

Definition ContainerId_new (s : string) : result InvalidContainerId ContainerId :=
  _ ← map_err (fun e => into_container_error e s) (validate_id_runtime s);
  Ok (mk_ContainerId s).
Definition ProcessId_new (s : string) : result InvalidProcessId ProcessId :=
  _ ← map_err (fun e => into_process_error e s) (validate_id_runtime s);
  Ok (mk_ProcessId s).

#[global] Instance ContainerId_eq_dec : EqDecision ContainerId.
Proof. solve_decision. Defined.

(** The [const fn] validator of a literal: [true] when every [assert!] holds.
    The [while] loop runs [i] from [0] to [bytes.len()]. *)
Fixpoint id_literal_loop (bs : list ascii) (i fuel : nat) : bool :=
  match fuel with
  | O => true
  | S fuel =>
      match bs !! i with
      | Some b => is_id_byte b && id_literal_loop bs (S i) fuel
      | None => false
      end
  end.
Definition validate_id_literal (s : string) : bool :=
  let bs := bytes s in
  negb (is_empty s) && (Z.of_nat (length bs) <=? 64)
  && id_literal_loop bs 0 (length bs).

Inductive InvalidVirtiofsTag :=
| TagEmpty
| TagTooLong (s : string)
| TagForbiddenChars (s : string).
Definition validate_virtiofs_tag_runtime (s : string) : result InvalidVirtiofsTag unit :=
  if is_empty s then Err TagEmpty
  else if 36 <? len s then Err (TagTooLong s)
  else if negb (all_bytes is_printable_ascii s) then Err (TagForbiddenChars s)
  else Ok tt.
Record VirtiofsTag := mk_VirtiofsTag { tag_str : string }.
Definition VirtiofsTag_new (s : string) : result InvalidVirtiofsTag VirtiofsTag :=
  _ ← validate_virtiofs_tag_runtime s; Ok (mk_VirtiofsTag s).

(** The specification shared by both validators of an id. *)
Definition valid_id (s : string) : Prop :=
  s <> EmptyString /\ len s <= 64 /\ all_bytes is_id_byte s = true.

Lemma id_byte_char_start c : is_id_byte c = true -> is_char_start c = true.
Proof.
  unfold is_id_byte. rewrite !orb_true_iff, !Ascii.eqb_eq.
  intros [[[H| ->]| ->]| ->]; try done.
  unfold is_ascii_alphanumeric, is_ascii_digit in H. unfold is_char_start. lia.
Qed.
Lemma chars_count_ids s : all_bytes is_id_byte s = true -> chars_count s = len s.
Proof.
  unfold all_bytes, chars_count, len. intros H. f_equal.
  rewrite <- length_bytes. f_equal.
  induction (bytes s) as [|c l IH]; [done|]. simpl in *.
  apply andb_true_iff in H as [Hc Hl]. rewrite id_byte_char_start by done.
  f_equal. by apply IH.
Qed.

Lemma id_literal_loop_spec bs i :
  id_literal_loop bs i (length bs - i) = forallb is_id_byte (drop i bs).
Proof.
  remember (length bs - i)%nat as n eqn:Hn. revert i Hn.
  induction n as [|n IH]; intros i Hn; simpl.
  - by rewrite drop_ge by lia.
  - destruct (lookup_lt_is_Some_2 bs i) as [b Hb]; [lia|]. rewrite Hb.
    rewrite (drop_S bs b i) by done. simpl. f_equal. apply IH. lia.
Qed.

Lemma validate_id_runtime_ok s :
  validate_id_runtime s = Ok tt <-> valid_id s.
Proof.
  unfold validate_id_runtime, valid_id.
  destruct (is_empty s) eqn:He.
  { apply is_empty_true in He. naive_solver. }
  apply is_empty_false in He.
  destruct (all_bytes is_id_byte s) eqn:Ha; simpl.
  - rewrite chars_count_ids by done. destruct (64 <? len s) eqn:?; naive_solver lia.
  - destruct (64 <? chars_count s); naive_solver.
Qed.

Lemma validate_id_literal_ok s : validate_id_literal s = true <-> valid_id s.
Proof.
  unfold validate_id_literal, valid_id. rewrite !andb_true_iff, negb_true_iff.
  rewrite is_empty_false. replace (length (bytes s)) with (length (bytes s) - 0)%nat at 2 by lia.
  rewrite id_literal_loop_spec, drop_0. fold (all_bytes is_id_byte s).
  unfold len. rewrite <- length_bytes. naive_solver lia.
Qed.

Lemma ContainerId_new_ok s c :
  ContainerId_new s = Ok c <-> c = mk_ContainerId s /\ valid_id s.
Proof.
  rewrite <- validate_id_runtime_ok. unfold ContainerId_new.
  destruct (validate_id_runtime s) as [[]|]; simpl; naive_solver.
Qed.
End Ids.

(** ** Hostnames *)
Module Hostnames.

Inductive InvalidHostname :=
| Empty
| TooLong (s : string)
| BadLabel (label : string)
| ForbiddenChars (s : string)
| NumericOnly (s : string).

Definition host_byte (byte : ascii) : bool :=
  is_ascii_alphanumeric byte || Ascii.eqb byte "-".

(** The body of the loop over [s.split('.')]; [s] is the whole hostname,
    which the error of a bad character carries. *)
Fixpoint validate_labels (s : string) (labels : list string) : result InvalidHostname unit :=
  match labels with
  | [] => Ok tt
  | label :: labels =>
      if is_empty label || (63 <? len label) then Err (BadLabel label)
      else if starts_with "-" label || ends_with "-" label
              || negb (all_bytes host_byte label) then Err (ForbiddenChars s)
      else validate_labels s labels
  end.
Definition validate_hostname_runtime (s : string) : result InvalidHostname unit :=
  if is_empty s then Err Empty
  else if 253 <? len s then Err (TooLong s)
  else if all_bytes is_ascii_digit s then Err (NumericOnly s)
  else validate_labels s (split "." s).

Record Hostname := mk_Hostname { host_str : string }.
Definition Hostname_new (s : string) : result InvalidHostname Hostname :=
  _ ← validate_hostname_runtime s; Ok (mk_Hostname s).

(** [while i < bytes.len()] of [is_numeric_literal]. *)
Fixpoint numeric_loop (bs : list ascii) (i fuel : nat) : bool :=
  match fuel with
  | O => true
  | S fuel =>
      match bs !! i with
      | Some b => is_ascii_digit b && numeric_loop bs (S i) fuel
      | None => false
      end
  end.
Definition is_numeric_literal (bs : list ascii) : bool := numeric_loop bs 0 (length bs).

(** [while i <= bytes.len()] of the literal validator: [fuel] is the number of
    iterations left, [None] of a lookup is the out-of-range panic. *)
Fixpoint hostname_loop (bs : list ascii) (i label_len label_start fuel : nat) : bool :=
  match fuel with
  | O => true
  | S fuel =>
      if (i =? length bs)%nat || (match bs !! i with Some b => Ascii.eqb b "." | None => false end)
      then
        negb ((label_len =? 0)%nat || (63 <? label_len)%nat)
        && match bs !! label_start, bs !! (i - 1)%nat with
           | Some a, Some b => negb (Ascii.eqb a "-" || Ascii.eqb b "-")
           | _, _ => false
           end
        && hostname_loop bs (S i) 0 (S i) fuel
      else
        match bs !! i with
        | Some b => host_byte b
        | None => false
        end
        && hostname_loop bs (S i) (S label_len) label_start fuel
  end.
Definition validate_hostname_literal (s : string) : bool :=
  let bs := bytes s in
  negb (is_empty s) && (Z.of_nat (length bs) <=? 253) && negb (is_numeric_literal bs)
  && hostname_loop bs 0 0 0 (S (length bs)).

(** *** What both validators check *)
Definition good_label (l : list ascii) : bool :=
  negb (Nat.eqb (length l) 0) && (Z.of_nat (length l) <=? 63)
  && match head l, last l with
     | Some a, Some b => negb (Ascii.eqb a "-" || Ascii.eqb b "-")
     | _, _ => false
     end
  && forallb host_byte l.
Definition valid_hostname (s : string) : Prop :=
  s <> EmptyString /\ len s <= 253 /\ all_bytes is_ascii_digit s = false /\
  Forall (fun l => good_label (bytes l) = true) (split "." s).

(** [split] on lists, with the label read so far as an accumulator. *)
Fixpoint split_list (cur bs : list ascii) : list (list ascii) :=
  match bs with
  | [] => [cur]
  | b :: bs => if Ascii.eqb b "." then cur :: split_list [] bs
               else split_list (cur ++ [b]) bs
  end.

Lemma split_list_cons c cur bs :
  split_list (c :: cur) bs =
    match split_list cur bs with h :: t => (c :: h) :: t | [] => [] end.
Proof.
  revert cur. induction bs as [|b bs IH]; intros cur; simpl; [done|].
  destruct (Ascii.eqb b "."); [done|]. by rewrite <- IH.
Qed.
Lemma split_list_split s : split_list [] (bytes s) = bytes <$> split "." s.
Proof.
  induction s as [|c s IH]; [done|]. change (bytes (String c s)) with (c :: bytes s).
  cbn [split_list split]. rewrite Ascii.eqb_sym.
  destruct (Ascii.eqb "." c); [by rewrite IH|].
  change ([] ++ [c]) with [c]. rewrite split_list_cons, IH.
  pose proof (split_nonempty "." s). by destruct (split "." s).
Qed.

Lemma starts_with_head c s :
  starts_with c s = match head (bytes s) with Some a => Ascii.eqb a c | None => false end.
Proof. destruct s; simpl; [done|]. apply Ascii.eqb_sym. Qed.
Lemma ends_with_last c s :
  ends_with c s = match last (bytes s) with Some a => Ascii.eqb a c | None => false end.
Proof.
  induction s as [|d s IH]; [done|]. unfold bytes in *. destruct s as [|e s].
  - simpl. apply Ascii.eqb_sym.
  - simpl in *. exact IH.
Qed.

Lemma validate_labels_ok s ls :
  validate_labels s ls = Ok tt <-> Forall (fun l => good_label (bytes l) = true) ls.
Proof.
  induction ls as [|l ls IH]; simpl; [naive_solver|].
  rewrite Forall_cons, <- IH. clear IH. unfold good_label, all_bytes, len.
  rewrite starts_with_head, ends_with_last, length_bytes.
  destruct l as [|c l]; [naive_solver|]. unfold bytes. cbn [String.list_ascii_of_string head is_empty].
  destruct (last _) as [b|] eqn:Hl; [|by apply last_None in Hl].
  destruct (63 <? _) eqn:?; destruct (_ <=? 63) eqn:?; try lia; simpl; [naive_solver|].
  destruct (Ascii.eqb c "-"), (Ascii.eqb b "-"); simpl; try naive_solver.
  destruct (_ && _); naive_solver.
Qed.

Lemma split_list_bad cur bs :
  forallb host_byte cur = false -> forallb good_label (split_list cur bs) = false.
Proof.
  assert (Hbad : forall l, forallb host_byte l = false -> good_label l = false).
  { intros l Hl. unfold good_label. rewrite Hl. apply andb_false_r. }
  revert cur. induction bs as [|b bs IH]; intros cur Hc; simpl.
  - by rewrite Hbad.
  - destruct (Ascii.eqb b "."); simpl; [by rewrite Hbad|].
    apply IH. by rewrite forallb_app, Hc.
Qed.

Section Slices.
Context (bs : list ascii) (i label_len label_start : nat).
Context (Hi : (label_start + label_len = i)%nat) (Hle : (i <= length bs)%nat).
Let cur := take label_len (drop label_start bs).

Lemma length_slice : length cur = label_len.
Proof using Hi Hle. unfold cur. rewrite length_take, length_drop. lia. Qed.

(** The two indexed checks at the end of a label are the checks on the label. *)
Lemma good_label_slice :
  forallb host_byte cur = true ->
  negb ((label_len =? 0)%nat || (63 <? label_len)%nat)
  && match bs !! label_start, bs !! (i - 1)%nat with
     | Some a, Some b => negb (Ascii.eqb a "-" || Ascii.eqb b "-")
     | _, _ => false
     end = good_label cur.
Proof using Hi Hle.
  intros Hc. unfold good_label. rewrite Hc, andb_true_r, length_slice.
  destruct (label_len =? 0)%nat eqn:Hz; [done|].
  assert (Hh : head cur = bs !! label_start).
  { unfold cur. rewrite head_lookup, lookup_take_lt, lookup_drop by lia.
    by rewrite Nat.add_0_r. }
  assert (Hl : last cur = bs !! (i - 1)%nat).
  { rewrite last_lookup, length_slice. unfold cur.
    rewrite lookup_take_lt, lookup_drop by lia. f_equal. lia. }
  rewrite Hh, Hl. simpl.
  replace (63 <? label_len)%nat with (negb (Z.of_nat label_len <=? 63))
    by (destruct (_ <=? 63) eqn:?, (63 <? _)%nat eqn:?; simpl; lia).
  by rewrite negb_involutive.
Qed.
End Slices.

Lemma hostname_loop_spec bs n : forall i label_len label_start,
  (label_start + label_len = i)%nat -> (i + n = length bs)%nat ->
  forallb host_byte (take label_len (drop label_start bs)) = true ->
  hostname_loop bs i label_len label_start (S n)
  = forallb good_label (split_list (take label_len (drop label_start bs)) (drop i bs)).
Proof.
  induction n as [|n IH]; intros i ll ls Hi Hn Hc.
  - cbn [hostname_loop]. replace (i =? length bs)%nat with true by lia. simpl orb. cbv iota.
    rewrite (good_label_slice bs i ll ls), (drop_ge bs i) by (done || lia). done.
  - destruct (lookup_lt_is_Some_2 bs i) as [b Hb]; [lia|].
    rewrite (drop_S bs b i) by done.
    remember (S n) as m eqn:Hm. cbn [hostname_loop]. subst m.
    replace (i =? length bs)%nat with false by lia. rewrite !Hb. simpl orb.
    cbn [split_list]. destruct (Ascii.eqb b ".").
    + rewrite (good_label_slice bs i ll ls) by (done || lia). cbn [forallb]. f_equal.
      rewrite IH by (lia || done). by rewrite take_0.
    + assert (Ht : take ll (drop ls bs) ++ [b] = take (S ll) (drop ls bs)).
      { symmetry. apply take_S_r. rewrite lookup_drop. by rewrite Hi. }
      destruct (host_byte b) eqn:Hhb.
      * rewrite andb_true_l, IH; [by rewrite Ht|lia|lia|].
        rewrite <- Ht, forallb_app, Hc. simpl. by rewrite Hhb.
      * rewrite andb_false_l. symmetry. apply split_list_bad. rewrite forallb_app. simpl.
        rewrite Hhb. apply andb_false_r.
Qed.

Lemma numeric_loop_spec bs i :
  numeric_loop bs i (length bs - i) = forallb is_ascii_digit (drop i bs).
Proof.
  remember (length bs - i)%nat as n eqn:Hn. revert i Hn.
  induction n as [|n IH]; intros i Hn; simpl.
  - by rewrite drop_ge by lia.
  - destruct (lookup_lt_is_Some_2 bs i) as [b Hb]; [lia|]. rewrite Hb.
    rewrite (drop_S bs b i) by done. simpl. f_equal. apply IH. lia.
Qed.

Lemma validate_hostname_runtime_ok s :
  validate_hostname_runtime s = Ok tt <-> valid_hostname s.
Proof.
  unfold validate_hostname_runtime, valid_hostname. rewrite <- (validate_labels_ok s).
  destruct (is_empty s) eqn:He.
  { apply is_empty_true in He. naive_solver. }
  apply is_empty_false in He. destruct (253 <? len s) eqn:?; [naive_solver lia|].
  destruct (all_bytes is_ascii_digit s); naive_solver lia.
Qed.

Lemma validate_hostname_literal_ok s :
  validate_hostname_literal s = true <-> valid_hostname s.
Proof.
  unfold validate_hostname_literal, valid_hostname, is_numeric_literal.
  rewrite !andb_true_iff, !negb_true_iff, is_empty_false.
  rewrite (hostname_loop_spec (bytes s) (length (bytes s)) 0 0 0) by done.
  replace (numeric_loop (bytes s) 0 (length (bytes s))) with (all_bytes is_ascii_digit s).
  2:{ pose proof (numeric_loop_spec (bytes s) 0) as H.
      by rewrite Nat.sub_0_r, drop_0 in H. }
  rewrite take_0, drop_0, split_list_split. unfold len. rewrite <- length_bytes.
  assert (forallb good_label (bytes <$> split "." s) = true <->
    Forall (fun l => good_label (bytes l) = true) (split "." s)) as ->.
  { induction (split "." s) as [|l ls IH]; simpl; [naive_solver|].
    rewrite andb_true_iff, Forall_cons. naive_solver. }
  naive_solver lia.
Qed.

Lemma Hostname_new_ok s h :
  Hostname_new s = Ok h <-> h = mk_Hostname s /\ valid_hostname s.
Proof.
  rewrite <- validate_hostname_runtime_ok. unfold Hostname_new.
  destruct (validate_hostname_runtime s) as [[]|]; simpl; naive_solver.
Qed.
End Hostnames.

(** ** Proxy hosts: [{port}-{sandboxID}.{domain}] *)
Module ProxyHosts.
Import Ids Hostnames.

Record PortSandboxHost := mk_host {
  port : Z;                 (* NonZeroU16 *)
  sandbox_id : ContainerId;
  domain : Hostname
}.

Inductive InvalidPortSandboxHost :=
| DomainMismatch (host expected : string)
| MissingSeparator (host : string)
| InvalidPort (port : string)
| InvalidSandboxId (e : InvalidContainerId).

(** [NonZeroU16::new]. *)
Definition NonZero_new (n : Z) : option Z := if n =? 0 then None else Some n.

Definition parse_for_domain (host : string) (expected_domain : Hostname)
  : result InvalidPortSandboxHost PortSandboxHost :=
  let suffix := host_str expected_domain in
  prefix ← ok_or (DomainMismatch host suffix)
             (head ← strip_suffix suffix host; strip_suffix "." head);
  '(port, sandbox_id) ← ok_or (MissingSeparator host) (split_once "-" prefix);
  if is_empty sandbox_id || contains "." sandbox_id
  then Err (InvalidSandboxId (Ids.ForbiddenChars sandbox_id))
  else
    port ← ok_or (InvalidPort port) (n ← parse_uint 16 port; NonZero_new n);
    sandbox_id ← map_err InvalidSandboxId (ContainerId_new sandbox_id);
    Ok (mk_host port sandbox_id expected_domain).

(** [impl Display for PortSandboxHost]. *)
Definition display (h : PortSandboxHost) : string :=
  print_dec (port h) +:+ "-" +:+ container_str (sandbox_id h)
  +:+ "." +:+ host_str (domain h).

(** What the Rust types guarantee of the fields. *)
Definition host_typed (h : PortSandboxHost) : Prop :=
  1 <= port h < 2 ^ 16 /\ valid_id (container_str (sandbox_id h)).

Lemma strip_domain p d :
  (head ← strip_suffix d (p +:+ "." +:+ d); strip_suffix "." head) = Some p.
Proof.
  replace (p +:+ "." +:+ d) with ((p +:+ ".") +:+ d) by apply append_assoc.
  rewrite strip_suffix_app. simpl. apply strip_suffix_app.
Qed.
Lemma strip_domain_sound host d p :
  (head ← strip_suffix d host; strip_suffix "." head) = Some p -> host = p +:+ "." +:+ d.
Proof.
  destruct (strip_suffix d host) as [q|] eqn:Hq; simpl; [|done]. intros Hp.
  apply strip_suffix_sound in Hq as ->. apply strip_suffix_sound in Hp as ->.
  apply append_assoc.
Qed.

Lemma display_split h :
  display h = (print_dec (port h) +:+ String "-" (container_str (sandbox_id h)))
              +:+ "." +:+ host_str (domain h).
Proof.
  unfold display. by rewrite append_assoc.
Qed.
Lemma split_port_id p id :
  0 <= p -> split_once "-" (print_dec p +:+ String "-" id) = Some (print_dec p, id).
Proof. intros. apply split_once_app. apply digits_no_byte; [done|]. by apply print_dec_digits. Qed.

(** Parsing the printed form of a well-typed proxy host for its own domain
    gives the host back, except that a sandbox id with a dot is refused as an
    invalid sandbox id. *)
Theorem parse_display_cases h :
  host_typed h ->
  parse_for_domain (display h) (domain h) =
    if contains "." (container_str (sandbox_id h))
    then Err (InvalidSandboxId (Ids.ForbiddenChars (container_str (sandbox_id h))))
    else Ok h.
Proof.
  intros [Hp Hid]. unfold parse_for_domain. rewrite display_split, strip_domain. simpl.
  rewrite split_port_id by lia. simpl.
  destruct (is_empty _) eqn:He; [apply is_empty_true in He; by destruct Hid|].
  destruct (contains _ _); simpl; [done|].
  rewrite parse_uint_print by uint_lia. simpl. unfold NonZero_new.
  replace (port h =? 0) with false by lia. simpl.
  destruct (ContainerId_new (container_str (sandbox_id h))) as [c|] eqn:Hc; simpl.
  - apply ContainerId_new_ok in Hc as [-> _]. by destruct h as [? [] ?].
  - assert (ContainerId_new (container_str (sandbox_id h))
      = Ok (mk_ContainerId (container_str (sandbox_id h)))) by (by apply ContainerId_new_ok).
    congruence.
Qed.
End ProxyHosts.

(** ** Sandbox network policy *)
Module Network.

Inductive InvalidNetworkPolicyRule := RuleEmpty.
Record NetworkPolicyRule := mk_rule { rule_str : string }.

Definition is_white_byte (b : Z) : bool := (b =? 32) || ((9 <=? b) && (b <=? 13)).
Definition is_white2 (b c : Z) : bool := (b =? 194) && ((c =? 133) || (c =? 160)).
Definition is_white3 (b c d : Z) : bool :=
  ((b =? 225) && (c =? 154) && (d =? 128))
  || ((b =? 226) && (c =? 128)
      && (((128 <=? d) && (d <=? 138)) || (d =? 168) || (d =? 169) || (d =? 175)))
  || ((b =? 226) && (c =? 129) && (d =? 159))
  || ((b =? 227) && (c =? 128) && (d =? 128)).
(** Every code point is Unicode [White_Space]: one byte, or the UTF-8 encodings
    of U+0085, U+00A0, U+1680, U+2000..200A, U+2028, U+2029, U+202F, U+205F, U+3000. *)
Fixpoint all_whitespace (l : list Z) : bool :=
  match l with
  | [] => true
  | b :: l1 =>
      if is_white_byte b then all_whitespace l1
      else match l1 with
           | [] => false
           | c :: l2 =>
               if is_white2 b c then all_whitespace l2
               else match l2 with
                    | [] => false
                    | d :: l3 => is_white3 b c d && all_whitespace l3
                    end
           end
  end.
Definition NetworkPolicyRule_new (rule : string)
  : result InvalidNetworkPolicyRule NetworkPolicyRule :=
  if all_whitespace (code <$> bytes rule) then Err RuleEmpty else Ok (mk_rule rule).

Record SandboxNetworkPolicy := mk_policy {
  allow_internet_access : option bool;
  allow_out : list NetworkPolicyRule;
  deny_out : list NetworkPolicyRule;
  allow_public_traffic : option bool;
  mask_request_host : option string
}.
Definition default_policy : SandboxNetworkPolicy := mk_policy None [] [] None None.
Definition e2b_default : SandboxNetworkPolicy := mk_policy (Some true) [] [] None None.
Definition is_nil {A} (l : list A) : bool := match l with [] => true | _ => false end.
Definition is_some {A} (o : option A) : bool := match o with Some _ => true | None => false end.
Definition requires_policy_engine (p : SandboxNetworkPolicy) : bool :=
  bool_decide (allow_internet_access p = Some false)
  || negb (is_nil (allow_out p)) || negb (is_nil (deny_out p))
  || bool_decide (allow_public_traffic p = Some true)
  || is_some (mask_request_host p).
End Network.

(** ** Byte sizes *)
Module Sizes.

Record Size := mk_Size { as_bytes : Z }.
#[global] Instance Size_eq_dec : EqDecision Size.
Proof. solve_decision. Defined.

Definition size_bytes (n : Z) : Size := mk_Size n.
Definition kib (n : Z) : Size := mk_Size (sat_mul 64 n 1024).
Definition mib (n : Z) : Size := mk_Size (sat_mul 64 n (1024 * 1024)).
Definition gib (n : Z) : Size := mk_Size (sat_mul 64 n (1024 * 1024 * 1024)).
Definition tib (n : Z) : Size := mk_Size (sat_mul 64 n (1024 * 1024 * 1024 * 1024)).
Definition as_kib (s : Size) : Z := as_bytes s / 1024.
Definition as_mib (s : Size) : Z := as_bytes s / (1024 * 1024).
Definition as_gib (s : Size) : Z := as_bytes s / (1024 * 1024 * 1024).
Definition size_add (a b : Size) : Size := mk_Size (sat_add 64 (as_bytes a) (as_bytes b)).
Definition size_sub (a b : Size) : Size := mk_Size (sat_sub (as_bytes a) (as_bytes b)).

(** The unit [Display] selects for a size of at least one KiB. *)
Definition display_unit (bytes : Z) : Z * string :=
  if bytes <=? 1048575 then (1024, "KiB")
  else if bytes <=? 1073741823 then (1048576, "MiB")
  else if bytes <=? 1099511627775 then (1073741824, "GiB")
  else (1099511627776, "TiB").
(** The number of tenths of a unit, rounded (computed in [u128]). *)
Definition display_tenths (bytes unit : Z) : Z := (bytes * 10 + unit / 2) / unit.
Definition size_display (s : Size) : string :=
  let bytes := as_bytes s in
  if bytes <=? 1023 then print_dec bytes +:+ " B"
  else
    let '(unit, label) := display_unit bytes in
    if bytes mod unit =? 0 then print_dec (bytes / unit) +:+ " " +:+ label
    else
      let tenths := display_tenths bytes unit in
      let whole := tenths / 10 in
      let decimal := tenths mod 10 in
      if decimal =? 0 then print_dec whole +:+ " " +:+ label
      else print_dec whole +:+ "." +:+ print_dec decimal +:+ " " +:+ label.

Definition size_typed (s : Size) : Prop := in_uint 64 (as_bytes s).
End Sizes.

(** ** Properties *)
Import Ids Hostnames ProxyHosts Sizes.

(** A host that parses for a domain is [p-id.domain] where [p] reads as the
    returned non-zero port, the id is a valid container id without a dot, and
    the domain is the expected one. *)
Theorem parse_for_domain_sound host d h :
  parse_for_domain host d = Ok h ->
  exists p, host = p +:+ "-" +:+ container_str (sandbox_id h) +:+ "." +:+ host_str d /\
    parse_uint 16 p = Some (port h) /\ port h <> 0 /\
    valid_id (container_str (sandbox_id h)) /\
    contains "." (container_str (sandbox_id h)) = false /\ domain h = d.
Proof.
  unfold parse_for_domain.
  destruct (head ← strip_suffix (host_str d) host; strip_suffix "." head) as [pre|] eqn:Hpre;
    simpl; [|done]. apply strip_domain_sound in Hpre as ->.
  destruct (split_once "-" pre) as [[p id]|] eqn:Hs; simpl; [|done].
  apply split_once_sound in Hs as [-> _].
  destruct (is_empty id || contains "." id) eqn:Hid; [done|].
  apply orb_false_iff in Hid as [_ Hdot].
  destruct (parse_uint 16 p) as [n|] eqn:Hp; simpl; [|done]. unfold NonZero_new.
  destruct (n =? 0) eqn:Hn; simpl; [done|].
  destruct (ContainerId_new id) as [c|] eqn:Hc; simpl; [|done].
  apply ContainerId_new_ok in Hc as [-> Hv]. intros [= <-]. exists p. simpl.
  split_and!; try done; [|lia]. by rewrite append_assoc.
Qed.

(** The [const fn] validator behind [container_id!] accepts exactly the
    strings that [ContainerId::new] and [ProcessId::new] accept at run time:
    1 to 64 bytes, all of them letters, digits, [_], [.] or [-]. *)
Theorem id_validators_agree s :
  validate_id_literal s = is_ok (ContainerId_new s) /\
  validate_id_literal s = is_ok (ProcessId_new s) /\
  (validate_id_literal s = true <-> valid_id s).
Proof.
  assert (H : validate_id_literal s = is_ok (validate_id_runtime s)).
  { pose proof (validate_id_literal_ok s) as Hl. pose proof (validate_id_runtime_ok s) as Hr.
    destruct (validate_id_literal s), (validate_id_runtime s) as [[]|]; naive_solver. }
  split_and!; [..|apply validate_id_literal_ok]; rewrite H;
    unfold ContainerId_new, ProcessId_new; by destruct (validate_id_runtime s).
Qed.

(** The index-based [const fn] validator behind [hostname!] accepts exactly
    the strings that [Hostname::new] accepts by splitting at the dots. *)
Theorem hostname_validators_agree s :
  validate_hostname_literal s = is_ok (Hostname_new s) /\
  (validate_hostname_literal s = true <-> valid_hostname s).
Proof.
  split; [|apply validate_hostname_literal_ok].
  pose proof (validate_hostname_literal_ok s) as Hl.
  pose proof (validate_hostname_runtime_ok s) as Hr. unfold Hostname_new.
  destruct (validate_hostname_literal s), (validate_hostname_runtime s) as [[]|]; naive_solver.
Qed.

(** For every size of at least one KiB, [Display] picks a unit no larger
    than the size and the tenths it prints are within half a tenth of the
    exact value; an exact multiple is printed exactly. *)
Theorem size_display_rounding bytes :
  1024 <= bytes ->
  let unit := fst (display_unit bytes) in
  let t := display_tenths bytes unit in
  0 < unit <= bytes /\ 2 * Z.abs (t * unit - bytes * 10) <= unit /\ 10 <= t /\
  (bytes mod unit = 0 -> t = 10 * (bytes / unit)).
Proof.
  intros Hb. simpl. assert (Hu : 0 < fst (display_unit bytes) <= bytes /\
    fst (display_unit bytes) mod 2 = 0).
  { unfold display_unit. repeat case_match; simpl; split; try done; lia. }
  generalize dependent (fst (display_unit bytes)). intros unit [Hu Heven].
  unfold display_tenths. set (t := (bytes * 10 + unit / 2) / unit).
  assert (Ht : unit * t <= bytes * 10 + unit / 2 < unit * t + unit).
  { subst t. pose proof (Z.div_mod (bytes * 10 + unit / 2) unit).
    pose proof (Z.mod_pos_bound (bytes * 10 + unit / 2) unit). lia. }
  assert (Hhalf : unit = 2 * (unit / 2)) by (pose proof (Z.div_mod unit 2); lia).
  split_and!; [lia|lia|lia| |].
  - nia.
  - intros Hm. assert (Hq : bytes = unit * (bytes / unit)) by (pose proof (Z.div_mod bytes unit); lia).
    nia.
Qed.

(** ** Witnesses *)
Definition demo_host : PortSandboxHost :=
  mk_host 49983 (mk_ContainerId "sbx-1") (mk_Hostname "sandbox.localhost").
Definition dotted_host : PortSandboxHost :=
  mk_host 80 (mk_ContainerId "a.b") (mk_Hostname "localhost").
Lemma valid_id_dec s : validate_id_literal s = true -> valid_id s.
Proof. apply validate_id_literal_ok. Qed.

Lemma parse_display_cases_witness :
  parse_for_domain (display demo_host) (domain demo_host) = Ok demo_host /\
  parse_for_domain (display dotted_host) (domain dotted_host)
    = Err (InvalidSandboxId (Ids.ForbiddenChars "a.b")).
Proof.
  split.
  - apply (parse_display_cases demo_host). split; [split; vm_compute; congruence|].
    apply valid_id_dec. reflexivity.
  - apply (parse_display_cases dotted_host). split; [split; vm_compute; congruence|].
    apply valid_id_dec. reflexivity.
Defined.
Lemma parse_for_domain_sound_witness :
  exists p, "080-x.localhost"%string = p +:+ "-" +:+ "x" +:+ "." +:+ "localhost" /\
    parse_uint 16 p = Some 80 /\ 80 <> 0 /\ valid_id "x" /\ contains "." "x" = false /\
    mk_Hostname "localhost" = mk_Hostname "localhost".
Proof.
  apply (parse_for_domain_sound "080-x.localhost" (mk_Hostname "localhost")
    (mk_host 80 (mk_ContainerId "x") (mk_Hostname "localhost"))). reflexivity.
Defined.
Lemma size_display_rounding_witness :
  size_display (mk_Size 1536) = "1.5 KiB"%string /\
  0 < 1024 <= 1536 /\ 2 * Z.abs (15 * 1024 - 1536 * 10) <= 1024 /\ 10 <= 15 /\
  (1536 mod 1024 = 0 -> 15 = 10 * (1536 / 1024)).
Proof. split; [reflexivity|]. apply (size_display_rounding 1536). lia. Defined.
