(* ===== verification/Capacity.v ===== *)
(** * Resource budgets and the capacity ledger
    ([crates/admission/src/{lib,budget,capacity}.rs])

    A budget has three dimensions; every law of the ledger is stated for an
    arbitrary dimension and proved once.  [ReservationSide] is the interface
    the ledger offers its clients: the warm pool uses the warm side, the
    single-node scheduler the active side. *)
From S2P Require Import Prelude Types.
Import Sizes.

(** ** Budgets *)
Record ResourceBudget := mk_budget { cpus : Z; memory : Size; disk : Size }.
#[global] Instance ResourceBudget_eq_dec : EqDecision ResourceBudget.
Proof. solve_decision. Defined.

Definition budget_add (a b : ResourceBudget) : ResourceBudget :=
  mk_budget (sat_add 32 (cpus a) (cpus b)) (size_add (memory a) (memory b))
            (size_add (disk a) (disk b)).
Definition budget_sub (a b : ResourceBudget) : ResourceBudget :=
  mk_budget (sat_sub (cpus a) (cpus b)) (size_sub (memory a) (memory b))
            (size_sub (disk a) (disk b)).
Definition budget_zero : ResourceBudget := mk_budget 0 (size_bytes 0) (size_bytes 0).

Definition size_leb (a b : Size) : bool := as_bytes a <=? as_bytes b.
Definition size_gtb (a b : Size) : bool := as_bytes b <? as_bytes a.
Definition budget_fits (request available : ResourceBudget) : bool :=
  (cpus request <=? cpus available) && size_leb (memory request) (memory available)
  && size_leb (disk request) (disk available).

Inductive CapacityError :=
| Cpu (requested available : Z)
| Memory (requested available : Size)
| Disk (requested available : Size).

(** [capacity_error_for_request]: the first dimension that does not fit. *)
Definition capacity_error_for_request (request available : ResourceBudget)
  : option CapacityError :=
  if cpus available <? cpus request then Some (Cpu (cpus request) (cpus available))
  else if size_gtb (memory request) (memory available)
       then Some (Memory (memory request) (memory available))
  else if size_gtb (disk request) (disk available)
       then Some (Disk (disk request) (disk available))
  else None.

(** *** Dimensions *)
Inductive Dim := DCpu | DMemory | DDisk.
Definition get (d : Dim) (b : ResourceBudget) : Z :=
  match d with
  | DCpu => cpus b
  | DMemory => as_bytes (memory b)
  | DDisk => as_bytes (disk b)
  end.
Definition width (d : Dim) : Z := match d with DCpu => 32 | _ => 64 end.
(** The fields are machine integers of their width. *)
Definition budget_typed (b : ResourceBudget) : Prop := forall d, in_uint (width d) (get d b).

Lemma budget_ext a b : (forall d, get d a = get d b) -> a = b.
Proof.
  intros H. destruct a as [c [m] [k]], b as [c' [m'] [k']].
  pose proof (H DCpu). pose proof (H DMemory). pose proof (H DDisk). simpl in *. congruence.
Qed.
Lemma get_add d a b : get d (budget_add a b) = sat_add (width d) (get d a) (get d b).
Proof. by destruct d. Qed.
Lemma get_sub d a b : get d (budget_sub a b) = sat_sub (get d a) (get d b).
Proof. by destruct d. Qed.
Lemma get_zero d : get d budget_zero = 0.
Proof. by destruct d. Qed.
Lemma budget_typed_zero : budget_typed budget_zero.
Proof. by intros []. Qed.
Lemma budget_fits_dims r a : budget_fits r a = true <-> forall d, get d r <= get d a.
Proof.
  unfold budget_fits, size_leb. rewrite !andb_true_iff, !Z.leb_le. split.
  - by intros [[] ?] [].
  - intros H. repeat split; [apply (H DCpu)|apply (H DMemory)|apply (H DDisk)].
Qed.
Lemma capacity_error_none r a :
  capacity_error_for_request r a = None <-> budget_fits r a = true.
Proof.
  unfold capacity_error_for_request, budget_fits, size_gtb, size_leb.
  repeat case_match; simpl; split; try done; lia.
Qed.

(** ** The ledger *)
Record CapacityLedger := mk_ledger {
  capacity : ResourceBudget;
  active : ResourceBudget;
  warm_pool : ResourceBudget
}.
#[global] Instance CapacityLedger_eq_dec : EqDecision CapacityLedger.
Proof. solve_decision. Defined.

Definition ledger_new (c : ResourceBudget) : CapacityLedger :=
  mk_ledger c (mk_budget 0 (size_bytes 0) (size_bytes 0))
            (mk_budget 0 (size_bytes 0) (size_bytes 0)).
Definition used (l : CapacityLedger) : ResourceBudget := budget_add (active l) (warm_pool l).
Definition available (l : CapacityLedger) : ResourceBudget :=
  budget_sub (capacity l) (used l).

Definition check_available (l : CapacityLedger) (request : ResourceBudget)
  : result CapacityError unit :=
  let available := available l in
  if cpus available <? cpus request then Err (Cpu (cpus request) (cpus available))
  else if size_gtb (memory request) (memory available)
       then Err (Memory (memory request) (memory available))
  else if size_gtb (disk request) (disk available)
       then Err (Disk (disk request) (disk available))
  else Ok tt.

(** The methods take [&mut self]: the new ledger and the returned [Result]. *)
Definition reserve_active (l : CapacityLedger) (request : ResourceBudget)
  : CapacityLedger * result CapacityError unit :=
  match check_available l request with
  | Err e => (l, Err e)
  | Ok _ => (mk_ledger (capacity l) (budget_add (active l) request) (warm_pool l), Ok tt)
  end.
Definition reserve_warm_pool (l : CapacityLedger) (request : ResourceBudget)
  : CapacityLedger * result CapacityError unit :=
  match check_available l request with
  | Err e => (l, Err e)
  | Ok _ => (mk_ledger (capacity l) (active l) (budget_add (warm_pool l) request), Ok tt)
  end.
Definition release_active (l : CapacityLedger) (budget : ResourceBudget) : CapacityLedger :=
  mk_ledger (capacity l) (budget_sub (active l) budget) (warm_pool l).
Definition release_warm_pool (l : CapacityLedger) (budget : ResourceBudget) : CapacityLedger :=
  mk_ledger (capacity l) (active l) (budget_sub (warm_pool l) budget).
Definition promote_warm_pool_to_active (l : CapacityLedger) (budget : ResourceBudget)
  : CapacityLedger * result CapacityError unit :=
  if cpus (warm_pool l) <? cpus budget
  then (l, Err (Cpu (cpus budget) (cpus (warm_pool l))))
  else if size_gtb (memory budget) (memory (warm_pool l))
  then (l, Err (Memory (memory budget) (memory (warm_pool l))))
  else if size_gtb (disk budget) (disk (warm_pool l))
  then (l, Err (Disk (disk budget) (disk (warm_pool l))))
  else (mk_ledger (capacity l) (budget_add (active l) budget)
                  (budget_sub (warm_pool l) budget), Ok tt).

(** ** Invariant: reservations never exceed capacity, in any dimension *)
Definition ledger_ok (l : CapacityLedger) : Prop :=
  budget_typed (capacity l) /\
  forall d, 0 <= get d (active l) /\ 0 <= get d (warm_pool l) /\
    get d (active l) + get d (warm_pool l) <= get d (capacity l).

Lemma capacity_bound l d :
  ledger_ok l -> 0 <= get d (capacity l) <= max_uint (width d).
Proof. intros [Ht _]. specialize (Ht d). uint_lia. Qed.

Lemma get_available l d :
  ledger_ok l ->
  get d (available l) = get d (capacity l) - get d (active l) - get d (warm_pool l).
Proof.
  intros Hl. pose proof (capacity_bound l d Hl). destruct Hl as [_ Hl].
  specialize (Hl d). unfold available, used.
  rewrite get_sub, get_add, sat_add_exact by lia. uint_lia.
Qed.

Lemma check_available_error l r :
  check_available l r =
    match capacity_error_for_request r (available l) with Some e => Err e | None => Ok tt end.
Proof. unfold check_available, capacity_error_for_request. by repeat case_match. Qed.
Lemma promote_error l b :
  promote_warm_pool_to_active l b =
    match capacity_error_for_request b (warm_pool l) with
    | Some e => (l, Err e)
    | None => (mk_ledger (capacity l) (budget_add (active l) b)
                         (budget_sub (warm_pool l) b), Ok tt)
    end.
Proof. unfold promote_warm_pool_to_active, capacity_error_for_request. by repeat case_match. Qed.

Lemma ledger_new_ok c : budget_typed c -> ledger_ok (ledger_new c).
Proof.
  intros Hc. split; [done|]. intros d. specialize (Hc d).
  destruct d; simpl in *; uint_lia.
Qed.

(** ** The interface of one side of the ledger *)
Class ReservationSide := {
  held : CapacityLedger -> ResourceBudget;
  other : CapacityLedger -> ResourceBudget;
  reserve : CapacityLedger -> ResourceBudget -> CapacityLedger * result CapacityError unit;
  release : CapacityLedger -> ResourceBudget -> CapacityLedger
}.
#[export] Instance active_side : ReservationSide :=
  {| held := active; other := warm_pool; reserve := reserve_active; release := release_active |}.
#[export] Instance warm_side : ReservationSide :=
  {| held := warm_pool; other := active; reserve := reserve_warm_pool;
     release := release_warm_pool |}.

(** The promise: a request that fits the available budget is added exactly to
    the held budget, one that does not is refused with the first dimension
    that is short and changes nothing; a release gives back exactly. *)
Class ReservationLaws (S : ReservationSide) := {
  reserve_spec l b : ledger_ok l -> budget_typed b ->
    match capacity_error_for_request b (available l) with
    | Some e => reserve l b = (l, Err e)
    | None => exists l', reserve l b = (l', Ok tt) /\ ledger_ok l' /\
        capacity l' = capacity l /\ other l' = other l /\
        forall d, get d (held l') = get d (held l) + get d b
    end;
  release_spec l b : ledger_ok l -> (forall d, 0 <= get d b <= get d (held l)) ->
    ledger_ok (release l b) /\ capacity (release l b) = capacity l /\
    other (release l b) = other l /\
    forall d, get d (held (release l b)) = get d (held l) - get d b
}.

(** The arithmetic of a successful reservation, shared by both sides. *)
Lemma fits_add_exact l b d x :
  ledger_ok l -> budget_typed b -> capacity_error_for_request b (available l) = None ->
  0 <= get d x <= get d (active l) + get d (warm_pool l) ->
  get d (budget_add x b) = get d x + get d b /\
  0 <= get d b /\
  get d (active l) + get d (warm_pool l) + get d b <= get d (capacity l).
Proof.
  intros Hl Hb Hf Hx. apply capacity_error_none, budget_fits_dims with (d := d) in Hf.
  rewrite get_available in Hf by done. pose proof (capacity_bound l d Hl).
  specialize (Hb d). rewrite get_add, sat_add_exact; uint_lia.
Qed.

#[export] Instance active_side_laws : ReservationLaws active_side.
Proof.
  split.
  - intros l b Hl Hb. cbn [reserve active_side]. unfold reserve_active.
    rewrite check_available_error.
    destruct (capacity_error_for_request b (available l)) eqn:Hf; [done|].
    assert (Hd : forall d, _) by (intros d; exact (fits_add_exact l b d (active l) Hl Hb Hf
      ltac:(destruct Hl as [_ Hl]; specialize (Hl d); lia))).
    eexists. split_and!; [done| |done|done|intros d; by destruct (Hd d)].
    split; [by apply Hl|]. intros d. simpl. destruct (Hd d) as (-> & ? & ?).
    destruct Hl as [_ Hl]; specialize (Hl d). lia.
  - intros l b [Ht Hl] Hb. simpl in *. split_and!; try done; [split; [done|]|];
      intros d; specialize (Hl d); specialize (Hb d); simpl; rewrite get_sub; uint_lia.
Qed.
#[export] Instance warm_side_laws : ReservationLaws warm_side.
Proof.
  split.
  - intros l b Hl Hb. cbn [reserve warm_side]. unfold reserve_warm_pool.
    rewrite check_available_error.
    destruct (capacity_error_for_request b (available l)) eqn:Hf; [done|].
    assert (Hd : forall d, _) by (intros d; exact (fits_add_exact l b d (warm_pool l) Hl Hb Hf
      ltac:(destruct Hl as [_ Hl]; specialize (Hl d); lia))).
    eexists. split_and!; [done| |done|done|intros d; by destruct (Hd d)].
    split; [by apply Hl|]. intros d. simpl. destruct (Hd d) as (-> & ? & ?).
    destruct Hl as [_ Hl]; specialize (Hl d). lia.
  - intros l b [Ht Hl] Hb. simpl in *. split_and!; try done; [split; [done|]|];
      intros d; specialize (Hl d); specialize (Hb d); simpl; rewrite get_sub; uint_lia.
Qed.

(** Promotion moves a warm reservation to the active side; the sum is kept. *)
Lemma promote_spec l b :
  ledger_ok l -> (forall d, 0 <= get d b <= get d (warm_pool l)) ->
  exists l', promote_warm_pool_to_active l b = (l', Ok tt) /\ ledger_ok l' /\
    capacity l' = capacity l /\
    (forall d, get d (active l') = get d (active l) + get d b /\
               get d (warm_pool l') = get d (warm_pool l) - get d b).
Proof.
  intros Hl Hb. rewrite promote_error.
  destruct (capacity_error_for_request b (warm_pool l)) eqn:Hf.
  { assert (capacity_error_for_request b (warm_pool l) = None); [|congruence].
    apply capacity_error_none, budget_fits_dims. intros d. by destruct (Hb d). }
  assert (Hd : forall d, get d (budget_add (active l) b) = get d (active l) + get d b /\
    get d (budget_sub (warm_pool l) b) = get d (warm_pool l) - get d b).
  { intros d. pose proof (capacity_bound l d Hl). destruct Hl as [_ Hl].
    specialize (Hl d). specialize (Hb d). rewrite get_add, get_sub, sat_add_exact; uint_lia. }
  eexists. split_and!; [done| |done|exact Hd]. split; [apply Hl|]. intros d. simpl.
  destruct (Hd d) as [-> ->]. destruct Hl as [_ Hl]. specialize (Hl d). specialize (Hb d). lia.
Qed.

(** A release saturates at zero, so the invariant survives any argument. *)
Lemma release_any_ok l b :
  ledger_ok l -> (forall d, 0 <= get d b) ->
  ledger_ok (release_active l b) /\ ledger_ok (release_warm_pool l b).
Proof.
  intros [Ht Hl] Hb. split; (split; [done|]); intros d; specialize (Hl d);
    specialize (Hb d); simpl; rewrite get_sub; uint_lia.
Qed.
Lemma promote_any_ok l b :
  ledger_ok l -> budget_typed b -> ledger_ok (fst (promote_warm_pool_to_active l b)).
Proof.
  intros Hl Hb. rewrite promote_error.
  destruct (capacity_error_for_request b (warm_pool l)) eqn:Hf; [done|].
  assert (Hle : forall d, 0 <= get d b <= get d (warm_pool l)).
  { intros d. apply capacity_error_none, budget_fits_dims with (d := d) in Hf.
    specialize (Hb d). uint_lia. }
  destruct (promote_spec l b Hl Hle) as (l' & Hp & Hok & _).
  rewrite promote_error, Hf in Hp. by injection Hp as <-.
Qed.

(** ** Properties *)

(** Every operation of the ledger, with machine-width arguments. *)
Inductive ledger_step : CapacityLedger -> CapacityLedger -> Prop :=
| lstep_reserve_active l b : budget_typed b -> ledger_step l (reserve_active l b).1
| lstep_reserve_warm l b : budget_typed b -> ledger_step l (reserve_warm_pool l b).1
| lstep_release_active l b : budget_typed b -> ledger_step l (release_active l b)
| lstep_release_warm l b : budget_typed b -> ledger_step l (release_warm_pool l b)
| lstep_promote l b : budget_typed b -> ledger_step l (promote_warm_pool_to_active l b).1.

Lemma reserve_any_ok (S : ReservationSide) `{!ReservationLaws S} l b :
  ledger_ok l -> budget_typed b -> ledger_ok (reserve l b).1.
Proof.
  intros Hl Hb. pose proof (reserve_spec l b Hl Hb) as H.
  destruct (capacity_error_for_request b (available l)); [by rewrite H|].
  by destruct H as (l' & -> & ? & _).
Qed.
Lemma typed_nonneg b d : budget_typed b -> 0 <= get d b.
Proof. intros H. specialize (H d). uint_lia. Qed.
Lemma ledger_step_ok l l' : ledger_ok l -> ledger_step l l' -> ledger_ok l'.
Proof.
  intros Hl Hs. destruct Hs.
  - by apply (reserve_any_ok active_side).
  - by apply (reserve_any_ok warm_side).
  - by apply release_any_ok; [|intros d; apply typed_nonneg].
  - by apply release_any_ok; [|intros d; apply typed_nonneg].
  - by apply promote_any_ok.
Qed.

(** Whatever sequence of reservations, releases (of any amount) and
    promotions a ledger goes through from empty, in every dimension the
    active and warm reservations add up to no more than the capacity, and
    the available budget is exactly the difference: no saturation occurs. *)
Theorem ledger_never_overcommits c l d :
  budget_typed c -> rtc ledger_step (ledger_new c) l ->
  get d (active l) + get d (warm_pool l) + get d (available l) = get d (capacity l) /\
  0 <= get d (available l).
Proof.
  intros Hc Hs. assert (Hl : ledger_ok l).
  { assert (Hinv : ledger_ok (ledger_new c)) by by apply ledger_new_ok.
    clear Hc. induction Hs; eauto using ledger_step_ok. }
  rewrite get_available by done. destruct Hl as [_ Hl]. specialize (Hl d). lia.
Qed.

(** A reservation on either side of the ledger succeeds exactly when the
    request fits the available budget; releasing it gives the very same
    ledger back, and a refused reservation leaves the ledger untouched and
    reports the first dimension that is short. *)
Theorem reserve_release_roundtrip l b :
  ledger_ok l -> budget_typed b ->
  (budget_fits b (available l) = true ->
     (reserve_active l b).2 = Ok tt /\ release_active (reserve_active l b).1 b = l /\
     (reserve_warm_pool l b).2 = Ok tt /\ release_warm_pool (reserve_warm_pool l b).1 b = l) /\
  (forall e, capacity_error_for_request b (available l) = Some e ->
     reserve_active l b = (l, Err e) /\ reserve_warm_pool l b = (l, Err e)).
Proof.
  intros Hl Hb. pose proof (reserve_spec (ReservationLaws := active_side_laws) l b Hl Hb) as Ha.
  pose proof (reserve_spec (ReservationLaws := warm_side_laws) l b Hl Hb) as Hw.
  cbn [reserve held other active_side warm_side] in *.
  split; [intros Hf%capacity_error_none|intros e He]; [rewrite Hf in *|by rewrite He in *].
  destruct Ha as (l1 & -> & _ & Hc1 & Ho1 & Hd1), Hw as (l2 & -> & _ & Hc2 & Ho2 & Hd2).
  simpl. unfold release_active, release_warm_pool. rewrite Hc1, Ho1, Hc2, Ho2.
  assert (Hback : forall x y : ResourceBudget, (forall d, get d y = get d x + get d b) ->
    (forall d, 0 <= get d x) -> budget_sub y b = x).
  { intros x y Hy Hx. apply budget_ext. intros d. rewrite get_sub, Hy. specialize (Hx d). uint_lia. }
  rewrite (Hback (active l)), (Hback (warm_pool l)); try done;
    [by destruct l|intros d; apply Hl..].
Qed.

Definition demo_capacity : ResourceBudget := mk_budget 8 (Sizes.gib 32) (Sizes.gib 100).
Definition demo_request : ResourceBudget := mk_budget 4 (Sizes.gib 8) (Sizes.gib 20).
Lemma demo_capacity_typed : budget_typed demo_capacity.
Proof. by intros []; vm_compute. Qed.
Lemma demo_request_typed : budget_typed demo_request.
Proof. by intros []; vm_compute. Qed.

Lemma ledger_never_overcommits_witness :
  get DCpu (active (reserve_active (ledger_new demo_capacity) demo_request).1) = 4 /\
  get DCpu (active (reserve_active (ledger_new demo_capacity) demo_request).1)
  + get DCpu (warm_pool (reserve_active (ledger_new demo_capacity) demo_request).1)
  + get DCpu (available (reserve_active (ledger_new demo_capacity) demo_request).1)
  = get DCpu (capacity (reserve_active (ledger_new demo_capacity) demo_request).1) /\
  0 <= get DCpu (available (reserve_active (ledger_new demo_capacity) demo_request).1).
Proof.
  split; [reflexivity|]. apply (ledger_never_overcommits demo_capacity).
  - apply demo_capacity_typed.
  - apply rtc_once, lstep_reserve_active, demo_request_typed.
Defined.
Lemma reserve_release_roundtrip_witness :
  release_active (reserve_active (ledger_new demo_capacity) demo_request).1 demo_request
  = ledger_new demo_capacity.
Proof.
  apply (reserve_release_roundtrip (ledger_new demo_capacity) demo_request).
  - apply ledger_new_ok, demo_capacity_typed.
  - apply demo_request_typed.
  - reflexivity.
Defined.
