(* ===== verification/WarmPool.v ===== *)
(** * The warm pool ([crates/admission/src/warm_pool.rs])

    Pre-restored sandboxes are kept in FIFO queues per key, in a map ordered
    by key; each holds a reservation on the warm side of the capacity ledger.
    The invariant [pool_inv] ties the two together: the ledger's warm
    reservation is exactly the sum of the retained entries. *)
From S2P Require Import Prelude BTree Types Capacity.

Record WarmPoolKey := mk_key { repo : string; template : string; runtime_profile : string }.
#[global] Instance WarmPoolKey_eq_dec : EqDecision WarmPoolKey.
Proof. solve_decision. Defined.

(** [derive(PartialOrd, Ord)]: field by field. *)
Definition key_tuple (k : WarmPoolKey) : string * (string * string) :=
  (repo k, (template k, runtime_profile k)).
#[export, refine] Instance WarmPoolKey_ord : OrdKey WarmPoolKey :=
  {| kcmp a b := kcmp (key_tuple a) (key_tuple b) |}.
Proof.
  - intros [] []. rewrite kcmp_eq. unfold key_tuple. simpl. split; congruence.
  - intros. apply kcmp_opp.
  - intros a b c. apply kcmp_trans.
Defined.

Record WarmPoolEntry := mk_entry {
  key : WarmPoolKey;
  snapshot_id : string;
  budget : ResourceBudget
}.
#[global] Instance WarmPoolEntry_eq_dec : EqDecision WarmPoolEntry.
Proof. solve_decision. Defined.

(** [BTreeMap<WarmPoolKey, VecDeque<WarmPoolEntry>>], front of a queue first. *)
Abbreviation WarmPoolLedger := (list (WarmPoolKey * list WarmPoolEntry)).

(** ** Operations

    They take [&mut self] and [&mut CapacityLedger]: the pair of the new pool
    and ledger, and the value returned. *)
Definition maintain (pool : WarmPoolLedger) (entry : WarmPoolEntry) (cap : CapacityLedger)
  : (WarmPoolLedger * CapacityLedger) * result CapacityError unit :=
  match reserve_warm_pool cap (budget entry) with
  | (cap, Err e) => ((pool, cap), Err e)
  | (cap, Ok _) =>
      let queue := default [] (bt_get (key entry) pool) in
      ((bt_insert (key entry) (queue ++ [entry]) pool, cap), Ok tt)
  end.

(** The queue after [pop_front]: the key is dropped with its last entry. *)
Definition put_back (k : WarmPoolKey) (rest : list WarmPoolEntry) (pool : WarmPoolLedger)
  : WarmPoolLedger :=
  match rest with [] => bt_remove k pool | _ => bt_insert k rest pool end.

Definition checkout (pool : WarmPoolLedger) (k : WarmPoolKey) (cap : CapacityLedger)
  : (WarmPoolLedger * CapacityLedger) * result CapacityError (option WarmPoolEntry) :=
  match bt_get k pool with
  | None => ((pool, cap), Ok None)
  | Some [] => ((bt_remove k pool, cap), Ok None)
  | Some (entry :: rest) =>
      let pool := put_back k rest pool in
      match promote_warm_pool_to_active cap (budget entry) with
      | (cap, Err e) => ((pool, cap), Err e)
      | (cap, Ok _) => ((pool, cap), Ok (Some entry))
      end
  end.

Definition expire (pool : WarmPoolLedger) (k : WarmPoolKey) (cap : CapacityLedger)
  : (WarmPoolLedger * CapacityLedger) * option WarmPoolEntry :=
  match bt_get k pool with
  | None => ((pool, cap), None)
  | Some [] => ((pool, cap), None)
  | Some (entry :: rest) =>
      ((put_back k rest pool, release_warm_pool cap (budget entry)), Some entry)
  end.

Definition contains (pool : WarmPoolLedger) (k : WarmPoolKey) : bool :=
  match bt_get k pool with Some (_ :: _) => true | _ => false end.
Definition count (pool : WarmPoolLedger) (k : WarmPoolKey) : nat :=
  match bt_get k pool with Some q => length q | None => 0%nat end.

(** The guard of the eviction loop. *)
Definition short_of (request : ResourceBudget) (cap : CapacityLedger) : bool :=
  (cpus (available cap) <? cpus request)
  || size_gtb (memory request) (memory (available cap))
  || size_gtb (disk request) (disk (available cap)).

(** [while short { match keys().next() { None => break, Some(k) => expire(k) } }];
    [None] when the fuel runs out before the loop ends. *)
Fixpoint evict_loop (fuel : nat) (request : ResourceBudget) (pool : WarmPoolLedger)
  (cap : CapacityLedger) (evicted : list WarmPoolEntry)
  : option ((WarmPoolLedger * CapacityLedger) * list WarmPoolEntry) :=
  match fuel with
  | O => None
  | S fuel =>
      if short_of request cap then
        match pool with
        | [] => Some ((pool, cap), evicted)
        | (k, _) :: _ =>
            let '((pool, cap), e) := expire pool k cap in
            evict_loop fuel request pool cap
              (match e with Some e => evicted ++ [e] | None => evicted end)
        end
      else Some ((pool, cap), evicted)
  end.
Definition all_entries (pool : WarmPoolLedger) : list WarmPoolEntry := mjoin pool.*2.
(** One iteration per retained entry and the last test. *)
Definition evict_until_available (request : ResourceBudget) (pool : WarmPoolLedger)
  (cap : CapacityLedger) : option ((WarmPoolLedger * CapacityLedger) * list WarmPoolEntry) :=
  evict_loop (S (length (all_entries pool))) request pool cap [].

(** ** Invariant *)
Definition queue_ok (p : WarmPoolKey * list WarmPoolEntry) : Prop :=
  p.2 <> [] /\ Forall (fun e => key e = p.1 /\ budget_typed (budget e)) p.2.
Definition pool_wf (pool : WarmPoolLedger) : Prop := bt_sorted pool /\ Forall queue_ok pool.
Definition warm_total (d : Dim) (pool : WarmPoolLedger) : Z :=
  sumZ (fun e => get d (budget e)) (all_entries pool).
Definition pool_inv (pool : WarmPoolLedger) (cap : CapacityLedger) : Prop :=
  pool_wf pool /\ ledger_ok cap /\ forall d, get d (warm_pool cap) = warm_total d pool.

Lemma all_entries_app p q : all_entries (p ++ q) = all_entries p ++ all_entries q.
Proof. unfold all_entries. rewrite fmap_app, join_app. done. Qed.
Lemma all_entries_cons k q pool : all_entries ((k, q) :: pool) = q ++ all_entries pool.
Proof. done. Qed.

Lemma pool_entries_typed pool :
  pool_wf pool -> Forall (fun e => budget_typed (budget e)) (all_entries pool).
Proof.
  intros [_ H]. induction H as [|[k q] pool [_ Hq] _ IH]; [constructor|].
  rewrite all_entries_cons. apply Forall_app. split; [|done].
  eapply Forall_impl; [exact Hq|]. naive_solver.
Qed.
Lemma entry_le_total pool e d :
  pool_wf pool -> e ∈ all_entries pool -> 0 <= get d (budget e) <= warm_total d pool.
Proof.
  intros Hwf He. pose proof (pool_entries_typed pool Hwf) as Ht.
  apply list_elem_of_split in He as (l1 & l2 & Hl). unfold warm_total. rewrite Hl in *.
  apply Forall_app in Ht as [Ht1 [Hte Ht2]%Forall_cons].
  rewrite sumZ_app. simpl. specialize (Hte d).
  pose proof (sumZ_nonneg (fun e => get d (budget e)) l1).
  pose proof (sumZ_nonneg (fun e => get d (budget e)) l2).
  assert (0 <= sumZ (fun e => get d (budget e)) l1).
  { apply H. eapply Forall_impl; [exact Ht1|]. intros ? Hx. specialize (Hx d). uint_lia. }
  assert (0 <= sumZ (fun e => get d (budget e)) l2).
  { apply H0. eapply Forall_impl; [exact Ht2|]. intros ? Hx. specialize (Hx d). uint_lia. }
  uint_lia.
Qed.

(** ** Popping the front of a queue *)
Lemma pop_front_spec pool k e rest :
  pool_wf pool -> bt_get k pool = Some (e :: rest) ->
  pool_wf (put_back k rest pool) /\ all_entries pool ≡ₚ e :: all_entries (put_back k rest pool)
  /\ key e = k.
Proof.
  intros [Hs Hf] Hg. destruct (bt_get_split k (e :: rest) pool Hs Hg) as (m1 & m2 & -> & Hi & Hr).
  pose proof Hf as [Hf1 [[_ Hq] Hf2]%Forall_cons]%Forall_app. simpl in Hq.
  apply Forall_cons in Hq as [[Hk He] Hq].
  assert (Hput : put_back k rest (m1 ++ (k, e :: rest) :: m2)
    = m1 ++ (match rest with [] => [] | _ => [(k, rest)] end) ++ m2).
  { unfold put_back. destruct rest; [by rewrite Hr|by rewrite Hi]. }
  split_and!; [split| |done].
  - unfold put_back. destruct rest; [by apply bt_remove_sorted|by apply bt_insert_sorted].
  - rewrite Hput. apply Forall_app. split; [done|]. apply Forall_app. split; [|done].
    destruct rest; [by constructor|]. apply Forall_singleton. by split.
  - rewrite Hput, !all_entries_app, all_entries_cons.
    assert (all_entries (match rest with [] => [] | _ => [(k, rest)] end) = rest) as ->.
    { destruct rest; [done|]. rewrite all_entries_cons. simpl. by rewrite app_nil_r. }
    symmetry. apply (Permutation_middle (all_entries m1) (rest ++ all_entries m2) e).
Qed.

Lemma warm_total_perm pool pool' e d :
  all_entries pool ≡ₚ e :: all_entries pool' ->
  warm_total d pool = get d (budget e) + warm_total d pool'.
Proof. unfold warm_total. intros ->%(sumZ_perm (fun e => get d (budget e))). done. Qed.

Lemma front_le_held pool cap k e rest d :
  pool_inv pool cap -> bt_get k pool = Some (e :: rest) ->
  0 <= get d (budget e) <= get d (warm_pool cap).
Proof.
  intros (Hwf & _ & Hc) Hg. rewrite Hc. apply entry_le_total; [done|].
  destruct (pop_front_spec _ _ _ _ Hwf Hg) as (_ & -> & _). constructor.
Qed.

(** ** The operations keep the invariant *)
Lemma pool_inv_empty c : budget_typed c -> pool_inv [] (ledger_new c).
Proof.
  intros Hc. split; [by split|]. split; [by apply ledger_new_ok|by intros []].
Qed.

Lemma maintain_spec pool cap e :
  pool_inv pool cap -> budget_typed (budget e) ->
  match capacity_error_for_request (budget e) (available cap) with
  | Some err => maintain pool e cap = ((pool, cap), Err err)
  | None => exists pool' cap', maintain pool e cap = ((pool', cap'), Ok tt) /\
      pool_inv pool' cap' /\ all_entries pool' ≡ₚ e :: all_entries pool /\
      capacity cap' = capacity cap /\ active cap' = active cap /\
      contains pool' (key e) = true
  end.
Proof.
  intros (Hwf & Hl & Hc) He. pose proof (reserve_spec (ReservationLaws := warm_side_laws) cap (budget e) Hl He) as Hr.
  cbn [reserve held other warm_side] in Hr. unfold maintain.
  destruct (capacity_error_for_request _ _); [by rewrite Hr|].
  destruct Hr as (cap' & -> & Hl' & Hcap & Hact & Hw). eexists _, cap'. split; [done|].
  set (q := default [] (bt_get (key e) pool)).
  assert (Hall : all_entries (bt_insert (key e) (q ++ [e]) pool) ≡ₚ e :: all_entries pool
    /\ Forall queue_ok (bt_insert (key e) (q ++ [e]) pool)).
  { destruct Hwf as [Hs Hf]. destruct (bt_get (key e) pool) as [q'|] eqn:Hg; simpl in q; subst q.
    - destruct (bt_get_split _ _ _ Hs Hg) as (m1 & m2 & -> & Hi & _). rewrite Hi.
      apply Forall_app in Hf as [Hf1 [[Hq1 Hq2] Hf2]%Forall_cons]. simpl in *. split.
      + rewrite !all_entries_app, !all_entries_cons, <- app_assoc. simpl.
        rewrite (Permutation_app_comm q' (e :: _)). simpl. rewrite <- Permutation_middle.
        constructor. apply Permutation_app_head, Permutation_app_comm.
      + apply Forall_app. split; [done|]. constructor; [|done]. split; simpl.
        * by destruct q'.
        * apply Forall_app. split; [done|]. by apply Forall_singleton.
    - destruct (bt_get_none_split _ _ Hs Hg) as (m1 & m2 & -> & Hi). rewrite Hi. split.
      + rewrite !all_entries_app, all_entries_cons. symmetry. apply Permutation_middle.
      + apply Forall_app in Hf as [Hf1 Hf2]. apply Forall_app. split; [done|].
        constructor; [|done]. split; [done|]. by apply Forall_singleton. }
  destruct Hall as [Hp Hf]. split_and!; try done.
  - split; [split; [by apply bt_insert_sorted, Hwf|done]|]. split; [done|].
    intros d. rewrite Hw, Hc. by rewrite (warm_total_perm _ _ _ d Hp), Z.add_comm.
  - unfold contains. rewrite bt_get_insert. by destruct q.
Qed.

Lemma expire_spec pool cap k :
  pool_inv pool cap ->
  match expire pool k cap with
  | ((pool', cap'), None) => pool' = pool /\ cap' = cap /\ bt_get k pool = None
  | ((pool', cap'), Some e) =>
      key e = k /\ pool_inv pool' cap' /\ all_entries pool ≡ₚ e :: all_entries pool' /\
      capacity cap' = capacity cap /\ active cap' = active cap /\
      forall d, get d (available cap') = get d (available cap) + get d (budget e)
  end.
Proof.
  intros Hinv. unfold expire. destruct (bt_get k pool) as [[|e rest]|] eqn:Hg; [|..|done].
  { exfalso. destruct Hinv as [[Hs Hf] _].
    destruct (bt_get_split _ _ _ Hs Hg) as (m1 & m2 & -> & _).
    apply Forall_app in Hf as [_ [[Hne _] _]%Forall_cons]. done. }
  pose proof (fun d => front_le_held pool cap k e rest d Hinv Hg) as Hle.
  destruct Hinv as (Hwf & Hl & Hc).
  destruct (pop_front_spec _ _ _ _ Hwf Hg) as (Hwf' & Hp & Hk).
  destruct (release_spec (ReservationLaws := warm_side_laws) cap (budget e) Hl Hle)
    as (Hl' & Hcap & Hact & Hw). cbn [release held other warm_side] in *.
  split_and!; try done.
  - split; [done|]. split; [done|]. intros d.
    rewrite Hw, Hc, (warm_total_perm _ _ _ d Hp). lia.
  - intros d. rewrite !get_available, Hw, Hcap, Hact by done. lia.
Qed.

(** Every checkout of a coherent pool succeeds: the promotion error is
    unreachable. *)
Lemma checkout_spec pool cap k :
  pool_inv pool cap ->
  exists pool' cap' r, checkout pool k cap = ((pool', cap'), Ok r) /\ pool_inv pool' cap' /\
    capacity cap' = capacity cap /\
    match r with
    | None => pool' = pool /\ cap' = cap /\ contains pool k = false
    | Some e => key e = k /\ contains pool k = true /\
        all_entries pool ≡ₚ e :: all_entries pool' /\
        (forall d, get d (active cap') = get d (active cap) + get d (budget e)) /\
        available cap' = available cap
    end.
Proof.
  intros Hinv. unfold checkout, contains. destruct (bt_get k pool) as [[|e rest]|] eqn:Hg.
  { exfalso. destruct Hinv as [[Hs Hf] _].
    destruct (bt_get_split _ _ _ Hs Hg) as (m1 & m2 & -> & _).
    apply Forall_app in Hf as [_ [[Hne _] _]%Forall_cons]. done. }
  2:{ by exists pool, cap, None. }
  pose proof (fun d => front_le_held pool cap k e rest d Hinv Hg) as Hle.
  destruct Hinv as (Hwf & Hl & Hc).
  destruct (pop_front_spec _ _ _ _ Hwf Hg) as (Hwf' & Hp & Hk).
  destruct (promote_spec cap (budget e) Hl Hle) as (cap' & -> & Hl' & Hcap & Hd).
  exists (put_back k rest pool), cap', (Some e). split_and!; try done.
  - split; [done|]. split; [done|]. intros d. destruct (Hd d) as [_ ->].
    rewrite Hc, (warm_total_perm _ _ _ d Hp). lia.
  - intros d. by destruct (Hd d).
  - apply budget_ext. intros d. rewrite !get_available, Hcap by done.
    destruct (Hd d) as [-> ->]. lia.
Qed.

(** ** Eviction *)

(** The reference: take entries in order until the request fits. *)
Fixpoint evict_prefix (request avail : ResourceBudget) (entries : list WarmPoolEntry)
  : list WarmPoolEntry * ResourceBudget :=
  if budget_fits request avail then ([], avail)
  else match entries with
       | [] => ([], avail)
       | e :: entries =>
           let '(ev, a) := evict_prefix request (budget_add avail (budget e)) entries in
           (e :: ev, a)
       end.

Lemma short_of_fits request cap :
  short_of request cap = negb (budget_fits request (available cap)).
Proof.
  unfold short_of, budget_fits, size_gtb, size_leb. rewrite !negb_andb.
  by rewrite !Z.leb_antisym, !negb_involutive.
Qed.

(** Expiring the first key pops the first entry of the flattened pool. *)
Lemma expire_head k e rest pool cap :
  exists pool', expire ((k, e :: rest) :: pool) k cap
    = ((pool', release_warm_pool cap (budget e)), Some e) /\
    all_entries pool' = rest ++ all_entries pool.
Proof.
  unfold expire. rewrite bt_get_head. eexists. split; [done|]. unfold put_back.
  destruct rest as [|e' rest]; [by rewrite bt_remove_head|by rewrite bt_insert_head].
Qed.

Lemma release_available cap e :
  ledger_ok cap -> (forall d, 0 <= get d (budget e) <= get d (warm_pool cap)) ->
  available (release_warm_pool cap (budget e)) = budget_add (available cap) (budget e).
Proof.
  intros Hl Hle. apply budget_ext. intros d.
  destruct (release_spec (ReservationLaws := warm_side_laws) cap (budget e) Hl Hle)
    as (Hl' & Hcap & Hact & Hw). cbn [release held other warm_side] in *.
  rewrite get_add, !get_available, Hw, Hcap, Hact by done.
  pose proof (capacity_bound cap d Hl). destruct Hl as [_ Hl]. specialize (Hl d).
  specialize (Hle d). rewrite sat_add_exact; lia.
Qed.

Lemma evict_loop_spec fuel request pool cap acc :
  pool_inv pool cap -> (length (all_entries pool) < fuel)%nat ->
  exists pool' cap', let '(ev, a) := evict_prefix request (available cap) (all_entries pool) in
    evict_loop fuel request pool cap acc = Some ((pool', cap'), acc ++ ev) /\
    pool_inv pool' cap' /\ all_entries pool = ev ++ all_entries pool' /\
    available cap' = a /\ capacity cap' = capacity cap /\ active cap' = active cap.
Proof.
  revert pool cap acc. induction fuel as [|fuel IH]; intros pool cap acc Hinv Hf; [lia|].
  cbn [evict_loop]. rewrite short_of_fits.
  destruct (budget_fits request (available cap)) eqn:Hfit; simpl.
  { exists pool, cap. destruct (all_entries pool); simpl; rewrite Hfit, app_nil_r; done. }
  destruct pool as [|[k q] pool].
  { exists [], cap. simpl. rewrite Hfit, app_nil_r. done. }
  destruct q as [|e rest].
  { destruct Hinv as [[_ [[Hne _] _]%Forall_cons] _]. done. }
  pose proof (expire_spec _ _ k Hinv) as Hspec.
  destruct (expire_head k e rest pool cap) as (pool1 & Hexp & Hall). rewrite Hexp in *.
  destruct Hspec as (_ & Hinv1 & _ & Hcap1 & Hact1 & _).
  assert (Hav : available (release_warm_pool cap (budget e))
    = budget_add (available cap) (budget e)).
  { apply release_available; [apply Hinv|]. intros d.
    apply (front_le_held ((k, e :: rest) :: pool) cap k e rest); [done|apply bt_get_head]. }
  destruct (IH pool1 (release_warm_pool cap (budget e)) (acc ++ [e]) Hinv1) as (pool' & cap' & H).
  { rewrite Hall. rewrite all_entries_cons in Hf. simpl in Hf. lia. }
  exists pool', cap'. rewrite all_entries_cons, <- app_comm_cons. simpl. rewrite Hfit.
  rewrite Hav, Hall in H.
  destruct (evict_prefix request (budget_add (available cap) (budget e)) (rest ++ all_entries pool))
    as [ev a]. destruct H as (-> & Hi & He & Ha & Hc & Hac). rewrite <- app_assoc. simpl.
  split_and!; try done. by f_equal.
Qed.

(** ** Properties *)

(** Every operation that touches the pool and its ledger together, and the
    active reservations that go on beside them. *)
Inductive pool_step : WarmPoolLedger * CapacityLedger -> WarmPoolLedger * CapacityLedger -> Prop :=
| pstep_maintain pool cap e :
    budget_typed (budget e) -> pool_step (pool, cap) (maintain pool e cap).1
| pstep_checkout pool cap k : pool_step (pool, cap) (checkout pool k cap).1
| pstep_expire pool cap k : pool_step (pool, cap) (expire pool k cap).1
| pstep_evict pool cap req st ev :
    evict_until_available req pool cap = Some (st, ev) -> pool_step (pool, cap) st
| pstep_reserve pool cap b :
    budget_typed b -> pool_step (pool, cap) (pool, (reserve_active cap b).1)
| pstep_release pool cap b :
    budget_typed b -> pool_step (pool, cap) (pool, release_active cap b).

Lemma pool_inv_active pool cap cap' :
  pool_inv pool cap -> ledger_ok cap' -> warm_pool cap' = warm_pool cap -> pool_inv pool cap'.
Proof. intros (? & _ & Hc) ? Hw. split; [done|]. split; [done|]. by rewrite Hw. Qed.
Lemma pool_step_inv st st' :
  pool_inv st.1 st.2 -> pool_step st st' -> pool_inv st'.1 st'.2.
Proof.
  intros Hinv Hs. destruct Hs as [pool cap e He|pool cap k|pool cap k|pool cap req st ev Hev
    |pool cap b Hb|pool cap b Hb]; simpl in *.
  - pose proof (maintain_spec pool cap e Hinv He) as H.
    destruct (capacity_error_for_request _ _); [by rewrite H|].
    by destruct H as (? & ? & -> & ? & _).
  - by destruct (checkout_spec pool cap k Hinv) as (? & ? & ? & -> & ? & _).
  - pose proof (expire_spec pool cap k Hinv) as H.
    destruct (expire pool k cap) as [[pool' cap'] [e|]]; [by apply H|].
    by destruct H as (-> & -> & _).
  - destruct (evict_loop_spec (S (length (all_entries pool))) req pool cap [] Hinv) as (p & c & H);
      [lia|]. unfold evict_until_available in Hev.
    destruct (evict_prefix _ _ _). destruct H as (H & ? & _). rewrite Hev in H.
    by injection H as -> _.
  - pose proof (reserve_spec (ReservationLaws := active_side_laws) cap b
      ltac:(apply Hinv) Hb) as H. cbn [reserve other active_side] in H.
    destruct (capacity_error_for_request _ _); [by rewrite H|].
    destruct H as (l' & -> & ? & _ & ? & _). by eapply pool_inv_active.
  - eapply pool_inv_active; [done| |done].
    apply release_any_ok; [apply Hinv|]. intros d. by apply typed_nonneg.
Qed.

Lemma pool_steps_inv st st' :
  pool_inv st.1 st.2 -> rtc pool_step st st' -> pool_inv st'.1 st'.2.
Proof. intros H Hs. induction Hs; eauto using pool_step_inv. Qed.

(** C8: In every state the pool and the ledger can reach from an empty pool, by
    any sequence of maintain, checkout, expire, evict and active
    reservations, the ledger's warm reservation is in each dimension exactly
    the sum of the budgets of the retained entries, every queue is non-empty,
    and a checkout never fails: it returns the entry of the key whenever one
    is retained, moves exactly its budget to the active side and leaves the
    available capacity as it was. *)
Theorem checkout_reachable c pool cap k :
  budget_typed c -> rtc pool_step ([], ledger_new c) (pool, cap) ->
  (forall d, get d (warm_pool cap) = warm_total d pool) /\
  Forall (fun p => p.2 <> []) pool /\
  exists pool' cap' r, checkout pool k cap = ((pool', cap'), Ok r) /\
    available cap' = available cap /\
    match r with
    | None => contains pool k = false /\ pool' = pool
    | Some e => key e = k /\ contains pool k = true /\
        all_entries pool ≡ₚ e :: all_entries pool' /\
        forall d, get d (active cap') = get d (active cap) + get d (budget e)
    end.
Proof.
  intros Hc Hs. assert (Hinv : pool_inv pool cap).
  { apply (pool_steps_inv _ _ (pool_inv_empty c Hc : pool_inv (_, _).1 (_, _).2) Hs). }
  split; [apply Hinv|]. split.
  { destruct Hinv as [[_ Hq] _]. eapply Forall_impl; [exact Hq|]. by intros ? [? _]. }
  destruct (checkout_spec pool cap k Hinv) as (p & l & r & Hr & _ & _ & H).
  exists p, l, r. split; [done|]. destruct r as [e|].
  - destruct H as (? & ? & ? & ? & ?). done.
  - destruct H as (-> & -> & ?). done.
Qed.

(** The eviction loop terminates within one iteration per retained entry.
    It evicts a prefix of the retained entries in key order (first in, first
    out within a key), stops as soon as the request fits, and ends with the
    request fitting or the pool empty; active reservations are untouched. *)
Theorem evict_until_available_spec request pool cap :
  pool_inv pool cap ->
  exists pool' cap' ev,
    evict_until_available request pool cap = Some ((pool', cap'), ev) /\
    all_entries pool = ev ++ all_entries pool' /\ active cap' = active cap /\
    pool_inv pool' cap' /\
    (budget_fits request (available cap') = true \/ all_entries pool' = []) /\
    (forall n, (n < length ev)%nat ->
       budget_fits request (foldl (fun a e => budget_add a (budget e)) (available cap)
                                  (take n ev)) = false).
Proof.
  intros Hinv. destruct (evict_loop_spec (S (length (all_entries pool))) request pool cap []
    Hinv ltac:(lia)) as (pool' & cap' & H).
  destruct (evict_prefix request (available cap) (all_entries pool)) as [ev a] eqn:E.
  destruct H as (He & Hinv' & Hall & Ha & _ & Hact). exists pool', cap', ev.
  split_and!; try done.
  - subst a. rewrite Hall in E. clear -E. revert E. generalize (available cap).
    induction ev as [|e ev IH]; intros x E.
    + simpl in E. destruct (all_entries pool') as [|e l]; [by right|].
      simpl in E. destruct (budget_fits request x) eqn:Hf; [|by destruct (evict_prefix _ _ l)].
      injection E as <-. by left.
    + simpl in E. destruct (budget_fits request x) eqn:Hf; [done|].
      destruct (evict_prefix _ _ _) eqn:E'. injection E as -> ->. by eapply IH.
  - clear -E. revert E. generalize (available cap), (all_entries pool). intros x l.
    revert x ev. induction l as [|e l IH]; intros x ev E n Hn.
    + simpl in E. destruct (budget_fits request x); injection E as <- _; simpl in Hn; lia.
    + simpl in E. destruct (budget_fits request x) eqn:Hf.
      { injection E as <- _. simpl in Hn. lia. }
      destruct (evict_prefix _ _ l) as [ev' a'] eqn:E'. injection E as <- <-.
      destruct n as [|n]; [done|]. simpl. eapply IH; [done|]. simpl in Hn. lia.
Qed.

(** *** Witnesses *)
Definition demo_entry : WarmPoolEntry :=
  mk_entry (mk_key "repo" "base" "small") "snap-1" demo_request.
Definition demo_pool : WarmPoolLedger := (maintain [] demo_entry (ledger_new demo_capacity)).1.1.
Definition demo_cap : CapacityLedger := (maintain [] demo_entry (ledger_new demo_capacity)).1.2.
Lemma demo_step : pool_step ([], ledger_new demo_capacity) (demo_pool, demo_cap).
Proof.
  replace (demo_pool, demo_cap) with (maintain [] demo_entry (ledger_new demo_capacity)).1
    by reflexivity.
  apply pstep_maintain, demo_request_typed.
Qed.
Lemma demo_reachable : rtc pool_step ([], ledger_new demo_capacity) (demo_pool, demo_cap).
Proof. apply rtc_once, demo_step. Qed.
Lemma demo_pool_inv : pool_inv demo_pool demo_cap.
Proof.
  apply (pool_step_inv _ _ (pool_inv_empty _ demo_capacity_typed : pool_inv (_, _).1 (_, _).2)
    demo_step).
Qed.

Lemma checkout_reachable_witness :
  (checkout demo_pool (key demo_entry) demo_cap).2 = Ok (Some demo_entry) /\
  forall d, get d (warm_pool demo_cap) = warm_total d demo_pool.
Proof.
  split; [reflexivity|].
  apply (checkout_reachable demo_capacity demo_pool demo_cap (key demo_entry)).
  - apply demo_capacity_typed.
  - apply demo_reachable.
Defined.
Lemma evict_until_available_witness :
  exists pool' cap' ev,
    evict_until_available demo_capacity demo_pool demo_cap = Some ((pool', cap'), ev) /\
    all_entries demo_pool = ev ++ all_entries pool'.
Proof.
  destruct (evict_until_available_spec demo_capacity demo_pool demo_cap demo_pool_inv)
    as (p & c & ev & H1 & H2 & _). exists p, c, ev. split; assumption.
Defined.
