(* ===== verification/Artifacts.v ===== *)
(** * Snapshot artifact records ([crates/artifacts/src])

    The durable manifest of a snapshot, the pod membership it may carry and
    the plan of a continuation snapshot.  Paths are strings.  The JSON files
    themselves are I/O and are not modelled here. *)
From S2P Require Import Prelude.

Inductive SnapshotArtifactKind := BaseTemplate | Continuation.

Record RecordedPodVolumeMount := mk_volume_mount {
  volume_name : string;
  mount_path : string;
  read_only : bool
}.
Record RecordedPodContainer := mk_pod_container {
  container_name : string;
  rootfs_logical_id : string;
  rootfs_sha256_hex : string;
  rootfs_size_bytes : Z;
  volume_mounts : list RecordedPodVolumeMount
}.
Record RecordedPodMembership := mk_membership {
  pod_id : string;
  containers : list RecordedPodContainer
}.

Record SnapshotArtifactManifest := mk_manifest {
  kind : SnapshotArtifactKind;
  logical_id : string;
  path : string;
  created_at : string;
  pod_membership : option RecordedPodMembership
}.
Definition manifest_new (kind : SnapshotArtifactKind) (logical_id path : string)
  : SnapshotArtifactManifest :=
  mk_manifest kind logical_id path "pending-runtime-timestamp" None.
Definition manifest_base : string -> string -> SnapshotArtifactManifest :=
  manifest_new BaseTemplate.
Definition manifest_continuation : string -> string -> SnapshotArtifactManifest :=
  manifest_new Continuation.
Definition with_pod_membership (m : SnapshotArtifactManifest) (membership : RecordedPodMembership)
  : SnapshotArtifactManifest :=
  mk_manifest (kind m) (logical_id m) (path m) (created_at m) (Some membership).

Inductive ContinuationSnapshotReason := Idle | Stopped | Exited.
Record ContinuationSnapshotPlan := mk_continuation_plan {
  session_id : string;
  reason : ContinuationSnapshotReason;
  snapshot_output_path : string
}.
Definition snapshot_manifest (p : ContinuationSnapshotPlan) : SnapshotArtifactManifest :=
  manifest_continuation (session_id p) (snapshot_output_path p).
