(* ===== verification/Admission.v ===== *)
(** * Admission planning ([crates/admission/src/{active,replenish}.rs])

    [ActivePlan]: which warm entries to evict so that an active request fits,
    without changing anything.  [Backpressure]: admit now, queue or reject.
    [Replenish]: which warm entries to restore in the background.  The
    planners are related to the operations of the ledger and the pool that
    carry the plans out. *)
From S2P Require Import Prelude BTree Types Artifacts Capacity WarmPool.

(** ** Active admission *)
Module ActivePlan.

Record ActiveCapacityAdmissionPlan := mk_plan {
  request : ResourceBudget;
  evictions : list WarmPoolEntry;
  error : option CapacityError
}.
Definition is_admitted (p : ActiveCapacityAdmissionPlan) : bool :=
  match error p with None => true | Some _ => false end.

(** The inner [for entry in entries]; the flag is the [break 'entries]. *)
Fixpoint scan_queue (request available : ResourceBudget) (evictions : list WarmPoolEntry)
  (entries : list WarmPoolEntry) : (ResourceBudget * list WarmPoolEntry) * bool :=
  match entries with
  | [] => ((available, evictions), false)
  | entry :: entries =>
      let available := budget_add available (budget entry) in
      let evictions := evictions ++ [entry] in
      if budget_fits request available then ((available, evictions), true)
      else scan_queue request available evictions entries
  end.
(** The outer ['entries: for entries in pool.entries.values()]. *)
Fixpoint scan_pool (request available : ResourceBudget) (evictions : list WarmPoolEntry)
  (queues : list (list WarmPoolEntry)) : ResourceBudget * list WarmPoolEntry :=
  match queues with
  | [] => (available, evictions)
  | entries :: queues =>
      match scan_queue request available evictions entries with
      | (r, true) => r
      | ((available, evictions), false) => scan_pool request available evictions queues
      end
  end.
Definition from_warm_pool (request : ResourceBudget) (pool : WarmPoolLedger)
  (capacity : CapacityLedger) : ActiveCapacityAdmissionPlan :=
  let avail := available capacity in
  let '(avail, evictions) :=
    if negb (budget_fits request avail) then scan_pool request avail [] pool.*2
    else (avail, []) in
  mk_plan request evictions (capacity_error_for_request request avail).

(** The nested loops are one loop over the flattened pool. *)
Lemma scan_queue_prefix request q : forall avail ev rest,
  budget_fits request avail = false ->
  let '(ev', a) := evict_prefix request avail (q ++ rest) in
  match scan_queue request avail ev q with
  | ((a1, ev1), true) => a1 = a /\ ev1 = ev ++ ev'
  | ((a1, ev1), false) => budget_fits request a1 = false /\ ev1 = ev ++ q /\
      let '(ev2, a2) := evict_prefix request a1 rest in ev' = q ++ ev2 /\ a = a2
  end.
Proof.
  induction q as [|e q IH]; intros avail ev rest Hf; simpl.
  - destruct (evict_prefix request avail rest). by rewrite app_nil_r.
  - rewrite Hf. destruct (budget_fits request (budget_add avail (budget e))) eqn:Hf'.
    + destruct (q ++ rest); simpl; by rewrite Hf'.
    + specialize (IH (budget_add avail (budget e)) (ev ++ [e]) rest Hf').
      destruct (evict_prefix request (budget_add avail (budget e)) (q ++ rest)) as [ev' a].
      destruct (scan_queue _ _ _ q) as [[a1 ev1] []].
      * destruct IH as [-> ->]. by rewrite <- app_assoc.
      * destruct IH as (? & -> & IH). split; [done|]. rewrite <- app_assoc. split; [done|].
        destruct (evict_prefix request a1 rest). destruct IH as [-> ->]. done.
Qed.
Lemma scan_pool_prefix request queues : forall avail ev,
  budget_fits request avail = false ->
  let '(ev', a) := evict_prefix request avail (mjoin queues) in
  scan_pool request avail ev queues = (a, ev ++ ev').
Proof.
  induction queues as [|q queues IH]; intros avail ev Hf; simpl.
  - rewrite Hf. by rewrite app_nil_r.
  - pose proof (scan_queue_prefix request q avail ev (mjoin queues) Hf) as Hq.
    destruct (evict_prefix request avail (q ++ mjoin queues)) as [ev' a].
    destruct (scan_queue request avail ev q) as [[a1 ev1] []].
    + destruct Hq as [-> ->]. done.
    + destruct Hq as (Hf1 & -> & Hq). specialize (IH a1 (ev ++ q) Hf1).
      destruct (evict_prefix request a1 (mjoin queues)) as [ev2 a2].
      destruct Hq as [-> ->]. by rewrite IH, <- app_assoc.
Qed.
Lemma from_warm_pool_prefix request pool cap :
  let '(ev, a) := evict_prefix request (available cap) (all_entries pool) in
  from_warm_pool request pool cap = mk_plan request ev (capacity_error_for_request request a).
Proof.
  unfold from_warm_pool, all_entries.
  destruct (budget_fits request (available cap)) eqn:Hf; simpl.
  - destruct (mjoin pool.*2); simpl; by rewrite Hf.
  - pose proof (scan_pool_prefix request pool.*2 (available cap) [] Hf) as H.
    destruct (evict_prefix _ _ _). by rewrite H.
Qed.

(** C9: The admission plan predicts the execution: carrying out the eviction
    loop evicts exactly the entries the plan lists, leaves the active
    reservations alone, and the active reservation that follows succeeds
    exactly when the plan admits, failing otherwise with the very error the
    plan reports. *)
Theorem plan_executes req pool cap :
  pool_inv pool cap -> budget_typed req ->
  exists pool' cap',
    evict_until_available req pool cap
      = Some ((pool', cap'), evictions (from_warm_pool req pool cap)) /\
    pool_inv pool' cap' /\ active cap' = active cap /\ capacity cap' = capacity cap /\
    snd (reserve_active cap' req) =
      match error (from_warm_pool req pool cap) with None => Ok tt | Some e => Err e end.
Proof.
  intros Hinv Hr. destruct (evict_loop_spec (S (length (all_entries pool))) req pool cap []
    Hinv ltac:(lia)) as (pool' & cap' & H).
  pose proof (from_warm_pool_prefix req pool cap) as Hp.
  destruct (evict_prefix req (available cap) (all_entries pool)) as [ev a].
  destruct H as (He & Hinv' & _ & Ha & Hc & Hact). exists pool', cap'. rewrite Hp. simpl.
  split_and!; try done.
  pose proof (reserve_spec (ReservationLaws := active_side_laws) cap' req
    ltac:(apply Hinv') Hr) as Hres. rewrite Ha in Hres. cbn [reserve active_side] in Hres.
  destruct (capacity_error_for_request req a); [by rewrite Hres|].
  by destruct Hres as (? & -> & _).
Qed.
End ActivePlan.

(** ** Backpressure *)
Module Backpressure.
Import ActivePlan.

Inductive ActiveBackpressureDecision := AdmitNow | Queue | Reject.
Inductive BackpressureRejection :=
| Oversized (e : CapacityError)
| QueueFull (max_pending pending : Z).
Record ActiveBackpressurePlan := mk_bp_plan {
  bp_request : ResourceBudget;
  decision : ActiveBackpressureDecision;
  bp_evictions : list WarmPoolEntry;
  queue_position : option Z;
  rejection : option BackpressureRejection
}.
(** [ActiveQueuePolicy] is its single field [max_pending]. *)
Definition from_warm_pool (request : ResourceBudget) (pool : WarmPoolLedger)
  (cap : CapacityLedger) (pending_active max_pending : Z) : ActiveBackpressurePlan :=
  let admission := ActivePlan.from_warm_pool request pool cap in
  if is_admitted admission then
    mk_bp_plan request AdmitNow (evictions admission) None None
  else
    match capacity_error_for_request request (capacity cap) with
    | Some error => mk_bp_plan request Reject [] None (Some (Oversized error))
    | None =>
        if max_pending <=? pending_active
        then mk_bp_plan request Reject [] None (Some (QueueFull max_pending pending_active))
        else mk_bp_plan request Queue [] (Some (wrap 64 (pending_active + 1))) None
    end.
End Backpressure.

(** ** Replenishment *)
Module Replenish.

Record WarmPoolReplenishmentTarget := mk_target {
  t_key : WarmPoolKey;
  t_manifest : SnapshotArtifactManifest;
  t_budget : ResourceBudget
}.
Inductive WarmPoolReplenishmentSkipReason :=
| AlreadyWarm
| InsufficientCapacity (requested available : ResourceBudget).
Record WarmPoolReplenishmentSkip := mk_skip {
  s_key : WarmPoolKey;
  s_reason : WarmPoolReplenishmentSkipReason
}.
Record WarmPoolReplenishmentPlan := mk_rplan {
  r_maintain : list WarmPoolReplenishmentTarget;
  r_skipped : list WarmPoolReplenishmentSkip
}.

(** The loop over the targets, with [maintain], [skipped] and [planned]. *)
Fixpoint plan_loop (pool : WarmPoolLedger) (cap : CapacityLedger)
  (targets maintain : list WarmPoolReplenishmentTarget)
  (skipped : list WarmPoolReplenishmentSkip) (planned : ResourceBudget)
  : WarmPoolReplenishmentPlan :=
  match targets with
  | [] => mk_rplan maintain skipped
  | target :: targets =>
      if WarmPool.contains pool (t_key target) then
        plan_loop pool cap targets maintain
          (skipped ++ [mk_skip (t_key target) AlreadyWarm]) planned
      else
        let avail := budget_sub (available cap) planned in
        if negb (budget_fits (t_budget target) avail) then
          plan_loop pool cap targets maintain
            (skipped ++ [mk_skip (t_key target) (InsufficientCapacity (t_budget target) avail)])
            planned
        else
          plan_loop pool cap targets (maintain ++ [target]) skipped
            (budget_add planned (t_budget target))
  end.
Definition from_targets (targets : list WarmPoolReplenishmentTarget) (pool : WarmPoolLedger)
  (cap : CapacityLedger) : WarmPoolReplenishmentPlan :=
  plan_loop pool cap targets [] [] budget_zero.

(** Carrying a plan out: restore each scheduled target, in order. *)
Definition entry_of (t : WarmPoolReplenishmentTarget) : WarmPoolEntry :=
  mk_entry (t_key t) (logical_id (t_manifest t)) (t_budget t).
Fixpoint maintain_all (pool : WarmPoolLedger) (cap : CapacityLedger)
  (entries : list WarmPoolEntry)
  : (WarmPoolLedger * CapacityLedger) * result CapacityError unit :=
  match entries with
  | [] => ((pool, cap), Ok tt)
  | e :: entries =>
      match maintain pool e cap with
      | (st, Err err) => (st, Err err)
      | ((pool, cap), Ok _) => maintain_all pool cap entries
      end
  end.
Definition planned_total (d : Dim) (ts : list WarmPoolReplenishmentTarget) : Z :=
  sumZ (fun t => get d (t_budget t)) ts.

Section Plan.
Context (pool : WarmPoolLedger) (cap : CapacityLedger).
Context (Hcap : ledger_ok cap).

(** The loop's [planned] is the exact sum of what it scheduled, and stays
    within what the ledger has available. *)
Lemma plan_loop_fits targets : forall maintain skipped planned,
  Forall (fun t => budget_typed (t_budget t)) targets ->
  Forall (fun t => budget_typed (t_budget t)) maintain ->
  (forall d, get d planned = planned_total d maintain) ->
  (forall d, planned_total d maintain <= get d (available cap)) ->
  let p := plan_loop pool cap targets maintain skipped planned in
  Forall (fun t => budget_typed (t_budget t)) (r_maintain p) /\
  forall d, planned_total d (r_maintain p) <= get d (available cap).
Proof using Hcap.
  induction targets as [|t targets IH]; intros maintain skipped planned Ht Hm Hp Hle; [done|].
  apply Forall_cons in Ht as [Htt Ht]. simpl.
  destruct (WarmPool.contains pool (t_key t)); [by apply IH|].
  destruct (budget_fits (t_budget t) (budget_sub (available cap) planned)) eqn:Hf; simpl;
    [|by apply IH].
  assert (Hd : forall d, planned_total d maintain + get d (t_budget t) <= get d (available cap)
    /\ 0 <= planned_total d maintain /\ get d (available cap) <= max_uint (width d)).
  { intros d. apply budget_fits_dims with (d := d) in Hf. rewrite get_sub, Hp in Hf.
    specialize (Hle d). specialize (Htt d).
    assert (0 <= planned_total d maintain).
    { apply sumZ_nonneg. eapply Forall_impl; [exact Hm|]. intros x Hx. specialize (Hx d). uint_lia. }
    pose proof (capacity_bound cap d Hcap). rewrite get_available in * by done.
    destruct Hcap as [_ Hl]. specialize (Hl d). uint_lia. }
  apply IH; [done| | |].
  - apply Forall_app. split; [done|]. by apply Forall_singleton.
  - intros d. destruct (Hd d) as (? & ? & ?). unfold planned_total in *. rewrite sumZ_app. simpl.
    rewrite get_add, Hp, sat_add_exact; unfold planned_total; lia.
  - intros d. destruct (Hd d). unfold planned_total in *. rewrite sumZ_app. simpl. lia.
Qed.
End Plan.

Lemma maintain_all_ok ts : forall pool cap,
  pool_inv pool cap -> Forall (fun t => budget_typed (t_budget t)) ts ->
  (forall d, planned_total d ts <= get d (available cap)) ->
  exists pool' cap', maintain_all pool cap (entry_of <$> ts) = ((pool', cap'), Ok tt) /\
    pool_inv pool' cap' /\ active cap' = active cap /\
    all_entries pool' ≡ₚ (entry_of <$> ts) ++ all_entries pool.
Proof.
  induction ts as [|t ts IH]; intros pool cap Hinv Ht Hle; [by exists pool, cap|].
  apply Forall_cons in Ht as [Htt Ht]. rewrite fmap_cons. cbn [maintain_all].
  assert (Hpos : forall d, 0 <= planned_total d ts).
  { intros d. apply sumZ_nonneg. eapply Forall_impl; [exact Ht|]. intros x Hx.
    specialize (Hx d). uint_lia. }
  pose proof (maintain_spec pool cap (entry_of t) Hinv Htt) as Hm. simpl in Hm.
  assert (capacity_error_for_request (t_budget t) (available cap) = None) as Hnone.
  { apply capacity_error_none, budget_fits_dims. intros d. specialize (Hle d).
    unfold planned_total in Hle. simpl in Hle. specialize (Hpos d). unfold planned_total in Hpos. lia. }
  rewrite Hnone in Hm. destruct Hm as (pool1 & cap1 & -> & Hinv1 & Hp1 & Hc1 & Ha1 & _).
  destruct (IH pool1 cap1 Hinv1 Ht) as (pool' & cap' & -> & Hinv' & Ha' & Hp').
  { intros d. rewrite get_available by apply Hinv1. specialize (Hle d).
    rewrite get_available in Hle by apply Hinv. rewrite Hc1, Ha1.
    destruct Hinv as (_ & _ & Hw), Hinv1 as (_ & _ & Hw1). rewrite Hw in Hle. rewrite Hw1.
    rewrite (warm_total_perm _ _ _ d Hp1). unfold planned_total in *. simpl in *. lia. }
  exists pool', cap'. split_and!; [done|done|congruence|].
  rewrite Hp', Hp1. symmetry. apply Permutation_middle.
Qed.
End Replenish.

(** ** Properties *)
Import ActivePlan Backpressure Replenish.

(** What the decision of a backpressure plan promises. *)
Definition decision_ok (req : ResourceBudget) (pool : WarmPoolLedger) (cap : CapacityLedger)
  (pending max_pending : Z) (p : ActiveBackpressurePlan) : Prop :=
  match decision p with
  | AdmitNow => exists pool' cap',
      evict_until_available req pool cap = Some ((pool', cap'), bp_evictions p) /\
      (reserve_active cap' req).2 = Ok tt
  | Queue => budget_fits req (capacity cap) = true /\ pending < max_pending /\
      bp_evictions p = [] /\ queue_position p = Some (pending + 1) /\
      1 <= pending + 1 <= max_pending
  | Reject =>
      (exists e, rejection p = Some (Oversized e) /\
         forall l b, ledger_ok l -> capacity l = capacity cap -> req = b ->
           budget_typed b -> exists e', reserve_active l b = (l, Err e')) \/
      (rejection p = Some (QueueFull max_pending pending) /\ max_pending <= pending)
  end.

(** A request is admitted at once exactly when the evictions of the plan
    make the reservation succeed; it is queued only when it fits the total
    capacity and the queue has room, at a one-based position within the
    bound; it is rejected either because no state of a ledger of this
    capacity could ever grant it, or because the queue is full. *)
Theorem backpressure_decision req pool cap pending max_pending :
  pool_inv pool cap -> budget_typed req -> 0 <= pending -> in_uint 64 max_pending ->
  decision_ok req pool cap pending max_pending
    (Backpressure.from_warm_pool req pool cap pending max_pending).
Proof.
  intros Hinv Hr Hp Hmax. unfold Backpressure.from_warm_pool.
  assert (Hplan : exists pool' cap', evict_until_available req pool cap
      = Some ((pool', cap'), evictions (ActivePlan.from_warm_pool req pool cap)) /\
    pool_inv pool' cap' /\ (reserve_active cap' req).2 =
      match error (ActivePlan.from_warm_pool req pool cap) with None => Ok tt | Some e => Err e end).
  { destruct (evict_loop_spec (S (length (all_entries pool))) req pool cap [] Hinv ltac:(lia))
      as (pool' & cap' & H).
    pose proof (from_warm_pool_prefix req pool cap) as Hpre.
    destruct (evict_prefix req (available cap) (all_entries pool)) as [ev a].
    destruct H as (He & Hinv' & _ & Ha & _). exists pool', cap'. rewrite Hpre. simpl.
    split_and!; try done.
    pose proof (reserve_spec (ReservationLaws := active_side_laws) cap' req
      ltac:(apply Hinv') Hr) as Hres. rewrite Ha in Hres. cbn [reserve active_side] in Hres.
    destruct (capacity_error_for_request req a); [by rewrite Hres|].
    by destruct Hres as (? & -> & _). }
  unfold is_admitted. destruct (error (ActivePlan.from_warm_pool req pool cap)) eqn:He.
  2:{ destruct Hplan as (pool' & cap' & ? & _ & ?). by exists pool', cap'. }
  destruct (capacity_error_for_request req (capacity cap)) as [e|] eqn:Hbig.
  - left. exists e. split; [done|]. intros l b Hl Hc <- Hb.
    pose proof (reserve_spec (ReservationLaws := active_side_laws) l req Hl Hb) as Hres.
    cbn [reserve active_side] in Hres.
    destruct (capacity_error_for_request req (available l)) as [e'|] eqn:Ha; [by exists e'|].
    exfalso. assert (capacity_error_for_request req (capacity cap) = None); [|congruence].
    apply capacity_error_none, budget_fits_dims. intros d.
    apply capacity_error_none, budget_fits_dims with (d := d) in Ha.
    rewrite get_available, Hc in Ha by done. destruct Hl as [_ Hl]. specialize (Hl d). lia.
  - apply capacity_error_none in Hbig. destruct (max_pending <=? pending) eqn:Hq.
    + right. split; [done|lia].
    + unfold decision_ok. simpl. split_and!; try done; try lia.
      f_equal. apply wrap_small. uint_lia.
Qed.

(** The replenishment planner never over-commits: restoring every target it
    schedules, one after the other, succeeds on the current pool and ledger
    without touching active reservations, and adds exactly those entries. *)
Theorem replenish_plan_executes targets pool cap :
  pool_inv pool cap -> Forall (fun t => budget_typed (t_budget t)) targets ->
  let ts := r_maintain (from_targets targets pool cap) in
  exists pool' cap', maintain_all pool cap (entry_of <$> ts) = ((pool', cap'), Ok tt) /\
    pool_inv pool' cap' /\ active cap' = active cap /\
    all_entries pool' ≡ₚ (entry_of <$> ts) ++ all_entries pool.
Proof.
  intros Hinv Ht. simpl.
  destruct (plan_loop_fits pool cap ltac:(apply Hinv) targets [] [] budget_zero Ht) as [Hm Hle];
    [by constructor|by intros []| |by apply maintain_all_ok].
  intros d. simpl. rewrite get_available by apply Hinv.
  destruct Hinv as (_ & [_ Hl] & _). specialize (Hl d). unfold planned_total. simpl. lia.
Qed.

(** Which way the planner sends a target. *)
Definition target_skipped (pool : WarmPoolLedger) (s : WarmPoolReplenishmentSkip) : Prop :=
  match s_reason s with
  | AlreadyWarm => WarmPool.contains pool (s_key s) = true
  | InsufficientCapacity requested avail =>
      WarmPool.contains pool (s_key s) = false /\ budget_fits requested avail = false
  end.

Lemma plan_loop_partition pool cap targets : forall m sk planned,
  let p := plan_loop pool cap targets m sk planned in
  exists ts ss, r_maintain p = m ++ ts /\ r_skipped p = sk ++ ss /\
    t_key <$> targets ≡ₚ (t_key <$> ts) ++ (s_key <$> ss) /\
    Forall (fun t => WarmPool.contains pool (t_key t) = false) ts /\
    Forall (target_skipped pool) ss.
Proof.
  induction targets as [|t targets IH]; intros m sk planned; simpl.
  { exists [], []. by rewrite !app_nil_r. }
  destruct (WarmPool.contains pool (t_key t)) eqn:Hc;
    [|destruct (budget_fits (t_budget t) (budget_sub (available cap) planned)) eqn:Hf]; simpl.
  - destruct (IH m (sk ++ [mk_skip (t_key t) AlreadyWarm]) planned)
      as (ts & ss & -> & -> & Hp & ? & ?).
    exists ts, (mk_skip (t_key t) AlreadyWarm :: ss). rewrite <- app_assoc. split_and!; try done.
    + rewrite fmap_cons, Hp. apply Permutation_middle.
    + by constructor.
  - destruct (IH (m ++ [t]) sk (budget_add planned (t_budget t))) as (ts & ss & -> & -> & Hp & ? & ?).
    exists (t :: ts), ss. rewrite <- app_assoc. split_and!; try done.
    + rewrite fmap_cons, Hp. done.
    + by constructor.
  - destruct (IH m (sk ++ [mk_skip (t_key t) (InsufficientCapacity (t_budget t)
      (budget_sub (available cap) planned))]) planned) as (ts & ss & -> & -> & Hp & ? & ?).
    eexists ts, (_ :: ss). rewrite <- app_assoc. split_and!; try done.
    + rewrite fmap_cons, Hp. apply Permutation_middle.
    + by constructor.
Qed.

(** The planner loses no target: the keys scheduled and the keys skipped are
    together exactly the keys asked for; nothing already warm is scheduled,
    and every skip carries a reason that holds. *)
Theorem replenish_partition targets pool cap :
  let p := from_targets targets pool cap in
  t_key <$> targets ≡ₚ (t_key <$> r_maintain p) ++ (s_key <$> r_skipped p) /\
  Forall (fun t => WarmPool.contains pool (t_key t) = false) (r_maintain p) /\
  Forall (target_skipped pool) (r_skipped p).
Proof.
  destruct (plan_loop_partition pool cap targets [] [] budget_zero) as (ts & ss & H1 & H2 & H).
  unfold from_targets. rewrite H1, H2. done.
Qed.

(** *** Witnesses *)
Lemma plan_executes_witness :
  exists pool' cap',
    evict_until_available demo_capacity demo_pool demo_cap = Some ((pool', cap'), [demo_entry]) /\
    (reserve_active cap' demo_capacity).2 = Ok tt.
Proof.
  destruct (plan_executes demo_capacity demo_pool demo_cap demo_pool_inv demo_capacity_typed)
    as (p & c & H1 & _ & _ & _ & H2). exists p, c. split; [exact H1|exact H2].
Defined.
Lemma backpressure_decision_witness :
  decision (Backpressure.from_warm_pool demo_capacity demo_pool demo_cap 0 4) = AdmitNow /\
  decision_ok demo_capacity demo_pool demo_cap 0 4
    (Backpressure.from_warm_pool demo_capacity demo_pool demo_cap 0 4).
Proof.
  split; [reflexivity|]. apply backpressure_decision.
  - apply demo_pool_inv.
  - apply demo_capacity_typed.
  - lia.
  - split; [lia|reflexivity].
Defined.
Definition demo_target : WarmPoolReplenishmentTarget :=
  mk_target (mk_key "repo" "other" "small") (manifest_base "other" "/snap/other") demo_request.
Lemma replenish_plan_executes_witness :
  r_maintain (from_targets [demo_target] demo_pool demo_cap) = [demo_target] /\
  exists pool' cap',
    maintain_all demo_pool demo_cap [entry_of demo_target] = ((pool', cap'), Ok tt).
Proof.
  split; [reflexivity|].
  destruct (replenish_plan_executes [demo_target] demo_pool demo_cap demo_pool_inv)
    as (p & c & H & _).
  - apply Forall_singleton. exact demo_request_typed.
  - exists p, c. exact H.
Defined.
