(* ===== verification/Scheduler.v ===== *)
(** * The single-node scheduler ([crates/single-node/src/scheduler.rs])

    In-memory admission control for one host: a map of admitted sandboxes and
    the active side of a capacity ledger, behind a mutex.  A lock poisoned by
    a panicking thread makes every operation fail; each operation runs under
    the lock, so a run of concurrent callers is a sequence of steps. *)
From S2P Require Import Prelude Types Capacity.
Import Sizes.

Record SandboxResources := mk_resources { vcpus : Z; memory_bytes : Z }.
#[global] Instance SandboxResources_eq_dec : EqDecision SandboxResources.
Proof. solve_decision. Defined.
Definition resources_new (vcpus : Z) (memory : Size) : SandboxResources :=
  mk_resources vcpus (as_bytes memory).
Definition to_budget (r : SandboxResources) : ResourceBudget :=
  mk_budget (vcpus r) (size_bytes (memory_bytes r)) (size_bytes 0).
Definition from_budget (b : ResourceBudget) : SandboxResources :=
  resources_new (cpus b) (memory b).

Record SingleNodeSchedulerConfig := mk_config {
  max_sessions : Z;
  resources : SandboxResources
}.
Definition config_default : SingleNodeSchedulerConfig :=
  mk_config 64 (resources_new 256 (gib 768)).

Record SchedulerState := mk_state {
  admitted : gmap string SandboxResources;
  ledger : CapacityLedger
}.
Definition state_new (r : SandboxResources) : SchedulerState :=
  mk_state ∅ (ledger_new (to_budget r)).
(** The scheduler: its configuration, the guarded state, and whether the
    mutex is poisoned. *)
Record SingleNodeScheduler := mk_scheduler {
  config : SingleNodeSchedulerConfig;
  inner : SchedulerState;
  poisoned : bool
}.
Definition scheduler_new (c : SingleNodeSchedulerConfig) : SingleNodeScheduler :=
  mk_scheduler c (state_new (resources c)) false.

Inductive Error :=
| InvalidRequest (message : string)
| UnsupportedCapability (message : string)
| CapacityRejected (message : string)
| DiskPressure (message : string)
| SandboxNotFound (message : string)
| SnapshotNotFound (message : string)
| Conflict (message : string)
| TemplateBuildFailed (message : string)
| RuntimeLaunchFailed (message : string)
| RuntimeCommandFailed (message : string)
| StatePersistenceFailed (message : string)
| ProtocolFailure (message : string).

Definition rejected (sandbox_id what requested available : string) : Error :=
  CapacityRejected ("single-node scheduler rejected sandbox `" +:+ sandbox_id +:+ "`: "
    +:+ what +:+ " requested " +:+ requested +:+ ", available " +:+ available).
Definition capacity_error (sandbox_id : string) (e : CapacityError) : Error :=
  match e with
  | Cpu requested available =>
      rejected sandbox_id "CPU" (print_dec requested) (print_dec available)
  | Memory requested available =>
      rejected sandbox_id "memory" (size_display requested) (size_display available)
  | Disk requested available =>
      rejected sandbox_id "disk" (size_display requested) (size_display available)
  end.
Definition max_sessions_error (sandbox_id : string) (n : Z) : Error :=
  CapacityRejected ("single-node scheduler rejected sandbox `" +:+ sandbox_id
    +:+ "`: max sessions " +:+ print_dec n +:+ " reached").
Definition lock (s : SingleNodeScheduler) : result Error SchedulerState :=
  if poisoned s then Err (CapacityRejected "single-node scheduler lock poisoned")
  else Ok (inner s).
Definition set_inner (s : SingleNodeScheduler) (i : SchedulerState) : SingleNodeScheduler :=
  mk_scheduler (config s) i (poisoned s).

Definition scheduler_admit (s : SingleNodeScheduler) (sandbox_id : string) (r : SandboxResources)
  : SingleNodeScheduler * result Error unit :=
  match lock s with
  | Err e => (s, Err e)
  | Ok i =>
      if decide (is_Some (admitted i !! sandbox_id)) then (s, Ok tt)
      else if max_sessions (config s) <=? Z.of_nat (size (admitted i))
      then (s, Err (max_sessions_error sandbox_id (max_sessions (config s))))
      else match reserve_active (ledger i) (to_budget r) with
           | (l, Err e) =>
               (set_inner s (mk_state (admitted i) l), Err (capacity_error sandbox_id e))
           | (l, Ok _) =>
               (set_inner s (mk_state (<[sandbox_id := r]> (admitted i)) l), Ok tt)
           end
  end.
Definition release (s : SingleNodeScheduler) (sandbox_id : string)
  : SingleNodeScheduler * result Error unit :=
  match lock s with
  | Err e => (s, Err e)
  | Ok i =>
      match admitted i !! sandbox_id with
      | Some r =>
          (set_inner s (mk_state (delete sandbox_id (admitted i))
                                 (release_active (ledger i) (to_budget r))), Ok tt)
      | None => (s, Ok tt)
      end
  end.
Definition admitted_len (s : SingleNodeScheduler) : result Error Z :=
  i ← lock s; Ok (Z.of_nat (size (admitted i))).
Definition available_resources (s : SingleNodeScheduler) : result Error SandboxResources :=
  i ← lock s; Ok (from_budget (available (ledger i))).

(** ** Invariant *)
Definition resources_typed (r : SandboxResources) : Prop :=
  in_uint 32 (vcpus r) /\ in_uint 64 (memory_bytes r).
Definition admitted_total (d : Dim) (m : gmap string SandboxResources) : Z :=
  sumZ (fun p => get d (to_budget p.2)) (map_to_list m).
Definition scheduler_inv (s : SingleNodeScheduler) : Prop :=
  let i := inner s in
  ledger_ok (ledger i) /\ warm_pool (ledger i) = budget_zero /\
  capacity (ledger i) = to_budget (resources (config s)) /\
  map_Forall (fun _ r => resources_typed r) (admitted i) /\
  (forall d, get d (active (ledger i)) = admitted_total d (admitted i)) /\
  Z.of_nat (size (admitted i)) <= max_sessions (config s).

(** ** Steps: one locked call *)
Inductive step : SingleNodeScheduler -> SingleNodeScheduler -> Prop :=
| step_admit s id r : resources_typed r -> step s (scheduler_admit s id r).1
| step_release s id : step s (release s id).1
| step_poison s : step s (mk_scheduler (config s) (inner s) true).

Lemma to_budget_typed r : resources_typed r -> budget_typed (to_budget r).
Proof. intros [? ?] []; simpl; try done; uint_lia. Qed.

Lemma admitted_total_insert d id r m :
  m !! id = None -> admitted_total d (<[id := r]> m) = admitted_total d m + get d (to_budget r).
Proof.
  intros Hm. unfold admitted_total.
  rewrite (sumZ_perm _ _ _ (map_to_list_insert m id r Hm)). simpl. lia.
Qed.
Lemma admitted_total_delete d id r m :
  m !! id = Some r -> admitted_total d m = admitted_total d (delete id m) + get d (to_budget r).
Proof.
  intros Hm. unfold admitted_total.
  rewrite <- (sumZ_perm _ _ _ (map_to_list_delete m id r Hm)). simpl. lia.
Qed.
Lemma admitted_total_nonneg d m :
  map_Forall (fun _ r => resources_typed r) m -> 0 <= admitted_total d m.
Proof.
  intros Hm. apply sumZ_nonneg, Forall_forall. intros [id r] Hin.
  apply elem_of_map_to_list in Hin. specialize (Hm _ _ Hin). simpl.
  pose proof (to_budget_typed r Hm d). uint_lia.
Qed.

Lemma scheduler_new_inv c :
  resources_typed (resources c) -> 0 <= max_sessions c -> scheduler_inv (scheduler_new c).
Proof.
  intros Hr Hm. unfold scheduler_inv. simpl. split_and!; try done.
  - by apply ledger_new_ok, to_budget_typed.
  - intros d. unfold admitted_total. rewrite map_to_list_empty. by destruct d.
Qed.

Lemma admit_inv s id r : scheduler_inv s -> resources_typed r -> scheduler_inv (scheduler_admit s id r).1.
Proof.
  intros Hinv Hr. unfold scheduler_admit. destruct (lock s) as [i|] eqn:Hlock; [|done].
  unfold lock in Hlock. destruct (poisoned s); [done|]. injection Hlock as <-.
  case_decide as Hnew; [done|].
  destruct (max_sessions (config s) <=? _) eqn:Hmax; [done|].
  destruct Hinv as (Hl & Hw & Hcap & Hm & Ht & Hlen).
  pose proof (reserve_spec (ReservationLaws := active_side_laws) (ledger (inner s)) (to_budget r)
    Hl (to_budget_typed r Hr)) as Hres. cbn [reserve held other active_side] in Hres.
  destruct (capacity_error_for_request _ _).
  - rewrite Hres. done.
  - destruct Hres as (l & -> & Hl' & Hcap' & Hw' & Hd). simpl.
    apply eq_None_not_Some in Hnew. unfold scheduler_inv. simpl. split_and!.
    + done.
    + congruence.
    + congruence.
    + by apply map_Forall_insert_2.
    + intros d. by rewrite Hd, Ht, admitted_total_insert.
    + rewrite map_size_insert_None by done. lia.
Qed.

Lemma release_inv s id : scheduler_inv s -> scheduler_inv (release s id).1.
Proof.
  intros Hinv. unfold release. destruct (lock s) as [i|] eqn:Hlock; [|done].
  unfold lock in Hlock. destruct (poisoned s); [done|]. injection Hlock as <-.
  destruct (admitted (inner s) !! id) as [r|] eqn:Hid; [|done].
  destruct Hinv as (Hl & Hw & Hcap & Hm & Ht & Hlen).
  assert (Hle : forall d, 0 <= get d (to_budget r) <= get d (active (ledger (inner s)))).
  { intros d. rewrite Ht, (admitted_total_delete d id r) by done.
    pose proof (to_budget_typed r (Hm _ _ Hid) d).
    pose proof (admitted_total_nonneg d (delete id (admitted (inner s)))
      ltac:(by apply map_Forall_delete)). uint_lia. }
  destruct (release_spec (ReservationLaws := active_side_laws) (ledger (inner s)) (to_budget r)
    Hl Hle) as (Hl' & Hcap' & Hw' & Hd). cbn [Capacity.release held other active_side] in *.
  unfold scheduler_inv. simpl in *. split_and!; try done.
  - by apply map_Forall_delete.
  - intros d. rewrite Hd, Ht, (admitted_total_delete d id r) by done. lia.
  - rewrite map_size_delete, Hid. lia.
Qed.

Lemma step_inv s s' : scheduler_inv s -> step s s' -> scheduler_inv s'.
Proof.
  intros Hs Hst. destruct Hst; [by apply admit_inv|by apply release_inv|exact Hs].
Qed.
Lemma steps_inv s s' : scheduler_inv s -> rtc step s s' -> scheduler_inv s'.
Proof. intros Hs. induction 1; eauto using step_inv. Qed.

(** ** Properties *)

(** C27: Whatever sequence of admits and releases (and a poisoned lock) a
    scheduler goes through, the sandboxes it has admitted never exceed the
    configured session bound nor, summed up, the configured CPUs and memory,
    and what it reports as available is exactly the rest. *)
Theorem scheduler_never_overcommits c s :
  resources_typed (resources c) -> 0 <= max_sessions c -> rtc step (scheduler_new c) s ->
  Z.of_nat (size (admitted (inner s))) <= max_sessions c /\
  (forall d, admitted_total d (admitted (inner s)) + get d (available (ledger (inner s)))
             = get d (to_budget (resources c))) /\
  (forall d, 0 <= get d (available (ledger (inner s)))).
Proof.
  intros Hr Hm Hs. assert (Hcfg : config s = c).
  { change c with (config (scheduler_new c)). clear Hr Hm. induction Hs as [|x y z Hxy _ IH];
      [done|]. rewrite IH. destruct Hxy; simpl; [unfold scheduler_admit|unfold release|done];
      repeat case_match; done. }
  pose proof (steps_inv _ _ (scheduler_new_inv c Hr Hm) Hs) as (Hl & Hw & Hcap & _ & Ht & Hlen).
  rewrite Hcfg in *. split; [done|]. split; intros d; rewrite get_available by done;
    destruct Hl as [_ Hl]; specialize (Hl d); rewrite ?Hw, ?get_zero, ?Hcap, ?Ht in *;
    rewrite ?get_zero in *; lia.
Qed.

(** Admitting a new sandbox that the scheduler accepts and releasing it
    again restores the scheduler exactly; admitting it a second time in
    between changes nothing and succeeds, and releasing an unknown sandbox is
    a no-op. *)
Theorem admit_release_roundtrip s id r :
  scheduler_inv s -> resources_typed r -> admitted (inner s) !! id = None ->
  release s id = (s, match lock s with Ok _ => Ok tt | Err e => Err e end) /\
  ((scheduler_admit s id r).2 = Ok tt ->
   let s' := (scheduler_admit s id r).1 in
   forall r', scheduler_admit s' id r' = (s', Ok tt) /\ release s' id = (s, Ok tt)).
Proof.
  intros (Hl & Hw & Hcap & Hm & Ht & Hlen) Hr Hnone. unfold scheduler_admit, release, lock.
  destruct (poisoned s) eqn:Hpois; [done|]. rewrite Hnone. split; [done|].
  rewrite (decide_False (P := is_Some None)) by apply is_Some_None.
  destruct (max_sessions (config s) <=? _); [done|].
  pose proof (reserve_spec (ReservationLaws := active_side_laws) (ledger (inner s)) (to_budget r)
    Hl (to_budget_typed r Hr)) as Hres. cbn [reserve held other active_side] in Hres.
  destruct (capacity_error_for_request _ _); [by rewrite Hres|].
  destruct Hres as (l & -> & Hl' & Hc' & Hw' & Hd). intros _ r'. simpl. rewrite Hpois. simpl.
  rewrite lookup_insert_eq. split; [by rewrite decide_True by eauto|].
  unfold set_inner. simpl. rewrite delete_insert_id by done. f_equal.
  destruct s as [cfg [m [cc aa ww]] po]. simpl in *. unfold release_active. simpl.
  rewrite Hc', Hw'. do 3 f_equal. apply budget_ext. intros d. rewrite get_sub, Hd.
  destruct Hl as [_ Hl]. specialize (Hl d). simpl in Hl. uint_lia.
Qed.

(** *** Witnesses *)
Definition demo_resources : SandboxResources := mk_resources 4 (2 ^ 33).
Lemma demo_resources_typed : resources_typed demo_resources.
Proof. split; vm_compute; split; congruence. Qed.
Lemma config_default_typed : resources_typed (resources config_default).
Proof. split; vm_compute; split; congruence. Qed.
Definition demo_scheduler : SingleNodeScheduler :=
  (scheduler_admit (scheduler_new config_default) "sbx-1" demo_resources).1.

Lemma scheduler_never_overcommits_witness :
  Z.of_nat (size (admitted (inner demo_scheduler))) <= 64 /\
  (forall d, admitted_total d (admitted (inner demo_scheduler))
             + get d (available (ledger (inner demo_scheduler)))
             = get d (to_budget (resources config_default))) /\
  (forall d, 0 <= get d (available (ledger (inner demo_scheduler)))).
Proof.
  apply (scheduler_never_overcommits config_default demo_scheduler).
  - apply config_default_typed.
  - vm_compute. congruence.
  - apply rtc_once, step_admit, demo_resources_typed.
Defined.
Lemma admit_release_roundtrip_witness :
  release demo_scheduler "sbx-1" = (scheduler_new config_default, Ok tt).
Proof.
  apply (admit_release_roundtrip (scheduler_new config_default) "sbx-1" demo_resources).
  - apply scheduler_new_inv; [apply config_default_typed|vm_compute; congruence].
  - apply demo_resources_typed.
  - reflexivity.
  - reflexivity.
  - exact demo_resources.
Defined.
