(* ===== verification/Ext4Layout.v ===== *)
(** * On-disk layout and units ([crates/ext4/src/{layout,types}.rs])

    The [repr(C)] structures of an ext4 image as records, with the bytes
    [bytemuck::bytes_of] gives on a little-endian host, and the newtypes for
    block sizes and file modes.  A byte is a [Z] in [[0, 256)]. *)
From S2P Require Import Prelude.

(** ** Little-endian integers *)
Fixpoint le (n : nat) (z : Z) : list Z :=
  match n with O => [] | S n => (z mod 256) :: le n (z / 256) end.
Fixpoint from_le (bs : list Z) : Z :=
  match bs with [] => 0 | b :: bs => b + 256 * from_le bs end.
Definition le_array (w : nat) (l : list Z) : list Z := mjoin (le w <$> l).
Definition zeros (n : nat) : list Z := replicate n 0.

Lemma length_le n z : length (le n z) = n.
Proof. revert z. induction n; intros; simpl; auto. Qed.
Lemma le_bytes n z : Forall (fun b => in_uint 8 b) (le n z).
Proof.
  revert z. induction n; intros z; simpl; [constructor|]. constructor; [|done].
  unfold in_uint. pose proof (Z.mod_pos_bound z 256). lia.
Qed.
Lemma from_le_le n z : in_uint (8 * Z.of_nat n) z -> from_le (le n z) = z.
Proof.
  unfold in_uint. revert z. induction n as [|n IH]; intros z Hz; simpl.
  - change (2 ^ (8 * Z.of_nat 0)) with 1 in Hz. lia.
  - rewrite IH; [pose proof (Z.div_mod z 256); lia|].
    replace (8 * Z.of_nat (S n)) with (8 + 8 * Z.of_nat n) in Hz by lia.
    rewrite Z.pow_add_r in Hz by lia. change (2 ^ 8) with 256 in Hz.
    split; [apply Z.div_pos; lia|apply Z.div_lt_upper_bound; lia].
Qed.
Lemma length_zeros n : length (zeros n) = n.
Proof. apply length_replicate. Qed.
Lemma length_le_array w l : length (le_array w l) = (w * length l)%nat.
Proof.
  unfold le_array. induction l as [|z l IH]; simpl; [lia|].
  rewrite length_app, length_le. unfold fmap in IH. lia.
Qed.

(** ** Constants *)
Definition SUPERBLOCK_OFFSET : Z := 1024.
Definition SUPERBLOCK_MAGIC : Z := 0xEF53.
Definition EXTENT_HEADER_MAGIC : Z := 0xF30A.
Definition INODE_SIZE : Z := 256.
Definition INODE_BODY_SIZE : Z := 160.
Definition INODE_EXTRA_ISIZE : Z := INODE_BODY_SIZE - 128.
Definition INODE_INLINE_XATTR_SIZE : Z := INODE_SIZE - INODE_BODY_SIZE.
Definition GROUP_DESC_SIZE : Z := 32.
Definition ROOT_INODE : Z := 2.
Definition LOST_FOUND_INODE : Z := 11.
Definition FIRST_FREE_INODE : Z := 11.
Definition MAX_EXTENTS_PER_INODE : Z := 4.
Definition MAX_BLOCKS_PER_EXTENT : Z := 0x8000.
Definition COMPAT_EXT_ATTR : Z := 0x0008.
Definition COMPAT_SPARSE_SUPER2 : Z := 0x0200.
Definition INCOMPAT_FILETYPE : Z := 0x0002.
Definition INCOMPAT_EXTENTS : Z := 0x0040.
Definition INCOMPAT_FLEX_BG : Z := 0x0200.
Definition RO_COMPAT_LARGE_FILE : Z := 0x0002.
Definition RO_COMPAT_HUGE_FILE : Z := 0x0008.
Definition RO_COMPAT_EXTRA_ISIZE : Z := 0x0040.
Definition FLAG_HUGE_FILE : Z := 0x00040000.
Definition FLAG_EXTENTS : Z := 0x00080000.
Definition XATTR_MAGIC : Z := 0xEA020000.
Definition XATTR_IBODY_MAGIC : Z := 0xEA020000.

(** ** Structures *)
Record Superblock := mk_superblock {
  s_inodes_count : Z;
  s_blocks_count_lo : Z;
  s_r_blocks_count_lo : Z;
  s_free_blocks_count_lo : Z;
  s_free_inodes_count : Z;
  s_first_data_block : Z;
  s_log_block_size : Z;
  s_log_cluster_size : Z;
  s_blocks_per_group : Z;
  s_clusters_per_group : Z;
  s_inodes_per_group : Z;
  s_mtime : Z;
  s_wtime : Z;
  s_mnt_count : Z;
  s_max_mnt_count : Z;
  s_magic : Z;
  s_state : Z;
  s_errors : Z;
  s_minor_rev_level : Z;
  s_lastcheck : Z;
  s_checkinterval : Z;
  s_creator_os : Z;
  s_rev_level : Z;
  s_def_resuid : Z;
  s_def_resgid : Z;
  s_first_ino : Z;
  s_inode_size : Z;
  s_block_group_nr : Z;
  s_feature_compat : Z;
  s_feature_incompat : Z;
  s_feature_ro_compat : Z;
  s_uuid : list Z;
  s_volume_name : list Z;
  s_last_mounted : list Z;
  s_algorithm_usage_bitmap : Z;
  s_prealloc_blocks : Z;
  s_prealloc_dir_blocks : Z;
  s_reserved_gdt_blocks : Z;
  s_journal_uuid : list Z;
  s_journal_inum : Z;
  s_journal_dev : Z;
  s_last_orphan : Z;
  s_hash_seed : list Z;
  s_def_hash_version : Z;
  s_jnl_backup_type : Z;
  s_desc_size : Z;
  s_default_mount_opts : Z;
  s_first_meta_bg : Z;
  s_mkfs_time : Z;
  s_jnl_blocks : list Z;
  s_blocks_count_hi : Z;
  s_r_blocks_count_hi : Z;
  s_free_blocks_count_hi : Z;
  s_min_extra_isize : Z;
  s_want_extra_isize : Z;
  s_flags : Z;
  s_raid_stride : Z;
  s_mmp_interval : Z;
  s_mmp_block : Z;
  s_raid_stripe_width : Z;
  s_log_groups_per_flex : Z;
  s_checksum_type : Z;
  s_reserved_pad : Z;
  s_kbytes_written : Z;
  s_snapshot_inum : Z;
  s_snapshot_id : Z;
  s_snapshot_r_blocks_count : Z;
  s_snapshot_list : Z;
  s_error_count : Z;
  s_first_error_time : Z;
  s_first_error_ino : Z;
  s_first_error_block : Z;
  s_first_error_func : list Z;
  s_first_error_line : Z;
  s_last_error_time : Z;
  s_last_error_ino : Z;
  s_last_error_line : Z;
  s_last_error_block : Z;
  s_last_error_func : list Z;
  s_mount_opts : list Z;
  s_usr_quota_inum : Z;
  s_grp_quota_inum : Z;
  s_overhead_clusters : Z;
  s_backup_bgs : list Z;
  s_encrypt_algos : list Z;
  s_encrypt_pw_salt : list Z;
  s_lpf_ino : Z;
  s_prj_quota_inum : Z;
  s_checksum_seed : Z;
  s_wtime_hi : Z;
  s_mtime_hi : Z;
  s_mkfs_time_hi : Z;
  s_lastcheck_hi : Z;
  s_first_error_time_hi : Z;
  s_last_error_time_hi : Z;
  s_pad : list Z;
  s_reserved : list Z;
  s_checksum : Z
}.
Definition superblock_bytes (r : Superblock) : list Z :=
  le 4 (s_inodes_count r) ++ le 4 (s_blocks_count_lo r) ++ le 4 (s_r_blocks_count_lo r)
  ++ le 4 (s_free_blocks_count_lo r) ++ le 4 (s_free_inodes_count r)
  ++ le 4 (s_first_data_block r) ++ le 4 (s_log_block_size r) ++ le 4 (s_log_cluster_size r)
  ++ le 4 (s_blocks_per_group r) ++ le 4 (s_clusters_per_group r) ++ le 4 (s_inodes_per_group r)
  ++ le 4 (s_mtime r) ++ le 4 (s_wtime r) ++ le 2 (s_mnt_count r) ++ le 2 (s_max_mnt_count r)
  ++ le 2 (s_magic r) ++ le 2 (s_state r) ++ le 2 (s_errors r) ++ le 2 (s_minor_rev_level r)
  ++ le 4 (s_lastcheck r) ++ le 4 (s_checkinterval r) ++ le 4 (s_creator_os r)
  ++ le 4 (s_rev_level r) ++ le 2 (s_def_resuid r) ++ le 2 (s_def_resgid r)
  ++ le 4 (s_first_ino r) ++ le 2 (s_inode_size r) ++ le 2 (s_block_group_nr r)
  ++ le 4 (s_feature_compat r) ++ le 4 (s_feature_incompat r) ++ le 4 (s_feature_ro_compat r)
  ++ le_array 1 (s_uuid r) ++ le_array 1 (s_volume_name r) ++ le_array 1 (s_last_mounted r)
  ++ le 4 (s_algorithm_usage_bitmap r) ++ le 1 (s_prealloc_blocks r)
  ++ le 1 (s_prealloc_dir_blocks r) ++ le 2 (s_reserved_gdt_blocks r)
  ++ le_array 1 (s_journal_uuid r) ++ le 4 (s_journal_inum r) ++ le 4 (s_journal_dev r)
  ++ le 4 (s_last_orphan r) ++ le_array 4 (s_hash_seed r) ++ le 1 (s_def_hash_version r)
  ++ le 1 (s_jnl_backup_type r) ++ le 2 (s_desc_size r) ++ le 4 (s_default_mount_opts r)
  ++ le 4 (s_first_meta_bg r) ++ le 4 (s_mkfs_time r) ++ le_array 4 (s_jnl_blocks r)
  ++ le 4 (s_blocks_count_hi r) ++ le 4 (s_r_blocks_count_hi r)
  ++ le 4 (s_free_blocks_count_hi r) ++ le 2 (s_min_extra_isize r) ++ le 2 (s_want_extra_isize r)
  ++ le 4 (s_flags r) ++ le 2 (s_raid_stride r) ++ le 2 (s_mmp_interval r)
  ++ le 8 (s_mmp_block r) ++ le 4 (s_raid_stripe_width r) ++ le 1 (s_log_groups_per_flex r)
  ++ le 1 (s_checksum_type r) ++ le 2 (s_reserved_pad r) ++ le 8 (s_kbytes_written r)
  ++ le 4 (s_snapshot_inum r) ++ le 4 (s_snapshot_id r) ++ le 8 (s_snapshot_r_blocks_count r)
  ++ le 4 (s_snapshot_list r) ++ le 4 (s_error_count r) ++ le 4 (s_first_error_time r)
  ++ le 4 (s_first_error_ino r) ++ le 8 (s_first_error_block r)
  ++ le_array 1 (s_first_error_func r) ++ le 4 (s_first_error_line r)
  ++ le 4 (s_last_error_time r) ++ le 4 (s_last_error_ino r) ++ le 4 (s_last_error_line r)
  ++ le 8 (s_last_error_block r) ++ le_array 1 (s_last_error_func r)
  ++ le_array 1 (s_mount_opts r) ++ le 4 (s_usr_quota_inum r) ++ le 4 (s_grp_quota_inum r)
  ++ le 4 (s_overhead_clusters r) ++ le_array 4 (s_backup_bgs r)
  ++ le_array 1 (s_encrypt_algos r) ++ le_array 1 (s_encrypt_pw_salt r) ++ le 4 (s_lpf_ino r)
  ++ le 4 (s_prj_quota_inum r) ++ le 4 (s_checksum_seed r) ++ le 1 (s_wtime_hi r)
  ++ le 1 (s_mtime_hi r) ++ le 1 (s_mkfs_time_hi r) ++ le 1 (s_lastcheck_hi r)
  ++ le 1 (s_first_error_time_hi r) ++ le 1 (s_last_error_time_hi r) ++ le_array 1 (s_pad r)
  ++ le_array 4 (s_reserved r) ++ le 4 (s_checksum r).
Record GroupDescriptor := mk_group_desc {
  bg_block_bitmap_lo : Z;
  bg_inode_bitmap_lo : Z;
  bg_inode_table_lo : Z;
  bg_free_blocks_count_lo : Z;
  bg_free_inodes_count_lo : Z;
  bg_used_dirs_count_lo : Z;
  bg_flags : Z;
  bg_exclude_bitmap_lo : Z;
  bg_block_bitmap_csum_lo : Z;
  bg_inode_bitmap_csum_lo : Z;
  bg_itable_unused_lo : Z;
  bg_checksum : Z
}.
Definition group_desc_bytes (r : GroupDescriptor) : list Z :=
  le 4 (bg_block_bitmap_lo r) ++ le 4 (bg_inode_bitmap_lo r) ++ le 4 (bg_inode_table_lo r)
  ++ le 2 (bg_free_blocks_count_lo r) ++ le 2 (bg_free_inodes_count_lo r)
  ++ le 2 (bg_used_dirs_count_lo r) ++ le 2 (bg_flags r) ++ le 4 (bg_exclude_bitmap_lo r)
  ++ le 2 (bg_block_bitmap_csum_lo r) ++ le 2 (bg_inode_bitmap_csum_lo r)
  ++ le 2 (bg_itable_unused_lo r) ++ le 2 (bg_checksum r).
Record InodeBody := mk_inode_body {
  i_mode : Z;
  i_uid : Z;
  i_size_lo : Z;
  i_atime : Z;
  i_ctime : Z;
  i_mtime : Z;
  i_dtime : Z;
  i_gid : Z;
  i_links_count : Z;
  i_blocks_lo : Z;
  i_flags : Z;
  i_version : Z;
  i_block : list Z;
  i_generation : Z;
  i_file_acl_lo : Z;
  i_size_hi : Z;
  i_obso_faddr : Z;
  i_blocks_hi : Z;
  i_file_acl_hi : Z;
  i_uid_hi : Z;
  i_gid_hi : Z;
  i_checksum_lo : Z;
  i_reserved : Z;
  i_extra_isize : Z;
  i_checksum_hi : Z;
  i_ctime_extra : Z;
  i_mtime_extra : Z;
  i_atime_extra : Z;
  i_crtime : Z;
  i_crtime_extra : Z;
  i_version_hi : Z;
  i_projid : Z
}.
Definition inode_body_bytes (r : InodeBody) : list Z :=
  le 2 (i_mode r) ++ le 2 (i_uid r) ++ le 4 (i_size_lo r) ++ le 4 (i_atime r)
  ++ le 4 (i_ctime r) ++ le 4 (i_mtime r) ++ le 4 (i_dtime r) ++ le 2 (i_gid r)
  ++ le 2 (i_links_count r) ++ le 4 (i_blocks_lo r) ++ le 4 (i_flags r) ++ le 4 (i_version r)
  ++ le_array 1 (i_block r) ++ le 4 (i_generation r) ++ le 4 (i_file_acl_lo r)
  ++ le 4 (i_size_hi r) ++ le 4 (i_obso_faddr r) ++ le 2 (i_blocks_hi r)
  ++ le 2 (i_file_acl_hi r) ++ le 2 (i_uid_hi r) ++ le 2 (i_gid_hi r) ++ le 2 (i_checksum_lo r)
  ++ le 2 (i_reserved r) ++ le 2 (i_extra_isize r) ++ le 2 (i_checksum_hi r)
  ++ le 4 (i_ctime_extra r) ++ le 4 (i_mtime_extra r) ++ le 4 (i_atime_extra r)
  ++ le 4 (i_crtime r) ++ le 4 (i_crtime_extra r) ++ le 4 (i_version_hi r) ++ le 4 (i_projid r).
Record Inode256 := mk_inode256 { body : InodeBody; inline_xattrs : list Z }.
Definition inode256_bytes (r : Inode256) : list Z :=
  inode_body_bytes (body r) ++ le_array 1 (inline_xattrs r).
Record ExtentHeader := mk_extent_header {
  eh_magic : Z;
  eh_entries : Z;
  eh_max : Z;
  eh_depth : Z;
  eh_generation : Z
}.
Definition extent_header_bytes (r : ExtentHeader) : list Z :=
  le 2 (eh_magic r) ++ le 2 (eh_entries r) ++ le 2 (eh_max r) ++ le 2 (eh_depth r)
  ++ le 4 (eh_generation r).
Record ExtentIndex := mk_extent_index {
  ei_block : Z;
  ei_leaf_lo : Z;
  ei_leaf_hi : Z;
  ei_unused : Z
}.
Definition extent_index_bytes (r : ExtentIndex) : list Z :=
  le 4 (ei_block r) ++ le 4 (ei_leaf_lo r) ++ le 2 (ei_leaf_hi r) ++ le 2 (ei_unused r).
Record ExtentLeaf := mk_extent_leaf {
  ee_block : Z;
  ee_len : Z;
  ee_start_hi : Z;
  ee_start_lo : Z
}.
Definition extent_leaf_bytes (r : ExtentLeaf) : list Z :=
  le 4 (ee_block r) ++ le 2 (ee_len r) ++ le 2 (ee_start_hi r) ++ le 4 (ee_start_lo r).
Record DirEntryHeader := mk_dir_entry_header {
  inode : Z;
  rec_len : Z;
  name_len : Z;
  file_type : Z
}.
Definition dir_entry_header_bytes (r : DirEntryHeader) : list Z :=
  le 4 (inode r) ++ le 2 (rec_len r) ++ le 1 (name_len r) ++ le 1 (file_type r).
Record XattrEntry := mk_xattr_entry {
  e_name_len : Z;
  e_name_index : Z;
  e_value_offs : Z;
  e_value_inum : Z;
  e_value_size : Z;
  e_hash : Z
}.
Definition xattr_entry_bytes (r : XattrEntry) : list Z :=
  le 1 (e_name_len r) ++ le 1 (e_name_index r) ++ le 2 (e_value_offs r)
  ++ le 4 (e_value_inum r) ++ le 4 (e_value_size r) ++ le 4 (e_hash r).
Definition inode_body_zeroed : InodeBody := {|
  i_mode := 0; i_uid := 0; i_size_lo := 0; i_atime := 0; i_ctime := 0; i_mtime := 0;
  i_dtime := 0; i_gid := 0; i_links_count := 0; i_blocks_lo := 0; i_flags := 0;
  i_version := 0; i_block := zeros 60; i_generation := 0; i_file_acl_lo := 0; i_size_hi := 0;
  i_obso_faddr := 0; i_blocks_hi := 0; i_file_acl_hi := 0; i_uid_hi := 0; i_gid_hi := 0;
  i_checksum_lo := 0; i_reserved := 0; i_extra_isize := 0; i_checksum_hi := 0;
  i_ctime_extra := 0; i_mtime_extra := 0; i_atime_extra := 0; i_crtime := 0;
  i_crtime_extra := 0; i_version_hi := 0; i_projid := 0
|}.
Definition inode256_zeroed : Inode256 := mk_inode256 inode_body_zeroed (zeros 96).

#[global] Instance ExtentLeaf_eq_dec : EqDecision ExtentLeaf.
Proof. solve_decision. Defined.

(** ** Units ([types.rs]) *)
Definition offset_bytes (block bs : Z) : Z := block * bs.
(** [BlockNumber::next] on [u32]. *)
Definition next_block (block : Z) : Z := wrap 32 (block + 1).
(** [InodeNumber::table_index]. *)
Definition table_index (ino : Z) : Z := wrap 32 (ino - 1).

(** A [BlockSize] can only be built as one of the three constants. *)
Inductive BlockSize := K1 | K2 | K4.
Definition bs_bytes (b : BlockSize) : Z := match b with K1 => 1024 | K2 => 2048 | K4 => 4096 end.
Definition bs_log (b : BlockSize) : Z := match b with K1 => 0 | K2 => 1 | K4 => 2 end.
Definition try_new (bytes : Z) : option BlockSize :=
  if bytes =? 1024 then Some K1
  else if bytes =? 2048 then Some K2
  else if bytes =? 4096 then Some K4
  else None.

Definition IFDIR : Z := 0x4000.
Definition IFCHR : Z := 0x2000.
Definition IFREG : Z := 0x8000.
Definition IFLNK : Z := 0xA000.
Definition TYPE_MASK : Z := 0xF000.
Definition mode_dir (perm : Z) : Z := Z.lor IFDIR (Z.land perm 0xFFF).
Definition mode_char_device (perm : Z) : Z := Z.lor IFCHR (Z.land perm 0xFFF).
Definition mode_regular (perm : Z) : Z := Z.lor IFREG (Z.land perm 0xFFF).
Definition mode_symlink (perm : Z) : Z := Z.lor IFLNK (Z.land perm 0xFFF).
Definition is_dir (mode : Z) : bool := Z.land mode TYPE_MASK =? IFDIR.
Definition is_char_device (mode : Z) : bool := Z.land mode TYPE_MASK =? IFCHR.
Definition is_regular (mode : Z) : bool := Z.land mode TYPE_MASK =? IFREG.
Definition is_symlink (mode : Z) : bool := Z.land mode TYPE_MASK =? IFLNK.
Definition dir_entry_type (mode : Z) : Z :=
  let t := Z.land mode TYPE_MASK in
  if t =? IFREG then 1 else if t =? IFDIR then 2 else if t =? IFCHR then 3
  else if t =? IFLNK then 7 else 0.
