(* ===== verification/Ext4Path.v ===== *)
(** * Guest paths ([crates/ext4/src/builder.rs], free functions)

    The builder indexes nodes by a normalized path.  A normalized path is
    characterised by its list of non-empty components ([mkpath]), and the
    string functions are related to operations on that list. *)
From S2P Require Import Prelude.
From Stdlib Require Import Wf_nat.

Definition slash : ascii := "/"%char.

(** The loop of [normalize]: repeated slashes are collapsed. *)
Fixpoint collapse (prev_slash : bool) (s : string) : string :=
  match s with
  | EmptyString => EmptyString
  | String ch s =>
      if Ascii.eqb ch slash then
        if prev_slash then collapse true s else String slash (collapse true s)
      else String ch (collapse false s)
  end.
(** [String::pop]. *)
Fixpoint pop (s : string) : string :=
  match s with
  | EmptyString => EmptyString
  | String _ EmptyString => EmptyString
  | String c s => String c (pop s)
  end.
Definition normalize (path : string) : string :=
  if is_empty path then EmptyString
  else
    let out := (if starts_with slash path then EmptyString else "/") +:+ collapse false path in
    let out := if (1 <? len out) && ends_with slash out then pop out else out in
    if String.eqb out "/" then EmptyString else out.

Definition split_parent (normalized : string) : string * string :=
  match rsplit_once slash normalized with
  | Some (parent, base) => (parent, base)
  | None => (EmptyString, normalized)
  end.
(** The names no directory entry may be given. *)
Definition bad_base (base : string) : bool :=
  is_empty base || String.eqb base "." || String.eqb base "..".
(** [basename]; the error carries the caller's path ([InvalidFilename]). *)
Definition basename (path : string) : result string string :=
  let '(_, base) := split_parent (normalize path) in
  if bad_base base then Err path else Ok base.
Definition whiteout_marker_path (path : string) : result string string :=
  let normalized := normalize path in
  let '(parent, base) := split_parent normalized in
  if is_empty normalized || bad_base base then Err path
  else Ok (if is_empty parent then "/.wh." +:+ base else parent +:+ "/.wh." +:+ base).
Definition opaque_dir_marker_path (path : string) : string :=
  let normalized := normalize path in
  if is_empty normalized then "/.wh..wh..opq" else normalized +:+ "/.wh..wh..opq".

(** ** Components *)
Definition components (s : string) : list string :=
  List.filter (fun c => negb (is_empty c)) (split slash s).
Fixpoint mkpath (cs : list string) : string :=
  match cs with [] => EmptyString | c :: cs => String slash (c +:+ mkpath cs) end.
(** A component: non-empty and without a slash. *)
Definition component (c : string) : Prop := c <> EmptyString /\ contains slash c = false.

Lemma split_app h r :
  contains slash h = false -> split slash (h +:+ String slash r) = h :: split slash r.
Proof.
  induction h as [|c h IH]; [done|]. rewrite contains_cons, append_cons.
  intros [Hc Hh]%orb_false_iff. cbn [split]. by rewrite Hc, IH.
Qed.
Lemma components_nil : components EmptyString = [].
Proof. done. Qed.
Lemma components_slash r : components (String slash r) = components r.
Proof. done. Qed.
Lemma components_single h : component h -> components h = [h].
Proof.
  intros [Hne Hc]. unfold components. rewrite split_single by done. simpl.
  apply is_empty_false in Hne. by rewrite Hne.
Qed.
Lemma components_app h r :
  component h -> components (h +:+ String slash r) = h :: components r.
Proof.
  intros [Hne Hc]. unfold components. rewrite split_app by done. simpl.
  apply is_empty_false in Hne. by rewrite Hne.
Qed.

(** Reading a path component by component. *)
Lemma path_ind (P : string -> Prop) :
  P EmptyString -> (forall r, P r -> P (String slash r)) ->
  (forall h, component h -> P h) ->
  (forall h r, component h -> P r -> P (h +:+ String slash r)) -> forall s, P s.
Proof.
  intros H0 Hs Hh Hhr s.
  induction s as [s IH] using (induction_ltof1 _ String.length). unfold ltof in IH.
  destruct (split_once slash s) as [[h r]|] eqn:E.
  - apply split_once_sound in E as [-> Hc]. destruct h as [|c h].
    + apply Hs, IH. simpl. lia.
    + apply Hhr; [done|]. apply IH. rewrite length_append. simpl. lia.
  - apply split_once_none in E. destruct s as [|c s]; [done|]. by apply Hh.
Qed.
Lemma components_ok s : Forall component (components s).
Proof.
  induction s using path_ind; rewrite ?components_nil, ?components_slash, ?components_single,
    ?components_app by done; eauto using Forall_nil_2, Forall_cons_2.
Qed.

Lemma collapse_single p h : contains slash h = false -> collapse p h = h.
Proof.
  revert p. induction h as [|c h IH]; intros p; [done|]. rewrite contains_cons.
  intros [Hc Hh]%orb_false_iff. cbn [collapse]. rewrite Ascii.eqb_sym, Hc. by rewrite IH.
Qed.
Lemma collapse_app p h r :
  component h -> collapse p (h +:+ String slash r) = h +:+ String slash (collapse true r).
Proof.
  intros [Hne Hc]. destruct h as [|c h]; [done|]. clear Hne.
  rewrite contains_cons in Hc. apply orb_false_iff in Hc as [Hc Hh].
  rewrite !append_cons. cbn [collapse]. rewrite Ascii.eqb_sym, Hc. f_equal.
  induction h as [|d h IH]; [done|]. rewrite contains_cons in Hh.
  apply orb_false_iff in Hh as [Hd Hh]. rewrite !append_cons. cbn [collapse].
  rewrite Ascii.eqb_sym, Hd. f_equal. by apply IH.
Qed.

(** The two last adjustments of [normalize] are one: drop a trailing slash. *)
Definition drop_trailing (s : string) : string := if ends_with slash s then pop s else s.

Lemma ends_with_app s c t : ends_with slash (s +:+ String c t) = ends_with slash (String c t).
Proof.
  induction s as [|d s IH]; [done|]. rewrite append_cons, <- IH.
  destruct s; done.
Qed.
Lemma pop_app s c t : pop (s +:+ String c t) = s +:+ pop (String c t).
Proof.
  induction s as [|d s IH]; [done|]. rewrite !append_cons, <- IH. destruct s; done.
Qed.
Lemma drop_trailing_app s c t :
  drop_trailing (s +:+ String c t) = s +:+ drop_trailing (String c t).
Proof. unfold drop_trailing. rewrite ends_with_app, pop_app. by destruct (ends_with _ _). Qed.
Lemma ends_with_component h : component h -> ends_with slash h = false.
Proof.
  intros [_ Hc]. induction h as [|c h IH]; [done|]. rewrite contains_cons in Hc.
  apply orb_false_iff in Hc as [Hc Hh]. destruct h; [done|by apply IH].
Qed.

Lemma drop_trailing_path s :
  drop_trailing (String slash (collapse true s)) = mkpath (components s).
Proof.
  induction s as [|r IH|h Hh|h r Hh IH] using path_ind.
  - done.
  - by rewrite components_slash, <- IH.
  - rewrite components_single, collapse_single by apply Hh || done. simpl.
    rewrite append_nil_r. unfold drop_trailing. destruct Hh as [Hne Hc].
    destruct h as [|c h]; [done|].
    change (String slash (String c h)) with ("/" +:+ String c h).
    by rewrite ends_with_app, ends_with_component.
  - rewrite components_app, collapse_app by done. simpl. rewrite <- IH.
    change (String slash (h +:+ String slash (collapse true r)))
      with (String slash h +:+ String slash (collapse true r)).
    by rewrite drop_trailing_app.
Qed.

Lemma collapse_true_head s : starts_with slash (collapse true s) = false.
Proof.
  induction s as [|c s IH]; [done|]. cbn [collapse].
  destruct (Ascii.eqb c slash) eqn:E; [done|]. cbn [starts_with]. by rewrite Ascii.eqb_sym.
Qed.

(** [normalize] keeps exactly the non-empty components. *)
Lemma normalize_spec s : normalize s = mkpath (components s).
Proof.
  unfold normalize. destruct s as [|c s]; [done|]. cbn [is_empty starts_with].
  assert (Hout : exists s', (if Ascii.eqb slash c then EmptyString else "/")
    +:+ collapse false (String c s) = String slash (collapse true s')
    /\ components (String c s) = components s').
  { cbn [collapse]. rewrite Ascii.eqb_sym. destruct (Ascii.eqb_spec c slash) as [->|Hc].
    - by exists s.
    - exists (String c s). apply Ascii.eqb_neq in Hc. cbn [collapse]. by rewrite Hc. }
  destruct Hout as (s' & -> & ->). rewrite <- drop_trailing_path.
  unfold drop_trailing. destruct (collapse true s') as [|d t] eqn:E; [done|].
  assert ((1 <? len (String slash (String d t))) = true) as ->.
  { unfold len. simpl. lia. }
  rewrite andb_true_l. destruct (ends_with _ _) eqn:He; [|done].
  destruct t as [|d' t]; [|done]. pose proof (collapse_true_head s') as Hh.
  rewrite E in Hh. cbn in He, Hh. congruence.
Qed.

(** ** Paths and component lists *)
Lemma components_mkpath cs : Forall component cs -> components (mkpath cs) = cs.
Proof.
  induction 1 as [|c cs Hc Hcs IH]; [done|]. cbn [mkpath]. rewrite components_slash.
  destruct cs as [|d cs]; [by rewrite append_nil_r, components_single|].
  cbn [mkpath] in *. rewrite components_app by done. f_equal.
  by rewrite components_slash in IH.
Qed.
Lemma mkpath_inj cs ds :
  Forall component cs -> Forall component ds -> mkpath cs = mkpath ds -> cs = ds.
Proof. intros Hc Hd E. by rewrite <- (components_mkpath cs), <- (components_mkpath ds), E. Qed.
Lemma normalize_mkpath cs : Forall component cs -> normalize (mkpath cs) = mkpath cs.
Proof. intros. by rewrite normalize_spec, components_mkpath. Qed.
Lemma normalize_nil_iff s : normalize s = EmptyString <-> components s = [].
Proof. rewrite normalize_spec. by destruct (components s). Qed.
Lemma mkpath_app cs ds : mkpath (cs ++ ds) = mkpath cs +:+ mkpath ds.
Proof.
  induction cs as [|c cs IH]; [done|]. cbn [mkpath app]. rewrite IH.
  by rewrite append_cons, append_assoc.
Qed.
Lemma mkpath_join c cs : mkpath (c :: cs) = "/" +:+ join "/" (c :: cs).
Proof.
  revert c. induction cs as [|d cs IH]; intros c; [simpl; by rewrite append_nil_r|].
  cbn [mkpath] in *. cbn [join]. rewrite (IH d). done.
Qed.

Lemma rsplit_once_none s : contains slash s = false -> rsplit_once slash s = None.
Proof.
  induction s as [|c s IH]; [done|]. rewrite contains_cons. intros [Hc Hs]%orb_false_iff.
  cbn [rsplit_once]. by rewrite IH, Hc.
Qed.
Lemma rsplit_once_app a b :
  contains slash b = false -> rsplit_once slash (a +:+ String slash b) = Some (a, b).
Proof.
  intros Hb. induction a as [|c a IH].
  - rewrite append_nil_l. cbn [rsplit_once]. by rewrite rsplit_once_none, Ascii.eqb_refl.
  - rewrite append_cons. cbn [rsplit_once]. by rewrite IH.
Qed.
Lemma split_parent_mkpath cs b :
  component b -> split_parent (mkpath (cs ++ [b])) = (mkpath cs, b).
Proof.
  intros [_ Hb]. unfold split_parent. rewrite mkpath_app. cbn [mkpath].
  by rewrite append_nil_r, rsplit_once_app.
Qed.
Lemma split_parent_nil : split_parent EmptyString = (EmptyString, EmptyString).
Proof. done. Qed.

(** The last component of a path, if it has one. *)
Lemma components_snoc s :
  components s = [] \/ exists cs b, components s = cs ++ [b] /\ Forall component cs /\ component b.
Proof.
  pose proof (components_ok s) as H. revert H. generalize (components s). intros l.
  induction l as [|b cs _] using rev_ind; [by left|]. intros H. right.
  apply Forall_app in H as [? [Hc _]%Forall_cons]. by exists cs, b.
Qed.
Lemma split_parent_normalize s cs b :
  components s = cs ++ [b] -> split_parent (normalize s) = (mkpath cs, b).
Proof.
  intros E. rewrite normalize_spec, E. apply split_parent_mkpath.
  pose proof (components_ok s) as H. rewrite E in H. by apply Forall_app in H as [_ [? _]%Forall_cons].
Qed.
Lemma basename_spec s :
  basename s = match last (components s) with
               | Some b => if bad_base b then Err s else Ok b
               | None => Err s
               end.
Proof.
  unfold basename. destruct (components_snoc s) as [E|(cs & b & E & _ & _)].
  - rewrite normalize_spec, E. done.
  - rewrite (split_parent_normalize s cs b E), E. by rewrite last_snoc.
Qed.
Lemma mkpath_empty cs : is_empty (mkpath cs) = match cs with [] => true | _ => false end.
Proof. by destruct cs. Qed.
Lemma whiteout_marker_spec s cs b :
  components s = cs ++ [b] -> bad_base b = false ->
  whiteout_marker_path s = Ok (mkpath (cs ++ [".wh." +:+ b])).
Proof.
  intros E Hb. unfold whiteout_marker_path. rewrite (split_parent_normalize s cs b E), Hb.
  rewrite normalize_spec, E, !mkpath_empty, mkpath_app. cbn [mkpath].
  rewrite append_nil_r. destruct cs; done.
Qed.
Lemma opaque_marker_spec s :
  opaque_dir_marker_path s = mkpath (components s ++ [".wh..wh..opq"%string]).
Proof.
  unfold opaque_dir_marker_path. rewrite normalize_spec, mkpath_empty, mkpath_app.
  by destruct (components s).
Qed.
