(* ===== verification/Ext4Tree.v ===== *)
(** * The in-memory tree of the ext4 builder
      ([crates/ext4/src/builder.rs], [FileSystemBuilder])

    The builder keeps an arena of nodes and an index from normalized paths to
    arena positions.  Operations run in a state monad whose state survives an
    error, so that what a failing call leaves behind can be stated. *)
From S2P Require Import Prelude Ext4Layout Ext4Path.

Record io_error := mk_io_error { io_message : string }.
(** [crates/ext4/src/error.rs]; [Write] and [Control] carry the I/O error. *)
Inductive Ext4Error :=
| ImageTooSmall (needed actual : Z)
| InvalidInode (ino : Z)
| InvalidBlockSize (bytes : Z)
| UnsupportedFeature (feature : string)
| FileTooLarge (bytes max : Z)
| ExtentDepthExceeded (path : string) (max_depth : Z)
| DirEntryOverflow (name : string) (rec_len : Z)
| PathConflict (path : string)
| InvalidFilename (name : string)
| SymlinkTargetTooLong (bytes max : Z)
| InvalidHardlinkTarget (path : string)
| WriteFailed (offset bytes : Z) (source : io_error)
| Control (what : string) (source : io_error)
| Internal (block : Z) (what : string).

(** The octal permission literals. *)
Definition o700 : Z := 7 * 64.
Definition o755 : Z := 7 * 64 + 5 * 8 + 5.
Definition o777 : Z := 7 * 64 + 7 * 8 + 7.
Definition MAX_FILE_SIZE : Z := 128 * 1024 * 1024 * 1024.
Definition MAX_SYMLINK_LEN : Z := 4095.
Definition FAST_SYMLINK_MAX : Z := 60.
Definition TARGET_BLOCKS_PER_FILE_EXTENT : Z := 4096.

(** Byte contents ([Vec<u8>]) are lists of integers, one per byte. *)
Record Xattr := mk_xattr { xattr_name : string; xattr_value : list Z }.

Inductive NodeContent :=
| CDirectory
| CFile (content : list Z)
| CSymlink (target : string)
| CWhiteout
| CHardlink.

Record Node := mk_node {
  name : string;
  parent : option nat;
  children : list nat;
  content : NodeContent;
  mode : Z;
  uid : Z;
  gid : Z;
  xattrs : list Xattr;
  inode : option Z;
  start_block : Z;
  end_block : Z;
  dir_link_count : Z;
  hardlink_target : option nat;
  xattr_block : option Z;
  file_extents : list ExtentLeaf;
  extent_leaf_block : option Z;
  deleted : bool
}.

Record FileSystemBuilder := mk_fs {
  block_size : BlockSize;
  uuid : list Z;
  fs_timestamp : Z;
  min_size : Z;
  nodes : list Node;
  path_index : gmap string nat
}.

(** ** Field updates *)
Definition set_children (l : list nat) (n : Node) : Node :=
  mk_node n.(name) n.(parent) l n.(content) n.(mode) n.(uid) n.(gid) n.(xattrs) n.(inode)
    n.(start_block) n.(end_block) n.(dir_link_count) n.(hardlink_target) n.(xattr_block)
    n.(file_extents) n.(extent_leaf_block) n.(deleted).
Definition set_links (c : Z) (n : Node) : Node :=
  mk_node n.(name) n.(parent) n.(children) n.(content) n.(mode) n.(uid) n.(gid) n.(xattrs) n.(inode)
    n.(start_block) n.(end_block) c n.(hardlink_target) n.(xattr_block)
    n.(file_extents) n.(extent_leaf_block) n.(deleted).
Definition set_deleted (n : Node) : Node :=
  mk_node n.(name) n.(parent) n.(children) n.(content) n.(mode) n.(uid) n.(gid) n.(xattrs) n.(inode)
    n.(start_block) n.(end_block) n.(dir_link_count) n.(hardlink_target) n.(xattr_block)
    n.(file_extents) n.(extent_leaf_block) true.
Definition set_xattrs (x : list Xattr) (n : Node) : Node :=
  mk_node n.(name) n.(parent) n.(children) n.(content) n.(mode) n.(uid) n.(gid) x n.(inode)
    n.(start_block) n.(end_block) n.(dir_link_count) n.(hardlink_target) n.(xattr_block)
    n.(file_extents) n.(extent_leaf_block) n.(deleted).
Definition set_nodes (l : list Node) (s : FileSystemBuilder) : FileSystemBuilder :=
  mk_fs s.(block_size) s.(uuid) s.(fs_timestamp) s.(min_size) l s.(path_index).
Definition set_index (m : gmap string nat) (s : FileSystemBuilder) : FileSystemBuilder :=
  mk_fs s.(block_size) s.(uuid) s.(fs_timestamp) s.(min_size) s.(nodes) m.

(** ** The builder's monad *)
Definition ST (A : Type) : Type := FileSystemBuilder -> FileSystemBuilder * exec Ext4Error A.
#[global] Instance ST_ret : MRet ST := fun A a s => (s, Done a).
#[global] Instance ST_bind : MBind ST := fun A B k m s =>
  match m s with
  | (s', Done a) => k a s'
  | (s', Failed e) => (s', Failed e)
  | (s', Panic) => (s', Panic)
  end.
Definition throw {A} (e : Ext4Error) : ST A := fun s => (s, Failed e).
Definition panic {A} : ST A := fun s => (s, Panic).
Definition gets {A} (f : FileSystemBuilder -> A) : ST A := fun s => (s, Done (f s)).
Definition modify (f : FileSystemBuilder -> FileSystemBuilder) : ST unit := fun s => (f s, Done tt).
Definition lift {A} (r : result Ext4Error A) : ST A :=
  match r with Ok a => mret a | Err e => throw e end.
(** [self.nodes[i]] read, and written through [f]. *)
Definition node (i : nat) : ST Node := fun s => (s, idx s.(nodes) i).
Definition upd_node (i : nat) (f : Node -> Node) : ST unit := fun s =>
  match s.(nodes) !! i with
  | Some n => (set_nodes (<[i := f n]> s.(nodes)) s, Done tt)
  | None => (s, Panic)
  end.
Definition push_node (n : Node) : ST unit := modify (fun s => set_nodes (s.(nodes) ++ [n]) s).
Definition index_get (k : string) : ST (option nat) := gets (fun s => s.(path_index) !! k).
Definition index_insert (k : string) (i : nat) : ST unit :=
  modify (fun s => set_index (<[k := i]> s.(path_index)) s).
Definition index_remove (k : string) : ST unit :=
  modify (fun s => set_index (delete k s.(path_index)) s).
Fixpoint for_each {A} (f : A -> ST unit) (l : list A) : ST unit :=
  match l with [] => mret tt | x :: l => _ ← f x; for_each f l end.

(** A node as every [add_*] pushes it: the fields the finalizer fills in are
    at their initial values. *)
Definition new_node (nm : string) (p : option nat) (c : NodeContent) (md u g : Z)
    (ino : option Z) (links : Z) (target : option nat) : Node :=
  mk_node nm p [] c md u g [] ino 0 0 links target None [] None false.

Definition fixed_inode_opt (n : Z) : option Z := if n =? 0 then None else Some n.
Definition basename_st (path : string) : ST string := lift (map_err InvalidFilename (basename path)).

(** ** Deleting *)
Fixpoint node_path_loop (ns : list Node) (fuel : nat) (cursor : option nat) (parts : list string)
    : exec Ext4Error (list string) :=
  match cursor with
  | None => Done parts
  | Some i =>
      match fuel with
      | O => Panic
      | S fuel =>
          n ← idx ns i;
          node_path_loop ns fuel n.(parent)
            (if is_empty n.(name) then parts else parts ++ [n.(name)])
      end
  end.
Definition node_path (i : nat) : ST string := fun s =>
  (s, if (i =? 0)%nat then Done "/"%string
      else parts ← node_path_loop s.(nodes) (S (length s.(nodes))) (Some i) [];
           mret ("/" +:+ join "/" (rev parts))).

(** [delete_subtree] up to the tombstone, over the recursive call. *)
Definition delete_below (rec : nat -> ST unit) (i : nat) (n : Node) : ST unit :=
  _ ← upd_node i (set_children []);
  _ ← for_each rec n.(children);
  key ← node_path i;
  _ ← (if String.eqb key "/" then index_remove EmptyString else index_remove key);
  upd_node i set_deleted.
(** The [if unlink_from_parent] block. *)
Definition unlink_node (i : nat) : ST unit :=
  n ← node i;
  match n.(parent) with
  | None => mret tt
  | Some p =>
      _ ← upd_node p (fun m => set_children (List.filter (fun c => negb (c =? i)%nat) m.(children)) m);
      n ← node i;
      m ← node p;
      if is_dir n.(mode) && (2 <? m.(dir_link_count))
      then upd_node p (fun m => set_links (m.(dir_link_count) - 1) m)
      else mret tt
  end.
Fixpoint delete_subtree_fuel (fuel : nat) (i : nat) (unlink_from_parent : bool) : ST unit :=
  match fuel with
  | O => panic
  | S fuel =>
      n ← node i;
      if n.(deleted) then mret tt
      else
        _ ← delete_below (fun child => delete_subtree_fuel fuel child false) i n;
        if unlink_from_parent then unlink_node i else mret tt
  end.
(** A subtree is at most as deep as the arena is long. *)
Definition delete_subtree (i : nat) (unlink_from_parent : bool) : ST unit := fun s =>
  delete_subtree_fuel (S (length s.(nodes))) i unlink_from_parent s.

Definition remove_existing_leaf (path : string) (replacement_mode : Z) : ST unit :=
  found ← index_get (normalize path);
  match found with
  | None => mret tt
  | Some i =>
      n ← node i;
      if negb (Bool.eqb (is_dir n.(mode)) (is_dir replacement_mode)) then throw (PathConflict path)
      else delete_subtree i true
  end.
Definition remove_path (path : string) : ST unit :=
  found ← index_get (normalize path);
  match found with None => mret tt | Some i => delete_subtree i true end.
Definition clear_dir (path : string) : ST unit :=
  found ← index_get (normalize path);
  match found with
  | None => mret tt
  | Some i =>
      n ← node i;
      if negb (is_dir n.(mode)) then throw (PathConflict path)
      else
        _ ← upd_node i (set_children []);
        _ ← for_each (fun child => delete_subtree child false) n.(children);
        upd_node i (set_links 2)
  end.

(** ** Adding *)
(** [ensure_parent], with the call that creates a missing ancestor abstracted:
    it and [add_dir_internal] call each other. *)
Definition ensure_parent_with (mkdir : string -> ST nat) (path : string) : ST nat :=
  let normalized := normalize path in
  if is_empty normalized || String.eqb normalized "/" then throw (InvalidFilename path)
  else
    let '(parent_path, base) := split_parent normalized in
    if bad_base base then throw (InvalidFilename path)
    else if is_empty parent_path then mret O
    else
      found ← index_get parent_path;
      match found with
      | Some i =>
          n ← node i;
          if negb (is_dir n.(mode)) then throw (PathConflict parent_path) else mret i
      | None => mkdir parent_path
      end.
Fixpoint add_dir_fuel (fuel : nat) (path : string) (md u g fixed_inode : Z) : ST nat :=
  match fuel with
  | O => panic
  | S fuel =>
      let key := normalize path in
      found ← index_get key;
      match found with
      | Some i =>
          n ← node i;
          if is_dir n.(mode) then mret i else throw (PathConflict path)
      | None =>
          p ← ensure_parent_with (fun anc => add_dir_fuel fuel anc (mode_dir o755) 0 0 0) path;
          nm ← basename_st path;
          i ← gets (fun s => length s.(nodes));
          _ ← push_node (new_node nm (Some p) CDirectory md u g (fixed_inode_opt fixed_inode) 2 None);
          _ ← upd_node p (fun n => set_children (n.(children) ++ [i]) n);
          _ ← upd_node p (fun n => set_links (wrap 16 (n.(dir_link_count) + 1)) n);
          _ ← index_insert key i;
          mret i
      end
  end.
(** Each ancestor's path is shorter. *)
Definition add_dir_internal (path : string) (md u g fixed_inode : Z) : ST nat :=
  add_dir_fuel (S (String.length (normalize path))) path md u g fixed_inode.
Definition ensure_parent : string -> ST nat :=
  ensure_parent_with (fun anc => add_dir_internal anc (mode_dir o755) 0 0 0).

Definition add_leaf_node (path : string) (c : NodeContent) (md : Z) : ST unit :=
  _ ← remove_existing_leaf path md;
  p ← ensure_parent path;
  nm ← basename_st path;
  i ← gets (fun s => length s.(nodes));
  _ ← push_node (new_node nm (Some p) c md 0 0 None 0 None);
  _ ← upd_node p (fun n => set_children (n.(children) ++ [i]) n);
  index_insert (normalize path) i.

Definition add_dir (path : string) (perm : Z) : ST unit :=
  _ ← add_dir_internal path (mode_dir perm) 0 0 0; mret tt.
Definition add_file (path : string) (data : list Z) (perm : Z) : ST unit :=
  let size := Z.of_nat (length data) in
  if MAX_FILE_SIZE <? size then throw (FileTooLarge size MAX_FILE_SIZE)
  else add_leaf_node path (CFile data) (mode_regular perm).
Definition add_whiteout (path : string) : ST unit :=
  marker ← lift (map_err InvalidFilename (whiteout_marker_path path));
  add_leaf_node marker CWhiteout (mode_char_device 0).
Definition add_opaque_dir (path : string) : ST unit :=
  add_leaf_node (opaque_dir_marker_path path) (CFile []) (mode_regular 0).
Definition add_symlink (path target : string) : ST unit :=
  if MAX_SYMLINK_LEN <? len target then throw (SymlinkTargetTooLong (len target) MAX_SYMLINK_LEN)
  else add_leaf_node path (CSymlink target) (mode_symlink o777).
Definition add_hardlink (link_path target_path : string) : ST unit :=
  found ← index_get (normalize target_path);
  match found with
  | None => throw (InvalidHardlinkTarget target_path)
  | Some target =>
      t ← node target;
      if is_dir t.(mode) then throw (InvalidHardlinkTarget target_path)
      else
        _ ← remove_existing_leaf link_path t.(mode);
        p ← ensure_parent link_path;
        nm ← basename_st link_path;
        i ← gets (fun s => length s.(nodes));
        t ← node target;
        _ ← push_node (new_node nm (Some p) CHardlink t.(mode) 0 0 None 0 (Some target));
        _ ← upd_node p (fun n => set_children (n.(children) ++ [i]) n);
        index_insert (normalize link_path) i
  end.
Definition set_xattr (path nm : string) (value : list Z) : ST unit :=
  found ← index_get (normalize path);
  match found with
  | None => throw (PathConflict path)
  | Some i => upd_node i (fun n => set_xattrs (n.(xattrs) ++ [mk_xattr nm value]) n)
  end.

Definition root_node : Node :=
  new_node EmptyString None CDirectory (mode_dir o755) 0 0 None 2 None.
Definition fs_new (bs : BlockSize) : FileSystemBuilder :=
  (add_dir_internal "/lost+found" (mode_dir o700) 0 0 LOST_FOUND_INODE
     (mk_fs bs (zeros 16) 0 (1024 * 1024) [root_node] {[ EmptyString := O ]})).1.
Definition with_min_size (s : FileSystemBuilder) (b : Z) : FileSystemBuilder :=
  mk_fs s.(block_size) s.(uuid) s.(fs_timestamp) b s.(nodes) s.(path_index).
Definition with_uuid (s : FileSystemBuilder) (u : list Z) : FileSystemBuilder :=
  mk_fs s.(block_size) u s.(fs_timestamp) s.(min_size) s.(nodes) s.(path_index).
Definition with_timestamp (s : FileSystemBuilder) (t : Z) : FileSystemBuilder :=
  mk_fs s.(block_size) s.(uuid) t s.(min_size) s.(nodes) s.(path_index).
