(* ===== verification/Ext4TreeInv.v ===== *)
(** * Invariants of the builder's tree

    The position of a node is read off its chain of parents ([path_of]), which
    no operation changes; the path index and the child lists are caches of it.
    Deleting a subtree is shown to be one simultaneous update ([tombs]). *)
From S2P Require Import Prelude Ext4Layout Ext4Path Ext4Tree.

(** ** Positions *)
Abbreviation skeleton := (list (string * option nat)).
Definition skel (ns : list Node) : skeleton := (fun n => (n.(name), n.(parent))) <$> ns.

Fixpoint path_fuel (sk : skeleton) (fuel i : nat) : list string :=
  match fuel with
  | O => []
  | S fuel =>
      match sk !! i with
      | Some (nm, Some p) => path_fuel sk fuel p ++ [nm]
      | _ => []
      end
  end.
Definition path_of (sk : skeleton) (i : nat) : list string := path_fuel sk (S i) i.
(** [j] is [i] or below it. *)
Fixpoint desc_fuel (sk : skeleton) (fuel i j : nat) : bool :=
  match fuel with
  | O => false
  | S fuel =>
      (i =? j)%nat ||
      match sk !! j with Some (_, Some p) => desc_fuel sk fuel i p | _ => false end
  end.
Definition desc (sk : skeleton) (i j : nat) : bool := desc_fuel sk (S j) i j.

#[global] Arguments path_of : simpl never.
#[global] Arguments desc : simpl never.

(** A name a node may have. *)
Definition good (nm : string) : Prop := component nm /\ bad_base nm = false.
Definition wf (sk : skeleton) : Prop :=
  forall i nm po, sk !! i = Some (nm, po) ->
  match po with None => i = O /\ nm = EmptyString | Some p => (p < i)%nat /\ good nm end.

Section Positions.
Context (sk : skeleton) (Hwf : wf sk).

Lemma path_fuel_enough f f' i : (i < f)%nat -> (i < f')%nat -> path_fuel sk f i = path_fuel sk f' i.
Proof using Hwf.
  revert f' i. induction f as [|f IH]; intros [|f'] i H H'; [lia..|]. cbn [path_fuel].
  destruct (sk !! i) as [[nm [p|]]|] eqn:E; [|done..]. apply Hwf in E as [Hp _].
  f_equal. apply IH; lia.
Qed.
Lemma path_of_child i nm p : sk !! i = Some (nm, Some p) -> path_of sk i = path_of sk p ++ [nm].
Proof using Hwf.
  intros E. unfold path_of at 1. cbn [path_fuel]. rewrite E. f_equal.
  apply Hwf in E as [Hp _]. apply path_fuel_enough; lia.
Qed.
Lemma path_of_root nm : sk !! O = Some (nm, None) -> path_of sk O = [].
Proof. intros E. unfold path_of. cbn [path_fuel]. by rewrite E. Qed.
Lemma path_of_good i : Forall good (path_of sk i).
Proof using Hwf.
  induction i as [i IH] using (well_founded_induction lt_wf). unfold path_of. cbn [path_fuel].
  destruct (sk !! i) as [[nm [p|]]|] eqn:E; [|done..]. pose proof (Hwf _ _ _ E) as [Hp Hn].
  rewrite (path_fuel_enough i (S p)) by lia. apply Forall_app_2; [by apply IH|by apply Forall_cons].
Qed.
Lemma path_of_components i : Forall component (path_of sk i).
Proof using Hwf. eapply Forall_impl; [apply path_of_good|]. by intros ? []. Qed.

Lemma desc_fuel_enough f f' i j :
  (j < f)%nat -> (j < f')%nat -> desc_fuel sk f i j = desc_fuel sk f' i j.
Proof using Hwf.
  revert f' j. induction f as [|f IH]; intros [|f'] j H H'; [lia..|]. cbn [desc_fuel].
  destruct (sk !! j) as [[nm [p|]]|] eqn:E; [|done..]. apply Hwf in E as [Hp _].
  f_equal. apply IH; lia.
Qed.
Lemma desc_child i j nm p :
  sk !! j = Some (nm, Some p) -> desc sk i j = ((i =? j)%nat || desc sk i p).
Proof using Hwf.
  intros E. unfold desc at 1. cbn [desc_fuel]. rewrite E. f_equal.
  apply Hwf in E as [Hp _]. apply desc_fuel_enough; lia.
Qed.
Lemma desc_top i j : ~ (exists nm p, sk !! j = Some (nm, Some p)) -> desc sk i j = (i =? j)%nat.
Proof.
  intros H. unfold desc. cbn [desc_fuel]. destruct (sk !! j) as [[nm [p|]]|] eqn:E.
  - exfalso; eauto.
  - apply orb_false_r.
  - apply orb_false_r.
Qed.
Lemma desc_refl i : desc sk i i = true.
Proof. unfold desc. cbn [desc_fuel]. by rewrite Nat.eqb_refl. Qed.
Lemma desc_le i j : desc sk i j = true -> (i <= j)%nat.
Proof using Hwf.
  induction j as [j IH] using (well_founded_induction lt_wf). intros H.
  destruct (sk !! j) as [[nm [p|]]|] eqn:E.
  - rewrite (desc_child _ _ _ _ E) in H. apply Hwf in E as [Hp _].
    apply orb_true_iff in H as [->%Nat.eqb_eq|H]; [done|]. apply IH in H; lia.
  - rewrite desc_top in H by naive_solver. by apply Nat.eqb_eq in H as ->.
  - rewrite desc_top in H by naive_solver. by apply Nat.eqb_eq in H as ->.
Qed.
Lemma desc_trans i j k : desc sk i j = true -> desc sk j k = true -> desc sk i k = true.
Proof using Hwf.
  intros Hij. induction k as [k IH] using (well_founded_induction lt_wf). intros Hjk.
  destruct (sk !! k) as [[nm [p|]]|] eqn:E.
  - pose proof (Hwf _ _ _ E) as [Hp _]. rewrite (desc_child _ _ _ _ E). rewrite (desc_child _ _ _ _ E) in Hjk.
    apply orb_true_iff in Hjk as [->%Nat.eqb_eq|Hjk].
    + by rewrite <- (desc_child _ _ _ _ E).
    + rewrite (IH p) by done. apply orb_true_r.
  - rewrite desc_top in Hjk by naive_solver. by apply Nat.eqb_eq in Hjk as <-.
  - rewrite desc_top in Hjk by naive_solver. by apply Nat.eqb_eq in Hjk as <-.
Qed.
Lemma desc_prefix i j : desc sk i j = true -> path_of sk i `prefix_of` path_of sk j.
Proof using Hwf.
  induction j as [j IH] using (well_founded_induction lt_wf). intros H.
  destruct (sk !! j) as [[nm [p|]]|] eqn:E.
  - rewrite (desc_child _ _ _ _ E) in H. pose proof (Hwf _ _ _ E) as [Hp _].
    apply orb_true_iff in H as [->%Nat.eqb_eq|H]; [done|].
    rewrite (path_of_child _ _ _ E). apply prefix_app_r. by apply IH.
  - rewrite desc_top in H by naive_solver. by apply Nat.eqb_eq in H as ->.
  - rewrite desc_top in H by naive_solver. by apply Nat.eqb_eq in H as ->.
Qed.
End Positions.

Lemma skel_lookup ns i n : ns !! i = Some n -> skel ns !! i = Some (n.(name), n.(parent)).
Proof. intros E. unfold skel. by rewrite list_lookup_fmap, E. Qed.
Lemma skel_lookup_inv ns i nm po :
  skel ns !! i = Some (nm, po) -> exists n, ns !! i = Some n /\ n.(name) = nm /\ n.(parent) = po.
Proof.
  unfold skel. rewrite list_lookup_fmap. destruct (ns !! i) as [n|]; [|done].
  intros [= <- <-]. eauto.
Qed.

(** ** The path of a node, as [node_path] computes it *)
Lemma node_path_loop_spec ns fuel i n parts :
  wf (skel ns) -> ns !! i = Some n -> (i < fuel)%nat ->
  node_path_loop ns fuel (Some i) parts = Done (parts ++ rev (path_of (skel ns) i)).
Proof.
  intros Hwf. revert i n parts. induction fuel as [|fuel IH]; intros i n parts E Hi; [lia|].
  cbn [node_path_loop]. unfold idx. rewrite E. cbn. pose proof (skel_lookup _ _ _ E) as Es.
  pose proof (Hwf _ _ _ Es) as Hn. destruct (parent n) as [p|] eqn:Ep.
  - destruct Hn as [Hp [[Hne _] _]]. apply is_empty_false in Hne. rewrite Hne.
    rewrite (path_of_child _ Hwf _ _ _ Es), rev_app_distr. cbn [rev app].
    assert (exists m, ns !! p = Some m) as [m Em].
    { apply lookup_lt_is_Some. apply lookup_lt_Some in E. lia. }
    rewrite (IH p m) by (done || lia). by rewrite <- app_assoc.
  - destruct Hn as [-> Hn]. rewrite Hn. cbn. rewrite (path_of_root _ _ Es). cbn.
    by rewrite app_nil_r; destruct fuel.
Qed.
Lemma mkpath_join_ne cs : cs <> [] -> "/" +:+ join "/" cs = mkpath cs.
Proof. destruct cs; [done|]. intros _. by rewrite mkpath_join. Qed.
Lemma node_path_spec s i n :
  wf (skel s.(nodes)) -> s.(nodes) !! i = Some n ->
  node_path i s = (s, Done (if (i =? 0)%nat then "/"%string else mkpath (path_of (skel s.(nodes)) i))).
Proof.
  intros Hwf E. unfold node_path. destruct (Nat.eqb_spec i 0) as [->|Hi]; [done|].
  rewrite (node_path_loop_spec _ _ _ n) by (done || (apply lookup_lt_Some in E; lia)).
  cbn. rewrite rev_involutive. rewrite mkpath_join_ne; [done|].
  pose proof (skel_lookup _ _ _ E) as Es. pose proof (Hwf _ _ _ Es) as Hn.
  destruct (parent n) as [p|]; [|lia]. rewrite (path_of_child _ Hwf _ _ _ Es). by destruct (path_of _ _).
Qed.

(** ** The invariant deletion keeps at every step *)
Definition live (s : FileSystemBuilder) (i : nat) (n : Node) : Prop :=
  s.(nodes) !! i = Some n /\ n.(deleted) = false.
Abbreviation sk s := (skel s.(nodes)).
Abbreviation pos s i := (path_of (skel s.(nodes)) i).

Record winv (s : FileSystemBuilder) : Prop := {
  w_wf : wf (sk s);
  w_index k i : s.(path_index) !! k = Some i <-> exists n, live s i n /\ k = mkpath (pos s i);
  w_children p n c :
    s.(nodes) !! p = Some n -> c ∈ n.(children) -> exists m, live s c m /\ m.(parent) = Some p;
  w_nodup p n : s.(nodes) !! p = Some n -> NoDup n.(children);
  w_deleted p n : s.(nodes) !! p = Some n -> n.(deleted) = true -> n.(children) = []
}.
(** A live node is listed by a live parent. *)
Definition attached (s : FileSystemBuilder) (j : nat) : Prop :=
  forall n p, live s j n -> n.(parent) = Some p -> exists m, live s p m /\ j ∈ m.(children).

(** ** Tombstoning a set of nodes at once *)
Definition tombstone (n : Node) : Node := set_deleted (set_children [] n).
Definition tombs (P : nat -> bool) (s : FileSystemBuilder) : FileSystemBuilder :=
  set_index (filter (fun kv => P kv.2 = false) s.(path_index))
    (set_nodes (imap (fun j n => if P j then tombstone n else n) s.(nodes)) s).

Lemma tombs_lookup P s j :
  (tombs P s).(nodes) !! j = (fun n => if P j then tombstone n else n) <$> s.(nodes) !! j.
Proof. cbn. by rewrite list_lookup_imap. Qed.
Lemma tombs_live P s j n : live (tombs P s) j n <-> live s j n /\ P j = false.
Proof.
  unfold live. rewrite tombs_lookup. destruct (s.(nodes) !! j) as [m|]; cbn; [|naive_solver].
  destruct (P j); split; [|naive_solver..]. by intros [[= <-] ?].
Qed.
Lemma tombs_index P s k i :
  (tombs P s).(path_index) !! k = Some i <-> s.(path_index) !! k = Some i /\ P i = false.
Proof. cbn. by rewrite map_lookup_filter_Some. Qed.
Lemma skel_ext ns ns' :
  length ns = length ns' ->
  (forall j n n', ns !! j = Some n -> ns' !! j = Some n' -> n'.(name) = n.(name) /\ n'.(parent) = n.(parent)) ->
  skel ns' = skel ns.
Proof.
  intros Hl H. apply list_eq_same_length with (length ns); unfold skel; rewrite ?length_fmap; [done..|].
  intros j [nm po] [nm' po'] Hj. rewrite !list_lookup_fmap.
  destruct (ns !! j) as [n|] eqn:E, (ns' !! j) as [n'|] eqn:E'; [|done..].
  intros [= <- <-] [= <- <-]. by destruct (H j n n' E E') as [-> ->].
Qed.
Lemma tombs_skel P s : sk (tombs P s) = sk s.
Proof.
  apply skel_ext; [cbn; by rewrite length_imap|]. intros j n n' E. rewrite tombs_lookup, E.
  intros [= <-]. by destruct (P j).
Qed.
Lemma fs_ext s s' :
  s.(block_size) = s'.(block_size) -> s.(uuid) = s'.(uuid) -> s.(fs_timestamp) = s'.(fs_timestamp) ->
  s.(min_size) = s'.(min_size) -> (forall j, s.(nodes) !! j = s'.(nodes) !! j) ->
  (forall k, s.(path_index) !! k = s'.(path_index) !! k) -> s = s'.
Proof.
  destruct s, s'; cbn. intros -> -> -> -> Hn Hi. f_equal; [by apply list_eq|by apply map_eq].
Qed.
(** Only what happens on live nodes matters. *)
Lemma tombs_ext P Q s :
  winv s -> (forall j n, live s j n -> P j = Q j) -> tombs P s = tombs Q s.
Proof.
  intros W H. apply fs_ext; [done..| |]; intros x.
  - rewrite !tombs_lookup. destruct (s.(nodes) !! x) as [n|] eqn:E; [|done]. cbn. f_equal.
    destruct (deleted n) eqn:Ed.
    + assert (tombstone n = n) as ->; [|by destruct (P x), (Q x)].
      pose proof (w_deleted s W _ _ E Ed) as Hc. unfold tombstone. destruct n; cbn in *. by subst.
    + by rewrite (H x n).
  - apply option_eq. intros i. rewrite !tombs_index. split; intros [Hi HP]; (split; [done|]).
    + apply (w_index s W) in Hi as (n & Hn & _). by rewrite <- (H i n).
    + apply (w_index s W) in Hi as (n & Hn & _). by rewrite (H i n).
Qed.
Lemma tombs_tombs P Q s : tombs P (tombs Q s) = tombs (fun j => P j || Q j) s.
Proof.
  apply fs_ext; [done..| |]; intros x.
  - rewrite !tombs_lookup. destruct (s.(nodes) !! x) as [n|]; [|done]. cbn. by destruct (P x), (Q x).
  - apply option_eq. intros i. rewrite !tombs_index, orb_false_iff. naive_solver.
Qed.
Lemma tombs_none s : tombs (fun _ => false) s = s.
Proof.
  apply fs_ext; [done..| |]; intros x.
  - rewrite tombs_lookup. by destruct (s.(nodes) !! x).
  - apply option_eq. intros i. rewrite tombs_index. naive_solver.
Qed.

(** Tombstoning a set closed under "being a listed child" keeps [winv], when
    no survivor lists a member. *)
Lemma winv_tombs P s :
  winv s ->
  (forall p n c, live s p n -> P p = false -> c ∈ n.(children) -> P c = false) ->
  winv (tombs P s).
Proof.
  intros W H. split.
  - rewrite tombs_skel. apply W.
  - intros k i. rewrite tombs_index, (w_index s W), tombs_skel.
    setoid_rewrite tombs_live. naive_solver.
  - intros p n c. rewrite tombs_lookup. destruct (s.(nodes) !! p) as [m|] eqn:E; [|done].
    intros [= <-]. destruct (P p) eqn:HP; [by intros ?%elem_of_nil|]. intros Hc.
    destruct (w_children s W _ _ _ E Hc) as (m' & Hm' & Hp). exists m'. split; [|done].
    apply tombs_live. split; [done|]. apply (H p m); [|done..]. split; [done|].
    destruct (deleted m) eqn:Ed; [|done]. rewrite (w_deleted s W _ _ E Ed) in Hc.
    by apply elem_of_nil in Hc.
  - intros p n. rewrite tombs_lookup. destruct (s.(nodes) !! p) as [m|] eqn:E; [|done].
    intros [= <-]. destruct (P p); [constructor|]. by eapply w_nodup.
  - intros p n. rewrite tombs_lookup. destruct (s.(nodes) !! p) as [m|] eqn:E; [|done].
    intros [= <-]. destruct (P p); [done|]. by eapply w_deleted.
Qed.

(** ** Running two commands, then the rest *)
Lemma bind_assoc_st {A} (m1 m2 : ST unit) (k : ST A) s :
  (_ ← m1; _ ← m2; k) s =
  match (_ ← m1; m2) s with
  | (s', Done _) => k s'
  | (s', Failed e) => (s', Failed e)
  | (s', Panic) => (s', Panic)
  end.
Proof. unfold mbind, ST_bind. destruct (m1 s) as [? [?| |]]; try done. Qed.

(** ** One-node updates *)
Definition upd (i : nat) (f : Node -> Node) (s : FileSystemBuilder) : FileSystemBuilder :=
  set_nodes (alter f i s.(nodes)) s.
Lemma upd_node_spec i f n s : s.(nodes) !! i = Some n -> upd_node i f s = (upd i f s, Done tt).
Proof.
  intros E. unfold upd_node, upd. rewrite E. f_equal. f_equal. apply list_eq. intros j.
  destruct (decide (i = j)) as [<-|Hij].
  - rewrite list_lookup_alter_eq, E, list_lookup_insert_eq; [done|]. by eapply lookup_lt_Some.
  - by rewrite list_lookup_alter_ne, list_lookup_insert_ne.
Qed.
Lemma upd_lookup i f s j :
  (upd i f s).(nodes) !! j = (fun n => if (j =? i)%nat then f n else n) <$> s.(nodes) !! j.
Proof.
  cbn. destruct (Nat.eqb_spec j i) as [->|Hij].
  - by rewrite list_lookup_alter_eq.
  - rewrite list_lookup_alter_ne by done. by destruct (s.(nodes) !! j).
Qed.
Lemma upd_skel i f s :
  (forall n, (f n).(name) = n.(name) /\ (f n).(parent) = n.(parent)) -> sk (upd i f s) = sk s.
Proof.
  intros Hf. apply skel_ext; [cbn; by rewrite length_alter|]. intros j n n' E.
  rewrite upd_lookup, E. intros [= <-]. by destruct (j =? i)%nat.
Qed.

(** ** Deleting a subtree *)
Lemma winv_take i s : winv s -> winv (upd i (set_children []) s).
Proof.
  intros W. assert (Hsk : sk (upd i (set_children []) s) = sk s) by by apply upd_skel.
  assert (Hl : forall j, (exists n, live (upd i (set_children []) s) j n) <-> (exists n, live s j n)).
  { intros j. unfold live. rewrite upd_lookup. destruct (s.(nodes) !! j) as [n|]; cbn; [|naive_solver].
    destruct (j =? i)%nat; naive_solver. }
  split.
  - rewrite Hsk. apply W.
  - intros k j. rewrite Hsk. cbn. rewrite (w_index s W).
    specialize (Hl j). naive_solver.
  - intros p n c. rewrite upd_lookup. destruct (s.(nodes) !! p) as [m|] eqn:E; [|done].
    intros [= <-]. destruct (p =? i)%nat; [by intros ?%elem_of_nil|]. intros Hc.
    destruct (w_children s W _ _ _ E Hc) as (m' & [Hm' Hd] & Hp).
    unfold live. rewrite upd_lookup, Hm'. cbn. eexists. split; [split; [done|]|]; by destruct (c =? i)%nat.
  - intros p n. rewrite upd_lookup. destruct (s.(nodes) !! p) as [m|] eqn:E; [|done].
    intros [= <-]. destruct (p =? i)%nat; [constructor|]. by eapply w_nodup.
  - intros p n. rewrite upd_lookup. destruct (s.(nodes) !! p) as [m|] eqn:E; [|done].
    intros [= <-]. destruct (p =? i)%nat; [done|]. by eapply w_deleted.
Qed.

(** A live node strictly below [i] is below one of the children [i] lists. *)
Lemma desc_via_child s i j n m :
  winv s -> live s i n -> live s j m -> desc (sk s) i j = true -> i <> j ->
  (forall j', desc (sk s) i j' = true -> j' <> i -> attached s j') ->
  exists c, c ∈ n.(children) /\ desc (sk s) c j = true.
Proof.
  intros W Hi Hj Hd Hne Hatt. revert m Hj Hd Hne.
  induction j as [j IH] using (well_founded_induction lt_wf). intros m Hj Hd Hne.
  pose proof (skel_lookup _ _ _ (proj1 Hj)) as Es. pose proof (w_wf s W _ _ _ Es) as Hp.
  destruct (parent m) as [p|] eqn:Ep.
  - rewrite (desc_child _ (w_wf s W) _ _ _ _ Es) in Hd. apply orb_true_iff in Hd as [?%Nat.eqb_eq|Hd]; [done|].
    destruct Hp as [Hlt _].
    assert (desc (sk s) i j = true) as Hij.
    { rewrite (desc_child _ (w_wf s W) _ _ _ _ Es), Hd. apply orb_true_r. }
    destruct (Hatt j Hij ltac:(done) m p Hj Ep) as (q & Hq & Hin).
    destruct (decide (i = p)) as [<-|Hip].
    + exists j. split; [|apply desc_refl]. destruct Hi as [Hi _], Hq as [Hq _]. naive_solver.
    + destruct (IH p Hlt q Hq Hd Hip) as (c & Hc & Hcd). exists c. split; [done|].
      rewrite (desc_child _ (w_wf s W) _ _ _ _ Es), Hcd. apply orb_true_r.
  - destruct Hp as [-> _]. apply (desc_le _ (w_wf s W)) in Hd. lia.
Qed.

(** What a recursive call does to a live node no live node lists. *)
Definition deletes (bound : nat) (rec : nat -> ST unit) : Prop :=
  forall s c m, winv s -> live s c m -> (length s.(nodes) - c < bound)%nat ->
  (forall p n, live s p n -> c ∉ n.(children)) ->
  (forall j, desc (sk s) c j = true -> j <> c -> attached s j) ->
  rec c s = (tombs (desc (sk s) c) s, Done tt).

Lemma desc_parent_ne (sk : skeleton) c i nm j nm' po :
  wf sk -> sk !! c = Some (nm, Some i) -> desc sk c j = true -> j <> c ->
  sk !! j = Some (nm', po) -> po <> Some i.
Proof.
  intros Hwf Ec Hj Hne Ej ->. rewrite (desc_child _ Hwf _ _ _ _ Ej) in Hj.
  apply orb_true_iff in Hj as [?%Nat.eqb_eq|Hj]; [done|].
  apply (desc_le _ Hwf) in Hj. apply Hwf in Ec as [? _]. lia.
Qed.

Definition below (sk : skeleton) (l : list nat) (j : nat) : bool :=
  existsb (fun c => desc sk c j) l.

Lemma delete_children bound rec i l s n :
  deletes bound rec -> winv s -> live s i n -> n.(children) = [] -> NoDup l ->
  (length s.(nodes) - i <= bound)%nat ->
  (forall c, c ∈ l -> exists m, live s c m /\ m.(parent) = Some i) ->
  (forall j m, desc (sk s) i j = true -> j <> i -> live s j m -> m.(parent) <> Some i -> attached s j) ->
  for_each rec l s = (tombs (below (sk s) l) s, Done tt)
  /\ winv (tombs (below (sk s) l) s).
Proof.
  intros HD. revert s. induction l as [|c l IH]; intros s W Hi Hch Hnd Hf Hc Hatt.
  { rewrite tombs_none. by split. }
  apply NoDup_cons in Hnd as [Hcl Hnd].
  destruct (Hc c ltac:(left)) as (m & Hm & Hmp).
  pose proof (skel_lookup _ _ _ (proj1 Hm)) as Es. rewrite Hmp in Es.
  pose proof (w_wf s W) as Hwf. destruct (Hwf _ _ _ Es) as [Hic _].
  assert (Hic' : desc (sk s) i c = true).
  { rewrite (desc_child _ Hwf _ _ _ _ Es), desc_refl. apply orb_true_r. }
  assert (Hun : forall p q, live s p q -> c ∉ q.(children)).
  { intros p q Hq Hin. destruct (w_children s W p q c (proj1 Hq) Hin) as (m' & [Hm' _] & Hp').
    destruct Hm as [Hm _], Hi as [Hi _], Hq as [Hq _].
    assert (p = i) by congruence. subst. assert (q = n) by congruence. subst.
    rewrite Hch in Hin. by apply elem_of_nil in Hin. }
  assert (Hbc : forall j, desc (sk s) c j = true -> j <> c -> attached s j).
  { intros j Hj Hne m' p' Hm' Hp'. refine (Hatt j m' _ _ Hm' _ m' p' Hm' Hp').
    - by apply (desc_trans _ Hwf _ c).
    - apply (desc_le _ Hwf) in Hj. lia.
    - apply (desc_parent_ne _ _ _ _ _ _ _ Hwf Es Hj Hne (skel_lookup _ _ _ (proj1 Hm'))). }
  pose proof (lookup_lt_Some _ _ _ (proj1 Hi)) as Hlen.
  cbn [for_each]. unfold mbind at 1, ST_bind at 1. rewrite (HD s c m) by (done || lia).
  set (s1 := tombs (desc (sk s) c) s).
  assert (Hci : forall j, (j <= i)%nat -> desc (sk s) c j = false).
  { intros j Hj. destruct (desc (sk s) c j) eqn:E; [|done]. apply (desc_le _ Hwf) in E. lia. }
  assert (Hrest : forall c', c' ∈ l -> desc (sk s) c c' = false).
  { intros c' Hc'. destruct (Hc c' ltac:(by right)) as (m' & [Hm' _] & Hp').
    pose proof (skel_lookup _ _ _ Hm') as Es'. rewrite Hp' in Es'.
    rewrite (desc_child _ Hwf _ _ _ _ Es'), Hci by lia.
    destruct (Nat.eqb_spec c c'); [congruence|done]. }
  assert (W1 : winv s1).
  { apply winv_tombs; [done|]. intros p q c' Hq HP Hin.
    destruct (w_children s W _ _ _ (proj1 Hq) Hin) as (m' & [Hm' _] & Hp').
    pose proof (skel_lookup _ _ _ Hm') as Es'. rewrite Hp' in Es'.
    rewrite (desc_child _ Hwf _ _ _ _ Es'), HP. destruct (Nat.eqb_spec c c') as [<-|]; [|done].
    by destruct (Hun p q). }
  destruct (IH s1) as [-> W2].
  - done.
  - apply tombs_live. split; [done|]. by apply Hci.
  - done.
  - done.
  - unfold s1, tombs. cbn. by rewrite length_imap.
  - intros c' Hc'. destruct (Hc c' ltac:(by right)) as (m' & Hm' & Hp').
    exists m'. split; [|done]. apply tombs_live. auto.
  - unfold s1. rewrite tombs_skel. intros j m' Hj Hne [Hm' HP]%tombs_live Hp' q p' Hq Hqp.
    apply tombs_live in Hq as [Hq _].
    destruct (Hatt j m' Hj Hne Hm' Hp' q p' Hq Hqp) as (r & Hr & Hjr). exists r. split; [|done].
    apply tombs_live. split; [done|]. destruct (desc (sk s) c p') eqn:E; [|done].
    pose proof (skel_lookup _ _ _ (proj1 Hq)) as Es'. rewrite Hqp in Es'.
    rewrite (desc_child _ Hwf _ _ _ _ Es'), E, orb_true_r in HP. done.
  - unfold s1 in *. rewrite tombs_skel, tombs_tombs in *.
    assert (tombs (fun j => below (sk s) l j || desc (sk s) c j) s
            = tombs (below (sk s) (c :: l)) s) as <-; [|done].
    apply tombs_ext; [done|]. intros. apply orb_comm.
Qed.

Lemma desc_below s i n j m :
  winv s -> live s i n -> live s j m -> (forall j, desc (sk s) i j = true -> j <> i -> attached s j) ->
  j <> i -> desc (sk s) i j = below (sk s) n.(children) j.
Proof.
  intros W Hi Hj Hatt Hji. pose proof (w_wf s W) as Hwf.
  destruct (desc (sk s) i j) eqn:Hd; symmetry.
  - destruct (desc_via_child s i j n m) as (c & Hc & Hcj); [done..|]. apply existsb_exists.
    exists c. by rewrite <- list_elem_of_In.
  - destruct (below _ _ _) eqn:Hb; [|done]. rewrite <- Hd. apply existsb_exists in Hb as (c & Hc & Hcj).
    rewrite <- list_elem_of_In in Hc. destruct (w_children s W _ _ _ (proj1 Hi) Hc) as (q & [Hq _] & Hqp).
    pose proof (skel_lookup _ _ _ Hq) as Es. rewrite Hqp in Es.
    symmetry. apply (desc_trans _ Hwf _ c); [|done]. rewrite (desc_child _ Hwf _ _ _ _ Es), desc_refl.
    by rewrite orb_true_r.
Qed.
Lemma desc_split s i n :
  winv s -> live s i n -> (forall j, desc (sk s) i j = true -> j <> i -> attached s j) ->
  tombs (desc (sk s) i) s = tombs (fun j => below (sk s) n.(children) j || (j =? i)%nat) s.
Proof.
  intros W Hi Hatt. apply tombs_ext; [done|]. intros j m Hj.
  destruct (Nat.eqb_spec j i) as [->|Hji]; [by rewrite desc_refl, orb_true_r|]. rewrite orb_false_r.
  by eapply desc_below.
Qed.

(** The key [delete_subtree] removes is the one the node is indexed by. *)
Lemma remove_key_spec s i n :
  winv s -> s.(nodes) !! i = Some n ->
  let key := if (i =? 0)%nat then "/"%string else mkpath (pos s i) in
  (if String.eqb key "/" then index_remove EmptyString else index_remove key)
  = index_remove (mkpath (pos s i)).
Proof.
  intros W Ei key. unfold key. pose proof (w_wf s W) as Hwf.
  pose proof (skel_lookup _ _ _ Ei) as Es. pose proof (Hwf _ _ _ Es) as Hp.
  destruct (Nat.eqb_spec i 0) as [->|Hi0].
  - destruct (parent n); [lia|]. by rewrite (path_of_root _ _ Es).
  - destruct (String.eqb_spec (mkpath (pos s i)) "/") as [Hb|]; [|done].
    assert (components (mkpath (pos s i)) = []) as Hc by by rewrite Hb.
    rewrite components_mkpath in Hc by by apply path_of_components.
    destruct (parent n); [|lia]. rewrite (path_of_child _ Hwf _ _ _ Es) in Hc.
    symmetry in Hc. by apply app_cons_not_nil in Hc.
Qed.
Lemma index_unique s i n x k :
  winv s -> live s i n ->
  s.(path_index) !! k = Some x /\ x <> i <-> s.(path_index) !! k = Some x /\ mkpath (pos s i) <> k.
Proof.
  intros W Hi. split; intros [Hk Hne]; (split; [done|]).
  - intros <-. assert (s.(path_index) !! mkpath (pos s i) = Some i) as Hi' by (apply (w_index s W); eauto).
    congruence.
  - intros ->. apply (w_index s W) in Hk as (? & _ & ->). done.
Qed.

(** Taking a node's children and deleting each of them. *)
Lemma delete_loop_spec bound rec s i n :
  deletes bound rec -> winv s -> live s i n -> (length s.(nodes) - i <= bound)%nat ->
  (forall j, desc (sk s) i j = true -> j <> i -> attached s j) ->
  let s1 := tombs (below (sk s) n.(children)) (upd i (set_children []) s) in
  (_ ← upd_node i (set_children []); for_each rec n.(children)) s = (s1, Done tt)
  /\ winv s1 /\ sk s1 = sk s /\ s1.(nodes) !! i = Some (set_children [] n).
Proof.
  intros HD W [Ei Hdel] Hf Hatt s1. pose proof (w_wf s W) as Hwf.
  unfold mbind, ST_bind. rewrite (upd_node_spec _ _ _ _ Ei). unfold s1.
  set (s0 := upd i (set_children []) s).
  assert (Hsk : sk s0 = sk s) by by apply upd_skel.
  assert (Ei0 : s0.(nodes) !! i = Some (set_children [] n)).
  { unfold s0. rewrite upd_lookup, Ei. cbn. by rewrite Nat.eqb_refl. }
  assert (Hne : forall j m, j <> i -> live s j m <-> live s0 j m).
  { intros j m Hj. unfold live, s0. rewrite upd_lookup.
    apply Nat.eqb_neq in Hj. rewrite Hj. by destruct (s.(nodes) !! j). }
  assert (Hcne : forall c, c ∈ n.(children) -> (i < c)%nat /\ exists m, live s c m /\ m.(parent) = Some i).
  { intros c Hc. destruct (w_children s W _ _ _ Ei Hc) as (m & Hm & Hp). split; [|eauto].
    pose proof (skel_lookup _ _ _ (proj1 Hm)) as Es. rewrite Hp in Es. by apply Hwf in Es as [? _]. }
  destruct (delete_children bound rec i n.(children) s0 (set_children [] n)) as [E W1].
  - done.
  - by apply winv_take.
  - done.
  - done.
  - by eapply w_nodup.
  - unfold s0, upd. cbn. by rewrite length_alter.
  - intros c Hc. destruct (Hcne c Hc) as (? & m & Hm & Hp). exists m.
    split; [|done]. apply Hne; [lia|done].
  - rewrite Hsk. intros j m Hj Hji Hm Hpi q p Hq Hqp. apply Hne in Hm, Hq; [|done..].
    destruct (Hatt j Hj Hji q p Hq Hqp) as (r & Hr & Hin).
    assert (q = m) by (destruct Hq, Hm; congruence). subst.
    exists r. split; [|done]. apply Hne; congruence.
  - rewrite Hsk in E, W1. split; [done|]. split; [done|]. split; [by rewrite tombs_skel|].
    rewrite tombs_lookup, Ei0. cbn.
    assert (below (sk s) n.(children) i = false) as ->; [|done].
    apply not_true_iff_false. intros (c & Hc & Hci)%existsb_exists.
    rewrite <- list_elem_of_In in Hc. apply Hcne in Hc as [? _].
    apply (desc_le _ Hwf) in Hci. lia.
Qed.

Lemma delete_below_spec bound rec s i n :
  deletes bound rec -> winv s -> live s i n -> (length s.(nodes) - i <= bound)%nat ->
  (forall j, desc (sk s) i j = true -> j <> i -> attached s j) ->
  delete_below rec i n s = (tombs (desc (sk s) i) s, Done tt).
Proof.
  intros HD W Hi Hf Hatt.
  destruct (delete_loop_spec bound rec s i n HD W Hi Hf Hatt) as (E & W1 & Hsk1 & Ei1).
  unfold delete_below. rewrite (bind_assoc_st _ _ _ s), E.
  set (s1 := tombs _ _) in *.
  unfold mbind at 1, ST_bind at 1. rewrite (node_path_spec _ _ _ (w_wf s1 W1) Ei1), Hsk1.
  rewrite (remove_key_spec s i n W (proj1 Hi)). unfold mbind, ST_bind. cbn [index_remove modify].
  rewrite (upd_node_spec _ _ (set_children [] n)) by done. f_equal.
  rewrite (desc_split s i n) by done. apply fs_ext; [done..| |].
  - intros j. rewrite upd_lookup. cbn [set_index nodes].
    unfold s1. rewrite !tombs_lookup, upd_lookup.
    destruct (s.(nodes) !! j) as [m|]; [|done]. cbn. f_equal.
    destruct (j =? i)%nat; [|by rewrite orb_false_r]. rewrite orb_true_r.
    by destruct (below (sk s) (children n) j).
  - intros k. apply option_eq. intros x. rewrite tombs_index, orb_false_iff.
    pose proof (index_unique s i n x k W Hi) as Hu. rewrite Nat.eqb_neq.
    change (path_index (upd _ _ _)) with (delete (mkpath (pos s i)) s1.(path_index)).
    rewrite lookup_delete_Some. unfold s1. rewrite tombs_index.
    change (path_index (upd i (set_children []) s)) with (path_index s). naive_solver.
Qed.

Lemma deletes_fuel fuel : deletes fuel (fun c => delete_subtree_fuel fuel c false).
Proof.
  induction fuel as [|fuel IH]; intros s c m W Hc Hf Hun Hatt; [lia|].
  cbn [delete_subtree_fuel]. unfold mbind at 1, ST_bind at 1, node, idx.
  destruct Hc as [Ec Hd]. rewrite Ec, Hd. unfold mbind, ST_bind.
  by rewrite (delete_below_spec fuel _ s c m) by (done || lia).
Qed.
Lemma deletes_subtree bound : deletes bound (fun c => delete_subtree c false).
Proof.
  intros s c m W Hc _ Hun Hatt. unfold delete_subtree. eapply deletes_fuel; [done..|lia|done|done].
Qed.

(** ** The builder's invariant *)
(** The fields no operation on an existing node changes. *)
Definition static (n : Node) : string * option nat * NodeContent * Z * option nat :=
  (n.(name), n.(parent), n.(content), n.(mode), n.(hardlink_target)).
Definition dir_at (ns : list Node) (i : nat) : bool :=
  match ns !! i with Some n => is_dir n.(mode) | None => false end.
(** Subdirectories listed, and subdirectories ever created, tombstones included. *)
Definition child_dirs (ns : list Node) (l : list nat) : Z :=
  Z.of_nat (length (List.filter (dir_at ns) l)).
Definition ever_dirs (ns : list Node) (i : nat) : Z :=
  Z.of_nat (length (List.filter
    (fun n => is_dir n.(mode) && bool_decide (n.(parent) = Some i)) ns)).

Definition kind_ok (ns : list Node) (n : Node) : Prop :=
  (is_dir n.(mode) = true <-> n.(content) = CDirectory) /\
  (forall p, n.(parent) = Some p -> dir_at ns p = true) /\
  match n.(hardlink_target) with
  | Some t => n.(content) = CHardlink /\ exists m, ns !! t = Some m /\ is_dir m.(mode) = false
  | None => n.(content) <> CHardlink
  end.

Record inv (s : FileSystemBuilder) : Prop := {
  i_w : winv s;
  i_root : exists r, live s O r /\ is_dir r.(mode) = true;
  i_attached j : attached s j;
  i_kind i n : s.(nodes) !! i = Some n -> kind_ok s.(nodes) n;
  (** A directory's link count is exact as long as it never had more
      subdirectories than the 16-bit field can count. *)
  i_links i n : live s i n -> is_dir n.(mode) = true -> ever_dirs s.(nodes) i <= 65533 ->
    n.(dir_link_count) = 2 + child_dirs s.(nodes) n.(children)
}.

Definition same_static (ns ns' : list Node) : Prop := static <$> ns' = static <$> ns.
Lemma same_static_lookup ns ns' i n' :
  same_static ns ns' -> ns' !! i = Some n' -> exists n, ns !! i = Some n /\ static n' = static n.
Proof.
  intros H E. assert ((static <$> ns') !! i = (static <$> ns) !! i) as Hi by by rewrite H.
  rewrite !list_lookup_fmap, E in Hi. destruct (ns !! i) as [n|]; [|done].
  injection Hi as ?. exists n. split; [done|]. unfold static. congruence.
Qed.
Lemma same_static_sym ns ns' : same_static ns ns' -> same_static ns' ns.
Proof. unfold same_static. congruence. Qed.
Lemma same_static_skel ns ns' : same_static ns ns' -> skel ns' = skel ns.
Proof.
  assert (Hs : forall l, skel l = (fun x => (x.1.1.1.1, x.1.1.1.2)) <$> (static <$> l)).
  { intros l. by rewrite <- list_fmap_compose. }
  intros H. by rewrite !Hs, H.
Qed.
Lemma same_static_dir_at ns ns' i : same_static ns ns' -> dir_at ns' i = dir_at ns i.
Proof.
  intros H. unfold dir_at. destruct (ns' !! i) as [n'|] eqn:E.
  - destruct (same_static_lookup _ _ _ _ H E) as (n & -> & Hst). injection Hst; congruence.
  - destruct (ns !! i) as [n|] eqn:E'; [|done].
    destruct (same_static_lookup _ _ _ _ (same_static_sym _ _ H) E') as (n' & ? & _). congruence.
Qed.
Lemma same_static_child_dirs ns ns' l : same_static ns ns' -> child_dirs ns' l = child_dirs ns l.
Proof.
  intros H. unfold child_dirs. do 2 f_equal. apply List.filter_ext. intros. by apply same_static_dir_at.
Qed.
Lemma same_static_ever ns ns' i : same_static ns ns' -> ever_dirs ns' i = ever_dirs ns i.
Proof.
  unfold ever_dirs. intros H. f_equal. revert ns H.
  induction ns' as [|n' ns' IH]; intros [|n ns] H; [done..|].
  unfold same_static in H. rewrite !fmap_cons in H. injection H as Hnm Hp Hc Hm Hht Ht.
  cbn [List.filter]. specialize (IH ns Ht).
  replace (parent n') with (parent n) by congruence. replace (mode n') with (mode n) by congruence.
  destruct (_ && _); cbn [length]; lia.
Qed.
Lemma kind_ok_static ns ns' n n' :
  same_static ns ns' -> static n' = static n -> kind_ok ns n -> kind_ok ns' n'.
Proof.
  intros H [= _ Hp Hc Hm Ht] (H1 & H2 & H3). unfold kind_ok. rewrite Hp, Hc, Hm, Ht.
  split; [done|]. split.
  - intros p ?. rewrite (same_static_dir_at _ _ _ H). auto.
  - destruct (hardlink_target n) as [t|]; [|done]. destruct H3 as (? & m & Em & Hd).
    split; [done|]. destruct (same_static_lookup _ _ _ _ (same_static_sym _ _ H) Em) as (m' & ? & Hst).
    exists m'. split; [done|]. injection Hst; congruence.
Qed.
Lemma same_static_pointwise ns ns' :
  (forall j, static <$> ns' !! j = static <$> ns !! j) -> same_static ns ns'.
Proof. intros H. apply list_eq. intros j. by rewrite !list_lookup_fmap. Qed.

(** ** Live nodes and their paths *)
Lemma live_inj s i j n m :
  winv s -> live s i n -> live s j m -> pos s i = pos s j -> i = j.
Proof.
  intros W Hi Hj E.
  assert (s.(path_index) !! mkpath (pos s i) = Some i) as H1 by (apply (w_index s W); eauto).
  assert (s.(path_index) !! mkpath (pos s i) = Some j) as H2 by (apply (w_index s W); rewrite E; eauto).
  congruence.
Qed.
Lemma prefix_desc s i j n m :
  inv s -> live s i n -> live s j m -> desc (sk s) i j = bool_decide (pos s i `prefix_of` pos s j).
Proof.
  intros I Hi Hj. pose proof (i_w s I) as W. pose proof (w_wf s W) as Hwf.
  case_bool_decide as Hp; [|apply not_true_iff_false; by intros ?%(desc_prefix _ Hwf)].
  revert m Hj Hp. induction j as [j IH] using (well_founded_induction lt_wf). intros m Hj Hp.
  destruct (decide (pos s i = pos s j)) as [E|Hne].
  { rewrite (live_inj s i j n m W Hi Hj E). apply desc_refl. }
  pose proof (skel_lookup _ _ _ (proj1 Hj)) as Es. pose proof (Hwf _ _ _ Es) as Hpar.
  destruct (parent m) as [p|] eqn:Ep.
  - destruct Hpar as [Hlt _]. destruct (i_attached s I j m p Hj Ep) as (q & Hq & _).
    rewrite (desc_child _ Hwf _ _ _ _ Es), (IH p Hlt q Hq); [apply orb_true_r|].
    rewrite (path_of_child _ Hwf _ _ _ Es) in Hp, Hne. destruct Hp as [l Hl].
    destruct l as [|x l _] using rev_ind; [rewrite app_nil_r in Hl; congruence|].
    rewrite app_assoc in Hl. apply app_inj_tail in Hl as [-> _]. by exists l.
  - destruct Hpar as [-> _]. rewrite (path_of_root _ _ Es) in Hp, Hne.
    destruct Hp as [l Hl]. by destruct (pos s i).
Qed.

(** ** The abstract file system: what each path holds *)
Record Entry := mk_entry {
  e_content : NodeContent; e_mode : Z; e_uid : Z; e_gid : Z; e_xattrs : list Xattr;
  e_target : option nat }.
Definition entry (n : Node) : Entry :=
  mk_entry n.(content) n.(mode) n.(uid) n.(gid) n.(xattrs) n.(hardlink_target).
Definition abs (s : FileSystemBuilder) (cs : list string) : option Entry :=
  i ← s.(path_index) !! mkpath cs; entry <$> s.(nodes) !! i.

Lemma abs_some s cs e :
  winv s -> Forall component cs ->
  abs s cs = Some e <-> exists i n, live s i n /\ pos s i = cs /\ entry n = e.
Proof.
  intros W Hcs. unfold abs. split.
  - destruct (s.(path_index) !! mkpath cs) as [i|] eqn:E; [|done]. cbn.
    apply (w_index s W) in E as (n & Hn & E). rewrite (proj1 Hn). intros [= <-].
    apply mkpath_inj in E; [|done|apply path_of_components, W]. eauto.
  - intros (i & n & Hn & <- & <-).
    assert (s.(path_index) !! mkpath (pos s i) = Some i) as -> by (apply (w_index s W); eauto).
    cbn. by rewrite (proj1 Hn).
Qed.
(** Two states agree at a path when they have the same live entries there. *)
Lemma abs_eq s s' cs (P : Prop) `{Decision P} :
  winv s -> winv s' -> Forall component cs -> sk s' = sk s ->
  (forall i n, live s i n -> pos s i = cs -> P -> exists n', live s' i n' /\ entry n' = entry n) ->
  (forall i n', live s' i n' -> pos s i = cs -> P /\ exists n, live s i n /\ entry n' = entry n) ->
  abs s' cs = if decide P then abs s cs else None.
Proof.
  intros W W' Hcs Hsk H1 H2. apply option_eq. intros e. rewrite (abs_some s') by done. rewrite Hsk. split.
  - intros (i & n' & Hn' & Hp & <-). destruct (H2 i n' Hn' Hp) as [HP (n & Hn & ->)].
    rewrite decide_True by done. apply abs_some; eauto.
  - case_decide as HP; [|done]. rewrite abs_some by done. intros (i & n & Hn & Hp & <-).
    destruct (H1 i n Hn Hp HP) as (n' & ? & ?). eauto.
Qed.
