(* ===== verification/Ext4TreeOps.v ===== *)
(** * Correctness of the builder's operations

    Every operation keeps the invariant and acts on the abstract file system
    (path to entry) as its specification says; a failing operation changes
    nothing. *)
From S2P Require Import Prelude Ext4Layout Ext4Path Ext4Tree Ext4TreeInv.

(** ** Removing one subtree *)
Definition cut (i : nat) (dir : bool) (m : Node) : Node :=
  let m' := set_children (List.filter (fun c => negb (c =? i)%nat) m.(children)) m in
  if dir && (2 <? m.(dir_link_count)) then set_links (m.(dir_link_count) - 1) m' else m'.
Definition removed (i p : nat) (dir : bool) (s : FileSystemBuilder) : FileSystemBuilder :=
  upd p (cut i dir) (tombs (desc (sk s) i) s).

Lemma upd_upd i f g s : upd i f (upd i g s) = upd i (fun n => f (g n)) s.
Proof.
  apply fs_ext; [done..| |done]. intros j. rewrite !upd_lookup.
  destruct (s.(nodes) !! j); [|done]. cbn. by destruct (j =? i)%nat.
Qed.
Lemma upd_at i f n s : s.(nodes) !! i = Some n -> upd i f s = upd i (fun _ => f n) s.
Proof.
  intros E. apply fs_ext; [done..| |done]. intros j. rewrite !upd_lookup.
  destruct (Nat.eqb_spec j i) as [->|]; [|done]. by rewrite E.
Qed.
Lemma cut_static i d m : static (cut i d m) = static m.
Proof. unfold cut. by destruct (_ && _). Qed.
Lemma cut_children i d m :
  (cut i d m).(children) = List.filter (fun c => negb (c =? i)%nat) m.(children).
Proof. unfold cut. by destruct (_ && _). Qed.
Lemma cut_mode i d m : (cut i d m).(mode) = m.(mode).
Proof. unfold cut. by destruct (_ && _). Qed.
Lemma cut_deleted i d m : (cut i d m).(deleted) = m.(deleted).
Proof. unfold cut. by destruct (_ && _). Qed.
Lemma cut_entry i d m : entry (cut i d m) = entry m.
Proof. unfold cut. by destruct (_ && _). Qed.

Lemma unlink_node_spec i p n m s :
  s.(nodes) !! i = Some n -> n.(parent) = Some p -> s.(nodes) !! p = Some m -> p <> i ->
  unlink_node i s = (upd p (cut i (is_dir n.(mode))) s, Done tt).
Proof.
  intros Ei Hp Em Hne. unfold unlink_node. unfold mbind at 1, ST_bind at 1, node at 1, idx at 1.
  rewrite Ei, Hp. unfold mbind at 1, ST_bind at 1. rewrite (upd_node_spec _ _ _ _ Em).
  set (f := fun q => set_children _ q). unfold mbind at 1, ST_bind at 1, node at 1, idx at 1.
  rewrite upd_lookup, Ei. cbn. apply not_eq_sym, Nat.eqb_neq in Hne. rewrite Hne.
  unfold mbind at 1, ST_bind at 1, node at 1, idx at 1. rewrite upd_lookup, Em. cbn.
  rewrite Nat.eqb_refl. cbn. rewrite (upd_at p (cut _ _) m s Em). unfold cut.
  destruct (_ && _).
  - rewrite (upd_node_spec _ _ (f m)) by (rewrite upd_lookup, Em; cbn; by rewrite Nat.eqb_refl).
    by rewrite upd_upd, (upd_at p _ m s Em).
  - by rewrite (upd_at p _ m s Em).
Qed.

Lemma child_dirs_cons ns c l :
  child_dirs ns (c :: l) = (if dir_at ns c then 1 else 0) + child_dirs ns l.
Proof. unfold child_dirs. cbn [List.filter]. destruct (dir_at ns c); cbn [length]; lia. Qed.
Lemma child_dirs_app ns l l' : child_dirs ns (l ++ l') = child_dirs ns l + child_dirs ns l'.
Proof. unfold child_dirs. rewrite List.filter_app, length_app. lia. Qed.
Lemma child_dirs_nonneg ns l : 0 <= child_dirs ns l.
Proof. unfold child_dirs. lia. Qed.
Lemma child_dirs_cut ns i l :
  NoDup l -> i ∈ l ->
  child_dirs ns (List.filter (fun c => negb (c =? i)%nat) l)
  = child_dirs ns l - (if dir_at ns i then 1 else 0).
Proof.
  intros Hnd (l1 & l2 & ->)%list_elem_of_split. apply NoDup_app in Hnd as (_ & H1 & Hnd).
  apply NoDup_cons in Hnd as [H2 _].
  assert (Hk : forall l, i ∉ l -> List.filter (fun c => negb (c =? i)%nat) l = l).
  { induction l as [|c l IH]; [done|]. intros [Hc Hl]%not_elem_of_cons. cbn [List.filter].
    apply not_eq_sym, Nat.eqb_neq in Hc. by rewrite Hc, IH. }
  rewrite List.filter_app. cbn [List.filter]. rewrite Nat.eqb_refl. cbn [negb].
  rewrite !Hk by (done || (intros H; by apply (H1 i H), list_elem_of_here)).
  rewrite !child_dirs_app, child_dirs_cons. lia.
Qed.

Section Removal.
Context (s : FileSystemBuilder) (i p : nat) (n : Node).
Context (I : inv s) (Hi : live s i n) (Hp : n.(parent) = Some p).
Let W := i_w s I.
Let Hwf := w_wf s W.
Abbreviation s' := (removed i p (is_dir n.(mode)) s).

Lemma removal_parent : exists m, live s p m /\ i ∈ m.(children) /\ (p < i)%nat.
Proof using I Hi Hp.
  destruct (i_attached s I i n p Hi Hp) as (m & Hm & Hin). exists m. split; [done|]. split; [done|].
  pose proof (skel_lookup _ _ _ (proj1 Hi)) as Es. rewrite Hp in Es. by apply Hwf in Es as [? _].
Qed.
Lemma not_below_parent : desc (sk s) i p = false.
Proof using I Hi Hp.
  apply not_true_iff_false. intros H%(desc_le _ Hwf). destruct removal_parent as (? & ? & ? & ?). lia.
Qed.
Lemma removed_lookup j :
  s'.(nodes) !! j =
  (fun m => if desc (sk s) i j then tombstone m else if (j =? p)%nat then cut i (is_dir n.(mode)) m else m)
  <$> s.(nodes) !! j.
Proof using I Hi Hp.
  unfold removed. rewrite upd_lookup, tombs_lookup. destruct (s.(nodes) !! j) as [m|]; [|done].
  cbn. f_equal. destruct (Nat.eqb_spec j p) as [->|]; [|done]. by rewrite not_below_parent.
Qed.
Lemma removed_live j m' :
  live s' j m' <-> exists m, live s j m /\ desc (sk s) i j = false /\
                   m' = if (j =? p)%nat then cut i (is_dir n.(mode)) m else m.
Proof using I Hi Hp.
  unfold live. rewrite removed_lookup. destruct (s.(nodes) !! j) as [m|]; cbn; [|naive_solver].
  destruct (desc (sk s) i j); cbn; [naive_solver|]. split.
  - intros [[= <-] Hd]. exists m. split; [|done]. split; [done|].
    destruct (j =? p)%nat; [by rewrite cut_deleted in Hd|done].
  - intros (m0 & [[= <-] Hd] & _ & ->). split; [done|]. destruct (j =? p)%nat; by rewrite ?cut_deleted.
Qed.
Lemma removed_static : same_static s.(nodes) s'.(nodes).
Proof using I Hi Hp.
  apply same_static_pointwise. intros j. rewrite removed_lookup. destruct (s.(nodes) !! j) as [m|]; [|done].
  cbn. destruct (desc (sk s) i j); [done|]. destruct (j =? p)%nat; by rewrite ?cut_static.
Qed.
Lemma removed_skel : sk s' = sk s.
Proof using I Hi Hp. apply same_static_skel, removed_static. Qed.
(** The children a survivor keeps: all but [i]. *)
Lemma removed_children j m' m c :
  live s' j m' -> live s j m -> c ∈ m'.(children) <-> c ∈ m.(children) /\ c <> i.
Proof using I Hi Hp.
  intros (m0 & Hm0 & Hd & ->)%removed_live Hm.
  assert (m0 = m) as -> by (destruct Hm0, Hm; congruence).
  destruct (Nat.eqb_spec j p) as [->|Hjp].
  - rewrite cut_children, !list_elem_of_In, filter_In, negb_true_iff, Nat.eqb_neq. done.
  - split; [|naive_solver]. intros Hc. split; [done|]. intros ->.
    destruct (w_children s W _ _ _ (proj1 Hm) Hc) as (q & [Hq _] & Hqp).
    destruct Hi as [Ei _]. congruence.
Qed.
Lemma removed_child_alive j m c :
  live s j m -> desc (sk s) i j = false -> c ∈ m.(children) -> c <> i ->
  exists q, live s c q /\ q.(parent) = Some j /\ desc (sk s) i c = false.
Proof using I.
  intros Hm Hd Hc Hne. destruct (w_children s W _ _ _ (proj1 Hm) Hc) as (q & Hq & Hqp).
  exists q. split; [done|]. split; [done|]. pose proof (skel_lookup _ _ _ (proj1 Hq)) as Es.
  rewrite Hqp in Es. rewrite (desc_child _ Hwf _ _ _ _ Es), Hd, orb_false_r. by apply Nat.eqb_neq.
Qed.

Lemma removed_winv : winv s'.
Proof using I Hi Hp.
  split.
  - rewrite removed_skel. apply Hwf.
  - intros k j. rewrite removed_skel. change (path_index s') with (path_index (tombs (desc (sk s) i) s)).
    rewrite tombs_index, (w_index s W). setoid_rewrite removed_live. naive_solver.
  - intros j m' c E Hc. destruct (deleted m') eqn:Hdel.
    { rewrite removed_lookup in E. destruct (s.(nodes) !! j) as [m|] eqn:Em; [|done]. injection E as <-.
      destruct (desc (sk s) i j); [by apply elem_of_nil in Hc|].
      assert (deleted m = true) as Hdm by (destruct (j =? p)%nat; by rewrite ?cut_deleted in Hdel).
      destruct (j =? p)%nat; [rewrite cut_children in Hc|]; rewrite (w_deleted s W _ _ Em Hdm) in Hc;
        by apply elem_of_nil in Hc. }
    assert (Hl : live s' j m') by done. pose proof Hl as (m & Hm & Hd & _)%removed_live.
    apply (removed_children j m' m c Hl Hm) in Hc as [Hc Hne].
    destruct (removed_child_alive j m c Hm Hd Hc Hne) as (q & Hq & Hqp & Hqd).
    eexists. split; [apply removed_live; eauto|].
    destruct (c =? p)%nat; [|done]. pose proof (cut_static i (is_dir n.(mode)) q) as [=]; congruence.
  - intros j m'. rewrite removed_lookup. destruct (s.(nodes) !! j) as [m|] eqn:Em; [|done]. intros [= <-].
    destruct (desc (sk s) i j); [constructor|]. pose proof (w_nodup s W _ _ Em) as Hnd.
    destruct (j =? p)%nat; [|done]. rewrite cut_children. by apply NoDup_ListNoDup, List.NoDup_filter, NoDup_ListNoDup.
  - intros j m'. rewrite removed_lookup. destruct (s.(nodes) !! j) as [m|] eqn:Em; [|done]. intros [= <-].
    destruct (desc (sk s) i j); [done|]. destruct (j =? p)%nat; [|by eapply w_deleted].
    rewrite cut_deleted, cut_children. intros Hdm. by rewrite (w_deleted s W _ _ Em Hdm).
Qed.
Lemma removed_links : forall j m', live s' j m' -> is_dir m'.(mode) = true ->
  ever_dirs s'.(nodes) j <= 65533 -> m'.(dir_link_count) = 2 + child_dirs s'.(nodes) m'.(children).
Proof using I Hi Hp.
  intros j m' Hl Hdir. rewrite (same_static_ever _ _ _ removed_static),
    (same_static_child_dirs _ _ _ removed_static).
  apply removed_live in Hl as (m & Hm & Hd & ->). intros He.
  destruct (Nat.eqb_spec j p) as [->|]; [|by eapply i_links].
  assert (is_dir m.(mode) = true) as Hmd.
  { pose proof (cut_static i (is_dir n.(mode)) m) as Hst. injection Hst. congruence. }
  pose proof (i_links s I _ _ Hm Hmd He) as Hc.
  destruct removal_parent as (m0 & Hm0 & Hin & _).
  assert (m0 = m) as -> by (destruct Hm0, Hm; congruence).
  rewrite cut_children, (child_dirs_cut _ _ _ (w_nodup s W _ _ (proj1 Hm)) Hin).
  assert (dir_at s.(nodes) i = is_dir n.(mode)) as Hdi by (unfold dir_at; by rewrite (proj1 Hi)).
  assert (Hpos : dir_at s.(nodes) i = true -> 1 <= child_dirs s.(nodes) m.(children)).
  { intros Ht. apply list_elem_of_split in Hin as (l1 & l2 & ->).
    rewrite child_dirs_app, child_dirs_cons, Ht. pose proof (child_dirs_nonneg (nodes s) l1).
    pose proof (child_dirs_nonneg (nodes s) l2). lia. }
  rewrite Hdi in *. unfold cut. destruct (is_dir n.(mode)); cbn [andb]; [|cbn; lia].
  destruct (Z.ltb_spec 2 m.(dir_link_count)); cbn; [lia|]. specialize (Hpos eq_refl). lia.
Qed.
Lemma removed_inv : inv s'.
Proof using I Hi Hp.
  split.
  - apply removed_winv.
  - destruct (i_root s I) as (r & Hr & Hrd). exists (if (O =? p)%nat then cut i (is_dir n.(mode)) r else r).
    split; [|destruct (O =? p)%nat; by rewrite ?cut_mode]. apply removed_live. exists r. split; [done|]. split; [|done].
    apply not_true_iff_false. intros H%(desc_le _ Hwf). destruct removal_parent as (? & ? & ? & ?). lia.
  - intros j m' q Hl Hq. pose proof Hl as (m & Hm & Hd & Em)%removed_live.
    assert (m.(parent) = Some q) as Hmq.
    { rewrite <- Hq, Em. destruct (j =? p)%nat; [|done].
      pose proof (cut_static i (is_dir n.(mode)) m) as Hst. injection Hst. congruence. }
    destruct (i_attached s I j m q Hm Hmq) as (r & Hr & Hin).
    assert (Hdq : desc (sk s) i q = false).
    { pose proof (skel_lookup _ _ _ (proj1 Hm)) as Es. rewrite Hmq in Es.
      rewrite (desc_child _ Hwf _ _ _ _ Es) in Hd. by apply orb_false_iff in Hd as [_ ?]. }
    assert (Hjne : j <> i) by (intros ->; by rewrite desc_refl in Hd).
    eexists. assert (Hlr : live s' q (if (q =? p)%nat then cut i (is_dir n.(mode)) r else r)).
    { apply removed_live; eauto. }
    split; [exact Hlr|]. by apply (removed_children q _ r j Hlr Hr).
  - intros j m' E. destruct (same_static_lookup _ _ _ _ removed_static E) as (m & Em & Hst).
    eapply kind_ok_static; [apply removed_static|done|]. by eapply i_kind.
  - apply removed_links.
Qed.
Lemma removed_abs cs :
  Forall component cs ->
  abs s' cs = if decide (pos s i `prefix_of` cs) then None else abs s cs.
Proof using I Hi Hp.
  intros Hcs. rewrite (abs_eq s s' cs (~ pos s i `prefix_of` cs)).
  - repeat case_decide; tauto.
  - done.
  - apply removed_winv.
  - done.
  - apply removed_skel.
  - intros j m Hm <- Hnp. eexists. split.
    + apply removed_live. exists m. split; [done|]. split; [|done].
      rewrite (prefix_desc s i j n m) by done. by apply bool_decide_eq_false.
    + destruct (j =? p)%nat; by rewrite ?cut_entry.
  - intros j m' (m & Hm & Hd & ->)%removed_live <-. split.
    + rewrite (prefix_desc s i j n m) in Hd by done. by apply bool_decide_eq_false in Hd.
    + exists m. split; [done|]. destruct (j =? p)%nat; by rewrite ?cut_entry.
Qed.
Lemma delete_subtree_spec : delete_subtree i true s = (s', Done tt).
Proof using I Hi Hp.
  unfold delete_subtree. cbn [delete_subtree_fuel]. unfold mbind at 1, ST_bind at 1, node, idx.
  rewrite (proj1 Hi), (proj2 Hi). unfold mbind, ST_bind.
  rewrite (delete_below_spec (length s.(nodes)) _ s i n);
    [|apply deletes_fuel|done|done|lia|intros; apply (i_attached s I)].
  destruct removal_parent as (m & Hm & _ & Hlt).
  assert (Et : (tombs (desc (sk s) i) s).(nodes) !! i = Some (tombstone n)).
  { rewrite tombs_lookup, (proj1 Hi). cbn. by rewrite desc_refl. }
  assert (Ep : (tombs (desc (sk s) i) s).(nodes) !! p = Some m).
  { rewrite tombs_lookup, (proj1 Hm). cbn. by rewrite not_below_parent. }
  by rewrite (unlink_node_spec i p (tombstone n) m) by (done || lia).
Qed.
End Removal.

(** ** Emptying a directory *)
Definition emptied (m : Node) : Node := set_links 2 (set_children [] m).
Definition strictly_below (sk : skeleton) (i j : nat) : bool := desc sk i j && negb (j =? i)%nat.
Definition cleared (i : nat) (s : FileSystemBuilder) : FileSystemBuilder :=
  upd i emptied (tombs (strictly_below (sk s) i) s).

Section Clearing.
Context (s : FileSystemBuilder) (i : nat) (n : Node).
Context (I : inv s) (Hi : live s i n).
Let W := i_w s I.
Let Hwf := w_wf s W.
Abbreviation s' := (cleared i s).

Lemma cleared_lookup j :
  s'.(nodes) !! j =
  (fun m => if strictly_below (sk s) i j then tombstone m else if (j =? i)%nat then emptied m else m)
  <$> s.(nodes) !! j.
Proof.
  unfold cleared. rewrite upd_lookup, tombs_lookup. destruct (s.(nodes) !! j) as [m|]; [|done].
  cbn. f_equal. unfold strictly_below. destruct (j =? i)%nat; [by rewrite andb_false_r|done].
Qed.
Lemma cleared_live j m' :
  live s' j m' <-> exists m, live s j m /\ strictly_below (sk s) i j = false /\
                   m' = if (j =? i)%nat then emptied m else m.
Proof.
  unfold live. rewrite cleared_lookup. destruct (s.(nodes) !! j) as [m|]; cbn; [|naive_solver].
  destruct (strictly_below _ _ _); cbn; [naive_solver|]. destruct (j =? i)%nat; naive_solver.
Qed.
Lemma cleared_static : same_static s.(nodes) s'.(nodes).
Proof.
  apply same_static_pointwise. intros j. rewrite cleared_lookup. destruct (s.(nodes) !! j) as [m|]; [|done].
  cbn. destruct (strictly_below _ _ _); [done|]. by destruct (j =? i)%nat.
Qed.
Lemma cleared_skel : sk s' = sk s.
Proof. apply same_static_skel, cleared_static. Qed.
Lemma strictly_below_child c q j :
  s.(nodes) !! c = Some q -> q.(parent) = Some j ->
  strictly_below (sk s) i c = desc (sk s) i j.
Proof using I.
  intros Hq Hqp. pose proof (skel_lookup _ _ _ Hq) as Es. rewrite Hqp in Es.
  unfold strictly_below. rewrite (desc_child _ Hwf _ _ _ _ Es).
  destruct (Nat.eqb_spec i c) as [<-|Hne].
  - rewrite Nat.eqb_refl. cbn. destruct (desc (sk s) i j) eqn:E; [|done].
    apply (desc_le _ Hwf) in E. apply Hwf in Es as [? _]. lia.
  - apply not_eq_sym, Nat.eqb_neq in Hne. rewrite Hne. cbn. by rewrite andb_true_r.
Qed.
(** A survivor other than [i] keeps its children, all of them alive. *)
Lemma cleared_child_alive j m c :
  live s j m -> strictly_below (sk s) i j = false -> j <> i -> c ∈ m.(children) ->
  exists q, live s c q /\ q.(parent) = Some j /\ strictly_below (sk s) i c = false.
Proof using I.
  intros Hm Hd Hne Hc. destruct (w_children s W _ _ _ (proj1 Hm) Hc) as (q & Hq & Hqp).
  exists q. split; [done|]. split; [done|]. rewrite (strictly_below_child c q j (proj1 Hq) Hqp).
  unfold strictly_below in Hd. apply Nat.eqb_neq in Hne. by rewrite Hne, andb_true_r in Hd.
Qed.
Lemma cleared_winv : winv s'.
Proof using I Hi.
  split.
  - rewrite cleared_skel. apply Hwf.
  - intros k j. rewrite cleared_skel.
    change (path_index s') with (path_index (tombs (strictly_below (sk s) i) s)).
    rewrite tombs_index, (w_index s W). setoid_rewrite cleared_live. naive_solver.
  - intros j m' c. rewrite cleared_lookup. destruct (s.(nodes) !! j) as [m|] eqn:Em; [|done].
    intros [= <-]. destruct (strictly_below (sk s) i j) eqn:Hd; [by intros ?%elem_of_nil|].
    destruct (Nat.eqb_spec j i) as [->|Hne]; [by intros ?%elem_of_nil|]. intros Hc.
    destruct (deleted m) eqn:Hdel.
    { rewrite (w_deleted s W _ _ Em Hdel) in Hc. by apply elem_of_nil in Hc. }
    destruct (cleared_child_alive j m c) as (q & Hq & Hqp & Hqd); [done..|].
    eexists. split; [apply cleared_live; eauto|]. by destruct (c =? i)%nat.
  - intros j m'. rewrite cleared_lookup. destruct (s.(nodes) !! j) as [m|] eqn:Em; [|done]. intros [= <-].
    destruct (strictly_below _ _ _); [constructor|]. destruct (j =? i)%nat; [constructor|]. by eapply w_nodup.
  - intros j m'. rewrite cleared_lookup. destruct (s.(nodes) !! j) as [m|] eqn:Em; [|done]. intros [= <-].
    destruct (strictly_below _ _ _); [done|]. destruct (j =? i)%nat; [done|]. by eapply w_deleted.
Qed.
Lemma cleared_inv : inv s'.
Proof using I Hi.
  split.
  - apply cleared_winv.
  - destruct (i_root s I) as (r & Hr & Hrd). exists (if (O =? i)%nat then emptied r else r).
    split; [|by destruct (O =? i)%nat]. apply cleared_live. exists r. split; [done|]. split; [|done].
    unfold strictly_below. destruct (desc (sk s) i 0) eqn:E; [|done].
    apply (desc_le _ Hwf) in E. assert (i = O) as -> by lia. done.
  - intros j m' q (m & Hm & Hd & ->)%cleared_live Hq.
    assert (m.(parent) = Some q) as Hmq by by destruct (j =? i)%nat.
    destruct (i_attached s I j m q Hm Hmq) as (r & Hr & Hin).
    rewrite (strictly_below_child j m q (proj1 Hm) Hmq) in Hd.
    assert (q <> i) as Hne by (intros ->; by rewrite desc_refl in Hd).
    exists r. split; [|done]. apply cleared_live. exists r. split; [done|].
    unfold strictly_below. apply Nat.eqb_neq in Hne. by rewrite Hd, Hne.
  - intros j m' E. destruct (same_static_lookup _ _ _ _ cleared_static E) as (m & Em & Hst).
    eapply kind_ok_static; [apply cleared_static|done|]. by eapply i_kind.
  - intros j m' (m & Hm & Hd & ->)%cleared_live Hdir.
    rewrite (same_static_ever _ _ _ cleared_static), (same_static_child_dirs _ _ _ cleared_static).
    destruct (j =? i)%nat; [done|]. by eapply i_links.
Qed.
Lemma cleared_abs cs :
  Forall component cs ->
  abs s' cs = if decide (pos s i `prefix_of` cs /\ cs <> pos s i) then None else abs s cs.
Proof using I Hi.
  intros Hcs. rewrite (abs_eq s s' cs (~ (pos s i `prefix_of` cs /\ cs <> pos s i))).
  - repeat case_decide; tauto.
  - done.
  - apply cleared_winv.
  - done.
  - apply cleared_skel.
  - intros j m Hm <- Hnp. eexists. split.
    + apply cleared_live. exists m. split; [done|]. split; [|done]. unfold strictly_below.
      rewrite (prefix_desc s i j n m) by done. destruct (Nat.eqb_spec j i) as [->|Hji]; [apply andb_false_r|].
      rewrite andb_true_r. apply bool_decide_eq_false. intros Hpre. apply Hnp. split; [done|].
      intros E. apply Hji. by apply (live_inj s j i m n).
    + by destruct (j =? i)%nat.
  - intros j m' (m & Hm & Hd & ->)%cleared_live <-. split.
    + intros [Hpre Hne]. unfold strictly_below in Hd. rewrite (prefix_desc s i j n m) in Hd by done.
      rewrite bool_decide_true in Hd by done. destruct (Nat.eqb_spec j i) as [->|]; done.
    + exists m. split; [done|]. by destruct (j =? i)%nat.
Qed.
(** The loop of [clear_dir], with the reset of the link count. *)
Lemma clear_loop_spec :
  (_ ← upd_node i (set_children []);
   _ ← for_each (fun child => delete_subtree child false) n.(children);
   upd_node i (set_links 2)) s = (s', Done tt).
Proof using I Hi.
  destruct (delete_loop_spec (length s.(nodes)) (fun c => delete_subtree c false) s i n)
    as (E & _ & _ & Ei1); [apply deletes_subtree|done|done|lia|intros; apply (i_attached s I)|].
  rewrite bind_assoc_st, E, (upd_node_spec _ _ _ _ Ei1). f_equal.
  assert (Hno : below (sk s) n.(children) i = false).
  { apply not_true_iff_false. intros (c & Hc & Hci)%existsb_exists. rewrite <- list_elem_of_In in Hc.
    destruct (w_children s W _ _ _ (proj1 Hi) Hc) as (q & Hq & Hqp).
    pose proof (skel_lookup _ _ _ (proj1 Hq)) as Es. rewrite Hqp in Es. apply Hwf in Es as [? _].
    apply (desc_le _ Hwf) in Hci. lia. }
  assert (Ht : tombs (strictly_below (sk s) i) s = tombs (below (sk s) n.(children)) s).
  { apply tombs_ext; [done|]. intros j m Hj. unfold strictly_below.
    destruct (Nat.eqb_spec j i) as [->|Hji]; [by rewrite Hno, andb_false_r|]. rewrite andb_true_r.
    eapply desc_below; try done. intros; apply (i_attached s I). }
  unfold cleared. rewrite Ht. apply fs_ext; [done..| |done].
  intros j. rewrite !upd_lookup, !tombs_lookup, upd_lookup. destruct (s.(nodes) !! j) as [m|]; [|done].
  cbn. f_equal. destruct (Nat.eqb_spec j i) as [->|]; [|done]. by rewrite Hno.
Qed.
End Clearing.

(** ** Adding one node under a live directory *)
Definition attach (i : nat) (dir : bool) (m : Node) : Node :=
  let m' := set_children (m.(children) ++ [i]) m in
  if dir then set_links (wrap 16 (m'.(dir_link_count) + 1)) m' else m'.
Definition added (p : nat) (nd : Node) (s : FileSystemBuilder) : FileSystemBuilder :=
  let i := length s.(nodes) in
  let s1 := upd p (attach i (is_dir nd.(mode))) (set_nodes (s.(nodes) ++ [nd]) s) in
  set_index (<[mkpath (pos s p ++ [nd.(name)]) := i]> s1.(path_index)) s1.

Lemma attach_static i d m : static (attach i d m) = static m.
Proof. by destruct d. Qed.
Lemma attach_children i d m : (attach i d m).(children) = m.(children) ++ [i].
Proof. by destruct d. Qed.
Lemma attach_deleted i d m : (attach i d m).(deleted) = m.(deleted).
Proof. by destruct d. Qed.
Lemma attach_entry i d m : entry (attach i d m) = entry m.
Proof. by destruct d. Qed.

(** Positions do not move when the arena grows. *)
Lemma path_fuel_app (sk : skeleton) x f i :
  wf sk -> (i < length sk)%nat -> path_fuel (sk ++ [x]) f i = path_fuel sk f i.
Proof.
  intros Hwf. revert i. induction f as [|f IH]; intros i Hi; [done|]. cbn [path_fuel].
  rewrite lookup_app_l by done. destruct (sk !! i) as [[nm [p|]]|] eqn:E; [|done..].
  pose proof (Hwf _ _ _ E) as [? _]. by rewrite IH by lia.
Qed.
Lemma wf_app (sk : skeleton) nm p : wf sk -> good nm -> (p < length sk)%nat -> wf (sk ++ [(nm, Some p)]).
Proof.
  intros Hwf Hg Hp i nm' po E. apply lookup_app_Some in E as [E|[Hl E]]; [by apply Hwf in E|].
  apply list_lookup_singleton_Some in E as [Hi [= <- <-]]. split; [lia|done].
Qed.
(** Counting the elements that satisfy a predicate by their indices. *)
Lemma count_seq {A} (P : A -> bool) (ns : list A) :
  length (List.filter (fun c => match ns !! c with Some q => P q | None => false end) (seq 0 (length ns)))
  = length (List.filter P ns).
Proof.
  induction ns as [|x ns IH] using rev_ind; [done|].
  rewrite length_app, seq_app, !List.filter_app, !length_app, <- IH. cbn. f_equal.
  - f_equal. apply List.filter_ext_in. intros c [_ Hc]%in_seq. rewrite lookup_app_l by lia. done.
  - rewrite lookup_app_r, Nat.sub_diag by done. cbn. by destruct (P x).
Qed.
Lemma count_indices {A} (P : A -> bool) (ns : list A) (l : list nat) :
  NoDup l -> (forall c, c ∈ l -> exists q, ns !! c = Some q /\ P q = true) ->
  (length l <= length (List.filter P ns))%nat.
Proof.
  intros Hnd H. rewrite <- count_seq. apply NoDup_incl_length; [by apply NoDup_ListNoDup|].
  intros c Hc%list_elem_of_In. destruct (H c Hc) as (q & E & HP). apply filter_In.
  rewrite E. split; [|done]. apply in_seq. apply lookup_lt_Some in E. lia.
Qed.
(** A directory lists at most as many subdirectories as were ever created in it. *)
Lemma child_dirs_le_ever s p m :
  winv s -> live s p m -> child_dirs s.(nodes) m.(children) <= ever_dirs s.(nodes) p.
Proof.
  intros W Hm. unfold child_dirs, ever_dirs. apply Nat2Z.inj_le, count_indices.
  - apply NoDup_ListNoDup, List.NoDup_filter, NoDup_ListNoDup. by eapply w_nodup; [|apply Hm].
  - intros c Hc. apply list_elem_of_In, filter_In in Hc as [Hc%list_elem_of_In Hd].
    destruct (w_children s W _ _ _ (proj1 Hm) Hc) as (q & [Hq _] & Hqp). exists q. split; [done|].
    unfold dir_at in Hd. rewrite Hq in Hd. rewrite Hd, Hqp. by rewrite bool_decide_true.
Qed.

Section Adding.
Context (s : FileSystemBuilder) (p : nat) (m nd : Node).
Context (I : inv s) (Hp : live s p m) (Hpd : is_dir m.(mode) = true).
Context (Hg : good nd.(name)) (Hnp : nd.(parent) = Some p) (Hnc : nd.(children) = []).
Context (Hnl : nd.(deleted) = false) (Hk : kind_ok s.(nodes) nd).
Context (Hlinks : is_dir nd.(mode) = true -> nd.(dir_link_count) = 2).
Context (Hfree : s.(path_index) !! mkpath (pos s p ++ [nd.(name)]) = None).
Let W := i_w s I.
Let Hwf := w_wf s W.
Let i := length s.(nodes).
Let dir := is_dir nd.(mode).
Abbreviation s' := (added p nd s).

Lemma added_lookup j :
  s'.(nodes) !! j = if (j =? i)%nat then Some nd
    else (fun q => if (j =? p)%nat then attach i dir q else q) <$> s.(nodes) !! j.
Proof using All.
  unfold added. cbn zeta. cbn [set_index nodes]. rewrite upd_lookup. cbn [set_nodes nodes].
  pose proof (lookup_lt_Some _ _ _ (proj1 Hp)) as Hlt.
  destruct (Nat.eqb_spec j i) as [->|Hji].
  - unfold i. rewrite lookup_app_r, Nat.sub_diag by done. cbn.
    destruct (Nat.eqb_spec (length (nodes s)) p); [lia|done].
  - destruct (decide (j < i)%nat) as [Hlt'|Hge].
    + by rewrite lookup_app_l by done.
    + rewrite !lookup_ge_None_2; [done|unfold i in *; lia|rewrite length_app; cbn; unfold i in *; lia].
Qed.
Lemma added_old j q :
  s.(nodes) !! j = Some q -> s'.(nodes) !! j = Some (if (j =? p)%nat then attach i dir q else q).
Proof using All.
  intros E. rewrite added_lookup, E. destruct (Nat.eqb_spec j i) as [->|]; [|done].
  apply lookup_lt_Some in E. unfold i in E. lia.
Qed.
Lemma added_live j q' :
  live s' j q' <->
  (j = i /\ q' = nd) \/ (exists q, live s j q /\ q' = if (j =? p)%nat then attach i dir q else q).
Proof using All.
  unfold live. rewrite added_lookup. destruct (Nat.eqb_spec j i) as [->|Hji].
  - split; [intros [[= <-] _]; by left|]. intros [[_ ->]|(q & [E _] & _)]; [done|].
    apply lookup_lt_Some in E. unfold i in E. lia.
  - destruct (s.(nodes) !! j) as [q|]; cbn; [|naive_solver]. split.
    + intros [[= <-] Hd]. right. exists q. split; [|done]. split; [done|].
      destruct (j =? p)%nat; [by rewrite attach_deleted in Hd|done].
    + intros [[? _]|(q0 & [[= <-] Hd] & ->)]; [done|]. split; [done|].
      destruct (j =? p)%nat; by rewrite ?attach_deleted.
Qed.
Lemma added_skel : sk s' = sk s ++ [(nd.(name), Some p)].
Proof using All.
  apply list_eq. intros j. unfold skel at 1. rewrite list_lookup_fmap, added_lookup.
  destruct (Nat.eqb_spec j i) as [->|Hji].
  - rewrite lookup_app_r by (unfold skel; by rewrite length_fmap). unfold skel at 1.
    rewrite length_fmap, Nat.sub_diag. cbn. by rewrite Hnp.
  - destruct (s.(nodes) !! j) as [q|] eqn:E; cbn.
    + rewrite lookup_app_l by (unfold skel; rewrite length_fmap; by eapply lookup_lt_Some).
      rewrite (skel_lookup _ _ _ E). destruct (j =? p)%nat; by destruct dir.
    + symmetry. apply lookup_ge_None. apply lookup_ge_None in E. unfold skel, i in *.
      rewrite length_app, length_fmap. cbn. lia.
Qed.
Lemma len_skel : length (sk s) = i.
Proof using All. unfold skel. by rewrite length_fmap. Qed.
Lemma added_wf : wf (sk s').
Proof using All.
  rewrite added_skel. apply wf_app; [done|done|]. rewrite len_skel. by eapply lookup_lt_Some, Hp.
Qed.
Lemma added_pos_old j q : s.(nodes) !! j = Some q -> pos s' j = pos s j.
Proof using All.
  intros E%lookup_lt_Some. rewrite added_skel. apply path_fuel_app; [done|]. by rewrite len_skel.
Qed.
Lemma added_pos_new : pos s' i = pos s p ++ [nd.(name)].
Proof using All.
  rewrite (path_of_child _ added_wf i nd.(name) p).
  - by rewrite (added_pos_old p m) by apply Hp.
  - rewrite added_skel, lookup_app_r by (by rewrite len_skel). by rewrite len_skel, Nat.sub_diag.
Qed.
Lemma added_winv : winv s'.
Proof using All.
  split.
  - apply added_wf.
  - intros k j. change (path_index s') with (<[mkpath (pos s p ++ [nd.(name)]) := i]> s.(path_index)).
    rewrite lookup_insert_Some. split.
    + intros [[<- <-]|[Hne Hk']].
      * exists nd. split; [|by rewrite added_pos_new]. apply added_live. by left.
      * apply (w_index s W) in Hk' as (q & Hq & ->). rewrite <- (added_pos_old j q (proj1 Hq)).
        eexists. split; [|done]. apply added_live. right. eauto.
    + intros (q' & Hq' & ->). apply added_live in Hq' as [[-> ->]|(q & Hq & ->)].
      * left. by rewrite added_pos_new.
      * right. rewrite (added_pos_old j q (proj1 Hq)).
        assert (s.(path_index) !! mkpath (pos s j) = Some j) as Hj by (apply (w_index s W); eauto).
        split; [congruence|done].
  - intros j q' c. rewrite added_lookup. destruct (Nat.eqb_spec j i) as [->|Hji].
    { intros [= <-]. rewrite Hnc. by intros ?%elem_of_nil. }
    destruct (s.(nodes) !! j) as [q|] eqn:E; [|done]. intros [= <-] Hc.
    assert (Hold : c ∈ q.(children) -> exists r, live s' c r /\ r.(parent) = Some j).
    { intros Hc'. destruct (w_children s W _ _ _ E Hc') as (r & Hr & Hrp).
      eexists. split; [apply added_live; right; eauto|]. destruct (c =? p)%nat; [|done].
      by destruct dir. }
    destruct (Nat.eqb_spec j p) as [->|]; [|auto]. rewrite attach_children in Hc.
    apply elem_of_app in Hc as [Hc|Hc]; [auto|]. apply list_elem_of_singleton in Hc as ->.
    exists nd. split; [|done]. apply added_live. by left.
  - intros j q'. rewrite added_lookup. destruct (Nat.eqb_spec j i) as [->|Hji].
    { intros [= <-]. rewrite Hnc. constructor. }
    destruct (s.(nodes) !! j) as [q|] eqn:E; [|done]. intros [= <-].
    pose proof (w_nodup s W _ _ E) as Hnd. destruct (j =? p)%nat; [|done].
    rewrite attach_children. apply NoDup_app. split; [done|]. split; [|apply NoDup_singleton].
    intros c Hc Hci. apply list_elem_of_singleton in Hci as ->. destruct (w_children s W _ _ _ E Hc) as (r & [Hr _] & _).
    apply lookup_lt_Some in Hr. unfold i in Hr. lia.
  - intros j q'. rewrite added_lookup. destruct (Nat.eqb_spec j i) as [->|Hji].
    { intros [= <-]. by rewrite Hnc. }
    destruct (s.(nodes) !! j) as [q|] eqn:E; [|done]. intros [= <-].
    destruct (Nat.eqb_spec j p) as [->|]; [|by eapply w_deleted].
    rewrite attach_deleted. destruct Hp as [Ep Hd]. congruence.
Qed.

Lemma added_dir_at j : (j < i)%nat -> dir_at s'.(nodes) j = dir_at s.(nodes) j.
Proof using All.
  intros Hj. unfold dir_at. destruct (lookup_lt_is_Some_2 s.(nodes) j Hj) as [q E].
  rewrite (added_old j q E), E. destruct (j =? p)%nat; [|done]. by destruct dir.
Qed.
Lemma added_child_dirs j q : live s j q -> child_dirs s'.(nodes) q.(children) = child_dirs s.(nodes) q.(children).
Proof using All.
  intros Hq. unfold child_dirs. do 2 f_equal. apply List.filter_ext_in. intros c Hc%list_elem_of_In.
  apply added_dir_at. destruct (w_children s W _ _ _ (proj1 Hq) Hc) as (r & [Hr _] & _).
  by apply lookup_lt_Some in Hr.
Qed.
Lemma added_ever j : ever_dirs s'.(nodes) j = ever_dirs s.(nodes) j + (if dir && (j =? p)%nat then 1 else 0).
Proof using All.
  assert (Hss : same_static (s.(nodes) ++ [nd]) s'.(nodes)).
  { apply same_static_pointwise. intros x. rewrite added_lookup. destruct (Nat.eqb_spec x i) as [->|Hx].
    - unfold i. by rewrite lookup_app_r, Nat.sub_diag by done.
    - destruct (s.(nodes) !! x) as [q|] eqn:E; cbn.
      + rewrite lookup_app_l by by eapply lookup_lt_Some. rewrite E. destruct (x =? p)%nat; [|done].
        cbn. by rewrite attach_static.
      + apply lookup_ge_None in E. rewrite lookup_ge_None_2; [done|]. rewrite length_app. cbn. unfold i in *. lia. }
  rewrite (same_static_ever _ _ _ Hss). unfold ever_dirs. rewrite List.filter_app, length_app. cbn [List.filter].
  fold dir. rewrite Hnp. destruct dir; cbn [andb length]; [|lia].
  destruct (Nat.eqb_spec j p) as [->|Hne].
  - rewrite bool_decide_true by done. cbn [length]. lia.
  - rewrite bool_decide_false by congruence. cbn [length]. lia.
Qed.
Lemma added_links j q' :
  live s' j q' -> is_dir q'.(mode) = true -> ever_dirs s'.(nodes) j <= 65533 ->
  q'.(dir_link_count) = 2 + child_dirs s'.(nodes) q'.(children).
Proof using All.
  intros Hq' Hd He. apply added_live in Hq' as [[-> ->]|(q & Hq & ->)].
  - rewrite Hnc, Hlinks by done. done.
  - rewrite added_ever in He. destruct (Nat.eqb_spec j p) as [->|Hne].
    + assert (q = m) as -> by (destruct Hq, Hp; congruence). rewrite attach_children, child_dirs_app.
      rewrite (added_child_dirs p m Hp), child_dirs_cons. change (child_dirs (nodes s') []) with 0.
      assert (dir_at s'.(nodes) i = dir) as ->.
      { unfold dir_at. rewrite added_lookup. by rewrite Nat.eqb_refl. }
      assert (He0 : ever_dirs s.(nodes) p <= 65533) by (destruct dir; cbn in He; lia).
      pose proof (i_links s I p m Hp Hpd He0) as Hl. pose proof (child_dirs_le_ever s p m W Hp).
      pose proof (child_dirs_nonneg s.(nodes) m.(children)).
      destruct dir; cbn [attach set_children set_links dir_link_count]; [|lia].
      cbn in He. rewrite Hl. unfold wrap. rewrite Z.mod_small; lia.
    + rewrite (added_child_dirs j q Hq). apply (i_links s I j q Hq Hd). destruct dir; cbn in He; lia.
Qed.
Lemma added_kind q q' : static q' = static q -> kind_ok s.(nodes) q -> kind_ok s'.(nodes) q'.
Proof using All.
  intros [= _ Hqp Hqc Hqm Hqt] (H1 & H2 & H3). unfold kind_ok. rewrite Hqp, Hqc, Hqm, Hqt.
  split; [done|]. split.
  - intros x Hx. specialize (H2 x Hx). unfold dir_at in H2. destruct (s.(nodes) !! x) eqn:E; [|done].
    rewrite added_dir_at by (by eapply lookup_lt_Some). unfold dir_at. by rewrite E.
  - destruct (hardlink_target q) as [t|]; [|done]. destruct H3 as (? & r & Er & Hd). split; [done|].
    eexists. split; [by apply added_old|]. destruct (t =? p)%nat; [|done]. by destruct dir.
Qed.
Lemma added_inv : inv s'.
Proof using All.
  split.
  - apply added_winv.
  - destruct (i_root s I) as (r & Hr & Hrd). exists (if (O =? p)%nat then attach i dir r else r).
    split; [apply added_live; right; eauto|]. destruct (O =? p)%nat; [by destruct dir|done].
  - intros j q' x Hq' Hx. apply added_live in Hq' as [[-> ->]|(q & Hq & ->)].
    + assert (x = p) as -> by congruence. eexists. split; [apply added_live; right; eauto|].
      rewrite Nat.eqb_refl, attach_children. apply elem_of_app. right. by apply list_elem_of_singleton.
    + assert (q.(parent) = Some x) as Hqx by (destruct (j =? p)%nat; [by destruct dir|done]).
      destruct (i_attached s I j q x Hq Hqx) as (r & Hr & Hin).
      eexists. split; [apply added_live; right; eauto|]. destruct (x =? p)%nat; [|done].
      rewrite attach_children. apply elem_of_app. by left.
  - intros j q'. rewrite added_lookup. destruct (Nat.eqb_spec j i) as [->|Hji].
    { intros [= <-]. by apply (added_kind nd). }
    destruct (s.(nodes) !! j) as [q|] eqn:E; [|done]. intros [= <-]. apply (added_kind q); [|by eapply i_kind].
    destruct (j =? p)%nat; by rewrite ?attach_static.
  - apply added_links.
Qed.
Lemma added_abs cs :
  Forall component cs ->
  abs s' cs = if decide (cs = pos s p ++ [nd.(name)]) then Some (entry nd) else abs s cs.
Proof using All.
  intros Hcs. apply option_eq. intros e. rewrite (abs_some s') by (done || apply added_winv). case_decide as Hc.
  - split.
    + intros (j & q' & Hq' & Hpos & <-). apply added_live in Hq' as [[-> ->]|(q & Hq & ->)]; [done|].
      exfalso. rewrite (added_pos_old j q (proj1 Hq)) in Hpos.
      assert (s.(path_index) !! mkpath (pos s j) = Some j) as Hj by (apply (w_index s W); eauto). congruence.
    + intros [= <-]. exists i, nd. split; [apply added_live; by left|]. split; [|done].
      by rewrite added_pos_new.
  - rewrite (abs_some s) by done. split.
    + intros (j & q' & Hq' & Hpos & <-). apply added_live in Hq' as [[-> ->]|(q & Hq & ->)].
      * rewrite added_pos_new in Hpos. congruence.
      * rewrite (added_pos_old j q (proj1 Hq)) in Hpos. exists j, q. split; [done|]. split; [done|].
        destruct (j =? p)%nat; by rewrite ?attach_entry.
    + intros (j & q & Hq & Hpos & <-). exists j. eexists. split; [apply added_live; right; eauto|].
      rewrite (added_pos_old j q (proj1 Hq)). split; [done|]. destruct (j =? p)%nat; by rewrite ?attach_entry.
Qed.
End Adding.
