(* ===== verification/Ext4TreeSpec.v ===== *)
(** * The builder as an abstract file system

    [AbsFS] maps a path (a list of components) to what it holds.  Each public
    operation has an abstract specification ([aspec]); the builder refines it:
    where the specification is defined the call succeeds and the new tree is
    the specified one, elsewhere it fails and changes nothing. *)
From S2P Require Import Prelude Ext4Layout Ext4Path Ext4Tree Ext4TreeInv Ext4TreeOps.

(** ** Abstract operations *)
Definition AbsFS : Type := list string -> option Entry.
Definition dir755 : Entry := mk_entry CDirectory (mode_dir o755) 0 0 [] None.
Definition leaf (c : NodeContent) (md : Z) : Entry := mk_entry c md 0 0 [] None.
Fixpoint inits (cs : list string) : list (list string) :=
  [] :: match cs with [] => [] | c :: cs => cons c <$> inits cs end.
(** Every missing component may be created, every existing one is a directory. *)
Definition mkdir_ok (m : AbsFS) (cs : list string) : bool :=
  forallb (fun b => negb (bad_base b)) cs &&
  forallb (fun ps => match m ps with Some e => is_dir e.(e_mode) | None => true end) (inits cs).
Definition mkdirs (m : AbsFS) (cs : list string) (e : Entry) : AbsFS := fun q =>
  match m q with
  | Some x => Some x
  | None => if decide (q = cs) then Some e else if decide (q `prefix_of` cs) then Some dir755 else None
  end.
Definition update (m : AbsFS) (cs : list string) (e : Entry) : AbsFS := fun q =>
  if decide (q = cs) then Some e else m q.
Definition put_leaf (m : AbsFS) (cs : list string) (e : Entry) : option AbsFS :=
  match last cs with
  | None => None
  | Some b =>
      if bad_base b || negb (mkdir_ok m (removelast cs))
         || match m cs with Some x => is_dir x.(e_mode) | None => false end
      then None
      else Some (update (mkdirs m (removelast cs) dir755) cs e)
  end.
Definition remove_below (m : AbsFS) (cs : list string) : AbsFS := fun q =>
  if decide (cs `prefix_of` q) then None else m q.
Definition clear_below (m : AbsFS) (cs : list string) : AbsFS := fun q =>
  if decide (cs `prefix_of` q /\ q <> cs) then None else m q.

(** The public mutating operations, and the calls they stand for. *)
Inductive op :=
| OAddDir (path : string) (perm : Z)
| OAddFile (path : string) (data : list Z) (perm : Z)
| OAddWhiteout (path : string)
| OAddOpaque (path : string)
| OAddSymlink (path target : string)
| OAddHardlink (link target : string)
| OSetXattr (path nm : string) (value : list Z)
| ORemove (path : string)
| OClear (path : string).
Definition exec_op (o : op) : ST unit :=
  match o with
  | OAddDir p perm => add_dir p perm
  | OAddFile p d perm => add_file p d perm
  | OAddWhiteout p => add_whiteout p
  | OAddOpaque p => add_opaque_dir p
  | OAddSymlink p t => add_symlink p t
  | OAddHardlink l t => add_hardlink l t
  | OSetXattr p nm v => set_xattr p nm v
  | ORemove p => remove_path p
  | OClear p => clear_dir p
  end.
(** What each operation should do; [None] is a refusal.  A hard link stores
    the arena position of its target, [link_id]. *)
Definition aspec (o : op) (link_id : nat) (m : AbsFS) : option AbsFS :=
  match o with
  | OAddDir p perm =>
      if mkdir_ok m (components p)
      then Some (mkdirs m (components p) (mk_entry CDirectory (mode_dir perm) 0 0 [] None)) else None
  | OAddFile p d perm =>
      if MAX_FILE_SIZE <? Z.of_nat (length d) then None
      else put_leaf m (components p) (leaf (CFile d) (mode_regular perm))
  | OAddWhiteout p =>
      match last (components p) with
      | Some b => if bad_base b then None
                  else put_leaf m (removelast (components p) ++ [".wh." +:+ b])
                         (leaf CWhiteout (mode_char_device 0))
      | None => None
      end
  | OAddOpaque p =>
      put_leaf m (components p ++ [".wh..wh..opq"%string]) (leaf (CFile []) (mode_regular 0))
  | OAddSymlink p t =>
      if MAX_SYMLINK_LEN <? len t then None
      else put_leaf m (components p) (leaf (CSymlink t) (mode_symlink o777))
  | OAddHardlink l t =>
      match m (components t) with
      | Some e =>
          if is_dir e.(e_mode) then None
          else put_leaf m (components l) (mk_entry CHardlink e.(e_mode) 0 0 [] (Some link_id))
      | None => None
      end
  | OSetXattr p nm v =>
      match m (components p) with
      | Some e => Some (update m (components p)
          (mk_entry e.(e_content) e.(e_mode) e.(e_uid) e.(e_gid)
             (e.(e_xattrs) ++ [mk_xattr nm v]) e.(e_target)))
      | None => None
      end
  | ORemove p => Some (remove_below m (components p))
  | OClear p =>
      match m (components p) with
      | None => Some m
      | Some e => if is_dir e.(e_mode) then Some (clear_below m (components p)) else None
      end
  end.

(** ** File modes *)
Lemma type_bits t perm : Z.land t TYPE_MASK = t -> Z.land (Z.lor t (Z.land perm 0xFFF)) TYPE_MASK = t.
Proof.
  intros Ht. rewrite Z.land_lor_distr_l, Ht, <- Z.land_assoc. change (Z.land 0xFFF TYPE_MASK) with 0.
  by rewrite Z.land_0_r, Z.lor_0_r.
Qed.
Lemma is_dir_dir perm : is_dir (mode_dir perm) = true.
Proof. unfold is_dir, mode_dir. by rewrite type_bits. Qed.
Lemma is_dir_regular perm : is_dir (mode_regular perm) = false.
Proof. unfold is_dir, mode_regular. by rewrite type_bits. Qed.
Lemma is_dir_char perm : is_dir (mode_char_device perm) = false.
Proof. unfold is_dir, mode_char_device. by rewrite type_bits. Qed.
Lemma is_dir_symlink perm : is_dir (mode_symlink perm) = false.
Proof. unfold is_dir, mode_symlink. by rewrite type_bits. Qed.

(** ** Prefixes *)
Lemma elem_of_inits ps cs : ps ∈ inits cs <-> ps `prefix_of` cs.
Proof.
  revert ps. induction cs as [|c cs IH]; intros ps; cbn [inits].
  - rewrite list_elem_of_singleton. split; [by intros ->|]. intros [l Hl]. by destruct ps.
  - rewrite elem_of_cons, list_elem_of_fmap. split.
    + intros [->|(x & -> & Hx)]; [apply prefix_nil|]. apply prefix_cons. by apply IH.
    + destruct ps as [|d ps]; [by left|]. intros Hp. right.
      pose proof (prefix_cons_inv_1 _ _ _ _ Hp) as ->. apply prefix_cons_inv_2 in Hp.
      exists ps. split; [done|]. by apply IH.
Qed.
Lemma mkdir_ok_spec m cs :
  mkdir_ok m cs = true <->
  Forall (fun b => bad_base b = false) cs /\
  forall ps e, ps `prefix_of` cs -> m ps = Some e -> is_dir e.(e_mode) = true.
Proof.
  unfold mkdir_ok. rewrite andb_true_iff, !forallb_forall, Forall_forall.
  setoid_rewrite negb_true_iff. split.
  - intros [H1 H2]. split; [intros b Hb; by apply H1, list_elem_of_In|].
    intros ps e Hp E. specialize (H2 ps). rewrite E in H2. apply H2, list_elem_of_In.
    by apply elem_of_inits.
  - intros [H1 H2]. split; [intros b Hb; by apply H1, list_elem_of_In|].
    intros ps Hp%list_elem_of_In%elem_of_inits. destruct (m ps) eqn:E; [|done]. by eapply H2.
Qed.
Lemma prefix_snoc_inv {A} (q cs : list A) b :
  q `prefix_of` cs ++ [b] -> q = cs ++ [b] \/ q `prefix_of` cs.
Proof.
  intros [l Hl]. destruct l as [|x l _] using rev_ind; [left; by rewrite app_nil_r in Hl|].
  right. rewrite app_assoc in Hl. apply app_inj_tail in Hl as [-> _]. by exists l.
Qed.
Lemma mkdir_ok_snoc m cs b :
  mkdir_ok m (cs ++ [b]) = true <->
  mkdir_ok m cs = true /\ bad_base b = false /\
  (forall e, m (cs ++ [b]) = Some e -> is_dir e.(e_mode) = true).
Proof.
  rewrite !mkdir_ok_spec, Forall_app, Forall_singleton. split.
  - intros [[H1 H2] H3]. split_and!; [done| |done|intros e; by apply H3].
    intros ps e Hp. apply H3. by apply prefix_app_r.
  - intros ([H1 H3] & H2 & H4). split; [done|].
    intros ps e [->|Hp]%prefix_snoc_inv E; [by apply H4|by eapply H3].
Qed.

(** ** Lookups in a well-formed tree *)
Lemma abs_none s cs :
  winv s -> Forall component cs -> s.(path_index) !! mkpath cs = None <-> abs s cs = None.
Proof.
  intros W Hcs. unfold abs. destruct (s.(path_index) !! mkpath cs) as [i|] eqn:E; [|done].
  apply (w_index s W) in E as (n & [Hn _] & _). cbn. rewrite Hn. done.
Qed.
Lemma index_live s cs i :
  winv s -> Forall component cs -> s.(path_index) !! mkpath cs = Some i ->
  exists n, live s i n /\ pos s i = cs /\ abs s cs = Some (entry n).
Proof.
  intros W Hcs E. pose proof E as (n & Hn & Hk)%(w_index s W).
  apply mkpath_inj in Hk; [|done|apply path_of_components, W]. exists n. split; [done|]. split; [done|].
  apply abs_some; eauto.
Qed.
Lemma root_pos s : inv s -> pos s O = [].
Proof.
  intros I. destruct (i_root s I) as (r & [Er _] & _). pose proof (skel_lookup _ _ _ Er) as Es.
  pose proof (w_wf s (i_w s I) _ _ _ Es) as H. destruct (parent r); [lia|]. by eapply path_of_root.
Qed.
Lemma root_abs s : inv s -> exists e, abs s [] = Some e /\ is_dir e.(e_mode) = true.
Proof.
  intros I. destruct (i_root s I) as (r & Hr & Hd). exists (entry r). split; [|done].
  apply abs_some; [apply I|done|]. exists O, r. by rewrite root_pos.
Qed.
(** The ancestors of a live node are live directories. *)
Lemma ancestor_live s i n q :
  inv s -> live s i n -> q `prefix_of` pos s i ->
  exists j m, live s j m /\ pos s j = q /\ (j <> i -> is_dir m.(mode) = true).
Proof.
  intros I. pose proof (w_wf s (i_w s I)) as Hwf. revert n.
  induction i as [i IH] using (well_founded_induction lt_wf). intros n Hi Hq.
  destruct (decide (q = pos s i)) as [->|Hne]; [by exists i, n|].
  pose proof (skel_lookup _ _ _ (proj1 Hi)) as Es. pose proof (Hwf _ _ _ Es) as Hpar.
  destruct (parent n) as [p|] eqn:Ep.
  - destruct Hpar as [Hlt _]. destruct (i_attached s I i n p Hi Ep) as (m & Hm & _).
    rewrite (path_of_child _ Hwf _ _ _ Es) in Hq, Hne. apply prefix_snoc_inv in Hq as [|Hq]; [done|].
    destruct (IH p Hlt m Hm Hq) as (j & m' & Hj & Hpos & Hd). exists j, m'. split; [done|].
    split; [done|]. intros _. destruct (decide (j = p)) as [->|]; [|auto].
    assert (m' = m) as -> by (destruct Hj, Hm; congruence).
    destruct (i_kind s I i n (proj1 Hi)) as (_ & H & _). specialize (H p Ep).
    unfold dir_at in H. by rewrite (proj1 Hm) in H.
  - destruct Hpar as [-> _]. rewrite (path_of_root _ _ Es) in Hq, Hne.
    destruct Hq as [l Hl]. by destruct q.
Qed.
Lemma live_mkdir_ok s i n :
  inv s -> live s i n -> is_dir n.(mode) = true -> mkdir_ok (abs s) (pos s i) = true.
Proof.
  intros I Hi Hd. pose proof (i_w s I) as W. apply mkdir_ok_spec. split.
  - eapply Forall_impl; [apply path_of_good, W|]. by intros b [].
  - intros ps e Hp E. destruct (ancestor_live s i n ps I Hi Hp) as (j & m & Hj & <- & Hm).
    assert (abs s (pos s j) = Some (entry m)) as E'.
    { apply abs_some; [done|apply path_of_components, W|eauto]. }
    assert (e = entry m) as -> by congruence. cbn. destruct (decide (j = i)) as [->|]; [|auto].
    assert (m = n) as -> by (destruct Hj, Hi; congruence). done.
Qed.
Lemma live_mkdirs s i n e q :
  inv s -> live s i n -> mkdirs (abs s) (pos s i) e q = abs s q.
Proof.
  intros I Hi. pose proof (i_w s I) as W. unfold mkdirs. destruct (abs s q) as [x|] eqn:E; [done|].
  assert (q `prefix_of` pos s i -> False) as Hno.
  { intros Hp. destruct (ancestor_live s i n q I Hi Hp) as (j & m & Hj & <- & _).
    assert (abs s (pos s j) = Some (entry m)) as E'; [|congruence].
    apply abs_some; [done|apply path_of_components, W|eauto]. }
  case_decide as Hq; [subst; by destruct Hno|]. case_decide; [by destruct Hno|done].
Qed.

(** ** Creating directories *)
(** No operation moves a node or changes its static fields. *)
Definition keeps (s s' : FileSystemBuilder) : Prop :=
  forall i n, s.(nodes) !! i = Some n -> exists n', s'.(nodes) !! i = Some n' /\ static n' = static n.
Lemma keeps_refl s : keeps s s.
Proof. intros i n E. eauto. Qed.
Lemma keeps_trans s1 s2 s3 : keeps s1 s2 -> keeps s2 s3 -> keeps s1 s3.
Proof.
  intros H H' i n E. destruct (H i n E) as (n' & E' & Hs). destruct (H' i n' E') as (n'' & ? & ?).
  exists n''. split; congruence.
Qed.
Lemma keeps_static s s' : same_static s.(nodes) s'.(nodes) -> keeps s s'.
Proof.
  intros H i n E. apply same_static_sym in H.
  destruct (same_static_lookup _ _ _ _ H E) as (n' & ? & ?). eauto.
Qed.

Definition refusal (e : Ext4Error) : Prop :=
  match e with PathConflict _ | InvalidFilename _ => True | _ => False end.
Definition made (s s' : FileSystemBuilder) (cs : list string) (e : Entry) (i : nat) : Prop :=
  inv s' /\ keeps s s' /\
  (exists n, live s' i n /\ pos s' i = cs /\ is_dir n.(mode) = true) /\
  forall q, Forall component q -> abs s' q = mkdirs (abs s) cs e q.
(** The outcome of creating the directory [cs]. *)
Definition mkdir_outcome (r : FileSystemBuilder * exec Ext4Error nat) s cs e : Prop :=
  if mkdir_ok (abs s) cs then exists s' i, r = (s', Done i) /\ made s s' cs e i
  else exists er, r = (s, Failed er) /\ refusal er.

Lemma ensure_parent_spec mk s path cs b :
  inv s -> components path = cs ++ [b] ->
  (forall p, components p = cs -> mkdir_outcome (mk p s) s cs dir755) ->
  bad_base b = false /\ mkdir_outcome (ensure_parent_with mk path s) s cs dir755 \/
  bad_base b = true /\ ensure_parent_with mk path s = (s, Failed (InvalidFilename path)).
Proof.
  intros I Ec Hmk. pose proof (i_w s I) as W. pose proof (components_ok path) as Hcs.
  rewrite Ec in Hcs. apply Forall_app in Hcs as [Hcs Hb].
  unfold ensure_parent_with. rewrite (split_parent_normalize path cs b Ec).
  assert (is_empty (normalize path) || String.eqb (normalize path) "/" = false) as ->.
  { rewrite normalize_spec, Ec, mkpath_empty. apply orb_false_iff. split; [by destruct cs|].
    apply String.eqb_neq. intros E. pose proof (components_mkpath (cs ++ [b])) as Hm.
    rewrite E in Hm. rewrite <- Ec in Hm at 1. specialize (Hm (components_ok path)). cbn in Hm. by destruct cs. }
  destruct (bad_base b) eqn:Hbb; [by right|]. left. split; [done|]. rewrite mkpath_empty. destruct cs as [|c cs].
  - destruct (i_root s I) as (r & Hr & Hrd). unfold mkdir_outcome.
    pose proof (live_mkdir_ok s O r I Hr Hrd) as Hok. rewrite root_pos in Hok by done. rewrite Hok.
    exists s, O. split; [done|]. split; [done|]. split; [apply keeps_refl|]. split.
    + exists r. rewrite root_pos by done. done.
    + intros q _. rewrite <- (root_pos s I). by rewrite (live_mkdirs s O r).
  - set (cs' := c :: cs) in *. unfold mbind at 1, ST_bind at 1, index_get, gets.
    destruct (s.(path_index) !! mkpath cs') as [i|] eqn:E.
    + destruct (index_live s cs' i W Hcs E) as (n & Hn & Hpos & Habs). unfold mbind, ST_bind, node, idx.
      rewrite (proj1 Hn). unfold mkdir_outcome. destruct (is_dir n.(mode)) eqn:Hd; cbn [negb].
      * rewrite <- Hpos, (live_mkdir_ok s i n I Hn Hd). exists s, i. split; [done|]. split; [done|].
        split; [apply keeps_refl|]. split; [eauto|]. intros q _. by rewrite (live_mkdirs s i n).
      * assert (mkdir_ok (abs s) cs' = false) as ->; [|eexists; split; [done|done]].
        apply not_true_iff_false. intros Hm%mkdir_ok_spec. destruct Hm as [_ Hm].
        specialize (Hm cs' (entry n) ltac:(done) Habs). cbn in Hm. congruence.
    + apply Hmk. by apply components_mkpath.
Qed.

(** ** Pushing the new node *)
Lemma basename_st_ok path cs b s :
  components path = cs ++ [b] -> bad_base b = false -> basename_st path s = (s, Done b).
Proof.
  intros E Hb. unfold basename_st. rewrite basename_spec, E, last_snoc, Hb. done.
Qed.
Lemma push_lookup s nd p m :
  s.(nodes) !! p = Some m -> (set_nodes (s.(nodes) ++ [nd]) s).(nodes) !! p = Some m.
Proof. intros E. cbn. rewrite lookup_app_l; [done|]. by eapply lookup_lt_Some. Qed.
Lemma push_leaf_run s p m nd key :
  live s p m -> is_dir nd.(mode) = false -> key = mkpath (pos s p ++ [nd.(name)]) ->
  (_ ← push_node nd;
   _ ← upd_node p (fun n => set_children (n.(children) ++ [length s.(nodes)]) n);
   index_insert key (length s.(nodes))) s = (added p nd s, Done tt).
Proof.
  intros [Em _] Hd ->. unfold mbind, ST_bind, push_node, modify.
  rewrite (upd_node_spec _ _ m) by by apply push_lookup. unfold added. by rewrite Hd.
Qed.
Lemma push_dir_run s p m nd key :
  live s p m -> is_dir nd.(mode) = true -> key = mkpath (pos s p ++ [nd.(name)]) ->
  (_ ← push_node nd;
   _ ← upd_node p (fun n => set_children (n.(children) ++ [length s.(nodes)]) n);
   _ ← upd_node p (fun n => set_links (wrap 16 (n.(dir_link_count) + 1)) n);
   _ ← index_insert key (length s.(nodes)); mret (length s.(nodes))) s
  = (added p nd s, Done (length s.(nodes))).
Proof.
  intros [Em _] Hd ->. unfold mbind, ST_bind, push_node, modify.
  rewrite (upd_node_spec _ _ m) by by apply push_lookup.
  rewrite (upd_node_spec _ _ (set_children (m.(children) ++ [length s.(nodes)]) m)).
  - rewrite upd_upd. unfold added. by rewrite Hd.
  - rewrite upd_lookup, (push_lookup s nd p m Em). cbn. by rewrite Nat.eqb_refl.
Qed.
Lemma new_dir_kind s nm p m md u g ino links :
  live s p m -> is_dir m.(mode) = true -> is_dir md = true ->
  kind_ok s.(nodes) (new_node nm (Some p) CDirectory md u g ino links None).
Proof.
  intros Hm Hmd Hd. split_and!; cbn; [done| |done].
  intros q [= <-]. unfold dir_at. by rewrite (proj1 Hm).
Qed.
Lemma added_keeps s p m nd : inv s -> live s p m -> keeps s (added p nd s).
Proof.
  intros I Hm i n E. unfold added. cbn zeta. cbn [set_index nodes]. rewrite upd_lookup.
  rewrite (push_lookup s nd i n E). cbn. eexists. split; [done|].
  destruct (i =? p)%nat; by rewrite ?attach_static.
Qed.
Lemma mkdirs_fresh m cs b e : m (cs ++ [b]) = None -> mkdirs m cs e (cs ++ [b]) = None.
Proof.
  intros E. unfold mkdirs. rewrite E. rewrite decide_False.
  - rewrite decide_False; [done|]. intros Hp%prefix_length. rewrite length_app in Hp. cbn in Hp. lia.
  - intros Hc. apply (f_equal length) in Hc. rewrite length_app in Hc. cbn in Hc. lia.
Qed.
Lemma mkdirs_snoc m cs b e q :
  m (cs ++ [b]) = None ->
  update (mkdirs m cs dir755) (cs ++ [b]) e q = mkdirs m (cs ++ [b]) e q.
Proof.
  intros E. unfold update, mkdirs. destruct (decide (q = cs ++ [b])) as [->|Hq].
  { rewrite E. done. }
  destruct (m q); [done|]. destruct (decide (q = cs)) as [->|Hq'].
  { rewrite decide_True by by apply prefix_app_r. done. }
  destruct (decide (q `prefix_of` cs)) as [Hp|Hp].
  - rewrite decide_True by by apply prefix_app_r. done.
  - rewrite decide_False; [done|]. by intros [|]%prefix_snoc_inv.
Qed.

(** After the parent directory was made, the new node completes the path. *)
Lemma add_under_made s s1 cs p nd :
  inv s -> made s s1 cs dir755 p -> Forall component (cs ++ [nd.(name)]) ->
  abs s (cs ++ [nd.(name)]) = None ->
  bad_base nd.(name) = false -> nd.(parent) = Some p -> nd.(children) = [] -> nd.(deleted) = false ->
  (forall m, live s1 p m -> is_dir m.(mode) = true -> kind_ok s1.(nodes) nd) ->
  (is_dir nd.(mode) = true -> nd.(dir_link_count) = 2) ->
  inv (added p nd s1) /\ keeps s (added p nd s1) /\ live (added p nd s1) (length s1.(nodes)) nd /\
  pos (added p nd s1) (length s1.(nodes)) = cs ++ [nd.(name)] /\
  (forall q, Forall component q ->
     abs (added p nd s1) q = update (mkdirs (abs s) cs dir755) (cs ++ [nd.(name)]) (entry nd) q).
Proof.
  intros I (I1 & Hk & (m & Hm & Hpos & Hmd) & Habs) Hc Hfree Hb Hnp Hnc Hnl Hkind Hlinks.
  pose proof Hc as [_ [Hcb _]%Forall_cons]%Forall_app.
  assert (Hfree1 : s1.(path_index) !! mkpath (pos s1 p ++ [nd.(name)]) = None).
  { apply abs_none; [apply I1|by rewrite Hpos|]. rewrite Hpos, Habs by done. by apply mkdirs_fresh. }
  specialize (Hkind m Hm Hmd). split_and!.
  - by apply (added_inv s1 p m).
  - eapply keeps_trans; [done|]. by apply (added_keeps s1 p m).
  - apply (added_live s1 p m nd); try done. by left.
  - rewrite (added_pos_new s1 p m nd) by done. by rewrite Hpos.
  - intros q Hq. rewrite (added_abs s1 p m nd) by done. rewrite Hpos, Habs by done. done.
Qed.

Lemma add_dir_fuel_spec fuel s path md u g fx :
  inv s -> is_dir md = true -> (length (components path) < fuel)%nat ->
  mkdir_outcome (add_dir_fuel fuel path md u g fx s) s (components path)
    (mk_entry CDirectory md u g [] None).
Proof.
  revert path md u g fx. induction fuel as [|fuel IH]; intros path md u g fx I Hmd Hf; [lia|].
  pose proof (i_w s I) as W. pose proof (components_ok path) as Hcs.
  cbn [add_dir_fuel]. unfold mbind at 1, ST_bind at 1, index_get, gets.
  destruct (s.(path_index) !! normalize path) as [i|] eqn:E; rewrite normalize_spec in E.
  { destruct (index_live s _ i W Hcs E) as (n & Hn & Hpos & Habs). unfold mbind, ST_bind, node, idx.
    rewrite (proj1 Hn). unfold mkdir_outcome. destruct (is_dir n.(mode)) eqn:Hd.
    - rewrite <- Hpos, (live_mkdir_ok s i n I Hn Hd). exists s, i. split; [done|]. split; [done|].
      split; [apply keeps_refl|]. split; [eauto|]. intros q _. by rewrite (live_mkdirs s i n).
    - assert (mkdir_ok (abs s) (components path) = false) as ->; [|eexists; split; done].
      apply not_true_iff_false. intros Hm%mkdir_ok_spec. destruct Hm as [_ Hm].
      specialize (Hm _ (entry n) ltac:(done) Habs). cbn in Hm. congruence. }
  apply abs_none in E; [|done..]. destruct (components_snoc path) as [Ec|(cs & b & Ec & _ & _)].
  { exfalso. rewrite Ec in E. destruct (root_abs s I) as (e & He & _). congruence. }
  rewrite Ec in *. pose proof Hcs as [Hcs' _]%Forall_app.
  assert (Hok : mkdir_ok (abs s) (cs ++ [b]) = mkdir_ok (abs s) cs && negb (bad_base b)).
  { apply eq_bool_prop_intro. rewrite !Is_true_true, mkdir_ok_snoc, andb_true_iff, negb_true_iff.
    rewrite E. naive_solver. }
  unfold mbind at 1, ST_bind at 1.
  destruct (ensure_parent_spec (fun anc => add_dir_fuel fuel anc (mode_dir o755) 0 0 0) s path cs b I Ec)
    as [[Hb Hout]|[Hbad ->]].
  - intros p Hp. rewrite <- Hp. apply IH; [done|apply is_dir_dir|]. rewrite Hp. rewrite length_app in Hf.
    cbn in Hf. lia.
  - unfold mkdir_outcome in Hout. destruct (mkdir_ok (abs s) cs) eqn:Hokcs.
    2: { destruct Hout as (er & -> & Hr). unfold mkdir_outcome. rewrite Hok. by exists er. }
    destruct Hout as (s1 & p & -> & Hmade).
    unfold mbind at 1, ST_bind at 1. rewrite (basename_st_ok path cs b) by done.
    unfold mbind at 1, ST_bind at 1.
    set (nd := new_node b (Some p) CDirectory md u g (fixed_inode_opt fx) 2 None).
    pose proof Hmade as (_ & _ & (m & Hm & Hpos & Hmd') & _).
    rewrite (push_dir_run s1 p m nd) by (done || by rewrite normalize_spec, Ec, Hpos).
    destruct (add_under_made s s1 cs p nd) as (I' & Hk & Hl & Hpos' & Habs); try done.
    { intros m' Hm' Hd'. by apply (new_dir_kind s1 b p m'). }
    unfold mkdir_outcome. rewrite Hok, Hb.
    exists (added p nd s1), (length s1.(nodes)). split; [done|]. split; [done|]. split; [done|].
    split; [eauto|]. intros q Hq. rewrite Habs by done. by apply mkdirs_snoc.
  - unfold mkdir_outcome. rewrite Hok, Hbad, andb_false_r. by eexists.
Qed.

Lemma components_length path : (length (components path) < S (String.length (normalize path)))%nat.
Proof.
  rewrite normalize_spec. generalize (components path). intros cs.
  induction cs as [|c cs IH]; [cbn; lia|]. cbn [mkpath length String.length].
  rewrite length_append. lia.
Qed.
Lemma add_dir_internal_spec s path md u g fx :
  inv s -> is_dir md = true ->
  mkdir_outcome (add_dir_internal path md u g fx s) s (components path) (mk_entry CDirectory md u g [] None).
Proof. intros I Hd. by apply add_dir_fuel_spec, components_length. Qed.
Lemma ensure_parent_ok s path cs b :
  inv s -> components path = cs ++ [b] ->
  bad_base b = false /\ mkdir_outcome (ensure_parent path s) s cs dir755 \/
  bad_base b = true /\ ensure_parent path s = (s, Failed (InvalidFilename path)).
Proof.
  intros I E. apply ensure_parent_spec; [done..|]. intros p <-. apply add_dir_internal_spec; [done|].
  apply is_dir_dir.
Qed.

(** ** Replacing a leaf *)
(** Nothing lies below a node that is not a directory. *)
Lemma leaf_remove s i n q :
  inv s -> live s i n -> is_dir n.(mode) = false -> Forall component q ->
  (if decide (pos s i `prefix_of` q) then None else abs s q)
  = if decide (q = pos s i) then None else abs s q.
Proof.
  intros I Hi Hd Hq. case_decide as Hp; case_decide as E; try done; [|subst; by destruct Hp].
  destruct (abs s q) as [e|] eqn:Ea; [|done]. exfalso.
  apply abs_some in Ea as (j & m & Hj & <- & _); [|apply I|done].
  destruct (ancestor_live s j m _ I Hj Hp) as (k & m' & Hk & Hpos & Hkd).
  assert (k = i) as -> by (by apply (live_inj s k i m' n); [apply I|..]).
  assert (m' = n) as -> by (destruct Hk, Hi; congruence).
  rewrite Hkd in Hd; [done|]. intros ->. done.
Qed.
Lemma leaf_parent s i n cs b :
  inv s -> live s i n -> pos s i = cs ++ [b] ->
  exists p, n.(parent) = Some p /\ bad_base b = false /\ mkdir_ok (abs s) cs = true.
Proof.
  intros I Hi Hpos. pose proof (w_wf s (i_w s I)) as Hwf.
  pose proof (skel_lookup _ _ _ (proj1 Hi)) as Es. pose proof (Hwf _ _ _ Es) as Hn.
  destruct (parent n) as [p|] eqn:Ep.
  - destruct Hn as [_ [_ Hbad]]. destruct (i_attached s I i n p Hi Ep) as (m & Hm & _).
    rewrite (path_of_child _ Hwf _ _ _ Es) in Hpos. apply app_inj_tail in Hpos as [<- <-].
    exists p. split; [done|]. split; [done|]. apply (live_mkdir_ok s p m I Hm).
    destruct (i_kind s I i n (proj1 Hi)) as (_ & H & _). specialize (H p Ep).
    unfold dir_at in H. by rewrite (proj1 Hm) in H.
  - destruct Hn as [-> _]. rewrite (path_of_root _ _ Es) in Hpos. by destruct cs.
Qed.
Lemma mkdir_ok_agree m m' cs b :
  (forall q, q `prefix_of` cs -> m' q = if decide (q = cs ++ [b]) then None else m q) ->
  mkdir_ok m' cs = mkdir_ok m cs.
Proof.
  intros H. unfold mkdir_ok. f_equal. apply eq_bool_prop_intro. rewrite !Is_true_true, !forallb_forall.
  assert (Heq : forall q, In q (inits cs) -> m' q = m q).
  { intros q Hq%list_elem_of_In%elem_of_inits. rewrite H by done. rewrite decide_False; [done|].
    intros ->. apply prefix_length in Hq. rewrite length_app in Hq. cbn in Hq. lia. }
  split; intros H' q Hq; specialize (H' q Hq); by rewrite Heq in *.
Qed.

(** Clearing the way for a leaf at [path]: what [remove_existing_leaf] and
    [ensure_parent] do before the new node is pushed. *)
Definition cleared_for (s s1 : FileSystemBuilder) (path : string) (cs : list string) (b : string) : Prop :=
  inv s1 /\ keeps s s1 /\ mkdir_ok (abs s1) cs = true /\
  forall q, Forall component q -> abs s1 q = if decide (q = cs ++ [b]) then None else abs s q.
Lemma leaf_prepare s path md e :
  inv s -> is_dir md = false ->
  match put_leaf (abs s) (components path) e with
  | Some m' =>
      exists s1 cs b, components path = cs ++ [b] /\ bad_base b = false /\
        m' = update (mkdirs (abs s) cs dir755) (cs ++ [b]) e /\
        remove_existing_leaf path md s = (s1, Done tt) /\ cleared_for s s1 path cs b
  | None =>
      exists er, refusal er /\
        (remove_existing_leaf path md s = (s, Failed er) \/
         remove_existing_leaf path md s = (s, Done tt) /\ ensure_parent path s = (s, Failed er))
  end.
Proof.
  intros I Hd. pose proof (i_w s I) as W. pose proof (components_ok path) as Hcs.
  unfold remove_existing_leaf. unfold mbind, ST_bind, index_get, gets.
  rewrite normalize_spec. destruct (s.(path_index) !! mkpath (components path)) as [i|] eqn:E.
  - destruct (index_live s _ i W Hcs E) as (n & Hn & Hpos & Habs). unfold node, idx.
    rewrite (proj1 Hn), Hd. unfold put_leaf. rewrite Habs. cbn [entry e_mode].
    destruct (is_dir n.(mode)) eqn:Hnd; cbn [negb Bool.eqb].
    { assert (exists er, refusal er /\
        ((s, Failed (PathConflict path) : exec Ext4Error unit) = (s, Failed er)
         \/ (s, Failed (PathConflict path) : exec Ext4Error unit) = (s, Done tt)
            /\ ensure_parent path s = (s, Failed er))) as Hex by (eexists; split; [|by left]; done).
      destruct (last (components path)); [by rewrite orb_true_r|done]. }
    destruct (components_snoc path) as [Ec|(cs & b & Ec & _ & _)].
    { exfalso. rewrite Ec in Habs. destruct (root_abs s I) as (x & Hx & Hxd).
      rewrite Habs in Hx. injection Hx as <-. cbn in Hxd. congruence. }
    rewrite Ec in *. destruct (leaf_parent s i n cs b I Hn Hpos) as (p & Hp & Hb & Hok).
    rewrite last_snoc, removelast_last, Hb, Hok. cbn [negb orb].
    rewrite (delete_subtree_spec s i p n) by done. eexists _, cs, b. split_and!; [done..|].
    assert (Hab : forall q, Forall component q -> abs (removed i p (is_dir n.(mode)) s) q
              = if decide (q = cs ++ [b]) then None else abs s q).
    { intros q Hq. rewrite (removed_abs s i p n I Hn Hp) by done. rewrite <- Hpos.
      by apply leaf_remove with (n := n). }
    split_and!; [by apply removed_inv|by apply keeps_static, removed_static| |done].
    rewrite (mkdir_ok_agree (abs s) _ cs b); [done|]. intros q Hq. apply Hab.
    pose proof Hcs as [Hcs' _]%Forall_app. destruct Hq as [l ->]. by apply Forall_app in Hcs' as [? _].
  - apply abs_none in E; [|done..]. unfold put_leaf. rewrite E.
    destruct (components_snoc path) as [Ec|(cs & b & Ec & _ & _)].
    { exfalso. rewrite Ec in E. destruct (root_abs s I) as (x & Hx & _). congruence. }
    rewrite Ec in *. rewrite last_snoc, removelast_last, orb_false_r.
    destruct (ensure_parent_ok s path cs b I Ec) as [[Hb Hout]|[Hb Hout]]; rewrite Hb; cbn [orb].
    + unfold mkdir_outcome in Hout. destruct (mkdir_ok (abs s) cs) eqn:Hok; cbn [negb].
      * exists s, cs, b. split_and!; [done..|]. split_and!; [done|apply keeps_refl|done|].
        intros q Hq. case_decide; [by subst|done].
      * destruct Hout as (er & -> & Hr). exists er. split; [done|]. by right.
    + rewrite Hout. eexists. split; [|by right]. done.
Qed.

(** ** The operations refine their specifications *)
Definition op_outcome (r : FileSystemBuilder * exec Ext4Error unit) s (spec : option AbsFS) : Prop :=
  match spec with
  | Some m => exists s', r = (s', Done tt) /\ inv s' /\ keeps s s' /\
                forall q, Forall component q -> abs s' q = m q
  | None => exists er, r = (s, Failed er)
  end.

(** The nodes [add_leaf_node] and [add_hardlink] push. *)
Definition leaf_kind (ns : list Node) (c : NodeContent) (md : Z) (tgt : option nat) : Prop :=
  is_dir md = false /\ c <> CDirectory /\
  match tgt with
  | Some t => c = CHardlink /\ exists m, ns !! t = Some m /\ is_dir m.(mode) = false
  | None => c <> CHardlink
  end.
Lemma keeps_leaf_kind s s' c md tgt :
  keeps s s' -> leaf_kind s.(nodes) c md tgt -> leaf_kind s'.(nodes) c md tgt.
Proof.
  intros Hk (Hd & Hc & Ht). split; [done|]. split; [done|]. destruct tgt as [t|]; [|done].
  destruct Ht as (-> & m & Em & Hm). split; [done|]. destruct (Hk t m Em) as (m' & ? & Hs).
  exists m'. split; [done|]. injection Hs. congruence.
Qed.
Lemma leaf_push s s1 path cs b c md tgt :
  components path = cs ++ [b] -> bad_base b = false -> cleared_for s s1 path cs b -> inv s ->
  leaf_kind s.(nodes) c md tgt ->
  exists s2 p, ensure_parent path s1 = (s2, Done p) /\ keeps s s2 /\
    let nd := new_node b (Some p) c md 0 0 None 0 tgt in
    op_outcome ((_ ← push_node nd;
                 _ ← upd_node p (fun n => set_children (n.(children) ++ [length s2.(nodes)]) n);
                 index_insert (normalize path) (length s2.(nodes))) s2) s
      (Some (update (mkdirs (abs s) cs dir755) (cs ++ [b]) (mk_entry c md 0 0 [] tgt))).
Proof.
  intros Ec Hb (I1 & Hk1 & Hok1 & Hab) I Hkind.
  destruct (ensure_parent_ok s1 path cs b I1 Ec) as [[_ Hout]|[? _]]; [|congruence].
  unfold mkdir_outcome in Hout. rewrite Hok1 in Hout. destruct Hout as (s2 & p & Hrun & Hmade).
  pose proof Hmade as (I2 & Hk2 & (m & Hm & Hpos & Hmd) & _).
  exists s2, p. split; [done|]. assert (Hk : keeps s s2) by by eapply keeps_trans.
  split; [done|]. intros nd. pose proof (components_ok path) as Hcs. rewrite Ec in Hcs.
  destruct (keeps_leaf_kind _ _ _ _ _ Hk Hkind) as (Hd & Hc & Ht).
  rewrite (push_leaf_run s2 p m nd _ Hm Hd) by by rewrite normalize_spec, Ec, Hpos.
  destruct (add_under_made s1 s2 cs p nd) as (I' & Hk' & _ & _ & Habs); try done.
  - rewrite Hab by done. by rewrite decide_True.
  - intros m' Hm' Hmd'. split; [|split].
    + cbn. rewrite Hd. done.
    + intros x [= <-]. unfold dir_at. by rewrite (proj1 Hm').
    + done.
  - cbn. rewrite Hd. done.
  - exists (added p nd s2). split; [done|]. split; [done|]. split; [by apply (keeps_trans s s1)|].
    intros q Hq. rewrite Habs by done. unfold update. cbn [name nd new_node].
    destruct (decide (q = cs ++ [b])); [done|]. unfold mkdirs. rewrite Hab by done.
    by rewrite decide_False.
Qed.
Lemma add_leaf_node_spec s path c md :
  inv s -> leaf_kind s.(nodes) c md None ->
  op_outcome (add_leaf_node path c md s) s (put_leaf (abs s) (components path) (leaf c md)).
Proof.
  intros I Hkind. pose proof (leaf_prepare s path md (leaf c md) I (proj1 Hkind)) as H.
  unfold add_leaf_node. unfold mbind at 1, ST_bind at 1.
  destruct (put_leaf _ _ _) as [m'|].
  - destruct H as (s1 & cs & b & Ec & Hb & -> & -> & Hc).
    destruct (leaf_push s s1 path cs b c md None Ec Hb Hc I Hkind) as (s2 & p & Hrun & _ & Hout).
    unfold mbind at 1, ST_bind at 1. rewrite Hrun. unfold mbind at 1, ST_bind at 1.
    rewrite (basename_st_ok path cs b) by done. exact Hout.
  - destruct H as (er & _ & [->|[-> Hrun]]); [by exists er|].
    unfold mbind at 1, ST_bind at 1. rewrite Hrun. by exists er.
Qed.
Lemma add_hardlink_spec s link target :
  inv s ->
  op_outcome (add_hardlink link target s) s
    (aspec (OAddHardlink link target)
       (default O (s.(path_index) !! normalize target)) (abs s)).
Proof.
  intros I. pose proof (i_w s I) as W. pose proof (components_ok target) as Hct.
  unfold add_hardlink, aspec. unfold mbind at 1, ST_bind at 1, index_get, gets.
  rewrite (normalize_spec target).
  destruct (s.(path_index) !! mkpath (components target)) as [t|] eqn:E.
  2: { rewrite (proj1 (abs_none s _ W Hct)) by done. by eexists. }
  destruct (index_live s _ t W Hct E) as (n & Hn & _ & ->). cbn [default entry e_mode].
  unfold mbind at 1, ST_bind at 1, node at 1, idx at 1. rewrite (proj1 Hn).
  destruct (is_dir n.(mode)) eqn:Hd; [by eexists|].
  set (e := mk_entry _ _ _ _ _ _). pose proof (leaf_prepare s link n.(mode) e I Hd) as H.
  unfold mbind at 1, ST_bind at 1. destruct (put_leaf _ _ _) as [m'|].
  - destruct H as (s1 & cs & b & Ec & Hb & -> & -> & Hc).
    assert (Hkind : leaf_kind s.(nodes) CHardlink n.(mode) (Some t)).
    { split; [done|]. split; [done|]. split; [done|]. exists n. split; [apply Hn|done]. }
    destruct (leaf_push s s1 link cs b CHardlink n.(mode) (Some t) Ec Hb Hc I Hkind)
      as (s2 & p & Hrun & Hk & Hout).
    unfold mbind at 1, ST_bind at 1. rewrite Hrun. unfold mbind at 1, ST_bind at 1.
    rewrite (basename_st_ok link cs b) by done.
    destruct (Hk t n (proj1 Hn)) as (n2 & En2 & Hs).
    unfold mbind at 1, ST_bind at 1. unfold mbind at 1, ST_bind at 1, node at 1, idx at 1. rewrite En2.
    assert (mode n2 = mode n) as -> by (injection Hs; congruence). exact Hout.
  - destruct H as (er & _ & [->|[-> Hrun]]); [by exists er|].
    unfold mbind at 1, ST_bind at 1. rewrite Hrun. by exists er.
Qed.

(** ** Attributes *)
Definition inert (f : Node -> Node) : Prop :=
  forall n, static (f n) = static n /\ (f n).(children) = n.(children) /\
            (f n).(dir_link_count) = n.(dir_link_count) /\ (f n).(deleted) = n.(deleted).
Section Inert.
Context (s : FileSystemBuilder) (i : nat) (f : Node -> Node) (Hf : inert f) (I : inv s).
Let W := i_w s I.
Lemma inert_static : same_static s.(nodes) (upd i f s).(nodes).
Proof using Hf.
  apply same_static_pointwise. intros j. rewrite upd_lookup. destruct (s.(nodes) !! j) as [n|]; [|done].
  cbn. destruct (j =? i)%nat; [|done]. f_equal. apply Hf.
Qed.
Lemma inert_live j m' :
  live (upd i f s) j m' <-> exists m, live s j m /\ m' = if (j =? i)%nat then f m else m.
Proof using Hf.
  unfold live. rewrite upd_lookup. destruct (s.(nodes) !! j) as [n|]; cbn; [|naive_solver].
  destruct (Hf n) as (_ & _ & _ & Hd). destruct (j =? i)%nat; split; naive_solver.
Qed.
Lemma inert_winv : winv (upd i f s).
Proof using Hf I.
  assert (Hsk : sk (upd i f s) = sk s) by apply same_static_skel, inert_static.
  assert (Hl : forall p n', (upd i f s).(nodes) !! p = Some n' ->
    exists n, s.(nodes) !! p = Some n /\ n'.(children) = n.(children) /\ n'.(deleted) = n.(deleted)).
  { intros p n'. rewrite upd_lookup. destruct (s.(nodes) !! p) as [n|]; [|done]. intros [= <-].
    exists n. destruct (Hf n) as (_ & ? & _ & ?). by destruct (p =? i)%nat. }
  split.
  - rewrite Hsk. apply W.
  - intros k j. rewrite Hsk. change (path_index (upd i f s)) with (path_index s).
    rewrite (w_index s W). setoid_rewrite inert_live. naive_solver.
  - intros p n' c E Hc. destruct (Hl p n' E) as (n & En & Hch & _). rewrite Hch in Hc.
    destruct (w_children s W _ _ _ En Hc) as (m & Hm & Hmp). eexists. split; [apply inert_live; eauto|].
    destruct (c =? i)%nat; [|done]. destruct (Hf m) as (Hs & _). injection Hs. congruence.
  - intros p n' E. destruct (Hl p n' E) as (n & En & -> & _). by eapply w_nodup.
  - intros p n' E. destruct (Hl p n' E) as (n & En & -> & ->). by eapply w_deleted.
Qed.
Lemma inert_inv : inv (upd i f s).
Proof using Hf I.
  split.
  - apply inert_winv.
  - destruct (i_root s I) as (r & Hr & Hd). eexists. split; [apply inert_live; eauto|].
    destruct (O =? i)%nat; [|done]. destruct (Hf r) as (Hs & _). injection Hs. congruence.
  - intros j m' p (m & Hm & ->)%inert_live Hp.
    assert (m.(parent) = Some p) as Hmp.
    { destruct (j =? i)%nat; [|done]. destruct (Hf m) as (Hs & _). injection Hs. congruence. }
    destruct (i_attached s I j m p Hm Hmp) as (q & Hq & Hin). eexists. split; [apply inert_live; eauto|].
    destruct (p =? i)%nat; [|done]. destruct (Hf q) as (_ & -> & _). done.
  - intros j m' E. destruct (same_static_lookup _ _ _ _ inert_static E) as (m & Em & Hst).
    eapply kind_ok_static; [apply inert_static|done|]. by eapply i_kind.
  - intros j m' (m & Hm & ->)%inert_live Hd.
    rewrite (same_static_ever _ _ _ inert_static), (same_static_child_dirs _ _ _ inert_static).
    destruct (j =? i)%nat; [|by eapply i_links]. destruct (Hf m) as (Hs & -> & -> & _).
    intros He. eapply i_links; [done..| |done]. injection Hs. congruence.
Qed.
Lemma inert_abs n q :
  live s i n -> Forall component q ->
  abs (upd i f s) q = if decide (q = pos s i) then Some (entry (f n)) else abs s q.
Proof using Hf I.
  intros Hi Hq. assert (Hsk : sk (upd i f s) = sk s) by apply same_static_skel, inert_static.
  apply option_eq. intros e. rewrite (abs_some _ _ _ inert_winv) by done. rewrite Hsk. case_decide as Hc.
  - split.
    + intros (j & m' & (m & Hm & ->)%inert_live & Hpos & <-).
      assert (j = i) as -> by (apply (live_inj s j i m n); congruence || done).
      assert (m = n) as -> by (destruct Hm, Hi; congruence). by rewrite Nat.eqb_refl.
    + intros [= <-]. exists i, (f n). split; [|done]. apply inert_live. exists n. by rewrite Nat.eqb_refl.
  - rewrite abs_some by done. split.
    + intros (j & m' & (m & Hm & ->)%inert_live & Hpos & <-). exists j, m. split_and!; [done..|].
      destruct (Nat.eqb_spec j i); [congruence|done].
    + intros (j & m & Hm & Hpos & <-). exists j, m. split_and!; [|done..]. apply inert_live.
      exists m. split; [done|]. destruct (Nat.eqb_spec j i); [congruence|done].
Qed.
End Inert.

(** Every call but the removal of the root, which the builder accepts and which
    breaks its invariant ([Ext4Limits.removed_root_swallows_additions]). *)
Definition allowed (o : op) : Prop :=
  match o with ORemove p => components p <> [] | _ => True end.
Definition link_target (o : op) (s : FileSystemBuilder) : nat :=
  match o with OAddHardlink _ t => default O (s.(path_index) !! normalize t) | _ => O end.

Lemma leaf_kind_none ns c md :
  is_dir md = false -> c <> CDirectory -> c <> CHardlink -> leaf_kind ns c md None.
Proof. done. Qed.
Lemma remove_path_spec s path :
  inv s -> components path <> [] ->
  op_outcome (remove_path path s) s (Some (remove_below (abs s) (components path))).
Proof.
  intros I Hne. pose proof (i_w s I) as W. pose proof (components_ok path) as Hcs.
  unfold remove_path. unfold mbind at 1, ST_bind at 1, index_get, gets. rewrite normalize_spec.
  destruct (s.(path_index) !! mkpath (components path)) as [i|] eqn:E.
  - destruct (index_live s _ i W Hcs E) as (n & Hn & Hpos & _).
    destruct (components_snoc path) as [|(cs & b & Ec & _ & _)]; [done|]. rewrite Ec in Hpos.
    destruct (leaf_parent s i n cs b I Hn Hpos) as (p & Hp & _ & _).
    rewrite (delete_subtree_spec s i p n) by done. eexists. split; [done|].
    split; [by apply removed_inv|]. split; [by apply keeps_static, removed_static|].
    intros q Hq. rewrite (removed_abs s i p n) by done. by rewrite Hpos, Ec.
  - apply abs_none in E; [|done..]. exists s. split_and!; [done..|apply keeps_refl|].
    intros q Hq. unfold remove_below. case_decide as Hp; [|done].
    destruct (abs s q) as [e|] eqn:Ea; [|done].
    apply abs_some in Ea as (j & m & Hj & <- & _); [|done..].
    destruct (ancestor_live s j m _ I Hj Hp) as (k & m' & Hk & Hpos & _).
    assert (abs s (components path) = Some (entry m')); [|congruence]. apply abs_some; eauto.
Qed.
Lemma clear_dir_spec s path :
  inv s -> op_outcome (clear_dir path s) s (aspec (OClear path) O (abs s)).
Proof.
  intros I. pose proof (i_w s I) as W. pose proof (components_ok path) as Hcs.
  unfold clear_dir, aspec. unfold mbind at 1, ST_bind at 1, index_get, gets. rewrite normalize_spec.
  destruct (s.(path_index) !! mkpath (components path)) as [i|] eqn:E.
  - destruct (index_live s _ i W Hcs E) as (n & Hn & Hpos & ->). cbn [entry e_mode].
    unfold mbind at 1, ST_bind at 1, node at 1, idx at 1. rewrite (proj1 Hn).
    destruct (is_dir n.(mode)) eqn:Hd; cbn [negb]; [|by eexists].
    rewrite (clear_loop_spec s i n I Hn). eexists. split; [done|].
    split; [by apply (cleared_inv s i n)|]. split; [by apply keeps_static, cleared_static|].
    intros q Hq. rewrite (cleared_abs s i n) by done. by rewrite Hpos.
  - apply abs_none in E; [|done..]. rewrite E. exists s. split_and!; [done..|apply keeps_refl|done].
Qed.
Lemma set_xattr_spec s path nm v :
  inv s -> op_outcome (set_xattr path nm v s) s (aspec (OSetXattr path nm v) O (abs s)).
Proof.
  intros I. pose proof (i_w s I) as W. pose proof (components_ok path) as Hcs.
  unfold set_xattr, aspec. unfold mbind at 1, ST_bind at 1, index_get, gets. rewrite normalize_spec.
  destruct (s.(path_index) !! mkpath (components path)) as [i|] eqn:E.
  - destruct (index_live s _ i W Hcs E) as (n & Hn & Hpos & ->). rewrite (upd_node_spec _ _ n) by apply Hn.
    set (f := fun m : Node => set_xattrs _ m). assert (Hf : inert f) by done.
    eexists. split; [done|]. split; [by apply inert_inv|]. split; [by apply keeps_static, inert_static|].
    intros q Hq. rewrite (inert_abs s i f Hf I n) by done. by rewrite Hpos.
  - apply abs_none in E; [|done..]. rewrite E. by eexists.
Qed.
Lemma add_dir_spec s path perm :
  inv s -> op_outcome (add_dir path perm s) s (aspec (OAddDir path perm) O (abs s)).
Proof.
  intros I. pose proof (add_dir_internal_spec s path (mode_dir perm) 0 0 0 I (is_dir_dir perm)) as H.
  unfold add_dir, aspec. unfold mkdir_outcome in H. unfold mbind, ST_bind.
  destruct (mkdir_ok _ _).
  - destruct H as (s' & i & -> & (I' & Hk & _ & Ha)). by exists s'.
  - destruct H as (er & -> & _). by exists er.
Qed.

Lemma whiteout_spec s path :
  inv s -> op_outcome (add_whiteout path s) s (aspec (OAddWhiteout path) O (abs s)).
Proof.
  intros I. unfold add_whiteout, aspec. destruct (components_snoc path) as [Ec|(cs & b & Ec & Hcs & Hcb)].
  - unfold whiteout_marker_path. rewrite normalize_spec, Ec. cbn. by eexists.
  - rewrite Ec, last_snoc, removelast_last. destruct (bad_base b) eqn:Hb.
    + unfold whiteout_marker_path. rewrite (split_parent_normalize path cs b Ec), Hb, orb_true_r. by eexists.
    + rewrite (whiteout_marker_spec path cs b Ec Hb). unfold lift, map_err, mbind, ST_bind, mret, ST_ret.
      assert (Forall component (cs ++ [".wh." +:+ b])) as Hm.
      { apply Forall_app_2; [done|]. apply Forall_cons. split; [|done]. destruct Hcb as [_ Hcb].
        split; [done|]. exact Hcb. }
      pose proof (add_leaf_node_spec s (mkpath (cs ++ [".wh." +:+ b])) CWhiteout (mode_char_device 0) I) as H.
      rewrite components_mkpath in H by done. apply H.
      apply leaf_kind_none; [apply is_dir_char|done..].
Qed.
Lemma opaque_spec s path :
  inv s -> op_outcome (add_opaque_dir path s) s (aspec (OAddOpaque path) O (abs s)).
Proof.
  intros I. unfold add_opaque_dir, aspec. rewrite opaque_marker_spec.
  assert (Forall component (components path ++ [".wh..wh..opq"%string])) as Hm.
  { apply Forall_app_2; [apply components_ok|]. by apply Forall_cons. }
  pose proof (add_leaf_node_spec s (mkpath (components path ++ [".wh..wh..opq"%string])) (CFile [])
    (mode_regular 0) I) as H.
  rewrite components_mkpath in H by done. apply H. apply leaf_kind_none; [apply is_dir_regular|done..].
Qed.

Lemma exec_op_refines s o :
  inv s -> allowed o -> op_outcome (exec_op o s) s (aspec o (link_target o s) (abs s)).
Proof.
  intros I Ha. destruct o; cbn [exec_op link_target].
  - by apply add_dir_spec.
  - unfold add_file, aspec. case_match; [by eexists|]. apply add_leaf_node_spec; [done|].
    apply leaf_kind_none; [apply is_dir_regular|done..].
  - by apply whiteout_spec.
  - by apply opaque_spec.
  - unfold add_symlink, aspec. case_match; [by eexists|]. apply add_leaf_node_spec; [done|].
    apply leaf_kind_none; [apply is_dir_symlink|done..].
  - by apply add_hardlink_spec.
  - by apply set_xattr_spec.
  - by apply remove_path_spec.
  - by apply clear_dir_spec.
Qed.

(** ** Fresh builders and runs *)
Definition empty_fs (bs : BlockSize) : FileSystemBuilder :=
  mk_fs bs (zeros 16) 0 (1024 * 1024) [root_node] {[ EmptyString := O ]}.
Lemma empty_fs_inv bs : inv (empty_fs bs).
Proof.
  assert (Hl : forall i n, (empty_fs bs).(nodes) !! i = Some n -> i = O /\ n = root_node).
  { intros i n E. by apply list_lookup_singleton_Some in E as [-> <-]. }
  split; [split|..].
  - intros i nm po (n & E & <- & <-)%skel_lookup_inv. apply Hl in E as [-> ->]. done.
  - intros k i. cbn. rewrite lookup_singleton_Some. unfold live. split.
    + intros [<- <-]. by exists root_node.
    + intros (n & [E _] & ->). apply Hl in E as [-> ->]. done.
  - intros p n c E Hc. apply Hl in E as [-> ->]. by apply elem_of_nil in Hc.
  - intros p n E. apply Hl in E as [-> ->]. constructor.
  - intros p n E. by apply Hl in E as [-> ->].
  - by exists root_node.
  - intros j n p [E _]. by apply Hl in E as [-> ->].
  - intros i n E. by apply Hl in E as [-> ->].
  - intros i n [E _] _ _. by apply Hl in E as [-> ->].
Qed.
Lemma fs_new_inv bs : inv (fs_new bs).
Proof.
  pose proof (add_dir_internal_spec (empty_fs bs) "/lost+found" (mode_dir o700) 0 0 LOST_FOUND_INODE
    (empty_fs_inv bs) (is_dir_dir _)) as H.
  unfold fs_new. fold (empty_fs bs). unfold mkdir_outcome in H.
  destruct (mkdir_ok _ _); [by destruct H as (s' & i & -> & I & _)|].
  destruct H as (er & -> & _). apply empty_fs_inv.
Qed.

Fixpoint run (ops : list op) (s : FileSystemBuilder) : FileSystemBuilder :=
  match ops with [] => s | o :: ops => run ops (exec_op o s).1 end.
Lemma run_inv bs ops : Forall allowed ops -> inv (run ops (fs_new bs)).
Proof.
  intros Ha. assert (I0 : inv (fs_new bs)) by apply fs_new_inv. revert I0. generalize (fs_new bs).
  induction Ha as [|o ops Ho _ IH]; intros s0 I0; [done|]. cbn [run]. apply IH.
  pose proof (exec_op_refines s0 o I0 Ho) as H. unfold op_outcome in H.
  destruct (aspec _ _ _); [by destruct H as (s' & -> & I' & _)|by destruct H as (er & ->)].
Qed.
Definition demo_ops : list op :=
  [OAddFile "/etc/hosts" [104; 105] 0x1A4; OAddSymlink "etc//link" "/etc/hosts";
   OAddHardlink "/h" "etc/hosts/"; OAddDir "/a/b" 0x1ED; ORemove "/a"; OAddFile "/etc" [] 0].

(** C1: every public operation of the builder, the removal of the root excepted,
    implements its abstract specification.  In a builder that satisfies the invariant, if the
    specification accepts the operation, the call succeeds, the invariant
    still holds and the file system is exactly the specified one (missing
    ancestors created with mode 0755, a replaced leaf gone, everything else
    untouched); if the specification refuses it, the call fails and leaves
    the builder unchanged.  In particular no call panics and every recursion
    ends. *)
Theorem builder_refines_spec s o :
  inv s -> allowed o -> op_outcome (exec_op o s) s (aspec o (link_target o s) (abs s)).
Proof. apply exec_op_refines. Qed.
Lemma builder_refines_spec_witness :
  op_outcome (exec_op (ORemove "/lost+found") (fs_new K4)) (fs_new K4)
    (aspec (ORemove "/lost+found") O (abs (fs_new K4)))
  /\ abs (fs_new K4) ["lost+found"%string] = Some (mk_entry CDirectory (mode_dir o700) 0 0 [] None).
Proof.
  split; [|vm_compute; reflexivity].
  apply (builder_refines_spec (fs_new K4) (ORemove "/lost+found") (fs_new_inv K4)). done.
Defined.

(** C24: whatever sequence of operations is run on a new builder, as long as none
    removes the root, the builder stays consistent: the path index lists exactly
    the live nodes under the paths their parents spell, no two live nodes
    share a path, every live node is listed by a live parent directory, and
    the link count of a directory that never had more than 65533
    subdirectories is two plus the subdirectories it lists.  A run that removes
    the root does break it: later additions live under a removed node
    ([Ext4Limits.removed_root_swallows_additions]). *)
Theorem builder_invariant bs ops :
  Forall allowed ops ->
  let s := run ops (fs_new bs) in
  (forall k i, s.(path_index) !! k = Some i <->
     exists n, s.(nodes) !! i = Some n /\ n.(deleted) = false /\ k = mkpath (path_of (skel s.(nodes)) i)) /\
  (forall i n, s.(nodes) !! i = Some n -> n.(deleted) = false ->
     match n.(parent) with
     | None => i = O
     | Some p => exists m, s.(nodes) !! p = Some m /\ m.(deleted) = false /\
                   is_dir m.(mode) = true /\ i ∈ m.(children)
     end) /\
  (forall i n, s.(nodes) !! i = Some n -> n.(deleted) = false -> is_dir n.(mode) = true ->
     ever_dirs s.(nodes) i <= 65533 ->
     n.(dir_link_count) = 2 + child_dirs s.(nodes) n.(children)).
Proof.
  intros Ha s. assert (I : inv s) by by apply run_inv.
  split; [|split].
  - intros k i. rewrite (w_index s (i_w s I)). unfold live. naive_solver.
  - intros i n E Hd. pose proof (w_wf s (i_w s I) _ _ _ (skel_lookup _ _ _ E)) as Hw.
    destruct (parent n) as [p|] eqn:Ep; [|by destruct Hw].
    destruct (i_attached s I i n p (conj E Hd) Ep) as (m & [Em Hmd] & Hin). exists m.
    split_and!; [done..| |done]. destruct (i_kind s I i n E) as (_ & H & _). specialize (H p Ep).
    unfold dir_at in H. by rewrite Em in H.
  - intros i n E Hd. by apply (i_links s I).
Qed.
Lemma builder_invariant_witness :
  let s := run demo_ops (fs_new K4) in
  Forall allowed demo_ops /\ length s.(nodes) = 8%nat /\
  (s.(path_index) !! "/h"%string = Some 5%nat <->
   exists n, s.(nodes) !! 5%nat = Some n /\ n.(deleted) = false /\ "/h"%string = mkpath (path_of (skel s.(nodes)) 5)).
Proof.
  assert (Ha : Forall allowed demo_ops) by (repeat constructor; vm_compute; discriminate).
  split; [exact Ha|]. split; [vm_compute; reflexivity|].
  apply (builder_invariant K4 demo_ops Ha).
Defined.

(** Adding a file and removing its path restores the file system: when the
    parent directory exists and the path is free, no path holds anything else
    than before. *)
Theorem add_remove_roundtrip s path data perm q :
  inv s -> components path <> [] -> abs s (components path) = None ->
  mkdir_ok (abs s) (removelast (components path)) = true ->
  abs s (removelast (components path)) <> None ->
  (exec_op (OAddFile path data perm) s).2 = Done tt -> Forall component q ->
  abs (exec_op (ORemove path) (exec_op (OAddFile path data perm) s).1).1 q = abs s q.
Proof.
  intros I Hne Hfree Hok Hpar Hrun Hq.
  pose proof (exec_op_refines s (OAddFile path data perm) I Logic.I) as H. unfold op_outcome in H.
  destruct (aspec _ _ _) as [m|] eqn:Es; [|destruct H as (er & H); by rewrite H in Hrun].
  destruct H as (s1 & -> & I1 & _ & Ha1). cbn [fst].
  pose proof (exec_op_refines s1 (ORemove path) I1 Hne) as (s2 & -> & _ & _ & Ha2). cbn [fst].
  rewrite Ha2 by done. unfold remove_below. pose proof (components_ok path) as Hcs.
  destruct (components_snoc path) as [|(cs & b & Ec & _ & _)]; [done|].
  unfold aspec in Es. destruct (_ <? _); [done|]. unfold put_leaf in Es.
  rewrite Ec, last_snoc, removelast_last in *. destruct (_ || _); [done|]. injection Es as <-.
  pose proof Hcs as [Hcs' _]%Forall_app. destruct (abs s cs) as [e|] eqn:Ecs; [|done].
  apply abs_some in Ecs as (i & n & Hn & Hpos & _); [|apply I|done].
  assert (Hup : abs s1 q = if decide (q = cs ++ [b]) then Some (leaf (CFile data) (mode_regular perm)) else abs s q).
  { rewrite Ha1 by done. unfold update. case_decide; [done|]. rewrite <- Hpos. by apply (live_mkdirs s i n). }
  destruct (decide (cs ++ [b] `prefix_of` q)) as [Hp|Hp].
  - symmetry. destruct (abs s q) as [x|] eqn:Ex; [|done]. exfalso.
    apply abs_some in Ex as (j & m & Hj & <- & _); [|apply I|done].
    destruct (ancestor_live s j m _ I Hj Hp) as (k & m' & Hk & Hpos' & _).
    assert (abs s (cs ++ [b]) = Some (entry m')); [|congruence]. apply abs_some; [apply I|done|eauto].
  - rewrite Hup. rewrite decide_False; [done|]. by intros ->.
Qed.
Lemma add_remove_roundtrip_witness :
  abs (exec_op (ORemove "/f") (exec_op (OAddFile "/f" [1; 2] 0) (fs_new K4)).1).1 ["lost+found"%string]
  = abs (fs_new K4) ["lost+found"%string].
Proof.
  apply (add_remove_roundtrip (fs_new K4) "/f" [1; 2] 0 ["lost+found"%string] (fs_new_inv K4));
    try (vm_compute; reflexivity); try (vm_compute; discriminate).
  apply Forall_cons. split; [|exact (Forall_nil_2 _)]. split; [discriminate|vm_compute; reflexivity].
Defined.
