(* ===== verification/Ext4Encode.v ===== *)
(** * Encoders of the ext4 image ([crates/ext4/src/builder.rs], free helpers)

    Directory blocks, extent trees, extended attributes and bitmaps, written
    into zeroed byte buffers.  Offsets and lengths ([usize]) are [Z]; a
    subtraction wraps at 64 bits and a slice out of range panics. *)
From S2P Require Import Prelude Ext4Layout Ext4Tree.

Definition E := exec Ext4Error.
Definition usub (a b : Z) : Z := wrap 64 (a - b).
Definition lenz {A} (l : list A) : Z := Z.of_nat (length l).
Definition name_bytes (s : string) : list Z := code <$> bytes s.

(** [buf[off..off + src.len()].copy_from_slice(src)]. *)
Definition blit (buf : list Z) (off : Z) (src : list Z) : E (list Z) :=
  if (0 <=? off) && (off + lenz src <=? lenz buf)
  then Done (take (Z.to_nat off) buf ++ src ++ drop (Z.to_nat (off + lenz src)) buf)
  else Panic.

(** ** Arithmetic helpers *)
Definition div_ceil_u64 (n d : Z) : Z := if n =? 0 then 0 else 1 + (n - 1) / d.
Definition div_ceil_u32 (n d : Z) : Z := if n =? 0 then 0 else 1 + (n - 1) / d.
Definition div_ceil_usize (n d : Z) : Z :=
  if n =? 0 then 0
  else let q := 1 + (n - 1) / d in if q <? 2 ^ 32 then q else max_uint 32.
Definition first_gdt_block_for_size (bs : BlockSize) : Z := if bs_bytes bs =? 1024 then 2 else 1.
(** [set_bit]: bits past the end of the buffer are ignored. *)
Definition set_bit (buf : list Z) (bit : Z) : list Z :=
  let byte := bit / 8 in
  let mask := Z.shiftl 1 (bit mod 8) in
  if byte <? lenz buf then alter (fun b => Z.lor b mask) (Z.to_nat byte) buf else buf.

(** ** Directory entries *)
Record DirEntrySpec := mk_dirent { de_inode : Z; de_name : string; de_type : Z }.

Definition dir_entry_min_len (nm : string) : Z :=
  let minimal := 8 + len nm in Z.land (minimal + 3) (Z.lnot 3).
Definition write_dir_entry (buf : list Z) (off block_size ino : Z) (nm : string) (ft : Z)
    (last_in_block : bool) : E (list Z * Z) :=
  let aligned := dir_entry_min_len nm in
  let rec_len := if last_in_block then usub block_size off else aligned in
  if (max_uint 16 <? rec_len) || (block_size <? off + rec_len)
  then Failed (DirEntryOverflow nm (Z.min rec_len (max_uint 16)))
  else
    let hdr := mk_dir_entry_header ino rec_len (wrap 8 (len nm)) ft in
    buf ← blit buf off (dir_entry_header_bytes hdr);
    buf ← blit buf (off + 8) (name_bytes nm);
    mret (buf, off + rec_len).
Definition write_dir_entry_tail (buf : list Z) (off block_size : Z) : E (list Z) :=
  if block_size <=? off then mret buf
  else
    let rec_len := block_size - off in
    if (rec_len <? 8) || (max_uint 16 <? rec_len)
    then Failed (DirEntryOverflow EmptyString (wrap 16 rec_len))
    else blit buf off (dir_entry_header_bytes (mk_dir_entry_header 0 rec_len 0 0)).

(** The inner loop of [write_directory_block]: one block is filled; the
    entries that are left go to the next one. *)
Fixpoint fill_block (bs : Z) (buf : list Z) (off : Z) (entries : list DirEntrySpec)
    : E (list Z * list DirEntrySpec) :=
  match entries with
  | [] => mret (buf, [])
  | entry :: rest =>
      let entry_len := dir_entry_min_len entry.(de_name) in
      if bs <? off + entry_len then
        if off =? 0
        then Failed (DirEntryOverflow entry.(de_name) (Z.min entry_len (max_uint 16)))
        else buf ← write_dir_entry_tail buf off bs; mret (buf, entries)
      else
        let next_fits :=
          match rest with
          | next :: _ => off + entry_len + dir_entry_min_len next.(de_name) <=? bs
          | [] => false
          end in
        let last_in_block := negb next_fits in
        '(buf, off) ← write_dir_entry buf off bs entry.(de_inode) entry.(de_name)
                        entry.(de_type) last_in_block;
        if last_in_block then mret (buf, rest) else fill_block bs buf off rest
  end.

(** The outer loop of [write_directory_block]: the blocks, in the order they
    are written.  Every round packs at least one entry. *)
Fixpoint pack_dir (fuel : nat) (bs : Z) (entries : list DirEntrySpec) : E (list (list Z)) :=
  match entries with
  | [] => mret []
  | _ =>
      match fuel with
      | O => Panic
      | S fuel =>
          '(buf, rest) ← fill_block bs (zeros (Z.to_nat bs)) 0 entries;
          blocks ← pack_dir fuel bs rest;
          mret (buf :: blocks)
      end
  end.

(** The loop of [directory_block_count]. *)
Fixpoint count_blocks (bs : Z) (names : list string) (blocks off : Z) : result Ext4Error Z :=
  match names with
  | [] => Ok blocks
  | nm :: names =>
      let entry_len := dir_entry_min_len nm in
      if bs <? entry_len then Err (DirEntryOverflow nm (Z.min entry_len (max_uint 16)))
      else if bs <? off + entry_len
      then count_blocks bs names (sat_add 32 blocks 1) entry_len
      else count_blocks bs names blocks (off + entry_len)
  end.

(** ** Extents *)
(** The loop of [split_contiguous_extent]; every round takes at least one
    block, so [remaining] rounds are enough. *)
Fixpoint split_loop (fuel : nat) (logical remaining disk max_len : Z) : list ExtentLeaf :=
  match fuel with
  | O => []
  | S fuel =>
      if 0 <? remaining then
        let l := wrap 16 (Z.min remaining max_len) in
        mk_extent_leaf logical l 0 disk
          :: split_loop fuel (wrap 32 (logical + l)) (remaining - l) (wrap 32 (disk + l)) max_len
      else []
  end.
Definition split_contiguous_extent (logical_start blocks disk_start max_blocks_per_extent : Z)
    : list ExtentLeaf :=
  split_loop (Z.to_nat blocks) logical_start blocks disk_start
    (Z.min max_blocks_per_extent MAX_BLOCKS_PER_EXTENT).
Definition extent_leaf_capacity (bs : BlockSize) : Z := (bs_bytes bs - 12) / 12.
Fixpoint write_leaves (buf : list Z) (off : Z) (extents : list ExtentLeaf) : E (list Z) :=
  match extents with
  | [] => mret buf
  | leaf :: extents =>
      buf ← blit buf off (extent_leaf_bytes leaf);
      write_leaves buf (off + 12) extents
  end.
Definition write_extent_leaf_block (extents : list ExtentLeaf) (bs : BlockSize) (buf : list Z)
    (path : string) : E (list Z) :=
  let capacity := extent_leaf_capacity bs in
  if capacity <? lenz extents then Failed (ExtentDepthExceeded path 1)
  else
    let hdr := mk_extent_header EXTENT_HEADER_MAGIC (wrap 16 (lenz extents)) (wrap 16 capacity) 0 0 in
    buf ← blit buf 0 (extent_header_bytes hdr);
    write_leaves buf 12 extents.
Definition encode_file_extent_root (i_block : list Z) (extents : list ExtentLeaf)
    (extent_leaf_block : option Z) (path : string) : E (list Z) :=
  if lenz extents <=? MAX_EXTENTS_PER_INODE then
    let hdr := mk_extent_header EXTENT_HEADER_MAGIC (wrap 16 (lenz extents))
                 (wrap 16 MAX_EXTENTS_PER_INODE) 0 0 in
    i_block ← blit i_block 0 (extent_header_bytes hdr);
    write_leaves i_block 12 extents
  else
    match extent_leaf_block with
    | None => Failed (Internal 0 "extent tree overflow but no leaf block was allocated")
    | Some leaf_block =>
        let hdr := mk_extent_header EXTENT_HEADER_MAGIC 1 (wrap 16 MAX_EXTENTS_PER_INODE) 1 0 in
        match extents with
        | [] => Failed (ExtentDepthExceeded path 1)
        | first :: _ =>
            let index := mk_extent_index first.(ee_block) leaf_block 0 0 in
            i_block ← blit i_block 0 (extent_header_bytes hdr);
            blit i_block 12 (extent_index_bytes index)
        end
    end.
Definition encode_inline_extent (i_block : list Z) (logical_start blocks disk_start : Z) : E (list Z) :=
  let extents := split_contiguous_extent logical_start blocks disk_start MAX_BLOCKS_PER_EXTENT in
  if MAX_EXTENTS_PER_INODE <? lenz extents then Failed (ExtentDepthExceeded EmptyString 0)
  else encode_file_extent_root i_block extents None EmptyString.

(** ** Extended attributes *)
Definition split_xattr_name (full : string) : Z * string :=
  match strip_prefix "user." full with
  | Some s => (1, s)
  | None =>
      if String.eqb full "system.posix_acl_access" then (2, EmptyString)
      else if String.eqb full "system.posix_acl_default" then (3, EmptyString)
      else
        match strip_prefix "trusted." full with
        | Some s => (4, s)
        | None =>
            match strip_prefix "security." full with
            | Some s => (6, s)
            | None => (0, full)
            end
        end
  end.
Definition round4 (n : Z) : Z := Z.land (n + 3) (Z.lnot 3).
(** [xattrs_fit_inline], in [u32] arithmetic. *)
Definition inline_need (xs : list Xattr) : Z :=
  wrap 32 (fold_left (fun need x =>
      let name_len := wrap 32 (len (split_xattr_name x.(xattr_name)).2) in
      wrap 32 (need + wrap 32 (wrap 32 (16 + wrap 32 (round4 name_len))
                               + wrap 32 (round4 (wrap 32 (lenz x.(xattr_value)))))))
    xs 4 + 4).
Definition xattrs_fit_inline (xs : list Xattr) : bool := inline_need xs <=? INODE_INLINE_XATTR_SIZE.

(** The loop shared by the two writers: entries grow forward from
    [entries_off], values backward from [value_end]; offsets are stored
    relative to [base]. *)
Fixpoint write_xattrs (what : string) (base : Z) (xs : list Xattr) (buf : list Z)
    (entries_off value_end : Z) : E (list Z) :=
  match xs with
  | [] => mret buf
  | x :: xs =>
      let '(index, suffix) := split_xattr_name x.(xattr_name) in
      let nlen := wrap 8 (len suffix) in
      let name_pad := sat_sub (round4 nlen) nlen in
      let entry_size := 16 + nlen + name_pad in
      let vlen := lenz x.(xattr_value) in
      let value_total := vlen + sat_sub (round4 vlen) vlen in
      if value_end <? value_total then Failed (Internal 0 what)
      else
        let offs := value_end - value_total in
        let e := mk_xattr_entry nlen index (wrap 16 offs) 0 (wrap 32 vlen) 0 in
        buf ← blit buf entries_off (xattr_entry_bytes e);
        buf ← (if len suffix =? nlen then blit buf (entries_off + 16) (name_bytes suffix) else Panic);
        buf ← blit buf (base + offs) x.(xattr_value);
        write_xattrs what base xs buf (entries_off + entry_size) offs
  end.
Definition write_xattr_inline (xs : list Xattr) (buf : list Z) : E (list Z) :=
  let region_len := lenz buf in
  buf ← blit buf 0 (le 4 XATTR_IBODY_MAGIC);
  write_xattrs "inline xattr value region overflow" 4 xs buf 4 (usub region_len 4).
Definition write_xattr_block (xs : list Xattr) (buf : list Z) : E (list Z) :=
  let block_len := lenz buf in
  buf ← blit buf 0 (le 4 XATTR_MAGIC);
  buf ← blit buf 4 (le 4 1);
  buf ← blit buf 8 (le 4 1);
  write_xattrs "block xattr value region overflow" 0 xs buf 32 block_len.
