(* ===== verification/Ext4DirCodec.v ===== *)
(** * Directory blocks read back

    A reader of linear directory blocks, as a kernel walks them by record
    length, and the proof that what the builder packs is read back entry by
    entry, in the number of blocks its estimate counts. *)
From S2P Require Import Prelude Ext4Layout Ext4Tree Ext4Encode.

(** ** Writing at the end of a filled prefix *)
Lemma lenz_app {A} (l l' : list A) : lenz (l ++ l') = lenz l + lenz l'.
Proof. unfold lenz. rewrite length_app. lia. Qed.
Lemma lenz_nonneg {A} (l : list A) : 0 <= lenz l.
Proof. unfold lenz. lia. Qed.
Lemma zeros_app a b : zeros a ++ zeros b = zeros (a + b).
Proof. unfold zeros. by rewrite replicate_add. Qed.
Lemma blit_prefix pre src n :
  (length src <= n)%nat ->
  blit (pre ++ zeros n) (lenz pre) src = Done (pre ++ src ++ zeros (n - length src)).
Proof.
  intros H. unfold blit. rewrite lenz_app.
  assert ((0 <=? lenz pre) && (lenz pre + lenz src <=? lenz pre + lenz (zeros n)) = true) as ->.
  { unfold lenz. rewrite length_zeros. lia. }
  f_equal. unfold lenz. rewrite Nat2Z.id, take_app_length.
  replace (Z.to_nat (Z.of_nat (length pre) + Z.of_nat (length src)))
    with (length pre + length src)%nat by lia.
  rewrite drop_app_add. unfold zeros. by rewrite drop_replicate.
Qed.
Lemma length_name_bytes nm : lenz (name_bytes nm) = len nm.
Proof.
  unfold lenz, name_bytes, len, bytes. rewrite length_fmap. f_equal.
  induction nm; cbn; congruence.
Qed.

(** ** Names and their bytes *)
Definition string_of_bytes (l : list Z) : string :=
  String.string_of_list_ascii ((fun z => ascii_of_N (Z.to_N z)) <$> l).
Lemma string_of_name_bytes nm : string_of_bytes (name_bytes nm) = nm.
Proof.
  unfold string_of_bytes, name_bytes, bytes. induction nm as [|c nm IH]; [done|].
  cbn [String.list_ascii_of_string]. rewrite !fmap_cons. cbn [String.string_of_list_ascii].
  rewrite IH. f_equal. unfold code. by rewrite N2Z.id, ascii_N_embedding.
Qed.

(** ** Records *)
Definition dirent_ok (e : DirEntrySpec) : Prop :=
  0 < e.(de_inode) < 2 ^ 32 /\ 1 <= len e.(de_name) <= 255 /\ in_uint 8 e.(de_type).
Definition dirent_bytes (e : DirEntrySpec) (r : Z) : list Z :=
  dir_entry_header_bytes (mk_dir_entry_header e.(de_inode) r (len e.(de_name)) e.(de_type))
  ++ name_bytes e.(de_name) ++ zeros (Z.to_nat (r - 8 - len e.(de_name))).
Lemma length_dirent e r :
  8 + len e.(de_name) <= r -> lenz (dirent_bytes e r) = r.
Proof.
  intros H. unfold dirent_bytes, dir_entry_header_bytes. rewrite !lenz_app, length_name_bytes.
  unfold lenz. rewrite !length_le, length_zeros. cbn [rec_len Ext4Layout.inode name_len file_type]. lia.
Qed.

Lemma land_lnot3 n : 0 <= n -> Z.land n (Z.lnot 3) = 4 * (n / 4).
Proof.
  intros H. change 3 with (Z.ones 2). rewrite <- Z.ldiff_land, Z.ldiff_ones_r by lia.
  rewrite Z.shiftl_mul_pow2, Z.shiftr_div_pow2 by lia. change (2 ^ 2) with 4. lia.
Qed.
Lemma len_nonneg s : 0 <= len s.
Proof. unfold len. lia. Qed.
Lemma min_len_eq nm : dir_entry_min_len nm = 4 * ((11 + len nm) / 4).
Proof.
  unfold dir_entry_min_len. pose proof (len_nonneg nm). rewrite land_lnot3 by lia. f_equal. f_equal. lia.
Qed.
Lemma min_len_bounds nm :
  8 + len nm <= dir_entry_min_len nm < 12 + len nm /\ dir_entry_min_len nm mod 4 = 0.
Proof.
  rewrite min_len_eq. pose proof (len_nonneg nm).
  pose proof (Z.div_mod (11 + len nm) 4). pose proof (Z.mod_pos_bound (11 + len nm) 4).
  split; [lia|]. rewrite Z.mul_comm. apply Z.mod_mul. lia.
Qed.

Lemma write_dir_entry_spec pre bs e (l : bool) :
  dirent_ok e -> bs <= max_uint 16 ->
  lenz pre + dir_entry_min_len e.(de_name) <= bs ->
  let off := lenz pre in
  let r := if l then bs - off else dir_entry_min_len e.(de_name) in
  write_dir_entry (pre ++ zeros (Z.to_nat (bs - off))) off bs e.(de_inode) e.(de_name) e.(de_type) l
  = Done (pre ++ dirent_bytes e r ++ zeros (Z.to_nat (bs - off - r)), off + r).
Proof.
  intros (Hi & Hn & Ht) Hbs Hfit off r. pose proof (min_len_bounds e.(de_name)) as [Hm _].
  pose proof (lenz_nonneg pre). unfold write_dir_entry, usub.
  assert ((if l then wrap 64 (bs - off) else dir_entry_min_len (de_name e)) = r) as ->.
  { unfold r. destruct l; [|done]. unfold wrap, max_uint in *. apply Z.mod_small.
    split; [fold off in Hfit; lia|]. change (2 ^ 64) with 18446744073709551616. change (2 ^ 16) with 65536 in Hbs. lia. }
  assert (Hr : 8 + len e.(de_name) <= r <= bs - off) by (unfold r; destruct l; fold off in Hfit; lia).
  assert ((max_uint 16 <? r) || (bs <? off + r) = false) as ->.
  { unfold max_uint in *. lia. }
  assert (wrap 8 (len (de_name e)) = len (de_name e)) as ->.
  { unfold wrap. apply Z.mod_small. change (2 ^ 8) with 256. lia. }
  set (hdr := dir_entry_header_bytes _).
  assert (Hh : length hdr = 8%nat) by (unfold hdr, dir_entry_header_bytes; by rewrite !length_app, !length_le).
  unfold off at 1 2. rewrite blit_prefix by lia. cbn [mbind exec_bind]. fold off.
  rewrite app_assoc. replace (off + 8) with (lenz (pre ++ hdr)) by (unfold lenz, off in *; rewrite length_app; unfold lenz; lia).
  assert (Hnb : length (name_bytes e.(de_name)) = Z.to_nat (len e.(de_name))).
  { pose proof (length_name_bytes e.(de_name)). unfold lenz in *. lia. }
  rewrite blit_prefix by lia. cbn [mbind exec_bind mret exec_ret]. f_equal. f_equal.
  unfold dirent_bytes. fold hdr. rewrite <- !app_assoc. do 3 f_equal.
  rewrite zeros_app. f_equal. lia.
Qed.

(** ** Reading a block *)
Fixpoint read_dir (fuel : nat) (buf : list Z) : option (list DirEntrySpec) :=
  match buf with
  | [] => Some []
  | _ =>
      match fuel with
      | O => None
      | S fuel =>
          let ino := from_le (take 4 buf) in
          let r := from_le (take 2 (drop 4 buf)) in
          let nl := from_le (take 1 (drop 6 buf)) in
          let ft := from_le (take 1 (drop 7 buf)) in
          if (r <? 8 + nl) || (lenz buf <? r) || negb (r mod 4 =? 0) then None
          else
            rest ← read_dir fuel (drop (Z.to_nat r) buf);
            Some (if ino =? 0 then rest
                  else mk_dirent ino (string_of_bytes (take (Z.to_nat nl) (drop 8 buf))) ft :: rest)
      end
  end.

Lemma read_dirent f e r tail :
  dirent_ok e -> 8 + len e.(de_name) <= r < 2 ^ 16 -> r mod 4 = 0 ->
  read_dir (S f) (dirent_bytes e r ++ tail) = cons e <$> read_dir f tail.
Proof.
  intros (Hi & Hn & Ht) Hr Hr4. pose proof (length_dirent e r ltac:(lia)) as Hlen.
  assert (Hd : drop (Z.to_nat r) (dirent_bytes e r ++ tail) = tail).
  { replace (Z.to_nat r) with (length (dirent_bytes e r)) by (unfold lenz in Hlen; lia).
    apply drop_app_length. }
  assert (Hl : (lenz (dirent_bytes e r ++ tail) <? r) = false).
  { rewrite lenz_app, Hlen. pose proof (lenz_nonneg tail). lia. }
  revert Hd Hl. unfold dirent_bytes, dir_entry_header_bytes.
  cbn [Ext4Layout.inode rec_len name_len file_type]. rewrite <- !app_assoc.
  set (B := le 4 _ ++ _). intros Hd Hl.
  assert (Hne : B <> []) by (unfold B; cbn; done).
  assert (H1 : take 4 B = le 4 e.(de_inode)) by done.
  assert (H2 : take 2 (drop 4 B) = le 2 r) by done.
  assert (H3 : take 1 (drop 6 B) = le 1 (len e.(de_name))) by done.
  assert (H4 : take 1 (drop 7 B) = le 1 e.(de_type)) by done.
  assert (H5 : take (Z.to_nat (len e.(de_name))) (drop 8 B) = name_bytes e.(de_name)).
  { change (drop 8 B) with (name_bytes (de_name e) ++ zeros (Z.to_nat (r - 8 - len (de_name e))) ++ tail).
    apply take_app_length'. pose proof (length_name_bytes e.(de_name)). unfold lenz in *. lia. }
  clearbody B. destruct B as [|z B]; [done|]. cbn [read_dir].
  rewrite H1, H2, H3, H4, !from_le_le by (unfold in_uint in *; cbn; lia).
  rewrite Hl, Hd, H5, string_of_name_bytes.
  assert ((r <? 8 + len (de_name e)) || false || negb (r mod 4 =? 0) = false) as -> by (rewrite Hr4; cbn; lia).
  assert ((de_inode e =? 0) = false) as -> by lia.
  destruct (read_dir f tail) as [rest|]; [|done]. cbn. f_equal. f_equal. by destruct e.
Qed.

Definition names (es : list DirEntrySpec) : list string := de_name <$> es.
(** Counting resumes at an empty block for the entries that are left. *)
Definition count_rest bs (rest : list DirEntrySpec) b : result Ext4Error Z :=
  match rest with [] => Ok b | _ => count_blocks bs (names rest) (sat_add 32 b 1) 0 end.
Lemma dirent_min_len e : dirent_ok e -> 0 < dir_entry_min_len e.(de_name) <= 266.
Proof. intros (_ & Hn & _). pose proof (min_len_bounds e.(de_name)) as [? _]. lia. Qed.

Section Filling.
Context (bs : Z) (Hbs : 512 <= bs < 2 ^ 16) (Hbs4 : bs mod 4 = 0).

(** The outcome of filling a block behind [pre]. *)
Definition filled (pre : list Z) (entries : list DirEntrySpec) : Prop :=
  exists recs taken left,
    fill_block bs (pre ++ zeros (Z.to_nat (bs - lenz pre))) (lenz pre) entries
      = Done (pre ++ recs, left) /\
    lenz (pre ++ recs) = bs /\ entries = taken ++ left /\ taken <> [] /\
    (forall f, (length taken <= f)%nat -> read_dir f recs = Some taken) /\
    (forall b, count_blocks bs (names entries) b (lenz pre) = count_rest bs left b).
Definition next_fits (off : Z) (rest : list DirEntrySpec) : bool :=
  match rest with next :: _ => off + dir_entry_min_len next.(de_name) <=? bs | [] => false end.

Lemma fill_step pre entry rest :
  dirent_ok entry -> lenz pre + dir_entry_min_len entry.(de_name) <= bs ->
  let off := lenz pre in
  let l := negb (next_fits (off + dir_entry_min_len entry.(de_name)) rest) in
  let r := if l then bs - off else dir_entry_min_len entry.(de_name) in
  let pre' := pre ++ dirent_bytes entry r in
  fill_block bs (pre ++ zeros (Z.to_nat (bs - off))) off (entry :: rest)
  = (if l then Done (pre', rest)
     else fill_block bs (pre' ++ zeros (Z.to_nat (bs - lenz pre'))) (lenz pre') rest)
  /\ lenz pre' = off + r.
Proof using Hbs.
  intros He Hfit off l r pre'. pose proof (min_len_bounds entry.(de_name)) as [Hmin _].
  assert (Hl : lenz pre' = off + r).
  { unfold pre'. rewrite lenz_app, length_dirent; [done|]. unfold r. destruct l; fold off in Hfit; lia. }
  split; [|done]. cbn [fill_block]. fold off in Hfit. assert ((bs <? off + dir_entry_min_len (de_name entry)) = false) as -> by lia.
  assert (negb match rest with
     | [] => false
     | next :: _ => off + dir_entry_min_len (de_name entry) + dir_entry_min_len (de_name next) <=? bs
     end = l) as -> by by destruct rest.
  unfold off. rewrite (write_dir_entry_spec pre bs entry l) by (done || unfold max_uint; fold off; lia).
  fold off. change (if l then bs - off else dir_entry_min_len (de_name entry)) with r.
  cbn [mbind exec_bind]. rewrite app_assoc. fold pre'. rewrite Hl. destruct l.
  - unfold r. replace (bs - off - (bs - off)) with 0 by lia. cbn. by rewrite app_nil_r.
  - by rewrite Z.sub_add_distr.
Qed.
Lemma count_step entry rest b off :
  dirent_ok entry -> off + dir_entry_min_len entry.(de_name) <= bs ->
  0 <= off -> Forall dirent_ok rest ->
  count_blocks bs (names (entry :: rest)) b off
  = if next_fits (off + dir_entry_min_len entry.(de_name)) rest
    then count_blocks bs (names rest) b (off + dir_entry_min_len entry.(de_name))
    else count_rest bs rest b.
Proof using Hbs.
  intros He Hfit Hoff Hrest. pose proof (dirent_min_len entry He). unfold names. rewrite fmap_cons.
  cbn [count_blocks].
  assert ((bs <? dir_entry_min_len (de_name entry)) = false) as -> by lia.
  assert ((bs <? off + dir_entry_min_len (de_name entry)) = false) as -> by lia.
  destruct rest as [|next rest]; [done|]. cbn [next_fits]. destruct (Z.leb_spec (off + dir_entry_min_len (de_name entry) + dir_entry_min_len (de_name next)) bs); [done|].
  apply Forall_cons in Hrest as [Hn _]. pose proof (dirent_min_len next Hn).
  unfold count_rest, names. rewrite fmap_cons. cbn [count_blocks].
  assert ((bs <? dir_entry_min_len (de_name next)) = false) as -> by lia.
  assert ((bs <? off + dir_entry_min_len (de_name entry) + dir_entry_min_len (de_name next)) = true) as -> by lia.
  rewrite Z.add_0_l. by assert ((bs <? dir_entry_min_len (de_name next)) = false) as -> by lia.
Qed.
Lemma fill_block_spec entry rest pre :
  Forall dirent_ok (entry :: rest) -> lenz pre mod 4 = 0 ->
  lenz pre + dir_entry_min_len entry.(de_name) <= bs -> filled pre (entry :: rest).
Proof using Hbs Hbs4.
  revert entry pre. induction rest as [|next rest IH]; intros entry pre [He Hrest]%Forall_cons Hpre Hfit;
    pose proof (lenz_nonneg pre) as Hpre0; pose proof (min_len_bounds entry.(de_name)) as [Hmin Hmin4];
    pose proof (fill_step pre entry) as Hstep; pose proof (count_step entry) as Hcount;
    assert (Hlast4 : (bs - lenz pre) mod 4 = 0) by (rewrite Zminus_mod, Hbs4, Hpre; done).
  - destruct (Hstep [] He Hfit) as [Hf Hl]. cbn [next_fits negb] in Hf, Hl. eexists _, [entry], [].
    split; [exact Hf|]. split; [rewrite Hl; lia|]. split; [done|]. split; [done|]. split.
    + intros [|f] Hle; [cbn in Hle; lia|]. rewrite <- (app_nil_r (dirent_bytes _ _)), read_dirent by (done || lia).
      by destruct f.
    + intros b. by rewrite Hcount by done.
  - destruct (Hstep (next :: rest) He Hfit) as [Hf Hl]. unfold filled. setoid_rewrite Hf.
    setoid_rewrite (fun b => Hcount (next :: rest) b _ He Hfit Hpre0 Hrest).
    destruct (next_fits _ (next :: rest)) eqn:Hnf; cbn [negb] in *.
    + set (pre' := pre ++ dirent_bytes entry (dir_entry_min_len entry.(de_name))) in *. destruct (IH next pre') as (recs & taken & left & Hrun & Hlen & Heq & _ & Hread & Hc).
      * done.
      * fold pre' in Hl. rewrite Hl, Zplus_mod, Hpre, Hmin4. done.
      * fold pre' in Hl. rewrite Hl. cbn [next_fits] in Hnf. lia.
      * exists (dirent_bytes entry (dir_entry_min_len entry.(de_name)) ++ recs), (entry :: taken), left.
        unfold pre' in *. rewrite app_assoc. split; [exact Hrun|]. split; [exact Hlen|].
        split; [by rewrite Heq|]. split; [done|]. split.
        -- intros [|f] Hle; [cbn in Hle; lia|]. rewrite read_dirent by (done || lia).
           by rewrite Hread by (cbn in Hle; lia).
        -- intros b. rewrite <- Hc. by rewrite Hl.
    + eexists _, [entry], (next :: rest). split; [done|]. split; [rewrite Hl; lia|]. split; [done|].
      split; [done|]. split; [|done]. intros [|f] Hle; [cbn in Hle; lia|].
      rewrite <- (app_nil_r (dirent_bytes _ _)), read_dirent by (done || lia). by destruct f.
Qed.
End Filling.

Lemma pack_dir_spec bs fuel entries b :
  512 <= bs < 2 ^ 16 -> bs mod 4 = 0 -> Forall dirent_ok entries -> entries <> [] ->
  (length entries <= fuel)%nat -> 0 <= b -> b + lenz entries < 2 ^ 32 ->
  exists blocks,
    pack_dir fuel bs entries = Done blocks /\ Forall (fun block => lenz block = bs) blocks /\
    (forall f, (length entries <= f)%nat -> mapM (read_dir f) blocks ≫= (fun l => Some (mjoin l)) = Some entries) /\
    0 < lenz blocks <= lenz entries /\
    count_blocks bs (names entries) (b + 1) 0 = Ok (b + lenz blocks).
Proof.
  intros Hbs Hbs4. revert entries b. induction fuel as [|fuel IH]; intros entries b Hok Hne Hf Hb Hlt.
  { destruct entries; [done|cbn in Hf; lia]. }
  destruct entries as [|entry rest]; [done|]. pose proof Hok as [He _]%Forall_cons.
  destruct (fill_block_spec bs Hbs Hbs4 entry rest [] Hok) as (recs & taken & left & Hrun & Hlen & Heq & Htk & Hread & Hc).
  { done. }
  { pose proof (dirent_min_len entry He). change (lenz (@nil Z)) with 0. lia. }
  cbn [app] in *. change (lenz (@nil Z)) with 0 in *. rewrite Z.sub_0_r in Hrun.
  cbn [pack_dir]. rewrite Hrun. cbn [mbind exec_bind]. rewrite Hc. rewrite Heq in Hok, Hf, Hlt |- *.
  rewrite length_app in Hf. rewrite lenz_app in Hlt |- *. apply Forall_app in Hok as [_ Hleft].
  assert (0 < length taken)%nat by (destruct taken; cbn; lia || done).
  destruct left as [|e left].
  - exists [recs]. rewrite app_nil_r in *. cbn [pack_dir]. destruct fuel; cbn [mbind exec_bind mret exec_ret].
    all: split; [done|]; split; [by apply Forall_singleton|]; split;
      [intros f Hle; cbn; rewrite Hread by done; cbn; by rewrite app_nil_r|];
      split; [unfold lenz in *; cbn; lia|]; cbn; f_equal; unfold lenz in *; cbn; lia.
  - destruct (IH (e :: left) (b + 1)) as (blocks & Hp & Hl & Hr & Hpos & Hcnt); [done..| |lia| |].
    { cbn in *. lia. }
    { unfold lenz in *. lia. }
    rewrite Hp. cbn [mbind exec_bind mret exec_ret]. exists (recs :: blocks). split; [done|].
    split; [by apply Forall_cons|]. split; [|split].
    + intros f Hle. rewrite length_app in Hle. cbn [mapM]. rewrite Hread by (cbn in Hle; lia).
      specialize (Hr f ltac:(cbn in *; lia)). destruct (mapM (read_dir f) blocks) as [l|]; [|done].
      cbn in *. injection Hr as Hr. by rewrite <- Hr.
    + unfold lenz in *. cbn [length] in *. lia.
    + cbn [count_rest]. unfold sat_add, max_uint. rewrite Z.min_l by (unfold lenz in *; lia).
      rewrite Hcnt. f_equal. unfold lenz. cbn [length]. lia.
Qed.
Lemma bs_bytes_ok bs : 512 <= bs_bytes bs < 2 ^ 16 /\ bs_bytes bs mod 4 = 0.
Proof. destruct bs; cbn; split; reflexivity || lia. Qed.

(** C28: a directory survives packing: for every non-empty list of entries
    with non-zero 32-bit inodes and names of 1 to 255 bytes, packing ends
    without error in whole blocks, walking the blocks by record length reads
    back exactly the entries in order, and the number of blocks is the one
    [directory_block_count] computes. *)
Theorem directory_roundtrip bs entries :
  Forall dirent_ok entries -> entries <> [] -> lenz entries < 2 ^ 32 ->
  exists blocks,
    pack_dir (length entries) (bs_bytes bs) entries = Done blocks /\
    Forall (fun block => lenz block = bs_bytes bs) blocks /\
    mapM (read_dir (length entries)) blocks ≫= (fun l => Some (mjoin l)) = Some entries /\
    count_blocks (bs_bytes bs) (names entries) 1 0 = Ok (lenz blocks).
Proof.
  intros Hok Hne Hlt. destruct (bs_bytes_ok bs) as [Hbs Hbs4].
  destruct (pack_dir_spec (bs_bytes bs) (length entries) entries 0) as (blocks & H1 & H2 & H3 & _ & H4);
    try done.
  exists blocks. split_and!; [done..|by apply H3|exact H4].
Qed.
Definition demo_entries : list DirEntrySpec :=
  [mk_dirent 2 "." 2; mk_dirent 2 ".." 2; mk_dirent 11 "lost+found" 2; mk_dirent 12 "hello" 1].
Lemma directory_roundtrip_witness :
  exists blocks,
    pack_dir 4 4096 demo_entries = Done blocks /\ Forall (fun block => lenz block = 4096) blocks /\
    mapM (read_dir 4) blocks ≫= (fun l => Some (mjoin l)) = Some demo_entries /\
    count_blocks 4096 (names demo_entries) 1 0 = Ok (lenz blocks).
Proof.
  apply (directory_roundtrip K4 demo_entries); [|discriminate|reflexivity].
  repeat constructor; vm_compute; congruence.
Defined.
