(* ===== verification/Ext4ExtentCodec.v ===== *)
(** * Extent trees read back

    A reader that resolves a logical block through an inode's [i_block] area
    (inline extents, or one index to a leaf block), and the proof that the
    trees the builder encodes resolve every block of a file to the place it
    was written. *)
From S2P Require Import Prelude Ext4Layout Ext4Tree Ext4Encode Ext4DirCodec.

(** ** Splitting a contiguous run *)
(** The extents cover [[logical, logical + n)] in order, without gap or
    overlap, each mapped to the matching part of [[disk, disk + n)]. *)
Fixpoint tiles (max logical disk n : Z) (es : list ExtentLeaf) : Prop :=
  match es with
  | [] => n = 0
  | e :: es =>
      e.(ee_block) = logical /\ e.(ee_start_lo) = disk /\ e.(ee_start_hi) = 0 /\
      1 <= e.(ee_len) <= max /\ e.(ee_len) <= n /\
      tiles max (logical + e.(ee_len)) (disk + e.(ee_len)) (n - e.(ee_len)) es
  end.
Lemma split_loop_tiles fuel logical n disk max :
  0 <= n <= Z.of_nat fuel -> 1 <= max <= 2 ^ 15 -> 0 <= logical -> 0 <= disk ->
  logical + n < 2 ^ 32 -> disk + n < 2 ^ 32 ->
  tiles max logical disk n (split_loop fuel logical n disk max).
Proof.
  revert logical n disk. induction fuel as [|fuel IH]; intros logical n disk Hn Hmax Hl Hd Hln Hdn.
  { cbn. lia. }
  cbn [split_loop]. destruct (Z.ltb_spec 0 n); [|cbn; lia].
  assert (wrap 16 (Z.min n max) = Z.min n max) as ->.
  { unfold wrap. change (2 ^ 15) with 32768 in Hmax. change (2 ^ 16) with 65536. apply Z.mod_small. lia. }
  cbn [tiles ee_block ee_start_lo ee_start_hi ee_len].
  unfold wrap. rewrite !Z.mod_small by lia. split_and!; try lia. apply IH; lia.
Qed.
Lemma split_loop_count fuel logical n disk max :
  0 <= n <= Z.of_nat fuel -> 1 <= max <= 2 ^ 15 ->
  lenz (split_loop fuel logical n disk max) = div_ceil_u32 n max.
Proof.
  revert logical n disk. induction fuel as [|fuel IH]; intros logical n disk Hn Hmax.
  { assert (n = 0) as -> by lia. done. }
  cbn [split_loop]. destruct (Z.ltb_spec 0 n) as [Hpos|]; [|assert (n = 0) as -> by lia; done].
  assert (wrap 16 (Z.min n max) = Z.min n max) as ->.
  { unfold wrap. change (2 ^ 15) with 32768 in Hmax. change (2 ^ 16) with 65536. apply Z.mod_small. lia. }
  unfold lenz. cbn [length]. rewrite Nat2Z.inj_succ. fold (lenz (split_loop fuel
    (wrap 32 (logical + Z.min n max)) (n - Z.min n max) (wrap 32 (disk + Z.min n max)) max)).
  rewrite IH by lia. unfold div_ceil_u32. destruct (Z.eqb_spec n 0); [lia|].
  destruct (Z.le_gt_cases n max).
  - rewrite Z.min_l, Z.sub_diag by lia. cbn. rewrite Z.div_small by lia. lia.
  - rewrite Z.min_r by lia. destruct (Z.eqb_spec (n - max) 0); [lia|].
    replace (n - 1) with (n - max - 1 + 1 * max) by lia. rewrite Z.div_add by lia. lia.
Qed.

(** The block a list of extents maps [k] to. *)
Fixpoint map_block (es : list ExtentLeaf) (k : Z) : option Z :=
  match es with
  | [] => None
  | e :: es =>
      if (e.(ee_block) <=? k) && (k <? e.(ee_block) + e.(ee_len))
      then Some (e.(ee_start_hi) * 2 ^ 32 + e.(ee_start_lo) + (k - e.(ee_block)))
      else map_block es k
  end.
Lemma tiles_map max logical disk n es k :
  tiles max logical disk n es ->
  map_block es k = if (logical <=? k) && (k <? logical + n) then Some (disk + (k - logical)) else None.
Proof.
  revert logical disk n. induction es as [|e es IH]; intros logical disk n; cbn [tiles map_block].
  - intros ->. assert ((logical <=? k) && (k <? logical + 0) = false) as -> by lia. done.
  - intros (Hb & Hs & Hh & Hl & Hn & Ht). rewrite Hb, Hs, Hh.
    destruct ((logical <=? k) && (k <? logical + ee_len e)) eqn:E1.
    + assert ((logical <=? k) && (k <? logical + n) = true) as -> by lia. f_equal; lia.
    + rewrite (IH _ _ _ Ht).
      destruct ((logical + ee_len e <=? k) && (k <? logical + ee_len e + (n - ee_len e))) eqn:E2.
      * assert ((logical <=? k) && (k <? logical + n) = true) as -> by lia. f_equal; lia.
      * assert ((logical <=? k) && (k <? logical + n) = false) as -> by lia. done.
Qed.
Lemma tiles_sum max logical disk n es : tiles max logical disk n es -> sumZ ee_len es = n.
Proof.
  revert logical disk n. induction es as [|e es IH]; intros logical disk n; cbn [tiles sumZ].
  - done.
  - intros (_ & _ & _ & _ & _ & Ht). apply IH in Ht. lia.
Qed.
(** Every field of a tiling extent fits its width. *)
Definition leaf_ok (e : ExtentLeaf) : Prop :=
  in_uint 32 e.(ee_block) /\ in_uint 16 e.(ee_len) /\ in_uint 16 e.(ee_start_hi) /\ in_uint 32 e.(ee_start_lo).
Lemma tiles_ok max logical disk n es :
  max < 2 ^ 16 -> 0 <= logical -> 0 <= disk -> logical + n < 2 ^ 32 -> disk + n < 2 ^ 32 ->
  tiles max logical disk n es -> Forall leaf_ok es.
Proof.
  intros Hm. revert logical disk n. induction es as [|e es IH]; intros logical disk n Hl Hd Hln Hdn; [done|].
  cbn [tiles]. intros (Hb & Hs & Hh & Hle & Hn & Ht). apply Forall_cons. split.
  - unfold leaf_ok, in_uint. rewrite Hb, Hs, Hh. lia.
  - refine (IH _ _ _ _ _ _ _ Ht); lia.
Qed.

(** ** Reading extent nodes *)
Definition u16_at (off : nat) (b : list Z) : Z := from_le (take 2 (drop off b)).
Definition u32_at (off : nat) (b : list Z) : Z := from_le (take 4 (drop off b)).
Definition read_leaf (b : list Z) : ExtentLeaf :=
  mk_extent_leaf (u32_at 0 b) (u16_at 4 b) (u16_at 6 b) (u32_at 8 b).
Fixpoint read_leaves (n : nat) (b : list Z) : list ExtentLeaf :=
  match n with O => [] | S n => read_leaf b :: read_leaves n (drop 12 b) end.
(** Resolve logical block [k] through a root node; [fetch] reads a block. *)
Definition resolve (root : list Z) (fetch : Z -> list Z) (k : Z) : option Z :=
  if negb (u16_at 0 root =? EXTENT_HEADER_MAGIC) then None
  else if u16_at 6 root =? 0 then map_block (read_leaves (Z.to_nat (u16_at 2 root)) (drop 12 root)) k
  else
    let node := fetch (u32_at 4 (drop 12 root)) in
    if negb (u16_at 0 node =? EXTENT_HEADER_MAGIC) || negb (u16_at 6 node =? 0) then None
    else map_block (read_leaves (Z.to_nat (u16_at 2 node)) (drop 12 node)) k.

Definition leaves_bytes (es : list ExtentLeaf) : list Z := mjoin (extent_leaf_bytes <$> es).
Lemma length_leaf e : length (extent_leaf_bytes e) = 12%nat.
Proof. unfold extent_leaf_bytes. by rewrite !length_app, !length_le. Qed.
Lemma leaves_cons e es : leaves_bytes (e :: es) = extent_leaf_bytes e ++ leaves_bytes es.
Proof. done. Qed.
Lemma length_leaves es : length (leaves_bytes es) = (12 * length es)%nat.
Proof.
  induction es as [|e es IH]; [done|]. rewrite leaves_cons.
  rewrite length_app, length_leaf, IH. cbn [length]. lia.
Qed.
Lemma read_leaf_bytes e tail : leaf_ok e -> read_leaf (extent_leaf_bytes e ++ tail) = e.
Proof.
  intros (H1 & H2 & H3 & H4). unfold read_leaf, u32_at, u16_at.
  change (take 4 (drop 0 (extent_leaf_bytes e ++ tail))) with (le 4 e.(ee_block)).
  change (take 2 (drop 4 (extent_leaf_bytes e ++ tail))) with (le 2 e.(ee_len)).
  change (take 2 (drop 6 (extent_leaf_bytes e ++ tail))) with (le 2 e.(ee_start_hi)).
  change (take 4 (drop 8 (extent_leaf_bytes e ++ tail))) with (le 4 e.(ee_start_lo)).
  rewrite !from_le_le by done. by destruct e.
Qed.
Lemma read_leaves_bytes es tail : Forall leaf_ok es -> read_leaves (length es) (leaves_bytes es ++ tail) = es.
Proof.
  induction 1 as [|e es He Hes IH]; [done|]. cbn [read_leaves length].
  rewrite leaves_cons, <- app_assoc.
  rewrite read_leaf_bytes by done. f_equal. rewrite <- (length_leaf e), drop_app_length. exact IH.
Qed.
Lemma write_leaves_spec es pre n :
  (12 * length es <= n)%nat ->
  write_leaves (pre ++ zeros n) (lenz pre) es = Done (pre ++ leaves_bytes es ++ zeros (n - 12 * length es)).
Proof.
  revert pre n. induction es as [|e es IH]; intros pre n Hn; cbn [write_leaves].
  { by rewrite Nat.sub_0_r. }
  cbn [length] in Hn. rewrite blit_prefix by (rewrite length_leaf; lia). cbn [mbind exec_bind].
  rewrite app_assoc. replace (lenz pre + 12) with (lenz (pre ++ extent_leaf_bytes e))
    by (rewrite lenz_app; unfold lenz; rewrite length_leaf; lia).
  rewrite length_leaf, IH by lia. rewrite leaves_cons, <- !app_assoc. do 4 f_equal. cbn [length]. f_equal. lia.
Qed.

(** ** Encoded nodes *)
Definition node_bytes (mx : Z) (es : list ExtentLeaf) (tail : list Z) : list Z :=
  extent_header_bytes (mk_extent_header EXTENT_HEADER_MAGIC (lenz es) mx 0 0) ++ leaves_bytes es ++ tail.
Lemma read_node mx es tail :
  Forall leaf_ok es -> lenz es < 2 ^ 16 ->
  u16_at 0 (node_bytes mx es tail) = EXTENT_HEADER_MAGIC /\ u16_at 6 (node_bytes mx es tail) = 0 /\
  read_leaves (Z.to_nat (u16_at 2 (node_bytes mx es tail))) (drop 12 (node_bytes mx es tail)) = es.
Proof.
  intros Hok Hlen. split; [done|]. split; [done|].
  assert (u16_at 2 (node_bytes mx es tail) = lenz es) as ->.
  { transitivity (from_le (le 2 (lenz es))); [done|]. apply from_le_le. unfold in_uint, lenz in *. cbn. lia. }
  change (drop 12 (node_bytes mx es tail)) with (leaves_bytes es ++ tail).
  unfold lenz. rewrite Nat2Z.id. by apply read_leaves_bytes.
Qed.
Lemma write_node mx es n :
  lenz es < 2 ^ 16 -> (12 + 12 * length es <= n)%nat ->
  (buf ← blit (zeros n) 0 (extent_header_bytes
      (mk_extent_header EXTENT_HEADER_MAGIC (wrap 16 (lenz es)) mx 0 0));
   write_leaves buf 12 es) = Done (node_bytes mx es (zeros (n - 12 - 12 * length es))).
Proof.
  intros Hlen Hn. set (hdr := extent_header_bytes _).
  assert (Hh : length hdr = 12%nat) by (unfold hdr, extent_header_bytes; by rewrite !length_app, !length_le).
  change (blit (zeros n) 0 hdr) with (blit ([] ++ zeros n) (lenz (@nil Z)) hdr).
  rewrite blit_prefix by lia. cbn [mbind exec_bind app]. change 12 with (lenz hdr).
  rewrite write_leaves_spec by lia. unfold node_bytes. rewrite Hh.
  assert (wrap 16 (lenz es) = lenz es) as Hw.
  { unfold wrap. apply Z.mod_small. unfold lenz in *. lia. }
  unfold hdr. by rewrite Hw.
Qed.

Section Tree.
Context (bs : BlockSize) (n start : Z) (path : string).
Context (Hn : 0 <= n) (Hs : 0 <= start) (Hend : start + n < 2 ^ 32).

Lemma split_tiles target :
  1 <= target ->
  tiles (Z.min target MAX_BLOCKS_PER_EXTENT) 0 start n (split_contiguous_extent 0 n start target).
Proof using Hn Hs Hend.
  intros Ht. unfold split_contiguous_extent, MAX_BLOCKS_PER_EXTENT. apply split_loop_tiles; lia.
Qed.
Lemma split_ok target : 1 <= target -> Forall leaf_ok (split_contiguous_extent 0 n start target).
Proof using Hn Hs Hend.
  intros Ht. eapply tiles_ok; [..|by apply split_tiles]; unfold MAX_BLOCKS_PER_EXTENT; lia.
Qed.
Lemma split_count target :
  1 <= target ->
  lenz (split_contiguous_extent 0 n start target) = div_ceil_u32 n (Z.min target MAX_BLOCKS_PER_EXTENT).
Proof using Hn.
  intros Ht. unfold split_contiguous_extent. apply split_loop_count; unfold MAX_BLOCKS_PER_EXTENT; lia.
Qed.
(** A node that holds the extents of the run resolves every block of it. *)
Lemma node_resolves mx target tail k :
  1 <= target -> lenz (split_contiguous_extent 0 n start target) < 2 ^ 16 ->
  map_block (read_leaves
      (Z.to_nat (u16_at 2 (node_bytes mx (split_contiguous_extent 0 n start target) tail)))
      (drop 12 (node_bytes mx (split_contiguous_extent 0 n start target) tail))) k
  = if (0 <=? k) && (k <? n) then Some (start + k) else None.
Proof using Hn Hs Hend.
  intros Ht Hlen. destruct (read_node mx _ tail (split_ok target Ht) Hlen) as (_ & _ & ->).
  rewrite (tiles_map _ _ _ _ _ k (split_tiles target Ht)). by rewrite Z.sub_0_r.
Qed.
End Tree.

Lemma capacity_bounds bs : 4 < extent_leaf_capacity bs < 2 ^ 16 /\ 12 + 12 * extent_leaf_capacity bs <= bs_bytes bs.
Proof. by destruct bs. Qed.
Lemma write_leaf_block_spec es bs path :
  write_extent_leaf_block es bs (zeros (Z.to_nat (bs_bytes bs))) path
  = if extent_leaf_capacity bs <? lenz es then Failed (ExtentDepthExceeded path 1)
    else Done (node_bytes (extent_leaf_capacity bs) es
                 (zeros (Z.to_nat (bs_bytes bs) - 12 - 12 * length es))).
Proof.
  unfold write_extent_leaf_block. destruct (Z.ltb_spec (extent_leaf_capacity bs) (lenz es)); [done|].
  pose proof (capacity_bounds bs) as [Hc Hb].
  assert (wrap 16 (extent_leaf_capacity bs) = extent_leaf_capacity bs) as ->.
  { unfold wrap. apply Z.mod_small. lia. }
  apply write_node; unfold lenz in *; lia.
Qed.
Lemma encode_root_inline es lb path :
  lenz es <= 4 -> encode_file_extent_root (zeros 60) es lb path
  = Done (node_bytes 4 es (zeros (48 - 12 * length es))).
Proof.
  intros H. unfold encode_file_extent_root, MAX_EXTENTS_PER_INODE.
  assert ((lenz es <=? 4) = true) as -> by lia. rewrite write_node by (unfold lenz in *; lia). done.
Qed.

(** C29: what a file's extent tree says is where its data is.  For a file of
    [n] blocks written contiguously from block [start], if the leaf block has
    room for the extents, encoding the root (and the leaf block it may need)
    succeeds, and resolving any logical block through the encoded bytes gives
    [start + k] for the blocks of the file and nothing past its end. *)
Theorem extent_tree_resolves bs n start leaf_block path :
  let es := split_contiguous_extent 0 n start TARGET_BLOCKS_PER_FILE_EXTENT in
  0 < n -> 0 <= start -> start + n < 2 ^ 32 -> in_uint 32 leaf_block ->
  lenz es <= extent_leaf_capacity bs ->
  exists leaf root,
    write_extent_leaf_block es bs (zeros (Z.to_nat (bs_bytes bs))) path = Done leaf /\
    encode_file_extent_root (zeros 60) es
      (if MAX_EXTENTS_PER_INODE <? lenz es then Some leaf_block else None) path = Done root /\
    forall fetch k, fetch leaf_block = leaf ->
      resolve root fetch k = if (0 <=? k) && (k <? n) then Some (start + k) else None.
Proof.
  intros es Hn Hs Hend Hlb Hcap. pose proof (capacity_bounds bs) as [Hc _].
  assert (Ht : 1 <= TARGET_BLOCKS_PER_FILE_EXTENT) by done.
  pose proof (split_ok n start ltac:(lia) Hs Hend _ Ht) as Hok. fold es in Hok.
  rewrite write_leaf_block_spec. assert ((extent_leaf_capacity bs <? lenz es) = false) as -> by lia.
  pose proof (node_resolves n start ltac:(lia) Hs Hend) as Hres. eexists.
  destruct (Z.ltb_spec MAX_EXTENTS_PER_INODE (lenz es)) as [Hbig|Hsmall]; unfold MAX_EXTENTS_PER_INODE in *.
  - assert (Hroot : exists root, encode_file_extent_root (zeros 60) es (Some leaf_block) path = Done root /\
      u16_at 0 root = EXTENT_HEADER_MAGIC /\ u16_at 6 root = 1 /\ u32_at 4 (drop 12 root) = leaf_block).
    { unfold encode_file_extent_root. assert ((lenz es <=? MAX_EXTENTS_PER_INODE) = false) as ->
        by (unfold MAX_EXTENTS_PER_INODE; lia).
      destruct es as [|e es']; [done|]. eexists. split; [reflexivity|]. split; [done|]. split; [done|].
      transitivity (from_le (le 4 leaf_block)); [done|]. apply from_le_le. exact Hlb. }
    destruct Hroot as (root & Hrun & Hmagic & Hdepth & Hptr). exists root. split; [done|]. split; [done|].
    intros fetch k Hf. unfold resolve. rewrite Hmagic, Hdepth, Hptr, Hf. cbn [negb Z.eqb].
    destruct (read_node (extent_leaf_capacity bs) es (zeros (Z.to_nat (bs_bytes bs) - 12 - 12 * length es)) Hok)
      as (-> & -> & _); [lia|]. rewrite !Z.eqb_refl. cbn [negb orb]. apply Hres; [done|]. fold es. lia.
  - eexists. split; [done|]. rewrite encode_root_inline by lia. split; [done|]. intros fetch k _. unfold resolve.
    destruct (read_node 4 es (zeros (48 - 12 * length es)) Hok) as (-> & -> & _); [lia|].
    rewrite !Z.eqb_refl. cbn [negb]. apply Hres; [done|]. fold es. lia.
Qed.
Lemma extent_tree_resolves_witness :
  exists leaf root,
    write_extent_leaf_block (split_contiguous_extent 0 20000 500 4096) K1 (zeros 1024) "/big" = Done leaf /\
    encode_file_extent_root (zeros 60) (split_contiguous_extent 0 20000 500 4096) (Some 20500) "/big"
    = Done root /\
    forall fetch k, fetch 20500 = leaf ->
      resolve root fetch k = if (0 <=? k) && (k <? 20000) then Some (500 + k) else None.
Proof.
  apply (extent_tree_resolves K1 20000 500 20500 "/big"); try (vm_compute; congruence).
  split; [discriminate|reflexivity].
Defined.

(** The inline extents of a directory or a long symbolic link resolve
    every block of the run; a run of more than 131072 blocks is refused. *)
Theorem inline_extent_resolves n start :
  0 <= n -> 0 <= start -> start + n < 2 ^ 32 ->
  if n <=? 4 * MAX_BLOCKS_PER_EXTENT then
    exists root, encode_inline_extent (zeros 60) 0 n start = Done root /\
      forall fetch k, resolve root fetch k = if (0 <=? k) && (k <? n) then Some (start + k) else None
  else encode_inline_extent (zeros 60) 0 n start = Failed (ExtentDepthExceeded EmptyString 0).
Proof.
  intros Hn Hs Hend. assert (Ht : 1 <= MAX_BLOCKS_PER_EXTENT) by done. unfold encode_inline_extent.
  pose proof (split_count n start Hn _ Ht) as Hcnt. pose proof (split_ok n start Hn Hs Hend _ Ht) as Hok.
  pose proof (node_resolves n start Hn Hs Hend) as Hres.
  set (es := split_contiguous_extent 0 n start MAX_BLOCKS_PER_EXTENT) in *.
  rewrite Z.min_id in Hcnt. unfold div_ceil_u32, MAX_BLOCKS_PER_EXTENT in Hcnt.
  unfold MAX_EXTENTS_PER_INODE. destruct (Z.leb_spec n (4 * MAX_BLOCKS_PER_EXTENT)) as [Hle|Hgt];
    unfold MAX_BLOCKS_PER_EXTENT in *.
  - assert (Hes : lenz es <= 4).
    { rewrite Hcnt. destruct (n =? 0); [lia|]. assert ((n - 1) / 32768 <= 3); [|lia].
      apply Z.lt_succ_r, Z.div_lt_upper_bound; lia. }
    assert ((4 <? lenz es) = false) as -> by lia. rewrite encode_root_inline by done.
    eexists. split; [done|]. intros fetch k. unfold resolve.
    destruct (read_node 4 es (zeros (48 - 12 * length es)) Hok) as (-> & -> & _); [lia|].
    rewrite !Z.eqb_refl. cbn [negb]. apply (Hres 4 0x8000); [done|]. fold es. lia.
  - assert (4 < lenz es).
    { rewrite Hcnt. destruct (Z.eqb_spec n 0); [lia|].
      assert (4 <= (n - 1) / 32768); [|lia]. apply Z.div_le_lower_bound; lia. }
    by assert ((4 <? lenz es) = true) as -> by lia.
Qed.
Lemma inline_extent_resolves_witness :
  exists root, encode_inline_extent (zeros 60) 0 3 77 = Done root /\
    forall fetch k, resolve root fetch k = if (0 <=? k) && (k <? 3) then Some (77 + k) else None.
Proof. apply (inline_extent_resolves 3 77); reflexivity || discriminate. Defined.

(** The real size limit of a file.  A file the builder accepts (at most
    128 GiB) of [size] bytes has an encodable extent tree exactly when its
    blocks need no more extents of 4096 blocks than one leaf block holds:
    336 MiB, 1.3 GiB or 5.3 GiB for blocks of 1, 2 or 4 KiB.  Beyond that
    the image is refused. *)
Theorem file_size_limit bs size start path :
  0 < size <= MAX_FILE_SIZE ->
  let n := (size + bs_bytes bs - 1) / bs_bytes bs in
  let es := split_contiguous_extent 0 n start TARGET_BLOCKS_PER_FILE_EXTENT in
  write_extent_leaf_block es bs (zeros (Z.to_nat (bs_bytes bs))) path
    = Failed (ExtentDepthExceeded path 1)
  <-> extent_leaf_capacity bs * 4096 * bs_bytes bs < size.
Proof.
  intros Hsize n es. pose proof (capacity_bounds bs) as [Hc _].
  assert (Hb : 0 < bs_bytes bs) by by destruct bs.
  assert (Hn : 1 <= n) by (apply Z.div_le_lower_bound; lia).
  pose proof (split_count n start ltac:(lia) TARGET_BLOCKS_PER_FILE_EXTENT ltac:(done)) as Hcnt.
  fold es in Hcnt. change (Z.min TARGET_BLOCKS_PER_FILE_EXTENT MAX_BLOCKS_PER_EXTENT) with 4096 in Hcnt.
  unfold div_ceil_u32 in Hcnt. assert ((n =? 0) = false) as Hn0 by lia. rewrite Hn0 in Hcnt.
  rewrite write_leaf_block_spec. set (cap := extent_leaf_capacity bs) in *.
  assert (Hiff : cap < lenz es <-> cap * 4096 * bs_bytes bs < size).
  { rewrite Hcnt. transitivity (cap * 4096 < n).
    - split; intros H.
      + assert (cap <= (n - 1) / 4096) as Hq by lia.
        pose proof (Z.mul_div_le (n - 1) 4096 ltac:(lia)). lia.
      + assert (cap <= (n - 1) / 4096); [|lia]. apply Z.div_le_lower_bound; lia.
    - unfold n. split; intros H.
      + destruct (Z.lt_ge_cases (cap * 4096 * bs_bytes bs) size) as [|Hle]; [done|]. exfalso.
        assert ((size + bs_bytes bs - 1) / bs_bytes bs <= cap * 4096); [|lia].
        apply Z.lt_succ_r, Z.div_lt_upper_bound; nia.
      + apply Z.lt_le_trans with (cap * 4096 + 1); [lia|]. apply Z.div_le_lower_bound; nia. }
  destruct (Z.ltb_spec cap (lenz es)); split; try done; intros; [tauto|lia].
Qed.
Lemma file_size_limit_witness :
  write_extent_leaf_block (split_contiguous_extent 0 344065 100 4096) K1 (zeros 1024) "/f"
    = Failed (ExtentDepthExceeded "/f" 1)
  <-> 84 * 4096 * 1024 < 344065 * 1024.
Proof. apply (file_size_limit K1 (344065 * 1024) 100 "/f"). split; [reflexivity|discriminate]. Defined.
