(* ===== verification/Ext4XattrCodec.v ===== *)
(** * Extended attributes read back

    Entries grow forward from the header and values backward from the end of
    the region; a reader that walks the entries up to the zero sentinel gets
    the attributes back whenever entries, sentinel and values fit. *)
From S2P Require Import Prelude Ext4Layout Ext4Tree Ext4Encode Ext4DirCodec Ext4ExtentCodec.

(** ** Names *)
Definition join_xattr_name (index : Z) (suffix : string) : string :=
  match index with
  | 1 => "user." +:+ suffix
  | 2 => "system.posix_acl_access"
  | 3 => "system.posix_acl_default"
  | 4 => "trusted." +:+ suffix
  | 6 => "security." +:+ suffix
  | _ => suffix
  end.
Lemma split_xattr_name_cases full :
  let '(index, suffix) := split_xattr_name full in
  join_xattr_name index suffix = full /\ 0 <= index <= 6 /\ (full <> EmptyString -> 0 < index \/ 0 < len suffix).
Proof.
  unfold split_xattr_name.
  destruct (strip_prefix "user." full) as [t|] eqn:E1; [apply strip_prefix_sound in E1 as ->; split_and!; lia || done|].
  destruct (String.eqb_spec full "system.posix_acl_access") as [->|]; [split_and!; lia || done|].
  destruct (String.eqb_spec full "system.posix_acl_default") as [->|]; [split_and!; lia || done|].
  destruct (strip_prefix "trusted." full) as [t|] eqn:E2; [apply strip_prefix_sound in E2 as ->; split_and!; lia || done|].
  destruct (strip_prefix "security." full) as [t|] eqn:E3; [apply strip_prefix_sound in E3 as ->; split_and!; lia || done|].
  split_and!; [done|lia..|]. intros Hne. right. unfold len. destruct full; [done|]. cbn. lia.
Qed.

(** ** The layout of a list of attributes *)
Definition suffix_of (x : Xattr) : string := (split_xattr_name x.(xattr_name)).2.
Definition index_of (x : Xattr) : Z := (split_xattr_name x.(xattr_name)).1.
Definition xattr_ok (x : Xattr) : Prop :=
  x.(xattr_name) <> EmptyString /\ len (suffix_of x) <= 255.
Lemma round4_eq n : 0 <= n -> round4 n = 4 * ((n + 3) / 4).
Proof. intros H. unfold round4. apply land_lnot3. lia. Qed.
Lemma round4_bounds n : 0 <= n -> n <= round4 n <= n + 3.
Proof.
  intros H. rewrite round4_eq by done. pose proof (Z.div_mod (n + 3) 4). pose proof (Z.mod_pos_bound (n + 3) 4). lia.
Qed.
Definition entry_size (x : Xattr) : Z := 16 + round4 (len (suffix_of x)).
Definition value_size (x : Xattr) : Z := round4 (lenz x.(xattr_value)).
Definition xattr_need (xs : list Xattr) : Z := sumZ (fun x => entry_size x + value_size x) xs.
Definition entry_bytes (x : Xattr) (offs : Z) : list Z :=
  xattr_entry_bytes (mk_xattr_entry (len (suffix_of x)) (index_of x) offs 0 (lenz x.(xattr_value)) 0)
  ++ name_bytes (suffix_of x) ++ zeros (Z.to_nat (round4 (len (suffix_of x)) - len (suffix_of x))).
Definition value_bytes (x : Xattr) : list Z :=
  x.(xattr_value) ++ zeros (Z.to_nat (value_size x - lenz x.(xattr_value))).
Fixpoint entries_at (xs : list Xattr) (value_end : Z) : list Z :=
  match xs with
  | [] => []
  | x :: xs => entry_bytes x (value_end - value_size x) ++ entries_at xs (value_end - value_size x)
  end.
Fixpoint values_of (xs : list Xattr) : list Z :=
  match xs with [] => [] | x :: xs => values_of xs ++ value_bytes x end.

Lemma lenz_zeros n : 0 <= n -> lenz (zeros (Z.to_nat n)) = n.
Proof. intros H. unfold lenz. rewrite length_zeros. lia. Qed.
Lemma length_entry x offs : lenz (entry_bytes x offs) = entry_size x.
Proof.
  unfold entry_bytes, entry_size. pose proof (len_nonneg (suffix_of x)) as H0.
  pose proof (round4_bounds _ H0). rewrite !lenz_app, length_name_bytes, lenz_zeros by lia.
  unfold xattr_entry_bytes, lenz. rewrite !length_app, !length_le. lia.
Qed.
Lemma length_value x : lenz (value_bytes x) = value_size x.
Proof.
  unfold value_bytes, value_size. pose proof (lenz_nonneg x.(xattr_value)) as H0.
  pose proof (round4_bounds _ H0). rewrite lenz_app, lenz_zeros by lia. lia.
Qed.
Lemma sizes_nonneg x : 16 <= entry_size x /\ 0 <= value_size x /\ lenz x.(xattr_value) <= value_size x.
Proof.
  unfold entry_size, value_size. pose proof (round4_bounds _ (len_nonneg (suffix_of x))).
  pose proof (len_nonneg (suffix_of x)). pose proof (lenz_nonneg x.(xattr_value)) as Hv.
  pose proof (round4_bounds _ Hv). lia.
Qed.
Lemma need_nonneg xs : 0 <= xattr_need xs.
Proof.
  unfold xattr_need. induction xs as [|x xs IH]; cbn [sumZ]; [lia|]. pose proof (sizes_nonneg x). lia.
Qed.
Lemma layout_lengths xs value_end :
  lenz (entries_at xs value_end) + lenz (values_of xs) = xattr_need xs.
Proof.
  unfold xattr_need. revert value_end. induction xs as [|x xs IH]; intros value_end; cbn [entries_at values_of sumZ]; [done|].
  rewrite !lenz_app, length_entry, length_value. specialize (IH (value_end - value_size x)). lia.
Qed.

(** ** Writing *)
Lemma blit_mid a src n c :
  (length src <= n)%nat ->
  blit (a ++ zeros n ++ c) (lenz a) src = Done (a ++ src ++ zeros (n - length src) ++ c).
Proof.
  intros H. unfold blit. rewrite !lenz_app.
  assert ((0 <=? lenz a) && (lenz a + lenz src <=? lenz a + (lenz (zeros n) + lenz c)) = true) as ->.
  { unfold lenz. rewrite length_zeros. lia. }
  f_equal. unfold lenz. rewrite Nat2Z.id, take_app_length.
  replace (Z.to_nat (Z.of_nat (length a) + Z.of_nat (length src))) with (length a + length src)%nat by lia.
  rewrite drop_app_add. do 2 f_equal. rewrite drop_app_le by (by rewrite length_zeros).
  unfold zeros. by rewrite drop_replicate.
Qed.

Lemma write_xattrs_spec what base xs pre vals value_end gap :
  Forall xattr_ok xs -> 0 <= base -> lenz pre + gap = base + value_end -> value_end < 2 ^ 16 ->
  xattr_need xs <= gap -> base <= lenz pre ->
  write_xattrs what base xs (pre ++ zeros (Z.to_nat gap) ++ vals) (lenz pre) value_end
  = Done (pre ++ entries_at xs value_end ++ zeros (Z.to_nat (gap - xattr_need xs)) ++ values_of xs ++ vals).
Proof.
  intros Hok Hbase. revert pre vals value_end gap.
  induction Hok as [|x xs [Hne Hsl] Hok IH]; intros pre vals value_end gap Hpos Hve Hneed Hbp.
  { cbn. by rewrite Z.sub_0_r. }
  assert (Hneed' : xattr_need (x :: xs) = entry_size x + value_size x + xattr_need xs) by done.
  rewrite Hneed' in *. pose proof (sizes_nonneg x) as (He & Hv & Hvl). pose proof (need_nonneg xs) as Hn0.
  pose proof (lenz_nonneg x.(xattr_value)) as Hvl0. pose proof (len_nonneg (suffix_of x)) as Hs0.
  pose proof (round4_bounds _ Hs0) as Hr. pose proof (lenz_nonneg pre).
  cbn [write_xattrs]. destruct (split_xattr_name (xattr_name x)) as [index suffix] eqn:Es.
  assert (Hsuf : suffix = suffix_of x) by (unfold suffix_of; by rewrite Es).
  assert (Hidx : index = index_of x) by (unfold index_of; by rewrite Es). subst suffix index.
  rewrite (wrap_small 8) by (unfold in_uint; lia).
  assert (Hsat1 : sat_sub (round4 (len (suffix_of x))) (len (suffix_of x)) = round4 (len (suffix_of x)) - len (suffix_of x))
    by (unfold sat_sub; lia).
  assert (Hvt : lenz (xattr_value x) + sat_sub (round4 (lenz (xattr_value x))) (lenz (xattr_value x)) = value_size x).
  { unfold sat_sub, value_size in *. lia. }
  rewrite Hsat1, Hvt. assert ((value_end <? value_size x) = false) as -> by lia.
  rewrite (wrap_small 16) by (unfold in_uint; lia). rewrite (wrap_small 32) by (unfold in_uint; lia).
  rewrite Z.eqb_refl. set (offs := value_end - value_size x).
  set (hdr := xattr_entry_bytes _).
  assert (Hh : length hdr = 16%nat) by (unfold hdr, xattr_entry_bytes; by rewrite !length_app, !length_le).
  assert (Hnb : lenz (name_bytes (suffix_of x)) = len (suffix_of x)) by apply length_name_bytes.
  unfold entry_size in *. rewrite blit_mid by lia. cbn [mbind exec_bind]. rewrite app_assoc.
  replace (lenz pre + 16) with (lenz (pre ++ hdr)) by (rewrite lenz_app; unfold lenz; lia).
  rewrite blit_mid by (unfold lenz in *; lia). cbn [mbind exec_bind].
  (* the name's padding, the new gap and the value *)
  set (pad := round4 (len (suffix_of x)) - len (suffix_of x)) in *.
  set (gap' := gap - (16 + round4 (len (suffix_of x))) - value_size x).
  replace (Z.to_nat gap - length hdr - length (name_bytes (suffix_of x)))%nat
    with (Z.to_nat pad + (Z.to_nat gap' + Z.to_nat (value_size x)))%nat
    by (unfold lenz, pad, gap' in *; lia).
  rewrite <- !zeros_app, <- !app_assoc.
  set (pre' := pre ++ hdr ++ name_bytes (suffix_of x) ++ zeros (Z.to_nat pad)).
  assert (Hpre' : lenz pre' = lenz pre + (16 + round4 (len (suffix_of x)))).
  { unfold pre'. rewrite !lenz_app, Hnb, lenz_zeros by (unfold pad; lia). unfold lenz, pad in *. lia. }
  transitivity (buf ← blit ((pre' ++ zeros (Z.to_nat gap')) ++ zeros (Z.to_nat (value_size x)) ++ vals)
      (base + offs) (xattr_value x);
    write_xattrs what base xs buf (lenz pre + (16 + len (suffix_of x) + pad)) offs).
  { unfold pre'. by rewrite <- !app_assoc. }
  replace (base + offs) with (lenz (pre' ++ zeros (Z.to_nat gap')))
    by (rewrite lenz_app, lenz_zeros, Hpre' by (unfold gap'; lia); unfold offs, gap'; lia).
  rewrite blit_mid by (unfold lenz in *; lia). cbn [mbind exec_bind]. rewrite <- app_assoc.
  replace (lenz pre + (16 + len (suffix_of x) + pad)) with (lenz pre') by (unfold pad; lia).
  rewrite (IH pre' _ offs gap') by (unfold offs, gap' in *; lia).
  f_equal. unfold pre'. cbn [entries_at values_of]. rewrite <- !app_assoc. fold offs.
  unfold entry_bytes, value_bytes. fold pad. fold hdr. rewrite <- !app_assoc.
  do 4 f_equal. f_equal. f_equal; [f_equal; unfold gap'; lia|]. do 3 f_equal. f_equal. f_equal.
  unfold lenz in *. lia.
Qed.

(** ** Reading *)
Definition u8_at (off : nat) (b : list Z) : Z := from_le (take 1 (drop off b)).
Fixpoint read_xattrs (fuel : nat) (buf : list Z) (base off : Z) : option (list Xattr) :=
  let e := drop (Z.to_nat off) buf in
  if u32_at 0 e =? 0 then Some []
  else
    match fuel with
    | O => None
    | S fuel =>
        let nlen := u8_at 0 e in
        let offs := base + u16_at 2 e in
        let vlen := u32_at 8 e in
        if lenz buf <? offs + vlen then None
        else
          rest ← read_xattrs fuel buf base (off + 16 + round4 nlen);
          Some (mk_xattr (join_xattr_name (u8_at 1 e) (string_of_bytes (take (Z.to_nat nlen) (drop 16 e))))
                  (take (Z.to_nat vlen) (drop (Z.to_nat offs) buf)) :: rest)
    end.

Lemma from_le_app a b : from_le (a ++ b) = from_le a + 256 ^ lenz a * from_le b.
Proof.
  induction a as [|x a IH]; cbn [app from_le]; [change (lenz (@nil Z)) with 0; lia|].
  rewrite IH. unfold lenz. cbn [length]. rewrite Nat2Z.inj_succ, Z.pow_succ_r by lia. lia.
Qed.
Lemma u32_entry x offs tail :
  xattr_ok x -> 0 <= offs < 2 ^ 16 -> u32_at 0 (entry_bytes x offs ++ tail) <> 0.
Proof.
  intros [Hne Hsl] Ho. pose proof (split_xattr_name_cases x.(xattr_name)) as H.
  destruct (split_xattr_name (xattr_name x)) as [index suffix] eqn:Es. destruct H as (_ & Hi & Hpos).
  specialize (Hpos Hne). pose proof (len_nonneg (suffix_of x)).
  assert (suffix_of x = suffix) as Hs by (unfold suffix_of; by rewrite Es).
  assert (index_of x = index) as Hx by (unfold index_of; by rewrite Es).
  change (u32_at 0 (entry_bytes x offs ++ tail))
    with (from_le (le 1 (len (suffix_of x)) ++ le 1 (index_of x) ++ le 2 offs)).
  rewrite !from_le_app. unfold lenz. rewrite !length_le, !from_le_le by (unfold in_uint; cbn; lia).
  rewrite Hs, Hx in *. change (256 ^ Z.of_nat 1) with 256. lia.
Qed.
Lemma take_drop_mid {A} (a b c : list A) n m :
  n = length a -> m = length b -> take m (drop n (a ++ b ++ c)) = b.
Proof. intros -> ->. by rewrite drop_app_length, take_app_length. Qed.

(** The fields of an entry, as the reader sees them. *)
Lemma entry_fields x offs T :
  xattr_ok x -> 0 <= offs < 2 ^ 16 -> lenz x.(xattr_value) < 2 ^ 32 ->
  let e := entry_bytes x offs ++ T in
  u8_at 0 e = len (suffix_of x) /\ u16_at 2 e = offs /\ u32_at 8 e = lenz x.(xattr_value) /\
  join_xattr_name (u8_at 1 e) (string_of_bytes (take (Z.to_nat (len (suffix_of x))) (drop 16 e)))
  = x.(xattr_name).
Proof.
  intros [Hne Hsl] Ho Hv e. pose proof (len_nonneg (suffix_of x)). pose proof (lenz_nonneg x.(xattr_value)).
  pose proof (split_xattr_name_cases x.(xattr_name)) as Hsplit.
  destruct (split_xattr_name (xattr_name x)) as [index suffix] eqn:Es. destruct Hsplit as (Hjoin & Hidx & _).
  assert (Hix : index_of x = index) by (unfold index_of; by rewrite Es).
  assert (Hsuf : suffix_of x = suffix) by (unfold suffix_of; by rewrite Es).
  split_and!.
  - transitivity (from_le (le 1 (len (suffix_of x)))); [done|]. apply from_le_le. unfold in_uint. cbn. lia.
  - transitivity (from_le (le 2 offs)); [done|]. apply from_le_le. unfold in_uint. cbn. lia.
  - transitivity (from_le (le 4 (lenz (xattr_value x)))); [done|]. apply from_le_le. unfold in_uint. cbn. lia.
  - assert (u8_at 1 e = index_of x) as ->.
    { transitivity (from_le (le 1 (index_of x))); [done|]. apply from_le_le. unfold in_uint. cbn. lia. }
    assert (take (Z.to_nat (len (suffix_of x))) (drop 16 e) = name_bytes (suffix_of x)) as ->.
    { unfold e, entry_bytes. rewrite <- !app_assoc. apply take_drop_mid; [done|].
      pose proof (length_name_bytes (suffix_of x)). unfold lenz in *. lia. }
    by rewrite string_of_name_bytes, Hix, Hsuf.
Qed.

Lemma read_layout base xs P g V value_end fuel :
  Forall xattr_ok xs -> Forall (fun x => lenz x.(xattr_value) < 2 ^ 32) xs ->
  4 <= g -> 0 <= base -> value_end < 2 ^ 16 -> lenz (values_of xs) <= value_end ->
  base + value_end = lenz (P ++ entries_at xs value_end ++ zeros (Z.to_nat g) ++ values_of xs) ->
  (length xs <= fuel)%nat ->
  read_xattrs fuel (P ++ entries_at xs value_end ++ zeros (Z.to_nat g) ++ values_of xs ++ V) base (lenz P)
  = Some xs.
Proof.
  intros Hok Hvals Hg Hbase. revert P V value_end fuel.
  induction xs as [|x xs IH]; intros P V value_end fuel Hve Hvl Hend Hf.
  - cbn [entries_at values_of app]. assert (Hz : u32_at 0 (drop (Z.to_nat (lenz P)) (P ++ zeros (Z.to_nat g) ++ V)) = 0).
    { unfold lenz. rewrite Nat2Z.id, drop_app_length. replace (Z.to_nat g) with (4 + (Z.to_nat g - 4))%nat by lia.
      rewrite <- zeros_app. done. }
    destruct fuel; cbn [read_xattrs]; by rewrite Hz.
  - apply Forall_cons in Hok as [Hx Hok]. apply Forall_cons in Hvals as [Hxv Hvals].
    cbn [entries_at values_of] in *. remember (value_end - value_size x) as offs eqn:Hoffs.
    pose proof (sizes_nonneg x) as (He & Hv & Hvs). rewrite lenz_app, length_value in Hvl.
    pose proof (lenz_nonneg (values_of xs)). pose proof (lenz_nonneg x.(xattr_value)).
    pose proof (len_nonneg (suffix_of x)). destruct fuel as [|fuel]; [cbn in Hf; lia|].
    set (B := P ++ (entry_bytes x offs ++ entries_at xs offs) ++ zeros (Z.to_nat g)
              ++ (values_of xs ++ value_bytes x) ++ V) in *.
    set (T := entries_at xs offs ++ zeros (Z.to_nat g) ++ (values_of xs ++ value_bytes x) ++ V).
    assert (Hd : drop (Z.to_nat (lenz P)) B = entry_bytes x offs ++ T).
    { unfold B, lenz. rewrite Nat2Z.id, drop_app_length. by rewrite <- app_assoc. }
    assert (HB : B = (P ++ entry_bytes x offs) ++ entries_at xs offs ++ zeros (Z.to_nat g)
              ++ values_of xs ++ (value_bytes x ++ V)) by (unfold B; by rewrite <- !app_assoc).
    assert (Hval : take (Z.to_nat (lenz (xattr_value x))) (drop (Z.to_nat (base + offs)) B) = xattr_value x).
    { rewrite HB. rewrite !app_assoc. unfold value_bytes. rewrite <- (app_assoc _ (xattr_value x ++ _) V).
      rewrite <- (app_assoc (xattr_value x)). apply take_drop_mid; [|unfold lenz; lia].
      rewrite !lenz_app, length_value in Hend. rewrite !length_app. unfold lenz in *. lia. }
    assert (Hin : (lenz B <? base + offs + lenz (xattr_value x)) = false).
    { unfold B. rewrite !lenz_app in Hend. rewrite !lenz_app. rewrite length_value in *.
      pose proof (lenz_nonneg V). lia. }
    cbn [read_xattrs]. rewrite Hd. pose proof (u32_entry x offs T Hx ltac:(lia)) as Hnz.
    apply Z.eqb_neq in Hnz. rewrite Hnz.
    destruct (entry_fields x offs T Hx ltac:(lia) Hxv) as (F0 & F1 & F2 & F3).
    rewrite F0, F1, F2, Hin, Hval, F3.
    replace (lenz P + 16 + round4 (len (suffix_of x))) with (lenz (P ++ entry_bytes x offs))
      by (rewrite lenz_app, length_entry; unfold entry_size; lia).
    rewrite HB, IH; [by destruct x|done|done|lia|lia| |cbn in Hf; lia].
    rewrite !lenz_app in Hend. rewrite !lenz_app. rewrite length_value in Hend. lia.
Qed.

(** ** The fit test *)
Lemma inline_need_mod xs :
  Forall xattr_ok xs -> 8 + xattr_need xs < 2 ^ 32 -> inline_need xs = 8 + xattr_need xs.
Proof.
  intros Hok Hlt. unfold inline_need.
  assert (H : forall acc, 0 <= acc -> acc + xattr_need xs < 2 ^ 32 ->
    fold_left (fun need x =>
      let name_len := wrap 32 (len (split_xattr_name x.(xattr_name)).2) in
      wrap 32 (need + wrap 32 (wrap 32 (16 + wrap 32 (round4 name_len))
                               + wrap 32 (round4 (wrap 32 (lenz x.(xattr_value))))))) xs acc
    = acc + xattr_need xs).
  { clear Hlt. induction Hok as [|x xs Hx Hok IH]; intros acc Ha Hlt; cbn [fold_left].
    - unfold xattr_need. cbn. lia.
    - assert (Hneed : xattr_need (x :: xs) = entry_size x + value_size x + xattr_need xs) by done.
      rewrite Hneed in *. pose proof (need_nonneg xs). destruct (sizes_nonneg x) as (He & Hv & Hvl).
      destruct Hx as [_ Hsl]. fold (suffix_of x). unfold entry_size, value_size in *.
      pose proof (len_nonneg (suffix_of x)). pose proof (lenz_nonneg x.(xattr_value)).
      cbv zeta. rewrite (wrap_small 32 (len _)) by (unfold in_uint; lia).
      rewrite (wrap_small 32 (lenz _)) by (unfold in_uint; lia).
      rewrite (wrap_small 32 (round4 (len _))) by (unfold in_uint; lia).
      rewrite (wrap_small 32 (round4 (lenz _))) by (unfold in_uint; lia).
      rewrite (wrap_small 32 (16 + _)) by (unfold in_uint; lia).
      rewrite (wrap_small 32 (16 + _ + _)) by (unfold in_uint; lia).
      rewrite (wrap_small 32 (acc + _)) by (unfold in_uint; lia).
      rewrite IH by lia. lia. }
  pose proof (need_nonneg xs). rewrite H by lia. rewrite wrap_small by (unfold in_uint; lia). lia.
Qed.
Lemma values_le_need xs : lenz (values_of xs) <= xattr_need xs /\
  Forall (fun x => lenz x.(xattr_value) <= xattr_need xs) xs.
Proof.
  split; [pose proof (layout_lengths xs 0); pose proof (lenz_nonneg (entries_at xs 0)); lia|].
  induction xs as [|x xs IH]; [done|]. apply Forall_cons.
  assert (Hneed : xattr_need (x :: xs) = entry_size x + value_size x + xattr_need xs) by done.
  rewrite Hneed. destruct (sizes_nonneg x) as (He & Hv & Hvl). pose proof (need_nonneg xs). split; [lia|].
  eapply Forall_impl; [exact IH|]. cbn. lia.
Qed.

(** Header, entries, sentinel and values: what both writers produce. *)
Lemma xattr_region_spec what base hdr xs total :
  Forall xattr_ok xs -> base = 0 \/ base = lenz hdr -> total < 2 ^ 16 ->
  lenz hdr + xattr_need xs + 4 <= total ->
  exists buf,
    write_xattrs what base xs (hdr ++ zeros (Z.to_nat (total - lenz hdr))) (lenz hdr) (total - base) = Done buf /\
    lenz buf = total /\ read_xattrs (length xs) buf base (lenz hdr) = Some xs.
Proof.
  intros Hok Hb Ht Hfit. pose proof (need_nonneg xs) as Hn. pose proof (lenz_nonneg hdr) as Hh.
  destruct (values_le_need xs) as [Hv Hvs].
  pose proof (layout_lengths xs (total - base)) as Hl. pose proof (lenz_nonneg (entries_at xs (total - base))).
  rewrite <- (app_nil_r (zeros _)). rewrite write_xattrs_spec by (done || lia).
  eexists. split; [done|]. split.
  - rewrite !lenz_app, lenz_zeros by lia. change (lenz (@nil Z)) with 0. lia.
  - apply read_layout; try done; try lia.
    + eapply Forall_impl; [exact Hvs|]. cbn. lia.
    + rewrite !lenz_app, lenz_zeros by lia. lia.
Qed.

(** Attributes stored in the inode read back.  When the fit test passes
    (with a total size below 4 GiB and names whose suffix is at most 255
    bytes), writing the 96-byte region succeeds and a reader that stops at
    the zero sentinel gets exactly the attributes, names and values. *)
Theorem xattr_inline_roundtrip xs :
  Forall xattr_ok xs -> 8 + xattr_need xs < 2 ^ 32 -> xattrs_fit_inline xs = true ->
  exists buf, write_xattr_inline xs (zeros 96) = Done buf /\ lenz buf = INODE_INLINE_XATTR_SIZE /\
              read_xattrs (length xs) buf 4 4 = Some xs.
Proof.
  intros Hok Hlt Hfit. unfold xattrs_fit_inline, INODE_INLINE_XATTR_SIZE, INODE_SIZE, INODE_BODY_SIZE in Hfit.
  rewrite inline_need_mod in Hfit by done.
  change (write_xattr_inline xs (zeros 96)) with
    (write_xattrs "inline xattr value region overflow" 4 xs
       (le 4 XATTR_IBODY_MAGIC ++ zeros (Z.to_nat (96 - 4))) 4 (96 - 4)).
  apply (xattr_region_spec _ 4 (le 4 XATTR_IBODY_MAGIC) xs 96 Hok); [by right|done|].
  change (lenz (le 4 XATTR_IBODY_MAGIC)) with 4. lia.
Qed.
Definition demo_xattrs : list Xattr :=
  [mk_xattr "user.mime" [116; 101; 120; 116]; mk_xattr "security.capability" [1; 0; 0; 2; 5]].
Lemma xattr_inline_roundtrip_witness :
  exists buf, write_xattr_inline demo_xattrs (zeros 96) = Done buf /\ lenz buf = 96 /\
              read_xattrs 2 buf 4 4 = Some demo_xattrs.
Proof.
  apply (xattr_inline_roundtrip demo_xattrs); [|reflexivity..].
  repeat constructor; vm_compute; congruence.
Defined.

(** Attributes stored in a block read back when entries, sentinel and
    values fit together in it. *)
Theorem xattr_block_roundtrip bs xs :
  Forall xattr_ok xs -> 32 + xattr_need xs + 4 <= bs_bytes bs ->
  exists buf, write_xattr_block xs (zeros (Z.to_nat (bs_bytes bs))) = Done buf /\
              lenz buf = bs_bytes bs /\ read_xattrs (length xs) buf 0 32 = Some xs.
Proof.
  intros Hok Hfit. set (hdr := le 4 XATTR_MAGIC ++ le 4 1 ++ le 4 1 ++ zeros 20).
  assert (Hrun : write_xattr_block xs (zeros (Z.to_nat (bs_bytes bs)))
    = write_xattrs "block xattr value region overflow" 0 xs
        (hdr ++ zeros (Z.to_nat (bs_bytes bs - 32))) 32 (bs_bytes bs - 0)) by by destruct bs.
  rewrite Hrun. apply (xattr_region_spec _ 0 hdr xs (bs_bytes bs) Hok); [by left| |done].
  by destruct bs.
Qed.
Lemma xattr_block_roundtrip_witness :
  exists buf, write_xattr_block demo_xattrs (zeros 1024) = Done buf /\ lenz buf = 1024 /\
              read_xattrs 2 buf 0 32 = Some demo_xattrs.
Proof.
  apply (xattr_block_roundtrip K1 demo_xattrs); [|vm_compute; congruence].
  repeat constructor; vm_compute; congruence.
Defined.

(** The block writer does not notice an attribute that does not fit: with
    a value of 1000 bytes in a block of 1024 it succeeds, having written the
    value over the entry that describes it, and the reader does not get the
    attribute back. *)
Theorem xattr_block_overlap :
  let xs := [mk_xattr "user.k" (replicate 1000 255)] in
  exists buf, write_xattr_block xs (zeros (Z.to_nat (bs_bytes K1))) = Done buf /\
              xattrs_fit_inline xs = false /\ read_xattrs 100 buf 0 32 <> Some xs.
Proof.
  eexists. split; [vm_compute; reflexivity|]. split; [vm_compute; reflexivity|]. vm_compute. discriminate.
Qed.
