(* ===== verification/Ext4Image.v ===== *)
(** * Writing the image ([crates/ext4/src/builder.rs], [Finalizer])

    The one-shot state machine that turns the builder's tree into bytes:
    inode allocation, header, data region, inode table, bitmaps and group
    descriptors, superblock.  The output is any sink with [seek], [write_all]
    and [flush] ([Write + Seek]); [u32] arithmetic wraps. *)
From S2P Require Import Prelude Ext4Layout Ext4Path Ext4Tree Ext4Encode.

(** ** 32-bit arithmetic

    Sums, differences and products reduce modulo 2^32; a compound expression is
    reduced once, which gives the same as reducing at every operator. *)
Declare Scope u32_scope.
Delimit Scope u32_scope with u32.
Notation "a + b" := (wrap 32 (a + b)) : u32_scope.
Notation "a - b" := (wrap 32 (a - b)) : u32_scope.
Notation "a * b" := (wrap 32 (a * b)) : u32_scope.

(** ** The output *)
Class Sink (W : Type) := {
  sink_seek : Z -> W -> W * result io_error unit;
  sink_write_all : list Z -> W -> W * result io_error unit;
  sink_flush : W -> W * result io_error unit
}.

Record Finalizer (W : Type) := mk_fin {
  fs : FileSystemBuilder;
  out : W;
  fpos : Z;
  inodes : list (option Z);
  inode_table : list Inode256;
  next_free_block : Z;
  header_blocks : Z;
  block_groups : Z;
  inodes_per_group : Z;
  blocks_per_group : Z;
  total_disk_blocks_cache : Z;
  total_used_blocks_cache : Z;
  inode_used_count_cache : Z
}.
Arguments mk_fin {W}.
Arguments fs {W}.
Arguments out {W}.
Arguments fpos {W}.
Arguments inodes {W}.
Arguments inode_table {W}.
Arguments next_free_block {W}.
Arguments header_blocks {W}.
Arguments block_groups {W}.
Arguments inodes_per_group {W}.
Arguments blocks_per_group {W}.
Arguments total_disk_blocks_cache {W}.
Arguments total_used_blocks_cache {W}.
Arguments inode_used_count_cache {W}.

(** ** Inode allocation, as functions of the node arena *)
(** The second loop: nodes with a fixed inode. *)
Fixpoint fixed_inodes (ns : list Node) (i : nat) (inos : list (option Z)) : list (option Z) :=
  match ns with
  | [] => inos
  | n :: ns =>
      fixed_inodes ns (S i)
        (if n.(deleted) then inos
         else match n.(inode) with Some ino => <[i := Some ino]> inos | None => inos end)
  end.
(** One child of the directory being visited. *)
Definition visit_child (ns : list Node) (child : nat) (st : list (option Z) * Z * list nat)
    : E (list (option Z) * Z * list nat) :=
  let '(inos, next, queue) := st in
  n ← idx ns child;
  if n.(deleted) then mret st
  else
    cur ← idx inos child;
    match cur with
    | Some _ => mret (inos, next, queue ++ [child])
    | None =>
        match n.(hardlink_target) with
        | Some tgt => t ← idx inos tgt; mret (<[child := t]> inos, next, queue ++ [child])
        | None => mret (<[child := Some next]> inos, (next + 1)%u32, queue ++ [child])
        end
    end.
Fixpoint visit_children (ns : list Node) (cs : list nat) (st : list (option Z) * Z * list nat)
    : E (list (option Z) * Z * list nat) :=
  match cs with
  | [] => mret st
  | c :: cs => st ← visit_child ns c st; visit_children ns cs st
  end.
(** The breadth-first walk; every node is queued at most once, so the length
    of the arena bounds the rounds. *)
Fixpoint bfs (fuel : nat) (ns : list Node) (queue : list nat) (inos : list (option Z)) (next : Z)
    : E (list (option Z) * Z) :=
  match queue with
  | [] => mret (inos, next)
  | parent_idx :: queue =>
      match fuel with
      | O => Panic
      | S fuel =>
          n ← idx ns parent_idx;
          '(inos, next, queue) ← visit_children ns n.(children) (inos, next, queue);
          bfs fuel ns queue inos next
      end
  end.
Definition assign_inodes (ns : list Node) : E (list (option Z) * Z) :=
  let inos := replicate (length ns) None in
  match inos with
  | [] => Panic
  | _ =>
      let inos := <[O := Some ROOT_INODE]> inos in
      let inos := fixed_inodes (drop 1 ns) 1 inos in
      bfs (S (length ns)) ns [O] inos (FIRST_FREE_INODE + 1)
  end.
(** The sizing loop of the inode table. *)
Fixpoint grow_ipg (fuel : nat) (ipg inc min : Z) : Z :=
  match fuel with
  | O => ipg
  | S fuel => if ipg <? min then grow_ipg fuel (sat_add 32 ipg inc) inc min else ipg
  end.
Definition inodes_per_group_for (bs : BlockSize) (next : Z) : Z :=
  let bits_per_bitmap := bs_bytes bs * 8 in
  let min := Z.max (sat_sub next 1) FIRST_FREE_INODE in
  let inc := bs_bytes bs * 64 / INODE_SIZE in
  let ipg := grow_ipg (Z.to_nat min) inc inc min in
  if bits_per_bitmap <? ipg then bits_per_bitmap else ipg.

(** A stable sort by key ([sort_by_key]). *)
Fixpoint insert_by {A} (key : A -> Z) (x : A) (l : list A) : list A :=
  match l with
  | [] => [x]
  | y :: l => if key x <=? key y then x :: y :: l else y :: insert_by key x l
  end.
Definition sort_by_key {A} (key : A -> Z) (l : list A) : list A := foldr (insert_by key) [] l.

(** [sorted_live_children]: the live children that have an inode. *)
Fixpoint live_children (ns : list Node) (inos : list (option Z)) (cs : list nat) : E (list nat) :=
  match cs with
  | [] => mret []
  | c :: cs =>
      n ← idx ns c;
      keep ← (if n.(deleted) then mret false
              else ino ← idx inos c; mret (match ino with Some _ => true | None => false end));
      rest ← live_children ns inos cs;
      mret (if keep : bool then c :: rest else rest)
  end.
Definition inode_key (dflt : Z) (inos : list (option Z)) (c : nat) : Z :=
  match inos !! c with Some (Some ino) => ino | _ => dflt end.
Definition sorted_live_children (ns : list Node) (inos : list (option Z)) (i : nat) : E (list nat) :=
  n ← idx ns i;
  cs ← live_children ns inos n.(children);
  mret (sort_by_key (inode_key 0 inos) cs).
Definition child_names (ns : list Node) (cs : list nat) : list string :=
  (fun c => match ns !! c with Some n => n.(name) | None => EmptyString end) <$> cs.
Definition directory_block_count (bs : BlockSize) (ns : list Node) (inos : list (option Z)) (i : nat)
    : E (result Ext4Error Z) :=
  cs ← sorted_live_children ns inos i;
  mret (count_blocks (bs_bytes bs) ("."%string :: ".."%string :: child_names ns cs) 1 0).

(** ** Estimating the number of block groups *)
(** The data blocks of one node, attributes aside. *)
Definition content_blocks (bs : BlockSize) (ns : list Node) (inos : list (option Z)) (i : nat)
    (c : NodeContent) : E Z :=
  match c with
  | CDirectory =>
      r ← directory_block_count bs ns inos i;
      mret (match r with Ok b => b | Err _ => max_uint 32 end)
  | CFile data =>
      if lenz data =? 0 then mret 0
      else
        let file_blocks := div_ceil_usize (lenz data) (bs_bytes bs) in
        let extents := div_ceil_u32 file_blocks TARGET_BLOCKS_PER_FILE_EXTENT in
        mret (if MAX_EXTENTS_PER_INODE <? extents then (file_blocks + 1)%u32 else file_blocks)
  | CSymlink target => mret (if FAST_SYMLINK_MAX <=? len target then 1 else 0)
  | CWhiteout | CHardlink => mret 0
  end.
Definition xattr_blocks (n : Node) : Z :=
  match n.(xattrs) with [] => 0 | xs => if xattrs_fit_inline xs then 0 else 1 end.
Definition skipped (inos : list (option Z)) (i : nat) (n : Node) : bool :=
  n.(deleted) || match inos !! i with Some (Some _) => false | _ => true end.
Fixpoint payload_loop (bs : BlockSize) (ns : list Node) (inos : list (option Z)) (rest : list Node)
    (i : nat) (blocks : Z) : E Z :=
  match rest with
  | [] => mret blocks
  | n :: rest =>
      if skipped inos i n || match n.(hardlink_target) with Some _ => true | None => false end
      then payload_loop bs ns inos rest (S i) blocks
      else
        b ← content_blocks bs ns inos i n.(content);
        payload_loop bs ns inos rest (S i) (blocks + b + xattr_blocks n)%u32
  end.
Definition estimate_payload_blocks (bs : BlockSize) (ns : list Node) (inos : list (option Z)) : E Z :=
  payload_loop bs ns inos ns 0 0.

(** Blocks needed with [groups] groups, and the groups those take. *)
Definition gdt_blocks_for (bs : BlockSize) (groups : Z) : Z :=
  Z.max ((groups * GROUP_DESC_SIZE + bs_bytes bs - 1)%u32 / bs_bytes bs) 1.
Definition inode_table_blocks_for (bs : BlockSize) (ipg : Z) : Z :=
  (ipg * INODE_SIZE + bs_bytes bs - 1)%u32 / bs_bytes bs.
Definition needed_blocks_for (bs : BlockSize) (itb payload min_blocks groups : Z) : Z :=
  let header_blocks := (first_gdt_block_for_size bs + gdt_blocks_for bs groups)%u32 in
  let metadata_blocks := (groups * (itb + 2))%u32 in
  Z.max (header_blocks + payload + metadata_blocks)%u32 min_blocks.
Definition next_groups (bs : BlockSize) (bpg itb payload min_blocks groups : Z) : Z :=
  let needed_blocks := needed_blocks_for bs itb payload min_blocks groups in
  Z.max (Z.min (div_ceil_u64 needed_blocks bpg) (max_uint 32)) 1.
Fixpoint groups_loop (fuel : nat) (f : Z -> Z) (groups : Z) : E Z :=
  match fuel with
  | O => Panic
  | S fuel => let next := f groups in if next =? groups then mret groups else groups_loop fuel f next
  end.
(** Each round that does not stop adds a group; twice the groups the payload
    takes, and a few more, are never exceeded. *)
Definition groups_fuel (bpg payload min_blocks : Z) : nat :=
  Z.to_nat (8 + 2 * ((payload + min_blocks) / bpg)).
Definition estimate_block_groups (bs : BlockSize) (bpg0 min_size ipg : Z) (ns : list Node)
    (inos : list (option Z)) : E Z :=
  let bpg := Z.max bpg0 1 in
  payload ← estimate_payload_blocks bs ns inos;
  let min_blocks := div_ceil_u64 min_size (bs_bytes bs) in
  groups_loop (groups_fuel bpg payload min_blocks)
    (next_groups bs bpg (inode_table_blocks_for bs ipg) payload min_blocks) 1.

(** ** The finalizer's monad *)
Section Writing.
Context {W : Type} `{Sink W}.
Abbreviation Fin := (Finalizer W).
Definition FM (A : Type) : Type := Fin -> Fin * exec Ext4Error A.
#[local] Instance FM_ret : MRet FM := fun A a s => (s, Done a).
#[local] Instance FM_bind : MBind FM := fun A B k m s =>
  match m s with
  | (s', Done a) => k a s'
  | (s', Failed e) => (s', Failed e)
  | (s', Panic) => (s', Panic)
  end.
Definition fget {A} (f : Fin -> A) : FM A := fun s => (s, Done (f s)).
Definition fput (f : Fin -> Fin) : FM unit := fun s => (f s, Done tt).
Definition flift {A} (m : E A) : FM A := fun s => (s, m).
Fixpoint ffor {A} (f : A -> FM unit) (l : list A) : FM unit :=
  match l with [] => mret tt | x :: l => _ ← f x; ffor f l end.

Definition set_fs (b : FileSystemBuilder) (s : Fin) : Fin :=
  mk_fin b s.(out) s.(fpos) s.(inodes) s.(inode_table) s.(next_free_block) s.(header_blocks)
    s.(block_groups) s.(inodes_per_group) s.(blocks_per_group) s.(total_disk_blocks_cache)
    s.(total_used_blocks_cache) s.(inode_used_count_cache).
Definition set_out (w : W) (p : Z) (s : Fin) : Fin :=
  mk_fin s.(fs) w p s.(inodes) s.(inode_table) s.(next_free_block) s.(header_blocks)
    s.(block_groups) s.(inodes_per_group) s.(blocks_per_group) s.(total_disk_blocks_cache)
    s.(total_used_blocks_cache) s.(inode_used_count_cache).
Definition set_table (t : list Inode256) (s : Fin) : Fin :=
  mk_fin s.(fs) s.(out) s.(fpos) s.(inodes) t s.(next_free_block) s.(header_blocks)
    s.(block_groups) s.(inodes_per_group) s.(blocks_per_group) s.(total_disk_blocks_cache)
    s.(total_used_blocks_cache) s.(inode_used_count_cache).
Definition set_next (b : Z) (s : Fin) : Fin :=
  mk_fin s.(fs) s.(out) s.(fpos) s.(inodes) s.(inode_table) b s.(header_blocks)
    s.(block_groups) s.(inodes_per_group) s.(blocks_per_group) s.(total_disk_blocks_cache)
    s.(total_used_blocks_cache) s.(inode_used_count_cache).
Definition set_header (h : Z) (s : Fin) : Fin :=
  mk_fin s.(fs) s.(out) s.(fpos) s.(inodes) s.(inode_table) h h
    s.(block_groups) s.(inodes_per_group) s.(blocks_per_group) s.(total_disk_blocks_cache)
    s.(total_used_blocks_cache) s.(inode_used_count_cache).
Definition set_groups (g : Z) (s : Fin) : Fin :=
  mk_fin s.(fs) s.(out) s.(fpos) s.(inodes) s.(inode_table) s.(next_free_block) s.(header_blocks)
    g s.(inodes_per_group) s.(blocks_per_group) s.(total_disk_blocks_cache)
    s.(total_used_blocks_cache) s.(inode_used_count_cache).
Definition set_totals (disk used inos : Z) (s : Fin) : Fin :=
  mk_fin s.(fs) s.(out) s.(fpos) s.(inodes) s.(inode_table) s.(next_free_block) s.(header_blocks)
    s.(block_groups) s.(inodes_per_group) s.(blocks_per_group) disk used inos.
Definition fnode (i : nat) : FM Node := fun s => (s, idx s.(fs).(nodes) i).
Definition fupd (i : nat) (f : Node -> Node) : FM unit := fun s =>
  match upd_node i f s.(fs) with (b, r) => (set_fs b s, r) end.
Definition finode (i : nat) : FM (option Z) := fun s => (s, idx s.(inodes) i).
Definition funwrap {A} (o : option A) : FM A := flift (unwrap o).
Definition bsz : FM Z := fget (fun s => bs_bytes s.(fs).(block_size)).

(** ** Primitive I/O *)
Definition seek_absolute (off : Z) : FM unit := fun s =>
  match sink_seek off s.(out) with
  | (w, Ok _) => (set_out w off s, Done tt)
  | (w, Err e) => (set_out w s.(fpos) s, Failed (Control "seek" e))
  end.
Definition seek_to_block (b : Z) : FM unit := fun s =>
  seek_absolute (offset_bytes b (bs_bytes s.(fs).(block_size))) s.
Definition write_bytes (data : list Z) : FM unit := fun s =>
  match sink_write_all data s.(out) with
  | (w, Ok _) => (set_out w (wrap 64 (s.(fpos) + lenz data)) s, Done tt)
  | (w, Err e) => (set_out w s.(fpos) s, Failed (WriteFailed s.(fpos) (lenz data) e))
  end.
Definition ensure_len (l : Z) : FM unit :=
  if l =? 0 then mret tt else _ ← seek_absolute (l - 1); write_bytes [0].
Definition flush : FM unit := fun s =>
  match sink_flush s.(out) with
  | (w, Ok _) => (set_out w s.(fpos) s, Done tt)
  | (w, Err e) => (set_out w s.(fpos) s, Failed (Control "flush" e))
  end.
Definition first_data_block (bs : BlockSize) : Z := if bs_bytes bs =? 1024 then 1 else 0.

(** ** Steps 1 and 2: inodes and header *)
Definition allocate_inodes : FM unit := fun s =>
  let b := s.(fs) in
  match assign_inodes b.(nodes) with
  | Done (inos, next) =>
      let ipg := inodes_per_group_for b.(block_size) next in
      let bpg := bs_bytes b.(block_size) * 8 in
      match estimate_block_groups b.(block_size) bpg b.(min_size) ipg b.(nodes) inos with
      | Done groups =>
          (mk_fin b s.(out) s.(fpos) inos (replicate (Z.to_nat ipg) inode256_zeroed)
             s.(next_free_block) s.(header_blocks) groups ipg bpg s.(total_disk_blocks_cache)
             s.(total_used_blocks_cache) s.(inode_used_count_cache), Done tt)
      | Failed e => (s, Failed e)
      | Panic => (s, Panic)
      end
  | Failed e => (s, Failed e)
  | Panic => (s, Panic)
  end.
Definition layout_header : FM unit :=
  s ← fget id;
  let bs := s.(fs).(block_size) in
  let h := (first_gdt_block_for_size bs + gdt_blocks_for bs s.(block_groups))%u32 in
  _ ← fput (set_header h);
  seek_to_block h.

(** ** Step 3: the data region *)
Definition set_span (a b : Z) (n : Node) : Node :=
  mk_node n.(name) n.(parent) n.(children) n.(content) n.(mode) n.(uid) n.(gid) n.(xattrs) n.(inode)
    a b n.(dir_link_count) n.(hardlink_target) n.(xattr_block)
    n.(file_extents) n.(extent_leaf_block) n.(deleted).
Definition set_extents (es : list ExtentLeaf) (leaf : option Z) (n : Node) : Node :=
  mk_node n.(name) n.(parent) n.(children) n.(content) n.(mode) n.(uid) n.(gid) n.(xattrs) n.(inode)
    n.(start_block) n.(end_block) n.(dir_link_count) n.(hardlink_target) n.(xattr_block)
    es leaf n.(deleted).
Definition set_xattr_block (b : Z) (n : Node) : Node :=
  mk_node n.(name) n.(parent) n.(children) n.(content) n.(mode) n.(uid) n.(gid) n.(xattrs) n.(inode)
    n.(start_block) n.(end_block) n.(dir_link_count) n.(hardlink_target) (Some b)
    n.(file_extents) n.(extent_leaf_block) n.(deleted).

Fixpoint child_entries (cs : list nat) : FM (list DirEntrySpec) :=
  match cs with
  | [] => mret []
  | c :: cs =>
      ino ← finode c; ino ← funwrap ino;
      n ← fnode c;
      rest ← child_entries cs;
      mret (mk_dirent ino n.(name) (dir_entry_type n.(mode)) :: rest)
  end.
(** Write one block at the high-water mark and advance it. *)
Definition emit_block (buf : list Z) : FM unit :=
  block ← fget next_free_block;
  _ ← seek_to_block block;
  _ ← write_bytes buf;
  fput (set_next (next_block block)).
Fixpoint write_dir_loop (fuel : nat) (bs : Z) (entries : list DirEntrySpec) : FM unit :=
  match entries with
  | [] => mret tt
  | _ =>
      match fuel with
      | O => flift Panic
      | S fuel =>
          '(buf, rest) ← flift (fill_block bs (zeros (Z.to_nat bs)) 0 entries);
          _ ← emit_block buf;
          write_dir_loop fuel bs rest
      end
  end.
Definition write_directory_block (i : nat) : FM unit :=
  bs ← bsz;
  dot ← finode i; dot ← funwrap dot;
  n ← fnode i;
  dotdot ← finode (default i n.(parent)); dotdot ← funwrap dotdot;
  s ← fget id;
  cs ← flift (sorted_live_children s.(fs).(nodes) s.(inodes) i);
  es ← child_entries cs;
  let ft := dir_entry_type (mode_dir o755) in
  let entries := mk_dirent dot "." ft :: mk_dirent dotdot ".." ft :: es in
  start ← fget next_free_block;
  _ ← write_dir_loop (length entries) bs entries;
  last ← fget next_free_block;
  fupd i (set_span start last).

Definition fnode_path (i : nat) : FM string := fun s =>
  match node_path i s.(fs) with (_, r) => (s, r) end.
Definition write_file_blocks (i : nat) : FM unit :=
  bs ← bsz;
  n ← fnode i;
  match n.(content) with
  | CFile data =>
      if lenz data =? 0 then
        _ ← fupd i (set_span 0 0);
        fupd i (set_extents [] None)
      else
        start ← fget next_free_block;
        _ ← seek_to_block start;
        _ ← write_bytes data;
        let remainder := lenz data mod bs in
        _ ← (if remainder =? 0 then mret tt else write_bytes (zeros (Z.to_nat (bs - remainder))));
        let blocks_written := wrap 32 ((lenz data + bs - 1) / bs) in
        let last := (start + blocks_written)%u32 in
        _ ← fput (set_next last);
        _ ← fupd i (set_span start last);
        path ← fnode_path i;
        let extents := split_contiguous_extent 0 blocks_written start TARGET_BLOCKS_PER_FILE_EXTENT in
        leaf ← (if MAX_EXTENTS_PER_INODE <? lenz extents then
                  leaf_block ← fget next_free_block;
                  _ ← seek_to_block leaf_block;
                  s ← fget id;
                  buf ← flift (write_extent_leaf_block extents s.(fs).(block_size)
                                 (zeros (Z.to_nat bs)) path);
                  _ ← write_bytes buf;
                  _ ← fput (set_next (next_block leaf_block));
                  mret (Some leaf_block)
                else mret None);
        fupd i (set_extents extents leaf)
  | _ => flift Panic
  end.
Definition write_symlink_blocks (i : nat) : FM unit :=
  n ← fnode i;
  match n.(content) with
  | CSymlink target =>
      if len target <? FAST_SYMLINK_MAX then fupd i (set_span 0 0)
      else
        start ← fget next_free_block;
        _ ← seek_to_block start;
        bs ← bsz;
        buf ← flift (blit (zeros (Z.to_nat bs)) 0 (name_bytes target));
        _ ← write_bytes buf;
        let last := next_block start in
        _ ← fput (set_next last);
        fupd i (set_span start last)
  | _ => flift Panic
  end.
Definition write_node_data (i : nat) : FM unit :=
  n ← fnode i;
  if n.(deleted) then mret tt
  else
    ino ← finode i;
    match ino, n.(hardlink_target) with
    | None, _ | _, Some _ => mret tt
    | Some _, None =>
        match n.(content) with
        | CDirectory => write_directory_block i
        | CFile _ => write_file_blocks i
        | CSymlink _ => write_symlink_blocks i
        | CWhiteout | CHardlink => mret tt
        end
    end.
Definition write_node_xattrs (i : nat) : FM unit :=
  n ← fnode i;
  if n.(deleted) then mret tt
  else
    ino ← finode i;
    match ino, n.(xattrs) with
    | None, _ | _, [] => mret tt
    | Some _, xs =>
        if xattrs_fit_inline xs then mret tt
        else
          block ← fget next_free_block;
          _ ← seek_to_block block;
          bs ← bsz;
          buf ← flift (write_xattr_block xs (zeros (Z.to_nat bs)));
          _ ← write_bytes buf;
          _ ← fput (set_next (next_block block));
          fupd i (set_xattr_block block)
    end.
Definition write_data_region : FM unit :=
  s ← fget id;
  let all := seq 0 (length s.(fs).(nodes)) in
  _ ← ffor write_node_data (sort_by_key (inode_key (max_uint 32) s.(inodes)) all);
  ffor write_node_xattrs all.

(** ** Step 4: the inode table *)
(** [build_inode_record]; [path] computes the node's path, for error messages. *)
Definition uses_extents (c : NodeContent) : bool :=
  match c with
  | CDirectory => true
  | CFile data => negb (lenz data =? 0)
  | CSymlink t => FAST_SYMLINK_MAX <=? len t
  | CWhiteout | CHardlink => false
  end.
Definition inode_flags (c : NodeContent) : Z :=
  if uses_extents c then Z.lor FLAG_EXTENTS FLAG_HUGE_FILE
  else match c with CFile _ => FLAG_HUGE_FILE | _ => 0 end.
Definition span_blocks (n : Node) : Z := sat_sub n.(end_block) n.(start_block).
(** Link count and size (low, high). *)
Definition links_and_size (bs : Z) (n : Node) : Z * Z * Z :=
  match n.(content) with
  | CDirectory => (n.(dir_link_count), sat_mul 32 (span_blocks n) bs, 0)
  | CFile data => (1, Z.land (lenz data) 0xFFFFFFFF, wrap 32 (Z.shiftr (lenz data) 32))
  | CSymlink t => (1, wrap 32 (len t), 0)
  | CWhiteout => (1, 0, 0)
  | CHardlink => (0, 0, 0)
  end.
(** The [i_block] area and the block count. *)
Definition block_map (path : E string) (n : Node) : E (list Z * Z) :=
  match n.(content) with
  | CDirectory =>
      b ← encode_inline_extent (zeros 60) 0 (span_blocks n) n.(start_block);
      mret (b, span_blocks n)
  | CFile data =>
      if lenz data =? 0 then mret (zeros 60, 0)
      else
        match n.(file_extents) with
        | [] => Failed (Internal 0 "non-empty file missing serialized extents")
        | es =>
            path ← path;
            b ← encode_file_extent_root (zeros 60) es n.(extent_leaf_block) path;
            let count := fold_left (fun acc e => (acc + e.(ee_len))%u32) es 0 in
            mret (b, match n.(extent_leaf_block) with Some _ => (count + 1)%u32 | None => count end)
        end
  | CSymlink t =>
      if len t <? FAST_SYMLINK_MAX
      then b ← blit (zeros 60) 0 (name_bytes t); mret (b, 0)
      else b ← encode_inline_extent (zeros 60) 0 1 n.(start_block); mret (b, 1)
  | CWhiteout | CHardlink => mret (zeros 60, 0)
  end.
(** Inline attributes, the attribute block and the block count with it. *)
Definition xattr_map (n : Node) (blocks : Z) : E (list Z * Z * Z) :=
  match n.(xattrs) with
  | [] => mret (zeros 96, 0, blocks)
  | xs =>
      if xattrs_fit_inline xs then
        x ← write_xattr_inline xs (zeros 96); mret (x, 0, blocks)
      else
        match n.(xattr_block) with
        | Some b => mret (zeros 96, b, (blocks + 1)%u32)
        | None => Failed (Internal 0 "xattr overflow but no xattr block allocated")
        end
  end.
Definition build_inode_record (bs ts : Z) (path : E string) (n : Node) : E Inode256 :=
  let '(links, size_lo, size_hi) := links_and_size bs n in
  '(blk, blocks) ← block_map path n;
  '(inline, acl, blocks) ← xattr_map n blocks;
  mret (mk_inode256 {|
    i_mode := n.(mode); i_uid := Z.land n.(uid) 0xFFFF; i_size_lo := size_lo; i_atime := ts;
    i_ctime := ts; i_mtime := ts; i_dtime := 0; i_gid := Z.land n.(gid) 0xFFFF;
    i_links_count := links; i_blocks_lo := blocks; i_flags := inode_flags n.(content);
    i_version := 0; i_block := blk; i_generation := 0; i_file_acl_lo := acl; i_size_hi := size_hi;
    i_obso_faddr := 0; i_blocks_hi := 0; i_file_acl_hi := 0;
    i_uid_hi := Z.land (Z.shiftr n.(uid) 16) 0xFFFF; i_gid_hi := Z.land (Z.shiftr n.(gid) 16) 0xFFFF;
    i_checksum_lo := 0; i_reserved := 0; i_extra_isize := INODE_EXTRA_ISIZE; i_checksum_hi := 0;
    i_ctime_extra := 0; i_mtime_extra := 0; i_atime_extra := 0; i_crtime := ts;
    i_crtime_extra := 0; i_version_hi := 0; i_projid := 0 |} inline).
(** [self.inode_table[ino - 1]] written through [f]. *)
Definition upd_table (ino : Z) (f : Inode256 -> Inode256) : FM unit := fun s =>
  match s.(inode_table) !! Z.to_nat (table_index ino) with
  | Some r => (set_table (<[Z.to_nat (table_index ino) := f r]> s.(inode_table)) s, Done tt)
  | None => (s, Panic)
  end.
Definition add_link (r : Inode256) : Inode256 :=
  mk_inode256 {|
    i_mode := i_mode (body r); i_uid := i_uid (body r); i_size_lo := i_size_lo (body r);
    i_atime := i_atime (body r); i_ctime := i_ctime (body r); i_mtime := i_mtime (body r);
    i_dtime := i_dtime (body r); i_gid := i_gid (body r);
    i_links_count := wrap 16 (i_links_count (body r) + 1); i_blocks_lo := i_blocks_lo (body r);
    i_flags := i_flags (body r); i_version := i_version (body r); i_block := i_block (body r);
    i_generation := i_generation (body r); i_file_acl_lo := i_file_acl_lo (body r);
    i_size_hi := i_size_hi (body r); i_obso_faddr := i_obso_faddr (body r);
    i_blocks_hi := i_blocks_hi (body r); i_file_acl_hi := i_file_acl_hi (body r);
    i_uid_hi := i_uid_hi (body r); i_gid_hi := i_gid_hi (body r);
    i_checksum_lo := i_checksum_lo (body r); i_reserved := i_reserved (body r);
    i_extra_isize := i_extra_isize (body r); i_checksum_hi := i_checksum_hi (body r);
    i_ctime_extra := i_ctime_extra (body r); i_mtime_extra := i_mtime_extra (body r);
    i_atime_extra := i_atime_extra (body r); i_crtime := i_crtime (body r);
    i_crtime_extra := i_crtime_extra (body r); i_version_hi := i_version_hi (body r);
    i_projid := i_projid (body r) |} (inline_xattrs r).
Definition fill_inode (i : nat) : FM unit :=
  n ← fnode i;
  if n.(deleted) then mret tt
  else
    ino ← finode i;
    match ino, n.(hardlink_target) with
    | None, _ | _, Some _ => mret tt
    | Some ino, None =>
        s ← fget id;
        record ← flift (build_inode_record (bs_bytes s.(fs).(block_size)) s.(fs).(fs_timestamp)
                          (node_path i s.(fs)).2 n);
        upd_table ino (fun _ => record)
    end.
Definition count_hardlink (i : nat) : FM unit :=
  n ← fnode i;
  if n.(deleted) then mret tt
  else
    ino ← finode i;
    match ino, n.(hardlink_target) with
    | None, _ | _, None => mret tt
    | Some _, Some tgt => t ← finode tgt; t ← funwrap t; upd_table t add_link
    end.
Definition finalize_inode_table : FM unit :=
  s ← fget id;
  let all := seq 0 (length s.(fs).(nodes)) in
  _ ← ffor fill_inode all;
  ffor count_hardlink all.

(** ** Step 5: bitmaps and group descriptors *)
Definition set_bits (test : Z -> bool) (n : Z) (buf : list Z) : list Z :=
  fold_left (fun b i => if test i then set_bit b i else b) (seqZ 0 n) buf.
(** One group's block bitmap and free count. *)
Definition group_block_bitmap (bs bpg first_data used disk g : Z) : list Z * Z :=
  let group_first := (first_data + (g * bpg))%u32 in
  let valid_blocks := Z.min (sat_sub disk group_first) bpg in
  let used_blocks := Z.min (sat_sub used group_first) valid_blocks in
  (set_bits (fun l => let global := (group_first + l)%u32 in (global <? used) || (disk <=? global)) bpg
     (zeros (Z.to_nat bs)),
   valid_blocks - used_blocks).
(** The inode bitmaps: reserved inodes, then every inode in use, then the
    bits past the group's inodes. *)
Definition live_inodes (ns : list Node) (inos : list (option Z)) : list (bool * Z) :=
  omap (fun p => match p with
                 | (Some n, Some ino) => if n.(deleted) then None else Some (is_dir n.(mode), ino)
                 | _ => None
                 end)
    ((fun i => (ns !! i, default None (inos !! i))) <$> seq 0 (length inos)).
Definition mark_inode (ipg : Z) (bitmaps : list (list Z)) (ino : Z) : list (list Z) :=
  let index := (ino - 1)%u32 in
  alter (fun b => set_bit b (index mod ipg)) (Z.to_nat (index / ipg)) bitmaps.
Definition inode_bitmaps_for (bs ipg groups : Z) (used : list Z) : list (list Z) :=
  let bitmaps := replicate (Z.to_nat groups) (zeros (Z.to_nat bs)) in
  let bitmaps := alter (fun b => fold_left set_bit (seqZ 0 10) b) O bitmaps in
  let bitmaps := fold_left (mark_inode ipg) used bitmaps in
  (fun b => fold_left set_bit (seqZ ipg (bs * 8 - ipg)) b) <$> bitmaps.
(** The counting loop: directories, inodes in use, inodes in use per group. *)
Definition count_inode (ipg : Z) (st : Z * gset Z * Z * list Z) (p : bool * Z) : Z * gset Z * Z * list Z :=
  let '(dirs, seen, used, by_group) := st in
  let '(dir, ino) := p in
  if bool_decide (ino ∈ seen) then st
  else
    let seen := {[ ino ]} ∪ seen in
    let '(used, by_group) :=
      if 10 <? ino
      then ((used + 1)%u32, alter (fun c => (c + 1)%u32) (Z.to_nat ((ino - 1) / ipg)) by_group)
      else (used, by_group) in
    (if dir then wrap 16 (dirs + 1) else dirs, seen, used, by_group).
Definition count_inodes (ipg groups : Z) (l : list (bool * Z)) : Z * gset Z * Z * list Z :=
  fold_left (count_inode ipg) l
    (0, ∅, 10, alter (fun _ => 10) O (replicate (Z.to_nat groups) 0)).
Definition group_descriptor (bb ib it itb ipg dirs : Z) (free : list Z) (used : list Z) (g : Z)
    : GroupDescriptor :=
  mk_group_desc (bb + g)%u32 (ib + g)%u32 (it + (g * itb))%u32
    (Z.land (nth (Z.to_nat g) free 0) 0xFFFF)
    (Z.land (ipg - nth (Z.to_nat g) used 0)%u32 0xFFFF)
    (if g =? 0 then dirs else 0) 0 0 0 0 0 0.

(** The sizes step 5 settles on: blocks in use and blocks on disk. *)
Definition disk_blocks_for (bs : BlockSize) (min_size bpg groups used : Z) : Z :=
  let needed := Z.max used (bpg * groups)%u32 in
  let image_bytes := Z.max (needed * bs_bytes bs) min_size in
  let bg_bytes := bpg * bs_bytes bs in
  let aligned := wrap 64 (image_bytes + bg_bytes - 1) / bg_bytes * bg_bytes in
  wrap 32 (aligned / bs_bytes bs).
Definition write_bitmaps_and_gdt : FM unit :=
  s ← fget id;
  let bs := s.(fs).(block_size) in
  let bsb := bs_bytes bs in
  let ipg := s.(inodes_per_group) in
  let bpg := s.(blocks_per_group) in
  let groups := s.(block_groups) in
  let itb := inode_table_blocks_for bs ipg in
  let it := s.(next_free_block) in
  _ ← seek_to_block it;
  _ ← write_bytes (mjoin (inode256_bytes <$> s.(inode_table)));
  let written := lenz s.(inode_table) * INODE_SIZE in
  let expected := itb * bsb in
  _ ← (if written <? expected then write_bytes (zeros (Z.to_nat (expected - written))) else mret tt);
  _ ← (if 1 <? groups
       then ffor (fun _ => write_bytes (zeros (Z.to_nat expected))) (seqZ 1 (groups - 1)) else mret tt);
  let bb := (it + (itb * groups))%u32 in
  let ib := (bb + groups)%u32 in
  let used := (ib + groups)%u32 in
  _ ← fput (set_next used);
  let disk := disk_blocks_for bs s.(fs).(min_size) bpg groups used in
  let groups := Z.max (disk / bpg) 1 in
  _ ← fput (set_groups groups);
  let maps := (fun g => group_block_bitmap bsb bpg (first_data_block bs) used disk g) <$> seqZ 0 groups in
  let live := live_inodes s.(fs).(nodes) s.(inodes) in
  let ibitmaps := inode_bitmaps_for bsb ipg groups live.*2 in
  let '(dirs, _, inode_used, by_group) := count_inodes ipg groups live in
  _ ← seek_to_block bb;
  _ ← ffor write_bytes maps.*1;
  _ ← seek_to_block ib;
  _ ← ffor write_bytes ibitmaps;
  let descriptors := group_descriptor bb ib it itb ipg dirs maps.*2 by_group <$> seqZ 0 groups in
  _ ← seek_to_block (first_gdt_block_for_size bs);
  let gd := mjoin (group_desc_bytes <$> descriptors) in
  _ ← write_bytes gd;
  let consumed := wrap 32 (lenz gd) in
  let gdt_bytes := wrap 32 (sat_sub s.(header_blocks) (first_gdt_block_for_size bs) * bsb) in
  _ ← (if consumed <? gdt_bytes then write_bytes (zeros (Z.to_nat (gdt_bytes - consumed))) else mret tt);
  _ ← ensure_len (disk * bsb);
  fput (set_totals disk used inode_used).

(** ** Step 6: the superblock *)
(** The superblock [write_superblock] assembles. *)
Definition superblock_for (bs : BlockSize) (ts : Z) (uuid : list Z) (ipg bpg groups disk used inode_used : Z)
    : Superblock :=
  let total_inodes := (ipg * groups)%u32 in {|
  s_inodes_count := total_inodes; s_blocks_count_lo := disk; s_r_blocks_count_lo := 0;
  s_free_blocks_count_lo := sat_sub disk used;
  s_free_inodes_count := (total_inodes - inode_used)%u32;
  s_first_data_block := first_data_block bs; s_log_block_size := bs_log bs;
  s_log_cluster_size := bs_log bs; s_blocks_per_group := bpg; s_clusters_per_group := bpg;
  s_inodes_per_group := ipg; s_mtime := ts; s_wtime := ts; s_mnt_count := 0;
  s_max_mnt_count := 0xFFFF; s_magic := SUPERBLOCK_MAGIC; s_state := 1; s_errors := 1;
  s_minor_rev_level := 0; s_lastcheck := ts; s_checkinterval := 0; s_creator_os := 0;
  s_rev_level := 1; s_def_resuid := 0; s_def_resgid := 0; s_first_ino := FIRST_FREE_INODE;
  s_inode_size := INODE_SIZE; s_block_group_nr := 0;
  s_feature_compat := Z.lor COMPAT_EXT_ATTR COMPAT_SPARSE_SUPER2;
  s_feature_incompat := Z.lor (Z.lor INCOMPAT_FILETYPE INCOMPAT_EXTENTS) INCOMPAT_FLEX_BG;
  s_feature_ro_compat := Z.lor (Z.lor RO_COMPAT_LARGE_FILE RO_COMPAT_HUGE_FILE) RO_COMPAT_EXTRA_ISIZE;
  s_uuid := uuid; s_volume_name := zeros 16; s_last_mounted := zeros 64;
  s_algorithm_usage_bitmap := 0; s_prealloc_blocks := 0; s_prealloc_dir_blocks := 0;
  s_reserved_gdt_blocks := 0; s_journal_uuid := zeros 16; s_journal_inum := 0; s_journal_dev := 0;
  s_last_orphan := 0; s_hash_seed := zeros 4; s_def_hash_version := 0; s_jnl_backup_type := 0;
  s_desc_size := GROUP_DESC_SIZE; s_default_mount_opts := 0; s_first_meta_bg := 0;
  s_mkfs_time := ts; s_jnl_blocks := zeros 17; s_blocks_count_hi := 0; s_r_blocks_count_hi := 0;
  s_free_blocks_count_hi := 0; s_min_extra_isize := INODE_EXTRA_ISIZE;
  s_want_extra_isize := INODE_EXTRA_ISIZE; s_flags := 0; s_raid_stride := 0; s_mmp_interval := 0;
  s_mmp_block := 0; s_raid_stripe_width := 0; s_log_groups_per_flex := 31; s_checksum_type := 0;
  s_reserved_pad := 0; s_kbytes_written := 0; s_snapshot_inum := 0; s_snapshot_id := 0;
  s_snapshot_r_blocks_count := 0; s_snapshot_list := 0; s_error_count := 0;
  s_first_error_time := 0; s_first_error_ino := 0; s_first_error_block := 0;
  s_first_error_func := zeros 32; s_first_error_line := 0; s_last_error_time := 0;
  s_last_error_ino := 0; s_last_error_line := 0; s_last_error_block := 0;
  s_last_error_func := zeros 32; s_mount_opts := zeros 64; s_usr_quota_inum := 0;
  s_grp_quota_inum := 0; s_overhead_clusters := 0; s_backup_bgs := zeros 2;
  s_encrypt_algos := zeros 4; s_encrypt_pw_salt := zeros 16; s_lpf_ino := LOST_FOUND_INODE;
  s_prj_quota_inum := 0; s_checksum_seed := 0; s_wtime_hi := 0; s_mtime_hi := 0;
  s_mkfs_time_hi := 0; s_lastcheck_hi := 0; s_first_error_time_hi := 0; s_last_error_time_hi := 0;
  s_pad := zeros 2; s_reserved := zeros 96; s_checksum := 0
|}.
Definition write_superblock : FM unit :=
  s ← fget id;
  let b := s.(fs) in
  let sb := superblock_for b.(block_size) b.(fs_timestamp) b.(uuid) s.(inodes_per_group)
              s.(blocks_per_group) s.(block_groups) s.(total_disk_blocks_cache)
              s.(total_used_blocks_cache) s.(inode_used_count_cache) in
  _ ← seek_absolute SUPERBLOCK_OFFSET;
  write_bytes (superblock_bytes sb).

Definition finalizer_run : FM unit :=
  _ ← allocate_inodes;
  _ ← layout_header;
  _ ← write_data_region;
  _ ← finalize_inode_table;
  _ ← write_bitmaps_and_gdt;
  _ ← write_superblock;
  flush.
Definition finalizer_new (b : FileSystemBuilder) (w : W) : Fin :=
  mk_fin b w 0 [] [] 0 0 1 0 0 0 0 0.
(** [FileSystemBuilder::write]: the builder and the sink afterwards. *)
Definition fs_write (b : FileSystemBuilder) (w : W) : FileSystemBuilder * W * exec Ext4Error unit :=
  match finalizer_run (finalizer_new b w) with (s, r) => (s.(fs), s.(out), r) end.
End Writing.

(** ** A sink in memory ([Cursor<Vec<u8>>], as a log of writes) *)
Record MemSink := mk_mem { cursor : Z; log : list (Z * list Z) }.
#[global] Instance mem_sink : Sink MemSink := {
  sink_seek off w := (mk_mem off w.(log), Ok tt);
  sink_write_all data w := (mk_mem (w.(cursor) + lenz data) (w.(log) ++ [(w.(cursor), data)]), Ok tt);
  sink_flush w := (w, Ok tt)
}.
