(* ===== verification/Ext4Bitmaps.v ===== *)
(** * Bitmaps and free counts

    The block bitmap of every group marks exactly the blocks in use (and those
    past the end of the disk), its clear bits are the free count of its group
    descriptor, and the descriptors add up to the superblock. *)
From S2P Require Import Prelude Ext4Layout Ext4Tree Ext4Encode Ext4DirCodec Ext4Image.

(** ** Bits of a buffer *)
Definition bit (buf : list Z) (i : Z) : bool := Z.testbit (nth (Z.to_nat (i / 8)) buf 0) (i mod 8).
Definition clear_bits (buf : list Z) (n : Z) : Z :=
  lenz (List.filter (fun i => negb (bit buf i)) (seqZ 0 n)).

Lemma nth_alter_byte f (buf : list Z) i j :
  (j < length buf)%nat -> nth i (alter f j buf) 0 = if (i =? j)%nat then f (nth i buf 0) else nth i buf 0.
Proof.
  revert i j. induction buf as [|b buf IH]; intros i j Hj; [cbn in Hj; lia|].
  destruct j as [|j], i as [|i]; try done. cbn. apply IH. cbn in Hj. lia.
Qed.
Lemma set_bit_length buf j : length (set_bit buf j) = length buf.
Proof. unfold set_bit. destruct (_ <? _); [apply length_alter|done]. Qed.
Lemma bit_set_bit buf i j :
  0 <= i -> 0 <= j -> bit (set_bit buf j) i = bit buf i || ((i =? j) && (j / 8 <? lenz buf)).
Proof.
  intros Hi Hj. unfold bit, set_bit. destruct (Z.ltb_spec (j / 8) (lenz buf)) as [Hlt|]; [|by rewrite andb_false_r, orb_false_r].
  rewrite andb_true_r. pose proof (Z.div_pos j 8 Hj ltac:(lia)). pose proof (Z.div_pos i 8 Hi ltac:(lia)).
  rewrite nth_alter_byte by (unfold lenz in Hlt; lia).
  pose proof (Z.mod_pos_bound i 8). pose proof (Z.mod_pos_bound j 8).
  pose proof (Z.div_mod i 8). pose proof (Z.div_mod j 8).
  destruct (Nat.eqb_spec (Z.to_nat (i / 8)) (Z.to_nat (j / 8))) as [E|Hne].
  - rewrite Z.lor_spec. f_equal. rewrite Z.shiftl_1_l, Z.pow2_bits_eqb by lia.
    destruct (Z.eqb_spec i j); lia.
  - destruct (Z.eqb_spec i j) as [->|]; [done|]. by rewrite orb_false_r.
Qed.
Lemma set_bits_length test n buf : length (set_bits test n buf) = length buf.
Proof.
  unfold set_bits. generalize (seqZ 0 n). intros l. revert buf. induction l as [|j l IH]; intros buf; [done|].
  cbn [fold_left]. rewrite IH. destruct (test j); [apply set_bit_length|done].
Qed.
Lemma bit_set_bits test n buf i :
  0 <= i -> bit (set_bits test n buf) i = bit buf i || ((i <? n) && test i && (i / 8 <? lenz buf)).
Proof.
  intros Hi. unfold set_bits.
  assert (H : forall l buf, Forall (fun j => 0 <= j) l ->
    bit (fold_left (fun b j => if test j then set_bit b j else b) l buf) i
    = bit buf i || (existsb (fun j => i =? j) l && test i && (i / 8 <? lenz buf))).
  { clear buf. induction l as [|j l IH]; intros buf Hl; cbn [fold_left existsb].
    - by rewrite orb_false_r.
    - apply Forall_cons in Hl as [Hj Hl]. rewrite IH by done.
      assert (lenz (if test j then set_bit buf j else buf) = lenz buf) as ->.
      { unfold lenz. by destruct (test j); rewrite ?set_bit_length. }
      assert (bit (if test j then set_bit buf j else buf) i
              = bit buf i || ((i =? j) && test j && (j / 8 <? lenz buf))) as ->.
      { destruct (test j); [rewrite bit_set_bit by done; by rewrite andb_true_r|].
        by rewrite andb_false_r, orb_false_r. }
      destruct (Z.eqb_spec i j) as [->|]; cbn [andb orb]; [|by rewrite orb_false_r].
      destruct (bit buf j), (test j), (existsb _ l), (j / 8 <? lenz buf); done. }
  rewrite H.
  - f_equal. f_equal. f_equal. destruct (Z.ltb_spec i n).
    + apply existsb_exists. exists i. split; [|lia]. apply list_elem_of_In, elem_of_seqZ. lia.
    + apply not_true_iff_false. intros (j & Hj & E)%existsb_exists.
      apply list_elem_of_In, elem_of_seqZ in Hj. lia.
  - apply Forall_forall. intros j Hj%elem_of_seqZ. lia.
Qed.
Lemma bit_zeros n i : bit (zeros n) i = false.
Proof.
  unfold bit. assert (nth (Z.to_nat (i / 8)) (zeros n) 0 = 0) as ->; [|by rewrite Z.testbit_0_l].
  generalize (Z.to_nat (i / 8)). induction n as [|n IH]; intros [|k]; done || apply IH.
Qed.

(** ** Counting an interval *)
Lemma count_interval a b n :
  0 <= n ->
  lenz (List.filter (fun l => (a <=? l) && (l <? b)) (seqZ 0 n)) = Z.max 0 (Z.min b n - Z.max a 0).
Proof.
  intros Hn. rewrite <- (Z2Nat.id n Hn). generalize (Z.to_nat n). clear n Hn. intros k.
  induction k as [|k IH]; [change (Z.of_nat 0) with 0; change (lenz _) with 0; lia|].
  rewrite seqZ_S, List.filter_app, lenz_app, IH, Z.add_0_l. cbn [List.filter].
  destruct ((a <=? Z.of_nat k) && (Z.of_nat k <? b)) eqn:E.
  - change (lenz [_]) with 1. lia.
  - change (lenz (@nil Z)) with 0. lia.
Qed.

(** ** The bitmap of one group *)
Lemma group_sizes bs :
  0 < bs_bytes bs * 8 <= 32768 /\ 0 <= first_data_block bs <= 1 /\ 0 < bs_bytes bs.
Proof. unfold first_data_block. by destruct bs. Qed.
Section Group.
Context (bs : BlockSize) (used disk g : Z).
Let bpg := bs_bytes bs * 8.
Let fd := first_data_block bs.
Context (Hg : 0 <= g) (Hused : fd <= used <= disk) (Hrange : fd + (g + 1) * bpg < 2 ^ 32).
Let gf := fd + g * bpg.

Lemma group_first_eq : (fd + (g * bpg))%u32 = gf.
Proof using Hg Hrange.
  pose proof (group_sizes bs) as (Hb & Hf & _). fold bpg in Hb. fold fd in Hf. unfold wrap. apply Z.mod_small. unfold gf. nia.
Qed.
Lemma group_bitmap_bit l :
  0 <= l < bpg ->
  bit (group_block_bitmap (bs_bytes bs) bpg fd used disk g).1 l
  = (gf + l <? used) || (disk <=? gf + l).
Proof using Hg Hrange.
  intros Hl. pose proof (group_sizes bs) as (Hb & Hf & Hb8). fold bpg in Hb. fold fd in Hf. unfold group_block_bitmap. cbn [fst].
  rewrite group_first_eq, bit_set_bits, bit_zeros by lia. cbn [orb].
  assert ((gf + l)%u32 = gf + l) as ->.
  { unfold wrap. apply Z.mod_small. unfold gf. nia. }
  assert ((l <? bpg) = true) as -> by lia.
  assert ((l / 8 <? lenz (zeros (Z.to_nat (bs_bytes bs)))) = true) as ->.
  { unfold lenz. rewrite length_zeros, Z2Nat.id by lia. apply Z.ltb_lt, Z.div_lt_upper_bound; unfold bpg in Hl; lia. }
  cbn [andb]. by rewrite andb_true_r.
Qed.
(** The free count is the number of clear bits: the blocks of the group
    between the last one in use and the end of the disk. *)
Lemma group_free_eq :
  (group_block_bitmap (bs_bytes bs) bpg fd used disk g).2
  = Z.max 0 (Z.min disk (gf + bpg) - Z.max used gf).
Proof using Hg Hused Hrange.
  unfold group_block_bitmap. cbn [snd]. rewrite group_first_eq. unfold sat_sub. lia.
Qed.
Lemma group_clear_bits :
  clear_bits (group_block_bitmap (bs_bytes bs) bpg fd used disk g).1 bpg
  = (group_block_bitmap (bs_bytes bs) bpg fd used disk g).2.
Proof using Hg Hused Hrange.
  pose proof (group_sizes bs) as (Hb & _ & _). fold bpg in Hb. rewrite group_free_eq. unfold clear_bits.
  transitivity (lenz (List.filter (fun l => (used - gf <=? l) && (l <? disk - gf)) (seqZ 0 bpg))).
  - unfold lenz. do 2 f_equal. apply List.filter_ext_in. intros l Hl%list_elem_of_In%elem_of_seqZ.
    rewrite group_bitmap_bit by lia. destruct (Z.ltb_spec (gf + l) used), (Z.leb_spec disk (gf + l)); lia.
  - rewrite count_interval by lia. lia.
Qed.
End Group.

(** The blocks free in the first [k] groups. *)
Lemma free_sum bs used disk k :
  let bpg := bs_bytes bs * 8 in
  let fd := first_data_block bs in
  fd <= used <= disk -> fd + Z.of_nat k * bpg < 2 ^ 32 ->
  sumZ (fun g => (group_block_bitmap (bs_bytes bs) bpg fd used disk g).2) (seqZ 0 (Z.of_nat k))
  = Z.max 0 (Z.min disk (fd + Z.of_nat k * bpg) - used).
Proof.
  intros bpg fd Hu. destruct (group_sizes bs) as (Hb & Hf & _). fold bpg in Hb. fold fd in Hf.
  induction k as [|k IH]; intros Hr.
  - change (sumZ _ _) with 0. lia.
  - rewrite seqZ_S, sumZ_app, Z.add_0_l, IH by nia. cbn [sumZ]. unfold bpg, fd.
    rewrite group_free_eq by (fold bpg fd; lia || nia). fold bpg fd. nia.
Qed.

(** C30: free space is accounted for exactly.  For a disk of [groups] full
    groups (as [write_bitmaps_and_gdt] rounds it) with [used] blocks in use:
    in every group's bitmap a block's bit is set exactly when the block is in
    use or past the end of the disk; the number of clear bits is the free
    count, which fits the 16-bit field of the group descriptor; and the free
    counts add up to the superblock's. *)
Theorem free_blocks_consistent bs used groups bb ib it itb ipg dirs by_group ts u iu :
  let bpg := bs_bytes bs * 8 in
  let fd := first_data_block bs in
  let disk := groups * bpg in
  let map g := group_block_bitmap (bs_bytes bs) bpg fd used disk g in
  let free := (map <$> seqZ 0 groups).*2 in
  let desc := group_descriptor bb ib it itb ipg dirs free by_group in
  1 <= groups -> fd <= used <= disk -> fd + disk < 2 ^ 32 ->
  (forall g l, 0 <= g < groups -> 0 <= l < bpg ->
     bit (map g).1 l = (fd + g * bpg + l <? used) || (disk <=? fd + g * bpg + l)) /\
  (forall g, 0 <= g < groups -> bg_free_blocks_count_lo (desc g) = clear_bits (map g).1 bpg) /\
  sumZ (fun g => bg_free_blocks_count_lo (desc g)) (seqZ 0 groups)
  = s_free_blocks_count_lo (superblock_for bs ts u ipg bpg groups disk used iu).
Proof.
  intros bpg fd disk map free desc Hg Hu Hr.
  destruct (group_sizes bs) as (Hb & Hf & _). fold bpg in Hb. fold fd in Hf.
  assert (Hin : forall g, 0 <= g < groups -> fd + (g + 1) * bpg < 2 ^ 32) by (intros; unfold disk in *; nia).
  assert (Hdesc : forall g, 0 <= g < groups -> bg_free_blocks_count_lo (desc g) = (map g).2).
  { intros g Hgr. change (bg_free_blocks_count_lo (desc g)) with (Z.land (nth (Z.to_nat g) free 0) 65535).
    assert (nth (Z.to_nat g) free 0 = (map g).2) as ->.
    { apply nth_lookup_Some. unfold free. rewrite !list_lookup_fmap, lookup_seqZ_lt by lia.
      by replace (0 + Z.of_nat (Z.to_nat g)) with g by lia. }
    change 65535 with (Z.ones 16). rewrite Z.land_ones by lia. apply Z.mod_small.
    unfold map, bpg, fd. rewrite group_free_eq; fold bpg fd; [|lia|lia|by apply Hin]. lia. }
  split; [|split].
  - intros g l Hgr Hl. unfold map. apply group_bitmap_bit; [lia|by apply Hin|done].
  - intros g Hgr. rewrite Hdesc by done. symmetry. apply group_clear_bits; [lia|done|by apply Hin].
  - rewrite (sumZ_ext _ (fun g => (map g).2)).
    + rewrite <- (Z2Nat.id groups) at 1 by lia. unfold map. rewrite free_sum.
      * cbn. unfold sat_sub. fold bpg fd. rewrite Z2Nat.id by lia. fold disk. lia.
      * done.
      * rewrite Z2Nat.id by lia. done.
    + apply Forall_forall. intros g Hgr%elem_of_seqZ. apply Hdesc. lia.
Qed.
Lemma free_blocks_consistent_witness :
  sumZ (fun g => bg_free_blocks_count_lo
     (group_descriptor 9 10 11 16 256 3 ((fun g => group_block_bitmap 1024 8192 1 75 16384 g) <$> seqZ 0 2).*2 [] g))
    (seqZ 0 2) = s_free_blocks_count_lo (superblock_for K1 0 [] 256 8192 2 16384 75 12).
Proof.
  apply (free_blocks_consistent K1 75 2 9 10 11 16 256 3 [] 0 [] 12); (split; discriminate) || discriminate || reflexivity.
Defined.
