(* ===== verification/Ext4Groups.v ===== *)
(** * The number of block groups

    [estimate_block_groups] iterates "blocks needed with [g] groups" to a
    fixpoint.  The loop ends, at the least number of groups that holds
    everything, and the later rounding of the image keeps that number. *)
From S2P Require Import Prelude Ext4Layout Ext4Tree Ext4Encode Ext4Image.

(** ** Iterating a monotone function from below *)
Lemma groups_loop_spec (f : Z -> Z) (B : Z) fuel g :
  (forall x y, 1 <= x -> x <= y -> y <= B -> f x <= f y) -> f B <= B ->
  1 <= g <= B -> g <= f g -> (forall x, 1 <= x < g -> x < f x) -> B - g < Z.of_nat fuel ->
  exists r, groups_loop fuel f g = Done r /\ f r = r /\ g <= r <= B /\ (forall x, 1 <= x < r -> x < f x).
Proof.
  intros Hmono HB. revert g. induction fuel as [|fuel IH]; intros g Hg Hup Hlow Hfuel; [lia|].
  cbn [groups_loop]. destruct (Z.eqb_spec (f g) g) as [E|Hne]; [exists g; split_and!; done || lia|].
  assert (f g <= B) by (transitivity (f B); [apply Hmono; lia|done]).
  destruct (IH (f g)) as (r & Hr & Hfix & Hb & Hl); [lia|apply Hmono; lia| |lia|].
  - intros x Hx. destruct (Z.lt_ge_cases x g); [auto with lia|].
    apply Z.lt_le_trans with (f g); [lia|]. apply Hmono; lia.
  - exists r. split_and!; done || lia.
Qed.

(** ** The estimate *)
Lemma wrap_u32 z : 0 <= z < 4294967296 -> wrap 32 z = z.
Proof. intros H. unfold wrap. by apply Z.mod_small. Qed.
Lemma bs_cases bs : bs_bytes bs = 1024 \/ bs_bytes bs = 2048 \/ bs_bytes bs = 4096.
Proof. destruct bs; tauto. Qed.
Lemma gdt_first bs : 1 <= first_gdt_block_for_size bs <= 2.
Proof. by destruct bs. Qed.
Definition P_max : Z := 1073741824.
Section Estimate.
Context (bs : BlockSize) (itb payload minb : Z).
Let bpg := bs_bytes bs * 8.
Context (Hitb : 0 <= itb <= 2048) (Hp : 0 <= payload) (Hm : 0 <= minb) (Hpm : payload + minb < P_max).
Let B := 8 + 2 * ((payload + minb) / bpg).
Let f := next_groups bs bpg itb payload minb.
(** The blocks needed, without the wrap-around. *)
Let need g := Z.max (first_gdt_block_for_size bs + Z.max ((g * 32 + bs_bytes bs - 1) / bs_bytes bs) 1
                     + payload + g * (itb + 2)) minb.

Lemma B_bound :
  8 <= B <= 524296 /\ 2 * (payload + minb) < (B - 6) * bpg /\ B * bpg <= 262144 + 2 * (payload + minb).
Proof using All.
  unfold B, bpg, P_max in *. pose proof (bs_cases bs).
  pose proof (Z.div_mod (payload + minb) (bs_bytes bs * 8)) as Hd.
  pose proof (Z.mod_pos_bound (payload + minb) (bs_bytes bs * 8)).
  assert (0 <= (payload + minb) / (bs_bytes bs * 8)) by (apply Z.div_pos; lia).
  assert ((payload + minb) / (bs_bytes bs * 8) <= 262144).
  { apply Z.lt_succ_r, Z.div_lt_upper_bound; lia. }
  split; [lia|]. clear - Hd H H0. set (q := (payload + minb) / (bs_bytes bs * 8)) in *.
  replace ((8 + 2 * q - 6) * (bs_bytes bs * 8)) with (2 * (bs_bytes bs * 8 * q) + 2 * (bs_bytes bs * 8)) by lia.
  replace ((8 + 2 * q) * (bs_bytes bs * 8)) with (2 * (bs_bytes bs * 8 * q) + 8 * (bs_bytes bs * 8)) by lia.
  lia.
Qed.
Lemma gdt_part g : 1 <= g <= B -> 1 <= Z.max ((g * 32 + bs_bytes bs - 1) / bs_bytes bs) 1 <= g.
Proof using All.
  intros Hg. pose proof (bs_cases bs). split; [lia|]. apply Z.max_lub; [|lia].
  apply Z.lt_succ_r, Z.div_lt_upper_bound; nia.
Qed.
Lemma meta_bound g : 1 <= g <= B -> 0 <= g * (itb + 2) <= 1074806800 /\ g * (itb + 2) <= g * 2050.
Proof using All.
  intros Hg. pose proof B_bound as [HB _].
  assert (g * (itb + 2) <= g * 2050) by (apply Z.mul_le_mono_nonneg_l; lia).
  split; [|done]. split; [apply Z.mul_nonneg_nonneg; lia|lia].
Qed.
Lemma need_eq g : 1 <= g <= B -> needed_blocks_for bs itb payload minb g = need g.
Proof using All.
  intros Hg. pose proof B_bound as [HB _]. pose proof (bs_cases bs). pose proof (gdt_first bs).
  pose proof (gdt_part g Hg) as Hq. pose proof (meta_bound g Hg) as [Hmeta _].
  unfold needed_blocks_for, need, gdt_blocks_for, GROUP_DESC_SIZE.
  rewrite (wrap_u32 (g * 32 + bs_bytes bs - 1)) by lia.
  set (meta := g * (itb + 2)) in *. set (q := Z.max ((g * 32 + bs_bytes bs - 1) / bs_bytes bs) 1) in *.
  clearbody meta q. unfold P_max in Hpm. rewrite (wrap_u32 meta) by lia.
  rewrite (wrap_u32 (first_gdt_block_for_size bs + q)) by lia.
  rewrite wrap_u32 by lia. reflexivity.
Qed.
Lemma need_mono x y : 1 <= x -> x <= y -> y <= B -> need x <= need y.
Proof using All.
  intros Hx Hxy Hy. unfold need. pose proof (bs_cases bs).
  apply Z.max_le_compat_r, Z.add_le_mono; [|apply Z.mul_le_mono_nonneg_r; lia].
  apply Z.add_le_mono_r, Z.add_le_mono_l, Z.max_le_compat_r, Z.div_le_mono; lia.
Qed.
Lemma need_bounds g : 1 <= g <= B -> 0 < need g /\ need g < 2 ^ 32.
Proof using All.
  intros Hg. pose proof B_bound as [HB _]. pose proof (gdt_first bs). pose proof (gdt_part g Hg).
  pose proof (meta_bound g Hg) as [Hmeta _]. unfold need, P_max in *.
  set (meta := g * (itb + 2)) in *. set (q := Z.max ((g * 32 + bs_bytes bs - 1) / bs_bytes bs) 1) in *.
  clearbody meta q. lia.
Qed.
(** [f g] is the number of groups that holds [need g] blocks. *)
Lemma f_eq g : 1 <= g <= B -> f g = 1 + (need g - 1) / bpg.
Proof using All.
  intros Hg. pose proof (need_bounds g Hg) as Hn. pose proof (bs_cases bs).
  unfold f, next_groups. rewrite need_eq by done. unfold div_ceil_u64.
  destruct (Z.eqb_spec (need g) 0); [lia|]. fold bpg.
  assert (0 <= (need g - 1) / bpg < 2 ^ 31).
  { unfold bpg. split; [apply Z.div_pos; lia|apply Z.div_lt_upper_bound; lia]. }
  unfold max_uint. lia.
Qed.
Lemma f_mono x y : 1 <= x -> x <= y -> y <= B -> f x <= f y.
Proof using All.
  intros Hx Hxy Hy. rewrite !f_eq by lia. pose proof (need_mono x y Hx Hxy Hy). pose proof (bs_cases bs).
  apply Z.add_le_mono_l, Z.div_le_mono; unfold bpg; lia.
Qed.
Lemma f_le g k : 1 <= g <= B -> f g <= k <-> need g <= k * bpg.
Proof using All.
  intros Hg. rewrite f_eq by done. pose proof (need_bounds g Hg). pose proof (bs_cases bs).
  assert (Hb : 0 < bpg) by (unfold bpg; lia). split; intros Hk.
  - pose proof (Z.div_mod (need g - 1) bpg). pose proof (Z.mod_pos_bound (need g - 1) bpg).
    assert (bpg * ((need g - 1) / bpg) <= bpg * (k - 1)) by (apply Z.mul_le_mono_nonneg_l; lia). lia.
  - assert ((need g - 1) / bpg < k); [|lia]. apply Z.div_lt_upper_bound; lia.
Qed.
Lemma f_top : f B <= B.
Proof using All.
  pose proof B_bound as (HB & HP & _). apply f_le; [lia|]. pose proof (bs_cases bs). pose proof (gdt_first bs).
  pose proof (gdt_part B ltac:(lia)). pose proof (meta_bound B ltac:(lia)) as [_ Hmeta].
  set (meta := B * (itb + 2)) in *. unfold need. fold meta. set (q := Z.max _ 1) in *. unfold bpg in *.
  destruct H as [E|[E|E]]; rewrite E in *; lia.
Qed.

Lemma estimate_spec :
  exists g, groups_loop (groups_fuel bpg payload minb) f 1 = Done g /\ 1 <= g <= B /\
    need g <= g * bpg /\ (forall x, 1 <= x < g -> x * bpg < need x).
Proof using All.
  pose proof B_bound as [HB _].
  destruct (groups_loop_spec f B (groups_fuel bpg payload minb) 1) as (r & Hr & Hfix & Hb & Hl).
  - apply f_mono.
  - apply f_top.
  - lia.
  - apply Z.le_max_r.
  - lia.
  - unfold groups_fuel. change (8 + 2 * ((payload + minb) / bpg)) with B. clear -HB. lia.
  - exists r. split; [done|]. split; [lia|]. split; [apply f_le; lia|]. intros x Hx.
    specialize (Hl x Hx). apply Z.lt_nge. intros Hle. apply f_le in Hle; lia.
Qed.
End Estimate.

(** Rounding the image to whole groups keeps the number of groups. *)
Lemma disk_blocks_exact bs min_size groups used :
  let bpg := bs_bytes bs * 8 in
  1 <= groups -> groups * bpg < 2 ^ 32 -> 0 <= used <= groups * bpg ->
  min_size <= groups * bpg * bs_bytes bs ->
  disk_blocks_for bs min_size bpg groups used = groups * bpg.
Proof.
  intros bpg Hg Hr Hu Hm. unfold disk_blocks_for. pose proof (bs_cases bs) as Hb.
  assert (Hbpg : 0 < bpg) by (unfold bpg; lia). rewrite (Z.mul_comm bpg groups).
  assert (wrap 32 (groups * bpg) = groups * bpg) as ->.
  { apply wrap_u32. split; [apply Z.mul_nonneg_nonneg; lia|lia]. }
  rewrite (Z.max_r used (groups * bpg)) by lia. rewrite Z.max_l by lia. set (bgb := bpg * bs_bytes bs).
  assert (Hbgb : 0 < bgb) by (unfold bgb; nia).
  assert (groups * bpg * bs_bytes bs = groups * bgb) as -> by (unfold bgb; lia).
  assert (Hsmall : groups * bgb + bgb - 1 < 2 ^ 64) by (unfold bgb; nia).
  assert (0 <= groups * bgb) by (apply Z.mul_nonneg_nonneg; lia).
  assert (wrap 64 (groups * bgb + bgb - 1) = groups * bgb + bgb - 1) as ->
    by (unfold wrap; apply Z.mod_small; lia).
  replace (groups * bgb + bgb - 1) with ((bgb - 1) + groups * bgb) by lia.
  rewrite Z.div_add by lia. rewrite (Z.div_small (bgb - 1) bgb) by lia. rewrite Z.add_0_l. unfold bgb.
  rewrite Z.mul_assoc, Z.div_mul by lia. apply wrap_u32. lia.
Qed.
Lemma inode_table_small bs ipg : 0 <= ipg <= bs_bytes bs * 8 -> 0 <= inode_table_blocks_for bs ipg <= 2048.
Proof.
  intros Hi. unfold inode_table_blocks_for, INODE_SIZE. destruct (bs_cases bs) as [E|[E|E]]; rewrite E in *;
    rewrite wrap_u32 by lia; (split; [apply Z.div_pos; lia|apply Z.lt_succ_r, Z.div_lt_upper_bound; lia]).
Qed.
Lemma div_ceil_le n d k : 0 <= n -> 0 < d -> div_ceil_u64 n d <= k -> n <= k * d.
Proof.
  intros Hn Hd. unfold div_ceil_u64. destruct (Z.eqb_spec n 0) as [->|]; intros Hk; [apply Z.mul_nonneg_nonneg; lia|].
  pose proof (Z.div_mod (n - 1) d). pose proof (Z.mod_pos_bound (n - 1) d).
  assert (d * ((n - 1) / d) <= d * (k - 1)) by (apply Z.mul_le_mono_nonneg_l; lia). lia.
Qed.
Lemma div_ceil_nonneg n d : 0 <= n -> 0 < d -> 0 <= div_ceil_u64 n d.
Proof.
  intros Hn Hd. unfold div_ceil_u64. destruct (Z.eqb_spec n 0); [lia|].
  assert (0 <= (n - 1) / d) by (apply Z.div_pos; lia). lia.
Qed.

(** C31: the group estimate ends and is enough.  When payload and requested
    size together stay below 2^30 blocks, the loop reaches a number of groups
    [g] such that header, payload and the metadata of [g] groups fit in [g]
    groups, the requested minimum size is covered, no smaller number of groups
    would do, and rounding the finished image to whole groups gives exactly
    [g] groups, so the descriptors written for [g] groups describe the disk. *)
Theorem block_groups_fit bs min_size ipg ns inos payload :
  let bpg := bs_bytes bs * 8 in
  let itb := inode_table_blocks_for bs ipg in
  let minb := div_ceil_u64 min_size (bs_bytes bs) in
  estimate_payload_blocks bs ns inos = Done payload -> 0 <= payload -> 0 <= min_size ->
  payload + minb < P_max -> 0 <= ipg <= bpg ->
  exists g,
    estimate_block_groups bs bpg min_size ipg ns inos = Done g /\ 1 <= g /\
    let used := first_gdt_block_for_size bs + gdt_blocks_for bs g + payload + g * (itb + 2) in
    used <= g * bpg /\ min_size <= g * bpg * bs_bytes bs /\
    disk_blocks_for bs min_size bpg g used = g * bpg /\
    (forall x, 1 <= x < g -> x * bpg < needed_blocks_for bs itb payload minb x).
Proof.
  intros bpg itb minb Hest Hp Hm Hpm Hipg. pose proof (bs_cases bs) as Hb.
  pose proof (inode_table_small bs ipg Hipg) as Hitb. fold itb in Hitb.
  assert (Hminb : 0 <= minb) by (apply div_ceil_nonneg; lia).
  destruct (estimate_spec bs itb payload minb Hitb Hp Hminb Hpm) as (g & Hrun & Hg & Hneed & Hmin).
  fold bpg in Hrun, Hg, Hneed, Hmin. pose proof (B_bound bs itb payload minb Hitb Hp Hminb Hpm) as (HB & HP & Htop).
  fold bpg in HB, HP, Htop.
  exists g. split.
  { unfold estimate_block_groups. rewrite Hest. cbn [mbind exec_bind].
    rewrite (Z.max_l bpg 1) by (unfold bpg; clear - Hb; lia). exact Hrun. }
  split; [apply Hg|].
  assert (Hgdt : gdt_blocks_for bs g = Z.max ((g * 32 + bs_bytes bs - 1) / bs_bytes bs) 1).
  { unfold gdt_blocks_for, GROUP_DESC_SIZE. rewrite wrap_u32 by (clear - Hg HB Hb; lia). done. }
  intros used. assert (Hu : used = first_gdt_block_for_size bs
    + Z.max ((g * 32 + bs_bytes bs - 1) / bs_bytes bs) 1 + payload + g * (itb + 2)) by (unfold used; by rewrite Hgdt).
  apply Z.max_lub_iff in Hneed as [Hused Hmb]. rewrite <- Hu in Hused. clearbody used.
  assert (Hms : min_size <= g * bpg * bs_bytes bs) by (apply div_ceil_le; lia).
  pose proof (gdt_first bs). pose proof (gdt_part bs itb payload minb Hitb Hp Hminb Hpm g Hg) as Hq.
  pose proof (meta_bound bs itb payload minb Hitb Hp Hminb Hpm g Hg) as [Hmeta _].
  split; [exact Hused|]. split; [exact Hms|]. split.
  - apply disk_blocks_exact; [lia| | |exact Hms].
    + unfold P_max in Hpm. fold bpg. eapply Z.le_lt_trans; [apply Z.mul_le_mono_nonneg_r; [lia|apply Hg]|].
      clear - Htop Hpm. lia.
    + fold bpg. split; [|exact Hused]. rewrite Hu. clear - Hp H Hq Hmeta. lia.
  - intros x Hx. rewrite (need_eq bs itb payload minb Hitb Hp Hminb Hpm x).
    + apply Hmin, Hx.
    + split; [apply Hx|]. transitivity g; [apply Z.lt_le_incl, Hx|apply Hg].
Qed.
Lemma block_groups_fit_witness :
  exists g,
    estimate_block_groups K4 32768 1048576 256 [root_node] [Some 2] = Done g /\ 1 <= g /\
    let used := 1 + gdt_blocks_for K4 g + 1 + g * (inode_table_blocks_for K4 256 + 2) in
    used <= g * 32768 /\ 1048576 <= g * 32768 * 4096 /\
    disk_blocks_for K4 1048576 32768 g used = g * 32768 /\
    (forall x, 1 <= x < g -> x * 32768 < needed_blocks_for K4 (inode_table_blocks_for K4 256) 1
                                    (div_ceil_u64 1048576 4096) x).
Proof.
  apply (block_groups_fit K4 1048576 256 [root_node] [Some 2] 1);
    vm_compute; (reflexivity || (split; discriminate) || discriminate).
Defined.
