(* ===== verification/Ext4Inodes.v ===== *)
(** * Inode numbers ([Finalizer::allocate_inodes])

    The breadth-first numbering visits every live node of the tree exactly
    once, so that every live node that is not a hard link has its own inode,
    the root and lost+found their reserved ones. *)
From S2P Require Import Prelude Ext4Layout Ext4Path Ext4Tree Ext4TreeInv Ext4TreeOps Ext4TreeSpec Ext4Encode Ext4Image.

(** ** Reserved inodes survive every operation *)
(** Nodes keep the inode they were created with; new nodes have none. *)
Definition inodes_kept (s s' : FileSystemBuilder) : Prop :=
  exists k, inode <$> s'.(nodes) = (inode <$> s.(nodes)) ++ replicate k None.
Definition keeps_inodes {A} (m : ST A) : Prop := forall s, inodes_kept s (m s).1.

Lemma inodes_kept_refl s : inodes_kept s s.
Proof. exists O. by rewrite app_nil_r. Qed.
Lemma inodes_kept_trans s1 s2 s3 : inodes_kept s1 s2 -> inodes_kept s2 s3 -> inodes_kept s1 s3.
Proof. intros [k Hk] [l Hl]. exists (k + l)%nat. by rewrite Hl, Hk, <- app_assoc, replicate_add. Qed.
Lemma keeps_bind {A B} (m : ST A) (k : A -> ST B) :
  keeps_inodes m -> (forall a, keeps_inodes (k a)) -> keeps_inodes (x ← m; k x).
Proof.
  intros Hm Hk s. specialize (Hm s). unfold mbind, ST_bind. destruct (m s) as [s1 [a|e|]]; [|done..].
  eapply inodes_kept_trans; [exact Hm|apply Hk].
Qed.
Lemma keeps_ret {A} (a : A) : keeps_inodes (mret a).
Proof. intros s. apply inodes_kept_refl. Qed.
Lemma keeps_throw {A} e : keeps_inodes (throw (A := A) e).
Proof. intros s. apply inodes_kept_refl. Qed.
Lemma keeps_panic {A} : keeps_inodes (panic (A := A)).
Proof. intros s. apply inodes_kept_refl. Qed.
Lemma keeps_gets {A} (f : _ -> A) : keeps_inodes (gets f).
Proof. intros s. apply inodes_kept_refl. Qed.
Lemma keeps_node i : keeps_inodes (node i).
Proof. intros s. apply inodes_kept_refl. Qed.
Lemma keeps_node_path i : keeps_inodes (node_path i).
Proof. intros s. apply inodes_kept_refl. Qed.
Lemma keeps_lift {A} (r : result Ext4Error A) : keeps_inodes (lift r).
Proof. intros s. destruct r; apply inodes_kept_refl. Qed.
Lemma keeps_index f : keeps_inodes (modify (fun s => set_index (f s) s)).
Proof. intros s. exists O. by rewrite app_nil_r. Qed.
Lemma keeps_upd i f : (forall n, (f n).(inode) = n.(inode)) -> keeps_inodes (upd_node i f).
Proof.
  intros Hf s. unfold upd_node. destruct (s.(nodes) !! i) as [n|] eqn:E; [|apply inodes_kept_refl].
  exists O. cbn. rewrite app_nil_r, list_fmap_insert, Hf. apply list_insert_id.
  by rewrite list_lookup_fmap, E.
Qed.
Lemma keeps_push n : n.(inode) = None -> keeps_inodes (push_node n).
Proof. intros Hn s. exists 1%nat. cbn. by rewrite fmap_app, fmap_cons, Hn. Qed.
Lemma keeps_for_each {A} (f : A -> ST unit) l : (forall x, keeps_inodes (f x)) -> keeps_inodes (for_each f l).
Proof. intros Hf. induction l as [|x l IH]; [apply keeps_ret|]. cbn [for_each]. by apply keeps_bind. Qed.

Ltac keeps :=
  repeat first
    [ apply keeps_bind; [|intros ?] | apply keeps_ret | apply keeps_throw | apply keeps_panic
    | apply keeps_gets | apply keeps_node | apply keeps_node_path | apply keeps_lift | apply keeps_index
    | apply keeps_for_each; intros ? | (apply keeps_upd; intros ?; reflexivity)
    | (apply keeps_push; reflexivity) | assumption | case_match ].

Lemma keeps_delete_fuel fuel : forall i u, keeps_inodes (delete_subtree_fuel fuel i u).
Proof.
  induction fuel as [|fuel IH]; intros i u; cbn [delete_subtree_fuel]; [keeps|].
  unfold delete_below, unlink_node, index_remove. keeps; apply IH.
Qed.
Lemma keeps_delete i u : keeps_inodes (delete_subtree i u).
Proof. intros s. apply keeps_delete_fuel. Qed.
Lemma keeps_add_dir_fuel fuel : forall p md u g, keeps_inodes (add_dir_fuel fuel p md u g 0).
Proof.
  induction fuel as [|fuel IH]; intros p md u g; cbn [add_dir_fuel]; [keeps|].
  unfold ensure_parent_with, basename_st, index_get, index_insert. keeps; apply IH.
Qed.
Lemma keeps_add_dir_internal p md u g : keeps_inodes (add_dir_internal p md u g 0).
Proof. apply keeps_add_dir_fuel. Qed.
#[local] Opaque delete_subtree add_dir_internal.
Lemma keeps_ensure_parent p : keeps_inodes (ensure_parent p).
Proof. unfold ensure_parent, ensure_parent_with, index_get. keeps; apply keeps_add_dir_internal. Qed.
Lemma keeps_remove_existing p md : keeps_inodes (remove_existing_leaf p md).
Proof. unfold remove_existing_leaf, index_get. keeps; apply keeps_delete. Qed.
#[local] Opaque ensure_parent remove_existing_leaf.
Lemma keeps_add_leaf p c md : keeps_inodes (add_leaf_node p c md).
Proof.
  unfold add_leaf_node, basename_st, index_insert.
  keeps; first [apply keeps_remove_existing | apply keeps_ensure_parent].
Qed.
#[local] Opaque add_leaf_node.
Lemma keeps_exec_op o : keeps_inodes (exec_op o).
Proof.
  destruct o; cbn [exec_op]; unfold add_dir, add_file, add_whiteout, add_opaque_dir, add_symlink, add_hardlink,
    set_xattr, remove_path, clear_dir, basename_st, index_get, index_insert;
    keeps; first [apply keeps_remove_existing | apply keeps_ensure_parent | apply keeps_delete
                 | apply keeps_add_leaf | apply keeps_add_dir_internal].
Qed.
#[local] Transparent delete_subtree add_dir_internal ensure_parent remove_existing_leaf add_leaf_node.

(** Only lost+found, the first node a new builder adds, has a fixed inode. *)
Definition fixed_ok (s : FileSystemBuilder) : Prop :=
  forall i n, s.(nodes) !! i = Some n ->
    n.(inode) = if decide (i = 1%nat) then Some LOST_FOUND_INODE else None.
Lemma fixed_ok_kept s s' : (1 < length s.(nodes))%nat -> inodes_kept s s' -> fixed_ok s -> fixed_ok s'.
Proof.
  intros Hlen [k Hk] Hok i n E. assert (Hi : (inode <$> s'.(nodes)) !! i = Some n.(inode)).
  { by rewrite list_lookup_fmap, E. }
  rewrite Hk in Hi. destruct (decide (i < length s.(nodes))%nat) as [Hlt|Hge].
  - rewrite lookup_app_l in Hi by by rewrite length_fmap. rewrite list_lookup_fmap in Hi.
    destruct (s.(nodes) !! i) as [m|] eqn:Em; [|done]. injection Hi as <-. by apply Hok.
  - rewrite lookup_app_r in Hi by (rewrite length_fmap; lia). apply lookup_replicate in Hi as [<- _].
    rewrite decide_False; [done|lia].
Qed.
Lemma inodes_kept_length s s' : inodes_kept s s' -> (length s.(nodes) <= length s'.(nodes))%nat.
Proof.
  intros [k Hk]. apply (f_equal length) in Hk. rewrite length_app, !length_fmap in Hk. lia.
Qed.
Lemma fs_new_fixed bs : fixed_ok (fs_new bs) /\ length (fs_new bs).(nodes) = 2%nat.
Proof.
  split; [|destruct bs; vm_compute; reflexivity]. intros i n.
  assert (Hn : (fs_new bs).(nodes) = (fs_new K4).(nodes)) by (destruct bs; vm_compute; reflexivity).
  rewrite Hn. destruct i as [|[|i]]; [vm_compute; by intros [= <-]..|]. vm_compute. destruct i; discriminate.
Qed.
Lemma run_fixed ops bs : fixed_ok (run ops (fs_new bs)) /\ (2 <= length (run ops (fs_new bs)).(nodes))%nat.
Proof.
  destruct (fs_new_fixed bs) as [Hf Hl]. revert Hf Hl. generalize (fs_new bs). intros s Hf Hl.
  assert (Hl' : (2 <= length s.(nodes))%nat) by lia. clear Hl. revert s Hf Hl'.
  induction ops as [|o ops IH]; intros s Hf Hl; [done|]. cbn [run]. pose proof (keeps_exec_op o s) as Hk.
  apply IH; [eapply fixed_ok_kept; [|done..]; lia|]. apply inodes_kept_length in Hk. lia.
Qed.

Lemma fixed_inodes_lookup ns : forall k inos j, (j < length inos)%nat ->
  length (fixed_inodes ns k inos) = length inos /\
  fixed_inodes ns k inos !! j =
    match (if decide (k <= j)%nat then ns !! (j - k)%nat else None) with
    | Some n => if n.(deleted) then inos !! j
                else match n.(inode) with Some ino => Some (Some ino) | None => inos !! j end
    | None => inos !! j
    end.
Proof.
  induction ns as [|n ns IH]; intros k inos j Hj; [by case_decide|]. cbn [fixed_inodes].
  set (inos1 := if n.(deleted) then inos else _).
  assert (Hl : length inos1 = length inos) by (unfold inos1; repeat case_match; rewrite ?length_insert; done).
  destruct (IH (S k) inos1 j ltac:(lia)) as [-> ->]. split; [done|].
  destruct (decide (j = k)) as [->|Hne].
  - rewrite decide_False by lia. rewrite decide_True, Nat.sub_diag by lia. cbn. unfold inos1.
    case_match; [done|]. case_match; [|done]. by apply list_lookup_insert_eq.
  - assert (inos1 !! j = inos !! j) as -> by (unfold inos1; repeat case_match; rewrite ?list_lookup_insert_ne; done).
    destruct (decide (S k <= j)%nat); [rewrite (decide_True (P := (k <= j)%nat)) by lia|rewrite decide_False by lia]; [|done].
    by replace (j - k)%nat with (S (j - S k)) by lia.
Qed.

(** ** The walk *)
Section Numbering.
Context (s : FileSystemBuilder) (I : inv s) (Hfixed : fixed_ok s)
  (Hbound : Z.of_nat (length s.(nodes)) + 13 < 2 ^ 32).

(** The inode a node has before the walk. *)
Definition seed (i : nat) : option Z :=
  if decide (i = O) then Some ROOT_INODE
  else match s.(nodes) !! i with
       | Some n => if n.(deleted) then None else n.(inode)
       | None => None
       end.
(** The walk gives the node an inode of its own. *)
Definition own (i : nat) : bool :=
  match seed i, s.(nodes) !! i with
  | None, Some n => match n.(hardlink_target) with None => true | Some _ => false end
  | _, _ => false
  end.
(** The inodes after visiting the nodes of [V]. *)
Record numbered (V : list nat) (inos : list (option Z)) (next : Z) : Prop := {
  nb_len : length inos = length s.(nodes);
  nb_nodup : NoDup V;
  nb_live i : i ∈ V -> exists n, live s i n;
  nb_seed i : (i < length s.(nodes))%nat -> i ∉ V \/ seed i <> None -> inos !! i = Some (seed i);
  nb_own i : i ∈ V -> own i = true -> exists ino, inos !! i = Some (Some ino) /\ 12 <= ino < next;
  nb_inj i j ino : i ∈ V -> j ∈ V -> own i = true -> own j = true ->
    inos !! i = Some (Some ino) -> inos !! j = Some (Some ino) -> i = j;
  nb_link i n t : i ∈ V -> seed i = None -> s.(nodes) !! i = Some n -> n.(hardlink_target) = Some t ->
    inos !! i = Some None \/ exists ino, inos !! i = Some (Some ino) /\ inos !! t = Some (Some ino);
  nb_next : next = 12 + Z.of_nat (length (List.filter own V))
}.

Lemma live_range i n : live s i n -> (i < length s.(nodes))%nat.
Proof using. intros [E _]. by eapply lookup_lt_Some. Qed.
Lemma visited_bound V : NoDup V -> (forall i, i ∈ V -> exists n, live s i n) -> (length V <= length s.(nodes))%nat.
Proof using.
  intros Hnd Hl. rewrite <- (length_seq (length s.(nodes)) 0). apply submseteq_length.
  apply NoDup_submseteq; [done|]. intros i Hi. destruct (Hl i Hi) as [n Hn].
  apply elem_of_seq. apply live_range in Hn. lia.
Qed.
Lemma next_small V inos next : numbered V inos next -> 12 <= next < 2 ^ 32 - 1.
Proof using Hbound.
  intros N. rewrite (nb_next _ _ _ N). pose proof (visited_bound V (nb_nodup _ _ _ N) (nb_live _ _ _ N)).
  pose proof (List.filter_length_le own V). lia.
Qed.
Lemma numbered_keep V inos next c m :
  numbered V inos next -> c ∉ V -> live s c m -> seed c <> None -> numbered (c :: V) inos next.
Proof using.
  intros N Hc Hl Hs. assert (Ho : own c = false) by (unfold own; by destruct (seed c)). split.
  - apply N.
  - constructor; [done|apply N].
  - intros i [->|Hi]%elem_of_cons; [by exists m|by apply N].
  - intros i Hi Hd. apply N; [done|]. rewrite not_elem_of_cons in Hd. naive_solver.
  - intros i [->|Hi]%elem_of_cons; [congruence|by apply N].
  - intros i j ino [->|Hi]%elem_of_cons; [congruence|].
    intros [->|Hj]%elem_of_cons; [congruence|by apply N].
  - intros i n t [->|Hi]%elem_of_cons; [done|by apply N].
  - cbn [List.filter]. rewrite Ho. apply N.
Qed.
(** A new value [v] in the empty cell of [c]: nothing that was numbered moves. *)
Section Fill.
Context (V : list nat) (inos : list (option Z)) (next : Z) (c : nat) (m : Node) (v : option Z) (next' : Z)
  (N : numbered V inos next) (Hc : c ∉ V) (Hl : live s c m) (Hs : seed c = None).
Lemma fill_other i : i <> c -> <[c := v]> inos !! i = inos !! i.
Proof using. intros. by rewrite list_lookup_insert_ne. Qed.
Lemma fill_at : <[c := v]> inos !! c = Some v.
Proof using Hl N. apply list_lookup_insert_eq. rewrite (nb_len _ _ _ N). by eapply live_range. Qed.
Lemma fill_old i : i ∈ V -> <[c := v]> inos !! i = inos !! i.
Proof using Hc. intros Hi. apply fill_other. by intros ->. Qed.
Lemma fill_some i ino : inos !! i = Some (Some ino) -> <[c := v]> inos !! i = Some (Some ino).
Proof using Hc Hl Hs N.
  intros E. rewrite fill_other; [done|]. intros ->.
  rewrite (nb_seed _ _ _ N c) in E; [by rewrite Hs in E|by eapply live_range|by left].
Qed.
Lemma numbered_fill :
  (if own c then v = Some next /\ next' = next + 1
   else next' = next /\ forall t, m.(hardlink_target) = Some t -> v = None \/ inos !! t = Some v) ->
  numbered (c :: V) (<[c := v]> inos) next'.
Proof using All.
  intros Hv. pose proof (live_range c m Hl) as Hr. pose proof (next_small _ _ _ N) as Hn.
  assert (Hle : next <= next') by (destruct (own c); naive_solver lia). split.
  - rewrite length_insert. apply N.
  - constructor; [done|apply N].
  - intros i [->|Hi]%elem_of_cons; [by exists m|by apply N].
  - intros i Hi Hd. destruct (decide (i = c)) as [->|Hne].
    + destruct Hd as [Hd|Hd]; [|done]. by destruct Hd; left.
    + rewrite fill_other by done. apply N; [done|]. rewrite not_elem_of_cons in Hd. naive_solver.
  - intros i [->|Hi]%elem_of_cons Ho.
    + rewrite Ho in Hv. destruct Hv as [Hv Hn']. exists next. rewrite fill_at, Hv. split; [done|lia].
    + destruct (nb_own _ _ _ N i Hi Ho) as (ino & E & ?). exists ino. rewrite fill_old by done. split; [done|lia].
  - assert (Hnew : forall i ino, own c = true -> i ∈ V -> own i = true ->
      <[c := v]> inos !! c = Some (Some ino) -> <[c := v]> inos !! i = Some (Some ino) -> False).
    { intros i ino Ho Hi Hoi. rewrite fill_at, fill_old by done. rewrite Ho in Hv. destruct Hv as [Hv _].
      rewrite Hv. intros [= <-] E. destruct (nb_own _ _ _ N i Hi Hoi) as (ino & E' & ?). rewrite E in E'. injection E'. lia. }
    intros i j ino [->|Hi]%elem_of_cons [->|Hj]%elem_of_cons Ho1 Ho2 E1 E2; [done|..].
    + by destruct (Hnew j ino).
    + by destruct (Hnew i ino).
    + rewrite fill_old in E1, E2 by done. by eapply (nb_inj _ _ _ N).
  - intros i n t [->|Hi]%elem_of_cons Hsi En Ht.
    + assert (n = m) as -> by (destruct Hl; congruence). unfold own in Hv. rewrite Hs, En, Ht in Hv.
      destruct Hv as [_ Hv]. rewrite fill_at. destruct (Hv t eq_refl) as [Hno|E]; [left; by rewrite Hno|].
      destruct (decide (v = None)) as [Hno|Hso]; [left; by rewrite Hno|right].
      apply not_eq_None_Some in Hso as [ino Hino]. exists ino. rewrite Hino in E. split; [by rewrite Hino|].
      by apply fill_some.
    + rewrite fill_old by done. destruct (nb_link _ _ _ N i n t Hi Hsi En Ht) as [|(ino & E1 & E2)]; [by left|].
      right. exists ino. split; [done|]. by apply fill_some.
  - cbn [List.filter]. pose proof (nb_next _ _ _ N). destruct (own c); [destruct Hv as [_ ->]|destruct Hv as [-> _]];
      cbn [length]; lia.
Qed.
End Fill.

Lemma own_link c m : live s c m -> seed c = None ->
  own c = match m.(hardlink_target) with None => true | Some _ => false end.
Proof using. intros [E _] Hs. unfold own. by rewrite Hs, E. Qed.
Lemma visit_child_spec V inos next queue c m :
  numbered V inos next -> c ∉ V -> live s c m ->
  exists inos' next', visit_child s.(nodes) c (inos, next, queue) = Done (inos', next', queue ++ [c]) /\
    numbered (c :: V) inos' next'.
Proof using All.
  intros N Hc Hl. pose proof (live_range c m Hl) as Hr. unfold visit_child, idx. rewrite (proj1 Hl).
  unfold mbind, exec_bind. rewrite (proj2 Hl). rewrite (nb_seed _ _ _ N c Hr) by by left.
  destruct (seed c) as [ino|] eqn:Hs.
  - exists inos, next. split; [done|]. apply (numbered_keep V inos next c m); [done..|congruence].
  - pose proof (own_link c m Hl Hs) as Ho. destruct m.(hardlink_target) as [t|] eqn:Ht.
    + destruct (i_kind s I c m (proj1 Hl)) as (_ & _ & Hk). rewrite Ht in Hk. destruct Hk as (_ & mt & Et & _).
      apply lookup_lt_Some in Et. rewrite <- (nb_len _ _ _ N) in Et. apply lookup_lt_is_Some in Et as [v Ev].
      rewrite Ev. eexists _, _. split; [done|]. apply (numbered_fill V inos next c m v next); [done..|].
      rewrite Ho, Ht. split; [done|]. intros t' [= <-]. by right.
    + eexists _, _. split; [done|]. apply (numbered_fill V inos next c m (Some next)); [done..|].
      rewrite Ho. split; [done|]. pose proof (next_small _ _ _ N). apply wrap_small. unfold in_uint. lia.
Qed.
Lemma visit_children_spec cs : forall V inos next queue,
  numbered V inos next -> NoDup cs -> (forall c, c ∈ cs -> (c ∉ V) /\ exists m, live s c m) ->
  exists inos' next', visit_children s.(nodes) cs (inos, next, queue) = Done (inos', next', queue ++ cs) /\
    numbered (reverse cs ++ V) inos' next'.
Proof using All.
  induction cs as [|c cs IH]; intros V inos next queue N Hnd Hcs.
  - exists inos, next. by rewrite app_nil_r.
  - apply NoDup_cons in Hnd as [Hc Hnd]. destruct (Hcs c (list_elem_of_here _ _)) as (HcV & m & Hm).
    destruct (visit_child_spec V inos next queue c m N HcV Hm) as (inos1 & next1 & E1 & N1).
    destruct (IH (c :: V) inos1 next1 (queue ++ [c]) N1 Hnd) as (inos2 & next2 & E2 & N2).
    { intros d Hd. destruct (Hcs d (list_elem_of_further _ _ _ Hd)) as [HdV Hl]. split; [|done].
      intros [->|]%elem_of_cons; done. }
    exists inos2, next2. cbn [visit_children]. rewrite E1. unfold mbind, exec_bind. rewrite E2.
    rewrite reverse_cons, <- !app_assoc in *. split; [done|exact N2].
Qed.

(** The nodes popped from the queue, and those visited: the root and the
    children of the popped ones. *)
Definition frontier (P Q V : list nat) : Prop :=
  NoDup (P ++ Q) /\ (forall i, i ∈ V <-> i ∈ P ++ Q) /\
  forall i n, live s i n -> i ∈ V <-> i = O \/ exists p, n.(parent) = Some p /\ p ∈ P.
Lemma root_parent n : live s O n -> n.(parent) = None.
Proof using I.
  intros [E _]. pose proof (w_wf s (i_w s I) _ _ _ (skel_lookup _ _ _ E)) as H.
  destruct n.(parent); [|done]. lia.
Qed.
Lemma frontier_children P x Q V n c :
  frontier P (x :: Q) V -> s.(nodes) !! x = Some n -> c ∈ n.(children) -> (c ∉ V) /\ exists m, live s c m.
Proof using I.
  intros (Hnd & HV & Hcl) En Hc. destruct (w_children s (i_w s I) x n c En Hc) as (m & Hm & Hp).
  split; [|by exists m]. rewrite (Hcl c m Hm). intros [->|(p & Hp' & HpP)].
  - apply root_parent in Hm. congruence.
  - assert (p = x) as -> by congruence. apply NoDup_app in Hnd as (_ & Hd & _).
    apply (Hd x HpP). apply list_elem_of_here.
Qed.
Lemma frontier_step P x Q V n :
  frontier P (x :: Q) V -> s.(nodes) !! x = Some n ->
  frontier (P ++ [x]) (Q ++ n.(children)) (reverse n.(children) ++ V).
Proof using I.
  intros F En. pose proof F as (Hnd & HV & Hcl). split_and!.
  - rewrite <- app_assoc. cbn [app]. rewrite app_comm_cons, app_assoc. apply NoDup_app. split_and!; [done|..].
    + intros i Hi Hc. destruct (frontier_children P x Q V n i F En Hc) as [Hno _]. by apply Hno, HV.
    + by apply (w_nodup s (i_w s I) x).
  - intros i. rewrite !elem_of_app, HV, elem_of_app, elem_of_reverse, !elem_of_cons, elem_of_nil. naive_solver.
  - intros i m Hm. rewrite elem_of_app, elem_of_reverse, (Hcl i m Hm).
    setoid_rewrite elem_of_app. setoid_rewrite list_elem_of_singleton. split.
    + intros [Hc|[->|(p & Hp & HpP)]]; [|by left|right; eauto].
      destruct (w_children s (i_w s I) x n i En Hc) as (m' & Hm' & Hp').
      assert (m' = m) as -> by (destruct Hm, Hm'; congruence). right. eauto.
    + intros [->|(p & Hp & [HpP| ->])]; [by right; left|right; right; eauto|left].
      destruct (i_attached s I i m x Hm Hp) as (n' & [En' _] & Hin). congruence.
Qed.
Lemma bfs_spec fuel : forall P Q V inos next,
  numbered V inos next -> frontier P Q V -> (length s.(nodes) < fuel + length P)%nat ->
  exists P' inos' next', bfs fuel s.(nodes) Q inos next = Done (inos', next') /\
    numbered P' inos' next' /\ forall i n, live s i n -> i ∈ P'.
Proof using All.
  assert (Hend : forall P V inos next, numbered V inos next -> frontier P [] V -> forall i n, live s i n -> i ∈ V).
  { intros P V inos next N (_ & HV & Hcl) i. setoid_rewrite app_nil_r in HV.
    induction i as [i IH] using lt_wf_ind. intros n Hn. apply (Hcl i n Hn).
    pose proof (w_wf s (i_w s I) _ _ _ (skel_lookup _ _ _ (proj1 Hn))) as Hw.
    destruct n.(parent) as [p|] eqn:Hp; [right|left; by destruct Hw]. destruct Hw as [Hlt _].
    destruct (i_attached s I i n p Hn Hp) as (m & Hm & _). exists p. split; [done|]. apply HV. by eapply IH. }
  induction fuel as [|fuel IH]; intros P Q V inos next N F Hf; destruct Q as [|x Q].
  1,3: exists V, inos, next; split_and!; [done..|by eapply Hend].
  - exfalso. destruct F as (Hnd & HV & _).
    assert (length (P ++ x :: Q) <= length s.(nodes))%nat as Hle.
    { apply visited_bound; [done|]. intros i Hi. apply (nb_live _ _ _ N). by apply HV. }
    rewrite length_app in Hle. cbn in *. lia.
  - assert (x ∈ V) as Hx. { apply F. apply elem_of_app. right. apply list_elem_of_here. }
    destruct (nb_live _ _ _ N x Hx) as (n & En & _).
    destruct (visit_children_spec n.(children) V inos next Q N) as (inos1 & next1 & E1 & N1).
    { by apply (w_nodup s (i_w s I) x). } { intros c Hc. by eapply frontier_children. }
    destruct (IH (P ++ [x]) (Q ++ n.(children)) (reverse n.(children) ++ V) inos1 next1) as (P' & inos2 & next2 & E2 & H2).
    { done. } { by apply frontier_step. } { rewrite length_app. cbn. lia. }
    exists P', inos2, next2. cbn [bfs]. unfold idx. rewrite En. unfold mbind at 1, exec_bind at 1.
    rewrite E1. unfold mbind, exec_bind. by rewrite E2.
Qed.

Lemma start_numbered :
  numbered [O] (fixed_inodes (drop 1 s.(nodes)) 1 (<[O := Some ROOT_INODE]> (replicate (length s.(nodes)) None))) 12.
Proof using I.
  destruct (i_root s I) as (r & Hr & _). pose proof (live_range _ _ Hr) as Hr'.
  set (start := <[O := Some ROOT_INODE]> (replicate (length s.(nodes)) None)).
  assert (Hlen : length start = length s.(nodes)) by (unfold start; by rewrite length_insert, length_replicate).
  assert (Hs0 : seed O = Some ROOT_INODE) by (unfold seed; by rewrite decide_True).
  assert (Ho0 : own O = false) by (unfold own; by rewrite Hs0). split.
  - by rewrite (proj1 (fixed_inodes_lookup (drop 1 s.(nodes)) 1 start O ltac:(lia))).
  - apply NoDup_singleton.
  - intros i ->%list_elem_of_singleton. by exists r.
  - intros i Hi _. rewrite (proj2 (fixed_inodes_lookup (drop 1 s.(nodes)) 1 start i ltac:(lia))). unfold seed, start.
    destruct (decide (i = O)) as [->|Hne]; [rewrite decide_False by lia; apply list_lookup_insert_eq; by rewrite length_replicate|].
    rewrite decide_True by lia. rewrite lookup_drop. replace (1 + (i - 1))%nat with i by lia.
    rewrite list_lookup_insert_ne, lookup_replicate_2 by done. repeat case_match; congruence.
  - intros i ->%list_elem_of_singleton. congruence.
  - intros i j ino ->%list_elem_of_singleton ->%list_elem_of_singleton. done.
  - intros i n t ->%list_elem_of_singleton. congruence.
  - cbn [List.filter]. by rewrite Ho0.
Qed.
Lemma start_frontier : frontier [] [O] [O].
Proof using.
  split_and!; [apply NoDup_singleton|done|]. intros i n Hn. rewrite list_elem_of_singleton. split; [by left|].
  intros [|(p & _ & Hp)]; [done|]. by apply elem_of_nil in Hp.
Qed.
Lemma assign_inodes_spec :
  exists V inos next, assign_inodes s.(nodes) = Done (inos, next) /\ numbered V inos next /\
    forall i n, live s i n -> i ∈ V.
Proof using All.
  destruct (i_root s I) as (r & Hr & _). pose proof (live_range _ _ Hr) as Hr'.
  destruct (bfs_spec (S (length s.(nodes))) [] [O] [O] _ 12 start_numbered start_frontier) as (V & inos & next & E & H);
    [cbn; lia|].
  exists V, inos, next. split; [|done]. unfold assign_inodes.
  destruct (replicate (length s.(nodes)) None) as [|v l] eqn:El.
  - apply (f_equal length) in El. rewrite length_replicate in El. cbn in El. lia.
  - exact E.
Qed.
(** The numbering, without the traversal. *)
Lemma inode_facts V inos next :
  numbered V inos next -> (forall i n, live s i n -> i ∈ V) ->
  (forall i n, s.(nodes) !! i = Some n -> n.(deleted) = true -> inos !! i = Some None) /\
  (forall i n, live s i n -> n.(hardlink_target) = None -> exists ino, inos !! i = Some (Some ino) /\
     if decide (i = O) then ino = ROOT_INODE else if decide (i = 1%nat) then ino = LOST_FOUND_INODE
     else 12 <= ino < next) /\
  (forall i n t, live s i n -> (1 < i)%nat -> n.(hardlink_target) = Some t -> inos !! i = Some None \/
     exists ino, inos !! i = Some (Some ino) /\ inos !! t = Some (Some ino)).
Proof using All.
  intros N HV. split_and!.
  - intros i n E Hd. rewrite (nb_seed _ _ _ N i).
    + unfold seed. rewrite E, Hd. case_decide as H0; [|done]. subst i.
      destruct (i_root s I) as (r & [Er Hr] & _). congruence.
    + by eapply lookup_lt_Some.
    + left. intros Hi. destruct (nb_live _ _ _ N i Hi) as (m & Em & Hm). congruence.
  - intros i n Hn Ht. pose proof (live_range _ _ Hn) as Hr. pose proof Hn as [E Hd]. specialize (HV i n Hn).
    destruct (seed i) as [ino|] eqn:Hs.
    + exists ino. rewrite (nb_seed _ _ _ N i Hr) by (right; congruence). split; [by rewrite Hs|].
      unfold seed in Hs. case_decide; [congruence|]. rewrite E, Hd, (Hfixed i n E) in Hs. by case_decide; congruence.
    + pose proof (own_link i n Hn Hs) as Ho. rewrite Ht in Ho. destruct (nb_own _ _ _ N i HV Ho) as (ino & Ei & Hb).
      exists ino. split; [done|]. unfold seed in Hs. case_decide; [done|]. rewrite E, Hd, (Hfixed i n E) in Hs.
      by case_decide.
  - intros i n t Hn Hi Ht. apply (nb_link _ _ _ N i n t); [by eapply HV| |apply Hn|done].
    unfold seed. destruct Hn as [E Hd]. rewrite decide_False, E, Hd, (Hfixed i n E) by lia.
    rewrite decide_False; [done|lia].
Qed.
Lemma inode_injective V inos next i j n m ino :
  numbered V inos next -> (forall i n, live s i n -> i ∈ V) ->
  live s i n -> live s j m -> n.(hardlink_target) = None -> m.(hardlink_target) = None ->
  inos !! i = Some (Some ino) -> inos !! j = Some (Some ino) -> i = j.
Proof using All.
  intros N HV Hi Hj Hti Htj Ei Ej. pose proof (inode_facts V inos next N HV) as (_ & Hf & _).
  destruct (Hf i n Hi Hti) as (a & Ea & Ha), (Hf j m Hj Htj) as (b & Eb & Hb).
  assert (a = ino /\ b = ino) as [-> ->] by (split; congruence).
  assert (Hown : forall k x, live s k x -> x.(hardlink_target) = None -> k <> O -> k <> 1%nat -> own k = true).
  { intros k x Hk Hx H0 H1. assert (Hs : seed k = None).
    { unfold seed. destruct Hk as [E Hd]. by rewrite decide_False, E, Hd, (Hfixed k x E), decide_False. }
    by rewrite (own_link k x Hk Hs), Hx. }
  unfold ROOT_INODE, LOST_FOUND_INODE in *.
  destruct (decide (i = O)), (decide (j = O)), (decide (i = 1%nat)), (decide (j = 1%nat)); try lia.
  apply (nb_inj _ _ _ N i j ino); eauto.
Qed.
End Numbering.

(** ** Inodes of a run *)
(** Live nodes that are neither hard links nor the root or lost+found. *)
Definition numbered_node (ns : list Node) (i : nat) : bool :=
  match ns !! i with
  | Some n => negb n.(deleted) && match n.(hardlink_target) with None => true | Some _ => false end
  | None => false
  end.
Definition numbered_count (ns : list Node) : Z :=
  Z.of_nat (length (List.filter (numbered_node ns) (seq 2 (length ns - 2)))).
Lemma own_count s V inos next :
  inv s -> fixed_ok s -> numbered s V inos next -> (forall i n, live s i n -> i ∈ V) ->
  next = 12 + numbered_count s.(nodes).
Proof.
  intros I F N HV. rewrite (nb_next _ _ _ _ N). f_equal. unfold numbered_count. f_equal. apply Permutation_length.
  assert (Hin : forall (f : nat -> bool) l i, i ∈ List.filter f l <-> i ∈ l /\ f i = true).
  { intros. rewrite !list_elem_of_In. apply filter_In. }
  apply NoDup_Permutation.
  - apply NoDup_ListNoDup, List.NoDup_filter, NoDup_ListNoDup, N.
  - apply NoDup_ListNoDup, List.NoDup_filter, List.seq_NoDup.
  - intros i. rewrite !Hin, elem_of_seq. unfold numbered_node. split.
    + intros [Hi Ho]. destruct (nb_live _ _ _ _ N i Hi) as (n & E & Hd). unfold own, seed in Ho.
      rewrite E, Hd in *. apply lookup_lt_Some in E as Hlt. destruct (decide (i = O)); [done|].
      rewrite (F i n E) in Ho. destruct (decide (i = 1%nat)); [done|]. split; [lia|]. done.
    + intros [Hr Ho]. destruct (s.(nodes) !! i) as [n|] eqn:E; [|done]. apply andb_true_iff in Ho as [Hd Ho].
      apply negb_true_iff in Hd. split; [by apply (HV i n)|]. unfold own, seed. rewrite E, Hd, (F i n E).
      by rewrite !decide_False by lia.
Qed.

(** C25: the inode numbers of an image are well assigned.  For the tree any
    sequence of operations builds, the breadth-first walk ends and gives every
    live entry that is not a hard link an inode of its own: 2 for the root, 11
    for the original lost+found, consecutive numbers from 12 for the others.
    Removed nodes have none.  A hard link has the inode of its target, or none
    at all. *)
Theorem inode_numbers_unique bs ops :
  Forall allowed ops ->
  let s := run ops (fs_new bs) in
  Z.of_nat (length s.(nodes)) + 13 < 2 ^ 32 ->
  exists inos next, assign_inodes s.(nodes) = Done (inos, next) /\
    length inos = length s.(nodes) /\ next = 12 + numbered_count s.(nodes) /\
    (forall i n, s.(nodes) !! i = Some n -> n.(deleted) = true -> inos !! i = Some None) /\
    (forall i n, live s i n -> n.(hardlink_target) = None -> exists ino, inos !! i = Some (Some ino) /\
       if decide (i = O) then ino = ROOT_INODE else if decide (i = 1%nat) then ino = LOST_FOUND_INODE
       else 12 <= ino < next) /\
    (forall i j n m ino, live s i n -> live s j m -> n.(hardlink_target) = None -> m.(hardlink_target) = None ->
       inos !! i = Some (Some ino) -> inos !! j = Some (Some ino) -> i = j) /\
    (forall i n t, live s i n -> (1 < i)%nat -> n.(hardlink_target) = Some t -> inos !! i = Some None \/
       exists ino, inos !! i = Some (Some ino) /\ inos !! t = Some (Some ino)).
Proof.
  intros Ha s Hb. pose proof (run_inv bs ops Ha) as I. destruct (run_fixed ops bs) as [F _].
  destruct (assign_inodes_spec s I F Hb) as (V & inos & next & E & N & HV). exists inos, next.
  destruct (inode_facts s I F Hb V inos next N HV) as (H1 & H2 & H3).
  split_and!; [done|apply N|by eapply own_count|done..| |done].
  intros i j n m ino. by eapply inode_injective.
Qed.
Lemma inode_numbers_unique_witness :
  let s := run demo_ops (fs_new K4) in
  exists inos next, assign_inodes s.(nodes) = Done (inos, next) /\ next = 12 + numbered_count s.(nodes) /\
    inos = [Some 2; Some 11; Some 12; Some 13; Some 14; None; None; None].
Proof.
  destruct (inode_numbers_unique K4 demo_ops) as (inos & next & E & _ & Hn & _).
  - repeat constructor; vm_compute; discriminate.
  - vm_compute. reflexivity.
  - exists inos, next. split; [exact E|]. split; [exact Hn|].
    assert (E' : assign_inodes (run demo_ops (fs_new K4)).(nodes)
      = Done ([Some 2; Some 11; Some 12; Some 13; Some 14; None; None; None], 15)) by (vm_compute; reflexivity).
    rewrite E' in E. congruence.
Defined.

(** ** The inode table *)
Lemma grow_ipg_reaches fuel : forall ipg inc min,
  1 <= inc -> 0 <= ipg <= max_uint 32 -> min <= max_uint 32 -> min <= ipg + Z.of_nat fuel ->
  min <= grow_ipg fuel ipg inc min.
Proof.
  induction fuel as [|fuel IH]; intros ipg inc min Hi Hp Hm Hf; cbn [grow_ipg]; [lia|].
  destruct (ipg <? min) eqn:E; [|lia]. apply IH; [done|..]; unfold sat_add; lia.
Qed.
Lemma grow_ipg_multiple fuel : forall ipg inc min k,
  1 <= inc -> ipg = inc * k -> ipg < min + inc -> min + inc <= max_uint 32 ->
  exists k', grow_ipg fuel ipg inc min = inc * k' /\ inc * k' < min + inc.
Proof.
  induction fuel as [|fuel IH]; intros ipg inc min k Hi Hk Hlt Hm; cbn [grow_ipg]; [by exists k; subst|].
  destruct (ipg <? min) eqn:E; [|by exists k; subst]. apply (IH _ inc min (k + 1)); [done| |..|done];
    rewrite sat_add_exact by lia; lia.
Qed.
(** A new image advertises a whole number of inode table blocks per group. *)
Lemma ipg_aligned bs next : 12 <= next < 2 ^ 32 ->
  let bits := bs_bytes bs * 8 in let ipg := inodes_per_group_for bs next in
  0 < ipg <= bits /\ (ipg * INODE_SIZE) mod bs_bytes bs = 0 /\
  (if decide (next - 1 <= bits) then next - 1 <= ipg else ipg = bits).
Proof.
  intros Hn bits ipg. unfold ipg, inodes_per_group_for, FIRST_FREE_INODE, INODE_SIZE. fold bits.
  rewrite (Z.max_l (sat_sub next 1)) by (unfold sat_sub; lia).
  replace (sat_sub next 1) with (next - 1) by (unfold sat_sub; lia).
  set (inc := bs_bytes bs * 64 / 256). assert (Hinc : bs_bytes bs = 4 * inc /\ 256 <= inc <= 1024).
  { unfold inc. destruct bs; vm_compute; (split; [reflexivity|split; discriminate]). }
  assert (Hbits : bits = 32 * inc) by (unfold bits; lia). clearbody inc. clear ipg.
  pose proof (grow_ipg_reaches (Z.to_nat (next - 1)) inc inc (next - 1)) as Hr.
  specialize (Hr ltac:(lia) ltac:(unfold max_uint; lia) ltac:(unfold max_uint; lia) ltac:(lia)).
  destruct (decide (next - 1 <= bits)) as [Hle|Hgt].
  - destruct (grow_ipg_multiple (Z.to_nat (next - 1)) inc inc (next - 1) 1) as (k & Ek & Hk);
      [lia..|unfold max_uint; lia|]. rewrite Ek in *.
    assert (k <= 32) by nia. assert (0 < k) by nia. replace (bits <? inc * k) with false by nia.
    split; [nia|]. split; [|done]. replace (inc * k * 256) with (64 * k * (4 * inc)) by lia.
    rewrite (proj1 Hinc). by apply Z.mod_mul; lia.
  - replace (bits <? grow_ipg _ inc inc (next - 1)) with true by lia. split; [lia|]. split; [|done].
    rewrite Hbits, (proj1 Hinc). replace (32 * inc * 256) with (2048 * (4 * inc)) by lia. apply Z.mod_mul. lia.
Qed.

(** The capacity of the inode table.  The table the writer allocates has a
    whole number of blocks and at most one bitmap block of inodes; it has a
    slot for every inode handed out exactly when there are at most eight times
    the block size of them (32768 at 4 KiB, 8192 at 1 KiB).  Past that the
    slot of the last inode is outside the table, however many block groups the
    image has. *)
Theorem inode_table_capacity bs next :
  12 <= next < 2 ^ 32 ->
  let ipg := inodes_per_group_for bs next in
  0 < ipg <= bs_bytes bs * 8 /\ (ipg * INODE_SIZE) mod bs_bytes bs = 0 /\
  ((forall ino, 1 <= ino < next -> table_index ino < ipg) <-> next - 1 <= bs_bytes bs * 8).
Proof.
  intros Hn ipg. destruct (ipg_aligned bs next Hn) as (H1 & H2 & H3). fold ipg in H1, H2, H3.
  split_and!; [lia..|done|]. assert (Ht : forall ino, 1 <= ino < next -> table_index ino = ino - 1).
  { intros ino Hi. unfold table_index. apply wrap_small; unfold in_uint; lia. }
  split.
  - intros H. specialize (H (next - 1) ltac:(lia)). rewrite Ht in H by lia. case_decide; lia.
  - intros H ino Hi. rewrite Ht by done. rewrite decide_True in H3 by done. lia.
Qed.
Lemma inode_table_capacity_witness :
  inodes_per_group_for K4 40000 = 32768 /\ (0 < inodes_per_group_for K1 100 <= 8192).
Proof.
  split; [vm_compute; reflexivity|]. apply (inode_table_capacity K1 100). lia.
Defined.
