(* ===== verification/Ext4Limits.v ===== *)
(** * Where the image writer departs from its intent

    Executions of the model, on concrete trees, of behaviours the invariants
    and round trips of the other files exclude. *)
From S2P Require Import Prelude Ext4Layout Ext4Path Ext4Tree Ext4TreeInv Ext4TreeSpec Ext4Encode Ext4Image.

(** The names the root directory lists in the image. *)
Definition root_listing (b : FileSystemBuilder) : E (list string) :=
  '(inos, _) ← assign_inodes b.(nodes);
  cs ← sorted_live_children b.(nodes) inos 0;
  mret (child_names b.(nodes) cs).

(** A hard link is given the inode of its target only if the breadth-first
    walk has already reached the target: a link nearer to the root than its
    target is left without an inode, and its name is not written. *)
Lemma hardlink_above_target_is_dropped :
  let b := run [OAddFile "/usr/bin/tool" [35; 33] 0x1ED; OAddHardlink "/tool" "/usr/bin/tool"] (fs_new K4) in
  abs b ["tool"%string] <> None /\ root_listing b = Done ["lost+found"%string; "usr"%string].
Proof. vm_compute. split; [discriminate|reflexivity]. Qed.

(** A link to a file that is replaced afterwards loses its inode with it, and
    its name is not written either. *)
Lemma hardlink_to_replaced_file_is_dropped :
  let b := run [OAddFile "/a" [1] 0x1A4; OAddHardlink "/b" "/a"; OAddFile "/a" [2] 0x1A4] (fs_new K4) in
  abs b ["b"%string] <> None /\ root_listing b = Done ["lost+found"%string; "a"%string].
Proof. vm_compute. split; [discriminate|reflexivity]. Qed.

(** Linking a path to itself removes the file first. *)
Lemma hardlink_to_itself_loses_the_file :
  let b := run [OAddFile "/a" [1] 0x1A4; OAddHardlink "/a" "/a"] (fs_new K4) in
  (exec_op (OAddHardlink "/a" "/a") (run [OAddFile "/a" [1] 0x1A4] (fs_new K4))).2 = Done tt /\
  root_listing b = Done ["lost+found"%string].
Proof. vm_compute. split; reflexivity. Qed.

(** Removing the root tombstones it; later additions still succeed, under a
    root that is never written. *)
Lemma removed_root_swallows_additions :
  let b := run [ORemove "/"] (fs_new K4) in
  (exec_op (OAddFile "/a" [1] 0x1A4) b).2 = Done tt /\
  (deleted <$> (exec_op (OAddFile "/a" [1] 0x1A4) b).1.(nodes) !! O) = Some true.
Proof. vm_compute. split; reflexivity. Qed.

Fixpoint repeat_char (n : nat) (c : ascii) : string :=
  match n with O => EmptyString | S n => String c (repeat_char n c) end.
(** A symbolic link whose target is longer than a block is accepted (targets
    may have 4095 bytes) but the image writer panics on it. *)
Lemma long_symlink_panics :
  let target := repeat_char 1500 "x"%char in
  let r := exec_op (OAddSymlink "/l" target) (fs_new K1) in
  r.2 = Done tt /\ (fs_write r.1 (mk_mem 0 [])).2 = Panic.
Proof. vm_compute. split; reflexivity. Qed.
