(* ===== verification/Ext4Writer.v ===== *)
(** * The image writer ([crates/ext4/src/lib.rs], [Writer])

    The public API over the builder: single entries, host directory trees and
    OCI layers with their whiteouts.  What the [tar] crate, the decompressors
    and the host file system deliver is data of the model (every read is a
    [result]); paths are UTF-8, on which [to_string_lossy] is the identity. *)
From S2P Require Import Prelude BTree Types Ext4Layout Ext4Path Ext4Tree Ext4TreeInv Ext4TreeOps Ext4TreeSpec Ext4Encode Ext4Image.

(** ** [std::path] on Unix *)
Inductive Component := RootDir | CurDir | ParentDir | Normal (part : string).
Definition classify (part : string) : option Component :=
  if is_empty part || String.eqb part "." then None
  else if String.eqb part ".." then Some ParentDir else Some (Normal part).
(** [Path::components]: separators collapse, [.] survives only in front. *)
Definition path_components (p : string) : list Component :=
  let parts := split slash p in
  if starts_with slash p then RootDir :: omap classify parts
  else match parts with
       | first :: rest => if String.eqb first "." then CurDir :: omap classify rest
                          else omap classify parts
       | [] => []
       end.
Definition component_str (c : Component) : string :=
  match c with RootDir => EmptyString | CurDir => "." | ParentDir => ".." | Normal s => s end.
(** The path a list of components spells; [Path::parent] is a slice of the
    original string, which is this one for a path without redundant parts. *)
Definition path_str (cs : list Component) : string :=
  match cs with [RootDir] => "/" | _ => join "/" (component_str <$> cs) end.
Definition file_name (p : string) : option string :=
  match last (path_components p) with Some (Normal s) => Some s | _ => None end.
Definition path_parent (p : string) : option string :=
  match last (path_components p) with
  | None | Some RootDir => None
  | Some _ => Some (path_str (removelast (path_components p)))
  end.

(** ** Free functions *)
Definition path_to_guest_string (p : string) : string := p.
Definition unsafe_path {A} (p : string) : result Ext4Error A :=
  Err (UnsupportedFeature ("unsafe OCI layer path " +:+ p)).
Fixpoint tar_parts (path : string) (cs : list Component) (parts : list string)
    : result Ext4Error (list string) :=
  match cs with
  | [] => Ok parts
  | Normal part :: cs => tar_parts path cs (parts ++ [part])
  | CurDir :: cs => tar_parts path cs parts
  | (ParentDir | RootDir) :: _ => unsafe_path path
  end.
Definition tar_path_to_guest_string (path : string) : result Ext4Error string :=
  parts ← tar_parts path (path_components path) [];
  match parts with [] => Ok "/"%string | _ => Ok ("/" +:+ join "/" parts) end.
Definition guest_parent_path (p : string) : string :=
  match path_parent p with
  | Some parent => if is_empty parent then "/" else path_to_guest_string parent
  | None => "/"
  end.
Definition append_guest_path (parent child : string) : string :=
  if String.eqb parent "/" then "/" +:+ child else parent +:+ "/" +:+ child.
(** [u16::try_from(mode & 0o7777).unwrap_or(fallback)]. *)
Definition permission_bits (md fallback : Z) : Z :=
  let m := Z.land md 0xFFF in if m <=? max_uint 16 then m else fallback.
Definition mode_from_metadata (md fallback : Z) : Z := permission_bits md fallback.

Definition handle_oci_whiteout (guest_path : string) : ST bool :=
  match file_name guest_path with
  | None => mret false
  | Some nm =>
      if String.eqb nm ".wh..wh..opq" then
        _ ← clear_dir (guest_parent_path guest_path); mret true
      else
        match strip_prefix ".wh." nm with
        | None => mret false
        | Some target_name =>
            _ ← remove_path (append_guest_path (guest_parent_path guest_path) target_name);
            mret true
        end
  end.

(** ** OCI layers *)
(** The entry types the code asks for; any other one is known by its debug text. *)
Inductive EntryType := EtDirectory | EtRegular | EtSymlink | EtLink | EtOther (debug : string).
Record TarEntry := mk_tar_entry {
  te_path : result io_error string;
  te_type : EntryType;
  te_mode : result io_error Z;
  te_content : result io_error (list Z);
  te_link : result io_error (option string)
}.
Definition control {A} (what : string) (r : result io_error A) : ST A :=
  lift (map_err (Control what) r).
Definition unsupported {A} (feature : string) : ST A := throw (UnsupportedFeature feature).
Definition o644 : Z := 6 * 64 + 4 * 8 + 4.
Definition tar_entry_mode (e : TarEntry) (fallback : Z) : ST Z :=
  md ← control "read OCI layer mode" e.(te_mode); mret (permission_bits md fallback).
Definition entry_type_debug (t : EntryType) : string :=
  match t with
  | EtDirectory => "Directory" | EtRegular => "Regular" | EtSymlink => "Symlink" | EtLink => "Link"
  | EtOther d => d
  end.
(** The body of the loop of [extract_layer]. *)
Definition extract_entry (entry : result io_error TarEntry) : ST unit :=
  e ← control "read OCI layer entry" entry;
  entry_path ← control "read OCI layer entry path" e.(te_path);
  guest_path ← lift (tar_path_to_guest_string entry_path);
  handled ← handle_oci_whiteout guest_path;
  if (handled : bool) then mret tt
  else match e.(te_type) with
  | EtDirectory =>
      if negb (String.eqb guest_path "/")
      then md ← tar_entry_mode e o755; add_dir guest_path md
      else mret tt
  | EtRegular =>
      data ← control "read OCI layer file" e.(te_content);
      md ← tar_entry_mode e o644;
      add_file guest_path data md
  | EtSymlink =>
      target ← control "read OCI layer symlink" e.(te_link);
      match target with
      | None => unsupported ("symlink without target at " +:+ guest_path)
      | Some target => add_symlink guest_path (path_to_guest_string target)
      end
  | EtLink =>
      target ← control "read OCI layer hardlink" e.(te_link);
      match target with
      | None => unsupported ("hardlink without target at " +:+ guest_path)
      | Some target =>
          target ← lift (tar_path_to_guest_string target);
          add_hardlink guest_path target
      end
  | EtOther _ =>
      unsupported ("OCI layer entry type " +:+ entry_type_debug e.(te_type) +:+ " at " +:+ guest_path)
  end.
Definition extract_entries (entries : list (result io_error TarEntry)) : ST unit :=
  for_each extract_entry entries.

Inductive LayerCompression := CompressionNone | Gzip | Zstd.
(** A layer as the operating system, the decompressors and the tar reader
    deliver it. *)
Record Layer := mk_layer {
  layer_open : result io_error unit;
  layer_zstd : result io_error unit;
  layer_entries : result io_error (list (result io_error TarEntry))
}.
Definition extract_layer (l : Layer) (compression : LayerCompression) : ST unit :=
  _ ← control "open OCI layer" l.(layer_open);
  _ ← match compression with
      | CompressionNone | Gzip => mret tt
      | Zstd => control "open zstd OCI layer" l.(layer_zstd)
      end;
  entries ← control "read OCI layer entries" l.(layer_entries);
  extract_entries entries.

(** ** Host directory trees *)
(** A host path as the calls of [copy_host_tree] find it: the file type and
    mode of [symlink_metadata], and what reading it gives.  A directory has
    the error of [read_dir], the error met while listing, and its entries. *)
Inductive Host :=
| HostUnreadable (e : io_error)
| HostDir (md : Z) (read_dir_error entry_error : option io_error) (entries : list (string * Host))
| HostSymlink (target : result io_error string)
| HostFile (md : Z) (data : result io_error (list Z))
| HostCharDevice
| HostBlockDevice
| HostOther.
(** [sort_by_key(DirEntry::file_name)]: a stable sort by the bytes of the name. *)
Fixpoint insert_by_name {A} (x : string * A) (l : list (string * A)) : list (string * A) :=
  match l with
  | [] => [x]
  | y :: l' => match kcmp x.1 y.1 with Gt => y :: insert_by_name x l' | _ => x :: l end
  end.
Fixpoint sort_by_name {A} (l : list (string * A)) : list (string * A) :=
  match l with [] => [] | x :: l => insert_by_name x (sort_by_name l) end.
Definition control_opt (what : string) (e : option io_error) : ST unit :=
  match e with Some e => throw (Control what e) | None => mret tt end.
Fixpoint copy_host_tree (guest_path : string) (host : Host) : ST unit :=
  match host with
  | HostUnreadable e => throw (Control "read host metadata" e)
  | HostDir md read_dir_error entry_error entries =>
      _ ← (if negb (String.eqb guest_path "/")
           then add_dir guest_path (mode_from_metadata md o755) else mret tt);
      _ ← control_opt "read host directory" read_dir_error;
      _ ← control_opt "read host directory entry" entry_error;
      for_each (fun entry : string * (string -> ST unit) =>
                  entry.2 (append_guest_path guest_path entry.1))
        (sort_by_name ((fun '(nm, child) => (nm, fun g => copy_host_tree g child)) <$> entries))
  | HostSymlink target =>
      target ← control "read host symlink" target;
      add_symlink guest_path (path_to_guest_string target)
  | HostFile md data =>
      data ← control "read host file" data;
      add_file guest_path data (mode_from_metadata md o644)
  | HostCharDevice => unsupported "copying host character devices"
  | HostBlockDevice => unsupported "copying host block devices"
  | HostOther => unsupported "copying this host file type"
  end.

(** ** The writer *)
(** [Features]: the flags the writer implements are the eight low bits. *)
Definition default_set : Z := 0xFF.
Definition features_all : Z := 0x7FFF.
Definition spike_set : Z := default_set.
Definition mkfs_parity_target : Z := features_all.
Inductive WriterSink := FileSink (path : string) | MemorySink.
Record Writer := mk_writer {
  w_sink : WriterSink;
  w_block_size : BlockSize;
  w_size : Z;
  w_features : Z;
  w_fs : FileSystemBuilder
}.
Definition set_fs (w : Writer) (b : FileSystemBuilder) : Writer :=
  mk_writer w.(w_sink) w.(w_block_size) w.(w_size) w.(w_features) b.
Definition writer_build (sink : WriterSink) (size : Z) (bs : BlockSize) : Writer :=
  mk_writer sink bs size default_set (with_min_size (fs_new bs) size).
Definition writer_new (path : string) (size : Z) : Writer := writer_build (FileSink path) size K4.
Definition in_memory (size : Z) : Writer := writer_build MemorySink size K4.
Definition writer_features (w : Writer) (features : Z) : Writer :=
  mk_writer w.(w_sink) w.(w_block_size) w.(w_size) features w.(w_fs).
Definition writer_block_size (w : Writer) (bs : BlockSize) : Writer :=
  mk_writer w.(w_sink) bs w.(w_size) w.(w_features) (with_min_size (fs_new bs) w.(w_size)).
Definition writer_uuid (w : Writer) (u : list Z) : Writer := set_fs w (with_uuid w.(w_fs) u).

(** The [write_*] methods take and return the writer: after an error it is
    gone. *)
Definition writing {A} (w : Writer) (m : ST A) : exec Ext4Error Writer :=
  match m w.(w_fs) with
  | (b, Done _) => Done (set_fs w b)
  | (_, Failed e) => Failed e
  | (_, Panic) => Panic
  end.
Definition write_dir w p md := writing w (add_dir (path_to_guest_string p) md).
Definition write_file w p data md := writing w (add_file (path_to_guest_string p) data md).
Definition write_symlink w p target :=
  writing w (add_symlink (path_to_guest_string p) (path_to_guest_string target)).
Definition write_whiteout w p := writing w (add_whiteout (path_to_guest_string p)).
Definition write_opaque_dir w p := writing w (add_opaque_dir (path_to_guest_string p)).
Definition write_xattr w p nm value := writing w (set_xattr (path_to_guest_string p) nm value).
Definition write_directory w p host := writing w (copy_host_tree (path_to_guest_string p) host).
Definition write_layers_raw w (layers : list (Layer * LayerCompression)) :=
  writing w (for_each (fun '(l, c) => extract_layer l c) layers).
Definition write_oci_layers := write_layers_raw.

Section Output.
(** The debug text of a feature set ([bitflags]), and the sink a file is. *)
Context (features_debug : Z -> string) {W : Type} `{Sink W}.
Definition reject_unsupported_features (w : Writer) : result Ext4Error unit :=
  let unsupported := Z.ldiff w.(w_features) default_set in
  if unsupported =? 0 then Ok tt else Err (UnsupportedFeature (features_debug unsupported)).
Definition write_to (w : Writer) (out : W) : W * exec Ext4Error unit :=
  match reject_unsupported_features w with
  | Err e => (out, Failed e)
  | Ok _ => match fs_write w.(w_fs) out with (_, out, r) => (out, r) end
  end.
(** [opened] is what [OpenOptions::open] returns for the path. *)
Definition finalize (w : Writer) (opened : result io_error W) : option W * exec Ext4Error string :=
  match w.(w_sink) with
  | MemorySink =>
      (None, Failed (Control "finalize called on in-memory writer"
                       (mk_io_error "use into_bytes for in-memory writers")))
  | FileSink path =>
      match opened with
      | Err e => (None, Failed (Control "open" e))
      | Ok out =>
          match write_to w out with
          | (out, Done _) =>
              match sink_flush out with
              | (out, Ok _) => (Some out, Done path)
              | (out, Err e) => (Some out, Failed (Control "flush" e))
              end
          | (out, Failed e) => (Some out, Failed e)
          | (out, Panic) => (Some out, Panic)
          end
      end
  end.
Definition into_bytes (w : Writer) (empty : W) : exec Ext4Error W :=
  match w.(w_sink) with
  | FileSink _ =>
      Failed (Control "into_bytes called on file writer" (mk_io_error "use finalize for file writers"))
  | MemorySink =>
      match write_to w empty with
      | (out, Done _) => Done out
      | (_, Failed e) => Failed e
      | (_, Panic) => Panic
      end
  end.
End Output.

(** ** Guest paths of layer entries *)
(** A name a layer entry may have: not empty, no slash, neither [.] nor [..]. *)
Definition safe (c : string) : Prop := component c /\ bad_base c = false.
Definition guest_of (cs : list string) : string := match cs with [] => "/" | _ => mkpath cs end.
(** The names of a tar path, and whether it leaves the root of the layer. *)
Definition tar_names (p : string) : list string :=
  List.filter (fun c => negb (is_empty c || String.eqb c ".")) (split slash p).
Definition escapes (p : string) : bool :=
  starts_with slash p || existsb (String.eqb "..") (split slash p).

Lemma safe_component cs : Forall safe cs -> Forall component cs.
Proof. intros H. eapply Forall_impl; [exact H|]. by intros ? []. Qed.
Lemma components_guest cs : Forall component cs -> components (guest_of cs) = cs.
Proof. destruct cs; [done|]. apply components_mkpath. Qed.
Lemma split_mkpath cs : Forall component cs -> split slash (mkpath cs) = EmptyString :: cs.
Proof.
  induction 1 as [|c cs Hc Hcs IH]; [done|]. cbn [mkpath]. cbn [split].
  rewrite Ascii.eqb_refl. f_equal. destruct cs as [|d cs].
  - rewrite append_nil_r. by apply split_single, Hc.
  - cbn [mkpath] in *. rewrite split_app by apply Hc. cbn [split] in IH.
    rewrite Ascii.eqb_refl in IH. congruence.
Qed.
Lemma classify_safe cs : Forall safe cs -> omap classify cs = Normal <$> cs.
Proof.
  induction 1 as [|c cs [_ Hb] Hcs IH]; [done|]. cbn. unfold classify at 1. unfold bad_base in Hb.
  apply orb_false_iff in Hb as [-> ->]. f_equal. apply IH.
Qed.
Lemma path_components_guest cs :
  Forall safe cs -> path_components (guest_of cs) = RootDir :: (Normal <$> cs).
Proof.
  intros H. destruct cs as [|c cs]; [done|]. unfold path_components, guest_of.
  rewrite split_mkpath by by apply safe_component. cbn [mkpath starts_with].
  rewrite Ascii.eqb_refl. f_equal. by rewrite <- (classify_safe (c :: cs)).
Qed.
Lemma tar_parts_spec p parts acc :
  tar_parts p (omap classify parts) acc =
    if existsb (String.eqb "..") parts then unsafe_path p
    else Ok (acc ++ List.filter (fun c => negb (is_empty c || String.eqb c ".")) parts).
Proof.
  revert acc. induction parts as [|c parts IH]; intros acc; [by rewrite app_nil_r|].
  cbn [existsb List.filter]. cbn [omap list_omap]. unfold classify at 1.
  destruct (is_empty c || String.eqb c ".") eqn:E; cbn [negb].
  - rewrite IH. destruct (String.eqb_spec ".." c) as [<-|]; [done|]. done.
  - rewrite (String.eqb_sym ".." c). destruct (String.eqb c ".."); [done|]. cbn [tar_parts orb].
    rewrite IH, <- app_assoc. done.
Qed.
Lemma tar_path_spec p :
  tar_path_to_guest_string p = if escapes p then unsafe_path p else Ok (guest_of (tar_names p)).
Proof.
  assert (Hg : forall l : list string, match l with [] => Ok "/"%string | _ => Ok ("/" +:+ join "/" l) end
    = Ok (guest_of l) :> result Ext4Error string).
  { intros [|c l]; [done|]. unfold guest_of. by rewrite mkpath_join. }
  unfold tar_path_to_guest_string, path_components, escapes, tar_names.
  destruct (starts_with slash p); [done|]. destruct (split slash p) as [|f rest]; [done|].
  cbn [orb]. destruct (String.eqb_spec f ".") as [->|Hf].
  - cbn [tar_parts]. rewrite tar_parts_spec. cbn [existsb List.filter]. cbn [String.eqb Ascii.eqb Bool.eqb orb].
    destruct (existsb _ rest); [done|]. apply Hg.
  - rewrite tar_parts_spec. destruct (existsb _ (f :: rest)); [done|]. apply Hg.
Qed.
Lemma tar_names_safe p : escapes p = false -> Forall safe (tar_names p).
Proof.
  unfold escapes, tar_names. intros [_ H]%orb_false_iff. apply List.Forall_forall.
  intros c [Hin Hc]%filter_In. apply negb_true_iff, orb_false_iff in Hc as [He Hd].
  assert (Hcomp : In c (components p)).
  { unfold components. apply filter_In. by rewrite He. }
  split; [exact (proj1 (List.Forall_forall _ _) (components_ok p) c Hcomp)|].
  unfold bad_base. rewrite He, Hd. cbn [orb]. destruct (String.eqb_spec c "..") as [->|]; [|done].
  assert (existsb (String.eqb "..") (split slash p) = true); [|congruence].
  apply existsb_exists. exists ".."%string. split; [done|]. apply String.eqb_refl.
Qed.

(** ** What a layer entry stands for *)
(** The whiteout an entry with these names is, if it is one. *)
Definition whiteout_op (cs : list string) : option op :=
  match last cs with
  | None => None
  | Some b =>
      if String.eqb b ".wh..wh..opq" then Some (OClear (guest_of (removelast cs)))
      else match strip_prefix ".wh." b with
           | Some t => Some (ORemove (mkpath (removelast cs) +:+ "/" +:+ t))
           | None => None
           end
  end.
(** The builder operation an entry asks for ([None]: nothing to do). *)
Definition entry_op (e : TarEntry) (cs : list string) : result Ext4Error (option op) :=
  let p := guest_of cs in
  match e.(te_type) with
  | EtDirectory =>
      match cs with
      | [] => Ok None
      | _ => md ← map_err (Control "read OCI layer mode") e.(te_mode);
             Ok (Some (OAddDir p (Z.land md 0xFFF)))
      end
  | EtRegular =>
      data ← map_err (Control "read OCI layer file") e.(te_content);
      md ← map_err (Control "read OCI layer mode") e.(te_mode);
      Ok (Some (OAddFile p data (Z.land md 0xFFF)))
  | EtSymlink =>
      target ← map_err (Control "read OCI layer symlink") e.(te_link);
      match target with
      | None => Err (UnsupportedFeature ("symlink without target at " +:+ p))
      | Some t => Ok (Some (OAddSymlink p t))
      end
  | EtLink =>
      target ← map_err (Control "read OCI layer hardlink") e.(te_link);
      match target with
      | None => Err (UnsupportedFeature ("hardlink without target at " +:+ p))
      | Some t => if escapes t then unsafe_path t else Ok (Some (OAddHardlink p (guest_of (tar_names t))))
      end
  | EtOther d => Err (UnsupportedFeature ("OCI layer entry type " +:+ d +:+ " at " +:+ p))
  end.
Definition plan_entry (entry : result io_error TarEntry) : result Ext4Error (option op) :=
  e ← map_err (Control "read OCI layer entry") entry;
  p ← map_err (Control "read OCI layer entry path") e.(te_path);
  if escapes p then unsafe_path p
  else match whiteout_op (tar_names p) with
       | Some o => Ok (Some o)
       | None => entry_op e (tar_names p)
       end.

Lemma permission_bits_land md fb : permission_bits md fb = Z.land md 0xFFF.
Proof.
  unfold permission_bits. assert (Z.land md 0xFFF <= max_uint 16); [|by case_match; lia].
  change 0xFFF with (Z.ones 12). rewrite Z.land_ones by lia. unfold max_uint.
  pose proof (Z.mod_pos_bound md (2 ^ 12) ltac:(lia)). lia.
Qed.
Lemma guest_of_slash cs : Forall component cs -> String.eqb (guest_of cs) "/" = match cs with [] => true | _ => false end.
Proof.
  destruct cs as [|c cs]; [done|]. intros [[Hne _] _]%Forall_cons. destruct c as [|a c]; [done|].
  by apply String.eqb_neq.
Qed.
Lemma path_str_guest ds : Forall safe ds -> path_str (RootDir :: (Normal <$> ds)) = guest_of ds.
Proof.
  intros _. destruct ds as [|d ds]; [done|]. unfold path_str, guest_of. rewrite mkpath_join.
  rewrite !fmap_cons, <- list_fmap_compose.
  rewrite (list_fmap_id ds : component_str ∘ Normal <$> ds = ds). done.
Qed.
Lemma last_fmap_Normal cs : last (RootDir :: (Normal <$> cs)) = Some (from_option Normal RootDir (last cs)).
Proof.
  destruct cs as [|c cs]; [done|]. cbn. revert c.
  induction cs as [|d cs IH]; intros c; [done|]. exact (IH d).
Qed.
Lemma file_name_guest cs : Forall safe cs -> file_name (guest_of cs) = last cs.
Proof.
  intros H. unfold file_name. rewrite path_components_guest, last_fmap_Normal by done.
  by destruct (last cs).
Qed.
Lemma guest_parent_spec ds b : Forall safe (ds ++ [b]) -> guest_parent_path (guest_of (ds ++ [b])) = guest_of ds.
Proof.
  intros H. unfold guest_parent_path, path_parent.
  rewrite path_components_guest, last_fmap_Normal, last_snoc by done. cbn [from_option].
  rewrite fmap_app. change (RootDir :: (Normal <$> ds) ++ (Normal <$> [b]))
    with ((RootDir :: (Normal <$> ds)) ++ [Normal b]). rewrite removelast_last.
  apply Forall_app in H as [H _]. rewrite path_str_guest by done. by destruct ds.
Qed.
Lemma append_guest_spec ds t : Forall component ds -> append_guest_path (guest_of ds) t = mkpath ds +:+ "/" +:+ t.
Proof.
  intros H. unfold append_guest_path. rewrite guest_of_slash by done. by destruct ds.
Qed.
Lemma handle_whiteout_spec cs s :
  Forall safe cs ->
  handle_oci_whiteout (guest_of cs) s =
    match whiteout_op cs with
    | Some o => (_ ← exec_op o; mret true) s
    | None => (s, Done false)
    end.
Proof.
  intros H. unfold handle_oci_whiteout, whiteout_op. rewrite file_name_guest by done.
  destruct cs as [|b ds _] using rev_ind; [done|]. rewrite last_snoc, removelast_last.
  rewrite guest_parent_spec by done. case_match; [done|].
  destruct (strip_prefix ".wh." b); [|done]. rewrite append_guest_spec; [done|].
  apply Forall_app in H as [H _]. by apply safe_component.
Qed.

Lemma bind_lift {A B} (r : result Ext4Error A) (k : A -> ST B) s :
  (x ← lift r; k x) s = match r with Ok a => k a s | Err e => (s, Failed e) end.
Proof. by destruct r. Qed.
Lemma bind_result {E A B} (r : result E A) (k : A -> result E B) :
  (x ← r; k x) = match r with Ok a => k a | Err e => Err e end.
Proof. done. Qed.
Lemma bind_st {A B} (m : ST A) (k : A -> ST B) s :
  (x ← m; k x) s = match m s with
                   | (s', Done a) => k a s' | (s', Failed e) => (s', Failed e) | (s', Panic) => (s', Panic)
                   end.
Proof. done. Qed.
(** An entry is carried out as the operation it stands for. *)
Lemma extract_entry_plan entry s :
  extract_entry entry s =
    match plan_entry entry with
    | Err e => (s, Failed e)
    | Ok None => (s, Done tt)
    | Ok (Some o) => exec_op o s
    end.
Proof.
  unfold extract_entry, plan_entry, control. rewrite bind_lift, bind_result.
  destruct entry as [e|er]; [|done]. cbn [map_err]. rewrite bind_lift, bind_result.
  destruct e.(te_path) as [p|er]; [|done]. cbn [map_err]. rewrite bind_lift.
  rewrite tar_path_spec. destruct (escapes p) eqn:Hesc; [done|].
  pose proof (tar_names_safe p Hesc) as Hs. rewrite bind_st, handle_whiteout_spec by done.
  destruct (whiteout_op (tar_names p)) as [o|].
  - rewrite bind_st. by destruct (exec_op o s) as [s' [[]|e'|]].
  - unfold entry_op, tar_entry_mode, control.
    pose proof (guest_of_slash _ (safe_component _ Hs)) as Hg. destruct e.(te_type).
    + rewrite Hg. destruct (tar_names p); [done|]. cbn [negb]. rewrite bind_st, bind_lift, bind_result.
      destruct e.(te_mode); [|done]. cbn [map_err mret ST_ret exec_op]. by rewrite permission_bits_land.
    + rewrite bind_lift, bind_result. destruct e.(te_content); [|done]. cbn [map_err].
      rewrite bind_st, bind_lift, bind_result.
      destruct e.(te_mode); [|done]. cbn [map_err mret ST_ret exec_op]. by rewrite permission_bits_land.
    + rewrite bind_lift, bind_result. by destruct e.(te_link) as [[t|]|].
    + rewrite bind_lift, bind_result. destruct e.(te_link) as [[t|]|]; [|done..]. cbn [map_err].
      rewrite bind_lift, tar_path_spec. by destruct (escapes t).
    + done.
Qed.

(** ** A layer as a transformation of the file system *)
(** Equality of file systems, on the paths there are. *)
Definition fs_equiv (m m' : AbsFS) : Prop := forall q, Forall component q -> m q = m' q.
(** [layer_spec es m m']: the entries, in order, take [m] to [m'].  A hard
    link records some arena position of its target. *)
Inductive layer_spec : list (result io_error TarEntry) -> AbsFS -> AbsFS -> Prop :=
| layer_done m m' : fs_equiv m m' -> layer_spec [] m m'
| layer_skip x es m m' :
    plan_entry x = Ok None -> layer_spec es m m' -> layer_spec (x :: es) m m'
| layer_step x o link es m m1 m1' m' :
    plan_entry x = Ok (Some o) -> aspec o link m = Some m1 -> fs_equiv m1 m1' ->
    layer_spec es m1' m' -> layer_spec (x :: es) m m'.
(** The entry is refused: it cannot be read or names a path outside the
    layer, or the file system has something in its way. *)
Definition entry_refused (x : result io_error TarEntry) (m : AbsFS) (e : Ext4Error) : Prop :=
  plan_entry x = Err e \/ exists o link, plan_entry x = Ok (Some o) /\ aspec o link m = None.
(** Every entry but a bare [.wh.] at the top, which the code accepts and which
    removes the root itself. *)
Definition entry_allowed (x : result io_error TarEntry) : Prop :=
  match x with
  | Ok e => match e.(te_path) with Ok p => tar_names p <> [".wh."%string] | Err _ => True end
  | Err _ => True
  end.

Lemma components_snoc_slash ds t :
  Forall component ds -> components (mkpath ds +:+ "/" +:+ t) = ds ++ components t.
Proof.
  induction 1 as [|d ds Hd _ IH]; [done|]. cbn [mkpath]. rewrite append_cons, append_assoc, components_slash.
  destruct ds as [|d' ds'].
  - cbn [mkpath] in *. by rewrite append_nil_l, append_cons, components_app.
  - cbn [mkpath] in *. rewrite append_cons, components_app by done. cbn [app]. f_equal.
    rewrite append_cons, components_slash in IH. exact IH.
Qed.
Lemma component_strip b t : component b -> strip_prefix ".wh." b = Some t -> contains slash t = false.
Proof.
  intros [_ Hb] ->%strip_prefix_sound. rewrite contains_app in Hb. by apply orb_false_iff in Hb as [_ Hb].
Qed.
(** A whiteout removes the subtree of its target; the bare marker [.wh.]
    removes its own directory. *)
Lemma whiteout_target ds b t :
  Forall safe (ds ++ [b]) -> strip_prefix ".wh." b = Some t ->
  components (mkpath ds +:+ "/" +:+ t) = if is_empty t then ds else ds ++ [t].
Proof.
  intros [Hd [[Hb _] _]%Forall_cons]%Forall_app Ht. rewrite components_snoc_slash by by apply safe_component.
  destruct (is_empty t) eqn:E.
  - apply is_empty_true in E as ->. by rewrite components_nil, app_nil_r.
  - rewrite components_single; [done|]. split; [by apply is_empty_false|]. by apply (component_strip b).
Qed.
Lemma plan_allowed x o : entry_allowed x -> plan_entry x = Ok (Some o) -> allowed o.
Proof.
  unfold entry_allowed, plan_entry. destruct x as [e|]; [|done]. cbn. destruct e.(te_path) as [p|]; [|done].
  cbn. intros Ha. destruct (escapes p) eqn:Hesc; [done|]. apply tar_names_safe in Hesc as Hs.
  destruct (whiteout_op (tar_names p)) as [w|] eqn:Ew.
  - intros [= <-]. unfold whiteout_op in Ew. destruct (tar_names p) as [|b ds _] using rev_ind; [done|].
    rewrite last_snoc, removelast_last in Ew. case_match; [by injection Ew as <-|].
    destruct (strip_prefix ".wh." b) as [t|] eqn:Et; [|done]. injection Ew as <-. cbn [allowed].
    rewrite (whiteout_target ds b t) by done. destruct (is_empty t) eqn:E; [|by destruct ds].
    apply is_empty_true in E as ->. apply strip_prefix_sound in Et as ->. intros ->. by apply Ha.
  - unfold entry_op. destruct e.(te_type); destruct (tar_names p); destruct e.(te_mode); destruct e.(te_content);
      destruct e.(te_link) as [[]|]; cbn; try done; try case_match; by intros [= <-].
Qed.

(** Running the entries of a layer. *)
Lemma extract_entries_spec es s :
  inv s -> Forall entry_allowed es ->
  exists es1 es2 s', es = es1 ++ es2 /\ inv s' /\ layer_spec es1 (abs s) (abs s') /\
    match es2 with
    | [] => extract_entries es s = (s', Done tt)
    | x :: _ => exists e, extract_entries es s = (s', Failed e) /\ (plan_entry x = Err e \/
                  exists o link, plan_entry x = Ok (Some o) /\ aspec o link (abs s') = None)
    end.
Proof.
  intros I Hes. revert s I. induction Hes as [|x es Hx Hes IH]; intros s I.
  - exists [], [], s. split_and!; [done..|by constructor|done].
  - unfold extract_entries. cbn [for_each]. unfold mbind, ST_bind. rewrite extract_entry_plan.
    destruct (plan_entry x) as [[o|]|e] eqn:Ep.
    + pose proof (exec_op_refines s o I (plan_allowed x o Hx Ep)) as H. unfold op_outcome in H.
      destruct (aspec o (link_target o s) (abs s)) as [m1|] eqn:Es.
      * destruct H as (s1 & -> & I1 & _ & Ha). destruct (IH s1 I1) as (es1 & es2 & s' & -> & I' & Hl & H).
        exists (x :: es1), es2, s'. split_and!; [done..| |by destruct es2].
        eapply layer_step; [done..| |exact Hl]. intros q Hq. symmetry. by apply Ha.
      * destruct H as (er & ->). exists [], (x :: es), s. split_and!; [done..|by constructor|].
        exists er. split; [done|]. right. eauto.
    + destruct (IH s I) as (es1 & es2 & s' & -> & I' & Hl & H).
      exists (x :: es1), es2, s'. split_and!; [done..|by apply layer_skip|by destruct es2].
    + exists [], (x :: es), s. split_and!; [done..|by constructor|]. exists e. auto.
Qed.
