(* ===== verification/Ext4Layers.v ===== *)
(** * OCI layers on the image

    Applying the entries of a layer, in order, to the file system of the
    builder: which entry decides what a path holds in the end, what a layer
    leaves alone, and how whiteouts written by the builder are read back. *)
From S2P Require Import Prelude BTree Types Ext4Layout Ext4Path Ext4Tree Ext4TreeInv Ext4TreeOps Ext4TreeSpec Ext4Encode Ext4Image Ext4Writer.

(** ** What an operation can change *)
(** Where an operation writes its entry. *)
Definition op_path (o : op) : list string :=
  match o with
  | OAddDir p _ | OAddFile p _ _ | OAddSymlink p _ | OAddHardlink p _ | OSetXattr p _ _
  | ORemove p | OClear p => components p
  | OAddWhiteout p => removelast (components p) ++ [".wh." +:+ default EmptyString (last (components p))]
  | OAddOpaque p => components p ++ [".wh..wh..opq"%string]
  end.
(** The operation may change an entry that is there. *)
Definition touches (o : op) (q : list string) : Prop :=
  match o with
  | OAddDir _ _ => False
  | ORemove _ => op_path o `prefix_of` q
  | OClear _ => op_path o `prefix_of` q /\ q <> op_path o
  | _ => q = op_path o
  end.
(** The operation may put an entry where there is none. *)
Definition creates (o : op) (q : list string) : Prop :=
  match o with
  | OSetXattr _ _ _ | ORemove _ | OClear _ => False
  | _ => q `prefix_of` op_path o
  end.

Lemma put_leaf_keeps m cs e m' q x :
  put_leaf m cs e = Some m' -> q <> cs -> m q = Some x -> m' q = Some x.
Proof.
  unfold put_leaf. destruct (last cs); [|done]. case_match; [done|]. intros [= <-] Hq Hm.
  unfold update, mkdirs. by rewrite decide_False, Hm.
Qed.
Lemma removelast_prefix {A} (cs : list A) : removelast cs `prefix_of` cs.
Proof.
  destruct cs as [|b ds _] using rev_ind; [done|]. rewrite removelast_last. by eexists.
Qed.
Lemma put_leaf_absent m cs e m' q :
  put_leaf m cs e = Some m' -> ~ q `prefix_of` cs -> m q = None -> m' q = None.
Proof.
  unfold put_leaf. destruct (last cs); [|done]. case_match; [done|]. intros [= <-] Hq Hm.
  pose proof (removelast_prefix cs) as Hp. unfold update, mkdirs. rewrite Hm.
  rewrite !decide_False; [done|..]; [|intros ->|intros ->]; try done.
  - intros Hq'. apply Hq. by etrans.
Qed.
Lemma put_leaf_at m cs e m' : put_leaf m cs e = Some m' -> m' cs = Some e.
Proof.
  unfold put_leaf. destruct (last cs); [|done]. case_match; [done|]. intros [= <-].
  unfold update. by rewrite decide_True.
Qed.
Lemma aspec_keeps o link m m' q x :
  aspec o link m = Some m' -> ~ touches o q -> m q = Some x -> m' q = Some x.
Proof.
  destruct o; cbn [aspec touches op_path].
  - case_match; [|done]. intros [= <-] _ Hm. unfold mkdirs. by rewrite Hm.
  - case_match; [done|]. apply put_leaf_keeps.
  - destruct (last _); [|done]. case_match; [done|]. apply put_leaf_keeps.
  - apply put_leaf_keeps.
  - case_match; [done|]. apply put_leaf_keeps.
  - destruct (m (components target)); [|done]. case_match; [done|]. apply put_leaf_keeps.
  - destruct (m (components path)); [|done]. intros [= <-] Hq Hm. unfold update. by rewrite decide_False.
  - intros [= <-] Hq Hm. unfold remove_below. by rewrite decide_False.
  - destruct (m (components path)) as [e|]; [|by intros [= <-]]. case_match; [|done].
    intros [= <-] Hq Hm. unfold clear_below. by rewrite decide_False.
Qed.
Lemma aspec_absent o link m m' q :
  aspec o link m = Some m' -> ~ creates o q -> m q = None -> m' q = None.
Proof.
  destruct o; cbn [aspec creates op_path].
  - case_match; [|done]. intros [= <-] Hc Hm. unfold mkdirs. rewrite Hm.
    rewrite !decide_False; [done..|]. by intros ->.
  - case_match; [done|]. apply put_leaf_absent.
  - destruct (last _); [|done]. case_match; [done|]. apply put_leaf_absent.
  - apply put_leaf_absent.
  - case_match; [done|]. apply put_leaf_absent.
  - destruct (m (components target)); [|done]. case_match; [done|]. apply put_leaf_absent.
  - destruct (m (components path)) eqn:E; [|done]. intros [= <-] _ Hm. unfold update.
    rewrite decide_False; [done|]. intros ->. by rewrite Hm in E.
  - intros [= <-] _ Hm. unfold remove_below. by case_decide.
  - destruct (m (components path)) as [e|]; [|by intros [= <-]]. case_match; [|done].
    intros [= <-] _ Hm. unfold clear_below. by case_decide.
Qed.

(** ** What a layer leaves alone *)
Definition entry_touches (x : result io_error TarEntry) (q : list string) : Prop :=
  exists o, plan_entry x = Ok (Some o) /\ touches o q.
Definition entry_creates (x : result io_error TarEntry) (q : list string) : Prop :=
  exists o, plan_entry x = Ok (Some o) /\ creates o q.
Lemma layer_keeps es m m' q x :
  layer_spec es m m' -> Forall component q -> Forall (fun y => ~ entry_touches y q) es ->
  m q = Some x -> m' q = Some x.
Proof.
  intros H Hq. induction H as [m m' He|y es m m' Hp _ IH|y o link es m m1 m1' m' Hp Ha He _ IH].
  - intros _ Hm. by rewrite <- He.
  - intros [_ Hes]%Forall_cons. by apply IH.
  - intros [Hy Hes]%Forall_cons Hm. apply IH; [done|]. rewrite <- He by done.
    eapply aspec_keeps; [exact Ha| |exact Hm]. intros Ht. apply Hy. by exists o.
Qed.
Lemma layer_absent es m m' q :
  layer_spec es m m' -> Forall component q -> Forall (fun y => ~ entry_creates y q) es ->
  m q = None -> m' q = None.
Proof.
  intros H Hq. induction H as [m m' He|y es m m' Hp _ IH|y o link es m m1 m1' m' Hp Ha He _ IH].
  - intros _ Hm. by rewrite <- He.
  - intros [_ Hes]%Forall_cons. by apply IH.
  - intros [Hy Hes]%Forall_cons Hm. apply IH; [done|]. rewrite <- He by done.
    eapply aspec_absent; [exact Ha| |exact Hm]. intros Ht. apply Hy. by exists o.
Qed.

(** ** Splitting a run *)
Lemma for_each_app {A} (f : A -> ST unit) l k s :
  for_each f (l ++ k) s =
    match for_each f l s with (s1, Done _) => for_each f k s1 | r => r end.
Proof.
  revert s. induction l as [|x l IH]; intros s; [done|]. cbn [app for_each]. rewrite !bind_st.
  destruct (f x s) as [s1 [[]|e|]]; [|done..]. apply IH.
Qed.
Lemma extract_done es s s' :
  inv s -> Forall entry_allowed es -> extract_entries es s = (s', Done tt) ->
  inv s' /\ layer_spec es (abs s) (abs s').
Proof.
  intros I Ha E. destruct (extract_entries_spec es s I Ha) as (es1 & es2 & s1 & -> & I1 & Hl & H).
  destruct es2 as [|x es2]; [|destruct H as (e & H & _); congruence].
  rewrite app_nil_r in *. rewrite H in E. by injection E as <-.
Qed.
Lemma entry_done x o s s' :
  inv s -> entry_allowed x -> plan_entry x = Ok (Some o) -> extract_entry x s = (s', Done tt) ->
  exists m, aspec o (link_target o s) (abs s) = Some m /\ inv s' /\ fs_equiv (abs s') m.
Proof.
  intros I Ha Hp E. rewrite extract_entry_plan, Hp in E.
  pose proof (exec_op_refines s o I (plan_allowed x o Ha Hp)) as H. unfold op_outcome in H.
  destruct (aspec o _ _) as [m|]; [|destruct H as (er & H); congruence].
  destruct H as (s1 & H & I1 & _ & He). rewrite H in E. injection E as <-. by exists m.
Qed.
(** A run over [es1 ++ x :: es2] passes through the states around [x]. *)
Lemma extract_around es1 x es2 o s s' :
  inv s -> Forall entry_allowed (es1 ++ x :: es2) -> plan_entry x = Ok (Some o) ->
  extract_entries (es1 ++ x :: es2) s = (s', Done tt) ->
  exists s1 s2 m, inv s1 /\ aspec o (link_target o s1) (abs s1) = Some m /\
    fs_equiv (abs s2) m /\ layer_spec es2 (abs s2) (abs s').
Proof.
  intros I Ha Hp E. apply Forall_app in Ha as [Ha1 [Hx Ha2]%Forall_cons].
  unfold extract_entries in E. rewrite for_each_app in E.
  destruct (for_each extract_entry es1 s) as [s1 [[]|e|]] eqn:E1; [|done..].
  destruct (extract_done es1 s s1 I Ha1 E1) as [I1 _]. cbn [for_each] in E. rewrite bind_st in E.
  destruct (extract_entry x s1) as [s2 [[]|e|]] eqn:E2; [|done..].
  destruct (entry_done x o s1 s2 I1 Hx Hp E2) as (m & Hm & I2 & He).
  destruct (extract_done es2 s2 s' I2 Ha2 E) as [_ Hl]. by exists s1, s2, m.
Qed.

(** A tree holds nothing below a missing path. *)
Lemma below_missing s p q : inv s -> Forall component q -> p `prefix_of` q -> abs s p = None -> abs s q = None.
Proof.
  intros I Hq Hp E. destruct (abs s q) as [x|] eqn:Ex; [|done].
  apply abs_some in Ex as (j & m & Hj & <- & _); [|apply I|done].
  destruct (ancestor_live s j m _ I Hj Hp) as (k & m' & Hk & Hpos & _).
  assert (abs s p = Some (entry m')); [|congruence]. apply abs_some; [apply I| |eauto].
  destruct Hp as [r Hr]. rewrite Hr in Hq. by apply Forall_app in Hq as [? _].
Qed.

(** The operation an entry of each kind stands for. *)
Lemma plan_whiteout e p ds t :
  e.(te_path) = Ok p -> escapes p = false -> tar_names p = ds ++ [".wh." +:+ t] -> t <> ".wh..opq"%string ->
  plan_entry (Ok e) = Ok (Some (ORemove (mkpath ds +:+ "/" +:+ t))).
Proof.
  intros Hp He Hn Ht. unfold plan_entry. rewrite !bind_result. cbn [map_err]. rewrite bind_result, Hp.
  cbn [map_err]. rewrite He. unfold whiteout_op. rewrite Hn, last_snoc, removelast_last.
  rewrite strip_prefix_app. rewrite (proj2 (String.eqb_neq _ _)); [done|].
  intros E. apply Ht. by injection E.
Qed.
Lemma plan_opaque e p ds :
  e.(te_path) = Ok p -> escapes p = false -> tar_names p = ds ++ [".wh..wh..opq"%string] ->
  plan_entry (Ok e) = Ok (Some (OClear (guest_of ds))).
Proof.
  intros Hp He Hn. unfold plan_entry. rewrite !bind_result. cbn [map_err]. rewrite bind_result, Hp.
  cbn [map_err]. rewrite He. unfold whiteout_op. by rewrite Hn, last_snoc, removelast_last.
Qed.
Lemma plan_regular e p :
  e.(te_path) = Ok p -> escapes p = false -> whiteout_op (tar_names p) = None ->
  plan_entry (Ok e) = entry_op e (tar_names p).
Proof.
  intros Hp He Hn. unfold plan_entry. rewrite !bind_result. cbn [map_err]. rewrite bind_result, Hp.
  cbn [map_err]. by rewrite He, Hn.
Qed.

(** A layer that succeeds has no entry with an unsafe path. *)
Lemma done_confined es1 e p es2 s s' :
  e.(te_path) = Ok p -> extract_entries (es1 ++ Ok e :: es2) s = (s', Done tt) -> escapes p = false.
Proof.
  intros Hp Hrun. destruct (escapes p) eqn:He; [exfalso|done].
  unfold extract_entries in Hrun. rewrite for_each_app in Hrun.
  destruct (for_each _ es1 s) as [s1 [[]|er|]]; [|done..]. cbn [for_each] in Hrun.
  rewrite bind_st, extract_entry_plan in Hrun. unfold plan_entry in Hrun.
  rewrite !bind_result in Hrun. cbn [map_err] in Hrun. rewrite bind_result, Hp in Hrun.
  cbn [map_err] in Hrun. by rewrite He in Hrun.
Qed.

(** A layer that adds two files, whites one of them out and adds a third. *)
Definition file_entry (p : string) (data : list Z) : TarEntry :=
  mk_tar_entry (Ok p) EtRegular (Ok o644) (Ok data) (Ok None).
Definition demo_layer : list (result io_error TarEntry) :=
  [Ok (file_entry "./a/b" [1]); Ok (file_entry "a/c" [2]); Ok (file_entry "a/.wh.b" []); Ok (file_entry "d" [3])].
Lemma demo_layer_allowed : Forall entry_allowed demo_layer.
Proof. repeat constructor; vm_compute; discriminate. Qed.

(** C26: applying an OCI layer refines its specification, for every layer without
    a bare marker [.wh.] at the top (the code takes such an entry for the removal
    of the root, which breaks the builder).  On a consistent builder the
    entries are carried out in order up to the first one that is refused, and
    the file system is then the one the specified operations give: a whiteout
    removes the subtree it names, an opaque marker empties its directory,
    every other entry adds its node.  The layer succeeds exactly when no entry
    is refused; an entry is refused when it cannot be read, names a path
    outside the layer, or conflicts with the file system.  The builder stays
    consistent in every case and nothing panics. *)
Theorem layer_refines es c s :
  inv s -> Forall entry_allowed es ->
  exists es1 es2 s', es = es1 ++ es2 /\ inv s' /\ layer_spec es1 (abs s) (abs s') /\
    match es2 with
    | [] => extract_layer (mk_layer (Ok tt) (Ok tt) (Ok es)) c s = (s', Done tt)
    | x :: _ => exists e, extract_layer (mk_layer (Ok tt) (Ok tt) (Ok es)) c s = (s', Failed e) /\
                          entry_refused x (abs s') e
    end.
Proof.
  intros I Ha. destruct (extract_entries_spec es s I Ha) as (es1 & es2 & s' & -> & I' & Hl & H).
  exists es1, es2, s'. split_and!; [done..|]. by destruct c.
Qed.

Lemma layer_refines_witness :
  let es := demo_layer ++ [Ok (file_entry "../e" [])] in
  (extract_layer (mk_layer (Ok tt) (Ok tt) (Ok es)) Gzip (fs_new K4)).2
    = Failed (UnsupportedFeature "unsafe OCI layer path ../e") /\
  exists es1 es2 s', es = es1 ++ es2 /\ inv s' /\ layer_spec es1 (abs (fs_new K4)) (abs s') /\
    match es2 with
    | [] => extract_layer (mk_layer (Ok tt) (Ok tt) (Ok es)) Gzip (fs_new K4) = (s', Done tt)
    | x :: _ => exists e, extract_layer (mk_layer (Ok tt) (Ok tt) (Ok es)) Gzip (fs_new K4) = (s', Failed e) /\
                          entry_refused x (abs s') e
    end.
Proof.
  split; [vm_compute; reflexivity|]. apply layer_refines; [apply fs_new_inv|].
  apply Forall_app_2; [exact demo_layer_allowed|]. repeat constructor. vm_compute. discriminate.
Defined.

(** The last entry of a layer that names a path decides what the path
    holds.  After a layer that succeeds, where no entry behind [x] replaces,
    removes or creates [q]: if [x] is a regular file at [q], the path holds
    its contents and permission bits; if [x] is the whiteout of [q] or of a
    path above it, or the opaque marker of a directory above it, the path is
    gone.  A path no entry of the layer touches or creates is unchanged. *)
Theorem layer_last_writer es1 e p es2 s s' q :
  inv s -> Forall entry_allowed (es1 ++ Ok e :: es2) -> Forall component q ->
  extract_entries (es1 ++ Ok e :: es2) s = (s', Done tt) ->
  e.(te_path) = Ok p -> Forall (fun y => ~ entry_touches y q /\ ~ entry_creates y q) es2 ->
  (forall data md, e.(te_type) = EtRegular -> tar_names p = q -> whiteout_op q = None ->
     e.(te_content) = Ok data -> e.(te_mode) = Ok md ->
     abs s' q = Some (leaf (CFile data) (mode_regular (Z.land md 0xFFF)))) /\
  (forall ds t, tar_names p = ds ++ [".wh." +:+ t] -> t <> EmptyString -> t <> ".wh..opq"%string ->
     ds ++ [t] `prefix_of` q -> abs s' q = None) /\
  (forall ds, tar_names p = ds ++ [".wh..wh..opq"%string] -> ds `prefix_of` q -> q <> ds ->
     abs s' q = None) /\
  (Forall (fun y => ~ entry_touches y q /\ ~ entry_creates y q) (es1 ++ [Ok e]) -> abs s' q = abs s q).
Proof.
  intros I Ha Hq Hrun Hp Hes2. apply Forall_and in Hes2 as [Ht2 Hc2].
  pose proof (done_confined es1 e p es2 s s' Hp Hrun) as He.
  pose proof (tar_names_safe p He) as Hs. split_and!.
  - intros data md Hty Hn Hw Hd Hm. pose proof (plan_regular e p Hp He) as Hplan. rewrite Hn in Hplan.
    specialize (Hplan Hw). unfold entry_op in Hplan. rewrite Hty, Hd, Hm in Hplan. cbn in Hplan.
    destruct (extract_around es1 _ es2 _ s s' I Ha Hplan Hrun) as (s1 & s2 & m & I1 & Has & Heq & Hl).
    eapply layer_keeps; [exact Hl|done|done|]. rewrite Heq by done. cbn [aspec] in Has.
    case_match; [done|]. apply put_leaf_at in Has. by rewrite components_guest in Has.
  - intros ds t Hn Hne Ht Hpre. pose proof (plan_whiteout e p ds t Hp He Hn Ht) as Hplan.
    destruct (extract_around es1 _ es2 _ s s' I Ha Hplan Hrun) as (s1 & s2 & m & I1 & Has & Heq & Hl).
    eapply layer_absent; [exact Hl|done|done|]. rewrite Heq by done. injection Has as <-.
    unfold remove_below. rewrite Hn in Hs.
    rewrite (whiteout_target ds (".wh." +:+ t) t) by (done || apply strip_prefix_app).
    apply is_empty_false in Hne as ->. by rewrite decide_True.
  - intros ds Hn Hpre Hne. pose proof (plan_opaque e p ds Hp He Hn) as Hplan.
    destruct (extract_around es1 _ es2 _ s s' I Ha Hplan Hrun) as (s1 & s2 & m & I1 & Has & Heq & Hl).
    eapply layer_absent; [exact Hl|done|done|]. rewrite Heq by done.
    rewrite Hn in Hs. apply Forall_app in Hs as [Hs _]. apply safe_component in Hs.
    cbn [aspec] in Has. rewrite components_guest in Has by done.
    destruct (abs s1 ds) eqn:Ed.
    + case_match; [|done]. injection Has as <-. unfold clear_below. by rewrite decide_True.
    + injection Has as <-. by apply (below_missing s1 ds).
  - intros [Ht Hc]%Forall_and. destruct (extract_done _ s s' I Ha Hrun) as [_ Hl].
    rewrite cons_middle, app_assoc in Hl. destruct (abs s q) as [x|] eqn:Ex.
    + eapply layer_keeps; [exact Hl|done| |done]. by apply Forall_app_2.
    + eapply layer_absent; [exact Hl|done| |done]. by apply Forall_app_2.
Qed.
Lemma layer_last_writer_witness :
  let s' := (extract_entries demo_layer (fs_new K4)).1 in
  abs s' ["a"; "b"]%string = None /\ abs s' ["a"; "c"]%string = Some (leaf (CFile [2]) (mode_regular o644)).
Proof.
  set (q := ["a"; "b"]%string).
  assert (Hq : Forall component q) by (repeat constructor; vm_compute; discriminate).
  split; [|vm_compute; reflexivity].
  eapply (layer_last_writer [Ok (file_entry "./a/b" [1]); Ok (file_entry "a/c" [2])]
    (file_entry "a/.wh.b" []) "a/.wh.b" [Ok (file_entry "d" [3])] (fs_new K4)
    (extract_entries demo_layer (fs_new K4)).1 q (fs_new_inv K4) demo_layer_allowed Hq)
    with (ds := ["a"%string]) (t := "b"%string).
  - vm_compute. reflexivity.
  - reflexivity.
  - constructor; [|constructor].
    split; intros (o & Hp & Ht); vm_compute in Hp; injection Hp as <-; [discriminate Ht|].
    destruct Ht as [k Hk]. discriminate Hk.
  - vm_compute. reflexivity.
  - discriminate.
  - discriminate.
  - exists []. reflexivity.
Defined.

(** A layer cannot write outside the image root.  A tar path is accepted
    exactly when it is relative and has no parent component; the guest path it
    is given then has the names of the tar path as its components, in order,
    none of them empty, [.] or [..]. *)
Theorem tar_path_confined p :
  match tar_path_to_guest_string p with
  | Ok g => starts_with slash p = false /\ (".."%string ∉ split slash p) /\
            components g = tar_names p /\ Forall safe (components g)
  | Err e => e = UnsupportedFeature ("unsafe OCI layer path " +:+ p) /\
             (starts_with slash p = true \/ ".."%string ∈ split slash p)
  end.
Proof.
  rewrite tar_path_spec. assert (Hex : existsb (String.eqb "..") (split slash p) = true <-> ".."%string ∈ split slash p).
  { rewrite existsb_exists, list_elem_of_In. split; [|intros; exists ".."%string; by rewrite String.eqb_refl].
    intros (x & Hx & ->%String.eqb_eq). done. }
  destruct (escapes p) eqn:He; unfold escapes in He.
  - split; [done|]. apply orb_true_iff in He as [|]; [by left|right]. by apply Hex.
  - pose proof (tar_names_safe p He) as Hs. apply orb_false_iff in He as [Hs1 Hs2].
    rewrite components_guest by by apply safe_component. split_and!; [done| |done..].
    rewrite <- Hex. by rewrite Hs2.
Qed.

(** The whiteouts the builder writes are the ones the layer reader
    understands.  Reading the marker [add_whiteout] writes for a path removes
    exactly that path, reading the marker of [add_opaque_dir] empties exactly
    that directory; the one ambiguity is a file called [.wh..opq], whose
    whiteout marker is the opaque marker of its directory. *)
Theorem whiteout_marker_roundtrip path cs b marker s :
  components path = cs ++ [b] -> Forall safe (cs ++ [b]) -> whiteout_marker_path path = Ok marker ->
  handle_oci_whiteout marker s =
    (_ ← (if String.eqb b ".wh..opq" then clear_dir (guest_of cs) else remove_path path); mret true) s /\
  handle_oci_whiteout (opaque_dir_marker_path path) s = (_ ← clear_dir (guest_of (cs ++ [b])); mret true) s.
Proof.
  intros Hc Hs. pose proof Hs as [Hcs [[[Hb1 Hb2] Hb] _]%Forall_cons]%Forall_app.
  rewrite (whiteout_marker_spec path cs b Hc Hb). intros [= <-]. split.
  - assert (Hg : forall c, mkpath (cs ++ [c]) = guest_of (cs ++ [c])) by (intros; by destruct cs).
    rewrite Hg, handle_whiteout_spec.
    + unfold whiteout_op. rewrite last_snoc, removelast_last, strip_prefix_app.
      replace (String.eqb (".wh." +:+ b)%string ".wh..wh..opq") with (String.eqb b ".wh..opq") by done.
      destruct (String.eqb b ".wh..opq"); [done|]. cbn [exec_op]. rewrite !bind_st. unfold remove_path.
      rewrite !normalize_spec, components_snoc_slash, components_single by (done || by apply safe_component).
      by rewrite Hc.
    + apply Forall_app_2; [done|]. repeat constructor; [done|]. by rewrite contains_app, Hb2.
  - rewrite opaque_marker_spec, Hc.
    replace (mkpath ((cs ++ [b]) ++ [".wh..wh..opq"%string])) with (guest_of ((cs ++ [b]) ++ [".wh..wh..opq"%string]))
      by by destruct cs.
    rewrite handle_whiteout_spec by (apply Forall_app_2; [done|]; by repeat constructor).
    unfold whiteout_op. by rewrite last_snoc, removelast_last.
Qed.
Lemma whiteout_marker_roundtrip_witness :
  let s := (exec_op (OAddFile "/a/b" [1] o644) (fs_new K4)).1 in
  handle_oci_whiteout "/a/.wh.b" s = (_ ← remove_path "a//b"; mret true) s /\
  handle_oci_whiteout (opaque_dir_marker_path "a//b") s = (_ ← clear_dir (guest_of ["a"; "b"]%string); mret true) s.
Proof.
  apply (whiteout_marker_roundtrip "a//b" ["a"%string] "b"); [reflexivity| |reflexivity].
  repeat constructor; vm_compute; discriminate.
Defined.

(** ** Executions worth knowing *)
(** The bare marker [.wh.] removes the directory it is in. *)
Lemma bare_whiteout_removes_its_directory :
  let s := (extract_entries [Ok (file_entry "a/b" [1]); Ok (file_entry "a/.wh." [])] (fs_new K4)).1 in
  abs s ["a"]%string = None.
Proof. vm_compute. reflexivity. Qed.
(** A directory entry for a directory that exists changes nothing: the mode
    of the upper layer is lost. *)
Lemma directory_mode_of_upper_layer_is_lost :
  let dir md := Ok (mk_tar_entry (Ok "a"%string) EtDirectory (Ok md) (Ok []) (Ok None)) in
  let s := (extract_entries [dir o755; dir o700] (fs_new K4)).1 in
  e_mode <$> abs s ["a"]%string = Some (mode_dir o755).
Proof. vm_compute. reflexivity. Qed.
(** Choosing the block size after the UUID, or after the first entries, starts
    over with an empty image and a zero UUID. *)
Lemma block_size_discards_the_image w u bs :
  (writer_block_size (writer_uuid w u) bs).(w_fs).(uuid) = zeros 16 /\
  forall w', write_dir w "/a" o755 = Done w' ->
    (writer_block_size w' bs).(w_fs) = with_min_size (fs_new bs) w.(w_size).
Proof.
  split; [by destruct bs|]. intros w'. unfold write_dir, writing.
  destruct (add_dir _ _ _) as [b [[]|e|]]; [|done..]. by intros [= <-].
Qed.
