(* ===== verification/Ext4HostTree.v ===== *)
(** * Copying a host directory tree into the image

    [copy_host_tree] recurses over the host tree in name order.  The image
    then holds, below the guest path, exactly what the host tree holds. *)
From S2P Require Import Prelude BTree Types Ext4Layout Ext4Path Ext4Tree Ext4TreeInv Ext4TreeOps Ext4TreeSpec Ext4Encode Ext4Image Ext4Writer Ext4Layers.

(** ** What a host tree holds *)
Definition dir_of (entries : list (string * Host)) : gmap string Host := list_to_map entries.
Fixpoint host_lookup (h : Host) (q : list string) : option Entry :=
  match q with
  | [] =>
      match h with
      | HostDir md _ _ _ => Some (mk_entry CDirectory (mode_dir (Z.land md 0xFFF)) 0 0 [] None)
      | HostFile md (Ok data) => Some (leaf (CFile data) (mode_regular (Z.land md 0xFFF)))
      | HostSymlink (Ok target) => Some (leaf (CSymlink target) (mode_symlink o777))
      | _ => None
      end
  | c :: q =>
      match h with
      | HostDir _ _ _ entries =>
          match dir_of entries !! c with Some h => host_lookup h q | None => None end
      | _ => None
      end
  end.
(** A tree that can be copied: everything readable and of a supported type,
    names as a directory has them, contents within the limits. *)
Inductive copyable : Host -> Prop :=
| copyable_file md data :
    Z.of_nat (length data) <= MAX_FILE_SIZE -> copyable (HostFile md (Ok data))
| copyable_symlink target : len target <= MAX_SYMLINK_LEN -> copyable (HostSymlink (Ok target))
| copyable_dir md entries :
    NoDup entries.*1 -> (forall nm h, (nm, h) ∈ entries -> safe nm /\ copyable h) ->
    copyable (HostDir md None None entries).

Lemma Host_nested_ind (P : Host -> Prop) :
  (forall e, P (HostUnreadable e)) ->
  (forall md re ee entries, (forall nm h, (nm, h) ∈ entries -> P h) -> P (HostDir md re ee entries)) ->
  (forall t, P (HostSymlink t)) -> (forall md d, P (HostFile md d)) ->
  P HostCharDevice -> P HostBlockDevice -> P HostOther -> forall h, P h.
Proof.
  intros Hu Hd Hl Hf Hc Hb Ho. fix IH 1. intros [e|md re ee entries|t|md d| | |].
  - exact (Hu e).
  - apply Hd. enough (Hall : Forall (fun x => P x.2) entries).
    { intros nm h Hin. exact (proj1 (Forall_forall _ _) Hall (nm, h) Hin). }
    exact ((fix go l : Forall (fun x => P x.2) l :=
      match l with [] => Forall_nil_2 _ | x :: l => Forall_cons_2 _ x l (IH x.2) (go l) end) entries).
  - exact (Hl t).
  - exact (Hf md d).
  - exact Hc.
  - exact Hb.
  - exact Ho.
Qed.

(** ** Sorting *)
Lemma insert_by_name_perm {A} (x : string * A) l : insert_by_name x l ≡ₚ x :: l.
Proof.
  induction l as [|y l IH]; [done|]. cbn [insert_by_name]. destruct (kcmp _ _); [done..|].
  rewrite IH. apply Permutation_swap.
Qed.
Lemma sort_by_name_perm {A} (l : list (string * A)) : sort_by_name l ≡ₚ l.
Proof. induction l as [|x l IH]; [done|]. cbn [sort_by_name]. by rewrite insert_by_name_perm, IH. Qed.
Lemma sort_by_name_map {A B} (f : A -> B) (l : list (string * A)) :
  sort_by_name ((fun '(nm, a) => (nm, f a)) <$> l) = (fun '(nm, a) => (nm, f a)) <$> sort_by_name l.
Proof.
  induction l as [|[nm a] l IH]; [done|]. cbn [sort_by_name]. rewrite fmap_cons. cbn [sort_by_name].
  rewrite IH. generalize (sort_by_name l). intros k.
  induction k as [|[nm' a'] k IHk]; [done|]. rewrite fmap_cons. cbn [insert_by_name fst].
  destruct (kcmp nm nm'); [done..|]. rewrite fmap_cons. by f_equal.
Qed.
Lemma for_each_map {A B} (f : B -> ST unit) (g : A -> B) l s :
  for_each f (g <$> l) s = for_each (fun x => f (g x)) l s.
Proof.
  revert s. induction l as [|x l IH]; intros s; [done|]. rewrite fmap_cons. cbn [for_each].
  rewrite !bind_st. destruct (f (g x) s) as [s1 [[]|e|]]; [apply IH|done..].
Qed.

(** ** Paths *)
Lemma components_join_slash p t : components (p +:+ "/" +:+ t) = components p ++ components t.
Proof.
  induction p as [|r IH|h Hh|h r Hh IH] using path_ind.
  - done.
  - rewrite append_cons, !components_slash. exact IH.
  - rewrite (components_single h), append_cons, append_nil_l by done. by apply components_app.
  - rewrite append_assoc, append_cons, !components_app by done. by rewrite IH.
Qed.
Lemma components_append_guest p nm : component nm -> components (append_guest_path p nm) = components p ++ [nm].
Proof.
  intros H. unfold append_guest_path. destruct (String.eqb_spec p "/") as [->|_].
  - rewrite append_cons, components_slash, append_nil_l. by rewrite components_single.
  - by rewrite components_join_slash, (components_single nm).
Qed.
Fixpoint strip_path (p q : list string) : option (list string) :=
  match p, q with
  | [], _ => Some q
  | a :: p, b :: q => if decide (a = b) then strip_path p q else None
  | _ :: _, [] => None
  end.
Lemma strip_path_some p q r : strip_path p q = Some r <-> q = p ++ r.
Proof.
  revert q. induction p as [|a p IH]; intros q; cbn.
  - split; congruence.
  - destruct q as [|b q]; [done|]. case_decide as E; [subst; rewrite IH; split; [by intros ->|congruence]|].
    split; congruence.
Qed.
Lemma strip_path_none p q : strip_path p q = None <-> ~ p `prefix_of` q.
Proof.
  destruct (strip_path p q) as [r|] eqn:E.
  - apply strip_path_some in E. split; [done|]. intros H. destruct H. by exists r.
  - split; [|done]. intros _ [r ->]. assert (strip_path p (p ++ r) = Some r) by by apply strip_path_some.
    congruence.
Qed.

(** ** The copy *)
(** The file system with a host tree at a free path, its parents created. *)
Definition grafted (m : AbsFS) (g : list string) (h : Host) : AbsFS := fun q =>
  match strip_path g q with
  | Some r => host_lookup h r
  | None => mkdirs m (removelast g) dir755 q
  end.
Definition copies (h : Host) : Prop := forall s p g b,
  inv s -> components p = g ++ [b] -> bad_base b = false -> abs s (g ++ [b]) = None ->
  mkdir_ok (abs s) g = true ->
  exists s', copy_host_tree p h s = (s', Done tt) /\ inv s' /\
    fs_equiv (abs s') (grafted (abs s) (g ++ [b]) h).

Lemma placed_lookup s g b e q :
  inv s -> Forall component q -> abs s (g ++ [b]) = None ->
  update (mkdirs (abs s) g dir755) (g ++ [b]) e q =
    match strip_path (g ++ [b]) q with
    | Some [] => Some e
    | Some _ => None
    | None => mkdirs (abs s) g dir755 q
    end.
Proof.
  intros I Hq Hfree. unfold update. destruct (strip_path (g ++ [b]) q) as [r|] eqn:E.
  - apply strip_path_some in E as ->. destruct r as [|c r]; [by rewrite app_nil_r, decide_True|].
    rewrite decide_False by (intros H; apply (f_equal length) in H; rewrite !length_app in H; cbn in H; lia).
    unfold mkdirs. rewrite (below_missing s (g ++ [b])) by (done || by apply prefix_app_r).
    assert (Hno : ~ (g ++ [b]) ++ c :: r `prefix_of` g).
    { intros H%prefix_length. rewrite !length_app in H. cbn in H. lia. }
    rewrite !decide_False; [done..|]. intros E. apply Hno. by rewrite E.
  - apply strip_path_none in E. rewrite decide_False; [done|]. by intros ->.
Qed.
(** A leaf or directory put at a free path. *)
Lemma place_op s o p g b e :
  inv s -> allowed o -> components p = g ++ [b] -> abs s (g ++ [b]) = None ->
  aspec o (link_target o s) (abs s) = Some (update (mkdirs (abs s) g dir755) (g ++ [b]) e) \/
  aspec o (link_target o s) (abs s) = Some (mkdirs (abs s) (g ++ [b]) e) ->
  exists s', exec_op o s = (s', Done tt) /\ inv s' /\
    fs_equiv (abs s') (fun q => match strip_path (g ++ [b]) q with
                                | Some [] => Some e | Some _ => None
                                | None => mkdirs (abs s) g dir755 q end).
Proof.
  intros I Ha Hc Hfree Hs. pose proof (exec_op_refines s o I Ha) as H. unfold op_outcome in H.
  destruct Hs as [Hs|Hs]; rewrite Hs in H; destruct H as (s' & -> & I' & _ & He); exists s';
    split_and!; try done; intros q Hq; rewrite He by done.
  - by apply placed_lookup.
  - rewrite <- mkdirs_snoc by done. by apply placed_lookup.
Qed.
Lemma put_leaf_free m g b e :
  bad_base b = false -> mkdir_ok m g = true -> m (g ++ [b]) = None ->
  put_leaf m (g ++ [b]) e = Some (update (mkdirs m g dir755) (g ++ [b]) e).
Proof. intros Hb Hm Hf. unfold put_leaf. by rewrite last_snoc, removelast_last, Hb, Hm, Hf. Qed.
Lemma live_dir_mkdirs s g e q : inv s -> Forall component g -> abs s g = Some e -> mkdirs (abs s) g dir755 q = abs s q.
Proof.
  intros I Hg (i & n & Hn & <- & _)%abs_some; [|apply I|done]. by apply (live_mkdirs s i n).
Qed.
Lemma live_dir_ok s g e :
  inv s -> Forall component g -> abs s g = Some e -> is_dir e.(e_mode) = true -> mkdir_ok (abs s) g = true.
Proof.
  intros I Hg (i & n & Hn & <- & He)%abs_some Hd; [|apply I|done]. apply (live_mkdir_ok s i n); [done..|].
  by rewrite <- He in Hd.
Qed.
Lemma dir_of_cons nm h l : dir_of ((nm, h) :: l) = <[nm := h]> (dir_of l).
Proof. done. Qed.
Lemma strip_snoc g b q :
  strip_path (g ++ [b]) q = match strip_path g q with
                            | Some (c :: r) => if decide (b = c) then Some r else None
                            | _ => None
                            end.
Proof.
  revert q. induction g as [|a g IH]; intros q; cbn; [by destruct q|].
  destruct q as [|c q]; [done|]. case_decide; [apply IH|done].
Qed.
Lemma strip_refl g : strip_path g g = Some [].
Proof. apply strip_path_some. by rewrite app_nil_r. Qed.
Lemma strip_app g r : strip_path g (g ++ r) = Some r.
Proof. by apply strip_path_some. Qed.

Lemma children_spec p g e l s :
  inv s -> components p = g -> abs s g = Some e -> is_dir e.(e_mode) = true -> NoDup l.*1 ->
  (forall nm h, (nm, h) ∈ l -> safe nm /\ copies h) ->
  (forall nm, nm ∈ l.*1 -> abs s (g ++ [nm]) = None) ->
  exists s', for_each (fun x => copy_host_tree (append_guest_path p x.1) x.2) l s = (s', Done tt) /\
    inv s' /\
    fs_equiv (abs s') (fun q => match strip_path g q with
      | Some (c :: r) => match dir_of l !! c with Some h => host_lookup h r | None => abs s q end
      | _ => abs s q end).
Proof.
  intros I Hp He Hd. assert (Hg : Forall component g) by (rewrite <- Hp; apply components_ok).
  revert s I He. induction l as [|[nm h] l IH]; intros s I He Hnd Hch Hfree.
  - exists s. split_and!; [done..|]. intros q Hq. by destruct (strip_path g q) as [[|c r]|].
  - rewrite fmap_cons in Hnd, Hfree. apply NoDup_cons in Hnd as [Hnm Hnd].
    destruct (Hch nm h (list_elem_of_here _ _)) as [[Hcomp Hbad] Hcopy].
    destruct (Hcopy s (append_guest_path p nm) g nm I) as (s1 & Hrun & I1 & Heq); [..|].
    { by rewrite components_append_guest, Hp. } { done. } { apply Hfree, list_elem_of_here. }
    { by apply (live_dir_ok s g e). }
    assert (Hs1 : forall q, Forall component q -> abs s1 q = match strip_path g q with
      | Some (c :: r) => if decide (nm = c) then host_lookup h r else abs s q | _ => abs s q end).
    { intros q Hq. rewrite Heq by done. unfold grafted. rewrite strip_snoc, removelast_last.
      rewrite (live_dir_mkdirs s g e) by done. destruct (strip_path g q) as [[|c r]|]; [done| |done].
      by case_decide. }
    destruct (IH s1) as (s2 & Hrun2 & I2 & Heq2); [done| |done|..].
    { rewrite Hs1 by done. by rewrite strip_refl. }
    { intros nm' h' Hin. apply Hch. by apply list_elem_of_further. }
    { intros nm' Hin. rewrite Hs1.
      - rewrite strip_app, decide_False; [by apply Hfree, list_elem_of_further|]. by intros ->.
      - apply Forall_app_2; [done|]. apply Forall_singleton. apply list_elem_of_fmap in Hin as ([nm2 h2] & -> & Hin).
        by apply (Hch nm2 h2), list_elem_of_further. }
    exists s2. split; [cbn [for_each fst snd]; by rewrite bind_st, Hrun|]. split; [done|].
    intros q Hq. rewrite Heq2, Hs1 by done. destruct (strip_path g q) as [[|c r]|]; [done| |done].
    rewrite dir_of_cons. case_decide as Hc.
    + subst c. rewrite lookup_insert_eq. unfold dir_of. by rewrite not_elem_of_list_to_map_1.
    + by rewrite lookup_insert_ne.
Qed.

(** The directory loop runs over the entries in name order. *)
Lemma copy_dir_run p md entries s :
  copy_host_tree p (HostDir md None None entries) s =
    (_ ← (if negb (String.eqb p "/") then add_dir p (Z.land md 0xFFF) else mret tt);
     for_each (fun x => copy_host_tree (append_guest_path p x.1) x.2) (sort_by_name entries)) s.
Proof.
  cbn [copy_host_tree]. unfold mode_from_metadata. rewrite permission_bits_land, !bind_st.
  generalize (if negb (String.eqb p "/") then add_dir p (Z.land md 0xFFF) else mret tt : ST unit). intros mk.
  destruct (mk s) as [s1 [[]|e|]]; [|done..].
  unfold control_opt. rewrite !bind_st. cbn [mret ST_ret]. rewrite !bind_st. cbn [mret ST_ret].
  rewrite (sort_by_name_map (fun child g => copy_host_tree g child)), for_each_map. clear s. revert s1.
  induction (sort_by_name entries) as [|[nm h] l IH]; intros s1; [done|]. cbn [for_each fst snd].
  rewrite !bind_st. destruct (copy_host_tree (append_guest_path p nm) h s1) as [s2 [[]|e|]]; [apply IH|done..].
Qed.
Lemma sorted_entries entries :
  NoDup entries.*1 -> NoDup (sort_by_name entries).*1 /\ dir_of (sort_by_name entries) = dir_of entries /\
  forall x, x ∈ sort_by_name entries <-> x ∈ entries.
Proof.
  intros Hnd. pose proof (sort_by_name_perm entries) as Hp. split_and!.
  - by rewrite Hp.
  - apply list_to_map_proper; [by rewrite Hp|done].
  - intros x. by rewrite Hp.
Qed.
Lemma dir_copies md entries :
  NoDup entries.*1 -> (forall nm h, (nm, h) ∈ entries -> safe nm /\ copies h) ->
  copies (HostDir md None None entries).
Proof.
  intros Hnd Hch s p g b I Hp Hb Hfree Hok. pose proof (components_ok p) as Hcp. rewrite Hp in Hcp.
  destruct (place_op s (OAddDir p (Z.land md 0xFFF)) p g b
    (mk_entry CDirectory (mode_dir (Z.land md 0xFFF)) 0 0 [] None)) as (s1 & Hrun & I1 & Heq); [done..| |].
  { right. cbn [aspec]. rewrite Hp. rewrite (proj2 (mkdir_ok_snoc _ _ _)); [done|]. by rewrite Hfree. }
  destruct (sorted_entries entries Hnd) as (Hnd' & Hdir & Hin).
  destruct (children_spec p (g ++ [b]) (mk_entry CDirectory (mode_dir (Z.land md 0xFFF)) 0 0 [] None)
    (sort_by_name entries) s1 I1 Hp) as (s2 & Hrun2 & I2 & Heq2).
  { rewrite Heq by done. by rewrite strip_refl. } { apply is_dir_dir. } { done. }
  { intros nm h Hx%Hin. by apply Hch. }
  { intros nm Hx. rewrite Heq; [by rewrite strip_app|]. apply Forall_app_2; [done|]. apply Forall_singleton.
    apply list_elem_of_fmap in Hx as ([nm' h] & -> & Hx%Hin). by apply (Hch nm' h). }
  exists s2. split; [|split; [done|]].
  - rewrite copy_dir_run. replace (String.eqb p "/") with false; [cbn [negb]|].
    + change (add_dir p (Z.land md 0xFFF)) with (exec_op (OAddDir p (Z.land md 0xFFF))).
      by rewrite bind_st, Hrun.
    + symmetry. apply String.eqb_neq. intros ->. by destruct g.
  - intros q Hq. rewrite Heq2, Heq by done. unfold grafted. rewrite Hdir, removelast_last.
    destruct (strip_path (g ++ [b]) q) as [[|c r]|]; [done| |done]. cbn [host_lookup].
    by destruct (dir_of entries !! c).
Qed.
(** A file or symbolic link is one operation. *)
Lemma leaf_copies h o e p s g b :
  inv s -> allowed o -> components p = g ++ [b] -> abs s (g ++ [b]) = None ->
  aspec o (link_target o s) (abs s) = Some (update (mkdirs (abs s) g dir755) (g ++ [b]) e) ->
  copy_host_tree p h s = exec_op o s -> (forall r, host_lookup h r = match r with [] => Some e | _ => None end) ->
  exists s', copy_host_tree p h s = (s', Done tt) /\ inv s' /\ fs_equiv (abs s') (grafted (abs s) (g ++ [b]) h).
Proof.
  intros I Ha Hp Hfree Hs -> Hl.
  destruct (place_op s o p g b e) as (s1 & Hrun & I1 & Heq); [done..|by left|].
  exists s1. split_and!; [done..|]. intros q Hq. rewrite Heq by done. unfold grafted. rewrite removelast_last.
  destruct (strip_path (g ++ [b]) q) as [r|]; [|done]. rewrite Hl. by destruct r.
Qed.
Lemma copyable_copies h : copyable h -> copies h.
Proof.
  induction h as [e|md re ee entries IH|t|md d| | |] using Host_nested_ind; intros Hc;
    inversion Hc as [? ? Hlen|? Hlen|? ? Hnd Hch]; subst.
  - apply dir_copies; [done|]. intros nm h Hin. destruct (Hch nm h Hin). by eauto.
  - intros s p g b I Hp Hb Hfree Hok.
    apply (leaf_copies _ (OAddSymlink p target) (leaf (CSymlink target) (mode_symlink o777))); try done.
    + cbn [aspec]. rewrite Hp. replace (MAX_SYMLINK_LEN <? len target) with false by lia. by apply put_leaf_free.
    + by intros [].
  - intros s p g b I Hp Hb Hfree Hok. apply (leaf_copies _ (OAddFile p data (Z.land md 0xFFF))
      (leaf (CFile data) (mode_regular (Z.land md 0xFFF)))); try done.
    + cbn [aspec]. rewrite Hp. replace (MAX_FILE_SIZE <? Z.of_nat (length data)) with false by lia.
      by apply put_leaf_free.
    + cbn [copy_host_tree]. unfold control, mode_from_metadata. rewrite bind_lift. cbn [map_err].
      by rewrite permission_bits_land.
    + by intros [].
Qed.

(** Copying a host directory tree is faithful.  For a tree whose files are
    readable, of a supported type and within the limits, copied to a free path
    with no file among its parents: the call succeeds, below the path the image
    holds exactly what the host tree holds (same names, contents, link targets
    and permission bits, and nothing else), missing parents are created with
    mode 0755 and every other path is untouched.  Copied to the root, a
    directory whose names are free there adds exactly its entries. *)
Theorem host_tree_copied w p h :
  inv w.(w_fs) -> copyable h ->
  (forall g b, components p = g ++ [b] -> bad_base b = false -> abs w.(w_fs) (components p) = None ->
     mkdir_ok (abs w.(w_fs)) g = true ->
     exists w', write_directory w p h = Done w' /\ inv w'.(w_fs) /\
       fs_equiv (abs w'.(w_fs)) (grafted (abs w.(w_fs)) (components p) h)) /\
  (forall md entries, h = HostDir md None None entries ->
     (forall nm, nm ∈ entries.*1 -> abs w.(w_fs) [nm] = None) ->
     exists w', write_directory w "/" h = Done w' /\ inv w'.(w_fs) /\
       fs_equiv (abs w'.(w_fs)) (fun q =>
         match q with
         | c :: _ => if decide (c ∈ entries.*1) then host_lookup h q else abs w.(w_fs) q
         | [] => abs w.(w_fs) q
         end)).
Proof.
  intros I Hc. split.
  - intros g b Hp Hb Hfree Hok. rewrite Hp in *.
    destruct (copyable_copies h Hc w.(w_fs) p g b I Hp Hb Hfree Hok) as (s' & Hrun & I' & Heq).
    exists (set_fs w s'). unfold write_directory, writing, path_to_guest_string. by rewrite Hrun.
  - intros md entries -> Hfree. inversion Hc as [|? ?|? ? Hnd Hch]; subst.
    destruct (sorted_entries entries Hnd) as (Hnd' & Hdir & Hin). destruct (root_abs _ I) as (e & He & Hd).
    destruct (children_spec "/" [] e (sort_by_name entries) w.(w_fs)) as (s' & Hrun & I' & Heq); [done..| | |].
    { intros nm h Hx%Hin. destruct (Hch nm h Hx). by eauto using copyable_copies. }
    { intros nm Hx. apply Hfree. apply list_elem_of_fmap in Hx as (x & -> & Hx%Hin). by apply list_elem_of_fmap_2. }
    exists (set_fs w s'). unfold write_directory, writing, path_to_guest_string.
    rewrite copy_dir_run. cbn [String.eqb Ascii.eqb Bool.eqb negb]. rewrite bind_st. cbn [mret ST_ret]. rewrite Hrun.
    split_and!; [done..|]. intros q Hq. cbn [w_fs set_fs]. rewrite Heq, Hdir by done.
    destruct q as [|c r]; [done|]. cbn [strip_path host_lookup]. unfold dir_of.
    case_decide as Hx.
    + by destruct (list_to_map entries !! c) eqn:E; [|apply not_elem_of_list_to_map_2 in E].
    + by rewrite (not_elem_of_list_to_map_1 entries c).
Qed.
(** The settings of an image do not affect its tree. *)
Lemma writer_build_inv sink size bs : inv (writer_build sink size bs).(w_fs).
Proof. cbn. destruct (fs_new_inv bs) as [[W1 W2 W3 W4 W5] I1 I2 I3 I4]. split; [split|..]; assumption. Qed.
Definition demo_host : Host :=
  HostDir o755 None None
    [("z"%string, HostFile (0x8000 + o644) (Ok [1; 2]));
     ("etc"%string, HostDir o700 None None [("lnk"%string, HostSymlink (Ok "../z"%string))])].
Lemma demo_host_copyable : copyable demo_host.
Proof.
  assert (Hs : forall c, is_empty c = false -> contains slash c = false -> bad_base c = false -> safe c).
  { intros c H1%is_empty_false H2 H3. by repeat split. }
  constructor; [repeat constructor; set_solver|].
  intros nm h [[= -> ->]|[[= -> ->]|Hn%elem_of_nil]%elem_of_cons]%elem_of_cons; [..|done]; (split; [by apply Hs|]).
  - constructor. vm_compute. discriminate.
  - constructor; [repeat constructor; set_solver|].
    intros nm h [[= -> ->]|Hn%elem_of_nil]%elem_of_cons; [|done]. split; [by apply Hs|].
    constructor. vm_compute. discriminate.
Qed.
Lemma host_tree_copied_witness :
  exists w', write_directory (in_memory 0) "/opt/app" demo_host = Done w' /\
    abs w'.(w_fs) ["opt"; "app"; "etc"; "lnk"]%string = Some (leaf (CSymlink "../z") (mode_symlink o777)).
Proof.
  destruct (host_tree_copied (in_memory 0) "/opt/app" demo_host (writer_build_inv _ _ _) demo_host_copyable) as [H _].
  destruct (H ["opt"%string] "app"%string) as (w' & Hrun & _ & Heq); try (vm_compute; reflexivity).
  exists w'. split; [exact Hrun|]. rewrite Heq; [vm_compute; reflexivity|].
  repeat constructor; vm_compute; discriminate.
Defined.
