(* ===== verification/Ext4InitBlock.v ===== *)
(** * The boot block image ([crates/ext4/src/init_block.rs])

    The image that boots the guest agent: a fixed tree with two binaries,
    cached under a name derived from their SHA-256.  The hash, the environment
    and the file system calls are parameters. *)
From S2P Require Import Prelude BTree Types Ext4Layout Ext4Path Ext4Tree Ext4TreeInv Ext4TreeOps Ext4TreeSpec Ext4Encode Ext4Image Ext4Writer Ext4Layers Ext4HostTree.

Definition INIT_BLOCK_MIN_BYTES : Z := 8 * 1024 * 1024.
Definition INIT_BLOCK_OVERHEAD_BYTES : Z := 16 * 1024 * 1024.
Definition init_block_size (vminitd vmexec : list Z) : Z :=
  Z.max (sat_add 64 (sat_add 64 (lenz vminitd) (lenz vmexec)) INIT_BLOCK_OVERHEAD_BYTES)
    INIT_BLOCK_MIN_BYTES.
Definition byte_string (s : string) : list Z := code <$> bytes s.
(** What is hashed: the two binaries, each behind its label and a zero byte. *)
Definition digest_input (vminitd vmexec : list Z) : list Z :=
  byte_string "vminitd" ++ [0] ++ vminitd ++ byte_string "vmexec" ++ [0] ++ vmexec.
Definition hex_char (d : Z) : ascii :=
  default Ascii.zero (bytes "0123456789abcdef" !! Z.to_nat d).
Fixpoint hex_digest (digest : list Z) : string :=
  match digest with
  | [] => EmptyString
  | b :: digest => String (hex_char (Z.shiftr b 4)) (String (hex_char (Z.land b 0x0f)) (hex_digest digest))
  end.
(** [PathBuf::join] of a relative path. *)
Definition path_join (p child : string) : string :=
  if is_empty p || ends_with slash p then p +:+ child else p +:+ "/" +:+ child.
Record Env := mk_env {
  FIRKIN_CACHE : option string;
  XDG_CACHE_HOME : option string;
  HOME : option string;
  temp_dir : string
}.
Definition cache_dir (env : Env) : string :=
  match env.(FIRKIN_CACHE) with
  | Some p => p
  | None =>
      match env.(XDG_CACHE_HOME) with
      | Some p => path_join p "firkin"
      | None =>
          match env.(HOME) with
          | Some p => path_join (path_join p ".cache") "firkin"
          | None => path_join env.(temp_dir) "firkin"
          end
      end
  end.
(** The chain of [write_*] calls of [synthesize_to]. *)
Definition o1777 : Z := 0x200 + o777.
Definition init_steps (vminitd vmexec : list Z) : list (Writer -> exec Ext4Error Writer) :=
  [fun w => write_dir w "/bin" o755; fun w => write_dir w "/sbin" o755;
   fun w => write_dir w "/dev" o755; fun w => write_dir w "/sys" o755;
   fun w => write_dir w "/proc" o755; fun w => write_dir w "/proc/self" o755;
   fun w => write_dir w "/run" o755; fun w => write_dir w "/mnt" o755;
   fun w => write_dir w "/var" o755; fun w => write_dir w "/etc" o755;
   fun w => write_dir w "/tmp" o1777; fun w => write_dir w "/root" o700;
   fun w => write_file w "/sbin/vminitd" vminitd o755;
   fun w => write_file w "/sbin/vmexec" vmexec o755;
   fun w => write_symlink w "/proc/self/exe" "sbin/vminitd";
   fun w => write_symlink w "/sbin/init" "/sbin/vminitd";
   fun w => write_file w "/etc/passwd" (byte_string "root:x:0:0:root:/root:/bin/sh" ++ [10]) o644;
   fun w => write_file w "/etc/hosts" (byte_string "127.0.0.1 localhost" ++ [10]) o644;
   fun w => write_file w "/etc/resolv.conf" [] o644].
Fixpoint chain (steps : list (Writer -> exec Ext4Error Writer)) (w : Writer) : exec Ext4Error Writer :=
  match steps with [] => Done w | f :: steps => w ← f w; chain steps w end.

Section InitBlock.
Context (sha256 : list Z -> list Z) (features_debug : Z -> string) {W : Type} `{Sink W}.
Definition runtime_digest (vminitd vmexec : list Z) : list Z := sha256 (digest_input vminitd vmexec).
(** [digest[..16].try_into()]. *)
Definition uuid_from_digest (digest : list Z) : list Z := take 16 digest.
Definition cache_path (env : Env) (vminitd vmexec : list Z) : string :=
  path_join (path_join (cache_dir env) "init-blocks") (hex_digest (runtime_digest vminitd vmexec) +:+ ".ext4").
(** The writer [synthesize_to] finalizes. *)
Definition init_writer (vminitd vmexec : list Z) (dest : string) : exec Ext4Error Writer :=
  chain (init_steps vminitd vmexec)
    (writer_uuid (writer_new dest (init_block_size vminitd vmexec))
       (uuid_from_digest (runtime_digest vminitd vmexec))).
Definition synthesize_to (vminitd vmexec : list Z) (dest : string) (opened : result io_error W)
    : option W * exec Ext4Error unit :=
  match init_writer vminitd vmexec dest with
  | Done w => match finalize features_debug w opened with
              | (out, Done _) => (out, Done tt)
              | (out, Failed e) => (out, Failed e)
              | (out, Panic) => (out, Panic)
              end
  | Failed e => (None, Failed e)
  | Panic => (None, Panic)
  end.
(** [exists] and [created] are what [Path::exists] and [create_dir_all] return. *)
Definition synthesize (env : Env) (vminitd vmexec : list Z) (exists_ : bool) (created : result io_error unit)
    (opened : result io_error W) : option W * exec Ext4Error string :=
  let path := cache_path env vminitd vmexec in
  if exists_ then (None, Done path)
  else match created with
       | Err e => (None, Failed (Control "create init.block cache directory" e))
       | Ok _ => match synthesize_to vminitd vmexec path opened with
                 | (out, Done _) => (out, Done path)
                 | (out, Failed e) => (out, Failed e)
                 | (out, Panic) => (out, Panic)
                 end
       end.
End InitBlock.

(** ** The tree of the boot image *)
Definition file_of (data : list Z) (perm : Z) : Entry := leaf (CFile data) (mode_regular perm).
Definition link_of (target : string) : Entry := leaf (CSymlink target) (mode_symlink o777).
Definition dir_with (perm : Z) : Entry := mk_entry CDirectory (mode_dir perm) 0 0 [] None.
(** Path to entry, the root under the empty path. *)
Definition init_tree (vminitd vmexec : list Z) : gmap string Entry :=
  list_to_map
    [(EmptyString, dir_with o755); ("/lost+found"%string, dir_with o700);
     ("/bin"%string, dir_with o755); ("/sbin"%string, dir_with o755); ("/dev"%string, dir_with o755);
     ("/sys"%string, dir_with o755); ("/proc"%string, dir_with o755); ("/proc/self"%string, dir_with o755);
     ("/run"%string, dir_with o755); ("/mnt"%string, dir_with o755); ("/var"%string, dir_with o755);
     ("/etc"%string, dir_with o755); ("/tmp"%string, dir_with o1777); ("/root"%string, dir_with o700);
     ("/sbin/vminitd"%string, file_of vminitd o755); ("/sbin/vmexec"%string, file_of vmexec o755);
     ("/proc/self/exe"%string, link_of "sbin/vminitd"); ("/sbin/init"%string, link_of "/sbin/vminitd");
     ("/etc/passwd"%string, file_of (byte_string "root:x:0:0:root:/root:/bin/sh" ++ [10]) o644);
     ("/etc/hosts"%string, file_of (byte_string "127.0.0.1 localhost" ++ [10]) o644);
     ("/etc/resolv.conf"%string, file_of [] o644)].
(** The calls as operations on the builder, with the sizes of the two binaries
    already checked. *)
Definition init_builds (vminitd vmexec : list Z) : list (ST unit) :=
  [add_dir "/bin" o755; add_dir "/sbin" o755; add_dir "/dev" o755; add_dir "/sys" o755;
   add_dir "/proc" o755; add_dir "/proc/self" o755; add_dir "/run" o755; add_dir "/mnt" o755;
   add_dir "/var" o755; add_dir "/etc" o755; add_dir "/tmp" o1777; add_dir "/root" o700;
   add_leaf_node "/sbin/vminitd" (CFile vminitd) (mode_regular o755);
   add_leaf_node "/sbin/vmexec" (CFile vmexec) (mode_regular o755);
   add_symlink "/proc/self/exe" "sbin/vminitd"; add_symlink "/sbin/init" "/sbin/vminitd";
   add_file "/etc/passwd" (byte_string "root:x:0:0:root:/root:/bin/sh" ++ [10]) o644;
   add_file "/etc/hosts" (byte_string "127.0.0.1 localhost" ++ [10]) o644;
   add_file "/etc/resolv.conf" [] o644].

Lemma chain_builds (l : list (Writer -> exec Ext4Error Writer)) (k : list (ST unit)) w :
  Forall2 (fun f m => forall w, f w = writing w m) l k ->
  chain l w = writing w (for_each id k).
Proof.
  intros H. revert w. induction H as [|f m l k Hf _ IH]; intros w; [by destruct w|].
  cbn [chain for_each]. rewrite Hf. unfold writing at 1. unfold writing. rewrite bind_st. unfold id at 1.
  destruct (m w.(w_fs)) as [b [[]|e|]]; [|done..]. unfold mbind, exec_bind. rewrite IH. unfold writing. cbn [w_fs set_fs].
  by destruct (for_each id k b) as [b' [[]|e|]].
Qed.
Lemma add_file_small p data perm :
  Z.of_nat (length data) <= MAX_FILE_SIZE -> add_file p data perm = add_leaf_node p (CFile data) (mode_regular perm).
Proof. intros H. unfold add_file. by replace (MAX_FILE_SIZE <? Z.of_nat (length data)) with false by lia. Qed.
Lemma init_steps_builds vminitd vmexec :
  Z.of_nat (length vminitd) <= MAX_FILE_SIZE -> Z.of_nat (length vmexec) <= MAX_FILE_SIZE ->
  Forall2 (fun f m => forall w, f w = writing w m) (init_steps vminitd vmexec) (init_builds vminitd vmexec).
Proof.
  intros H1 H2. repeat constructor; intros w; unfold write_file; by rewrite add_file_small.
Qed.
Lemma init_index s v e :
  s.(nodes) = (fs_new K4).(nodes) -> s.(path_index) = (fs_new K4).(path_index) ->
  exists s', for_each id (init_builds v e) s = (s', Done tt) /\
    omap (fun i => entry <$> s'.(nodes) !! i) s'.(path_index) = init_tree v e /\
    s'.(uuid) = s.(uuid) /\ s'.(min_size) = s.(min_size).
Proof.
  destruct s as [bs u ts ms ns ix]. cbn [nodes path_index]. intros -> ->.
  eexists. split; [vm_compute; reflexivity|]. split; [vm_compute; reflexivity|]. split; reflexivity.
Qed.

(** The boot image has exactly the intended tree.  For two binaries within
    the file size limit, every call of [synthesize_to] up to [finalize]
    succeeds, and the tree given to [finalize] holds at every path what
    [init_tree] lists and nothing elsewhere: the two binaries with their
    contents and mode 0755, [/sbin/init] pointing to the agent, the mount
    points and the three files of [/etc].  The image is sized for both
    binaries and its UUID is the head of their digest. *)
Theorem init_block_contents sha256 vminitd vmexec dest :
  Z.of_nat (length vminitd) <= MAX_FILE_SIZE -> Z.of_nat (length vmexec) <= MAX_FILE_SIZE ->
  exists w, init_writer sha256 vminitd vmexec dest = Done w /\
    (forall q, abs w.(w_fs) q = init_tree vminitd vmexec !! mkpath q) /\
    w.(w_sink) = FileSink dest /\
    w.(w_fs).(uuid) = take 16 (sha256 (digest_input vminitd vmexec)) /\
    lenz vminitd + lenz vmexec < w.(w_fs).(min_size).
Proof.
  intros H1 H2. unfold init_writer. rewrite (chain_builds _ _ _ (init_steps_builds _ _ H1 H2)).
  set (w0 := writer_uuid _ _). destruct (init_index w0.(w_fs) vminitd vmexec) as (s' & Hrun & Hix & Hu & Hm); [done..|].
  exists (set_fs w0 s'). unfold writing. rewrite Hrun. split_and!; [done| |done|..].
  - intros q. rewrite <- Hix, lookup_omap. done.
  - cbn [w_fs set_fs]. rewrite Hu. done.
  - cbn [w_fs set_fs]. rewrite Hm. cbn. unfold init_block_size, lenz, sat_add, max_uint,
      INIT_BLOCK_OVERHEAD_BYTES, INIT_BLOCK_MIN_BYTES, MAX_FILE_SIZE in *. lia.
Qed.
Lemma init_block_contents_witness :
  exists w, init_writer (fun l => l) [127; 69; 76; 70] [1] "init.ext4" = Done w /\
    abs w.(w_fs) ["sbin"; "vminitd"]%string = Some (file_of [127; 69; 76; 70] o755) /\
    abs w.(w_fs) ["bin"; "sh"]%string = None.
Proof.
  destruct (init_block_contents (fun l => l) [127; 69; 76; 70] [1] "init.ext4") as (w & Hw & Ha & _);
    [vm_compute; discriminate..|].
  exists w. split; [exact Hw|]. split; rewrite Ha; vm_compute; reflexivity.
Defined.

(** ** The cache key *)
Lemma hex_char_inj a b : 0 <= a < 16 -> 0 <= b < 16 -> hex_char a = hex_char b -> a = b.
Proof.
  intros Ha Hb. assert (Hall : forallb (fun x => forallb (fun y =>
    implb (Ascii.eqb (hex_char x) (hex_char y)) (x =? y)) (seqZ 0 16)) (seqZ 0 16) = true) by (vm_compute; reflexivity).
  rewrite forallb_forall in Hall. intros E.
  assert (Hin : forall x, 0 <= x < 16 -> In x (seqZ 0 16)) by (intros; apply list_elem_of_In, elem_of_seqZ; lia).
  specialize (Hall a (Hin a Ha)). rewrite forallb_forall in Hall. specialize (Hall b (Hin b Hb)).
  rewrite E, Ascii.eqb_refl in Hall. cbn in Hall. lia.
Qed.
Lemma byte_nibbles b : in_uint 8 b -> 0 <= Z.shiftr b 4 < 16 /\ Z.land b 15 = b mod 16 /\ Z.shiftr b 4 = b / 16.
Proof.
  unfold in_uint. intros H. change 15 with (Z.ones 4). rewrite Z.land_ones, Z.shiftr_div_pow2 by lia.
  change (2 ^ 4) with 16. split_and!; [..|done|done]; Z.to_euclidean_division_equations; lia.
Qed.
Lemma hex_digest_inj d d' :
  Forall (in_uint 8) d -> Forall (in_uint 8) d' -> hex_digest d = hex_digest d' -> d = d'.
Proof.
  intros Hd. revert d'. induction Hd as [|b d Hb Hd IH]; intros d' Hd' E; destruct Hd' as [|b' d' Hb' Hd'];
    [done..|]. cbn [hex_digest] in E. injection E as E1 E2 E3.
  destruct (byte_nibbles b Hb) as (R1 & M1 & D1), (byte_nibbles b' Hb') as (R2 & M2 & D2).
  apply hex_char_inj in E1; [|done..]. apply hex_char_inj in E2;
    [|rewrite ?M1, ?M2; apply Z.mod_pos_bound; lia..].
  f_equal; [|by apply IH]. rewrite (Z.div_mod b 16), (Z.div_mod b' 16) by lia. congruence.
Qed.

(** The cached boot images are keyed by content: two pairs of binaries
    share a cache file exactly when they have the same digest. *)
Theorem cache_path_injective sha256 env v e v' e' :
  (forall x, Forall (in_uint 8) (sha256 x)) ->
  cache_path sha256 env v e = cache_path sha256 env v' e' <->
  sha256 (digest_input v e) = sha256 (digest_input v' e').
Proof.
  intros Hsha. unfold cache_path, runtime_digest. split; [|by intros ->]. unfold path_join at 1 3.
  intros E. apply (hex_digest_inj _ _ (Hsha _) (Hsha _)).
  assert (E' : hex_digest (sha256 (digest_input v e)) +:+ ".ext4" = hex_digest (sha256 (digest_input v' e')) +:+ ".ext4").
  { destruct (_ || _); apply append_inj_l in E; [done|]. by injection E. }
  apply (f_equal (strip_suffix ".ext4")) in E'. rewrite !strip_suffix_app in E'. congruence.
Qed.
Lemma cache_path_injective_witness :
  let sha := fun l : list Z => replicate 32 (sumZ id l mod 256) in
  cache_path sha (mk_env None (Some "/c"%string) None "/tmp") [1] [2]
    = cache_path sha (mk_env None (Some "/c"%string) None "/tmp") [2] [1].
Proof.
  intros sha. apply (cache_path_injective sha); [|vm_compute; reflexivity].
  intros x. apply Forall_replicate. unfold in_uint. apply Z.mod_pos_bound. lia.
Defined.
(** What is hashed does not determine the two binaries: the label between them
    may also be part of one. *)
Lemma digest_input_ambiguous :
  let label := byte_string "vmexec" ++ [0] in digest_input [] label = digest_input label [].
Proof. vm_compute. reflexivity. Qed.
