(* ===== verification/OciReference.v ===== *)
(** * OCI image references ([crates/oci/src/reference.rs])

    Parsing with Docker's short names, and the canonical form.  A reference
    that was parsed is characterised by [reference_ok]; printing it in
    canonical form and parsing again gives it back. *)
From S2P Require Import Prelude.

(** ** Text *)
(** [char::is_whitespace] on UTF-8: the code points of one, two and three
    bytes that Unicode calls white space. *)
Definition ws1 (a : ascii) : bool := ((9 <=? code a) && (code a <=? 13)) || (code a =? 32).
Definition ws2 (a b : ascii) : bool := (code a =? 0xC2) && ((code b =? 0x85) || (code b =? 0xA0)).
Definition ws3 (a b c : ascii) : bool :=
  ((code a =? 0xE1) && (code b =? 0x9A) && (code c =? 0x80))
  || ((code a =? 0xE2) && (code b =? 0x80)
      && (((0x80 <=? code c) && (code c <=? 0x8A)) || (code c =? 0xA8) || (code c =? 0xA9) || (code c =? 0xAF)))
  || ((code a =? 0xE2) && (code b =? 0x81) && (code c =? 0x9F))
  || ((code a =? 0xE3) && (code b =? 0x80) && (code c =? 0x80)).
Fixpoint has_whitespace (s : string) : bool :=
  match s with
  | EmptyString => false
  | String a r =>
      ws1 a
      || match r with
         | String b (String c _) => ws2 a b || ws3 a b c
         | String b EmptyString => ws2 a b
         | EmptyString => false
         end
      || has_whitespace r
  end.
(** [str::rfind]: the byte position of the last occurrence. *)
Fixpoint rfind (c : ascii) (s : string) : option nat :=
  match s with
  | EmptyString => None
  | String d s =>
      match rfind c s with
      | Some i => Some (S i)
      | None => if Ascii.eqb c d then Some O else None
      end
  end.

(** ** References *)
Inductive OciError := InvalidReference (input reason : string).
Record Reference := mk_reference {
  registry : string;
  namespace : string;
  ref_name : string;
  tag : option string;
  digest : option string
}.
Definition invalid {A} (input reason : string) : result OciError A := Err (InvalidReference input reason).
Definition split_once_optional (input : string) (needle : ascii) (reason : string)
    : result OciError (string * option string) :=
  match split needle input with
  | [] => Ok (EmptyString, None)
  | [before] => Ok (before, None)
  | [before; after] => Ok (before, Some after)
  | _ => invalid input reason
  end.
Definition split_tag (input : string) : string * option string :=
  match rfind ":" input with
  | Some colon =>
      if match rfind "/" input with None => true | Some slash => (slash <? colon)%nat end
      then (String.substring 0 colon input,
            Some (String.substring (S colon) (String.length input - S colon) input))
      else (input, None)
  | None => (input, None)
  end.
Definition split_registry (parts : list string) : string * list string :=
  match parts with
  | [single] => ("docker.io"%string, ["library"%string; single])
  | first :: rest =>
      if contains "." first || contains ":" first then (first, rest) else ("docker.io"%string, parts)
  | [] => ("docker.io"%string, parts)
  end.
Definition parse_inner (input : string) : result OciError Reference :=
  if is_empty input then invalid input "reference is empty"
  else if has_whitespace input then invalid input "reference contains whitespace"
  else
    '(name_part, digest) ← split_once_optional input "@" "digest separator";
    if is_empty name_part then invalid input "name is empty"
    else
      digest ← match digest with
               | Some d => if is_empty d then invalid input "digest is empty" else Ok (Some d)
               | None => Ok None
               end;
      let '(path, tag) := split_tag name_part in
      if is_empty path then invalid input "path is empty"
      else if existsb is_empty (split "/" path) then invalid input "path contains an empty segment"
      else
        tag ← match tag with
              | Some t => if is_empty t then invalid input "tag is empty" else Ok (Some t)
              | None => Ok (match digest with None => Some "latest"%string | Some _ => None end)
              end;
        let '(registry, namespace_parts) := split_registry (split "/" path) in
        match last namespace_parts with
        | None => invalid input "repository path is empty"
        | Some name => Ok (mk_reference registry (join "/" namespace_parts) name tag digest)
        end.
Definition parse (input : string) : result OciError Reference := parse_inner input.
Definition with_tag (r : Reference) (t : string) : Reference :=
  mk_reference r.(registry) r.(namespace) r.(ref_name) (Some t) None.
Definition with_digest (r : Reference) (d : string) : Reference :=
  mk_reference r.(registry) r.(namespace) r.(ref_name) None (Some d).
Definition pinned (r : Reference) : bool := match r.(digest) with Some _ => true | None => false end.
Definition canonical (r : Reference) : string :=
  let out := r.(registry) +:+ "/" +:+ r.(namespace) in
  let out := match r.(tag) with Some t => out +:+ ":" +:+ t | None => out end in
  match r.(digest) with Some d => out +:+ "@" +:+ d | None => out end.

Example parse_short : canonical <$> (match parse "busybox" with Ok r => Some r | Err _ => None end)
  = Some "docker.io/library/busybox:latest"%string.
Proof. vm_compute. reflexivity. Qed.

(** ** The tag *)
Lemma rfind_none c s : rfind c s = None <-> contains c s = false.
Proof.
  induction s as [|d s IH]; [done|]. cbn [rfind]. rewrite contains_cons. destruct (rfind c s).
  - split; [done|]. intros [_ H]%orb_false_iff. by apply IH in H.
  - destruct (Ascii.eqb c d); cbn [orb]; [done|]. split; [intros _; by apply IH|done].
Qed.
Lemma rfind_app c a b : contains c b = false -> rfind c (a +:+ b) = rfind c a.
Proof.
  intros Hb. induction a as [|d a IH]; [rewrite append_nil_l; by apply rfind_none|].
  rewrite append_cons. cbn [rfind]. by rewrite IH.
Qed.
Lemma rfind_last c a b : contains c b = false -> rfind c (a +:+ String c b) = Some (String.length a).
Proof.
  intros Hb. induction a as [|d a IH].
  - rewrite append_nil_l. cbn [rfind]. apply rfind_none in Hb as ->. by rewrite Ascii.eqb_refl.
  - rewrite append_cons. cbn [rfind]. by rewrite IH.
Qed.
Lemma rfind_lt c s i : rfind c s = Some i -> (i < String.length s)%nat.
Proof.
  revert i. induction s as [|d s IH]; intros i; [done|]. cbn [rfind String.length].
  destruct (rfind c s) as [j|]; [|destruct (Ascii.eqb c d); intros [= <-]; lia].
  intros [= <-]. specialize (IH j eq_refl). lia.
Qed.
Lemma last_occurrence c s : contains c s = true -> exists a b, s = a +:+ String c b /\ contains c b = false.
Proof.
  induction s as [|d s IH]; [done|]. rewrite contains_cons. intros H. destruct (contains c s) eqn:E.
  - destruct IH as (a & b & -> & Hb); [done|]. by exists (String d a), b.
  - rewrite orb_false_r in H. apply Ascii.eqb_eq in H as <-. by exists EmptyString, s.
Qed.
Lemma substring_prefix a b : String.substring 0 (String.length a) (a +:+ b) = a.
Proof. induction a as [|c a IH]; [by destruct b|]. rewrite append_cons. cbn. by rewrite IH. Qed.
Lemma substring_all s : String.substring 0 (String.length s) s = s.
Proof. rewrite <- (append_nil_r s) at 2. apply substring_prefix. Qed.
Lemma substring_suffix a c b :
  String.substring (S (String.length a)) (String.length (a +:+ String c b) - S (String.length a)) (a +:+ String c b) = b.
Proof.
  rewrite length_append. cbn [String.length]. replace (String.length a + S (String.length b) - S (String.length a))%nat
    with (String.length b) by lia.
  induction a as [|d a IH]; [rewrite append_nil_l; cbn; apply substring_all|]. rewrite append_cons. exact IH.
Qed.
Lemma split_tag_app p t :
  contains ":" t = false -> contains "/" t = false -> split_tag (p +:+ String ":" t) = (p, Some t).
Proof.
  intros Hc Hs. unfold split_tag. rewrite rfind_last by done.
  replace (match rfind "/" _ with None => true | Some slash => _ end) with true.
  - by rewrite substring_prefix, substring_suffix.
  - rewrite rfind_app by by rewrite contains_cons. destruct (rfind "/" p) as [i|] eqn:E; [|done].
    apply rfind_lt in E. symmetry. by apply Nat.ltb_lt.
Qed.
(** The last segment of a path has no colon. *)
Lemma split_tag_segment p q : contains ":" q = false -> split_tag (p +:+ String "/" q) = (p +:+ String "/" q, None).
Proof.
  intros Hq. unfold split_tag. destruct (rfind ":" _) as [i|] eqn:E; [|done].
  rewrite rfind_app in E by by rewrite contains_cons. apply rfind_lt in E.
  destruct (contains "/" q) eqn:Es.
  - apply last_occurrence in Es as (a & b & -> & Hb).
    replace (p +:+ String "/" (a +:+ String "/" b)) with ((p +:+ String "/" a) +:+ String "/" b)
      by by rewrite append_assoc, append_cons.
    rewrite rfind_last by done. rewrite length_append. cbn [String.length].
    by rewrite (proj2 (Nat.ltb_ge _ _)) by lia.
  - rewrite rfind_last by done. by rewrite (proj2 (Nat.ltb_ge _ _)) by lia.
Qed.
Lemma split_tag_cases s :
  (exists p t, s = p +:+ String ":" t /\ contains ":" t = false /\ contains "/" t = false /\ split_tag s = (p, Some t)) \/
  (split_tag s = (s, None) /\
   (contains ":" s = false \/ exists p q, s = p +:+ String "/" q /\ contains "/" q = false /\ contains ":" q = false)).
Proof.
  destruct (contains ":" s) eqn:Ec.
  - apply last_occurrence in Ec as (p & t & -> & Ht). destruct (contains "/" t) eqn:Es.
    + right. apply last_occurrence in Es as (a & b & -> & Hb).
      rewrite contains_app, contains_cons in Ht. apply orb_false_iff in Ht as [Ha Hb'].
      replace (p +:+ String ":" (a +:+ String "/" b)) with ((p +:+ String ":" a) +:+ String "/" b)
        by by rewrite append_assoc, append_cons.
      split; [by apply split_tag_segment|]. right. by exists (p +:+ String ":" a), b.
    + left. exists p, t. split_and!; [done..|]. by apply split_tag_app.
  - right. split; [|by left]. unfold split_tag. by rewrite (proj2 (rfind_none _ _) Ec).
Qed.

(** ** White space across ASCII separators *)
Lemma has_whitespace_app x c y :
  code c < 128 -> has_whitespace (x +:+ String c y) = has_whitespace x || ws1 c || has_whitespace y.
Proof.
  intros Hc. assert (H2 : forall a, ws2 a c = false) by (intros; unfold ws2; lia).
  assert (H2' : forall b, ws2 c b = false) by (intros; unfold ws2; lia).
  assert (H3 : forall a b, ws3 a b c = false) by (intros; unfold ws3; lia).
  assert (H3' : forall a b, ws3 a c b = false) by (intros; unfold ws3; lia).
  assert (H3'' : forall a b, ws3 c a b = false) by (intros; unfold ws3; lia).
  assert (Hnil : has_whitespace (String c y) = ws1 c || has_whitespace y).
  { cbn [has_whitespace]. destruct y as [|a [|b y]]; by rewrite ?H2', ?H3'', ?orb_false_r. }
  induction x as [|a x IH]; [by rewrite append_nil_l, Hnil|]. rewrite append_cons.
  change (has_whitespace (String a (x +:+ String c y))) with
    (ws1 a || match x +:+ String c y with
              | String b (String d _) => ws2 a b || ws3 a b d
              | String b EmptyString => ws2 a b
              | EmptyString => false end || has_whitespace (x +:+ String c y)).
  rewrite IH. destruct x as [|b [|d x]]; rewrite ?append_cons, ?append_nil_l.
  - change (has_whitespace (String a EmptyString)) with (ws1 a || false || false).
    generalize (has_whitespace y). intros w. destruct y as [|e y]; rewrite ?H2, ?H3';
      by destruct (ws1 a), (ws1 c), w.
  - cbn [has_whitespace]. rewrite H3. by destruct (ws1 a), (ws2 a b), (ws1 b), (ws1 c).
  - change (has_whitespace (String a (String b (String d x)))) with
      (ws1 a || (ws2 a b || ws3 a b d) || has_whitespace (String b (String d x))).
    by rewrite !orb_assoc.
Qed.
Lemma has_whitespace_join c l :
  code c < 128 -> ws1 c = false -> has_whitespace (join (sep c) l) = existsb has_whitespace l.
Proof.
  intros Hc Hw. induction l as [|s l IH]; [done|]. destruct l as [|s' l]; [cbn; by rewrite orb_false_r|].
  change (join (sep c) (s :: s' :: l)) with (s +:+ String c (join (sep c) (s' :: l))).
  by rewrite has_whitespace_app, IH, Hw, orb_false_r.
Qed.

(** ** Well-formed references *)
Definition part_ok (p : string) : Prop :=
  p <> EmptyString /\ contains "/" p = false /\ contains "@" p = false /\ has_whitespace p = false.
Definition reference_ok (r : Reference) : Prop := exists ns b,
  r.(namespace) = join "/" (ns ++ [b]) /\ r.(ref_name) = b /\ Forall part_ok (r.(registry) :: ns ++ [b]) /\
  contains "." r.(registry) || contains ":" r.(registry) = true /\
  match r.(tag) with
  | Some t => part_ok t /\ contains ":" t = false
  | None => contains ":" b = false /\ r.(digest) <> None
  end /\
  match r.(digest) with
  | Some d => d <> EmptyString /\ contains "@" d = false /\ has_whitespace d = false
  | None => True
  end.
(** The canonical form without the digest. *)
Definition name_part (r : Reference) : string :=
  let full := r.(registry) +:+ "/" +:+ r.(namespace) in
  match r.(tag) with Some t => full +:+ ":" +:+ t | None => full end.
Lemma existsb_false {A} (f : A -> bool) l : existsb f l = false <-> Forall (fun x => f x = false) l.
Proof.
  induction l as [|x l IH]; [done|]. cbn [existsb]. rewrite orb_false_iff, Forall_cons. by rewrite IH.
Qed.
Lemma name_part_ok r : reference_ok r ->
  name_part r <> EmptyString /\ contains "@" (name_part r) = false /\ has_whitespace (name_part r) = false.
Proof.
  intros (ns & b & En & _ & Hp & _ & Ht & _). unfold name_part. rewrite En.
  change (r.(registry) +:+ "/" +:+ join "/" (ns ++ [b])) with (r.(registry) +:+ String "/" (join (sep "/") (ns ++ [b]))).
  assert (Hf : let full := r.(registry) +:+ String "/" (join (sep "/") (ns ++ [b])) in
    full <> EmptyString /\ contains "@" full = false /\ has_whitespace full = false).
  { apply Forall_cons in Hp as [(Hr & _ & Hra & Hrw) Hp]. split_and!.
    - by destruct r.(registry).
    - rewrite contains_app, contains_cons, contains_join, Hra by done. apply existsb_false.
      eapply Forall_impl; [exact Hp|]. by intros ? (_ & _ & ? & _).
    - rewrite has_whitespace_app, has_whitespace_join, Hrw by done. apply existsb_false.
      eapply Forall_impl; [exact Hp|]. by intros ? (_ & _ & _ & ?). }
  destruct Hf as (H1 & H2 & H3). destruct r.(tag) as [t|]; [|done]. destruct Ht as [(_ & _ & Ha & Hw) _]. split_and!.
  - by destruct r.(registry).
  - by rewrite contains_app, H2, append_cons, contains_cons.
  - rewrite append_cons, append_nil_l, has_whitespace_app, H3, Hw by done. done.
Qed.
Lemma canonical_split r : reference_ok r ->
  is_empty (canonical r) = false /\ has_whitespace (canonical r) = false /\
  split_once_optional (canonical r) "@" "digest separator" = Ok (name_part r, r.(digest)).
Proof.
  intros H. destruct (name_part_ok r H) as (Hne & Ha & Hw). destruct H as (_ & _ & _ & _ & _ & _ & _ & Hd).
  unfold canonical. fold (name_part r). unfold split_once_optional. destruct r.(digest) as [d|].
  - destruct Hd as (_ & Hda & Hdw). split_and!.
    + apply is_empty_false. by destruct (name_part r).
    + rewrite append_cons, append_nil_l, has_whitespace_app, Hw, Hdw by done. done.
    + change (name_part r +:+ "@" +:+ d) with (join (sep "@") [name_part r; d]).
      rewrite split_join; [done..|]. by repeat constructor.
  - split_and!; [by apply is_empty_false|done|].
    change (split "@" (name_part r)) with (split "@" (join (sep "@") [name_part r])).
    rewrite split_join; [done..|]. by repeat constructor.
Qed.
Lemma path_split r : reference_ok r ->
  exists path, split_tag (name_part r) = (path, r.(tag)) /\ is_empty path = false /\
    existsb is_empty (split "/" path) = false /\
    exists l, split_registry (split "/" path) = (r.(registry), l) /\ last l = Some r.(ref_name) /\ join "/" l = r.(namespace).
Proof.
  intros (ns & b & En & Eb & Hp & Hreg & Ht & _). exists (r.(registry) +:+ "/" +:+ r.(namespace)).
  assert (Hjoin : r.(registry) +:+ "/" +:+ r.(namespace) = join (sep "/") (r.(registry) :: ns ++ [b])).
  { rewrite En. by destruct ns. }
  assert (Hsplit : split "/" (r.(registry) +:+ "/" +:+ r.(namespace)) = r.(registry) :: ns ++ [b]).
  { rewrite Hjoin. apply split_join; [done|]. eapply Forall_impl; [exact Hp|]. by intros ? (_ & ? & _). }
  rewrite Hsplit. split_and!.
  - unfold name_part. destruct r.(tag) as [t|].
    + destruct Ht as [(_ & Hs & _) Hc]. exact (split_tag_app (r.(registry) +:+ "/" +:+ r.(namespace)) t Hc Hs).
    + rewrite Hjoin. change (registry r :: ns ++ [b]) with ((registry r :: ns) ++ [b]).
      rewrite join_snoc by done. apply split_tag_segment, Ht.
  - apply is_empty_false. apply Forall_cons in Hp as [[Hr _] _]. by destruct r.(registry).
  - apply existsb_false. eapply Forall_impl; [exact Hp|]. intros ? [? _]. by apply is_empty_false.
  - exists (ns ++ [b]). rewrite last_snoc, Eb, En. split_and!; [|done..].
    unfold split_registry. rewrite Hreg. by destruct ns.
Qed.
Lemma parse_canonical r : reference_ok r -> parse (canonical r) = Ok r.
Proof.
  intros H. destruct (canonical_split r H) as (He & Hw & Hs), (name_part_ok r H) as (Hne & _).
  destruct (path_split r H) as (path & Htag & Hpe & Hse & l & Hr & Hl & Hj).
  destruct H as (ns & b & _ & _ & _ & _ & Ht & Hd). unfold parse, parse_inner. rewrite He, Hw, Hs.
  unfold mbind, result_bind. apply is_empty_false in Hne as ->. rewrite Htag, Hpe, Hse, Hr, Hl, Hj.
  destruct r as [reg nsp nm [t|] [d|]]; cbn in *.
  - destruct Hd as [Hd _], Ht as [[Ht _] _]. apply is_empty_false in Hd as ->, Ht as ->. done.
  - destruct Ht as [[Ht _] _]. apply is_empty_false in Ht as ->. done.
  - destruct Hd as [Hd _]. apply is_empty_false in Hd as ->. done.
  - by destruct Ht.
Qed.

(** What is parsed is well formed. *)
Lemma split_snoc c p q : contains c q = false -> split c (p +:+ String c q) = split c p ++ [q].
Proof.
  intros Hq. rewrite <- (join_split c p) at 1. rewrite <- join_snoc by apply split_nonempty.
  apply split_join; [by destruct (split c p)|]. apply Forall_app_2; [apply split_no_sep|by constructor].
Qed.
Lemma split_parts c s :
  code c < 128 -> ws1 c = false -> c <> "@"%char ->
  contains "@" s = false -> has_whitespace s = false ->
  Forall (fun p => contains c p = false /\ contains "@" p = false /\ has_whitespace p = false) (split c s).
Proof.
  intros Hc Hw Hne Ha Hs. rewrite <- (join_split c s) in Ha, Hs.
  rewrite contains_join in Ha by done. rewrite has_whitespace_join in Hs by done.
  apply existsb_false in Ha, Hs. pose proof (split_no_sep c s) as Hn.
  rewrite Forall_forall in *. intros p Hp. auto.
Qed.
Lemma split_once_ok s n d :
  has_whitespace s = false -> split_once_optional s "@" "digest separator" = Ok (n, d) ->
  contains "@" n = false /\ has_whitespace n = false /\
  match d with Some d => contains "@" d = false /\ has_whitespace d = false | None => True end.
Proof.
  intros Hw. unfold split_once_optional. pose proof (split_no_sep "@" s) as Hn.
  rewrite <- (join_split "@" s), has_whitespace_join in Hw by done. apply existsb_false in Hw.
  destruct (split "@" s) as [|x [|y [|]]]; [..|done]; intros [= <- <-].
  - done.
  - by inversion Hn; inversion Hw; subst.
  - inversion Hn as [|? ? Hx Hn']; inversion Hn'; inversion Hw as [|? ? Hwx Hw']; inversion Hw'; by subst.
Qed.
Lemma split_registry_ok parts reg l :
  parts <> [] -> Forall part_ok parts -> split_registry parts = (reg, l) ->
  part_ok reg /\ contains "." reg || contains ":" reg = true /\ Forall part_ok l /\
  forall b, last l = Some b -> last parts = Some b.
Proof.
  assert (Hd : part_ok "docker.io") by done. assert (Hlib : part_ok "library") by done.
  intros Hne Hp. unfold split_registry. destruct parts as [|f [|g rest]]; [done|..].
  - intros [= <- <-]. refine (conj Hd (conj eq_refl (conj _ _))); [|done].
    by constructor.
  - destruct (contains "." f || contains ":" f) eqn:E; intros [= <- <-].
    + apply Forall_cons in Hp as [Hf Hp]. done.
    + done.
Qed.
Lemma tag_ok n path t :
  contains "@" n = false -> has_whitespace n = false -> split_tag n = (path, t) ->
  contains "@" path = false /\ has_whitespace path = false /\
  match t with
  | Some t => contains "/" t = false /\ contains "@" t = false /\ has_whitespace t = false /\ contains ":" t = false
  | None => forall b, last (split "/" path) = Some b -> contains ":" b = false
  end.
Proof.
  intros Ha Hw E. destruct (split_tag_cases n) as [(p & t' & -> & Hc & Hs & E')|[E' Hn]]; rewrite E' in E; injection E as <- <-.
  - rewrite contains_app, contains_cons in Ha. apply orb_false_iff in Ha as [Hpa Hta].
    rewrite has_whitespace_app in Hw by done. apply orb_false_iff in Hw as [[Hpw _]%orb_false_iff Htw].
    by split_and!.
  - split_and!; [done..|]. intros b Hb. destruct Hn as [Hn|(p & q & -> & Hq & Hcq)].
    + rewrite <- (join_split "/" n), contains_join in Hn by done. apply existsb_false in Hn.
      rewrite Forall_forall in Hn. apply Hn. by apply last_Some_elem_of.
    + rewrite split_snoc, last_snoc in Hb by done. by injection Hb as <-.
Qed.
Lemma parse_ok s r : parse s = Ok r -> reference_ok r.
Proof.
  unfold parse, parse_inner. destruct (is_empty s); [done|]. destruct (has_whitespace s) eqn:Hw; [done|].
  destruct (split_once_optional s "@" _) as [[n d]|] eqn:Es; [|done]. unfold mbind, result_bind.
  destruct (split_once_ok s n d Hw Es) as (Hna & Hnw & Hd). destruct (is_empty n); [done|].
  destruct (match d with Some d => if is_empty d then _ else _ | None => _ end) as [d'|] eqn:Ed; [|done].
  assert (d' = d /\ forall x, d = Some x -> x <> EmptyString) as [-> Hdne].
  { destruct d as [x|]; [|by injection Ed as <-]. destruct (is_empty x) eqn:Ex; [done|]. injection Ed as <-.
    split; [done|]. intros ? [= <-]. by apply is_empty_false. }
  destruct (split_tag n) as [path t] eqn:Et. destruct (tag_ok n path t Hna Hnw Et) as (Hpa & Hpw & Htok).
  destruct (is_empty path); [done|]. destruct (existsb is_empty (split "/" path)) eqn:Hseg; [done|].
  destruct (match t with Some t => if is_empty t then _ else _ | None => _ end) as [t'|] eqn:Ett; [|done].
  destruct (split_registry (split "/" path)) as [reg l] eqn:Er. destruct (last l) as [nm|] eqn:El; [|done].
  intros [= <-].
  assert (Hparts : Forall part_ok (split "/" path)).
  { apply existsb_false in Hseg. pose proof (split_parts "/" path) as Hsp. rewrite Forall_forall in *.
    intros p Hin. specialize (Hsp ltac:(by vm_compute) ltac:(done) ltac:(done) Hpa Hpw).
    destruct (Hsp p Hin) as (? & ? & ?). split_and!; [|done..]. apply is_empty_false. by apply Hseg. }
  destruct (split_registry_ok _ _ _ (split_nonempty _ _) Hparts Er) as (Hreg & Hdot & Hl & Hlast).
  destruct l as [|b ns _] using rev_ind; [done|]. rewrite last_snoc in El. injection El as ->.
  exists ns, nm. cbn [namespace ref_name registry tag digest]. split_and!; [done..|by constructor|done| |].
  - destruct t as [t|].
    + destruct (is_empty t) eqn:Ee; [done|]. injection Ett as <-. destruct Htok as (? & ? & ? & ?).
      split; [|done]. split; [by apply is_empty_false|done].
    + injection Ett as <-. destruct d as [d|]; [|done]. split; [|done]. apply Htok, Hlast, last_snoc.
  - destruct d as [d|]; [|done]. destruct Hd. by auto.
Qed.

(** References round-trip through their canonical form.  Parsing the
    canonical form of a parsed reference gives the same reference (so
    canonical forms identify references), also after its tag was replaced by a
    valid one, and after it was pinned to a digest provided its name has no
    colon. *)
Theorem reference_roundtrip s r :
  parse s = Ok r ->
  parse (canonical r) = Ok r /\
  (forall t, part_ok t -> contains ":" t = false -> parse (canonical (with_tag r t)) = Ok (with_tag r t)) /\
  (forall d, d <> EmptyString -> contains "@" d = false -> has_whitespace d = false ->
     contains ":" r.(ref_name) = false -> parse (canonical (with_digest r d)) = Ok (with_digest r d)).
Proof.
  intros H%parse_ok. split; [by apply parse_canonical|]. destruct H as (ns & b & En & Eb & Hp & Hr & _ & _).
  split.
  - intros t Ht Hc. apply parse_canonical. exists ns, b.
    exact (conj En (conj Eb (conj Hp (conj Hr (conj (conj Ht Hc) Logic.I))))).
  - intros d Hd1 Hd2 Hd3 Hc. apply parse_canonical. exists ns, b. rewrite Eb in Hc.
    exact (conj En (conj Eb (conj Hp (conj Hr (conj (conj Hc (ltac:(discriminate) : (with_digest r d).(digest) <> None)) (conj Hd1 (conj Hd2 Hd3))))))).
Qed.
Lemma reference_roundtrip_witness :
  exists r, parse "localhost:5000/team/app@sha256:ab" = Ok r /\
    canonical r = "localhost:5000/team/app@sha256:ab"%string /\
    parse (canonical (with_tag r "v1")) = Ok (with_tag r "v1").
Proof.
  exists (mk_reference "localhost:5000" "team/app" "app" None (Some "sha256:ab"%string)).
  assert (E : parse "localhost:5000/team/app@sha256:ab"
    = Ok (mk_reference "localhost:5000" "team/app" "app" None (Some "sha256:ab"%string))) by (vm_compute; reflexivity).
  split; [exact E|]. split; [vm_compute; reflexivity|].
  apply (reference_roundtrip _ _ E); [|vm_compute; reflexivity].
  split; [discriminate|]. vm_compute. done.
Defined.
(** A name may keep a colon when two are given; pinning such a reference to a
    digest makes the rest of the name its tag. *)
Lemma pinning_a_name_with_a_colon :
  exists r, parse "a:b:c" = Ok r /\ tag <$> (match parse (canonical (with_digest r "d")) with Ok r => Some r | Err _ => None end)
    = Some (Some "b"%string).
Proof. eexists. split; vm_compute; reflexivity. Qed.
