(* ===== verification/HostPaths.v ===== *)
(** * Host paths ([std::path] as the host-side crates use it)

    A path is a byte string; its file name is what follows the last slash, the
    extension what follows the last dot of a name that does not start with it.
    Paths end in a name: no trailing slash or dot component. *)
From S2P Require Import Prelude.

Definition split_dir (p : string) : string * string :=
  match rsplit_once "/" p with Some (d, n) => (d +:+ "/", n) | None => (EmptyString, p) end.
Definition path_file_name (p : string) : option string :=
  let n := (split_dir p).2 in
  if is_empty n || String.eqb n "." || String.eqb n ".." then None else Some n.
(** Stem and extension of a file name. *)
Definition split_name (n : string) : string * option string :=
  if String.eqb n ".." then (n, None)
  else match rsplit_once "." n with
       | Some (before, after) => if is_empty before then (n, None) else (before, Some after)
       | None => (n, None)
       end.
Definition extension (p : string) : option string := n ← path_file_name p; (split_name n).2.
Definition with_extension (p ext : string) : string :=
  match path_file_name p with
  | None => p
  | Some n => (split_dir p).1 +:+ (split_name n).1 +:+ (if is_empty ext then EmptyString else "." +:+ ext)
  end.
Definition with_file_name (p n : string) : string :=
  match path_file_name p with
  | None => p
  | Some _ => (split_dir p).1 +:+ n
  end.

(** ** Lemmas *)
Lemma rsplit_once_no c s : contains c s = false -> rsplit_once c s = None.
Proof.
  induction s as [|d s IH]; [done|]. rewrite contains_cons. intros [Hd Hs]%orb_false_iff.
  cbn [rsplit_once]. by rewrite IH, Hd.
Qed.
Lemma rsplit_once_at c a b : contains c b = false -> rsplit_once c (a +:+ String c b) = Some (a, b).
Proof.
  intros Hb. induction a as [|d a IH].
  - rewrite append_nil_l. cbn [rsplit_once]. by rewrite rsplit_once_no, Ascii.eqb_refl.
  - rewrite append_cons. cbn [rsplit_once]. by rewrite IH.
Qed.
Lemma rsplit_once_sound c s a b :
  rsplit_once c s = Some (a, b) -> s = a +:+ String c b /\ contains c b = false.
Proof.
  revert a. induction s as [|d s IH]; intros a; cbn [rsplit_once]; [done|].
  destruct (rsplit_once c s) as [[a' b']|] eqn:E.
  - intros [= <- <-]. destruct (IH a' eq_refl) as [-> H]. done.
  - destruct (Ascii.eqb_spec c d) as [<-|]; [|done]. intros [= <- <-]. split; [done|].
    destruct (contains c s) eqn:Hc; [|done]. exfalso. clear IH. revert E Hc.
    induction s as [|d s IH]; [done|]. cbn [rsplit_once]. rewrite contains_cons.
    destruct (rsplit_once c s) as [[]|]; [done|]. destruct (Ascii.eqb c d); [done|]. auto.
Qed.
(** A directory prefix: empty or ending in a slash. *)
Definition dir_prefix (d : string) : Prop := d = EmptyString \/ exists e, d = e +:+ "/".
Lemma split_dir_app d n : dir_prefix d -> contains "/" n = false -> split_dir (d +:+ n) = (d, n).
Proof.
  intros [->|[e ->]] Hn; unfold split_dir.
  - by rewrite append_nil_l, rsplit_once_no.
  - rewrite append_assoc. change ("/" +:+ n) with (String "/" n). by rewrite rsplit_once_at.
Qed.
Lemma split_dir_sound p : dir_prefix (split_dir p).1 /\ contains "/" (split_dir p).2 = false /\
  p = (split_dir p).1 +:+ (split_dir p).2.
Proof.
  unfold split_dir. destruct (rsplit_once "/" p) as [[d n]|] eqn:E.
  - apply rsplit_once_sound in E as [-> Hn]. cbn [fst snd]. split_and!; [right; by exists d|done|].
    by rewrite append_assoc.
  - cbn [fst snd]. split_and!; [by left| |done]. destruct (contains "/" p) eqn:Hc; [|done]. exfalso.
    revert E Hc. induction p as [|c p IH]; [done|]. cbn [rsplit_once]. rewrite contains_cons.
    destruct (rsplit_once "/" p) as [[]|]; [done|]. destruct (Ascii.eqb "/" c); [done|]. auto.
Qed.
Lemma append_inj_len a b c d : String.length b = String.length d -> a +:+ b = c +:+ d -> a = c /\ b = d.
Proof.
  revert c. induction a as [|x a IH]; intros [|y c] Hl; rewrite ?append_nil_l, ?append_cons; intros E.
  - done.
  - apply (f_equal String.length) in E. cbn in E. rewrite length_append in E. lia.
  - apply (f_equal String.length) in E. cbn in E. rewrite length_append in E. lia.
  - injection E as -> E. by destruct (IH c Hl E) as [-> ->].
Qed.

Lemma split_name_sound n :
  n <> EmptyString -> (split_name n).1 <> EmptyString /\
  n = (split_name n).1 +:+ match (split_name n).2 with Some e => "." +:+ e | None => EmptyString end.
Proof.
  intros Hn. unfold split_name. destruct (String.eqb n ".."); [by rewrite append_nil_r|].
  destruct (rsplit_once "." n) as [[a b]|] eqn:E; [|by rewrite append_nil_r].
  destruct (is_empty a) eqn:Ea; [by rewrite append_nil_r|]. apply rsplit_once_sound in E as [-> _].
  split; [by apply is_empty_false|done].
Qed.
Lemma file_name_sound p n : path_file_name p = Some n ->
  n <> EmptyString /\ dir_prefix (split_dir p).1 /\ contains "/" n = false /\ p = (split_dir p).1 +:+ n.
Proof.
  unfold path_file_name. destruct (split_dir_sound p) as (H1 & H2 & H3).
  destruct (is_empty (split_dir p).2) eqn:E; [done|]. cbn [orb]. case_match; [done|]. intros [= <-].
  split_and!; [by apply is_empty_false|done..].
Qed.
Lemma file_name_app d n : dir_prefix d -> contains "/" n = false -> (2 < String.length n)%nat ->
  path_file_name (d +:+ n) = Some n /\ (split_dir (d +:+ n)).1 = d.
Proof.
  intros Hd Hn Hl. unfold path_file_name. rewrite split_dir_app by done. cbn [fst snd]. split; [|done].
  destruct n as [|c1 [|c2 [|c3 n]]]; cbn in Hl; try lia. cbn [is_empty orb].
  rewrite (proj2 (String.eqb_neq _ _)), (proj2 (String.eqb_neq _ _)); [done|..]; by intros [=].
Qed.
Lemma split_name_ext b e : b <> EmptyString -> contains "." e = false -> split_name (b +:+ "." +:+ e) = (b, Some e) \/
  b +:+ "." +:+ e = ".."%string.
Proof.
  intros Hb He. unfold split_name. destruct (String.eqb_spec (b +:+ "." +:+ e) "..") as [|_]; [by right|left].
  change (b +:+ "." +:+ e) with (b +:+ String "." e). rewrite rsplit_once_at by done.
  by apply is_empty_false in Hb as ->.
Qed.

(** ** Joining and parents *)
(** [Path::join] with a relative path, [Path::parent]. *)
Definition path_join (d n : string) : string :=
  if is_empty d then n else if ends_with "/" d then d +:+ n else d +:+ "/" +:+ n.
Definition path_parent (p : string) : option string :=
  match path_file_name p with
  | None => None
  | Some _ => Some (match rsplit_once "/" p with
                    | Some (d, _) => if is_empty d then "/"%string else d
                    | None => EmptyString
                    end)
  end.
Lemma path_join_prefix dir n : exists d, dir_prefix d /\ path_join dir n = d +:+ n /\
  forall n', path_join dir n' = d +:+ n'.
Proof.
  unfold path_join. destruct (is_empty dir) eqn:E0; [exists EmptyString; split_and!; [by left|done..]|].
  destruct (ends_with "/" dir) eqn:E1.
  - exists dir. split_and!; [|done..]. right. clear E0. revert E1. induction dir as [|c dir IH]; [done|].
    destruct dir as [|c' dir].
    + change (Ascii.eqb "/" c = true -> exists e, String c EmptyString = e +:+ "/"). intros ->%Ascii.eqb_eq. by exists EmptyString.
    + intros H. destruct (IH H) as [e ->]. by exists (String c e).
  - exists (dir +:+ "/"). split_and!; [right; by exists dir|by rewrite append_assoc|intros; by rewrite append_assoc].
Qed.
Lemma path_join_inj dir n n' : path_join dir n = path_join dir n' -> n = n'.
Proof. destruct (path_join_prefix dir n) as (d & _ & -> & Hj). rewrite Hj. apply append_inj_l. Qed.
