(* ===== verification/HostFs.v ===== *)
(** * The host file system

    The files of a host as a map from paths to contents.  Every call may fail:
    the world carries the faults still to come, one per call, and a call
    without a fault behaves as the operating system does.  A write that fails
    may leave other contents behind.  Directories are not files: one exists
    when a file lies below it. *)
From S2P Require Import Prelude HostPaths.

Inductive IoErrorKind := IoNotFound | IoAlreadyExists | IoWouldBlock | IoOther.
#[global] Instance IoErrorKind_eq_dec : EqDecision IoErrorKind.
Proof. solve_decision. Defined.
Record host_error := mk_host_error { host_kind : IoErrorKind; host_message : string }.
Definition not_found : host_error := mk_host_error IoNotFound "No such file or directory".
Definition already_exists : host_error := mk_host_error IoAlreadyExists "File exists".
(** A fault: the error, and what a failing write leaves in its file. *)
Record fault := mk_fault { fault_error : host_error; fault_partial : option (list Z) }.
Abbreviation Files := (gmap string (list Z)).
Record World := mk_world { files : Files; faults : list (option fault) }.

Definition HM (E A : Type) : Type := World -> World * result E A.
#[global] Instance HM_ret {E} : MRet (HM E) := fun A a w => (w, Ok a).
#[global] Instance HM_bind {E} : MBind (HM E) := fun A B k m w =>
  match m w with (w', Ok a) => k a w' | (w', Err e) => (w', Err e) end.
Definition fail {E A} (e : E) : HM E A := fun w => (w, Err e).

Section Calls.
(** How the caller reports an error of the host. *)
Context {E : Type} (wrap : host_error -> E).
(** One call: the next fault, with what it leaves of the files, or the effect
    [f] ([None]: the path is missing). *)
Definition call_leaving (broken : option (list Z) -> Files -> Files) (f : Files -> option Files) : HM E unit :=
  fun w =>
    let later := tail w.(faults) in
    match head w.(faults) with
    | Some (Some flt) => (mk_world (broken flt.(fault_partial) w.(files)) later, Err (wrap flt.(fault_error)))
    | _ => match f w.(files) with
           | Some m => (mk_world m later, Ok tt)
           | None => (mk_world w.(files) later, Err (wrap not_found))
           end
    end.
Definition call : (Files -> option Files) -> HM E unit := call_leaving (fun _ m => m).
Definition remove_file (p : string) : HM E unit := call (fun m => _ ← m !! p; Some (delete p m)).
Definition rename (from to : string) : HM E unit :=
  call (fun m => c ← m !! from; Some (<[to := c]> (delete from m))).
Definition write_contents (p : string) (c : list Z) : HM E unit :=
  call_leaving (fun partial m => match partial with Some c' => <[p := c']> m | None => m end)
    (fun m => Some (<[p := c]> m)).
(** [create_dir_all]: directories are not files, only the call can fail. *)
Definition create_dir_all : HM E unit := call Some.
Definition stat_file (p : string) : HM E unit := call (fun m => _ ← m !! p; Some m).
Definition path_exists (p : string) : HM E bool := fun w => (w, Ok (bool_decide (is_Some (w.(files) !! p)))).
Definition contents (p : string) : HM E (list Z) := fun w => (w, Ok (default [] (w.(files) !! p))).
(** [OpenOptions::create_new]: an empty file, which must not be there yet. *)
Definition create_new (p : string) : HM E unit := fun w =>
  let later := tail w.(faults) in
  match head w.(faults) with
  | Some (Some flt) => (mk_world w.(files) later, Err (wrap flt.(fault_error)))
  | _ => match w.(files) !! p with
         | Some _ => (mk_world w.(files) later, Err (wrap already_exists))
         | None => (mk_world (<[p := []]> w.(files)) later, Ok tt)
         end
  end.
(** [fs::read]: the caller looks at the error itself. *)
Definition read_file (p : string) : HM E (result host_error (list Z)) := fun w =>
  let w' := mk_world w.(files) (tail w.(faults)) in
  match head w.(faults) with
  | Some (Some flt) => (w', Ok (Err flt.(fault_error)))
  | _ => (w', Ok (match w.(files) !! p with Some c => Ok c | None => Err not_found end))
  end.
End Calls.

(** ** Runs *)
Lemma bind_hm {E A B} (m : HM E A) (k : A -> HM E B) w :
  (x ← m; k x) w = match m w with (w', Ok a) => k a w' | (w', Err e) => (w', Err e) end.
Proof. done. Qed.
Section NoFaults.
Context {E : Type} (op : host_error -> E).
Lemma rename_ok a b m x : m !! a = Some x -> rename op a b (mk_world m []) = (mk_world (<[b := x]> (delete a m)) [], Ok tt).
Proof. intros H. unfold rename, call, call_leaving. cbn. by rewrite H. Qed.
Lemma remove_ok a m x : m !! a = Some x -> remove_file op a (mk_world m []) = (mk_world (delete a m) [], Ok tt).
Proof. intros H. unfold remove_file, call, call_leaving. cbn. by rewrite H. Qed.
Lemma stat_ok a m x : m !! a = Some x -> stat_file op a (mk_world m []) = (mk_world m [], Ok tt).
Proof. intros H. unfold stat_file, call, call_leaving. cbn. by rewrite H. Qed.
Lemma write_ok a m x : write_contents op a x (mk_world m []) = (mk_world (<[a := x]> m) [], Ok tt).
Proof. done. Qed.
Lemma contents_ok a m x : m !! a = Some x -> contents (E:=E) a (mk_world m []) = (mk_world m [], Ok x).
Proof. intros H. unfold contents. cbn. by rewrite H. Qed.
End NoFaults.

(** ** What a computation leaves alone, whatever fails *)
Definition leaves {E A} (p : string) (m : HM E A) : Prop := forall w, (m w).1.(files) !! p = w.(files) !! p.
Section Leaves.
Context {E : Type} (op : host_error -> E).
Lemma leaves_bind {A B} p (m : HM E A) (k : A -> HM E B) :
  leaves p m -> (forall a, leaves p (k a)) -> leaves p (x ← m; k x).
Proof.
  intros Hm Hk w. rewrite bind_hm. specialize (Hm w). destruct (m w) as [w' [a|e]]; [|done].
  by rewrite (Hk a w').
Qed.
Lemma leaves_ret {A} p (a : A) : leaves p (mret a : HM E A).
Proof. done. Qed.
Lemma leaves_call_leaving p broken f :
  (forall o m, broken o m !! p = m !! p) -> (forall m m', f m = Some m' -> m' !! p = m !! p) ->
  leaves p (call_leaving op broken f).
Proof.
  intros Hb Hf w. unfold call_leaving. destruct (head w.(faults)) as [[e|]|]; [apply Hb|..];
    (destruct (f w.(files)) as [m'|] eqn:Em; [cbn; by apply Hf|done]).
Qed.
Lemma leaves_call p f : (forall m m', f m = Some m' -> m' !! p = m !! p) -> leaves p (call op f).
Proof. intros Hf. by apply leaves_call_leaving. Qed.
Lemma leaves_create_dir p : leaves p (create_dir_all op).
Proof. apply leaves_call. by intros m m' [= <-]. Qed.
Lemma leaves_rename p a b : p <> a -> p <> b -> leaves p (rename op a b).
Proof.
  intros Ha Hb. apply leaves_call. intros m m'. destruct (m !! a) as [x|]; [|done]. intros [= <-].
  by rewrite lookup_insert_ne, lookup_delete_ne.
Qed.
Lemma leaves_remove p a : p <> a -> leaves p (remove_file op a).
Proof.
  intros Ha. apply leaves_call. intros m m'. destruct (m !! a); [|done]. intros [= <-]. by rewrite lookup_delete_ne.
Qed.
Lemma leaves_stat p a : leaves p (stat_file op a).
Proof. apply leaves_call. intros m m'. destruct (m !! a); [|done]. by intros [= <-]. Qed.
Lemma leaves_write p a x : p <> a -> leaves p (write_contents op a x).
Proof.
  intros Ha. apply leaves_call_leaving.
  - intros [c|] m; [by rewrite lookup_insert_ne|done].
  - intros m m' [= <-]. by rewrite lookup_insert_ne.
Qed.
Lemma leaves_create_new p a : p <> a -> leaves p (create_new op a).
Proof.
  intros Ha w. unfold create_new. destruct (head w.(faults)) as [[e|]|]; [done|..];
    (destruct (w.(files) !! a); [done|cbn; by rewrite lookup_insert_ne]).
Qed.
Lemma leaves_exists p a : leaves p (path_exists (E:=E) a).
Proof. done. Qed.
Lemma leaves_contents p a : leaves p (contents (E:=E) a).
Proof. done. Qed.
Lemma leaves_read p a : leaves p (read_file (E:=E) a).
Proof. intros w. unfold read_file. by destruct (head w.(faults)) as [[]|]. Qed.
End Leaves.
#[export] Hint Resolve leaves_bind leaves_ret leaves_rename leaves_remove leaves_stat leaves_write leaves_create_new
  leaves_exists leaves_contents leaves_read leaves_create_dir : firkin.

(** A call that may fail, seen from outside. *)
Lemma call_cases {E} (op : host_error -> E) f w :
  (exists w' e, call op f w = (w', Err e) /\ w'.(files) = w.(files)) \/
  (exists m' fs, call op f w = (mk_world m' fs, Ok tt) /\ f w.(files) = Some m').
Proof.
  unfold call, call_leaving. destruct (head w.(faults)) as [[e|]|]; [left; eauto|..];
    (destruct (f w.(files)) as [m'|] eqn:Em; [right|left]; eauto).
Qed.
Lemma write_success {E} (op : host_error -> E) a x w w' u :
  write_contents op a x w = (w', Ok u) -> w'.(files) = <[a := x]> w.(files).
Proof.
  unfold write_contents, call_leaving. destruct (head w.(faults)) as [[e|]|]; [done|..]; by intros [= <-].
Qed.
Lemma rename_success {E} (op : host_error -> E) a b w w' u :
  rename op a b w = (w', Ok u) -> exists x, w.(files) !! a = Some x /\ w'.(files) = <[b := x]> (delete a w.(files)).
Proof.
  unfold rename. edestruct (call_cases op) as [(w1 & e & -> & _)|(m' & fs & -> & Em)]; [done|]. intros [= <- <-].
  cbv beta in Em. destruct (w.(files) !! a) as [x|]; [|done]. injection Em as <-. eauto.
Qed.
(** One step of a run that must not touch the file [p]: either it fails there,
    or the run goes on. *)
Lemma run_step {E A B} (P : World -> Prop) p d (m : HM E A) (k : A -> HM E B) w :
  leaves p m -> w.(files) !! p = Some d -> (forall w', w'.(files) !! p = Some d -> P w') ->
  (forall w' a, m w = (w', Ok a) -> w'.(files) !! p = Some d -> P (k a w').1) ->
  P ((x ← m; k x) w).1.
Proof.
  intros Hl E0 He Hk. rewrite bind_hm. specialize (Hl w). destruct (m w) as [w1 [a|e]]; cbn [fst] in Hl.
  - apply Hk; [done|]. by rewrite Hl.
  - apply He. cbn. by rewrite Hl.
Qed.
