(* ===== verification/LogRotation.v ===== *)
(** * Log rotation ([crates/hygiene/src/log_rotation.rs])

    Planning and executing the rotation of oversized logs, on a host file
    system whose calls may fail. *)
From S2P Require Import Prelude BTree HostPaths HostFs.

Inductive LogRotationError := LogIo (operation : string) (source : host_error).
Abbreviation HM := (HostFs.HM LogRotationError).

(** ** Names *)
Inductive LogRotationCompression := NoCompression | GzipCompression.
Definition rotated_log_path (source_path : string) (generation : Z) (c : LogRotationCompression) : string :=
  let rotated := with_extension source_path
    (default "log"%string (extension source_path) +:+ "." +:+ print_dec generation) in
  match c with
  | NoCompression => rotated
  | GzipCompression => with_extension rotated (default "log"%string (extension rotated) +:+ ".gz")
  end.
Definition is_rotated_log_path (p : string) : bool :=
  match path_file_name p with
  | None => false
  | Some n =>
      let n := default n (strip_suffix ".gz" n) in
      match rsplit_once "." n with
      | Some (_, generation) => match parse_uint 32 generation with Some _ => true | None => false end
      | None => false
      end
  end.

(** ** Planning *)
Record LogEntry := mk_log_entry { le_path : string; le_meta : result host_error (bool * Z) }.
Record LogRotationPlan := mk_log_plan {
  lr_root : string;
  lr_max_bytes : Z;
  lr_max_rotated_files : Z;
  lr_compression : LogRotationCompression;
  lr_rotate : list string
}.
Fixpoint insert_sorted (x : string) (l : list string) : list string :=
  match l with
  | [] => [x]
  | y :: l' => match kcmp x y with Gt => y :: insert_sorted x l' | _ => x :: l end
  end.
Definition sort_paths (l : list string) : list string := foldr insert_sorted [] l.
Fixpoint collect_oversized (max_bytes : Z) (entries : list (result host_error LogEntry)) (rotate : list string)
    : result LogRotationError (list string) :=
  match entries with
  | [] => Ok rotate
  | entry :: entries =>
      e ← map_err (LogIo "read log entry") entry;
      '(is_file, size) ← map_err (LogIo "stat log entry") e.(le_meta);
      collect_oversized max_bytes entries
        (if is_file && (max_bytes <? size) && negb (is_rotated_log_path e.(le_path))
         then rotate ++ [e.(le_path)] else rotate)
  end.
(** [listing] is what [read_dir] gives. *)
Definition for_log_dir_with_retention (root : string) (max_bytes max_rotated_files : Z)
    (listing : result host_error (list (result host_error LogEntry))) : result LogRotationError LogRotationPlan :=
  entries ← map_err (LogIo "read log directory") listing;
  rotate ← collect_oversized max_bytes entries [];
  Ok (mk_log_plan root max_bytes max_rotated_files NoCompression (sort_paths rotate)).
Definition for_log_dir root max_bytes listing := for_log_dir_with_retention root max_bytes 1 listing.
Definition with_gzip_compression (p : LogRotationPlan) : LogRotationPlan :=
  mk_log_plan p.(lr_root) p.(lr_max_bytes) p.(lr_max_rotated_files) GzipCompression p.(lr_rotate).
Definition rotates_path (p : LogRotationPlan) (q : string) : bool := existsb (String.eqb q) p.(lr_rotate).

(** ** Execution *)
Section Execution.
(** The gzip encoder ([flate2]). *)
Context (gzip : list Z -> list Z).
Definition gzip_log_file (source_path rotated_path : string) : HM unit :=
  _ ← stat_file (LogIo "open log file for compression") source_path;
  let temp_path := with_file_name rotated_path
    (default "rotated.log.gz"%string (path_file_name rotated_path) +:+ ".tmp") in
  _ ← write_contents (LogIo "create compressed rotated log file") temp_path [];
  data ← contents source_path;
  _ ← write_contents (LogIo "compress rotated log file") temp_path (gzip data);
  _ ← stat_file (LogIo "finish compressed rotated log file") temp_path;
  _ ← stat_file (LogIo "sync compressed rotated log file") temp_path;
  _ ← rename (LogIo "publish compressed rotated log file") temp_path rotated_path;
  remove_file (LogIo "delete compressed source log file") source_path.
(** [for generation in (1..max).rev()], from [g] down. *)
Fixpoint shift_generations (source_path : string) (c : LogRotationCompression) (g : nat) : HM unit :=
  match g with
  | O => mret tt
  | S g' =>
      let from := rotated_log_path source_path (Z.of_nat g) c in
      present ← path_exists from;
      _ ← (if (present : bool)
           then rename (LogIo "shift rotated log file") from (rotated_log_path source_path (Z.of_nat g + 1) c)
           else mret tt);
      shift_generations source_path c g'
  end.
(** One iteration of [execute]: the path it reports, if any. *)
Definition rotate_source (max : Z) (c : LogRotationCompression) (source_path : string) : HM (option string) :=
  if max =? 0 then
    _ ← remove_file (LogIo "delete oversized log file") source_path; mret None
  else
    let last := rotated_log_path source_path max c in
    expired ← path_exists last;
    _ ← (if (expired : bool) then remove_file (LogIo "delete expired rotated log file") last else mret tt);
    _ ← shift_generations source_path c (Z.to_nat (max - 1));
    let rotated_path := rotated_log_path source_path 1 c in
    _ ← match c with
        | NoCompression => rename (LogIo "rotate log file") source_path rotated_path
        | GzipCompression => gzip_log_file source_path rotated_path
        end;
    mret (Some rotated_path).
Fixpoint execute_loop (max : Z) (c : LogRotationCompression) (sources rotated : list string) : HM (list string) :=
  match sources with
  | [] => mret rotated
  | s :: sources =>
      r ← rotate_source max c s;
      execute_loop max c sources (match r with Some p => rotated ++ [p] | None => rotated end)
  end.
Definition log_rotation_execute (p : LogRotationPlan) : HM (list string) :=
  execute_loop p.(lr_max_rotated_files) p.(lr_compression) p.(lr_rotate) [].
End Execution.

(** ** The rotated names *)
Definition suffix_of (c : LogRotationCompression) : string :=
  match c with NoCompression => EmptyString | GzipCompression => ".gz" end.
(** The source path with its extension, [log] when it has none. *)
Definition log_base (p : string) : string :=
  match path_file_name p with
  | Some n => (split_dir p).1 +:+ (split_name n).1 +:+ "." +:+ default "log"%string (split_name n).2
  | None => p
  end.
Lemma print_dec_no c k : 0 <= k -> is_ascii_digit c = false -> contains c (print_dec k) = false.
Proof. intros Hk Hc. by apply digits_no_byte, print_dec_digits. Qed.
Lemma print_dec_length k : (0 < String.length (print_dec k))%nat.
Proof. pose proof (print_dec_nonempty k). destruct (print_dec k); [done|cbn; lia]. Qed.
Lemma rotated_log_path_eq p k c :
  is_Some (path_file_name p) -> 0 <= k ->
  rotated_log_path p k c = log_base p +:+ "." +:+ print_dec k +:+ suffix_of c.
Proof.
  intros [n En] Hk. unfold rotated_log_path, log_base. rewrite En.
  assert (Hextp : extension p = (split_name n).2) by (unfold extension; by rewrite En).
  assert (Hw : forall x, with_extension p x = (split_dir p).1 +:+ (split_name n).1 +:+
    (if is_empty x then EmptyString else "." +:+ x)) by (intros; unfold with_extension; by rewrite En).
  rewrite Hextp, Hw.
  destruct (file_name_sound p n En) as (Hn & Hd & Hs & _). destruct (split_name_sound n Hn) as [Hst Hnn].
  assert (Hsl : contains "/" ((split_name n).1 +:+ "." +:+ default "log"%string (split_name n).2) = false).
  { rewrite Hnn in Hs. rewrite contains_app in Hs |- *. apply orb_false_iff in Hs as [-> Hs]. cbn [orb].
    by destruct (split_name n).2. }
  assert (Hext : is_empty (default "log"%string (split_name n).2 +:+ "." +:+ print_dec k) = false).
  { apply is_empty_false. by destruct (default _ _). }
  rewrite Hext. set (e := default "log"%string (split_name n).2) in *. set (st := (split_name n).1) in *.
  assert (Hrot : (split_dir p).1 +:+ st +:+ "." +:+ e +:+ "." +:+ print_dec k
    = (split_dir p).1 +:+ ((st +:+ "." +:+ e) +:+ "." +:+ print_dec k)) by by rewrite !append_assoc.
  destruct c; cbn [suffix_of]; [by rewrite append_nil_r, Hrot, !append_assoc|].
  rewrite Hrot. unfold with_extension, extension.
  destruct (file_name_app (split_dir p).1 ((st +:+ "." +:+ e) +:+ "." +:+ print_dec k) Hd) as [-> ->].
  { rewrite contains_app, Hsl. change (contains "/" (print_dec k) = false). by apply print_dec_no. }
  { rewrite !length_append. pose proof (print_dec_length k). destruct st; [done|cbn; lia]. }
  cbn [mbind option_bind].
  destruct (split_name_ext (st +:+ "." +:+ e) (print_dec k)) as [->|E].
  { by destruct st. } { by apply print_dec_no. }
  - cbn [fst snd from_option id]. unfold id. replace (is_empty (print_dec k +:+ ".gz")) with false; [by rewrite !append_assoc|].
    symmetry. apply is_empty_false. pose proof (print_dec_nonempty k). by destruct (print_dec k).
  - apply (f_equal String.length) in E. rewrite !length_append in E. pose proof (print_dec_length k).
    destruct st; [done|cbn in E; lia].
Qed.

Lemma print_dec_inj i j : in_uint 32 i -> in_uint 32 j -> print_dec i = print_dec j -> i = j.
Proof.
  intros Hi Hj E. apply (parse_uint_print 32) in Hi as Pi, Hj as Pj. rewrite E in Pi. congruence.
Qed.
Lemma print_dec_last k : 0 <= k -> exists d, last (bytes (print_dec k)) = Some d /\ is_ascii_digit d = true.
Proof.
  intros Hk. pose proof (print_dec_digits k Hk) as Hd. unfold all_bytes in Hd.
  destruct (last (bytes (print_dec k))) as [d|] eqn:El.
  - exists d. split; [done|]. apply last_Some in El as [l El]. rewrite El, forallb_app in Hd.
    apply andb_true_iff in Hd as [_ Hd]. cbn in Hd. by rewrite andb_true_r in Hd.
  - apply last_None in El. destruct (print_dec_nonempty k). by destruct (print_dec k).
Qed.
Section Names.
Context (src : string) (c : LogRotationCompression) (Hsrc : is_Some (path_file_name src)).
Let gen (k : Z) : string := rotated_log_path src k c.
Definition temp_log_path : string := rotated_log_path src 1 c +:+ ".tmp".
Lemma gen_inj i j : in_uint 32 i -> in_uint 32 j -> gen i = gen j -> i = j.
Proof using Hsrc.
  intros Hi Hj. unfold gen. unfold in_uint in *. rewrite !rotated_log_path_eq by (done || lia).
  intros E%append_inj_l%append_inj_l. apply print_dec_inj; [done..|].
  by apply append_inj_len in E as [? _].
Qed.
Lemma gen_longer k : 0 <= k -> (String.length src < String.length (gen k))%nat.
Proof using Hsrc.
  intros Hk. unfold gen. rewrite rotated_log_path_eq by done. destruct Hsrc as [n En].
  destruct (file_name_sound src n En) as (Hn & _ & _ & Es). destruct (split_name_sound n Hn) as [_ Hnn].
  apply (f_equal String.length) in Es, Hnn. rewrite length_append in Es, Hnn.
  unfold log_base. rewrite En, !length_append. pose proof (print_dec_length k).
  destruct (split_name n).2; rewrite ?length_append in Hnn; cbn [String.length from_option id] in *; lia.
Qed.
Lemma gen_ne_src k : 0 <= k -> gen k <> src.
Proof using Hsrc. intros Hk E. pose proof (gen_longer k Hk). rewrite E in H. lia. Qed.
Lemma temp_ne_src : temp_log_path <> src.
Proof using Hsrc.
  intros E. pose proof (gen_longer 1 ltac:(lia)) as H. unfold gen in H. rewrite <- E in H at 1.
  unfold temp_log_path in H. rewrite length_append in H. lia.
Qed.
Lemma gen_name k : 0 <= k -> exists n, path_file_name (gen k) = Some n /\ gen k = (split_dir (gen k)).1 +:+ n /\
  exists b, n = b +:+ "." +:+ print_dec k +:+ suffix_of c /\ (0 < String.length b)%nat.
Proof using Hsrc.
  intros Hk. destruct Hsrc as [n En]. destruct (file_name_sound src n En) as (Hn & Hd & Hs & _).
  destruct (split_name_sound n Hn) as [Hst Hnn]. unfold gen. rewrite rotated_log_path_eq by eauto.
  set (b := (split_name n).1 +:+ "." +:+ default "log"%string (split_name n).2).
  assert (Hbase : log_base src = (split_dir src).1 +:+ b) by (unfold log_base; by rewrite En).
  rewrite Hbase, append_assoc. set (nm := b +:+ "." +:+ print_dec k +:+ suffix_of c).
  assert (Hb : (0 < String.length b)%nat) by (unfold b; rewrite !length_append; cbn; lia).
  destruct (file_name_app (split_dir src).1 nm Hd) as [E1 E2].
  - assert (Hbs : contains "/" b = false).
    { unfold b. rewrite Hnn, contains_app in Hs. apply orb_false_iff in Hs as [Hs1 Hs2].
      rewrite contains_app, Hs1. by destruct (split_name n).2. }
    unfold nm. rewrite contains_app, Hbs. change (contains "/" (print_dec k +:+ suffix_of c) = false).
    rewrite contains_app, print_dec_no by done. by destruct c.
  - unfold nm. rewrite !length_append. pose proof (print_dec_length k). cbn [String.length]. lia.
  - exists nm. rewrite E2. split_and!; [done..|]. by exists b.
Qed.
Lemma temp_eq :
  with_file_name (gen 1) (default "rotated.log.gz"%string (path_file_name (gen 1)) +:+ ".tmp") = temp_log_path.
Proof using Hsrc.
  destruct (gen_name 1 ltac:(lia)) as (n & En & Eg & _). unfold with_file_name, temp_log_path. rewrite En.
  cbn [from_option id]. fold (gen 1). rewrite Eg at 2. by rewrite append_assoc.
Qed.
(** A rotated file is recognised as one: it is never rotated again. *)
Lemma gen_recognised k : in_uint 32 k -> is_rotated_log_path (gen k) = true.
Proof using Hsrc.
  intros Hk. assert (H0 : 0 <= k) by (unfold in_uint in Hk; lia).
  destruct (gen_name k H0) as (n & En & _ & b & Hn & _). unfold is_rotated_log_path. rewrite En.
  assert (Hstrip : default n (strip_suffix ".gz" n) = b +:+ "." +:+ print_dec k).
  { destruct c; cbn [suffix_of] in Hn.
    - destruct (strip_suffix ".gz" n) as [q|] eqn:E; cbn; [|by rewrite Hn, append_nil_r].
      exfalso. apply strip_suffix_sound in E. rewrite Hn, append_nil_r in E.
      apply (f_equal (fun s => last (bytes s))) in E. rewrite !bytes_app, !last_app in E.
      destruct (print_dec_last k H0) as (d & Hd & Hdig). rewrite Hd in E. injection E as ->. done.
    - replace (b +:+ "." +:+ print_dec k +:+ ".gz") with ((b +:+ "." +:+ print_dec k) +:+ ".gz") in Hn
        by by rewrite !append_assoc.
      by rewrite Hn, strip_suffix_app. }
  rewrite Hstrip. change ("." +:+ print_dec k) with (String "." (print_dec k)).
  rewrite rsplit_once_at by by apply print_dec_no. by rewrite parse_uint_print.
Qed.
Lemma temp_ne_gen k : 0 <= k -> temp_log_path <> gen k.
Proof using Hsrc.
  intros Hk E. unfold temp_log_path, gen in E. rewrite (rotated_log_path_eq src k) in E by done.
  apply (f_equal (fun s => last (bytes s))) in E. rewrite !bytes_app, !last_app in E.
  destruct (print_dec_last k Hk) as (d & Hd & Hdig). rewrite Hd in E. destruct c; [|done].
  injection E as <-. done.
Qed.
End Names.

(** ** Runs *)
Section Rotation.
Context (gzip : list Z -> list Z) (src : string) (c : LogRotationCompression) (Hsrc : is_Some (path_file_name src)).
Let gen (k : Z) : string := rotated_log_path src k c.
Lemma gen_ne i j : in_uint 32 i -> in_uint 32 j -> i <> j -> gen i <> gen j.
Proof using Hsrc. intros Hi Hj Hne E. apply Hne. by apply (gen_inj src c Hsrc). Qed.

Lemma shift_spec g : forall m,
  Z.of_nat g + 1 < 2 ^ 32 -> m !! gen (Z.of_nat g + 1) = None ->
  exists m', shift_generations src c g (mk_world m []) = (mk_world m' [], Ok tt) /\
    (forall k, 1 <= k <= Z.of_nat g -> m' !! gen (k + 1) = m !! gen k) /\ m' !! gen 1 = None /\
    (forall p, (forall k, 1 <= k <= Z.of_nat g + 1 -> p <> gen k) -> m' !! p = m !! p).
Proof using Hsrc.
  induction g as [|g IH]; intros m Hb Hfree.
  - exists m. split_and!; [done|intros; lia|done|done].
  - assert (Hgs : Z.of_nat (S g) = Z.of_nat g + 1) by lia. cbn [shift_generations]. rewrite Hgs in *.
    set (k0 := Z.of_nat g + 1) in *. assert (Hne : gen k0 <> gen (k0 + 1)) by (apply gen_ne; unfold in_uint; lia).
    set (m1 := match m !! gen k0 with Some x => <[gen (k0 + 1) := x]> (delete (gen k0) m) | None => m end).
    assert (Hm1 : forall p, m1 !! p = if decide (p = gen (k0 + 1)) then m !! gen k0
      else if decide (p = gen k0) then None else m !! p).
    { intros p. unfold m1. destruct (m !! gen k0) as [x|] eqn:E.
      - case_decide as H1; [subst; by rewrite lookup_insert_eq|]. rewrite lookup_insert_ne by done.
        case_decide as H2; [subst; by rewrite lookup_delete_eq|]. by rewrite lookup_delete_ne.
      - case_decide as H1; [by subst|]. case_decide as H2; [by subst|done]. }
    destruct (IH m1) as (m' & E & Hk & H1 & Ho); [lia| |].
    { rewrite Hm1, decide_False, decide_True; done. }
    exists m'. split; [|split_and!].
    + rewrite bind_hm. cbn [path_exists files]. rewrite bind_hm. fold (gen k0). fold (gen (k0 + 1)).
      unfold m1 in E. destruct (m !! gen k0) as [x|] eqn:Ex.
      * rewrite bool_decide_eq_true_2 by eauto. by rewrite (rename_ok _ _ _ _ x).
      * rewrite bool_decide_eq_false_2 by (intros []; congruence). exact E.
    + intros k Hkk. destruct (decide (k = k0)) as [->|Hkne].
      * rewrite Ho, Hm1, decide_True; [done..|]. intros j Hj. apply gen_ne; unfold in_uint; lia.
      * rewrite Hk, Hm1, !decide_False; [done|..]; try lia; apply gen_ne; unfold in_uint; lia.
    + done.
    + intros p Hp. rewrite Ho, Hm1, !decide_False; [done|..]; [| |intros j Hj]; apply Hp; lia.
Qed.

Definition encoded (data : list Z) : list Z :=
  match c with NoCompression => data | GzipCompression => gzip data end.
(** The last step: the log becomes generation one. *)
Lemma publish_spec m data :
  m !! src = Some data ->
  exists m', match c with
             | NoCompression => rename (LogIo "rotate log file") src (gen 1)
             | GzipCompression => gzip_log_file gzip src (gen 1)
             end (mk_world m []) = (mk_world m' [], Ok tt) /\
    m' !! src = None /\ m' !! gen 1 = Some (encoded data) /\
    forall p, p <> src -> p <> gen 1 -> p <> temp_log_path src c -> m' !! p = m !! p.
Proof using Hsrc.
  intros E. pose proof (gen_ne_src src c Hsrc 1 ltac:(lia)) as Hgs. fold (gen 1) in Hgs.
  pose proof (temp_ne_src src c Hsrc) as Hts. unfold encoded. destruct c eqn:Hc.
  - exists (<[gen 1 := data]> (delete src m)). split; [by apply rename_ok|]. split_and!.
    + rewrite lookup_insert_ne by done. apply lookup_delete_eq.
    + apply lookup_insert_eq.
    + intros p H1 H2 _. by rewrite lookup_insert_ne, lookup_delete_ne.
  - subst c. pose proof (temp_ne_gen src GzipCompression Hsrc 1 ltac:(lia)) as Htg. fold (gen 1) in Htg.
    set (tmp := temp_log_path src GzipCompression) in *.
    exists (delete src (<[gen 1 := gzip data]> (delete tmp (<[tmp := gzip data]> (<[tmp := []]> m))))).
    split; [|split_and!].
    + assert (Ht : with_file_name (gen 1) (default "rotated.log.gz"%string (path_file_name (gen 1)) +:+ ".tmp") = tmp)
        by exact (temp_eq src GzipCompression Hsrc).
      unfold gzip_log_file. rewrite bind_hm, (stat_ok _ _ _ data) by done. cbv zeta. rewrite Ht.
      rewrite bind_hm, write_ok, bind_hm, (contents_ok _ _ data) by by rewrite lookup_insert_ne.
      rewrite bind_hm, write_ok, bind_hm, (stat_ok _ _ _ (gzip data)) by apply lookup_insert_eq.
      rewrite bind_hm, (stat_ok _ _ _ (gzip data)) by apply lookup_insert_eq.
      rewrite bind_hm, (rename_ok _ _ _ _ (gzip data)) by apply lookup_insert_eq.
      apply (remove_ok _ _ _ data). by rewrite lookup_insert_ne, lookup_delete_ne, !lookup_insert_ne.
    + apply lookup_delete_eq.
    + rewrite lookup_delete_ne by done. apply lookup_insert_eq.
    + intros p H1 H2 H3. rewrite lookup_delete_ne, lookup_insert_ne, lookup_delete_ne, !lookup_insert_ne by done. done.
Qed.

(** ** Runs with faults *)
Lemma leaves_shift g : Z.of_nat g + 1 < 2 ^ 32 -> leaves src (shift_generations src c g).
Proof using Hsrc.
  induction g as [|g IH]; intros Hg; [done|]. cbn [shift_generations].
  apply leaves_bind; [done|]. intros present. apply leaves_bind; [|intros _; apply IH; lia].
  destruct present; [|done].
  apply leaves_rename; apply not_eq_sym; apply (gen_ne_src src c Hsrc); lia.
Qed.
Definition safe_at (w : World) (data : list Z) : Prop :=
  w.(files) !! src = Some data \/ w.(files) !! gen 1 = Some (encoded data).
Lemma publish_safe w data :
  w.(files) !! src = Some data ->
  safe_at (match c with
           | NoCompression => rename (LogIo "rotate log file") src (gen 1)
           | GzipCompression => gzip_log_file gzip src (gen 1)
           end w).1 data.
Proof using Hsrc.
  intros E. pose proof (gen_ne_src src c Hsrc 1 ltac:(lia)) as Hgs. fold (gen 1) in Hgs.
  pose proof (temp_ne_src src c Hsrc) as Hts. unfold safe_at, encoded. destruct c eqn:Hc.
  - unfold rename. edestruct (call_cases (LogIo "rotate log file")) as [(w' & e & -> & Ew)|(m' & fs & -> & Em)]; cbn; [left; congruence|right].
    rewrite E in Em. injection Em as <-. apply lookup_insert_eq.
  - subst c. pose proof (temp_ne_gen src GzipCompression Hsrc 1 ltac:(lia)) as Htg. fold (gen 1) in Htg.
    assert (Ht : with_file_name (gen 1) (default "rotated.log.gz"%string (path_file_name (gen 1)) +:+ ".tmp")
      = temp_log_path src GzipCompression) by exact (temp_eq src GzipCompression Hsrc).
    unfold gzip_log_file. cbv zeta. rewrite Ht. set (tmp := temp_log_path src GzipCompression) in *. clear Ht.
    set (P := fun w => w.(files) !! src = Some data \/ w.(files) !! gen 1 = Some (gzip data)).
    assert (HP : forall w', w'.(files) !! src = Some data -> P w') by by left.
    apply (run_step P src data); [apply leaves_stat|done..|]. intros w1 _ _ E1.
    apply (run_step P src data); [by apply leaves_write|done..|]. intros w2 _ _ E2.
    apply (run_step P src data); [done..|]. intros w3 d Hd E3. unfold contents in Hd. rewrite E2 in Hd. injection Hd as <- <-.
    apply (run_step P src data); [by apply leaves_write|done..|]. intros w4 a4 H4 E4.
    assert (T4 : w4.(files) !! tmp = Some (gzip data)) by (apply write_success in H4 as ->; apply lookup_insert_eq).
    apply (run_step P src data); [apply leaves_stat|done..|]. intros w5 a5 H5 E5.
    pose proof (leaves_stat (LogIo "finish compressed rotated log file") tmp tmp w4) as T5. rewrite H5, T4 in T5. cbn in T5.
    apply (run_step P src data); [apply leaves_stat|done..|]. intros w6 a6 H6 E6.
    pose proof (leaves_stat (LogIo "sync compressed rotated log file") tmp tmp w5) as T6. rewrite H6, T5 in T6. cbn in T6.
    apply (run_step P src data); [by apply leaves_rename|done..|]. intros w7 a7 H7 E7. right.
    rewrite leaves_remove by done. apply rename_success in H7 as (x & Hx & ->). rewrite T6 in Hx. injection Hx as <-.
    apply lookup_insert_eq.
Qed.
End Rotation.

(** Rotating a log keeps its generations in order.  Without file system
    faults, rotating a file with [max >= 1] retained generations succeeds and
    reports generation one: the file becomes generation one (compressed when
    asked for), generation [k] becomes [k + 1] for every [k < max] (present or
    not), the file itself and what was generation [max] are gone, and no other
    file changes (the temporary file of the compression apart).  Every rotated
    name is recognised as one, so it is never rotated again. *)
Theorem log_rotation_shifts gzip src c max m data :
  is_Some (path_file_name src) -> 1 <= max < 2 ^ 32 -> m !! src = Some data ->
  let gen k := rotated_log_path src k c in
  exists m', rotate_source gzip max c src (mk_world m []) = (mk_world m' [], Ok (Some (gen 1))) /\
    m' !! src = None /\ m' !! gen 1 = Some (encoded gzip c data) /\
    (forall k, 1 <= k < max -> m' !! gen (k + 1) = m !! gen k) /\
    (forall p, p <> src -> (forall k, 1 <= k <= max -> p <> gen k) -> p <> temp_log_path src c -> m' !! p = m !! p) /\
    (forall k, 1 <= k <= max -> is_rotated_log_path (gen k) = true).
Proof.
  intros Hsrc Hmax E gen. subst gen. cbv beta. set (m0 := delete (rotated_log_path src max c) m).
  assert (Hs0 : m0 !! src = Some data).
  { unfold m0. rewrite lookup_delete_ne; [done|]. apply (gen_ne_src src c Hsrc). lia. }
  destruct (shift_spec src c Hsrc (Z.to_nat (max - 1)) m0) as (m1 & R1 & Hk1 & Hfree & Ho1); [lia| |].
  { unfold m0. rewrite Z2Nat.id by lia. replace (max - 1 + 1) with max by lia. apply lookup_delete_eq. }
  rewrite Z2Nat.id in Hk1, Ho1 by lia.
  assert (Hs1 : m1 !! src = Some data).
  { rewrite Ho1; [done|]. intros k Hk. apply not_eq_sym, (gen_ne_src src c Hsrc). lia. }
  destruct (publish_spec gzip src c Hsrc m1 data Hs1) as (m2 & R2 & H1 & H2 & Ho2).
  assert (Hne : forall k, 1 <= k -> k + 1 < 2 ^ 32 -> rotated_log_path src (k + 1) c <> rotated_log_path src 1 c).
  { intros k Hk Hk2. apply (gen_ne src c Hsrc); unfold in_uint; lia. }
  exists m2. split_and!; [|done..| | |].
  - unfold rotate_source. replace (max =? 0) with false by lia. cbv zeta. rewrite bind_hm. cbn [path_exists files]. rewrite bind_hm.
    assert (R0 : (if bool_decide (is_Some (m !! rotated_log_path src max c)) then remove_file (LogIo "delete expired rotated log file") (rotated_log_path src max c)
      else mret tt : HM unit) (mk_world m []) = (mk_world m0 [], Ok tt)).
    { case_bool_decide as Hx; [destruct Hx as [x Hx]; by apply (remove_ok _ _ _ x)|].
      unfold m0. rewrite delete_id; [done|]. by apply eq_None_not_Some. }
    rewrite R0, bind_hm, R1. by rewrite bind_hm, R2.
  - intros k Hk. rewrite Ho2; [rewrite Hk1 by lia| | |].
    + unfold m0. rewrite lookup_delete_ne; [done|]. apply (gen_ne src c Hsrc); unfold in_uint; lia.
    + apply (gen_ne_src src c Hsrc). lia.
    + by apply Hne; lia.
    + apply not_eq_sym, (temp_ne_gen src c Hsrc). lia.
  - intros p Hp Hpg Hpt. rewrite Ho2, Ho1; [|intros; apply Hpg; lia|done|apply Hpg; lia|done].
    unfold m0. apply lookup_delete_ne, not_eq_sym, Hpg. lia.
  - intros k Hk. apply (gen_recognised src c Hsrc). unfold in_uint. lia.
Qed.
Definition demo_files : gmap string (list Z) :=
  list_to_map [("/logs/app.log"%string, [3]); ("/logs/app.log.1"%string, [2]); ("/logs/app.log.2"%string, [1]); ("/logs/b"%string, [9])].
Lemma log_rotation_shifts_witness :
  exists m', rotate_source (fun d => d) 2 NoCompression "/logs/app.log" (mk_world demo_files [])
      = (mk_world m' [], Ok (Some "/logs/app.log.1"%string)) /\
    m' !! "/logs/app.log.2"%string = Some [2] /\ m' !! "/logs/app.log.1"%string = Some [3] /\
    m' !! "/logs/app.log"%string = None /\ m' !! "/logs/b"%string = Some [9].
Proof.
  destruct (log_rotation_shifts (fun d => d) "/logs/app.log" NoCompression 2 demo_files [3])
    as (m' & Hrun & H1 & H2 & H3 & H4 & _); [vm_compute; eauto|lia|vm_compute; reflexivity|].
  exists m'. split; [exact Hrun|]. split; [|split; [exact H2|split; [exact H1|]]].
  - specialize (H3 1 ltac:(lia)). vm_compute in H3. vm_compute. exact H3.
  - rewrite H4; [vm_compute; reflexivity|discriminate| |vm_compute; discriminate].
    intros k Hk. assert (k = 1 \/ k = 2) as [-> | ->] by lia; vm_compute; discriminate.
Defined.

(** No fault loses a log.  Whatever file system calls fail while a log is
    rotated with at least one retained generation, its contents are afterwards
    still in the log file, or (compressed when asked for) in generation one. *)
Theorem rotation_fault_safe gzip src c max w data :
  is_Some (path_file_name src) -> 1 <= max < 2 ^ 32 -> w.(files) !! src = Some data ->
  safe_at gzip src c (rotate_source gzip max c src w).1 data.
Proof.
  intros Hsrc Hmax E. unfold rotate_source. replace (max =? 0) with false by lia. cbv zeta.
  set (P := fun w => safe_at gzip src c w data).
  assert (HP : forall w', w'.(files) !! src = Some data -> P w') by by left.
  apply (run_step P src data); [done..|]. intros w1 expired _ E1. apply (run_step P src data); [|done..|].
  { destruct expired; [|done]. apply leaves_remove, not_eq_sym, (gen_ne_src src c Hsrc). lia. }
  intros w2 _ _ E2. apply (run_step P src data); [apply (leaves_shift src c Hsrc); lia|done..|]. intros w3 _ _ E3. subst P.
  rewrite bind_hm. pose proof (publish_safe gzip src c Hsrc w3 data E3) as Hp.
  destruct c; cbv beta in Hp; [destruct (rename _ _ _ w3) as [w4 [[]|e]]|destruct (gzip_log_file _ _ _ w3) as [w4 [[]|e]]];
    exact Hp.
Qed.
Lemma rotation_fault_safe_witness :
  let w := mk_world demo_files [None; None; None; None; None; None; None; Some (mk_fault (mk_host_error IoOther "EIO") None)] in
  safe_at (fun d => 0 :: d) "/logs/app.log" GzipCompression
    (rotate_source (fun d => 0 :: d) 2 GzipCompression "/logs/app.log" w).1 [3].
Proof.
  apply (rotation_fault_safe (fun d => 0 :: d) "/logs/app.log" GzipCompression 2); [vm_compute; eauto|lia|].
  vm_compute. reflexivity.
Defined.
(** Two logs can share rotated names: a log without extension is rotated under
    the name of the one with extension [log].  With one retained generation
    the first of the two is lost. *)
Lemma rotated_names_collide :
  let m := list_to_map [("/logs/app"%string, [1]); ("/logs/app.log"%string, [2])] in
  let plan := mk_log_plan "/logs" 0 1 NoCompression ["/logs/app"%string; "/logs/app.log"%string] in
  map_to_list (log_rotation_execute (fun d => d) plan (mk_world m [])).1.(files) = [("/logs/app.log.1"%string, [2])].
Proof. vm_compute. reflexivity. Qed.
(** A log whose name ends in a number counts as rotated and is never rotated. *)
Lemma numbered_log_is_never_rotated : is_rotated_log_path "/logs/trace.20240131" = true.
Proof. vm_compute. reflexivity. Qed.
