(* ===== verification/Hygiene.v ===== *)
(** * Host hygiene ([crates/hygiene/src])

    [Gc]: which snapshot artifacts of a directory are collected, and their
    deletion.  [Restart]: what happens to resources found after a controller
    restart, and to virtual machines without a recent heartbeat.  Durations and
    times are nanoseconds. *)
From S2P Require Import Prelude BTree HostPaths HostFs Artifacts LogRotation.

Module Gc.
Inductive ArtifactGcError :=
| GcIo (operation : string) (source : host_error)
| GcManifest (reason : string).
Record GcMeta := mk_gc_meta { gm_is_file : bool; gm_is_dir : bool; gm_modified : result host_error Z }.
Record GcEntry := mk_gc_entry { ge_path : string; ge_meta : result host_error GcMeta }.
Record ArtifactGcPlan := mk_gc_plan {
  gc_root : string;
  gc_keep : gset string;
  gc_delete : list string
}.
(** [crates/artifacts/src/manifest.rs]: the name ends in [.manifest.json]. *)
Definition is_snapshot_manifest_sidecar (p : string) : bool :=
  match path_file_name p with
  | Some n => match strip_suffix ".manifest.json" n with Some _ => true | None => false end
  | None => false
  end.
(** [now.duration_since(modified).unwrap_or(Duration::ZERO)]. *)
Definition age (now modified : Z) : Z := Z.max (now - modified) 0.
Fixpoint collect_unreferenced (keep : gset string) (min_age now : Z)
    (entries : list (result host_error GcEntry)) (acc : list string) : result ArtifactGcError (list string) :=
  match entries with
  | [] => Ok acc
  | entry :: entries =>
      e ← map_err (GcIo "read snapshot artifact entry") entry;
      meta ← map_err (GcIo "stat snapshot artifact") e.(ge_meta);
      acc ← (if bool_decide (e.(ge_path) ∉ keep) && negb (is_snapshot_manifest_sidecar e.(ge_path))
                && (meta.(gm_is_file) || meta.(gm_is_dir))
             then modified ← map_err (GcIo "stat snapshot artifact") meta.(gm_modified);
                  Ok (if min_age <=? age now modified then acc ++ [e.(ge_path)] else acc)
             else Ok acc);
      collect_unreferenced keep min_age now entries acc
  end.
Definition for_snapshot_dir_with_retention (root : string) (manifests : list SnapshotArtifactManifest)
    (min_age now : Z) (listing : result host_error (list (result host_error GcEntry)))
    : result ArtifactGcError ArtifactGcPlan :=
  let keep := list_to_set (path <$> manifests) in
  entries ← map_err (GcIo "read snapshot artifact directory") listing;
  delete ← collect_unreferenced keep min_age now entries [];
  Ok (mk_gc_plan root keep (sort_paths delete)).
Definition for_snapshot_dir root manifests now listing :=
  for_snapshot_dir_with_retention root manifests 0 now listing.
(** [manifests] is what [SnapshotArtifactManifest::read_json_dir] gives. *)
Definition for_snapshot_dir_with_manifest_sidecars (root : string)
    (manifests : result string (list SnapshotArtifactManifest)) (min_age now : Z) listing
    : result ArtifactGcError ArtifactGcPlan :=
  manifests ← map_err GcManifest manifests;
  for_snapshot_dir_with_retention root manifests min_age now listing.
Definition keeps_path (p : ArtifactGcPlan) (q : string) : bool := bool_decide (q ∈ p.(gc_keep)).
Definition deletes_path (p : ArtifactGcPlan) (q : string) : bool := existsb (String.eqb q) p.(gc_delete).

(** The host tree: each path with whether it is a directory. *)
Abbreviation Tree := (gmap string bool).
Definition inside (dir q : string) : bool := match strip_prefix (dir +:+ "/") q with Some _ => true | None => false end.
Definition remove_dir_all (p : string) (t : Tree) : Tree :=
  filter (fun kv => kv.1 <> p /\ inside p kv.1 = false) t.
Fixpoint gc_execute_loop (paths deleted : list string) (t : Tree) (faults : list (option host_error))
    : Tree * result ArtifactGcError (list string) :=
  match paths with
  | [] => (t, Ok deleted)
  | p :: paths =>
      let is_dir := default false (t !! p) in
      let operation := if is_dir then "delete snapshot artifact directory"%string
                       else "delete snapshot artifact file"%string in
      match head faults, t !! p with
      | Some (Some e), _ => (t, Err (GcIo operation e))
      | _, None => (t, Err (GcIo operation not_found))
      | _, Some _ =>
          gc_execute_loop paths (deleted ++ [p])
            (if is_dir then remove_dir_all p t else delete p t) (tail faults)
      end
  end.
Definition gc_execute (p : ArtifactGcPlan) (t : Tree) (faults : list (option host_error)) :=
  gc_execute_loop p.(gc_delete) [] t faults.
End Gc.

Module Restart.
Inductive RestartResourceKind := ActiveVm | SnapshotArtifact | LogStream | StaleRuntimeProcess.
Record RestartStateRecord := mk_record { rec_id : string; rec_kind : RestartResourceKind }.
Inductive ReconciliationDecision := Recover | Cleanup | Quarantine.
Definition reconcile (r : RestartStateRecord) : ReconciliationDecision :=
  if is_empty r.(rec_id) then Quarantine
  else match r.(rec_kind) with
       | ActiveVm | SnapshotArtifact => Recover
       | LogStream | StaleRuntimeProcess => Cleanup
       end.
Definition ReconciliationPlan : Type := list (RestartStateRecord * ReconciliationDecision).
Definition from_records (records : list RestartStateRecord) : ReconciliationPlan :=
  (fun r => (r, reconcile r)) <$> records.
Definition decision_for (p : ReconciliationPlan) (id : string) : option ReconciliationDecision :=
  snd <$> List.find (fun e => String.eqb (rec_id e.1) id) p.

Record StuckVmObservation := mk_observation {
  obs_id : string; heartbeat_age : Z; runtime_pid : option Z }.
Inductive StuckVmCleanupDecision := StuckPreserve | StuckCleanup | StuckQuarantine.
Definition stuck_decision (timeout : Z) (o : StuckVmObservation) : StuckVmCleanupDecision :=
  if is_empty o.(obs_id) then StuckQuarantine
  else if timeout <=? o.(heartbeat_age) then StuckCleanup else StuckPreserve.
Definition StuckVmCleanupPlan : Type := list (StuckVmObservation * StuckVmCleanupDecision).
Definition from_observations (obs : list StuckVmObservation) (timeout : Z) : StuckVmCleanupPlan :=
  (fun o => (o, stuck_decision timeout o)) <$> obs.
Definition stuck_decision_for (p : StuckVmCleanupPlan) (id : string) : option StuckVmCleanupDecision :=
  snd <$> List.find (fun e => String.eqb (obs_id e.1) id) p.
Definition is_cleanup (d : StuckVmCleanupDecision) : bool := match d with StuckCleanup => true | _ => false end.
Definition is_quarantine (d : StuckVmCleanupDecision) : bool := match d with StuckQuarantine => true | _ => false end.
Definition cleanup_ids (p : StuckVmCleanupPlan) : list string :=
  (fun e => obs_id e.1) <$> List.filter (fun e => is_cleanup e.2) p.
Definition quarantine_ids (p : StuckVmCleanupPlan) : list string :=
  (fun e => obs_id e.1) <$> List.filter (fun e => is_quarantine e.2) p.

Record HostRuntimeScan := mk_scan {
  restart_records : list RestartStateRecord;
  stuck_vm_observations : list StuckVmObservation
}.
Definition scan_new : HostRuntimeScan := mk_scan [] [].
Definition push_record (s : HostRuntimeScan) (r : RestartStateRecord) : HostRuntimeScan :=
  mk_scan (s.(restart_records) ++ [r]) s.(stuck_vm_observations).
Definition active_vm (s : HostRuntimeScan) (id : string) (hb : Z) : HostRuntimeScan :=
  mk_scan (s.(restart_records) ++ [mk_record id ActiveVm])
    (s.(stuck_vm_observations) ++ [mk_observation id hb None]).
Definition active_vm_with_runtime_pid (s : HostRuntimeScan) (id : string) (hb pid : Z) : HostRuntimeScan :=
  mk_scan (s.(restart_records) ++ [mk_record id ActiveVm])
    (s.(stuck_vm_observations) ++ [mk_observation id hb (Some pid)]).
Definition snapshot_artifact (s : HostRuntimeScan) (id : string) := push_record s (mk_record id SnapshotArtifact).
Definition log_stream (s : HostRuntimeScan) (id : string) := push_record s (mk_record id LogStream).
Definition stale_runtime_process (s : HostRuntimeScan) (id : string) := push_record s (mk_record id StaleRuntimeProcess).
Definition reconciliation_plan (s : HostRuntimeScan) : ReconciliationPlan := from_records s.(restart_records).
Definition stuck_vm_cleanup_plan (s : HostRuntimeScan) (timeout : Z) : StuckVmCleanupPlan :=
  from_observations s.(stuck_vm_observations) timeout.
End Restart.

(** ** What the collector collects *)
Section GcLaws.
Import Gc.
Context (keep : gset string) (min_age now : Z).
(** An entry is collected: unreferenced, not a manifest, a file or directory,
    and old enough. *)
Definition collectable (e : GcEntry) : bool :=
  match e.(ge_meta) with
  | Ok meta =>
      bool_decide (e.(ge_path) ∉ keep) && negb (is_snapshot_manifest_sidecar e.(ge_path))
      && (meta.(gm_is_file) || meta.(gm_is_dir))
      && match meta.(gm_modified) with Ok t => min_age <=? age now t | Err _ => false end
  | Err _ => false
  end.
Lemma collect_spec entries : forall acc l,
  collect_unreferenced keep min_age now (Ok <$> entries) acc = Ok l ->
  l = acc ++ (ge_path <$> List.filter collectable entries).
Proof using.
  induction entries as [|e entries IH]; intros acc l; [cbn; intros [= <-]; by rewrite app_nil_r|].
  rewrite fmap_cons. cbn [collect_unreferenced map_err List.filter]. unfold mbind, result_bind, collectable at 1.
  destruct e.(ge_meta) as [meta|]; [|done]. cbn [map_err].
  destruct (bool_decide (ge_path e ∉ keep) && negb (is_snapshot_manifest_sidecar (ge_path e))
    && (gm_is_file meta || gm_is_dir meta)) eqn:Hc; cbn [andb]; [|apply IH].
  destruct meta.(gm_modified) as [t|]; [|done]. cbn [map_err]. intros H%IH.
  destruct (min_age <=? age now t); [|done]. by rewrite <- app_assoc in H.
Qed.
End GcLaws.

Section Sorting.
Lemma insert_sorted_perm x l : insert_sorted x l ≡ₚ x :: l.
Proof.
  induction l as [|y l IH]; [done|]. cbn [insert_sorted]. destruct (kcmp x y); [done..|].
  rewrite IH. apply Permutation_swap.
Qed.
Lemma sort_paths_perm l : sort_paths l ≡ₚ l.
Proof. induction l as [|x l IH]; [done|]. unfold sort_paths in *. cbn [foldr]. by rewrite insert_sorted_perm, IH. Qed.
End Sorting.

Lemma NoDup_filter_fmap {A B} (f : A -> B) (P : A -> bool) l : NoDup (f <$> l) -> NoDup (f <$> List.filter P l).
Proof.
  induction l as [|x l IH]; [constructor|]. rewrite fmap_cons. intros [Hx Hnd]%NoDup_cons. cbn [List.filter].
  case_match; [|by apply IH]. rewrite fmap_cons. constructor; [|by apply IH].
  intros (y & Hy & Hin)%list_elem_of_fmap. apply Hx. rewrite Hy. apply list_elem_of_fmap_2.
  apply list_elem_of_In in Hin. apply filter_In in Hin as [? _]. by apply list_elem_of_In.
Qed.

Section GcRun.
Import Gc.
(** A path directly under the root. *)
Definition direct (root p : string) : Prop := exists n, p = root +:+ "/" +:+ n /\ contains "/" n = false.
Lemma direct_not_inside root p q : direct root p -> direct root q -> inside p q = false.
Proof.
  intros (n & -> & Hn) (k & -> & Hk). unfold inside. destruct (strip_prefix _ _) as [r|] eqn:E; [|done].
  exfalso. apply strip_prefix_sound in E. rewrite !append_assoc in E. apply append_inj_l, append_inj_l in E.
  rewrite E in Hk. rewrite !contains_app in Hk. apply orb_false_iff in Hk as [_ Hk]. done.
Qed.
(** What deleting [p] leaves of the tree. *)
Definition doomed (t : Tree) (p q : string) : bool :=
  String.eqb q p || (default false (t !! p) && inside p q).
Lemma delete_one (t : Tree) (p q : string) (x : bool) :
  t !! p = Some x -> (if x then remove_dir_all p t else (delete p t : Tree)) !! q = if doomed t p q then None else t !! q.
Proof.
  intros E. unfold doomed. rewrite E. cbn [from_option id]. destruct (String.eqb_spec q p) as [->|Hne]; cbn [orb].
  - destruct x; [|apply lookup_delete_eq]. unfold remove_dir_all. apply map_lookup_filter_None_2. right.
    intros y _ []. done.
  - destruct x; cbn [andb]; [|by rewrite lookup_delete_ne]. unfold remove_dir_all.
    destruct (inside p q) eqn:Hi.
    + apply map_lookup_filter_None_2. right. intros y _ []. cbn in *. congruence.
    + destruct (t !! q) as [y|] eqn:Eq.
      * by apply map_lookup_filter_Some_2.
      * apply map_lookup_filter_None_2. by left.
Qed.
Lemma gc_run root paths : forall deleted t,
  NoDup paths -> (forall p, p ∈ paths -> direct root p /\ is_Some (t !! p)) ->
  exists t', gc_execute_loop paths deleted t [] = (t', Ok (deleted ++ paths)) /\
    forall q, t' !! q = if existsb (fun p => doomed t p q) paths then None else t !! q.
Proof.
  induction paths as [|p paths IH]; intros deleted t Hnd Hp; [exists t; by rewrite app_nil_r|].
  apply NoDup_cons in Hnd as [Hnp Hnd]. destruct (Hp p (list_elem_of_here _ _)) as [Hdir [x Hx]].
  set (t1 := if x then remove_dir_all p t else delete p t).
  assert (Hsame : forall q, q ∈ paths -> t1 !! q = t !! q).
  { intros q Hq. unfold t1. rewrite delete_one by done. unfold doomed.
    destruct (String.eqb_spec q p) as [->|]; [done|]. cbn [orb].
    rewrite (direct_not_inside root p q), andb_false_r; [done..|]. apply Hp. by apply list_elem_of_further. }
  destruct (IH (deleted ++ [p]) t1 Hnd) as (t' & E & Ht').
  { intros q Hq. rewrite Hsame by done. apply Hp. by apply list_elem_of_further. }
  exists t'. split.
  - cbn [gc_execute_loop head tail]. rewrite Hx. cbn [from_option id]. fold t1. by rewrite E, <- app_assoc.
  - intros q. rewrite Ht'. cbn [existsb].
    assert (Heq : existsb (fun r => doomed t1 r q) paths = existsb (fun r => doomed t r q) paths).
    { apply eq_iff_eq_true. rewrite !existsb_exists. split; intros (r & Hr & Hd); exists r; split; try done;
        unfold doomed in *; rewrite (Hsame r (proj2 (list_elem_of_In _ _) Hr)) in *; done. }
    rewrite Heq. unfold t1. rewrite delete_one by done. destruct (existsb (fun r => doomed t r q) paths); by destruct (doomed t p q).
Qed.
End GcRun.

(** The garbage collector deletes exactly what is unreferenced and old.
    For a directory whose entries can be read and are files or directories of
    the tree, the plan deletes an entry exactly when no manifest names it, it
    is not a manifest sidecar and it is old enough; executing the plan without
    faults succeeds and reports the planned paths, every artifact a manifest
    names directly under the root is still there, and nothing outside the
    deleted files and directories changes. *)
Theorem gc_keeps_referenced root manifests min_age now entries t plan :
  Gc.for_snapshot_dir_with_retention root manifests min_age now (Ok (Ok <$> entries)) = Ok plan ->
  NoDup (Gc.ge_path <$> entries) ->
  (forall e, e ∈ entries -> direct root (Gc.ge_path e) /\ is_Some (t !! Gc.ge_path e)) ->
  (forall p, p ∈ Gc.gc_delete plan <->
     exists e, e ∈ entries /\ Gc.ge_path e = p /\ collectable (list_to_set (path <$> manifests)) min_age now e = true) /\
  exists t', Gc.gc_execute plan t [] = (t', Ok (Gc.gc_delete plan)) /\
    (forall m, m ∈ manifests -> direct root (path m) -> t' !! path m = t !! path m) /\
    (forall q, (forall p, p ∈ Gc.gc_delete plan -> doomed t p q = false) -> t' !! q = t !! q) /\
    (forall p, p ∈ Gc.gc_delete plan -> t' !! p = None).
Proof.
  intros Hplan Hnd Hent. unfold Gc.for_snapshot_dir_with_retention, mbind, result_bind in Hplan.
  cbn [map_err] in Hplan. cbv zeta in Hplan.
  set (keep := list_to_set (path <$> manifests)) in *.
  destruct (Gc.collect_unreferenced keep min_age now (Ok <$> entries) []) as [l|] eqn:El; [|done].
  apply collect_spec in El. injection Hplan as <-. cbn [Gc.gc_delete]. cbn [app] in El.
  assert (Hin : forall p, p ∈ sort_paths l <-> exists e, e ∈ entries /\ Gc.ge_path e = p /\ collectable keep min_age now e = true).
  { intros p. rewrite (sort_paths_perm l), El, list_elem_of_fmap. setoid_rewrite list_elem_of_In.
    setoid_rewrite filter_In. naive_solver. }
  split; [exact Hin|].
  assert (Hndl : NoDup (sort_paths l)).
  { rewrite (sort_paths_perm l), El. by apply NoDup_filter_fmap. }
  destruct (gc_run root (sort_paths l) [] t Hndl) as (t' & Hrun & Ht').
  { intros p (e & He & <- & _)%Hin. by apply Hent. }
  exists t'. split; [exact Hrun|]. assert (Hkeep : forall q, (forall p, p ∈ sort_paths l -> doomed t p q = false) -> t' !! q = t !! q).
  { intros q Hq. rewrite Ht'. replace (existsb _ _) with false; [done|]. symmetry. apply not_true_iff_false.
    rewrite existsb_exists. intros (p & Hp & Hd). rewrite Hq in Hd; [done|]. by apply list_elem_of_In. }
  split_and!; [|exact Hkeep|].
  - intros m Hm Hdir. apply Hkeep. intros p (e & He & <- & Hc)%Hin. unfold doomed.
    rewrite (direct_not_inside root (Gc.ge_path e)), andb_false_r, orb_false_r; [|by apply Hent|done].
    apply String.eqb_neq. intros Heq. unfold collectable in Hc. destruct (Gc.ge_meta e); [|done].
    apply andb_true_iff in Hc as [[[Hk _]%andb_true_iff _]%andb_true_iff _]. apply bool_decide_eq_true_1 in Hk.
    apply Hk. unfold keep. apply elem_of_list_to_set. rewrite <- Heq. by apply list_elem_of_fmap_2.
  - intros p Hp. rewrite Ht'. replace (existsb _ _) with true; [done|]. symmetry. apply existsb_exists.
    exists p. split; [by apply list_elem_of_In|]. unfold doomed. by rewrite String.eqb_refl.
Qed.
Definition demo_snapshots : gmap string bool :=
  list_to_map [("/s/a.snap"%string, false); ("/s/b"%string, true); ("/s/b/x"%string, false);
               ("/s/a.integrity.json"%string, false)].
Definition demo_gc_entry (p : string) (dir : bool) : Gc.GcEntry :=
  Gc.mk_gc_entry p (Ok (Gc.mk_gc_meta (negb dir) dir (Ok 0))).
Definition demo_listing : list Gc.GcEntry :=
  [demo_gc_entry "/s/b" true; demo_gc_entry "/s/a.snap" false].
Lemma gc_keeps_referenced_witness :
  let plan := Gc.mk_gc_plan "/s" {["/s/a.snap"%string]} ["/s/b"%string] in
  exists t', Gc.gc_execute plan demo_snapshots [] = (t', Ok ["/s/b"%string]) /\
    t' !! "/s/a.snap"%string = Some false /\ t' !! "/s/b"%string = None.
Proof.
  destruct (gc_keeps_referenced "/s" [manifest_base "a" "/s/a.snap"] 5 10 demo_listing demo_snapshots
    (Gc.mk_gc_plan "/s" {["/s/a.snap"%string]} ["/s/b"%string])) as (_ & t' & Hrun & Hk & _ & Hd).
  - vm_compute. reflexivity.
  - repeat constructor; set_solver.
  - intros e [->|[->|Hn%elem_of_nil]%elem_of_cons]%elem_of_cons; [..|done]; (split; [|vm_compute; eauto]).
    + exists "b"%string. split; reflexivity.
    + exists "a.snap"%string. split; reflexivity.
  - exists t'. split; [exact Hrun|]. split.
    + change (t' !! path (manifest_base "a" "/s/a.snap") = Some false).
      rewrite (Hk (manifest_base "a" "/s/a.snap")); [vm_compute; reflexivity|apply list_elem_of_here|].
      exists "a.snap"%string. split; reflexivity.
    + apply Hd. apply list_elem_of_here.
Defined.
(** The integrity record of a referenced artifact is not referenced itself: it
    is collected as soon as it is old enough. *)
Lemma integrity_sidecar_is_collected :
  let artifact := "/s/a.snap"%string in
  let sidecar := with_extension artifact "integrity.json" in
  match Gc.for_snapshot_dir_with_retention "/s" [manifest_base "a" artifact] 5 10
          (Ok [Ok (demo_gc_entry artifact false); Ok (demo_gc_entry sidecar false)]) with
  | Ok plan => Gc.gc_delete plan = [sidecar]
  | Err _ => False
  end.
Proof. vm_compute. reflexivity. Qed.
(** An artifact below a directory of the root is deleted with the directory. *)
Lemma nested_artifact_is_deleted :
  match Gc.for_snapshot_dir_with_retention "/s" [manifest_base "x" "/s/b/x"] 0 10
          (Ok [Ok (demo_gc_entry "/s/b" true)]) with
  | Ok plan => (Gc.gc_execute plan demo_snapshots []).1 !! "/s/b/x"%string = None
  | Err _ => False
  end.
Proof. vm_compute. reflexivity. Qed.
(** A machine whose heartbeat is stale is recovered by one plan and cleaned up
    by the other. *)
Lemma stale_machine_is_recovered_and_cleaned id hb timeout :
  id <> EmptyString -> timeout <= hb ->
  let s := Restart.active_vm Restart.scan_new id hb in
  Restart.decision_for (Restart.reconciliation_plan s) id = Some Restart.Recover /\
  Restart.cleanup_ids (Restart.stuck_vm_cleanup_plan s timeout) = [id].
Proof.
  intros Hid%is_empty_false Hle s. unfold Restart.decision_for, Restart.cleanup_ids,
    Restart.reconciliation_plan, Restart.stuck_vm_cleanup_plan, Restart.from_observations, Restart.from_records. cbn.
  rewrite String.eqb_refl. unfold Restart.reconcile, Restart.stuck_decision. cbn. rewrite Hid.
  replace (timeout <=? hb) with true by lia. done.
Qed.
