(* ===== verification/Envd.v ===== *)
(** * Guest process protocol ([crates/envd/src/process.rs])

    The data exchanged with the process service of a guest, and the event
    stream made from the output of a finished process.  A channel is its
    capacity and the messages sent and not yet received. *)
From S2P Require Import Prelude BTree.

Record EnvdPtySize := mk_pty_size { pty_cols : Z; pty_rows : Z }.
Record EnvdProcessStartRequest := mk_process_start {
  ps_cmd : string;
  ps_args : list string;
  ps_envs : list (string * string);
  ps_cwd : option string;
  ps_tag : option string;
  ps_stdin : option bool;
  ps_pty : option EnvdPtySize
}.
Record EnvdProcessInfo := mk_process_info {
  pi_pid : Z;
  pi_tag : option string;
  pi_cmd : string;
  pi_args : list string;
  pi_envs : list (string * string);
  pi_cwd : option string
}.
Inductive EnvdProcessSelector := SelectPid (pid : Z) | SelectTag (tag : string).
Inductive EnvdProcessInput := InputStdin (data : list Z) | InputPty (data : list Z).
Inductive EnvdProcessSignal := SignalUnspecified | Sigterm | Sigkill | SignalUnknown (n : Z).
Record EnvdProcessOutput := mk_process_output {
  po_pid : Z;
  po_stdout : list Z;
  po_stderr : list Z;
  po_pty : list Z;
  po_exit_code : Z;
  po_exited : bool;
  po_status : string;
  po_error : option string
}.
Inductive EnvdProcessStreamEvent :=
| EvStart (pid : Z)
| EvStdout (data : list Z)
| EvStderr (data : list Z)
| EvPty (data : list Z)
| EvEnd (exit_code : Z) (exited : bool) (status : string) (error : option string).

(** A bounded channel: [try_send] fails when it is full. *)
Record channel (A : Type) := mk_channel { ch_capacity : Z; ch_queue : list A }.
Arguments mk_channel {A} ch_capacity ch_queue.
Arguments ch_capacity {A} c.
Arguments ch_queue {A} c.
Definition try_send {A} (c : channel A) (a : A) : option (channel A) :=
  if Z.of_nat (length (ch_queue c)) <? ch_capacity c
  then Some (mk_channel (ch_capacity c) (ch_queue c ++ [a])) else None.
Definition recv {A} (c : channel A) : channel A * option A :=
  match ch_queue c with
  | [] => (c, None)
  | a :: q => (mk_channel (ch_capacity c) q, Some a)
  end.
(** [sender.try_send(..).expect(..)] for every element. *)
Fixpoint send_all {E A} (c : channel A) (l : list A) : exec E (channel A) :=
  match l with
  | [] => Done c
  | a :: l => c ← unwrap (try_send c a); send_all c l
  end.

Definition process_output_events (o : EnvdProcessOutput) : list EnvdProcessStreamEvent :=
  [EvStart (po_pid o)]
  ++ (if decide (po_stdout o = []) then [] else [EvStdout (po_stdout o)])
  ++ (if decide (po_stderr o = []) then [] else [EvStderr (po_stderr o)])
  ++ (if decide (po_pty o = []) then [] else [EvPty (po_pty o)])
  ++ [EvEnd (po_exit_code o) (po_exited o) (po_status o) (po_error o)].
Definition from_output {E} (o : EnvdProcessOutput) : exec E (channel EnvdProcessStreamEvent) :=
  send_all (mk_channel 8 []) (process_output_events o).

Inductive EnvdFilesystemEventType := FsCreate | FsWrite | FsRemove | FsRename | FsChmod.
Record EnvdFilesystemEvent := mk_fs_event { fe_name : string; fe_type : EnvdFilesystemEventType }.
Definition from_events {E} (events : list EnvdFilesystemEvent) : exec E (channel EnvdFilesystemEvent) :=
  send_all (mk_channel (Z.max (sat_add 64 (Z.of_nat (length events)) 1) 1) []) events.

(** ** The streams never overflow their channels *)
Lemma send_all_fits {E A} (l : list A) : forall c : channel A,
  Z.of_nat (length (ch_queue c) + length l) <= ch_capacity c ->
  send_all c l = Done (E:=E) (mk_channel (ch_capacity c) (ch_queue c ++ l)).
Proof.
  induction l as [|a l IH]; intros [cap q]; cbn [send_all ch_queue ch_capacity length]; intros H;
    [by rewrite app_nil_r|].
  unfold try_send. cbn [ch_queue ch_capacity]. replace (_ <? cap) with true by lia. cbn.
  rewrite IH by (cbn; rewrite length_app; cbn; lia). cbn. by rewrite <- app_assoc.
Qed.
Lemma from_output_total {E} o : from_output (E:=E) o = Done (mk_channel 8 (process_output_events o)).
Proof.
  apply send_all_fits. cbn. unfold process_output_events. rewrite !length_app.
  repeat case_decide; cbn; lia.
Qed.
Lemma from_events_total {E} events : in_uint 64 (Z.of_nat (length events) + 1) ->
  exists cap, from_events (E:=E) events = Done (mk_channel cap events).
Proof. intros H. eexists. apply send_all_fits. cbn. uint_lia. Qed.
