(* ===== verification/NodeState.v ===== *)
(** * State of a single node ([crates/single-node/src/{model,state}.rs])

    The records kept for sessions and snapshots, the in-memory store behind
    its locks, and its files: JSON documents replaced by a rename.  The JSON
    encoding ([serde_json]) is a class with its round trip as law. *)
From S2P Require Import Prelude HostPaths HostFs Types Capacity Scheduler.
Import Sizes.

(** ** Records *)
Inductive SingleNodeRuntimeMode := SingleVmBackedContainer.
(** Durations are nanoseconds. *)
Definition as_secs (d : Z) : Z := d / 1000000000.
Definition from_mins (n : Z) : Z := n * 60 * 1000000000.
Record SingleNodeCreateRequest := mk_create_request {
  cr_sandbox_id : string;
  cr_template_id : string;
  cr_resources : SandboxResources;
  cr_runtime_mode : SingleNodeRuntimeMode;
  cr_timeout : option Z;
  cr_env : gmap string string
}.
Definition create_request_new (sandbox_id template_id : string) (r : SandboxResources) : SingleNodeCreateRequest :=
  mk_create_request sandbox_id template_id r SingleVmBackedContainer None ∅.
Definition with_timeout (r : SingleNodeCreateRequest) (timeout : Z) : SingleNodeCreateRequest :=
  mk_create_request r.(cr_sandbox_id) r.(cr_template_id) r.(cr_resources) r.(cr_runtime_mode) (Some timeout) r.(cr_env).
Definition with_env (r : SingleNodeCreateRequest) (key value : string) : SingleNodeCreateRequest :=
  mk_create_request r.(cr_sandbox_id) r.(cr_template_id) r.(cr_resources) r.(cr_runtime_mode) r.(cr_timeout)
    (<[key := value]> r.(cr_env)).

Inductive SandboxSessionState := Creating | Running | Stopping | Stopped.
Record SandboxSession := mk_session { ss_sandbox_id : string; ss_state : SandboxSessionState }.
Record RuntimeCreatedSandbox := mk_created {
  rc_sandbox_id : string;
  rc_client_id : string;
  rc_envd_access_token : option string;
  rc_traffic_access_token : option string
}.
Record TemplateMetadata := mk_template_metadata {
  tm_envs : gmap string string;
  tm_start_cmd : option string;
  tm_ready_cmd : option string
}.
Definition template_metadata_default : TemplateMetadata := mk_template_metadata ∅ None None.
Definition template_metadata_is_empty (m : TemplateMetadata) : bool :=
  bool_decide (m.(tm_envs) = ∅) && bool_decide (m.(tm_start_cmd) = None) && bool_decide (m.(tm_ready_cmd) = None).
Record SnapshotRecord := mk_snapshot_record {
  sr_snapshot_id : string;
  sr_source_sandbox_id : string;
  sr_names : list string;
  sr_location : option string;
  sr_staging_dir : option string;
  sr_machine_identifier : option (list Z);
  sr_network_macs : option (list string);
  sr_template_metadata : TemplateMetadata
}.
Record RuntimeSnapshotRef := mk_snapshot_ref {
  rs_snapshot_id : string;
  rs_source_sandbox_id : option string;
  rs_location : option string;
  rs_staging_dir : option string;
  rs_machine_identifier : option (list Z);
  rs_network_macs : option (list string)
}.
Record CommandRequest := mk_command_request {
  cmd_command : string;
  cmd_cwd : option string;
  cmd_envs : gmap string string;
  cmd_user : option string;
  cmd_stdin : list Z
}.
Definition command_request_new (command : string) : CommandRequest :=
  mk_command_request command None ∅ None [].
Record CommandOutput := mk_command_output { co_stdout : list Z; co_stderr : list Z; co_exit_code : Z }.
Definition command_success (o : CommandOutput) : bool := co_exit_code o =? 0.
Record LogEvent := mk_log_event { ev_timestamp_unix_seconds : Z; ev_message : string; ev_source : string }.
(** [clock] is the time read while the event is made. *)
Definition log_event_new (clock : Z) (message : string) : LogEvent := mk_log_event clock message "single-node".
Record ActiveSessionRecord := mk_active {
  as_sandbox_id : string;
  as_template_id : string;
  as_client_id : string;
  as_envd_access_token : option string;
  as_started_at : Z;
  as_end_at : Z;
  as_resources : SandboxResources;
  as_runtime_attached : bool
}.

(** ** The in-memory store *)
Record Locked (A : Type) := mk_locked { guarded : A; lock_poisoned : bool }.
Arguments mk_locked {A} guarded lock_poisoned.
Arguments guarded {A} l.
Arguments lock_poisoned {A} l.
Definition lock_named {A} (what : string) (l : Locked A) : result Error A :=
  if lock_poisoned l then Err (StatePersistenceFailed ("single-node " +:+ what +:+ " state lock poisoned"))
  else Ok (guarded l).
Abbreviation Logs := (gmap string (list LogEvent)).
Record StateStore := mk_store {
  st_active : Locked (list ActiveSessionRecord);
  st_snapshots : Locked (list SnapshotRecord);
  st_logs : Locked Logs
}.
Definition from_records (active : list ActiveSessionRecord) (snapshots : list SnapshotRecord) (logs : Logs) : StateStore :=
  mk_store (mk_locked active false) (mk_locked snapshots false) (mk_locked logs false).
Definition store_new : StateStore := from_records [] [] ∅.

(** Computations on the store: the store survives an error. *)
Definition SM (A : Type) : Type := StateStore -> StateStore * result Error A.
#[global] Instance SM_ret : MRet SM := fun A a s => (s, Ok a).
#[global] Instance SM_bind : MBind SM := fun A B k m s =>
  match m s with (s', Ok a) => k a s' | (s', Err e) => (s', Err e) end.
Definition load_active : SM (list ActiveSessionRecord) := fun s => (s, lock_named "active" s.(st_active)).
Definition load_snapshots : SM (list SnapshotRecord) := fun s => (s, lock_named "snapshot" s.(st_snapshots)).
Definition load_logs : SM Logs := fun s => (s, lock_named "log" s.(st_logs)).
Definition save_active (l : list ActiveSessionRecord) : SM unit := fun s =>
  match lock_named "active" s.(st_active) with
  | Err e => (s, Err e)
  | Ok _ => (mk_store (mk_locked l (lock_poisoned s.(st_active))) s.(st_snapshots) s.(st_logs), Ok tt)
  end.
Definition save_snapshots (l : list SnapshotRecord) : SM unit := fun s =>
  match lock_named "snapshot" s.(st_snapshots) with
  | Err e => (s, Err e)
  | Ok _ => (mk_store s.(st_active) (mk_locked l (lock_poisoned s.(st_snapshots))) s.(st_logs), Ok tt)
  end.
Definition save_logs (l : Logs) : SM unit := fun s =>
  match lock_named "log" s.(st_logs) with
  | Err e => (s, Err e)
  | Ok _ => (mk_store s.(st_active) s.(st_snapshots) (mk_locked l (lock_poisoned s.(st_logs))), Ok tt)
  end.
Definition reconcile_active_entries (now : Z) : SM (list ActiveSessionRecord) :=
  active ← load_active;
  let reconciled := List.filter (fun session => now <? session.(as_end_at)) active in
  _ ← save_active reconciled;
  mret reconciled.

(** ** JSON documents ([serde_json]) *)
Class Json (A : Type) := {
  to_vec_pretty : A -> result string (list Z);
  from_slice : list Z -> result string A;
  json_default : A
}.
(** A value that was serialized is read back. *)
Class JsonRoundtrip (A : Type) `{Json A} : Prop :=
  json_roundtrip : forall a : A, exists d, to_vec_pretty a = Ok d /\ from_slice d = Ok a.

Definition persistence (what : string) (e : host_error) : Error :=
  StatePersistenceFailed (what +:+ ": " +:+ host_message e).
Definition create_dir_all (dir : string) : HM Error unit :=
  call (persistence ("create single-node state dir " +:+ dir)) Some.
Definition hm_lift {A} (r : result Error A) : HM Error A := fun w => (w, r).

(** ** The files of the store *)
Definition active_path (dir : string) : string := path_join dir "active.json".
Definition logs_path (dir : string) : string := path_join dir "logs.json".
Definition snapshots_path (dir : string) : string := path_join dir "snapshots.json".
Definition snapshot_artifacts_dir (dir : string) : string := path_join dir "snapshot-artifacts".
Definition write_json {A} `{Json A} (path : string) (value : A) : HM Error unit :=
  let tmp_path := with_extension path "json.tmp" in
  data ← hm_lift (map_err (fun e => StatePersistenceFailed ("serialize single-node state: " +:+ e)) (to_vec_pretty value));
  _ ← write_contents (persistence ("write single-node state " +:+ tmp_path)) tmp_path data;
  rename (persistence ("replace single-node state " +:+ path)) tmp_path path.
Definition read_json {A} `{Json A} (path : string) : HM Error A :=
  read ← read_file path;
  match read with
  | Ok data =>
      hm_lift (map_err (fun e => StatePersistenceFailed ("parse single-node state " +:+ path +:+ ": " +:+ e)) (from_slice data))
  | Err e =>
      match host_kind e with
      | IoNotFound => mret json_default
      | _ => fail (persistence ("read single-node state " +:+ path) e)
      end
  end.

Section FileStateStore.
Context `{Json (list ActiveSessionRecord), Json (list SnapshotRecord), Json Logs}.
(** The order in which [read_dir] lists the files of a directory. *)
Context (order : list string -> list string).
(** [self.dir]. *)
Context (dir : string).

Definition file_store_new : HM Error unit := create_dir_all dir.
Definition file_load_active : HM Error (list ActiveSessionRecord) := read_json (active_path dir).
Definition file_save_active (l : list ActiveSessionRecord) : HM Error unit := write_json (active_path dir) l.
Definition file_load_snapshots : HM Error (list SnapshotRecord) := read_json (snapshots_path dir).
Definition file_save_snapshots (l : list SnapshotRecord) : HM Error unit := write_json (snapshots_path dir) l.
Definition file_load_logs : HM Error Logs := read_json (logs_path dir).
Definition file_save_logs (l : Logs) : HM Error unit := write_json (logs_path dir) l.
Definition load_state : HM Error StateStore :=
  active ← file_load_active;
  snapshots ← file_load_snapshots;
  logs ← file_load_logs;
  mret (from_records active snapshots logs).
Definition save_state (s : StateStore) : HM Error unit :=
  active ← hm_lift (load_active s).2;
  snapshots ← hm_lift (load_snapshots s).2;
  logs ← hm_lift (load_logs s).2;
  _ ← file_save_active active;
  _ ← file_save_snapshots snapshots;
  file_save_logs logs.
Definition file_reconcile_active_entries (now : Z) : HM Error (list ActiveSessionRecord) :=
  active ← file_load_active;
  reconciled ← hm_lift (reconcile_active_entries now (from_records active [] ∅)).2;
  _ ← file_save_active reconciled;
  mret reconciled.

(** *** Snapshot artifacts *)
Definition is_managed_snapshot_artifact (path : string) : bool :=
  bool_decide (path_parent path = Some (snapshot_artifacts_dir dir)).
Definition files_in (d : string) (m : Files) : list string :=
  order (List.filter (fun p => bool_decide (path_parent p = Some d)) (map_to_list m).*1).
(** [fs::read_dir]: a missing directory lists nothing, like an empty one. *)
Definition read_dir (d : string) : HM Error (result host_error (list string)) := fun w =>
  let w' := mk_world w.(files) (tail w.(faults)) in
  match head w.(faults) with
  | Some (Some flt) => (w', Ok (Err flt.(fault_error)))
  | _ => (w', Ok (Ok (files_in d w.(files))))
  end.
Fixpoint delete_orphans (artifact_dir : string) (referenced : gset string) (entries : list string) : HM Error unit :=
  match entries with
  | [] => mret tt
  | path :: entries =>
      _ ← call (persistence ("read single-node snapshot artifact entry " +:+ artifact_dir)) Some;
      is_file ← path_exists path;
      _ ← (if (is_file : bool) && negb (bool_decide (path ∈ referenced))
           then remove_file (persistence ("delete orphan single-node snapshot artifact " +:+ path)) path
           else mret tt);
      delete_orphans artifact_dir referenced entries
  end.
Definition delete_orphan_snapshot_artifacts (referenced : gset string) : HM Error unit :=
  let artifact_dir := snapshot_artifacts_dir dir in
  entries ← read_dir artifact_dir;
  match entries with
  | Ok entries => delete_orphans artifact_dir referenced entries
  | Err e =>
      match host_kind e with
      | IoNotFound => mret tt
      | _ => fail (persistence ("read single-node snapshot artifact dir " +:+ artifact_dir) e)
      end
  end.
(** The loop over the records: the kept ones and the referenced artifacts. *)
Fixpoint reconcile_records (present : string -> bool) (snapshots reconciled : list SnapshotRecord) (referenced : gset string)
    : list SnapshotRecord * gset string :=
  match snapshots with
  | [] => (reconciled, referenced)
  | snapshot :: snapshots =>
      match snapshot.(sr_location) with
      | None => reconcile_records present snapshots (reconciled ++ [snapshot]) referenced
      | Some location =>
          let managed := is_managed_snapshot_artifact location in
          if present location
          then reconcile_records present snapshots (reconciled ++ [snapshot])
                 (if managed then {[location]} ∪ referenced else referenced)
          else if negb managed then reconcile_records present snapshots (reconciled ++ [snapshot]) referenced
          else reconcile_records present snapshots reconciled referenced
      end
  end.
(** [Path::exists]: a file, or a directory some file lies below. *)
Definition present_path (m : Files) (p : string) : bool :=
  bool_decide (is_Some (m !! p)) ||
  existsb (fun q => match strip_prefix (p +:+ "/") q with Some _ => true | None => false end) (map_to_list m).*1.
Definition reconcile_snapshot_artifacts (snapshots : list SnapshotRecord) : HM Error (list SnapshotRecord) := fun w =>
  let '(reconciled, referenced) := reconcile_records (present_path w.(files)) snapshots [] ∅ in
  (_ ← delete_orphan_snapshot_artifacts referenced;
   _ ← (if decide (length reconciled = length snapshots) then mret tt else file_save_snapshots reconciled);
   mret reconciled) w.
End FileStateStore.

(** ** The store with its files *)
(** Computations on the store and the host together. *)
Definition PM (A : Type) : Type := StateStore * World -> (StateStore * World) * result Error A.
#[global] Instance PM_ret : MRet PM := fun A a s => (s, Ok a).
#[global] Instance PM_bind : MBind PM := fun A B k m s =>
  match m s with (s', Ok a) => k a s' | (s', Err e) => (s', Err e) end.
Definition on_store {A} (m : SM A) : PM A := fun '(s, w) => let '(s', r) := m s in ((s', w), r).
Definition on_host {A} (m : HM Error A) : PM A := fun '(s, w) => let '(w', r) := m w in ((s, w'), r).
(** [m.inspect_err(|_| { let _ = undo; })]: the error is kept. *)
Definition or_undo {A B} (m : PM A) (undo : PM B) : PM A := fun s =>
  match m s with
  | (s', Ok a) => (s', Ok a)
  | (s', Err e) => ((undo s').1, Err e)
  end.

(** ** Logs *)
Definition MAX_ENTRIES_PER_SANDBOX : Z := 1000.
Section LogStore.
Context `{Json Logs}.
(** [self.files]. *)
Context (files : option string).
Definition persist_logs : PM unit :=
  match files with
  | Some dir => logs ← on_store load_logs; on_host (file_save_logs dir logs)
  | None => mret tt
  end.
Definition push_bounded (entries : list LogEvent) (event : LogEvent) : list LogEvent :=
  let entries := entries ++ [event] in
  let overflow := sat_sub (Z.of_nat (length entries)) MAX_ENTRIES_PER_SANDBOX in
  if 0 <? overflow then drop (Z.to_nat overflow) entries else entries.
Definition record_log (clock : Z) (sandbox_id message : string) : PM unit :=
  logs ← on_store load_logs;
  let entries := push_bounded (default [] (logs !! sandbox_id)) (log_event_new clock message) in
  _ ← on_store (save_logs (<[sandbox_id := entries]> logs));
  persist_logs.
Definition remove_sandbox_logs (sandbox_id : string) : PM unit :=
  logs ← on_store load_logs;
  _ ← on_store (save_logs (delete sandbox_id logs));
  persist_logs.
End LogStore.
(** [usize::try_from(cursor.unwrap_or(0).max(0))] etc., on 64 bits. *)
Definition log_entries (sandbox_id : string) (cursor : option Z) (limit : Z) : SM (list LogEvent) :=
  logs ← load_logs;
  let start := Z.max (default 0 cursor) 0 in
  let limit := Z.max limit 0 in
  let limit := if limit =? 0 then max_uint 64 else limit in
  mret (match logs !! sandbox_id with
        | Some entries => firstn (Z.to_nat (Z.min limit (Z.of_nat (length entries))))
                            (skipn (Z.to_nat (Z.min start (Z.of_nat (length entries)))) entries)
        | None => []
        end).

(** ** Paths of the store *)
Lemma join_tmp dir stem : (0 < String.length stem)%nat -> contains "/" stem = false ->
  with_extension (path_join dir (stem +:+ ".json")) "json.tmp" = path_join dir (stem +:+ ".json.tmp").
Proof.
  intros Hl Hs. destruct (path_join_prefix dir (stem +:+ ".json")) as (d & Hd & -> & Hj). rewrite Hj.
  unfold with_extension.
  destruct (file_name_app d (stem +:+ ".json") Hd) as [-> ->].
  { by rewrite contains_app, Hs. } { rewrite length_append. cbn. lia. }
  assert (Hne : stem <> EmptyString) by (intros ->; cbn in Hl; lia).
  destruct (split_name_ext stem "json" Hne eq_refl) as [E|E].
  - change (stem +:+ ".json") with (stem +:+ "." +:+ "json"). by rewrite E.
  - apply (f_equal String.length) in E. rewrite !length_append in E. cbn in E. lia.
Qed.

(** ** A document is replaced as a whole *)
Lemma write_json_cases `{Json A} path (v : A) w w' r :
  with_extension path "json.tmp" <> path -> write_json path v w = (w', r) ->
  (forall p, p <> path -> p <> with_extension path "json.tmp" -> w'.(files) !! p = w.(files) !! p) /\
  match r with
  | Ok _ => exists d, to_vec_pretty v = Ok d /\ w'.(files) !! path = Some d
  | Err _ => w'.(files) !! path = w.(files) !! path
  end.
Proof.
  unfold write_json. set (tmp := with_extension path "json.tmp"). intros Hne Hw. cbv zeta in Hw.
  assert (Hl : forall p, p <> path -> p <> tmp -> leaves p (write_json path v)).
  { intros p H1 H2. unfold write_json. fold tmp. apply leaves_bind; [done|]. intros d.
    apply leaves_bind; [by apply leaves_write|]. intros _. by apply leaves_rename. }
  split; [intros p H1 H2; specialize (Hl p H1 H2 w); unfold write_json in Hl; fold tmp in Hl; cbv zeta in Hl; by rewrite Hw in Hl|].
  rewrite bind_hm in Hw. unfold hm_lift in Hw. destruct (to_vec_pretty v) as [d|e] eqn:Ed; cbn [map_err] in Hw;
    [|by injection Hw as <- <-].
  rewrite bind_hm in Hw.
  pose proof (leaves_write (persistence ("write single-node state " +:+ tmp)) path tmp d (not_eq_sym Hne) w) as Hp.
  destruct (write_contents _ tmp d w) as [w1 [u|e]] eqn:E1; cbn [fst] in Hp; [|by injection Hw as <- <-].
  apply write_success in E1. destruct r as [u'|e].
  - destruct u'. apply rename_success in Hw as (x & Hx & ->). rewrite E1, lookup_insert_eq in Hx. injection Hx as <-.
    exists d. split; [done|]. apply lookup_insert_eq.
  - unfold rename in Hw. edestruct (call_cases (persistence ("replace single-node state " +:+ path)))
      as [(w2 & e2 & H2 & Hf)|(m2 & fs & H2 & _)]; rewrite H2 in Hw; [|done]. injection Hw as <- _. congruence.
Qed.
Lemma write_json_ok `{Json A, !JsonRoundtrip A} path (v : A) m :
  exists m', write_json path v (mk_world m []) = (mk_world m' [], Ok tt).
Proof.
  destruct (json_roundtrip v) as (d & Hd & _). eexists. unfold write_json. cbv zeta.
  rewrite bind_hm. unfold hm_lift. rewrite Hd. cbn [map_err]. rewrite bind_hm, write_ok.
  apply (rename_ok _ _ _ _ d). apply lookup_insert_eq.
Qed.
(** What reading a document gives when the host does not fail. *)
Definition document `{Json A} (m : Files) (path : string) : result Error A :=
  match m !! path with
  | Some data => map_err (fun e => StatePersistenceFailed ("parse single-node state " +:+ path +:+ ": " +:+ e)) (from_slice data)
  | None => Ok json_default
  end.
Lemma read_json_document `{Json A} path w : head w.(faults) = None \/ head w.(faults) = Some None ->
  read_json path w = (mk_world w.(files) (tail w.(faults)), document (A:=A) w.(files) path).
Proof.
  intros Hf. unfold read_json. rewrite bind_hm. unfold read_file, document.
  destruct Hf as [-> | ->]; destruct (w.(files) !! path); done.
Qed.
Lemma join_ne dir n n' : n <> n' -> path_join dir n <> path_join dir n'.
Proof. intros Hne E. by apply path_join_inj in E. Qed.
Lemma active_tmp dir : with_extension (active_path dir) "json.tmp" = path_join dir "active.json.tmp".
Proof. by apply (join_tmp dir "active"); [cbn; lia|]. Qed.
Lemma snapshots_tmp dir : with_extension (snapshots_path dir) "json.tmp" = path_join dir "snapshots.json.tmp".
Proof. by apply (join_tmp dir "snapshots"); [cbn; lia|]. Qed.
Lemma logs_tmp dir : with_extension (logs_path dir) "json.tmp" = path_join dir "logs.json.tmp".
Proof. by apply (join_tmp dir "logs"); [cbn; lia|]. Qed.
(** The documents of one directory do not share a file. *)
Ltac store_paths :=
  unfold active_path, snapshots_path, logs_path in *;
  match goal with |- path_join _ _ <> path_join _ _ => apply join_ne; discriminate end.

Section Documents.
Context `{Json (list ActiveSessionRecord), Json (list SnapshotRecord), Json Logs} (dir : string).
Context `{!JsonRoundtrip (list ActiveSessionRecord), !JsonRoundtrip (list SnapshotRecord), !JsonRoundtrip Logs}.
(** Writing one document: the others stay, and the new one is read back. *)
Lemma save_document `{Json A, !JsonRoundtrip A} stem (v : A) w w' r :
  (0 < String.length stem)%nat -> contains "/" stem = false ->
  write_json (path_join dir (stem +:+ ".json")) v w = (w', r) ->
  (forall p, p <> path_join dir (stem +:+ ".json") -> p <> path_join dir (stem +:+ ".json.tmp") ->
     w'.(files) !! p = w.(files) !! p) /\
  document (A:=A) w'.(files) (path_join dir (stem +:+ ".json"))
  = match r with Ok _ => Ok v | Err _ => document w.(files) (path_join dir (stem +:+ ".json")) end.
Proof.
  intros Hl Hs E. apply write_json_cases in E as [Ho Hr]; rewrite join_tmp in * by done.
  - split; [exact Ho|]. unfold document. destruct r as [u|e]; [|by rewrite Hr].
    destruct Hr as (d & Hd & ->). destruct (json_roundtrip v) as (d' & Hd' & Hback).
    rewrite Hd in Hd'. injection Hd' as <-. by rewrite Hback.
  - apply join_ne. intros E'%append_inj_l. discriminate.
Qed.
Lemma save_active_document l w w' r : file_save_active dir l w = (w', r) ->
  (forall p, p <> active_path dir -> p <> path_join dir "active.json.tmp" -> w'.(files) !! p = w.(files) !! p) /\
  document w'.(files) (active_path dir) = match r with Ok _ => Ok l | Err _ => document w.(files) (active_path dir) end.
Proof. intros E. by apply (save_document "active") in E; [|cbn; lia|]. Qed.
Lemma save_snapshots_document l w w' r : file_save_snapshots dir l w = (w', r) ->
  (forall p, p <> snapshots_path dir -> p <> path_join dir "snapshots.json.tmp" -> w'.(files) !! p = w.(files) !! p) /\
  document w'.(files) (snapshots_path dir) = match r with Ok _ => Ok l | Err _ => document w.(files) (snapshots_path dir) end.
Proof. intros E. by apply (save_document "snapshots") in E; [|cbn; lia|]. Qed.
Lemma save_logs_document l w w' r : file_save_logs dir l w = (w', r) ->
  (forall p, p <> logs_path dir -> p <> path_join dir "logs.json.tmp" -> w'.(files) !! p = w.(files) !! p) /\
  document w'.(files) (logs_path dir) = match r with Ok _ => Ok l | Err _ => document w.(files) (logs_path dir) end.
Proof. intros E. by apply (save_document "logs") in E; [|cbn; lia|]. Qed.
Lemma document_ext `{Json A} m m' p : m !! p = m' !! p -> document (A:=A) m p = document m' p.
Proof. unfold document. by intros ->. Qed.
End Documents.

(** The state of a node survives a restart.  Whatever happened before,
    when saving a store (whose locks are sound) to its directory succeeds,
    loading the state back gives the same sessions, snapshots and logs; when
    saving fails, each of the three documents is the old or the new one, never
    a mixture or a part of it, and no other file than the three documents and
    their temporary files has changed. *)
Theorem state_save_load `{Json (list ActiveSessionRecord), Json (list SnapshotRecord), Json Logs}
  `{!JsonRoundtrip (list ActiveSessionRecord), !JsonRoundtrip (list SnapshotRecord), !JsonRoundtrip Logs}
  dir active snapshots logs w w' r :
  save_state dir (from_records active snapshots logs) w = (w', r) ->
  (is_ok r = true -> load_state dir (mk_world w'.(files) []) = (mk_world w'.(files) [], Ok (from_records active snapshots logs))) /\
  (let m := w.(files) in let m' := w'.(files) in
   (document m' (active_path dir) = Ok active \/ document (A:=list ActiveSessionRecord) m' (active_path dir) = document m (active_path dir)) /\
   (document m' (snapshots_path dir) = Ok snapshots \/ document (A:=list SnapshotRecord) m' (snapshots_path dir) = document m (snapshots_path dir)) /\
   (document m' (logs_path dir) = Ok logs \/ document (A:=Logs) m' (logs_path dir) = document m (logs_path dir)) /\
   (forall p, p ∉ [active_path dir; snapshots_path dir; logs_path dir; path_join dir "active.json.tmp";
       path_join dir "snapshots.json.tmp"; path_join dir "logs.json.tmp"] -> m' !! p = m !! p)).
Proof.
  intros E. change (save_state dir (from_records active snapshots logs))
    with (_ ← file_save_active dir active; _ ← file_save_snapshots dir snapshots; file_save_logs dir logs : HM Error unit) in E.
  rewrite bind_hm in E. destruct (file_save_active dir active w) as [w1 r1] eqn:E1.
  apply save_active_document in E1 as [O1 D1]; [|assumption].
  assert (S1 : document (A:=list SnapshotRecord) w1.(files) (snapshots_path dir) = document w.(files) (snapshots_path dir))
    by (apply document_ext, O1; store_paths).
  assert (L1 : document (A:=Logs) w1.(files) (logs_path dir) = document w.(files) (logs_path dir))
    by (apply document_ext, O1; store_paths).
  destruct r1 as [[]|e]; [|injection E as <- <-; cbn zeta; split; [done|]; split_and!; [by right..|];
    intros p Hp; apply O1; set_solver].
  rewrite bind_hm in E. destruct (file_save_snapshots dir snapshots w1) as [w2 r2] eqn:E2.
  apply save_snapshots_document in E2 as [O2 D2]; [|assumption].
  assert (A2 : document w2.(files) (active_path dir) = Ok active)
    by (rewrite <- D1; apply document_ext, O2; store_paths).
  assert (L2 : document (A:=Logs) w2.(files) (logs_path dir) = document w.(files) (logs_path dir))
    by (rewrite <- L1; apply document_ext, O2; store_paths).
  destruct r2 as [[]|e]; [|injection E as <- <-; cbn zeta; split; [done|]; split_and!; [by left|right; congruence|by right|];
    intros p Hp; rewrite O2, O1 by set_solver; done].
  apply save_logs_document in E as [O3 D3]; [|assumption].
  assert (A3 : document w'.(files) (active_path dir) = Ok active)
    by (rewrite <- A2; apply document_ext, O3; store_paths).
  assert (S3 : document w'.(files) (snapshots_path dir) = Ok snapshots)
    by (rewrite <- D2; apply document_ext, O3; store_paths).
  cbn zeta. split; [|split_and!; [by left|by left|destruct r; [by left|right; congruence]|]].
  - intros Hr. destruct r as [[]|]; [|done]. unfold load_state, file_load_active, file_load_snapshots, file_load_logs.
    rewrite bind_hm, read_json_document by by left. cbn [files faults tail]. rewrite A3.
    rewrite bind_hm, read_json_document by by left. cbn [files faults tail]. rewrite S3.
    rewrite bind_hm, read_json_document by by left. cbn [files faults tail]. by rewrite D3.
  - intros p Hp. rewrite O3, O2, O1 by set_solver. done.
Qed.

(** ** Reconciling snapshot artifacts *)
Section Artifacts.
Context `{Json (list SnapshotRecord), !JsonRoundtrip (list SnapshotRecord)} (order : list string -> list string) (dir : string).
Definition keeps (m : Files) (s : SnapshotRecord) : bool :=
  match s.(sr_location) with
  | None => true
  | Some location => present_path m location || negb (is_managed_snapshot_artifact dir location)
  end.
Definition references (m : Files) (s : SnapshotRecord) (p : string) : Prop :=
  s.(sr_location) = Some p /\ present_path m p = true /\ is_managed_snapshot_artifact dir p = true.
Lemma reconcile_records_spec m snapshots : forall kept referenced,
  (reconcile_records dir (present_path m) snapshots kept referenced).1 = kept ++ List.filter (keeps m) snapshots /\
  forall p, p ∈ (reconcile_records dir (present_path m) snapshots kept referenced).2 <->
    p ∈ referenced \/ exists s, s ∈ snapshots /\ references m s p.
Proof.
  induction snapshots as [|s snapshots IH]; intros kept referenced; cbn [reconcile_records List.filter].
  { split; [by rewrite app_nil_r|]. intros p. split; [by left|]. intros [|(s & [] %not_elem_of_nil & _)]; done. }
  assert (Hcons : forall p, (exists s', s' ∈ s :: snapshots /\ references m s' p) <->
    references m s p \/ exists s', s' ∈ snapshots /\ references m s' p).
  { intros p. split.
    - intros (s' & Hs & Hr). apply elem_of_cons in Hs as [->|Hs]; eauto.
    - intros [Hr|(s' & Hs & Hr)]; eexists; (split; [|exact Hr]); apply elem_of_cons; auto. }
  setoid_rewrite Hcons. unfold keeps at 1. destruct (sr_location s) as [location|] eqn:El.
  - assert (Hs : forall p, references m s p <-> p = location /\ present_path m location = true /\
      is_managed_snapshot_artifact dir location = true).
    { intros p. unfold references. rewrite El. split; [by intros ([= ->] & ? & ?)|by intros (-> & ? & ?)]. }
    setoid_rewrite Hs.
    destruct (present_path m location), (is_managed_snapshot_artifact dir location); cbn [orb negb];
      edestruct IH as [-> Hr]; (split; [by rewrite <- ?app_assoc|]); intros p; rewrite Hr, ?elem_of_union, ?elem_of_singleton;
      intuition congruence.
  - assert (Hs : forall p, ~ references m s p) by (intros p [? _]; congruence).
    edestruct IH as [-> Hr]. split; [by rewrite <- app_assoc|]. intros p. rewrite Hr. specialize (Hs p). tauto.
Qed.
Lemma leaves_orphans p d referenced entries : (p ∈ referenced \/ p ∉ entries) -> leaves p (delete_orphans d referenced entries).
Proof.
  induction entries as [|q entries IH]; intros Hp; cbn [delete_orphans]; [done|].
  apply leaves_bind; [apply leaves_call; by intros m m' [= <-]|]. intros _.
  apply leaves_bind; [done|]. intros is_file. apply leaves_bind; [|intros _; apply IH; set_solver].
  destruct is_file; [|done]. cbn [andb]. case_bool_decide as Hq; [done|]. cbn [negb].
  apply leaves_remove. intros ->. set_solver.
Qed.
Lemma orphans_deleted d referenced entries : forall m,
  exists m', delete_orphans d referenced entries (mk_world m []) = (mk_world m' [], Ok tt) /\
    forall p, p ∈ entries -> p ∉ referenced -> m' !! p = None.
Proof.
  induction entries as [|q entries IH]; intros m; cbn [delete_orphans]; [exists m; split; [done|set_solver]|].
  rewrite bind_hm. cbn [call call_leaving head tail faults files]. rewrite bind_hm. cbn [path_exists files].
  rewrite bind_hm.
  assert (H1 : exists m1, (if bool_decide (is_Some (m !! q)) && negb (bool_decide (q ∈ referenced))
     then remove_file (persistence ("delete orphan single-node snapshot artifact " +:+ q)) q else mret tt : HM Error unit)
     (mk_world m []) = (mk_world m1 [], Ok tt) /\ (q ∉ referenced -> m1 !! q = None)).
  { case_bool_decide as H1; cbn [andb].
    - destruct H1 as [x Hx]. case_bool_decide as H2; cbn [negb]; [by exists m|].
      exists (delete q m). split; [by apply (remove_ok _ _ _ x)|]. intros _. apply lookup_delete_eq.
    - exists m. split; [done|]. intros _. by apply eq_None_not_Some. }
  destruct H1 as (m1 & -> & Hq). destruct (IH m1) as (m' & E & H'). exists m'. split; [done|].
  intros p Hp Hr. destruct (decide (p ∈ entries)) as [|Hn]; [auto|]. assert (p = q) as -> by set_solver.
  pose proof (leaves_orphans q d referenced entries (or_intror Hn) (mk_world m1 [])) as Hl. rewrite E in Hl. cbn in Hl.
  rewrite Hl. auto.
Qed.
Lemma files_in_spec d m p : (forall l, order l ≡ₚ l) -> p ∈ files_in order d m <-> is_Some (m !! p) /\ path_parent p = Some d.
Proof.
  intros Ho. unfold files_in. rewrite (Ho _), list_elem_of_In, filter_In, bool_decide_eq_true, <- list_elem_of_In.
  f_equiv. rewrite list_elem_of_fmap. split.
  - intros ([q x] & -> & Hx). apply elem_of_map_to_list in Hx. eauto.
  - intros [x Hx]. exists (p, x). split; [done|]. by apply elem_of_map_to_list.
Qed.
Lemma orphan_leaves referenced p w : (forall l, order l ≡ₚ l) ->
  path_parent p <> Some (snapshot_artifacts_dir dir) \/ p ∈ referenced \/ w.(files) !! p = None ->
  (delete_orphan_snapshot_artifacts order dir referenced w).1.(files) !! p = w.(files) !! p.
Proof.
  intros Ho Hp. unfold delete_orphan_snapshot_artifacts. rewrite bind_hm. unfold read_dir.
  assert (Hl : leaves p (delete_orphans (snapshot_artifacts_dir dir) referenced (files_in order (snapshot_artifacts_dir dir) w.(files)))).
  { apply leaves_orphans. destruct Hp as [Hp|[Hp|Hp]]; [right|by left|right]; rewrite files_in_spec by done; intros [[x Hx] Hd]; congruence. }
  destruct (head w.(faults)) as [[flt|]|]; [by destruct (host_kind (fault_error flt))|..]; by rewrite Hl.
Qed.
Lemma orphans_gone referenced m : (forall l, order l ≡ₚ l) ->
  exists m', delete_orphan_snapshot_artifacts order dir referenced (mk_world m []) = (mk_world m' [], Ok tt) /\
    (forall p, path_parent p = Some (snapshot_artifacts_dir dir) -> p ∉ referenced -> m' !! p = None) /\
    (forall p, path_parent p <> Some (snapshot_artifacts_dir dir) \/ p ∈ referenced -> m' !! p = m !! p).
Proof.
  intros Ho.
  destruct (orphans_deleted (snapshot_artifacts_dir dir) referenced (files_in order (snapshot_artifacts_dir dir) m) m) as (m' & E & Hd).
  assert (E' : delete_orphan_snapshot_artifacts order dir referenced (mk_world m []) = (mk_world m' [], Ok tt)) by exact E.
  assert (Hl : forall p, path_parent p <> Some (snapshot_artifacts_dir dir) \/ p ∈ referenced \/ m !! p = None -> m' !! p = m !! p).
  { intros p Hp. pose proof (orphan_leaves referenced p (mk_world m []) Ho Hp) as H'. by rewrite E' in H'. }
  exists m'. split_and!; [done| |].
  - intros p Hp Hr. destruct (m !! p) eqn:Em; [apply Hd; [apply files_in_spec; eauto|done]|]. rewrite Hl; auto.
  - intros p Hp. apply Hl. tauto.
Qed.
(** A file of the managed directory is kept exactly when a kept record names it. *)
Lemma referenced_iff m snapshots p : is_Some (m !! p) -> path_parent p = Some (snapshot_artifacts_dir dir) ->
  (exists s, s ∈ List.filter (keeps m) snapshots /\ s.(sr_location) = Some p) <-> exists s, s ∈ snapshots /\ references m s p.
Proof.
  intros Hp Hd. assert (Hpres : present_path m p = true) by (unfold present_path; by rewrite bool_decide_eq_true_2).
  assert (Hman : is_managed_snapshot_artifact dir p = true) by (unfold is_managed_snapshot_artifact; by rewrite bool_decide_eq_true_2).
  split; intros (s & Hs & Hl).
  - rewrite list_elem_of_In, filter_In, <- list_elem_of_In in Hs. exists s. split; [tauto|]. done.
  - exists s. destruct Hl as (Hl & _). split; [|done]. rewrite list_elem_of_In, filter_In, <- list_elem_of_In. split; [done|].
    unfold keeps. by rewrite Hl, Hpres.
Qed.
End Artifacts.

(** Reconciling snapshot artifacts never loses one that is still named.
    Whatever file system calls fail, every file that is the location of a kept
    record is unchanged (a state document apart), and so is every file outside
    the artifact directory.  Without faults the call succeeds with exactly the
    records whose location is absent, exists or lies outside the managed
    directory, the files left in the managed directory are exactly those such a
    record names, and the snapshot document agrees with the result when a
    record was dropped. *)
Theorem artifacts_reconciled `{Json (list SnapshotRecord), !JsonRoundtrip (list SnapshotRecord)} order dir snapshots w w' r :
  (forall l, order l ≡ₚ l) -> reconcile_snapshot_artifacts order dir snapshots w = (w', r) ->
  let m := w.(files) in
  let kept := List.filter (keeps dir m) snapshots in
  (forall p, p <> snapshots_path dir -> p <> path_join dir "snapshots.json.tmp" ->
     path_parent p <> Some (snapshot_artifacts_dir dir) \/ (exists s, s ∈ kept /\ s.(sr_location) = Some p) ->
     w'.(files) !! p = m !! p) /\
  (w.(faults) = [] ->
     r = Ok kept /\
     (forall p, p <> snapshots_path dir -> p <> path_join dir "snapshots.json.tmp" ->
        path_parent p = Some (snapshot_artifacts_dir dir) ->
        is_Some (w'.(files) !! p) <-> is_Some (m !! p) /\ exists s, s ∈ kept /\ s.(sr_location) = Some p) /\
     (length kept <> length snapshots -> document w'.(files) (snapshots_path dir) = Ok kept)).
Proof.
  intros Ho E m. unfold reconcile_snapshot_artifacts in E. fold m in E.
  destruct (reconcile_records_spec dir m snapshots [] ∅) as [Hk Hr].
  destruct (reconcile_records dir (present_path m) snapshots [] ∅) as [kept referenced]. cbn [fst snd app] in Hk, Hr. subst kept.
  set (kept := List.filter (keeps dir m) snapshots) in *.
  assert (Href : forall p, is_Some (m !! p) -> path_parent p = Some (snapshot_artifacts_dir dir) ->
    (exists s, s ∈ kept /\ s.(sr_location) = Some p) <-> p ∈ referenced).
  { intros p Hp Hd. rewrite Hr. unfold kept. rewrite referenced_iff by done. set_solver. }
  cbn zeta. rewrite bind_hm in E. split.
  - intros p H1 H2 Hp.
    assert (Hp' : path_parent p <> Some (snapshot_artifacts_dir dir) \/ p ∈ referenced \/ m !! p = None).
    { destruct Hp as [Hp|Hp]; [by left|]. destruct (m !! p) eqn:Em; [|tauto].
      destruct (decide (path_parent p = Some (snapshot_artifacts_dir dir))) as [Hd|]; [|tauto]. right; left.
      apply Href; eauto. }
    pose proof (orphan_leaves order dir referenced p w Ho Hp') as Hl.
    destruct (delete_orphan_snapshot_artifacts order dir referenced w) as [w1 [[]|e]]; [|injection E as <- <-; exact Hl].
    rewrite bind_hm in E. cbn [fst] in Hl. fold m in Hl. rewrite <- Hl. case_decide.
    + by injection E as <- <-.
    + destruct (file_save_snapshots dir kept w1) as [w2 r2] eqn:E2. apply save_snapshots_document in E2 as [O2 _]; [|assumption].
      destruct r2 as [[]|e]; injection E as <- <-; by apply O2.
  - intros Hf. destruct w as [m0 fs]. cbn in Hf. subst fs. change (files (mk_world m0 [])) with m0 in m. subst m.
    destruct (orphans_gone order dir referenced m0 Ho) as (m1 & E1 & Hgone & Hstay). rewrite E1, bind_hm in E.
    assert (Hfiles : forall p, path_parent p = Some (snapshot_artifacts_dir dir) ->
      is_Some (m1 !! p) <-> is_Some (m0 !! p) /\ exists s, s ∈ kept /\ s.(sr_location) = Some p).
    { intros p Hd. destruct (decide (p ∈ referenced)) as [Hin|Hn].
      - rewrite Hstay by auto. split; [|tauto]. intros Hp. split; [done|]. by apply Href.
      - rewrite Hgone by done. split; [by intros []|]. intros [Hp Hex]. by apply Href in Hex. }
    case_decide as Hlen.
    + injection E as <- <-. split_and!; [done|intros; by apply Hfiles|done].
    + destruct (write_json_ok (snapshots_path dir) kept m1) as [m2 E2].
      change (write_json _ _) with (file_save_snapshots dir kept) in E2. rewrite E2 in E. injection E as <- <-. apply save_snapshots_document in E2 as [O2 D2]; [|assumption].
      split_and!; [done| |done]. intros p H1 H2 Hd. cbn [files] in O2 |- *. rewrite O2 by done. by apply Hfiles.
Qed.

(** ** The log of a sandbox *)
Definition lastn {A} (n : nat) (l : list A) : list A := drop (length l - n) l.
Lemma lastn_snoc {A} n (l : list A) a : lastn n (lastn n l ++ [a]) = lastn n (l ++ [a]).
Proof.
  destruct n as [|n]; [unfold lastn; by rewrite !drop_ge by lia|].
  unfold lastn. rewrite !length_app, length_drop. cbn [length].
  destruct (decide (length l <= S n)%nat) as [Hl|Hl].
  - replace (length l - S n)%nat with 0%nat by lia. cbn [drop]. f_equal. lia.
  - replace (length l - (length l - S n) + 1 - S n)%nat with 1%nat by lia.
    rewrite !drop_app_le by (rewrite ?length_drop; lia). rewrite drop_drop. do 2 f_equal. lia.
Qed.
Lemma length_lastn {A} n (l : list A) : (length (lastn n l) <= n)%nat.
Proof. unfold lastn. rewrite length_drop. lia. Qed.
Lemma push_bounded_lastn l e : push_bounded l e = lastn 1000 (l ++ [e]).
Proof.
  unfold push_bounded, lastn, MAX_ENTRIES_PER_SANDBOX, sat_sub. rewrite length_app. cbn [length].
  destruct (0 <? _) eqn:E; [f_equal; lia|]. replace (length l + 1 - 1000)%nat with 0%nat by lia. done.
Qed.
Section LogHistory.
Context `{Json Logs} (files : option string).
Inductive LogOp := LogRecord (clock : Z) (sandbox_id message : string) | LogRemove (sandbox_id : string).
Definition run_log_op (op : LogOp) : PM unit :=
  match op with
  | LogRecord clock id message => record_log files clock id message
  | LogRemove id => remove_sandbox_logs files id
  end.
(** A sequence of calls, whatever each returns. *)
Definition run_logs (ops : list LogOp) (s : StateStore * World) : StateStore * World :=
  foldl (fun s op => (run_log_op op s).1) s ops.
(** The messages of one sandbox since its logs were last removed. *)
Definition history (id : string) (ops : list LogOp) : list LogEvent :=
  foldl (fun acc op => match op with
    | LogRecord clock id' message => if decide (id' = id) then acc ++ [log_event_new clock message] else acc
    | LogRemove id' => if decide (id' = id) then [] else acc
    end) [] ops.
Lemma persist_logs_store s w : (persist_logs files (s, w)).1.1 = s.
Proof.
  unfold persist_logs. destruct files as [dir|]; [|done]. unfold mbind, PM_bind, on_store, load_logs. cbn.
  destruct (lock_named "log" (st_logs s)) as [l|e]; [|done]. unfold on_host. by destruct (file_save_logs dir l w).
Qed.
Lemma run_log_op_store op s w l : s.(st_logs) = mk_locked l false ->
  (run_log_op op (s, w)).1.1.(st_logs) = mk_locked (match op with
    | LogRecord clock id message => <[id := push_bounded (default [] (l !! id)) (log_event_new clock message)]> l
    | LogRemove id => delete id l
    end) false.
Proof.
  intros Hs. destruct s as [a sn lg]. cbn in Hs. subst lg.
  destruct op as [clock id message|id]; unfold run_log_op, record_log, remove_sandbox_logs, mbind, PM_bind, on_store; cbn -[persist_logs push_bounded];
    by rewrite persist_logs_store.
Qed.
Lemma run_logs_history ops : forall s w, s.(st_logs) = mk_locked ∅ false ->
  exists l, (run_logs ops (s, w)).1.(st_logs) = mk_locked l false /\
    forall id, default [] (l !! id) = lastn 1000 (history id ops).
Proof.
  induction ops as [|op ops IH] using rev_ind; intros s w Hs; [exists ∅; split; [done|]; intros id; by rewrite lookup_empty|].
  destruct (IH s w Hs) as (l & El & Hl). unfold run_logs. rewrite foldl_snoc. fold (run_logs ops (s, w)).
  destruct (run_logs ops (s, w)) as [s1 w1]. eexists. split; [by apply run_log_op_store|]. intros id.
  unfold history. rewrite foldl_snoc. fold (history id ops). destruct op as [clock id' message|id'].
  - case_decide as Hid; [subst id'; rewrite lookup_insert_eq; cbn -[push_bounded lastn]; rewrite push_bounded_lastn, Hl; apply lastn_snoc|].
    by rewrite lookup_insert_ne.
  - case_decide as Hid; [subst id'; by rewrite lookup_delete_eq|]. by rewrite lookup_delete_ne.
Qed.
End LogHistory.

(** The log of a sandbox is its last thousand messages.  After any sequence
    of recordings and removals on an empty store, with or without files and
    whether or not writing them fails, a page of a sandbox's log is the part
    [cursor ..] of the last 1000 messages recorded since its logs were last
    removed, cut to [limit] when the limit is positive. *)
Theorem log_pages `{Json Logs} files ops w id cursor limit :
  let '(s, _) := run_logs files ops (store_new, w) in
  let page := drop (Z.to_nat (Z.max (default 0 cursor) 0)) (lastn 1000 (history id ops)) in
  (log_entries id cursor limit s).2 = Ok (if 0 <? limit then take (Z.to_nat limit) page else page).
Proof.
  destruct (run_logs_history files ops store_new w eq_refl) as (l & El & Hl).
  destruct (run_logs files ops (store_new, w)) as [s w'] eqn:E. cbn [fst] in El. cbn zeta.
  unfold log_entries, mbind, SM_bind, load_logs. rewrite El. cbn [lock_named lock_poisoned guarded]. cbv zeta.
  unfold mret, SM_ret. cbn [snd]. f_equal. rewrite <- Hl. destruct (l !! id) as [entries|] eqn:Ee; cbn [from_option].
  2: { rewrite drop_nil. destruct (0 <? limit); [|done]. by rewrite take_nil. }
  set (start := Z.max (match cursor with Some z => z | None => 0 end) 0).
  assert (Hd : drop (Z.to_nat (Z.min start (Z.of_nat (length entries)))) entries = drop (Z.to_nat start) entries).
  { destruct (decide (start <= Z.of_nat (length entries))) as [Hle|Hgt]; [by rewrite Z.min_l|].
    rewrite Z.min_r by lia. by rewrite !drop_ge by lia. }
  change (firstn (Z.to_nat (Z.min (if Z.max limit 0 =? 0 then max_uint 64 else Z.max limit 0) (Z.of_nat (length entries))))
    (drop (Z.to_nat (Z.min start (Z.of_nat (length entries)))) entries) =
    if 0 <? limit then take (Z.to_nat limit) (drop (Z.to_nat start) entries) else drop (Z.to_nat start) entries).
  rewrite Hd. clear Hd.
  assert (Hlen : (length entries <= 1000)%nat).
  { specialize (Hl id). rewrite Ee in Hl. cbn in Hl. rewrite Hl. apply length_lastn. }
  assert (Hdl : (length (drop (Z.to_nat start) entries) <= length entries)%nat) by (rewrite length_drop; lia).
  destruct (0 <? limit) eqn:Epos.
  - replace (Z.max limit 0 =? 0) with false by lia. rewrite Z.max_l by lia.
    destruct (decide (limit <= Z.of_nat (length entries))); [by rewrite Z.min_l|].
    rewrite Z.min_r by lia. by rewrite !firstn_all2 by lia.
  - replace (Z.max limit 0 =? 0) with true by lia. unfold max_uint. rewrite Z.min_r by lia. by rewrite firstn_all2 by lia.
Qed.

(** ** A concrete encoding, for the examples *)
#[global] Instance TemplateMetadata_eq_dec : EqDecision TemplateMetadata.
Proof. solve_decision. Defined.
#[global] Instance SnapshotRecord_eq_dec : EqDecision SnapshotRecord.
Proof. solve_decision. Defined.
#[global] Instance LogEvent_eq_dec : EqDecision LogEvent.
Proof. solve_decision. Defined.
#[global] Instance ActiveSessionRecord_eq_dec : EqDecision ActiveSessionRecord.
Proof. solve_decision. Defined.
#[global] Instance SandboxResources_countable : Countable SandboxResources.
Proof. refine (inj_countable' (fun r => (vcpus r, memory_bytes r)) (fun '(a, b) => mk_resources a b) _). by intros []. Defined.
#[global] Instance TemplateMetadata_countable : Countable TemplateMetadata.
Proof.
  refine (inj_countable' (fun m => (tm_envs m, tm_start_cmd m, tm_ready_cmd m))
    (fun '(a, b, c) => mk_template_metadata a b c) _). by intros [].
Defined.
#[global] Instance SnapshotRecord_countable : Countable SnapshotRecord.
Proof.
  refine (inj_countable' (fun r => (sr_snapshot_id r, sr_source_sandbox_id r, sr_names r, sr_location r,
      sr_staging_dir r, sr_machine_identifier r, sr_network_macs r, sr_template_metadata r))
    (fun '(a, b, c, d, e, f, g, h) => mk_snapshot_record a b c d e f g h) _). by intros [].
Defined.
#[global] Instance LogEvent_countable : Countable LogEvent.
Proof.
  refine (inj_countable' (fun e => (ev_timestamp_unix_seconds e, ev_message e, ev_source e))
    (fun '(a, b, c) => mk_log_event a b c) _). by intros [].
Defined.
#[global] Instance ActiveSessionRecord_countable : Countable ActiveSessionRecord.
Proof.
  refine (inj_countable' (fun s => (as_sandbox_id s, as_template_id s, as_client_id s, as_envd_access_token s,
      as_started_at s, as_end_at s, as_resources s, as_runtime_attached s))
    (fun '(a, b, c, d, e, f, g, h) => mk_active a b c d e f g h) _). by intros [].
Defined.
Definition encoded_json (A : Type) `{Countable A} (dflt : A) : Json A := {|
  to_vec_pretty a := Ok [Zpos (encode a)];
  from_slice d := match d with
                  | [Zpos p] => match decode p with Some a => Ok a | None => Err "malformed"%string end
                  | _ => Err "malformed"%string
                  end;
  json_default := dflt
|}.
Lemma encoded_json_roundtrip (A : Type) `{Countable A} (dflt : A) : @JsonRoundtrip A (encoded_json A dflt).
Proof. intros a. exists [Zpos (encode a)]. split; [done|]. cbn. by rewrite decode_encode. Defined.
Module DemoJson.
#[export] Instance active_json : Json (list ActiveSessionRecord) := encoded_json _ [].
#[export] Instance snapshots_json : Json (list SnapshotRecord) := encoded_json _ [].
#[export] Instance logs_json : Json Logs := encoded_json _ ∅.
#[export] Instance active_back : JsonRoundtrip (list ActiveSessionRecord) := encoded_json_roundtrip _ _.
#[export] Instance snapshots_back : JsonRoundtrip (list SnapshotRecord) := encoded_json_roundtrip _ _.
#[export] Instance logs_back : JsonRoundtrip Logs := encoded_json_roundtrip _ _.
End DemoJson.
Definition demo_active (id : string) : ActiveSessionRecord :=
  mk_active id "template" "client" None 100 400 (mk_resources 2 1024) true.
Section StateWitness.
Import DemoJson.
Lemma state_save_load_witness :
  exists m, save_state "/state" (from_records [demo_active "a"] [] ∅) (mk_world ∅ []) = (mk_world m [], Ok tt) /\
    load_state "/state" (mk_world m []) = (mk_world m [], Ok (from_records [demo_active "a"] [] ∅)).
Proof.
  eexists. assert (E : save_state "/state" (from_records [demo_active "a"] [] ∅) (mk_world ∅ []) = (mk_world _ [], Ok tt))
    by reflexivity.
  split; [exact E|]. destruct (state_save_load _ _ _ _ _ _ _ E) as [H _]. exact (H eq_refl).
Defined.
Definition demo_snapshot (id : string) (location : option string) : SnapshotRecord :=
  mk_snapshot_record id "a" [] location None None None template_metadata_default.
Definition demo_artifacts : Files :=
  list_to_map [("/state/snapshot-artifacts/kept"%string, [1]); ("/state/snapshot-artifacts/orphan"%string, [2]);
               ("/elsewhere/other"%string, [3])].
Lemma artifacts_reconciled_witness :
  let snapshots := [demo_snapshot "s1" (Some "/state/snapshot-artifacts/kept"%string);
                    demo_snapshot "s2" (Some "/state/snapshot-artifacts/gone"%string); demo_snapshot "s3" None] in
  exists w', reconcile_snapshot_artifacts (fun l => l) "/state" snapshots (mk_world demo_artifacts [])
      = (w', Ok [demo_snapshot "s1" (Some "/state/snapshot-artifacts/kept"%string); demo_snapshot "s3" None]) /\
    w'.(files) !! "/state/snapshot-artifacts/kept"%string = Some [1] /\
    w'.(files) !! "/elsewhere/other"%string = Some [3] /\
    ~ is_Some (w'.(files) !! "/state/snapshot-artifacts/orphan"%string).
Proof.
  intros snapshots. destruct (reconcile_snapshot_artifacts (fun l => l) "/state" snapshots (mk_world demo_artifacts []))
    as [w' r] eqn:E.
  destruct (artifacts_reconciled (fun l => l) "/state" snapshots (mk_world demo_artifacts []) w' r (fun l => Permutation_refl l) E)
    as [H1 H2].
  assert (Hk : List.filter (keeps "/state" demo_artifacts) snapshots
    = [demo_snapshot "s1" (Some "/state/snapshot-artifacts/kept"%string); demo_snapshot "s3" None]) by (vm_compute; reflexivity).
  destruct (H2 eq_refl) as (Hr & H3 & _). cbn [files] in *. rewrite Hk in *. subst r. exists w'. split; [reflexivity|]. split_and!.
  - rewrite H1; [reflexivity|discriminate..|]. right.
    exists (demo_snapshot "s1" (Some "/state/snapshot-artifacts/kept"%string)). split; [apply list_elem_of_here|reflexivity].
  - rewrite H1; [reflexivity|discriminate..|]. left. vm_compute. discriminate.
  - rewrite H3; [|discriminate..|reflexivity]. intros [_ (s & Hs & Hl)].
    apply elem_of_cons in Hs as [->|Hs]; [discriminate|]. apply list_elem_of_singleton in Hs as ->. discriminate.
Defined.
End StateWitness.
