(* ===== verification/DiskGuard.v ===== *)
(** * Disk pressure ([crates/single-node/src/disk.rs])

    The free-space probe ([df -Pk] and its parser), its cache, and the guard
    that rejects operations below a floor.  What [df] does, and the monotonic
    clock, are inputs of every call.  White space is ASCII. *)
From S2P Require Import Prelude Types Capacity Scheduler.
Import Sizes.

(** ** Parsing [df -Pk] *)
Definition is_ascii_whitespace (c : ascii) : bool :=
  (code c =? 32) || ((9 <=? code c) && (code c <=? 13)).
(** [str::split_whitespace]: the maximal runs of other characters. *)
Fixpoint split_whitespace_from (word s : string) : list string :=
  match s with
  | EmptyString => if is_empty word then [] else [word]
  | String c s =>
      if is_ascii_whitespace c
      then if is_empty word then split_whitespace_from EmptyString s else word :: split_whitespace_from EmptyString s
      else split_whitespace_from (word +:+ String c EmptyString) s
  end.
Definition split_whitespace : string -> list string := split_whitespace_from EmptyString.
Definition newline : ascii := ascii_of_N 10.
Definition carriage_return : string := String (ascii_of_N 13) EmptyString.
(** [str::lines]: no line after a final newline; a carriage return is dropped
    before a newline only. *)
Definition lines (s : string) : list string :=
  let ls := split newline s in
  ((fun l => default l (strip_suffix carriage_return l)) <$> removelast ls)
    ++ match last ls with Some rest => if is_empty rest then [] else [rest] | None => [] end.
(** [Display] of the error of [parse::<uW>()], for a field without sign. *)
Fixpoint parse_int_error (w acc : Z) (s : string) : string :=
  match s with
  | EmptyString => "cannot parse integer from empty string"
  | String c s =>
      if negb (is_ascii_digit c) then "invalid digit found in string"
      else let acc := acc * 10 + (code c - 48) in
           if acc <=? max_uint w then parse_int_error w acc s else "number too large to fit in target type"
  end.
Fixpoint find_map {A B} (f : A -> option B) (l : list A) : option B :=
  match l with [] => None | a :: l => match f a with Some b => Some b | None => find_map f l end end.
Definition parse_available (output : string) : result Error Size :=
  field ← ok_or (DiskPressure "df output missing available-kib field")
    (find_map (fun line => split_whitespace line !! 3%nat) (skipn 1 (lines output)));
  available_kib ← ok_or (DiskPressure ("df available-kib field is invalid: " +:+ parse_int_error 64 0 field))
    (parse_uint 64 field);
  Ok (size_bytes (sat_mul 64 available_kib 1024)).

(** How a run of [df] ends: it cannot be started, it fails with a status, its
    output is not UTF-8 (with the decoder's message), or it prints text. *)
Inductive DfRun :=
| DfNotRun (message : string)
| DfFailed (status : string)
| DfNotUtf8 (message : string)
| DfPrinted (stdout : string).
Definition df_available (path : string) (run : DfRun) : result Error Size :=
  match run with
  | DfNotRun e => Err (DiskPressure ("run disk probe for " +:+ path +:+ ": " +:+ e))
  | DfFailed status => Err (DiskPressure ("disk probe for " +:+ path +:+ " exited " +:+ status))
  | DfNotUtf8 e => Err (DiskPressure ("disk probe output for " +:+ path +:+ " is not utf-8: " +:+ e))
  | DfPrinted stdout => parse_available stdout
  end.

(** ** The cached probe *)
Record CachedDiskSample := mk_sample { sm_path : string; sm_available : Size; sm_measured_at : Z }.
(** What the surroundings give one call: the instant at which the cache is
    consulted, what the inner probe reports, and the instant after it. *)
Record DiskEnv := mk_disk_env { de_now : Z; de_probe : string -> result Error Size; de_after : Z }.
Record CachedDiskProbe := mk_cached_probe { cp_ttl : Z; cp_sample : option CachedDiskSample; cp_poisoned : bool }.
Definition cached_probe_new (ttl : Z) : CachedDiskProbe := mk_cached_probe ttl None false.
Definition default_host : CachedDiskProbe := cached_probe_new (30 * 1000000000).
(** [Instant::elapsed] is zero for an instant in the future. *)
Definition elapsed (now measured_at : Z) : Z := Z.max 0 (now - measured_at).
Definition fresh_sample (c : CachedDiskProbe) (path : string) (now : Z) : option Size :=
  match c.(cp_sample) with
  | Some s => if String.eqb s.(sm_path) path && (elapsed now s.(sm_measured_at) <? c.(cp_ttl))
              then Some s.(sm_available) else None
  | None => None
  end.
Definition cached_available (c : CachedDiskProbe) (path : string) (env : DiskEnv) : CachedDiskProbe * result Error Size :=
  if c.(cp_poisoned) then (c, Err (DiskPressure "disk probe cache lock poisoned"))
  else match fresh_sample c path env.(de_now) with
       | Some available => (c, Ok available)
       | None =>
           match env.(de_probe) path with
           | Err e => (c, Err e)
           | Ok available =>
               (mk_cached_probe c.(cp_ttl) (Some (mk_sample path available env.(de_after))) c.(cp_poisoned), Ok available)
           end
       end.

(** ** The guard *)
Inductive DiskProbe := DirectProbe | CachedProbe (c : CachedDiskProbe).
Definition probe_available (p : DiskProbe) (path : string) (env : DiskEnv) : DiskProbe * result Error Size :=
  match p with
  | DirectProbe => (DirectProbe, env.(de_probe) path)
  | CachedProbe c => let '(c', r) := cached_available c path env in (CachedProbe c', r)
  end.
Record DiskPressureGuard := mk_guard { dg_path : string; dg_minimum : Size; dg_probe : DiskProbe }.
Definition guard_new (path : string) (minimum : Size) : DiskPressureGuard := mk_guard path minimum (CachedProbe default_host).
Definition guard_check (g : DiskPressureGuard) (operation : string) (env : DiskEnv) : DiskPressureGuard * result Error unit :=
  let '(p, r) := probe_available g.(dg_probe) g.(dg_path) env in
  (mk_guard g.(dg_path) g.(dg_minimum) p,
   available ← r;
   if as_bytes available <? as_bytes g.(dg_minimum)
   then Err (DiskPressure ("single-node runtime disk pressure rejected " +:+ operation +:+ ": available "
     +:+ print_dec (as_bytes available) +:+ " bytes is below minimum free disk "
     +:+ print_dec (as_bytes g.(dg_minimum)) +:+ " bytes at " +:+ g.(dg_path)))
   else Ok tt).

(** ** How old a measurement may be *)
Section Freshness.
Context (path : string) (minimum : Size).
(** The checks of one guard, in order, each with its surroundings. *)
Fixpoint checks (g : DiskPressureGuard) (envs : list DiskEnv) : DiskPressureGuard * list (result Error unit) :=
  match envs with
  | [] => (g, [])
  | env :: envs =>
      let '(g', r) := guard_check g "operation" env in
      let '(g'', rs) := checks g' envs in (g'', r :: rs)
  end.
(** The cached sample is the last successful measurement. *)
Definition sample_from (envs : list DiskEnv) (c : CachedDiskProbe) : Prop :=
  forall s, c.(cp_sample) = Some s -> s.(sm_path) = path /\
    exists env, env ∈ envs /\ env.(de_probe) path = Ok s.(sm_available) /\ env.(de_after) = s.(sm_measured_at).
Lemma cached_available_sound envs c env :
  sample_from envs c ->
  sample_from (envs ++ [env]) (cached_available c path env).1 /\
  (cached_available c path env).1.(cp_ttl) = c.(cp_ttl) /\
  forall a, (cached_available c path env).2 = Ok a ->
    env.(de_probe) path = Ok a \/
    exists env', env' ∈ envs /\ env'.(de_probe) path = Ok a /\ elapsed env.(de_now) env'.(de_after) < c.(cp_ttl).
Proof.
  intros Hs. assert (Hs' : sample_from (envs ++ [env]) c).
  { intros s Es. destruct (Hs s Es) as (? & e & He & ?). split; [done|]. exists e. set_solver. }
  unfold cached_available. destruct (cp_poisoned c); [done|].
  destruct (fresh_sample c path (de_now env)) as [a|] eqn:Ef.
  - split_and!; [done..|]. cbn. intros a' [= <-]. right. unfold fresh_sample in Ef.
    destruct (cp_sample c) as [s|] eqn:Es; [|done]. destruct (_ && _) eqn:Eb; [|done]. injection Ef as <-.
    destruct (Hs s Es) as (_ & e & He & Hp & Ha). exists e. rewrite Ha. split_and!; [done..|]. lia.
  - destruct (de_probe env path) as [a|e] eqn:Ep; cbn; [|by split_and!].
    split_and!; [|done|]; [|intros a' [= <-]; by left].
    intros s [= <-]. split; [done|]. exists env. set_solver.
Qed.
Lemma checks_sound envs : forall pre c i env,
  sample_from pre c -> envs !! i = Some env -> (checks (mk_guard path minimum (CachedProbe c)) envs).2 !! i = Some (Ok tt) ->
  exists env' a, env' ∈ pre ++ take (S i) envs /\ env'.(de_probe) path = Ok a /\ as_bytes minimum <= as_bytes a /\
    (env' = env \/ elapsed env.(de_now) env'.(de_after) < c.(cp_ttl)).
Proof.
  induction envs as [|env0 envs IH]; intros pre c i env Hs Ei Er; [done|]. cbn [checks] in Er.
  unfold guard_check in Er. cbn [dg_probe dg_path dg_minimum probe_available] in Er.
  destruct (cached_available_sound pre c env0 Hs) as (Hs' & Httl & Ha).
  destruct (cached_available c path env0) as [c' r]. cbn [fst snd] in *.
  destruct (checks (mk_guard path minimum (CachedProbe c')) envs) as [g rs] eqn:Ec.
  destruct i as [|i]; cbn [lookup list_lookup] in Ei, Er.
  - injection Ei as ->. injection Er as Er. destruct r as [a|e]; [|done]. cbn in Er.
    destruct (_ <? _) eqn:Elt; [done|]. destruct (Ha a eq_refl) as [Hp|(env' & Hin & Hp & He)].
    + exists env, a. cbn [take]. split_and!; [set_solver|done|lia|by left].
    + exists env', a. cbn [take]. split_and!; [set_solver|done|lia|by right].
  - destruct (IH (pre ++ [env0]) c' i env Hs' Ei) as (env' & a & Hin & Hp & Hm & He); [by rewrite Ec|].
    exists env', a. rewrite Httl in He. split_and!; [|done..]. cbn [take]. by rewrite <- app_assoc in Hin.
Qed.
End Freshness.

(** The disk guard never admits on stale information.  However the checks of
    a cached guard are spaced and whatever the probe reports, a check that
    passes rests on a successful measurement of the guarded path, made by this
    or an earlier check, that is at or above the floor and, unless this check
    made it, younger than the cache's time to live. *)
Theorem disk_guard_sound path minimum ttl envs i env :
  envs !! i = Some env ->
  (checks (mk_guard path minimum (CachedProbe (cached_probe_new ttl))) envs).2 !! i = Some (Ok tt) ->
  exists env' a, env' ∈ take (S i) envs /\ env'.(de_probe) path = Ok a /\ as_bytes minimum <= as_bytes a /\
    (env' = env \/ elapsed env.(de_now) env'.(de_after) < ttl).
Proof. intros Ei Er. apply (checks_sound path minimum envs [] (cached_probe_new ttl) i env); [by intros s [=]|done..]. Qed.
Definition demo_env (now : Z) (free : Z) : DiskEnv := mk_disk_env now (fun _ => Ok (size_bytes free)) now.
Lemma disk_guard_sound_witness :
  (checks (mk_guard "/state" (size_bytes 100) (CachedProbe (cached_probe_new 30))) [demo_env 0 150; demo_env 10 50]).2
    = [Ok tt; Ok tt] /\
  exists env' a, env' ∈ [demo_env 0 150; demo_env 10 50] /\ env'.(de_probe) "/state"%string = Ok a /\ 100 <= as_bytes a /\
    (env' = demo_env 10 50 \/ elapsed 10 env'.(de_after) < 30).
Proof.
  split; [reflexivity|].
  exact (disk_guard_sound "/state" (size_bytes 100) 30 [demo_env 0 150; demo_env 10 50] 1 (demo_env 10 50) eq_refl eq_refl).
Defined.

(** *** Reading [df] *)
Definition nl : string := String newline EmptyString.
Lemma df_example :
  parse_available ("Filesystem 1024-blocks Used Available Capacity Mounted on" +:+ nl +:+
    "/dev/disk3s5   971350180 512 458752 54%    /System/Volumes/Data" +:+ nl) = Ok (size_bytes (458752 * 1024)).
Proof. vm_compute. reflexivity. Qed.
(** The columns are counted in words: a device whose name has a space shifts
    them, and the used space is read as the available one. *)
Lemma df_device_with_space :
  parse_available ("Filesystem 1024-blocks Used Available Capacity Mounted on" +:+ nl +:+
    "My Disk  1000 900 100 90% /Volumes/My" +:+ nl) = Ok (size_bytes (900 * 1024)).
Proof. vm_compute. reflexivity. Qed.
