(* ===== verification/Backend.v ===== *)
(** * The single-node backend ([crates/single-node/src/{backend,driver}.rs])

    The facade of a node: a scheduler, a runtime driver, the state of sessions
    and snapshots with its files, and a disk guard.  The driver is a class (the
    trait [RuntimeDriver]); the clock, the disk probe and file system faults
    are inputs.  Each operation runs to its end; interleavings of two of them
    are looked at separately. *)
From S2P Require Import Prelude HostPaths HostFs Types Capacity Scheduler NodeState DiskGuard Envd.
Import Sizes.

Record SingleNodeConfig := mk_node_config {
  nc_root : string;
  nc_domain : string;
  nc_minimum_free_disk : Size;
  nc_warm_pool_minimum_free_disk : Size;
  nc_scheduler : SingleNodeSchedulerConfig
}.
Definition node_config_new (root domain : string) : SingleNodeConfig :=
  mk_node_config root domain (gib 10) (gib 20) config_default.
Definition with_scheduler (c : SingleNodeConfig) (s : SingleNodeSchedulerConfig) : SingleNodeConfig :=
  mk_node_config c.(nc_root) c.(nc_domain) c.(nc_minimum_free_disk) c.(nc_warm_pool_minimum_free_disk) s.

(** ** The driver *)
(** A call to the process service of a sandbox, and its answer. *)
Inductive ProcessCall :=
| StartProcessStream (request : EnvdProcessStartRequest)
| ListProcesses
| ConnectProcess (selector : EnvdProcessSelector)
| SendProcessInput (selector : EnvdProcessSelector) (input : EnvdProcessInput)
| CloseProcessStdin (selector : EnvdProcessSelector)
| SignalProcess (selector : EnvdProcessSelector) (signal : EnvdProcessSignal)
| ResizeProcessPty (selector : EnvdProcessSelector) (pty : option EnvdPtySize).
Inductive ProcessReply :=
| ProcessStream (events : channel EnvdProcessStreamEvent)
| ProcessInfos (infos : list EnvdProcessInfo)
| ProcessOutput (output : EnvdProcessOutput)
| ProcessDone.
Class RuntimeDriver (D : Type) := {
  runtime_sandbox_exists : string -> D -> result Error bool;
  drv_create : SingleNodeCreateRequest -> D -> D * result Error RuntimeCreatedSandbox;
  drv_delete : string -> D -> D * result Error unit;
  drv_restore : SingleNodeCreateRequest -> SnapshotRecord -> D -> D * result Error RuntimeCreatedSandbox;
  drv_snapshot : string -> option string -> D -> D * result Error RuntimeSnapshotRef;
  drv_delete_snapshot : string -> D -> D * result Error unit;
  drv_run_command : string -> CommandRequest -> D -> D * result Error CommandOutput;
  drv_process : string -> ProcessCall -> D -> D * result Error ProcessReply;
  drv_start_template_command : string -> string -> gmap string string -> D -> D * result Error unit
}.
(** The trait's default methods. *)
Definition unsupported {D A} (what : string) (d : D) : D * result Error A :=
  (d, Err (UnsupportedCapability ("single-node runtime " +:+ what +:+ " is not implemented by this driver"))).
Definition default_delete_snapshot {D} (snapshot_id : string) (d : D) : D * result Error unit := (d, Ok tt).
Definition default_process {D} (sandbox_id : string) (c : ProcessCall) (d : D) : D * result Error ProcessReply :=
  match c with
  | StartProcessStream _ => unsupported "retained process streaming" d
  | ListProcesses => (d, Ok (ProcessInfos []))
  | ConnectProcess _ => unsupported "retained process connect" d
  | SendProcessInput _ _ => unsupported "retained process input" d
  | CloseProcessStdin _ => unsupported "retained process stdin close" d
  | SignalProcess _ _ => unsupported "retained process signal" d
  | ResizeProcessPty _ _ => unsupported "retained process PTY resize" d
  end.
(** A created sandbox has the identity that was asked for. *)
Class DriverLaws (D : Type) `{RuntimeDriver D} : Prop := {
  create_identity : forall q d d' c, drv_create q d = (d', Ok c) -> c.(rc_sandbox_id) = q.(cr_sandbox_id);
  restore_identity : forall q s d d' c, drv_restore q s d = (d', Ok c) -> c.(rc_sandbox_id) = q.(cr_sandbox_id)
}.

(** ** State *)
Record Node (D : Type) := mk_node {
  nd_config : SingleNodeConfig;
  nd_scheduler : SingleNodeScheduler;
  nd_driver : option D;
  nd_state : StateStore;
  nd_files : option string;
  nd_guard : option DiskPressureGuard;
  nd_world : World
}.
Arguments mk_node {D} nd_config nd_scheduler nd_driver nd_state nd_files nd_guard nd_world.
Arguments nd_config {D} n.
Arguments nd_scheduler {D} n.
Arguments nd_driver {D} n.
Arguments nd_state {D} n.
Arguments nd_files {D} n.
Arguments nd_guard {D} n.
Arguments nd_world {D} n.
Definition BM (D A : Type) : Type := Node D -> Node D * result Error A.
#[global] Instance BM_ret {D} : MRet (BM D) := fun A a n => (n, Ok a).
#[global] Instance BM_bind {D} : MBind (BM D) := fun A B k m n =>
  match m n with (n', Ok a) => k a n' | (n', Err e) => (n', Err e) end.
(** What one operation sees of its surroundings: the wall clock as time since
    the epoch ([None]: before it), and the disk probe. *)
Record Surroundings := mk_surroundings { en_clock : option Z; en_disk : DiskEnv }.
Definition max_i64 : Z := 2 ^ 63 - 1.
Definition wrap_i64 (z : Z) : Z := (z + 2 ^ 63) mod 2 ^ 64 - 2 ^ 63.
Definition now_unix_seconds (clock : option Z) : Z :=
  match clock with None => 0 | Some since => Z.min (as_secs since) max_i64 end.
(** [now + i64::try_from(timeout.as_secs()).unwrap_or(i64::MAX)]. *)
Definition deadline (now timeout : Z) : Z := wrap_i64 (now + Z.min (as_secs timeout) max_i64).

Section Backend.
Context {D : Type} `{RuntimeDriver D}.
Context `{Json (list ActiveSessionRecord), Json (list SnapshotRecord), Json Logs}.
Abbreviation M := (BM D).
Definition raise {A} (e : Error) : M A := fun n => (n, Err e).
(** [let _ = m;] *)
Definition ignore {A} (m : M A) : M unit := fun n => ((m n).1, Ok tt).
(** [m.inspect_err(|_| { let _ = undo; })]. *)
Definition undo_on_error {A B} (m : M A) (undo : M B) : M A := fun n =>
  match m n with
  | (n', Ok a) => (n', Ok a)
  | (n', Err e) => ((undo n').1, Err e)
  end.
(** [if let Err(e) = m { cleanup; return Err(e) } Ok(a)]. *)
Definition or_clean {A} (m : M unit) (cleanup : Error -> M A) (a : A) : M A := fun n =>
  match m n with
  | (n', Ok _) => (n', Ok a)
  | (n', Err e) => cleanup e n'
  end.
Definition on_scheduler {A} (f : SingleNodeScheduler -> SingleNodeScheduler * result Error A) : M A := fun n =>
  let '(s, r) := f n.(nd_scheduler) in
  (mk_node n.(nd_config) s n.(nd_driver) n.(nd_state) n.(nd_files) n.(nd_guard) n.(nd_world), r).
Definition on_state {A} (f : option string -> PM A) : M A := fun n =>
  let '((s, w), r) := f n.(nd_files) (n.(nd_state), n.(nd_world)) in
  (mk_node n.(nd_config) n.(nd_scheduler) n.(nd_driver) s n.(nd_files) n.(nd_guard) w, r).
(** [self.driver()?]. *)
Definition need_driver : M unit := fun n =>
  match n.(nd_driver) with
  | Some _ => (n, Ok tt)
  | None => (n, Err (UnsupportedCapability "single-node backend has no runtime driver configured"))
  end.
Definition on_driver {A} (f : D -> D * result Error A) : M A := fun n =>
  match n.(nd_driver) with
  | Some d =>
      let '(d', r) := f d in
      (mk_node n.(nd_config) n.(nd_scheduler) (Some d') n.(nd_state) n.(nd_files) n.(nd_guard) n.(nd_world), r)
  | None => (n, Err (UnsupportedCapability "single-node backend has no runtime driver configured"))
  end.
Definition release_session (sandbox_id : string) : M unit := on_scheduler (fun s => release s sandbox_id).
Definition check_disk_pressure (operation : string) (env : Surroundings) : M unit := fun n =>
  match n.(nd_guard) with
  | Some g =>
      let '(g', r) := guard_check g operation env.(en_disk) in
      (mk_node n.(nd_config) n.(nd_scheduler) n.(nd_driver) n.(nd_state) n.(nd_files) (Some g') n.(nd_world), r)
  | None => (n, Ok tt)
  end.

(** ** Sessions and snapshots of the store *)
Definition sandbox_missing (sandbox_id : string) : Error := SandboxNotFound ("sandbox " +:+ sandbox_id +:+ " not found").
Definition snapshot_missing (snapshot_id : string) : Error := SnapshotNotFound ("snapshot " +:+ snapshot_id +:+ " not found").
Definition is_session (sandbox_id : string) (s : ActiveSessionRecord) : bool := String.eqb s.(as_sandbox_id) sandbox_id.
Definition is_snapshot (snapshot_id : string) (s : SnapshotRecord) : bool := String.eqb s.(sr_snapshot_id) snapshot_id.
Definition persist_active (files : option string) : PM unit :=
  match files with
  | Some dir => active ← on_store load_active; on_host (file_save_active dir active)
  | None => mret tt
  end.
Definition persist_snapshots (files : option string) : PM unit :=
  match files with
  | Some dir => snapshots ← on_store load_snapshots; on_host (file_save_snapshots dir snapshots)
  | None => mret tt
  end.
(** Save, then persist; the old records come back when persisting fails. *)
Definition replace_active (files : option string) (original active : list ActiveSessionRecord) : PM unit :=
  _ ← on_store (save_active active);
  or_undo (persist_active files) (on_store (save_active original)).
Definition replace_snapshots (files : option string) (original snapshots : list SnapshotRecord) : PM unit :=
  _ ← on_store (save_snapshots snapshots);
  or_undo (persist_snapshots files) (on_store (save_snapshots original)).
Definition pm_fail {A} (e : Error) : PM A := fun s => (s, Err e).
Definition ensure_active (sandbox_id : string) (files : option string) : PM ActiveSessionRecord :=
  active ← on_store load_active;
  match List.find (is_session sandbox_id) active with
  | Some s => mret s
  | None => pm_fail (sandbox_missing sandbox_id)
  end.
Definition upsert_active (session : ActiveSessionRecord) (files : option string) : PM unit :=
  original ← on_store load_active;
  replace_active files original
    (List.filter (fun s => negb (is_session session.(as_sandbox_id) s)) original ++ [session]).
Definition remove_active (sandbox_id : string) (files : option string) : PM unit :=
  original ← on_store load_active;
  let active := List.filter (fun s => negb (is_session sandbox_id s)) original in
  if decide (length active = length original) then pm_fail (sandbox_missing sandbox_id)
  else replace_active files original active.
Definition ensure_snapshot (snapshot_id : string) (files : option string) : PM SnapshotRecord :=
  snapshots ← on_store load_snapshots;
  match List.find (is_snapshot snapshot_id) snapshots with
  | Some s => mret s
  | None => pm_fail (snapshot_missing snapshot_id)
  end.
Definition upsert_snapshot (snapshot : SnapshotRecord) (files : option string) : PM unit :=
  original ← on_store load_snapshots;
  replace_snapshots files original
    (List.filter (fun s => negb (is_snapshot snapshot.(sr_snapshot_id) s)) original ++ [snapshot]).
Definition remove_snapshot (snapshot_id : string) (files : option string) : PM unit :=
  original ← on_store load_snapshots;
  let snapshots := List.filter (fun s => negb (is_snapshot snapshot_id s)) original in
  if decide (length snapshots = length original) then pm_fail (snapshot_missing snapshot_id)
  else replace_snapshots files original snapshots.
(** The first session with the identity gets the deadline. *)
Fixpoint set_deadline (sandbox_id : string) (end_at : Z) (l : list ActiveSessionRecord) : option (list ActiveSessionRecord) :=
  match l with
  | [] => None
  | s :: l =>
      if is_session sandbox_id s
      then Some (mk_active s.(as_sandbox_id) s.(as_template_id) s.(as_client_id) s.(as_envd_access_token)
                   s.(as_started_at) end_at s.(as_resources) s.(as_runtime_attached) :: l)
      else option_map (cons s) (set_deadline sandbox_id end_at l)
  end.
Definition snapshot_record_from_ref (sandbox_id : string) (name : option string) (metadata : TemplateMetadata)
    (snapshot : RuntimeSnapshotRef) : SnapshotRecord :=
  mk_snapshot_record snapshot.(rs_snapshot_id) (default sandbox_id snapshot.(rs_source_sandbox_id))
    (match name with Some name => [name] | None => [] end)
    snapshot.(rs_location) snapshot.(rs_staging_dir) snapshot.(rs_machine_identifier) snapshot.(rs_network_macs) metadata.

(** ** Operations *)
(** The common part of [create] and [restore]: [start] is the driver's call. *)
Definition start_session (operation : string) (start : D -> D * result Error RuntimeCreatedSandbox)
    (env : Surroundings) (q : SingleNodeCreateRequest) : M RuntimeCreatedSandbox :=
  _ ← check_disk_pressure operation env;
  let sandbox_id := q.(cr_sandbox_id) in
  let timeout := default (from_mins 5) q.(cr_timeout) in
  _ ← on_scheduler (fun s => scheduler_admit s sandbox_id q.(cr_resources));
  _ ← need_driver;
  created ← undo_on_error (on_driver start) (release_session sandbox_id);
  let now := now_unix_seconds env.(en_clock) in
  let session := mk_active created.(rc_sandbox_id) q.(cr_template_id) created.(rc_client_id)
    created.(rc_envd_access_token) now (deadline now timeout) q.(cr_resources) true in
  or_clean (on_state (upsert_active session))
    (fun e =>
       _ ← need_driver;
       _ ← ignore (on_driver (drv_delete created.(rc_sandbox_id)));
       _ ← ignore (release_session sandbox_id);
       raise e)
    created.
Definition create (env : Surroundings) (q : SingleNodeCreateRequest) : M RuntimeCreatedSandbox :=
  start_session "sandbox create" (drv_create q) env q.
Definition restore (env : Surroundings) (q : SingleNodeCreateRequest) (snapshot : SnapshotRecord) : M RuntimeCreatedSandbox :=
  start_session "sandbox restore" (drv_restore q snapshot) env q.
Definition delete_session (sandbox_id : string) : M unit :=
  _ ← on_state (ensure_active sandbox_id);
  _ ← on_driver (drv_delete sandbox_id);
  _ ← on_state (remove_active sandbox_id);
  _ ← release_session sandbox_id;
  mret tt.
Definition get_session (sandbox_id : string) : M SandboxSession :=
  _ ← on_state (ensure_active sandbox_id);
  mret (mk_session sandbox_id Running).
Definition snapshot_with_metadata (env : Surroundings) (sandbox_id : string) (name : option string)
    (metadata : TemplateMetadata) : M RuntimeSnapshotRef :=
  _ ← check_disk_pressure "sandbox snapshot" env;
  _ ← on_state (ensure_active sandbox_id);
  snapshot ← on_driver (drv_snapshot sandbox_id name);
  or_clean (on_state (upsert_snapshot (snapshot_record_from_ref sandbox_id name metadata snapshot)))
    (fun e =>
       _ ← need_driver;
       _ ← ignore (on_driver (drv_delete_snapshot snapshot.(rs_snapshot_id)));
       raise e)
    snapshot.
Definition snapshot_session (env : Surroundings) (sandbox_id : string) (name : option string) : M RuntimeSnapshotRef :=
  snapshot_with_metadata env sandbox_id name template_metadata_default.
Definition delete_snapshot (snapshot_id : string) : M unit :=
  _ ← on_state (ensure_snapshot snapshot_id);
  _ ← on_driver (drv_delete_snapshot snapshot_id);
  on_state (remove_snapshot snapshot_id).
Definition run_command (sandbox_id : string) (request : CommandRequest) : M CommandOutput :=
  _ ← on_state (ensure_active sandbox_id);
  on_driver (drv_run_command sandbox_id request).
(** The seven process operations differ in the call they pass on. *)
Definition process_call (sandbox_id : string) (c : ProcessCall) : M ProcessReply :=
  _ ← on_state (ensure_active sandbox_id);
  on_driver (drv_process sandbox_id c).
Definition start_template_command (sandbox_id command : string) (envs : gmap string string) : M unit :=
  _ ← on_state (ensure_active sandbox_id);
  on_driver (drv_start_template_command sandbox_id command envs).
Section Template.
(** [String::from_utf8_lossy]. *)
Context (from_utf8_lossy : list Z -> string).
Definition print_i32 (n : Z) : string := if n <? 0 then "-" +:+ print_dec (- n) else print_dec n.
Definition run_template_start (sandbox_id : string) (metadata : TemplateMetadata) (envs : gmap string string) : M unit :=
  _ ← on_state (ensure_active sandbox_id);
  _ ← match metadata.(tm_start_cmd) with
      | Some command => on_driver (drv_start_template_command sandbox_id command envs)
      | None => mret tt
      end;
  match metadata.(tm_ready_cmd) with
  | Some command =>
      output ← on_driver (drv_run_command sandbox_id (mk_command_request command (Some "/"%string) envs None []));
      if command_success output then mret tt
      else raise (TemplateBuildFailed ("template ready command exited " +:+ print_i32 output.(co_exit_code) +:+ ": "
             +:+ from_utf8_lossy output.(co_stderr)))
  | None => mret tt
  end.
End Template.
Definition update_deadline (env : Surroundings) (sandbox_id : string) (timeout_from_now : Z) : M unit :=
  let end_at := deadline (now_unix_seconds env.(en_clock)) timeout_from_now in
  on_state (fun files =>
    original ← on_store load_active;
    match set_deadline sandbox_id end_at original with
    | None => pm_fail (sandbox_missing sandbox_id)
    | Some active => replace_active files original active
    end).

(** ** Opening a node *)
Fixpoint readmit (sessions reconciled : list ActiveSessionRecord) : M (list ActiveSessionRecord) :=
  match sessions with
  | [] => mret reconciled
  | session :: sessions =>
      live ← (if negb session.(as_runtime_attached) then mret true
              else on_driver (fun d => (d, runtime_sandbox_exists session.(as_sandbox_id) d)));
      if (live : bool) then
        _ ← on_scheduler (fun s => scheduler_admit s session.(as_sandbox_id) session.(as_resources));
        readmit sessions (reconciled ++ [session])
      else readmit sessions reconciled
  end.
Definition reconcile_active_state (env : Surroundings) : M unit :=
  let now := now_unix_seconds env.(en_clock) in
  active ← on_state (fun _ => on_store (reconcile_active_entries now));
  reconciled ← readmit active [];
  _ ← on_state (fun _ => on_store (save_active reconciled));
  on_state persist_active.
Definition from_config (c : SingleNodeConfig) (w : World) : Node D :=
  mk_node c (scheduler_new c.(nc_scheduler)) None store_new None None w.
Definition with_driver_scheduler_and_state (c : SingleNodeConfig) (d : D) (s : SingleNodeScheduler) (st : StateStore)
    (w : World) : Node D := mk_node c s (Some d) st None None w.
(** The host as the attempt leaves it, and the node when it could be opened. *)
Definition with_driver_scheduler (c : SingleNodeConfig) (d : D) (s : SingleNodeScheduler) (env : Surroundings) (w : World)
    : World * result Error (Node D) :=
  match (_ ← file_store_new c.(nc_root); load_state c.(nc_root) : HM Error StateStore) w with
  | (w1, Err e) => (w1, Err e)
  | (w1, Ok st) =>
      let n := mk_node c s (Some d) st (Some c.(nc_root))
                 (Some (guard_new c.(nc_root) c.(nc_minimum_free_disk))) w1 in
      match reconcile_active_state env n with
      | (n', Ok _) => (n'.(nd_world), Ok n')
      | (n', Err e) => (n'.(nd_world), Err e)
      end
  end.
Definition with_driver (c : SingleNodeConfig) (d : D) (env : Surroundings) (w : World) : World * result Error (Node D) :=
  with_driver_scheduler c d (scheduler_new c.(nc_scheduler)) env w.
End Backend.
