(* ===== verification/BackendInv.v ===== *)
(** * Accounting on a node

    What the sessions of a node reserve is what its scheduler has admitted,
    and what its files say is what it holds in memory: through every
    operation, whatever the driver, the disk or the file system answer, and
    across a restart. *)
From S2P Require Import Prelude HostPaths HostFs Types Capacity Scheduler NodeState DiskGuard Envd Backend.
Import Sizes.

(** ** The scheduler, seen from the backend *)
Lemma scheduler_admit_cases s id r : scheduler_inv s -> resources_typed r -> poisoned s = false ->
  admitted (inner s) !! id = None ->
  exists s' o, scheduler_admit s id r = (s', o) /\ scheduler_inv s' /\ poisoned s' = false /\ config s' = config s /\
    admitted (inner s') = match o with Ok _ => <[id := r]> (admitted (inner s)) | Err _ => admitted (inner s) end.
Proof.
  intros Hinv Hr Hp Hnew. pose proof (admit_inv s id r Hinv Hr) as Hinv'. revert Hinv'.
  unfold scheduler_admit, lock. rewrite Hp. rewrite decide_False by (rewrite Hnew; by intros []).
  destruct (max_sessions (config s) <=? _); [by eexists _, _|].
  destruct (reserve_active _ _) as [l [[]|e]]; intros Hinv'; eexists _, _; (split; [reflexivity|]); by split_and!.
Qed.
Lemma scheduler_release_cases s id : scheduler_inv s -> poisoned s = false ->
  exists s', release s id = (s', Ok tt) /\ scheduler_inv s' /\ poisoned s' = false /\ config s' = config s /\
    admitted (inner s') = delete id (admitted (inner s)).
Proof.
  intros Hinv Hp. pose proof (release_inv s id Hinv) as Hinv'. revert Hinv'. unfold release, lock. rewrite Hp.
  destruct (admitted (inner s) !! id) as [r|] eqn:E; intros Hinv'; eexists; (split; [reflexivity|]); split_and!; try done.
  by rewrite delete_id.
Qed.
(** A session that, together with those admitted, stays within the limits is
    admitted. *)
Lemma scheduler_admit_fits s id r : scheduler_inv s -> resources_typed r -> poisoned s = false ->
  admitted (inner s) !! id = None -> Z.of_nat (size (admitted (inner s))) < max_sessions (config s) ->
  (forall d, admitted_total d (admitted (inner s)) + get d (to_budget r) <= get d (to_budget (resources (config s)))) ->
  (scheduler_admit s id r).2 = Ok tt.
Proof.
  intros (Hl & Hw & Hcap & Hm & Ht & Hlen) Hr Hp Hnew Hmax Hfit. unfold scheduler_admit, lock. rewrite Hp.
  rewrite decide_False by (rewrite Hnew; by intros []). replace (max_sessions (config s) <=? _) with false by lia.
  unfold reserve_active. rewrite check_available_error. rewrite (proj2 (capacity_error_none _ _)); [done|].
  apply budget_fits_dims. intros d. rewrite get_available, Hw, get_zero, Hcap, Ht by done. specialize (Hfit d). lia.
Qed.

(** ** Sessions *)
Definition session_entry (s : ActiveSessionRecord) : string * SandboxResources := (s.(as_sandbox_id), s.(as_resources)).
Definition active_map (l : list ActiveSessionRecord) : gmap string SandboxResources := list_to_map (session_entry <$> l).
Definition ids (l : list ActiveSessionRecord) : list string := as_sandbox_id <$> l.
Lemma fst_entries l : (session_entry <$> l).*1 = ids l.
Proof. unfold ids. by rewrite <- list_fmap_compose. Qed.
Lemma active_map_lookup l id : active_map l !! id = None <-> id ∉ ids l.
Proof. unfold active_map. rewrite <- not_elem_of_list_to_map, fst_entries. done. Qed.
Lemma active_map_snoc l s : s.(as_sandbox_id) ∉ ids l ->
  active_map (l ++ [s]) = <[s.(as_sandbox_id) := s.(as_resources)]> (active_map l).
Proof.
  intros Hn. unfold active_map. rewrite fmap_app.
  change (session_entry <$> [s]) with [(s.(as_sandbox_id), s.(as_resources))].
  rewrite list_to_map_snoc; [done|]. by rewrite fst_entries.
Qed.
Lemma filter_other id l : id ∉ ids l -> List.filter (fun s => negb (is_session id s)) l = l.
Proof.
  unfold ids. induction l as [|s l IH]; [done|]. cbn [fmap list_fmap List.filter]. intros [H1 H2]%not_elem_of_cons.
  unfold is_session at 1. rewrite (proj2 (String.eqb_neq _ _)) by congruence. cbn [negb]. by rewrite IH.
Qed.
Lemma ids_filter f l : ids (List.filter f l) `sublist_of` ids l.
Proof. unfold ids. induction l as [|s l IH]; cbn; [done|]. destruct (f s); cbn; by constructor. Qed.
Lemma active_map_remove id l : NoDup (ids l) ->
  active_map (List.filter (fun s => negb (is_session id s)) l) = delete id (active_map l).
Proof.
  induction l as [|s l IH]; cbn [List.filter]; intros Hnd; [symmetry; apply delete_empty|].
  apply NoDup_cons in Hnd as [Hs Hnd]. unfold is_session at 1.
  change (active_map (s :: l)) with (<[s.(as_sandbox_id) := s.(as_resources)]> (active_map l)).
  destruct (String.eqb_spec (as_sandbox_id s) id) as [<-|Hne]; cbn [negb].
  - rewrite filter_other by done. rewrite delete_insert_id; [done|]. by apply active_map_lookup.
  - rewrite delete_insert_ne by done. rewrite <- IH by done. done.
Qed.
Lemma filter_length_id id l : List.length (List.filter (fun s => negb (is_session id s)) l) = length l -> id ∉ ids l.
Proof.
  induction l as [|s l IH]; cbn [List.filter]; intros Hl; [apply not_elem_of_nil|].
  pose proof (List.filter_length_le (fun s => negb (is_session id s)) l) as Hle. revert Hl. unfold is_session at 1.
  destruct (String.eqb_spec (as_sandbox_id s) id) as [<-|Hne]; cbn [negb length]; intros Hl; [lia|].
  apply not_elem_of_cons. split; [congruence|]. apply IH. lia.
Qed.
Lemma find_session_none id l : List.find (is_session id) l = None <-> id ∉ ids l.
Proof.
  induction l as [|s l IH]; cbn [List.find]; [split; [intros _; apply not_elem_of_nil|done]|].
  unfold ids. cbn [fmap list_fmap]. rewrite not_elem_of_cons. unfold is_session at 1.
  destruct (String.eqb_spec (as_sandbox_id s) id) as [<-|Hne]; [split; [done|by intros [[] _]]|].
  rewrite IH. unfold ids. split; [intros; split; congruence|tauto].
Qed.
Lemma set_deadline_map id e l l' : set_deadline id e l = Some l' -> session_entry <$> l' = session_entry <$> l.
Proof.
  revert l'. induction l as [|s l IH]; intros l'; cbn [set_deadline]; [done|].
  destruct (is_session id s); [by intros [= <-]|]. destruct (set_deadline id e l) as [k|]; [|done].
  intros [= <-]. cbn. f_equal. by apply IH.
Qed.

(** ** The store and its files *)
Section Store.
Context `{Json (list ActiveSessionRecord), !JsonRoundtrip (list ActiveSessionRecord)}.
(** The sessions in memory are [l], unlocked, and so are those on disk. *)
Definition holds (files : option string) (l : list ActiveSessionRecord) (s : StateStore * World) : Prop :=
  s.1.(st_active) = mk_locked l false /\
  forall dir, files = Some dir -> document s.2.(HostFs.files) (active_path dir) = Ok l.
Lemma bind_pm {A B} (m : PM A) (k : A -> PM B) s :
  (x ← m; k x) s = match m s with (s', Ok a) => k a s' | (s', Err e) => (s', Err e) end.
Proof. done. Qed.
Lemma load_active_holds files l s : holds files l s -> on_store load_active s = (s, Ok l).
Proof. destruct s as [st w]. intros [Hs _]. cbn in Hs. unfold on_store, load_active. by rewrite Hs. Qed.
(** Replacing the sessions: all or nothing. *)
Lemma replace_active_holds files l l' s : holds files l s ->
  exists s' r, replace_active files l l' s = (s', r) /\
    holds files (match r with Ok _ => l' | Err _ => l end) s'.
Proof.
  destruct s as [[a sn lg] w]. intros [Hs Hd]. cbn in Hs, Hd. subst a. unfold replace_active.
  rewrite bind_pm. cbn [on_store save_active st_active lock_named lock_poisoned guarded].
  unfold or_undo, persist_active. destruct files as [dir|].
  - rewrite bind_pm. cbn [on_store load_active st_active lock_named lock_poisoned guarded].
    unfold on_host. cbn [st_snapshots st_logs]. destruct (file_save_active dir l' w) as [w' r] eqn:E.
    apply save_active_document in E as [_ D]; [|assumption].
    destruct r as [[]|e]; eexists _, _; (split; [reflexivity|]); (split; [done|]); intros dir' [= <-]; cbn; rewrite D; auto.
  - eexists _, _. split; [reflexivity|]. split; [done|]. by intros dir [=].
Qed.
(** What only looks at the sessions keeps them. *)
Lemma persist_active_holds files l s : holds files l s ->
  exists s' r, persist_active files s = (s', r) /\ holds files l s'.
Proof.
  intros Hh. unfold persist_active. destruct files as [dir|]; [|by eexists _, _].
  rewrite bind_pm, (load_active_holds (Some dir) l) by done. destruct s as [st w]. unfold on_host.
  destruct (file_save_active dir l w) as [w' r] eqn:E. eexists _, _. split; [reflexivity|].
  apply save_active_document in E as [_ D]; [|assumption]. destruct Hh as [Hs Hd]. split; [done|].
  intros dir' [= <-]. cbn. rewrite D. destruct r; [done|]. by apply Hd.
Qed.
End Store.
Section SnapshotStore.
Context `{Json (list SnapshotRecord), Json (list ActiveSessionRecord)}.
(** Operations on snapshots leave the sessions alone. *)
Lemma replace_snapshots_holds files o sn l s : holds files l s ->
  exists s' r, replace_snapshots files o sn s = (s', r) /\ holds files l s'.
Proof.
  destruct s as [[a sn0 lg] w]. intros [Hs Hd]. cbn in Hs, Hd. subst a. unfold replace_snapshots. rewrite bind_pm.
  unfold on_store at 1, save_snapshots at 1. cbn [st_active st_snapshots st_logs].
  destruct (lock_named "snapshot" sn0) as [cur|e] eqn:El; [|by eexists _, _].
  unfold or_undo, persist_snapshots. destruct files as [dir|].
  - rewrite bind_pm. unfold on_store at 1, load_snapshots at 1. cbn [st_snapshots].
    unfold lock_named at 1. unfold lock_named in El. cbn [lock_poisoned guarded]. destruct (lock_poisoned sn0); [done|]. unfold on_host.
    destruct (file_save_snapshots dir sn w) as [w' r] eqn:E.
    assert (Hdoc : document (A:=list ActiveSessionRecord) w'.(files) (active_path dir) = document w.(files) (active_path dir)).
    { apply document_ext. unfold file_save_snapshots in E. apply write_json_cases in E as [Ho _].
      - apply Ho; rewrite ?snapshots_tmp; store_paths.
      - rewrite snapshots_tmp. store_paths. }
    destruct r as [[]|e]; eexists _, _; (split; [reflexivity|]); (split; [done|]); intros dir' [= <-]; cbn; rewrite Hdoc; auto.
  - eexists _, _. split; [reflexivity|]. split; [done|]. by intros dir [=].
Qed.
End SnapshotStore.

(** ** Triples over the backend's monad *)
Section Triples.
Context {D : Type}.
Definition triple {A} (P : Node D -> Prop) (m : BM D A) (Q : result Error A -> Node D -> Prop) : Prop :=
  forall n, P n -> Q (m n).2 (m n).1.
Lemma triple_bind {A B} P (m : BM D A) (k : A -> BM D B) R Q :
  triple P m (fun r n => match r with Ok a => R a n | Err e => Q (Err e) n end) ->
  (forall a, triple (R a) (k a) Q) -> triple P (x ← m; k x) Q.
Proof.
  intros Hm Hk n Hn. specialize (Hm n Hn). unfold mbind, BM_bind. destruct (m n) as [n' [a|e]]; cbn in *; [by apply Hk|done].
Qed.
Lemma triple_conseq {A} (P P' : Node D -> Prop) (m : BM D A) (Q Q' : result Error A -> Node D -> Prop) :
  triple P' m Q' -> (forall n, P n -> P' n) -> (forall r n, Q' r n -> Q r n) -> triple P m Q.
Proof. intros Hm HP HQ n Hn. apply HQ, Hm, HP, Hn. Qed.
(** A part after which only success matters to what follows, and which keeps [P]. *)
Lemma triple_keep {A B} P (m : BM D A) (k : A -> BM D B) (Q : result Error B -> Node D -> Prop) :
  triple P m (fun _ => P) -> (forall e n, P n -> Q (Err e) n) -> (forall a, triple P (k a) Q) -> triple P (x ← m; k x) Q.
Proof.
  intros Hm He Hk. apply (triple_bind P m k (fun _ => P)); [|done]. eapply triple_conseq; [exact Hm|done|].
  intros [a|e] n Hn; auto.
Qed.
Lemma triple_ret {A} (P : Node D -> Prop) (a : A) : triple P (mret a) (fun _ => P).
Proof. by intros n Hn. Qed.

(** [node_ok l m]: sessions [l] in memory and on disk, [m] admitted. *)
Context `{Json (list ActiveSessionRecord), !JsonRoundtrip (list ActiveSessionRecord)}.
(** The limits of the scheduler. *)
Context (cfg : SingleNodeSchedulerConfig).
Definition node_ok (l : list ActiveSessionRecord) (m : gmap string SandboxResources) (n : Node D) : Prop :=
  holds n.(nd_files) l (n.(nd_state), n.(nd_world)) /\ is_Some n.(nd_driver) /\
  poisoned n.(nd_scheduler) = false /\ scheduler_inv n.(nd_scheduler) /\ config n.(nd_scheduler) = cfg /\
  admitted (inner n.(nd_scheduler)) = m.
Definition accounts (l : list ActiveSessionRecord) (n : Node D) : Prop := NoDup (ids l) /\ node_ok l (active_map l) n.

Lemma triple_accounts {A} l (c : BM D A) Q :
  (NoDup (ids l) -> triple (node_ok l (active_map l)) c Q) -> triple (accounts l) c Q.
Proof. intros Hc n [Hnd Hn]. by apply Hc. Qed.
Lemma triple_disk l m what env : triple (node_ok l m) (check_disk_pressure what env) (fun _ => node_ok l m).
Proof.
  intros n Hn. unfold check_disk_pressure. destruct (nd_guard n) as [g|]; [|done].
  by destruct (guard_check g what (en_disk env)) as [g' r].
Qed.
Lemma triple_driver {A} l m (f : D -> D * result Error A) : triple (node_ok l m) (on_driver f) (fun r n =>
  node_ok l m n /\ forall a, r = Ok a -> exists d d', f d = (d', Ok a)).
Proof.
  intros n Hn. destruct Hn as (Hh & [d Hd] & Hr). unfold on_driver. rewrite Hd. destruct (f d) as [d' r] eqn:E. cbn.
  split; [refine (conj Hh (conj _ Hr)); by eexists|]. intros a ->. eauto.
Qed.
Lemma triple_driver_keep {A} l m (f : D -> D * result Error A) : triple (node_ok l m) (on_driver f) (fun _ => node_ok l m).
Proof. eapply triple_conseq; [apply triple_driver|done|]. by intros r n [? _]. Qed.
Lemma triple_need l m : triple (node_ok l m) need_driver (fun r n => node_ok l m n /\ r = Ok tt).
Proof. intros n Hn. unfold need_driver. pose proof Hn as (_ & [d Hd] & _). by rewrite Hd. Qed.
Lemma triple_state {A} l m (f : option string -> PM A) (l' : result Error A -> list ActiveSessionRecord) :
  (forall files s, holds files l s -> exists s' r, f files s = (s', r) /\ holds files (l' r) s') ->
  triple (node_ok l m) (on_state f) (fun r n => node_ok (l' r) m n).
Proof.
  intros Hf n (Hh & Hd & Hr). unfold on_state. destruct (Hf _ _ Hh) as ([st w] & r & -> & Hh'). cbn. done.
Qed.
Lemma triple_admit l m id r : resources_typed r -> m !! id = None ->
  triple (node_ok l m) (on_scheduler (fun s => scheduler_admit s id r)) (fun o n =>
    node_ok l (match o with Ok _ => <[id := r]> m | Err _ => m end) n).
Proof.
  intros Hr Hm n (Hh & Hd & Hp & Hi & Hc & Ha). unfold on_scheduler.
  destruct (scheduler_admit_cases (nd_scheduler n) id r Hi Hr Hp) as (s' & o & -> & Hi' & Hp' & Hc' & Ha'); [congruence|].
  refine (conj Hh (conj Hd (conj Hp' (conj Hi' (conj _ _))))); cbn; [congruence|]. rewrite Ha'. destruct o; congruence.
Qed.
Lemma triple_release l m id : triple (node_ok l m) (release_session id) (fun o n => node_ok l (delete id m) n /\ o = Ok tt).
Proof.
  intros n (Hh & Hd & Hp & Hi & Hc & Ha). unfold release_session, on_scheduler.
  destruct (scheduler_release_cases (nd_scheduler n) id Hi Hp) as (s' & -> & Hi' & Hp' & Hc' & Ha').
  split; [|done]. refine (conj Hh (conj Hd (conj Hp' (conj Hi' (conj _ _))))); cbn; congruence.
Qed.
Lemma triple_release_keep l m id : triple (node_ok l m) (release_session id) (fun _ => node_ok l (delete id m)).
Proof. eapply triple_conseq; [apply triple_release|done|]. by intros r n [? _]. Qed.
Lemma triple_ignore {A} P Q (m : BM D A) : triple P m (fun _ => Q) -> triple P (ignore m) (fun r n => Q n /\ r = Ok tt).
Proof. intros Hm n Hn. by split; [apply (Hm n Hn)|]. Qed.
Lemma triple_undo {A B} P (m : BM D A) (undo : BM D B) (Q R : Node D -> Prop) (S : A -> Node D -> Prop) :
  triple P m (fun r n => match r with Ok a => S a n | Err _ => Q n end) -> triple Q undo (fun _ => R) ->
  triple P (undo_on_error m undo) (fun r n => match r with Ok a => S a n | Err _ => R n end).
Proof.
  intros Hm Hu n Hn. specialize (Hm n Hn). unfold undo_on_error. destruct (m n) as [n' [a|e]]; [done|].
  by apply (Hu n').
Qed.
Lemma triple_or_clean {A} P (m : BM D unit) (cleanup : Error -> BM D A) a (Q : result Error A -> Node D -> Prop) R :
  triple P m (fun r n => match r with Ok _ => Q (Ok a) n | Err _ => R n end) ->
  (forall e, triple R (cleanup e) Q) -> triple P (or_clean m cleanup a) Q.
Proof.
  intros Hm Hc n Hn. specialize (Hm n Hn). unfold or_clean. destruct (m n) as [n' [[]|e]]; [done|]. by apply (Hc e n').
Qed.
End Triples.

(** ** The operations *)
Section Operations.
Context {D : Type} `{RuntimeDriver D}.
Context `{Json (list ActiveSessionRecord), Json (list SnapshotRecord), Json Logs}.
Context `{!JsonRoundtrip (list ActiveSessionRecord)}.
Context (cfg : SingleNodeSchedulerConfig).
Abbreviation others id l := (List.filter (fun s => negb (is_session id s)) l).

Lemma ensure_active_holds id files l s : holds files l s ->
  exists s' r, ensure_active id files s = (s', r) /\ holds files l s'.
Proof using All.
  intros Hh. unfold ensure_active. rewrite bind_pm, (load_active_holds files l) by done.
  destruct (List.find _ l); by eexists _, _.
Qed.
Lemma upsert_active_holds session files l s : session.(as_sandbox_id) ∉ ids l -> holds files l s ->
  exists s' r, upsert_active session files s = (s', r) /\
    holds files (match r with Ok _ => l ++ [session] | Err _ => l end) s'.
Proof using All.
  intros Hn Hh. unfold upsert_active. rewrite bind_pm, (load_active_holds files l) by done.
  rewrite filter_other by done. by apply replace_active_holds.
Qed.
Lemma remove_active_holds id files l s : holds files l s ->
  exists s' r, remove_active id files s = (s', r) /\ holds files (match r with Ok _ => others id l | Err _ => l end) s'.
Proof using All.
  intros Hh. unfold remove_active. rewrite bind_pm, (load_active_holds files l) by done. cbv zeta.
  case_decide; [by eexists _, _|]. by apply replace_active_holds.
Qed.
Lemma snapshot_holds files l s snapshot : holds files l s ->
  exists s' r, upsert_snapshot snapshot files s = (s', r) /\ holds files l s'.
Proof using All.
  intros Hh. unfold upsert_snapshot. rewrite bind_pm. destruct s as [st w]. unfold on_store, load_snapshots.
  destruct (lock_named "snapshot" (st_snapshots st)) as [o|e]; [|by eexists _, _]. by apply replace_snapshots_holds.
Qed.
Lemma remove_snapshot_holds files l s id : holds files l s ->
  exists s' r, remove_snapshot id files s = (s', r) /\ holds files l s'.
Proof using All.
  intros Hh. unfold remove_snapshot. rewrite bind_pm. destruct s as [st w]. unfold on_store, load_snapshots.
  destruct (lock_named "snapshot" (st_snapshots st)) as [o|e]; [|by eexists _, _]. cbv zeta.
  case_decide; [by eexists _, _|]. by apply replace_snapshots_holds.
Qed.
Lemma ensure_snapshot_holds files l s id : holds files l s ->
  exists s' r, ensure_snapshot id files s = (s', r) /\ holds files l s'.
Proof using All.
  intros Hh. unfold ensure_snapshot. rewrite bind_pm. destruct s as [st w]. unfold on_store, load_snapshots.
  destruct (lock_named "snapshot" (st_snapshots st)) as [o|e]; [|by eexists _, _].
  destruct (List.find _ o); by eexists _, _.
Qed.
Lemma triple_ensure l m id : triple (node_ok (D:=D) cfg l m) (on_state (ensure_active id)) (fun _ => node_ok cfg l m).
Proof using All. apply (triple_state cfg l m _ (fun _ => l)). intros files s. apply ensure_active_holds. Qed.

(** The session [create] and [restore] record. *)
Definition started (env : Surroundings) (q : SingleNodeCreateRequest) (c : RuntimeCreatedSandbox) : ActiveSessionRecord :=
  let now := now_unix_seconds env.(en_clock) in
  mk_active c.(rc_sandbox_id) q.(cr_template_id) c.(rc_client_id) c.(rc_envd_access_token) now
    (deadline now (default (from_mins 5) q.(cr_timeout))) q.(cr_resources) true.
(** What starting a session promises: recorded and admitted, or nothing. *)
Definition start_post (l : list ActiveSessionRecord) (env : Surroundings) (q : SingleNodeCreateRequest)
    (r : result Error RuntimeCreatedSandbox) (n : Node D) : Prop :=
  match r with
  | Ok c => c.(rc_sandbox_id) = q.(cr_sandbox_id) /\ accounts cfg (l ++ [started env q c]) n
  | Err _ => accounts cfg l n
  end.
Definition admitted_with (l : list ActiveSessionRecord) (q : SingleNodeCreateRequest) : gmap string SandboxResources :=
  <[q.(cr_sandbox_id) := q.(cr_resources)]> (active_map l).
Lemma admitted_with_release l q : q.(cr_sandbox_id) ∉ ids l -> delete q.(cr_sandbox_id) (admitted_with l q) = active_map l.
Proof using All. intros Hn. apply delete_insert_id. by apply active_map_lookup. Qed.
(** The second half: the driver has created the sandbox [c]. *)
Lemma record_session_ok l env q c :
  NoDup (ids l) -> q.(cr_sandbox_id) ∉ ids l -> c.(rc_sandbox_id) = q.(cr_sandbox_id) ->
  triple (node_ok (D:=D) cfg l (admitted_with l q)) (or_clean (on_state (upsert_active (started env q c)))
    (fun e => _ ← need_driver; _ ← ignore (on_driver (drv_delete c.(rc_sandbox_id)));
      _ ← ignore (release_session q.(cr_sandbox_id)); raise e) c) (start_post l env q).
Proof using All.
  intros Hnd Hfresh Hc. assert (Hs : as_sandbox_id (started env q c) ∉ ids l) by (cbn; by rewrite Hc).
  apply (triple_or_clean _ _ _ _ _ (node_ok cfg l (admitted_with l q))).
  - eapply triple_conseq; [apply (triple_state cfg l (admitted_with l q) _ (fun r => match r with Ok _ => l ++ [started env q c] | Err _ => l end))|done|].
    { intros files s. by apply upsert_active_holds. }
    intros [[]|e] n Hn; [|done]. split; [done|]. split.
    + unfold ids. rewrite fmap_app. apply NoDup_app. split_and!; [done| |cbn; apply NoDup_singleton].
      intros x Hx. cbn. rewrite list_elem_of_singleton. intros ->. by apply Hs.
    + rewrite active_map_snoc by done. cbn. by rewrite Hc.
  - intros e. apply (triple_bind _ _ _ (fun _ => node_ok cfg l (admitted_with l q))).
    { eapply triple_conseq; [apply triple_need|done|]. by intros r n [Hn ->]. }
    intros _. apply (triple_bind _ _ _ (fun _ => node_ok cfg l (admitted_with l q))).
    { eapply triple_conseq; [apply triple_ignore, triple_driver_keep|done|]. by intros r n [Hn ->]. }
    intros _. apply (triple_bind _ _ _ (fun _ => node_ok cfg l (active_map l))).
    { eapply triple_conseq; [apply triple_ignore, triple_release_keep|done|].
      intros r n [Hn ->]. by rewrite admitted_with_release in Hn. }
    intros _ n Hn. by split.
Qed.
Lemma start_session_ok l operation start env q :
  (forall d d' c, start d = (d', Ok c) -> c.(rc_sandbox_id) = q.(cr_sandbox_id)) ->
  q.(cr_sandbox_id) ∉ ids l -> resources_typed q.(cr_resources) ->
  triple (accounts (D:=D) cfg l) (start_session operation start env q) (start_post l env q).
Proof using All.
  intros Hlaw Hfresh Hr. apply triple_accounts. intros Hnd.
  assert (Hm : active_map l !! q.(cr_sandbox_id) = None) by by apply active_map_lookup.
  unfold start_session. apply triple_keep; [apply triple_disk|by intros e n Hn; split|]. intros _.
  apply (triple_bind _ _ _ (fun _ => node_ok cfg l (admitted_with l q))).
  { eapply triple_conseq; [by apply triple_admit|done|]. intros [[]|e] n Hn; [done|by split]. }
  intros _. apply (triple_bind _ _ _ (fun _ => node_ok cfg l (admitted_with l q))).
  { eapply triple_conseq; [apply triple_need|done|]. by intros r n [Hn ->]. }
  intros _. apply (triple_bind _ _ _ (fun c n => node_ok cfg l (admitted_with l q) n /\ c.(rc_sandbox_id) = q.(cr_sandbox_id))).
  { eapply triple_conseq; [apply (triple_undo _ _ _ (node_ok cfg l (admitted_with l q)) (node_ok cfg l (active_map l))
      (fun c n => node_ok cfg l (admitted_with l q) n /\ c.(rc_sandbox_id) = q.(cr_sandbox_id)))|done|].
    - eapply triple_conseq; [apply triple_driver|done|]. intros [c|e] n [Hn Hc]; [|done]. split; [done|].
      destruct (Hc c eq_refl) as (d & d' & Hs). by apply Hlaw in Hs.
    - eapply triple_conseq; [apply triple_release_keep|done|]. intros r n Hn. by rewrite admitted_with_release in Hn.
    - intros [c|e] n Hn; [done|]. by split. }
  intros c n [Hn Hc]. by apply record_session_ok.
Qed.
(** Deleting a session gives back what it reserved, or changes nothing. *)
Lemma delete_session_ok l id : triple (accounts (D:=D) cfg l) (delete_session id) (fun r n =>
  match r with Ok _ => id ∈ ids l /\ accounts cfg (others id l) n | Err _ => accounts cfg l n end).
Proof using All.
  apply triple_accounts. intros Hnd. apply triple_keep; [apply triple_ensure|by intros e n Hn; split|]. intros _.
  apply triple_keep; [apply triple_driver_keep|by intros e n Hn; split|]. intros _.
  apply (triple_bind _ _ _ (fun _ n => node_ok cfg (others id l) (active_map l) n /\ id ∈ ids l)).
  - intros n Hn. pose proof Hn as (Hh & _).
    pose proof (triple_state cfg l (active_map l) (remove_active id) (fun r => match r with Ok _ => others id l | Err _ => l end)
      (fun files s => remove_active_holds id files l s) n Hn) as Hq.
    destruct (on_state (remove_active id) n) as [n' [[]|e]] eqn:E; cbn in *; [|by split].
    split; [done|]. destruct (decide (id ∈ ids l)) as [|Hni]; [done|]. exfalso. revert E.
    unfold on_state, remove_active. rewrite bind_pm, (load_active_holds (nd_files n) l) by done. cbv zeta.
    rewrite decide_True; [done|]. by rewrite filter_other.
  - intros _ n [Hn Hin]. pose proof (triple_release cfg (others id l) (active_map l) id n Hn) as [Hq Hr].
    unfold mbind, BM_bind. destruct (release_session id n) as [n' r]. cbn in Hq, Hr. subst r. cbn. split; [done|]. split.
    + eapply sublist_NoDup; [exact Hnd|apply ids_filter].
    + by rewrite active_map_remove.
Qed.
Lemma update_deadline_ok l env id timeout : triple (accounts (D:=D) cfg l) (update_deadline env id timeout) (fun r n =>
  match r with
  | Ok _ => exists l', set_deadline id (deadline (now_unix_seconds env.(en_clock)) timeout) l = Some l' /\ accounts cfg l' n
  | Err _ => accounts cfg l n
  end).
Proof using All.
  intros n [Hnd Hn]. set (e := deadline (now_unix_seconds env.(en_clock)) timeout).
  assert (Hf : forall files s, holds files l s -> exists s' (r : result Error unit),
    (original ← on_store load_active;
     match set_deadline id e original with None => pm_fail (sandbox_missing id) | Some active => replace_active files original active end) s
      = (s', r) /\ holds files (match r with Ok _ => default l (set_deadline id e l) | Err _ => l end) s').
  { intros files s Hh. rewrite bind_pm, (load_active_holds files l) by done.
    destruct (set_deadline id e l) as [l'|]; [by apply replace_active_holds|by eexists _, _]. }
  pose proof (triple_state cfg l (active_map l) _ _ Hf n Hn) as Hq. unfold update_deadline. fold e. cbv zeta.
  destruct (on_state _ n) as [n' [[]|err]] eqn:E; cbn [fst snd] in *; [|by split].
  destruct (set_deadline id e l) as [l'|] eqn:El.
  - exists l'. split; [done|]. apply set_deadline_map in El as Hm. split.
    + rewrite <- fst_entries, Hm, fst_entries. done.
    + cbn in Hq. unfold active_map. rewrite Hm. exact Hq.
  - exfalso. revert E. pose proof Hn as (Hh & _). unfold on_state. rewrite bind_pm, (load_active_holds (nd_files n) l) by done.
    by rewrite El.
Qed.
(** The other operations leave the sessions alone. *)
Lemma snapshot_ok l env id name metadata :
  triple (accounts (D:=D) cfg l) (snapshot_with_metadata env id name metadata) (fun _ => accounts cfg l).
Proof using All.
  apply triple_accounts. intros Hnd. unfold snapshot_with_metadata.
  apply triple_keep; [apply triple_disk|by split|]. intros _.
  apply triple_keep; [apply triple_ensure|by split|]. intros _.
  apply triple_keep; [apply triple_driver_keep|by split|]. intros snapshot.
  apply (triple_or_clean _ _ _ _ _ (node_ok cfg l (active_map l))).
  - eapply triple_conseq; [apply (triple_state cfg l (active_map l) _ (fun _ => l)); intros files s; apply snapshot_holds|done|].
    intros [] n Hn; [by split|done].
  - intros e. apply (triple_bind _ _ _ (fun _ => node_ok cfg l (active_map l))).
    { eapply triple_conseq; [apply triple_need|done|]. by intros r n [Hn ->]. }
    intros _. apply (triple_bind _ _ _ (fun _ => node_ok cfg l (active_map l))).
    { eapply triple_conseq; [apply triple_ignore, triple_driver_keep|done|]. by intros r n [Hn ->]. }
    intros _ n Hn. by split.
Qed.
Lemma delete_snapshot_ok l id : triple (accounts (D:=D) cfg l) (delete_snapshot id) (fun _ => accounts cfg l).
Proof using All.
  apply triple_accounts. intros Hnd. unfold delete_snapshot. apply triple_keep; [|by split|].
  { apply (triple_state cfg l (active_map l) _ (fun _ => l)). intros files s. apply ensure_snapshot_holds. }
  intros _. apply triple_keep; [apply triple_driver_keep|by split|]. intros _.
  eapply triple_conseq; [apply (triple_state cfg l (active_map l) _ (fun _ => l)); intros files s; apply remove_snapshot_holds|done|].
  by split.
Qed.
Lemma pass_on_ok {A} l id (f : D -> D * result Error A) :
  triple (accounts (D:=D) cfg l) (_ ← on_state (ensure_active id); on_driver f) (fun _ => accounts cfg l).
Proof using All.
  apply triple_accounts. intros Hnd. apply triple_keep; [apply triple_ensure|by split|]. intros _.
  eapply triple_conseq; [apply triple_driver_keep|done|]. by split.
Qed.
Lemma run_template_start_ok l lossy id metadata envs :
  triple (accounts (D:=D) cfg l) (run_template_start lossy id metadata envs) (fun _ => accounts cfg l).
Proof using All.
  apply triple_accounts. intros Hnd. unfold run_template_start. apply triple_keep; [apply triple_ensure|by split|]. intros _.
  apply triple_keep; [destruct (tm_start_cmd metadata); [apply triple_driver_keep|apply triple_ret]|by split|]. intros _.
  destruct (tm_ready_cmd metadata); [|by intros n Hn; split].
  apply triple_keep; [apply triple_driver_keep|by split|]. intros output. destruct (command_success output); by intros n Hn; split.
Qed.

(** ** Runs of a node *)
(** One operation, with any surroundings, or a change of the host outside the
    session document (other files, and what will fail next).  Creating and
    restoring under an identity in use is left out: the code accepts it, and
    [start_again_ok] shows what it does to the accounts; so does
    [driverless_create_keeps_its_reservation] for a node without a driver. *)
Inductive node_step (n : Node D) : Node D -> Prop :=
| step_create env q : q.(cr_sandbox_id) ∉ ids (guarded n.(nd_state).(st_active)) -> resources_typed q.(cr_resources) ->
    node_step n (create env q n).1
| step_restore env q s : q.(cr_sandbox_id) ∉ ids (guarded n.(nd_state).(st_active)) -> resources_typed q.(cr_resources) ->
    node_step n (restore env q s n).1
| step_delete id : node_step n (delete_session id n).1
| step_snapshot env id name metadata : node_step n (snapshot_with_metadata env id name metadata n).1
| step_delete_snapshot id : node_step n (delete_snapshot id n).1
| step_command id q : node_step n (run_command id q n).1
| step_process id c : node_step n (process_call id c n).1
| step_start_template id command envs : node_step n (start_template_command id command envs n).1
| step_template lossy id metadata envs : node_step n (run_template_start lossy id metadata envs n).1
| step_deadline env id timeout : node_step n (update_deadline env id timeout n).1
| step_host w : (forall dir, n.(nd_files) = Some dir -> w.(files) !! active_path dir = n.(nd_world).(files) !! active_path dir) ->
    node_step n (mk_node n.(nd_config) n.(nd_scheduler) n.(nd_driver) n.(nd_state) n.(nd_files) n.(nd_guard) w).
Lemma accounts_sessions l (n : Node D) : accounts cfg l n -> guarded n.(nd_state).(st_active) = l.
Proof using. intros (_ & [Hs _] & _). cbn in Hs. by rewrite Hs. Qed.
Lemma node_step_accounts `{!DriverLaws D} l n n' : accounts cfg l n -> node_step n n' -> exists l', accounts cfg l' n'.
Proof using All.
  intros Hn Hstep. pose proof (accounts_sessions l n Hn) as Hl. destruct Hstep as [env q Hf Hr|env q s Hf Hr| | | | | | | | |].
  - rewrite Hl in Hf. pose proof (start_session_ok l "sandbox create" (drv_create q) env q (create_identity q) Hf Hr n Hn) as Hq.
    unfold start_post in Hq. unfold create. destruct (start_session _ _ env q n) as [n' [c|e]]; cbn [fst snd] in *; [destruct Hq|]; eauto.
  - rewrite Hl in Hf. pose proof (start_session_ok l "sandbox restore" (drv_restore q s) env q (restore_identity q s) Hf Hr n Hn) as Hq.
    unfold start_post in Hq. unfold restore. destruct (start_session _ _ env q n) as [n' [c|e]]; cbn [fst snd] in *; [destruct Hq|]; eauto.
  - pose proof (delete_session_ok l id n Hn) as Hq. destruct (delete_session id n) as [n' [[]|e]]; cbn [fst snd] in *; [destruct Hq|]; eauto.
  - eexists. by apply snapshot_ok.
  - eexists. by apply delete_snapshot_ok.
  - eexists. by apply pass_on_ok.
  - eexists. by apply pass_on_ok.
  - eexists. by apply pass_on_ok.
  - eexists. by apply run_template_start_ok.
  - pose proof (update_deadline_ok l env id timeout n Hn) as Hq.
    destruct (update_deadline env id timeout n) as [n' [[]|e]]; cbn [fst snd] in *; [destruct Hq as (l' & _ & Hq)|]; eauto.
  - exists l. destruct Hn as (Hnd & (Hs & Hd) & Hr). split; [done|]. split; [|exact Hr]. split; [done|].
    intros dir Hdir. cbn in Hdir |- *. rewrite <- (Hd dir Hdir). apply document_ext. cbn. auto.
Qed.
Lemma run_accounts `{!DriverLaws D} l n n' : accounts cfg l n -> rtc node_step n n' -> exists l', accounts cfg l' n'.
Proof using All.
  intros Hn Hr. revert l Hn. induction Hr as [|n1 n2 n3 Hs _ IH]; intros l Hn; [eauto|].
  destruct (node_step_accounts l n1 n2 Hn Hs) as [l' Hl']. eauto.
Qed.
End Operations.

(** ** What the sessions of a node use *)
Definition session_total (d : Dim) (l : list ActiveSessionRecord) : Z := sumZ (fun s => get d (to_budget s.(as_resources))) l.
Lemma admitted_total_active d l : NoDup (ids l) -> admitted_total d (active_map l) = session_total d l.
Proof.
  intros Hnd. unfold admitted_total, active_map. rewrite (sumZ_perm _ _ (session_entry <$> l)).
  - unfold session_total. clear Hnd. induction l as [|s l IH]; cbn; [done|]. by rewrite IH.
  - apply map_to_list_to_map. by rewrite fst_entries.
Qed.
Lemma size_active l : NoDup (ids l) -> size (active_map l) = length l.
Proof.
  intros Hnd. unfold active_map. rewrite map_size_list_to_map by by rewrite fst_entries. by rewrite length_fmap.
Qed.
(** Sessions that a scheduler with limits [c] can hold together. *)
Definition within (c : SingleNodeSchedulerConfig) (l : list ActiveSessionRecord) : Prop :=
  Z.of_nat (length l) <= max_sessions c /\
  Forall (fun s => resources_typed s.(as_resources)) l /\
  forall d, session_total d l <= get d (to_budget (resources c)).
Lemma within_sublist c l k : l `sublist_of` k -> within c k -> within c l.
Proof.
  intros Hs (H1 & H2 & H3). split_and!.
  - pose proof (sublist_length _ _ Hs). lia.
  - clear H1 H3. induction Hs; inversion_clear H2; auto.
  - intros d. specialize (H3 d). enough (session_total d l <= session_total d k) by lia. clear H1 H3. unfold session_total.
    induction Hs as [|x l k _ IH|x l k _ IH]; inversion_clear H2 as [|? ? Hx Hl]; cbn [sumZ]; [done|specialize (IH Hl); lia|].
    specialize (IH Hl). pose proof (to_budget_typed _ Hx d). unfold in_uint in *. lia.
Qed.
Section Restart.
Context {D : Type} `{RuntimeDriver D}.
Context `{Json (list ActiveSessionRecord), Json (list SnapshotRecord), Json Logs}.
Context `{!JsonRoundtrip (list ActiveSessionRecord)}.
Lemma accounts_within cfg l (n : Node D) : accounts cfg l n -> within cfg l.
Proof using.
  intros (Hnd & _ & _ & _ & (Hl & Hw & Hcap & Hm & Ht & Hlen) & Hc & Ha). rewrite Ha, Hc in *. split_and!.
  - by rewrite size_active in Hlen.
  - apply Forall_forall. intros s Hs. apply (Hm s.(as_sandbox_id)).
    apply elem_of_list_to_map; [by rewrite fst_entries|]. by apply (list_elem_of_fmap_2 session_entry).
  - intros d. rewrite <- admitted_total_active, <- Ht, <- Hcap by done. destruct Hl as [_ Hl]. specialize (Hl d).
    rewrite Hw, get_zero in Hl. lia.
Qed.

(** The sessions a restart keeps. *)
Definition survives (now : Z) (live : string -> bool) (s : ActiveSessionRecord) : bool :=
  (now <? s.(as_end_at)) && (negb s.(as_runtime_attached) || live s.(as_sandbox_id)).
Definition with_sched (n : Node D) (s : SingleNodeScheduler) : Node D :=
  mk_node n.(nd_config) s n.(nd_driver) n.(nd_state) n.(nd_files) n.(nd_guard) n.(nd_world).
Lemma readmit_ok d live todo : forall acc n,
  nd_driver n = Some d -> (forall s, s ∈ todo -> runtime_sandbox_exists s.(as_sandbox_id) d = Ok (live s.(as_sandbox_id))) ->
  poisoned n.(nd_scheduler) = false -> scheduler_inv n.(nd_scheduler) -> admitted (inner n.(nd_scheduler)) = active_map acc ->
  NoDup (ids (acc ++ todo)) -> within (config n.(nd_scheduler)) (acc ++ todo) ->
  let kept := acc ++ List.filter (fun s => negb s.(as_runtime_attached) || live s.(as_sandbox_id)) todo in
  exists s', readmit todo acc n = (with_sched n s', Ok kept) /\ poisoned s' = false /\ scheduler_inv s' /\
    admitted (inner s') = active_map kept /\ config s' = config n.(nd_scheduler).
Proof using All.
  induction todo as [|s todo IH]; intros acc n Hd Hlive Hp Hi Ha Hnd Hw; cbn zeta; cbn [readmit List.filter].
  { exists (nd_scheduler n). rewrite app_nil_r. split; [by destruct n|]. done. }
  assert (Hex : (if negb s.(as_runtime_attached) then mret true
      else on_driver (fun d => (d, runtime_sandbox_exists s.(as_sandbox_id) d)) : BM D bool) n
    = (n, Ok (negb s.(as_runtime_attached) || live s.(as_sandbox_id)))).
  { destruct (as_runtime_attached s); [|done]. cbn. unfold on_driver. rewrite Hd, Hlive by set_solver.
    destruct n. cbn in *. by subst. }
  unfold mbind at 1, BM_bind at 1. rewrite Hex.
  assert (Hlive' : forall s0, s0 ∈ todo -> runtime_sandbox_exists s0.(as_sandbox_id) d = Ok (live s0.(as_sandbox_id)))
    by (intros; apply Hlive; set_solver).
  destruct (negb (as_runtime_attached s) || live (as_sandbox_id s)).
  - assert (Hs : as_sandbox_id s ∉ ids acc).
    { unfold ids in Hnd. rewrite fmap_app in Hnd. apply NoDup_app in Hnd as (_ & Hd' & _). intros Hin.
      apply (Hd' _ Hin). cbn. set_solver. }
    assert (Hr : resources_typed (as_resources s)).
    { destruct Hw as (_ & HF & _). apply Forall_app in HF as [_ HF]. by inversion HF. }
    assert (Hw1 : within (config n.(nd_scheduler)) (acc ++ [s])).
    { eapply within_sublist; [|exact Hw]. apply sublist_app; [done|]. constructor. apply sublist_nil_l. }
    assert (Hnd1 : NoDup (ids acc)) by (unfold ids in Hnd; rewrite fmap_app in Hnd; by apply NoDup_app in Hnd as [? _]).
    destruct (scheduler_admit_cases (nd_scheduler n) (as_sandbox_id s) (as_resources s) Hi Hr Hp) as (s' & o & E & Hi' & Hp' & Hc' & Ha').
    { rewrite Ha. by apply active_map_lookup. }
    assert (Ho : o = Ok tt).
    { change o with (s', o).2. rewrite <- E. apply scheduler_admit_fits; [done..| | |].
      - rewrite Ha. by apply active_map_lookup.
      - destruct Hw1 as (Hlen & _). rewrite Ha, size_active by done. rewrite length_app in Hlen. cbn in Hlen. lia.
      - intros dm. destruct Hw1 as (_ & _ & Ht). specialize (Ht dm). rewrite Ha, admitted_total_active by done.
        unfold session_total in *. rewrite sumZ_app in Ht. cbn in Ht. lia. }
    subst o. unfold mbind, BM_bind, on_scheduler. rewrite E.
    destruct (IH (acc ++ [s]) (with_sched n s')) as (s2 & E2 & Hs2); cbn [with_sched nd_driver nd_scheduler]; try done.
    + rewrite Ha', Ha, active_map_snoc by done. done.
    + by rewrite <- app_assoc.
    + rewrite <- app_assoc. cbn. by rewrite Hc'.
    + exists s2. cbn zeta in E2. rewrite <- !app_assoc in *. cbn [with_sched nd_scheduler] in Hs2. rewrite Hc' in Hs2. split; [exact E2|exact Hs2].
  - apply IH; try done.
    + unfold ids in *. rewrite fmap_app in *. cbn in Hnd. eapply sublist_NoDup; [exact Hnd|].
      apply sublist_app; [done|]. by constructor.
    + eapply within_sublist; [|exact Hw]. apply sublist_app; [done|]. by constructor.
Qed.
Lemma survives_split now live l :
  List.filter (fun s => negb s.(as_runtime_attached) || live s.(as_sandbox_id)) (List.filter (fun s => now <? s.(as_end_at)) l)
  = List.filter (survives now live) l.
Proof using.
  induction l as [|s l IH]; [done|]. cbn [List.filter]. unfold survives at 1. destruct (now <? as_end_at s); cbn [andb List.filter];
    [|done]. by destruct (_ || _); rewrite IH.
Qed.
(** The sessions of the store after its expired ones are dropped. *)
Lemma reconcile_state_ok env c d st root g m l live :
  st.(st_active) = mk_locked l false -> NoDup (ids l) -> within (nc_scheduler c) l ->
  resources_typed (resources (nc_scheduler c)) -> 0 <= max_sessions (nc_scheduler c) ->
  (forall s, s ∈ l -> runtime_sandbox_exists s.(as_sandbox_id) d = Ok (live s.(as_sandbox_id))) ->
  exists n, reconcile_active_state env (mk_node c (scheduler_new (nc_scheduler c)) (Some d) st (Some root) g (mk_world m [])) = (n, Ok tt) /\
    accounts (nc_scheduler c) (List.filter (survives (now_unix_seconds env.(en_clock)) live) l) n /\
    nd_files n = Some root /\ nd_driver n = Some d /\ st_snapshots (nd_state n) = st_snapshots st.
Proof using All.
  intros Hst Hnd Hw Ht Hm Hlive. set (now := now_unix_seconds env.(en_clock)). set (l1 := List.filter (fun s => now <? s.(as_end_at)) l).
  set (st1 := mk_store (mk_locked l1 false) (st_snapshots st) (st_logs st)).
  set (n1 := mk_node c (scheduler_new (nc_scheduler c)) (Some d) st1 (Some root) g (mk_world m [])).
  assert (Hsub : l1 `sublist_of` l).
  { unfold l1. clear. induction l as [|s l IH]; cbn; [done|]. destruct (_ <? _); by constructor. }
  destruct (readmit_ok d live l1 [] n1) as (s' & E & Hp & Hi & Ha & Hc); cbn [n1 nd_driver nd_scheduler app]; try done.
  { intros s Hs. apply Hlive. unfold l1 in Hs.
    rewrite list_elem_of_In, filter_In, <- list_elem_of_In in Hs. tauto. }
  { by apply scheduler_new_inv. }
  { eapply sublist_NoDup; [exact Hnd|]. unfold ids. by apply ids_filter. }
  { by eapply within_sublist. }
  cbn zeta in E, Ha. rewrite app_nil_l in E, Ha. unfold l1 in E, Ha. rewrite survives_split in E, Ha. set (kept := List.filter (survives now live) l) in *.
  set (st2 := mk_store (mk_locked kept false) (st_snapshots st) (st_logs st)).
  destruct (write_json_ok (active_path root) kept m) as [m' Ew].
  change (write_json _ _) with (file_save_active root kept) in Ew.
  exists (mk_node c s' (Some d) st2 (Some root) g (mk_world m' [])). split.
  - unfold reconcile_active_state. fold now. cbv zeta.
    assert (E0 : on_state (fun _ => on_store (reconcile_active_entries now))
      (mk_node c (scheduler_new (nc_scheduler c)) (Some d) st (Some root) g (mk_world m [])) = (n1, Ok l1)).
    { unfold on_state, on_store, reconcile_active_entries, mbind, SM_bind, load_active, save_active. cbn. by rewrite Hst. }
    unfold mbind at 1, BM_bind at 1. rewrite E0. unfold mbind at 1, BM_bind at 1. unfold l1. rewrite E.
    unfold mbind at 1, BM_bind at 1. unfold on_state at 1, on_store at 1, save_active at 1. cbn [nd_state with_sched n1 st1 st_active].
    cbn. unfold on_state, persist_active, mbind, PM_bind, on_store, load_active, on_host. cbn. fold st2. by rewrite Ew.
  - apply save_active_document in Ew as [_ Dw]; [|assumption]. split_and!; try done.
    split; [eapply sublist_NoDup; [exact Hnd|apply ids_filter]|].
    refine (conj _ (conj _ (conj Hp (conj Hi (conj Hc Ha))))); [|by eexists]. split; [done|]. intros dir [= <-]. exact Dw.
Qed.
End Restart.

(** ** Claims *)
Section Claims.
Context {D : Type} `{RuntimeDriver D}.
Context `{Json (list ActiveSessionRecord), Json (list SnapshotRecord), Json Logs}.
Context `{!JsonRoundtrip (list ActiveSessionRecord)}.
Lemma fresh_node_accounts c (d : D) w : resources_typed (resources (nc_scheduler c)) -> 0 <= max_sessions (nc_scheduler c) ->
  accounts (nc_scheduler c) [] (with_driver_scheduler_and_state c d (scheduler_new (nc_scheduler c)) store_new w).
Proof using All.
  intros Hr Hm. split; [constructor|]. refine (conj _ (conj _ (conj eq_refl (conj (scheduler_new_inv _ Hr Hm) (conj eq_refl eq_refl))))).
  - split; [done|]. by intros dir [=].
  - by eexists.
Qed.
(** The scheduler's view of the sessions [l]. *)
Lemma accounts_budget cfg l (n : Node D) d : accounts cfg l n ->
  session_total d l + get d (available (ledger (inner n.(nd_scheduler)))) = get d (to_budget (resources cfg)) /\
  0 <= get d (available (ledger (inner n.(nd_scheduler)))).
Proof using.
  intros (Hnd & _ & _ & _ & (Hl & Hw & Hcap & Hm & Ht & Hlen) & Hc & Ha). rewrite get_available, Hw, get_zero, Ht, Hcap, Ha, Hc by done.
  rewrite admitted_total_active by done. destruct Hl as [_ Hl]. specialize (Hl d). rewrite Hw, get_zero, Ht, Hcap, Ha, Hc in Hl.
  rewrite admitted_total_active in Hl by done. lia.
Qed.

(** C2: a node with a driver accounts for its sessions, as long as sessions are
    created and restored under identities not in use.  Through any sequence of
    such creations and restores and of deletions, snapshots, commands and new
    deadlines, whatever the driver answers, whichever file system and disk probe
    calls fail in between and however other files of the host change, the
    sessions the node records have distinct identities, the scheduler has
    admitted exactly them with exactly their resources, what they use and what
    the scheduler reports as available add up to the configured capacity, they
    are no more than the configured number, and the session document on disk
    lists exactly them.  Both conditions matter: a duplicate identity and a node
    without a driver are accepted by the code and break the accounts
    ([failed_duplicate_frees_the_running_session],
    [driverless_create_keeps_its_reservation]). *)
Theorem sessions_accounted `{!DriverLaws D} cfg l0 (n0 n : Node D) :
  accounts cfg l0 n0 -> rtc node_step n0 n ->
  let l := guarded n.(nd_state).(st_active) in
  let s := n.(nd_scheduler) in
  NoDup (ids l) /\ admitted (inner s) = active_map l /\
  (forall d, session_total d l + get d (available (ledger (inner s))) = get d (to_budget (resources cfg)) /\
             0 <= get d (available (ledger (inner s)))) /\
  Z.of_nat (length l) <= max_sessions cfg /\
  (forall dir, n.(nd_files) = Some dir -> document n.(nd_world).(files) (active_path dir) = Ok l).
Proof using All.
  intros H0' Hrun. destruct (run_accounts cfg l0 n0 n H0' Hrun) as [l Hl]. cbn zeta. rewrite (accounts_sessions cfg l n Hl).
  split_and!; [apply Hl|apply Hl| | |].
  - intros d. by apply (accounts_budget cfg).
  - by apply accounts_within in Hl as [? _].
  - destruct Hl as (_ & (_ & Hd) & _). exact Hd.
Qed.


(** C11: a restart recovers the sessions.  When a node with files stops between
    two operations and its directory is opened again (no call of the host
    failing, its three documents readable, the driver saying which sandboxes
    still exist), opening succeeds: the limits that held the sessions before
    hold them again, and the new node accounts for exactly the sessions that
    have not expired and whose sandbox, if it had one, still exists. *)
Theorem restart_recovers `{!JsonRoundtrip (list SnapshotRecord)} c l (n : Node D) (d : D) live env sn lg :
  accounts (nc_scheduler c) l n -> n.(nd_files) = Some (nc_root c) ->
  resources_typed (resources (nc_scheduler c)) ->
  document n.(nd_world).(files) (snapshots_path (nc_root c)) = Ok sn ->
  document n.(nd_world).(files) (logs_path (nc_root c)) = Ok lg ->
  (forall s, s ∈ l -> runtime_sandbox_exists s.(as_sandbox_id) d = Ok (live s.(as_sandbox_id))) ->
  exists n', with_driver c d env (mk_world n.(nd_world).(files) []) = (n'.(nd_world), Ok n') /\
    accounts (nc_scheduler c) (List.filter (survives (now_unix_seconds env.(en_clock)) live) l) n' /\
    n'.(nd_files) = Some (nc_root c) /\ guarded n'.(nd_state).(st_snapshots) = sn.
Proof using All.
  intros Hn Hf Ht Hsn Hlg Hlive. pose proof (accounts_within _ l n Hn) as Hw.
  assert (Hm : 0 <= max_sessions (nc_scheduler c)) by (destruct Hw as [Hw _]; lia).
  pose proof Hn as (Hnd & (Hs & Hd) & _). specialize (Hd _ Hf). cbn [snd] in Hd. set (m := files (nd_world n)) in *.
  assert (Hload : (_ ← file_store_new (nc_root c); load_state (nc_root c) : HM Error StateStore) (mk_world m [])
    = (mk_world m [], Ok (from_records l sn lg))).
  { rewrite bind_hm. cbn [file_store_new create_dir_all call call_leaving head tail faults files].
    unfold file_store_new, create_dir_all, call, call_leaving. cbn [head tail faults files].
    unfold load_state, file_load_active, file_load_snapshots, file_load_logs.
    rewrite bind_hm, read_json_document by by left. cbn [files faults tail]. rewrite Hd.
    rewrite bind_hm, read_json_document by by left. cbn [files faults tail]. rewrite Hsn.
    rewrite bind_hm, read_json_document by by left. cbn [files faults tail]. by rewrite Hlg. }
  destruct (reconcile_state_ok env c d (from_records l sn lg) (nc_root c) (Some (guard_new (nc_root c) (nc_minimum_free_disk c)))
    m l live eq_refl Hnd Hw Ht Hm Hlive) as (n' & E & Ha & Hf' & _ & Hsn').
  exists n'. unfold with_driver, with_driver_scheduler. rewrite Hload, E. split_and!; try done. by rewrite Hsn'.
Qed.
End Claims.

(** ** A small driver, for the examples *)
(** The sandboxes that exist; creating one twice is a conflict. *)
#[global] Instance list_driver : RuntimeDriver (list string) := {
  runtime_sandbox_exists id d := Ok (bool_decide (id ∈ d));
  drv_create q d :=
    if decide (q.(cr_sandbox_id) ∈ d) then (d, Err (Conflict q.(cr_sandbox_id)))
    else (q.(cr_sandbox_id) :: d, Ok (mk_created q.(cr_sandbox_id) "client" None None));
  drv_delete id d :=
    if decide (id ∈ d) then (List.filter (fun x => negb (String.eqb x id)) d, Ok tt) else (d, Err (SandboxNotFound id));
  drv_restore q _ d := (q.(cr_sandbox_id) :: d, Ok (mk_created q.(cr_sandbox_id) "client" None None));
  drv_snapshot _ _ d := unsupported "snapshot" d;
  drv_delete_snapshot := default_delete_snapshot;
  drv_run_command _ _ d := unsupported "command execution" d;
  drv_process := default_process;
  drv_start_template_command _ _ _ d := unsupported "template start command" d
}.
#[global] Instance list_driver_laws : DriverLaws (list string).
Proof.
  split; cbn; [|by intros q s d d' c [= _ <-]]. intros q d d' c. case_decide; [done|]. by intros [= _ <-].
Defined.
Section Examples.
Import DemoJson.
Definition demo_node_config : SingleNodeConfig :=
  with_scheduler (node_config_new "/state" "local") (mk_config 4 (mk_resources 8 (2 ^ 34))).
Definition demo_surroundings : Surroundings := mk_surroundings (Some (1000 * 1000000000)) (demo_env 0 (2 ^ 40)).
Definition demo_request (id : string) : SingleNodeCreateRequest := create_request_new id "template" demo_resources.
Definition demo_world : World := mk_world ∅ [].
Definition demo_node : Node (list string) :=
  with_driver_scheduler_and_state demo_node_config [] (scheduler_new (nc_scheduler demo_node_config)) store_new demo_world.
(** The same with files, as it is opened in an empty directory. *)
Definition demo_file_node : Node (list string) :=
  mk_node demo_node_config (scheduler_new (nc_scheduler demo_node_config)) (Some []) store_new (Some "/state"%string) None demo_world.
Lemma demo_config_typed : resources_typed (resources (nc_scheduler demo_node_config)).
Proof. split; vm_compute; split; congruence. Qed.
Lemma demo_file_node_accounts : accounts (nc_scheduler demo_node_config) [] demo_file_node.
Proof.
  split; [constructor|]. refine (conj _ (conj _ (conj eq_refl (conj (scheduler_new_inv _ demo_config_typed _) (conj eq_refl eq_refl)))));
    [|by eexists|vm_compute; congruence]. split; [done|]. by intros dir [= <-].
Qed.
(** Two sessions created, one of them deleted. *)
Definition demo_run : Node (list string) :=
  (delete_session "a" (create demo_surroundings (demo_request "b") (create demo_surroundings (demo_request "a") demo_file_node).1).1).1.
Lemma sessions_accounted_witness :
  ids (guarded demo_run.(nd_state).(st_active)) = ["b"%string] /\
  forall dir, demo_run.(nd_files) = Some dir ->
    document demo_run.(nd_world).(files) (active_path dir) = Ok (guarded demo_run.(nd_state).(st_active)).
Proof.
  split; [vm_compute; reflexivity|].
  destruct (sessions_accounted (nc_scheduler demo_node_config) [] demo_file_node demo_run) as (_ & _ & _ & _ & Hd).
  - apply demo_file_node_accounts.
  - eapply rtc_l; [apply (step_create demo_file_node demo_surroundings (demo_request "a"))|].
    { apply not_elem_of_nil. } { exact demo_resources_typed. }
    eapply rtc_l; [apply (step_create _ demo_surroundings (demo_request "b"))|].
    { vm_compute. intros H. inversion H as [|? ? ? H']. inversion H'. } { exact demo_resources_typed. }
    apply rtc_once. exact (step_delete _ "a").
  - exact Hd.
Defined.
Definition demo_later : Surroundings := mk_surroundings (Some (1200 * 1000000000)) (demo_env 0 (2 ^ 40)).
Definition demo_started (id : string) : ActiveSessionRecord :=
  started demo_surroundings (demo_request id) (mk_created id "client" None None).
Definition demo_two : Node (list string) :=
  (create demo_surroundings (demo_request "b") (create demo_surroundings (demo_request "a") demo_file_node).1).1.
Lemma demo_two_accounts : accounts (nc_scheduler demo_node_config) [demo_started "a"; demo_started "b"] demo_two.
Proof.
  pose proof (start_session_ok (nc_scheduler demo_node_config) [] "sandbox create" (drv_create (demo_request "a")) demo_surroundings (demo_request "a")
    (create_identity _) (not_elem_of_nil _) demo_resources_typed demo_file_node demo_file_node_accounts) as H1.
  set (n1 := (create demo_surroundings (demo_request "a") demo_file_node).1).
  assert (H2 : accounts (nc_scheduler demo_node_config) [demo_started "a"] n1) by exact (proj2 H1).
  assert (Hf : "b"%string ∉ ids [demo_started "a"]) by (vm_compute; intros H; inversion H as [|? ? ? H']; inversion H').
  pose proof (start_session_ok (nc_scheduler demo_node_config) [demo_started "a"] "sandbox create" (drv_create (demo_request "b")) demo_surroundings (demo_request "b")
    (create_identity _) Hf demo_resources_typed n1 H2) as H3.
  exact (proj2 H3).
Qed.
(** The driver lost one of the two sandboxes. *)
Lemma restart_recovers_witness :
  exists n', with_driver demo_node_config ["b"%string] demo_later (mk_world demo_two.(nd_world).(files) []) = (n'.(nd_world), Ok n') /\
    guarded n'.(nd_state).(st_active) = [demo_started "b"].
Proof.
  destruct (restart_recovers demo_node_config [demo_started "a"; demo_started "b"] demo_two ["b"%string]
    (fun id => bool_decide (id ∈ ["b"%string])) demo_later [] ∅) as (n' & E & Ha & _).
  - apply demo_two_accounts.
  - reflexivity.
  - apply demo_config_typed.
  - vm_compute. reflexivity.
  - vm_compute. reflexivity.
  - intros s _. reflexivity.
  - exists n'. split; [exact E|]. apply accounts_sessions in Ha. rewrite Ha. vm_compute. reflexivity.
Defined.

(** ** Where the accounting breaks *)
(** Admission is idempotent, so creating a session under an identity in use
    reaches the driver; when the driver refuses, the reservation of the running
    session is released, and its resources can be given out again. *)
Lemma failed_duplicate_frees_the_running_session :
  let n1 := (create demo_surroundings (demo_request "a") demo_node).1 in
  let '(n2, r) := create demo_surroundings (demo_request "a") n1 in
  r = Err (Conflict "a") /\ ids (guarded n2.(nd_state).(st_active)) = ["a"%string] /\
  available_resources n2.(nd_scheduler) = Ok (resources (nc_scheduler demo_node_config)).
Proof. vm_compute. split_and!; reflexivity. Qed.
(** Without a driver the request fails after admission, and stays admitted. *)
Lemma driverless_create_keeps_its_reservation :
  let n := (create demo_surroundings (demo_request "a") (from_config (D:=list string) demo_node_config demo_world)).1 in
  guarded n.(nd_state).(st_active) = [] /\ admitted_len n.(nd_scheduler) = Ok 1.
Proof. vm_compute. split; reflexivity. Qed.
(** The records are read and written under separate locks: of two sessions
    recorded at the same time, each having read the records before the other
    wrote them, one is lost. *)
Lemma concurrent_recordings_lose_a_session :
  let original := guarded demo_node.(nd_state).(st_active) in
  let record s := on_state (fun files => replace_active files original (original ++ [s])) in
  let n := (record (demo_started "b") (record (demo_started "a") demo_node).1).1 in
  upsert_active (demo_started "a") None (demo_node.(nd_state), demo_world)
    = replace_active None original (original ++ [demo_started "a"]) (demo_node.(nd_state), demo_world) /\
  ids (guarded n.(nd_state).(st_active)) = ["b"%string].
Proof. vm_compute. split; reflexivity. Qed.
(** A timeout beyond the range of the deadline wraps around: the session is
    recorded as already expired. *)
Lemma huge_timeout_expires_at_once : deadline 1000 (2 ^ 63 * 1000000000) < 0.
Proof. vm_compute. reflexivity. Qed.
End Examples.
