(* ===== verification/E2bWire.v ===== *)
(** * The E2B wire types ([crates/e2b-wire/src], [crates/e2b-contract/src])

    The data a client of the control plane sends and receives, the data the
    control plane exchanges with a runtime adapter, and the validation of pod
    requests.  Maps with ordered keys are [gmap]s; where their order shows, they
    are listed by key ([entries]).  A floating-point number is its bit pattern:
    the control plane only passes it on. *)
From S2P Require Import Prelude BTree Types.
Import Network.

Abbreviation Bytes := (list Z).
Abbreviation strmap := (gmap string).

(** [serde_json::Value]. *)
Inductive JsonValue :=
| JNull
| JBool (b : bool)
| JInt (n : Z)
| JFloat (bits : Z)
| JString (s : string)
| JArray (l : list JsonValue)
| JObject (fields : list (string * JsonValue)).

(** ** Requests of the control plane *)
Inductive ControlPlaneMethod := Get | Post | Patch | Put | Delete.
Inductive MethodNotAllowed := method_not_allowed.
Definition method_from_str (s : string) : result MethodNotAllowed ControlPlaneMethod :=
  if String.eqb s "GET" then Ok Get
  else if String.eqb s "POST" then Ok Post
  else if String.eqb s "PATCH" then Ok Patch
  else if String.eqb s "PUT" then Ok Put
  else if String.eqb s "DELETE" then Ok Delete
  else Err method_not_allowed.
Definition mutates_state (m : ControlPlaneMethod) : bool :=
  match m with Get => false | _ => true end.
Record ControlPlaneRequest := mk_request {
  rq_method : ControlPlaneMethod;
  rq_path : string;
  rq_body : option Bytes;
  rq_origin : option string
}.
Definition request_new (m : ControlPlaneMethod) (path : string) : ControlPlaneRequest := mk_request m path None None.
Definition with_origin (r : ControlPlaneRequest) (origin : string) : ControlPlaneRequest :=
  mk_request r.(rq_method) r.(rq_path) r.(rq_body) (Some origin).

(** ** Logs, metrics, snapshots *)
Inductive LogLevel := Debug | Info | Warn | Error.
Inductive LogsDirection := Forward | Backward.
Record SandboxLogEntry := mk_log_entry {
  log_timestamp : string;
  log_level : LogLevel;
  log_message : string;
  log_fields : strmap string
}.
Record SandboxLogs := mk_logs { logs : list SandboxLogEntry }.
Record SandboxMetric := mk_metric {
  metric_timestamp : string;
  cpu_used_pct : Z;
  metric_cpu_count : Z;
  mem_used : Z;
  mem_total : Z;
  disk_used : Z;
  disk_total : Z
}.
Record SandboxesWithMetrics := mk_metrics { metrics_sandboxes : strmap SandboxMetric }.
Record CreateSnapshotRequest := mk_snapshot_request { snapshot_name : option string }.
Record SnapshotInfo := mk_snapshot_info { snapshot_id : string }.

(** ** Volumes *)
Record VolumeMount := mk_mount { mount_path : string; mount_name : string }.
Record VolumeCreateRequest := mk_volume_request { volume_request_name : string }.
Record VolumeInfo := mk_volume_info { volume_id : string; volume_name : string }.
Record VolumeAndToken := mk_volume_token { vt_volume_id : string; vt_name : string; vt_token : string }.
Inductive VolumeFileType := Unknown | File | Directory | Symlink.
Record VolumeEntryStat := mk_stat {
  stat_name : string;
  stat_kind : VolumeFileType;
  stat_path : string;
  stat_size : Z;
  stat_mode : Z;
  stat_uid : Z;
  stat_gid : Z;
  stat_atime : string;
  stat_mtime : string;
  stat_ctime : string;
  stat_target : option string
}.
Record VolumeMetadataRequest := mk_metadata_request { mr_uid : option Z; mr_gid : option Z; mr_mode : option Z }.
Record VolumeWriteOptions := mk_write_options {
  wo_uid : option Z;
  wo_gid : option Z;
  wo_mode : option Z;
  wo_force : option bool
}.

(** ** Sandboxes *)
Inductive SandboxState := Running | Paused.
Record AutoResume := mk_auto_resume { auto_resume_enabled : bool }.
Record SandboxCreateRequest := mk_create_request {
  cr_template_id : string;
  cr_timeout : option Z;
  cr_metadata : strmap string;
  cr_env_vars : strmap string;
  cr_mcp : option JsonValue;
  cr_secure : option bool;
  cr_allow_internet_access : option bool;
  cr_network : option SandboxNetworkPolicy;
  cr_auto_pause : option bool;
  cr_auto_resume : option AutoResume;
  cr_volume_mounts : list VolumeMount
}.
Record FollowupSandboxCreateRequest := mk_followup_request {
  fr_snapshot_id : string;
  fr_create_request : SandboxCreateRequest
}.
Record ConnectRequest := mk_connect_request { connect_timeout : Z }.
Record TimeoutRequest := mk_timeout_request { timeout : Z }.
Record RefreshRequest := mk_refresh_request { refresh_duration : option Z }.
Record ConnectedSandbox := mk_connected {
  cs_sandbox_id : string;
  cs_envd_version : string;
  cs_envd_access_token : option string;
  cs_traffic_access_token : option string;
  cs_domain : option string
}.
Record SandboxInfo := mk_sandbox_info {
  si_sandbox_id : string;
  si_template_id : string;
  si_alias : option string;
  si_metadata : strmap string;
  si_started_at : string;
  si_end_at : string;
  si_state : SandboxState;
  si_cpu_count : Z;
  si_memory_mb : Z;
  si_envd_version : string;
  si_allow_internet_access : option bool;
  si_network : option SandboxNetworkPolicy;
  si_volume_mounts : list VolumeMount
}.
Definition create_request_default : SandboxCreateRequest :=
  mk_create_request "base" (Some 300) ∅ ∅ None (Some true) (Some true) None (Some false) None [].

(** ** Templates *)
Inductive TemplateBuildStatus := Building | Waiting | Ready | BuildError.
Record TemplateBuildRequest := mk_build_request {
  br_name : option string;
  br_tags : list string;
  br_cpu_count : option Z;
  br_memory_mb : option Z
}.
Inductive TemplateInstructionKind := Copy | Env | Run | Workdir | User.
Record TemplateStep := mk_step {
  step_kind : TemplateInstructionKind;
  step_args : list string;
  step_files_hash : option string;
  step_force : bool
}.
Record TemplateBuildStart := mk_build_start {
  from_image : option string;
  from_template : option string;
  build_force : option bool;
  steps : list TemplateStep;
  start_cmd : option string;
  ready_cmd : option string
}.
Definition build_start_default : TemplateBuildStart := mk_build_start None None None [] None None.
Record TemplateBuildRequestInfo := mk_request_info {
  ri_template_id : string;
  ri_build_id : string;
  ri_public : bool;
  ri_names : list string;
  ri_tags : list string;
  ri_aliases : list string
}.
Record TemplateInfo := mk_template_info {
  ti_template_id : string;
  ti_build_id : option string;
  ti_public : bool;
  ti_aliases : list string;
  ti_names : list string;
  ti_created_at : string;
  ti_updated_at : string;
  ti_last_spawned_at : option string;
  ti_spawn_count : Z;
  ti_build_count : Z;
  ti_envd_version : option string;
  ti_build_status : option TemplateBuildStatus
}.
Record TemplateBuild := mk_build {
  tb_build_id : string;
  tb_status : TemplateBuildStatus;
  tb_created_at : string;
  tb_updated_at : string;
  tb_finished_at : option string;
  tb_cpu_count : Z;
  tb_memory_mb : Z;
  tb_disk_size_mb : option Z;
  tb_envd_version : option string
}.
Record TemplateWithBuilds := mk_with_builds {
  tw_template_id : string;
  tw_public : bool;
  tw_aliases : list string;
  tw_names : list string;
  tw_created_at : string;
  tw_updated_at : string;
  tw_last_spawned_at : option string;
  tw_spawn_count : Z;
  tw_builds : list TemplateBuild
}.
Record BuildLogEntry := mk_build_log {
  bl_timestamp : string;
  bl_level : LogLevel;
  bl_message : string;
  bl_step : option string
}.
Record BuildStatusReason := mk_reason {
  reason_message : string;
  reason_step : option string;
  reason_log_entries : list BuildLogEntry
}.
Record TemplateBuildInfo := mk_build_info {
  bi_template_id : string;
  bi_build_id : string;
  bi_status : TemplateBuildStatus;
  bi_logs : list string;
  bi_log_entries : list BuildLogEntry;
  bi_reason : option BuildStatusReason
}.
Record TemplateBuildLogs := mk_build_logs { build_log_entries : list BuildLogEntry }.
Record TemplateUpdateRequest := mk_update_request { update_public : option bool }.
Record TemplateUpdateInfo := mk_update_info { update_names : list string }.
Record TemplateFileUpload := mk_file_upload { upload_present : bool; upload_url : option string }.
Record AssignTemplateTags := mk_assign_tags { assign_target : string; assign_tags_list : list string }.
Record RemoveTemplateTags := mk_remove_tags { remove_name : string; remove_tags_list : list string }.
Record AssignedTemplateTags := mk_assigned { assigned_tags : list string; assigned_build_id : string }.
Record TemplateTag := mk_tag { tag : string; tag_build_id : string; tag_created_at : string }.
Record TemplateAliasInfo := mk_alias_info { alias_template_id : string; alias_public : bool }.

(** ** Pods *)
Inductive PodState := PodRunning | PodStopped.
Inductive PodContainerState := ContainerRunning | ContainerStopped.
Record PodVolumeMountRequest := mk_pod_mount { pm_name : string; pm_path : string; pm_read_only : bool }.
Record PodEmptyDir := mk_empty_dir { empty_dir_name : string }.
Inductive PodStoreImageFormat := Raw | Asif.
Inductive PodTrimPolicy := TrimNone | OnRemove | OnStop | Manual.
Record PodStoreOptions := mk_pod_store {
  ps_size_bytes : Z;
  ps_image_format : PodStoreImageFormat;
  ps_trim_policy : PodTrimPolicy;
  ps_shared_rootfs : bool
}.
Definition default_pod_store_size_bytes : Z := 7 * 1024 * 1024 * 1024.
Definition default_shared_rootfs : bool := true.
Definition pod_store_default : PodStoreOptions :=
  mk_pod_store default_pod_store_size_bytes Raw OnRemove true.
Record PodContainerCreateRequest := mk_container_request {
  pc_name : string;
  pc_template_id : string;
  pc_command : list string;
  pc_env_vars : strmap string;
  pc_empty_dir_mounts : list PodVolumeMountRequest;
  pc_capture_output : bool
}.
Record PodCreateRequest := mk_pod_request {
  pr_pod_id : option string;
  pr_timeout : option Z;
  pr_metadata : strmap string;
  pr_empty_dirs : list PodEmptyDir;
  pr_pod_store : PodStoreOptions;
  pr_containers : list PodContainerCreateRequest
}.
Record PodContainerInfo := mk_container_info {
  ci_name : string;
  ci_template_id : string;
  ci_state : PodContainerState;
  ci_empty_dir_mounts : list PodVolumeMountRequest
}.
Definition running (r : PodContainerCreateRequest) : PodContainerInfo :=
  mk_container_info r.(pc_name) r.(pc_template_id) ContainerRunning r.(pc_empty_dir_mounts).
Record PodContainerOutput := mk_container_output { po_stdout : Bytes; po_stderr : Bytes; po_exit_code : Z }.
Definition output_success (o : PodContainerOutput) : bool := o.(po_exit_code) =? 0.
Record PodInfo := mk_pod_info {
  pi_pod_id : string;
  pi_metadata : strmap string;
  pi_started_at : string;
  pi_end_at : string;
  pi_state : PodState;
  pi_empty_dirs : list PodEmptyDir;
  pi_containers : list PodContainerInfo
}.

Definition bt (s : string) : string := "`" +:+ s +:+ "`".
Fixpoint validate_mounts (empty_dirs : gset string) (container : string) (mounts : list PodVolumeMountRequest)
  : result string unit :=
  match mounts with
  | [] => Ok tt
  | m :: ms =>
      if decide (m.(pm_name) ∈ empty_dirs) then validate_mounts empty_dirs container ms
      else Err ("container " +:+ bt container +:+ " references unknown emptyDir " +:+ bt m.(pm_name))
  end.
Definition validate_container_mounts (empty_dirs : gset string) (c : PodContainerCreateRequest) : result string unit :=
  validate_mounts empty_dirs c.(pc_name) c.(pc_empty_dir_mounts).
Definition validate_pod_container_request (empty_dirs : list PodEmptyDir) (c : PodContainerCreateRequest)
  : result string unit :=
  validate_container_mounts (list_to_set (empty_dir_name <$> empty_dirs)) c.
(** The set of declared names, or the first that is declared twice. *)
Fixpoint declare_names (what : string) (seen : gset string) (names : list string) : result string (gset string) :=
  match names with
  | [] => Ok seen
  | n :: ns =>
      if decide (n ∈ seen) then Err ("pod declares duplicate " +:+ what +:+ " " +:+ bt n)
      else declare_names what ({[n]} ∪ seen) ns
  end.
Fixpoint validate_containers (empty_dirs seen : gset string) (cs : list PodContainerCreateRequest) : result string unit :=
  match cs with
  | [] => Ok tt
  | c :: cs =>
      if decide (c.(pc_name) ∈ seen) then Err ("pod declares duplicate container " +:+ bt c.(pc_name))
      else match validate_container_mounts empty_dirs c with
           | Ok _ => validate_containers empty_dirs ({[c.(pc_name)]} ∪ seen) cs
           | Err e => Err e
           end
  end.
Definition pod_validate (r : PodCreateRequest) : result string unit :=
  match r.(pr_containers) with
  | [] => Err "pod requires at least one container"
  | _ =>
      if r.(pr_pod_store).(ps_size_bytes) =? 0 then Err "podStore.sizeBytes must be greater than zero"
      else dirs ← declare_names "emptyDir" ∅ (empty_dir_name <$> r.(pr_empty_dirs));
           validate_containers dirs ∅ r.(pr_containers)
  end.

(** ** The runtime contract ([crates/e2b-contract/src]) *)
Inductive BackendError := AlreadyExists (id : string) | NotFound (id : string) | Runtime (message : string).
Record RuntimeCapabilitySet := mk_capabilities {
  cap_backend : string;
  cap_supported : list string;
  cap_unsupported : list (string * string)
}.
Definition DEFAULT_CODE_INTERPRETER_PORT : Z := 49999.
Definition DEFAULT_MCP_PORT : Z := 50005.
Inductive PortTarget :=
| Tcp (host : string) (port : Z)
| Vsock (cid port : Z)
| UnixSocket (path : string).
Record PreparedTemplateArtifactIntegrity := mk_integrity { size_bytes : Z; sha256_hex : string }.
Record PreparedTemplate := mk_prepared {
  pt_template_id : string;
  pt_build_id : string;
  pt_artifact : string;
  pt_has_envd : bool;
  pt_artifact_integrity : option PreparedTemplateArtifactIntegrity
}.
Record RuntimeTemplateBuild := mk_runtime_build {
  rb_template_id : string;
  rb_build_id : string;
  rb_start : TemplateBuildStart;
  rb_uploaded_files : strmap Bytes
}.
Record SandboxRuntimeConfig := mk_runtime_config {
  rc_sandbox_id : string;
  rc_domain : string;
  rc_envd_version : string;
  rc_envd_access_token : option string;
  rc_traffic_access_token : option string;
  rc_started_at : string;
  rc_end_at : string;
  rc_cpu_count : Z;
  rc_memory_mb : Z
}.
Record StartPodRequest := mk_start_pod {
  sp_create_request : PodCreateRequest;
  sp_prepared_templates : strmap (option PreparedTemplate)
}.
Record PodRuntimeConfig := mk_pod_config { pod_id : string; pod_started_at : string; pod_end_at : string }.
Record RuntimePod := mk_runtime_pod { rp_config : PodRuntimeConfig; rp_containers : list PodContainerInfo }.
Record StartSandboxRequest := mk_start_request {
  ss_create_request : SandboxCreateRequest;
  ss_prepared_template : option PreparedTemplate
}.
Record FollowupSnapshot := mk_followup {
  fs_snapshot_id : string;
  fs_location : string;
  fs_artifact_integrity : option PreparedTemplateArtifactIntegrity
}.
Record RuntimeSandbox := mk_runtime_sandbox { rs_config : SandboxRuntimeConfig; rs_exposed_ports : list Z }.
Record PausedSandbox := mk_paused { pd_sandbox_id : string; pd_snapshot_id : option string }.
Inductive SandboxExpirationAction := ExpirePaused | ExpireDeleted.
Record SandboxExpiration := mk_expiration { ex_sandbox_id : string; ex_action : SandboxExpirationAction }.
Record SnapshotRef := mk_snapshot_ref {
  sn_snapshot_id : string;
  sn_location : option string;
  sn_artifact_integrity : option PreparedTemplateArtifactIntegrity
}.

(** The trait [RuntimeAdapter]: methods take [&self] and change what is behind
    it. *)
Class RuntimeAdapter (A : Type) := {
  ra_preflight : A -> A * result BackendError RuntimeCapabilitySet;
  ra_prepare_template : TemplateBuildRequest -> A -> A * result BackendError PreparedTemplate;
  ra_build_template : RuntimeTemplateBuild -> A -> A * result BackendError PreparedTemplate;
  ra_start : StartSandboxRequest -> A -> A * result BackendError RuntimeSandbox;
  ra_start_followup : StartSandboxRequest -> FollowupSnapshot -> A -> A * result BackendError RuntimeSandbox;
  ra_start_pod : StartPodRequest -> A -> A * result BackendError RuntimePod;
  ra_stop_pod : string -> A -> A * result BackendError unit;
  ra_add_pod_container : string -> PodContainerCreateRequest -> A -> A * result BackendError PodContainerInfo;
  ra_remove_pod_container : string -> string -> A -> A * result BackendError unit;
  ra_wait_pod_container : string -> string -> A -> A * result BackendError PodContainerOutput;
  ra_stop : string -> A -> A * result BackendError unit;
  ra_pause : string -> A -> A * result BackendError PausedSandbox;
  ra_resume : PausedSandbox -> A -> A * result BackendError RuntimeSandbox;
  ra_snapshot : string -> option string -> A -> A * result BackendError SnapshotRef;
  ra_delete_snapshot : string -> A -> A * result BackendError unit;
  ra_metrics : string -> A -> A * result BackendError (list SandboxMetric);
  ra_logs : string -> A -> A * result BackendError SandboxLogs;
  ra_apply_network : string -> SandboxNetworkPolicy -> A -> A * result BackendError unit;
  ra_port_target : string -> Z -> A -> A * result BackendError PortTarget
}.
(** The trait's default methods. *)
Definition unsupported {A B} (what : string) (a : A) : A * result BackendError B :=
  (a, Err (Runtime ("runtime adapter does not support " +:+ what))).
Section Defaults.
Context {A : Type}.
Definition default_build_template (r : RuntimeTemplateBuild) : A -> A * result BackendError PreparedTemplate :=
  unsupported ("template build materialization for " +:+ bt (r.(rb_template_id) +:+ "/" +:+ r.(rb_build_id))).
Definition default_start_pod (r : StartPodRequest) : A -> A * result BackendError RuntimePod :=
  unsupported ("product pods for " +:+ bt (default "unassigned"%string r.(sp_create_request).(pr_pod_id))).
Definition default_stop_pod (pod_id : string) : A -> A * result BackendError unit :=
  unsupported ("product pod stop for " +:+ bt pod_id).
Definition default_add_pod_container (pod_id : string) (c : PodContainerCreateRequest)
  : A -> A * result BackendError PodContainerInfo :=
  unsupported ("adding container " +:+ bt c.(pc_name) +:+ " to product pod " +:+ bt pod_id).
Definition default_remove_pod_container (pod_id name : string) : A -> A * result BackendError unit :=
  unsupported ("removing container " +:+ bt name +:+ " from product pod " +:+ bt pod_id).
Definition default_wait_pod_container (pod_id name : string) : A -> A * result BackendError PodContainerOutput :=
  unsupported ("waiting for container " +:+ bt name +:+ " in product pod " +:+ bt pod_id).
Definition default_delete_snapshot (snapshot_id : string) : A -> A * result BackendError unit :=
  unsupported ("snapshot artifact deletion for " +:+ bt snapshot_id).
End Defaults.

(** ** Validation of pod requests *)
Lemma validate_mounts_ok dirs c ms :
  validate_mounts dirs c ms = Ok tt <-> Forall (fun m => m.(pm_name) ∈ dirs) ms.
Proof.
  induction ms as [|m ms IH]; simpl; [by split; [constructor|]|].
  rewrite Forall_cons, <- IH. case_decide; [tauto|]. split; [done|tauto].
Qed.
Lemma declare_names_ok what seen names dirs :
  declare_names what seen names = Ok dirs <->
  NoDup names /\ Forall (fun n => n ∉ seen) names /\ dirs = list_to_set names ∪ seen.
Proof.
  revert seen. induction names as [|n ns IH]; intros seen; simpl.
  { split; [intros [= <-]; repeat split; [constructor..|set_solver]|].
    intros (_ & _ & ->). f_equal. set_solver. }
  rewrite NoDup_cons, Forall_cons. case_decide.
  - split; [done|]. tauto.
  - rewrite IH, !Forall_forall. split.
    + intros (? & Hf & ->). repeat split; [|done|done| |set_solver].
      * intros Hin. specialize (Hf n Hin). set_solver.
      * intros x Hx. specialize (Hf x Hx). set_solver.
    + intros ((? & ?) & (_ & Hf) & ->). repeat split; [done| |set_solver].
      intros x Hx. specialize (Hf x Hx). set_solver.
Qed.
Lemma validate_containers_ok dirs seen cs :
  validate_containers dirs seen cs = Ok tt <->
  NoDup (pc_name <$> cs) /\ Forall (fun n => n ∉ seen) (pc_name <$> cs) /\
  Forall (fun c => Forall (fun m => m.(pm_name) ∈ dirs) c.(pc_empty_dir_mounts)) cs.
Proof.
  revert seen. induction cs as [|c cs IH]; intros seen; simpl.
  { split; [repeat split; constructor|done]. }
  rewrite NoDup_cons, !Forall_cons. case_decide; [split; [done|tauto]|].
  unfold validate_container_mounts. pose proof (validate_mounts_ok dirs c.(pc_name) c.(pc_empty_dir_mounts)) as Hm.
  destruct (validate_mounts _ _ _) as [[]|e]; [|split; [done|]; intros (_ & _ & Hc & _); by apply (proj2 Hm) in Hc].
  rewrite IH, !Forall_forall. split.
  - intros (? & Hf & ?). repeat split; [|done|done| |by apply Forall_forall, Hm|done].
    + intros Hin. specialize (Hf _ Hin). set_solver.
    + intros x Hx. specialize (Hf _ Hx). set_solver.
  - intros ((? & ?) & (_ & Hf) & _ & ?). repeat split; [done| |done].
    intros x Hx. specialize (Hf _ Hx). set_solver.
Qed.
