(* ===== verification/E2bRoutes.v ===== *)
(** * Routes of the control plane
      ([crates/e2b-server/src/routes], parsing helpers of [backend.rs])

    The paths a client builds, percent-encoded, and the segments and query
    values the server reads from a path.  A string is its UTF-8 bytes. *)
From S2P Require Import Prelude HostFs E2bWire.

(** ** Text *)
(** [String::from_utf8] accepts exactly the well-formed sequences. *)
Definition between (lo hi b : Z) : bool := (lo <=? b) && (b <=? hi).
Definition continuation : Z -> bool := between 128 191.
Fixpoint utf8_valid (l : list Z) : bool :=
  match l with
  | [] => true
  | b :: l1 =>
      if b <? 128 then utf8_valid l1
      else if between 194 223 b then
        match l1 with c :: l2 => continuation c && utf8_valid l2 | _ => false end
      else if between 224 239 b then
        match l1 with
        | c :: d :: l3 =>
            between (if b =? 224 then 160 else 128) (if b =? 237 then 159 else 191) c
            && continuation d && utf8_valid l3
        | _ => false
        end
      else if between 240 244 b then
        match l1 with
        | c :: d :: e :: l4 =>
            between (if b =? 240 then 144 else 128) (if b =? 244 then 143 else 191) c
            && continuation d && continuation e && utf8_valid l4
        | _ => false
        end
      else false
  end.
Definition is_utf8 (s : string) : bool := utf8_valid (code <$> bytes s).

(** [s.trim_start_matches(c)], [s.trim_end_matches(c)], [s.trim_matches(c)]. *)
Fixpoint trim_start_matches (c : ascii) (s : string) : string :=
  match s with
  | String d s' => if Ascii.eqb c d then trim_start_matches c s' else s
  | EmptyString => EmptyString
  end.
Fixpoint trim_end_matches (c : ascii) (s : string) : string :=
  match s with
  | EmptyString => EmptyString
  | String d s' =>
      match trim_end_matches c s' with
      | EmptyString => if Ascii.eqb c d then EmptyString else String d EmptyString
      | t => String d t
      end
  end.
Definition trim_matches (c : ascii) (s : string) : string := trim_end_matches c (trim_start_matches c s).

(** ** Percent encoding *)
Definition ascii_of (n : Z) : ascii := ascii_of_N (Z.to_N n).
Definition upper_hex (n : Z) : ascii := if n <? 10 then ascii_of (48 + n) else ascii_of (55 + n).
Definition unreserved (c : ascii) : bool :=
  is_ascii_alphanumeric c || Ascii.eqb c "-" || Ascii.eqb c "." || Ascii.eqb c "_" || Ascii.eqb c "~".
Definition encode_byte (c : ascii) : string :=
  if unreserved c then String c EmptyString
  else String "%" (String (upper_hex (code c / 16)) (String (upper_hex (code c mod 16)) EmptyString)).
Fixpoint encode_path_segment (s : string) : string :=
  match s with
  | EmptyString => EmptyString
  | String c s => encode_byte c +:+ encode_path_segment s
  end.

Inductive LocalRuntimeStateStoreError :=
| StoreIo (e : host_error)
| StoreJson (message : string)
| UnsupportedSchema (schema : string)
| UnsupportedVersion (version : Z).
Inductive ControlPlaneError :=
| BadRequest (message : string)
| RouteNotFound (route : string)
| NotAllowed
| CpBackend (e : BackendError)
| CpJson (message : string)
| StateStore (e : LocalRuntimeStateStoreError).
Definition cp_status (e : ControlPlaneError) : Z :=
  match e with
  | BadRequest _ | CpJson _ => 400
  | RouteNotFound _ | CpBackend (NotFound _) => 404
  | NotAllowed => 405
  | CpBackend (AlreadyExists _) => 409
  | CpBackend (Runtime _) | StateStore _ => 500
  end.

(** The texts [thiserror] gives the errors. *)
Definition backend_display (e : BackendError) : string :=
  match e with
  | AlreadyExists id => "sandbox " +:+ bt id +:+ " already exists"
  | NotFound id => "sandbox " +:+ bt id +:+ " was not found"
  | Runtime m => "runtime adapter error: " +:+ m
  end.
Definition store_display (e : LocalRuntimeStateStoreError) : string :=
  match e with
  | StoreIo e => "state store io error: " +:+ host_message e
  | StoreJson m => "state store json error: " +:+ m
  | UnsupportedSchema s => "unsupported state schema " +:+ s
  | UnsupportedVersion v => "unsupported state version " +:+ print_dec v
  end.
Definition cp_display (e : ControlPlaneError) : string :=
  match e with
  | BadRequest m => "bad request: " +:+ m
  | RouteNotFound r => "route not found: " +:+ r
  | NotAllowed => "method not allowed"
  | CpBackend e => backend_display e
  | CpJson m => "json error: " +:+ m
  | StateStore e => store_display e
  end.

Definition hex_value (c : ascii) : option Z :=
  let b := code c in
  if between 48 57 b then Some (b - 48)
  else if between 97 102 b then Some (b - 97 + 10)
  else if between 65 70 b then Some (b - 65 + 10)
  else None.
Fixpoint percent_decode (s : string) : option string :=
  match s with
  | EmptyString => Some EmptyString
  | String c s1 =>
      if negb (Ascii.eqb c "%") then String c <$> percent_decode s1
      else match s1 with
           | String h (String l s2) =>
               match hex_value h, hex_value l with
               | Some h, Some l => String (ascii_of (Z.lor (Z.shiftl h 4) l)) <$> percent_decode s2
               | _, _ => None
               end
           | _ => None
           end
  end.
Definition decode_path_segment (segment : string) : result ControlPlaneError string :=
  match percent_decode segment with
  | None => Err (BadRequest ("invalid percent escape in " +:+ bt segment))
  | Some s => if is_utf8 s then Ok s else Err (BadRequest ("invalid UTF-8 in " +:+ bt segment))
  end.

(** ** Paths and queries *)
Fixpoint collect {E A} (l : list (result E A)) : result E (list A) :=
  match l with
  | [] => Ok []
  | Ok a :: l => match collect l with Ok r => Ok (a :: r) | Err e => Err e end
  | Err e :: _ => Err e
  end.
Definition nonempty_parts (l : list string) : list string := List.filter (fun s => negb (is_empty s)) l.
Definition path_segments (path : string) : result ControlPlaneError (list string) :=
  collect (decode_path_segment <$> nonempty_parts (split "/" (trim_matches "/" path))).
Definition split_path_query (path : string) : string * option string :=
  match split_once "?" path with Some (p, q) => (p, Some q) | None => (path, None) end.
Fixpoint find_value (key : string) (pairs : list string) : option string :=
  match pairs with
  | [] => None
  | p :: ps =>
      match split_once "=" p with
      | Some (k, v) => if String.eqb k key then Some v else find_value key ps
      | None => find_value key ps
      end
  end.
Definition query_value (query : option string) (key : string) : option string :=
  q ← query; find_value key (split "&" q).
Fixpoint replace_byte (c d : ascii) (s : string) : string :=
  match s with
  | EmptyString => EmptyString
  | String x s => String (if Ascii.eqb x c then d else x) (replace_byte c d s)
  end.
Definition decode_query_component (s : string) : result ControlPlaneError string :=
  decode_path_segment (replace_byte "+" " " s).
Definition query_value_decoded (query : option string) (key : string) : result ControlPlaneError string :=
  v ← ok_or (BadRequest ("missing " +:+ key)) (query_value query key);
  decode_query_component v.
Definition query_u32 (query : option string) (key : string) : option Z :=
  v ← query_value query key; parse_uint 32 v.
Definition query_bool (query : option string) (key : string) : option bool :=
  v ← query_value query key;
  if String.eqb v "true" then Some true else if String.eqb v "false" then Some false else None.
Definition volume_write_options (query : option string) : VolumeWriteOptions :=
  mk_write_options (query_u32 query "uid") (query_u32 query "gid") (query_u32 query "mode") (query_bool query "force").

Definition is_sandbox_route (segments : list string) : bool :=
  match segments with
  | ["snapshots"%string] => true
  | s :: rest =>
      String.eqb s "sandboxes"
      || (String.eqb s "v2" && match rest with t :: _ => String.eqb t "sandboxes" | [] => false end)
  | [] => false
  end.
Definition is_pod_route (segments : list string) : bool :=
  match segments with s :: _ => String.eqb s "pods" | [] => false end.
Definition is_template_route (segments : list string) : bool :=
  match segments with
  | s :: rest =>
      String.eqb s "templates"
      || (String.eqb s "v2" && match rest with t :: _ => String.eqb t "templates" | [] => false end)
      || (String.eqb s "v3" && match rest with [t] => String.eqb t "templates" | _ => false end)
  | [] => false
  end.
Definition is_volume_route (segments : list string) : bool :=
  match segments with s :: _ => String.eqb s "volumes" || String.eqb s "volumecontent" | [] => false end.

(** ** Route builders *)
Module SandboxRoutes.
Definition create : string := "/sandboxes".
Definition followup : string := "/sandboxes/followups".
Definition list_v2 : string := "/v2/sandboxes".
Definition metrics_many : string := "/sandboxes/metrics".
Definition snapshots : string := "/snapshots".
Definition get (id : string) : string := "/sandboxes/" +:+ encode_path_segment id.
Definition delete (id : string) : string := get id.
Definition connect (id : string) : string := "/sandboxes/" +:+ encode_path_segment id +:+ "/connect".
Definition resume (id : string) : string := "/sandboxes/" +:+ encode_path_segment id +:+ "/resume".
Definition pause (id : string) : string := "/sandboxes/" +:+ encode_path_segment id +:+ "/pause".
Definition timeout (id : string) : string := "/sandboxes/" +:+ encode_path_segment id +:+ "/timeout".
Definition refresh (id : string) : string := "/sandboxes/" +:+ encode_path_segment id +:+ "/refreshes".
Definition logs_v2 (id : string) : string := "/v2/sandboxes/" +:+ encode_path_segment id +:+ "/logs".
Definition metrics (id : string) : string := "/sandboxes/" +:+ encode_path_segment id +:+ "/metrics".
Definition create_snapshot (id : string) : string := "/sandboxes/" +:+ encode_path_segment id +:+ "/snapshots".
Definition delete_snapshot (id : string) : string := "/templates/" +:+ encode_path_segment id.
End SandboxRoutes.

Module PodRoutes.
Definition create : string := "/pods".
Definition list : string := "/pods".
Definition get (pod : string) : string := "/pods/" +:+ encode_path_segment pod.
Definition delete (pod : string) : string := get pod.
Definition add_container (pod : string) : string := "/pods/" +:+ encode_path_segment pod +:+ "/containers".
Definition delete_container (pod name : string) : string :=
  "/pods/" +:+ encode_path_segment pod +:+ "/containers/" +:+ encode_path_segment name.
Definition wait_container (pod name : string) : string := delete_container pod name +:+ "/wait".
End PodRoutes.

(** ** Encoding and decoding *)
Lemma ascii_of_code c : ascii_of (code c) = c.
Proof. unfold ascii_of, code. rewrite N2Z.id. apply ascii_N_embedding. Qed.
Lemma code_range c : 0 <= code c < 256.
Proof. unfold code. pose proof (N_ascii_bounded c). lia. Qed.
Lemma code_ascii_of n : 0 <= n < 256 -> code (ascii_of n) = n.
Proof. intros. unfold code, ascii_of. rewrite N_ascii_embedding; lia. Qed.
Lemma hex_upper n : 0 <= n < 16 -> hex_value (upper_hex n) = Some n.
Proof.
  intros. unfold hex_value, upper_hex, between. destruct (n <? 10) eqn:E; rewrite code_ascii_of by lia; zcases; f_equal; lia.
Qed.
Lemma nibbles n : 0 <= n -> Z.lor (Z.shiftl (n / 16) 4) (n mod 16) = n.
Proof.
  intros. rewrite Z.shiftl_mul_pow2 by lia. change (2 ^ 4) with 16.
  pose proof (Z.add_lor_land (n / 16 * 16) (n mod 16)) as Hadd.
  assert (Z.land (n / 16 * 16) (n mod 16) = 0) as Hz; [|rewrite Hz in Hadd; lia].
  clear Hadd. change 16 with (2 ^ 4). rewrite <- Z.shiftl_mul_pow2, <- Z.land_ones by lia.
  apply Z.bits_inj'. intros i Hi. rewrite !Z.land_spec, Z.bits_0, Z.shiftl_spec, Z.testbit_ones_nonneg by lia.
  destruct (i <? 4) eqn:?; [rewrite (Z.testbit_neg_r _ (i - 4)) by lia|]; by rewrite ?andb_false_r.
Qed.
Lemma percent_roundtrip s : percent_decode (encode_path_segment s) = Some s.
Proof.
  induction s as [|c s IH]; [done|]. cbn [encode_path_segment]. unfold encode_byte. destruct (unreserved c) eqn:Hu.
  - rewrite append_cons, append_nil_l. cbn [percent_decode]. rewrite IH.
    destruct (Ascii.eqb_spec c "%") as [->|_]; [by vm_compute in Hu|done].
  - rewrite !append_cons, append_nil_l. cbn [percent_decode]. pose proof (code_range c).
    rewrite !hex_upper by lia. rewrite nibbles by lia. by rewrite IH, ascii_of_code.
Qed.
Lemma decode_encode s : is_utf8 s = true -> decode_path_segment (encode_path_segment s) = Ok s.
Proof. intros H. unfold decode_path_segment. by rewrite percent_roundtrip, H. Qed.

(** The bytes of an encoded segment. *)
Definition plain (c : ascii) : bool := unreserved c || Ascii.eqb c "%".
Lemma plain_hex n : 0 <= n < 16 -> plain (upper_hex n) = true.
Proof.
  intros. unfold plain, unreserved, is_ascii_alphanumeric, is_ascii_digit, upper_hex.
  destruct (n <? 10) eqn:E; rewrite code_ascii_of by lia; lia.
Qed.
Lemma encode_plain s : all_bytes plain (encode_path_segment s) = true.
Proof.
  induction s as [|c s IH]; [done|]. cbn [encode_path_segment]. rewrite all_bytes_app, IH, andb_true_r.
  unfold encode_byte. destruct (unreserved c) eqn:Hu; unfold all_bytes; cbn [bytes String.list_ascii_of_string forallb].
  - unfold plain. by rewrite Hu.
  - pose proof (code_range c). rewrite !plain_hex by lia. done.
Qed.
Lemma plain_contains c s : plain c = false -> all_bytes plain s = true -> contains c s = false.
Proof. apply all_bytes_no_byte. Qed.
Lemma encode_nonempty s : s <> EmptyString -> encode_path_segment s <> EmptyString.
Proof. destruct s as [|c s]; [done|]. intros _. cbn [encode_path_segment]. unfold encode_byte. by destruct (unreserved c). Qed.

(** ** Trimming does not change the segments *)
Lemma split_trim_start c s : nonempty_parts (split c (trim_start_matches c s)) = nonempty_parts (split c s).
Proof.
  induction s as [|d s IH]; [done|]. cbn [trim_start_matches]. destruct (Ascii.eqb c d) eqn:E; [|done].
  rewrite IH. cbn [split]. by rewrite E.
Qed.
Lemma split_trim_end c s : exists k, split c s = split c (trim_end_matches c s) ++ replicate k EmptyString.
Proof.
  induction s as [|d s [k IH]]; [by exists 0%nat|]. cbn [trim_end_matches].
  destruct (trim_end_matches c s) as [|e t].
  - cbn [split] in *. rewrite IH. destruct (Ascii.eqb c d) eqn:E.
    + by exists (S k).
    + exists k. cbn [split]. by rewrite E.
  - exists k. cbn [split]. rewrite IH. destruct (Ascii.eqb c d); [done|].
    cbn [split]. destruct (Ascii.eqb c e); [done|]. by destruct (split c t).
Qed.
Lemma nonempty_parts_app l k : nonempty_parts (l ++ k) = nonempty_parts l ++ nonempty_parts k.
Proof. apply List.filter_app. Qed.
Lemma split_trim_matches c s : nonempty_parts (split c (trim_matches c s)) = nonempty_parts (split c s).
Proof.
  unfold trim_matches. destruct (split_trim_end c (trim_start_matches c s)) as [k Hk].
  rewrite <- (split_trim_start c s), Hk, nonempty_parts_app.
  assert (nonempty_parts (replicate k EmptyString) = []) as -> by (unfold nonempty_parts; clear Hk; by induction k). by rewrite app_nil_r.
Qed.

(** ** What the server reads from a built path *)
Definition segment_ok (s : string) : Prop := s <> EmptyString /\ is_utf8 s = true.
Definition build_path (segments : list string) : string := "/" +:+ join (sep "/") (encode_path_segment <$> segments).
Lemma collect_decode l : Forall segment_ok l -> collect (decode_path_segment <$> (encode_path_segment <$> l)) = Ok l.
Proof.
  induction 1 as [|s l [_ Hs] _ IH]; [done|]. rewrite !fmap_cons. cbn [collect].
  by rewrite decode_encode, IH.
Qed.
Lemma nonempty_parts_id l : Forall (fun s => s <> EmptyString) l -> nonempty_parts l = l.
Proof. induction 1 as [|s l Hs _ IH]; [done|]. unfold nonempty_parts in *. cbn. apply is_empty_false in Hs as ->. cbn. by rewrite IH. Qed.
Lemma build_path_segments l : l <> [] -> Forall segment_ok l -> path_segments (build_path l) = Ok l.
Proof.
  intros Hne Hl. unfold path_segments. rewrite split_trim_matches. unfold build_path. rewrite append_cons, append_nil_l.
  cbn [split]. rewrite Ascii.eqb_refl, split_join.
  - change (nonempty_parts (EmptyString :: ?x)) with (nonempty_parts x). rewrite nonempty_parts_id; [by apply collect_decode|].
    rewrite Forall_fmap. eapply Forall_impl; [exact Hl|]. intros s [Hs _]. by apply encode_nonempty.
  - by destruct l.
  - rewrite Forall_fmap. apply Forall_true. intros s. apply plain_contains; [done|apply encode_plain].
Qed.
Lemma build_path_no_query l : split_path_query (build_path l) = (build_path l, None).
Proof.
  unfold split_path_query. rewrite (proj2 (split_once_none "?" (build_path l))); [done|].
  unfold build_path. rewrite append_cons, append_nil_l, contains_cons, contains_join by done. cbn [orb].
  apply not_true_is_false. intros (s & Hs & Hc)%existsb_exists. apply list_elem_of_In, list_elem_of_fmap in Hs as (t & -> & _).
  rewrite plain_contains in Hc; [done|done|apply encode_plain].
Qed.
