(* ===== verification/E2bRegistry.v ===== *)
(** * Registries of the control plane ([crates/e2b-server/src/registry])

    What the control plane knows of sandboxes, pods, templates and volumes, in
    memory.  A method with [&mut self] takes the registry and returns the new
    one beside its result; [now] is the fixed time stamp of a registry. *)
From S2P Require Import Prelude BTree Types E2bWire E2bRoutes.

Definition values {V} (m : strmap V) : list V := (entries m).*2.

(** ** Sandboxes *)
Module Sandboxes.
Record SandboxRecord := mk_record {
  create_request : SandboxCreateRequest;
  connected : ConnectedSandbox;
  info : SandboxInfo;
  rec_logs : SandboxLogs;
  metric : option SandboxMetric
}.
Record SnapshotRecord := mk_snapshot {
  sr_info : SnapshotInfo;
  sr_sandbox_id : string;
  sr_name : option string;
  sr_location : option string;
  sr_artifact_integrity : option PreparedTemplateArtifactIntegrity
}.
Record Registry := mk_registry { sandboxes : strmap SandboxRecord; snapshots : strmap SnapshotRecord }.
Definition new : Registry := mk_registry ∅ ∅.

Definition with_info (f : SandboxInfo -> SandboxInfo) (r : SandboxRecord) : SandboxRecord :=
  mk_record r.(create_request) r.(connected) (f r.(info)) r.(rec_logs) r.(metric).
Definition set_state (s : SandboxState) (i : SandboxInfo) : SandboxInfo :=
  mk_sandbox_info i.(si_sandbox_id) i.(si_template_id) i.(si_alias) i.(si_metadata) i.(si_started_at) i.(si_end_at)
    s i.(si_cpu_count) i.(si_memory_mb) i.(si_envd_version) i.(si_allow_internet_access) i.(si_network) i.(si_volume_mounts).
Definition set_end_at (e : string) (i : SandboxInfo) : SandboxInfo :=
  mk_sandbox_info i.(si_sandbox_id) i.(si_template_id) i.(si_alias) i.(si_metadata) i.(si_started_at) e
    i.(si_state) i.(si_cpu_count) i.(si_memory_mb) i.(si_envd_version) i.(si_allow_internet_access) i.(si_network) i.(si_volume_mounts).

Definition record (g : Registry) (id : string) : result BackendError SandboxRecord :=
  ok_or (NotFound id) (g.(sandboxes) !! id).
(** [record_mut] followed by an update through the reference. *)
Definition record_mut {A} (id : string) (f : SandboxRecord -> SandboxRecord * A) (g : Registry)
  : Registry * result BackendError A :=
  match g.(sandboxes) !! id with
  | Some r => (mk_registry (<[id := (f r).1]> g.(sandboxes)) g.(snapshots), Ok (f r).2)
  | None => (g, Err (NotFound id))
  end.

Definition new_connected (rt : SandboxRuntimeConfig) : ConnectedSandbox :=
  mk_connected rt.(rc_sandbox_id) rt.(rc_envd_version) rt.(rc_envd_access_token) rt.(rc_traffic_access_token)
    (Some rt.(rc_domain)).
Definition new_info (rq : SandboxCreateRequest) (rt : SandboxRuntimeConfig) : SandboxInfo :=
  mk_sandbox_info rt.(rc_sandbox_id) rq.(cr_template_id) None rq.(cr_metadata) rt.(rc_started_at) rt.(rc_end_at)
    Running rt.(rc_cpu_count) rt.(rc_memory_mb) rt.(rc_envd_version) rq.(cr_allow_internet_access) rq.(cr_network)
    rq.(cr_volume_mounts).
Definition create (rq : SandboxCreateRequest) (rt : SandboxRuntimeConfig) (g : Registry)
  : Registry * result BackendError ConnectedSandbox :=
  match g.(sandboxes) !! rt.(rc_sandbox_id) with
  | Some _ => (g, Err (AlreadyExists rt.(rc_sandbox_id)))
  | None =>
      (mk_registry (<[rt.(rc_sandbox_id) := mk_record rq (new_connected rt) (new_info rq rt) (mk_logs []) None]> g.(sandboxes))
         g.(snapshots), Ok (new_connected rt))
  end.
Definition get (g : Registry) (id : string) : result BackendError SandboxInfo := info <$> record g id.
Definition list_infos (g : Registry) : list SandboxInfo := info <$> values g.(sandboxes).
Definition delete_sandbox (id : string) (g : Registry) : Registry * bool :=
  (mk_registry (delete id g.(sandboxes)) g.(snapshots), bool_decide (is_Some (g.(sandboxes) !! id))).
Definition pause (id : string) : Registry -> Registry * result BackendError bool :=
  record_mut id (fun r => match r.(info).(si_state) with
                          | Paused => (r, false)
                          | Running => (with_info (set_state Paused) r, true)
                          end).
Definition connect (id : string) (_ : ConnectRequest) : Registry -> Registry * result BackendError ConnectedSandbox :=
  record_mut id (fun r => (with_info (set_state Running) r, r.(connected))).
Definition set_timeout (id : string) (_ : TimeoutRequest) (end_at : string) : Registry -> Registry * result BackendError unit :=
  record_mut id (fun r => (with_info (set_end_at end_at) r, tt)).
Definition refresh (id : string) (_ : RefreshRequest) (end_at : string) : Registry -> Registry * result BackendError unit :=
  record_mut id (fun r => (with_info (set_end_at end_at) r, tt)).
Definition push_log (id : string) (e : SandboxLogEntry) : Registry -> Registry * result BackendError unit :=
  record_mut id (fun r => (mk_record r.(create_request) r.(connected) r.(info) (mk_logs (r.(rec_logs).(logs) ++ [e])) r.(metric), tt)).
Definition get_logs (g : Registry) (id : string) : result BackendError SandboxLogs := rec_logs <$> record g id.
Definition set_metric (id : string) (s : SandboxMetric) : Registry -> Registry * result BackendError unit :=
  record_mut id (fun r => (mk_record r.(create_request) r.(connected) r.(info) r.(rec_logs) (Some s), tt)).
Definition metrics (g : Registry) (id : string) : result BackendError (list SandboxMetric) :=
  (fun r => option_list r.(metric)) <$> record g id.
Fixpoint metrics_into (g : Registry) (acc : strmap SandboxMetric) (ids : list string) : result BackendError (strmap SandboxMetric) :=
  match ids with
  | [] => Ok acc
  | id :: ids =>
      match record g id with
      | Ok r => metrics_into g (match r.(metric) with Some s => <[id := s]> acc | None => acc end) ids
      | Err e => Err e
      end
  end.
Definition metrics_many (g : Registry) (ids : list string) : result BackendError SandboxesWithMetrics :=
  mk_metrics <$> metrics_into g ∅ ids.
(** [a <= b] on strings: bytewise. *)
Definition string_le (a b : string) : bool := match string_cmp a b with Gt => false | _ => true end.
Definition is_due (now : string) (r : SandboxRecord) : bool :=
  match r.(info).(si_state) with Running => string_le r.(info).(si_end_at) now | Paused => false end.
Definition due_running_sandboxes (g : Registry) (now : string) : list string :=
  (List.filter (fun p => is_due now p.2) (entries g.(sandboxes))).*1.
Definition auto_pause_enabled (g : Registry) (id : string) : result BackendError bool :=
  (fun r => default false r.(create_request).(cr_auto_pause)) <$> record g id.
Definition create_snapshot (id : string) (rq : CreateSnapshotRequest) (s : SnapshotRef) (g : Registry)
  : Registry * result BackendError SnapshotInfo :=
  match record g id with
  | Err e => (g, Err e)
  | Ok _ =>
      match g.(snapshots) !! s.(sn_snapshot_id) with
      | Some _ => (g, Err (AlreadyExists s.(sn_snapshot_id)))
      | None =>
          let i := mk_snapshot_info s.(sn_snapshot_id) in
          (mk_registry g.(sandboxes)
             (<[s.(sn_snapshot_id) := mk_snapshot i id rq.(snapshot_name) s.(sn_location) s.(sn_artifact_integrity)]> g.(snapshots)), Ok i)
      end
  end.
Definition list_snapshots (g : Registry) (id : option string) : list SnapshotInfo :=
  sr_info <$> List.filter (fun r => match id with None => true | Some i => String.eqb i r.(sr_sandbox_id) end) (values g.(snapshots)).
Definition delete_snapshot (id : string) (g : Registry) : Registry * bool :=
  (mk_registry g.(sandboxes) (delete id g.(snapshots)), bool_decide (is_Some (g.(snapshots) !! id))).
Definition snapshot_prepared_template (g : Registry) (id : string) : option PreparedTemplate :=
  r ← g.(snapshots) !! id;
  Some (mk_prepared r.(sr_info).(snapshot_id) r.(sr_info).(snapshot_id) (default EmptyString r.(sr_location)) true
          r.(sr_artifact_integrity)).
Definition followup_snapshot (g : Registry) (id : string) : result BackendError FollowupSnapshot :=
  match g.(snapshots) !! id with
  | None => Err (NotFound id)
  | Some r =>
      match r.(sr_location) with
      | None => Err (Runtime ("snapshot " +:+ bt id +:+ " cannot start a follow-up sandbox without a runtime location"))
      | Some l => Ok (mk_followup r.(sr_info).(snapshot_id) l r.(sr_artifact_integrity))
      end
  end.
End Sandboxes.

(** ** Pods *)
Module Pods.
Record PodRecord := mk_record { create_request : PodCreateRequest; info : PodInfo }.
Record Registry := mk_registry { pods : strmap PodRecord }.
Definition new : Registry := mk_registry ∅.
Definition record (g : Registry) (id : string) : result BackendError PodRecord := ok_or (NotFound id) (g.(pods) !! id).

(** The first container name that occurs twice. *)
Fixpoint duplicate_name (seen : gset string) (names : list string) : option string :=
  match names with
  | [] => None
  | n :: ns => if decide (n ∈ seen) then Some n else duplicate_name ({[n]} ∪ seen) ns
  end.
Definition create (rq : PodCreateRequest) (rt : RuntimePod) (g : Registry) : Registry * result BackendError PodInfo :=
  let id := rt.(rp_config).(pod_id) in
  match g.(pods) !! id with
  | Some _ => (g, Err (AlreadyExists id))
  | None =>
      match duplicate_name ∅ (ci_name <$> rt.(rp_containers)) with
      | Some n => (g, Err (AlreadyExists n))
      | None =>
          let i := mk_pod_info id rq.(pr_metadata) rt.(rp_config).(pod_started_at) rt.(rp_config).(pod_end_at) PodRunning
                     rq.(pr_empty_dirs) rt.(rp_containers) in
          (mk_registry (<[id := mk_record rq i]> g.(pods)), Ok i)
      end
  end.
Definition get (g : Registry) (id : string) : result BackendError PodInfo := info <$> record g id.
Definition list_infos (g : Registry) : list PodInfo := info <$> values g.(pods).
Definition delete_pod (id : string) (g : Registry) : Registry * bool :=
  (mk_registry (delete id g.(pods)), bool_decide (is_Some (g.(pods) !! id))).
Definition with_containers (cs : list PodContainerInfo) (r : PodRecord) : PodRecord :=
  let i := r.(info) in
  mk_record r.(create_request)
    (mk_pod_info i.(pi_pod_id) i.(pi_metadata) i.(pi_started_at) i.(pi_end_at) i.(pi_state) i.(pi_empty_dirs) cs).
Definition has_container (name : string) (cs : list PodContainerInfo) : bool :=
  existsb (fun c => String.eqb c.(ci_name) name) cs.
Definition add_container (id : string) (c : PodContainerInfo) (g : Registry) : Registry * result BackendError PodContainerInfo :=
  match g.(pods) !! id with
  | None => (g, Err (NotFound id))
  | Some r =>
      if has_container c.(ci_name) r.(info).(pi_containers) then (g, Err (AlreadyExists c.(ci_name)))
      else (mk_registry (<[id := with_containers (r.(info).(pi_containers) ++ [c]) r]> g.(pods)), Ok c)
  end.
Definition delete_container (id name : string) (g : Registry) : Registry * result BackendError unit :=
  match g.(pods) !! id with
  | None => (g, Err (NotFound id))
  | Some r =>
      let cs := r.(info).(pi_containers) in
      let kept := List.filter (fun c => negb (String.eqb c.(ci_name) name)) cs in
      (mk_registry (<[id := with_containers kept r]> g.(pods)),
       if Nat.eqb (length kept) (length cs) then Err (NotFound name) else Ok tt)
  end.
End Pods.

(** ** Templates *)
Module Templates.
Record TemplateRecord := mk_record {
  info : TemplateInfo;
  builds : list TemplateBuild;
  rec_build_logs : strmap (list BuildLogEntry);
  build_inputs : strmap TemplateBuildStart;
  prepared_templates : strmap PreparedTemplate;
  rec_tags : strmap TemplateTag;
  uploaded_files : strmap Bytes
}.
Record Registry := mk_registry {
  templates : strmap TemplateRecord;
  aliases : strmap string;
  next_template_id : Z;
  next_build_id : Z;
  now : string
}.
Definition new (now : string) : Registry := mk_registry ∅ ∅ 0 0 now.
Definition with_templates (m : strmap TemplateRecord) (g : Registry) : Registry :=
  mk_registry m g.(aliases) g.(next_template_id) g.(next_build_id) g.(now).

Definition template (g : Registry) (id : string) : result BackendError TemplateRecord :=
  ok_or (NotFound id) (g.(templates) !! id).
(** [template_mut] followed by an update through the reference, which may fail
    without a change. *)
Definition template_mut {A} (id : string) (f : TemplateRecord -> result BackendError (TemplateRecord * A)) (g : Registry)
  : Registry * result BackendError A :=
  match g.(templates) !! id with
  | None => (g, Err (NotFound id))
  | Some r =>
      match f r with
      | Err e => (g, Err e)
      | Ok (r', a) => (with_templates (<[id := r']> g.(templates)) g, Ok a)
      end
  end.

Definition template_id_of (n : Z) : string := "tpl_" +:+ print_dec n.
Definition build_id_of (n : Z) : string := "bld_" +:+ print_dec n.
Definition new_build (id at_ : string) (rq : TemplateBuildRequest) : TemplateBuild :=
  mk_build id Waiting at_ at_ None (default 2 rq.(br_cpu_count)) (default 1024 rq.(br_memory_mb)) None None.
Definition new_template_info (tid bid at_ : string) (names : list string) : TemplateInfo :=
  mk_template_info tid (Some bid) false [] names at_ at_ None 0 1 None (Some Waiting).
Definition tag_all (bid at_ : string) (tags : list string) (m : strmap TemplateTag) : strmap TemplateTag :=
  foldl (fun m t => <[t := mk_tag t bid at_]> m) m tags.
Definition request_build (rq : TemplateBuildRequest) (g : Registry) : Registry * TemplateBuildRequestInfo :=
  let nt := sat_add 64 g.(next_template_id) 1 in
  let nb := sat_add 64 g.(next_build_id) 1 in
  let tid := template_id_of nt in
  let bid := build_id_of nb in
  let names := option_list rq.(br_name) in
  let r := mk_record (new_template_info tid bid g.(now) names) [new_build bid g.(now) rq] ∅ ∅ ∅
             (tag_all bid g.(now) rq.(br_tags) ∅) ∅ in
  (mk_registry (<[tid := r]> g.(templates)) (foldl (fun m n => <[n := tid]> m) g.(aliases) names) nt nb g.(now),
   mk_request_info tid bid false names rq.(br_tags) []).

Definition list_infos (g : Registry) : list TemplateInfo := info <$> values g.(templates).
Definition get (g : Registry) (id : string) : result BackendError TemplateWithBuilds :=
  (fun r => let i := r.(info) in
     mk_with_builds i.(ti_template_id) i.(ti_public) i.(ti_aliases) i.(ti_names) i.(ti_created_at) i.(ti_updated_at)
       i.(ti_last_spawned_at) i.(ti_spawn_count) r.(builds)) <$> template g id.
Definition delete_template (id : string) (g : Registry) : Registry * bool :=
  match g.(templates) !! id with
  | None => (g, false)
  | Some r =>
      (mk_registry (delete id g.(templates)) (foldl (fun m n => delete n m) g.(aliases) r.(info).(ti_names))
         g.(next_template_id) g.(next_build_id) g.(now), true)
  end.
Definition set_info (f : TemplateInfo -> TemplateInfo) (r : TemplateRecord) : TemplateRecord :=
  mk_record (f r.(info)) r.(builds) r.(rec_build_logs) r.(build_inputs) r.(prepared_templates) r.(rec_tags) r.(uploaded_files).
Definition set_builds (bs : list TemplateBuild) (r : TemplateRecord) : TemplateRecord :=
  mk_record r.(info) bs r.(rec_build_logs) r.(build_inputs) r.(prepared_templates) r.(rec_tags) r.(uploaded_files).
Definition set_build_inputs (m : strmap TemplateBuildStart) (r : TemplateRecord) : TemplateRecord :=
  mk_record r.(info) r.(builds) r.(rec_build_logs) m r.(prepared_templates) r.(rec_tags) r.(uploaded_files).
Definition set_prepared (m : strmap PreparedTemplate) (r : TemplateRecord) : TemplateRecord :=
  mk_record r.(info) r.(builds) r.(rec_build_logs) r.(build_inputs) m r.(rec_tags) r.(uploaded_files).
Definition set_tags (m : strmap TemplateTag) (r : TemplateRecord) : TemplateRecord :=
  mk_record r.(info) r.(builds) r.(rec_build_logs) r.(build_inputs) r.(prepared_templates) m r.(uploaded_files).
Definition set_uploads (m : strmap Bytes) (r : TemplateRecord) : TemplateRecord :=
  mk_record r.(info) r.(builds) r.(rec_build_logs) r.(build_inputs) r.(prepared_templates) r.(rec_tags) m.
Definition set_build_logs (m : strmap (list BuildLogEntry)) (r : TemplateRecord) : TemplateRecord :=
  mk_record r.(info) r.(builds) m r.(build_inputs) r.(prepared_templates) r.(rec_tags) r.(uploaded_files).
Definition touch_info (public : bool) (st : option TemplateBuildStatus) (at_ : string) (i : TemplateInfo) : TemplateInfo :=
  mk_template_info i.(ti_template_id) i.(ti_build_id) public i.(ti_aliases) i.(ti_names) i.(ti_created_at) at_
    i.(ti_last_spawned_at) i.(ti_spawn_count) i.(ti_build_count) i.(ti_envd_version) st.
Definition update (id : string) (rq : TemplateUpdateRequest) (g : Registry) : Registry * result BackendError TemplateUpdateInfo :=
  template_mut id (fun r =>
    Ok (set_info (fun i => touch_info (default i.(ti_public) rq.(update_public)) i.(ti_build_status) g.(now) i) r,
        mk_update_info r.(info).(ti_names))) g.
Definition file_upload (g : Registry) (id hash : string) (origin : option string) : result BackendError TemplateFileUpload :=
  (fun r => let present := bool_decide (is_Some (r.(uploaded_files) !! hash)) in
     mk_file_upload present
       (if present then None
        else Some (default "http://upload.local"%string origin +:+ "/templates/" +:+ encode_path_segment id
                   +:+ "/files/" +:+ encode_path_segment hash +:+ "/upload"))) <$> template g id.
Definition upload_file (id hash : string) (b : Bytes) : Registry -> Registry * result BackendError unit :=
  template_mut id (fun r => Ok (set_uploads (<[hash := b]> r.(uploaded_files)) r, tt)).
Definition uploaded_file (g : Registry) (id hash : string) : result BackendError Bytes :=
  r ← template g id; ok_or (NotFound hash) (r.(uploaded_files) !! hash).

(** Every [COPY] step names an upload that is there. *)
Fixpoint validate_steps (uploads : strmap Bytes) (ss : list TemplateStep) : result BackendError unit :=
  match ss with
  | [] => Ok tt
  | s :: ss =>
      match s.(step_kind) with
      | Copy =>
          match s.(step_files_hash) with
          | None => Err (Runtime "template COPY step is missing filesHash")
          | Some h => match uploads !! h with None => Err (NotFound h) | Some _ => validate_steps uploads ss end
          end
      | _ => validate_steps uploads ss
      end
  end.
(** The uploads the [COPY] steps name. *)
Fixpoint copy_inputs (uploads acc : strmap Bytes) (ss : list TemplateStep) : result BackendError (strmap Bytes) :=
  match ss with
  | [] => Ok acc
  | s :: ss =>
      match s.(step_kind) with
      | Copy =>
          match s.(step_files_hash) with
          | None => Err (Runtime "template COPY step is missing filesHash")
          | Some h =>
              match uploads !! h with
              | None => Err (NotFound h)
              | Some b => copy_inputs uploads (<[h := b]> acc) ss
              end
          end
      | _ => copy_inputs uploads acc ss
      end
  end.
Definition validate_template_build_inputs (r : TemplateRecord) (start : TemplateBuildStart) : result BackendError unit :=
  validate_steps r.(uploaded_files) start.(steps).
Definition uploaded_files_for_build (g : Registry) (id : string) (start : TemplateBuildStart) : result BackendError (strmap Bytes) :=
  r ← template g id; copy_inputs r.(uploaded_files) ∅ start.(steps).

(** Update the first build with an id, through [iter_mut().find]. *)
Fixpoint update_build (bid : string) (f : TemplateBuild -> TemplateBuild) (bs : list TemplateBuild)
  : result BackendError (list TemplateBuild) :=
  match bs with
  | [] => Err (NotFound bid)
  | b :: bs => if String.eqb b.(tb_build_id) bid then Ok (f b :: bs) else cons b <$> update_build bid f bs
  end.
Definition find_build (bid : string) (bs : list TemplateBuild) : result BackendError TemplateBuild :=
  ok_or (NotFound bid) (List.find (fun b => String.eqb b.(tb_build_id) bid) bs).
Definition set_status (st : TemplateBuildStatus) (at_ : string) (fin : option string) (b : TemplateBuild) : TemplateBuild :=
  mk_build b.(tb_build_id) st b.(tb_created_at) at_ fin b.(tb_cpu_count) b.(tb_memory_mb) b.(tb_disk_size_mb) b.(tb_envd_version).
Definition start_build (id bid : string) (start : TemplateBuildStart) (g : Registry) : Registry * result BackendError unit :=
  template_mut id (fun r =>
    _ ← validate_template_build_inputs r start;
    bs ← update_build bid (fun b => set_status Building g.(now) b.(tb_finished_at) b) r.(builds);
    let r := set_build_inputs (<[bid := start]> r.(build_inputs)) (set_builds bs r) in
    Ok (set_info (fun i => touch_info i.(ti_public) (Some Building) g.(now) i) r, tt)) g.
Definition build_input (g : Registry) (id bid : string) : result BackendError TemplateBuildStart :=
  r ← template g id; ok_or (NotFound bid) (r.(build_inputs) !! bid).
Definition set_prepared_template (id : string) (p : PreparedTemplate) : Registry -> Registry * result BackendError unit :=
  template_mut id (fun r => Ok (set_prepared (<[p.(pt_build_id) := p]> r.(prepared_templates)) r, tt)).
Definition is_ready (b : TemplateBuild) : bool := match b.(tb_status) with Ready => true | _ => false end.
Definition latest_prepared (r : TemplateRecord) : option PreparedTemplate :=
  b ← List.find is_ready (rev r.(builds)); r.(prepared_templates) !! b.(tb_build_id).
Definition latest_prepared_template (g : Registry) (name : string) : option PreparedTemplate :=
  r ← g.(templates) !! default name (g.(aliases) !! name); latest_prepared r.
Definition latest_prepared_templates (g : Registry) : list PreparedTemplate :=
  omap latest_prepared (values g.(templates)).
Definition set_build_status (id bid : string) (st : TemplateBuildStatus) (g : Registry) : Registry * result BackendError unit :=
  template_mut id (fun r =>
    bs ← update_build bid (fun b =>
           set_status st g.(now) (match st with Ready | BuildError => Some g.(now) | _ => b.(tb_finished_at) end) b) r.(builds);
    Ok (set_info (fun i => touch_info i.(ti_public) (Some st) g.(now) i) (set_builds bs r), tt)) g.
Definition build_status (g : Registry) (id bid : string) : result BackendError TemplateBuildInfo :=
  r ← template g id;
  b ← find_build bid r.(builds);
  let es := default [] (r.(rec_build_logs) !! bid) in
  Ok (mk_build_info id bid b.(tb_status) (bl_message <$> es) es None).
Definition push_build_log (id bid : string) (e : BuildLogEntry) : Registry -> Registry * result BackendError unit :=
  template_mut id (fun r => Ok (set_build_logs (<[bid := default [] (r.(rec_build_logs) !! bid) ++ [e]]> r.(rec_build_logs)) r, tt)).
Definition build_logs (g : Registry) (id bid : string) : result BackendError TemplateBuildLogs :=
  (fun r => mk_build_logs (default [] (r.(rec_build_logs) !! bid))) <$> template g id.
Definition alias (g : Registry) (name : string) : option TemplateAliasInfo :=
  id ← g.(aliases) !! name; r ← g.(templates) !! id; Some (mk_alias_info id r.(info).(ti_public)).
Definition assign_tags (rq : AssignTemplateTags) (g : Registry) : Registry * result BackendError AssignedTemplateTags :=
  let name := default rq.(assign_target) (head (split ":" rq.(assign_target))) in
  let id := default rq.(assign_target) (g.(aliases) !! name) in
  template_mut id (fun r =>
    let bid := default EmptyString r.(info).(ti_build_id) in
    Ok (set_tags (tag_all bid g.(now) rq.(assign_tags_list) r.(rec_tags)) r, mk_assigned rq.(assign_tags_list) bid)) g.
Definition remove_tags (rq : RemoveTemplateTags) (g : Registry) : Registry * result BackendError unit :=
  match g.(aliases) !! rq.(remove_name) with
  | None => (g, Err (NotFound rq.(remove_name)))
  | Some id => template_mut id (fun r => Ok (set_tags (foldl (fun m t => delete t m) r.(rec_tags) rq.(remove_tags_list)) r, tt)) g
  end.
Definition tags (g : Registry) (id : string) : result BackendError (list TemplateTag) :=
  (fun r => values r.(rec_tags)) <$> template g id.
End Templates.

(** ** Volumes *)
Module Volumes.
Record VolumeContentEntry := mk_entry { stat : VolumeEntryStat; data : Bytes }.
Record VolumeRecord := mk_record { info : VolumeInfo; token : string; vol_entries : strmap VolumeContentEntry }.
Record Registry := mk_registry { volumes : strmap VolumeRecord; next_volume_id : Z }.
Definition new : Registry := mk_registry ∅ 0.

Definition VOLUME_CONTENT_TIMESTAMP : string := "2026-05-03T12:00:00Z".
Fixpoint last_nonempty (l : list string) : option string :=
  match l with
  | [] => None
  | s :: l => match last_nonempty l with
              | Some t => Some t
              | None => if is_empty s then None else Some s
              end
  end.
Definition volume_path_name (p : string) : string :=
  if String.eqb p "/" then "/"%string else default "/"%string (last_nonempty (split "/" p)).
Definition volume_entry_stat (p : string) (k : VolumeFileType) (size mode uid gid : Z) : VolumeEntryStat :=
  mk_stat (volume_path_name p) k p size mode uid gid VOLUME_CONTENT_TIMESTAMP VOLUME_CONTENT_TIMESTAMP
    VOLUME_CONTENT_TIMESTAMP None.
(** Modes 0o755 and 0o644. *)
Definition DIR_MODE : Z := 493.
Definition FILE_MODE : Z := 420.
Definition root_volume_entry : VolumeContentEntry := mk_entry (volume_entry_stat "/" Directory 0 DIR_MODE 0 0) [].

(** [str::trim]: white space of up to three bytes at either end. *)
Fixpoint trim_start_white (l : list Z) : list Z :=
  match l with
  | [] => []
  | b :: l1 =>
      if Network.is_white_byte b then trim_start_white l1
      else match l1 with
           | [] => l
           | c :: l2 =>
               if Network.is_white2 b c then trim_start_white l2
               else match l2 with
                    | [] => l
                    | d :: l3 => if Network.is_white3 b c d then trim_start_white l3 else l
                    end
           end
  end.
Fixpoint trim_end_rev (l : list Z) : list Z :=
  match l with
  | [] => []
  | b :: l1 =>
      if Network.is_white_byte b then trim_end_rev l1
      else match l1 with
           | [] => l
           | c :: l2 =>
               if Network.is_white2 c b then trim_end_rev l2
               else match l2 with
                    | [] => l
                    | d :: l3 => if Network.is_white3 d c b then trim_end_rev l3 else l
                    end
           end
  end.
Definition trim (s : string) : string :=
  String.string_of_list_ascii (ascii_of <$> rev (trim_end_rev (rev (trim_start_white (code <$> bytes s))))).
Definition normalize_volume_path (p : string) : string :=
  let t := trim p in
  if is_empty t || String.eqb t "/" then "/"%string else "/" +:+ trim_matches "/" t.

Definition volume_id_of (n : Z) : string := "vol_" +:+ print_dec n.
Definition token_of (n : Z) : string := "tok_" +:+ print_dec n.
Definition volume (g : Registry) (id : string) : result BackendError VolumeRecord := ok_or (NotFound id) (g.(volumes) !! id).
Definition create (rq : VolumeCreateRequest) (g : Registry) : Registry * result BackendError VolumeAndToken :=
  let n := sat_add 64 g.(next_volume_id) 1 in
  let id := volume_id_of n in
  match g.(volumes) !! id with
  | Some _ => (mk_registry g.(volumes) n, Err (AlreadyExists id))
  | None =>
      (mk_registry (<[id := mk_record (mk_volume_info id rq.(volume_request_name)) (token_of n) {["/"%string := root_volume_entry]}]>
         g.(volumes)) n,
       Ok (mk_volume_token id rq.(volume_request_name) (token_of n)))
  end.
Definition get (g : Registry) (id : string) : result BackendError VolumeAndToken :=
  (fun r => mk_volume_token r.(info).(volume_id) r.(info).(volume_name) r.(token)) <$> volume g id.
Definition list_infos (g : Registry) : list VolumeInfo := info <$> values g.(volumes).
Definition delete_volume (id : string) (g : Registry) : Registry * bool :=
  (mk_registry (delete id g.(volumes)) g.(next_volume_id), bool_decide (is_Some (g.(volumes) !! id))).
Definition set_entries (id : string) (m : strmap VolumeContentEntry) (r : VolumeRecord) (g : Registry) : Registry :=
  mk_registry (<[id := mk_record r.(info) r.(token) m]> g.(volumes)) g.(next_volume_id).

Definition list_dir (g : Registry) (id path : string) : result BackendError (list VolumeEntryStat) :=
  let path := normalize_volume_path path in
  r ← volume g id;
  e ← ok_or (NotFound path) (r.(vol_entries) !! path);
  match e.(stat).(stat_kind) with
  | Directory =>
      let pre := if String.eqb path "/" then "/"%string else path +:+ "/" in
      Ok ((fun p => p.2.(stat)) <$>
          List.filter (fun p => negb (String.eqb p.1 path) &&
                                match strip_prefix pre p.1 with Some rest => negb (contains "/" rest) | None => false end)
            (entries r.(vol_entries)))
  | _ => Err (NotFound path)
  end.
(** Both writers: refuse an existing entry unless forced, then replace it. *)
Definition put_entry (id path : string) (opts : VolumeWriteOptions) (k : VolumeFileType) (size mode : Z) (b : Bytes) (g : Registry)
  : Registry * result BackendError VolumeEntryStat :=
  let path := normalize_volume_path path in
  match g.(volumes) !! id with
  | None => (g, Err (NotFound id))
  | Some r =>
      if negb (bool_decide (opts.(wo_force) = Some true)) && bool_decide (is_Some (r.(vol_entries) !! path))
      then (g, Err (AlreadyExists path))
      else let s := volume_entry_stat path k size (default mode opts.(wo_mode)) (default 0 opts.(wo_uid)) (default 0 opts.(wo_gid)) in
           (set_entries id (<[path := mk_entry s b]> r.(vol_entries)) r g, Ok s)
  end.
Definition make_dir (id path : string) (opts : VolumeWriteOptions) : Registry -> Registry * result BackendError VolumeEntryStat :=
  put_entry id path opts Directory 0 DIR_MODE [].
Definition I64_MAX : Z := 2 ^ 63 - 1.
Definition write_file (id path : string) (b : Bytes) (opts : VolumeWriteOptions)
  : Registry -> Registry * result BackendError VolumeEntryStat :=
  put_entry id path opts File (Z.min (Z.of_nat (length b)) I64_MAX) FILE_MODE b.
Definition path_info (g : Registry) (id path : string) : result BackendError VolumeEntryStat :=
  let path := normalize_volume_path path in
  r ← volume g id; stat <$> ok_or (NotFound path) (r.(vol_entries) !! path).
Definition set_metadata (rq : VolumeMetadataRequest) (s : VolumeEntryStat) : VolumeEntryStat :=
  mk_stat s.(stat_name) s.(stat_kind) s.(stat_path) s.(stat_size) (default s.(stat_mode) rq.(mr_mode))
    (default s.(stat_uid) rq.(mr_uid)) (default s.(stat_gid) rq.(mr_gid)) s.(stat_atime) s.(stat_mtime)
    VOLUME_CONTENT_TIMESTAMP s.(stat_target).
Definition update_metadata (id path : string) (rq : VolumeMetadataRequest) (g : Registry)
  : Registry * result BackendError VolumeEntryStat :=
  let path := normalize_volume_path path in
  match g.(volumes) !! id with
  | None => (g, Err (NotFound id))
  | Some r =>
      match r.(vol_entries) !! path with
      | None => (g, Err (NotFound path))
      | Some e =>
          let s := set_metadata rq e.(stat) in
          (set_entries id (<[path := mk_entry s e.(data)]> r.(vol_entries)) r g, Ok s)
      end
  end.
Definition read_file (g : Registry) (id path : string) : result BackendError Bytes :=
  let path := normalize_volume_path path in
  r ← volume g id;
  e ← ok_or (NotFound path) (r.(vol_entries) !! path);
  match e.(stat).(stat_kind) with File => Ok e.(data) | _ => Err (NotFound path) end.
Definition remove_path (id path : string) (g : Registry) : Registry * result BackendError unit :=
  let path := normalize_volume_path path in
  if String.eqb path "/" then (g, Err (NotFound path))
  else match g.(volumes) !! id with
       | None => (g, Err (NotFound id))
       | Some r =>
           (set_entries id (delete path r.(vol_entries)) r g,
            match r.(vol_entries) !! path with Some _ => Ok tt | None => Err (NotFound path) end)
       end.
End Volumes.

(** ** Volumes stay well formed *)
Module VolumeProofs.
Import Volumes.
Inductive Op :=
| OpCreate (rq : VolumeCreateRequest)
| OpDelete (id : string)
| OpMakeDir (id path : string) (opts : VolumeWriteOptions)
| OpWrite (id path : string) (b : Bytes) (opts : VolumeWriteOptions)
| OpMetadata (id path : string) (rq : VolumeMetadataRequest)
| OpRemove (id path : string).
Definition step (g : Registry) (o : Op) : Registry :=
  match o with
  | OpCreate rq => (create rq g).1
  | OpDelete id => (delete_volume id g).1
  | OpMakeDir id p opts => (make_dir id p opts g).1
  | OpWrite id p b opts => (write_file id p b opts g).1
  | OpMetadata id p rq => (update_metadata id p rq g).1
  | OpRemove id p => (remove_path id p g).1
  end.
Definition run (ops : list Op) : Registry := foldl step new ops.

(** An entry describes itself: its key, its name and the bytes it holds. *)
Definition entry_ok (k : string) (e : VolumeContentEntry) : Prop :=
  e.(stat).(stat_path) = k /\ e.(stat).(stat_name) = volume_path_name k /\
  match e.(stat).(stat_kind) with
  | File => e.(stat).(stat_size) = Z.min (Z.of_nat (length e.(data))) I64_MAX
  | Directory => e.(stat).(stat_size) = 0 /\ e.(data) = []
  | _ => False
  end.
Definition volume_ok (id : string) (r : VolumeRecord) : Prop :=
  r.(info).(volume_id) = id /\ is_Some (r.(vol_entries) !! "/"%string) /\ map_Forall entry_ok r.(vol_entries).
Definition registry_ok (g : Registry) : Prop := map_Forall volume_ok g.(volumes).

Lemma set_entries_ok id r m g :
  registry_ok g -> g.(volumes) !! id = Some r -> is_Some (m !! "/"%string) -> map_Forall entry_ok m ->
  registry_ok (set_entries id m r g).
Proof.
  intros Hg Hr Hroot Hm. apply map_Forall_insert_2; [|done]. destruct (Hg _ _ Hr) as (? & _ & _). done.
Qed.
Lemma insert_root (m : strmap VolumeContentEntry) k e : is_Some (m !! "/"%string) -> is_Some (<[k := e]> m !! "/"%string).
Proof. intros. destruct (decide (k = "/"%string)) as [->|]; [by rewrite lookup_insert_eq|by rewrite lookup_insert_ne]. Qed.
Lemma put_entry_ok id p opts k size mode b g :
  (k = File /\ size = Z.min (Z.of_nat (length b)) I64_MAX \/ k = Directory /\ size = 0 /\ b = []) ->
  registry_ok g -> registry_ok (put_entry id p opts k size mode b g).1.
Proof.
  intros Hk Hg. unfold put_entry. destruct (volumes g !! id) as [r|] eqn:Hr; [|done]. destruct (_ && _); [done|].
  destruct (Hg _ _ Hr) as (_ & Hroot & He). cbn [fst]. apply set_entries_ok; [done|done|by apply insert_root|].
  apply map_Forall_insert_2; [|done]. split_and!; [done|done|]. destruct Hk as [[-> ->]|(-> & -> & ->)]; done.
Qed.
Lemma volume_step_ok g o : registry_ok g -> registry_ok (step g o).
Proof.
  intros Hg. destruct o as [rq|id|id p opts|id p b opts|id p rq|id p]; cbn [step].
  - unfold create. destruct (volumes g !! _) eqn:E; [done|]. apply map_Forall_insert_2; [|done].
    split_and!; [done|cbn [vol_entries]; by rewrite lookup_singleton_eq|]. by apply map_Forall_singleton.
  - apply map_Forall_delete. done.
  - apply put_entry_ok; auto.
  - apply put_entry_ok; auto.
  - unfold update_metadata. destruct (volumes g !! id) as [r|] eqn:Hr; [|done].
    destruct (vol_entries r !! _) as [e|] eqn:He; [|done]. destruct (Hg _ _ Hr) as (_ & Hroot & Hall).
    apply set_entries_ok; [done|done|by apply insert_root|]. apply map_Forall_insert_2; [|done]. exact (Hall _ _ He).
  - unfold remove_path. destruct (String.eqb_spec (normalize_volume_path p) "/") as [|Hne]; [done|].
    destruct (volumes g !! id) as [r|] eqn:Hr; [|done]. destruct (Hg _ _ Hr) as (_ & Hroot & Hall).
    apply set_entries_ok; [done|done|by rewrite lookup_delete_ne|by apply map_Forall_delete].
Qed.
Lemma volume_run_ok ops : registry_ok (run ops).
Proof.
  unfold run. assert (H0 : registry_ok new) by apply map_Forall_empty. revert H0. generalize new.
  induction ops as [|o ops IH]; [done|]. intros g Hg. cbn [foldl]. by apply IH, volume_step_ok.
Qed.

(** C32: the volumes a sequence of requests leaves are well typed.  Every volume
    has its id and a root entry; every entry is a file or a directory, carries
    the path and name of its key, and its size is that of the bytes it holds. *)
Theorem volumes_well_formed ops id r k e :
  (run ops).(volumes) !! id = Some r -> r.(vol_entries) !! k = Some e ->
  r.(info).(volume_id) = id /\ is_Some (r.(vol_entries) !! "/"%string) /\
  e.(stat).(stat_path) = k /\ e.(stat).(stat_name) = volume_path_name k /\
  (e.(stat).(stat_kind) = File \/ e.(stat).(stat_kind) = Directory) /\
  e.(stat).(stat_size) = Z.min (Z.of_nat (length e.(data))) I64_MAX.
Proof.
  intros Hr He. destruct (volume_run_ok ops _ _ Hr) as (Hid & Hroot & Hall). destruct (Hall _ _ He) as (? & ? & Hk).
  destruct (stat_kind (stat e)); [done|by auto 7| |done]. destruct Hk as [-> ->]. by auto 7.
Qed.
Definition demo_ops : list Op :=
  [OpCreate (mk_volume_request "data"); OpMakeDir "vol_1" "/src/" (mk_write_options None None None None);
   OpWrite "vol_1" "src/a.txt" [104; 105] (mk_write_options (Some 7) None None None); OpRemove "vol_1" "/"].
Lemma volumes_well_formed_witness :
  exists r e, (run demo_ops).(volumes) !! "vol_1"%string = Some r /\ r.(vol_entries) !! "/src/a.txt"%string = Some e /\
    e.(stat).(stat_size) = 2 /\ e.(stat).(stat_name) = "a.txt"%string.
Proof.
  eexists _, _. split; [vm_compute; reflexivity|]. split; [vm_compute; reflexivity|].
  destruct (volumes_well_formed demo_ops "vol_1" _ "/src/a.txt" _ ltac:(vm_compute; reflexivity) ltac:(vm_compute; reflexivity))
    as (_ & _ & _ & Hn & _ & Hs).
  split; [exact Hs|exact Hn].
Defined.

(** Bytes written to a volume are read back from it, under every spelling of
    the path that normalizes to the same entry, with the status the write
    reported; all other files of all volumes keep their bytes. *)
Theorem volume_write_read id path b opts g g' s :
  write_file id path b opts g = (g', Ok s) ->
  (forall path', normalize_volume_path path' = normalize_volume_path path ->
     read_file g' id path' = Ok b /\ path_info g' id path' = Ok s) /\
  (forall id' path', id' <> id \/ normalize_volume_path path' <> normalize_volume_path path ->
     read_file g' id' path' = read_file g id' path').
Proof.
  unfold write_file, put_entry, read_file, path_info, volume. intros H.
  destruct (volumes g !! id) as [r|] eqn:Hr; [|done]. destruct (_ && _); [done|]. injection H as <- <-. split.
  - intros path' ->. cbn [volumes set_entries]. rewrite lookup_insert_eq. cbn. by rewrite lookup_insert_eq.
  - intros id' path' Hne. cbn [volumes set_entries]. destruct (decide (id = id')) as [->|].
    + destruct Hne as [|Hne]; [done|]. rewrite lookup_insert_eq, Hr. cbn. by rewrite lookup_insert_ne by congruence.
    + by rewrite lookup_insert_ne.
Qed.
Lemma volume_write_read_witness :
  exists g' s, write_file "vol_1" "a.txt" [1; 2; 3] (mk_write_options None None None None) (run [OpCreate (mk_volume_request "v")]) = (g', Ok s) /\
    read_file g' "vol_1" " /a.txt/ " = Ok [1; 2; 3].
Proof.
  eexists _, _. split; [vm_compute; reflexivity|].
  eapply (proj1 (volume_write_read "vol_1" "a.txt" [1; 2; 3] (mk_write_options None None None None)
    (run [OpCreate (mk_volume_request "v")]) _ _ ltac:(vm_compute; reflexivity))). vm_compute. reflexivity.
Defined.

(** Normalizing is not idempotent: white space before trailing slashes stays, so
    the path a write reports leads to another entry. *)
Lemma reported_path_not_found :
  let g := run [OpCreate (mk_volume_request "v")] in
  exists s, (write_file "vol_1" "notes /" [1] (mk_write_options None None None None) g).2 = Ok s /\
    path_info (write_file "vol_1" "notes /" [1] (mk_write_options None None None None) g).1 "vol_1" s.(stat_path)
    = Err (NotFound "/notes").
Proof. eexists. split; vm_compute; reflexivity. Qed.
(** Removing a directory leaves what lies below it. *)
Lemma removed_directory_keeps_files :
  let g := run (demo_ops ++ [OpRemove "vol_1" "/src"]) in
  read_file g "vol_1" "/src/a.txt" = Ok [104; 105] /\ list_dir g "vol_1" "/src" = Err (NotFound "/src").
Proof. split; vm_compute; reflexivity. Qed.
(** A forced write to the root turns it into a file. *)
Lemma root_overwritten :
  let g := run [OpCreate (mk_volume_request "v"); OpWrite "vol_1" "/" [1] (mk_write_options None None None (Some true))] in
  list_dir g "vol_1" "/" = Err (NotFound "/").
Proof. vm_compute. reflexivity. Qed.
End VolumeProofs.

(** ** Templates and their aliases *)
Module TemplateProofs.
Import Templates.
Inductive Op :=
| OpRequest (rq : TemplateBuildRequest)
| OpDelete (id : string)
| OpUpdate (id : string) (rq : TemplateUpdateRequest)
| OpUpload (id hash : string) (b : Bytes)
| OpStart (id bid : string) (start : TemplateBuildStart)
| OpPrepared (id : string) (p : PreparedTemplate)
| OpStatus (id bid : string) (st : TemplateBuildStatus)
| OpLog (id bid : string) (e : BuildLogEntry)
| OpAssign (rq : AssignTemplateTags)
| OpRemoveTags (rq : RemoveTemplateTags).
Definition step (g : Registry) (o : Op) : Registry :=
  match o with
  | OpRequest rq => (request_build rq g).1
  | OpDelete id => (delete_template id g).1
  | OpUpdate id rq => (update id rq g).1
  | OpUpload id h b => (upload_file id h b g).1
  | OpStart id bid start => (start_build id bid start g).1
  | OpPrepared id p => (set_prepared_template id p g).1
  | OpStatus id bid st => (set_build_status id bid st g).1
  | OpLog id bid e => (push_build_log id bid e g).1
  | OpAssign rq => (assign_tags rq g).1
  | OpRemoveTags rq => (remove_tags rq g).1
  end.
Definition run (now : string) (ops : list Op) : Registry := foldl step (new now) ops.

Lemma template_id_inj n m : in_uint 64 n -> in_uint 64 m -> template_id_of n = template_id_of m -> n = m.
Proof.
  unfold template_id_of. intros Hn Hm H. apply append_inj_l in H.
  pose proof (parse_uint_print 64 n Hn) as Pn. rewrite H, parse_uint_print in Pn by done. congruence.
Qed.

(** Names are bound to live templates that carry them; ids are numbered. *)
Record ok (n : Z) (g : Registry) : Prop := {
  ok_next : g.(next_template_id) = n;
  ok_record id r : g.(templates) !! id = Some r ->
    r.(info).(ti_template_id) = id /\ exists i, id = template_id_of i /\ 1 <= i <= n;
  ok_alias a id : g.(aliases) !! a = Some id ->
    exists r, g.(templates) !! id = Some r /\ a ∈ r.(info).(ti_names)
}.

(** Operations through [template_mut] keep id and names of every template. *)
Lemma template_mut_ok {A} n id (f : TemplateRecord -> result BackendError (TemplateRecord * A)) g :
  (forall r r' a, f r = Ok (r', a) ->
     r'.(info).(ti_template_id) = r.(info).(ti_template_id) /\ r'.(info).(ti_names) = r.(info).(ti_names)) ->
  ok n g -> ok n (template_mut id f g).1.
Proof.
  intros Hf [Hn Hr Ha]. unfold template_mut. destruct (templates g !! id) as [r|] eqn:E; [|by split].
  destruct (f r) as [[r' a]|e] eqn:Ef; [|by split]. destruct (Hf _ _ _ Ef) as [Hid Hnames]. cbn [fst].
  split; [done| |].
  - intros id' r0. cbn [with_templates templates]. rewrite lookup_insert. case_decide as Hd; [|apply Hr].
    intros [= <-]. subst id'. rewrite Hid. by apply Hr.
  - intros a' id' Ha'. cbn [with_templates templates aliases] in *. destruct (Ha _ _ Ha') as (r0 & Hr0 & Hin).
    rewrite lookup_insert. case_decide as Hd; [|by eauto]. subst id'. rewrite E in Hr0. injection Hr0 as <-.
    exists r'. by rewrite Hnames.
Qed.
Lemma request_build_ok n rq g :
  0 <= n < max_uint 64 -> ok n g ->
  g.(templates) !! (request_build rq g).2.(ri_template_id) = None /\ ok (n + 1) (request_build rq g).1.
Proof.
  intros Hn [Hnext Hr Ha]. assert (Hfresh : templates g !! template_id_of (n + 1) = None).
  { destruct (templates g !! _) as [r|] eqn:E; [|done]. destruct (Hr _ _ E) as (_ & i & Hi & Hr').
    apply template_id_inj in Hi; uint_lia. }
  unfold request_build. rewrite Hnext, sat_add_exact by uint_lia. cbn [fst snd ri_template_id]. split; [done|].
  split; [done| |].
  - intros id r. cbn [templates]. rewrite lookup_insert. case_decide as Hd.
    + intros [= <-]. split; [done|]. exists (n + 1). split; [done|lia].
    + intros H. destruct (Hr _ _ H) as (? & i & ? & ?). split; [done|]. exists i. split; [done|lia].
  - intros a id. cbn [templates aliases]. destruct (br_name rq) as [nm|].
    + change (option_list (Some nm)) with [nm]. cbn [foldl].
      destruct (decide (nm = a)) as [->|Hd]; [rewrite lookup_insert_eq; intros Hs; injection Hs as <-|rewrite lookup_insert_ne by done].
      * eexists. rewrite lookup_insert_eq. split; [done|]. cbn. by apply list_elem_of_singleton.
      * intros H. destruct (Ha _ _ H) as (r & Hid & Hin). exists r. split; [|done].
        rewrite lookup_insert_ne; [done|]. intros <-. congruence.
    + intros H. destruct (Ha _ _ H) as (r & Hid & Hin). exists r. split; [|done].
      rewrite lookup_insert_ne; [done|]. intros <-. congruence.
Qed.
Lemma foldl_delete_lookup (l : list string) (m : strmap string) a v :
  foldl (fun m n => delete n m) m l !! a = Some v -> m !! a = Some v /\ a ∉ l.
Proof.
  revert m. induction l as [|x l IH]; intros m; cbn [foldl]; [intros; split; [done|by apply not_elem_of_nil]|].
  intros H. apply IH in H as [H Hni]. rewrite lookup_delete_Some in H. destruct H. split; [done|].
  apply not_elem_of_cons. by split.
Qed.
Lemma delete_ok n id g : ok n g -> ok n (delete_template id g).1.
Proof.
  intros [Hn Hr Ha]. unfold delete_template. destruct (templates g !! id) as [r|] eqn:E; [|by split].
  split; [done| |].
  - intros id' r0 H. cbn in H. rewrite lookup_delete_Some in H. destruct H as [_ H]. by apply Hr.
  - intros a id' H. cbn [fst aliases templates] in *. apply foldl_delete_lookup in H as [H Hni].
    destruct (Ha _ _ H) as (r0 & Hr0 & Hin). exists r0. split; [|done]. rewrite lookup_delete_ne; [done|].
    intros <-. congruence.
Qed.
Definition requests (ops : list Op) : nat :=
  length (List.filter (fun o => match o with OpRequest _ => true | _ => false end) ops).
Lemma template_step_ok n g o : 0 <= n < max_uint 64 -> ok n g ->
  ok (n + Z.of_nat (requests [o])) (step g o).
Proof.
  intros Hn Hg. destruct o; unfold requests; cbn [List.filter length Z.of_nat]; rewrite ?Z.add_0_r.
  - by apply request_build_ok.
  - by apply delete_ok.
  - apply template_mut_ok; [|done]. by intros r r' a [= <- <-].
  - apply template_mut_ok; [|done]. by intros r r' a [= <- <-].
  - apply template_mut_ok; [|done]. intros r r' a. destruct (validate_template_build_inputs _ _); cbn; [|done].
    destruct (update_build _ _ _); cbn; [|done]. by intros [= <- <-].
  - apply template_mut_ok; [|done]. by intros r r' a [= <- <-].
  - apply template_mut_ok; [|done]. intros r r' a. destruct (update_build _ _ _); cbn; [|done]. by intros [= <- <-].
  - apply template_mut_ok; [|done]. by intros r r' a [= <- <-].
  - apply template_mut_ok; [|done]. by intros r r' a [= <- <-].
  - cbn [step]. unfold remove_tags. destruct (aliases g !! _); [|done].
    apply template_mut_ok; [|done]. by intros r r' a [= <- <-].
Qed.
Lemma requests_cons o ops : requests (o :: ops) = (requests [o] + requests ops)%nat.
Proof. unfold requests. by destruct o. Qed.
Lemma run_from_ok n g ops :
  0 <= n -> n + Z.of_nat (length ops) <= max_uint 64 -> ok n g ->
  ok (n + Z.of_nat (requests ops)) (foldl step g ops).
Proof.
  revert n g. induction ops as [|o ops IH]; intros n g H0 Hb Hg; [by rewrite Z.add_0_r|]. cbn [foldl length] in *.
  assert (Z.of_nat (requests [o]) <= 1) by (unfold requests; destruct o; cbn; lia).
  assert (Hs : ok (n + Z.of_nat (requests [o])) (step g o)) by (apply template_step_ok; [uint_lia|done]).
  apply IH in Hs; [|lia|lia]. by rewrite requests_cons, Nat2Z.inj_add, Z.add_assoc.
Qed.
Lemma new_ok now : ok 0 (new now).
Proof. split; [done| |]; intros ? ? H; cbn in H; by rewrite lookup_empty in H. Qed.

(** Names and ids of templates.  After any sequence of fewer than 2^64
    requests a name that is bound resolves to a live template that carries it,
    every template is filed under its own id, and a new build gets an id no
    template has. *)
Theorem template_names_resolve now ops :
  Z.of_nat (length ops) < max_uint 64 ->
  (forall a id, (run now ops).(aliases) !! a = Some id ->
     exists r, (run now ops).(templates) !! id = Some r /\ a ∈ r.(info).(ti_names) /\
       alias (run now ops) a = Some (mk_alias_info id r.(info).(ti_public))) /\
  (forall id r, (run now ops).(templates) !! id = Some r -> r.(info).(ti_template_id) = id) /\
  (forall rq, (run now ops).(templates) !! (request_build rq (run now ops)).2.(ri_template_id) = None).
Proof.
  intros Hb. assert (Hok : ok (0 + Z.of_nat (requests ops)) (run now ops)).
  { apply run_from_ok; [done|lia|apply new_ok]. }
  assert (Hle : (requests ops <= length ops)%nat) by apply List.filter_length_le.
  pose proof Hok as [_ Hr Ha]. split_and!.
  - intros a id H. destruct (Ha _ _ H) as (r & Hid & Hin). exists r. split_and!; [done|done|].
    unfold alias. rewrite H. cbn. by rewrite Hid.
  - intros id r H. by apply Hr.
  - intros rq. eapply request_build_ok; [|exact Hok]. lia.
Qed.
Definition named (n : string) : Op := OpRequest (mk_build_request (Some n) ["v1"%string] None None).
Lemma template_names_resolve_witness :
  exists r, (run "now" [named "web"; named "web"; OpDelete "tpl_1"]).(templates) !! "tpl_2"%string = Some r /\
    r.(info).(ti_template_id) = "tpl_2"%string.
Proof.
  destruct (template_names_resolve "now" [named "web"; named "web"; OpDelete "tpl_1"] ltac:(vm_compute; reflexivity)) as (_ & Hid & _).
  eexists. split; [vm_compute; reflexivity|]. eapply Hid. vm_compute. reflexivity.
Defined.
(** Deleting a template unbinds its name even when the name has moved on to a
    newer template. *)
Lemma delete_unbinds_newer_template :
  alias (run "now" [named "web"; named "web"]) "web" = Some (mk_alias_info "tpl_2" false) /\
  alias (run "now" [named "web"; named "web"; OpDelete "tpl_1"]) "web" = None.
Proof. split; vm_compute; reflexivity. Qed.
End TemplateProofs.
