(* ===== verification/E2bServer.v ===== *)
(** * The control plane ([crates/e2b-server/src/{backend,control_plane,lifecycle,state}.rs])

    The registries behind a runtime adapter, the dispatcher of control-plane
    requests, the periodic expiration of sandboxes, the state file, and the
    HTTP front that composes them.  An operation runs to its end under the lock
    of the backend, except the detached creation of sandboxes, whose phases are
    definitions of their own.  JSON ([serde_json]) is a class; requests of every
    kind have a decoder, replies an encoder. *)
From S2P Require Import Prelude BTree Types HostPaths HostFs E2bWire E2bRoutes E2bRegistry.
Import Network.

(** ** A state monad that keeps the state of a failing call *)
Definition ST (S E A : Type) : Type := S -> S * result E A.
#[global] Instance ST_ret {S E} : MRet (ST S E) := fun A a s => (s, Ok a).
#[global] Instance ST_bind {S E} : MBind (ST S E) := fun A B k m s =>
  match m s with (s', Ok a) => k a s' | (s', Err e) => (s', Err e) end.
Section Monad.
Context {S : Type}.
Definition throw {E A} (e : E) : ST S E A := fun s => (s, Err e).
Definition lift {E A} (r : result E A) : ST S E A := fun s => (s, r).
Definition gets {E A} (f : S -> A) : ST S E A := fun s => (s, Ok (f s)).
(** [match call.await]: the result, error or not, goes to the caller. *)
Definition attempt {E F A} (m : ST S E A) : ST S F (result E A) := fun s => let '(s', r) := m s in (s', Ok r).
(** [map_err], and the conversions [?] applies. *)
Definition wrap_err {E F A} (f : E -> F) (m : ST S E A) : ST S F A := fun s => let '(s', r) := m s in (s', map_err f r).
End Monad.

(** ** State ([state.rs]) *)
Record LocalRuntimeState := mk_state {
  st_sandboxes : Sandboxes.Registry;
  st_pods : Pods.Registry;
  st_templates : Templates.Registry;
  st_volumes : Volumes.Registry
}.
Definition LOCAL_RUNTIME_STATE_SCHEMA : string := "firkin.e2b.local-runtime-state".
Definition LOCAL_RUNTIME_STATE_VERSION : Z := 1.
Record VersionedLocalRuntimeState := mk_versioned { schema : string; version : Z; versioned_state : LocalRuntimeState }.
Definition versioned_new (s : LocalRuntimeState) : VersionedLocalRuntimeState :=
  mk_versioned LOCAL_RUNTIME_STATE_SCHEMA LOCAL_RUNTIME_STATE_VERSION s.
Definition into_state (v : VersionedLocalRuntimeState) : result LocalRuntimeStateStoreError LocalRuntimeState :=
  if negb (String.eqb v.(schema) LOCAL_RUNTIME_STATE_SCHEMA) then Err (UnsupportedSchema v.(schema))
  else if negb (v.(version) =? LOCAL_RUNTIME_STATE_VERSION) then Err (UnsupportedVersion v.(version))
  else Ok v.(versioned_state).

(** [serde_json] on the state: documents, and values decoded from them. *)
Class StateJson := {
  versioned_to_vec : VersionedLocalRuntimeState -> result string Bytes;
  parse_value : Bytes -> result string JsonValue;
  versioned_from_value : JsonValue -> result string VersionedLocalRuntimeState;
  state_from_value : JsonValue -> result string LocalRuntimeState
}.
(** [value.get(key)]. *)
Definition json_get (v : JsonValue) (key : string) : option JsonValue :=
  match v with
  | JObject fields => snd <$> List.find (fun p => String.eqb p.1 key) fields
  | _ => None
  end.
Definition has_key (v : JsonValue) (key : string) : bool := match json_get v key with Some _ => true | None => false end.
(** A document of this state is an object with its fields, and decodes to it. *)
Definition json_roundtrips `{StateJson} (v : VersionedLocalRuntimeState) : Prop :=
  forall d, versioned_to_vec v = Ok d -> exists j,
    parse_value d = Ok j /\ has_key j "schema" = true /\ versioned_from_value j = Ok v.
Definition decode_versioned_local_runtime_state `{StateJson} (b : Bytes)
  : result LocalRuntimeStateStoreError VersionedLocalRuntimeState :=
  v ← map_err StoreJson (parse_value b);
  if has_key v "schema" || has_key v "version" || has_key v "state"
  then map_err StoreJson (versioned_from_value v)
  else versioned_new <$> map_err StoreJson (state_from_value v).

(** *** The state file: replaced by a rename, behind a lock file *)
Definition state_sidecar_path (path suffix : string) : string :=
  with_file_name path (default "state"%string (path_file_name path) +:+ "." +:+ suffix).
(** What a save reads of its process: the process id, the time in nanoseconds,
    and, for every wait on the lock, whether its holder lets go of it. *)
Record SaveEnv := mk_env { env_pid : Z; env_nanos : Z; env_released : list bool }.
Definition io : host_error -> host_error := id.
Definition lock_contents (pid : Z) : Bytes := code <$> bytes ("pid=" +:+ print_dec pid +:+ String (ascii_of 10) EmptyString).
(** A call whose error the caller looks at. *)
Definition io_attempt {A} (m : HM host_error A) : HM host_error (result host_error A) :=
  fun w => let '(w', r) := m w in (w', Ok r).
Definition io_result {A} (r : result host_error A) : HM host_error A := fun w => (w, r).
Definition let_go (lock : string) : HM host_error unit := fun w => (mk_world (delete lock w.(files)) w.(faults), Ok tt).
Fixpoint acquire_loop (lock : string) (pid : Z) (released : list bool) (attempts : nat) : HM host_error unit :=
  match attempts with
  | O => fail (mk_host_error IoWouldBlock ("state lock " +:+ lock +:+ " is busy"))
  | S attempts =>
      r ← io_attempt (create_new io lock);
      match r with
      | Ok _ =>
          _ ← write_contents io lock (lock_contents pid);
          call io Some
      | Err e =>
          match e.(host_kind) with
          | IoAlreadyExists =>
              _ ← (if default false (head released) then let_go lock else mret tt);
              acquire_loop lock pid (tail released) attempts
          | _ => fail e
          end
      end
  end.
Definition acquire (path : string) (env : SaveEnv) : HM host_error string :=
  let lock := state_sidecar_path path "lock" in
  _ ← acquire_loop lock env.(env_pid) env.(env_released) 50;
  mret lock.
Definition remove_quietly (p : string) : HM host_error unit := _ ← io_attempt (remove_file io p); mret tt.
(** [Drop for StateFileLock]. *)
Definition drop_lock (lock : string) : HM host_error unit := remove_quietly lock.
Definition write_new (tmp path : string) (b : Bytes) : HM host_error unit :=
  _ ← create_new io tmp;
  _ ← write_contents io tmp b;
  _ ← call io Some;
  rename io tmp path.
Definition clear_failed (tmp : string) (r : result host_error unit) : HM host_error unit :=
  match r with Err _ => remove_quietly tmp | Ok _ => mret tt end.
Definition atomic_save_state_json (path : string) (b : Bytes) (env : SaveEnv) : HM host_error unit :=
  _ ← match path_parent path with
      | Some parent => if is_empty parent then mret tt else call io Some
      | None => mret tt
      end;
  lock ← acquire path env;
  let tmp := state_sidecar_path path ("tmp-" +:+ print_dec env.(env_pid) +:+ "-" +:+ print_dec env.(env_nanos)) in
  r ← io_attempt (write_new tmp path b);
  _ ← clear_failed tmp r;
  _ ← drop_lock lock;
  io_result r.

(** ** The backend *)
Record LocalRuntimeBackend (A : Type) := mk_backend {
  adapter : A;
  sandboxes : Sandboxes.Registry;
  pods : Pods.Registry;
  templates : Templates.Registry;
  volumes : Volumes.Registry
}.
Arguments mk_backend {A}.
Arguments adapter {A}.
Arguments sandboxes {A}.
Arguments pods {A}.
Arguments templates {A}.
Arguments volumes {A}.

Definition effective_network_policy_request (rq : SandboxCreateRequest) : option SandboxNetworkPolicy :=
  let policy := default (mk_policy rq.(cr_allow_internet_access) [] [] None None) rq.(cr_network) in
  let policy :=
    if is_some rq.(cr_allow_internet_access)
       && negb (bool_decide (rq.(cr_allow_internet_access) = allow_internet_access policy))
    then mk_policy rq.(cr_allow_internet_access) (allow_out policy) (deny_out policy) (allow_public_traffic policy)
           (mask_request_host policy)
    else policy in
  if requires_policy_engine policy then Some policy else None.
Definition is_builtin_host_template (id : string) : bool :=
  String.eqb id create_request_default.(cr_template_id) || String.eqb id "mcp-gateway".

Section Backend.
Context {A : Type} `{RuntimeAdapter A}.
Abbreviation Backend := (LocalRuntimeBackend A).
Abbreviation BM := (ST Backend BackendError).

Definition on_adapter {X} (f : A -> A * result BackendError X) : BM X := fun b =>
  let '(a, r) := f b.(adapter) in (mk_backend a b.(sandboxes) b.(pods) b.(templates) b.(volumes), r).
Definition on_sandboxes {X} (f : Sandboxes.Registry -> Sandboxes.Registry * X) : BM X := fun b =>
  let '(g, x) := f b.(sandboxes) in (mk_backend b.(adapter) g b.(pods) b.(templates) b.(volumes), Ok x).
Definition on_pods {X} (f : Pods.Registry -> Pods.Registry * X) : BM X := fun b =>
  let '(g, x) := f b.(pods) in (mk_backend b.(adapter) b.(sandboxes) g b.(templates) b.(volumes), Ok x).
Definition on_templates {X} (f : Templates.Registry -> Templates.Registry * X) : BM X := fun b =>
  let '(g, x) := f b.(templates) in (mk_backend b.(adapter) b.(sandboxes) b.(pods) g b.(volumes), Ok x).
Definition on_volumes {X} (f : Volumes.Registry -> Volumes.Registry * X) : BM X := fun b =>
  let '(g, x) := f b.(volumes) in (mk_backend b.(adapter) b.(sandboxes) b.(pods) b.(templates) g, Ok x).
(** A registry method whose error is the caller's. *)
Definition reg {G X} (on : (G -> G * result BackendError X) -> BM (result BackendError X))
  (f : G -> G * result BackendError X) : BM X := r ← on f; lift r.

Definition backend_new (a : A) (now : string) : Backend :=
  mk_backend a Sandboxes.new Pods.new (Templates.new now) Volumes.new.
Definition from_state (a : A) (s : LocalRuntimeState) : Backend :=
  mk_backend a s.(st_sandboxes) s.(st_pods) s.(st_templates) s.(st_volumes).
Definition export_state (b : Backend) : LocalRuntimeState := mk_state b.(sandboxes) b.(pods) b.(templates) b.(volumes).

(** *** Templates *)
Definition request_template_build (rq : TemplateBuildRequest) : BM TemplateBuildRequestInfo :=
  requested ← on_templates (Templates.request_build rq);
  p ← on_adapter (ra_prepare_template rq);
  let prepared := mk_prepared requested.(ri_template_id) requested.(ri_build_id) p.(pt_artifact) p.(pt_has_envd)
                    p.(pt_artifact_integrity) in
  _ ← reg on_templates (Templates.start_build requested.(ri_template_id) requested.(ri_build_id) build_start_default);
  _ ← reg on_templates (Templates.set_prepared_template requested.(ri_template_id) prepared);
  _ ← reg on_templates (Templates.set_build_status requested.(ri_template_id) requested.(ri_build_id) Ready);
  mret requested.
Definition start_template_build (tid bid : string) (start : TemplateBuildStart) : ST Backend ControlPlaneError unit :=
  files ← wrap_err CpBackend (r ← gets (fun b => Templates.uploaded_files_for_build b.(templates) tid start); lift r);
  _ ← wrap_err CpBackend (reg on_templates (Templates.start_build tid bid start));
  built ← attempt (on_adapter (ra_build_template (mk_runtime_build tid bid start files)));
  match built with
  | Ok prepared =>
      _ ← wrap_err CpBackend (reg on_templates (Templates.set_prepared_template tid prepared));
      wrap_err CpBackend (reg on_templates (Templates.set_build_status tid bid Ready))
  | Err e =>
      _ ← wrap_err CpBackend (reg on_templates (Templates.set_build_status tid bid BuildError));
      throw (CpBackend e)
  end.

(** *** Sandboxes *)
(** A prepared template, or a snapshot used as one. *)
Definition find_prepared (b : Backend) (id : string) : option PreparedTemplate :=
  match Templates.latest_prepared_template b.(templates) id with
  | Some p => Some p
  | None => Sandboxes.snapshot_prepared_template b.(sandboxes) id
  end.
Definition resolve_template (id : string) : BM (option PreparedTemplate) :=
  p ← gets (fun b => find_prepared b id);
  match p with
  | None => if is_builtin_host_template id then mret None else throw (NotFound id)
  | Some p => mret (Some p)
  end.
Definition ignore {E F X} (m : ST Backend E X) : ST Backend F unit := _ ← attempt m; mret tt.
(** From a started sandbox to a registered one, under the lock. *)
Definition register_started (rq : SandboxCreateRequest) (rt : RuntimeSandbox) : BM ConnectedSandbox :=
  registered ← on_sandboxes (Sandboxes.create rq rt.(rs_config));
  match registered with
  | Err e => _ ← ignore (on_adapter (ra_stop rt.(rs_config).(rc_sandbox_id))); throw e
  | Ok connected =>
      network ← match effective_network_policy_request rq with
                | Some policy => attempt (on_adapter (ra_apply_network connected.(cs_sandbox_id) policy))
                | None => mret (Ok tt)
                end;
      match network with
      | Ok _ => mret connected
      | Err e =>
          _ ← on_sandboxes (Sandboxes.delete_sandbox connected.(cs_sandbox_id));
          _ ← ignore (on_adapter (ra_stop connected.(cs_sandbox_id)));
          throw e
      end
  end.
Definition create (rq : SandboxCreateRequest) : BM ConnectedSandbox :=
  prepared ← resolve_template rq.(cr_template_id);
  rt ← on_adapter (ra_start (mk_start_request rq prepared));
  register_started rq rt.
Definition with_template (id : string) (rq : SandboxCreateRequest) : SandboxCreateRequest :=
  mk_create_request id rq.(cr_timeout) rq.(cr_metadata) rq.(cr_env_vars) rq.(cr_mcp) rq.(cr_secure)
    rq.(cr_allow_internet_access) rq.(cr_network) rq.(cr_auto_pause) rq.(cr_auto_resume) rq.(cr_volume_mounts).
Definition followup_template (s : FollowupSnapshot) : PreparedTemplate :=
  mk_prepared s.(fs_snapshot_id) s.(fs_snapshot_id) s.(fs_location) true s.(fs_artifact_integrity).
Definition create_followup (rq : FollowupSandboxCreateRequest) : BM ConnectedSandbox :=
  s ← (r ← gets (fun b => Sandboxes.followup_snapshot b.(sandboxes) rq.(fr_snapshot_id)); lift r);
  let create_request := with_template s.(fs_snapshot_id) rq.(fr_create_request) in
  rt ← on_adapter (ra_start_followup (mk_start_request create_request (Some (followup_template s))) s);
  register_started create_request rt.

(** Detached creation: the lock is held for the lookup and for the
    registration only. *)
Definition detached_network (rq : SandboxCreateRequest) (rt : RuntimeSandbox) : BM unit :=
  match effective_network_policy_request rq with
  | None => mret tt
  | Some policy =>
      r ← attempt (on_adapter (ra_apply_network rt.(rs_config).(rc_sandbox_id) policy));
      match r with
      | Ok _ => mret tt
      | Err e => _ ← ignore (on_adapter (ra_stop rt.(rs_config).(rc_sandbox_id))); throw e
      end
  end.
Definition detached_register (rq : SandboxCreateRequest) (rt : RuntimeSandbox) : BM ConnectedSandbox :=
  registered ← on_sandboxes (Sandboxes.create rq rt.(rs_config));
  match registered with
  | Ok connected => mret connected
  | Err e => _ ← ignore (on_adapter (ra_stop rt.(rs_config).(rc_sandbox_id))); throw e
  end.
Definition create_with_detached_runtime_start (rq : SandboxCreateRequest) : BM ConnectedSandbox :=
  prepared ← resolve_template rq.(cr_template_id);
  rt ← on_adapter (ra_start (mk_start_request rq prepared));
  _ ← detached_network rq rt;
  detached_register rq rt.
Definition create_followup_with_detached_runtime_start (rq : FollowupSandboxCreateRequest) : BM ConnectedSandbox :=
  s ← (r ← gets (fun b => Sandboxes.followup_snapshot b.(sandboxes) rq.(fr_snapshot_id)); lift r);
  let create_request := with_template s.(fs_snapshot_id) rq.(fr_create_request) in
  rt ← on_adapter (ra_start_followup (mk_start_request create_request (Some (followup_template s))) s);
  _ ← detached_network create_request rt;
  detached_register create_request rt.

Definition delete_sandbox (id : string) : BM bool :=
  _ ← on_adapter (ra_stop id);
  on_sandboxes (Sandboxes.delete_sandbox id).
Definition pause (id : string) : BM bool :=
  _ ← on_adapter (ra_pause id);
  reg on_sandboxes (Sandboxes.pause id).
Definition expire_one (id : string) : BM SandboxExpiration :=
  auto ← (r ← gets (fun b => Sandboxes.auto_pause_enabled b.(sandboxes) id); lift r);
  if (auto : bool) then
    _ ← on_adapter (ra_pause id);
    _ ← reg on_sandboxes (Sandboxes.pause id);
    mret (mk_expiration id ExpirePaused)
  else
    _ ← on_adapter (ra_stop id);
    _ ← on_sandboxes (Sandboxes.delete_sandbox id);
    mret (mk_expiration id ExpireDeleted).
Fixpoint expire_all (due : list string) : BM (list SandboxExpiration) :=
  match due with
  | [] => mret []
  | id :: due => e ← expire_one id; es ← expire_all due; mret (e :: es)
  end.
Definition expire_due_sandboxes (now : string) : BM (list SandboxExpiration) :=
  due ← gets (fun b => Sandboxes.due_running_sandboxes b.(sandboxes) now);
  expire_all due.
Definition connect (id : string) (rq : ConnectRequest) : BM ConnectedSandbox :=
  _ ← on_adapter (ra_resume (mk_paused id None));
  reg on_sandboxes (Sandboxes.connect id rq).
Definition create_snapshot (id : string) (rq : CreateSnapshotRequest) : BM SnapshotInfo :=
  s ← on_adapter (ra_snapshot id rq.(snapshot_name));
  reg on_sandboxes (Sandboxes.create_snapshot id rq s).
Definition delete_snapshot (id : string) : BM bool :=
  p ← gets (fun b => Sandboxes.snapshot_prepared_template b.(sandboxes) id);
  match p with
  | None => throw (NotFound id)
  | Some _ => _ ← on_adapter (ra_delete_snapshot id); on_sandboxes (Sandboxes.delete_snapshot id)
  end.
Definition refresh_metrics (id : string) : BM (list SandboxMetric) :=
  ms ← on_adapter (ra_metrics id);
  _ ← match last ms with
      | Some s => reg on_sandboxes (Sandboxes.set_metric id s)
      | None => mret tt
      end;
  mret ms.
Fixpoint push_logs (id : string) (es : list SandboxLogEntry) : BM unit :=
  match es with
  | [] => mret tt
  | e :: es => _ ← reg on_sandboxes (Sandboxes.push_log id e); push_logs id es
  end.
Definition refresh_logs (id : string) : BM SandboxLogs :=
  l ← on_adapter (ra_logs id);
  _ ← push_logs id l.(logs);
  mret l.

(** *** Pods *)
Fixpoint prepared_into (b : Backend) (acc : strmap (option PreparedTemplate)) (cs : list PodContainerCreateRequest)
  : result BackendError (strmap (option PreparedTemplate)) :=
  match cs with
  | [] => Ok acc
  | c :: cs =>
      match acc !! c.(pc_template_id) with
      | Some _ => prepared_into b acc cs
      | None =>
          match find_prepared b c.(pc_template_id) with
          | None =>
              if is_builtin_host_template c.(pc_template_id)
              then prepared_into b (<[c.(pc_template_id) := None]> acc) cs
              else Err (NotFound c.(pc_template_id))
          | p => prepared_into b (<[c.(pc_template_id) := p]> acc) cs
          end
      end
  end.
Definition pod_prepared_templates (cs : list PodContainerCreateRequest) : BM (strmap (option PreparedTemplate)) :=
  r ← gets (fun b => prepared_into b ∅ cs); lift r.
Definition get_pod (id : string) : BM PodInfo := r ← gets (fun b => Pods.get b.(pods) id); lift r.
Definition create_pod (rq : PodCreateRequest) : BM PodInfo :=
  _ ← lift (map_err Runtime (pod_validate rq));
  _ ← match rq.(pr_pod_id) with
      | None => mret tt
      | Some id => r ← attempt (get_pod id); if is_ok r then throw (AlreadyExists id) else mret tt
      end;
  prepared ← pod_prepared_templates rq.(pr_containers);
  rt ← on_adapter (ra_start_pod (mk_start_pod rq prepared));
  registered ← on_pods (Pods.create rq rt);
  match registered with
  | Ok i => mret i
  | Err e => _ ← ignore (on_adapter (ra_stop_pod rt.(rp_config).(pod_id))); throw e
  end.
Definition delete_pod (id : string) : BM bool :=
  _ ← on_adapter (ra_stop_pod id);
  on_pods (Pods.delete_pod id).
Definition add_pod_container (id : string) (rq : PodContainerCreateRequest) : BM PodContainerInfo :=
  pod ← get_pod id;
  _ ← lift (map_err Runtime (validate_pod_container_request pod.(pi_empty_dirs) rq));
  if Pods.has_container rq.(pc_name) pod.(pi_containers) then throw (AlreadyExists rq.(pc_name))
  else
    _ ← pod_prepared_templates [rq];
    c ← on_adapter (ra_add_pod_container id rq);
    added ← on_pods (Pods.add_container id c);
    match added with
    | Ok c => mret c
    | Err e => _ ← ignore (on_adapter (ra_remove_pod_container id c.(ci_name))); throw e
    end.
Definition delete_pod_container (id name : string) : BM unit :=
  pod ← get_pod id;
  if negb (Pods.has_container name pod.(pi_containers)) then throw (NotFound name)
  else
    _ ← on_adapter (ra_remove_pod_container id name);
    reg on_pods (Pods.delete_container id name).
Definition wait_pod_container (id name : string) : BM PodContainerOutput :=
  pod ← get_pod id;
  if negb (Pods.has_container name pod.(pi_containers)) then throw (NotFound name)
  else
    out ← on_adapter (ra_wait_pod_container id name);
    _ ← reg on_pods (Pods.delete_container id name);
    mret out.
End Backend.

(** ** Bodies of requests and replies *)
Inductive body_kind :=
| KPodCreate | KPodContainer | KCreate | KFollowup | KConnect | KTimeout | KRefresh | KSnapshot | KRemoveTags
| KBuild | KUpdate | KBuildStart | KAssignTags | KVolumeCreate | KVolumeMetadata.
Definition body_type (k : body_kind) : Type :=
  match k with
  | KPodCreate => PodCreateRequest
  | KPodContainer => PodContainerCreateRequest
  | KCreate => SandboxCreateRequest
  | KFollowup => FollowupSandboxCreateRequest
  | KConnect => ConnectRequest
  | KTimeout => TimeoutRequest
  | KRefresh => RefreshRequest
  | KSnapshot => CreateSnapshotRequest
  | KRemoveTags => RemoveTemplateTags
  | KBuild => TemplateBuildRequest
  | KUpdate => TemplateUpdateRequest
  | KBuildStart => TemplateBuildStart
  | KAssignTags => AssignTemplateTags
  | KVolumeCreate => VolumeCreateRequest
  | KVolumeMetadata => VolumeMetadataRequest
  end.
Inductive Reply :=
| RPod (i : PodInfo) | RPods (l : list PodInfo) | RContainer (c : PodContainerInfo) | ROutput (o : PodContainerOutput)
| RConnected (c : ConnectedSandbox) | RSandbox (i : SandboxInfo) | RSandboxes (l : list SandboxInfo)
| RMetricsMany (m : SandboxesWithMetrics) | RMetrics (l : list SandboxMetric) | RLogs (l : SandboxLogs)
| RSnapshot (i : SnapshotInfo) | RSnapshots (l : list SnapshotInfo)
| RTemplates (l : list TemplateInfo) | RTemplate (t : TemplateWithBuilds) | RUpdated (u : TemplateUpdateInfo)
| RRequested (i : TemplateBuildRequestInfo) | RUpload (u : TemplateFileUpload) | RBuild (i : TemplateBuildInfo)
| RBuildLogs (l : TemplateBuildLogs) | RAlias (a : TemplateAliasInfo) | RAssigned (a : AssignedTemplateTags)
| RTags (l : list TemplateTag)
| RVolume (v : VolumeAndToken) | RVolumes (l : list VolumeInfo) | RStat (s : VolumeEntryStat) | RStats (l : list VolumeEntryStat)
| RMessage (text : string).
(** [serde_json] on bodies. *)
Class WireJson := {
  from_slice : forall k, Bytes -> result string (body_type k);
  to_vec : Reply -> result string Bytes
}.
Record ControlPlaneResponse := mk_response { rsp_status : Z; rsp_headers : strmap string; rsp_body : Bytes }.
Definition empty_response (status : Z) : ControlPlaneResponse := mk_response status ∅ [].
Definition json_response `{WireJson} (status : Z) (v : Reply) : result ControlPlaneError ControlPlaneResponse :=
  b ← map_err CpJson (to_vec v);
  Ok (mk_response status {["content-type"%string := "application/json"%string]} b).
Definition decode_request_body `{WireJson} (k : body_kind) (rq : ControlPlaneRequest) : result ControlPlaneError (body_type k) :=
  b ← ok_or (BadRequest "missing JSON body") rq.(rq_body);
  map_err CpJson (from_slice k b).

(** ** The dispatcher *)
Section Dispatch.
Context {A : Type} `{RuntimeAdapter A} `{WireJson}.
Abbreviation Backend := (LocalRuntimeBackend A).
Abbreviation CM := (ST Backend ControlPlaneError).

Definition backend_call {X} (m : ST Backend BackendError X) : CM X := wrap_err CpBackend m.
Definition backend_get {X} (f : Backend -> result BackendError X) : CM X := backend_call (r ← gets f; lift r).
Definition reply (v : Reply) : CM ControlPlaneResponse := lift (json_response 200 v).
Definition body (k : body_kind) (rq : ControlPlaneRequest) : CM (body_type k) := lift (decode_request_body k rq).
Definition no_content : CM ControlPlaneResponse := mret (empty_response 204).
Definition no_route (rq : ControlPlaneRequest) : CM ControlPlaneResponse := throw (RouteNotFound rq.(rq_path)).
(** [204] when there was something to delete. *)
Definition deleted (id : string) (existed : bool) : CM ControlPlaneResponse :=
  if existed then no_content else throw (RouteNotFound id).
Definition on_route (matches : bool) (rq : ControlPlaneRequest) (m : CM ControlPlaneResponse) : CM ControlPlaneResponse :=
  if matches then m else no_route rq.

Definition handle_pod_control_plane (rq : ControlPlaneRequest) (segments : list string) : CM ControlPlaneResponse :=
  match rq.(rq_method), segments with
  | Post, [p] => on_route (String.eqb p "pods") rq
      (b ← body KPodCreate rq;
       _ ← lift (map_err BadRequest (pod_validate b));
       i ← backend_call (create_pod b); reply (RPod i))
  | Get, [p] => on_route (String.eqb p "pods") rq
      (l ← gets (fun b => Pods.list_infos b.(pods)); reply (RPods l))
  | Get, [p; id] => on_route (String.eqb p "pods") rq
      (i ← backend_get (fun b => Pods.get b.(pods) id); reply (RPod i))
  | Delete, [p; id] => on_route (String.eqb p "pods") rq
      (existed ← backend_call (delete_pod id); deleted id existed)
  | Post, [p; id; c] => on_route (String.eqb p "pods" && String.eqb c "containers") rq
      (b ← body KPodContainer rq; i ← backend_call (add_pod_container id b); reply (RContainer i))
  | Post, [p; id; c; name; w] => on_route (String.eqb p "pods" && String.eqb c "containers" && String.eqb w "wait") rq
      (o ← backend_call (wait_pod_container id name); reply (ROutput o))
  | Delete, [p; id; c; name] => on_route (String.eqb p "pods" && String.eqb c "containers") rq
      (_ ← backend_call (delete_pod_container id name); no_content)
  | _, _ => no_route rq
  end.

Definition sandbox_ids (query : option string) : result ControlPlaneError (list string) :=
  v ← ok_or (BadRequest "missing sandbox_ids") (query_value query "sandbox_ids");
  Ok (nonempty_parts (split "," v)).
(** [timeout] and [refreshes]: the deadline is read and written back. *)
Definition keep_deadline (id : string) (set : string -> Sandboxes.Registry -> Sandboxes.Registry * result BackendError unit)
  : CM ControlPlaneResponse :=
  i ← backend_get (fun b => Sandboxes.get b.(sandboxes) id);
  _ ← backend_call (reg on_sandboxes (set i.(si_end_at)));
  no_content.
Definition paused (id : string) (changed : bool) : CM ControlPlaneResponse :=
  if changed then no_content else throw (CpBackend (AlreadyExists id)).
Definition handle_sandbox_control_plane (rq : ControlPlaneRequest) (query : option string) (segments : list string)
  : CM ControlPlaneResponse :=
  match rq.(rq_method), segments with
  | Post, [s] => on_route (String.eqb s "sandboxes") rq
      (b ← body KCreate rq; c ← backend_call (create b); reply (RConnected c))
  | Post, [s; f] => on_route (String.eqb s "sandboxes" && String.eqb f "followups") rq
      (b ← body KFollowup rq; c ← backend_call (create_followup b); reply (RConnected c))
  | Get, [s] => on_route (String.eqb s "snapshots") rq
      (l ← gets (fun b => Sandboxes.list_snapshots b.(sandboxes) (query_value query "sandboxID")); reply (RSnapshots l))
  | Get, [s; x] =>
      if String.eqb s "v2" && String.eqb x "sandboxes" then
        (l ← gets (fun b => Sandboxes.list_infos b.(sandboxes)); reply (RSandboxes l))
      else if String.eqb s "sandboxes" && String.eqb x "metrics" then
        (ids ← lift (sandbox_ids query);
         m ← backend_get (fun b => Sandboxes.metrics_many b.(sandboxes) ids); reply (RMetricsMany m))
      else on_route (String.eqb s "sandboxes") rq
        (i ← backend_get (fun b => Sandboxes.get b.(sandboxes) x); reply (RSandbox i))
  | Delete, [s; id] => on_route (String.eqb s "sandboxes") rq
      (existed ← backend_call (delete_sandbox id); deleted id existed)
  | Post, [s; id; op] =>
      if negb (String.eqb s "sandboxes") then no_route rq
      else if String.eqb op "connect" || String.eqb op "resume" then
        (b ← body KConnect rq; c ← backend_call (connect id b); reply (RConnected c))
      else if String.eqb op "pause" then
        (changed ← backend_call (pause id); paused id changed)
      else if String.eqb op "timeout" then
        (b ← body KTimeout rq; keep_deadline id (Sandboxes.set_timeout id b))
      else if String.eqb op "refreshes" then
        (b ← body KRefresh rq; keep_deadline id (Sandboxes.refresh id b))
      else on_route (String.eqb op "snapshots") rq
        (b ← body KSnapshot rq; i ← backend_call (create_snapshot id b); reply (RSnapshot i))
  | Get, [s; id; op] => on_route (String.eqb s "sandboxes" && String.eqb op "metrics") rq
      (l ← backend_call (refresh_metrics id); reply (RMetrics l))
  | Get, [v; s; id; op] => on_route (String.eqb v "v2" && String.eqb s "sandboxes" && String.eqb op "logs") rq
      (l ← backend_call (refresh_logs id); reply (RLogs l))
  | _, _ => no_route rq
  end.

Definition delete_template_or_snapshot (id : string) : CM ControlPlaneResponse :=
  existed ← backend_call (on_templates (Templates.delete_template id));
  if (existed : bool) then no_content
  else
    snapshot ← gets (fun b => Sandboxes.snapshot_prepared_template b.(sandboxes) id);
    match snapshot with
    | Some _ =>
        _ ← backend_call (on_adapter (ra_delete_snapshot id));
        _ ← backend_call (on_sandboxes (Sandboxes.delete_snapshot id));
        no_content
    | None => throw (RouteNotFound id)
    end.
Definition handle_template_control_plane (rq : ControlPlaneRequest) (segments : list string) : CM ControlPlaneResponse :=
  match rq.(rq_method), segments with
  | Delete, [t; x] =>
      if negb (String.eqb t "templates") then no_route rq
      else if String.eqb x "tags" then
        (b ← body KRemoveTags rq; _ ← backend_call (reg on_templates (Templates.remove_tags b)); no_content)
      else delete_template_or_snapshot x
  | Post, [v; t] =>
      if String.eqb v "v3" && String.eqb t "templates" then
        (b ← body KBuild rq; i ← backend_call (request_template_build b); reply (RRequested i))
      else on_route (String.eqb v "templates" && String.eqb t "tags") rq
        (b ← body KAssignTags rq; a ← backend_call (reg on_templates (Templates.assign_tags b)); reply (RAssigned a))
  | Get, [t] => on_route (String.eqb t "templates") rq
      (l ← gets (fun b => Templates.list_infos b.(templates)); reply (RTemplates l))
  | Get, [t; id] => on_route (String.eqb t "templates") rq
      (r ← backend_get (fun b => Templates.get b.(templates) id); reply (RTemplate r))
  | Patch, [v; t; id] => on_route (String.eqb v "v2" && String.eqb t "templates") rq
      (b ← body KUpdate rq; u ← backend_call (reg on_templates (Templates.update id b)); reply (RUpdated u))
  | Get, [t; id; op; x] => on_route (String.eqb t "templates" && String.eqb op "files") rq
      (u ← backend_get (fun b => Templates.file_upload b.(templates) id x rq.(rq_origin)); reply (RUpload u))
  | Put, [t; id; op; hash; u] => on_route (String.eqb t "templates" && String.eqb op "files" && String.eqb u "upload") rq
      (_ ← backend_call (reg on_templates (Templates.upload_file id hash (default [] rq.(rq_body)))); no_content)
  | Post, [v; t; id; op; bid] => on_route (String.eqb v "v2" && String.eqb t "templates" && String.eqb op "builds") rq
      (b ← body KBuildStart rq; _ ← start_template_build id bid b; no_content)
  | Get, [t; id; op; bid; what] =>
      if negb (String.eqb t "templates" && String.eqb op "builds") then no_route rq
      else if String.eqb what "status" then
        (i ← backend_get (fun b => Templates.build_status b.(templates) id bid); reply (RBuild i))
      else on_route (String.eqb what "logs") rq
        (l ← backend_get (fun b => Templates.build_logs b.(templates) id bid); reply (RBuildLogs l))
  | Get, [t; x; y] =>
      if String.eqb t "templates" && String.eqb x "aliases" then
        (a ← gets (fun b => Templates.alias b.(templates) y);
         match a with Some a => reply (RAlias a) | None => throw (RouteNotFound y) end)
      else on_route (String.eqb t "templates" && String.eqb y "tags") rq
        (l ← backend_get (fun b => Templates.tags b.(templates) x); reply (RTags l))
  | _, _ => no_route rq
  end.

Definition handle_volume_control_plane (rq : ControlPlaneRequest) (segments : list string) : CM ControlPlaneResponse :=
  let query := (split_path_query rq.(rq_path)).2 in
  let content (op what : string) (v : string) := String.eqb v "volumecontent" && String.eqb op what in
  match rq.(rq_method), segments with
  | Post, [v] => on_route (String.eqb v "volumes") rq
      (b ← body KVolumeCreate rq; r ← backend_call (reg on_volumes (Volumes.create b)); reply (RVolume r))
  | Get, [v] => on_route (String.eqb v "volumes") rq
      (l ← gets (fun b => Volumes.list_infos b.(volumes)); reply (RVolumes l))
  | Get, [v; id] => on_route (String.eqb v "volumes") rq
      (r ← backend_get (fun b => Volumes.get b.(volumes) id); reply (RVolume r))
  | Delete, [v; id] => on_route (String.eqb v "volumes") rq
      (existed ← backend_call (on_volumes (Volumes.delete_volume id)); deleted id existed)
  | Get, [v; id; op] =>
      if content op "dir" v then
        (p ← lift (query_value_decoded query "path");
         l ← backend_get (fun b => Volumes.list_dir b.(volumes) id p); reply (RStats l))
      else if content op "path" v then
        (p ← lift (query_value_decoded query "path");
         s ← backend_get (fun b => Volumes.path_info b.(volumes) id p); reply (RStat s))
      else on_route (content op "file" v) rq
        (p ← lift (query_value_decoded query "path");
         d ← backend_get (fun b => Volumes.read_file b.(volumes) id p);
         mret (mk_response 200 {["content-type"%string := "application/octet-stream"%string]} d))
  | Post, [v; id; op] => on_route (content op "dir" v) rq
      (p ← lift (query_value_decoded query "path");
       s ← backend_call (reg on_volumes (Volumes.make_dir id p (volume_write_options query))); reply (RStat s))
  | Patch, [v; id; op] => on_route (content op "path" v) rq
      (p ← lift (query_value_decoded query "path");
       b ← body KVolumeMetadata rq;
       s ← backend_call (reg on_volumes (Volumes.update_metadata id p b)); reply (RStat s))
  | Delete, [v; id; op] => on_route (content op "path" v) rq
      (p ← lift (query_value_decoded query "path");
       _ ← backend_call (reg on_volumes (Volumes.remove_path id p)); no_content)
  | Put, [v; id; op] => on_route (content op "file" v) rq
      (p ← lift (query_value_decoded query "path");
       s ← backend_call (reg on_volumes (Volumes.write_file id p (default [] rq.(rq_body)) (volume_write_options query)));
       reply (RStat s))
  | _, _ => no_route rq
  end.

Definition handle_control_plane (rq : ControlPlaneRequest) : CM ControlPlaneResponse :=
  let '(path, query) := split_path_query rq.(rq_path) in
  segments ← lift (path_segments path);
  if is_pod_route segments then handle_pod_control_plane rq segments
  else if is_sandbox_route segments then handle_sandbox_control_plane rq query segments
  else if is_template_route segments then handle_template_control_plane rq segments
  else if is_volume_route segments then handle_volume_control_plane rq segments
  else throw (RouteNotFound (match segments with [] => "/"%string | _ => path end)).
(** Create routes, without the lock during the start; [None] elsewhere. *)
Definition handle_concurrent_control_plane_create (rq : ControlPlaneRequest) : option (CM ControlPlaneResponse) :=
  let path := (split_path_query rq.(rq_path)).1 in
  match rq.(rq_method) with
  | Post =>
      if String.eqb path "/sandboxes" then
        Some (b ← body KCreate rq; c ← backend_call (create_with_detached_runtime_start b); reply (RConnected c))
      else if String.eqb path "/sandboxes/followups" then
        Some (b ← body KFollowup rq; c ← backend_call (create_followup_with_detached_runtime_start b); reply (RConnected c))
      else None
  | _ => None
  end.
End Dispatch.

(** ** The server ([control_plane.rs]) and its expiration task ([lifecycle.rs]) *)
Record Server (A : Type) := mk_server {
  srv_backend : LocalRuntimeBackend A;
  srv_state_path : option string;
  srv_api_key : option string;
  srv_world : World
}.
Arguments mk_server {A}.
Arguments srv_backend {A}.
Arguments srv_state_path {A}.
Arguments srv_api_key {A}.
Arguments srv_world {A}.
(** A request as the HTTP library delivers it: the body may fail to arrive, a
    path may be missing, header values are byte strings. *)
Record HttpRequest := mk_http {
  http_method : string;
  http_path_and_query : option string;
  http_headers : strmap string;
  http_body : result string Bytes
}.
(** [HeaderValue::to_str]: visible ASCII, spaces and tabs. *)
Definition to_str (v : string) : option string :=
  if all_bytes (fun c => ((32 <=? code c) && (code c <? 127)) || (code c =? 9)) v then Some v else None.
Definition header_matches (v : option string) (expected : string) : bool :=
  match v ≫= to_str with Some s => String.eqb s expected | None => false end.
Definition convert_http_request (rq : HttpRequest) : result ControlPlaneError ControlPlaneRequest :=
  m ← map_err (fun _ => NotAllowed) (method_from_str rq.(http_method));
  let origin := (fun host => "http://" +:+ host) <$> (rq.(http_headers) !! "host"%string ≫= to_str) in
  b ← map_err (fun e => BadRequest ("failed to read request body: " +:+ e)) rq.(http_body);
  Ok (mk_request m (default "/"%string rq.(http_path_and_query)) (match b with [] => None | _ => Some b end) origin).

Section ServerOps.
Context {A : Type} `{RuntimeAdapter A} `{WireJson} `{StateJson}.

Definition export_state_json (b : LocalRuntimeBackend A) : result LocalRuntimeStateStoreError Bytes :=
  map_err StoreJson (versioned_to_vec (versioned_new (export_state b))).
Definition from_state_json (a : A) (d : Bytes) : result LocalRuntimeStateStoreError (LocalRuntimeBackend A) :=
  v ← decode_versioned_local_runtime_state d;
  s ← into_state v;
  Ok (from_state a s).
Definition save_state_json (b : LocalRuntimeBackend A) (path : string) (env : SaveEnv) : HM LocalRuntimeStateStoreError unit :=
  fun w => match export_state_json b with
           | Err e => (w, Err e)
           | Ok d => let '(w', r) := atomic_save_state_json path d env w in (w', map_err StoreIo r)
           end.
Definition load_state_json (a : A) (path : string) : HM LocalRuntimeStateStoreError (LocalRuntimeBackend A) :=
  fun w => match read_file (E := LocalRuntimeStateStoreError) path w with
           | (w', Ok (Ok d)) => (w', from_state_json a d)
           | (w', Ok (Err e)) => (w', Err (StoreIo e))
           | (w', Err e) => (w', Err e)
           end.

Definition server_new (b : LocalRuntimeBackend A) (w : World) : Server A := mk_server b None None w.
Definition new_persistent (b : LocalRuntimeBackend A) (path : string) (w : World) : Server A := mk_server b (Some path) None w.
Definition with_required_api_key (key : string) (s : Server A) : Server A :=
  mk_server s.(srv_backend) s.(srv_state_path) (Some key) s.(srv_world).
Definition load_persistent (a : A) (path : string) (w : World) : result LocalRuntimeStateStoreError (Server A) :=
  let '(w', r) := load_state_json a path w in
  b ← r; Ok (new_persistent b path w').

Definition message_body (text : string) : Bytes := match to_vec (RMessage text) with Ok d => d | Err _ => [] end.
Definition error_response (status : Z) (text : string) : ControlPlaneResponse :=
  mk_response status {["content-type"%string := "application/json"%string]} (message_body text).
Definition control_plane_error_to_http (e : ControlPlaneError) : ControlPlaneResponse := error_response (cp_status e) (cp_display e).
Definition auth_error_to_http (text : string) : ControlPlaneResponse := error_response 401 text.
(** Run a handler on the backend, then save a successful change. *)
Definition respond (mutates : bool) (env : SaveEnv) (m : ST (LocalRuntimeBackend A) ControlPlaneError ControlPlaneResponse)
  (s : Server A) : Server A * ControlPlaneResponse :=
  let '(b, r) := m s.(srv_backend) in
  let after w := mk_server b s.(srv_state_path) s.(srv_api_key) w in
  match r with
  | Err e => (after s.(srv_world), control_plane_error_to_http e)
  | Ok rsp =>
      match s.(srv_state_path) with
      | Some path =>
          if mutates then
            match save_state_json b path env s.(srv_world) with
            | (w, Ok _) => (after w, rsp)
            | (w, Err e) => (after w, control_plane_error_to_http (StateStore e))
            end
          else (after s.(srv_world), rsp)
      | None => (after s.(srv_world), rsp)
      end
  end.
Definition handle_http_request (env : SaveEnv) (rq : HttpRequest) (s : Server A) : Server A * ControlPlaneResponse :=
  let refused := match s.(srv_api_key) with
                 | Some key => negb (header_matches (rq.(http_headers) !! "x-api-key"%string) key)
                 | None => false
                 end in
  if refused then (s, auth_error_to_http "missing or invalid x-api-key")
  else match convert_http_request rq with
       | Err e => (s, control_plane_error_to_http e)
       | Ok cp =>
           respond (mutates_state cp.(rq_method)) env
             (match handle_concurrent_control_plane_create cp with
              | Some m => m
              | None => handle_control_plane cp
              end) s
       end.
(** One pass of the lifecycle scheduler. *)
Definition tick (now : string) (env : SaveEnv) (s : Server A) : Server A * result BackendError (list SandboxExpiration) :=
  let '(b, r) := expire_due_sandboxes now s.(srv_backend) in
  let after w := mk_server b s.(srv_state_path) s.(srv_api_key) w in
  match r with
  | Err e => (after s.(srv_world), Err e)
  | Ok [] => (after s.(srv_world), Ok [])
  | Ok expired =>
      match s.(srv_state_path) with
      | None => (after s.(srv_world), Ok expired)
      | Some path =>
          match save_state_json b path env s.(srv_world) with
          | (w, Ok _) => (after w, Ok expired)
          | (w, Err e) => (after w, Err (Runtime ("save lifecycle state: " +:+ store_display e)))
          end
      end
  end.
End ServerOps.
