(* ===== verification/E2bServerInv.v ===== *)
(** * The control plane and its runtime

    What the registries say of sandboxes is what the runtime adapter has
    answered, through every request, every expiration pass and every
    interleaving of detached creations.  Nothing is assumed of the adapter: it
    is watched, and the log of its answers says which sandboxes it has
    acknowledged. *)
From S2P Require Import Prelude BTree Types HostPaths HostFs E2bWire E2bRoutes E2bRegistry E2bServer.
Import Network.

(** ** A watched adapter

    The answers of an adapter on sandboxes, newest first, and what they
    acknowledge.  An answer that reports an error acknowledges nothing: what the
    adapter still has then is its own affair ([HostRuntimeInv] has the effects
    of every error of the host adapter). *)
Inductive Answer :=
| AnsStarted (id : string)
| AnsStopped (id : string)
| AnsStopFailed (id : string)
| AnsPaused (id : string)
| AnsResumed (id : string).
Definition answer_id (a : Answer) : string :=
  match a with AnsStarted id | AnsStopped id | AnsStopFailed id | AnsPaused id | AnsResumed id => id end.
#[global] Instance answer_eq_dec : EqDecision Answer.
Proof. solve_decision. Defined.
Fixpoint acknowledged (l : list Answer) : strmap SandboxState :=
  match l with
  | [] => ∅
  | AnsStarted id :: l => <[id := Running]> (acknowledged l)
  | AnsStopped id :: l => delete id (acknowledged l)
  | AnsStopFailed _ :: l => acknowledged l
  | AnsPaused id :: l => alter (fun _ => Paused) id (acknowledged l)
  | AnsResumed id :: l => alter (fun _ => Running) id (acknowledged l)
  end.
(** Every start gave an id that no acknowledged sandbox had. *)
Fixpoint fresh_starts (l : list Answer) : bool :=
  match l with
  | [] => true
  | AnsStarted id :: l => bool_decide (acknowledged l !! id = None) && fresh_starts l
  | _ :: l => fresh_starts l
  end.
Record Observed (A : Type) := mk_observed { watched : A; answers : list Answer }.
Arguments mk_observed {A}.
Arguments watched {A}.
Arguments answers {A}.
Definition observe {A} (a : A) : Observed A := mk_observed a [].
Section Watch.
Context {A : Type} `{RuntimeAdapter A}.
Definition watch {X} (log : result BackendError X -> list Answer) (f : A -> A * result BackendError X) (o : Observed A)
  : Observed A * result BackendError X :=
  let '(a, r) := f o.(watched) in (mk_observed a (log r ++ o.(answers)), r).
Definition quietly {X} : (A -> A * result BackendError X) -> Observed A -> Observed A * result BackendError X := watch (fun _ => []).
Definition when_ok {X} (ans : X -> Answer) (r : result BackendError X) : list Answer := match r with Ok x => [ans x] | Err _ => [] end.
Definition started_answer (rt : RuntimeSandbox) : Answer := AnsStarted rt.(rs_config).(rc_sandbox_id).
(** Every call goes to the adapter; those on sandboxes leave their answer. *)
#[export] Instance observed_adapter : RuntimeAdapter (Observed A) := {|
  ra_preflight := quietly ra_preflight;
  ra_prepare_template rq := quietly (ra_prepare_template rq);
  ra_build_template rq := quietly (ra_build_template rq);
  ra_start rq := watch (when_ok started_answer) (ra_start rq);
  ra_start_followup rq s := watch (when_ok started_answer) (ra_start_followup rq s);
  ra_start_pod rq := quietly (ra_start_pod rq);
  ra_stop_pod id := quietly (ra_stop_pod id);
  ra_add_pod_container id rq := quietly (ra_add_pod_container id rq);
  ra_remove_pod_container id n := quietly (ra_remove_pod_container id n);
  ra_wait_pod_container id n := quietly (ra_wait_pod_container id n);
  ra_stop id := watch (fun r => [match r with Ok _ => AnsStopped id | Err _ => AnsStopFailed id end]) (ra_stop id);
  ra_pause id := watch (when_ok (fun _ => AnsPaused id)) (ra_pause id);
  ra_resume p := watch (when_ok (fun _ => AnsResumed p.(pd_sandbox_id))) (ra_resume p);
  ra_snapshot id n := quietly (ra_snapshot id n);
  ra_delete_snapshot id := quietly (ra_delete_snapshot id);
  ra_metrics id := quietly (ra_metrics id);
  ra_logs id := quietly (ra_logs id);
  ra_apply_network id p := quietly (ra_apply_network id p);
  ra_port_target id p := quietly (ra_port_target id p)
|}.
End Watch.

(** ** Keeping a property of the backend through a computation *)
Section Keeps.
Context {S : Type} (P : S -> Prop).
Definition keeps {E X} (m : ST S E X) : Prop := forall s, P s -> P (m s).1.
Lemma st_keeps_bind {E X Y} (m : ST S E X) (k : X -> ST S E Y) :
  keeps m -> (forall x, keeps (k x)) -> keeps (m ≫= k).
Proof.
  intros Hm Hk s Hs. unfold mbind, ST_bind. specialize (Hm s Hs). destruct (m s) as [s' [x|e]]; [by apply Hk|done].
Qed.
Lemma st_keeps_ret {E X} (x : X) : keeps (mret x : ST S E X).
Proof. by intros s Hs. Qed.
Lemma st_keeps_lift {E X} (r : result E X) : keeps (lift r : ST S E X).
Proof. by intros s Hs. Qed.
Lemma st_keeps_throw {E X} (e : E) : keeps (throw e : ST S E X).
Proof. by intros s Hs. Qed.
Lemma st_keeps_gets {E X} (f : S -> X) : keeps (gets f : ST S E X).
Proof. by intros s Hs. Qed.
Lemma st_keeps_attempt {E F X} (m : ST S E X) : keeps m -> keeps (attempt m : ST S F (result E X)).
Proof. intros Hm s Hs. unfold attempt. specialize (Hm s Hs). by destruct (m s). Qed.
Lemma st_keeps_wrap_err {E F X} (f : E -> F) (m : ST S E X) : keeps m -> keeps (wrap_err f m).
Proof. intros Hm s Hs. unfold wrap_err. specialize (Hm s Hs). by destruct (m s). Qed.
Lemma st_keeps_assoc {E X Y Z} (m : ST S E X) (k : X -> ST S E Y) (j : Y -> ST S E Z) :
  keeps ((m ≫= k) ≫= j) -> keeps (m ≫= fun x => k x ≫= j).
Proof. intros H s Hs. specialize (H s Hs). unfold mbind, ST_bind in *. by destruct (m s) as [s' [x|e]]. Qed.
End Keeps.
Create HintDb keeps.
#[export] Hint Resolve st_keeps_ret st_keeps_lift st_keeps_throw st_keeps_gets st_keeps_attempt st_keeps_wrap_err : keeps.
(** Walk through binds, guards and matches; leave the calls. *)
Ltac keeps_step :=
  first
    [ solve [eauto with keeps]
    | match goal with
      | |- forall _, _ => intros
      | |- keeps _ (mbind _ _) => apply st_keeps_bind; [|intros ?]
      | |- keeps _ (attempt _) => apply st_keeps_attempt
      | |- keeps _ (wrap_err _ _) => apply st_keeps_wrap_err
      | |- keeps _ (if ?b then _ else _) => destruct b
      | |- keeps _ (match ?x with _ => _ end) => destruct x
      end ].
Ltac keeps := repeat keeps_step.

(** ** One request at a time

    [pend] are the sandboxes of detached creations under way, [l0] the answers
    when the request began. *)
Definition state_of (r : Sandboxes.SandboxRecord) : SandboxState := (Sandboxes.info r).(si_state).
(** Every registered sandbox is acknowledged, in the registered state; an
    acknowledged one is registered, being created, or one whose stop failed. *)
Definition agrees_with (pend : list string) (l : list Answer) (m : strmap Sandboxes.SandboxRecord) : Prop :=
  (forall id r, m !! id = Some r -> acknowledged l !! id = Some (state_of r) /\ id ∉ pend) /\
  (forall id, is_Some (acknowledged l !! id) -> is_Some (m !! id) \/ id ∈ pend \/ AnsStopFailed id ∈ l) /\
  (forall id, id ∈ pend -> acknowledged l !! id = Some Running) /\
  NoDup pend.
(** The answers since [l0] are not about a sandbox being created. *)
Definition undisturbed (pend : list string) (l0 l : list Answer) : bool :=
  forallb (fun a => bool_decide (answer_id a ∉ pend)) (take (length l - length l0) l).

Section Registered.
Context (pend : list string) (l : list Answer) (m : strmap Sandboxes.SandboxRecord).
Hypothesis Hag : agrees_with pend l m.
Lemma agrees_fresh id : acknowledged l !! id = None -> m !! id = None /\ id ∉ pend.
Proof.
  destruct Hag as (H1 & _ & H3 & _). intros Hid. split.
  - destruct (m !! id) as [r|] eqn:E; [|done]. apply H1 in E as [E _]. congruence.
  - intros Hin. apply H3 in Hin. congruence.
Qed.
Lemma agrees_start id : acknowledged l !! id = None -> agrees_with (id :: pend) (AnsStarted id :: l) m.
Proof.
  intros Hid. destruct (agrees_fresh id Hid) as [Hm Hp]. destruct Hag as (H1 & H2 & H3 & H4). split; [|split; [|split]]; cbn [acknowledged].
  - intros id' r Hr. assert (id' <> id) by congruence. rewrite lookup_insert_ne by done. destruct (H1 id' r Hr). set_solver.
  - intros id'. destruct (decide (id' = id)) as [->|]; [set_solver|]. rewrite lookup_insert_ne by done. intros Hs.
    destruct (H2 id' Hs) as [?|[?|?]]; set_solver.
  - intros id'. destruct (decide (id' = id)) as [->|]; [by rewrite lookup_insert_eq|]. rewrite lookup_insert_ne by done. set_solver.
  - by apply NoDup_cons.
Qed.
Lemma agrees_stopped id : id ∉ pend -> agrees_with pend (AnsStopped id :: l) (delete id m).
Proof.
  intros Hp. destruct Hag as (H1 & H2 & H3 & H4). split; [|split; [|split]]; cbn [acknowledged].
  - intros id' r'. rewrite !lookup_delete_Some. intros [? Hr]. destruct (H1 id' r' Hr). done.
  - intros id' [v Hv]. apply lookup_delete_Some in Hv as [? Hv]. rewrite lookup_delete_ne by done.
    destruct (H2 id') as [?|[?|?]]; [by eauto|auto|auto|]. right; right. by right.
  - intros id' Hin. rewrite lookup_delete_ne by set_solver. by apply H3.
  - done.
Qed.
(** An answer that acknowledges nothing. *)
Lemma agrees_stop_failed id : agrees_with pend (AnsStopFailed id :: l) m.
Proof.
  destruct Hag as (H1 & H2 & H3 & H4). split; [done|]. split; [|by split]. cbn [acknowledged].
  intros id' Hs. destruct (H2 id' Hs) as [?|[?|?]]; [auto|auto|]. right; right. by right.
Qed.
(** The state of one sandbox set on both sides. *)
Lemma agrees_set id v a (f : Sandboxes.SandboxRecord -> Sandboxes.SandboxRecord) :
  id ∉ pend -> acknowledged (a :: l) = alter (fun _ => v) id (acknowledged l) -> (forall r, state_of (f r) = v) ->
  agrees_with pend (a :: l) (match m !! id with Some r => <[id := f r]> m | None => m end).
Proof.
  intros Hp Ha Hf. destruct Hag as (H1 & H2 & H3 & H4). split; [|split; [|split]]; rewrite ?Ha.
  - intros id' r'. destruct (decide (id' = id)) as [->|].
    + destruct (m !! id) as [r|] eqn:E; [|congruence]. rewrite lookup_insert_eq. intros [= <-].
      rewrite lookup_alter_eq. destruct (H1 _ _ E) as [-> _]. cbn. by rewrite Hf.
    + rewrite lookup_alter_ne by done. intros Hr. apply (H1 id' r'). destruct (m !! id); [|done]. by rewrite lookup_insert_ne in Hr.
  - intros id'. rewrite lookup_alter_is_Some. intros Hs. destruct (H2 id' Hs) as [Hm|[?|?]]; [|auto|right; right; by right].
    left. destruct (m !! id) eqn:E; [|done]. rewrite lookup_insert_is_Some'. auto.
  - intros id' Hin. rewrite lookup_alter_ne by (intros ->; done). by apply H3.
  - done.
Qed.
End Registered.
(** A sandbox being created is registered, or is given up. *)
Lemma agrees_register pend l m id r : agrees_with (id :: pend) l m -> state_of r = Running -> agrees_with pend l (<[id := r]> m).
Proof.
  intros (H1 & H2 & H3 & [Hp H4]%NoDup_cons) Hr. split; [|split; [|split]].
  - intros id' r'. rewrite lookup_insert_Some. intros [[<- <-]|[Hne Hm]]; [rewrite Hr; split; [apply H3; by left|done]|].
    destruct (H1 id' r' Hm). set_solver.
  - intros id' Hs. destruct (decide (id' = id)) as [->|]; [left; by rewrite lookup_insert_eq|]. rewrite lookup_insert_ne by done.
    destruct (H2 id' Hs) as [?|[?|?]]; set_solver.
  - intros id' Hin. apply H3. by right.
  - done.
Qed.
Lemma agrees_give_up pend l m id : agrees_with (id :: pend) l m -> agrees_with pend (AnsStopped id :: l) m.
Proof.
  intros (H1 & H2 & H3 & [Hp H4]%NoDup_cons). split; [|split; [|split]]; cbn [acknowledged].
  - intros id' r Hr. destruct (H1 id' r Hr). rewrite lookup_delete_ne by set_solver. set_solver.
  - intros id' [v Hv]. apply lookup_delete_Some in Hv as [? Hv]. destruct (H2 id') as [?|[?|?]]; [by eauto|set_solver..].
  - intros id' Hin. rewrite lookup_delete_ne by set_solver. apply H3. by right.
  - done.
Qed.
Lemma agrees_give_up_failed pend l m id : agrees_with (id :: pend) l m -> agrees_with pend (AnsStopFailed id :: l) m.
Proof.
  intros (H1 & H2 & H3 & [Hp H4]%NoDup_cons). split; [|split; [|split]]; cbn [acknowledged].
  - intros id' r Hr. destruct (H1 id' r Hr). set_solver.
  - intros id' Hs. destruct (H2 id' Hs) as [?|[?|?]]; set_solver.
  - intros id' Hin. apply H3. by right.
  - done.
Qed.

Section Agreement.
Context {A : Type} `{RuntimeAdapter A} `{WireJson}.
Context (pend : list string) (l0 : list Answer).
Abbreviation Backend := (LocalRuntimeBackend (Observed A)).
Definition log (b : Backend) : list Answer := b.(adapter).(answers).
(** What a log must be for the registry to agree with it. *)
Definition good (l : list Answer) : Prop := fresh_starts l = true /\ undisturbed pend l0 l = true.
Definition agrees (b : Backend) : Prop :=
  (length l0 <= length (log b))%nat /\ (good (log b) -> agrees_with pend (log b) (Sandboxes.sandboxes b.(sandboxes))).
Abbreviation ok := (keeps agrees).
Lemma good_tail a l : good (a :: l) -> good l.
Proof.
  intros [Hf Hu]. split; [destruct a; cbn in Hf; by try apply andb_prop in Hf as [_ ?]|].
  unfold undisturbed in *. cbn [length] in Hu. destruct (decide (length l0 <= length l)%nat) as [Hle|Hle].
  - replace (S (length l) - length l0)%nat with (S (length l - length l0)) in Hu by lia. cbn in Hu. by apply andb_prop in Hu as [_ ?].
  - by replace (length l - length l0)%nat with 0%nat by lia.
Qed.

Lemma good_head a l : (length l0 <= length l)%nat -> good (a :: l) -> answer_id a ∉ pend.
Proof.
  intros Hle [_ Hu]. unfold undisturbed in Hu. cbn [length] in Hu.
  replace (S (length l) - length l0)%nat with (S (length l - length l0)) in Hu by lia. cbn in Hu. apply andb_prop in Hu as [Hu _].
  by apply bool_decide_eq_true in Hu.
Qed.
(** One more answer. *)
Lemma agrees_cons a l m m' : (length l0 <= length l)%nat -> (good l -> agrees_with pend l m) ->
  (agrees_with pend l m -> good (a :: l) -> answer_id a ∉ pend -> agrees_with pend (a :: l) m') ->
  (length l0 <= length (a :: l))%nat /\ (good (a :: l) -> agrees_with pend (a :: l) m').
Proof.
  intros Hle Hg Hk. split; [cbn; lia|]. intros Hga. apply Hk; [by apply Hg, (good_tail a)|done|by apply (good_head a l)].
Qed.
Lemma keeps_quietly {X} (f : A -> A * result BackendError X) : ok (on_adapter (quietly f)).
Proof. intros b Hb. unfold on_adapter, quietly, watch. by destruct (f _). Qed.
Lemma keeps_log {X} (f : Observed A -> Observed A * result BackendError X) g : f = quietly g -> ok (on_adapter f).
Proof. intros ->. apply keeps_quietly. Qed.
Lemma keeps_pods {X} (f : Pods.Registry -> Pods.Registry * X) : ok (on_pods f).
Proof. intros b Hb. unfold on_pods. by destruct (f _). Qed.
Lemma keeps_templates {X} (f : Templates.Registry -> Templates.Registry * X) : ok (on_templates f).
Proof. intros b Hb. unfold on_templates. by destruct (f _). Qed.
Lemma keeps_volumes {X} (f : Volumes.Registry -> Volumes.Registry * X) : ok (on_volumes f).
Proof. intros b Hb. unfold on_volumes. by destruct (f _). Qed.
(** A registry operation that changes neither which sandboxes there are nor
    their states. *)
Lemma agrees_states p l m m' : state_of <$> m' = state_of <$> m -> agrees_with p l m -> agrees_with p l m'.
Proof.
  intros Hf (H1 & H2 & H3 & H4). assert (Hl : forall id, state_of <$> (m' !! id) = state_of <$> (m !! id)).
  { intros id. by rewrite <- !lookup_fmap, Hf. }
  split; [|split; [|by split]].
  - intros id r Hr. specialize (Hl id). rewrite Hr in Hl. destruct (m !! id) as [r0|] eqn:E; [|done].
    destruct (H1 _ _ E). cbn in Hl. split; [congruence|done].
  - intros id Hs. destruct (H2 id Hs) as [Hm|?]; [left|auto]. apply fmap_is_Some with (f := state_of). rewrite Hl. by apply fmap_is_Some.
Qed.
Lemma keeps_sandboxes {X} (f : Sandboxes.Registry -> Sandboxes.Registry * X) :
  (forall g, state_of <$> Sandboxes.sandboxes (f g).1 = state_of <$> Sandboxes.sandboxes g) -> ok (on_sandboxes f).
Proof.
  intros Hf b [Hle Hb]. unfold on_sandboxes, agrees. specialize (Hf b.(sandboxes)). destruct (f (sandboxes b)) as [g x].
  cbn [fst adapter sandboxes] in *. split; [done|]. intros Hg. eapply agrees_states; [exact Hf|by apply Hb].
Qed.
Lemma record_mut_states {X} id (f : Sandboxes.SandboxRecord -> Sandboxes.SandboxRecord * X) g :
  (forall r, state_of (f r).1 = state_of r) ->
  state_of <$> Sandboxes.sandboxes (Sandboxes.record_mut id f g).1 = state_of <$> Sandboxes.sandboxes g.
Proof.
  intros Hf. unfold Sandboxes.record_mut. destruct (Sandboxes.sandboxes g !! id) as [r|] eqn:E; [|done]. cbn.
  rewrite fmap_insert, Hf. apply insert_id. by rewrite lookup_fmap, E.
Qed.
Lemma keeps_reg {G X} (on : (G -> G * result BackendError X) -> ST Backend BackendError (result BackendError X)) f :
  ok (on f) -> ok (reg on f).
Proof. intros. unfold reg. apply st_keeps_bind; [done|]. intros. apply st_keeps_lift. Qed.
Lemma keeps_backend_call {X} (m : ST Backend BackendError X) : ok m -> ok (backend_call m).
Proof. apply st_keeps_wrap_err. Qed.
Lemma keeps_backend_get {X} (f : Backend -> result BackendError X) : ok (backend_get f).
Proof. apply keeps_backend_call. by keeps. Qed.
Lemma keeps_ignore {E F X} (m : ST Backend E X) : ok m -> ok (ignore m : ST Backend F unit).
Proof. intros. unfold ignore. by keeps. Qed.
#[local] Hint Resolve keeps_pods keeps_templates keeps_volumes keeps_reg keeps_backend_call keeps_backend_get keeps_ignore : keeps.
#[local] Hint Extern 1 (keeps _ (on_adapter _)) => eapply keeps_log; reflexivity : keeps.

(** *** Starting *)
(** The adapter has acknowledged one sandbox the registry does not know yet. *)
Definition started (id : string) (b : Backend) : Prop :=
  (length l0 <= length (log b))%nat /\
  (good (log b) -> agrees_with (id :: pend) (log b) (Sandboxes.sandboxes b.(sandboxes))).
Definition starts (o : Backend * result BackendError RuntimeSandbox) : Prop :=
  match o with (b', Ok rt) => started rt.(rs_config).(rc_sandbox_id) b' | (b', Err _) => agrees b' end.
Lemma watch_starts (f : A -> A * result BackendError RuntimeSandbox) b :
  agrees b -> starts (on_adapter (watch (when_ok started_answer) f) b).
Proof.
  intros [Hle Hb]. unfold on_adapter, watch, starts, started, agrees, log in *. destruct (f _) as [a [rt|e]]; cbn [adapter watched answers when_ok app sandboxes]; [|done].
  split; [cbn; lia|]. intros Hg. pose proof (Hb (good_tail _ _ Hg)) as Hag. destruct Hg as [Hf _]. cbn in Hf.
  apply andb_prop in Hf as [Hf _]. apply bool_decide_eq_true in Hf. by apply agrees_start.
Qed.
(** Stopping a sandbox that was started and is not registered: the error goes
    to the caller in any case. *)
Lemma undo_start {X} id e b : started id b ->
  exists b', (_ ← ignore (on_adapter (ra_stop id)); throw e : ST Backend BackendError X) b = (b', Err e) /\ agrees b'.
Proof.
  intros [Hle Hb]. unfold ignore, attempt, mbind, ST_bind, on_adapter, throw, agrees, log in *. cbn. unfold watch.
  destruct (ra_stop id _) as [a r]; cbn. eexists. split; [reflexivity|]. cbn. split; [lia|]. intros Hg. pose proof (Hb (good_tail _ _ Hg)) as Hag.
  destruct r; [by apply agrees_give_up|by apply agrees_give_up_failed].
Qed.
Lemma started_unregistered id b : started id b -> good (log b) -> Sandboxes.sandboxes b.(sandboxes) !! id = None.
Proof.
  intros [_ Hb] Hg. destruct (Hb Hg) as (H1 & _). destruct (_ !! id) as [r|] eqn:E; [|done]. apply H1 in E as [_ E]. set_solver.
Qed.
(** The network policy, asked of the adapter, acknowledges nothing. *)
Definition set_adapter (o : Observed A) (b : Backend) : Backend := mk_backend o b.(sandboxes) b.(pods) b.(templates) b.(volumes).
Lemma started_quietly id o b : started id b -> o.(answers) = log b -> started id (set_adapter o b).
Proof. intros Hst Ho. unfold started, log in *. cbn [set_adapter adapter sandboxes]. by rewrite Ho. Qed.
Lemma agrees_registered rq rt b : started rt.(rs_config).(rc_sandbox_id) b -> agrees (on_sandboxes (Sandboxes.create rq rt.(rs_config)) b).1.
Proof.
  intros Hst. pose proof Hst as [Hle Hb]. unfold on_sandboxes, agrees, log. pose proof (started_unregistered _ _ Hst) as Hno.
  unfold Sandboxes.create. destruct (_ !! _) as [r|]; cbn [fst adapter sandboxes Sandboxes.sandboxes]; (split; [done|]); intros Hg.
  - discriminate (Hno Hg).
  - apply agrees_register; [by apply Hb|done].
Qed.
Lemma network_answers id p (b : Backend) : exists o r, on_adapter (ra_apply_network id p) b = (set_adapter o b, r) /\ o.(answers) = log b.
Proof. unfold on_adapter. cbn [ra_apply_network observed_adapter]. unfold quietly, watch. destruct (ra_apply_network id p _) as [a r]. by eexists _, r. Qed.
(** Whatever the network policy does, the sandbox ends up on both sides or, if
    it can be stopped, on neither. *)
Lemma register_started_ok rq rt b : started rt.(rs_config).(rc_sandbox_id) b -> agrees (register_started rq rt b).1.
Proof.
  intros Hst. pose proof (agrees_registered rq rt b Hst) as Hreg.
  unfold register_started. unfold mbind at 1, ST_bind at 1. unfold on_sandboxes at 1. unfold on_sandboxes, Sandboxes.create in Hreg. unfold Sandboxes.create.
  destruct (Sandboxes.sandboxes (sandboxes b) !! _) as [r|] eqn:E; cbn [fst] in *.
  { destruct (undo_start (X := ConnectedSandbox) _ (AlreadyExists (rc_sandbox_id (rs_config rt))) _ (started_quietly _ b.(adapter) b Hst eq_refl))
      as (b' & Eb & Hb'). unfold set_adapter in Eb. by rewrite Eb. }
  destruct (effective_network_policy_request rq) as [policy|]; [|done].
  set (b1 := mk_backend _ _ _ _ _) in *. cbn [cs_sandbox_id Sandboxes.new_connected].
  destruct (network_answers (rc_sandbox_id (rs_config rt)) policy b1) as (o & r & Eo & Ho).
  unfold mbind at 1, ST_bind at 1. unfold attempt at 1. rewrite Eo. destruct r as [u|e].
  - unfold agrees, log in *. cbn. by rewrite Ho.
  - unfold mbind at 1, ST_bind at 1. unfold on_sandboxes at 1.
    unfold b1, set_adapter. cbn [fst snd adapter sandboxes pods templates volumes Sandboxes.delete_sandbox Sandboxes.sandboxes Sandboxes.snapshots].
    rewrite delete_insert_id by done. destruct (undo_start (X := ConnectedSandbox) _ e _ (started_quietly _ o b Hst Ho)) as (b' & Eb & Hb').
    destruct b as [ad [m sn] p t v]. unfold set_adapter in Eb. cbn [sandboxes pods templates volumes] in Eb. cbn [Sandboxes.sandboxes Sandboxes.snapshots sandboxes pods templates volumes]. by rewrite Eb.
Qed.
Lemma starts_then {X} (k : RuntimeSandbox -> ST Backend BackendError X) (f : A -> A * result BackendError RuntimeSandbox) b :
  agrees b -> (forall rt b', started rt.(rs_config).(rc_sandbox_id) b' -> agrees (k rt b').1) ->
  agrees ((on_adapter (watch (when_ok started_answer) f) ≫= k) b).1.
Proof.
  intros Hb Hk. pose proof (watch_starts f b Hb) as Hs. unfold mbind, ST_bind. destruct (on_adapter _ b) as [b' [rt|e]]; [by apply Hk|done].
Qed.
Lemma resolve_quiet id (b : Backend) : (resolve_template id b).1 = b.
Proof.
  unfold resolve_template, mbind, ST_bind, gets. cbn. destruct (find_prepared b _); [done|]. by destruct (is_builtin_host_template _).
Qed.
Lemma resolve_then {X} id (k : option PreparedTemplate -> ST Backend BackendError X) : (forall p, ok (k p)) -> ok (resolve_template id ≫= k).
Proof.
  intros Hk. apply st_keeps_bind; [|done]. intros b Hb. by rewrite resolve_quiet.
Qed.
Lemma create_ok rq : ok (create rq).
Proof. apply resolve_then. intros p b Hb. apply starts_then; [done|]. intros. by apply register_started_ok. Qed.
Lemma create_followup_ok rq : ok (create_followup rq).
Proof.
  apply st_keeps_bind; [by keeps|]. intros s b Hb. apply starts_then; [done|]. intros. by apply register_started_ok.
Qed.

(** *** Detached creation *)
Lemma detached_network_started rq rt b : started rt.(rs_config).(rc_sandbox_id) b ->
  match detached_network rq rt b with (b', Ok _) => started rt.(rs_config).(rc_sandbox_id) b' | (b', Err _) => agrees b' end.
Proof.
  intros Hst. unfold detached_network. destruct (effective_network_policy_request rq) as [policy|]; [|done].
  destruct (network_answers (rc_sandbox_id (rs_config rt)) policy b) as (o & r & Eo & Ho).
  unfold mbind at 1, ST_bind at 1. unfold attempt at 1. rewrite Eo. pose proof (started_quietly _ o b Hst Ho) as H1.
  destruct r as [u|e]; [exact H1|]. destruct (undo_start (X := unit) _ e _ H1) as (b' & Eb & Hb'). by rewrite Eb.
Qed.
Lemma detached_register_ok rq rt b : started rt.(rs_config).(rc_sandbox_id) b -> agrees (detached_register rq rt b).1.
Proof.
  intros Hst. pose proof (agrees_registered rq rt b Hst) as Hreg. unfold detached_register. unfold mbind at 1, ST_bind at 1.
  unfold on_sandboxes, Sandboxes.create in *. destruct (_ !! _) as [r|]; cbn [fst] in *; [|done].
  destruct (undo_start (X := ConnectedSandbox) _ (AlreadyExists (rc_sandbox_id (rs_config rt))) _ (started_quietly _ b.(adapter) b Hst eq_refl))
    as (b' & Eb & Hb'). unfold set_adapter in Eb. by rewrite Eb.
Qed.
Lemma detached_ok rq rt b : started rt.(rs_config).(rc_sandbox_id) b -> agrees ((_ ← detached_network rq rt; detached_register rq rt) b).1.
Proof.
  intros Hst. pose proof (detached_network_started rq rt b Hst) as Hn. unfold mbind, ST_bind.
  destruct (detached_network rq rt b) as [b' [u|e]]; [by apply detached_register_ok|done].
Qed.
Lemma detached_create_ok rq : ok (create_with_detached_runtime_start rq).
Proof. apply resolve_then. intros p b Hb. apply starts_then; [done|]. intros. by apply detached_ok. Qed.
Lemma detached_followup_ok rq : ok (create_followup_with_detached_runtime_start rq).
Proof. apply st_keeps_bind; [by keeps|]. intros s b Hb. apply starts_then; [done|]. intros. by apply detached_ok. Qed.

(** *** Stopping, pausing, resuming *)
Lemma delete_sandbox_ok id : ok (delete_sandbox id).
Proof.
  intros b [Hle Hb]. unfold delete_sandbox, mbind, ST_bind, on_adapter, agrees, log in *. cbn [ra_stop observed_adapter]. unfold watch.
  destruct (ra_stop id _) as [a [u|e]]; cbn; eapply agrees_cons; try done; intros Hag _ Hp; [by apply agrees_stopped|by apply agrees_stop_failed].
Qed.
Lemma pause_ok id : ok (pause id).
Proof.
  intros b [Hle Hb]. unfold pause, reg, mbind, ST_bind, on_adapter, agrees, log in *. cbn [ra_pause observed_adapter]. unfold watch.
  destruct (ra_pause id _) as [a [u|e]]; cbn [when_ok app fst adapter answers]; [|done].
  unfold on_sandboxes, Sandboxes.pause, Sandboxes.record_mut, lift. cbn.
  set (f := fun r : Sandboxes.SandboxRecord => match si_state (Sandboxes.info r) with
              | Running => Sandboxes.with_info (Sandboxes.set_state Paused) r | Paused => r end).
  assert (Hf : forall r, state_of (f r) = Paused).
  { intros r. unfold f, state_of. by destruct (si_state (Sandboxes.info r)) eqn:E. }
  eapply (agrees_cons _ _ _ (match Sandboxes.sandboxes (sandboxes b) !! id with Some r => <[id := f r]> (Sandboxes.sandboxes (sandboxes b)) | None => _ end)) in Hb; [|done|].
  - destruct (Sandboxes.sandboxes (sandboxes b) !! id) as [r|]; cbn; [|exact Hb].
    replace (fst _) with (f r); [exact Hb|]. unfold f. by destruct (si_state _).
  - intros Hag _ Hp. by apply (agrees_set _ _ _ Hag id Paused (AnsPaused id) f).
Qed.
Lemma connect_ok id rq : ok (connect id rq).
Proof.
  intros b [Hle Hb]. unfold connect, reg, mbind, ST_bind, on_adapter, agrees, log in *. cbn [ra_resume observed_adapter]. unfold watch.
  destruct (ra_resume _ _) as [a [u|e]]; cbn [when_ok app fst adapter answers]; [|done].
  unfold on_sandboxes, Sandboxes.connect, Sandboxes.record_mut, lift. cbn.
  set (f := Sandboxes.with_info (Sandboxes.set_state Running)).
  eapply (agrees_cons (AnsResumed id) _ _ (match Sandboxes.sandboxes (sandboxes b) !! id with Some r => <[id := f r]> (Sandboxes.sandboxes (sandboxes b)) | None => _ end)) in Hb; [|done|].
  - by destruct (Sandboxes.sandboxes (sandboxes b) !! id) as [r|].
  - intros Hag _ Hp. by apply (agrees_set _ _ _ Hag id Running (AnsResumed id) f).
Qed.
Lemma expire_one_ok id : ok (expire_one id).
Proof.
  unfold expire_one. apply st_keeps_bind; [by keeps|]. intros [].
  - apply st_keeps_assoc, st_keeps_bind; [apply pause_ok|by keeps].
  - apply st_keeps_assoc, st_keeps_bind; [apply delete_sandbox_ok|by keeps].
Qed.
Lemma expire_due_ok now : ok (expire_due_sandboxes now).
Proof.
  unfold expire_due_sandboxes. apply st_keeps_bind; [by keeps|]. intros due.
  induction due as [|id due IH]; cbn [expire_all]; [by keeps|]. pose proof (expire_one_ok id). by keeps.
Qed.

(** *** The other operations of the registry *)
Lemma states_set_timeout id rq e g :
  state_of <$> Sandboxes.sandboxes (Sandboxes.set_timeout id rq e g).1 = state_of <$> Sandboxes.sandboxes g.
Proof. by apply record_mut_states. Qed.
Lemma states_refresh id rq e g :
  state_of <$> Sandboxes.sandboxes (Sandboxes.refresh id rq e g).1 = state_of <$> Sandboxes.sandboxes g.
Proof. by apply record_mut_states. Qed.
Lemma states_push_log id e g :
  state_of <$> Sandboxes.sandboxes (Sandboxes.push_log id e g).1 = state_of <$> Sandboxes.sandboxes g.
Proof. by apply record_mut_states. Qed.
Lemma states_set_metric id s g :
  state_of <$> Sandboxes.sandboxes (Sandboxes.set_metric id s g).1 = state_of <$> Sandboxes.sandboxes g.
Proof. by apply record_mut_states. Qed.
Lemma states_create_snapshot id rq s g :
  state_of <$> Sandboxes.sandboxes (Sandboxes.create_snapshot id rq s g).1 = state_of <$> Sandboxes.sandboxes g.
Proof. unfold Sandboxes.create_snapshot. destruct (Sandboxes.record g id); [|done]. by destruct (Sandboxes.snapshots g !! _). Qed.
Lemma states_delete_snapshot id g :
  state_of <$> Sandboxes.sandboxes (Sandboxes.delete_snapshot id g).1 = state_of <$> Sandboxes.sandboxes g.
Proof. done. Qed.
#[local] Hint Resolve keeps_sandboxes states_set_timeout states_refresh states_push_log states_set_metric
  states_create_snapshot states_delete_snapshot : keeps.
#[local] Hint Resolve create_ok create_followup_ok detached_create_ok detached_followup_ok delete_sandbox_ok pause_ok connect_ok : keeps.

Lemma push_logs_ok id es : ok (push_logs id es).
Proof. induction es; cbn [push_logs]; by keeps. Qed.
#[local] Hint Resolve push_logs_ok : keeps.
Lemma create_pod_ok rq : ok (create_pod rq).
Proof. unfold create_pod, get_pod, pod_prepared_templates. by keeps. Qed.
Lemma delete_pod_ok id : ok (delete_pod id).
Proof. unfold delete_pod. by keeps. Qed.
Lemma add_pod_container_ok id rq : ok (add_pod_container id rq).
Proof. unfold add_pod_container, get_pod, pod_prepared_templates. by keeps. Qed.
Lemma delete_pod_container_ok id n : ok (delete_pod_container id n).
Proof. unfold delete_pod_container, get_pod. by keeps. Qed.
Lemma wait_pod_container_ok id n : ok (wait_pod_container id n).
Proof. unfold wait_pod_container, get_pod. by keeps. Qed.
Lemma create_snapshot_ok id rq : ok (create_snapshot id rq).
Proof. unfold create_snapshot. by keeps. Qed.
Lemma refresh_metrics_ok id : ok (refresh_metrics id).
Proof. unfold refresh_metrics. by keeps. Qed.
Lemma refresh_logs_ok id : ok (refresh_logs id).
Proof. unfold refresh_logs. by keeps. Qed.
Lemma request_template_build_ok rq : ok (request_template_build rq).
Proof. unfold request_template_build. by keeps. Qed.
Lemma start_template_build_ok t i s : ok (start_template_build t i s).
Proof. unfold start_template_build. by keeps. Qed.
#[local] Hint Resolve create_pod_ok delete_pod_ok add_pod_container_ok delete_pod_container_ok wait_pod_container_ok
  create_snapshot_ok refresh_metrics_ok refresh_logs_ok request_template_build_ok start_template_build_ok : keeps.

(** *** Every request and every expiration pass *)
Lemma pod_routes_ok rq segs : ok (handle_pod_control_plane rq segs).
Proof. unfold handle_pod_control_plane, on_route, deleted, no_content, no_route, reply, body. by keeps. Qed.
Lemma sandbox_routes_ok rq q segs : ok (handle_sandbox_control_plane rq q segs).
Proof.
  unfold handle_sandbox_control_plane, on_route, deleted, paused, keep_deadline, no_content, no_route, reply, body. by keeps.
Qed.
Lemma template_routes_ok rq segs : ok (handle_template_control_plane rq segs).
Proof.
  unfold handle_template_control_plane, delete_template_or_snapshot, on_route, no_content, no_route, reply, body. by keeps.
Qed.
Lemma volume_routes_ok rq segs : ok (handle_volume_control_plane rq segs).
Proof. unfold handle_volume_control_plane, on_route, deleted, no_content, no_route, reply, body. by keeps. Qed.
#[local] Hint Resolve pod_routes_ok sandbox_routes_ok template_routes_ok volume_routes_ok : keeps.
Lemma handle_control_plane_ok rq : ok (handle_control_plane rq).
Proof. unfold handle_control_plane. destruct (split_path_query _). by keeps. Qed.
Lemma concurrent_create_ok rq m : handle_concurrent_control_plane_create rq = Some m -> ok m.
Proof.
  unfold handle_concurrent_control_plane_create, reply, body. destruct (rq_method rq); try done.
  destruct (String.eqb _ _); [intros [= <-]; by keeps|]. destruct (String.eqb _ _); [intros [= <-]; by keeps|done].
Qed.
End Agreement.

(** ** Detached creation, call by call

    Between the calls of a detached creation the lock is free: other requests,
    expiration passes and other creations run there.  A stage is what the
    creation does next. *)
Inductive CreateStage :=
| StStart (rq : SandboxCreateRequest) (p : option PreparedTemplate)
| StFollowup (rq : SandboxCreateRequest) (s : FollowupSnapshot)
| StNetwork (rq : SandboxCreateRequest) (rt : RuntimeSandbox)
| StRegister (rq : SandboxCreateRequest) (rt : RuntimeSandbox)
| StStop (id : string) (e : BackendError).
(** The sandbox the adapter has started for it. *)
Definition stage_id (st : CreateStage) : option string :=
  match st with
  | StStart _ _ | StFollowup _ _ => None
  | StNetwork _ rt | StRegister _ rt => Some rt.(rs_config).(rc_sandbox_id)
  | StStop id _ => Some id
  end.
Definition stage_ids (l : list CreateStage) : list string := omap stage_id l.
Section Stages.
Context {A : Type} `{RuntimeAdapter A}.
Abbreviation BM := (ST (LocalRuntimeBackend A) BackendError).
Definition begin_create (rq : SandboxCreateRequest) : BM CreateStage := p ← resolve_template rq.(cr_template_id); mret (StStart rq p).
Definition begin_followup (rq : FollowupSandboxCreateRequest) : BM CreateStage :=
  s ← (r ← gets (fun b => Sandboxes.followup_snapshot b.(sandboxes) rq.(fr_snapshot_id)); lift r);
  mret (StFollowup (with_template s.(fs_snapshot_id) rq.(fr_create_request)) s).
Definition advance (st : CreateStage) : BM (CreateStage + ConnectedSandbox) :=
  match st with
  | StStart rq p => rt ← on_adapter (ra_start (mk_start_request rq p)); mret (inl (StNetwork rq rt))
  | StFollowup rq s =>
      rt ← on_adapter (ra_start_followup (mk_start_request rq (Some (followup_template s))) s); mret (inl (StNetwork rq rt))
  | StNetwork rq rt =>
      match effective_network_policy_request rq with
      | None => mret (inl (StRegister rq rt))
      | Some policy =>
          r ← attempt (on_adapter (ra_apply_network rt.(rs_config).(rc_sandbox_id) policy));
          mret (inl (match r with Ok _ => StRegister rq rt | Err e => StStop rt.(rs_config).(rc_sandbox_id) e end))
      end
  | StRegister rq rt =>
      registered ← on_sandboxes (Sandboxes.create rq rt.(rs_config));
      mret (match registered with Ok c => inr c | Err e => inl (StStop rt.(rs_config).(rc_sandbox_id) e) end)
  | StStop id e => _ ← ignore (on_adapter (ra_stop id)); throw e
  end.
(** The stages back to back; [n] more than the first. *)
Fixpoint complete (n : nat) (st : CreateStage) : BM ConnectedSandbox :=
  r ← advance st;
  match r, n with
  | inr c, _ => mret c
  | inl st, S n => complete n st
  | inl _, O => throw (Runtime "unfinished")
  end.
Lemma complete_stop n id e b : complete n (StStop id e) b = (_ ← ignore (on_adapter (ra_stop id)); throw e) b.
Proof. destruct n; cbn [complete advance]; unfold ignore, attempt, mbind, ST_bind, throw; cbn; by destruct (on_adapter (ra_stop id) b). Qed.
Lemma complete_register n rq rt b : (1 <= n)%nat -> complete n (StRegister rq rt) b = detached_register rq rt b.
Proof.
  intros Hn. destruct n as [|n]; [lia|]. unfold detached_register, complete; fold complete. cbn [advance].
  unfold mbind at 1 2 3, ST_bind at 1 2 3. unfold on_sandboxes. destruct (Sandboxes.create _ _ _) as [g [c|e]]; [done|]. apply complete_stop.
Qed.
Lemma complete_network n rq rt b : (2 <= n)%nat ->
  complete n (StNetwork rq rt) b = (_ ← detached_network rq rt; detached_register rq rt) b.
Proof.
  intros Hn. destruct n as [|n]; [lia|]. unfold detached_network, complete; fold complete. cbn [advance].
  unfold mbind at 1 3, ST_bind at 1 3. destruct (effective_network_policy_request rq) as [policy|]; [|apply complete_register; lia].
  unfold mbind at 1 2, ST_bind at 1 2. unfold attempt at 1 2. destruct (on_adapter (ra_apply_network _ policy) b) as [b' [u|e]].
  - apply complete_register. lia.
  - cbn [mret ST_ret]. rewrite complete_stop. unfold ignore, attempt, mbind, ST_bind, throw. cbn. by destruct (on_adapter (ra_stop _) b').
Qed.
(** Without interference the stages are the detached creation. *)
Lemma complete_start n st rq f b : (2 <= n)%nat ->
  advance st = (rt ← on_adapter f; mret (inl (StNetwork rq rt))) ->
  complete (S n) st b = (rt ← on_adapter f; _ ← detached_network rq rt; detached_register rq rt) b.
Proof.
  intros Hn Ha. unfold complete; fold complete. rewrite Ha. unfold mbind at 1 2 3, ST_bind at 1 2 3.
  destruct (on_adapter f b) as [b2 [rt|e]]; [|done]. by apply complete_network.
Qed.
Lemma bind_then {S E X Y} (m : ST S E X) (f : X -> CreateStage) (j : CreateStage -> ST S E Y) (k : X -> ST S E Y) b :
  (forall x b', j (f x) b' = k x b') -> ((x ← m; mret (f x)) ≫= j) b = (m ≫= k) b.
Proof. intros Hk. unfold mbind, ST_bind. destruct (m b) as [b' [x|e]]; [apply Hk|done]. Qed.
Lemma stages_are_create rq b : (begin_create rq ≫= complete 3) b = create_with_detached_runtime_start rq b.
Proof. apply bind_then. intros. by apply complete_start; [lia|]. Qed.
Lemma stages_are_followup rq b : (begin_followup rq ≫= complete 3) b = create_followup_with_detached_runtime_start rq b.
Proof. apply bind_then. intros. by apply complete_start; [lia|]. Qed.
End Stages.

(** ** Runs of a server *)
Inductive Event :=
| EvHttp (env : SaveEnv) (rq : HttpRequest)
| EvTick (now : string) (env : SaveEnv)
| EvBegin (rq : SandboxCreateRequest)
| EvBeginFollowup (rq : FollowupSandboxCreateRequest)
| EvAdvance (i : nat) (env : SaveEnv).
(** A server and the detached creations under way, in no particular order. *)
Record Front (A : Type) := mk_front { front : Server A; creating : list CreateStage }.
Arguments mk_front {A}.
Arguments front {A}.
Arguments creating {A}.
Definition with_backend {A} (b : LocalRuntimeBackend A) (s : Server A) : Server A :=
  mk_server b s.(srv_state_path) s.(srv_api_key) s.(srv_world).
Section Runs.
Context {A : Type} `{RuntimeAdapter A} `{WireJson} `{StateJson}.
Definition begin (m : ST (LocalRuntimeBackend A) BackendError CreateStage) (f : Front A) : Front A :=
  let '(b, r) := m f.(front).(srv_backend) in
  mk_front (with_backend b f.(front)) (match r with Ok st => st :: f.(creating) | Err _ => f.(creating) end).
(** A creation that ends in success is answered, and the state is saved. *)
Definition event (f : Front A) (e : Event) : Front A :=
  match e with
  | EvHttp env rq => mk_front (handle_http_request env rq f.(front)).1 f.(creating)
  | EvTick now env => mk_front (tick now env f.(front)).1 f.(creating)
  | EvBegin rq => begin (begin_create rq) f
  | EvBeginFollowup rq => begin (begin_followup rq) f
  | EvAdvance i env =>
      match f.(creating) !! i with
      | None => f
      | Some st =>
          let '(b, r) := advance st f.(front).(srv_backend) in
          let s := with_backend b f.(front) in
          match r with
          | Ok (inl st) => mk_front s (st :: delete i f.(creating))
          | Ok (inr c) => mk_front (respond true env (reply (RConnected c)) s).1 (delete i f.(creating))
          | Err _ => mk_front s (delete i f.(creating))
          end
      end
  end.
Definition serve (f : Front A) (es : list Event) : Front A := foldl event f es.

Lemma respond_backend mutates env m (s : Server A) :
  (respond mutates env m s).1.(srv_backend) = (m s.(srv_backend)).1.
Proof.
  unfold respond. destruct (m _) as [b [rsp|e]]; [|done]. destruct (srv_state_path s); [|done]. destruct mutates; [|done].
  by destruct (save_state_json _ _ _ _) as [w [u|e]].
Qed.
Lemma tick_backend now env (s : Server A) : (tick now env s).1.(srv_backend) = (expire_due_sandboxes now s.(srv_backend)).1.
Proof.
  unfold tick. destruct (expire_due_sandboxes _ _) as [b [l|e]]; [|done]. destruct l; [done|].
  destruct (srv_state_path s); [|done]. by destruct (save_state_json _ _ _ _) as [w [u|e]].
Qed.
End Runs.

Section Watched.
Context {A : Type} `{RuntimeAdapter A} `{WireJson} `{StateJson}.
Implicit Types f : Front (Observed A).
Definition front_log f : list Answer := log f.(front).(srv_backend).
Definition registered f : strmap Sandboxes.SandboxRecord := Sandboxes.sandboxes f.(front).(srv_backend).(sandboxes).
(** No request and no expiration pass acts on a sandbox whose creation has not
    been answered: clients learn an id from that answer. *)
Fixpoint calm f (es : list Event) : bool :=
  match es with
  | [] => true
  | e :: es =>
      match e with
      | EvHttp _ _ | EvTick _ _ => undisturbed (stage_ids f.(creating)) (front_log f) (front_log (event f e))
      | _ => true
      end && calm (event f e) es
  end.
(** The invariant; it holds as long as the adapter gives out ids that are not
    in use. *)
Definition settled (pend : list string) (b : LocalRuntimeBackend (Observed A)) : Prop :=
  fresh_starts (log b) = true -> agrees_with pend (log b) (Sandboxes.sandboxes b.(sandboxes)).
Definition sound f : Prop := settled (stage_ids f.(creating)) f.(front).(srv_backend).

Lemma good_now pend l : fresh_starts l = true -> good pend l l.
Proof. intros Hf. split; [done|]. unfold undisturbed. by rewrite Nat.sub_diag. Qed.
Lemma settled_start pend b : settled pend b -> agrees pend (log b) b.
Proof. intros Hs. split; [done|]. intros [Hf _]. by apply Hs. Qed.
(** A request under the lock, from its beginning to its end. *)
Lemma settled_keeps {E X} pend (m : ST (LocalRuntimeBackend (Observed A)) E X) b :
  keeps (agrees pend (log b)) m -> settled pend b -> undisturbed pend (log b) (log (m b).1) = true -> settled pend (m b).1.
Proof.
  intros Hm Hs Hu Hf. destruct (Hm b (settled_start pend b Hs)) as [_ Hag]. by apply Hag.
Qed.
Lemma agrees_perm p p' l m : p ≡ₚ p' -> agrees_with p l m -> agrees_with p' l m.
Proof.
  intros Hp (G1 & G2 & G3 & G4). split; [|split; [|split]].
  - intros id r Hr. rewrite <- Hp. by apply G1.
  - intros id. rewrite <- Hp. apply G2.
  - intros id. rewrite <- Hp. apply G3.
  - by rewrite <- Hp.
Qed.
Lemma stage_ids_take i st (l : list CreateStage) : l !! i = Some st -> stage_ids l ≡ₚ stage_ids [st] ++ stage_ids (delete i l).
Proof.
  intros Hi. rewrite <- (take_drop_middle l i st Hi) at 1. rewrite delete_take_drop. unfold stage_ids.
  rewrite !omap_app. cbn. destruct (stage_id st); cbn; [solve_Permutation|done].
Qed.
Lemma fresh_tail a l : fresh_starts (a :: l) = true -> fresh_starts l = true.
Proof. intros Hf. destruct a; cbn in Hf; by try apply andb_prop in Hf as [_ ?]. Qed.
Definition advances (pend : list string) (o : LocalRuntimeBackend (Observed A) * result BackendError (CreateStage + ConnectedSandbox)) : Prop :=
  match o with
  | (b', Ok (inl st')) => settled (stage_ids [st'] ++ pend) b'
  | (b', _) => settled pend b'
  end.
Lemma start_advances pend rq (g : A -> A * result BackendError RuntimeSandbox) b : settled pend b ->
  advances pend ((rt ← on_adapter (watch (when_ok started_answer) g); mret (inl (StNetwork rq rt))) b).
Proof.
  intros Hs. unfold mbind, ST_bind, on_adapter, watch. destruct (g _) as [a [rt|e]]; [|exact Hs].
  intros Hf. unfold log in *. cbn [adapter answers when_ok app sandboxes] in *. pose proof (Hs (fresh_tail _ _ Hf)) as Hag.
  cbn in Hf. apply andb_prop in Hf as [Hf _]. apply bool_decide_eq_true in Hf. by apply agrees_start.
Qed.
(** One call of a detached creation, the others being at [pend]. *)
Lemma advance_advances pend st b : settled (stage_ids [st] ++ pend) b -> advances pend (advance st b).
Proof.
  intros Hs. destruct st as [rq p|rq s|rq rt|rq rt|id e]; cbn [advance].
  - by apply start_advances.
  - by apply start_advances.
  - destruct (effective_network_policy_request rq) as [policy|]; [|exact Hs].
    destruct (network_answers (rc_sandbox_id (rs_config rt)) policy b) as (o & r & Eo & Ho).
    unfold mbind, ST_bind, attempt. rewrite Eo. unfold settled, log in *. rewrite <- Ho in Hs. by destruct r.
  - unfold mbind, ST_bind, on_sandboxes, Sandboxes.create. destruct (_ !! _) as [r|]; [exact Hs|].
    intros Hf. unfold log in *. cbn in *. apply agrees_register; [by apply Hs|done].
  - unfold ignore, attempt, mbind, ST_bind, on_adapter, throw. cbn. unfold watch. destruct (ra_stop id _) as [a r]. cbn.
    intros Hf. unfold log in *. cbn in *. pose proof (Hs (fresh_tail _ _ Hf)) as Hag.
    destruct r; [by apply agrees_give_up|by apply agrees_give_up_failed].
Qed.
Lemma begin_sound (m : ST _ BackendError CreateStage) f :
  (forall b, (m b).1 = b) -> (forall b st, (m b).2 = Ok st -> stage_id st = None) -> sound f -> sound (begin m f).
Proof.
  intros Hb Hid Hs. unfold sound, begin. specialize (Hb (srv_backend (front f))). specialize (Hid (srv_backend (front f))).
  destruct (m _) as [b [st|e]]; cbn [fst snd] in *; subst b; [|exact Hs]. cbn [creating front with_backend srv_backend].
  unfold stage_ids. cbn. by rewrite (Hid st eq_refl).
Qed.
Lemma event_sound f e :
  match e with
  | EvHttp _ _ | EvTick _ _ => undisturbed (stage_ids f.(creating)) (front_log f) (front_log (event f e)) = true
  | _ => True
  end -> sound f -> sound (event f e).
Proof.
  intros Hc Hs. destruct e as [env rq|now env|rq|rq|i env]; cbn [event].
  - unfold sound, front_log in *. cbn [event creating front] in *. unfold handle_http_request in *.
    destruct (match srv_api_key _ with Some _ => _ | None => _ end); [done|].
    destruct (convert_http_request rq) as [cp|e]; [|done]. rewrite respond_backend in *. apply settled_keeps; [|done|done].
    destruct (handle_concurrent_control_plane_create cp) as [m|] eqn:E; [by eapply concurrent_create_ok|apply handle_control_plane_ok].
  - unfold sound, front_log in *. cbn [event creating front] in *. rewrite tick_backend in *.
    apply settled_keeps; [apply expire_due_ok|done|done].
  - apply begin_sound; [intros b|intros b st|done]; unfold begin_create, mbind, ST_bind; pose proof (resolve_quiet (cr_template_id rq) b) as Hr;
      destruct (resolve_template _ b) as [b' [p|e]]; cbn in *; [done..|by intros [= <-]|done].
  - apply begin_sound; [intros b|intros b st|done]; unfold begin_followup, mbind, ST_bind, gets, lift;
      destruct (Sandboxes.followup_snapshot _ _) as [s|e]; cbn; [done..|by intros [= <-]|done].
  - destruct (creating f !! i) as [st|] eqn:Ei; [|done].
    assert (Hst : settled (stage_ids [st] ++ stage_ids (delete i f.(creating))) f.(front).(srv_backend)).
    { intros Hf. eapply agrees_perm; [by apply stage_ids_take|by apply Hs]. }
    pose proof (advance_advances _ _ _ Hst) as Ha. unfold advances in Ha.
    destruct (advance st _) as [b [[st'|c]|e]]; [|by unfold sound; cbn [front creating]; rewrite respond_backend|exact Ha].
    unfold sound. cbn [creating front with_backend srv_backend]. by change (st' :: ?l) with ([st'] ++ l); unfold stage_ids in *; rewrite omap_app.
Qed.
Lemma serve_sound es f : calm f es = true -> sound f -> sound (serve f es).
Proof.
  revert f. induction es as [|e es IH]; [done|]. intros f Hc Hs. cbn [calm] in Hc. apply andb_prop in Hc as [Hu Hc].
  apply IH; [done|]. apply event_sound; [|done]. by destruct e.
Qed.
Lemma sound_new (a : A) now s : s.(srv_backend) = backend_new (observe a) now -> sound (mk_front s []).
Proof. intros Hs _. unfold sound. cbn. rewrite Hs. split; [|split; [|split]]; cbn; [by intros id r|by intros id []|set_solver|constructor]. Qed.

(** C6: what the control plane says of sandboxes is what the runtime adapter has
    answered, from a server that starts without sandboxes.  Nothing is assumed of
    the adapter's calls: each may succeed or fail, whatever it did before failing.  Requests under the lock, expiration
    passes and the calls of any number of detached creations interleave; a
    sandbox counts from the answer to its start to the answer that it was
    stopped, paused or running as last answered.  Two conditions: a start is not
    answered with an id still in use (the registration would then stop the
    running sandbox), and no request or expiration pass acts on a sandbox before
    its creation is answered.  Then every registered sandbox is acknowledged by
    the adapter, in the state the registry shows; every acknowledged sandbox is
    registered, or being created, or one whose stop the adapter answered with an
    error; and a sandbox being created is running and not yet listed. *)
Theorem registry_matches_answers (a : A) now s es :
  s.(srv_backend) = backend_new (observe a) now ->
  let f := serve (mk_front s []) es in
  calm (mk_front s []) es = true -> fresh_starts (front_log f) = true ->
  (forall id r, registered f !! id = Some r -> acknowledged (front_log f) !! id = Some (state_of r)) /\
  (forall id, is_Some (acknowledged (front_log f) !! id) ->
     is_Some (registered f !! id) \/ id ∈ stage_ids f.(creating) \/ AnsStopFailed id ∈ front_log f) /\
  (forall id, id ∈ stage_ids f.(creating) -> acknowledged (front_log f) !! id = Some Running /\ registered f !! id = None).
Proof.
  intros Hs f Hc Hf. destruct (serve_sound es _ Hc (sound_new a now s Hs) Hf) as (G1 & G2 & G3 & _).
  split; [intros id r Hr; by apply G1|]. split; [exact G2|]. intros id Hid. split; [by apply G3|].
  destruct (registered f !! id) as [r|] eqn:E; [|done]. by destruct (G1 id r E).
Qed.
End Watched.

(** ** An adapter that keeps nothing but a table *)
Record Table := mk_table { tb_next : Z; tb_status : strmap SandboxState; tb_log : list SandboxLogEntry }.
Definition table_runtime (id : string) : RuntimeSandbox :=
  mk_runtime_sandbox (mk_runtime_config id "localhost" "table" None None "2026-05-08T00:00:00Z" "2026-05-08T00:05:00Z" 1 512) [].
Definition table_start (t : Table) : Table * result BackendError RuntimeSandbox :=
  let id := "sbx_" +:+ print_dec t.(tb_next) in
  match t.(tb_status) !! id with
  | Some _ => (t, Err (AlreadyExists id))
  | None => (mk_table (t.(tb_next) + 1) (<[id := Running]> t.(tb_status)) t.(tb_log), Ok (table_runtime id))
  end.
Definition table_set {X} (id : string) (s : SandboxState) (x : X) (t : Table) : Table * result BackendError X :=
  match t.(tb_status) !! id with
  | None => (t, Err (NotFound id))
  | Some _ => (mk_table t.(tb_next) (<[id := s]> t.(tb_status)) t.(tb_log), Ok x)
  end.
Definition table_stop (id : string) (t : Table) : Table * result BackendError unit :=
  match t.(tb_status) !! id with
  | None => (t, Err (NotFound id))
  | Some _ => (mk_table t.(tb_next) (delete id t.(tb_status)) t.(tb_log), Ok tt)
  end.
#[export] Instance table_adapter : RuntimeAdapter Table := {|
  ra_preflight t := (t, Ok (mk_capabilities "table" [] []));
  ra_prepare_template rq t := (t, Ok (mk_prepared "table" "table" "" true None));
  ra_build_template := default_build_template;
  ra_start rq t := table_start t;
  ra_start_followup rq s t := table_start t;
  ra_start_pod := default_start_pod;
  ra_stop_pod := default_stop_pod;
  ra_add_pod_container := default_add_pod_container;
  ra_remove_pod_container := default_remove_pod_container;
  ra_wait_pod_container := default_wait_pod_container;
  ra_stop := table_stop;
  ra_pause id t := table_set id Paused (mk_paused id None) t;
  ra_resume p t := table_set p.(pd_sandbox_id) Running (table_runtime p.(pd_sandbox_id)) t;
  ra_snapshot id name t := (t, Ok (mk_snapshot_ref (default id name) (Some "/snap"%string) None));
  ra_delete_snapshot := default_delete_snapshot;
  ra_metrics id t := (t, Ok []);
  ra_logs id t := (t, Ok (mk_logs t.(tb_log)));
  ra_apply_network id p t := (t, Err (Runtime "no network policy"));
  ra_port_target id port t := (t, Ok (Tcp "127.0.0.1" port))
|}.
(** Bodies whose contents do not matter, and a state that decodes to itself. *)
#[export] Instance demo_wire : WireJson := {|
  from_slice k b :=
    match k with
    | KCreate => Ok create_request_default
    | KConnect => Ok (mk_connect_request 60)
    | KSnapshot => Ok (mk_snapshot_request (Some "snap"%string))
    | KTimeout => Ok (mk_timeout_request 900)
    | KVolumeCreate => Ok (mk_volume_request "data")
    | KBuild => Ok (mk_build_request (Some "web"%string) [] None None)
    | _ => Err "unsupported body"%string
    end;
  to_vec v := Ok []
|}.
Definition demo_state_json (v : VersionedLocalRuntimeState) : StateJson := {|
  versioned_to_vec _ := Ok [0];
  parse_value _ := Ok (JObject [("schema"%string, JString LOCAL_RUNTIME_STATE_SCHEMA)]);
  versioned_from_value _ := Ok v;
  state_from_value _ := Ok v.(versioned_state)
|}.
Definition no_state : VersionedLocalRuntimeState :=
  versioned_new (mk_state Sandboxes.new Pods.new (Templates.new "") Volumes.new).
Definition empty_table : Table := mk_table 1 ∅ [].
Definition table_server : Front (Observed Table) :=
  mk_front (server_new (backend_new (observe empty_table) "now") (mk_world ∅ [])) [].
Definition http (method path : string) : Event := EvHttp (mk_env 1 1 []) (mk_http method (Some path) ∅ (Ok [123; 125])).
Definition next (i : nat) : Event := EvAdvance i (mk_env 1 1 []).
Definition begin_default : Event := EvBegin create_request_default.
(** Two creations at once; the first is registered and paused while the second
    has its sandbox but is not registered. *)
Definition demo_events : list Event :=
  [begin_default; begin_default; next 1; next 1; next 1; next 0; http "POST" "/sandboxes/sbx_1/pause";
   http "POST" "/sandboxes"; http "DELETE" "/sandboxes/sbx_3"; http "DELETE" "/sandboxes/nowhere"; EvTick "2026-05-08T00:01:00Z" (mk_env 1 1 [])].
Lemma registry_matches_answers_witness :
  let _ := demo_state_json no_state in
  let f := serve table_server demo_events in
  stage_ids f.(creating) = ["sbx_2"%string] /\ registered f !! "sbx_2"%string = None /\
  state_of <$> registered f = {["sbx_1"%string := Paused]} /\
  acknowledged (front_log f) !! "sbx_1"%string = Some Paused /\ acknowledged (front_log f) !! "sbx_2"%string = Some Running.
Proof.
  intros sj f.
  destruct (registry_matches_answers empty_table "now" table_server.(front) demo_events ltac:(reflexivity)
    ltac:(vm_compute; reflexivity) ltac:(vm_compute; reflexivity)) as (Hreg & _ & Hpend).
  split; [vm_compute; reflexivity|]. split; [apply (Hpend "sbx_2"%string); vm_compute; left|]. split; [vm_compute; reflexivity|].
  split; [|apply (Hpend "sbx_2"%string); vm_compute; left].
  assert (Hst : state_of <$> registered f !! "sbx_1"%string = Some Paused) by (vm_compute; reflexivity).
  destruct (registered f !! "sbx_1"%string) as [r|] eqn:E; [|discriminate Hst]. injection Hst as <-. exact (Hreg _ r E).
Defined.
(** Acting on a sandbox before its creation is answered: a deletion that the
    registry refuses stops it, and the creation then lists it. *)
Example delete_during_create :
  let _ := demo_state_json no_state in
  let f := serve table_server [begin_default; next 0; http "DELETE" "/sandboxes/sbx_1"; next 0; next 0] in
  state_of <$> registered f !! "sbx_1"%string = Some Running /\ acknowledged (front_log f) = ∅ /\
  f.(front).(srv_backend).(adapter).(watched).(tb_status) = ∅.
Proof. vm_compute. done. Qed.
