(* ===== verification/E2bDurable.v ===== *)
(** * Durable state and stable routes of the control plane

    The state file is replaced as a whole or not at all, so that a change the
    server acknowledged can be loaded again; requests that only read change
    nothing but cached observations; and the paths clients build reach the
    operations they name. *)
From S2P Require Import Prelude BTree Types HostPaths HostFs E2bWire E2bRoutes E2bRegistry E2bServer E2bServerInv.
Import Network.

(** ** The state file *)
Lemma sidecar_ne path n suffix : path_file_name path = Some n -> state_sidecar_path path suffix <> path.
Proof.
  intros Hn. destruct (file_name_sound _ _ Hn) as (_ & _ & _ & Hp). unfold state_sidecar_path, with_file_name. rewrite Hn.
  cbn [default from_option]. intros Heq. rewrite Hp in Heq at 2. apply append_inj_l in Heq.
  apply (f_equal String.length) in Heq. rewrite !length_append in Heq. cbn in Heq. lia.
Qed.
Section Save.
Context (path n : string) (Hname : path_file_name path = Some n).
Let lock := state_sidecar_path path "lock".

Lemma leaves_attempt {X} p (m : HM host_error X) : leaves p m -> leaves p (io_attempt m).
Proof. intros Hm w. unfold io_attempt. specialize (Hm w). by destruct (m w). Qed.
Lemma leaves_call_some p : leaves p (call io Some).
Proof. apply leaves_call. by intros m m' [= <-]. Qed.
Lemma leaves_let_go p l : p <> l -> leaves p (let_go l).
Proof. intros Hp w. cbn. by rewrite lookup_delete_ne. Qed.
#[local] Hint Resolve leaves_attempt leaves_call_some leaves_let_go : firkin.
Lemma leaves_acquire_loop p l pid released attempts : p <> l -> leaves p (acquire_loop l pid released attempts).
Proof.
  intros Hp. revert released. induction attempts as [|k IH]; intros released; cbn [acquire_loop]; [done|].
  apply leaves_bind; [by auto with firkin|]. intros [u|e].
  - apply leaves_bind; auto with firkin.
  - destruct (host_kind e); try done. apply leaves_bind; [|auto]. destruct (default false _); auto with firkin.
Qed.
Lemma leaves_acquire p env : p <> lock -> leaves p (acquire path env).
Proof. intros Hp. apply leaves_bind; [by apply leaves_acquire_loop|auto with firkin]. Qed.
Lemma leaves_remove_quietly p l : p <> l -> leaves p (remove_quietly l).
Proof. intros Hp. apply leaves_bind; auto with firkin. Qed.

(** Writing a new file beside [path] and renaming it. *)
Lemma write_new_spec tmp b w : tmp <> path ->
  match write_new tmp path b w with
  | (w', Ok _) => w'.(files) !! path = Some b
  | (w', Err _) => w'.(files) !! path = w.(files) !! path
  end.
Proof.
  intros Htmp. unfold write_new. rewrite bind_hm. pose proof (leaves_create_new io path tmp ltac:(done) w) as Hc.
  destruct (create_new io tmp w) as [w1 [u1|e1]]; [|done]. rewrite bind_hm.
  pose proof (leaves_write io path tmp b ltac:(done) w1) as Hw.
  destruct (write_contents io tmp b w1) as [w2 [u2|e2]] eqn:E2; cbn [fst] in *; [|congruence].
  apply write_success in E2. rewrite bind_hm. pose proof (leaves_call_some path w2) as Hs. pose proof (leaves_call_some tmp w2) as Ht.
  destruct (call io Some w2) as [w3 [u3|e3]]; cbn [fst] in *; [|congruence].
  destruct (rename io tmp path w3) as [w4 [u4|e4]] eqn:E4.
  - apply rename_success in E4 as (x & Hx & ->). rewrite Ht, E2, lookup_insert_eq in Hx. injection Hx as <-. by rewrite lookup_insert_eq.
  - unfold rename in E4. edestruct (call_cases io) as [(w' & e & Ec & Hf)|(m' & fs & Ec & _)]; rewrite Ec in E4; [|done].
    injection E4 as <- <-. rewrite Hf. congruence.
Qed.
Lemma save_spec b env w :
  match atomic_save_state_json path b env w with
  | (w', Ok _) => w'.(files) !! path = Some b
  | (w', Err _) => w'.(files) !! path = w.(files) !! path
  end.
Proof.
  unfold atomic_save_state_json. set (tmp := state_sidecar_path path ("tmp-" +:+ _)).
  assert (Htmp : tmp <> path) by by eapply sidecar_ne. assert (Hlock : lock <> path) by by eapply sidecar_ne.
  rewrite bind_hm. set (mkdir := match path_parent path with Some _ => _ | None => _ end).
  assert (Hm : leaves path mkdir). { unfold mkdir. destruct (path_parent path); [|done]. destruct (is_empty _); auto with firkin. }
  specialize (Hm w). destruct (mkdir w) as [w1 [u1|e1]]; [|done]. cbn [fst] in Hm. rewrite bind_hm.
  pose proof (leaves_acquire path env ltac:(done) w1) as Ha.
  destruct (acquire path env w1) as [w2 [l|e2]] eqn:Eacq; cbn [fst] in *; [|congruence].
  assert (l = lock) as ->. { unfold acquire in Eacq. rewrite bind_hm in Eacq. destruct (acquire_loop _ _ _ _ w1) as [w' [u|e]]; by inversion Eacq. }
  rewrite bind_hm. unfold io_attempt at 1. pose proof (write_new_spec tmp b w2 Htmp) as Hw.
  destruct (write_new tmp path b w2) as [w3 r]. rewrite bind_hm.
  assert (Hc : leaves path (clear_failed tmp r)). { unfold clear_failed. destruct r; [done|]. by apply leaves_remove_quietly. }
  specialize (Hc w3). destruct (clear_failed tmp r w3) as [w4 [u4|e4]] eqn:E4; cbn [fst] in Hc.
  2: { exfalso. clear -E4. unfold clear_failed, remove_quietly in E4. destruct r; [done|]. rewrite bind_hm in E4. unfold io_attempt in E4.
       by destruct (remove_file io tmp w3). }
  rewrite bind_hm. unfold drop_lock. pose proof (leaves_remove_quietly path lock ltac:(done) w4) as Hd.
  destruct (remove_quietly lock w4) as [w5 [u5|e5]] eqn:E5; cbn [fst] in Hd.
  2: { exfalso. clear -E5. unfold remove_quietly in E5. rewrite bind_hm in E5. unfold io_attempt in E5. by destruct (remove_file io lock w4). }
  unfold io_result. destruct r as [u|e]; congruence.
Qed.
(** Files other than the state file and its two sidecars are never touched. *)
Lemma save_leaves_others b env p :
  p <> path -> p <> lock ->
  p <> state_sidecar_path path ("tmp-" +:+ print_dec env.(env_pid) +:+ "-" +:+ print_dec env.(env_nanos)) ->
  leaves p (atomic_save_state_json path b env).
Proof.
  intros Hp Hl Ht. unfold atomic_save_state_json. apply leaves_bind.
  { destruct (path_parent path); [|done]. destruct (is_empty _); auto with firkin. }
  intros _ w. rewrite bind_hm. pose proof (leaves_acquire p env Hl w) as Ha.
  destruct (acquire path env w) as [w2 [l|e2]] eqn:Eacq; cbn [fst] in *; [|done].
  assert (l = lock) as ->. { unfold acquire in Eacq. rewrite bind_hm in Eacq. destruct (acquire_loop _ _ _ _ w) as [w' [u|e]]; by inversion Eacq. }
  rewrite <- Ha. revert w2 Eacq Ha. intros w2 _ _. revert w2. change (leaves p (r ← io_attempt (write_new (state_sidecar_path path ("tmp-" +:+ print_dec (env_pid env) +:+ "-" +:+ print_dec (env_nanos env))) path b);
    _ ← clear_failed (state_sidecar_path path ("tmp-" +:+ print_dec (env_pid env) +:+ "-" +:+ print_dec (env_nanos env))) r; _ ← drop_lock lock; io_result r)).
  apply leaves_bind.
  { apply leaves_attempt. unfold write_new. repeat (apply leaves_bind; [auto with firkin|intros _]). by apply leaves_rename. }
  intros r. apply leaves_bind. { unfold clear_failed. destruct r; [done|]. by apply leaves_remove_quietly. }
  intros _. apply leaves_bind; [by apply leaves_remove_quietly|]. done.
Qed.
End Save.

(** C22: saving the state is all or nothing.  Whatever system call fails, and
    however long the lock is held by another process: if the save succeeds the
    state file holds exactly the new document, otherwise it is as it was; only
    the lock and the temporary file beside it are ever touched besides. *)
Theorem state_save_atomic path n b env w :
  path_file_name path = Some n ->
  match atomic_save_state_json path b env w with
  | (w', Ok _) => w'.(files) !! path = Some b
  | (w', Err _) => w'.(files) !! path = w.(files) !! path
  end /\
  forall p, p <> path -> p <> state_sidecar_path path "lock" ->
    p <> state_sidecar_path path ("tmp-" +:+ print_dec env.(env_pid) +:+ "-" +:+ print_dec env.(env_nanos)) ->
    (atomic_save_state_json path b env w).1.(files) !! p = w.(files) !! p.
Proof.
  intros Hn. split; [by eapply save_spec|]. intros p Hp Hl Ht. by apply save_leaves_others.
Qed.
Definition demo_env : SaveEnv := mk_env 7 1000 [].
Definition disk_full : fault := mk_fault (mk_host_error IoOther "No space left on device") (Some [1]).
Lemma state_save_atomic_witness :
  (atomic_save_state_json "/var/fk/state.json" [5; 6] demo_env
     (mk_world {["/var/fk/state.json"%string := [1; 2]]} [None; None; None; None; None; Some disk_full])).1.(files)
  !! "/var/fk/state.json"%string = Some [1; 2].
Proof.
  destruct (state_save_atomic "/var/fk/state.json" "state.json" [5; 6] demo_env
    (mk_world {["/var/fk/state.json"%string := [1; 2]]} [None; None; None; None; None; Some disk_full]) ltac:(vm_compute; reflexivity)) as [H _].
  vm_compute in H. exact H.
Defined.
(** A lock whose first write fails stays behind, and every later save gives up
    after its fifty attempts. *)
Lemma stale_lock_blocks_saves :
  let w := (atomic_save_state_json "/s.json" [1] demo_env (mk_world ∅ [None; None; Some disk_full])).1 in
  exists e, (atomic_save_state_json "/s.json" [2] demo_env w).2 = Err e /\ e.(host_kind) = IoWouldBlock.
Proof. eexists. vm_compute. split; reflexivity. Qed.

(** ** Acknowledged changes *)
Section Durable.
Context {A : Type} `{RuntimeAdapter A} `{WireJson} `{StateJson}.
Lemma status_of_error e : 400 <= cp_status e.
Proof. destruct e as [| | |[]| |]; cbn; lia. Qed.
Lemma save_load (b : LocalRuntimeBackend A) (a : A) path n env w w' fs :
  path_file_name path = Some n -> json_roundtrips (versioned_new (export_state b)) ->
  save_state_json b path env w = (w', Ok tt) ->
  load_state_json a path (mk_world w'.(files) fs) = (mk_world w'.(files) (tail fs), Ok (from_state a (export_state b))) \/
  exists flt, head fs = Some (Some flt).
Proof.
  intros Hn Hj Hs. destruct (head fs) as [[flt|]|] eqn:Hh; [right; by eauto|left..].
  all: unfold save_state_json in Hs; unfold load_state_json, read_file; cbn [faults files]; rewrite Hh.
  all: unfold export_state_json in Hs; destruct (versioned_to_vec _) as [d|e] eqn:Ed; cbn [map_err] in Hs; [|done].
  all: pose proof (save_spec path n Hn d env w) as Hspec; destruct (atomic_save_state_json path d env w) as [w1 [u|e]]; [|done].
  all: cbn in Hs; injection Hs as <- _; rewrite Hspec; destruct (Hj d Ed) as (j & Hp & Hk & Hv); f_equal.
  all: unfold from_state_json, decode_versioned_local_runtime_state; rewrite Hp; cbn; rewrite Hk; cbn; by rewrite Hv.
Qed.
Lemma respond_success mutates env m (s s' : Server A) rsp path :
  s.(srv_state_path) = Some path -> mutates = true -> respond mutates env m s = (s', rsp) -> rsp.(rsp_status) < 400 ->
  exists w, save_state_json s'.(srv_backend) path env w = (s'.(srv_world), Ok tt).
Proof.
  unfold respond. intros Hp -> Hr Hst. destruct (m _) as [b [r|e]].
  2: { injection Hr as _ <-. pose proof (status_of_error e). cbn in Hst. lia. }
  rewrite Hp in Hr. destruct (save_state_json b path env (srv_world s)) as [w [[]|e]] eqn:Es.
  - injection Hr as <- _. by eauto.
  - injection Hr as _ <-. pose proof (status_of_error (StateStore e)). cbn in Hst. lia.
Qed.

(** C7: a change the server acknowledged survives it.  After a request that may
    change state was answered without an error, a server started from the state
    file, with any adapter, has exactly the registries of the server that
    answered. *)
Theorem acknowledged_change_is_durable env rq (s s' : Server A) rsp cp path n (a : A) :
  s.(srv_state_path) = Some path -> path_file_name path = Some n ->
  convert_http_request rq = Ok cp -> mutates_state cp.(rq_method) = true ->
  handle_http_request env rq s = (s', rsp) -> rsp.(rsp_status) < 400 ->
  json_roundtrips (versioned_new (export_state s'.(srv_backend))) ->
  exists srv, load_persistent a path (mk_world s'.(srv_world).(files) []) = Ok srv /\
    export_state srv.(srv_backend) = export_state s'.(srv_backend) /\ srv.(srv_state_path) = Some path.
Proof.
  intros Hp Hn Hc Hm Hh Hst Hj. unfold handle_http_request in Hh.
  destruct (match srv_api_key s with Some _ => _ | None => _ end).
  { injection Hh as _ <-. cbn in Hst. lia. }
  rewrite Hc, Hm in Hh. apply (respond_success _ _ _ _ _ _ path Hp eq_refl) in Hh as [w Hw]; [|done].
  destruct (save_load _ a path n env w _ [] Hn Hj Hw) as [Hl|[flt Hf]]; [|done].
  unfold load_persistent. rewrite Hl. eexists. split; [done|]. done.
Qed.
End Durable.
Definition durable_server : Server Table := new_persistent (backend_new empty_table "now") "/var/fk/state.json" (mk_world ∅ []).
Definition post_sandbox : HttpRequest := mk_http "POST" (Some "/sandboxes"%string) ∅ (Ok [123; 125]).
Definition after_post : Server Table :=
  let _ := demo_state_json no_state in (handle_http_request demo_env post_sandbox durable_server).1.
Lemma acknowledged_change_is_durable_witness :
  let _ := demo_state_json (versioned_new (export_state after_post.(srv_backend))) in
  exists srv, load_persistent empty_table "/var/fk/state.json" (mk_world after_post.(srv_world).(files) []) = Ok srv /\
    Sandboxes.sandboxes srv.(srv_backend).(sandboxes) = Sandboxes.sandboxes after_post.(srv_backend).(sandboxes).
Proof.
  intros sj. destruct (acknowledged_change_is_durable demo_env post_sandbox durable_server after_post
    (handle_http_request demo_env post_sandbox durable_server).2
    (mk_request Post "/sandboxes" (Some [123; 125]) None) "/var/fk/state.json" "state.json" empty_table
    ltac:(reflexivity) ltac:(vm_compute; reflexivity) ltac:(vm_compute; reflexivity) ltac:(reflexivity)
    ltac:(vm_compute; reflexivity) ltac:(vm_compute; reflexivity)) as (srv & Hl & He & _).
  { intros d _. eexists. split; [reflexivity|]. split; reflexivity. }
  exists srv. split; [exact Hl|]. exact (f_equal (fun st => Sandboxes.sandboxes (st_sandboxes st)) He).
Defined.

(** ** Reading requests *)
(** What a client can read back, without the cached logs and metrics. *)
Definition observed_record (r : Sandboxes.SandboxRecord) : SandboxCreateRequest * ConnectedSandbox * SandboxInfo :=
  (Sandboxes.create_request r, Sandboxes.connected r, Sandboxes.info r).
Definition observed {A} (b : LocalRuntimeBackend A)
  : strmap (SandboxCreateRequest * ConnectedSandbox * SandboxInfo) * strmap Sandboxes.SnapshotRecord *
    Pods.Registry * Templates.Registry * Volumes.Registry :=
  (observed_record <$> Sandboxes.sandboxes b.(sandboxes), Sandboxes.snapshots b.(sandboxes), b.(pods), b.(templates), b.(volumes)).
Section Reads.
Context {A : Type} `{RuntimeAdapter A} `{WireJson} (b0 : LocalRuntimeBackend A).
Definition same (b : LocalRuntimeBackend A) : Prop := observed b = observed b0.
Abbreviation ok := (keeps same).
Lemma reads_adapter {X} (f : A -> A * result BackendError X) : ok (on_adapter f).
Proof. intros b Hb. unfold on_adapter. by destruct (f _). Qed.
Lemma reads_record_mut {X} id (f : Sandboxes.SandboxRecord -> Sandboxes.SandboxRecord * X) :
  (forall r, observed_record (f r).1 = observed_record r) -> ok (reg on_sandboxes (Sandboxes.record_mut id f)).
Proof.
  intros Hf b Hb. unfold reg, mbind, ST_bind, on_sandboxes, Sandboxes.record_mut.
  destruct (Sandboxes.sandboxes (sandboxes b) !! id) as [r|] eqn:E; cbn; [|by destruct b as [? []]].
  unfold same in *. rewrite <- Hb. unfold observed. cbn. rewrite fmap_insert, Hf, insert_id; [done|]. by rewrite lookup_fmap, E.
Qed.
Lemma reads_set_metric id s : ok (reg on_sandboxes (Sandboxes.set_metric id s)).
Proof. by apply reads_record_mut. Qed.
Lemma reads_push_log id e : ok (reg on_sandboxes (Sandboxes.push_log id e)).
Proof. by apply reads_record_mut. Qed.
Lemma reads_backend_get {X} (f : LocalRuntimeBackend A -> result BackendError X) : ok (backend_get f).
Proof. apply st_keeps_wrap_err. by keeps. Qed.
#[local] Hint Resolve reads_adapter reads_set_metric reads_push_log reads_backend_get : keeps.
Lemma reads_push_logs id es : ok (push_logs id es).
Proof. induction es; cbn [push_logs]; by keeps. Qed.
#[local] Hint Resolve reads_push_logs : keeps.
Lemma reads_metrics id : ok (backend_call (refresh_metrics id)).
Proof. unfold backend_call, refresh_metrics. by keeps. Qed.
Lemma reads_logs id : ok (backend_call (refresh_logs id)).
Proof. unfold backend_call, refresh_logs. by keeps. Qed.
#[local] Hint Resolve reads_metrics reads_logs : keeps.
Lemma get_keeps rq : rq.(rq_method) = Get -> ok (handle_control_plane rq).
Proof.
  intros Hm. unfold handle_control_plane. destruct (split_path_query _) as [path query].
  apply st_keeps_bind; [by keeps|]. intros segs. repeat (case_match; [|]); try (by apply st_keeps_throw).
  - unfold handle_pod_control_plane, on_route, no_route, reply. rewrite Hm. by keeps.
  - unfold handle_sandbox_control_plane, on_route, no_route, reply. rewrite Hm. by keeps.
  - unfold handle_template_control_plane, on_route, no_route, reply. rewrite Hm. by keeps.
  - unfold handle_volume_control_plane, on_route, no_route, reply. rewrite Hm. by keeps.
Qed.
End Reads.

(** A GET request only observes.  Whatever its route and whatever the
    adapter answers, pods, templates, volumes and snapshots are unchanged and
    every sandbox keeps its request, connection data and info; only the cached
    logs and metrics of a sandbox may change. *)
Theorem get_requests_only_observe {A} `{RuntimeAdapter A} `{WireJson} rq (b : LocalRuntimeBackend A) :
  rq.(rq_method) = Get -> observed (handle_control_plane rq b).1 = observed b.
Proof. intros Hm. by apply (get_keeps b rq Hm b). Qed.
Definition logging_table : Table := mk_table 1 ∅ [mk_log_entry "t" Info "ready" ∅].
Definition created : LocalRuntimeBackend Table := (create create_request_default (backend_new logging_table "now")).1.
Definition get_logs : ControlPlaneRequest := request_new Get (SandboxRoutes.logs_v2 "sbx_1").
Lemma get_requests_only_observe_witness :
  is_ok (handle_control_plane get_logs created).2 = true /\ observed (handle_control_plane get_logs created).1 = observed created.
Proof. split; [vm_compute; reflexivity|]. apply (get_requests_only_observe get_logs created). reflexivity. Defined.
(** Every read of the logs stores the runtime's whole log once more. *)
Lemma logs_grow_with_every_read :
  (fun b => (fun r => length (logs (Sandboxes.rec_logs r))) <$> Sandboxes.sandboxes b.(sandboxes) !! "sbx_1"%string)
    (handle_control_plane get_logs (handle_control_plane get_logs created).1).1 = Some 2%nat.
Proof. vm_compute. reflexivity. Qed.

(** ** Routes *)
Section Routes.
Context {A : Type} `{RuntimeAdapter A} `{WireJson}.
Lemma dispatch m segs body o :
  segs <> [] -> Forall segment_ok segs ->
  handle_control_plane (A := A) (mk_request m (build_path segs) body o) =
  let rq := mk_request m (build_path segs) body o in
  if is_pod_route segs then handle_pod_control_plane rq segs
  else if is_sandbox_route segs then handle_sandbox_control_plane rq None segs
  else if is_template_route segs then handle_template_control_plane rq segs
  else if is_volume_route segs then handle_volume_control_plane rq segs
  else throw (RouteNotFound (build_path segs)).
Proof.
  intros Hne Hs. unfold handle_control_plane. cbn [rq_path]. rewrite build_path_no_query, build_path_segments by done.
  destruct segs; [done|]. reflexivity.
Qed.
Lemma literal_ok s : is_empty s = false -> is_utf8 s = true -> segment_ok s.
Proof. intros H1 H2. split; [by apply is_empty_false|done]. Qed.
End Routes.
(** The path is built from these segments; dispatch on them. *)
Ltac reach segs :=
  match goal with |- handle_control_plane (mk_request ?m ?p ?bd ?o) = _ =>
    replace p with (build_path segs) by (unfold build_path, PodRoutes.wait_container, PodRoutes.delete_container; rewrite ?append_assoc; reflexivity);
    rewrite (dispatch m segs bd o); [reflexivity|done|repeat (constructor; [first [assumption|by apply literal_ok]|]); constructor]
  end.

(** The paths clients build reach the operations they name.  For every
    sandbox, snapshot, pod or container name that is a non-empty string, however
    it must be escaped, a request to the built path runs exactly the operation
    of its route on exactly that name. *)
Theorem routes_reach_operations {A} `{RuntimeAdapter A} `{WireJson} id name bd o :
  segment_ok id -> segment_ok name ->
  let go m path := handle_control_plane (A := A) (mk_request m path bd o) in
  go Delete (SandboxRoutes.delete id) = (x ← backend_call (delete_sandbox id); deleted id x) /\
  go Post (SandboxRoutes.pause id) = (x ← backend_call (pause id); paused id x) /\
  go Post (SandboxRoutes.resume id) =
    (b ← body KConnect (mk_request Post (SandboxRoutes.resume id) bd o); c ← backend_call (connect id b); reply (RConnected c)) /\
  go Post (SandboxRoutes.create_snapshot id) =
    (b ← body KSnapshot (mk_request Post (SandboxRoutes.create_snapshot id) bd o);
     i ← backend_call (create_snapshot id b); reply (RSnapshot i)) /\
  go Get (SandboxRoutes.metrics id) = (l ← backend_call (refresh_metrics id); reply (RMetrics l)) /\
  go Get (SandboxRoutes.logs_v2 id) = (l ← backend_call (refresh_logs id); reply (RLogs l)) /\
  (id <> "metrics"%string ->
   go Get (SandboxRoutes.get id) = (i ← backend_get (fun b => Sandboxes.get b.(sandboxes) id); reply (RSandbox i))) /\
  (id <> "tags"%string -> go Delete (SandboxRoutes.delete_snapshot id) = delete_template_or_snapshot id) /\
  go Get (PodRoutes.get id) = (i ← backend_get (fun b => Pods.get b.(pods) id); reply (RPod i)) /\
  go Delete (PodRoutes.delete id) = (x ← backend_call (delete_pod id); deleted id x) /\
  go Delete (PodRoutes.delete_container id name) = (_ ← backend_call (delete_pod_container id name); no_content) /\
  go Post (PodRoutes.wait_container id name) = (r ← backend_call (wait_pod_container id name); reply (ROutput r)).
Proof.
  intros Hid Hname go. unfold go. split_and!.
  - reach ["sandboxes"%string; id].
  - reach ["sandboxes"%string; id; "pause"%string].
  - reach ["sandboxes"%string; id; "resume"%string].
  - reach ["sandboxes"%string; id; "snapshots"%string].
  - reach ["sandboxes"%string; id; "metrics"%string].
  - reach ["v2"%string; "sandboxes"%string; id; "logs"%string].
  - intros Hne. replace (SandboxRoutes.get id) with (build_path ["sandboxes"%string; id]) by reflexivity.
    rewrite dispatch; [|done|repeat (constructor; [first [assumption|by apply literal_ok]|]); constructor].
    cbn. apply String.eqb_neq in Hne. by rewrite Hne.
  - intros Hne. replace (SandboxRoutes.delete_snapshot id) with (build_path ["templates"%string; id]) by reflexivity.
    rewrite dispatch; [|done|repeat (constructor; [first [assumption|by apply literal_ok]|]); constructor].
    cbn. apply String.eqb_neq in Hne. by rewrite Hne.
  - reach ["pods"%string; id].
  - reach ["pods"%string; id].
  - reach ["pods"%string; id; "containers"%string; name].
  - reach ["pods"%string; id; "containers"%string; name; "wait"%string].
Qed.
Lemma routes_reach_operations_witness :
  handle_control_plane (A := Table) (mk_request Delete (SandboxRoutes.delete "a/b é") None None)
  = (x ← backend_call (delete_sandbox "a/b é"); deleted "a/b é" x).
Proof.
  assert (H : segment_ok "a/b é") by (split; [done|vm_compute; reflexivity]).
  exact (proj1 (routes_reach_operations (A := Table) "a/b é" "a/b é" None None H H)).
Defined.

(** ** Expiration *)
Section Expiration.
Context {A : Type} `{RuntimeAdapter A}.
Definition auto_pause (r : Sandboxes.SandboxRecord) : bool := default false (Sandboxes.create_request r).(cr_auto_pause).
(** What expiring does to the record of a running sandbox. *)
Definition expired (r : Sandboxes.SandboxRecord) : option Sandboxes.SandboxRecord :=
  if auto_pause r then Some (Sandboxes.with_info (Sandboxes.set_state Paused) r) else None.
Definition table_of (b : LocalRuntimeBackend A) : strmap Sandboxes.SandboxRecord := Sandboxes.sandboxes b.(sandboxes).

Lemma expire_one_spec id (b b' : LocalRuntimeBackend A) e r :
  expire_one id b = (b', Ok e) -> table_of b !! id = Some r -> (Sandboxes.info r).(si_state) = Running ->
  table_of b' = partial_alter (fun _ => expired r) id (table_of b) /\
  e = mk_expiration id (if auto_pause r then ExpirePaused else ExpireDeleted).
Proof.
  unfold expire_one, reg, mbind, ST_bind, gets, lift, on_adapter, on_sandboxes, table_of, Sandboxes.auto_pause_enabled, Sandboxes.record.
  cbn. intros He Hr Hrun. rewrite Hr in He. cbn in He. change (default false _) with (auto_pause r) in He. unfold expired.
  destruct (auto_pause r).
  - destruct (ra_pause id (adapter b)) as [a [p|x]]; [|done]. cbn in He. unfold Sandboxes.pause, Sandboxes.record_mut in He. rewrite Hr, Hrun in He.
    cbn in He. injection He as <- <-. split; [|done]. reflexivity.
  - destruct (ra_stop id (adapter b)) as [a [p|x]]; [|done]. cbn in He. injection He as <- <-. done.
Qed.
Lemma expire_all_spec due (b b' : LocalRuntimeBackend A) es :
  NoDup due -> expire_all due b = (b', Ok es) ->
  Forall (fun id => exists r, table_of b !! id = Some r /\ (Sandboxes.info r).(si_state) = Running) due ->
  (ex_sandbox_id <$> es) = due /\
  forall id, table_of b' !! id = if decide (id ∈ due) then table_of b !! id ≫= expired else table_of b !! id.
Proof.
  revert b es. induction due as [|i due IH]; intros b es Hnd He Hall.
  { injection He as <- <-. split; [done|]. intros id. rewrite decide_False; [done|by apply not_elem_of_nil]. }
  apply NoDup_cons in Hnd as [Hi Hnd]. apply Forall_cons in Hall as [(r & Hr & Hrun) Hall]. cbn [expire_all] in He.
  unfold mbind, ST_bind in He. destruct (expire_one i b) as [b1 [e|x]] eqn:E1; [|done].
  destruct (expire_one_spec _ _ _ _ _ E1 Hr Hrun) as [Ht ->]. destruct (expire_all due b1) as [b2 [es'|x]] eqn:E2; [|done].
  injection He as <- <-.
  assert (Hother : forall id, id <> i -> table_of b1 !! id = table_of b !! id).
  { intros id Hne. rewrite Ht. by rewrite lookup_partial_alter_ne. }
  destruct (IH b1 es' Hnd E2) as [Hids Hlook].
  { apply Forall_forall. intros id Hin. rewrite Forall_forall in Hall. rewrite Hother; [by apply Hall|]. by intros ->. }
  split; [cbn; by rewrite Hids|]. intros id. rewrite Hlook. destruct (decide (id = i)) as [->|Hne].
  - rewrite decide_False by done. rewrite decide_True by (apply list_elem_of_here). rewrite Ht, lookup_partial_alter_eq, Hr. done.
  - rewrite Hother by done. destruct (decide (id ∈ due)) as [Hin|Hin].
    + rewrite decide_True; [done|]. by apply list_elem_of_further.
    + rewrite decide_False; [done|]. rewrite elem_of_cons. tauto.
Qed.

(** An expiration pass that succeeds expires exactly the due sandboxes, each
    once and in key order: those that asked for it are paused, the others are
    gone, and every other record is untouched. *)
Theorem expiration_exact now (b b' : LocalRuntimeBackend A) es :
  expire_due_sandboxes now b = (b', Ok es) ->
  (ex_sandbox_id <$> es) = Sandboxes.due_running_sandboxes b.(sandboxes) now /\ NoDup (ex_sandbox_id <$> es) /\
  forall id, table_of b' !! id =
    r ← table_of b !! id; if Sandboxes.is_due now r then expired r else Some r.
Proof.
  intros He. unfold expire_due_sandboxes, mbind, ST_bind, gets in He.
  set (due := Sandboxes.due_running_sandboxes (sandboxes b) now) in *.
  assert (Hdue : forall id, id ∈ due <-> exists r, table_of b !! id = Some r /\ Sandboxes.is_due now r = true).
  { intros id. unfold due, Sandboxes.due_running_sandboxes. rewrite list_elem_of_fmap. split.
    - intros ([k r] & -> & Hin). apply list_elem_of_In, filter_In in Hin as [Hin Hd]. apply list_elem_of_In, elem_of_entries in Hin. eauto.
    - intros (r & Hr & Hd). exists (id, r). split; [done|]. apply list_elem_of_In, filter_In. split; [|done].
      by apply list_elem_of_In, elem_of_entries. }
  assert (Hnd : NoDup due).
  { unfold due, Sandboxes.due_running_sandboxes. pose proof (NoDup_entries (Sandboxes.sandboxes (sandboxes b))) as Hn.
    induction (entries _) as [|[k r] l IH]; [constructor|]. cbn [fmap list_fmap fst] in Hn. apply NoDup_cons in Hn as [Hk Hn]. cbn [List.filter].
    destruct (Sandboxes.is_due now (k, r).2); [|by apply IH]. cbn [fmap list_fmap fst]. apply NoDup_cons. split; [|by apply IH].
    intros Hin. apply Hk. apply list_elem_of_fmap in Hin as ([k' r'] & -> & Hin). apply list_elem_of_In, filter_In in Hin as [Hin _].
    apply list_elem_of_In in Hin. by apply (list_elem_of_fmap_2 fst) in Hin. }
  destruct (expire_all_spec due b b' es Hnd He) as [Hids Hlook].
  { apply Forall_forall. intros id Hin. apply Hdue in Hin as (r & Hr & Hd). exists r. split; [done|].
    unfold Sandboxes.is_due in Hd. by destruct (si_state (Sandboxes.info r)). }
  rewrite Hids. split_and!; [done|done|]. intros id. rewrite Hlook. destruct (decide (id ∈ due)) as [Hin|Hin].
  - apply Hdue in Hin as (r & Hr & Hd). rewrite Hr. cbn. by rewrite Hd.
  - destruct (table_of b !! id) as [r|] eqn:Hr; [|done]. cbn. destruct (Sandboxes.is_due now r) eqn:Hd; [|done].
    exfalso. apply Hin, Hdue. eauto.
Qed.
(** Setting a timeout reads the deadline and writes it back. *)
Lemma timeout_has_no_effect `{WireJson} id rq (b : LocalRuntimeBackend A) : (keep_deadline id (Sandboxes.set_timeout id rq) b).1 = b.
Proof.
  unfold keep_deadline, backend_get, backend_call, wrap_err, reg, mbind, ST_bind, gets, lift, on_sandboxes, Sandboxes.get,
    Sandboxes.record, Sandboxes.set_timeout, Sandboxes.record_mut. cbn.
  destruct (Sandboxes.sandboxes (sandboxes b) !! id) as [r|] eqn:E; cbn; [|done].
  rewrite insert_id; [by destruct b as [? [] ? ? ?]|]. rewrite E. by destruct r as [? ? [] ? ?].
Qed.
End Expiration.
(** A sandbox whose stop fails keeps those behind it from expiring. *)
Definition due_record (id : string) : Sandboxes.SandboxRecord :=
  let rt := (table_runtime id).(rs_config) in
  Sandboxes.mk_record create_request_default (Sandboxes.new_connected rt) (Sandboxes.new_info create_request_default rt) (mk_logs []) None.
Definition two_due : LocalRuntimeBackend Table :=
  mk_backend (mk_table 9 {["b"%string := Running]} [])
    (Sandboxes.mk_registry {["a"%string := due_record "a"; "b"%string := due_record "b"]} ∅) Pods.new (Templates.new "now") Volumes.new.
Lemma expiration_stops_at_a_failure :
  let '(b, r) := expire_due_sandboxes "2027-01-01T00:00:00Z" two_due in
  r = Err (NotFound "a") /\ tb_status b.(adapter) !! "b"%string = Some Running.
Proof. vm_compute. split; reflexivity. Qed.
(** Time stamps compare as strings: a fraction of a second sorts before [Z]. *)
Lemma fractional_deadline_is_early : Sandboxes.string_le "2026-05-08T00:00:00.9Z" "2026-05-08T00:00:00Z" = true.
Proof. reflexivity. Qed.
Lemma expiration_exact_witness :
  exists b' es, expire_due_sandboxes "2027-01-01T00:00:00Z" created = (b', Ok es) /\
    (ex_sandbox_id <$> es) = ["sbx_1"%string] /\ table_of b' !! "sbx_1"%string = None.
Proof.
  eexists _, _. split; [vm_compute; reflexivity|].
  destruct (expiration_exact (H := table_adapter) "2027-01-01T00:00:00Z" created _ _ ltac:(vm_compute; reflexivity)) as (Hids & _ & Hl).
  split; [reflexivity|]. rewrite Hl. vm_compute. reflexivity.
Defined.
