(* ===== verification/ArtifactFiles.v ===== *)
(** * Snapshot artifacts on disk ([crates/artifacts/src])

    A snapshot artifact is a file with two JSON sidecars: its manifest and an
    integrity record (length and SHA-256).  The functions that write, read and
    verify them run on the files of the host ([HostFs]), any call of which may
    fail.  SHA-256 ([sha2]) and the JSON encoding ([serde_json]) are
    parameters. *)
From S2P Require Import Prelude BTree Types HostPaths HostFs Artifacts Hygiene.

(** [serde_json::to_vec_pretty] and [from_slice], errors by their text. *)
Class Serde (A : Type) := {
  serialize : A -> result string (list Z);
  deserialize : list Z -> result string A
}.
(** A value that was serialized is read back. *)
Class SerdeRoundtrip (A : Type) `{Serde A} : Prop :=
  serde_roundtrip : forall a : A, exists d, serialize a = Ok d /\ deserialize d = Ok a.
(** Serialization does not fail. *)
Class SerdeTotal (A : Type) `{Serde A} : Prop := serde_total : forall a : A, exists d, serialize a = Ok d.
(** [sha2::Sha256::digest]. *)
Class Sha256 := sha256_digest : list Z -> list Z.

(** A call whose error the caller wraps. *)
Definition hm_res {E A} (r : result E A) : HM E A := fun w => (w, r).
Definition read_bytes {E} (op : host_error -> E) (p : string) : HM E (list Z) :=
  r ← read_file p; hm_res (map_err op r).

(** ** Manifests *)
Inductive SnapshotArtifactManifestError :=
| ManifestIo (operation path : string) (source : host_error)
| ManifestJson (path source : string).
Definition manifest_error_text (e : SnapshotArtifactManifestError) : string :=
  match e with
  | ManifestIo operation path source =>
      "snapshot artifact manifest filesystem operation failed while " +:+ operation +:+ " at " +:+ path +:+ ": "
        +:+ host_message source
  | ManifestJson path source =>
      "snapshot artifact manifest JSON operation failed at " +:+ path +:+ ": " +:+ source
  end.
Definition manifest_sidecar_path (artifact : string) : string := with_extension artifact "manifest.json".
Section Manifests.
Context `{Serde SnapshotArtifactManifest}.
Definition manifest_write_json (m : SnapshotArtifactManifest) (p : string) : HM SnapshotArtifactManifestError unit :=
  bytes ← hm_res (map_err (ManifestJson p) (serialize m));
  write_contents (ManifestIo "write manifest JSON" p) p bytes.
Definition manifest_read_json (p : string) : HM SnapshotArtifactManifestError SnapshotArtifactManifest :=
  bytes ← read_bytes (ManifestIo "read manifest JSON" p) p;
  hm_res (map_err (ManifestJson p) (deserialize bytes)).

(** The order of the paths in one directory. *)
Definition path_le (a b : string) : Prop := kcmp a b <> Gt.
#[global] Instance path_le_dec : RelDecision path_le.
Proof. intros a b. unfold path_le. destruct (kcmp a b); [left|left|right]; congruence. Defined.
(** What [fs::read_dir] yields: the path of an entry and whether its metadata
    say it is a file. *)
Record ManifestEntry := mk_manifest_entry { me_path : string; me_is_file : result host_error bool }.
Fixpoint manifest_sidecars (root : string) (entries : list (result host_error ManifestEntry)) (acc : list string)
  : result SnapshotArtifactManifestError (list string) :=
  match entries with
  | [] => Ok acc
  | entry :: entries =>
      e ← map_err (ManifestIo "read manifest directory entry" root) entry;
      is_file ← map_err (ManifestIo "stat manifest sidecar" e.(me_path)) e.(me_is_file);
      manifest_sidecars root entries
        (if is_file && Gc.is_snapshot_manifest_sidecar e.(me_path) then acc ++ [e.(me_path)] else acc)
  end.
Fixpoint read_all (paths : list string) : HM SnapshotArtifactManifestError (list SnapshotArtifactManifest) :=
  match paths with
  | [] => mret []
  | p :: paths => m ← manifest_read_json p; ms ← read_all paths; mret (m :: ms)
  end.
Definition manifest_read_json_dir (root : string)
    (listing : result host_error (list (result host_error ManifestEntry)))
  : HM SnapshotArtifactManifestError (list SnapshotArtifactManifest) :=
  entries ← hm_res (map_err (ManifestIo "read manifest directory" root) listing);
  sidecars ← hm_res (manifest_sidecars root entries []);
  read_all (merge_sort path_le sidecars).
End Manifests.

(** ** Integrity records *)
Record SnapshotArtifactIntegrity := mk_artifact_integrity { ai_size_bytes : Z; ai_sha256_hex : string }.
#[global] Instance SnapshotArtifactIntegrity_eq_dec : EqDecision SnapshotArtifactIntegrity.
Proof. solve_decision. Defined.
Inductive SnapshotArtifactIntegrityError :=
| IntegrityIo (operation : string) (source : host_error)
| SizeMismatch (expected actual : Z)
| Sha256Mismatch (expected actual : string)
| IntegrityJson (path source : string).
Definition integrity_error_text (e : SnapshotArtifactIntegrityError) : string :=
  match e with
  | IntegrityIo operation source =>
      "snapshot artifact integrity filesystem operation failed while " +:+ operation +:+ ": " +:+ host_message source
  | SizeMismatch expected actual =>
      "snapshot artifact size mismatch: expected " +:+ print_dec expected +:+ ", actual " +:+ print_dec actual
  | Sha256Mismatch _ _ => "snapshot artifact sha256 mismatch"
  | IntegrityJson path source =>
      "snapshot artifact integrity JSON operation failed at " +:+ path +:+ ": " +:+ source
  end.
Definition integrity_sidecar_path (artifact : string) : string := with_extension artifact "integrity.json".
(** [{byte:02x}]. *)
Definition lower_hex (n : Z) : ascii := ascii_of_N (Z.to_N (if n <? 10 then 48 + n else 87 + n)).
Definition hex_byte (b : Z) : string := String (lower_hex (b / 16)) (String (lower_hex (b mod 16)) EmptyString).
Definition hex_bytes (bs : list Z) : string := foldr (fun b s => hex_byte b +:+ s) EmptyString bs.
Section Integrity.
Context `{Sha256, Serde SnapshotArtifactIntegrity}.
Definition sha256_hex (bytes : list Z) : string := hex_bytes (sha256_digest bytes).
(** The record of given contents. *)
Definition integrity_of (bytes : list Z) : SnapshotArtifactIntegrity :=
  mk_artifact_integrity (Z.of_nat (length bytes)) (sha256_hex bytes).
Definition integrity_from_file (m : SnapshotArtifactManifest) : HM SnapshotArtifactIntegrityError SnapshotArtifactIntegrity :=
  bytes ← read_bytes (IntegrityIo "read snapshot artifact") (path m);
  mret (integrity_of bytes).
Definition integrity_write_json (i : SnapshotArtifactIntegrity) (p : string) : HM SnapshotArtifactIntegrityError unit :=
  bytes ← hm_res (map_err (IntegrityJson p) (serialize i));
  write_contents (IntegrityIo "write snapshot artifact integrity JSON") p bytes.
Definition integrity_read_json (p : string) : HM SnapshotArtifactIntegrityError SnapshotArtifactIntegrity :=
  bytes ← read_bytes (IntegrityIo "read snapshot artifact integrity JSON") p;
  hm_res (map_err (IntegrityJson p) (deserialize bytes)).
Definition integrity_matches (expected current : SnapshotArtifactIntegrity) : result SnapshotArtifactIntegrityError unit :=
  if negb (current.(ai_size_bytes) =? expected.(ai_size_bytes))
  then Err (SizeMismatch expected.(ai_size_bytes) current.(ai_size_bytes))
  else if negb (String.eqb current.(ai_sha256_hex) expected.(ai_sha256_hex))
  then Err (Sha256Mismatch expected.(ai_sha256_hex) current.(ai_sha256_hex))
  else Ok tt.
Definition integrity_verify (i : SnapshotArtifactIntegrity) (m : SnapshotArtifactManifest)
  : HM SnapshotArtifactIntegrityError unit :=
  current ← integrity_from_file m;
  hm_res (integrity_matches i current).

(** ** Writing both sidecars ([runtime/src/restore.rs])

    The error is the boxed source error: its text. *)
Context `{Serde SnapshotArtifactManifest}.
Definition hm_map_err {E F A} (f : E -> F) (m : HM E A) : HM F A := fun w => let '(w, r) := m w in (w, map_err f r).
Definition write_snapshot_artifact_sidecars (m : SnapshotArtifactManifest) : HM string unit :=
  _ ← hm_map_err manifest_error_text (manifest_write_json m (manifest_sidecar_path (path m)));
  i ← hm_map_err integrity_error_text (integrity_from_file m);
  hm_map_err integrity_error_text (integrity_write_json i (integrity_sidecar_path (path m))).
End Integrity.

(** ** What verification means *)
Section Verification.
Context `{Sha256, Serde SnapshotArtifactIntegrity, Serde SnapshotArtifactManifest}.

Lemma hex_byte_inj a b : 0 <= a < 256 -> 0 <= b < 256 -> hex_byte a = hex_byte b -> a = b.
Proof.
  intros Ha Hb [= E1 E2].
  assert (Hinj : forall x y, 0 <= x < 16 -> 0 <= y < 16 -> lower_hex x = lower_hex y -> x = y).
  { intros x y Hx Hy E. unfold lower_hex in E.
    apply (f_equal N_of_ascii) in E.
    destruct (x <? 10) eqn:?, (y <? 10) eqn:?; rewrite !N_ascii_embedding in E by lia; lia. }
  pose proof (Z.div_mod a 16 ltac:(lia)). pose proof (Z.div_mod b 16 ltac:(lia)).
  pose proof (Z.mod_pos_bound a 16 ltac:(lia)). pose proof (Z.mod_pos_bound b 16 ltac:(lia)).
  assert (a mod 16 = b mod 16) by (apply Hinj; [lia..|done]).
  assert (a / 16 = b / 16); [|lia]. apply Hinj; [split; [apply Z.div_pos|apply Z.div_lt_upper_bound]; lia..|done].
Qed.
Lemma hex_bytes_inj l : forall k,
  Forall (in_uint 8) l -> Forall (in_uint 8) k -> hex_bytes l = hex_bytes k -> l = k.
Proof.
  induction l as [|a l IH]; intros [|b k] Hl Hk E; try done.
  apply Forall_cons in Hl as [Ha Hl], Hk as [Hb Hk]. unfold hex_bytes in E. cbn [foldr] in E.
  unfold hex_byte in E. cbn in E. injection E as E1 E2 E3. f_equal; [|by apply IH].
  apply hex_byte_inj; [done..|]. unfold hex_byte. by rewrite E1, E2.
Qed.

Lemma integrity_matches_ok i c : integrity_matches i c = Ok tt <-> c = i.
Proof.
  unfold integrity_matches. destruct i as [s h], c as [s' h']. cbn.
  destruct (s' =? s) eqn:E1; cbn; [|split; [done|intros [= -> ->]; lia]].
  destruct (String.eqb_spec h' h); cbn; split; try done; [intros _; f_equal; [lia|done]|congruence].
Qed.
(** A verified artifact has the contents its record was made from, unless two
    contents of the same length share their digest. *)
Lemma verify_ok w i m w' :
  integrity_verify i m w = (w', Ok tt) ->
  w'.(files) = w.(files) /\ exists bytes, w.(files) !! path m = Some bytes /\ i = integrity_of bytes.
Proof.
  unfold integrity_verify, integrity_from_file, read_bytes, read_file, hm_res.
  rewrite !bind_hm. cbn. destruct (head (faults w)) as [[flt|]|]; cbn; [by intros [= <-]|..];
    (destruct (files w !! path m) as [bytes|] eqn:Ef; cbn; [|by intros [= <-]]);
    cbn; intros [= <- E]; (split; [done|]); exists bytes; (split; [done|]);
    by apply integrity_matches_ok in E as ->.
Qed.
Lemma verify_runs m fs bytes i :
  fs !! path m = Some bytes ->
  integrity_verify i m (mk_world fs []) = (mk_world fs [], integrity_matches i (integrity_of bytes)).
Proof.
  intros Ef. unfold integrity_verify, integrity_from_file, read_bytes, read_file, hm_res. rewrite !bind_hm. cbn.
  rewrite Ef. done.
Qed.
End Verification.
