(* ===== verification/Trace.v ===== *)
(** * Traces and benchmark samples ([crates/trace/src])

    [Events]: the bounded timeline of one sandbox operation.  [Samples]: tags
    and samples.  [Recorders]: the recorder that keeps a bounded number of
    samples, its spans and checkpoints.  The value of a sample is a float in
    the source; here it is an elapsed time in nanoseconds or an opaque bit
    pattern. *)
From S2P Require Import Prelude BTree.

(** ** Event traces ([events.rs]) *)
Module Events.
Inductive SandboxEventName :=
| RequestStart | AgentComputerRequestStart | AgentComputerSandboxCreated | AgentComputerProbeStart
| TemplateLookupDone | PoolLeaseRequested | PoolLeaseAcquired | SnapshotRestoreStart | SnapshotRestoreDone
| VzStartCalled | GuestAgentConnected | LocalReadyFlagChecked | GuestAgentPingPassed | NetworkReady | DnsReady
| WorkspaceReady | CgroupsReady | ReadyProbePassed | ExecRequestSent | ProcessStarted | FirstStdoutByte
| CliFirstUsefulStdout | BrowserReady | DatabaseReady | AgentComputerReady | AgentComputerSuspended
| AgentComputerResumed | PressureDetected | SafeFloorRestored | ReadyTargetRestored | AutoscaleDecisionMade
| AutoscaleActionStarted | AutoscaleActionDone | ProcessExited | CleanupStart | FstrimStart | FstrimDone
| CleanupDone.
#[global] Instance SandboxEventName_eq_dec : EqDecision SandboxEventName.
Proof. solve_decision. Defined.
Inductive LifecycleClass := ColdUnprepared | ColdPrepared | Warm | Hot | Resumed.
Inductive WorkloadClass :=
| TinyExec | DirectExec | ShellExec | Batch100Execs | WorkspaceImportSmall | RepoGitStatus | CargoBuildSmall
| NpmInstallSmall | DiskBloatReclaim | ConcurrentCreate | ReadinessProbe | AgentComputer | AutoscaleScenario.
#[global] Instance WorkloadClass_eq_dec : EqDecision WorkloadClass.
Proof. solve_decision. Defined.
Inductive RuntimeProfile := FastAgent | DiskReclaim | Density | BrowserDbCli.
Inductive TraceOutcome := Success | Error | Blocked.
Definition is_success (o : TraceOutcome) : bool := match o with Success => true | _ => false end.
Inductive SandboxFailureClass :=
| BootFailure | AgentFailure | GuestAgentCrash | WorkspaceMissing | ExecProbeFailed | DnsProbeFailed | OomKill
| SidecarFailure | CapacityRejected | PressureRefusal | Timeout | Unknown.
Inductive SandboxEventRole := Headline | DebugDuplicate.
#[global] Instance SandboxEventRole_eq_dec : EqDecision SandboxEventRole.
Proof. solve_decision. Defined.

Record SandboxTraceEvent := mk_event {
  ev_name : SandboxEventName;
  host_monotonic_ns : Z;
  ev_lifecycle : LifecycleClass;
  ev_workload : WorkloadClass;
  ev_profile : RuntimeProfile;
  ev_outcome : TraceOutcome;
  ev_failure_class : option SandboxFailureClass;
  ev_role : SandboxEventRole
}.
Definition with_outcome (name : SandboxEventName) (ns : Z) (l : LifecycleClass) (w : WorkloadClass) (p : RuntimeProfile)
    (o : TraceOutcome) (f : option SandboxFailureClass) : SandboxTraceEvent :=
  mk_event name ns l w p o f Headline.
Definition event_new (name : SandboxEventName) (ns : Z) (l : LifecycleClass) (w : WorkloadClass) (p : RuntimeProfile)
  : SandboxTraceEvent := mk_event name ns l w p Success None Headline.
Definition mark_debug_duplicate (e : SandboxTraceEvent) : SandboxTraceEvent :=
  mk_event e.(ev_name) e.(host_monotonic_ns) e.(ev_lifecycle) e.(ev_workload) e.(ev_profile) e.(ev_outcome)
    e.(ev_failure_class) DebugDuplicate.

Definition DEFAULT_EVENT_TRACE_CAP : Z := 1024.
Record SandboxEventTrace := mk_trace { events : list SandboxTraceEvent; overflowed : Z; event_cap : Z }.
Definition with_event_cap (cap : Z) : SandboxEventTrace := mk_trace [] 0 cap.
Definition trace_new : SandboxEventTrace := with_event_cap DEFAULT_EVENT_TRACE_CAP.
(** The successful headline event of a name. *)
Definition headline (name : SandboxEventName) (e : SandboxTraceEvent) : bool :=
  bool_decide (e.(ev_name) = name) && is_success e.(ev_outcome) && bool_decide (e.(ev_role) = Headline).
Definition push (t : SandboxEventTrace) (e : SandboxTraceEvent) : SandboxEventTrace :=
  if t.(event_cap) <=? Z.of_nat (length t.(events))
  then mk_trace t.(events) (sat_add 64 t.(overflowed) 1) t.(event_cap)
  else
    let e := if is_success e.(ev_outcome) && existsb (headline e.(ev_name)) t.(events)
             then mark_debug_duplicate e else e in
    mk_trace (t.(events) ++ [e]) t.(overflowed) t.(event_cap).
Fixpoint find_event (f : SandboxTraceEvent -> bool) (l : list SandboxTraceEvent) : option SandboxTraceEvent :=
  match l with [] => None | e :: l => if f e then Some e else find_event f l end.
Definition headline_event (t : SandboxEventTrace) (name : SandboxEventName) : option SandboxTraceEvent :=
  find_event (headline name) t.(events).

Inductive SandboxEventTraceError :=
| MissingEvent (name : SandboxEventName)
| EventOrder (start end_ : SandboxEventName)
| DurationOverflow (start end_ : SandboxEventName) (nanos : Z).
(** The duration in nanoseconds. *)
Definition duration_between (t : SandboxEventTrace) (start end_ : SandboxEventName) : result SandboxEventTraceError Z :=
  start_event ← ok_or (MissingEvent start) (headline_event t start);
  end_event ← ok_or (MissingEvent end_) (headline_event t end_);
  let delta := end_event.(host_monotonic_ns) - start_event.(host_monotonic_ns) in
  if delta <? 0 then Err (EventOrder start end_)
  else if max_uint 64 <? delta then Err (DurationOverflow start end_ delta)
  else Ok delta.

(** The recorder: every event is stamped with the time since the origin, which
    the caller passes as [now]. *)
Record EventTraceRecorder := mk_recorder {
  er_trace : SandboxEventTrace;
  er_lifecycle : LifecycleClass;
  er_workload : WorkloadClass;
  er_profile : RuntimeProfile
}.
Definition recorder_new (l : LifecycleClass) (w : WorkloadClass) (p : RuntimeProfile) : EventTraceRecorder :=
  mk_recorder trace_new l w p.
Definition record_with_outcome (r : EventTraceRecorder) (name : SandboxEventName) (o : TraceOutcome)
    (f : option SandboxFailureClass) (now : Z) : EventTraceRecorder :=
  mk_recorder (push r.(er_trace) (with_outcome name now r.(er_lifecycle) r.(er_workload) r.(er_profile) o f))
    r.(er_lifecycle) r.(er_workload) r.(er_profile).
Definition record (r : EventTraceRecorder) (name : SandboxEventName) (now : Z) : EventTraceRecorder :=
  record_with_outcome r name Success None now.
Definition with_workload (r : EventTraceRecorder) (w : WorkloadClass) : EventTraceRecorder :=
  mk_recorder r.(er_trace) r.(er_lifecycle) w r.(er_profile).
Definition has_recorded_events (r : EventTraceRecorder) : bool :=
  match r.(er_trace).(events) with [] => false | _ => true end.
Definition finish (r : EventTraceRecorder) : SandboxEventTrace := r.(er_trace).
End Events.

(** ** Samples and tags ([lib.rs]) *)
Module Samples.
Inductive BenchmarkMetricKind := LifecycleLatency | FirkinOverhead | WorkloadResource.
#[global] Instance BenchmarkMetricKind_eq_dec : EqDecision BenchmarkMetricKind.
Proof. solve_decision. Defined.
Inductive BenchmarkUnit :=
| Milliseconds | Microseconds | Percent | Mebibytes | Hertz | Bytes | Count | CountPerSecond | OperationsPerSecond
| BytesPerSecond | MebibytesPerSecond | Iops | Ratio.
Inductive SampleValue := Elapsed (nanos : Z) | Float (bits : Z).
Inductive RecorderError :=
| NoRuntime
| TagLimitExceeded (key : string)
| Closed.
Definition MAX_SHARED_TAGS : Z := 32.
Definition MAX_SAMPLE_TAGS : Z := 16.
Definition MAX_TAG_KEY_BYTES : Z := 64.
Definition MAX_TAG_VALUE_BYTES : Z := 256.
Definition len (s : string) : Z := Z.of_nat (String.length s).
Definition validate_tag_str (key value : string) : result string unit :=
  if is_empty key || (MAX_TAG_KEY_BYTES <? len key)
  then Err ("invalid tag key length: maximum " +:+ print_dec MAX_TAG_KEY_BYTES +:+ ", actual " +:+ print_dec (len key))
  else if MAX_TAG_VALUE_BYTES <? len value
  then Err ("invalid tag value length: maximum " +:+ print_dec MAX_TAG_VALUE_BYTES +:+ ", actual " +:+ print_dec (len value))
  else Ok tt.
Definition validate_tag (key value : string) (e : RecorderError) : result RecorderError unit :=
  map_err (fun _ => e) (validate_tag_str key value).

(** [SampleTags]: in the order of insertion. *)
Abbreviation SampleTags := (list (string * string)).
Fixpoint tag_value (key : string) (tags : SampleTags) : option string :=
  match tags with [] => None | (k, v) :: tags => if String.eqb k key then Some v else tag_value key tags end.
Fixpoint set_tag (key value : string) (tags : SampleTags) : SampleTags :=
  match tags with
  | [] => []
  | (k, v) :: tags => if String.eqb k key then (k, value) :: tags else (k, v) :: set_tag key value tags
  end.
Definition push_tag (tags : SampleTags) (key value : string) (e : RecorderError) : SampleTags * result RecorderError unit :=
  match validate_tag key value e with
  | Err e => (tags, Err e)
  | Ok _ =>
      if bool_decide (is_Some (tag_value key tags)) then (set_tag key value tags, Ok tt)
      else if MAX_SAMPLE_TAGS <=? Z.of_nat (length tags) then (tags, Err e)
      else (tags ++ [(key, value)], Ok tt)
  end.
(** The result of [push] is dropped by every caller of these two. *)
Definition add_tag (tags : SampleTags) (key value : string) : SampleTags :=
  (push_tag tags key value (TagLimitExceeded key)).1.

Record BenchmarkSample := mk_sample {
  metric : string;
  sample_kind : BenchmarkMetricKind;
  sample_unit : BenchmarkUnit;
  sample_value : SampleValue;
  sample_tags : SampleTags
}.
Definition sample_new (metric : string) (k : BenchmarkMetricKind) (u : BenchmarkUnit) (v : SampleValue) : BenchmarkSample :=
  mk_sample metric k u v [].
Definition with_tags (s : BenchmarkSample) (tags : SampleTags) : BenchmarkSample :=
  mk_sample s.(metric) s.(sample_kind) s.(sample_unit) s.(sample_value) tags.
Definition with_tag (s : BenchmarkSample) (key value : string) : BenchmarkSample :=
  with_tags s (add_tag s.(sample_tags) key value).
(** A latency in milliseconds, the form the runtime records. *)
Definition latency (metric : string) (nanos : Z) : BenchmarkSample :=
  sample_new metric LifecycleLatency Milliseconds (Elapsed nanos).
(** Reading tags back: [serde] gives them as an ordered map. *)
Fixpoint check_tags (tags : list (string * string)) : result string unit :=
  match tags with [] => Ok tt | (k, v) :: tags => _ ← validate_tag_str k v; check_tags tags end.
Definition from_owned_map (tags : gmap string string) : result string SampleTags :=
  let l := entries tags in
  if MAX_SAMPLE_TAGS <? Z.of_nat (length l)
  then Err ("too many sample tags: maximum " +:+ print_dec MAX_SAMPLE_TAGS +:+ ", actual " +:+ print_dec (Z.of_nat (length l)))
  else _ ← check_tags l; Ok l.

(** [Tags]: the tags shared by all samples. *)
Definition tags_insert (tags : gmap string string) (key value : string) : result RecorderError (gmap string string) :=
  _ ← validate_tag key value (TagLimitExceeded key);
  if bool_decide (tags !! key = None) && (MAX_SHARED_TAGS <=? Z.of_nat (size tags))
  then Err (TagLimitExceeded key)
  else Ok (<[key := value]> tags).
Inductive SampleClass := Lifecycle | Gauge.
#[global] Instance SampleClass_eq_dec : EqDecision SampleClass.
Proof. solve_decision. Defined.
Definition for_sample (s : BenchmarkSample) : SampleClass :=
  match s.(sample_kind) with LifecycleLatency => Lifecycle | _ => Gauge end.
End Samples.

(** ** Recorders ([lib.rs]) *)
Module Recorders.
Import Events Samples.
Inductive BenchProfile := Off | Default | Detailed.
Record EnabledRecorder := mk_enabled {
  samples : list BenchmarkSample;
  event_traces : list SandboxEventTrace;
  shared_tags : gmap string string;
  profile : BenchProfile;
  samplers : list Z;
  sample_cap : Z;
  closed : bool;
  overflow : Z;
  closed_drops : Z;
  next_sampler_id : Z
}.
Inductive Recorder := Disabled | Enabled (e : EnabledRecorder).
Definition DEFAULT_SAMPLE_CAP : Z := 4096.
Definition enabled_new (p : BenchProfile) (tags : gmap string string) (cap : Z) : EnabledRecorder :=
  mk_enabled [] [] tags p [] cap false 0 0 1.
Definition enabled_with_config (p : BenchProfile) (tags : gmap string string) (cap : Z) : Recorder :=
  match p with Off => Disabled | _ => Enabled (enabled_new p tags cap) end.

(** The counters are atomics: they wrap. *)
Definition count_overflow (r : EnabledRecorder) : EnabledRecorder :=
  mk_enabled r.(samples) r.(event_traces) r.(shared_tags) r.(profile) r.(samplers) r.(sample_cap) r.(closed)
    (wrap 64 (r.(overflow) + 1)) r.(closed_drops) r.(next_sampler_id).
Definition count_closed (n : Z) (r : EnabledRecorder) : EnabledRecorder :=
  mk_enabled r.(samples) r.(event_traces) r.(shared_tags) r.(profile) r.(samplers) r.(sample_cap) r.(closed)
    r.(overflow) (wrap 64 (r.(closed_drops) + n)) r.(next_sampler_id).
Definition set_samples (l : list BenchmarkSample) (r : EnabledRecorder) : EnabledRecorder :=
  mk_enabled l r.(event_traces) r.(shared_tags) r.(profile) r.(samplers) r.(sample_cap) r.(closed)
    r.(overflow) r.(closed_drops) r.(next_sampler_id).
Definition set_event_traces (l : list SandboxEventTrace) (r : EnabledRecorder) : EnabledRecorder :=
  mk_enabled r.(samples) l r.(shared_tags) r.(profile) r.(samplers) r.(sample_cap) r.(closed)
    r.(overflow) r.(closed_drops) r.(next_sampler_id).
Definition set_samplers (l : list Z) (next : Z) (r : EnabledRecorder) : EnabledRecorder :=
  mk_enabled r.(samples) r.(event_traces) r.(shared_tags) r.(profile) l r.(sample_cap) r.(closed)
    r.(overflow) r.(closed_drops) next.
Definition set_closed (r : EnabledRecorder) : EnabledRecorder :=
  mk_enabled r.(samples) r.(event_traces) r.(shared_tags) r.(profile) r.(samplers) r.(sample_cap) true
    r.(overflow) r.(closed_drops) r.(next_sampler_id).

(** Without the first sample that is not a lifecycle sample. *)
Fixpoint remove_gauge (l : list BenchmarkSample) : option (list BenchmarkSample) :=
  match l with
  | [] => None
  | s :: l => if decide (for_sample s = Lifecycle) then cons s <$> remove_gauge l else Some l
  end.
Definition push (r : EnabledRecorder) (s : BenchmarkSample) : EnabledRecorder :=
  if r.(closed) then count_closed 1 r
  else if r.(sample_cap) =? 0 then count_overflow r
  else if Z.of_nat (length r.(samples)) <? r.(sample_cap) then set_samples (r.(samples) ++ [s]) r
  else match for_sample s, remove_gauge r.(samples) with
       | Lifecycle, Some l => count_overflow (set_samples (l ++ [s]) r)
       | _, _ => count_overflow r
       end.
Definition push_event_trace (r : EnabledRecorder) (t : SandboxEventTrace) : EnabledRecorder :=
  if r.(closed) then count_closed 1 r else set_event_traces (r.(event_traces) ++ [t]) r.
Record RecorderStats := mk_stats { st_profile : BenchProfile; st_overflowed : Z; st_closed_drops : Z }.
Record RecordedTrace := mk_recorded {
  rt_shared_tags : gmap string string;
  rt_samples : list BenchmarkSample;
  rt_event_traces : list SandboxEventTrace;
  rt_overflowed : Z;
  rt_stats : RecorderStats
}.
Definition enabled_stats (r : EnabledRecorder) : RecorderStats := mk_stats r.(profile) r.(overflow) r.(closed_drops).
Definition enabled_drain (r : EnabledRecorder) : EnabledRecorder * RecordedTrace :=
  (set_event_traces [] (set_samples [] r),
   mk_recorded r.(shared_tags) r.(samples) r.(event_traces) r.(overflow) (enabled_stats r)).
Definition recorded_empty : RecordedTrace := mk_recorded ∅ [] [] 0 (mk_stats Default 0 0).

(** *** The recorder: every operation is a no-op when it is disabled *)
Definition on_enabled (f : EnabledRecorder -> EnabledRecorder) (r : Recorder) : Recorder :=
  match r with Disabled => Disabled | Enabled e => Enabled (f e) end.
Definition sample (r : Recorder) (s : BenchmarkSample) : Recorder := on_enabled (fun e => push e s) r.
Definition record_event_trace (r : Recorder) (t : SandboxEventTrace) : Recorder := on_enabled (fun e => push_event_trace e t) r.
Definition drain (r : Recorder) : Recorder * RecordedTrace :=
  match r with
  | Disabled => (Disabled, recorded_empty)
  | Enabled e => let '(e, t) := enabled_drain e in (Enabled e, t)
  end.
(** The samplers are tasks: closing aborts them, so their list is emptied. *)
Definition close_and_drain (r : Recorder) : Recorder * RecordedTrace :=
  match r with
  | Disabled => (Disabled, recorded_empty)
  | Enabled e =>
      let e := set_closed e in
      let '(e, t) := enabled_drain (set_samplers [] e.(next_sampler_id) e) in (Enabled e, t)
  end.
Definition stats (r : Recorder) : RecorderStats :=
  match r with Disabled => mk_stats Default 0 0 | Enabled e => enabled_stats e end.
Definition is_closed (r : Recorder) : bool := match r with Disabled => true | Enabled e => e.(closed) end.
(** [has_runtime]: whether a tokio runtime is current. *)
Definition attach_sampler (r : Recorder) (has_runtime : bool) : Recorder * result RecorderError Z :=
  match r with
  | Disabled => (r, Ok 0)
  | Enabled e =>
      if e.(closed) then (r, Err Closed)
      else if negb has_runtime then (r, Err NoRuntime)
      else let id := e.(next_sampler_id) in
           (Enabled (set_samplers (e.(samplers) ++ [id]) (wrap 64 (id + 1)) e), Ok id)
  end.
(** One tick of a sampler task; [closed_while] is whether the recorder was
    closed while the snapshot was taken.  [false]: the task ends. *)
Definition sampler_tick (r : Recorder) (name : string) (snapshot : list BenchmarkSample) (closed_while : bool)
  : Recorder * bool :=
  if is_closed r then (r, false)
  else if closed_while then (on_enabled (count_closed (Z.of_nat (length snapshot))) r, false)
  else (foldl (fun r s => sample r (with_tag s "sampler" name)) r snapshot, true).
Definition into_flat_samples (t : RecordedTrace) : list BenchmarkSample :=
  (fun s => with_tags s (foldl (fun tags '(k, v) =>
      match tag_value k tags with
      | None => (push_tag tags k v (TagLimitExceeded "shared")).1
      | Some _ => tags
      end) s.(sample_tags) (entries t.(rt_shared_tags)))) <$> t.(rt_samples).

(** *** Spans *)
Inductive SpanOutcome := SpanOk | SpanError | Cancelled | Panicked.
Definition outcome_str (o : SpanOutcome) : string :=
  match o with SpanOk => "ok" | SpanError => "error" | Cancelled => "cancelled" | Panicked => "panic" end.
Record Span := mk_span {
  sp_metric : string;
  sp_kind : BenchmarkMetricKind;
  sp_unit : BenchmarkUnit;
  sp_started : option Z;
  sp_tags : SampleTags
}.
Definition is_enabled (r : Recorder) : bool := match r with Disabled => false | Enabled _ => true end.
Definition span_kind (r : Recorder) (m : string) (k : BenchmarkMetricKind) (u : BenchmarkUnit) (now : Z) : Span :=
  mk_span m k u (if is_enabled r then Some now else None) [].
Definition span_tag (s : Span) (key value : string) : Span :=
  mk_span s.(sp_metric) s.(sp_kind) s.(sp_unit) s.(sp_started) (add_tag s.(sp_tags) key value).
Definition span_record (r : Recorder) (s : Span) (o : SpanOutcome) (failure : option string) (now : Z) : Recorder :=
  match s.(sp_started) with
  | None => r
  | Some started =>
      let tags := add_tag s.(sp_tags) "outcome" (outcome_str o) in
      let tags := match failure with Some c => add_tag tags "failure_class" c | None => tags end in
      sample r (with_tags (sample_new s.(sp_metric) s.(sp_kind) s.(sp_unit) (Elapsed (Z.max 0 (now - started)))) tags)
  end.
(** How a span ends: finished, discarded, or dropped (while panicking). *)
Inductive SpanEnd := FinishOk | FinishError (class : string) | Discard | Dropped (panicking : bool).
Definition span_end (r : Recorder) (s : Span) (e : SpanEnd) (now : Z) : Recorder :=
  match e with
  | FinishOk => span_record r s SpanOk None now
  | FinishError class => span_record r s SpanError (Some class) now
  | Discard => r
  | Dropped panicking =>
      if is_enabled r then span_record r s (if panicking then Panicked else Cancelled) None now else r
  end.
(** *** Checkpoints *)
Definition record_pair (r : Recorder) (name : string) (started : option Z) (host guest : Z) (u : BenchmarkUnit) (now : Z)
  : Recorder :=
  match started with
  | None => r
  | Some started =>
      let m := "checkpoint." +:+ name in
      let side v side := with_tag (with_tag (with_tag (sample_new m WorkloadResource u (Float v))
                           "checkpoint" name) "side" side) "clock_domain" side in
      let r := sample r (side host "host"%string) in
      let r := sample r (side guest "guest"%string) in
      sample r (with_tag (with_tag (latency ("checkpoint." +:+ name +:+ ".elapsed_ms") (Z.max 0 (now - started)))
        "checkpoint" name) "clock_domain" "host")
  end.
End Recorders.

(** ** What a trace and a recorder keep *)
Module TraceProofs.
Import Events Samples Recorders.

(** *** Headlines are first occurrences *)
Definition succeeded (name : SandboxEventName) (e : SandboxTraceEvent) : bool :=
  bool_decide (e.(ev_name) = name) && is_success e.(ev_outcome).
Lemma find_event_app f l k :
  find_event f (l ++ k) = match find_event f l with Some e => Some e | None => find_event f k end.
Proof. induction l as [|e l IH]; [done|]. cbn. by destruct (f e). Qed.
Lemma existsb_find f l : existsb f l = bool_decide (is_Some (find_event f l)).
Proof. induction l as [|e l IH]; [done|]. cbn. by destruct (f e). Qed.
(** The events handed to a trace: as made, not yet marked. *)
Definition fresh (e : SandboxTraceEvent) : Prop := e.(ev_role) = Headline.
Lemma headline_fresh name e : fresh e -> headline name e = succeeded name e.
Proof. intros He. unfold headline, succeeded. rewrite He. by rewrite (bool_decide_true (Headline = Headline)), andb_true_r. Qed.
Lemma headline_marked name e : headline name (mark_debug_duplicate e) = false.
Proof. unfold headline. cbn. by rewrite andb_false_r. Qed.
Lemma push_headline t e name :
  fresh e -> Z.of_nat (length t.(events)) < t.(event_cap) ->
  headline_event (Events.push t e) name =
    match headline_event t name with
    | Some e' => Some e'
    | None => if succeeded name e then Some e else None
    end.
Proof.
  intros He Hl. unfold Events.push, headline_event. replace (event_cap t <=? _) with false by lia. cbn [events].
  rewrite find_event_app. destruct (find_event (headline name) (events t)) as [e'|] eqn:Ef; [done|].
  rewrite existsb_find. cbn [find_event].
  destruct (is_success (ev_outcome e)) eqn:Es; cbn [andb].
  2:{ rewrite headline_fresh by done. by destruct (succeeded name e). }
  destruct (decide (is_Some (find_event (headline (ev_name e)) (events t)))) as [Hd|Hd].
  - rewrite bool_decide_true by done. rewrite headline_marked.
    replace (succeeded name e) with false; [done|]. symmetry. unfold succeeded.
    rewrite bool_decide_false; [done|]. intros <-. rewrite Ef in Hd. by destruct Hd.
  - rewrite bool_decide_false by done. rewrite headline_fresh by done. by destruct (succeeded name e).
Qed.
Lemma push_full t e :
  t.(event_cap) <= Z.of_nat (length t.(events)) ->
  (Events.push t e).(events) = t.(events) /\ (Events.push t e).(event_cap) = t.(event_cap) /\
  (Events.push t e).(overflowed) = sat_add 64 t.(overflowed) 1.
Proof. intros Hl. unfold Events.push. by replace (event_cap t <=? _) with true by lia. Qed.
Lemma push_room t e :
  Z.of_nat (length t.(events)) < t.(event_cap) ->
  length (Events.push t e).(events) = S (length t.(events)) /\ (Events.push t e).(event_cap) = t.(event_cap) /\
  (Events.push t e).(overflowed) = t.(overflowed).
Proof.
  intros Hl. unfold Events.push. replace (event_cap t <=? _) with false by lia. cbn. rewrite length_app. cbn. lia.
Qed.
Lemma event_trace_run l : forall t name,
  Forall fresh l -> Z.of_nat (length t.(events)) <= t.(event_cap) ->
  let t' := foldl Events.push t l in
  headline_event t' name =
    match headline_event t name with
    | Some e => Some e
    | None => find_event (succeeded name) (take (Z.to_nat (t.(event_cap) - Z.of_nat (length t.(events)))) l)
    end /\
  Z.of_nat (length t'.(events)) = Z.min t.(event_cap) (Z.of_nat (length t.(events)) + Z.of_nat (length l)).
Proof.
  induction l as [|e l IH]; intros t name Hl Hc; cbn [foldl].
  { rewrite take_nil. cbn. split; [by destruct (headline_event t name)|lia]. }
  apply Forall_cons in Hl as [He Hl].
  destruct (decide (Z.of_nat (length (events t)) < event_cap t)) as [Hlt|Hge].
  - destruct (push_room t e Hlt) as (Hn & Hcap & _). destruct (IH (Events.push t e) name Hl) as [Hh Hlen]; [lia|].
    rewrite Hh, Hlen, Hcap, Hn, push_headline by done. split; [|cbn [length]; lia].
    replace (Z.to_nat (event_cap t - Z.of_nat (length (events t))))
      with (S (Z.to_nat (event_cap t - Z.of_nat (S (length (events t)))))) by lia.
    cbn [take find_event]. destruct (headline_event t name); [done|]. by destruct (succeeded name e).
  - destruct (push_full t e) as (Hev & Hcap & _); [lia|]. destruct (IH (Events.push t e) name Hl) as [Hh Hlen]; [rewrite Hev; lia|].
    unfold headline_event in *. rewrite Hh, Hlen, Hcap, Hev. replace (event_cap t - _) with 0 by lia. cbn. split; [done|lia].
Qed.
(** The headline event of a name is the first successful event of that name
    among the events kept; at most the cap is kept. *)
Theorem headline_is_first cap l name :
  0 <= cap -> Forall fresh l ->
  let t := foldl Events.push (with_event_cap cap) l in
  headline_event t name = find_event (succeeded name) (take (Z.to_nat cap) l) /\
  Z.of_nat (length t.(events)) = Z.min cap (Z.of_nat (length l)).
Proof.
  intros Hc Hl t. destruct (event_trace_run l (with_event_cap cap) name Hl) as [Hh Hn]; [done|].
  cbn in Hh, Hn. rewrite Z.sub_0_r in Hh. split; [done|]. unfold t. by rewrite Hn.
Qed.

(** *** Lifecycle samples come first *)
Definition lifecycle (l : list BenchmarkSample) : list BenchmarkSample := filter (fun s => for_sample s = Lifecycle) l.
#[local] Arguments lifecycle : simpl never.
Lemma lifecycle_app l k : lifecycle (l ++ k) = lifecycle l ++ lifecycle k.
Proof. apply filter_app. Qed.
Lemma lifecycle_cons s l :
  lifecycle (s :: l) = if decide (for_sample s = Lifecycle) then s :: lifecycle l else lifecycle l.
Proof. done. Qed.
Lemma remove_gauge_spec l :
  match remove_gauge l with
  | Some k => lifecycle k = lifecycle l /\ length l = S (length k) /\ k `sublist_of` l
  | None => lifecycle l = l
  end.
Proof.
  induction l as [|s l IH]; [done|]. cbn [remove_gauge]. rewrite lifecycle_cons.
  destruct (decide (for_sample s = Lifecycle)) as [Hs|Hs].
  - destruct (remove_gauge l) as [k|]; cbn [fmap option_fmap option_map].
    + destruct IH as (IH & Hn & Hsub). rewrite lifecycle_cons, decide_True by done.
      rewrite IH. cbn [length]. split_and!; [done|lia|by constructor].
    + by rewrite IH.
  - split_and!; [done..|]. by constructor.
Qed.
(** What the samples given so far have become. *)
Definition recorder_inv (given : list BenchmarkSample) (r : EnabledRecorder) : Prop :=
  r.(closed) = false /\ 0 <= r.(sample_cap) /\
  lifecycle r.(samples) = take (Z.to_nat r.(sample_cap)) (lifecycle given) /\
  Z.of_nat (length r.(samples)) = Z.min r.(sample_cap) (Z.of_nat (length given)) /\
  r.(overflow) = Z.of_nat (length given) - Z.of_nat (length r.(samples)) /\
  r.(samples) `sublist_of` given.
Lemma lifecycle_le l : (length (lifecycle l) <= length l)%nat.
Proof. apply length_filter. Qed.
Lemma push_inv given r s :
  recorder_inv given r -> Z.of_nat (length given) < max_uint 64 ->
  recorder_inv (given ++ [s]) (Recorders.push r s) /\ (Recorders.push r s).(sample_cap) = r.(sample_cap).
Proof.
  intros (Hc & Hcap & Hl & Hn & Ho & Hsub) Hb. unfold Recorders.push. rewrite Hc.
  assert (Hov : wrap 64 (overflow r + 1) = overflow r + 1).
  { apply wrap_small. unfold in_uint, max_uint in *. lia. }
  unfold recorder_inv, count_overflow, set_samples. rewrite lifecycle_app, length_app. cbn [length].
  destruct (sample_cap r =? 0) eqn:E0.
  { cbn. rewrite Hov. split; [|done]. apply Z.eqb_eq in E0. rewrite E0 in *.
    split_and!; try done; try lia. by apply sublist_inserts_r. }
  destruct (Z.of_nat (length (samples r)) <? sample_cap r) eqn:Elt.
  { cbn. rewrite length_app, lifecycle_app, Hl. cbn [length]. split; [|done].
    pose proof (lifecycle_le given). split_and!; [done..| |lia|lia|by apply sublist_app].
    pose proof (lifecycle_le [s]). cbn [length] in *. rewrite !take_ge; [done|..]; rewrite ?length_app; lia. }
  pose proof (remove_gauge_spec (samples r)) as Hg. destruct (for_sample s) eqn:Es.
  - assert (Hs : lifecycle [s] = [s]) by by rewrite lifecycle_cons, decide_True.
    destruct (remove_gauge (samples r)) as [k|] eqn:Eg.
    + destruct Hg as (Hk & Hlen & Hks). cbn. rewrite Hov, length_app, lifecycle_app, Hs, Hk. cbn [length]. split; [|done].
      split_and!; [done..| |lia|lia|apply sublist_app; [by etrans|done]].
      (* the gauge that leaves shows that fewer lifecycle samples than the cap were given *)
      assert (Hlt : (length (lifecycle k) < length (samples r))%nat) by (pose proof (lifecycle_le k); lia).
      rewrite Hk, Hl, length_take in Hlt. rewrite Hl, !take_ge; [done| |lia]. rewrite length_app. cbn [length]. lia.
    + cbn. rewrite Hov. split; [|done]. split_and!; [done..| |lia|lia|by apply sublist_inserts_r].
      rewrite take_app_le; [done|]. pose proof (f_equal length Hl) as Hll. rewrite Hg, length_take in Hll. lia.
  - assert (Hs : lifecycle [s] = []) by (rewrite lifecycle_cons, decide_False; [done|congruence]).
    cbn. rewrite Hov, Hs, app_nil_r. split; [|done]. split_and!; [done..|lia|lia|by apply sublist_inserts_r].
Qed.
(** C33: a full recorder gives lifecycle samples priority and loses count of
    nothing.  After any sequence of fewer than 2^64 - 1 samples, an open
    recorder holds as many as fit its cap, in the order given; its lifecycle
    samples are exactly the first ones given, however many gauges came before
    or after them; and the overflow counter is the number of samples lost. *)
Theorem recorder_keeps_lifecycle p tags cap l :
  0 <= cap -> Z.of_nat (length l) < max_uint 64 ->
  let r := foldl Recorders.push (enabled_new p tags cap) l in
  lifecycle r.(samples) = take (Z.to_nat cap) (lifecycle l) /\
  Z.of_nat (length r.(samples)) = Z.min cap (Z.of_nat (length l)) /\
  r.(samples) `sublist_of` l /\
  r.(overflow) = Z.of_nat (length l) - Z.of_nat (length r.(samples)).
Proof.
  intros Hc Hl r.
  assert (recorder_inv l r /\ r.(sample_cap) = cap) as [(_ & _ & H1 & H2 & H3 & H4) Hcap].
  { unfold r. clear r. induction l as [|s l IH] using rev_ind.
    - split; [|done]. unfold recorder_inv. cbn. rewrite ?take_nil. split_and!; try done; try lia. by destruct (Z.to_nat cap).
    - rewrite length_app in Hl. cbn [length] in Hl. destruct IH as [Hi Hcap]; [lia|].
      rewrite foldl_snoc. destruct (push_inv _ _ s Hi) as [Hi' Hcap']; [lia|]. by rewrite Hcap'. }
  rewrite Hcap in *. by split_and!.
Qed.
Definition demo_gauge (n : Z) : BenchmarkSample := sample_new "memory" WorkloadResource Mebibytes (Float n).
Lemma recorder_keeps_lifecycle_witness :
  let r := foldl Recorders.push (enabled_new Default ∅ 2) [demo_gauge 1; demo_gauge 2; latency "restore" 7; demo_gauge 3] in
  lifecycle r.(samples) = [latency "restore" 7] /\ r.(overflow) = 2.
Proof.
  assert (Hb : Z.of_nat (length [demo_gauge 1; demo_gauge 2; latency "restore" 7; demo_gauge 3]) < max_uint 64)
    by (vm_compute; reflexivity).
  destruct (recorder_keeps_lifecycle Default ∅ 2 [demo_gauge 1; demo_gauge 2; latency "restore" 7; demo_gauge 3]
    ltac:(lia) Hb) as (H1 & H2 & _ & H4).
  split; [rewrite H1; reflexivity|]. rewrite H4, H2. reflexivity.
Defined.

(** Draining empties the recorder but keeps its overflow counter: the next
    drain reports the losses of the first again. *)
Lemma drain_reports_losses_again r :
  (enabled_drain (enabled_drain r).1).2.(rt_overflowed) = (enabled_drain r).2.(rt_overflowed) /\
  (enabled_drain (enabled_drain r).1).2.(rt_samples) = [].
Proof. done. Qed.
(** A sample that carries its sixteen tags is recorded by a span without its
    outcome: the tag does not fit and the error is dropped. *)
Lemma full_span_loses_its_outcome r m k u started now tags o :
  length tags = 16%nat -> tag_value "outcome" tags = None ->
  span_record r (mk_span m k u (Some started) tags) o None now
  = sample r (with_tags (sample_new m k u (Elapsed (Z.max 0 (now - started)))) tags).
Proof.
  intros Hl Ht. unfold span_record, add_tag, push_tag. cbn [sp_started sp_tags].
  assert (validate_tag "outcome" (outcome_str o) (TagLimitExceeded "outcome") = Ok tt) as -> by by destruct o.
  rewrite Ht, bool_decide_false by (intros []; done). by rewrite Hl.
Qed.
End TraceProofs.
