(* ===== verification/RuntimeRestore.v ===== *)
(** * Restoring sessions from snapshots ([crates/runtime/src])

    [Disk] ([disk.rs]): the free-space probe and the guard of the runtime.
    [Preflight] ([preflight.rs]): the checks before any restore work.
    [Restore] ([restore.rs]): admission, launch and accounting of a restored
    session, with the integrity of its artifact verified first.  The launcher
    and the probe are interfaces; both may change with every call. *)
From S2P Require Import Prelude BTree Types HostPaths HostFs Capacity Artifacts ArtifactFiles DiskGuard E2bWire E2bRoutes Trace.
Import Sizes.

Definition DEFAULT_RUNTIME_MINIMUM_FREE_DISK : Size := gib 10.
Definition DEFAULT_RUNTIME_WARM_POOL_MINIMUM_FREE_DISK : Size := gib 20.
(** [path.parent().unwrap_or(Path::new("/"))]. *)
Definition snapshot_output_disk_root (p : string) : string := default "/"%string (path_parent p).

(** ** Free disk space *)
Module Disk.
Class DiskPressureProbe (P PE : Type) := available_disk : string -> P -> P * result PE Size.
Inductive HostDiskPressureProbeError :=
| Command (source : string)
| CommandStatus (status : string)
| Utf8 (source : string)
| MissingAvailable
| InvalidAvailable (source : string).
Definition parse_df_available (output : string) : result HostDiskPressureProbeError Size :=
  field ← ok_or MissingAvailable (find_map (fun line => split_whitespace line !! 3%nat) (skipn 1 (lines output)));
  available_kib ← ok_or (InvalidAvailable (parse_int_error 64 0 field)) (parse_uint 64 field);
  Ok (kib available_kib).
(** The host's probe runs [df]; its runs to come, by number and path. *)
Record HostDiskPressureProbe := mk_host_probe { df_runs : nat -> string -> DfRun; df_count : nat }.
#[export] Instance host_probe : DiskPressureProbe HostDiskPressureProbe HostDiskPressureProbeError := fun p h =>
  (mk_host_probe h.(df_runs) (S h.(df_count)),
   match h.(df_runs) h.(df_count) p with
   | DfNotRun e => Err (Command e)
   | DfFailed status => Err (CommandStatus status)
   | DfNotUtf8 e => Err (Utf8 e)
   | DfPrinted stdout => parse_df_available stdout
   end).
Definition host_probe_error_text (e : HostDiskPressureProbeError) : string :=
  match e with
  | Command s => "failed to execute df for host disk probe: " +:+ s
  | CommandStatus s => "df host disk probe failed: " +:+ s
  | Utf8 s => "df host disk probe output was not UTF-8: " +:+ s
  | MissingAvailable => "df host disk probe output missing available-kilobytes field"
  | InvalidAvailable s => "df host disk probe available-kilobytes field was invalid: " +:+ s
  end.

Inductive DiskPressureError (E : Type) := Probe (source : E) | BelowMinimum (minimum available : Size).
Arguments Probe {E}.
Arguments BelowMinimum {E}.
Definition disk_pressure_error_text {E} (show : E -> string) (e : DiskPressureError E) : string :=
  match e with
  | Probe s => "disk pressure probe failed: " +:+ show s
  | BelowMinimum minimum available =>
      "available disk space " +:+ size_display available +:+ " is below required minimum " +:+ size_display minimum
  end.
Record DiskPressureReport := mk_disk_report { dr_root : string; dr_minimum_free : Size; dr_available_free : Size }.
Record RuntimeDiskPressureGuard := mk_disk_guard { g_root : string; g_minimum_free : Size }.
Section Check.
Context {P PE : Type} `{DiskPressureProbe P PE}.
Definition check (g : RuntimeDiskPressureGuard) (probe : P) : P * result (DiskPressureError PE) DiskPressureReport :=
  let '(probe, r) := available_disk g.(g_root) probe in
  (probe,
   available_free ← map_err Probe r;
   if as_bytes available_free <? as_bytes g.(g_minimum_free)
   then Err (BelowMinimum g.(g_minimum_free) available_free)
   else Ok (mk_disk_report g.(g_root) g.(g_minimum_free) available_free)).
End Check.
(** [restore.rs]: how a disk error is reported as a lack of capacity. *)
Definition disk_pressure_to_capacity_error {E} (e : DiskPressureError E) : CapacityError :=
  match e with
  | BelowMinimum minimum available => Capacity.Disk minimum available
  | Probe _ => Capacity.Disk DEFAULT_RUNTIME_MINIMUM_FREE_DISK (size_bytes 0)
  end.

(** The runtime and the single-node backend read [df] alike. *)
Lemma df_parsers_agree out :
  match parse_df_available out, parse_available out with
  | Ok a, Ok b => a = b
  | Err MissingAvailable, Err e => e = Scheduler.DiskPressure "df output missing available-kib field"
  | Err (InvalidAvailable m), Err e => e = Scheduler.DiskPressure ("df available-kib field is invalid: " +:+ m)
  | _, _ => False
  end.
Proof.
  unfold parse_df_available, parse_available. destruct (find_map _ _) as [f|]; [|done]. cbn.
  by destruct (parse_uint 64 f).
Qed.
End Disk.

(** ** Preflight *)
Module Preflight.
Import Disk.
Record RuntimePreflight := mk_preflight { snapshot_root : string; log_root : string; minimum_free_disk : Size }.
Record RuntimePreflightReport := mk_preflight_report {
  pr_snapshot_root : string;
  pr_log_root : string;
  pr_snapshot_disk : DiskPressureReport;
  pr_log_disk : DiskPressureReport
}.
Inductive RuntimePreflightError := MissingRoot (path : string) | PreflightDisk (reason : string).
Definition preflight_error_text (e : RuntimePreflightError) : string :=
  match e with
  | MissingRoot p => "required runtime root is missing: " +:+ p
  | PreflightDisk r => "runtime disk preflight failed: " +:+ r
  end.
Section Check.
(** [is_dir]: the directories of the host. *)
Context {P PE : Type} `{DiskPressureProbe P PE} (show : PE -> string) (is_dir : string -> bool).
Definition check_required_root (p : string) : result RuntimePreflightError unit :=
  if is_dir p then Ok tt else Err (MissingRoot p).
Definition from_disk (e : DiskPressureError PE) : RuntimePreflightError := PreflightDisk (disk_pressure_error_text show e).
Definition check_with_disk_probe (p : RuntimePreflight) (probe : P) : P * result RuntimePreflightError RuntimePreflightReport :=
  match check_required_root p.(snapshot_root) with
  | Err e => (probe, Err e)
  | Ok _ =>
      match check_required_root p.(log_root) with
      | Err e => (probe, Err e)
      | Ok _ =>
          let '(probe, r) := check (mk_disk_guard p.(snapshot_root) p.(minimum_free_disk)) probe in
          match map_err from_disk r with
          | Err e => (probe, Err e)
          | Ok snapshot_disk =>
              let '(probe, r) := check (mk_disk_guard p.(log_root) p.(minimum_free_disk)) probe in
              match map_err from_disk r with
              | Err e => (probe, Err e)
              | Ok log_disk =>
                  (probe, Ok (mk_preflight_report p.(snapshot_root) p.(log_root) snapshot_disk log_disk))
              end
          end
      end
  end.
End Check.
End Preflight.

(** ** Restore *)
Module Restore.
Import Disk Trace.Samples.
Record SnapshotRestoreRequest := mk_restore_request { rr_manifest : SnapshotArtifactManifest; rr_budget : ResourceBudget }.
Class SnapshotSessionLauncher (L Sess LE : Type) :=
  restore_from_snapshot : SnapshotRestoreRequest -> L -> L * result LE Sess.

(** The reservation of an active session; it is released once. *)
Record ActiveSessionReservation := mk_reservation { rv_budget : ResourceBudget; rv_released : bool }.
Definition reservation_new (b : ResourceBudget) : ActiveSessionReservation := mk_reservation b false.
Definition release_into (r : ActiveSessionReservation) (l : CapacityLedger)
  : ActiveSessionReservation * CapacityLedger * option ResourceBudget :=
  if r.(rv_released) then (r, l, None)
  else (mk_reservation r.(rv_budget) true, release_active l r.(rv_budget), Some r.(rv_budget)).

Record SnapshotRestoreReport (Sess : Type) := mk_restore_report {
  sr_session : Sess;
  sr_reservation : ActiveSessionReservation;
  sr_benchmark_samples : list BenchmarkSample
}.
Arguments mk_restore_report {Sess}.
Arguments sr_session {Sess}.
Arguments sr_reservation {Sess}.
Arguments sr_benchmark_samples {Sess}.
Inductive SnapshotRestoreError (E : Type) :=
| Integrity (reason : string)
| RestoreCapacity (e : CapacityError)
| Launch (source : E).
Arguments Integrity {E}.
Arguments RestoreCapacity {E}.
Arguments Launch {E}.

(** [Display] of [CapacityError]. *)
Definition capacity_error_text (e : CapacityError) : string :=
  match e with
  | Cpu requested available =>
      "insufficient CPU slots: requested " +:+ print_dec requested +:+ ", available " +:+ print_dec available
  | Memory requested available =>
      "insufficient memory: requested " +:+ size_display requested +:+ ", available " +:+ size_display available
  | Capacity.Disk requested available =>
      "insufficient disk: requested " +:+ size_display requested +:+ ", available " +:+ size_display available
  end.

(** What a restore works on: the ledger, the launcher, the probe, the host. *)
Record RestoreState (L P : Type) := mk_restore_state {
  st_ledger : CapacityLedger;
  st_launcher : L;
  st_probe : P;
  st_world : World
}.
Arguments mk_restore_state {L P}.
Arguments st_ledger {L P}.
Arguments st_launcher {L P}.
Arguments st_probe {L P}.
Arguments st_world {L P}.

Section Execute.
Context {L Sess LE P PE : Type} `{SnapshotSessionLauncher L Sess LE, DiskPressureProbe P PE}.
Context `{Sha256, Serde SnapshotArtifactIntegrity}.
Implicit Types s : RestoreState L P.
Definition execute_with_disk_probe (manifest : SnapshotArtifactManifest) (budget : ResourceBudget) (elapsed : Z) s
  : RestoreState L P * result (SnapshotRestoreError LE) (SnapshotRestoreReport Sess) :=
  let guard := mk_disk_guard (snapshot_output_disk_root (path manifest)) DEFAULT_RUNTIME_MINIMUM_FREE_DISK in
  let '(probe, checked) := check guard s.(st_probe) in
  match checked with
  | Err e =>
      (mk_restore_state s.(st_ledger) s.(st_launcher) probe s.(st_world),
       Err (RestoreCapacity (disk_pressure_to_capacity_error e)))
  | Ok _ =>
      match reserve_active s.(st_ledger) budget with
      | (ledger, Err e) => (mk_restore_state ledger s.(st_launcher) probe s.(st_world), Err (RestoreCapacity e))
      | (ledger, Ok _) =>
          let '(launcher, launched) := restore_from_snapshot (mk_restore_request manifest budget) s.(st_launcher) in
          match launched with
          | Err source =>
              (mk_restore_state (release_active ledger budget) launcher probe s.(st_world), Err (Launch source))
          | Ok session =>
              (mk_restore_state ledger launcher probe s.(st_world),
               Ok (mk_restore_report session (reservation_new budget) [latency "warm_snapshot_restore" elapsed]))
          end
      end
  end.
Definition execute_with_integrity (manifest : SnapshotArtifactManifest) (budget : ResourceBudget) (elapsed : Z)
    (integrity : SnapshotArtifactIntegrity) s
  : RestoreState L P * result (SnapshotRestoreError LE) (SnapshotRestoreReport Sess) :=
  match integrity_verify integrity manifest s.(st_world) with
  | (w, Err e) => (mk_restore_state s.(st_ledger) s.(st_launcher) s.(st_probe) w, Err (Integrity (integrity_error_text e)))
  | (w, Ok _) => execute_with_disk_probe manifest budget elapsed (mk_restore_state s.(st_ledger) s.(st_launcher) s.(st_probe) w)
  end.
Definition execute_with_integrity_sidecar (manifest : SnapshotArtifactManifest) (budget : ResourceBudget) (elapsed : Z)
    (integrity_path : string) s
  : RestoreState L P * result (SnapshotRestoreError LE) (SnapshotRestoreReport Sess) :=
  match integrity_read_json integrity_path s.(st_world) with
  | (w, Err e) => (mk_restore_state s.(st_ledger) s.(st_launcher) s.(st_probe) w, Err (Integrity (integrity_error_text e)))
  | (w, Ok i) => execute_with_integrity manifest budget elapsed i (mk_restore_state s.(st_ledger) s.(st_launcher) s.(st_probe) w)
  end.

(** *** Sandboxes of the Cube/E2B API *)
Record RuntimeCubeSandboxCreateConfig := mk_create_config {
  cc_sandbox_id : string;
  cc_domain : string;
  cc_envd_version : string;
  cc_started_at : string;
  cc_end_at : string;
  cc_cpu_count : Z;
  cc_memory_mb : Z
}.
Definition into_runtime_config (c : RuntimeCubeSandboxCreateConfig) : SandboxRuntimeConfig :=
  mk_runtime_config c.(cc_sandbox_id) c.(cc_domain) c.(cc_envd_version) None None c.(cc_started_at) c.(cc_end_at)
    c.(cc_cpu_count) c.(cc_memory_mb).
Record RuntimeCubeSandboxCreateReport := mk_create_report {
  cp_runtime_sandbox : RuntimeSandbox;
  cp_session : Sess;
  cp_reservation : ActiveSessionReservation;
  cp_benchmark_samples : list BenchmarkSample
}.
End Execute.

Inductive RuntimeCubeSandboxCreateError (E : Type) :=
| MissingPreparedTemplate
| MissingPreparedTemplateIntegrity
| RestoreFailed (e : SnapshotRestoreError E).
Arguments MissingPreparedTemplate {E}.
Arguments MissingPreparedTemplateIntegrity {E}.
Arguments RestoreFailed {E}.
Definition DEFAULT_ENVD_PORT : Z := 49983.
Definition exposed_ports : list Z := [DEFAULT_ENVD_PORT; DEFAULT_CODE_INTERPRETER_PORT; DEFAULT_MCP_PORT].

(** [hygiene.rs], [template_build.rs]: the record a template or a snapshot
    carries, or else its sidecar. *)
Section Prepared.
Context {E : Type} `{Sha256, Serde SnapshotArtifactIntegrity}.
Definition prepared_template_artifact_integrity (i : PreparedTemplateArtifactIntegrity) : SnapshotArtifactIntegrity :=
  mk_artifact_integrity i.(E2bWire.size_bytes) i.(E2bWire.sha256_hex).
Definition snapshot_artifact_integrity (i : option PreparedTemplateArtifactIntegrity) (m : SnapshotArtifactManifest)
  : HM (RuntimeCubeSandboxCreateError E) SnapshotArtifactIntegrity :=
  match i with
  | Some i => mret (prepared_template_artifact_integrity i)
  | None =>
      hm_map_err (fun e => RestoreFailed (Integrity (integrity_error_text e)))
        (integrity_read_json (integrity_sidecar_path (path m)))
  end.
Definition verify_prepared_template_integrity (t : PreparedTemplate) (m : SnapshotArtifactManifest)
  : HM (RuntimeCubeSandboxCreateError E) unit :=
  i ← snapshot_artifact_integrity t.(pt_artifact_integrity) m;
  hm_map_err (fun e => RestoreFailed (Integrity (integrity_error_text e))) (integrity_verify i m).
End Prepared.
Definition template_manifest (t : PreparedTemplate) : SnapshotArtifactManifest := manifest_base t.(pt_template_id) t.(pt_artifact).

(** Errors as the control plane sees them. *)
Definition restore_error_to_backend {E} (show : E -> string) (e : SnapshotRestoreError E) : BackendError :=
  match e with
  | RestoreCapacity e => Runtime (capacity_error_text e)
  | Integrity reason => Runtime ("Firkin snapshot integrity check failed: " +:+ reason)
  | Launch source => Runtime ("Firkin snapshot restore failed: " +:+ show source)
  end.
Definition runtime_create_error_to_backend {E} (show : E -> string) (e : RuntimeCubeSandboxCreateError E) : BackendError :=
  match e with
  | MissingPreparedTemplate => Runtime "Firkin RuntimeAdapter start requires a prepared template snapshot"
  | MissingPreparedTemplateIntegrity => Runtime "Firkin RuntimeAdapter start requires prepared template artifact integrity"
  | RestoreFailed e => restore_error_to_backend show e
  end.

Section Create.
Context {L Sess LE P PE : Type} `{SnapshotSessionLauncher L Sess LE, DiskPressureProbe P PE}.
Context `{Sha256, Serde SnapshotArtifactIntegrity}.
(** [RuntimeCubeSandboxCreate::execute_with_disk_probe_elapsed]. *)
Definition create_execute (request : StartSandboxRequest) (budget : ResourceBudget) (config : RuntimeCubeSandboxCreateConfig)
    (elapsed : Z) (s : RestoreState L P)
  : RestoreState L P * result (RuntimeCubeSandboxCreateError LE) (RuntimeCubeSandboxCreateReport (Sess := Sess)) :=
  match request.(ss_prepared_template) with
  | None => (s, Err MissingPreparedTemplate)
  | Some template =>
      let manifest := template_manifest template in
      match snapshot_artifact_integrity template.(pt_artifact_integrity) manifest s.(st_world) with
      | (w, Err e) => (mk_restore_state s.(st_ledger) s.(st_launcher) s.(st_probe) w, Err e)
      | (w, Ok integrity) =>
          match execute_with_integrity manifest budget elapsed integrity
                  (mk_restore_state s.(st_ledger) s.(st_launcher) s.(st_probe) w) with
          | (s, Err e) => (s, Err (RestoreFailed e))
          | (s, Ok report) =>
              (s, Ok (mk_create_report (mk_runtime_sandbox (into_runtime_config config) exposed_ports)
                        report.(sr_session) report.(sr_reservation) report.(sr_benchmark_samples)))
          end
      end
  end.
End Create.

(** *** Continuation snapshots ([continuation.rs]) *)
Section Continuation.
Context {L Sess LE P PE : Type} `{SnapshotSessionLauncher L Sess LE, DiskPressureProbe P PE}.
Context `{Sha256, Serde SnapshotArtifactIntegrity, Serde SnapshotArtifactManifest}.
Inductive ContinuationSnapshotError := ContinuationCapacity (e : CapacityError) | ContinuationSnapshot (source : string).
Record ContinuationSnapshotReport := mk_continuation_report {
  ct_manifest : SnapshotArtifactManifest;
  ct_reason : ContinuationSnapshotReason;
  ct_benchmark_samples : list BenchmarkSample
}.
(** [save] is the snapshot sink: it writes the artifact. *)
Definition capture_execute (plan : ContinuationSnapshotPlan) (save : string -> HM string unit) (elapsed : Z)
    (probe : P) (w : World) : P * World * result ContinuationSnapshotError ContinuationSnapshotReport :=
  let out := snapshot_output_path plan in
  let '(probe, checked) := check (mk_disk_guard (snapshot_output_disk_root out) DEFAULT_RUNTIME_MINIMUM_FREE_DISK) probe in
  match checked with
  | Err e => (probe, w, Err (ContinuationCapacity (disk_pressure_to_capacity_error e)))
  | Ok _ =>
      let manifest := snapshot_manifest plan in
      let '(w, r) := hm_map_err ContinuationSnapshot
                       (_ ← save out; write_snapshot_artifact_sidecars manifest) w in
      (probe, w, _ ← r; Ok (mk_continuation_report manifest (reason plan) [latency "snapshot_save" elapsed]))
  end.
Definition continuation_execute (plan : ContinuationSnapshotPlan) (budget : ResourceBudget) (elapsed : Z)
    (s : RestoreState L P)
  : RestoreState L P *
    result (SnapshotRestoreError LE) (Sess * ContinuationSnapshotReason * ActiveSessionReservation * list BenchmarkSample) :=
  match execute_with_disk_probe (snapshot_manifest plan) budget elapsed s with
  | (s, Err e) => (s, Err e)
  | (s, Ok report) =>
      (s, Ok (report.(sr_session), reason plan, report.(sr_reservation), report.(sr_benchmark_samples)))
  end.
End Continuation.
End Restore.

(** ** What a restore leaves behind *)
Module RestoreProofs.
Import Disk Restore.
Lemma reserve_then_release l b :
  ledger_ok l -> budget_typed b ->
  match reserve_active l b with
  | (l', Ok _) =>
      ledger_ok l' /\ capacity l' = capacity l /\ warm_pool l' = warm_pool l /\
      (forall d, get d (active l') = get d (active l) + get d b) /\ release_active l' b = l
  | (l', Err _) => l' = l
  end.
Proof.
  intros Hl Hb. pose proof (reserve_spec (ReservationLaws := active_side_laws) l b Hl Hb) as Hr.
  cbn [reserve held other active_side] in Hr.
  destruct (capacity_error_for_request b (available l)); [by rewrite Hr|].
  destruct Hr as (l' & -> & Hl' & Hc & Ho & Hd). split_and!; try done.
  unfold release_active. rewrite Hc, Ho. destruct l as [c a w]. cbn in *. f_equal. apply budget_ext. intros d.
  rewrite get_sub, Hd. destruct Hl as [_ Hl]. specialize (Hl d). cbn in Hl. uint_lia.
Qed.

Section Restored.
Context {L Sess LE P PE : Type} `{SnapshotSessionLauncher L Sess LE, DiskPressureProbe P PE}.
Context `{Sha256, Serde SnapshotArtifactIntegrity, Serde SnapshotArtifactManifest}.
Implicit Types s : RestoreState L P.
Implicit Types m : SnapshotArtifactManifest.

(** A session runs on the budget it was admitted with, and its reservation
    gives exactly that back, once. *)
Definition accounted (l l' : CapacityLedger) (b : ResourceBudget) (r : SnapshotRestoreReport Sess) : Prop :=
  ledger_ok l' /\ (forall d, get d (active l') = get d (active l) + get d b) /\ warm_pool l' = warm_pool l /\
  release_into r.(sr_reservation) l' = (mk_reservation b true, l, Some b) /\
  release_into (mk_reservation b true) l = (mk_reservation b true, l, None).
Lemma execute_spec m b el s s' r :
  ledger_ok s.(st_ledger) -> budget_typed b ->
  execute_with_disk_probe m b el s = (s', r) ->
  s'.(st_world) = s.(st_world) /\
  match r with
  | Ok rep => accounted s.(st_ledger) s'.(st_ledger) b rep /\
      (exists free, (available_disk (snapshot_output_disk_root (path m)) s.(st_probe)).2 = Ok free /\
         as_bytes DEFAULT_RUNTIME_MINIMUM_FREE_DISK <= as_bytes free) /\
      restore_from_snapshot (mk_restore_request m b) s.(st_launcher) = (s'.(st_launcher), Ok rep.(sr_session))
  | Err (Launch e) => s'.(st_ledger) = s.(st_ledger) /\
      restore_from_snapshot (mk_restore_request m b) s.(st_launcher) = (s'.(st_launcher), Err e)
  | Err _ => s'.(st_ledger) = s.(st_ledger) /\ s'.(st_launcher) = s.(st_launcher)
  end.
Proof.
  intros Hl Hb. unfold execute_with_disk_probe, check. cbn [g_root g_minimum_free].
  destruct (available_disk _ _) as [probe [free|e]] eqn:Ep; cbn; [|by intros [= <- <-]].
  destruct (_ <? _) eqn:Ef; cbn; [by intros [= <- <-]|].
  pose proof (reserve_then_release _ b Hl Hb) as Hr. destruct (reserve_active _ b) as [l' [[]|e]]; [|by intros [= <- <-]; subst].
  destruct Hr as (Hl' & Hc & Hw & Hd & Hback).
  destruct (restore_from_snapshot _ _) as [la [se|e]] eqn:El; intros [= <- <-]; cbn; [|by rewrite Hback].
  split; [done|]. split; [|split; [exists free; split; [done|lia]|done]].
  split_and!; try done. cbn. by rewrite Hback.
Qed.
Lemma read_bytes_world {E} (op : host_error -> E) p w : ((read_bytes op p w).1).(files) = w.(files).
Proof. unfold read_bytes, read_file, hm_res. rewrite bind_hm. by destruct (head (faults w)) as [[]|]. Qed.
Lemma integrity_read_world p w : ((integrity_read_json p w).1).(files) = w.(files).
Proof.
  unfold integrity_read_json. rewrite bind_hm.
  pose proof (read_bytes_world (IntegrityIo "read snapshot artifact integrity JSON") p w) as Hw.
  by destruct (read_bytes _ p w) as [w' [bs|e]].
Qed.
Lemma integrity_read_ok p w w' i :
  integrity_read_json p w = (w', Ok i) -> exists bytes, w.(files) !! p = Some bytes /\ deserialize bytes = Ok i.
Proof.
  unfold integrity_read_json, read_bytes, read_file, hm_res. rewrite !bind_hm. cbn.
  destruct (head (faults w)) as [[flt|]|]; cbn; [done|..];
    (destruct (files w !! p) as [bytes|]; cbn; [|done]); intros [= _ Hd]; exists bytes;
    (split; [done|]); by destruct (deserialize bytes); [injection Hd as ->|].
Qed.
Lemma integrity_verify_world i m w : ((integrity_verify i m w).1).(files) = w.(files).
Proof.
  unfold integrity_verify, integrity_from_file. rewrite !bind_hm.
  pose proof (read_bytes_world (IntegrityIo "read snapshot artifact") (path m) w) as Hw.
  by destruct (read_bytes _ (path m) w) as [w' [bs|e]].
Qed.

(** C13: restoring from a snapshot is all or nothing.  Whatever the probe, the
    launcher and the file system do, a restore that fails leaves the capacity
    ledger as it was, and the launcher too unless the launch itself failed; one
    that succeeds has read an integrity record that matches the artifact, found
    the free-space floor met, and holds exactly the budget asked for, which its
    reservation gives back once and only once.  The files are not touched. *)
Theorem restore_all_or_nothing m b el sidecar s s' r :
  ledger_ok s.(st_ledger) -> budget_typed b ->
  execute_with_integrity_sidecar m b el sidecar s = (s', r) ->
  s'.(st_world).(files) = s.(st_world).(files) /\
  match r with
  | Ok rep =>
      accounted s.(st_ledger) s'.(st_ledger) b rep /\
      (exists record artifact, s.(st_world).(files) !! sidecar = Some record /\
         s.(st_world).(files) !! path m = Some artifact /\ deserialize record = Ok (integrity_of artifact)) /\
      (exists free, (available_disk (snapshot_output_disk_root (path m)) s.(st_probe)).2 = Ok free /\
         as_bytes DEFAULT_RUNTIME_MINIMUM_FREE_DISK <= as_bytes free)
  | Err (Launch _) => s'.(st_ledger) = s.(st_ledger)
  | Err _ => s'.(st_ledger) = s.(st_ledger) /\ s'.(st_launcher) = s.(st_launcher)
  end.
Proof.
  intros Hl Hb. unfold execute_with_integrity_sidecar.
  pose proof (integrity_read_world sidecar s.(st_world)) as Hw1.
  destruct (integrity_read_json sidecar _) as [w1 [i|e]] eqn:E1; [|by intros [= <- <-]]. cbn in Hw1.
  destruct (integrity_read_ok _ _ _ _ E1) as (record & Hrec & Hdec).
  unfold execute_with_integrity. cbn [st_ledger st_launcher st_probe st_world].
  pose proof (integrity_verify_world i m w1) as Hw2.
  destruct (integrity_verify i m w1) as [w2 [[]|e]] eqn:E2; cbn in Hw2; [|by intros [= <- <-]; cbn; rewrite Hw2].
  destruct (verify_ok _ _ _ _ E2) as (_ & bytes & Hbytes & ->).
  intros E. destruct (execute_spec m b el (mk_restore_state _ _ _ w2) s' r Hl Hb E) as [Hw Hr]. cbn in Hw, Hr. rewrite Hw, Hw2, Hw1.
  split; [done|]. destruct r as [rep|[]]; [|done|done|by destruct Hr].
  destruct Hr as (Ha & Hfree & _). split; [done|]. split; [|done].
  exists record, bytes. rewrite <- Hw1 at 2. by split_and!.
Qed.
End Restored.

(** *** Sidecars protect the artifact *)
Section Protected.
Context {L Sess LE P PE : Type} `{SnapshotSessionLauncher L Sess LE, DiskPressureProbe P PE}.
Context `{Sha256, SerdeRoundtrip SnapshotArtifactIntegrity, SerdeTotal SnapshotArtifactManifest}.
(** An artifact that is not its own sidecar. *)
Definition plain_artifact (a : string) : Prop :=
  path_file_name a <> None /\ manifest_sidecar_path a <> a /\ integrity_sidecar_path a <> a.
Lemma sidecars_distinct a : path_file_name a <> None -> manifest_sidecar_path a <> integrity_sidecar_path a.
Proof.
  intros Ha E. unfold manifest_sidecar_path, integrity_sidecar_path, with_extension in E.
  destruct (path_file_name a) as [n|]; [|done]. by apply (inj (String.append _)), (inj (String.append _)) in E.
Qed.
(** The files after the sidecars of an artifact were written. *)
Lemma write_sidecars_ok m fs c :
  plain_artifact (path m) -> fs !! path m = Some c ->
  exists md id, deserialize id = Ok (integrity_of c) /\
    write_snapshot_artifact_sidecars m (mk_world fs []) =
      (mk_world (<[integrity_sidecar_path (path m) := id]> (<[manifest_sidecar_path (path m) := md]> fs)) [], Ok tt).
Proof.
  intros (Hn & Hm & Hi) Hc. destruct (serde_total m) as (md & Hmd), (serde_roundtrip (integrity_of c)) as (id & Hid & Hdec).
  exists md, id. split; [done|]. unfold write_snapshot_artifact_sidecars, hm_map_err, manifest_write_json, integrity_from_file,
    integrity_write_json, read_bytes, read_file, hm_res, write_contents, call_leaving.
  unfold mbind, HM_bind, mret, HM_ret. rewrite Hmd. cbn. rewrite lookup_insert_ne, Hc by done. cbn. by rewrite Hid.
Qed.
(** C14: a restore with the sidecar refuses an artifact that is not the one that
    was recorded.  After the sidecars of an artifact were written, whatever the
    artifact contains by then, restoring it goes ahead exactly when the contents
    are the recorded ones; otherwise it fails with an integrity error before
    disk, ledger or launcher are looked at.  (SHA-256 is assumed to yield bytes
    and to tell these two contents apart if they have the same length.) *)
Theorem sidecar_protects_artifact m b el fs recorded (now : list Z) (led : CapacityLedger) (la : L) (pr : P) :
  plain_artifact (path m) -> fs !! path m = Some recorded ->
  (length now = length recorded -> sha256_digest now = sha256_digest recorded -> now = recorded) ->
  (forall c, Forall (in_uint 8) (sha256_digest c)) ->
  let w := (write_snapshot_artifact_sidecars m (mk_world fs [])).1 in
  let s := mk_restore_state led la pr (mk_world (<[path m := now]> w.(files)) []) in
  (write_snapshot_artifact_sidecars m (mk_world fs [])).2 = Ok tt /\
  execute_with_integrity_sidecar (Sess := Sess) m b el (integrity_sidecar_path (path m)) s =
    (if decide (now = recorded) then execute_with_disk_probe m b el s
     else (s, Err (Integrity (integrity_error_text
       (if decide (length now = length recorded)
        then Sha256Mismatch (ArtifactFiles.sha256_hex recorded) (ArtifactFiles.sha256_hex now)
        else SizeMismatch (Z.of_nat (length recorded)) (Z.of_nat (length now))))))).
Proof.
  intros Hp Hrec Hcol Hbytes. destruct (write_sidecars_ok m fs recorded Hp Hrec) as (md & id & Hdec & ->).
  cbn [fst snd]. split; [done|]. destruct Hp as (Hn & Hm & Hi). cbn [files].
  unfold execute_with_integrity_sidecar, integrity_read_json, read_bytes, read_file, hm_res. unfold mbind, HM_bind. cbn.
  rewrite lookup_insert_ne, lookup_insert_eq by done. cbn. rewrite Hdec. cbn.
  unfold execute_with_integrity. cbn [st_world]. rewrite (verify_runs m _ now) by (cbn; apply lookup_insert_eq).
  unfold integrity_matches, integrity_of. cbn [ai_size_bytes ai_sha256_hex].
  destruct (decide (now = recorded)) as [->|Hne].
  { by rewrite Z.eqb_refl, String.eqb_refl. }
  destruct (decide (length now = length recorded)) as [Hlen|Hlen].
  - rewrite Hlen, Z.eqb_refl. cbn. destruct (String.eqb_spec (ArtifactFiles.sha256_hex now) (ArtifactFiles.sha256_hex recorded)) as [E|]; [|done].
    exfalso. apply Hne, Hcol; [done|]. by apply hex_bytes_inj.
  - replace (_ =? _) with false by lia. done.
Qed.
End Protected.

(** *** An instance *)
Module RestoreDemo.
(** A launcher that counts its launches, a host with 50 GiB free, and a digest
    that is enough for the contents below. *)
Instance demo_launcher : SnapshotSessionLauncher nat string string := fun rq n => (S n, Ok (logical_id rq.(rr_manifest))).
Instance demo_probe : DiskPressureProbe unit string := fun _ u => (u, Ok (gib 50)).
Instance demo_sha : Sha256 := fun l => [fold_right Z.add 0 l mod 256].
Definition codes (s : string) : list Z := code <$> String.list_ascii_of_string s.
Definition uncodes (l : list Z) : string := String.string_of_list_ascii (ascii_of <$> l).
Instance integrity_serde : Serde SnapshotArtifactIntegrity := {|
  serialize i := Ok (i.(ai_size_bytes) :: codes i.(ai_sha256_hex));
  deserialize l := match l with [] => Err "empty"%string | n :: l => Ok (mk_artifact_integrity n (uncodes l)) end
|}.
Instance manifest_serde : Serde SnapshotArtifactManifest := {|
  serialize m := Ok (codes (logical_id m));
  deserialize _ := Err "unsupported"%string
|}.
Instance integrity_roundtrip : SerdeRoundtrip SnapshotArtifactIntegrity.
Proof.
  intros [n s]. eexists. split; [done|]. cbn. f_equal. f_equal. unfold uncodes, codes.
  rewrite <- list_fmap_compose. rewrite (list_fmap_ext _ id) by (intros ? c _; cbn; by rewrite ascii_of_code).
  rewrite list_fmap_id. apply String.string_of_list_ascii_of_string.
Qed.
Instance manifest_total : SerdeTotal SnapshotArtifactManifest.
Proof. intros m. eexists. done. Qed.
Definition demo_manifest : SnapshotArtifactManifest := manifest_base "base" "/snap/base.vz".
Definition demo_files : Files := {[ "/snap/base.vz"%string := [1; 2; 3] ]}.
Definition demo_state (fs : Files) : RestoreState nat unit := mk_restore_state (ledger_new demo_capacity) 0%nat tt (mk_world fs []).
Definition with_sidecars : Files := (write_snapshot_artifact_sidecars demo_manifest (mk_world demo_files [])).1.(files).
End RestoreDemo.
Import RestoreDemo.
Lemma restore_all_or_nothing_witness :
  exists s' rep, execute_with_integrity_sidecar demo_manifest demo_request 5 "/snap/base.integrity.json" (demo_state with_sidecars)
    = (s', Ok rep) /\ accounted (ledger_new demo_capacity) s'.(st_ledger) demo_request rep.
Proof.
  destruct (execute_with_integrity_sidecar demo_manifest demo_request 5 "/snap/base.integrity.json" (demo_state with_sidecars))
    as [s' r] eqn:E.
  pose proof (restore_all_or_nothing demo_manifest demo_request 5 "/snap/base.integrity.json" (demo_state with_sidecars) s' r
    (ledger_new_ok _ demo_capacity_typed) demo_request_typed E) as [_ Hr].
  assert (Hok : is_ok r = true) by (replace r with (execute_with_integrity_sidecar demo_manifest demo_request 5
    "/snap/base.integrity.json" (demo_state with_sidecars)).2 by (by rewrite E); vm_compute; reflexivity).
  destruct r as [rep|e]; [|done]. exists s', rep. by destruct Hr as [Ha _].
Defined.
Lemma sidecar_protects_artifact_witness :
  let s := demo_state (<["/snap/base.vz"%string := [1; 2; 4]]> with_sidecars) in
  execute_with_integrity_sidecar demo_manifest demo_request 5 "/snap/base.integrity.json" s
  = (s, Err (Integrity "snapshot artifact sha256 mismatch")).
Proof.
  refine (proj2 (sidecar_protects_artifact demo_manifest demo_request 5 demo_files [1; 2; 3] [1; 2; 4]
    (ledger_new demo_capacity) 0%nat tt _ _ _ _)).
  - split_and!; by vm_compute.
  - reflexivity.
  - by vm_compute.
  - intros c. apply Forall_singleton. split; [apply Z.mod_pos_bound; lia|]. apply Z.mod_pos_bound. lia.
Defined.
End RestoreProofs.
