(* ===== verification/RuntimePool.v ===== *)
(** * The runtime's warm pool ([crates/runtime/src/warm_pool.rs])

    Sessions restored ahead of time, kept in queues beside the admission
    ledger's queues of entries.  [Retained] holds the queues of sessions and
    what it means that they mirror the ledger; the pool, its supervisor and its
    service follow.  Restoring goes through the launcher and the disk probe of
    [RuntimeRestore]; what a call leaves of them is part of its result. *)
From S2P Require Import Prelude BTree Types HostPaths Capacity WarmPool Artifacts Admission RuntimeRestore Trace.
Import Sizes Replenish Disk Restore Trace.Samples.

(** ** Reports and errors *)
Record WarmPoolMaintenanceReport (Sess : Type) := mk_maintenance { wr_session : Sess; wr_entry : WarmPoolEntry }.
Arguments mk_maintenance {Sess}.
Arguments wr_session {Sess}.
Arguments wr_entry {Sess}.
Record WarmPoolCheckoutReport (Sess : Type) := mk_checkout {
  co_session : Sess;
  co_entry : WarmPoolEntry;
  co_reservation : ActiveSessionReservation;
  co_benchmark_samples : list BenchmarkSample
}.
Arguments mk_checkout {Sess}.
Arguments co_session {Sess}.
Arguments co_entry {Sess}.
Arguments co_reservation {Sess}.
Arguments co_benchmark_samples {Sess}.
Inductive WarmPoolMaintenanceError (E : Type) := MaintainCapacity (e : CapacityError) | MaintainLaunch (source : E).
Arguments MaintainCapacity {E}.
Arguments MaintainLaunch {E}.
Inductive WarmPoolCheckoutError (E : Type) := CheckoutCapacity (e : CapacityError) | CheckoutFailed (source : E).
Arguments CheckoutCapacity {E}.
Arguments CheckoutFailed {E}.
Inductive SnapshotWarmPoolCheckoutError := PoolCapacity (e : CapacityError) | MissingRetainedSession.

(** ** One entry at a time, the sessions held elsewhere *)
Section Entries.
Context {L C Sess LE CE : Type}.
(** [WarmPoolSessionLauncher] and [WarmPoolSessionCheckout]. *)
Context (restore_warm_pool_entry : WarmPoolKey -> SnapshotArtifactManifest -> ResourceBudget -> L -> L * result LE Sess).
Context (checkout_warm_pool_entry : WarmPoolEntry -> C -> C * result CE Sess).
(** [RuntimeWarmPoolMaintain::execute]. *)
Definition maintain_execute (cap : CapacityLedger) (pool : WarmPoolLedger) (key : WarmPoolKey)
    (manifest : SnapshotArtifactManifest) (budget : ResourceBudget) (launcher : L)
  : CapacityLedger * WarmPoolLedger * L * result (WarmPoolMaintenanceError LE) (WarmPoolMaintenanceReport Sess) :=
  let '(launcher, restored) := restore_warm_pool_entry key manifest budget launcher in
  match restored with
  | Err source => (cap, pool, launcher, Err (MaintainLaunch source))
  | Ok session =>
      let entry := mk_entry key (logical_id manifest) budget in
      match maintain pool entry cap with
      | ((pool, cap), Err e) => (cap, pool, launcher, Err (MaintainCapacity e))
      | ((pool, cap), Ok _) => (cap, pool, launcher, Ok (mk_maintenance session entry))
      end
  end.
(** [RuntimeWarmPoolCheckout::execute_with_elapsed]: an entry whose checkout
    fails is released and maintained again. *)
Definition checkout_execute (cap : CapacityLedger) (pool : WarmPoolLedger) (key : WarmPoolKey) (elapsed : Z) (c : C)
  : CapacityLedger * WarmPoolLedger * C * option (result (WarmPoolCheckoutError CE) (WarmPoolCheckoutReport Sess)) :=
  match checkout pool key cap with
  | ((pool, cap), Ok None) => (cap, pool, c, None)
  | ((pool, cap), Err e) => (cap, pool, c, Some (Err (CheckoutCapacity e)))
  | ((pool, cap), Ok (Some entry)) =>
      let '(c, r) := checkout_warm_pool_entry entry c in
      match r with
      | Err source =>
          let '((pool, cap), _) := maintain pool entry (release_active cap (budget entry)) in
          (cap, pool, c, Some (Err (CheckoutFailed source)))
      | Ok session =>
          (cap, pool, c, Some (Ok (mk_checkout session entry (reservation_new (budget entry))
                                     [latency "warm_pool_checkout" elapsed])))
      end
  end.
End Entries.

(** ** Retained sessions *)
Module Retained.
Section Retained.
Context {Sess : Type}.
(** [BTreeMap<WarmPoolKey, VecDeque<WarmPoolMaintenanceReport<S>>>]. *)
Abbreviation sessions := (list (WarmPoolKey * list (WarmPoolMaintenanceReport Sess))).
(** [entry(key).or_default().push_back(report)]. *)
Definition push_session (k : WarmPoolKey) (r : WarmPoolMaintenanceReport Sess) (m : sessions) : sessions :=
  bt_insert k (default [] (bt_get k m) ++ [r]) m.
(** [get_mut(key)], [pop_front], and the key goes with its last session. *)
Definition pop_session (k : WarmPoolKey) (m : sessions) : sessions * option (WarmPoolMaintenanceReport Sess) :=
  match bt_get k m with
  | None => (m, None)
  | Some [] => (bt_remove k m, None)
  | Some [r] => (bt_remove k m, Some r)
  | Some (r :: rs) => (bt_insert k rs m, Some r)
  end.

(** The ledger the sessions should have. *)
Definition mirror_queue (p : WarmPoolKey * list (WarmPoolMaintenanceReport Sess)) : WarmPoolKey * list WarmPoolEntry :=
  (p.1, wr_entry <$> p.2).
Definition mirror (m : sessions) : WarmPoolLedger := mirror_queue <$> m.
Lemma mirror_get k m : bt_get k (mirror m) = (fun q : list (WarmPoolMaintenanceReport Sess) => wr_entry <$> q) <$> bt_get k m.
Proof.
  induction m as [|[k' q] m IH]; [done|]. unfold mirror. rewrite fmap_cons. cbn [bt_get mirror_queue fst snd].
  destruct (kcmp k k'); [done..|exact IH].
Qed.
Lemma mirror_insert k q m : mirror (bt_insert k q m) = bt_insert k (wr_entry <$> q) (mirror m).
Proof.
  induction m as [|[k' q'] m IH]; [done|]. unfold mirror in *. rewrite fmap_cons. cbn [bt_insert bt_remove mirror_queue fst snd].
  destruct (kcmp k k'); [done..|]. rewrite fmap_cons. by f_equal.
Qed.
Lemma mirror_remove k m : mirror (bt_remove k m) = bt_remove k (mirror m).
Proof.
  induction m as [|[k' q'] m IH]; [done|]. unfold mirror in *. rewrite fmap_cons. cbn [bt_insert bt_remove mirror_queue fst snd].
  destruct (kcmp k k'); [done..|]. rewrite fmap_cons. by f_equal.
Qed.
Lemma mirror_push k r m :
  mirror (push_session k r m) = bt_insert k (default [] (bt_get k (mirror m)) ++ [wr_entry r]) (mirror m).
Proof.
  unfold push_session. rewrite mirror_insert, mirror_get. f_equal. rewrite fmap_app. by destruct (bt_get k m).
Qed.
(** Maintaining an entry and retaining its session go together. *)
Lemma mirror_maintain m r cap pool' cap' x :
  maintain (mirror m) (wr_entry r) cap = ((pool', cap'), x) ->
  match x with Ok _ => pool' = mirror (push_session (key (wr_entry r)) r m) | Err _ => pool' = mirror m end.
Proof.
  unfold maintain. destruct (reserve_warm_pool cap (budget (wr_entry r))) as [c [[]|e]]; intros [= <- <- <-]; [|done].
  by rewrite mirror_push.
Qed.
(** Checking out an entry of a coherent pool, its session is there. *)
Lemma mirror_checkout m cap k pool' cap' e :
  checkout (mirror m) k cap = ((pool', cap'), Ok (Some e)) ->
  exists r, pop_session k m = ((pop_session k m).1, Some r) /\ wr_entry r = e /\ pool' = mirror (pop_session k m).1.
Proof.
  unfold checkout, pop_session, put_back. rewrite mirror_get. destruct (bt_get k m) as [[|r [|r' rs]]|]; cbn; try done;
    (destruct (promote_warm_pool_to_active cap (budget (wr_entry r))) as [c [[]|]]; intros [= <- <- <-]);
    exists r; (split_and!; [done..|]); cbn; by rewrite ?mirror_remove, ?mirror_insert.
Qed.
Lemma mirror_expire m cap k pool' cap' e :
  expire (mirror m) k cap = ((pool', cap'), Some e) ->
  exists r, pop_session k m = ((pop_session k m).1, Some r) /\ wr_entry r = e /\ pool' = mirror (pop_session k m).1.
Proof.
  unfold expire, pop_session, put_back. rewrite mirror_get. destruct (bt_get k m) as [[|r [|r' rs]]|]; cbn; try done;
    intros [= <- <- <-]; exists r; (split_and!; [done..|]); cbn; by rewrite ?mirror_remove, ?mirror_insert.
Qed.
(** All retained sessions, key by key, oldest first. *)
Definition all_sessions (m : sessions) : list Sess := wr_session <$> mjoin m.*2.
Lemma all_sessions_mirror m : all_entries (mirror m) = wr_entry <$> mjoin m.*2.
Proof.
  unfold all_entries, mirror. induction m as [|[k q] m IH]; [done|]. cbn. rewrite fmap_app. by f_equal.
Qed.
End Retained.
End Retained.
Import Retained.

(** ** The snapshot warm pool *)
Record RuntimeSnapshotWarmPool (Sess : Type) := mk_runtime_pool {
  rp_capacity : CapacityLedger;
  rp_ledger : WarmPoolLedger;
  rp_sessions : list (WarmPoolKey * list (WarmPoolMaintenanceReport Sess))
}.
Arguments mk_runtime_pool {Sess}.
Arguments rp_capacity {Sess}.
Arguments rp_ledger {Sess}.
Arguments rp_sessions {Sess}.
Record RuntimeWarmPoolReplenishmentReport (E : Type) := mk_replenishment {
  re_maintained : list WarmPoolKey;
  re_skipped : list WarmPoolReplenishmentSkip;
  re_failed : list (WarmPoolKey * WarmPoolMaintenanceError E)
}.
Arguments mk_replenishment {E}.
Arguments re_maintained {E}.
Arguments re_skipped {E}.
Arguments re_failed {E}.
Section Pool.
Context {L Sess LE P PE : Type} `{SnapshotSessionLauncher L Sess LE, DiskPressureProbe P PE}.
Abbreviation Pool := (RuntimeSnapshotWarmPool Sess).
Definition pool_new (cap : CapacityLedger) : Pool := mk_runtime_pool cap [] [].
Definition pool_contains (p : Pool) (k : WarmPoolKey) : bool :=
  match bt_get k p.(rp_sessions) with Some (_ :: _) => true | _ => false end.

(** [maintain_with_disk_probe_elapsed]; the retained report it returns a
    reference to is the last of its key. *)
Definition pool_maintain (p : Pool) (key : WarmPoolKey) (manifest : SnapshotArtifactManifest) (budget : ResourceBudget)
    (launcher : L) (probe : P)
  : Pool * L * P * exec (WarmPoolMaintenanceError LE) (WarmPoolMaintenanceReport Sess) :=
  let guard := mk_disk_guard (snapshot_output_disk_root (path manifest)) DEFAULT_RUNTIME_WARM_POOL_MINIMUM_FREE_DISK in
  let '(probe, checked) := check guard probe in
  match checked with
  | Err e => (p, launcher, probe, Failed (MaintainCapacity (disk_pressure_to_capacity_error e)))
  | Ok _ =>
      let '(launcher, restored) := restore_from_snapshot (mk_restore_request manifest budget) launcher in
      match restored with
      | Err source => (p, launcher, probe, Failed (MaintainLaunch source))
      | Ok session =>
          let entry := mk_entry key (logical_id manifest) budget in
          match maintain p.(rp_ledger) entry p.(rp_capacity) with
          | ((ledger, cap), Err e) =>
              (mk_runtime_pool cap ledger p.(rp_sessions), launcher, probe, Failed (MaintainCapacity e))
          | ((ledger, cap), Ok _) =>
              let ss := push_session key (mk_maintenance session entry) p.(rp_sessions) in
              (mk_runtime_pool cap ledger ss, launcher, probe, unwrap (bt_get key ss ≫= last))
          end
      end
  end.
(** [checkout_with_elapsed]. *)
Definition pool_checkout (p : Pool) (k : WarmPoolKey) (elapsed : Z)
  : Pool * result SnapshotWarmPoolCheckoutError (option (WarmPoolCheckoutReport Sess)) :=
  match checkout p.(rp_ledger) k p.(rp_capacity) with
  | ((ledger, cap), Err e) => (mk_runtime_pool cap ledger p.(rp_sessions), Err (PoolCapacity e))
  | ((ledger, cap), Ok None) => (mk_runtime_pool cap ledger p.(rp_sessions), Ok None)
  | ((ledger, cap), Ok (Some entry)) =>
      match pop_session k p.(rp_sessions) with
      | (ss, None) => (mk_runtime_pool (release_active cap (budget entry)) ledger ss, Err MissingRetainedSession)
      | (ss, Some report) =>
          (mk_runtime_pool cap ledger ss,
           Ok (Some (mk_checkout report.(wr_session) report.(wr_entry) (reservation_new (budget entry))
                       [latency "warm_pool_checkout" elapsed])))
      end
  end.
(** The loop of [replenish_with_disk_probe_elapsed]; a panic ends it. *)
Fixpoint replenish_loop (p : Pool) (launcher : L) (probe : P) (targets : list WarmPoolReplenishmentTarget)
    (maintained : list WarmPoolKey) (failed : list (WarmPoolKey * WarmPoolMaintenanceError LE))
  : Pool * L * P * option (list WarmPoolKey * list (WarmPoolKey * WarmPoolMaintenanceError LE)) :=
  match targets with
  | [] => (p, launcher, probe, Some (maintained, failed))
  | t :: targets =>
      let '(p, launcher, probe, r) := pool_maintain p (t_key t) (t_manifest t) (t_budget t) launcher probe in
      match r with
      | Done report => replenish_loop p launcher probe targets (maintained ++ [key report.(wr_entry)]) failed
      | Failed e => replenish_loop p launcher probe targets maintained (failed ++ [(t_key t, e)])
      | Panic => (p, launcher, probe, None)
      end
  end.
Definition pool_replenish (p : Pool) (targets : list WarmPoolReplenishmentTarget) (launcher : L) (probe : P)
  : Pool * L * P * option (RuntimeWarmPoolReplenishmentReport LE) :=
  let plan := from_targets targets p.(rp_ledger) p.(rp_capacity) in
  let '(p, launcher, probe, r) := replenish_loop p launcher probe (r_maintain plan) [] [] in
  (p, launcher, probe, '(maintained, failed) ← r; Some (mk_replenishment maintained (r_skipped plan) failed)).

(** ** The supervisor and the service

    [run_cycles_with_disk_probe]: replenish, sleep, replenish, ... *)
Record RuntimeWarmPoolSupervisor := mk_supervisor { sv_targets : list WarmPoolReplenishmentTarget; sv_interval : Z }.
Fixpoint run_cycles (sv : RuntimeWarmPoolSupervisor) (p : Pool) (launcher : L) (probe : P) (cycles : nat)
  : Pool * L * P * option (list (RuntimeWarmPoolReplenishmentReport LE)) :=
  match cycles with
  | O => (p, launcher, probe, Some [])
  | S cycles =>
      let '(p, launcher, probe, r) := pool_replenish p sv.(sv_targets) launcher probe in
      match r with
      | None => (p, launcher, probe, None)
      | Some report =>
          let '(p, launcher, probe, rs) := run_cycles sv p launcher probe cycles in
          (p, launcher, probe, cons report <$> rs)
      end
  end.
Record RuntimeWarmPoolService := mk_service { ws_pool : Pool; ws_supervisor : RuntimeWarmPoolSupervisor; ws_launcher : L }.
Definition service_tick (s : RuntimeWarmPoolService) (probe : P)
  : RuntimeWarmPoolService * P * option (RuntimeWarmPoolReplenishmentReport LE) :=
  let '(p, launcher, probe, r) := pool_replenish s.(ws_pool) s.(ws_supervisor).(sv_targets) s.(ws_launcher) probe in
  (mk_service p s.(ws_supervisor) launcher, probe, r).
Definition service_checkout (s : RuntimeWarmPoolService) (k : WarmPoolKey) (elapsed : Z)
  : RuntimeWarmPoolService * result SnapshotWarmPoolCheckoutError (option (WarmPoolCheckoutReport Sess)) :=
  let '(p, r) := pool_checkout s.(ws_pool) k elapsed in (mk_service p s.(ws_supervisor) s.(ws_launcher), r).
(** The spawned service: its task ticks and its handle checks out, each under
    the mutex, in any order, until [shutdown] ends the task. *)
Inductive service_step : RuntimeWarmPoolService * P -> RuntimeWarmPoolService * P -> Prop :=
| step_tick s probe s' probe' r : service_tick s probe = (s', probe', r) -> service_step (s, probe) (s', probe')
| step_checkout s probe k elapsed s' r : service_checkout s k elapsed = (s', r) -> service_step (s, probe) (s', probe).
End Pool.
Arguments RuntimeWarmPoolService : clear implicits.

(** ** The sessions mirror the ledger *)
Module PoolProofs.
Section Proofs.
Context {L Sess LE P PE : Type} `{SnapshotSessionLauncher L Sess LE, DiskPressureProbe P PE}.
Abbreviation Pool := (RuntimeSnapshotWarmPool Sess).
Abbreviation Service := (RuntimeWarmPoolService L Sess).
Implicit Types (p : Pool) (t : WarmPoolReplenishmentTarget).

Definition live p : Prop := pool_inv p.(rp_ledger) p.(rp_capacity) /\ p.(rp_ledger) = mirror p.(rp_sessions).
Lemma live_new c : budget_typed c -> live (pool_new (ledger_new c)).
Proof. intros Hc. split; [by apply pool_inv_empty|done]. Qed.

(** What restoring a target does by itself: the disk check, then the launch. *)
Definition attempt t (la : L) (pr : P) : L * P * result (WarmPoolMaintenanceError LE) Sess :=
  let guard := mk_disk_guard (snapshot_output_disk_root (path (t_manifest t))) DEFAULT_RUNTIME_WARM_POOL_MINIMUM_FREE_DISK in
  match check guard pr with
  | (pr, Err e) => (la, pr, Err (MaintainCapacity (disk_pressure_to_capacity_error e)))
  | (pr, Ok _) =>
      let '(la, r) := restore_from_snapshot (mk_restore_request (t_manifest t) (t_budget t)) la in
      (la, pr, map_err MaintainLaunch r)
  end.
Definition report_of t (s : Sess) : WarmPoolMaintenanceReport Sess := mk_maintenance s (entry_of t).
Definition retain p t (s : Sess) : list (WarmPoolKey * list (WarmPoolMaintenanceReport Sess)) :=
  push_session (t_key t) (report_of t s) p.(rp_sessions).
(** The state after retaining a session: what the ledger says of it. *)
Definition retained p t (s : Sess) p' : Prop :=
  live p' /\ p'.(rp_sessions) = retain p t s /\ active p'.(rp_capacity) = active p.(rp_capacity) /\
  forall d, get d (available p'.(rp_capacity)) = get d (available p.(rp_capacity)) - get d (t_budget t).
Lemma pool_maintain_spec p t la pr :
  live p -> budget_typed (t_budget t) -> budget_fits (t_budget t) (available p.(rp_capacity)) = true ->
  match attempt t la pr with
  | (la', pr', Err e) => pool_maintain p (t_key t) (t_manifest t) (t_budget t) la pr = (p, la', pr', Failed e)
  | (la', pr', Ok s) => exists p',
      pool_maintain p (t_key t) (t_manifest t) (t_budget t) la pr = (p', la', pr', Done (report_of t s)) /\ retained p t s p'
  end.
Proof.
  intros [Hi Hm] Ht Hf. unfold attempt, pool_maintain. destruct (check _ pr) as [pr' [rep|e]]; [|done].
  destruct (restore_from_snapshot _ la) as [la' [s|e]]; [|done]. cbn [map_err].
  pose proof (maintain_spec _ _ (entry_of t) Hi Ht) as Hs.
  change (budget (entry_of t)) with (t_budget t) in Hs. rewrite (proj2 (capacity_error_none _ _) Hf) in Hs.
  destruct Hs as (pool' & cap' & Hrun & Hi' & Hp & Hc & Ha & _). fold (entry_of t). rewrite Hrun. fold (report_of t s).
  fold (retain p t s). eexists. split.
  { do 2 f_equal. unfold retain, push_session. rewrite bt_get_insert. cbn. by rewrite last_snoc. }
  unfold retained. cbn. split_and!; [|done|done|].
  - split; [done|]. cbn. rewrite Hm in Hrun. apply (mirror_maintain _ (report_of t s)) in Hrun. done.
  - intros d. rewrite !get_available by (apply Hi || apply Hi'). rewrite Hc, Ha.
    destruct Hi as (_ & _ & Hw), Hi' as (_ & _ & Hw'). rewrite Hw, Hw', (warm_total_perm _ _ _ d Hp). cbn. lia.
Qed.

(** Restoring the targets one after the other, without a pool. *)
Fixpoint attempts (ts : list WarmPoolReplenishmentTarget) (la : L) (pr : P)
  : L * P * list (WarmPoolReplenishmentTarget * result (WarmPoolMaintenanceError LE) Sess) :=
  match ts with
  | [] => (la, pr, [])
  | t :: ts =>
      let '(la, pr, r) := attempt t la pr in
      let '(la, pr, rs) := attempts ts la pr in (la, pr, (t, r) :: rs)
  end.
Abbreviation outcomes := (list (WarmPoolReplenishmentTarget * result (WarmPoolMaintenanceError LE) Sess)).
Fixpoint restored (rs : outcomes) : list (WarmPoolReplenishmentTarget * Sess) :=
  match rs with [] => [] | (t, Ok s) :: rs => (t, s) :: restored rs | (_, Err _) :: rs => restored rs end.
Fixpoint refused (rs : outcomes) : list (WarmPoolKey * WarmPoolMaintenanceError LE) :=
  match rs with [] => [] | (t, Err e) :: rs => (t_key t, e) :: refused rs | (_, Ok _) :: rs => refused rs end.
Definition retain_all (m : list (WarmPoolKey * list (WarmPoolMaintenanceReport Sess)))
    (l : list (WarmPoolReplenishmentTarget * Sess)) : list (WarmPoolKey * list (WarmPoolMaintenanceReport Sess)) :=
  foldl (fun m ts => push_session (t_key ts.1) (report_of ts.1 ts.2) m) m l.
Lemma replenish_loop_spec ts : forall p la pr ok bad,
  live p -> Forall (fun t => budget_typed (t_budget t)) ts ->
  (forall d, planned_total d ts <= get d (available p.(rp_capacity))) ->
  let '(la', pr', rs) := attempts ts la pr in
  exists p', replenish_loop p la pr ts ok bad
      = (p', la', pr', Some (ok ++ (t_key ∘ fst <$> restored rs), bad ++ refused rs)) /\
    live p' /\ p'.(rp_sessions) = retain_all p.(rp_sessions) (restored rs) /\
    active p'.(rp_capacity) = active p.(rp_capacity) /\
    forall d, get d (available p'.(rp_capacity)) <= get d (available p.(rp_capacity)).
Proof.
  induction ts as [|t ts IH]; intros p la pr ok bad Hlive Ht Hle; cbn [attempts replenish_loop].
  { exists p. by rewrite !app_nil_r. }
  apply Forall_cons in Ht as [Htt Ht].
  assert (Hpos : forall d, 0 <= planned_total d ts).
  { intros d. apply sumZ_nonneg. eapply Forall_impl; [exact Ht|]. intros x Hx. by apply typed_nonneg. }
  assert (Hfit : budget_fits (t_budget t) (available (rp_capacity p)) = true).
  { apply budget_fits_dims. intros d. specialize (Hle d). specialize (Hpos d). unfold planned_total in *. cbn in Hle. lia. }
  pose proof (pool_maintain_spec p t la pr Hlive Htt Hfit) as Hm.
  destruct (attempt t la pr) as [[la1 pr1] [s|e]].
  - destruct Hm as (p1 & -> & Hlive1 & Hs1 & Ha1 & Hav1).
    pose proof (IH p1 la1 pr1 (ok ++ [t_key t]) bad Hlive1 Ht) as H1. destruct (attempts ts la1 pr1) as [[la2 pr2] rs].
    destruct H1 as (p' & Hrun & Hl' & Hs' & Ha' & Hav').
    { intros d. specialize (Hle d). rewrite Hav1. unfold planned_total in *. cbn in Hle. lia. }
    exists p'. cbn [report_of wr_entry entry_of key restored refused]. rewrite Hrun, fmap_cons, <- app_assoc.
    split_and!; [done|done| |congruence|].
    + rewrite Hs', Hs1. done.
    + intros d. specialize (Hav' d). rewrite Hav1 in Hav'. pose proof (typed_nonneg _ d Htt). lia.
  - rewrite Hm. pose proof (IH p la1 pr1 ok (bad ++ [(t_key t, e)]) Hlive Ht) as H1.
    destruct (attempts ts la1 pr1) as [[la2 pr2] rs]. destruct H1 as (p' & Hrun & H').
    { intros d. specialize (Hle d). unfold planned_total in *. cbn in Hle. pose proof (typed_nonneg _ d Htt). lia. }
    exists p'. cbn [restored refused]. by rewrite Hrun, <- app_assoc.
Qed.
Lemma replenish_spec p targets la pr :
  live p -> Forall (fun t => budget_typed (t_budget t)) targets ->
  let plan := from_targets targets p.(rp_ledger) p.(rp_capacity) in
  let '(la', pr', rs) := attempts (r_maintain plan) la pr in
  exists p', pool_replenish p targets la pr
      = (p', la', pr', Some (mk_replenishment (t_key ∘ fst <$> restored rs) (r_skipped plan) (refused rs))) /\
    live p' /\ p'.(rp_sessions) = retain_all p.(rp_sessions) (restored rs) /\
    active p'.(rp_capacity) = active p.(rp_capacity) /\
    forall d, get d (available p'.(rp_capacity)) <= get d (available p.(rp_capacity)).
Proof.
  intros Hlive Ht plan. destruct Hlive as [Hi Hm].
  destruct (plan_loop_fits p.(rp_ledger) p.(rp_capacity) ltac:(apply Hi) targets [] [] budget_zero Ht) as [Hmt Hle];
    [by constructor|by intros []| |].
  { intros d. cbn. rewrite get_available by apply Hi. destruct Hi as (_ & [_ Hl] & _). specialize (Hl d).
    unfold planned_total. cbn. lia. }
  pose proof (replenish_loop_spec (r_maintain plan) p la pr [] [] (conj Hi Hm) Hmt Hle) as Hl.
  destruct (attempts (r_maintain plan) la pr) as [[la' pr'] rs]. destruct Hl as (p' & Hrun & H').
  exists p'. unfold pool_replenish. fold plan. by rewrite Hrun.
Qed.

(** Checking out takes the oldest session of the key, with its entry. *)
Lemma pool_checkout_spec p k el :
  live p ->
  match bt_get k p.(rp_sessions) with
  | Some (r :: rs) => exists p',
      pool_checkout p k el = (p', Ok (Some (mk_checkout r.(wr_session) r.(wr_entry)
        (reservation_new (budget r.(wr_entry))) [latency "warm_pool_checkout" el]))) /\
      live p' /\ p'.(rp_sessions) = (pop_session k p.(rp_sessions)).1 /\ key r.(wr_entry) = k /\
      budget_typed (budget r.(wr_entry)) /\ available p'.(rp_capacity) = available p.(rp_capacity) /\
      forall d, get d (active p'.(rp_capacity)) = get d (active p.(rp_capacity)) + get d (budget r.(wr_entry))
  | _ => pool_checkout p k el = (p, Ok None)
  end.
Proof.
  intros [Hi Hm]. destruct (checkout_spec _ _ k Hi) as (pool' & cap' & r & Hrun & Hi' & Hc & Hr).
  unfold pool_checkout. rewrite Hrun. pose proof (mirror_get k p.(rp_sessions)) as Hg. rewrite <- Hm in Hg.
  destruct r as [e|].
  - destruct Hr as (Hk & Hct & Hp & Ha & Hav). rewrite Hm in Hrun. destruct (mirror_checkout _ _ _ _ _ _ Hrun) as (r & Hpop & He & Hpool).
    rewrite Hpop. unfold WarmPool.contains in Hct. rewrite Hg in Hct.
    unfold pop_session in Hpop. destruct (bt_get k p.(rp_sessions)) as [[|r' rs]|]; try done.
    assert (r' = r) as -> by (destruct rs; by injection Hpop as ?). subst e.
    assert (budget_typed (budget (wr_entry r))).
    { pose proof (pool_entries_typed _ (proj1 Hi)) as Ht. rewrite Forall_forall in Ht. apply Ht. rewrite Hp. apply list_elem_of_here. }
    eexists. split; [done|]. split; [by split|]. by split_and!.
  - destruct Hr as (-> & -> & Hct). unfold WarmPool.contains in Hct. rewrite Hg in Hct. destruct p as [cap led ss]. cbn in *.
    by destruct (bt_get k ss) as [[|r rs]|].
Qed.

(** *** The service, through any interleaving of ticks and checkouts *)
Lemma service_step_live (s s' : Service) pr pr' :
  Forall (fun t => budget_typed (t_budget t)) s.(ws_supervisor).(sv_targets) -> live s.(ws_pool) ->
  service_step (s, pr) (s', pr') ->
  s'.(ws_supervisor) = s.(ws_supervisor) /\ live s'.(ws_pool) /\
  (forall d, get d (available s'.(ws_pool).(rp_capacity)) <= get d (available s.(ws_pool).(rp_capacity))) /\
  (forall d, get d (active s.(ws_pool).(rp_capacity)) <= get d (active s'.(ws_pool).(rp_capacity))).
Proof.
  intros Ht Hl Hs. remember (s, pr) as x eqn:Ex. remember (s', pr') as y eqn:Ey.
  destruct Hs as [s0 pr0 s1 pr1 r Hr|s0 pr0 k el s1 r Hr]; injection Ex as -> ->; injection Ey as -> ->.
  - unfold service_tick in Hr. pose proof (replenish_spec s.(ws_pool) _ s.(ws_launcher) pr Hl Ht) as Hsp. cbv zeta in Hsp.
    destruct (attempts _ _ _) as [[la1 pr1] rs]. destruct Hsp as (p' & Hrun & Hl' & _ & Ha & Hav). rewrite Hrun in Hr.
    injection Hr as <- <- <-. cbn. rewrite Ha. split_and!; done.
  - unfold service_checkout in Hr. pose proof (pool_checkout_spec s.(ws_pool) k el Hl) as Hsp.
    destruct (bt_get k _) as [[|rep rs]|].
    1,3: rewrite Hsp in Hr; injection Hr as <- <-; cbn; by split_and!.
    destruct Hsp as (p' & Hrun & Hl' & _ & _ & Hb & Hav & Ha). rewrite Hrun in Hr. injection Hr as <- <-. cbn. rewrite Hav.
    split_and!; [done..|]. intros d. rewrite Ha. pose proof (typed_nonneg _ d Hb). lia.
Qed.
Lemma service_steps_live x y :
  rtc service_step x y ->
  Forall (fun t => budget_typed (t_budget t)) x.1.(ws_supervisor).(sv_targets) -> live x.1.(ws_pool) ->
  y.1.(ws_supervisor) = x.1.(ws_supervisor) /\ live y.1.(ws_pool) /\
  (forall d, get d (available y.1.(ws_pool).(rp_capacity)) <= get d (available x.1.(ws_pool).(rp_capacity))).
Proof.
  induction 1 as [x|[s pr] [s' pr'] y Hs _ IH]; intros Ht Hl; [by split_and!|]. cbn [fst] in *.
  destruct (service_step_live _ _ _ _ Ht Hl Hs) as (Hsv & Hl' & Hav & _). rewrite Hsv in IH.
  destruct (IH Ht Hl') as (Hsv' & Hl'' & Hav'). split_and!; [done..|]. intros d. specialize (Hav d). specialize (Hav' d). lia.
Qed.
(** The pool has no operation that gives the budget of a checked-out session
    back: what is available only shrinks, so a target that does not fit once
    is skipped for ever. *)
Lemma pool_capacity_never_returns (s : Service) pr (s' : Service) pr' b :
  rtc service_step (s, pr) (s', pr') ->
  Forall (fun t => budget_typed (t_budget t)) s.(ws_supervisor).(sv_targets) -> live s.(ws_pool) ->
  budget_fits b (available s.(ws_pool).(rp_capacity)) = false ->
  budget_fits b (available s'.(ws_pool).(rp_capacity)) = false.
Proof.
  intros Hs Ht Hl Hf. destruct (service_steps_live _ _ Hs Ht Hl) as (_ & _ & Hav). cbn in Hav.
  destruct (budget_fits b (available s'.(ws_pool).(rp_capacity))) eqn:E; [|done].
  rewrite <- Hf. symmetry. apply budget_fits_dims. intros d. apply budget_fits_dims with (d := d) in E. specialize (Hav d). lia.
Qed.

(** C12: the warm-pool service never loses a session.  In every state the service
    reaches, by any interleaving of replenishment ticks and checkouts and
    whatever the launcher and the disk probe answer, the queues of sessions
    mirror the queues of the admission ledger and the warm reservation is their
    sum.  A checkout therefore never fails: it hands out the oldest session
    retained for the key, or nothing when there is none.  A tick retains every
    session the launcher restored for it, and reports exactly what was restored,
    skipped and refused. *)
Theorem warm_service_sound c sv la0 pr0 (s : Service) pr :
  budget_typed c -> Forall (fun t => budget_typed (t_budget t)) sv.(sv_targets) ->
  rtc service_step (mk_service (pool_new (ledger_new c)) sv la0, pr0) (s, pr) ->
  let p := s.(ws_pool) in
  live p /\
  (forall k el,
     match bt_get k p.(rp_sessions) with
     | Some (r :: rs) => exists s', service_checkout s k el = (s', Ok (Some (mk_checkout r.(wr_session) r.(wr_entry)
           (reservation_new (budget r.(wr_entry))) [latency "warm_pool_checkout" el]))) /\
         key r.(wr_entry) = k /\ s'.(ws_pool).(rp_sessions) = (pop_session k p.(rp_sessions)).1
     | _ => service_checkout s k el = (s, Ok None)
     end) /\
  let plan := from_targets sv.(sv_targets) p.(rp_ledger) p.(rp_capacity) in
  let '(la', pr', rs) := attempts (r_maintain plan) s.(ws_launcher) pr in
  exists s', service_tick s pr
      = (s', pr', Some (mk_replenishment (t_key ∘ fst <$> restored rs) (r_skipped plan) (refused rs))) /\
    s'.(ws_pool).(rp_sessions) = retain_all p.(rp_sessions) (restored rs) /\ s'.(ws_launcher) = la'.
Proof.
  intros Hc Ht Hs. destruct (service_steps_live _ _ Hs Ht (live_new c Hc)) as (Hsv & Hl & _). cbn [fst ws_supervisor ws_pool] in *.
  split; [done|]. split.
  - intros k el. pose proof (pool_checkout_spec s.(ws_pool) k el Hl) as Hsp. unfold service_checkout.
    destruct (bt_get k _) as [[|r rs]|]; [by rewrite Hsp; destruct s| |by rewrite Hsp; destruct s].
    destruct Hsp as (p' & -> & _ & Hss & Hk & _). by eexists.
  - pose proof (replenish_spec s.(ws_pool) sv.(sv_targets) s.(ws_launcher) pr Hl Ht) as Hsp. cbv zeta in Hsp |- *.
    destruct (attempts _ _ _) as [[la' pr'] rs]. destruct Hsp as (p' & Hrun & _ & Hss & _).
    unfold service_tick. rewrite Hsv, Hrun. by eexists.
Qed.
End Proofs.

Import RestoreProofs.RestoreDemo.
Definition demo_key : WarmPoolKey := mk_key "repo" "base-template" "apple-vz-arm64".
Definition demo_pool_target : WarmPoolReplenishmentTarget := mk_target demo_key demo_manifest demo_request.
Definition demo_service : RuntimeWarmPoolService nat string :=
  mk_service (pool_new (ledger_new demo_capacity)) (mk_supervisor [demo_pool_target] 0) 0%nat.
Definition demo_service_after : RuntimeWarmPoolService nat string := (service_tick demo_service tt).1.1.
Lemma warm_service_sound_witness :
  live demo_service_after.(ws_pool) /\
  exists s', service_checkout demo_service_after demo_key 3
    = (s', Ok (Some (mk_checkout "base"%string (mk_entry demo_key "base" demo_request) (reservation_new demo_request)
        [latency "warm_pool_checkout" 3]))).
Proof.
  destruct (warm_service_sound demo_capacity (mk_supervisor [demo_pool_target] 0) 0%nat tt demo_service_after tt
    demo_capacity_typed) as (Hl & Hco & _).
  - apply Forall_singleton. exact demo_request_typed.
  - apply rtc_once. by apply (step_tick _ _ _ _ (service_tick demo_service tt).2).
  - split; [exact Hl|]. specialize (Hco demo_key 3).
    assert (E : bt_get demo_key demo_service_after.(ws_pool).(rp_sessions)
      = Some [mk_maintenance "base"%string (mk_entry demo_key "base" demo_request)]) by (vm_compute; reflexivity).
    rewrite E in Hco. destruct Hco as (s' & Hrun & _). exists s'. exact Hrun.
Defined.
(** One session is restored, checked out, and the pool of a host with room for
    two is refilled once more; after the second checkout it stays empty. *)
Lemma checked_out_pool_stays_empty :
  let s1 := (service_checkout demo_service_after demo_key 0).1 in
  let s2 := (service_tick s1 tt).1.1 in
  let s3 := (service_checkout s2 demo_key 0).1 in
  let s4 := (service_tick s3 tt).1.1 in
  pool_contains s2.(ws_pool) demo_key = true /\ pool_contains s4.(ws_pool) demo_key = false.
Proof. vm_compute. done. Qed.
End PoolProofs.
