(* ===== verification/Template.v ===== *)
(** * Template builds and freshness ([crates/template/src], [crates/runtime/src/template_build.rs])

    A template is built by commands: clone, check out, set up, warm the caches;
    its snapshot is saved when all of them succeeded.  [Gate] is the gate that
    blocks writes until a restored checkout is fresh.  A command is its
    argument vector and directory; how the runs of a build end is decided by
    the surroundings, one outcome per run. *)
From S2P Require Import Prelude BTree Types HostPaths HostFs Capacity Artifacts ArtifactFiles DiskGuard RuntimeRestore Trace.
Import Sizes Disk Trace.Samples.

(** ** The freshness gate ([freshness.rs]) *)
Module Gate.
Inductive FreshnessSyncPhase := Restored | Syncing | Ready | Failed.
#[global] Instance FreshnessSyncPhase_eq_dec : EqDecision FreshnessSyncPhase.
Proof. solve_decision. Defined.
Record FreshnessSyncGate := mk_gate {
  branch : string;
  phase : FreshnessSyncPhase;
  sync_target : option string;
  synced_commit : option string;
  failure_reason : option string
}.
Definition restored (b : string) : FreshnessSyncGate := mk_gate b Restored None None None.
Definition begin_sync (g : FreshnessSyncGate) (target : string) : FreshnessSyncGate :=
  mk_gate g.(branch) Syncing (Some target) g.(synced_commit) g.(failure_reason).
Definition complete_sync (g : FreshnessSyncGate) (commit : string) : FreshnessSyncGate :=
  mk_gate g.(branch) Ready g.(sync_target) (Some commit) None.
Definition fail_sync (g : FreshnessSyncGate) (reason : string) : FreshnessSyncGate :=
  mk_gate g.(branch) Failed g.(sync_target) g.(synced_commit) (Some reason).
Definition writes_allowed (g : FreshnessSyncGate) : bool := bool_decide (g.(phase) = Ready).
Definition phase_debug (p : FreshnessSyncPhase) : string :=
  match p with Restored => "Restored" | Syncing => "Syncing" | Ready => "Ready" | Failed => "Failed" end.
End Gate.

(** ** Commands ([command.rs]) *)
Record Command := mk_command { argv : list string; current_dir : option string }.
Inductive CommandRun := NotRun (source : string) | Exited (success : bool) (status : string).
Inductive TemplateBuildError :=
| BuildIo (operation source : string)
| BuildCommand (operation status : string)
| BuildSnapshot (source : string).
(** The commands run so far, and how the next ones end. *)
Record Shell := mk_shell { ran : list Command; runs : list CommandRun }.
Definition SM (A : Type) : Type := Shell -> Shell * result TemplateBuildError A.
#[global] Instance SM_ret : MRet SM := fun A a s => (s, Ok a).
#[global] Instance SM_bind : MBind SM := fun A B k m s =>
  match m s with (s', Ok a) => k a s' | (s', Err e) => (s', Err e) end.
Definition sm_lift {A} (r : result TemplateBuildError A) : SM A := fun s => (s, r).
Definition run (c : Command) (operation : string) : SM unit := fun s =>
  (mk_shell (s.(ran) ++ [c]) (tail s.(runs)),
   match head s.(runs) with
   | None | Some (Exited true _) => Ok tt
   | Some (Exited false status) => Err (BuildCommand operation status)
   | Some (NotRun e) => Err (BuildIo operation e)
   end).
Definition run_shell (command dir operation : string) : SM unit :=
  run (mk_command ["/bin/sh"; "-lc"; command]%string (Some dir)) operation.
Fixpoint run_each (operation : string) (dir : string) (commands : list string) : SM unit :=
  match commands with
  | [] => mret tt
  | c :: cs => _ ← run_shell c dir operation; run_each operation dir cs
  end.

(** ** Jobs ([model.rs]) and their execution ([build.rs]) *)
Record TemplateBuildJob := mk_job {
  job_repo : string;
  checkout_ref : string;
  job_output : string;
  setup_commands : list string;
  cache_warm_commands : list string
}.
Definition job_new (repo ref output : string) : TemplateBuildJob := mk_job repo ref output [] [].
Definition setup_command (j : TemplateBuildJob) (c : string) : TemplateBuildJob :=
  mk_job j.(job_repo) j.(checkout_ref) j.(job_output) (j.(setup_commands) ++ [c]) j.(cache_warm_commands).
Definition cache_warm_command (j : TemplateBuildJob) (c : string) : TemplateBuildJob :=
  mk_job j.(job_repo) j.(checkout_ref) j.(job_output) j.(setup_commands) (j.(cache_warm_commands) ++ [c]).
Definition job_manifest (j : TemplateBuildJob) (logical_id : string) : SnapshotArtifactManifest :=
  manifest_base logical_id j.(job_output).
Definition git_clone (repo dir : string) : Command := mk_command ["git"; "clone"; "--quiet"; repo; dir]%string None.
Definition git_checkout (dir ref : string) : Command := mk_command ["git"; "-C"; dir; "checkout"; "--quiet"; ref]%string None.
(** The commands of [prepare_checkout]; the directories it makes before them
    ([Err]: a call of the host that failed) are in [dirs]. *)
Definition prepare_checkout (root : string) (j : TemplateBuildJob) (logical_id : string)
    (dirs : result TemplateBuildError unit) : SM string :=
  let dir := path_join (path_join root "checkouts") logical_id in
  _ ← sm_lift dirs;
  _ ← run (git_clone j.(job_repo) dir) "clone template repository";
  _ ← run (git_checkout dir j.(checkout_ref)) "checkout template ref";
  _ ← run_each "run template setup command" dir j.(setup_commands);
  _ ← run_each "run template cache-warm command" dir j.(cache_warm_commands);
  mret dir.
Record TemplateBuildReport := mk_build_report {
  tr_checkout_dir : string;
  tr_setup_command_count : nat;
  tr_cache_warm_command_count : nat;
  tr_manifest : SnapshotArtifactManifest;
  tr_benchmark_samples : list BenchmarkSample
}.
Definition execute (root : string) (j : TemplateBuildJob) (logical_id : string) (dirs : result TemplateBuildError unit)
    (elapsed : Z) : SM TemplateBuildReport :=
  dir ← prepare_checkout root j logical_id dirs;
  mret (mk_build_report dir (length j.(setup_commands)) (length j.(cache_warm_commands)) (job_manifest j logical_id)
          [latency "cold_template_build" elapsed]).
(** [save]: what the snapshot sink answers. *)
Definition execute_with_snapshot_sink (root : string) (j : TemplateBuildJob) (logical_id : string)
    (dirs : result TemplateBuildError unit) (save : result string unit) (build_elapsed snapshot_elapsed : Z)
  : SM TemplateBuildReport :=
  dir ← prepare_checkout root j logical_id dirs;
  _ ← sm_lift (map_err BuildSnapshot save);
  mret (mk_build_report dir (length j.(setup_commands)) (length j.(cache_warm_commands)) (job_manifest j logical_id)
          [latency "snapshot_save" snapshot_elapsed; latency "cold_template_build" build_elapsed]).

(** [FreshnessSyncExecutor::sync_checkout]. *)
Definition branch_name (b : string) : string := default b (strip_prefix "refs/heads/" b).
Definition sync_checkout (b dir target : string) (elapsed : Z) : SM (Gate.FreshnessSyncGate * list BenchmarkSample) :=
  let gate := Gate.begin_sync (Gate.restored b) target in
  let git args := mk_command (["git"; "-C"; dir]%string ++ args) None in
  _ ← run (git ["fetch"; "--quiet"; "origin"; branch_name b]%string) "fetch freshness sync target";
  _ ← run (git ["checkout"; "--quiet"; branch_name b]%string) "checkout freshness sync branch";
  _ ← run (git ["reset"; "--hard"; "--quiet"; target]%string) "reset freshness sync target";
  mret (Gate.complete_sync gate target, [latency "freshness_sync" elapsed]).

(** ** Builds inside a session ([runtime/src/template_build.rs]) *)
Section Runtime.
Context {P PE : Type} `{DiskPressureProbe P PE, Sha256, Serde SnapshotArtifactIntegrity, Serde SnapshotArtifactManifest}.
(** [CoreTemplateCommandRunner::run_template_commands]: the commands run in the
    guest, in this order. *)
Definition template_commands (checkout_root : string) (j : TemplateBuildJob) (logical_id : string) : list (string * Command) :=
  let dir := path_join checkout_root logical_id in
  [("create template checkout root", mk_command ["mkdir"; "-p"; checkout_root] None);
   ("remove previous template checkout", mk_command ["rm"; "-rf"; dir] None);
   ("clone template repository", git_clone j.(job_repo) dir);
   ("checkout template ref", git_checkout dir j.(checkout_ref))]%string
  ++ ((fun c => ("run template setup command", mk_command ["/bin/sh"; "-lc"; c] (Some dir)))%string <$> j.(setup_commands))
  ++ ((fun c => ("run template cache-warm command", mk_command ["/bin/sh"; "-lc"; c] (Some dir)))%string <$> j.(cache_warm_commands)).
Fixpoint run_all (l : list (string * Command)) : SM unit :=
  match l with [] => mret tt | (operation, c) :: l => _ ← run c operation; run_all l end.
Definition run_template_commands (checkout_root : string) (j : TemplateBuildJob) (logical_id : string) : SM unit :=
  run_all (template_commands checkout_root j logical_id).
Inductive RuntimeTemplateBuildError :=
| TemplateCapacity (e : CapacityError)
| TemplateCommands (source : TemplateBuildError)
| TemplateSnapshot (source : string).
Record RuntimeTemplateBuildReport := mk_runtime_build_report {
  rb_manifest : SnapshotArtifactManifest;
  rb_setup_command_count : nat;
  rb_cache_warm_command_count : nat;
  rb_benchmark_samples : list BenchmarkSample
}.
(** [RuntimeTemplateBuildSnapshot::execute_with_disk_probe_elapsed]. *)
Definition build_snapshot (checkout_root : string) (j : TemplateBuildJob) (logical_id : string)
    (save : string -> HM string unit) (build_elapsed snapshot_elapsed : Z) (probe : P) (sh : Shell) (w : World)
  : P * Shell * World * result RuntimeTemplateBuildError RuntimeTemplateBuildReport :=
  let guard := mk_disk_guard (snapshot_output_disk_root j.(job_output)) DEFAULT_RUNTIME_MINIMUM_FREE_DISK in
  let '(probe, checked) := check guard probe in
  match checked with
  | Err e => (probe, sh, w, Err (TemplateCapacity (disk_pressure_to_capacity_error e)))
  | Ok _ =>
      match run_template_commands checkout_root j logical_id sh with
      | (sh, Err e) => (probe, sh, w, Err (TemplateCommands e))
      | (sh, Ok _) =>
          let manifest := job_manifest j logical_id in
          let '(w, r) := hm_map_err TemplateSnapshot
                           (_ ← save j.(job_output); write_snapshot_artifact_sidecars manifest) w in
          (probe, sh, w, _ ← r;
             Ok (mk_runtime_build_report manifest (length j.(setup_commands)) (length j.(cache_warm_commands))
                   [latency "cold_template_build" build_elapsed; latency "snapshot_save" snapshot_elapsed]))
      end
  end.

(** ** A snapshot is made from a complete build *)
Definition run_ok (r : option CommandRun) : bool :=
  match r with None | Some (Exited true _) => true | _ => false end.
(** How many of the commands run: up to and including the first that fails. *)
Fixpoint executed (l : list (string * Command)) (rs : list CommandRun) : list Command :=
  match l with [] => [] | (_, c) :: l => c :: if run_ok (head rs) then executed l (tail rs) else [] end.
Lemma run_all_spec l : forall s,
  (run_all l s).1.(ran) = s.(ran) ++ executed l s.(runs) /\
  (is_ok (run_all l s).2 = true -> executed l s.(runs) = l.*2).
Proof.
  induction l as [|[op c] l IH]; intros s; cbn [run_all executed]; [by rewrite app_nil_r|].
  unfold mbind, SM_bind, run. cbn [fst snd].
  destruct (head (runs s)) as [[e|[] st]|]; cbn [run_ok fst snd ran runs]; try (by split);
    (destruct (IH (mk_shell (s.(ran) ++ [c]) (tail s.(runs)))) as [Hr Ha]; cbn [ran runs] in *;
     rewrite Hr, <- app_assoc; split; [done|]; intros Hok; cbn; by rewrite Ha).
Qed.
(** A runtime build saves its snapshot only when every command of the job has
    succeeded, in order, and a build that reports success has written the
    sidecars of the artifact that was saved. *)
Theorem build_snapshot_complete root j id save be se probe sh w :
  let '(_, sh', w', r) := build_snapshot root j id save be se probe sh w in
  match r with
  | Ok rep =>
      sh'.(ran) = sh.(ran) ++ (template_commands root j id).*2 /\ rep.(rb_manifest) = job_manifest j id /\
      exists w1, save j.(job_output) w = (w1, Ok tt) /\ write_snapshot_artifact_sidecars (job_manifest j id) w1 = (w', Ok tt)
  | Err (TemplateSnapshot _) => sh'.(ran) = sh.(ran) ++ (template_commands root j id).*2
  | Err (TemplateCommands _) => w' = w /\ sh'.(ran) = sh.(ran) ++ executed (template_commands root j id) sh.(runs)
  | Err (TemplateCapacity _) => w' = w /\ sh' = sh
  end.
Proof.
  unfold build_snapshot. destruct (check _ probe) as [pr [rep|e]]; [|done].
  pose proof (run_all_spec (template_commands root j id) sh) as [Hran Hall].
  unfold run_template_commands. destruct (run_all (template_commands root j id) sh) as [sh' [[]|e]]; cbn in Hran, Hall; [|done].
  rewrite Hall in Hran by done. unfold hm_map_err. rewrite bind_hm.
  destruct (save (job_output j) w) as [w1 [[]|e]]; [|done].
  destruct (write_snapshot_artifact_sidecars (job_manifest j id) w1) as [w2 [[]|e]] eqn:Ew; cbn; [|done].
  split_and!; [done..|]. by exists w1.
Qed.
End Runtime.
