(* ===== verification/FirkinAdapter.v ===== *)
(** * The snapshot-backed runtime adapter ([crates/runtime/src/adapter.rs])

    The adapter behind the control plane: it admits sandboxes against the
    capacity ledger, takes them from its warm pool or restores them from
    snapshots, and keeps the sessions it runs.  Its state is behind a mutex; an
    operation is a sequence of sections that hold it, with calls of the host in
    between.  Each section and each stretch between two sections is a definition
    here; [adapter_step] puts them together, with any number of requests in
    flight.

    What the surroundings answer to one request is an [AdapterEnv]: launches,
    listeners, clocks.  [Host] holds the files and, as a log, every session
    whose [stop_session] was called.  The launcher is cloned for every use, so
    it is not part of the state. *)
From S2P Require Import Prelude BTree Types HostPaths HostFs Capacity WarmPool Artifacts Admission Envd ArtifactFiles DiskGuard E2bWire Trace RuntimeRestore RuntimePool Template.
Import Sizes Disk Restore Retained Trace.Samples Trace.Events Gate Backpressure.

(** ** Configuration *)
Record AdapterConfig := mk_adapter_config {
  ac_budget : ResourceBudget;
  ac_domain : string;
  ac_envd_version : string;
  ac_cpu_count : Z;
  ac_memory_mb : Z;
  ac_preflight : option Preflight.RuntimePreflight;
  ac_marker_root : option string;
  ac_heartbeat_interval : Z;
  ac_max_pending : Z;
  ac_minimum_free_disk : Size
}.
Definition DEFAULT_ACTIVE_VM_HEARTBEAT_INTERVAL : Z := 30 * 1000000000.
Definition DEFAULT_ACTIVE_QUEUE_MAX_PENDING : Z := 64.
Definition config_new (budget : ResourceBudget) (domain envd_version : string) (cpu_count memory_mb : Z) : AdapterConfig :=
  mk_adapter_config budget domain envd_version cpu_count memory_mb None None DEFAULT_ACTIVE_VM_HEARTBEAT_INTERVAL
    DEFAULT_ACTIVE_QUEUE_MAX_PENDING DEFAULT_RUNTIME_MINIMUM_FREE_DISK.
Definition with_active_vm_marker_root (c : AdapterConfig) (root : string) : AdapterConfig :=
  mk_adapter_config c.(ac_budget) c.(ac_domain) c.(ac_envd_version) c.(ac_cpu_count) c.(ac_memory_mb) c.(ac_preflight)
    (Some root) c.(ac_heartbeat_interval) c.(ac_max_pending) c.(ac_minimum_free_disk).
Definition with_active_vm_heartbeat_interval (c : AdapterConfig) (interval : Z) : AdapterConfig :=
  mk_adapter_config c.(ac_budget) c.(ac_domain) c.(ac_envd_version) c.(ac_cpu_count) c.(ac_memory_mb) c.(ac_preflight)
    c.(ac_marker_root) (Z.max interval 1000000) c.(ac_max_pending) c.(ac_minimum_free_disk).
Definition with_active_queue_policy (c : AdapterConfig) (max_pending : Z) : AdapterConfig :=
  mk_adapter_config c.(ac_budget) c.(ac_domain) c.(ac_envd_version) c.(ac_cpu_count) c.(ac_memory_mb) c.(ac_preflight)
    c.(ac_marker_root) c.(ac_heartbeat_interval) max_pending c.(ac_minimum_free_disk).
Definition with_restore_minimum_free_disk (c : AdapterConfig) (minimum : Size) : AdapterConfig :=
  mk_adapter_config c.(ac_budget) c.(ac_domain) c.(ac_envd_version) c.(ac_cpu_count) c.(ac_memory_mb) c.(ac_preflight)
    c.(ac_marker_root) c.(ac_heartbeat_interval) c.(ac_max_pending) minimum.
Definition with_runtime_preflight (c : AdapterConfig) (snapshot_root log_root : string) (minimum : Size) : AdapterConfig :=
  mk_adapter_config c.(ac_budget) c.(ac_domain) c.(ac_envd_version) c.(ac_cpu_count) c.(ac_memory_mb)
    (Some (Preflight.mk_preflight snapshot_root log_root minimum))
    c.(ac_marker_root) c.(ac_heartbeat_interval) c.(ac_max_pending) c.(ac_minimum_free_disk).
Definition with_managed_runtime_roots (c : AdapterConfig) (snapshot_root log_root marker_root : string) (minimum : Size)
  : AdapterConfig := with_active_vm_marker_root (with_runtime_preflight c snapshot_root log_root minimum) marker_root.

(** ** Sessions *)
(** The traits of a session the lifecycle uses, errors by their text. *)
Class RuntimeSession (Sess : Type) := {
  stop_session : Sess -> Sess * result string unit;
  probe_ready : EventTraceRecorder -> Sess -> Sess * result string (list SandboxEventTrace);
  cleanup_unsnapshotted_staging : Sess -> result string unit;
  save_continuation_snapshot : string -> Sess -> HM string unit
}.
Record FirkinRuntimeSession (Sess : Type) := mk_session {
  fs_session : Sess;
  fs_reservation : ActiveSessionReservation;
  fs_first_stdout_recorded : bool;
  fs_startup_trace : option EventTraceRecorder;
  fs_envd_port : Z;
  fs_code_interpreter_port : Z;
  fs_heartbeat : bool;
  fs_freshness_sync : option FreshnessSyncGate;
  fs_freshness_sync_checkout : option string;
  fs_snapshot_saved : bool
}.
Arguments mk_session {Sess}.
Arguments fs_session {Sess}.
Arguments fs_reservation {Sess}.
Arguments fs_first_stdout_recorded {Sess}.
Arguments fs_startup_trace {Sess}.
Arguments fs_envd_port {Sess}.
Arguments fs_code_interpreter_port {Sess}.
Arguments fs_heartbeat {Sess}.
Arguments fs_freshness_sync {Sess}.
Arguments fs_freshness_sync_checkout {Sess}.
Arguments fs_snapshot_saved {Sess}.
(** [Box<dyn RuntimeInteractiveProcess>]: a state of some type and the methods
    on it. *)
Record InteractiveProcess := mk_interactive {
  ip_state : Type;
  ip_value : ip_state;
  ip_send_input : EnvdProcessInput -> ip_state -> ip_state * result BackendError unit;
  ip_close_stdin : ip_state -> ip_state * result BackendError unit;
  ip_signal : EnvdProcessSignal -> ip_state -> ip_state * result BackendError unit;
  ip_update_pty : option EnvdPtySize -> ip_state -> ip_state * result BackendError unit;
  ip_connect : ip_state -> ip_state * result BackendError EnvdProcessOutput
}.
Record FirkinRuntimeProcessRecord := mk_process_record { pr_info : EnvdProcessInfo; pr_output : EnvdProcessOutput }.
Abbreviation FirkinRuntimeProcessKey := (string * Z)%type.

Record AdapterState (Sess : Type) := mk_adapter_state {
  a_ledger : CapacityLedger;
  a_next_sandbox : Z;
  a_active : gmap string (FirkinRuntimeSession Sess);
  a_warm_pool : WarmPoolLedger;
  a_warm_sessions : list (WarmPoolKey * list (WarmPoolMaintenanceReport Sess));
  a_processes : gmap FirkinRuntimeProcessKey FirkinRuntimeProcessRecord;
  a_interactive : gmap FirkinRuntimeProcessKey InteractiveProcess;
  a_restored_paths : list string;
  a_samples : list BenchmarkSample;
  a_traces : list SandboxEventTrace
}.
Arguments mk_adapter_state {Sess}.
Arguments a_ledger {Sess}.
Arguments a_next_sandbox {Sess}.
Arguments a_active {Sess}.
Arguments a_warm_pool {Sess}.
Arguments a_warm_sessions {Sess}.
Arguments a_processes {Sess}.
Arguments a_interactive {Sess}.
Arguments a_restored_paths {Sess}.
Arguments a_samples {Sess}.
Arguments a_traces {Sess}.
Section Setters.
Context {Sess : Type}.
Implicit Types s : AdapterState Sess.
Definition adapter_new (l : CapacityLedger) : AdapterState Sess := mk_adapter_state l 0 ∅ [] [] ∅ ∅ [] [] [].
Definition set_ledger (l : CapacityLedger) s : AdapterState Sess :=
  mk_adapter_state l s.(a_next_sandbox) s.(a_active) s.(a_warm_pool) s.(a_warm_sessions) s.(a_processes)
    s.(a_interactive) s.(a_restored_paths) s.(a_samples) s.(a_traces).
Definition set_warm (l : CapacityLedger) (p : WarmPoolLedger)
    (ss : list (WarmPoolKey * list (WarmPoolMaintenanceReport Sess))) s : AdapterState Sess :=
  mk_adapter_state l s.(a_next_sandbox) s.(a_active) p ss s.(a_processes)
    s.(a_interactive) s.(a_restored_paths) s.(a_samples) s.(a_traces).
Definition set_next (n : Z) s : AdapterState Sess :=
  mk_adapter_state s.(a_ledger) n s.(a_active) s.(a_warm_pool) s.(a_warm_sessions) s.(a_processes)
    s.(a_interactive) s.(a_restored_paths) s.(a_samples) s.(a_traces).
Definition set_active (m : gmap string (FirkinRuntimeSession Sess)) s : AdapterState Sess :=
  mk_adapter_state s.(a_ledger) s.(a_next_sandbox) m s.(a_warm_pool) s.(a_warm_sessions) s.(a_processes)
    s.(a_interactive) s.(a_restored_paths) s.(a_samples) s.(a_traces).
Definition set_processes (m : gmap FirkinRuntimeProcessKey FirkinRuntimeProcessRecord)
    (i : gmap FirkinRuntimeProcessKey InteractiveProcess) s : AdapterState Sess :=
  mk_adapter_state s.(a_ledger) s.(a_next_sandbox) s.(a_active) s.(a_warm_pool) s.(a_warm_sessions) m
    i s.(a_restored_paths) s.(a_samples) s.(a_traces).
(** Paths, samples and traces are only ever added. *)
Definition log (paths : list string) (samples : list BenchmarkSample) (traces : list SandboxEventTrace) s : AdapterState Sess :=
  mk_adapter_state s.(a_ledger) s.(a_next_sandbox) s.(a_active) s.(a_warm_pool) s.(a_warm_sessions) s.(a_processes)
    s.(a_interactive) (s.(a_restored_paths) ++ paths) (s.(a_samples) ++ samples) (s.(a_traces) ++ traces).
End Setters.

(** ** The surroundings *)
Record AdapterEnv (Sess : Type) := mk_adapter_env {
  ev_is_dir : string -> bool;
  ev_probe : HostDiskPressureProbe;
  ev_launch : SnapshotRestoreRequest -> result string Sess;
  ev_envd_listener : result BackendError Z;
  ev_code_listener : result BackendError Z;
  ev_timestamps : Z -> string * string;
  ev_epoch_seconds : Z;
  ev_pid : Z;
  ev_executable : result string string;
  ev_stamp : SandboxEventName -> Z;
  ev_elapsed : string -> Z
}.
Arguments ev_is_dir {Sess}.
Arguments ev_probe {Sess}.
Arguments ev_launch {Sess}.
Arguments ev_envd_listener {Sess}.
Arguments ev_code_listener {Sess}.
Arguments ev_timestamps {Sess}.
Arguments ev_epoch_seconds {Sess}.
Arguments ev_pid {Sess}.
Arguments ev_executable {Sess}.
Arguments ev_stamp {Sess}.
Arguments ev_elapsed {Sess}.
Record Host (Sess : Type) := mk_host { h_world : World; h_stopped : list Sess }.
Arguments mk_host {Sess}.
Arguments h_world {Sess}.
Arguments h_stopped {Sess}.

(** *** Files of the host *)
Definition below (dir p : string) : bool := String.prefix (dir +:+ "/") p.
(** [remove_dir_all]: everything below the directory. *)
Definition host_remove_dir_all {E} (op : host_error -> E) (dir : string) : HM E unit :=
  call op (fun m => Some (filter (fun x => below dir x.1 = false) m)).
Definition utf8_text (s : string) : list Z := (fun c => code c) <$> String.list_ascii_of_string s.

(** ** Active VM markers ([hygiene.rs]) *)
(** One normal path component. *)
Definition single_component (id : string) : bool :=
  match split "/" id with
  | [] => false
  | first :: rest =>
      negb (is_empty first || String.eqb first "." || String.eqb first "..")
      && forallb (fun s => is_empty s || String.eqb s ".") rest
  end.
Definition validate_marker_id (kind id : string) : result string unit :=
  if is_empty id then Err ("runtime marker id for " +:+ bt kind +:+ " is empty")
  else if single_component id then Ok tt
  else Err ("runtime marker id " +:+ bt id +:+ " for " +:+ bt kind +:+ " is not a single path component").
Definition active_vm_marker_path (c : AdapterConfig) (sandbox_id : string) : result BackendError (option string) :=
  match c.(ac_marker_root) with
  | None => Ok None
  | Some root => _ ← map_err Runtime (validate_marker_id "active_vm" sandbox_id); Ok (Some (path_join root sandbox_id))
  end.
Definition marker_error (what path : string) (e : host_error) : BackendError :=
  Runtime (what +:+ " failed at " +:+ bt path +:+ ": " +:+ host_message e).
Section Lifecycle.
Context {Sess : Type} `{RuntimeSession Sess, Sha256, Serde SnapshotArtifactIntegrity, Serde SnapshotArtifactManifest}.
Context (c : AdapterConfig).
Implicit Types (s : AdapterState Sess) (h : Host Sess) (env : AdapterEnv Sess).

Definition write_active_vm_heartbeat (env : AdapterEnv Sess) (path : string) : HM BackendError unit :=
  _ ← create_dir_all (marker_error "Firkin active VM marker directory create" path);
  _ ← (match path_parent path with
       | Some parent => create_dir_all (marker_error "Firkin active VM marker root create" parent)
       | None => mret tt
       end : HM BackendError unit);
  _ ← write_contents (marker_error "Firkin active VM marker publish" path) (path_join path "heartbeat")
        (utf8_text (print_dec env.(ev_epoch_seconds) +:+ nl));
  _ ← write_contents (marker_error "Firkin active VM runtime pid marker publish" path) (path_join path "runtime.pid")
        (utf8_text (print_dec env.(ev_pid) +:+ nl));
  exe ← hm_res (map_err (fun e => Runtime ("Firkin active VM runtime executable discover failed: " +:+ e)) env.(ev_executable));
  write_contents (marker_error "Firkin active VM runtime executable marker publish" path) (path_join path "runtime.executable")
    (utf8_text exe).
(** The task that refreshes the heartbeat is the boolean. *)
Definition start_active_vm_heartbeat (env : AdapterEnv Sess) (sandbox_id : string) : HM BackendError bool :=
  path ← hm_res (active_vm_marker_path c sandbox_id);
  match path with
  | None => mret false
  | Some path => _ ← write_active_vm_heartbeat env path; mret true
  end.
Definition not_found_is_ok (path : string) (m : HM host_error unit) : HM BackendError unit := fun w =>
  match m w with
  | (w, Err e) =>
      (w, if decide (e.(host_kind) = IoNotFound) then Ok tt
          else Err (Runtime ("Firkin active VM marker remove failed at " +:+ bt path +:+ ": " +:+ host_message e)))
  | (w, Ok _) => (w, Ok tt)
  end.
(** [metadata], then [remove_dir_all] or [remove_file]; what is missing is
    fine. *)
Definition remove_active_vm_marker (sandbox_id : string) : HM BackendError unit :=
  path ← hm_res (active_vm_marker_path c sandbox_id);
  match path with
  | None => mret tt
  | Some path =>
      not_found_is_ok path (fun w =>
        if existsb (fun x => below path x.1) (map_to_list w.(files))
        then (_ ← call id Some; host_remove_dir_all id path) w
        else (_ ← stat_file id path; remove_file id path) w)
  end.

(** ** Admission *)
(** [ActiveQueueWaiter::try_acquire]. *)
Definition try_acquire (pending max_pending : Z) : option Z :=
  if max_pending <=? pending then None else Some (pending + 1).
Definition active_backpressure_error (r : option BackpressureRejection) : BackendError :=
  match r with
  | Some (Oversized e) => Runtime (capacity_error_text e)
  | Some (QueueFull max_pending pending) =>
      Runtime ("Firkin active restore queue is full: pending " +:+ print_dec pending +:+ ", max " +:+ print_dec max_pending)
  | None => Runtime "Firkin active restore queue rejected without a reason"
  end.
(** Expire the entries a plan evicts, and take their sessions. *)
Fixpoint evict_sessions (keys : list WarmPoolKey) s : AdapterState Sess * list Sess :=
  match keys with
  | [] => (s, [])
  | k :: keys =>
      match expire s.(a_warm_pool) k s.(a_ledger) with
      | (_, None) => evict_sessions keys s
      | ((pool, ledger), Some _) =>
          let '(ss, report) := pop_session k s.(a_warm_sessions) in
          let '(s, evicted) := evict_sessions keys (set_warm ledger pool ss s) in
          (s, match report with Some r => r.(wr_session) :: evicted | None => evicted end)
      end
  end.
Inductive admission := Granted (evicted : list Sess) | Queued (pending : Z) | Refused (e : BackendError).
(** One pass of the loop of [reserve_active_restore_capacity] under the mutex;
    [pending] is the counter when the plan is made, [pending_now] when a place
    in the queue is taken. *)
Definition try_admit (pending pending_now : Z) s : AdapterState Sess * admission :=
  let plan := Backpressure.from_warm_pool c.(ac_budget) s.(a_warm_pool) s.(a_ledger) pending c.(ac_max_pending) in
  match decision plan with
  | AdmitNow =>
      let '(s, evicted) := evict_sessions (key <$> bp_evictions plan) s in
      match reserve_active s.(a_ledger) c.(ac_budget) with
      | (ledger, Ok _) => (set_ledger ledger s, Granted evicted)
      | (ledger, Err e) => (set_ledger ledger s, Refused (Runtime (capacity_error_text e)))
      end
  | Queue =>
      match try_acquire pending_now c.(ac_max_pending) with
      | Some p => (s, Queued p)
      | None => (s, Refused (active_backpressure_error (Some (QueueFull c.(ac_max_pending) pending))))
      end
  | Reject => (s, Refused (active_backpressure_error (rejection plan)))
  end.
Definition release_active_budget (b : ResourceBudget) s : AdapterState Sess := set_ledger (release_active s.(a_ledger) b) s.
Definition release_active_reservation (r : ActiveSessionReservation) s : AdapterState Sess :=
  set_ledger (release_into r s.(a_ledger)).1.2 s.

(** ** Starting *)
Definition next_sandbox_id s : AdapterState Sess * string :=
  let n := Z.max (sat_add 64 s.(a_next_sandbox) 1) 1 in (set_next n s, "sbx_firkin_" +:+ print_dec n).
Definition next_config (env : AdapterEnv Sess) (sandbox_id : string) (timeout : option Z) : SandboxRuntimeConfig :=
  let '(started_at, end_at) := env.(ev_timestamps) (default 300 timeout) in
  into_runtime_config (mk_create_config sandbox_id c.(ac_domain) c.(ac_envd_version) started_at end_at
    c.(ac_cpu_count) c.(ac_memory_mb)).
Definition adapter_key (template_id : string) : WarmPoolKey := mk_key template_id "base-template" "apple-vz-arm64".
Definition stop_quietly (x : Sess) h : Host Sess := mk_host h.(h_world) (h.(h_stopped) ++ [(stop_session x).1]).
Definition stop_all (l : list Sess) h : Host Sess := foldl (fun h x => stop_quietly x h) h l.

Definition check_runtime_preflight (env : AdapterEnv Sess) (probe : HostDiskPressureProbe)
  : HostDiskPressureProbe * result BackendError unit :=
  match c.(ac_preflight) with
  | None => (probe, Ok tt)
  | Some p =>
      let '(probe, r) := Preflight.check_with_disk_probe host_probe_error_text env.(ev_is_dir) p probe in
      (probe, _ ← map_err (fun e => Runtime (Preflight.preflight_error_text e)) r; Ok tt)
  end.
Definition show_text (s : string) : string := s.
Definition verify_template (t : PreparedTemplate) (w : World) : World * result BackendError unit :=
  hm_map_err (runtime_create_error_to_backend show_text) (verify_prepared_template_integrity t (template_manifest t)) w.
(** What comes before the first section of [start]. *)
Definition start_checks (env : AdapterEnv Sess) (rq : StartSandboxRequest) h
  : Host Sess * HostDiskPressureProbe * result BackendError PreparedTemplate :=
  let '(probe, r) := check_runtime_preflight env env.(ev_probe) in
  match r with
  | Err e => (h, probe, Err e)
  | Ok _ =>
      match rq.(ss_prepared_template) with
      | None => (h, probe, Err (runtime_create_error_to_backend show_text MissingPreparedTemplate))
      | Some t =>
          let '(w, r) := verify_template t h.(h_world) in
          (mk_host w h.(h_stopped), probe, _ ← r; Ok t)
      end
  end.
(** The free-space floor of active restores. *)
Definition check_restore_disk (manifest_path : string) (minimum : Size) (probe : HostDiskPressureProbe) : result BackendError unit :=
  let '(_, r) := check (mk_disk_guard (snapshot_output_disk_root manifest_path) minimum) probe in
  _ ← map_err (fun e => Runtime (capacity_error_text (disk_pressure_to_capacity_error e))) r; Ok tt.

(** What a request has in hand once its session runs. *)
Record Started := mk_started {
  sd_session : Sess;
  sd_samples : list BenchmarkSample;
  sd_traces : list SandboxEventTrace;
  sd_startup : EventTraceRecorder;
  sd_envd_port : Z;
  sd_code_port : Z;
  sd_heartbeat : bool
}.
(** The two servers and the heartbeat of a session; when one of them fails the
    session is stopped. *)
Definition start_servers (env : AdapterEnv Sess) (sandbox_id : string) (x : Sess) h
  : Host Sess * result BackendError (Z * Z * bool) :=
  match env.(ev_envd_listener) with
  | Err e => (stop_quietly x h, Err e)
  | Ok envd_port =>
      match env.(ev_code_listener) with
      | Err e => (stop_quietly x h, Err e)
      | Ok code_port =>
          match start_active_vm_heartbeat env sandbox_id h.(h_world) with
          | (w, Err e) => (stop_quietly x (mk_host w h.(h_stopped)), Err e)
          | (w, Ok heartbeat) => (mk_host w h.(h_stopped), Ok (envd_port, code_port, heartbeat))
          end
      end
  end.
Definition record_all (env : AdapterEnv Sess) (r : EventTraceRecorder) (names : list SandboxEventName) : EventTraceRecorder :=
  foldl (fun r n => record r n (env.(ev_stamp) n)) r names.

(** *** From the warm pool *)
Record WarmStart := mk_warm_start {
  wk_id : string;
  wk_sandbox : RuntimeSandbox;
  wk_session : Sess;
  wk_reservation : ActiveSessionReservation;
  wk_samples : list BenchmarkSample;
  wk_trace : SandboxEventTrace;
  wk_startup : EventTraceRecorder;
  wk_readiness : EventTraceRecorder
}.
Definition warm_missing (template_id what : string) : BackendError :=
  Runtime ("Firkin warm-pool entry " +:+ bt template_id +:+ " " +:+ what).
(** The section of [start] that takes a warm session. *)
Definition checkout_warm (env : AdapterEnv Sess) (t : PreparedTemplate) (timeout : option Z) s
  : AdapterState Sess * result BackendError (option WarmStart) :=
  let k := adapter_key t.(pt_template_id) in
  let startup := recorder_new Hot TinyExec FastAgent in
  if WarmPool.contains s.(a_warm_pool) k then
    let '(s, id) := next_sandbox_id s in
    let config := next_config env id timeout in
    match checkout s.(a_warm_pool) k s.(a_ledger) with
    | ((pool, ledger), Err e) => (set_warm ledger pool s.(a_warm_sessions) s, Err (Runtime (capacity_error_text e)))
    | ((pool, ledger), Ok None) =>
        (set_warm ledger pool s.(a_warm_sessions) s, Err (warm_missing t.(pt_template_id) "disappeared during checkout"))
    | ((pool, ledger), Ok (Some entry)) =>
        match pop_session k s.(a_warm_sessions) with
        | (ss, None) =>
            (set_warm (release_active ledger (budget entry)) pool ss s,
             Err (warm_missing t.(pt_template_id)
                    (if bool_decide (is_Some (bt_get k s.(a_warm_sessions))) then "had no retained session"
                     else "was missing its retained session")))
        | (ss, Some report) =>
            let startup := record_all env startup [RequestStart; PoolLeaseRequested; PoolLeaseAcquired] in
            let readiness := record_all env (recorder_new Hot ReadinessProbe FastAgent) [PoolLeaseAcquired] in
            (set_warm ledger pool ss s,
             Ok (Some (mk_warm_start id (mk_runtime_sandbox config exposed_ports) report.(wr_session)
                         (reservation_new (budget entry)) [latency "warm_pool_checkout" (env.(ev_elapsed) "warm_pool_checkout")]
                         (finish startup) startup readiness)))
        end
    end
  else (s, Ok None).
(** The way from the checkout to the last section. *)
Definition warm_middle (env : AdapterEnv Sess) (wk : WarmStart) h : Host Sess * result BackendError Started :=
  let readiness := record_all env wk.(wk_readiness) [GuestAgentPingPassed; WorkspaceReady; ReadyProbePassed] in
  let startup := record_all env wk.(wk_startup) [ReadyProbePassed] in
  let timed m := latency m (env.(ev_elapsed) m) in
  match start_servers env wk.(wk_id) wk.(wk_session) h with
  | (h, Err e) => (h, Err e)
  | (h, Ok (envd_port, code_port, heartbeat)) =>
      (h, Ok (mk_started wk.(wk_session)
                (wk.(wk_samples) ++ [timed "ready_certificate_check"; timed "start.hot_envd_server_start_ms";
                                     timed "start.hot_code_interpreter_server_start_ms"; timed "start.hot_heartbeat_start_ms"])
                [wk.(wk_trace); finish readiness] startup envd_port code_port heartbeat))
  end.

(** *** From a snapshot *)
(** The way from admission to the last section, for [start] and, as [followup],
    for [start_followup]. *)
Definition restore_middle (followup : bool) (env : AdapterEnv Sess) (manifest : SnapshotArtifactManifest) (id : string)
    (evicted : list Sess) h : Host Sess * result BackendError Started :=
  let h := stop_all evicted h in
  let lifecycle := if followup then Resumed else Warm in
  let timed m := latency m (env.(ev_elapsed) m) in
  let startup := record_all env (recorder_new lifecycle TinyExec FastAgent)
                   (if followup then [SnapshotRestoreStart] else [RequestStart; SnapshotRestoreStart]) in
  match env.(ev_launch) (mk_restore_request manifest c.(ac_budget)) with
  | Err e => (h, Err (restore_error_to_backend show_text (Launch e)))
  | Ok x =>
      let startup := record_all env startup [SnapshotRestoreDone] in
      match probe_ready (recorder_new lifecycle ReadinessProbe FastAgent) x with
      | (x, Err e) => (stop_quietly x h, Err (Runtime ("Firkin readiness probe failed: " +:+ e)))
      | (x, Ok traces) =>
          match start_servers env id x h with
          | (h, Err e) => (h, Err e)
          | (h, Ok (envd_port, code_port, heartbeat)) =>
              (h, Ok (mk_started x [timed "warm_snapshot_restore"; timed "ready_probe"] traces
                        (record_all env startup [ReadyProbePassed]) envd_port code_port heartbeat))
          end
      end
  end.
(** The last section of a start. *)
Definition publish (id : string) (r : ActiveSessionReservation) (gate : option FreshnessSyncGate) (checkout : option string)
    (restored_path : list string) (x : Started) s : AdapterState Sess :=
  set_active (<[id := mk_session x.(sd_session) r false (Some x.(sd_startup)) x.(sd_envd_port) x.(sd_code_port)
                        x.(sd_heartbeat) gate checkout false]> s.(a_active))
    (log restored_path x.(sd_samples) x.(sd_traces) s).

(** ** Stopping *)
Definition retain_processes (id : string) s : AdapterState Sess :=
  set_processes (filter (fun x => x.1.1 <> id) s.(a_processes)) (filter (fun x => x.1.1 <> id) s.(a_interactive)) s.
Definition stop (env : AdapterEnv Sess) (sandbox_id : string) (s : AdapterState Sess) (h : Host Sess)
  : AdapterState Sess * Host Sess * result BackendError unit :=
  match s.(a_active) !! sandbox_id with
  | None => (s, h, Err (NotFound sandbox_id))
  | Some active =>
      let '(x, stopped) := stop_session active.(fs_session) in
      match stopped with
      | Err e =>
          (set_active (<[sandbox_id := mk_session x active.(fs_reservation) active.(fs_first_stdout_recorded)
              active.(fs_startup_trace) active.(fs_envd_port) active.(fs_code_interpreter_port) active.(fs_heartbeat)
              active.(fs_freshness_sync) active.(fs_freshness_sync_checkout) active.(fs_snapshot_saved)]>
              s.(a_active)) s,
           h, Err (Runtime ("Firkin session stop failed: " +:+ e)))
      | Ok _ =>
          let cleanup := if active.(fs_snapshot_saved) then Ok tt else cleanup_unsnapshotted_staging x in
          let '(_, ledger, _) := release_into active.(fs_reservation) s.(a_ledger) in
          let s := retain_processes sandbox_id (set_ledger ledger (set_active (delete sandbox_id s.(a_active)) s)) in
          let '(w, marker) := remove_active_vm_marker sandbox_id h.(h_world) in
          (log [] [latency "kill_delete" (env.(ev_elapsed) "kill_delete")] [] s,
           mk_host w (h.(h_stopped) ++ [x]),
           match cleanup with
           | Err e => Err (Runtime ("Firkin restored staging cleanup failed: " +:+ e))
           | Ok _ => marker
           end)
      end
  end.
End Lifecycle.

(** ** Freshness *)
Definition FRESHNESS_SYNC_BRANCH_METADATA : string := "firkin.sync.branch".
Definition FRESHNESS_SYNC_TARGET_METADATA : string := "firkin.sync.target".
Definition FRESHNESS_SYNC_CHECKOUT_METADATA : string := "firkin.sync.checkout".
Definition freshness_sync_gate_for_request (rq : StartSandboxRequest) : option FreshnessSyncGate :=
  b ← rq.(ss_create_request).(cr_metadata) !! FRESHNESS_SYNC_BRANCH_METADATA;
  t ← rq.(ss_create_request).(cr_metadata) !! FRESHNESS_SYNC_TARGET_METADATA;
  Some (begin_sync (restored b) t).
Definition freshness_sync_checkout_for_request (rq : StartSandboxRequest) : option string :=
  rq.(ss_create_request).(cr_metadata) !! FRESHNESS_SYNC_CHECKOUT_METADATA.
(** Whether [start] spawns the task that synchronizes. *)
Definition starts_freshness_sync (rq : StartSandboxRequest) : bool :=
  bool_decide (is_Some (freshness_sync_gate_for_request rq)) && bool_decide (is_Some (freshness_sync_checkout_for_request rq)).

(** ** Commands in a session *)
Record CommandReport := mk_command_report {
  cmd_output : EnvdProcessOutput;
  cmd_samples : list BenchmarkSample;
  cmd_traces : list SandboxEventTrace
}.
Class RuntimeCommandRunner (Sess : Type) :=
  run_command : EnvdProcessStartRequest -> EventTraceRecorder -> Sess -> Sess * result string CommandReport.

Section Sessions.
Context {Sess : Type}.
Implicit Types s : AdapterState Sess.
Definition with_gate (g : option FreshnessSyncGate) (x : FirkinRuntimeSession Sess) : FirkinRuntimeSession Sess :=
  mk_session x.(fs_session) x.(fs_reservation) x.(fs_first_stdout_recorded) x.(fs_startup_trace) x.(fs_envd_port)
    x.(fs_code_interpreter_port) x.(fs_heartbeat) g x.(fs_freshness_sync_checkout) x.(fs_snapshot_saved).
Definition with_session (y : Sess) (x : FirkinRuntimeSession Sess) : FirkinRuntimeSession Sess :=
  mk_session y x.(fs_reservation) x.(fs_first_stdout_recorded) x.(fs_startup_trace) x.(fs_envd_port)
    x.(fs_code_interpreter_port) x.(fs_heartbeat) x.(fs_freshness_sync) x.(fs_freshness_sync_checkout) x.(fs_snapshot_saved).
Definition with_saved (b : bool) (x : FirkinRuntimeSession Sess) : FirkinRuntimeSession Sess :=
  mk_session x.(fs_session) x.(fs_reservation) x.(fs_first_stdout_recorded) x.(fs_startup_trace) x.(fs_envd_port)
    x.(fs_code_interpreter_port) x.(fs_heartbeat) x.(fs_freshness_sync) x.(fs_freshness_sync_checkout) b.
Definition with_trace (t : option EventTraceRecorder) (stdout : bool) (x : FirkinRuntimeSession Sess) : FirkinRuntimeSession Sess :=
  mk_session x.(fs_session) x.(fs_reservation) stdout t x.(fs_envd_port)
    x.(fs_code_interpreter_port) x.(fs_heartbeat) x.(fs_freshness_sync) x.(fs_freshness_sync_checkout) x.(fs_snapshot_saved).
(** [active.get_mut(id)] and a change of the session's record. *)
Definition update_session (id : string) (f : FirkinRuntimeSession Sess -> FirkinRuntimeSession Sess) s
  : AdapterState Sess * result BackendError unit :=
  match s.(a_active) !! id with
  | None => (s, Err (NotFound id))
  | Some x => (set_active (<[id := f x]> s.(a_active)) s, Ok tt)
  end.
Definition complete_freshness_sync (id commit : string) s : AdapterState Sess * result BackendError unit :=
  update_session id (fun x => with_gate ((fun g => complete_sync g commit) <$> x.(fs_freshness_sync)) x) s.
Definition fail_freshness_sync (id reason : string) s : AdapterState Sess * result BackendError unit :=
  update_session id (fun x => with_gate ((fun g => fail_sync g reason) <$> x.(fs_freshness_sync)) x) s.
(** The only active session, when no sandbox is named. *)
Definition resolve_sandbox (what operation : string) (id : option string) s
  : result BackendError (string * FirkinRuntimeSession Sess) :=
  match id with
  | Some id => x ← ok_or (NotFound id) (s.(a_active) !! id); Ok (id, x)
  | None =>
      match map_to_list s.(a_active) with
      | [p] => Ok p
      | l => Err (Runtime ("Firkin RuntimeAdapter envd " +:+ what +:+ " " +:+ operation
                   +:+ " requires exactly one active sandbox, found " +:+ print_dec (Z.of_nat (length l))))
      end
  end.
Definition ensure_filesystem_write_allowed (id : option string) (operation : string) s : result BackendError unit :=
  '(id, x) ← resolve_sandbox "filesystem" operation id s;
  match x.(fs_freshness_sync) with
  | Some g =>
      if writes_allowed g then Ok tt
      else Err (Runtime ("Firkin freshness sync for sandbox " +:+ bt id +:+ " blocks write operation " +:+ bt operation
                  +:+ " on branch " +:+ bt g.(branch) +:+ " while phase is " +:+ phase_debug g.(phase)))
  | None => Ok tt
  end.

Context `{RuntimeCommandRunner Sess}.
Definition sync_commands (b target dir : string) : list EnvdProcessStartRequest :=
  let git args := mk_process_start "git" args [] (Some dir) None None None in
  [git ["fetch"; "--quiet"; "origin"; branch_name b]%string;
   git ["checkout"; "--quiet"; branch_name b]%string;
   git ["reset"; "--hard"; "--quiet"; target]%string].
Definition hot_recorder : EventTraceRecorder := recorder_new Hot TinyExec FastAgent.
(** [output.error], or the exit code. *)
Definition exit_reason (out : EnvdProcessOutput) : string :=
  let n := out.(Envd.po_exit_code) in
  default ("process exited " +:+ (if n <? 0 then "-" +:+ print_dec (- n) else print_dec n)) out.(po_error).
(** Run a command in a session that is active; its samples are kept. *)
Definition session_command (id : string) (x : FirkinRuntimeSession Sess) (rq : EnvdProcessStartRequest) (what : string) s
  : AdapterState Sess * result BackendError EnvdProcessOutput :=
  match run_command rq hot_recorder x.(fs_session) with
  | (y, Err e) => ((update_session id (with_session y) s).1, Err (Runtime (what +:+ " failed: " +:+ e)))
  | (y, Ok r) => (log [] r.(cmd_samples) r.(cmd_traces) (update_session id (with_session y) s).1, Ok r.(cmd_output))
  end.
Fixpoint run_sync_commands (id : string) (cmds : list EnvdProcessStartRequest) s : AdapterState Sess * result BackendError unit :=
  match cmds with
  | [] => (s, Ok tt)
  | cmd :: cmds =>
      match s.(a_active) !! id with
      | None => (s, Err (NotFound id))
      | Some x =>
          match session_command id x cmd "Firkin runtime freshness sync" s with
          | (s, Err e) => (s, Err e)
          | (s, Ok out) =>
              if out.(Envd.po_exit_code) =? 0 then run_sync_commands id cmds s
              else
                let reason := exit_reason out in
                match fail_freshness_sync id reason s with
                | (s, Err e) => (s, Err e)
                | (s, Ok _) =>
                    (s, Err (Runtime ("Firkin runtime freshness sync command " +:+ bt cmd.(ps_cmd) +:+ " failed: " +:+ reason)))
                end
          end
      end
  end.
Definition sync_missing (id what : string) : BackendError := Runtime ("Firkin sandbox " +:+ bt id +:+ " " +:+ what).
Definition run_freshness_sync (elapsed : Z) (id : string) s : AdapterState Sess * result BackendError unit :=
  match s.(a_active) !! id with
  | None => (s, Err (NotFound id))
  | Some x =>
      match x.(fs_freshness_sync) with
      | None => (s, Err (sync_missing id "does not have pending freshness sync"))
      | Some g =>
          if writes_allowed g then (s, Ok tt)
          else match g.(sync_target) with
               | None => (s, Err (sync_missing id "freshness sync is missing a target"))
               | Some target =>
                   match x.(fs_freshness_sync_checkout) with
                   | None => (s, Err (sync_missing id ("freshness sync is missing " +:+ bt FRESHNESS_SYNC_CHECKOUT_METADATA
                                        +:+ " metadata")))
                   | Some dir =>
                       match run_sync_commands id (sync_commands g.(branch) target dir) s with
                       | (s, Err e) => (s, Err e)
                       | (s, Ok _) =>
                           match complete_freshness_sync id target s with
                           | (s, Err e) => (s, Err e)
                           | (s, Ok _) => (log [] [latency "freshness_sync" elapsed] [] s, Ok tt)
                           end
                       end
                   end
               end
      end
  end.
(** The error of a sync task becomes the reason the gate stays closed. *)
Definition backend_error_text (e : BackendError) : string :=
  match e with
  | AlreadyExists id => "sandbox " +:+ bt id +:+ " already exists"
  | NotFound id => "sandbox " +:+ bt id +:+ " was not found"
  | Runtime m => "runtime adapter error: " +:+ m
  end.
Definition freshness_sync_task (elapsed : Z) (id : string) s : AdapterState Sess :=
  match run_freshness_sync elapsed id s with
  | (s, Ok _) => s
  | (s, Err e) => (fail_freshness_sync id (backend_error_text e) s).1
  end.
End Sessions.

(** ** Snapshots, queries and the warm pool *)
Section Operations.
Context {Sess : Type} `{RuntimeSession Sess, Sha256, Serde SnapshotArtifactIntegrity, Serde SnapshotArtifactManifest}.
Context (c : AdapterConfig).
(** [base64] (URL-safe, no padding) and the root of continuation snapshots. *)
Context (base64url : string -> string) (continuation_root : string).
Implicit Types (s : AdapterState Sess) (h : Host Sess) (env : AdapterEnv Sess).
Definition runtime_continuation_snapshot_path (snapshot_id : string) : string :=
  path_join continuation_root (base64url snapshot_id +:+ ".vz").
Definition snapshot_failed (what e : string) : BackendError := Runtime ("Firkin continuation snapshot " +:+ what +:+ " failed: " +:+ e).
Definition snapshot (env : AdapterEnv Sess) (sandbox_id : string) (name : option string) (s : AdapterState Sess) (h : Host Sess)
  : AdapterState Sess * Host Sess * result BackendError SnapshotRef :=
  let id := default (sandbox_id +:+ "-continuation") name in
  let path := runtime_continuation_snapshot_path id in
  let at_world w := mk_host w h.(h_stopped) in
  if bool_decide (is_Some (h.(h_world).(files) !! path)) then (s, h, Err (AlreadyExists id))
  else
    match (match path_parent path with
           | Some _ => create_dir_all (fun e => Runtime ("create Firkin continuation snapshot dir: " +:+ host_message e))
           | None => mret tt
           end : HM BackendError unit) h.(h_world) with
    | (w, Err e) => (s, at_world w, Err e)
    | (w, Ok _) =>
        match s.(a_active) !! sandbox_id with
        | None => (s, at_world w, Err (NotFound sandbox_id))
        | Some active =>
            let s := (update_session sandbox_id (with_saved true) s).1 in
            match save_continuation_snapshot path active.(fs_session) w with
            | (w, Err e) => ((update_session sandbox_id (with_saved false) s).1, at_world w, Err (snapshot_failed "capture" e))
            | (w, Ok _) =>
                let manifest := manifest_continuation id path in
                match integrity_from_file manifest w with
                | (w, Err e) => (s, at_world w, Err (snapshot_failed "integrity" (integrity_error_text e)))
                | (w, Ok i) =>
                    match write_snapshot_artifact_sidecars manifest w with
                    | (w, Err e) =>
                        ((update_session sandbox_id (with_saved false) s).1, at_world w, Err (snapshot_failed "sidecar write" e))
                    | (w, Ok _) =>
                        (log [] [latency "snapshot_save" (env.(ev_elapsed) "snapshot_save")] [] s, at_world w,
                         Ok (mk_snapshot_ref id (Some path) (Some (mk_integrity i.(ai_size_bytes) i.(ai_sha256_hex)))))
                    end
                end
            end
        end
    end.
Definition delete_firkin_snapshot_file (p : string) : HM BackendError unit := fun w =>
  match remove_file id p w with
  | (w, Err e) =>
      (w, if decide (e.(host_kind) = IoNotFound) then Ok tt
          else Err (Runtime ("delete Firkin snapshot artifact " +:+ p +:+ ": " +:+ host_message e)))
  | (w, Ok _) => (w, Ok tt)
  end.
Definition delete_snapshot (snapshot_id : string) : HM BackendError unit :=
  let p := runtime_continuation_snapshot_path snapshot_id in
  _ ← delete_firkin_snapshot_file p;
  _ ← delete_firkin_snapshot_file (manifest_sidecar_path p);
  delete_firkin_snapshot_file (integrity_sidecar_path p).

Definition metrics (id : string) s : result BackendError (list SandboxMetric) :=
  if bool_decide (is_Some (s.(a_active) !! id)) then Ok [] else Err (NotFound id).
Definition logs (id : string) s : result BackendError SandboxLogs :=
  if bool_decide (is_Some (s.(a_active) !! id)) then Ok (mk_logs []) else Err (NotFound id).
Definition apply_network : result BackendError unit := Err (Runtime "Firkin RuntimeAdapter does not enforce E2B network policy").
Definition pause (id : string) : result BackendError PausedSandbox :=
  Err (Runtime ("Firkin RuntimeAdapter does not pause " +:+ bt id +:+ "; use continuation snapshot capture")).
Definition resume (p : PausedSandbox) : result BackendError RuntimeSandbox :=
  Err (Runtime ("Firkin RuntimeAdapter does not resume " +:+ bt p.(pd_sandbox_id)
    +:+ " from E2B pause; restore a continuation snapshot as a new create")).
Definition FIRKIN_ADAPTER_VSOCK_CID : Z := 0.
Definition port_target (id : string) (port : Z) s : result BackendError PortTarget :=
  x ← ok_or (NotFound id) (s.(a_active) !! id);
  if port =? DEFAULT_ENVD_PORT then Ok (Tcp "127.0.0.1" x.(fs_envd_port))
  else if port =? DEFAULT_CODE_INTERPRETER_PORT then Ok (Tcp "127.0.0.1" x.(fs_code_interpreter_port))
  else Ok (Vsock FIRKIN_ADAPTER_VSOCK_CID port).
Definition preflight : RuntimeCapabilitySet :=
  mk_capabilities "firkin-vz"
    ["apple-vz-snapshot-restore"; "e2b-runtime-adapter"; "single-node-capacity-admission"]%string
    [("restrictive-network-policy", "Firkin does not yet enforce guest firewall or host PF policy");
     ("adapter-level-template-build", "template builds are orchestrated through firkin-runtime template build jobs")]%string.
Definition prepare_template (rq : TemplateBuildRequest) : result BackendError PreparedTemplate :=
  Err (Runtime ("Firkin RuntimeAdapter cannot prepare template " +:+ bt (default "unnamed"%string rq.(br_name))
    +:+ " directly; run the runtime template build pipeline and pass its prepared snapshot artifact")).
Definition build_template (rq : RuntimeTemplateBuild) : result BackendError PreparedTemplate :=
  Err (Runtime ("Firkin RuntimeAdapter cannot build template " +:+ bt (rq.(rb_template_id) +:+ "/" +:+ rq.(rb_build_id))
    +:+ " directly; run the runtime template build pipeline and register its prepared snapshot artifact")).

(** *** Prewarming *)
(** Before the launch: the checks, and whether the entry is wanted. *)
Definition prewarm_checks (env : AdapterEnv Sess) (t : PreparedTemplate) h : Host Sess * result BackendError unit :=
  let '(probe, r) := check_runtime_preflight c env env.(ev_probe) in
  match r with
  | Err e => (h, Err e)
  | Ok _ =>
      let '(w, r) := verify_template t h.(h_world) in
      (mk_host w h.(h_stopped),
       _ ← r; check_restore_disk (pt_artifact t) DEFAULT_RUNTIME_WARM_POOL_MINIMUM_FREE_DISK probe)
  end.
Definition prewarm_wanted (allow_existing : bool) (t : PreparedTemplate) s : bool :=
  allow_existing || negb (WarmPool.contains s.(a_warm_pool) (adapter_key t.(pt_template_id))).
(** The launch, outside of the mutex. *)
Definition prewarm_middle (env : AdapterEnv Sess) (t : PreparedTemplate) h
  : Host Sess * result BackendError (Sess * list SandboxEventTrace) :=
  match env.(ev_launch) (mk_restore_request (template_manifest t) c.(ac_budget)) with
  | Err e => (h, Err (restore_error_to_backend show_text (Launch e)))
  | Ok x =>
      match probe_ready (record_all env (recorder_new Warm ReadinessProbe FastAgent) [SnapshotRestoreDone]) x with
      | (x, Err e) => (stop_quietly x h, Err (Runtime ("Firkin warm-pool readiness probe failed: " +:+ e)))
      | (x, Ok traces) => (h, Ok (x, traces))
      end
  end.
(** The last section: the entry is recorded, or the session stopped. *)
Definition prewarm_publish (allow_existing : bool) (t : PreparedTemplate) (x : Sess) (traces : list SandboxEventTrace)
    (s : AdapterState Sess) (h : Host Sess) : AdapterState Sess * Host Sess * result BackendError bool :=
  let k := adapter_key t.(pt_template_id) in
  if negb (prewarm_wanted allow_existing t s) then (s, stop_quietly x h, Ok false)
  else
    let entry := mk_entry k t.(pt_template_id) c.(ac_budget) in
    match maintain s.(a_warm_pool) entry s.(a_ledger) with
    | ((pool, ledger), Err e) =>
        (set_warm ledger pool s.(a_warm_sessions) s, stop_quietly x h, Err (Runtime (capacity_error_text e)))
    | ((pool, ledger), Ok _) =>
        (log [t.(pt_artifact)] [] traces
           (set_warm ledger pool (push_session k (mk_maintenance x entry) s.(a_warm_sessions)) s), h, Ok true)
    end.
(** The whole operation, nothing else running meanwhile. *)
Definition prewarm_template_entry (allow_existing : bool) (env : AdapterEnv Sess) (t : PreparedTemplate)
    (s : AdapterState Sess) (h : Host Sess) : AdapterState Sess * Host Sess * result BackendError bool :=
  match prewarm_checks env t h with
  | (h, Err e) => (s, h, Err e)
  | (h, Ok _) =>
      if negb (prewarm_wanted allow_existing t s) then (s, h, Ok false)
      else match prewarm_middle env t h with
           | (h, Err e) => (s, h, Err e)
           | (h, Ok (x, traces)) => prewarm_publish allow_existing t x traces s h
           end
  end.
Definition prewarm_template (env : AdapterEnv Sess) (t : PreparedTemplate) (s : AdapterState Sess) (h : Host Sess)
  : AdapterState Sess * Host Sess * result BackendError bool :=
  if WarmPool.contains s.(a_warm_pool) (adapter_key t.(pt_template_id)) then (s, h, Ok false)
  else prewarm_template_entry false env t s h.
Record FirkinWarmTemplateMaintainReport := mk_maintain_report { mt_maintained : list string; mt_skipped_already_warm : list string }.
(** [maintain_warm_templates_with_disk_probe]: the n-th mention of a template
    wants n entries; each template with its surroundings. *)
Fixpoint maintain_warm_templates (seen : list WarmPoolKey) (report : FirkinWarmTemplateMaintainReport)
    (templates : list (PreparedTemplate * AdapterEnv Sess)) (s : AdapterState Sess) (h : Host Sess)
  : AdapterState Sess * Host Sess * result BackendError FirkinWarmTemplateMaintainReport :=
  match templates with
  | [] => (s, h, Ok report)
  | (t, env) :: templates =>
      let k := adapter_key t.(pt_template_id) in
      let seen := seen ++ [k] in
      let desired := length (filter (fun k' => k' = k) seen) in
      let skip := mk_maintain_report report.(mt_maintained) (report.(mt_skipped_already_warm) ++ [t.(pt_template_id)]) in
      if (WarmPool.count s.(a_warm_pool) k <? desired)%nat then
        match prewarm_template_entry true env t s h with
        | (s, h, Err e) => (s, h, Err e)
        | (s, h, Ok true) =>
            maintain_warm_templates seen
              (mk_maintain_report (report.(mt_maintained) ++ [t.(pt_template_id)]) report.(mt_skipped_already_warm)) templates s h
        | (s, h, Ok false) => maintain_warm_templates seen skip templates s h
        end
      else maintain_warm_templates seen skip templates s h
  end.

(** *** Follow-ups *)
Definition followup_checks (env : AdapterEnv Sess) (f : FollowupSnapshot) h : Host Sess * result BackendError unit :=
  let m := manifest_continuation f.(fs_snapshot_id) f.(fs_location) in
  let verify : HM (RuntimeCubeSandboxCreateError string) unit :=
    i ← snapshot_artifact_integrity f.(fs_artifact_integrity) m;
    hm_map_err (fun e => RestoreFailed (Integrity (integrity_error_text e))) (integrity_verify i m) in
  let '(w, r) := hm_map_err (runtime_create_error_to_backend show_text) verify h.(h_world) in
  (mk_host w h.(h_stopped),
   _ ← r; check_restore_disk f.(fs_location) c.(ac_minimum_free_disk) env.(ev_probe)).
(** The manifest a follow-up restores from carries the id of the new sandbox. *)
Definition followup_manifest (sandbox_id : string) (f : FollowupSnapshot) : SnapshotArtifactManifest :=
  snapshot_manifest (mk_continuation_plan sandbox_id Artifacts.Idle f.(fs_location)).
End Operations.

(** ** Requests in flight

    Every request is between two sections of its operation; [flight] says where
    and what it has in hand.  One step is one section, or the stretch of one
    request between two sections. *)
Section System.
Context {Sess : Type} `{RuntimeSession Sess, RuntimeCommandRunner Sess, Sha256, Serde SnapshotArtifactIntegrity, Serde SnapshotArtifactManifest}.
Context (c : AdapterConfig) (base64url : string -> string) (continuation_root : string).
Inductive flight :=
| FWaiting
| FAdmitted (evicted : list Sess)
| FNamed (id : string) (evicted : list Sess)
| FWarm (wk : WarmStart (Sess := Sess))
| FReady (id : string) (b : ResourceBudget) (x : Started (Sess := Sess))
| FFailed (b : ResourceBudget)
| FPrewarming (allow_existing : bool) (t : PreparedTemplate) (x : Sess) (traces : list SandboxEventTrace).
(** The adapter, its host, the queue counter, the requests, and a log of the
    sessions the launcher made. *)
Record System := mk_system {
  sys_state : AdapterState Sess;
  sys_host : Host Sess;
  sys_pending : Z;
  sys_flights : list flight;
  sys_launched : list Sess
}.
Definition system_new (l : CapacityLedger) (h : Host Sess) : System := mk_system (adapter_new l) h 0 [] [].
Definition launched_by (r : result string Sess) : list Sess := match r with Ok x => [x] | Err _ => [] end.
(** What a request that holds [b] does with the outcome of its middle part. *)
Definition after_middle (id : string) (b : ResourceBudget) (r : result BackendError (Started (Sess := Sess))) : flight :=
  match r with Ok x => FReady id b x | Err _ => FFailed b end.
Inductive adapter_step : System -> System -> Prop :=
| step_admit s s' h p fs la ev :
    try_admit c p p s = (s', Granted ev) ->
    adapter_step (mk_system s h p fs la) (mk_system s' h p (fs ++ [FAdmitted ev]) la)
| step_queue s s' h p p' fs la :
    try_admit c p p s = (s', Queued p') ->
    adapter_step (mk_system s h p fs la) (mk_system s' h p' (fs ++ [FWaiting]) la)
| step_refuse s s' h p fs la e :
    try_admit c p p s = (s', Refused e) ->
    adapter_step (mk_system s h p fs la) (mk_system s' h p fs la)
| step_wake s h p f1 f2 la :
    adapter_step (mk_system s h p (f1 ++ FWaiting :: f2) la) (mk_system s h (p - 1) (f1 ++ f2) la)
| step_name s s' h p f1 f2 la ev id :
    next_sandbox_id s = (s', id) ->
    adapter_step (mk_system s h p (f1 ++ FAdmitted ev :: f2) la) (mk_system s' h p (f1 ++ FNamed id ev :: f2) la)
| step_warm env t timeout s s' h p fs la wk :
    checkout_warm c env t timeout s = (s', Ok (Some wk)) ->
    adapter_step (mk_system s h p fs la) (mk_system s' h p (fs ++ [FWarm wk]) la)
| step_warm_refused env t timeout s s' h p fs la r :
    checkout_warm c env t timeout s = (s', r) -> match r with Ok (Some _) => False | _ => True end ->
    adapter_step (mk_system s h p fs la) (mk_system s' h p fs la)
| step_warm_middle env wk s h h' p f1 f2 la r :
    warm_middle c env wk h = (h', r) ->
    adapter_step (mk_system s h p (f1 ++ FWarm wk :: f2) la)
      (mk_system s h' p (f1 ++ after_middle wk.(wk_id) wk.(wk_reservation).(rv_budget) r :: f2) la)
| step_restore_middle followup env manifest id ev s h h' p f1 f2 la r :
    restore_middle c followup env manifest id ev h = (h', r) ->
    adapter_step (mk_system s h p (f1 ++ FNamed id ev :: f2) la)
      (mk_system s h' p (f1 ++ after_middle id c.(ac_budget) r :: f2)
         (la ++ launched_by (env.(ev_launch) (mk_restore_request manifest c.(ac_budget)))))
| step_publish gate checkout paths id b x s h p f1 f2 la :
    adapter_step (mk_system s h p (f1 ++ FReady id b x :: f2) la)
      (mk_system (publish id (reservation_new b) gate checkout paths x s) h p (f1 ++ f2) la)
| step_release b s h p f1 f2 la :
    adapter_step (mk_system s h p (f1 ++ FFailed b :: f2) la)
      (mk_system (release_active_budget b s) h p (f1 ++ f2) la)
| step_stop env id s s' h h' p fs la r :
    stop c env id s h = (s', h', r) ->
    adapter_step (mk_system s h p fs la) (mk_system s' h' p fs la)
| step_prewarm_middle allow env t s h h' p fs la x traces :
    prewarm_wanted allow t s = true -> prewarm_middle c env t h = (h', Ok (x, traces)) ->
    adapter_step (mk_system s h p fs la)
      (mk_system s h' p (fs ++ [FPrewarming allow t x traces])
         (la ++ launched_by (env.(ev_launch) (mk_restore_request (template_manifest t) c.(ac_budget)))))
| step_prewarm_failed env t s h h' p fs la e :
    prewarm_middle c env t h = (h', Err e) ->
    adapter_step (mk_system s h p fs la)
      (mk_system s h' p fs (la ++ launched_by (env.(ev_launch) (mk_restore_request (template_manifest t) c.(ac_budget)))))
| step_prewarm_publish allow t x traces s s' h h' p f1 f2 la r :
    prewarm_publish c allow t x traces s h = (s', h', r) ->
    adapter_step (mk_system s h p (f1 ++ FPrewarming allow t x traces :: f2) la) (mk_system s' h' p (f1 ++ f2) la)
| step_checks env rq s h h' p fs la pr r :
    start_checks c env rq h = (h', pr, r) ->
    adapter_step (mk_system s h p fs la) (mk_system s h' p fs la)
| step_snapshot env id name s s' h h' p fs la r :
    snapshot base64url continuation_root env id name s h = (s', h', r) ->
    adapter_step (mk_system s h p fs la) (mk_system s' h' p fs la)
| step_sync elapsed id s h p fs la :
    adapter_step (mk_system s h p fs la) (mk_system (freshness_sync_task elapsed id s) h p fs la)
| step_complete id commit s h p fs la :
    adapter_step (mk_system s h p fs la) (mk_system (complete_freshness_sync id commit s).1 h p fs la)
| step_fail id reason s h p fs la :
    adapter_step (mk_system s h p fs la) (mk_system (fail_freshness_sync id reason s).1 h p fs la).
End System.
