(* ===== verification/FirkinAdapterInv.v ===== *)
(** * The adapter accounts for every session and every budget

    Theorems on [FirkinAdapter]: through any interleaving of requests, the
    capacity ledger is exactly what sessions and requests in flight hold
    ([Ledger]), and every session the launcher made is active, warm, in the
    hands of a request, or stopped ([Conservation]). *)
From S2P Require Import Prelude BTree Types HostPaths HostFs Capacity WarmPool Artifacts Admission Envd ArtifactFiles DiskGuard E2bWire Trace RuntimeRestore RuntimePool Template FirkinAdapter.
Import Sizes Disk Restore Retained Trace.Samples Trace.Events Gate Backpressure.

(** ** Warm sessions *)
Section Warm.
Context {Sess : Type}.
Implicit Types (m : list (WarmPoolKey * list (WarmPoolMaintenanceReport Sess))) (s : AdapterState Sess).
Lemma mirror_forall_keys (P : WarmPoolKey -> Prop) m :
  Forall (fun p => P p.1) (mirror m) <-> Forall (fun p => P p.1) m.
Proof. unfold mirror. rewrite Forall_fmap. done. Qed.
Lemma mirror_sorted m : bt_sorted (mirror m) -> bt_sorted m.
Proof.
  induction m as [|[k q] m IH]; [done|]. intros [Hf Hs]. split; [|by apply IH].
  by apply (mirror_forall_keys (klt k)).
Qed.
Lemma all_sessions_cons k q m : all_sessions ((k, q) :: m) = (wr_session <$> q) ++ all_sessions m.
Proof. unfold all_sessions. cbn. apply fmap_app. Qed.
Lemma all_sessions_app m1 m2 : all_sessions (m1 ++ m2) = all_sessions m1 ++ all_sessions m2.
Proof. unfold all_sessions. by rewrite fmap_app, join_app, fmap_app. Qed.
(** Retaining adds one session, taking removes one. *)
Lemma push_all_sessions k r m : bt_sorted m -> all_sessions (push_session k r m) ≡ₚ wr_session r :: all_sessions m.
Proof.
  intros Hs. unfold push_session. destruct (bt_get k m) as [q|] eqn:Hg; cbn [default].
  - destruct (bt_get_split _ _ _ Hs Hg) as (m1 & m2 & -> & Hi & _). rewrite Hi, !all_sessions_app, !all_sessions_cons, fmap_app.
    cbn. rewrite <- !app_assoc, Permutation_middle. apply Permutation_app_head. cbn. symmetry. apply Permutation_middle.
  - destruct (bt_get_none_split _ _ Hs Hg) as (m1 & m2 & -> & Hi). rewrite Hi, !all_sessions_app, all_sessions_cons. cbn.
    symmetry. apply Permutation_middle.
Qed.
Lemma pop_all_sessions k r m m' : bt_sorted m -> pop_session k m = (m', Some r) -> all_sessions m ≡ₚ wr_session r :: all_sessions m'.
Proof.
  intros Hs. unfold pop_session. destruct (bt_get k m) as [[|r' rs]|] eqn:Hg; try done.
  destruct (bt_get_split _ _ _ Hs Hg) as (m1 & m2 & Hm & Hi & Hr).
  assert (all_sessions m ≡ₚ wr_session r' :: all_sessions (m1 ++ (k, rs) :: m2)) as Hp.
  { rewrite Hm, !all_sessions_app, !all_sessions_cons. cbn. symmetry. apply Permutation_middle. }
  destruct rs as [|r2 rs]; intros [= <- ->]; rewrite Hp.
  - rewrite Hr, !all_sessions_app, all_sessions_cons. done.
  - by rewrite Hi.
Qed.

(** *** Eviction *)
Definition warm_ok s : Prop := pool_inv s.(a_warm_pool) s.(a_ledger) /\ s.(a_warm_pool) = mirror s.(a_warm_sessions).
Lemma evict_prefix_app req l : forall av ev a,
  evict_prefix req av l = (ev, a) -> exists rest, l = ev ++ rest /\ a = foldl budget_add av (budget <$> ev).
Proof.
  induction l as [|e l IH]; intros av ev a; cbn [evict_prefix]; destruct (budget_fits req av).
  1,2,3: intros [= <- <-]; by eexists.
  destruct (evict_prefix req (budget_add av (budget e)) l) as [ev' a'] eqn:E. intros [= <- <-].
  apply IH in E as (rest & -> & ->). by exists rest.
Qed.
(** Evicting the first entries takes exactly their sessions, in order. *)
Lemma evict_sessions_spec ev : forall s rest,
  warm_ok s -> all_entries s.(a_warm_pool) = ev ++ rest ->
  exists l p ss out, evict_sessions (key <$> ev) s = (set_warm l p ss s, out) /\
    warm_ok (set_warm l p ss s) /\ all_sessions s.(a_warm_sessions) = out ++ all_sessions ss /\
    active l = active s.(a_ledger) /\ capacity l = capacity s.(a_ledger) /\
    available l = foldl budget_add (available s.(a_ledger)) (budget <$> ev).
Proof.
  induction ev as [|e ev IH]; intros s rest Hok Hall.
  { exists s.(a_ledger), s.(a_warm_pool), s.(a_warm_sessions), []. destruct s. by split_and!. }
  destruct Hok as [Hi Hm]. rewrite fmap_cons. cbn [evict_sessions].
  destruct s.(a_warm_sessions) as [|[k q] ss0] eqn:Ess. { by rewrite Hm in Hall. }
  destruct q as [|r q].
  { rewrite Hm in Hi. destruct Hi as [[_ [[Hne _] _]%Forall_cons] _]. done. }
  assert (Hpool : s.(a_warm_pool) = (k, wr_entry r :: (wr_entry <$> q)) :: mirror ss0) by done.
  rewrite Hpool, all_entries_cons in Hall. injection Hall as Her Hall.
  assert (Hk : key e = k).
  { rewrite Hpool in Hi. destruct Hi as [[_ [[_ [[Hk _] _]%Forall_cons] _]%Forall_cons] _]. by rewrite <- Her. }
  pose proof (expire_spec _ _ (key e) Hi) as Hspec. pose proof (expire_head k (wr_entry r) (wr_entry <$> q) (mirror ss0) s.(a_ledger)) as (p1 & Hexp & Hall1).
  rewrite Hk in *. rewrite Hpool in Hspec |- *. rewrite Hexp in *. destruct Hspec as (_ & Hi1 & _ & Hcap & Hact & _).
  rewrite <- Hpool in Hexp. rewrite Hm in Hexp. destruct (mirror_expire _ _ _ _ _ _ Hexp) as (r' & Hpop & _ & Hp1). rewrite Hpop.
  set (s1 := set_warm _ p1 _ s) in *. destruct (IH s1 rest) as (l & p & ss & out & Hrun & Hok' & Hsess & Ha & Hc & Hav).
  { by split. } { unfold s1. cbn [a_warm_pool set_warm]. by rewrite Hall1. }
  exists l, p, ss, (wr_session r' :: out). rewrite Hrun. change (set_warm l p ss s1) with (set_warm l p ss s).
  split_and!; [done|done| |by rewrite Ha|by rewrite Hc|].
  - unfold s1 in Hsess. cbn [a_warm_sessions set_warm] in Hsess. rewrite ?Ess in Hsess, Hpop.
    unfold pop_session in Hpop, Hsess. rewrite bt_get_head in Hpop, Hsess. rewrite all_sessions_cons. cbn.
    destruct q as [|r2 q]; cbn in Hpop; injection Hpop as ->; cbn [fst] in Hsess;
      rewrite <- Hsess; [by rewrite bt_remove_head|by rewrite bt_insert_head, all_sessions_cons].
  - rewrite Hav. cbn. f_equal. rewrite Her. apply release_available; [apply Hi|]. intros d. rewrite <- Her.
    rewrite Hpool in Hi. apply (front_le_held _ _ k (wr_entry r) (wr_entry <$> q) d Hi). apply bt_get_head.
Qed.
End Warm.

(** ** Sums over the active sessions *)
Definition msum {A} (f : A -> Z) (m : gmap string A) : Z := sumZ (fun p => f p.2) (map_to_list m).
Lemma sumZ_compose {A B} (f : B -> Z) (g : A -> B) l : sumZ f (g <$> l) = sumZ (fun x => f (g x)) l.
Proof. induction l as [|x l IH]; [done|]. rewrite fmap_cons. cbn. by rewrite IH. Qed.
Lemma msum_fmap {A B} (f : B -> Z) (g : A -> B) (m : gmap string A) :
  msum f (g <$> m) = sumZ (fun p => f (g p.2)) (map_to_list m).
Proof. unfold msum. by rewrite map_to_list_fmap, sumZ_compose. Qed.
Lemma msum_insert {A} (f : A -> Z) m k x : m !! k = None -> msum f (<[k := x]> m) = f x + msum f m.
Proof. intros Hk. unfold msum. by rewrite (sumZ_perm _ _ _ (map_to_list_insert m k x Hk)). Qed.
Lemma msum_delete {A} (f : A -> Z) m k x : m !! k = Some x -> msum f m = f x + msum f (delete k m).
Proof. intros Hk. rewrite <- (insert_delete_id m k x Hk) at 1. apply msum_insert, lookup_delete_eq. Qed.

(** ** Sandbox ids *)
Definition sandbox_id (n : Z) : string := "sbx_firkin_" +:+ print_dec n.
Definition named (n : Z) (id : string) : Prop := exists i, 1 <= i <= n /\ id = sandbox_id i.
Lemma sandbox_id_inj n i : in_uint 64 n -> in_uint 64 i -> sandbox_id n = sandbox_id i -> n = i.
Proof.
  unfold sandbox_id. intros Hn Hi E%append_inj_l. pose proof (parse_uint_print 64 n Hn) as Pn.
  rewrite E, parse_uint_print in Pn by done. congruence.
Qed.
Lemma named_fresh n : 0 <= n < max_uint 64 -> ~ named n (sandbox_id (n + 1)).
Proof.
  intros Hn (i & Hi & E). apply sandbox_id_inj in E; [lia|uint_lia..].
Qed.
Lemma named_weaken n n' id : n <= n' -> named n id -> named n' id.
Proof. intros Hn (i & Hi & ->). exists i. split; [lia|done]. Qed.

(** ** The invariant *)
(** Whatever is done to a session, it stays the same session. *)
Class SessionIdentity (Sess I : Type) `{RuntimeSession Sess, RuntimeCommandRunner Sess} := {
  ident : Sess -> I;
  ident_stop x : ident (stop_session x).1 = ident x;
  ident_probe t x : ident (probe_ready t x).1 = ident x;
  ident_command rq t x : ident (run_command rq t x).1 = ident x
}.

Section Inv.
Context {Sess I : Type} `{EqDecision I} `{SessionIdentity Sess I, Sha256, Serde SnapshotArtifactIntegrity, Serde SnapshotArtifactManifest}.
Context (c : AdapterConfig) (base64url : string -> string) (continuation_root : string).
Context (cap : ResourceBudget) (stopped0 : list Sess).
Implicit Types (s : AdapterState Sess) (h : Host Sess) (env : AdapterEnv Sess) (f : flight (Sess := Sess)).

(** What a request in flight holds. *)
Definition flight_budget f : ResourceBudget :=
  match f with
  | FAdmitted _ | FNamed _ _ => c.(ac_budget)
  | FWarm wk => wk.(wk_reservation).(rv_budget)
  | FReady _ b _ | FFailed b => b
  | FWaiting | FPrewarming _ _ _ _ => budget_zero
  end.
Definition flight_sessions f : list Sess :=
  match f with
  | FAdmitted ev | FNamed _ ev => ev
  | FWarm wk => [wk.(wk_session)]
  | FReady _ _ x => [x.(sd_session)]
  | FPrewarming _ _ x _ => [x]
  | FWaiting | FFailed _ => []
  end.
Definition flight_ids f : list string :=
  match f with FNamed id _ | FReady id _ _ => [id] | FWarm wk => [wk.(wk_id)] | _ => [] end.
Definition waiting f : Z := match f with FWaiting => 1 | _ => 0 end.

Definition occ (i : I) (x : Sess) : Z := if decide (ident x = i) then 1 else 0.
Definition tally (i : I) (l : list Sess) : Z := sumZ (occ i) l.
Lemma tally_app i l l' : tally i (l ++ l') = tally i l + tally i l'.
Proof. apply sumZ_app. Qed.
Lemma tally_cons i x l : tally i (x :: l) = occ i x + tally i l.
Proof. done. Qed.
Lemma tally_nil i : tally i [] = 0.
Proof. done. Qed.
#[local] Arguments occ : simpl never.
#[local] Arguments tally : simpl never.
Lemma tally_perm i l l' : l ≡ₚ l' -> tally i l = tally i l'.
Proof. apply sumZ_perm. Qed.

(** An active session, as far as the accounts go. *)
Definition core (x : FirkinRuntimeSession Sess) : ActiveSessionReservation * I := (x.(fs_reservation), ident x.(fs_session)).
Abbreviation cores := (gmap string (ActiveSessionReservation * I)).
Definition ids_ok (n : Z) (cs : cores) (fs : list (flight (Sess := Sess))) : Prop :=
  0 <= n /\ NoDup (fs ≫= flight_ids) /\
  (forall id, id ∈ fs ≫= flight_ids -> cs !! id = None /\ named n id) /\ forall id, is_Some (cs !! id) -> named n id.
Definition core_ok (x : ActiveSessionReservation * I) : Prop := x.1.(rv_released) = false /\ budget_typed x.1.(rv_budget).
Record accounts (l : CapacityLedger) (n : Z) (cs : cores) (p : WarmPoolLedger)
    (ss : list (WarmPoolKey * list (WarmPoolMaintenanceReport Sess))) (stopped : list Sess)
    (pending : Z) (fs : list (flight (Sess := Sess))) (la : list Sess) : Prop := {
  acc_warm : pool_inv p l /\ p = mirror ss;
  acc_capacity : capacity l = cap;
  acc_active d : get d (active l) = msum (fun x => get d x.1.(rv_budget)) cs + sumZ (fun f => get d (flight_budget f)) fs;
  acc_cores : map_Forall (fun _ => core_ok) cs;
  acc_flights : Forall (fun f => budget_typed (flight_budget f)) fs;
  acc_ids : ids_ok n cs fs;
  acc_pending : pending = sumZ waiting fs /\ pending <= c.(ac_max_pending);
  acc_sessions i : tally i (stopped0 ++ la) = msum (fun x => if decide (x.2 = i) then 1 else 0) cs + tally i (all_sessions ss)
    + sumZ (fun f => tally i (flight_sessions f)) fs + tally i stopped
}.
Definition accounted (σ : System (Sess := Sess)) : Prop :=
  let s := σ.(sys_state) in
  accounts s.(a_ledger) s.(a_next_sandbox) (core <$> s.(a_active)) s.(a_warm_pool) s.(a_warm_sessions)
    σ.(sys_host).(h_stopped) σ.(sys_pending) σ.(sys_flights) σ.(sys_launched).

(** *** Ids *)
Lemma ids_fewer n cs fs fs' : (fs' ≫= flight_ids) ⊆+ (fs ≫= flight_ids) -> ids_ok n cs fs -> ids_ok n cs fs'.
Proof.
  intros Hsub (Hn & Hnd & Hf & Ha). split_and!; [done| | |done].
  - apply submseteq_Permutation in Hsub as [k Hk]. rewrite Hk in Hnd. by apply NoDup_app in Hnd as [? _].
  - intros id Hid. apply Hf. by eapply elem_of_submseteq.
Qed.
Lemma ids_fresh n cs fs fs' :
  n + 1 < max_uint 64 -> (fs' ≫= flight_ids) ≡ₚ sandbox_id (n + 1) :: (fs ≫= flight_ids) ->
  ids_ok n cs fs -> ids_ok (n + 1) cs fs'.
Proof.
  intros Hmax Hp (Hn & Hnd & Hf & Ha). pose proof (named_fresh n ltac:(lia)) as Hfresh.
  assert (Hnone : cs !! sandbox_id (n + 1) = None).
  { destruct (cs !! sandbox_id (n + 1)) eqn:E; [|done]. exfalso. apply Hfresh, Ha. by eexists. }
  split_and!; [lia| | |].
  - rewrite Hp. constructor; [|done]. by intros [_ Hid]%Hf.
  - intros id. rewrite Hp, elem_of_cons. intros [->|Hid].
    + split; [done|]. exists (n + 1). split; [lia|done].
    + apply Hf in Hid as [? ?]. split; [done|]. by apply (named_weaken n); [lia|].
  - intros id Hid. apply (named_weaken n); [lia|by apply Ha].
Qed.
Lemma ids_publish n cs fs fs' id x :
  (fs ≫= flight_ids) ≡ₚ id :: (fs' ≫= flight_ids) -> ids_ok n cs fs ->
  cs !! id = None /\ ids_ok n (<[id := x]> cs) fs'.
Proof.
  intros Hp (Hn & Hnd & Hf & Ha). rewrite Hp in Hnd. apply NoDup_cons in Hnd as [Hid Hnd].
  destruct (Hf id) as [Hnone Hname]; [rewrite Hp; apply list_elem_of_here|]. split; [done|]. split_and!; [done|done| |].
  - intros id' Hid'. destruct (Hf id') as [? ?]; [rewrite Hp; by apply elem_of_cons; right|]. split; [|done].
    rewrite lookup_insert_ne; [done|]. by intros ->.
  - intros id' Hid'. destruct (decide (id' = id)) as [->|Hne]; [done|]. rewrite lookup_insert_ne in Hid' by done. by apply Ha.
Qed.
Lemma ids_delete n cs fs id : ids_ok n cs fs -> ids_ok n (delete id cs) fs.
Proof.
  intros (Hn & Hnd & Hf & Ha). split_and!; [done|done| |].
  - intros id' [? ?]%Hf. split; [|done]. apply lookup_delete_None. by right.
  - intros id' [y Hy]. apply lookup_delete_Some in Hy as [_ Hy]. apply Ha. by eexists.
Qed.

(** *** Starting a request *)
Lemma try_admit_spec p s :
  budget_typed c.(ac_budget) -> warm_ok s ->
  match try_admit c p p s with
  | (s', Granted ev) => exists l pool ss, s' = set_ledger l (set_warm l pool ss s) /\ warm_ok s' /\
      all_sessions s.(a_warm_sessions) = ev ++ all_sessions ss /\ capacity l = capacity s.(a_ledger) /\
      forall d, get d (active l) = get d (active s.(a_ledger)) + get d c.(ac_budget)
  | (s', Queued p') => s' = s /\ p' = p + 1 /\ p < c.(ac_max_pending)
  | (s', Refused _) => s' = s
  end.
Proof.
  intros Hb Hok. unfold try_admit, Backpressure.from_warm_pool.
  pose proof (ActivePlan.from_warm_pool_prefix c.(ac_budget) s.(a_warm_pool) s.(a_ledger)) as Hplan.
  destruct (evict_prefix _ _ _) as [ev a] eqn:Epre. rewrite Hplan. unfold ActivePlan.is_admitted.
  cbn [ActivePlan.error ActivePlan.evictions].
  destruct (capacity_error_for_request c.(ac_budget) a) eqn:Ecap.
  - destruct (capacity_error_for_request c.(ac_budget) (capacity s.(a_ledger))); [cbn [decision rejection]; done|].
    destruct (c.(ac_max_pending) <=? p) eqn:Ep; cbn [decision rejection]; [done|]. unfold try_acquire. rewrite Ep. split_and!; [done|done|lia].
  - cbn [decision bp_evictions]. destruct (evict_prefix_app _ _ _ _ _ Epre) as (rest & Hall & Ha).
    destruct (evict_sessions_spec ev s rest Hok Hall) as (l & pool & ss & out & -> & Hok' & Hsess & Hact & Hcap & Hav).
    rewrite <- Ha in Hav. destruct Hok' as [Hi Hm]. cbn [a_ledger set_warm a_warm_pool a_warm_sessions] in *.
    pose proof (reserve_spec (ReservationLaws := active_side_laws) l c.(ac_budget) ltac:(apply Hi) Hb) as Hr.
    cbn [reserve held other active_side] in Hr. rewrite Hav, Ecap in Hr. destruct Hr as (l' & -> & Hl' & Hcap' & Hwarm & Hd).
    exists l', pool, ss. split; [done|]. split.
    + split; [|done]. cbn. by apply (pool_inv_active _ l).
    + split_and!; [done|congruence|]. intros d. rewrite Hd, Hact. done.
Qed.

Definition next_number (n : Z) : Z := Z.max (sat_add 64 n 1) 1.
Lemma next_number_succ n : 0 <= n -> next_number n < max_uint 64 -> next_number n = n + 1.
Proof. unfold next_number. uint_lia. Qed.
Lemma checkout_warm_spec env t timeout s :
  warm_ok s ->
  match checkout_warm c env t timeout s with
  | (_, Err _) => False
  | (s', Ok None) => s' = s
  | (s', Ok (Some wk)) => exists l pool ss,
      s' = set_warm l pool ss (set_next (next_number s.(a_next_sandbox)) s) /\ warm_ok s' /\
      wk.(wk_id) = sandbox_id (next_number s.(a_next_sandbox)) /\ capacity l = capacity s.(a_ledger) /\
      wk.(wk_reservation).(rv_released) = false /\ budget_typed wk.(wk_reservation).(rv_budget) /\
      all_sessions s.(a_warm_sessions) ≡ₚ wk.(wk_session) :: all_sessions ss /\
      forall d, get d (active l) = get d (active s.(a_ledger)) + get d wk.(wk_reservation).(rv_budget)
  end.
Proof.
  intros [Hi Hm]. unfold checkout_warm. destruct (WarmPool.contains _ _) eqn:Ect; [|done].
  unfold next_sandbox_id. cbn [a_warm_pool a_ledger a_warm_sessions set_next].
  destruct (checkout_spec _ _ (adapter_key (pt_template_id t)) Hi) as (pool & l & r & Hrun & Hi' & Hc & Hr). rewrite Hrun.
  destruct r as [e|]; [|destruct Hr as (_ & _ & Hno); congruence]. destruct Hr as (_ & _ & Hp & Ha & _).
  rewrite Hm in Hrun. destruct (mirror_checkout _ _ _ _ _ _ Hrun) as (r & Hpop & He & Hpool). rewrite Hpop.
  assert (Hty : budget_typed (budget e)).
  { pose proof (pool_entries_typed _ (proj1 Hi)) as Ht. rewrite Forall_forall in Ht. apply Ht. rewrite Hp. apply list_elem_of_here. }
  exists l, pool, (pop_session (adapter_key (pt_template_id t)) (a_warm_sessions s)).1.
  cbn [wk_id wk_reservation wk_session reservation_new rv_released rv_budget].
  split_and!; try done. apply (pop_all_sessions _ _ _ _ (mirror_sorted _ ltac:(rewrite <- Hm; apply Hi)) Hpop).
Qed.

(** *** Between two sections: what becomes of the sessions in hand *)
Lemma stop_quietly_tally i x h : tally i (stop_quietly x h).(h_stopped) = tally i h.(h_stopped) + occ i x.
Proof.
  unfold stop_quietly. cbn [h_stopped]. rewrite tally_app. f_equal. unfold tally, occ. cbn [sumZ]. rewrite ident_stop.
  destruct (decide _); done.
Qed.
Lemma stop_all_tally i l : forall h, tally i (stop_all l h).(h_stopped) = tally i h.(h_stopped) + tally i l.
Proof.
  induction l as [|x l IH]; intros h; [cbn; rewrite tally_nil; lia|]. unfold stop_all in *. cbn [foldl]. rewrite IH, stop_quietly_tally, tally_cons. lia.
Qed.
Lemma start_servers_tally i env id x h :
  match start_servers c env id x h with
  | (h', Err _) => tally i h'.(h_stopped) = tally i h.(h_stopped) + occ i x
  | (h', Ok _) => h'.(h_stopped) = h.(h_stopped)
  end.
Proof.
  unfold start_servers. destruct (ev_envd_listener env); [|apply stop_quietly_tally].
  destruct (ev_code_listener env); [|apply stop_quietly_tally].
  destruct (start_active_vm_heartbeat c env id (h_world h)) as [w [hb|e]]; [done|apply (stop_quietly_tally i x (mk_host w _))].
Qed.
Lemma warm_middle_tally i env wk h id b :
  let '(h', r) := warm_middle c env wk h in
  tally i h'.(h_stopped) + tally i (flight_sessions (after_middle id b r)) = tally i h.(h_stopped) + occ i wk.(wk_session).
Proof.
  unfold warm_middle. pose proof (start_servers_tally i env (wk_id wk) (wk_session wk) h) as Hs.
  destruct (start_servers c env (wk_id wk) (wk_session wk) h) as [h' [[[ep cp] hb]|e]]; cbn [after_middle flight_sessions launched_by sd_session];
      rewrite ?tally_cons, ?tally_nil; [rewrite Hs|]; lia.
Qed.
Lemma probe_occ i t x y r : probe_ready t x = (y, r) -> occ i y = occ i x.
Proof. intros Hp. unfold occ. pose proof (ident_probe t x) as Hi. rewrite Hp in Hi. cbn in Hi. by rewrite Hi. Qed.
Lemma restore_middle_tally i followup env m id ev h b :
  let '(h', r) := restore_middle c followup env m id ev h in
  tally i h'.(h_stopped) + tally i (flight_sessions (after_middle id b r))
  = tally i h.(h_stopped) + tally i ev + tally i (launched_by (env.(ev_launch) (mk_restore_request m c.(ac_budget)))).
Proof.
  unfold restore_middle. pose proof (stop_all_tally i ev h) as Hst. set (h1 := stop_all ev h) in *.
  destruct (ev_launch env _) as [x|e]; cbn [launched_by];
    rewrite ?tally_cons, ?tally_nil; [|cbn; rewrite ?tally_nil; lia].
  destruct (probe_ready _ x) as [y [tr|e]] eqn:Ep; apply (probe_occ i) in Ep.
  - pose proof (start_servers_tally i env id y h1) as Hs.
    destruct (start_servers c env id y h1) as [h' [[[ep cp] hb]|e]]; cbn [after_middle flight_sessions launched_by sd_session];
      rewrite ?tally_cons, ?tally_nil; [rewrite Hs|]; lia.
  - pose proof (stop_quietly_tally i y h1). cbn [after_middle flight_sessions]. rewrite tally_nil. lia.
Qed.
Lemma prewarm_middle_tally i env t h :
  let '(h', r) := prewarm_middle c env t h in
  tally i h'.(h_stopped) + match r with Ok (x, _) => occ i x | Err _ => 0 end
  = tally i h.(h_stopped) + tally i (launched_by (env.(ev_launch) (mk_restore_request (template_manifest t) c.(ac_budget)))).
Proof.
  unfold prewarm_middle. destruct (ev_launch env _) as [x|e]; cbn [launched_by];
    rewrite ?tally_cons, ?tally_nil; [|cbn; rewrite ?tally_nil; lia].
  destruct (probe_ready _ x) as [y [tr|e]] eqn:Ep; apply (probe_occ i) in Ep; [lia|].
  rewrite stop_quietly_tally. lia.
Qed.

(** *** Operations that only touch what a session says of itself *)
Definition same s s' : Prop :=
  s'.(a_ledger) = s.(a_ledger) /\ s'.(a_next_sandbox) = s.(a_next_sandbox) /\ core <$> s'.(a_active) = core <$> s.(a_active) /\
  s'.(a_warm_pool) = s.(a_warm_pool) /\ s'.(a_warm_sessions) = s.(a_warm_sessions).
#[local] Instance same_preorder : PreOrder same.
Proof. split; [by intros s|]. intros s1 s2 s3 (? & ? & ? & ? & ?) (? & ? & ? & ? & ?). unfold same. split_and!; congruence. Qed.
Lemma log_same p sa tr s : same s (log p sa tr s).
Proof. done. Qed.
Lemma update_same id (u : FirkinRuntimeSession Sess -> FirkinRuntimeSession Sess) s :
  (forall x, s.(a_active) !! id = Some x -> core (u x) = core x) -> same s (update_session id u s).1.
Proof.
  intros Hf. unfold update_session. destruct (s.(a_active) !! id) as [x|] eqn:E; [|done]. unfold same. cbn.
  split_and!; try done. rewrite fmap_insert. apply insert_id. by rewrite lookup_fmap, E, (Hf x).
Qed.
Lemma gate_same id g s : same s (update_session id (fun x => with_gate (g x) x) s).1.
Proof. by apply update_same. Qed.
Lemma fail_same id reason s : same s (fail_freshness_sync id reason s).1.
Proof. apply gate_same. Qed.
Lemma complete_same id commit s : same s (complete_freshness_sync id commit s).1.
Proof. apply gate_same. Qed.
Lemma session_command_same id x rq what s :
  s.(a_active) !! id = Some x -> same s (session_command id x rq what s).1.
Proof.
  intros Hx. unfold session_command. destruct (run_command rq hot_recorder (fs_session x)) as [y r] eqn:Er.
  assert (Hs : same s (update_session id (with_session y) s).1).
  { apply update_same. intros x' Hx'. rewrite Hx in Hx'. injection Hx' as <-. unfold core. cbn. f_equal.
    pose proof (ident_command rq hot_recorder (fs_session x)) as Hi. by rewrite Er in Hi. }
  destruct r; [|done]. etrans; [exact Hs|]. apply log_same.
Qed.
Lemma run_sync_commands_same id cmds : forall s, same s (run_sync_commands id cmds s).1.
Proof.
  induction cmds as [|cmd cmds IH]; intros s; [done|]. cbn [run_sync_commands].
  destruct (s.(a_active) !! id) as [x|] eqn:Hx; [|done].
  pose proof (session_command_same id x cmd "Firkin runtime freshness sync" s Hx) as Hs.
  destruct (session_command _ _ _ _ _) as [s1 [out|e]]; cbn in Hs; [|done].
  destruct (_ =? 0); [etrans; [exact Hs|apply IH]|].
  destruct (fail_freshness_sync id _ s1) as [s2 r2] eqn:Ef.
  assert (same s1 s2) by (change s2 with (s2, r2).1; rewrite <- Ef; apply fail_same).
  destruct r2; (etrans; [exact Hs|done]).
Qed.
Lemma freshness_sync_task_same elapsed id s : same s (freshness_sync_task elapsed id s).
Proof.
  assert (Hrun : same s (run_freshness_sync elapsed id s).1).
  { unfold run_freshness_sync. destruct (s.(a_active) !! id) as [x|]; [|done]. destruct (fs_freshness_sync x) as [g|]; [|done].
    destruct (writes_allowed g); [done|]. destruct (sync_target g) as [tg|]; [|done].
    destruct (fs_freshness_sync_checkout x) as [dir|]; [|done].
    pose proof (run_sync_commands_same id (sync_commands g.(branch) tg dir) s) as Hs.
    destruct (run_sync_commands _ _ _) as [s1 [[]|e]]; cbn in Hs; [|done].
    pose proof (complete_same id tg s1) as Hg. destruct (complete_freshness_sync id tg s1) as [s2 [[]|e]]; cbn in Hg.
    2:{ etrans; [exact Hs|exact Hg]. }
    etrans; [exact Hs|]. etrans; [exact Hg|]. apply log_same. }
  unfold freshness_sync_task. destruct (run_freshness_sync elapsed id s) as [s1 [[]|e]]; cbn in Hrun; [done|].
  etrans; [exact Hrun|]. apply gate_same.
Qed.
Lemma snapshot_same env id name s h s' h' r :
  snapshot base64url continuation_root env id name s h = (s', h', r) -> same s s' /\ h'.(h_stopped) = h.(h_stopped).
Proof.
  assert (Hsv : forall b s, same s (update_session id (with_saved b) s).1) by (intros; by apply update_same).
  unfold snapshot. cbv zeta. destruct (bool_decide _); [by intros [= <- <- <-]|].
  match goal with |- context [match path_parent ?p with Some _ => ?a | None => ?b end h.(h_world)] =>
    destruct (match path_parent p with Some _ => a | None => b end h.(h_world)) as [w [[]|e]] end; [|by intros [= <- <- <-]].
  destruct (s.(a_active) !! id) as [x|]; [|by intros [= <- <- <-]].
  destruct (save_continuation_snapshot _ _ w) as [w1 [[]|e]].
  2:{ intros [= <- <- <-]. split; [|done]. etrans; [apply (Hsv true)|apply Hsv]. }
  destruct (integrity_from_file _ w1) as [w2 [i|e]]; [|intros [= <- <- <-]; split; [apply Hsv|done]].
  destruct (write_snapshot_artifact_sidecars _ w2) as [w3 [[]|e]]; intros [= <- <- <-]; (split; [|done]).
  - etrans; [apply (Hsv true)|apply log_same].
  - etrans; [apply (Hsv true)|apply Hsv].
Qed.

(** *** Stopping *)
Lemma stop_spec env id s h s' h' r :
  stop c env id s h = (s', h', r) ->
  (same s s' /\ h'.(h_stopped) = h.(h_stopped)) \/
  exists x y, s.(a_active) !! id = Some x /\ h'.(h_stopped) = h.(h_stopped) ++ [y] /\ ident y = ident x.(fs_session) /\
    s'.(a_ledger) = (release_into x.(fs_reservation) s.(a_ledger)).1.2 /\ s'.(a_next_sandbox) = s.(a_next_sandbox) /\
    s'.(a_active) = delete id s.(a_active) /\ s'.(a_warm_pool) = s.(a_warm_pool) /\ s'.(a_warm_sessions) = s.(a_warm_sessions).
Proof.
  unfold stop. destruct (s.(a_active) !! id) as [x|] eqn:Hx; [|intros [= <- <- <-]; by left].
  pose proof (ident_stop x.(fs_session)) as Hid. destruct (stop_session x.(fs_session)) as [y [[]|e]]; cbn in Hid.
  - destruct (release_into (fs_reservation x) (a_ledger s)) as [[rv l] ob] eqn:El.
    destruct (remove_active_vm_marker c id (h_world h)) as [w m]. intros [= <- <- <-]. right. exists x, y. by rewrite El.
  - intros [= <- <- <-]. left. split; [|done]. unfold same. cbn. split_and!; try done.
    rewrite fmap_insert. apply insert_id. rewrite lookup_fmap, Hx. cbn. unfold core. cbn. by rewrite Hid.
Qed.

(** *** Every step keeps the accounts *)
Abbreviation Flights := (list (flight (Sess := Sess))).
Definition budgets d (fs : Flights) : Z := sumZ (fun f => get d (flight_budget f)) fs.
Definition in_hand i (fs : Flights) : Z := sumZ (fun f => tally i (flight_sessions f)) fs.
(** A step that does not touch the active sessions: requests [fs] become
    [fs'], and what they hold moves between them, the pool and the host. *)
Lemma accounts_move l l' n n' cs p p' ss ss' st st' pe pe' (f1 fs fs' f2 : Flights) la la' :
  accounts l n cs p ss st pe (f1 ++ fs ++ f2) la ->
  pool_inv p' l' /\ p' = mirror ss' -> capacity l' = capacity l ->
  (forall d, get d (active l') + budgets d fs = get d (active l) + budgets d fs') ->
  Forall (fun f => budget_typed (flight_budget f)) fs' ->
  (ids_ok n cs (f1 ++ fs ++ f2) -> ids_ok n' cs (f1 ++ fs' ++ f2)) ->
  pe' + sumZ waiting fs = pe + sumZ waiting fs' -> pe' <= c.(ac_max_pending) ->
  (forall i, tally i la' + tally i (all_sessions ss) + in_hand i fs + tally i st
           = tally i la + tally i (all_sessions ss') + in_hand i fs' + tally i st') ->
  accounts l' n' cs p' ss' st' pe' (f1 ++ fs' ++ f2) la'.
Proof.
  intros [Hw Hc Ha Hco Hf Hi Hp Hs] Hw' Hc' Ha' Hf' Hi' Hp' Hmax Hs'. unfold budgets, in_hand in *. constructor; try done.
  - congruence.
  - intros d. specialize (Ha d). specialize (Ha' d). rewrite !sumZ_app in *. lia.
  - rewrite !Forall_app in *. naive_solver.
  - by apply Hi'.
  - rewrite !sumZ_app in *. lia.
  - intros i. specialize (Hs i). specialize (Hs' i). rewrite !sumZ_app in *. rewrite !tally_app in *. lia.
Qed.
Lemma accounts_append l l' n n' cs p p' ss ss' st st' pe pe' (fs fs' : Flights) la la' :
  accounts l n cs p ss st pe fs la ->
  pool_inv p' l' /\ p' = mirror ss' -> capacity l' = capacity l ->
  (forall d, get d (active l') = get d (active l) + budgets d fs') ->
  Forall (fun f => budget_typed (flight_budget f)) fs' ->
  (ids_ok n cs fs -> ids_ok n' cs (fs ++ fs')) ->
  pe' = pe + sumZ waiting fs' -> pe' <= c.(ac_max_pending) ->
  (forall i, tally i la' + tally i (all_sessions ss) + tally i st
           = tally i la + tally i (all_sessions ss') + in_hand i fs' + tally i st') ->
  accounts l' n' cs p' ss' st' pe' (fs ++ fs') la'.
Proof.
  intros Hacc Hw Hc Ha Hf Hi Hp Hmax Hs. rewrite <- (app_nil_r fs'). eapply (accounts_move l l' n n' cs p p' ss ss' st st' pe pe' fs [] fs' []); try done.
  - by rewrite !app_nil_r.
  - intros d. rewrite Ha. unfold budgets. cbn. lia.
  - intros Hok. rewrite !app_nil_r in *. by apply Hi.
  - cbn. lia.
  - intros i. specialize (Hs i). unfold in_hand in *. cbn. lia.
Qed.
Lemma accounts_same l n cs p ss st pe fs la s' h' :
  accounts l n cs p ss st pe fs la -> s'.(a_ledger) = l -> s'.(a_next_sandbox) = n -> core <$> s'.(a_active) = cs ->
  s'.(a_warm_pool) = p -> s'.(a_warm_sessions) = ss -> h'.(h_stopped) = st -> accounted (mk_system s' h' pe fs la).
Proof. intros Ha <- <- <- <- <- <-. exact Ha. Qed.

Lemma publish_accounted id b x gate checkout paths s h pe (f1 f2 : Flights) la :
  accounted (mk_system s h pe (f1 ++ FReady id b x :: f2) la) ->
  accounted (mk_system (publish id (reservation_new b) gate checkout paths x s) h pe (f1 ++ f2) la).
Proof.
  intros [Hw Hc Ha Hco Hf Hi Hp Hs]. cbn [sys_state sys_host sys_pending sys_flights sys_launched] in *.
  assert (Hids : (f1 ++ FReady id b x :: f2) ≫= flight_ids ≡ₚ id :: ((f1 ++ f2) ≫= flight_ids)).
  { rewrite !bind_app. cbn. symmetry. apply Permutation_middle. }
  destruct (ids_publish _ _ _ _ _ (core (mk_session x.(sd_session) (reservation_new b) false (Some x.(sd_startup))
    x.(sd_envd_port) x.(sd_code_port) x.(sd_heartbeat) gate checkout false)) Hids Hi) as [Hnone Hi'].
  apply Forall_app in Hf as [Hf1 [Hb Hf2]%Forall_cons].
  constructor; cbn [sys_state sys_host sys_pending sys_flights sys_launched publish set_active log a_active a_ledger a_warm_pool
    a_warm_sessions a_next_sandbox]; try done; rewrite ?fmap_insert; try done.
  - intros d. specialize (Ha d). rewrite sumZ_app in *. cbn in Ha. rewrite msum_insert by done. cbn. lia.
  - by apply map_Forall_insert_2.
  - by apply Forall_app.
  - rewrite sumZ_app in *. cbn in Hp. done.
  - intros i. specialize (Hs i). rewrite sumZ_app in *. cbn in Hs. rewrite tally_cons, tally_nil in Hs. unfold occ in Hs.
    rewrite msum_insert by done. cbn. lia.
Qed.
Lemma stop_accounted env id s h s' h' r pe fs la :
  accounted (mk_system s h pe fs la) -> stop c env id s h = (s', h', r) -> accounted (mk_system s' h' pe fs la).
Proof.
  intros Hacc Hrun. destruct (stop_spec _ _ _ _ _ _ _ Hrun) as [[(E1 & E2 & E3 & E4 & E5) E6]|(x & y & Hx & E6 & Hy & E1 & E2 & E3 & E4 & E5)].
  { by eapply accounts_same. }
  destruct Hacc as [Hw Hc Ha Hco Hf Hi Hp Hs]. cbn [sys_state sys_host sys_pending sys_flights sys_launched] in *.
  assert (Hcx : (core <$> s.(a_active)) !! id = Some (core x)) by by rewrite lookup_fmap, Hx.
  destruct (Hco _ _ Hcx) as [Hrel Hty]. cbn in Hrel, Hty. unfold release_into in E1. rewrite Hrel in E1. cbn in E1.
  pose proof (fun d => msum_delete (fun x => get d x.1.(rv_budget)) _ _ _ Hcx) as Hm. cbn in Hm.
  assert (Hle : forall d, 0 <= get d (rv_budget (fs_reservation x)) <= get d (active s.(a_ledger))).
  { intros d. rewrite Ha, Hm. split; [by apply typed_nonneg|].
    assert (0 <= msum (fun x => get d x.1.(rv_budget)) (delete id (core <$> s.(a_active)))).
    { apply sumZ_nonneg, Forall_forall. intros [k z] Hz%elem_of_map_to_list. apply lookup_delete_Some in Hz as [_ Hz].
      apply typed_nonneg. by apply (Hco _ _ Hz). }
    assert (0 <= sumZ (fun f => get d (flight_budget f)) fs).
    { apply sumZ_nonneg. eapply Forall_impl; [exact Hf|]. intros z Hz. by apply typed_nonneg. }
    lia. }
  destruct Hw as [Hpi Hmi].
  destruct (release_spec (ReservationLaws := active_side_laws) s.(a_ledger) _ ltac:(apply Hpi) Hle) as (Hl & Hcap & Hwm & Hd).
  cbn [release held other active_side] in *.
  constructor; cbn [sys_state sys_host sys_pending sys_flights sys_launched]; rewrite ?E1, ?E2, ?E3, ?E4, ?E5, ?E6, ?fmap_delete; try done.
  - split; [|done]. by apply (pool_inv_active _ s.(a_ledger)).
  - intros d. rewrite Hd, Ha, Hm. lia.
  - by apply map_Forall_delete.
  - by apply ids_delete.
  - intros i. rewrite Hs, (msum_delete _ _ _ _ Hcx), tally_app, tally_cons, tally_nil. cbn. unfold occ. rewrite Hy. lia.
Qed.

Ltac acc_cbn := unfold budgets, in_hand in *;
  cbn [sys_state sys_host sys_pending sys_flights sys_launched a_ledger a_next_sandbox a_active a_warm_pool a_warm_sessions
       set_ledger set_warm set_next h_stopped sumZ flight_budget flight_sessions flight_ids waiting] in *;
  rewrite ?tally_cons, ?tally_nil, ?get_zero in *.
Context (Hbudget : budget_typed c.(ac_budget)).
Lemma admit_accounted s s' h pe fs la a :
  accounted (mk_system s h pe fs la) -> try_admit c pe pe s = (s', a) ->
  match a with
  | Granted ev => accounted (mk_system s' h pe (fs ++ [FAdmitted ev]) la)
  | Queued pe' => accounted (mk_system s' h pe' (fs ++ [FWaiting]) la)
  | Refused _ => accounted (mk_system s' h pe fs la)
  end.
Proof.
  intros Hacc Hrun. pose proof (try_admit_spec pe s Hbudget (acc_warm _ _ _ _ _ _ _ _ _ Hacc)) as Hs. rewrite Hrun in Hs.
  pose proof (acc_pending _ _ _ _ _ _ _ _ _ Hacc) as [_ Hmax]. cbn in Hmax. destruct a as [ev|pe'|e].
  - destruct Hs as (l & pool & ss & -> & Hok & Hsess & Hcap & Hact). eapply accounts_append; [exact Hacc|done|done|..].
    + intros d. acc_cbn. rewrite Hact. lia.
    + by apply Forall_singleton.
    + intros Hi. eapply ids_fewer; [|exact Hi]. by rewrite bind_app, app_nil_r.
    + cbn. lia.
    + done.
    + intros i. acc_cbn. rewrite Hsess, tally_app. lia.
  - destruct Hs as (-> & -> & Hlt). eapply accounts_append; [exact Hacc|apply Hacc|done|..].
    + intros d. acc_cbn. lia.
    + apply Forall_singleton, budget_typed_zero.
    + intros Hi. eapply ids_fewer; [|exact Hi]. by rewrite bind_app, app_nil_r.
    + done.
    + acc_cbn. lia.
    + intros i. acc_cbn. lia.
  - by subst s'.
Qed.
Lemma warm_accounted env t timeout s s' h pe fs la r :
  accounted (mk_system s h pe fs la) -> checkout_warm c env t timeout s = (s', r) -> s'.(a_next_sandbox) < max_uint 64 ->
  match r with
  | Ok (Some wk) => accounted (mk_system s' h pe (fs ++ [FWarm wk]) la)
  | Ok None => accounted (mk_system s' h pe fs la)
  | Err _ => False
  end.
Proof.
  intros Hacc Hrun Hmax. pose proof (checkout_warm_spec env t timeout s (acc_warm _ _ _ _ _ _ _ _ _ Hacc)) as Hs. rewrite Hrun in Hs.
  pose proof (acc_pending _ _ _ _ _ _ _ _ _ Hacc) as [_ Hp]. pose proof (acc_ids _ _ _ _ _ _ _ _ _ Hacc) as (Hn & _). cbn in Hp, Hn.
  destruct r as [[wk|]|e]; [|by subst s'|done].
  destruct Hs as (l & pool & ss & -> & Hok & Hid & Hcap & Hrel & Hty & Hsess & Hact). cbn [a_next_sandbox set_warm set_next] in Hmax.
  pose proof (next_number_succ _ Hn Hmax) as Hnn. eapply accounts_append; [exact Hacc|done|done|..].
  - intros d. acc_cbn. rewrite Hact. lia.
  - by apply Forall_singleton.
  - cbn [sys_state sys_host sys_pending sys_flights sys_launched a_next_sandbox set_warm set_next]. rewrite Hnn in *.
    apply ids_fresh; [lia|]. rewrite bind_app. cbn. rewrite Hid. symmetry. apply Permutation_cons_append.
  - cbn. lia.
  - done.
  - intros i. acc_cbn. rewrite (tally_perm i _ _ Hsess), tally_cons. lia.
Qed.
(** The stretches of a request outside of the mutex. *)
Lemma middle_accounted (f f' : flight (Sess := Sess)) s h h' pe (f1 f2 : Flights) la la' :
  accounted (mk_system s h pe (f1 ++ f :: f2) la) ->
  flight_budget f' = flight_budget f -> flight_ids f' = flight_ids f \/ flight_ids f' = [] -> waiting f' = waiting f ->
  (forall i, tally i (la ++ la') + tally i (flight_sessions f) + tally i h.(h_stopped)
           = tally i la + tally i (flight_sessions f') + tally i h'.(h_stopped)) ->
  accounted (mk_system s h' pe (f1 ++ f' :: f2) (la ++ la')).
Proof.
  intros Hacc Hb Hid Hw Hs. pose proof (acc_pending _ _ _ _ _ _ _ _ _ Hacc) as [_ Hp]. cbn in Hp.
  pose proof (acc_flights _ _ _ _ _ _ _ _ _ Hacc) as Hf. cbn in Hf. apply Forall_app in Hf as [_ [Hf _]%Forall_cons].
  eapply (accounts_move _ _ _ _ _ _ _ _ _ _ _ _ _ f1 [f] [f'] f2); [exact Hacc|apply Hacc|done|..].
  - intros d. unfold budgets. cbn. by rewrite Hb.
  - apply Forall_singleton. by rewrite Hb.
  - intros Hi. eapply ids_fewer; [|exact Hi]. rewrite !bind_app. apply submseteq_app; [done|]. cbn.
    destruct Hid as [-> | ->]; [done|]. by apply submseteq_inserts_l.
  - cbn. rewrite Hw. lia.
  - done.
  - intros i. specialize (Hs i). acc_cbn. lia.
Qed.

Lemma release_accounted b s h pe (f1 f2 : Flights) la :
  accounted (mk_system s h pe (f1 ++ FFailed b :: f2) la) ->
  accounted (mk_system (release_active_budget b s) h pe (f1 ++ f2) la).
Proof.
  intros Hacc. pose proof (acc_pending _ _ _ _ _ _ _ _ _ Hacc) as [_ Hp]. pose proof (acc_warm _ _ _ _ _ _ _ _ _ Hacc) as [Hi Hm].
  pose proof (acc_flights _ _ _ _ _ _ _ _ _ Hacc) as Hf. acc_cbn. apply Forall_app in Hf as [Hf1 [Hf Hf2]%Forall_cons]. cbn in Hf.
  assert (Hle : forall d, 0 <= get d b <= get d (active s.(a_ledger))).
  { intros d. split; [by apply typed_nonneg|]. pose proof (acc_active _ _ _ _ _ _ _ _ _ Hacc d) as Ha. acc_cbn.
    rewrite sumZ_app in Ha. cbn in Ha.
    assert (Hpos : forall fs : Flights, Forall (fun f => budget_typed (flight_budget f)) fs -> 0 <= sumZ (fun f => get d (flight_budget f)) fs).
    { intros fs Hfs. apply sumZ_nonneg. eapply Forall_impl; [exact Hfs|]. intros z Hz. by apply typed_nonneg. }
    pose proof (Hpos _ Hf1). pose proof (Hpos _ Hf2).
    assert (0 <= msum (fun x => get d x.1.(rv_budget)) (core <$> s.(a_active))).
    { apply sumZ_nonneg, Forall_forall. intros [k z] Hz%elem_of_map_to_list. apply typed_nonneg.
      by apply (acc_cores _ _ _ _ _ _ _ _ _ Hacc k z). }
    lia. }
  destruct (release_spec (ReservationLaws := active_side_laws) s.(a_ledger) b ltac:(apply Hi) Hle) as (Hl & Hcap & Hwm & Hd).
  cbn [release held other active_side] in *.
  eapply (accounts_move _ _ _ _ _ _ _ _ _ _ _ _ _ f1 [FFailed b] [] f2); [exact Hacc|split; [|done]|done|..].
  - by apply (pool_inv_active _ s.(a_ledger)).
  - intros d. unfold release_active_budget. acc_cbn. rewrite Hd. lia.
  - constructor.
  - intros Hids. eapply ids_fewer; [|exact Hids]. by rewrite !bind_app.
  - done.
  - done.
  - intros i. acc_cbn. unfold release_active_budget. acc_cbn. lia.
Qed.
Lemma prewarm_accounted allow t x traces s s' h h' r pe (f1 f2 : Flights) la :
  accounted (mk_system s h pe (f1 ++ FPrewarming allow t x traces :: f2) la) ->
  prewarm_publish c allow t x traces s h = (s', h', r) -> accounted (mk_system s' h' pe (f1 ++ f2) la).
Proof.
  intros Hacc Hrun. pose proof (acc_pending _ _ _ _ _ _ _ _ _ Hacc) as [_ Hp]. pose proof (acc_warm _ _ _ _ _ _ _ _ _ Hacc) as [Hi Hm].
  acc_cbn.
  assert (Hdrop : accounted (mk_system s (stop_quietly x h) pe (f1 ++ f2) la)).
  { eapply (accounts_move _ _ _ _ _ _ _ _ _ _ _ _ _ f1 [FPrewarming allow t x traces] [] f2); [exact Hacc|by split|done|..].
    - intros d. acc_cbn. lia.
    - constructor.
    - intros Hids. eapply ids_fewer; [|exact Hids]. by rewrite !bind_app.
    - done.
    - done.
    - intros i. pose proof (stop_quietly_tally i x h). acc_cbn. lia. }
  unfold prewarm_publish in Hrun. destruct (negb _); [by injection Hrun as <- <- <-|].
  set (e := mk_entry (adapter_key (pt_template_id t)) (pt_template_id t) (ac_budget c)) in *.
  pose proof (maintain_spec _ _ e Hi Hbudget) as Hs. destruct (capacity_error_for_request _ _).
  { rewrite Hs in Hrun. injection Hrun as <- <- <-. exact Hdrop. }
  destruct Hs as (pool & l & Hmt & Hi' & Hall & Hcap & Hact & _). rewrite Hmt in Hrun. injection Hrun as <- <- <-.
  rewrite Hm in Hmt. pose proof (mirror_maintain _ (mk_maintenance x e) _ _ _ _ Hmt) as Hmir. cbn in Hmir.
  eapply (accounts_move _ _ _ _ _ _ _ _ _ _ _ _ _ f1 [FPrewarming allow t x traces] [] f2); [exact Hacc|by split|done|..].
  - intros d. acc_cbn. cbn. rewrite Hact. lia.
  - constructor.
  - intros Hids. eapply ids_fewer; [|exact Hids]. by rewrite !bind_app.
  - done.
  - done.
  - intros i. cbn [log a_warm_sessions sys_state set_warm sys_host sys_launched]. unfold in_hand. cbn [sumZ flight_sessions].
    rewrite (tally_perm i _ _ (push_all_sessions _ (mk_maintenance x e) _ (mirror_sorted _ ltac:(rewrite <- Hm; apply Hi)))), tally_cons.
    cbn [wr_session]. rewrite !tally_cons, !tally_nil. lia.
Qed.
Lemma name_accounted s s' id ev h pe (f1 f2 : Flights) la :
  accounted (mk_system s h pe (f1 ++ FAdmitted ev :: f2) la) -> next_sandbox_id s = (s', id) ->
  s'.(a_next_sandbox) < max_uint 64 -> accounted (mk_system s' h pe (f1 ++ FNamed id ev :: f2) la).
Proof.
  intros Hacc [= <- <-] Hmax. pose proof (acc_pending _ _ _ _ _ _ _ _ _ Hacc) as [_ Hp].
  pose proof (acc_ids _ _ _ _ _ _ _ _ _ Hacc) as (Hn & _). acc_cbn.
  pose proof (next_number_succ _ Hn Hmax) as Hnn. unfold next_number in Hnn. rewrite Hnn in *.
  eapply (accounts_move _ _ _ _ _ _ _ _ _ _ _ _ _ f1 [FAdmitted ev] [FNamed _ ev] f2); [exact Hacc|apply Hacc|done|..].
  - done.
  - by apply Forall_singleton.
  - apply ids_fresh; [acc_cbn; lia|]. rewrite !bind_app. cbn. symmetry. apply Permutation_middle.
  - done.
  - done.
  - done.
Qed.
Lemma wake_accounted s h pe (f1 f2 : Flights) la :
  accounted (mk_system s h pe (f1 ++ FWaiting :: f2) la) -> accounted (mk_system s h (pe - 1) (f1 ++ f2) la).
Proof.
  intros Hacc. pose proof (acc_pending _ _ _ _ _ _ _ _ _ Hacc) as [_ Hp]. acc_cbn.
  eapply (accounts_move _ _ _ _ _ _ _ _ _ _ _ _ _ f1 [FWaiting] [] f2); [exact Hacc|apply Hacc|done|..].
  - intros d. acc_cbn. lia.
  - constructor.
  - intros Hids. eapply ids_fewer; [|exact Hids]. by rewrite !bind_app.
  - acc_cbn. lia.
  - acc_cbn. lia.
  - intros i. acc_cbn. lia.
Qed.

Abbreviation step := (adapter_step c base64url continuation_root).
Lemma step_accounted (σ σ' : System (Sess := Sess)) :
  accounted σ -> step σ σ' -> σ'.(sys_state).(a_next_sandbox) < max_uint 64 -> accounted σ'.
Proof.
  intros Hacc Hstep. destruct Hstep as [s s' h p fs la ev Hr|s s' h p p' fs la Hr|s s' h p fs la e Hr|s h p f1 f2 la
    |s s' h p f1 f2 la ev id Hr|env t timeout s s' h p fs la wk Hr|env t timeout s s' h p fs la r Hr Hno
    |env wk s h h' p f1 f2 la r Hr|followup env m id ev s h h' p f1 f2 la r Hr|gate checkout paths id b x s h p f1 f2 la
    |b s h p f1 f2 la|env id s s' h h' p fs la r Hr|allow env t s h h' p fs la x traces _ Hr|env t s h h' p fs la e Hr
    |allow t x traces s s' h h' p f1 f2 la r Hr|env rq s h h' p fs la pr r Hr|env id name s s' h h' p fs la r Hr
    |elapsed id s h p fs la|id commit s h p fs la|id reason s h p fs la]; cbn [sys_state]; intros Hmax.
  - apply (admit_accounted _ _ _ _ _ _ _ Hacc Hr).
  - apply (admit_accounted _ _ _ _ _ _ _ Hacc Hr).
  - apply (admit_accounted _ _ _ _ _ _ _ Hacc Hr).
  - by apply wake_accounted.
  - by eapply name_accounted.
  - apply (warm_accounted _ _ _ _ _ _ _ _ _ _ Hacc Hr Hmax).
  - pose proof (warm_accounted _ _ _ _ _ _ _ _ _ _ Hacc Hr Hmax). by destruct r as [[wk|]|e].
  - rewrite <- (app_nil_r la). eapply middle_accounted; [exact Hacc|..].
    1-3: destruct r; cbn; auto.
    intros i. pose proof (warm_middle_tally i env wk h (wk_id wk) (rv_budget (wk_reservation wk))) as Ht. rewrite Hr in Ht.
    rewrite app_nil_r. acc_cbn. lia.
  - eapply middle_accounted; [exact Hacc|..].
    1-3: destruct r; cbn; auto.
    intros i. pose proof (restore_middle_tally i followup env m id ev h (ac_budget c)) as Ht. rewrite Hr in Ht.
    rewrite tally_app. acc_cbn. lia.
  - by apply publish_accounted.
  - by apply release_accounted.
  - by eapply stop_accounted.
  - eapply accounts_append; [exact Hacc|apply Hacc|done|..].
    + intros d. acc_cbn. lia.
    + apply Forall_singleton, budget_typed_zero.
    + intros Hids. eapply ids_fewer; [|exact Hids]. by rewrite bind_app, app_nil_r.
    + cbn. lia.
    + apply Hacc.
    + intros i. pose proof (prewarm_middle_tally i env t h) as Ht. rewrite Hr in Ht. acc_cbn. rewrite tally_app. lia.
  - rewrite <- (app_nil_r fs). eapply accounts_append; [exact Hacc|apply Hacc|done|..].
    + intros d. acc_cbn. lia.
    + constructor.
    + by rewrite app_nil_r.
    + cbn. lia.
    + apply Hacc.
    + intros i. pose proof (prewarm_middle_tally i env t h) as Ht. rewrite Hr in Ht. acc_cbn. rewrite tally_app. lia.
  - by eapply prewarm_accounted.
  - eapply accounts_same; [exact Hacc|done..|]. unfold start_checks in Hr. repeat case_match; simplify_eq; done.
  - destruct (snapshot_same _ _ _ _ _ _ _ _ Hr) as [(? & ? & ? & ? & ?) ?]. by eapply accounts_same.
  - destruct (freshness_sync_task_same elapsed id s) as (? & ? & ? & ? & ?). by eapply accounts_same.
  - destruct (complete_same id commit s) as (? & ? & ? & ? & ?). by eapply accounts_same.
  - destruct (fail_same id reason s) as (? & ? & ? & ? & ?). by eapply accounts_same.
Qed.

(** The counter never goes back. *)
Lemma evict_sessions_next keys : forall s, (evict_sessions keys s).1.(a_next_sandbox) = s.(a_next_sandbox).
Proof.
  induction keys as [|k keys IH]; intros s; [done|]. cbn [evict_sessions].
  destruct (expire _ _ _) as [[pool l] [e|]]; [|apply IH]. destruct (pop_session _ _) as [ss r].
  pose proof (IH (set_warm l pool ss s)) as Hn. by destruct (evict_sessions keys _) as [s' out].
Qed.
Lemma try_admit_next p s s' a : try_admit c p p s = (s', a) -> s'.(a_next_sandbox) = s.(a_next_sandbox).
Proof.
  unfold try_admit. destruct (decision _).
  - pose proof (evict_sessions_next (key <$> bp_evictions (Backpressure.from_warm_pool c.(ac_budget) s.(a_warm_pool) s.(a_ledger) p c.(ac_max_pending))) s) as Hn.
    destruct (evict_sessions _ s) as [s1 out]. destruct (reserve_active _ _) as [l [[]|e]]; intros [= <- <-]; done.
  - destruct (try_acquire _ _); by intros [= <- <-].
  - by intros [= <- <-].
Qed.
Lemma step_next (σ σ' : System (Sess := Sess)) :
  step σ σ' -> let n := σ.(sys_state).(a_next_sandbox) in let n' := σ'.(sys_state).(a_next_sandbox) in n' = n \/ n' = next_number n.
Proof.
  intros Hstep. destruct Hstep as [s s' h p fs la ev Hr|s s' h p p' fs la Hr|s s' h p fs la e Hr|s h p f1 f2 la
    |s s' h p f1 f2 la ev id Hr|env t timeout s s' h p fs la wk Hr|env t timeout s s' h p fs la r Hr Hno
    |env wk s h h' p f1 f2 la r Hr|followup env m id ev s h h' p f1 f2 la r Hr|gate checkout paths id b x s h p f1 f2 la
    |b s h p f1 f2 la|env id s s' h h' p fs la r Hr|allow env t s h h' p fs la x traces _ Hr|env t s h h' p fs la e Hr
    |allow t x traces s s' h h' p f1 f2 la r Hr|env rq s h h' p fs la pr r Hr|env id name s s' h h' p fs la r Hr
    |elapsed id s h p fs la|id commit s h p fs la|id reason s h p fs la]; cbn [sys_state]; try (by left).
  1-3: left; by apply try_admit_next in Hr.
  - injection Hr as <- _. by right.
  - unfold checkout_warm, next_sandbox_id in Hr. repeat case_match; simplify_eq; by (left + right).
  - unfold checkout_warm, next_sandbox_id in Hr. repeat case_match; simplify_eq; by (left + right).
  - left. destruct (stop_spec _ _ _ _ _ _ _ Hr) as [[(_ & E & _) _]|(? & ? & _ & _ & _ & _ & E & _)]; done.
  - left. unfold prewarm_publish in Hr. repeat case_match; by simplify_eq.
  - left. by destruct (snapshot_same _ _ _ _ _ _ _ _ Hr) as [(_ & E & _) _].
  - left. by destruct (freshness_sync_task_same elapsed id s) as (_ & E & _).
  - left. by destruct (complete_same id commit s) as (_ & E & _).
  - left. by destruct (fail_same id reason s) as (_ & E & _).
Qed.
Definition sound (σ : System (Sess := Sess)) : Prop :=
  0 <= σ.(sys_state).(a_next_sandbox) <= max_uint 64 /\ (σ.(sys_state).(a_next_sandbox) < max_uint 64 -> accounted σ).
Lemma step_sound (σ σ' : System (Sess := Sess)) : sound σ -> step σ σ' -> sound σ'.
Proof.
  intros [Hn Hs] Hstep. pose proof (step_next _ _ Hstep) as Hnext. cbv zeta in Hnext. unfold next_number in Hnext.
  split; [uint_lia|]. intros Hlt. eapply step_accounted; [|done|done]. apply Hs. uint_lia.
Qed.
Lemma steps_sound (σ σ' : System (Sess := Sess)) : rtc step σ σ' -> sound σ -> sound σ'.
Proof. induction 1; eauto using step_sound. Qed.
Lemma new_sound h : stopped0 = h.(h_stopped) -> budget_typed cap -> 0 <= c.(ac_max_pending) -> sound (system_new (ledger_new cap) h).
Proof.
  intros E Hc Hp. split; [cbn; uint_lia|]. intros _. constructor; cbn; try done.
  - split; [by apply pool_inv_empty|done].
  - intros []; done.
  - split_and!; [done|constructor| |].
    + intros id Hid. by apply not_elem_of_nil in Hid.
    + intros id [x Hx]. by rewrite fmap_empty in Hx.
  - intros i. unfold all_sessions. cbn. rewrite E, app_nil_r, tally_nil. done.
Qed.
End Inv.

(** ** The theorems *)
Section Conservation.
Context {Sess I : Type} `{EqDecision I} `{SessionIdentity Sess I, Sha256, Serde SnapshotArtifactIntegrity, Serde SnapshotArtifactManifest}.
Implicit Types (σ : System (Sess := Sess)) (h : Host Sess).

Lemma reachable_accounted c b64 root cap h σ :
  budget_typed cap -> budget_typed c.(ac_budget) -> 0 <= c.(ac_max_pending) ->
  rtc (adapter_step c b64 root) (system_new (ledger_new cap) h) σ -> σ.(sys_state).(a_next_sandbox) < max_uint 64 ->
  accounted c cap h.(h_stopped) σ.
Proof.
  intros Hcap Hb Hp Hsteps Hmax.
  eapply steps_sound; [exact Hb|exact Hsteps| |exact Hmax]. by apply new_sound.
Qed.

Definition same_ident (a b : I) : {a = b} + {a <> b} := decide (a = b).
Lemma tally_count (i : I) (l : list Sess) : tally i l = Z.of_nat (count_occ same_ident (ident <$> l) i).
Proof.
  induction l as [|x l IH]; [done|]. rewrite tally_cons, fmap_cons. cbn [count_occ]. rewrite IH. unfold occ.
  destruct (same_ident (ident x) i) as [E|E]; [rewrite decide_True by done|rewrite decide_False by done]; lia.
Qed.
(** C4: no session of the adapter is ever lost.  Whatever the interleaving, the
    sessions the launcher has made are exactly those of the active sandboxes,
    those retained in the warm pool (one for every entry of its ledger), those
    a request in flight holds, and those that were stopped: none is dropped
    without a stop, none is handed out twice. *)
Theorem no_session_lost c b64 root cap h σ :
  budget_typed cap -> budget_typed c.(ac_budget) -> 0 <= c.(ac_max_pending) ->
  rtc (adapter_step c b64 root) (system_new (ledger_new cap) h) σ -> σ.(sys_state).(a_next_sandbox) < max_uint 64 ->
  let s := σ.(sys_state) in
  s.(a_warm_pool) = mirror s.(a_warm_sessions) /\
  ident <$> (h.(h_stopped) ++ σ.(sys_launched)) ≡ₚ
  ident <$> ((fs_session <$> (map_to_list s.(a_active)).*2) ++ all_sessions s.(a_warm_sessions)
             ++ (σ.(sys_flights) ≫= flight_sessions) ++ σ.(sys_host).(h_stopped)).
Proof.
  intros Hcap Hb Hp Hsteps Hmax s. destruct (reachable_accounted _ _ _ _ _ _ Hcap Hb Hp Hsteps Hmax) as [[_ Hm] _ _ _ _ _ _ Hs].
  split; [done|]. apply (Permutation_count_occ same_ident). intros i. apply Nat2Z.inj. rewrite <- !tally_count, Hs, !tally_app, msum_fmap.
  fold s.
  assert (Hact : tally i (fs_session <$> (map_to_list s.(a_active)).*2)
    = sumZ (fun p => if decide ((core p.2).2 = i) then 1 else 0) (map_to_list s.(a_active))).
  { unfold tally. by rewrite !sumZ_compose. }
  assert (Hbind : tally i (sys_flights σ ≫= flight_sessions) = sumZ (fun f => tally i (flight_sessions f)) (sys_flights σ)).
  { generalize (sys_flights σ). intros fs. induction fs as [|f fs IH]; [done|]. cbn [sumZ]. by rewrite bind_cons, tally_app, IH. }
  rewrite Hact, Hbind. lia.
Qed.
End Conservation.


Section Ledger.
Context {Sess : Type} `{RuntimeSession Sess, RuntimeCommandRunner Sess, Sha256, Serde SnapshotArtifactIntegrity, Serde SnapshotArtifactManifest}.
Implicit Types (σ : System (Sess := Sess)) (s : AdapterState Sess) (h : Host Sess).
#[local] Instance any_identity : SessionIdentity Sess unit :=
  {| ident _ := tt; ident_stop _ := eq_refl; ident_probe _ _ := eq_refl; ident_command _ _ _ := eq_refl |}.

(** C3: the capacity ledger of the adapter is exact in every interleaving.
    Whatever requests start, wait, fail, follow up, prewarm, snapshot and stop,
    and however their sections interleave, the active side of the ledger is the
    sum of the reservations of the active sessions and of the requests in
    flight, the warm side is the sum of the retained entries, and together they
    stay within the capacity of the node; no two sandboxes, started or being
    started, have the same id; the queue counter is the number of requests that
    wait, and within its bound.  (As long as fewer than 2^64 - 1 ids were
    handed out.) *)
Theorem adapter_ledger_exact c b64 root cap h σ :
  budget_typed cap -> budget_typed c.(ac_budget) -> 0 <= c.(ac_max_pending) ->
  rtc (adapter_step c b64 root) (system_new (ledger_new cap) h) σ -> σ.(sys_state).(a_next_sandbox) < max_uint 64 ->
  let s := σ.(sys_state) in
  (forall d,
    get d (active s.(a_ledger)) = sumZ (fun p => get d p.2.(fs_reservation).(rv_budget)) (map_to_list s.(a_active))
                                  + sumZ (fun f => get d (flight_budget c f)) σ.(sys_flights) /\
    get d (warm_pool s.(a_ledger)) = warm_total d s.(a_warm_pool) /\
    get d (active s.(a_ledger)) + get d (warm_pool s.(a_ledger)) <= get d cap) /\
  NoDup (σ.(sys_flights) ≫= flight_ids) /\
  (forall id, id ∈ σ.(sys_flights) ≫= flight_ids -> s.(a_active) !! id = None) /\
  σ.(sys_pending) = sumZ waiting σ.(sys_flights) /\ σ.(sys_pending) <= c.(ac_max_pending).
Proof.
  intros Hcap Hb Hp Hsteps Hmax s. destruct (reachable_accounted (I := unit) _ _ _ _ _ _ Hcap Hb Hp Hsteps Hmax) as [[Hw _] Hc Ha _ _ Hi Hq _].
  fold s in Hw, Hc, Ha, Hi. destruct Hi as (_ & Hnd & Hf & _). split_and!; try apply Hq; [|done|].
  - intros d. destruct Hw as (_ & [_ Hl] & Hwt). specialize (Hl d). rewrite Hc in Hl. split_and!; [|done|lia].
    rewrite Ha, msum_fmap. done.
  - intros id Hid. apply Hf in Hid as [Hnone _]. rewrite lookup_fmap in Hnone. by destruct (a_active s !! id).
Qed.


(** *** What a stop or a snapshot that fails leaves behind *)
(** When the staging files of a stopped session cannot be removed, [stop]
    reports an error although the sandbox is gone and its capacity given back:
    the caller that keeps its entry finds it unknown ever after. *)
Lemma stop_error_forgets c env id s h x y e :
  s.(a_active) !! id = Some x -> stop_session x.(fs_session) = (y, Ok tt) -> x.(fs_snapshot_saved) = false ->
  cleanup_unsnapshotted_staging y = Err e ->
  let '(s', h', r) := stop c env id s h in
  r = Err (Runtime ("Firkin restored staging cleanup failed: " +:+ e)) /\ s'.(a_active) = delete id s.(a_active) /\
  s'.(a_ledger) = (release_into x.(fs_reservation) s.(a_ledger)).1.2 /\
  forall env' h'', (stop c env' id s' h'').2 = Err (NotFound id).
Proof.
  intros Hx Hy Hsv He. unfold stop at 1. rewrite Hx, Hy, Hsv, He.
  destruct (release_into _ _) as [[rv l] ob]. destruct (remove_active_vm_marker _ _ _) as [w m]. cbn. split_and!; [done..|].
  intros env' h''. unfold stop. cbn. by rewrite lookup_delete_eq.
Qed.
(** When the artifact of a snapshot cannot be read back, the snapshot fails but
    the session stays marked as saved, so that a later stop leaves its staging
    files. *)
Lemma failed_snapshot_stays_saved b64 root env id name s h x w e :
  let path := runtime_continuation_snapshot_path b64 root (default (id +:+ "-continuation") name) in
  h.(h_world).(files) !! path = None -> path_parent path = None -> s.(a_active) !! id = Some x ->
  save_continuation_snapshot path x.(fs_session) h.(h_world) = (w, Ok tt) ->
  (integrity_from_file (manifest_continuation (default (id +:+ "-continuation") name) path) w).2 = Err e ->
  let '(s', _, r) := snapshot b64 root env id name s h in
  r = Err (snapshot_failed "integrity" (integrity_error_text e)) /\ s'.(a_active) !! id = Some (with_saved true x).
Proof.
  intros path Hno Hpar Hx Hsave Hint. unfold snapshot. fold path. rewrite bool_decide_eq_false_2 by (rewrite Hno; by intros []).
  rewrite Hpar. cbn [mret HM_ret]. unfold mret, HM_ret. rewrite Hx, Hsave.
  destruct (integrity_from_file _ w) as [w2 [i|e']]; cbn in Hint; [done|]. injection Hint as ->. cbn [fst snd].
  split; [done|]. unfold update_session. rewrite Hx. cbn. apply lookup_insert_eq.
Qed.
End Ledger.
(** Branch and target metadata without a checkout directory close the gate, and
    no task is started that would open it. *)
Lemma gate_without_checkout_stays_closed rq b t :
  rq.(ss_create_request).(cr_metadata) !! FRESHNESS_SYNC_BRANCH_METADATA = Some b ->
  rq.(ss_create_request).(cr_metadata) !! FRESHNESS_SYNC_TARGET_METADATA = Some t ->
  rq.(ss_create_request).(cr_metadata) !! FRESHNESS_SYNC_CHECKOUT_METADATA = None ->
  starts_freshness_sync rq = false /\
  exists g, freshness_sync_gate_for_request rq = Some g /\ writes_allowed g = false.
Proof.
  intros Hb Ht Hc. unfold starts_freshness_sync, freshness_sync_checkout_for_request, freshness_sync_gate_for_request.
  rewrite Hb, Ht, Hc. split; [by rewrite andb_false_r|]. by eexists.
Qed.

(** *** An execution: a template is prewarmed, a request takes the capacity
    that is left, a second one evicts the warm session, restores and is
    published. *)
Module AdapterDemo.
Import RuntimeRestore.RestoreProofs.RestoreDemo.
#[export] Existing Instances demo_sha integrity_serde manifest_serde.
Instance demo_session : RuntimeSession string := {|
  stop_session x := (x, Ok tt);
  probe_ready _ x := (x, Ok []);
  cleanup_unsnapshotted_staging x := if String.eqb x "/snap/stuck.vz" then Err "staging busy"%string else Ok tt;
  save_continuation_snapshot _ _ := mret tt
|}.
Instance demo_runner : RuntimeCommandRunner string := fun _ _ x => (x, Err "no commands"%string).
Instance demo_identity : SessionIdentity string string := {|
  ident x := x; ident_stop _ := eq_refl; ident_probe _ _ := eq_refl; ident_command _ _ _ := eq_refl
|}.
Definition demo_config : AdapterConfig := config_new demo_request "sandbox.test" "0.1" 4 8192.
Definition demo_env : AdapterEnv string := {|
  ev_is_dir _ := true; ev_probe := mk_host_probe (fun _ _ => DfNotRun "") 0; ev_launch rq := Ok (path rq.(rr_manifest));
  ev_envd_listener := Ok 4000; ev_code_listener := Ok 4001; ev_timestamps _ := ("start", "end")%string;
  ev_epoch_seconds := 0; ev_pid := 1; ev_executable := Ok "fk"%string; ev_stamp _ := 0; ev_elapsed _ := 0
|}.
Definition demo_template : PreparedTemplate := mk_prepared "base" "b1" "/snap/base.vz" true None.
Definition demo_host : Host string := mk_host (mk_world ∅ []) [].
Definition demo_s0 : AdapterState string := adapter_new (ledger_new demo_capacity).
Definition demo_s1 : AdapterState string := (prewarm_publish demo_config false demo_template "/snap/base.vz" [] demo_s0 demo_host).1.1.
Definition demo_s2 : AdapterState string := (try_admit demo_config 0 0 demo_s1).1.
Definition demo_s3 : AdapterState string := (try_admit demo_config 0 0 demo_s2).1.
Definition demo_s4 : AdapterState string := (next_sandbox_id demo_s3).1.
Definition demo_middle : Host string * result BackendError (Started (Sess := string)) :=
  restore_middle demo_config false demo_env (template_manifest demo_template) "sbx_firkin_1" ["/snap/base.vz"%string] demo_host.
Definition demo_started : Started (Sess := string) :=
  match demo_middle.2 with Ok x => x | Err _ => mk_started "" [] [] hot_recorder 0 0 false end.
Definition demo_s5 : AdapterState string := publish "sbx_firkin_1" (reservation_new demo_request) None None [] demo_started demo_s4.
Definition demo_system : System (Sess := string) :=
  mk_system demo_s5 demo_middle.1 0 [FAdmitted []] ["/snap/base.vz"%string; "/snap/base.vz"%string].
Lemma demo_steps b64 root :
  rtc (adapter_step demo_config b64 root) (system_new (ledger_new demo_capacity) demo_host) demo_system.
Proof.
  eapply rtc_l. { eapply (step_prewarm_middle demo_config b64 root false demo_env demo_template demo_s0 demo_host demo_host 0 [] []); reflexivity. }
  eapply rtc_l. { eapply (step_prewarm_publish demo_config b64 root false demo_template "/snap/base.vz" [] demo_s0 demo_s1 demo_host demo_host 0 [] []). reflexivity. }
  eapply rtc_l. { eapply (step_admit demo_config b64 root demo_s1 demo_s2 demo_host 0 [] _ []). vm_compute. reflexivity. }
  eapply rtc_l. { eapply (step_admit demo_config b64 root demo_s2 demo_s3 demo_host 0 [FAdmitted []] _ ["/snap/base.vz"%string]). vm_compute. reflexivity. }
  eapply rtc_l. { eapply (step_name demo_config b64 root demo_s3 demo_s4 demo_host 0 [FAdmitted []] [] _ ["/snap/base.vz"%string] "sbx_firkin_1"). vm_compute. reflexivity. }
  eapply rtc_l. { eapply (step_restore_middle demo_config b64 root false demo_env (template_manifest demo_template) "sbx_firkin_1"
    ["/snap/base.vz"%string] demo_s4 demo_host demo_middle.1 0 [FAdmitted []] [] _ demo_middle.2). vm_compute. reflexivity. }
  eapply rtc_l. { change (after_middle "sbx_firkin_1" (ac_budget demo_config) demo_middle.2) with (FReady "sbx_firkin_1" demo_request demo_started).
    eapply (step_publish demo_config b64 root None None [] "sbx_firkin_1" demo_request demo_started demo_s4 demo_middle.1 0 [FAdmitted []] []). }
  apply rtc_refl.
Qed.
End AdapterDemo.
Import AdapterDemo.

Lemma demo_request_ok : budget_typed (ac_budget demo_config).
Proof. exact demo_request_typed. Qed.
Lemma adapter_ledger_exact_witness :
  is_Some (a_active demo_s5 !! "sbx_firkin_1"%string) /\
  forall d, get d (active demo_s5.(a_ledger))
    = sumZ (fun p => get d p.2.(fs_reservation).(rv_budget)) (map_to_list demo_s5.(a_active))
      + sumZ (fun f => get d (flight_budget demo_config f)) demo_system.(sys_flights).
Proof.
  split; [eexists; vm_compute; reflexivity|]. intros d.
  apply (adapter_ledger_exact demo_config (fun x => x) "/root" demo_capacity demo_host demo_system);
    [exact demo_capacity_typed|exact demo_request_ok|by vm_compute|apply demo_steps|by vm_compute].
Defined.
Lemma no_session_lost_witness :
  demo_host.(h_stopped) ++ demo_system.(sys_launched) ≡ₚ
  (fs_session <$> (map_to_list demo_s5.(a_active)).*2) ++ all_sessions demo_s5.(a_warm_sessions)
    ++ (demo_system.(sys_flights) ≫= flight_sessions) ++ demo_system.(sys_host).(h_stopped).
Proof.
  destruct (no_session_lost demo_config (fun x => x) "/root" demo_capacity demo_host demo_system) as [_ Hp];
    [exact demo_capacity_typed|exact demo_request_ok|by vm_compute|apply demo_steps|by vm_compute|].
  rewrite !list_fmap_id in Hp. exact Hp.
Defined.
