(* ===== verification/SessionFiles.v ===== *)
(** * Files inside a session
      ([crates/runtime/src/adapter.rs], [EnvdFilesystemAdapter];
       [crates/runtime/src/hygiene.rs], the parser of [stat] lines)

    The adapter reads and changes files of a sandbox by running commands in its
    session and parsing what [stat] prints.  Each operation is there twice in
    the source, once for the only active sandbox and once for a named one; here
    the sandbox is an argument. *)
From S2P Require Import Prelude BTree Types HostPaths HostFs Envd E2bWire E2bRoutes DiskGuard Capacity Trace RuntimeRestore Template FirkinAdapter.
Import Gate.

(** ** [from_str_radix] *)
Definition digit_value (c : ascii) : option Z :=
  let n := code c in
  if (48 <=? n) && (n <=? 57) then Some (n - 48)
  else if (97 <=? n) && (n <=? 122) then Some (n - 87)
  else if (65 <=? n) && (n <=? 90) then Some (n - 55)
  else None.
Definition to_digit (radix : Z) (c : ascii) : option Z :=
  match digit_value c with Some d => if d <? radix then Some d else None | None => None end.
(** The digits, the sign and the limits of the type; [acc] is within them. *)
Fixpoint parse_radix (radix sign lo hi acc : Z) (s : string) : result string Z :=
  match s with
  | EmptyString => Ok acc
  | String c s =>
      match to_digit radix c with
      | None => Err "invalid digit found in string"%string
      | Some d =>
          let n := acc * radix + sign * d in
          if n <? lo then Err "number too small to fit in target type"%string
          else if hi <? n then Err "number too large to fit in target type"%string
          else parse_radix radix sign lo hi n s
      end
  end.
(** [iN::from_str_radix] and [uN::from_str_radix] ([lo] is 0 for these). *)
Definition from_str_radix (radix lo hi : Z) (s : string) : result string Z :=
  match s with
  | EmptyString => Err "cannot parse integer from empty string"%string
  | String c rest =>
      if (Ascii.eqb c "+" || Ascii.eqb c "-") && is_empty rest then Err "invalid digit found in string"%string
      else if Ascii.eqb c "+" then parse_radix radix 1 lo hi 0 rest
      else if Ascii.eqb c "-" && (lo <? 0) then parse_radix radix (-1) lo hi 0 rest
      else parse_radix radix 1 lo hi 0 s
  end.
Definition parse_i64 : string -> result string Z := from_str_radix 10 (- 2 ^ 63) (max_uint 63).
Definition parse_u32 (radix : Z) : string -> result string Z := from_str_radix radix 0 (max_uint 32).

(** ** Metadata lines ([hygiene.rs]) *)
Inductive EnvdFilesystemFileType := FileEntry | DirectoryEntry.
#[global] Instance EnvdFilesystemFileType_eq_dec : EqDecision EnvdFilesystemFileType.
Proof. solve_decision. Defined.
Record EnvdFilesystemEntry := mk_fs_entry {
  fe_entry_name : string;
  fe_path : string;
  fe_file_type : EnvdFilesystemFileType;
  fe_size : Z;
  fe_mode : Z;
  fe_permissions : string;
  fe_owner : string;
  fe_group : string;
  fe_symlink_target : option string
}.
Definition parse_filesystem_mode (value : string) : result BackendError Z :=
  match parse_u32 10 value with
  | Ok n => Ok n
  | Err _ =>
      map_err (fun e => Runtime ("invalid filesystem mode " +:+ bt value +:+ ": " +:+ e)) (parse_u32 16 value)
  end.
Definition tab : ascii := ascii_of_N 9.
Definition missing_field (what : string) : BackendError := Runtime ("Firkin filesystem metadata missing " +:+ what).
(** [path.rsplit('/').find(|part| !part.is_empty())]. *)
Definition last_component (p : string) : option string := last (filter (fun x => is_empty x = false) (split "/" p)).
Definition parse_filesystem_entry_line (line : string) : result BackendError EnvdFilesystemEntry :=
  let fields := split tab line in
  let field (n : nat) what := ok_or (missing_field what) (fields !! n) in
  kind ← field 0%nat "kind"%string;
  size ← field 1%nat "size"%string;
  size ← map_err (fun e => Runtime ("invalid filesystem size: " +:+ e)) (parse_i64 size);
  mode ← field 2%nat "mode"%string;
  mode ← parse_filesystem_mode mode;
  permissions ← field 3%nat "permissions"%string;
  owner ← field 4%nat "owner"%string;
  group ← field 5%nat "group"%string;
  path ← field 6%nat "path"%string;
  let symlink_target := match fields !! 7%nat with
                        | Some t => if negb (is_empty t) && negb (String.eqb t path) then Some t else None
                        | None => None
                        end in
  let file_type := if String.eqb kind "directory" || String.eqb kind "Directory" then DirectoryEntry else FileEntry in
  Ok (mk_fs_entry (default "/"%string (last_component path)) path file_type size mode permissions owner group symlink_target).
Definition blank (s : string) : bool := all_bytes is_ascii_whitespace s.
Fixpoint parse_lines (ls : list string) : result BackendError (list EnvdFilesystemEntry) :=
  match ls with
  | [] => Ok []
  | l :: ls => e ← parse_filesystem_entry_line l; es ← parse_lines ls; Ok (e :: es)
  end.
Definition text_of (bs : list Z) : string := String.string_of_list_ascii (ascii_of <$> bs).
(** The decoder's message when the bytes are not UTF-8 is [utf8_error]. *)
Definition parse_filesystem_entries (utf8_error : string) (bs : list Z) : result BackendError (list EnvdFilesystemEntry) :=
  if utf8_valid bs then parse_lines (filter (fun l => blank l = false) (lines (text_of bs)))
  else Err (Runtime ("Firkin filesystem metadata is not UTF-8: " +:+ utf8_error)).
Definition parse_single_filesystem_entry (utf8_error : string) (bs : list Z) : result BackendError EnvdFilesystemEntry :=
  es ← parse_filesystem_entries utf8_error bs;
  match es with
  | [e] => Ok e
  | _ => Err (Runtime ("Firkin filesystem metadata expected one entry, got " +:+ print_dec (Z.of_nat (length es))))
  end.

(** ** The operations ([adapter.rs]) *)
Section Operations.
Context {Sess : Type} `{RuntimeCommandRunner Sess}.
(** [base64::engine::general_purpose::STANDARD.encode]. *)
Context (base64 : list Z -> string) (utf8_error : string).
Implicit Types s : AdapterState Sess.
Definition FM (A : Type) : Type := AdapterState Sess -> AdapterState Sess * result BackendError A.
#[global] Instance FM_ret : MRet FM := fun A a s => (s, Ok a).
#[global] Instance FM_bind : MBind FM := fun A B k m s =>
  match m s with (s, Ok a) => k a s | (s, Err e) => (s, Err e) end.
Definition fm_res {A} (r : result BackendError A) : FM A := fun s => (s, r).
Definition fm_guard (g : AdapterState Sess -> result BackendError unit) : FM unit := fun s => (s, g s).

Definition run_filesystem_command_for (id : option string) (operation : string) (rq : EnvdProcessStartRequest)
  : FM EnvdProcessOutput := fun s =>
  match resolve_sandbox "filesystem" operation id s with
  | Err e => (s, Err e)
  | Ok (id, x) => session_command id x rq ("Firkin filesystem " +:+ operation) s
  end.
Definition filesystem_exit_error (operation path : string) (out : EnvdProcessOutput) : BackendError :=
  Runtime ("Firkin filesystem " +:+ operation +:+ " " +:+ bt path +:+ " failed: " +:+ exit_reason out).
Definition command (cmd : string) (args : list string) : EnvdProcessStartRequest := mk_process_start cmd args [] None None None None.
Definition shell (args : list string) : EnvdProcessStartRequest := command "/bin/sh" ("-lc"%string :: args).
Definition sep_tab : string := String tab EmptyString.
Definition quote : string := String (ascii_of_N 34) EmptyString.
Definition stat_format : string := "'" +:+ join sep_tab ["%F"; "%s"; "%f"; "%A"; "%U"; "%G"; "%n"; "%N"]%string +:+ "'".
Definition dq (s : string) : string := quote +:+ s +:+ quote.
Definition stat_of (arg : string) : string := "stat -c " +:+ stat_format +:+ " -- " +:+ arg.
Definition mkdir_parent (arg : string) : string := "mkdir -p -- " +:+ dq ("$(dirname -- " +:+ dq arg +:+ ")").

Definition read_file (id : option string) (path : string) : FM (list Z) :=
  out ← run_filesystem_command_for id "read" (command "/bin/cat" [path]);
  fm_res (if out.(Envd.po_exit_code) =? 0 then Ok out.(Envd.po_stdout) else Err (filesystem_exit_error "read" path out)).
Record EnvdFilesystemWriteInfo := mk_write_info { wi_name : string; wi_file_type : string; wi_path : string }.
Definition write_file (id : option string) (path : string) (data : list Z) : FM EnvdFilesystemWriteInfo :=
  _ ← fm_guard (ensure_filesystem_write_allowed id "write");
  out ← run_filesystem_command_for id "write"
          (shell [mkdir_parent "$2" +:+ " && printf '%s' " +:+ dq "$1" +:+ " | base64 -d > " +:+ dq "$2"; "firkin-write-file";
                  base64 data; path]%string);
  fm_res (if out.(Envd.po_exit_code) =? 0
          then Ok (mk_write_info (default path (last_component path)) "file" path)
          else Err (filesystem_exit_error "write" path out)).
Definition find_stat (bound : string) : string :=
  "find " +:+ dq "$1" +:+ " -mindepth 1 " +:+ bound +:+ "-exec " +:+ stat_of "{} \;".
Definition list_dir (id : option string) (path : string) (depth : Z) : FM (list EnvdFilesystemEntry) :=
  out ← run_filesystem_command_for id "list"
          (shell ["if [ " +:+ dq "$2" +:+ " = 0 ]; then " +:+ find_stat "" +:+ "; else " +:+ find_stat ("-maxdepth " +:+ dq "$2" +:+ " ") +:+ "; fi";
                  "firkin-list-dir"; path; print_dec depth]%string);
  fm_res (if out.(Envd.po_exit_code) =? 0 then parse_filesystem_entries utf8_error out.(Envd.po_stdout)
          else Err (filesystem_exit_error "list" path out)).
Definition make_dir (id : option string) (path : string) : FM EnvdFilesystemEntry :=
  _ ← fm_guard (ensure_filesystem_write_allowed id "mkdir");
  out ← run_filesystem_command_for id "mkdir"
          (shell ["mkdir -p -- " +:+ dq "$1" +:+ " && " +:+ stat_of (dq "$1"); "firkin-make-dir"; path]%string);
  fm_res (if out.(Envd.po_exit_code) =? 0 then parse_single_filesystem_entry utf8_error out.(Envd.po_stdout)
          else Err (filesystem_exit_error "mkdir" path out)).
Definition move_entry (id : option string) (source destination : string) : FM EnvdFilesystemEntry :=
  _ ← fm_guard (ensure_filesystem_write_allowed id "move");
  out ← run_filesystem_command_for id "move"
          (shell [mkdir_parent "$2" +:+ " && mv -- " +:+ dq "$1" +:+ " " +:+ dq "$2" +:+ " && " +:+ stat_of (dq "$2");
                  "firkin-move-entry"; source; destination]%string);
  fm_res (if out.(Envd.po_exit_code) =? 0 then parse_single_filesystem_entry utf8_error out.(Envd.po_stdout)
          else Err (filesystem_exit_error "move" source out)).
Definition remove_entry (id : option string) (path : string) : FM unit :=
  _ ← fm_guard (ensure_filesystem_write_allowed id "remove");
  out ← run_filesystem_command_for id "remove" (shell ["rm -rf -- " +:+ dq "$1"; "firkin-remove-entry"; path]%string);
  fm_res (if out.(Envd.po_exit_code) =? 0 then Ok tt else Err (filesystem_exit_error "remove" path out)).
Definition stat_entry (id : option string) (path : string) : FM EnvdFilesystemEntry :=
  out ← run_filesystem_command_for id "stat" (shell [stat_of (dq "$1"); "firkin-stat-entry"; path]%string);
  fm_res (if out.(Envd.po_exit_code) =? 0 then parse_single_filesystem_entry utf8_error out.(Envd.po_stdout)
          else Err (NotFound path)).
Definition watch_dir (id : option string) (path : string) (recursive : bool) : FM (list EnvdFilesystemEvent) :=
  out ← run_filesystem_command_for id "watch"
          (shell ["test -e " +:+ dq "$1"; "firkin-watch-dir"; path; if recursive then "true" else "false"]%string);
  fm_res (if out.(Envd.po_exit_code) =? 0 then Ok [mk_fs_event path FsWrite] else Err (filesystem_exit_error "watch" path out)).
End Operations.

(** ** A listing reads back *)
(** What [stat] prints for an entry: [%f] is the mode in hexadecimal. *)
Definition hex_digit (d : Z) : ascii := ascii_of (if d <? 10 then 48 + d else 87 + d).
Fixpoint print_hex_aux (fuel : nat) (n : Z) (acc : string) : string :=
  match fuel with
  | O => acc
  | S fuel => if n <? 16 then String (hex_digit n) acc else print_hex_aux fuel (n / 16) (String (hex_digit (n mod 16)) acc)
  end.
Definition print_hex (n : Z) : string := print_hex_aux (S (Z.to_nat (Z.log2 n))) n EmptyString.
Definition stat_fields (kind : string) (e : EnvdFilesystemEntry) : list string :=
  [kind; print_dec e.(fe_size); print_hex e.(fe_mode); e.(fe_permissions); e.(fe_owner); e.(fe_group); e.(fe_path);
   default e.(fe_path) e.(fe_symlink_target)].
Definition stat_line (kind : string) (e : EnvdFilesystemEntry) : string := join sep_tab (stat_fields kind e).
Definition stat_output (l : list (string * EnvdFilesystemEntry)) : string :=
  join "" ((fun p => stat_line p.1 p.2 +:+ String newline EmptyString) <$> l).
Definition has_letter (s : string) : bool := existsb (fun c => negb (is_ascii_digit c)) (bytes s).

Lemma to_digit_hex d : 0 <= d < 16 -> to_digit 16 (hex_digit d) = Some d.
Proof.
  intros Hd. assert (Hall : forallb (fun d => match to_digit 16 (hex_digit d) with Some n => n =? d | None => false end)
    (seqZ 0 16) = true) by reflexivity.
  rewrite forallb_forall in Hall. specialize (Hall d).
  destruct (to_digit 16 (hex_digit d)); [f_equal; apply Z.eqb_eq, Hall|discriminate Hall];
    by apply list_elem_of_In, elem_of_seqZ.
Qed.
Lemma parse_print_hex hi fuel : forall n tail, 0 <= n <= hi -> n < 16 ^ Z.of_nat fuel ->
  parse_radix 16 1 0 hi 0 (print_hex_aux fuel n tail) = parse_radix 16 1 0 hi n tail.
Proof.
  induction fuel as [|fuel IH]; intros n tail Hn Hf; [cbn in Hf; cbn; f_equal; lia|]. cbn [print_hex_aux].
  destruct (n <? 16) eqn:E.
  - cbn [parse_radix]. rewrite to_digit_hex by lia. cbv zeta. replace (0 * 16 + 1 * n) with n by lia.
    replace (n <? 0) with false by lia. by replace (hi <? n) with false by lia.
  - rewrite IH.
    + cbn [parse_radix]. rewrite to_digit_hex by (apply Z.mod_pos_bound; lia).
      cbv zeta. replace (n / 16 * 16 + 1 * (n mod 16)) with n by (rewrite Z.mul_1_l; pose proof (Z.div_mod n 16); lia).
      replace (n <? 0) with false by lia. by replace (hi <? n) with false by lia.
    + split; [apply Z.div_pos; lia|]. etrans; [apply Z.div_le_upper_bound with (q := n)|]; lia.
    + rewrite Nat2Z.inj_succ, Z.pow_succ_r in Hf by lia. apply Z.div_lt_upper_bound; lia.
Qed.
Lemma hex_fuel n : 0 <= n -> n < 16 ^ Z.of_nat (S (Z.to_nat (Z.log2 n))).
Proof.
  intros Hn. rewrite Nat2Z.inj_succ, Z2Nat.id by apply Z.log2_nonneg. destruct (decide (n = 0)) as [->|]; [done|].
  apply Z.lt_le_trans with (2 ^ Z.succ (Z.log2 n)); [apply Z.log2_spec; lia|]. apply Z.pow_le_mono_l; lia.
Qed.
Lemma print_hex_aux_digits fuel : forall n tail, 0 <= n ->
  all_bytes (fun c => bool_decide (is_Some (to_digit 16 c))) tail = true ->
  all_bytes (fun c => bool_decide (is_Some (to_digit 16 c))) (print_hex_aux fuel n tail) = true.
Proof.
  assert (Hd : forall d tail, 0 <= d < 16 -> all_bytes (fun c => bool_decide (is_Some (to_digit 16 c))) tail = true ->
    all_bytes (fun c => bool_decide (is_Some (to_digit 16 c))) (String (hex_digit d) tail) = true).
  { intros d tail Hd Ht. unfold all_bytes in *. cbn [bytes String.list_ascii_of_string forallb]. rewrite to_digit_hex by done.
    rewrite bool_decide_eq_true_2 by done. exact Ht. }
  induction fuel as [|fuel IH]; intros n tail Hn Ht; [done|]. cbn [print_hex_aux]. destruct (n <? 16) eqn:E; [apply Hd; [lia|done]|].
  apply IH; [apply Z.div_pos; lia|]. apply Hd; [apply Z.mod_pos_bound; lia|done].
Qed.
Lemma print_hex_nonempty n : print_hex n <> EmptyString.
Proof.
  unfold print_hex. assert (Hne : forall fuel n tail, tail <> EmptyString -> print_hex_aux fuel n tail <> EmptyString).
  { induction fuel as [|fuel IH]; intros m tail Ht; [done|]. cbn. destruct (m <? 16); [done|]. by apply IH. }
  cbn [print_hex_aux]. destruct (n <? 16); [done|]. by apply Hne.
Qed.
Lemma from_str_hex n : in_uint 32 n -> parse_u32 16 (print_hex n) = Ok n.
Proof.
  intros Hn. pose proof (print_hex_aux_digits (S (Z.to_nat (Z.log2 n))) n EmptyString ltac:(uint_lia) eq_refl) as Hd.
  pose proof (print_hex_nonempty n) as Hne. unfold parse_u32, from_str_radix. fold (print_hex n) in Hd.
  assert (Hp : parse_radix 16 1 0 (max_uint 32) 0 (print_hex n) = Ok n).
  { unfold print_hex. rewrite parse_print_hex; [done|uint_lia|apply hex_fuel; uint_lia]. }
  destruct (print_hex n) as [|c s]; [done|]. unfold all_bytes in Hd. cbn [bytes String.list_ascii_of_string forallb] in Hd.
  apply andb_true_iff in Hd as [Hc _]. destruct (Ascii.eqb_spec c "+") as [->|_]; [done|].
  destruct (Ascii.eqb_spec c "-") as [->|_]; [done|]. exact Hp.
Qed.
(** A letter is no decimal digit. *)
Lemma to_digit_decimal c d : to_digit 10 c = Some d -> is_ascii_digit c = true.
Proof.
  unfold to_digit, digit_value. pose proof (N_ascii_bounded c) as Hb. unfold code. intros H.
  destruct ((48 <=? Z.of_N (N_of_ascii c)) && (Z.of_N (N_of_ascii c) <=? 57)) eqn:E.
  - unfold is_ascii_digit, code. lia.
  - repeat case_match; simplify_eq; lia.
Qed.
Lemma parse_radix_letter lo hi s : forall acc, has_letter s = true -> exists e, parse_radix 10 1 lo hi acc s = Err e.
Proof.
  induction s as [|c s IH]; intros acc; [done|]. unfold has_letter. cbn [bytes String.list_ascii_of_string existsb parse_radix].
  intros Hl. destruct (to_digit 10 c) as [d|] eqn:Ed; [|by eexists]. rewrite (to_digit_decimal _ _ Ed) in Hl. cbn [negb orb] in Hl.
  cbv zeta. repeat case_match; try (by eexists). by apply IH.
Qed.
Lemma parse_mode_hex n : in_uint 32 n -> has_letter (print_hex n) = true -> parse_filesystem_mode (print_hex n) = Ok n.
Proof.
  intros Hn Hl. unfold parse_filesystem_mode. rewrite from_str_hex by done.
  assert (Hdec : exists e, parse_u32 10 (print_hex n) = Err e).
  { pose proof (print_hex_aux_digits (S (Z.to_nat (Z.log2 n))) n EmptyString ltac:(uint_lia) eq_refl) as Hd. fold (print_hex n) in Hd.
    unfold parse_u32, from_str_radix. destruct (print_hex n) as [|c s] eqn:E; [by eexists|].
    unfold all_bytes in Hd. cbn [bytes String.list_ascii_of_string forallb] in Hd. apply andb_true_iff in Hd as [Hc _].
    destruct (Ascii.eqb_spec c "+") as [->|_]; [done|]. destruct (Ascii.eqb_spec c "-") as [->|_]; [done|].
    cbn [orb andb]. by apply parse_radix_letter. }
  by destruct Hdec as [e ->].
Qed.
(** A mode without a letter is read as a decimal number: a regular file that
    only its owner reads and writes has mode 0x8180, and is reported as 8180. *)
Lemma mode_of_private_file : print_hex 33152 = "8180"%string /\ parse_filesystem_mode (print_hex 33152) = Ok 8180.
Proof. by vm_compute. Qed.

Lemma radix_of_digits w lo s : lo <= 0 -> forall acc n, 0 <= acc -> parse_digits w acc s = Some n ->
  parse_radix 10 1 lo (max_uint w) acc s = Ok n.
Proof.
  intros Hlo. induction s as [|c s IH]; intros acc n Ha; cbn [parse_digits parse_radix]; [congruence|].
  destruct (is_ascii_digit c) eqn:Ec; [|done]. cbv zeta. destruct (_ <=? max_uint w) eqn:Em; [|done]. intros Hp.
  assert (Hd : to_digit 10 c = Some (code c - 48)).
  { unfold to_digit, digit_value. unfold is_ascii_digit in Ec. rewrite Ec. by replace (code c - 48 <? 10) with true by lia. }
  rewrite Hd, Z.mul_1_l. assert (0 <= code c - 48) by (unfold is_ascii_digit in Ec; lia).
  replace (_ <? lo) with false by lia. replace (max_uint w <? _) with false by lia. apply IH; [lia|done].
Qed.
(** A printed number is read back by every type that holds it. *)
Lemma from_str_print w lo n : lo <= 0 -> in_uint w n -> from_str_radix 10 lo (max_uint w) (print_dec n) = Ok n.
Proof.
  intros Hlo Hn. pose proof (print_dec_digits n ltac:(uint_lia)) as Hd. pose proof (parse_uint_print w n Hn) as Hp.
  pose proof (print_dec_nonempty n). unfold parse_uint in Hp. unfold from_str_radix.
  destruct (print_dec n) as [|c s]; [done|]. unfold all_bytes in Hd. cbn [bytes String.list_ascii_of_string forallb] in Hd.
  apply andb_true_iff in Hd as [Hc _]. destruct (Ascii.eqb_spec c "+") as [->|_]; [done|].
  destruct (Ascii.eqb_spec c "-") as [->|_]; [done|]. cbn [orb andb]. by apply radix_of_digits.
Qed.
Lemma parse_i64_print n : in_uint 63 n -> parse_i64 (print_dec n) = Ok n.
Proof. intros Hn. by apply from_str_print. Qed.

(** A field that [stat] can print without breaking the line apart. *)
Definition cr : ascii := ascii_of_N 13.
Definition plain (s : string) : Prop := contains tab s = false /\ contains newline s = false /\ contains cr s = false.
Definition entry_ok (kind : string) (e : EnvdFilesystemEntry) : Prop :=
  Forall plain [kind; e.(fe_permissions); e.(fe_owner); e.(fe_group); e.(fe_path); default e.(fe_path) e.(fe_symlink_target)] /\
  in_uint 63 e.(fe_size) /\ in_uint 32 e.(fe_mode) /\ has_letter (print_hex e.(fe_mode)) = true /\
  e.(fe_entry_name) = default "/"%string (last_component e.(fe_path)) /\
  e.(fe_file_type) = (if String.eqb kind "directory" || String.eqb kind "Directory" then DirectoryEntry else FileEntry) /\
  match e.(fe_symlink_target) with Some t => t <> EmptyString /\ t <> e.(fe_path) | None => True end.

Lemma digits_plain s : all_bytes is_ascii_digit s = true -> plain s.
Proof. intros Hd. split_and!; by apply digits_no_byte. Qed.
Lemma hex_digits_plain s : all_bytes (fun c => bool_decide (is_Some (to_digit 16 c))) s = true -> plain s.
Proof. intros Hs. split_and!; (eapply all_bytes_no_byte; [|exact Hs]; by vm_compute). Qed.
Lemma stat_fields_plain kind e : entry_ok kind e -> Forall plain (stat_fields kind e).
Proof.
  intros (Hp & Hs & Hm & _). unfold stat_fields. rewrite !Forall_cons in *. destruct Hp as (? & ? & ? & ? & ? & ? & _).
  split_and!; try done; [apply digits_plain, print_dec_digits; uint_lia|].
  apply hex_digits_plain, print_hex_aux_digits; [uint_lia|done].
Qed.
Lemma parse_stat_line kind e : entry_ok kind e -> parse_filesystem_entry_line (stat_line kind e) = Ok e.
Proof.
  intros He. pose proof (stat_fields_plain kind e He) as Hp. destruct He as (_ & Hs & Hm & Hl & Hn & Ht & Hsym).
  unfold parse_filesystem_entry_line, stat_line. change sep_tab with (sep tab). rewrite split_join; [|done|].
  2:{ eapply Forall_impl; [exact Hp|]. by intros x [? _]. }
  cbn [stat_fields lookup list_lookup ok_or]. unfold mbind, result_bind. rewrite parse_i64_print by done. cbn [map_err].
  rewrite parse_mode_hex by done. destruct e as [name path ty size mode perms owner group sym]. cbn in *. subst.
  do 2 f_equal. destruct sym as [t|]; cbn in *.
  - destruct Hsym as [Hne Hnp]. destruct (String.eqb_spec t path); [done|]. by destruct t.
  - rewrite String.eqb_refl. by rewrite andb_false_r.
Qed.
Lemma lines_concat ls :
  Forall (fun l => contains newline l = false /\ contains cr l = false) ls ->
  lines (join "" ((fun l => l +:+ String newline EmptyString) <$> ls)) = ls.
Proof.
  intros Hls. assert (Hsplit : split newline (join "" ((fun l => l +:+ String newline EmptyString) <$> ls)) = ls ++ [EmptyString]).
  { induction Hls as [|l ls [Hl _] Hls IH]; [done|]. rewrite fmap_cons.
    assert (Hcat : forall a r, contains newline a = false -> split newline (a +:+ String newline r) = a :: split newline r).
    { intros a r. induction a as [|c a IHa]; intros Ha; [done|]. rewrite contains_cons in Ha. apply orb_false_iff in Ha as [Hc Ha].
      rewrite append_cons. cbn [split]. rewrite Hc, IHa by done. done. }
    destruct ls as [|l' ls].
    - cbn [fmap list_fmap join]. rewrite Hcat by done. done.
    - rewrite fmap_cons in IH |- *. cbn [join]. cbn [join] in IH. rewrite append_assoc, append_cons, append_nil_l.
      rewrite append_nil_l. rewrite Hcat by done. cbn [app]. f_equal. exact IH. }
  unfold lines. rewrite Hsplit, last_snoc, removelast_last. cbn [is_empty]. rewrite app_nil_r. rewrite <- (list_fmap_id ls) at 2. apply list_fmap_ext.
  intros i l Hl. rewrite Forall_forall in Hls. destruct (Hls l) as [_ Hcr]; [by eapply list_elem_of_lookup_2|].
  destruct (strip_suffix carriage_return l) as [p|] eqn:E; [|done]. apply strip_suffix_sound in E.
  exfalso. rewrite E, contains_app in Hcr. by apply orb_false_iff in Hcr as [_ ?].
Qed.
Lemma blank_line kind e : entry_ok kind e -> blank (stat_line kind e) = false.
Proof.
  intros (_ & Hs & _). unfold stat_line, stat_fields, blank. cbn [join]. rewrite !all_bytes_app.
  assert (Hb : all_bytes is_ascii_whitespace (print_dec (fe_size e)) = false).
  { pose proof (print_dec_digits (fe_size e) ltac:(uint_lia)) as Hd. pose proof (print_dec_nonempty (fe_size e)) as Hne.
    destruct (print_dec (fe_size e)) as [|c s]; [done|]. unfold all_bytes in *. cbn [bytes String.list_ascii_of_string forallb] in *.
    apply andb_true_iff in Hd as [Hc _]. unfold is_ascii_digit in Hc. unfold is_ascii_whitespace.
    replace ((code c =? 32) || ((9 <=? code c) && (code c <=? 13))) with false by lia. done. }
  rewrite Hb. by rewrite !andb_false_r.
Qed.

(** A directory listing reads back.  For any entries whose fields carry no
    tab, newline or carriage return, whose size fits an [i64] and whose mode has
    a letter among its hexadecimal digits, parsing what [stat] prints for them
    gives the same entries, in the same order. *)
Theorem stat_listing_roundtrip utf8_error (l : list (string * EnvdFilesystemEntry)) :
  Forall (fun p => entry_ok p.1 p.2) l -> is_utf8 (stat_output l) = true ->
  parse_filesystem_entries utf8_error (code <$> bytes (stat_output l)) = Ok l.*2.
Proof.
  intros Hl Hu. unfold parse_filesystem_entries. unfold is_utf8 in Hu. rewrite Hu.
  assert (Htext : text_of (code <$> bytes (stat_output l)) = stat_output l).
  { unfold text_of, bytes. rewrite <- list_fmap_compose. rewrite (list_fmap_ext _ id) by (intros ? c _; cbn; by rewrite ascii_of_code).
    rewrite list_fmap_id. apply String.string_of_list_ascii_of_string. }
  rewrite Htext. unfold stat_output. clear Hu Htext.
  replace ((fun p => stat_line p.1 p.2 +:+ String newline EmptyString) <$> l)
    with ((fun x => x +:+ String newline EmptyString) <$> ((fun p : string * EnvdFilesystemEntry => stat_line p.1 p.2) <$> l))
    by (by rewrite <- list_fmap_compose).
  rewrite lines_concat.
  2:{ rewrite Forall_fmap. eapply Forall_impl; [exact Hl|]. intros [k e] He. unfold compose. cbn [fst snd] in *. unfold stat_line. pose proof (stat_fields_plain _ _ He) as Hp.
    unfold stat_fields in *. cbn [join]. rewrite !contains_app. rewrite !Forall_cons in Hp.
    destruct Hp as ((? & -> & ->) & (? & -> & ->) & (? & -> & ->) & (? & -> & ->) & (? & -> & ->) & (? & -> & ->) & (? & -> & ->) & (? & -> & ->) & _).
    by split. }
  induction Hl as [|[k e] l He _ IH]; [done|]. rewrite !fmap_cons. cbn [fst snd].
  rewrite filter_cons_True by by apply blank_line. cbn [parse_lines]. rewrite parse_stat_line by done. unfold mbind, result_bind. by rewrite IH.
Qed.
Definition demo_entry_home : EnvdFilesystemEntry :=
  mk_fs_entry "user" "/home/user" DirectoryEntry 4096 16877 "drwxr-xr-x" "user" "user" None.
Definition demo_entry_link : EnvdFilesystemEntry :=
  mk_fs_entry "latest" "/home/user/latest" FileEntry 7 41471 "lrwxrwxrwx" "user" "user" (Some "v1"%string).
Lemma stat_listing_roundtrip_witness :
  parse_filesystem_entries "" (code <$> bytes (stat_output [("directory"%string, demo_entry_home); ("symbolic link"%string, demo_entry_link)]))
  = Ok [demo_entry_home; demo_entry_link].
Proof.
  apply (stat_listing_roundtrip "" [("directory"%string, demo_entry_home); ("symbolic link"%string, demo_entry_link)]); [|by vm_compute].
  repeat constructor; by vm_compute.
Defined.

(** ** Writes wait for the checkout to be fresh *)
Section Gated.
Context {Sess : Type} `{RuntimeCommandRunner Sess}.
Implicit Types s : AdapterState Sess.
(** The operations that change files. *)
Inductive file_change :=
| Write (path : string) (data : list Z) | MakeDir (path : string) | Move (source destination : string) | Remove (path : string).
Definition change_files (base64 : list Z -> string) (utf8_error : string) (id : option string) (ch : file_change) s
  : AdapterState Sess * result BackendError unit :=
  let drop {A} (r : AdapterState Sess * result BackendError A) := (r.1, _ ← r.2; Ok tt) in
  match ch with
  | Write path data => drop (write_file base64 id path data s)
  | MakeDir path => drop (make_dir utf8_error id path s)
  | Move a b => drop (move_entry utf8_error id a b s)
  | Remove path => drop (remove_entry id path s)
  end.
Definition change_name (ch : file_change) : string :=
  match ch with Write _ _ => "write" | MakeDir _ => "mkdir" | Move _ _ => "move" | Remove _ => "remove" end.
(** A freshness gate that is not open keeps every change of files out of
    the guest: the operation is refused with the phase of the gate, no command
    runs and the adapter is as before.  With an open gate, or none, the command
    is what the operation does. *)
Theorem closed_gate_keeps_files base64 utf8_error (id : option string) ch s sb x :
  resolve_sandbox "filesystem" (change_name ch) id s = Ok (sb, x) ->
  match x.(fs_freshness_sync) with
  | Some g =>
      writes_allowed g = false ->
      change_files base64 utf8_error id ch s =
        (s, Err (Runtime ("Firkin freshness sync for sandbox " +:+ bt sb +:+ " blocks write operation " +:+ bt (change_name ch)
                   +:+ " on branch " +:+ bt g.(branch) +:+ " while phase is " +:+ phase_debug g.(phase))))
  | None => True
  end /\
  (match x.(fs_freshness_sync) with Some g => writes_allowed g = true | None => True end ->
   exists rq, (change_files base64 utf8_error id ch s).1
              = (session_command sb x rq ("Firkin filesystem " +:+ change_name ch) s).1).
Proof.
  intros Hr. assert (Hopen : forall A op (k : EnvdProcessOutput -> result BackendError A) rq,
    resolve_sandbox "filesystem" op id s = Ok (sb, x) ->
    ensure_filesystem_write_allowed id op s = Ok tt ->
    (mbind (M := FM) (fun _ => mbind (M := FM) (fun out => fm_res (k out)) (run_filesystem_command_for id op rq))
       (fm_guard (ensure_filesystem_write_allowed id op)) s).1 = (session_command sb x rq ("Firkin filesystem " +:+ op) s).1).
  { intros A op k rq Hop Hen. unfold mbind, FM_bind, fm_guard. rewrite Hen. unfold run_filesystem_command_for. rewrite Hop.
    by destruct (session_command _ _ _ _ _) as [s' [out|e]]. }
  assert (Hen : ensure_filesystem_write_allowed id (change_name ch) s =
    match x.(fs_freshness_sync) with
    | Some g => if writes_allowed g then Ok tt
                else Err (Runtime ("Firkin freshness sync for sandbox " +:+ bt sb +:+ " blocks write operation " +:+ bt (change_name ch)
                   +:+ " on branch " +:+ bt g.(branch) +:+ " while phase is " +:+ phase_debug g.(phase)))
    | None => Ok tt
    end).
  { unfold ensure_filesystem_write_allowed. rewrite Hr. cbn. destruct (fs_freshness_sync x) as [g|]; [|done].
    by destruct (writes_allowed g). }
  split.
  - destruct (fs_freshness_sync x) as [g|]; [|done]. intros Hw. rewrite Hw in Hen. 
    destruct ch; unfold change_files, write_file, make_dir, move_entry, remove_entry, mbind, FM_bind, fm_guard;
      cbn [change_name] in Hen |- *; rewrite Hen; done.
  - intros Hg. assert (Hok : ensure_filesystem_write_allowed id (change_name ch) s = Ok tt).
    { rewrite Hen. destruct (fs_freshness_sync x) as [g|]; [|done]. by rewrite Hg. }
    destruct ch; cbn [change_name change_files fst] in *; eexists; by apply Hopen.
Qed.
End Gated.
Module GateDemo.
#[export] Instance quiet_runner : RuntimeCommandRunner unit := fun _ _ x => (x, Err "no commands"%string).
Definition demo_gate : FreshnessSyncGate := begin_sync (restored "main") "abc".
Definition gated_session : FirkinRuntimeSession unit :=
  mk_session tt (Restore.reservation_new Capacity.budget_zero) false None 4000 4001 false (Some demo_gate) (Some "/repo"%string) false.
Definition gated_state : AdapterState unit := set_active {[ "sbx_firkin_1"%string := gated_session ]} (adapter_new (Capacity.ledger_new Capacity.demo_capacity)).
End GateDemo.
Import GateDemo.
Lemma closed_gate_keeps_files_witness :
  exists e, change_files (fun _ => "aGk="%string) "" None (Write "/repo/a" [104; 105]) gated_state = (gated_state, Err e).
Proof.
  eexists.
  exact (proj1 (closed_gate_keeps_files (fun _ => "aGk="%string) "" None (Write "/repo/a" [104; 105]) gated_state "sbx_firkin_1"
    gated_session ltac:(vm_compute; reflexivity)) eq_refl).
Defined.
