(* ===== verification/RuntimeProcesses.v ===== *)
(** * The process table of the adapter
      ([crates/runtime/src/adapter.rs], [EnvdProcessAdapter];
       [crates/runtime/src/hygiene.rs], [crates/runtime/src/interactive.rs])

    Processes are recorded under their sandbox and pid; interactive ones keep a
    handle.  An operation on a handle takes it out of the table, uses it without
    the mutex and puts it back.  The operations exist for the only active
    sandbox and for a named one; here the sandbox is an argument. *)
From S2P Require Import Prelude BTree Types HostPaths HostFs Capacity Envd E2bWire Trace RuntimeRestore Template FirkinAdapter.
Import Trace.Samples Trace.Events.

(** ** What a session offers *)
(** [RuntimeInteractiveProcessStartReport]; a live stream is the events it will
    carry. *)
Record InteractiveStart := mk_interactive_start {
  is_output : EnvdProcessOutput;
  is_samples : list BenchmarkSample;
  is_process : InteractiveProcess;
  is_stream : option (list (result BackendError EnvdProcessStreamEvent))
}.
Class RuntimeInteractiveProcessRunner (Sess : Type) :=
  start_interactive_process : EnvdProcessStartRequest -> Sess -> Sess * result string InteractiveStart.
(** [RuntimeCommandStreamStartReport]; its completion comes later. *)
Record StreamStart := mk_stream_start { ss_pid : Z; ss_events : list (result BackendError EnvdProcessStreamEvent) }.
Class RuntimeCommandStreamRunner (Sess : Type) :=
  run_command_stream : EnvdProcessStartRequest -> EventTraceRecorder -> Sess -> Sess * result string StreamStart.

(** ** Errors and selection ([hygiene.rs]) *)
Definition unique_process_match {A} (matches : list A) (missing ambiguous : BackendError) : result BackendError A :=
  match matches with [] => Err missing | [a] => Ok a | _ => Err ambiguous end.
Definition ambiguous_process_error (selector value : string) : BackendError :=
  Runtime ("Firkin RuntimeAdapter process " +:+ selector +:+ " " +:+ bt value +:+ " matches multiple active sandboxes").
Definition finite_process_error (pid : Z) (detail : string) : BackendError :=
  Runtime ("Firkin RuntimeAdapter process " +:+ print_dec pid +:+ " is finite and " +:+ detail).
Abbreviation Processes := (gmap FirkinRuntimeProcessKey FirkinRuntimeProcessRecord).
Definition of_sandbox (id : option string) (k : FirkinRuntimeProcessKey) : bool :=
  match id with Some id => String.eqb k.1 id | None => true end.
Definition selected (sel : EnvdProcessSelector) (k : FirkinRuntimeProcessKey) (r : FirkinRuntimeProcessRecord) : bool :=
  match sel with
  | SelectPid pid => k.2 =? pid
  | SelectTag tag => bool_decide (r.(pr_info).(pi_tag) = Some tag)
  end.
Definition selector_text (sel : EnvdProcessSelector) : string :=
  match sel with SelectPid pid => print_dec pid | SelectTag tag => tag end.
Definition selector_kind (sel : EnvdProcessSelector) : string :=
  match sel with SelectPid _ => "pid" | SelectTag _ => "tag" end.
Definition find_process (id : option string) (sel : EnvdProcessSelector) (m : Processes)
  : result BackendError (FirkinRuntimeProcessKey * FirkinRuntimeProcessRecord) :=
  unique_process_match
    (map_to_list (filter (fun p => selected sel p.1 p.2 = true) (filter (fun p => of_sandbox id p.1 = true) m)))
    (NotFound (selector_text sel)) (ambiguous_process_error (selector_kind sel) (selector_text sel)).

(** ** The operations *)
Section Processes.
Context {Sess : Type} `{RuntimeCommandRunner Sess, RuntimeInteractiveProcessRunner Sess, RuntimeCommandStreamRunner Sess}.
(** The sum of a duration and a sample, in milliseconds ([f64]). *)
Context (add_ms : Z -> SampleValue -> SampleValue).
Implicit Types s : AdapterState Sess.
Definition process_info (pid : Z) (rq : EnvdProcessStartRequest) : EnvdProcessInfo :=
  mk_process_info pid rq.(ps_tag) rq.(ps_cmd) rq.(ps_args) rq.(ps_envs) rq.(ps_cwd).
Definition record_process (k : FirkinRuntimeProcessKey) (r : FirkinRuntimeProcessRecord) s : AdapterState Sess :=
  set_processes (<[k := r]> s.(a_processes)) s.(a_interactive) s.
Definition put_interactive (k : FirkinRuntimeProcessKey) (p : InteractiveProcess) s : AdapterState Sess :=
  set_processes s.(a_processes) (<[k := p]> s.(a_interactive)) s.
Definition wants_interactive (rq : EnvdProcessStartRequest) : bool :=
  bool_decide (rq.(ps_stdin) = Some true) || bool_decide (is_Some rq.(ps_pty)).
(** Starting an interactive process, for both kinds of answers. *)
Definition start_interactive (id : string) (x : FirkinRuntimeSession Sess) (rq : EnvdProcessStartRequest) (what : string) s
  : AdapterState Sess * result BackendError InteractiveStart :=
  match start_interactive_process rq x.(fs_session) with
  | (y, Err e) => ((update_session id (with_session y) s).1, Err (Runtime (what +:+ " failed: " +:+ e)))
  | (y, Ok rep) =>
      let k := (id, rep.(is_output).(Envd.po_pid)) in
      let s := log [] rep.(is_samples) [] (update_session id (with_session y) s).1 in
      (put_interactive k rep.(is_process)
         (record_process k (mk_process_record (process_info rep.(is_output).(Envd.po_pid) rq) rep.(is_output)) s), Ok rep)
  end.
Definition take_startup_event_trace (id : string) s : AdapterState Sess * result BackendError EventTraceRecorder :=
  match s.(a_active) !! id with
  | None => (s, Err (NotFound id))
  | Some x =>
      (set_active (<[id := with_trace None x.(fs_first_stdout_recorded) x]> s.(a_active)) s,
       Ok (default hot_recorder x.(fs_startup_trace)))
  end.
Definition find_metric (m : string) (l : list BenchmarkSample) : option BenchmarkSample :=
  head (filter (fun b => metric b = m) l).
Definition sandbox_first_command_samples (rq : EnvdProcessStartRequest) (l : list BenchmarkSample) : list BenchmarkSample :=
  match find_metric "command_start" l, find_metric "first_stdout_byte" l with
  | Some a, Some b =>
      let tagged m v := with_tag (with_tag (sample_new m LifecycleLatency Milliseconds v) "cmd" rq.(ps_cmd)) "args" (join "|||" rq.(ps_args)) in
      [tagged "debug.exec.sandbox_first_command_start_ms"%string a.(sample_value);
       tagged "debug.exec.sandbox_first_stdout_byte_ms"%string b.(sample_value)]
  | _, _ => []
  end.
(** [since_resume] is the time from the resume of the session to the start of
    the command. *)
Definition persist_command_start_report (id : string) (rq : EnvdProcessStartRequest) (since_resume : Z) (rep : CommandReport) s
  : AdapterState Sess * EnvdProcessOutput :=
  let out := rep.(cmd_output) in
  let first := match s.(a_active) !! id with
               | Some x => if x.(fs_first_stdout_recorded) then None else find_metric "first_stdout_byte" rep.(cmd_samples)
               | None => None
               end in
  let s := match first with
           | Some _ => (update_session id (fun x => with_trace x.(fs_startup_trace) true x) s).1
           | None => s
           end in
  let extra := match first with
               | Some b => sample_new "start.resume_to_first_stdout_ms" LifecycleLatency Milliseconds (add_ms since_resume b.(sample_value))
                           :: sandbox_first_command_samples rq rep.(cmd_samples)
               | None => []
               end in
  let s := log [] (rep.(cmd_samples) ++ extra) rep.(cmd_traces) s in
  (record_process (id, out.(Envd.po_pid)) (mk_process_record (process_info out.(Envd.po_pid) rq) out) s, out).
Definition start_process_for (id : option string) (rq : EnvdProcessStartRequest) (since_resume : Z) s
  : AdapterState Sess * result BackendError EnvdProcessOutput :=
  match resolve_sandbox "process" "start" id s with
  | Err e => (s, Err e)
  | Ok (id, x) =>
      if wants_interactive rq then
        match start_interactive id x rq "Firkin interactive process start" s with
        | (s, Ok rep) => (s, Ok rep.(is_output))
        | (s, Err e) => (s, Err e)
        end
      else
        match take_startup_event_trace id s with
        | (s, Err e) => (s, Err e)
        | (s, Ok trace) =>
            match run_command rq trace x.(fs_session) with
            | (y, Err e) => ((update_session id (with_session y) s).1, Err (Runtime ("Firkin command start failed: " +:+ e)))
            | (y, Ok rep) =>
                let '(s, out) := persist_command_start_report id rq since_resume rep (update_session id (with_session y) s).1 in
                (s, Ok out)
            end
        end
  end.
Definition running_output (pid : Z) : EnvdProcessOutput := mk_process_output pid [] [] [] 0 false "running" None.
(** The stream an answer carries: [from_output] of what is known, or the start
    event and what the live stream brings. *)
Definition interactive_stream (rep : InteractiveStart) : list (result BackendError EnvdProcessStreamEvent) :=
  match rep.(is_stream) with
  | None => Ok <$> process_output_events rep.(is_output)
  | Some live => Ok (EvStart rep.(is_output).(Envd.po_pid)) :: live
  end.
Definition start_process_stream_for (id : option string) (rq : EnvdProcessStartRequest) s
  : AdapterState Sess * result BackendError (list (result BackendError EnvdProcessStreamEvent)) :=
  match resolve_sandbox "process" "start stream" id s with
  | Err e => (s, Err e)
  | Ok (id, x) =>
      if wants_interactive rq then
        match start_interactive id x rq "Firkin interactive process stream start" s with
        | (s, Ok rep) => (s, Ok (interactive_stream rep))
        | (s, Err e) => (s, Err e)
        end
      else
        match take_startup_event_trace id s with
        | (s, Err e) => (s, Err e)
        | (s, Ok trace) =>
            match run_command_stream rq trace x.(fs_session) with
            | (y, Err e) => ((update_session id (with_session y) s).1, Err (Runtime ("Firkin command stream start failed: " +:+ e)))
            | (y, Ok rep) =>
                (record_process (id, rep.(ss_pid)) (mk_process_record (process_info rep.(ss_pid) rq) (running_output rep.(ss_pid)))
                   (update_session id (with_session y) s).1,
                 Ok rep.(ss_events))
            end
        end
  end.
(** The completion of a streamed command, whenever it comes. *)
Definition persist_command_stream_completion (id : string) (rq : EnvdProcessStartRequest) (since_resume : Z) (rep : CommandReport) s
  : AdapterState Sess := (persist_command_start_report id rq since_resume rep s).1.

Definition process_key_le (a b : FirkinRuntimeProcessKey * FirkinRuntimeProcessRecord) : Prop :=
  match kcmp a.1.1 b.1.1 with Lt => True | Eq => a.1.2 <= b.1.2 | Gt => False end.
#[global] Instance process_key_le_dec : RelDecision process_key_le.
Proof. intros a b. unfold process_key_le. destruct (kcmp _ _); [apply Z_le_dec|left; done|right; by intros []]. Defined.
Definition list_processes_for (id : option string) s : list EnvdProcessInfo :=
  (fun p => p.2.(pr_info)) <$> merge_sort process_key_le (map_to_list (filter (fun p => of_sandbox id p.1 = true) s.(a_processes))).
Definition require_recorded_process (id : option string) (sel : EnvdProcessSelector) s : result BackendError FirkinRuntimeProcessRecord :=
  p ← find_process id sel s.(a_processes); Ok p.2.
Definition take_interactive_process (id : option string) (sel : EnvdProcessSelector) s
  : AdapterState Sess * result BackendError (FirkinRuntimeProcessKey * InteractiveProcess) :=
  match find_process id sel s.(a_processes) with
  | Err e => (s, Err e)
  | Ok (k, _) =>
      match s.(a_interactive) !! k with
      | Some p => (set_processes s.(a_processes) (delete k s.(a_interactive)) s, Ok (k, p))
      | None => (s, Err (finite_process_error k.2 "does not keep interactive stdin, signal, or PTY state"))
      end
  end.

(** Using a handle: what the method does to it. *)
Inductive handle_op := SendInput (i : EnvdProcessInput) | CloseStdin | Signal (g : EnvdProcessSignal) | UpdatePty (p : option EnvdPtySize).
Definition use_handle (op : handle_op) (p : InteractiveProcess) : InteractiveProcess * result BackendError unit :=
  let keep v := mk_interactive p.(ip_state) v p.(ip_send_input) p.(ip_close_stdin) p.(ip_signal) p.(ip_update_pty) p.(ip_connect) in
  let '(v, r) := match op with
                 | SendInput i => p.(ip_send_input) i p.(ip_value)
                 | CloseStdin => p.(ip_close_stdin) p.(ip_value)
                 | Signal g => p.(ip_signal) g p.(ip_value)
                 | UpdatePty q => p.(ip_update_pty) q p.(ip_value)
                 end in
  (keep v, r).
Definition connect_handle (p : InteractiveProcess) : InteractiveProcess * result BackendError EnvdProcessOutput :=
  let '(v, r) := p.(ip_connect) p.(ip_value) in
  (mk_interactive p.(ip_state) v p.(ip_send_input) p.(ip_close_stdin) p.(ip_signal) p.(ip_update_pty) p.(ip_connect), r).
Definition finite_detail (op : handle_op) : string :=
  match op with
  | SendInput _ | CloseStdin => "does not keep interactive stdin"
  | Signal _ => "has already exited and cannot be signaled"
  | UpdatePty _ => "does not keep an interactive PTY"
  end.
Definition stdin_sample (elapsed : Z) : BenchmarkSample :=
  with_tag (with_tag (with_tag (latency "sandbox.exec.stdin_write_latency_ms" elapsed)
    "measurement_boundary" "runtime_process_write_flush") "excludes_client_http" "true") "excludes_envd_rpc_decode" "true".
(** [send_process_input_for], [close_process_stdin_for], [signal_process_for]
    and [update_process_pty_for]. *)
Definition handle_op_for (op : handle_op) (elapsed : Z) (id : option string) (sel : EnvdProcessSelector) s
  : AdapterState Sess * result BackendError unit :=
  match take_interactive_process id sel s with
  | (s, Ok (k, p)) =>
      let '(p, r) := use_handle op p in
      let samples := match op, r with SendInput _, Ok _ => [stdin_sample elapsed] | _, _ => [] end in
      (log [] samples [] (put_interactive k p s), r)
  | (s, Err (Runtime _)) =>
      (s, r ← require_recorded_process id sel s; Err (finite_process_error r.(pr_info).(pi_pid) (finite_detail op)))
  | (s, Err e) => (s, Err e)
  end.
Definition connect_process_for (id : option string) (sel : EnvdProcessSelector) s
  : AdapterState Sess * result BackendError EnvdProcessOutput :=
  match take_interactive_process id sel s with
  | (s, Ok (k, p)) => let '(p, r) := connect_handle p in (put_interactive k p s, r)
  | (s, Err (Runtime _)) => (s, r ← require_recorded_process id sel s; Ok r.(pr_output))
  | (s, Err e) => (s, Err e)
  end.
End Processes.

(** ** Isolation *)
Section Isolation.
Context {Sess : Type} `{RuntimeCommandRunner Sess, RuntimeInteractiveProcessRunner Sess, RuntimeCommandStreamRunner Sess}.
Context (add_ms : Z -> SampleValue -> SampleValue).
Implicit Types s : AdapterState Sess.
(** What belongs to one sandbox. *)
Definition Local : Type :=
  option (FirkinRuntimeSession Sess) * Processes * gmap FirkinRuntimeProcessKey InteractiveProcess.
Definition local s (a : string) : Local :=
  (s.(a_active) !! a, filter (fun p => of_sandbox (Some a) p.1 = true) s.(a_processes),
   filter (fun p => of_sandbox (Some a) p.1 = true) s.(a_interactive)).
Lemma of_sandbox_eq a (k : FirkinRuntimeProcessKey) : of_sandbox (Some a) k = true <-> k.1 = a.
Proof. cbn. apply String.eqb_eq. Qed.
Lemma filter_insert_sandbox {V} (a b : string) (pid : Z) (v : V) (m : gmap FirkinRuntimeProcessKey V) :
  filter (fun p => of_sandbox (Some b) p.1 = true) (<[(a, pid) := v]> m)
  = (if decide (a = b) then <[(a, pid) := v]> else id) (filter (fun p => of_sandbox (Some b) p.1 = true) m).
Proof.
  destruct (decide (a = b)) as [<-|Hne].
  - apply map_filter_insert_True. by apply of_sandbox_eq.
  - cbn. apply map_filter_insert_not. intros v' Hv. apply of_sandbox_eq in Hv. done.
Qed.
Definition on_local (a b : string) (f : Local -> Local) (l : Local) : Local := if decide (a = b) then f l else l.
Lemma local_log p sa tr s b : local (log p sa tr s) b = local s b.
Proof. done. Qed.
Lemma local_update a u s b :
  local (update_session a u s).1 b = on_local a b (fun l => (u <$> l.1.1, l.1.2, l.2)) (local s b).
Proof.
  unfold update_session, local, on_local. destruct (decide (a = b)) as [<-|Hne].
  - destruct (s.(a_active) !! a) as [x|] eqn:E; cbn; [by rewrite lookup_insert_eq|by rewrite E].
  - destruct (s.(a_active) !! a) as [x|]; cbn; [by rewrite lookup_insert_ne|done].
Qed.
Lemma local_record (a : string) (pid : Z) r s b :
  local (record_process (a, pid) r s) b = on_local a b (fun l => (l.1.1, <[(a, pid) := r]> l.1.2, l.2)) (local s b).
Proof.
  unfold record_process, local, on_local. cbn [a_active a_processes a_interactive set_processes]. rewrite filter_insert_sandbox.
  by destruct (decide (a = b)).
Qed.
Lemma local_put (a : string) (pid : Z) p s b :
  local (put_interactive (a, pid) p s) b = on_local a b (fun l => (l.1.1, l.1.2, <[(a, pid) := p]> l.2)) (local s b).
Proof.
  unfold put_interactive, local, on_local. cbn [a_active a_processes a_interactive set_processes]. rewrite filter_insert_sandbox.
  by destruct (decide (a = b)).
Qed.
Lemma local_trace a s b :
  local (take_startup_event_trace a s).1 b
  = on_local a b (fun l => ((fun x => with_trace None x.(fs_first_stdout_recorded) x) <$> l.1.1, l.1.2, l.2)) (local s b).
Proof.
  rewrite <- (local_update a (fun x => with_trace None x.(fs_first_stdout_recorded) x)). unfold take_startup_event_trace, update_session.
  by destruct (s.(a_active) !! a).
Qed.
(** A handle that was found is one of the sandbox. *)
Lemma find_process_spec (a : string) (sel : EnvdProcessSelector) (m : Processes) k r :
  find_process (Some a) sel m = Ok (k, r) -> k.1 = a /\ m !! k = Some r.
Proof.
  unfold find_process. destruct (map_to_list _) as [|[k' r'] [|]] eqn:E; cbn; try done. intros [= -> ->].
  assert (Hin : (k, r) ∈ map_to_list (filter (fun p => selected sel p.1 p.2 = true) (filter (fun p => of_sandbox (Some a) p.1 = true) m)))
    by (rewrite E; apply list_elem_of_here).
  apply elem_of_map_to_list, map_lookup_filter_Some in Hin as [Hin _]. apply map_lookup_filter_Some in Hin as [Hm Hk].
  by apply of_sandbox_eq in Hk.
Qed.
Lemma find_process_local (a : string) (sel : EnvdProcessSelector) s :
  find_process (Some a) sel s.(a_processes) = find_process (Some a) sel (local s a).1.2.
Proof.
  unfold find_process. do 3 f_equal. cbn. symmetry. apply map_filter_id. intros k r Hk. by apply map_lookup_filter_Some in Hk as [_ ?].
Qed.
Lemma local_take (a : string) (sel : EnvdProcessSelector) s :
  take_interactive_process (Some a) sel s =
    match find_process (Some a) sel (local s a).1.2 with
    | Err e => (s, Err e)
    | Ok (k, _) =>
        match (local s a).2 !! k with
        | Some p => (set_processes s.(a_processes) (delete k s.(a_interactive)) s, Ok (k, p))
        | None => (s, Err (finite_process_error k.2 "does not keep interactive stdin, signal, or PTY state"))
        end
    end.
Proof.
  unfold take_interactive_process. rewrite <- find_process_local. destruct (find_process (Some a) sel (a_processes s)) as [[k r]|e] eqn:E; [|done].
  apply find_process_spec in E as [Hk _]. cbn. rewrite map_lookup_filter. cbn.
  destruct (a_interactive s !! k) as [p|]; cbn; [|done]. by rewrite option_guard_True by by apply String.eqb_eq.
Qed.
Lemma local_delete (k : FirkinRuntimeProcessKey) (a : string) s b : k.1 = a ->
  local (set_processes s.(a_processes) (delete k s.(a_interactive)) s) b = on_local a b (fun l => (l.1.1, l.1.2, delete k l.2)) (local s b).
Proof.
  intros <-. unfold local, on_local. cbn [a_active a_processes a_interactive set_processes]. rewrite map_filter_delete.
  destruct (decide (k.1 = b)) as [|Hne]; [done|]. f_equal. apply delete_id. apply map_lookup_filter_None. right. intros p _ Hk.
  by apply of_sandbox_eq in Hk.
Qed.

(** An operation of sandbox [a]: its answer and what it leaves of [a] depend on
    what belongs to [a] alone, and what belongs to others stays. *)
Definition op_local {A} (a : string) (m : AdapterState Sess -> AdapterState Sess * A) : Prop :=
  (forall s1 s2, local s1 a = local s2 a -> (m s1).2 = (m s2).2 /\ local (m s1).1 a = local (m s2).1 a) /\
  (forall s b, b <> a -> local (m s).1 b = local s b).
Lemma op_local_ret {A} a (v : A) : op_local a (fun s => (s, v)).
Proof. by split. Qed.
Lemma op_local_state a (F : Local -> Local) (u : AdapterState Sess -> AdapterState Sess) {A} (v : A) :
  (forall s b, local (u s) b = on_local a b F (local s b)) -> op_local a (fun s => (u s, v)).
Proof.
  intros Hu. split.
  - intros s1 s2 Hl. split; [done|]. cbn. rewrite !Hu. unfold on_local. destruct (decide (a = a)); congruence.
  - intros s b Hb. cbn. rewrite Hu. unfold on_local. by rewrite decide_False.
Qed.
Lemma op_local_read {A} a (g : Local -> AdapterState Sess -> AdapterState Sess * A) :
  (forall l, op_local a (g l)) -> op_local a (fun s => g (local s a) s).
Proof. intros Hg. split; [|intros s b; apply Hg]. intros s1 s2 Hl. rewrite Hl. by apply Hg. Qed.
Lemma op_local_bind {A B} a (m : AdapterState Sess -> AdapterState Sess * A) (k : A -> AdapterState Sess -> AdapterState Sess * B) :
  op_local a m -> (forall v, op_local a (k v)) -> op_local a (fun s => k (m s).2 (m s).1).
Proof.
  intros [Hm1 Hm2] Hk. split.
  - intros s1 s2 Hl. destruct (Hm1 _ _ Hl) as [-> Hl']. by apply Hk.
  - intros s b Hb. rewrite (proj2 (Hk _)) by done. by apply Hm2.
Qed.
Lemma op_local_ext {A} a (m m' : AdapterState Sess -> AdapterState Sess * A) :
  (forall s, m s = m' s) -> op_local a m' -> op_local a m.
Proof. intros E [H1' H2']. split; intros; rewrite !E; auto. Qed.
Lemma op_local_res {A B} a (m : AdapterState Sess -> AdapterState Sess * result BackendError A)
    (k : A -> AdapterState Sess -> AdapterState Sess * result BackendError B) :
  op_local a m -> (forall v, op_local a (k v)) ->
  op_local a (fun s => match m s with (s, Ok v) => k v s | (s, Err e) => (s, Err e) end).
Proof.
  intros Hm Hk. apply (op_local_ext a _ (fun s => match (m s).2 with Ok v => k v | Err e => fun s => (s, Err e) end (m s).1)).
  - intros s. by destruct (m s) as [s' [v|e]].
  - apply (op_local_bind a m (fun r => match r with Ok v => k v | Err e => fun s => (s, Err e) end)); [done|].
    intros [v|e]; [done|apply op_local_ret].
Qed.
Lemma op_local_after {A} a (F : Local -> Local) (u : AdapterState Sess -> AdapterState Sess) (k : AdapterState Sess -> AdapterState Sess * A) :
  (forall s b, local (u s) b = on_local a b F (local s b)) -> op_local a k -> op_local a (fun s => k (u s)).
Proof.
  intros Hu Hk. apply (op_local_bind a (fun s => (u s, tt)) (fun _ => k)); [|done]. by apply (op_local_state a F).
Qed.
Lemma local_same_log p sa tr a s b : local (log p sa tr s) b = on_local a b id (local s b).
Proof. rewrite local_log. unfold on_local. by destruct (decide (a = b)). Qed.

(** *** The operations of one sandbox *)
Inductive process_op :=
  | StartProcess (rq : EnvdProcessStartRequest) (since_resume : Z)
  | StartStream (rq : EnvdProcessStartRequest)
  | CompleteStream (rq : EnvdProcessStartRequest) (since_resume : Z) (rep : CommandReport)
  | ListProcesses
  | Handle (op : handle_op) (elapsed : Z) (sel : EnvdProcessSelector)
  | Connect (sel : EnvdProcessSelector).
Inductive process_answer :=
  | AOutput (r : result BackendError EnvdProcessOutput)
  | AStream (r : result BackendError (list (result BackendError EnvdProcessStreamEvent)))
  | ADone (r : result BackendError unit)
  | AList (l : list EnvdProcessInfo).
Definition run_process_op (op : process_op) (a : string) s : AdapterState Sess * process_answer :=
  match op with
  | StartProcess rq since => let '(s, r) := start_process_for add_ms (Some a) rq since s in (s, AOutput r)
  | StartStream rq => let '(s, r) := start_process_stream_for (Some a) rq s in (s, AStream r)
  | CompleteStream rq since rep => (persist_command_stream_completion add_ms a rq since rep s, ADone (Ok tt))
  | ListProcesses => (s, AList (list_processes_for (Some a) s))
  | Handle op elapsed sel => let '(s, r) := handle_op_for op elapsed (Some a) sel s in (s, ADone r)
  | Connect sel => let '(s, r) := connect_process_for (Some a) sel s in (s, AOutput r)
  end.
Definition run_process_ops (l : list (string * process_op)) s : AdapterState Sess :=
  foldl (fun s x => (run_process_op x.2 x.1 s).1) s l.

Lemma op_local_reads {A} a (g : Local -> AdapterState Sess -> AdapterState Sess * A) (m : AdapterState Sess -> AdapterState Sess * A) :
  (forall s, m s = g (local s a) s) -> (forall l, op_local a (g l)) -> op_local a m.
Proof. intros E Hg. apply (op_local_ext a _ (fun s => g (local s a) s)); [done|]. by apply op_local_read. Qed.
Lemma op_local_map {A B} a (f : A -> B) (m : AdapterState Sess -> AdapterState Sess * A) :
  op_local a m -> op_local a (fun s => let '(s, r) := m s in (s, f r)).
Proof.
  intros Hm. apply (op_local_ext a _ (fun s => (fun r s => (s, f r)) (m s).2 (m s).1)).
  - intros s. by destruct (m s).
  - apply (op_local_bind a m (fun r s => (s, f r))); [done|]. intros v. apply op_local_ret.
Qed.
Lemma op_local_trace a : op_local a (take_startup_event_trace a).
Proof.
  split.
  - intros s1 s2 Hl. split.
    + pose proof (f_equal (fun l : Local => l.1.1) Hl) as Ha. cbn in Ha. unfold take_startup_event_trace. rewrite Ha.
      by destruct (a_active s2 !! a).
    + by rewrite !local_trace, Hl.
  - intros s b Hb. rewrite local_trace. unfold on_local. by rewrite decide_False.
Qed.
Lemma resolve_named what operation a s :
  resolve_sandbox what operation (Some a) s = match s.(a_active) !! a with Some x => Ok (a, x) | None => Err (NotFound a) end.
Proof. cbn. by destruct (a_active s !! a). Qed.
Lemma op_local_resolve {A} a what operation (k : FirkinRuntimeSession Sess -> AdapterState Sess -> AdapterState Sess * result BackendError A) :
  (forall x, op_local a (k x)) ->
  op_local a (fun s => match resolve_sandbox what operation (Some a) s with Err e => (s, Err e) | Ok (_, x) => k x s end).
Proof.
  intros Hk.
  apply (op_local_reads a (fun (l : Local) s => match l.1.1 with None => (s, Err (NotFound a)) | Some x => k x s end)).
  - intros s. cbn. by destruct (a_active s !! a).
  - intros [[[x|] ?] ?]; cbn; [apply Hk|apply op_local_ret].
Qed.
Lemma start_interactive_local a x rq what : op_local a (start_interactive a x rq what).
Proof.
  unfold start_interactive. destruct (start_interactive_process rq (fs_session x)) as [y [rep|e]].
  - eapply (op_local_after a _ (fun s => (update_session a (with_session y) s).1)
      (fun s => (put_interactive _ _ (record_process _ _ (log [] _ [] s)), _))); [apply local_update|].
    eapply (op_local_after a _ (log [] _ []) (fun s => (put_interactive _ _ (record_process _ _ s), _))); [apply local_same_log|].
    eapply (op_local_after a _ (record_process _ _) (fun s => (put_interactive _ _ s, _))); [apply local_record|].
    eapply op_local_state. apply local_put.
  - eapply op_local_state. apply local_update.
Qed.
Lemma persist_local a rq since rep : op_local a (persist_command_start_report add_ms a rq since rep).
Proof.
  set (first_of (l : Local) := match l.1.1 with
        | Some x => if x.(fs_first_stdout_recorded) then None else find_metric "first_stdout_byte" rep.(cmd_samples)
        | None => None end).
  set (finish_report (e : list BenchmarkSample) s :=
         (record_process (a, (cmd_output rep).(Envd.po_pid))
            (mk_process_record (process_info (cmd_output rep).(Envd.po_pid) rq) (cmd_output rep))
            (log [] (rep.(cmd_samples) ++ e) rep.(cmd_traces) s), cmd_output rep)).
  assert (Hf : forall e, op_local a (finish_report e)).
  { intros e. eapply (op_local_after a _ (log [] _ _) (fun s => (record_process _ _ s, _))); [apply local_same_log|].
    eapply op_local_state. apply local_record. }
  apply (op_local_reads a (fun l => match first_of l with
     | Some b => fun s => finish_report (sample_new "start.resume_to_first_stdout_ms" LifecycleLatency Milliseconds (add_ms since b.(sample_value))
                           :: sandbox_first_command_samples rq rep.(cmd_samples))
                   (update_session a (fun x => with_trace x.(fs_startup_trace) true x) s).1
     | None => finish_report [] end)).
  - intros s. unfold persist_command_start_report, first_of, local, finish_report. cbn. by destruct (a_active s !! a) as [x|]; [destruct (fs_first_stdout_recorded x)|]; [|destruct (find_metric _ _)|].
  - intros l. destruct (first_of l); [|apply Hf].
    eapply (op_local_after a _ (fun s => (update_session a _ s).1)); [apply local_update|apply Hf].
Qed.
Lemma start_process_local a rq since : op_local a (start_process_for add_ms (Some a) rq since).
Proof.
  apply (op_local_ext a _ (fun s => match resolve_sandbox "process" "start" (Some a) s with Err e => (s, Err e) | Ok (_, x) =>
    (if wants_interactive rq then fun s => match start_interactive a x rq "Firkin interactive process start" s with
                                           | (s, Ok rep) => (s, Ok rep.(is_output)) | (s, Err e) => (s, Err e) end
     else fun s => match take_startup_event_trace a s with
        | (s, Ok trace) => match run_command rq trace x.(fs_session) with
            | (y, Err e) => ((update_session a (with_session y) s).1, Err (Runtime ("Firkin command start failed: " +:+ e)))
            | (y, Ok rep) =>
                let '(s, out) := persist_command_start_report add_ms a rq since rep (update_session a (with_session y) s).1 in
                (s, Ok out)
            end
        | (s, Err e) => (s, Err e) end) s end)).
  - intros s. unfold start_process_for. rewrite !resolve_named. destruct (a_active s !! a) as [x|]; [|done].
    destruct (wants_interactive rq); [done|]. by destruct (take_startup_event_trace a s) as [? []].
  - apply op_local_resolve. intros x. destruct (wants_interactive rq).
    + apply op_local_res; [apply start_interactive_local|]. intros. apply op_local_ret.
    + apply op_local_res; [apply op_local_trace|]. intros trace. destruct (run_command rq trace (fs_session x)) as [y [rep|e]].
      * eapply (op_local_after a _ (fun s => (update_session a (with_session y) s).1)
          (fun s => let '(s, out) := persist_command_start_report add_ms a rq since rep s in (s, Ok out))); [apply local_update|].
        apply op_local_map, persist_local.
      * eapply op_local_state. apply local_update.
Qed.
Lemma start_stream_local a rq : op_local a (start_process_stream_for (Some a) rq).
Proof.
  apply (op_local_ext a _ (fun s => match resolve_sandbox "process" "start stream" (Some a) s with Err e => (s, Err e) | Ok (_, x) =>
    (if wants_interactive rq then fun s => match start_interactive a x rq "Firkin interactive process stream start" s with
                                           | (s, Ok rep) => (s, Ok (interactive_stream rep)) | (s, Err e) => (s, Err e) end
     else fun s => match take_startup_event_trace a s with
        | (s, Ok trace) => match run_command_stream rq trace x.(fs_session) with
            | (y, Err e) => ((update_session a (with_session y) s).1, Err (Runtime ("Firkin command stream start failed: " +:+ e)))
            | (y, Ok rep) =>
                (record_process (a, rep.(ss_pid)) (mk_process_record (process_info rep.(ss_pid) rq) (running_output rep.(ss_pid)))
                   (update_session a (with_session y) s).1, Ok rep.(ss_events))
            end
        | (s, Err e) => (s, Err e) end) s end)).
  - intros s. unfold start_process_stream_for. rewrite !resolve_named. destruct (a_active s !! a) as [x|]; [|done].
    destruct (wants_interactive rq); [done|]. by destruct (take_startup_event_trace a s) as [? []].
  - apply op_local_resolve. intros x. destruct (wants_interactive rq).
    + apply op_local_res; [apply start_interactive_local|]. intros. apply op_local_ret.
    + apply op_local_res; [apply op_local_trace|]. intros trace. destruct (run_command_stream rq trace (fs_session x)) as [y [rep|e]].
      * eapply (op_local_after a _ (fun s => (update_session a (with_session y) s).1) (fun s => (record_process _ _ s, _))); [apply local_update|].
        eapply op_local_state. apply local_record.
      * eapply op_local_state. apply local_update.
Qed.
Lemma op_local_take {A} a (sel : EnvdProcessSelector)
    (good : FirkinRuntimeProcessKey -> InteractiveProcess -> AdapterState Sess -> AdapterState Sess * A)
    (bad : BackendError -> AdapterState Sess -> AdapterState Sess * A) :
  (forall k p, k.1 = a -> op_local a (good k p)) -> (forall e, op_local a (bad e)) ->
  op_local a (fun s => match take_interactive_process (Some a) sel s with (s, Ok (k, p)) => good k p s | (s, Err e) => bad e s end).
Proof.
  intros Hg Hb.
  apply (op_local_reads a (fun l => match find_process (Some a) sel l.1.2 with
    | Err e => bad e
    | Ok (k, _) => match l.2 !! k with
        | Some p => fun s => good k p (set_processes s.(a_processes) (delete k s.(a_interactive)) s)
        | None => bad (finite_process_error k.2 "does not keep interactive stdin, signal, or PTY state")
        end
    end)).
  - intros s. rewrite local_take. destruct (find_process (Some a) sel (local s a).1.2) as [[k r]|e]; [|done].
    by destruct ((local s a).2 !! k).
  - intros l. destruct (find_process (Some a) sel l.1.2) as [[k r]|e] eqn:E; [|done].
    destruct (l.2 !! k) as [p|]; [|done]. apply find_process_spec in E as [Hk _].
    eapply (op_local_after a _ (fun s => set_processes s.(a_processes) (delete k s.(a_interactive)) s)); [intros; by apply local_delete|].
    by apply Hg.
Qed.
Lemma op_local_recorded {A} a (sel : EnvdProcessSelector) (f : FirkinRuntimeProcessRecord -> result BackendError A) :
  op_local a (fun s => (s, r ← require_recorded_process (Some a) sel s; f r)).
Proof.
  apply (op_local_reads a (fun l s => (s, r ← (p ← find_process (Some a) sel l.1.2; Ok p.2); f r))).
  - intros s. unfold require_recorded_process. by rewrite find_process_local.
  - intros l. apply op_local_ret.
Qed.
Lemma local_put_key a (k : FirkinRuntimeProcessKey) p : k.1 = a ->
  forall s b, local (put_interactive k p s) b = on_local a b (fun l => (l.1.1, l.1.2, <[k := p]> l.2)) (local s b).
Proof. intros Hk s b. destruct k as [a0 pid]. cbn in Hk. subst a0. apply local_put. Qed.
Lemma handle_op_local a op elapsed sel : op_local a (handle_op_for op elapsed (Some a) sel).
Proof.
  apply (op_local_ext a _ (fun s => match take_interactive_process (Some a) sel s with
    | (s, Ok (k, p)) =>
        (fun k p s => (log [] (match op, (use_handle op p).2 with SendInput _, Ok _ => [stdin_sample elapsed] | _, _ => [] end) []
                        (put_interactive k (use_handle op p).1 s), (use_handle op p).2)) k p s
    | (s, Err e) => (fun e => match e with
        | Runtime _ => fun s => (s, r ← require_recorded_process (Some a) sel s;
                                    Err (finite_process_error r.(pr_info).(pi_pid) (finite_detail op)))
        | e => fun s => (s, Err e) end) e s end)).
  - intros s. unfold handle_op_for. destruct (take_interactive_process (Some a) sel s) as [s' [[k p]|e]]; [|by destruct e].
    by destruct (use_handle op p).
  - apply op_local_take.
    + intros k p Hk. eapply (op_local_after a _ (put_interactive k _) (fun s => (log [] _ [] s, _))); [by apply local_put_key|].
      eapply op_local_state. apply local_same_log.
    + intros []; try apply op_local_ret. apply op_local_recorded.
Qed.
Lemma connect_local a sel : op_local a (connect_process_for (Some a) sel).
Proof.
  apply (op_local_ext a _ (fun s => match take_interactive_process (Some a) sel s with
    | (s, Ok (k, p)) => (fun k p s => (put_interactive k (connect_handle p).1 s, (connect_handle p).2)) k p s
    | (s, Err e) => (fun e => match e with
        | Runtime _ => fun s => (s, r ← require_recorded_process (Some a) sel s; Ok r.(pr_output))
        | e => fun s => (s, Err e) end) e s end)).
  - intros s. unfold connect_process_for. destruct (take_interactive_process (Some a) sel s) as [s' [[k p]|e]]; [|by destruct e].
    by destruct (connect_handle p).
  - apply op_local_take.
    + intros k p Hk. eapply op_local_state. by apply local_put_key.
    + intros []; try apply op_local_ret. apply op_local_recorded.
Qed.
Lemma run_process_op_local op a : op_local a (run_process_op op a).
Proof.
  unfold run_process_op. destruct op as [rq since|rq|rq since rep| |op elapsed sel|sel].
  - apply op_local_map, start_process_local.
  - apply op_local_map, start_stream_local.
  - unfold persist_command_stream_completion.
    apply (op_local_ext a _ (fun s => let '(s, _) := persist_command_start_report add_ms a rq since rep s in (s, ADone (Ok tt)))).
    + intros s. by destruct (persist_command_start_report _ _ _ _ _ _).
    + apply (op_local_map a (fun _ => ADone (Ok tt))), persist_local.
  - apply (op_local_reads a (fun l s => (s, AList ((fun p => p.2.(pr_info)) <$> merge_sort process_key_le (map_to_list l.1.2))))); [done|].
    intros l. apply op_local_ret.
  - apply op_local_map, handle_op_local.
  - apply op_local_map, connect_local.
Qed.

(** C16: whatever requests of other sandboxes come first, a process request of a
    sandbox gets the answer it would have got without them, and leaves its
    session, its process records and its interactive handles as it would have
    left them. *)
Theorem process_isolation (a : string) (op : process_op) (others : list (string * process_op)) s :
  Forall (fun x => x.1 <> a) others ->
  (run_process_op op a (run_process_ops others s)).2 = (run_process_op op a s).2 /\
  local (run_process_op op a (run_process_ops others s)).1 a = local (run_process_op op a s).1 a.
Proof.
  intros Ho. apply run_process_op_local. clear op. revert s. induction Ho as [|[b op'] l Hb _ IH]; intros s; [done|].
  unfold run_process_ops in *. cbn [foldl]. rewrite IH. apply run_process_op_local. cbn in *. congruence.
Qed.
End Isolation.

(** ** Handles and a stopped sandbox *)
Section Stopped.
Context {Sess : Type} `{RuntimeCommandRunner Sess}.
Context (add_ms : Z -> SampleValue -> SampleValue).
Implicit Types s : AdapterState Sess.
(** While a request uses a handle the table has none: a second request on the
    same process is told it is finite. *)
Lemma handle_in_use_looks_finite (a : string) (sel : EnvdProcessSelector) s k r p elapsed op :
  find_process (Some a) sel s.(a_processes) = Ok (k, r) -> s.(a_interactive) !! k = Some p ->
  (handle_op_for op elapsed (Some a) sel (take_interactive_process (Some a) sel s).1).2
  = Err (finite_process_error r.(pr_info).(pi_pid) (finite_detail op)).
Proof.
  intros Hf Hp. unfold take_interactive_process at 1. rewrite Hf, Hp. cbn [fst].
  unfold handle_op_for, take_interactive_process. cbn [a_processes a_interactive set_processes]. rewrite Hf, lookup_delete_eq.
  unfold require_recorded_process. cbn [a_processes set_processes]. by rewrite Hf.
Qed.
(** The completion of a command whose sandbox is gone puts a record back that
    nothing removes. *)
Lemma late_completion_records (a : string) rq since rep s :
  s.(a_active) !! a = None ->
  (persist_command_stream_completion add_ms a rq since rep s).(a_processes) !! (a, (cmd_output rep).(Envd.po_pid))
  = Some (mk_process_record (process_info (cmd_output rep).(Envd.po_pid) rq) (cmd_output rep)) /\
  (persist_command_stream_completion add_ms a rq since rep s).(a_active) !! a = None.
Proof.
  intros Ha. unfold persist_command_stream_completion, persist_command_start_report. rewrite Ha. cbn. by rewrite lookup_insert_eq.
Qed.
End Stopped.

(** ** Two sandboxes with the same pid *)
Module ProcessDemo.
#[export] Instance demo_command : RuntimeCommandRunner unit := fun rq _ x =>
  (x, Ok (mk_command_report (mk_process_output 7 [104] [] [] 0 true "exited" None) [] [])).
Definition counter_process : InteractiveProcess := {|
  ip_state := nat; ip_value := 0%nat;
  ip_send_input _ n := (S n, Ok tt); ip_close_stdin n := (n, Ok tt); ip_signal _ n := (n, Ok tt);
  ip_update_pty _ n := (n, Ok tt); ip_connect n := (n, Ok (running_output (Z.of_nat n)))
|}.
#[export] Instance demo_interactive : RuntimeInteractiveProcessRunner unit := fun rq x =>
  (x, Ok (mk_interactive_start (running_output 7) [] counter_process None)).
#[export] Instance demo_stream : RuntimeCommandStreamRunner unit := fun rq _ x => (x, Ok (mk_stream_start 7 [])).
Definition demo_session (port : Z) : FirkinRuntimeSession unit :=
  mk_session tt (Restore.reservation_new Capacity.budget_zero) false None port (port + 1) false None None false.
Definition demo_two : AdapterState unit :=
  set_active {[ "sbx_firkin_1"%string := demo_session 4000; "sbx_firkin_2"%string := demo_session 4002 ]}
    (adapter_new (Capacity.ledger_new Capacity.demo_capacity)).
Definition cat_request : EnvdProcessStartRequest := mk_process_start "cat" [] [] None None (Some true) None.
Definition other_ops : list (string * process_op) :=
  [("sbx_firkin_2"%string, StartProcess cat_request 0); ("sbx_firkin_2"%string, Handle CloseStdin 1 (SelectPid 7))].
Definition cat_runs : AdapterState unit := (run_process_op (fun _ v => v) (StartProcess cat_request 0) "sbx_firkin_1" demo_two).1.
End ProcessDemo.
Import ProcessDemo.
Lemma process_isolation_witness :
  (run_process_op (fun _ v => v) (Handle (SendInput (InputStdin [1])) 5 (SelectPid 7)) "sbx_firkin_1"
     (run_process_ops (fun _ v => v) other_ops cat_runs)).2 = ADone (Ok tt).
Proof.
  rewrite (proj1 (process_isolation (fun _ v => v) "sbx_firkin_1" (Handle (SendInput (InputStdin [1])) 5 (SelectPid 7)) other_ops cat_runs
    ltac:(repeat constructor; discriminate))).
  vm_compute. reflexivity.
Defined.
