(* ===== verification/OciClient.v ===== *)
(** * Pulling images ([crates/oci/src/{client,bundle,descriptor,cache}.rs])

    Images are pulled into a cache of blobs, each under the path its digest
    names, and bundles, whose metadata name the blobs.  The client runs on the
    files of the host ([HostFs]), any call of which may fail; what a registry
    answers is a [Registry], what a directory listing yields a [CacheListing].
    SHA-256 and the JSON documents are parameters ([Sha256], [Serde]). *)
From S2P Require Import Prelude Ext4Writer BTree Types HostPaths HostFs OciReference Artifacts ArtifactFiles.

(** ** Platforms ([types/src/lib.rs]) and descriptors *)
Inductive Os := Linux.
Inductive Arch := Amd64 | Arm64 | Arm | Riscv64 | Ppc64le | S390x.
Record Platform := mk_platform { pf_os : Os; pf_arch : Arch; pf_variant : option string }.
#[global] Instance Os_eq_dec : EqDecision Os.
Proof. solve_decision. Defined.
#[global] Instance Arch_eq_dec : EqDecision Arch.
Proof. solve_decision. Defined.
#[global] Instance Platform_eq_dec : EqDecision Platform.
Proof. solve_decision. Defined.
Definition linux_amd64 : Platform := mk_platform Linux Amd64 None.
Definition linux_arm64 : Platform := mk_platform Linux Arm64 None.
Definition linux_arm64_v8 : Platform := mk_platform Linux Arm64 (Some "v8"%string).

Inductive ClientError :=
| UnsupportedLayerMediaType (media_type : string)
| NoMatchingManifest (target : Platform) (available : list Platform)
| RegistryError (reference reason : string)
| CacheError (operation path reason : string)
| JsonError (operation reason : string)
| DigestMismatch (path expected actual : string)
| InvalidDescriptor (digest reason : string)
| InvalidImageConfig (reason : string).
Definition cache_error (operation path : string) (e : host_error) : ClientError := CacheError operation path (host_message e).

Module MediaTypes.
Definition TAR : string := "application/vnd.oci.image.layer.v1.tar".
Definition TAR_GZIP : string := "application/vnd.oci.image.layer.v1.tar+gzip".
Definition TAR_ZSTD : string := "application/vnd.oci.image.layer.v1.tar+zstd".
Definition DOCKER_TAR_GZIP : string := "application/vnd.docker.image.rootfs.diff.tar.gzip".
Definition compression (media_type : string) : result ClientError LayerCompression :=
  if String.eqb media_type TAR then Ok CompressionNone
  else if String.eqb media_type TAR_GZIP || String.eqb media_type DOCKER_TAR_GZIP then Ok Gzip
  else if String.eqb media_type TAR_ZSTD then Ok Zstd
  else Err (UnsupportedLayerMediaType media_type).
End MediaTypes.
Record Descriptor := mk_descriptor {
  ds_media_type : string;
  ds_digest : string;
  ds_size : Z;
  ds_platform : option Platform
}.
Definition compatible (target : Platform) (p : Platform) : bool :=
  bool_decide (p.(pf_os) = target.(pf_os)) && bool_decide (p.(pf_arch) = target.(pf_arch))
  && (bool_decide (p.(pf_variant) = None) || bool_decide (target.(pf_variant) = None)).
Definition platform_is (f : Platform -> bool) (d : Descriptor) : bool :=
  match d.(ds_platform) with Some p => f p | None => false end.
Definition select_manifest (ds : list Descriptor) (target : Platform) : result ClientError Descriptor :=
  match List.find (platform_is (fun p => bool_decide (p = target))) ds with
  | Some exact => Ok exact
  | None =>
      ok_or (NoMatchingManifest target (omap ds_platform ds)) (List.find (platform_is (compatible target)) ds)
  end.

(** Entries of an index as the registry sends them. *)
Record RegistryPlatform := mk_registry_platform { rp_os : string; rp_architecture : string; rp_variant : option string }.
Record ImageIndexEntry := mk_index_entry {
  ie_media_type : string;
  ie_digest : string;
  ie_size : Z;
  ie_platform : option RegistryPlatform
}.
Definition arch_of (s : string) : option Arch :=
  if String.eqb s "amd64" then Some Amd64 else if String.eqb s "arm64" then Some Arm64
  else if String.eqb s "arm" then Some Arm else if String.eqb s "riscv64" then Some Riscv64
  else if String.eqb s "ppc64le" then Some Ppc64le else if String.eqb s "s390x" then Some S390x else None.
Definition platform_from_registry (p : RegistryPlatform) : option Platform :=
  if String.eqb p.(rp_os) "linux" then
    arch ← arch_of p.(rp_architecture); Some (mk_platform Linux arch p.(rp_variant))
  else None.
(** [u64::try_from] of an [i64]. *)
Definition unsigned (n : Z) : option Z := if 0 <=? n then Some n else None.
Definition descriptor_from_index_entry (e : ImageIndexEntry) : option Descriptor :=
  size ← unsigned e.(ie_size);
  Some (mk_descriptor e.(ie_media_type) e.(ie_digest) size (e.(ie_platform) ≫= platform_from_registry)).

(** *** Digests *)
Definition is_ascii_hexdigit (c : ascii) : bool :=
  is_ascii_digit c || ((97 <=? code c) && (code c <=? 102)) || ((65 <=? code c) && (code c <=? 70)).
Definition split_digest_path (digest : string) : string * string :=
  default ("unknown"%string, digest) (split_once ":" digest).
Definition digest_string (digest : string) : result ClientError string :=
  let '(algorithm, value) := split_digest_path digest in
  if negb (String.eqb algorithm "sha256") then
    Err (InvalidDescriptor digest "only sha256 descriptors are supported")
  else if negb (len value =? 64) || negb (all_bytes is_ascii_hexdigit value) then
    Err (InvalidDescriptor digest "sha256 digest must contain 64 hexadecimal characters")
  else Ok digest.

(** ** Layers and bundles *)
Record Layer := mk_layer {
  ly_path : string;
  ly_digest : string;
  ly_uncompressed_digest : string;
  ly_size : Z;
  ly_media_type : string;
  ly_compression : LayerCompression
}.
Definition layer_new (path digest uncompressed : string) (size : Z) (media_type : string) : result ClientError Layer :=
  c ← MediaTypes.compression media_type; Ok (mk_layer path digest uncompressed size media_type c).
Record ImageConfig := mk_image_config {
  ic_user : option string;
  ic_env : option (list string);
  ic_entrypoint : option (list string);
  ic_cmd : option (list string);
  ic_working_dir : option string;
  ic_labels : option (list (string * string));
  ic_stop_signal : option string
}.
Definition image_config_default : ImageConfig := mk_image_config None None None None None None None.
Definition command_args (c : ImageConfig) : list string := default [] c.(ic_entrypoint) ++ default [] c.(ic_cmd).
Record ImageBundle := mk_image_bundle {
  ib_root : string;
  ib_reference : Reference;
  ib_digest : string;
  ib_platform : Platform;
  ib_config : ImageConfig;
  ib_layers : list Layer
}.
Definition total_size (b : ImageBundle) : Z := foldl (fun t l => sat_add 64 t l.(ly_size)) 0 b.(ib_layers).
Record LayerMetadata := mk_layer_metadata {
  lm_digest : string;
  lm_uncompressed_digest : string;
  lm_size : Z;
  lm_media_type : string
}.
Record BundleMetadata := mk_bundle_metadata {
  bm_reference : string;
  bm_digest : string;
  bm_platform : Platform;
  bm_config : ImageConfig;
  bm_layers : list LayerMetadata
}.
(** What the client reads of an image configuration and of a manifest. *)
Record Image := mk_image { im_config : option ImageConfig; im_diff_ids : list string }.
Record OciDescriptor := mk_oci_descriptor { od_media_type : string; od_digest : string; od_size : Z }.
Record OciImageManifest := mk_oci_manifest { om_config : OciDescriptor; om_layers : list OciDescriptor }.
Inductive OciManifest := ManifestImage (m : OciImageManifest) | ManifestIndex (entries : list ImageIndexEntry).
Definition layer_from_descriptor (path : string) (d : OciDescriptor) (diff_id : string) : result ClientError Layer :=
  size ← ok_or (InvalidDescriptor d.(od_digest) "descriptor size is negative") (unsigned d.(od_size));
  layer_new path d.(od_digest) diff_id size d.(od_media_type).
Definition layer_metadata (l : Layer) : LayerMetadata :=
  mk_layer_metadata l.(ly_digest) l.(ly_uncompressed_digest) l.(ly_size) l.(ly_media_type).

(** ** References of the registry *)
Inductive RegistryReference :=
| RefTagDigest (registry repository tag digest : string)
| RefTag (registry repository tag : string)
| RefDigest (registry repository digest : string).
Definition registry_reference (r : Reference) : RegistryReference :=
  match r.(tag), r.(digest) with
  | Some t, Some d => RefTagDigest r.(registry) r.(namespace) t d
  | Some t, None => RefTag r.(registry) r.(namespace) t
  | None, Some d => RefDigest r.(registry) r.(namespace) d
  | None, None => RefTag r.(registry) r.(namespace) "latest"
  end.
(** The answers of a registry; a blob arrives as bytes, perhaps cut short by an
    error. *)
Record Registry := mk_registry {
  rg_text : RegistryReference -> string;
  rg_clone_with_digest : RegistryReference -> string -> RegistryReference;
  rg_manifest : RegistryReference -> result string (OciManifest * string);
  rg_image_manifest : RegistryReference -> result string (OciImageManifest * string);
  rg_blob : RegistryReference -> OciDescriptor -> list Z * result string unit
}.
Record DirEntry := mk_dir_entry { de_path : string; de_is_dir : result host_error bool }.
Record CacheListing := mk_listing {
  cl_bundles_exist : bool;
  cl_entries : string -> result host_error (list (result host_error DirEntry))
}.

(** ** The cache directory *)
Record CacheEnv := mk_cache_env {
  ce_FIRKIN_CACHE : option string;
  ce_XDG_CACHE_HOME : option string;
  ce_HOME : option string;
  ce_temp_dir : string
}.
(** [Path::join]: an absolute path replaces. *)
Definition path_push (d n : string) : string := if starts_with "/" n then n else path_join d n.
Definition default_cache_dir (env : CacheEnv) : string :=
  match env.(ce_FIRKIN_CACHE), env.(ce_XDG_CACHE_HOME), env.(ce_HOME) with
  | Some p, _, _ => path_push p "oci"
  | None, Some p, _ => path_push (path_push p "firkin") "oci"
  | None, None, Some p => path_push (path_push (path_push p ".cache") "firkin") "oci"
  | None, None, None => path_push (path_push env.(ce_temp_dir) "firkin") "oci"
  end.

(** ** The client *)
Record Client := mk_client { cn_platform : Platform; cn_cache_dir : string }.
Section Client.
Context `{Sha256, Serde BundleMetadata, Serde OciImageManifest, Serde Image}.
Context (c : Client) (rg : Registry) (ls : CacheListing).
Definition in_dir (kind digest : string) : string :=
  let '(algorithm, value) := split_digest_path digest in
  path_push (path_push (path_push c.(cn_cache_dir) kind) algorithm) value.
Definition blob_path (digest : string) : string := in_dir "blobs" digest.
Definition bundle_dir (digest : string) : string := in_dir "bundles" digest.
Definition content_digest (bytes : list Z) : string := "sha256:" +:+ hex_bytes (sha256_digest bytes).
(** [open], then [read] to the end. *)
Definition file_digest (p : string) : HM ClientError string :=
  _ ← stat_file (cache_error "open" p) p;
  bytes ← read_bytes (cache_error "read" p) p;
  mret (content_digest bytes).
Definition create_parents (p : string) : HM ClientError unit :=
  match path_parent p with
  | Some parent => create_dir_all (cache_error "create_dir_all" parent)
  | None => mret tt
  end.
Definition write_atomic (p : string) (bytes : list Z) : HM ClientError unit :=
  _ ← create_parents p;
  let tmp := with_extension p "partial" in
  _ ← write_contents (cache_error "write" tmp) tmp bytes;
  rename (cache_error "rename" p) tmp p.
Definition registry_error (rf : RegistryReference) (e : string) : ClientError := RegistryError (rg.(rg_text) rf) e.
Definition to_json {A} `{Serde A} (what : string) (a : A) : HM ClientError (list Z) :=
  hm_res (map_err (JsonError what) (serialize a)).
Definition of_json {A} `{Serde A} (what : string) (bytes : list Z) : HM ClientError A :=
  hm_res (map_err (JsonError what) (deserialize bytes)).

Definition pull_index_manifest (rf : RegistryReference) (entries : list ImageIndexEntry)
  : result ClientError (OciImageManifest * string) :=
  selected ← select_manifest (omap descriptor_from_index_entry entries) c.(cn_platform);
  let rf' := rg.(rg_clone_with_digest) rf selected.(ds_digest) in
  map_err (registry_error rf') (rg.(rg_image_manifest) rf').
Definition pull_manifest_for_platform (rf : RegistryReference) : result ClientError (OciImageManifest * string) :=
  '(m, digest) ← map_err (registry_error rf) (rg.(rg_manifest) rf);
  match m with
  | ManifestImage m => Ok (m, digest)
  | ManifestIndex entries => pull_index_manifest rf entries
  end.

Definition matches_digest (p digest : string) : HM ClientError bool :=
  present ← path_exists p;
  if (present : bool) then d ← file_digest p; mret (String.eqb d digest) else mret false.
(** [pull_blob] into the open file. *)
Definition pull_blob (rf : RegistryReference) (d : OciDescriptor) (tmp : string) : HM ClientError unit := fun w =>
  let '(bytes, r) := rg.(rg_blob) rf d in
  (mk_world (<[tmp := bytes]> w.(files)) w.(faults), map_err (registry_error rf) r).
Definition ensure_blob (rf : RegistryReference) (d : OciDescriptor) : HM ClientError string :=
  digest ← hm_res (digest_string d.(od_digest));
  let p := blob_path digest in
  present ← matches_digest p digest;
  if (present : bool) then mret p
  else
    _ ← create_parents p;
    let tmp := with_extension p "partial" in
    _ ← write_contents (cache_error "create" tmp) tmp [];
    _ ← pull_blob rf d tmp;
    _ ← call (cache_error "flush" tmp) Some;
    actual ← file_digest tmp;
    if String.eqb actual digest then _ ← rename (cache_error "rename" p) tmp p; mret p
    else fail (DigestMismatch tmp digest actual).

Fixpoint layers_from_metadata (ls : list LayerMetadata) : HM ClientError (option (list Layer)) :=
  match ls with
  | [] => mret (Some [])
  | l :: ls =>
      let p := blob_path l.(lm_digest) in
      ok ← matches_digest p l.(lm_digest);
      if (ok : bool) then
        layer ← hm_res (layer_new p l.(lm_digest) l.(lm_uncompressed_digest) l.(lm_size) l.(lm_media_type));
        rest ← layers_from_metadata ls;
        mret ((layer ::.) <$> rest)
      else mret None
  end.
Definition bundle_from_metadata (root : string) (rf : Reference) (digest : string) (m : BundleMetadata)
  : HM ClientError (option ImageBundle) :=
  layers ← layers_from_metadata m.(bm_layers);
  mret (mk_image_bundle root rf digest m.(bm_platform) m.(bm_config) <$> layers).
Definition read_metadata (p : string) : HM ClientError BundleMetadata :=
  bytes ← read_bytes (cache_error "read" p) p;
  of_json "parse bundle metadata" bytes.
Definition load_cached_bundle (rf : Reference) (digest : string) : HM ClientError (option ImageBundle) :=
  let root := bundle_dir digest in
  let p := path_push root "bundle.json" in
  present ← path_exists p;
  if (present : bool) then m ← read_metadata p; bundle_from_metadata root rf digest m else mret None.

(** One candidate of the search by reference. *)
Definition try_bundle (rf : Reference) (bundle_root : string) : HM ClientError (option ImageBundle) :=
  let p := path_push bundle_root "bundle.json" in
  present ← path_exists p;
  if (present : bool) then
    m ← read_metadata p;
    if negb (String.eqb m.(bm_reference) (canonical rf)) || negb (bool_decide (m.(bm_platform) = c.(cn_platform))) then mret None
    else bundle_from_metadata bundle_root rf m.(bm_digest) m
  else mret None.
(** The loop over a directory: the first result of [body] on a subdirectory. *)
Fixpoint first_in (dir : string) (entries : list (result host_error DirEntry)) (body : string -> HM ClientError (option ImageBundle))
  : HM ClientError (option ImageBundle) :=
  match entries with
  | [] => mret None
  | e :: entries =>
      entry ← hm_res (map_err (cache_error "read_dir" dir) e);
      is_dir ← hm_res (map_err (cache_error "file_type" entry.(de_path)) entry.(de_is_dir));
      found ← (if (is_dir : bool) then body entry.(de_path) else mret None);
      match found with Some b => mret (Some b) | None => first_in dir entries body end
  end.
Definition in_listing (dir : string) (body : string -> HM ClientError (option ImageBundle)) : HM ClientError (option ImageBundle) :=
  entries ← hm_res (map_err (cache_error "read_dir" dir) (ls.(cl_entries) dir));
  first_in dir entries body.
Definition load_cached_bundle_by_reference (rf : Reference) : HM ClientError (option ImageBundle) :=
  if ls.(cl_bundles_exist) then
    in_listing (path_push c.(cn_cache_dir) "bundles") (fun algorithm_dir => in_listing algorithm_dir (try_bundle rf))
  else mret None.

Fixpoint ensure_layers (rf : RegistryReference) (ds : list OciDescriptor) (diff_ids : list string) : HM ClientError (list Layer) :=
  match ds, diff_ids with
  | d :: ds, diff_id :: diff_ids =>
      p ← ensure_blob rf d;
      l ← hm_res (layer_from_descriptor p d diff_id);
      rest ← ensure_layers rf ds diff_ids;
      mret (l :: rest)
  | _, _ => mret []
  end.
Definition materialize_bundle (rf : Reference) (rrf : RegistryReference) (m : OciImageManifest) (digest : string)
  : HM ClientError ImageBundle :=
  let root := bundle_dir digest in
  _ ← create_dir_all (cache_error "create_dir_all" root);
  manifest_bytes ← to_json "serialize manifest" m;
  _ ← write_atomic (path_push root "manifest.json") manifest_bytes;
  config_path ← ensure_blob rrf m.(om_config);
  config_bytes ← read_bytes (cache_error "read" config_path) config_path;
  image ← of_json (A := Image) "parse image config" config_bytes;
  let config := default image_config_default image.(im_config) in
  _ ← write_atomic (path_push root "config.json") config_bytes;
  if negb (Nat.eqb (length image.(im_diff_ids)) (length m.(om_layers))) then
    fail (InvalidImageConfig "rootfs diff_id count does not match manifest layer count")
  else
    layers ← ensure_layers rrf m.(om_layers) image.(im_diff_ids);
    metadata_bytes ← to_json "serialize bundle metadata"
                       (mk_bundle_metadata (canonical rf) digest c.(cn_platform) config (layer_metadata <$> layers));
    _ ← write_atomic (path_push root "bundle.json") metadata_bytes;
    mret (mk_image_bundle root rf digest c.(cn_platform) config layers).
Definition pull (rf : Reference) : HM ClientError ImageBundle :=
  cached ← load_cached_bundle_by_reference rf;
  match cached with
  | Some b => mret b
  | None =>
      let rrf := registry_reference rf in
      '(m, digest) ← hm_res (pull_manifest_for_platform rrf);
      cached ← load_cached_bundle rf digest;
      match cached with
      | Some b => mret b
      | None => materialize_bundle rf rrf m digest
      end
  end.
End Client.

(** ** The paths of blobs *)
Definition valid_digest (d : string) : Prop :=
  exists v, d = "sha256:" +:+ v /\ len v = 64 /\ all_bytes is_ascii_hexdigit v = true.
Lemma digest_string_ok d d' : digest_string d = Ok d' <-> d' = d /\ valid_digest d.
Proof.
  unfold digest_string, split_digest_path, valid_digest. split.
  - destruct (split_once ":" d) as [[a v]|] eqn:E; cbn [from_option id].
    + destruct (String.eqb_spec a "sha256") as [->|]; cbn [negb]; [|done].
      destruct (len v =? 64) eqn:El; cbn [negb orb]; [|done].
      destruct (all_bytes is_ascii_hexdigit v) eqn:Ev; cbn [negb]; [|done]. intros [= ->].
      split; [done|]. exists v. apply split_once_sound in E as [-> _]. split_and!; [done|lia|done].
    + cbn. done.
  - intros [-> (v & -> & Hl & Hv)].
    change ("sha256:" +:+ v) with ("sha256" +:+ String ":" v). rewrite split_once_app by done. cbn [from_option id].
    rewrite Hl, Hv. done.
Qed.
Lemma hex_plain v c : all_bytes is_ascii_hexdigit v = true -> is_ascii_hexdigit c = false -> contains c v = false.
Proof. intros Hv Hc. by eapply all_bytes_no_byte. Qed.
(** The last component of a path has a dot. *)
Definition dotted (p : string) : bool := contains "." (split_dir p).2.
Lemma dotted_join dir n : contains "/" n = false -> contains "." n = true -> starts_with "/" n = false ->
  dotted (path_push dir n) = true.
Proof.
  intros Hn Hd Hs. unfold path_push, dotted. rewrite Hs. destruct (path_join_prefix dir n) as (d & Hp & -> & _).
  by rewrite split_dir_app.
Qed.
Lemma dotted_partial p : dotted p = true -> dotted (with_extension p "partial") = true.
Proof.
  intros Hd. unfold with_extension. destruct (path_file_name p) as [n|] eqn:E; [|done].
  apply file_name_sound in E as (Hne & Hp & Hn & _). unfold dotted. cbn [is_empty].
  rewrite <- (append_assoc (split_dir p).1). 
  assert (Hs : contains "/" ((split_name n).1) = false).
  { destruct (split_name_sound n Hne) as [_ E]. rewrite E in Hn. rewrite contains_app in Hn.
    by apply orb_false_iff in Hn as [? _]. }
  rewrite append_assoc, split_dir_app; [|done|by rewrite contains_app, Hs]. cbn [snd]. rewrite contains_app.
  by rewrite orb_true_r.
Qed.
Section Paths.
Context (c : Client).
Lemma blob_path_valid d : valid_digest d ->
  exists pre v, dir_prefix pre /\ d = "sha256:" +:+ v /\ blob_path c d = pre +:+ v /\ len v = 64 /\
    contains "/" v = false /\ contains "." v = false /\
    (forall v', contains "/" v' = false -> v' <> EmptyString -> blob_path c ("sha256:" +:+ v') = pre +:+ v').
Proof.
  intros (v & -> & Hl & Hv). unfold blob_path, in_dir.
  destruct (path_join_prefix (path_push (path_push (cn_cache_dir c) "blobs") "sha256") v) as (pre & Hp & E & Ej).
  assert (Hplain : forall v', contains "/" v' = false ->
    (let '(a, b) := split_digest_path ("sha256:" +:+ v') in path_push (path_push (path_push (cn_cache_dir c) "blobs") a) b) = pre +:+ v').
  { intros v' Hv'. unfold split_digest_path. change ("sha256:" +:+ v') with ("sha256" +:+ String ":" v').
    rewrite split_once_app by done. cbn [from_option id]. unfold path_push at 1.
    destruct v' as [|x v']; [by rewrite <- Ej|]. cbn [starts_with]. rewrite contains_cons in Hv'.
    apply orb_false_iff in Hv' as [-> _]. by rewrite Ej. }
  exists pre, v. split_and!; [done..| |done|by apply (hex_plain v)|by apply (hex_plain v)|auto].
  apply Hplain. by apply (hex_plain v).
Qed.
Lemma blob_undotted d : valid_digest d -> dotted (blob_path c d) = false.
Proof.
  intros (pre & v & Hp & _ & -> & _ & Hs & Hd & _)%blob_path_valid. unfold dotted. by rewrite split_dir_app.
Qed.
Lemma blob_partial_dotted d : valid_digest d -> dotted (with_extension (blob_path c d) "partial") = true.
Proof.
  intros (pre & v & Hp & _ & E & Hl & Hs & Hd & _)%blob_path_valid. rewrite E. unfold with_extension.
  destruct (file_name_app pre v Hp Hs) as [-> ->]; [unfold len in Hl; lia|]. unfold dotted. cbn [is_empty].
  assert (Hv : (split_name v).1 = v).
  { unfold split_name. destruct (String.eqb_spec v ".."); [done|]. by rewrite rsplit_once_no. }
  rewrite Hv, split_dir_app; [|done|by rewrite contains_app, Hs]. cbn [snd]. by rewrite contains_app, Hd.
Qed.
Lemma blob_path_inj d d' : valid_digest d -> valid_digest d' -> blob_path c d = blob_path c d' -> d = d'.
Proof.
  intros Hd Hd'. destruct (blob_path_valid _ Hd) as (pre & v & Hp & -> & -> & Hl & Hs & _ & Hj).
  destruct (blob_path_valid _ Hd') as (pre' & v' & _ & -> & _ & Hl' & Hs' & _).
  rewrite Hj; [|done|by intros ->]. by intros ->%append_inj_l.
Qed.
End Paths.

(** ** The cache holds what its names say *)
Section Verified.
Context `{Sha256, Serde BundleMetadata, Serde OciImageManifest, Serde Image}.
Context (c : Client) (rg : Registry) (ls : CacheListing).
Definition verified (m : Files) (d : string) : Prop :=
  exists bytes, m !! blob_path c d = Some bytes /\ content_digest bytes = d.
Definition cache_sound (m : Files) : Prop :=
  forall d bytes, valid_digest d -> m !! blob_path c d = Some bytes -> content_digest bytes = d.
(** Every blob stays as it is or becomes a verified one. *)
Definition careful {A} (m : HM ClientError A) : Prop := forall w d,
  valid_digest d -> (m w).1.(files) !! blob_path c d = w.(files) !! blob_path c d \/ verified (m w).1.(files) d.
Definition reads {A} (m : HM ClientError A) : Prop := forall w, (m w).1.(files) = w.(files).

Lemma reads_careful {A} (m : HM ClientError A) : reads m -> careful m.
Proof. intros Hm w d _. left. by rewrite Hm. Qed.
Lemma reads_bind {A B} (m : HM ClientError A) (k : A -> HM ClientError B) :
  reads m -> (forall a, reads (k a)) -> reads (x ← m; k x).
Proof. intros Hm Hk w. rewrite bind_hm. specialize (Hm w). destruct (m w) as [w' [a|e]]; [by rewrite Hk|done]. Qed.
Lemma careful_bind {A B} (m : HM ClientError A) (k : A -> HM ClientError B) :
  careful m -> (forall a, careful (k a)) -> careful (x ← m; k x).
Proof.
  intros Hm Hk w d Hd. rewrite bind_hm. specialize (Hm w d Hd). destruct (m w) as [w' [a|e]]; [|done]. cbn [fst] in *.
  destruct (Hk a w' d Hd) as [E|]; [|by right]. destruct Hm as [E'|(bytes & E' & Hb)]; [left; congruence|].
  right. exists bytes. by rewrite E.
Qed.
Lemma careful_leaves {A} (m : HM ClientError A) : (forall p, dotted p = false -> leaves p m) -> careful m.
Proof. intros Hm w d Hd. left. apply Hm. by apply blob_undotted. Qed.
Lemma verified_kept {A} (m : HM ClientError A) w d : careful m -> valid_digest d -> verified w.(files) d -> verified (m w).1.(files) d.
Proof. intros Hm Hd (bytes & E & Hb). destruct (Hm w d Hd) as [E'|]; [|done]. exists bytes. by rewrite E'. Qed.

Lemma reads_res {A} (r : result ClientError A) : reads (hm_res r).
Proof. done. Qed.
Lemma reads_ret {A} (a : A) : reads (mret a).
Proof. done. Qed.
Lemma reads_exists p : reads (path_exists p).
Proof. done. Qed.
Lemma reads_call op : reads (call op Some).
Proof. intros w. unfold call, call_leaving. by destruct (head (faults w)) as [[]|]. Qed.
Lemma reads_stat op p : reads (stat_file op p).
Proof.
  intros w. unfold stat_file, call, call_leaving. destruct (head (faults w)) as [[]|]; [done|..]; by destruct (files w !! p).
Qed.
Lemma reads_bytes op p : reads (read_bytes op p).
Proof. apply reads_bind; [|done]. intros w. unfold read_file. by destruct (head (faults w)) as [[]|]. Qed.
#[local] Hint Resolve reads_bind reads_res reads_ret reads_exists reads_call reads_stat reads_bytes : firkin.
Lemma reads_digest p : reads (file_digest p).
Proof. unfold file_digest. auto 6 with firkin. Qed.
Lemma reads_parents p : reads (create_parents p).
Proof. unfold create_parents. destruct (path_parent p); [apply reads_call|done]. Qed.
Lemma reads_matches p d : reads (matches_digest p d).
Proof. unfold matches_digest. apply reads_bind; [done|]. intros []; auto using reads_digest with firkin. Qed.

Lemma file_digest_ok p w w' d : file_digest p w = (w', Ok d) ->
  exists bytes, w.(files) !! p = Some bytes /\ content_digest bytes = d.
Proof.
  unfold file_digest. rewrite bind_hm. pose proof (reads_stat (cache_error "open" p) p w) as Hs.
  destruct (stat_file _ p w) as [w1 [[]|]]; [|done]. cbn [fst] in Hs. rewrite bind_hm. unfold read_bytes. rewrite bind_hm.
  unfold read_file. destruct (head (faults w1)) as [[]|]; cbn; [done|..];
    (rewrite Hs; destruct (files w !! p) as [bytes|]; cbn; [|done]; intros [= _ <-]; by exists bytes).
Qed.
Lemma matches_digest_ok p d w w' : matches_digest p d w = (w', Ok true) ->
  exists bytes, w.(files) !! p = Some bytes /\ content_digest bytes = d.
Proof.
  unfold matches_digest. rewrite bind_hm. cbn [path_exists]. destruct (bool_decide _); [|done]. rewrite bind_hm.
  destruct (file_digest p w) as [w1 [d'|]] eqn:E; [|done]. cbn. intros [= _ Ed%String.eqb_eq]. subst d'.
  by apply file_digest_ok in E.
Qed.
Lemma write_leaves op p q x : dotted q = true -> dotted p = false -> leaves p (write_contents (E:=ClientError) op q x).
Proof. intros Hq Hp. apply leaves_write. intros ->. congruence. Qed.
Lemma write_atomic_careful p bytes : dotted p = true -> careful (write_atomic p bytes).
Proof.
  intros Hp. unfold write_atomic. apply careful_bind; [by apply reads_careful, reads_parents|intros _].
  apply careful_leaves. intros q Hq. apply leaves_bind; [by apply write_leaves; [apply dotted_partial|]|intros _].
  apply leaves_rename; intros ->; [by rewrite dotted_partial in Hq|congruence].
Qed.
(** The last steps of a download: check the digest, then rename. *)
Definition finish_blob (d : string) : HM ClientError string :=
  let p := blob_path c d in
  let tmp := with_extension p "partial" in
  actual ← file_digest tmp;
  if String.eqb actual d then _ ← rename (cache_error "rename" p) tmp p; mret p else fail (DigestMismatch tmp d actual).
Lemma finish_blob_cases d w : valid_digest d ->
  (finish_blob d w).1.(files) = w.(files) /\ is_ok (finish_blob d w).2 = false \/
  exists bytes, content_digest bytes = d /\ (finish_blob d w).2 = Ok (blob_path c d) /\ (finish_blob d w).1.(files) = <[blob_path c d := bytes]> (delete (with_extension (blob_path c d) "partial") w.(files)).
Proof.
  intros Hd. unfold finish_blob. cbv zeta. set (p := blob_path c d). set (tmp := with_extension p "partial"). rewrite bind_hm.
  pose proof (reads_digest tmp w) as Hr. destruct (file_digest tmp w) as [w1 [actual|e]] eqn:E; [|by left]. cbn [fst] in Hr.
  destruct (String.eqb_spec actual d) as [->|]; [|by left]. apply file_digest_ok in E as (bytes & Eb & Hb).
  rewrite bind_hm. unfold rename, call, call_leaving.
  destruct (head (faults w1)) as [[]|]; [by left|..]; rewrite Hr, Eb; right; exists bytes; done.
Qed.
Lemma ensure_blob_unfold rf d w : ensure_blob c rg rf d w =
  match digest_string d.(od_digest) with
  | Err e => (w, Err e)
  | Ok digest =>
      (present ← matches_digest (blob_path c digest) digest;
       if (present : bool) then mret (blob_path c digest)
       else (_ ← create_parents (blob_path c digest);
             _ ← write_contents (cache_error "create" (with_extension (blob_path c digest) "partial"))
                   (with_extension (blob_path c digest) "partial") [];
             _ ← pull_blob rg rf d (with_extension (blob_path c digest) "partial");
             _ ← call (cache_error "flush" (with_extension (blob_path c digest) "partial")) Some;
             finish_blob digest)) w
  end.
Proof. unfold ensure_blob. rewrite bind_hm. cbn [hm_res]. by destruct (digest_string (od_digest d)). Qed.
Lemma finish_blob_careful d : valid_digest d -> careful (finish_blob d).
Proof.
  intros Hd w d' Hd'. destruct (finish_blob_cases d w Hd) as [[E _]|(bytes & Hb & _ & E)]; rewrite E; [by left|].
  destruct (decide (blob_path c d' = blob_path c d)) as [Ep|Hne].
  - right. apply blob_path_inj in Ep as ->; [|done..]. exists bytes. by rewrite lookup_insert_eq.
  - left. rewrite lookup_insert_ne by done. apply lookup_delete_ne. intros Et.
    pose proof (blob_undotted c d' Hd') as Hu. rewrite <- Et in Hu. by rewrite blob_partial_dotted in Hu.
Qed.
Lemma ensure_blob_careful rf d : careful (ensure_blob c rg rf d).
Proof.
  intros w d' Hd'. rewrite ensure_blob_unfold. destruct (digest_string (od_digest d)) as [dg|e] eqn:E; [|by left].
  apply digest_string_ok in E as [-> Hd]. pose proof (blob_partial_dotted c _ Hd) as Hdot. revert w d' Hd'.
  change (careful (present ← matches_digest (blob_path c (od_digest d)) (od_digest d);
       if (present : bool) then mret (blob_path c (od_digest d))
       else (_ ← create_parents (blob_path c (od_digest d));
             _ ← write_contents (cache_error "create" (with_extension (blob_path c (od_digest d)) "partial"))
                   (with_extension (blob_path c (od_digest d)) "partial") [];
             _ ← pull_blob rg rf d (with_extension (blob_path c (od_digest d)) "partial");
             _ ← call (cache_error "flush" (with_extension (blob_path c (od_digest d)) "partial")) Some;
             finish_blob (od_digest d)))).
  apply careful_bind; [apply reads_careful, reads_matches|intros []; [by apply reads_careful|]].
  apply careful_bind; [apply reads_careful, reads_parents|intros _].
  apply careful_bind; [apply careful_leaves; intros; by apply write_leaves|intros _].
  apply careful_bind; [|intros _; apply careful_bind; [apply reads_careful, reads_call|intros _; by apply finish_blob_careful]].
  apply careful_leaves. intros p Hp w. unfold pull_blob. destruct (rg_blob rg rf d). cbn. apply lookup_insert_ne.
  intros <-. congruence.
Qed.
Lemma hm_bind_ok {A B} (m : HM ClientError A) (k : A -> HM ClientError B) w w' b :
  (x ← m; k x) w = (w', Ok b) -> exists w1 a, m w = (w1, Ok a) /\ k a w1 = (w', Ok b).
Proof. rewrite bind_hm. destruct (m w) as [w1 [a|e]]; [|done]. intros E. by exists w1, a. Qed.
Lemma ensure_blob_ok rf d w w' p : ensure_blob c rg rf d w = (w', Ok p) ->
  p = blob_path c d.(od_digest) /\ valid_digest d.(od_digest) /\ verified w'.(files) d.(od_digest).
Proof.
  rewrite ensure_blob_unfold. destruct (digest_string (od_digest d)) as [dg|e] eqn:E; [|done].
  apply digest_string_ok in E as [-> Hd]. intros (w1 & [] & Em & Ek)%hm_bind_ok.
  - injection Ek as <- <-. split_and!; [done..|]. pose proof (reads_matches (blob_path c (od_digest d)) (od_digest d) w) as Hr.
    rewrite Em in Hr. cbn [fst] in Hr. rewrite Hr. by apply matches_digest_ok in Em.
  - apply hm_bind_ok in Ek as (w2 & [] & _ & Ek). apply hm_bind_ok in Ek as (w3 & [] & _ & Ek).
    apply hm_bind_ok in Ek as (w4 & [] & _ & Ek). apply hm_bind_ok in Ek as (w5 & [] & _ & Ek).
    destruct (finish_blob_cases (od_digest d) w5 Hd) as [[_ F]|(bytes & Hb & E1 & E2)]; rewrite Ek in *; [done|].
    injection E1 as ->. split_and!; [done..|]. exists bytes. cbn [fst] in E2. by rewrite E2, lookup_insert_eq.
Qed.

(** *** Layers *)
Definition layer_good (m : Files) (l : Layer) : Prop :=
  l.(ly_path) = blob_path c l.(ly_digest) /\ verified m l.(ly_digest) /\
  layer_new l.(ly_path) l.(ly_digest) l.(ly_uncompressed_digest) l.(ly_size) l.(ly_media_type) = Ok l.
Lemma layer_new_ok path digest unc size media l : layer_new path digest unc size media = Ok l ->
  l.(ly_path) = path /\ l.(ly_digest) = digest /\
  layer_new l.(ly_path) l.(ly_digest) l.(ly_uncompressed_digest) l.(ly_size) l.(ly_media_type) = Ok l.
Proof. unfold layer_new. destruct (MediaTypes.compression media) eqn:E; [|done]. intros [= <-]. cbn. by rewrite E. Qed.
Lemma layer_from_descriptor_ok path d diff l : layer_from_descriptor path d diff = Ok l ->
  l.(ly_path) = path /\ l.(ly_digest) = d.(od_digest) /\
  layer_new l.(ly_path) l.(ly_digest) l.(ly_uncompressed_digest) l.(ly_size) l.(ly_media_type) = Ok l.
Proof. unfold layer_from_descriptor. destruct (unsigned (od_size d)); [|done]. cbn. apply layer_new_ok. Qed.
Lemma layer_good_kept {A} (m : HM ClientError A) w l : careful m -> valid_digest l.(ly_digest) ->
  layer_good w.(files) l -> layer_good (m w).1.(files) l.
Proof. intros Hm Hd (Hp & Hv & Hn). split_and!; [done| |done]. by apply verified_kept. Qed.
Lemma ensure_layers_careful rf ds diffs : careful (ensure_layers c rg rf ds diffs).
Proof.
  revert diffs. induction ds as [|d ds IH]; intros [|diff diffs]; cbn [ensure_layers]; try (by apply reads_careful).
  apply careful_bind; [apply ensure_blob_careful|intros p]. apply careful_bind; [by apply reads_careful|intros l].
  apply careful_bind; [apply IH|intros rest; by apply reads_careful].
Qed.
Lemma ensure_layers_ok rf ds diffs w w' lys : ensure_layers c rg rf ds diffs w = (w', Ok lys) ->
  Forall (fun l => valid_digest l.(ly_digest) /\ layer_good w'.(files) l) lys.
Proof.
  revert diffs w w' lys. induction ds as [|d ds IH]; intros [|diff diffs] w w' lys; cbn [ensure_layers];
    try (intros [= _ <-]; constructor).
  intros (w1 & p & Eb & Ek)%hm_bind_ok. apply hm_bind_ok in Ek as (w2 & l & El & Ek). injection El as <- El.
  apply hm_bind_ok in Ek as (w3 & rest & Er & Ek). injection Ek as <- <-.
  apply ensure_blob_ok in Eb as (-> & Hd & Hv). apply layer_from_descriptor_ok in El as (Hp & Hdg & Hn).
  constructor; [|by apply (IH diffs w1)]. rewrite Hdg. split; [done|].
  pose proof (layer_good_kept (ensure_layers c rg rf ds diffs) w1 l) as Hk. rewrite Er in Hk. apply Hk.
  - apply ensure_layers_careful.
  - by rewrite Hdg.
  - split_and!; [by rewrite Hdg|by rewrite Hdg|done].
Qed.
Lemma reads_layers ms : reads (layers_from_metadata c ms).
Proof.
  induction ms as [|m ms IH]; cbn [layers_from_metadata]; [done|]. apply reads_bind; [apply reads_matches|].
  intros []; [|done]. apply reads_bind; [done|intros l]. by apply reads_bind.
Qed.
Lemma layers_from_metadata_ok ms w w' lys : layers_from_metadata c ms w = (w', Ok (Some lys)) ->
  Forall (layer_good w.(files)) lys.
Proof.
  revert w w' lys. induction ms as [|m ms IH]; intros w w' lys; cbn [layers_from_metadata]; [intros [= _ <-]; constructor|].
  intros (w1 & [] & Em & Ek)%hm_bind_ok; [|done].
  pose proof (reads_matches (blob_path c (lm_digest m)) (lm_digest m) w) as Hr. rewrite Em in Hr. cbn [fst] in Hr.
  apply hm_bind_ok in Ek as (w2 & l & El & Ek). injection El as <- El.
  apply hm_bind_ok in Ek as (w3 & rest & Er & Ek). injection Ek as <- Ek. destruct rest as [rest|]; [|done]. injection Ek as <-.
  constructor; [|rewrite <- Hr; by apply (IH w1 w3)]. apply layer_new_ok in El as (Hp & Hdg & Hn).
  split_and!; [by rewrite Hp, Hdg| |done]. rewrite Hdg. by apply matches_digest_ok in Em.
Qed.

(** *** Bundles *)
Lemma reads_metadata p : reads (read_metadata p).
Proof. apply reads_bind; [apply reads_bytes|done]. Qed.
Lemma reads_from_metadata root rf dg m : reads (bundle_from_metadata c root rf dg m).
Proof. apply reads_bind; [apply reads_layers|done]. Qed.
Lemma from_metadata_ok root rf dg m w w' b : bundle_from_metadata c root rf dg m w = (w', Ok (Some b)) ->
  Forall (layer_good w'.(files)) b.(ib_layers).
Proof.
  intros E. pose proof (reads_from_metadata root rf dg m w) as Hr. rewrite E in Hr. cbn [fst] in Hr. rewrite Hr.
  apply hm_bind_ok in E as (w1 & [lys|] & El & Ek); [|done]. injection Ek as <- <-. by apply layers_from_metadata_ok in El.
Qed.
(** A lookup in the cache: reads only, and what it finds is verified. *)
Definition lookup_good (m : HM ClientError (option ImageBundle)) : Prop :=
  reads m /\ forall w w' b, m w = (w', Ok (Some b)) -> Forall (layer_good w'.(files)) b.(ib_layers).
Lemma load_cached_good rf dg : lookup_good (load_cached_bundle c rf dg).
Proof.
  unfold load_cached_bundle. split.
  - apply reads_bind; [done|]. intros []; [|done]. apply reads_bind; [apply reads_metadata|]. intros; apply reads_from_metadata.
  - intros w w' b (w1 & [] & _ & Ek)%hm_bind_ok; [|done]. apply hm_bind_ok in Ek as (w2 & m & _ & Ek). by apply from_metadata_ok in Ek.
Qed.
Lemma try_bundle_good rf root : lookup_good (try_bundle c rf root).
Proof.
  unfold try_bundle. split.
  - apply reads_bind; [done|]. intros []; [|done]. apply reads_bind; [apply reads_metadata|]. intros m.
    case_match; [done|]. apply reads_from_metadata.
  - intros w w' b (w1 & [] & _ & Ek)%hm_bind_ok; [|done]. apply hm_bind_ok in Ek as (w2 & m & _ & Ek).
    case_match; [done|]. by apply from_metadata_ok in Ek.
Qed.
Lemma first_in_good dir entries body : (forall p, lookup_good (body p)) -> lookup_good (first_in dir entries body).
Proof.
  intros Hb. induction entries as [|e entries [IH1 IH2]]; cbn [first_in]; [by split|]. split.
  - apply reads_bind; [done|intros entry]. apply reads_bind; [done|intros is_dir]. apply reads_bind.
    + destruct is_dir; [apply Hb|done].
    + intros [b|]; [done|apply IH1].
  - intros w w' b (w1 & entry & E1 & Ek)%hm_bind_ok. apply hm_bind_ok in Ek as (w2 & is_dir & _ & Ek).
    apply hm_bind_ok in Ek as (w3 & [b'|] & Ef & Ek); [|by apply (IH2 w3)]. injection Ek as <- <-.
    destruct is_dir; [|done]. by apply Hb in Ef.
Qed.
Lemma in_listing_good dir body : (forall p, lookup_good (body p)) -> lookup_good (in_listing ls dir body).
Proof.
  intros Hb. unfold in_listing. split.
  - apply reads_bind; [done|]. intros. by apply first_in_good.
  - intros w w' b (w1 & es & _ & Ek)%hm_bind_ok. by apply first_in_good in Ek.
Qed.
Lemma by_reference_good rf : lookup_good (load_cached_bundle_by_reference c ls rf).
Proof.
  unfold load_cached_bundle_by_reference. destruct (cl_bundles_exist ls); [|by split].
  apply in_listing_good. intros p. apply in_listing_good. intros q. apply try_bundle_good.
Qed.
Lemma materialize_careful rf rrf m dg : careful (materialize_bundle c rg rf rrf m dg).
Proof.
  unfold materialize_bundle. apply careful_bind; [apply reads_careful, reads_call|intros _].
  apply careful_bind; [by apply reads_careful|intros mb]. apply careful_bind; [by apply write_atomic_careful, dotted_join|intros _].
  apply careful_bind; [apply ensure_blob_careful|intros cp]. apply careful_bind; [apply reads_careful, reads_bytes|intros cb].
  apply careful_bind; [by apply reads_careful|intros im]. cbv zeta.
  apply careful_bind; [by apply write_atomic_careful, dotted_join|intros _]. case_match; [by apply reads_careful|].
  apply careful_bind; [apply ensure_layers_careful|intros lys]. apply careful_bind; [by apply reads_careful|intros bb].
  apply careful_bind; [by apply write_atomic_careful, dotted_join|intros _]. by apply reads_careful.
Qed.
Lemma materialize_ok rf rrf m dg w w' b : materialize_bundle c rg rf rrf m dg w = (w', Ok b) ->
  Forall (fun l => valid_digest l.(ly_digest) /\ layer_good w'.(files) l) b.(ib_layers) /\
  b.(ib_root) = bundle_dir c dg /\ b.(ib_reference) = rf /\ b.(ib_digest) = dg /\
  exists bytes, serialize (mk_bundle_metadata (canonical rf) dg b.(ib_platform) b.(ib_config) (layer_metadata <$> b.(ib_layers))) = Ok bytes /\
    w'.(files) !! path_push (bundle_dir c dg) "bundle.json" = Some bytes.
Proof.
  unfold materialize_bundle. intros (w1 & [] & _ & Ek)%hm_bind_ok. apply hm_bind_ok in Ek as (w2 & mb & _ & Ek).
  apply hm_bind_ok in Ek as (w3 & [] & _ & Ek). apply hm_bind_ok in Ek as (w4 & cp & _ & Ek).
  apply hm_bind_ok in Ek as (w5 & cb & _ & Ek). apply hm_bind_ok in Ek as (w6 & im & _ & Ek).
  apply hm_bind_ok in Ek as (w7 & [] & _ & Ek). case_match; [done|].
  apply hm_bind_ok in Ek as (w8 & lys & El & Ek). apply hm_bind_ok in Ek as (w9 & bb & Ej & Ek). injection Ej as <- Ej.
  apply hm_bind_ok in Ek as (w10 & [] & Ew & Ek). injection Ek as <- <-. cbn [ib_layers ib_root ib_reference ib_digest ib_platform ib_config].
  split_and!; [|done..|].
  - apply ensure_layers_ok in El. eapply Forall_impl; [exact El|]. intros l [Hd Hl]. split; [done|].
    pose proof (layer_good_kept (write_atomic (path_push (bundle_dir c dg) "bundle.json") bb) w8 l) as Hk.
    rewrite Ew in Hk. apply Hk; [by apply write_atomic_careful, dotted_join|done..].
  - exists bb. split; [by destruct (serialize _); [injection Ej as ->|]|]. clear -Ew.
    unfold write_atomic in Ew. apply hm_bind_ok in Ew as (w1 & [] & _ & Ew). apply hm_bind_ok in Ew as (w2 & [] & Ewr & Ew).
    unfold write_contents, call_leaving in Ewr. unfold rename, call, call_leaving in Ew.
    destruct (head (faults w1)) as [[]|]; [done|..]; injection Ewr as <-; cbn [files faults] in Ew;
      (rewrite lookup_insert_eq in Ew; cbn in Ew; destruct (head (tail (faults w1))) as [[]|]; [done|..]; injection Ew as <-; cbn;
       apply lookup_insert_eq).
Qed.
Lemma pull_careful rf : careful (pull c rg ls rf).
Proof.
  unfold pull. apply careful_bind; [apply reads_careful, by_reference_good|]. intros [b|]; [by apply reads_careful|].
  apply careful_bind; [by apply reads_careful|intros [m dg]]. apply careful_bind; [apply reads_careful, load_cached_good|].
  intros [b|]; [by apply reads_careful|apply materialize_careful].
Qed.

(** C15: whatever the registry sends and whatever call fails, every layer of a
    bundle that [pull] returns is the file its digest names and has that
    SHA-256; and a pull, successful or not, leaves a cache whose blobs all match
    their names in that state. *)
Theorem pulled_layers_verified (rf : Reference) (w : World) :
  (forall b, (pull c rg ls rf w).2 = Ok b ->
     Forall (fun l => l.(ly_path) = blob_path c l.(ly_digest) /\
       exists bytes, (pull c rg ls rf w).1.(files) !! l.(ly_path) = Some bytes /\ content_digest bytes = l.(ly_digest)) b.(ib_layers)) /\
  (cache_sound w.(files) -> cache_sound (pull c rg ls rf w).1.(files)).
Proof.
  split.
  - intros b Eb. destruct (pull c rg ls rf w) as [w' r] eqn:E. cbn [fst snd] in *. subst r.
    assert (Hg : Forall (layer_good w'.(files)) b.(ib_layers)).
    { unfold pull in E. apply hm_bind_ok in E as (w1 & [b1|] & E1 & Ek).
      { injection Ek as <- <-. by apply by_reference_good in E1. }
      apply hm_bind_ok in Ek as (w2 & [m dg] & _ & Ek). apply hm_bind_ok in Ek as (w3 & [b1|] & E3 & Ek).
      { injection Ek as <- <-. by apply load_cached_good in E3. }
      apply materialize_ok in Ek as [Hl _]. eapply Forall_impl; [exact Hl|]. by intros l [_ ?]. }
    eapply Forall_impl; [exact Hg|]. intros l (Hp & (bytes & Eb & Hb) & _). split; [done|]. exists bytes. by rewrite Hp.
  - intros Hs d bytes Hd Hbytes. destruct (pull_careful rf w d Hd) as [E|(bytes' & E & Hb)].
    + rewrite E in Hbytes. by apply Hs.
    + congruence.
Qed.

(** One metadata file that does not parse fails every pull. *)
Lemma corrupt_metadata_fails_pulls rf m alg root rest rest' bytes e :
  ls.(cl_bundles_exist) = true ->
  ls.(cl_entries) (path_push c.(cn_cache_dir) "bundles") = Ok (Ok (mk_dir_entry alg (Ok true)) :: rest) ->
  ls.(cl_entries) alg = Ok (Ok (mk_dir_entry root (Ok true)) :: rest') ->
  m !! path_push root "bundle.json" = Some bytes -> deserialize (A := BundleMetadata) bytes = Err e ->
  (pull c rg ls rf (mk_world m [])).2 = Err (JsonError "parse bundle metadata" e).
Proof.
  intros Hb H1' H2' Hm He. unfold pull, load_cached_bundle_by_reference. rewrite bind_hm, Hb. unfold in_listing at 1.
  rewrite bind_hm, H1'. cbn [hm_res map_err first_in]. rewrite !bind_hm. cbn [hm_res map_err]. rewrite bind_hm. cbn [hm_res map_err de_is_dir de_path].
  rewrite bind_hm. unfold in_listing. rewrite bind_hm, H2'. cbn [hm_res map_err first_in]. rewrite !bind_hm. cbn [hm_res map_err].
  rewrite bind_hm. cbn [hm_res map_err de_is_dir de_path]. rewrite bind_hm. unfold try_bundle, path_exists. rewrite bind_hm. cbn [files].
  rewrite Hm. change (bool_decide (is_Some (Some bytes))) with true. cbv iota. rewrite bind_hm. unfold read_metadata, read_bytes.
  rewrite !bind_hm. cbn [read_file head faults files tail]. rewrite Hm. cbn [hm_res map_err]. unfold of_json. by rewrite He.
Qed.
(** A blob named by capital hexadecimal digits passes the check of the name but
    matches no contents. *)
Lemma capital_digest_unreachable d v : d = "sha256:" +:+ v -> existsb (fun x => (65 <=? code x) && (code x <=? 70)) (bytes v) = true ->
  (forall bs, Forall (in_uint 8) (sha256_digest bs)) -> forall bs, content_digest bs <> d.
Proof.
  intros -> Hv Hs bs E. unfold content_digest in E. apply append_inj_l in E. subst v. specialize (Hs bs). revert Hv Hs.
  induction (sha256_digest bs) as [|b l IH]; cbn [hex_bytes foldr]; [done|]. intros Hv [Hb Hl]%Forall_cons. revert Hv.
  change (existsb (fun x => (65 <=? code x) && (code x <=? 70))
    (lower_hex (b / 16) :: lower_hex (b mod 16) :: bytes (hex_bytes l)) = true -> False). cbn [existsb].
  assert (Hn : forall n, 0 <= n < 16 -> (65 <=? code (lower_hex n)) && (code (lower_hex n) <=? 70) = false).
  { assert (Hall : Forall (fun k => (65 <=? code (lower_hex (Z.of_nat k))) && (code (lower_hex (Z.of_nat k)) <=? 70) = false) (seq 0 16))
      by (apply (bool_decide_unpack _); vm_compute; exact I).
    intros n Hn. rewrite Forall_forall in Hall. specialize (Hall (Z.to_nat n)). rewrite Z2Nat.id in Hall by lia. apply Hall, elem_of_seq. lia. }
  unfold in_uint in Hb. rewrite !Hn by (split; [apply Z.div_pos || apply Z.mod_pos_bound|apply Z.div_lt_upper_bound || apply Z.mod_pos_bound]; lia).
  cbn [orb]. intros Hv. by apply IH.
Qed.

Context `{!SerdeRoundtrip BundleMetadata}.
Lemma layers_reload m lys : Forall (layer_good m) lys ->
  layers_from_metadata c (layer_metadata <$> lys) (mk_world m []) = (mk_world m [], Ok (Some lys)).
Proof.
  induction 1 as [|l lys (Hp & (bytes & Eb & Hb) & Hn) _ IH]; [done|]. cbn [fmap list_fmap layers_from_metadata layer_metadata lm_digest].
  assert (Hm : matches_digest (blob_path c (ly_digest l)) (ly_digest l) (mk_world m []) = (mk_world m [], Ok true)).
  { unfold matches_digest, path_exists. rewrite bind_hm. cbn [files]. rewrite Eb. change (bool_decide (is_Some (Some bytes))) with true.
    cbv iota. unfold file_digest. rewrite !bind_hm. rewrite (stat_ok _ _ _ _ Eb). rewrite bind_hm. unfold read_bytes. rewrite bind_hm.
    cbn [read_file head faults files tail]. rewrite Eb. cbn. by rewrite Hb, String.eqb_refl. }
  rewrite bind_hm, Hm, bind_hm. cbn [layer_metadata lm_uncompressed_digest lm_size lm_media_type]. rewrite <- Hp, Hn. cbn [hm_res].
  rewrite bind_hm. by rewrite IH.
Qed.
(** The bundle that a pull puts into the cache is the one a later lookup by
    its digest finds there. *)
Theorem bundle_roundtrip (rf : Reference) (rrf : RegistryReference) (m : OciImageManifest) (dg : string) w w' b :
  materialize_bundle c rg rf rrf m dg w = (w', Ok b) ->
  load_cached_bundle c rf dg (mk_world w'.(files) []) = (mk_world w'.(files) [], Ok (Some b)).
Proof.
  intros (Hl & Hroot & Hrf & Hdg & bytes & Es & Eb)%materialize_ok.
  destruct (serde_roundtrip (mk_bundle_metadata (canonical rf) dg b.(ib_platform) b.(ib_config) (layer_metadata <$> b.(ib_layers))))
    as (d & Es' & Ed). rewrite Es in Es'. injection Es' as <-.
  assert (Hr : read_metadata (path_push (bundle_dir c dg) "bundle.json") (mk_world w'.(files) []) = (mk_world w'.(files) [],
    Ok (mk_bundle_metadata (canonical rf) dg b.(ib_platform) b.(ib_config) (layer_metadata <$> b.(ib_layers))))).
  { unfold read_metadata, read_bytes. rewrite !bind_hm. cbn [read_file head faults files tail]. rewrite Eb. cbn [hm_res map_err].
    unfold of_json. by rewrite Ed. }
  unfold load_cached_bundle, path_exists. rewrite bind_hm. cbn [files]. rewrite Eb. change (bool_decide (is_Some (Some bytes))) with true.
  cbv iota. rewrite bind_hm, Hr. unfold bundle_from_metadata. rewrite bind_hm. cbn [bm_layers].
  rewrite layers_reload by (eapply Forall_impl; [exact Hl|]; by intros l [_ ?]). cbn. destruct b as [root rf' dg' pf cf lys]. cbn in *. by subst.
Qed.
End Verified.

(** ** A pull *)
Module OciDemo.
#[export] Instance demo_sha : Sha256 := fun l => replicate 32 (fold_right Z.add 0 l mod 256).
#[export] Instance LayerMetadata_eq_dec : EqDecision LayerMetadata.
Proof. solve_decision. Defined.
#[export] Instance ImageConfig_eq_dec : EqDecision ImageConfig.
Proof. solve_decision. Defined.
#[export] Instance BundleMetadata_eq_dec : EqDecision BundleMetadata.
Proof. solve_decision. Defined.
#[export] Instance Os_countable : Countable Os := inj_countable' (fun _ => tt) (fun _ => Linux) ltac:(by intros []).
#[export] Instance Arch_countable : Countable Arch :=
  inj_countable' (fun a => match a with Amd64 => 0 | Arm64 => 1 | Arm => 2 | Riscv64 => 3 | Ppc64le => 4 | S390x => 5 end)
    (fun n => if n =? 0 then Amd64 else if n =? 1 then Arm64 else if n =? 2 then Arm else if n =? 3 then Riscv64
              else if n =? 4 then Ppc64le else S390x) ltac:(by intros []).
#[export] Instance Platform_countable : Countable Platform :=
  inj_countable' (fun p => (pf_os p, pf_arch p, pf_variant p)) (fun x => mk_platform x.1.1 x.1.2 x.2) ltac:(by intros []).
#[export] Instance LayerMetadata_countable : Countable LayerMetadata :=
  inj_countable' (fun l => (lm_digest l, lm_uncompressed_digest l, lm_size l, lm_media_type l))
    (fun x => mk_layer_metadata x.1.1.1 x.1.1.2 x.1.2 x.2) ltac:(by intros []).
#[export] Instance ImageConfig_countable : Countable ImageConfig :=
  inj_countable' (fun i => (ic_user i, ic_env i, ic_entrypoint i, ic_cmd i, ic_working_dir i, ic_labels i, ic_stop_signal i))
    (fun x => mk_image_config x.1.1.1.1.1.1 x.1.1.1.1.1.2 x.1.1.1.1.2 x.1.1.1.2 x.1.1.2 x.1.2 x.2) ltac:(by intros []).
#[export] Instance BundleMetadata_countable : Countable BundleMetadata :=
  inj_countable' (fun b => (bm_reference b, bm_digest b, bm_platform b, bm_config b, bm_layers b))
    (fun x => mk_bundle_metadata x.1.1.1.1 x.1.1.1.2 x.1.1.2 x.1.2 x.2) ltac:(by intros []).
#[export] Instance metadata_serde : Serde BundleMetadata := {|
  serialize m := Ok [Z.pos (encode m)];
  deserialize l := match l with [Zpos p] => ok_or "decode"%string (decode p) | _ => Err "shape"%string end
|}.
#[export] Instance metadata_roundtrip : SerdeRoundtrip BundleMetadata.
Proof. intros m. eexists. split; [done|]. cbn. by rewrite decode_encode. Qed.
#[export] Instance manifest_serde : Serde OciImageManifest := {| serialize _ := Ok []; deserialize _ := Err "unused"%string |}.
#[export] Instance image_serde : Serde Image := {|
  serialize _ := Ok []; deserialize _ := Ok (mk_image None ["sha256:diff"%string]) |}.
Definition layer_bytes : list Z := [1; 2; 3].
Definition config_bytes : list Z := [9].
Definition demo_manifest : OciImageManifest :=
  mk_oci_manifest (mk_oci_descriptor "config" (content_digest config_bytes) 1)
    [mk_oci_descriptor MediaTypes.TAR_GZIP (content_digest layer_bytes) 3].
Definition demo_registry : Registry := {|
  rg_text _ := "registry"%string;
  rg_clone_with_digest r _ := r;
  rg_manifest _ := Ok (ManifestImage demo_manifest, "sha256:m"%string);
  rg_image_manifest _ := Err "none"%string;
  rg_blob _ d := if String.eqb d.(od_digest) (content_digest layer_bytes) then (layer_bytes, Ok tt) else (config_bytes, Ok tt)
|}.
Definition demo_client : Client := mk_client linux_arm64 "/cache".
Definition demo_listing : CacheListing := mk_listing false (fun _ => Ok []).
Definition demo_reference : Reference := mk_reference "docker.io" "library/alpine" "alpine" (Some "latest"%string) None.
Definition demo_pull : World * result ClientError ImageBundle := pull demo_client demo_registry demo_listing demo_reference (mk_world ∅ []).
Definition demo_bundle : ImageBundle :=
  match demo_pull.2 with Ok b => b | Err _ => mk_image_bundle "" demo_reference "" linux_arm64 image_config_default [] end.
Definition demo_materialize : World * result ClientError ImageBundle :=
  materialize_bundle demo_client demo_registry demo_reference (registry_reference demo_reference) demo_manifest "sha256:m" (mk_world ∅ []).
End OciDemo.
Import OciDemo.
Lemma pulled_layers_verified_witness :
  Forall (fun l => l.(ly_path) = blob_path demo_client l.(ly_digest) /\
    exists bytes, demo_pull.1.(files) !! l.(ly_path) = Some bytes /\ content_digest bytes = l.(ly_digest)) demo_bundle.(ib_layers) /\
  demo_bundle.(ib_layers) <> [] /\ cache_sound demo_client demo_pull.1.(files).
Proof.
  split_and!.
  - apply (proj1 (pulled_layers_verified demo_client demo_registry demo_listing demo_reference (mk_world ∅ []))). vm_compute. reflexivity.
  - vm_compute. discriminate.
  - apply (proj2 (pulled_layers_verified demo_client demo_registry demo_listing demo_reference (mk_world ∅ []))). intros d bytes _ E. cbn in E.
    by rewrite lookup_empty in E.
Defined.
Lemma bundle_roundtrip_witness :
  load_cached_bundle demo_client demo_reference "sha256:m" (mk_world demo_materialize.1.(files) []) =
  (mk_world demo_materialize.1.(files) [], Ok (Some demo_bundle)).
Proof.
  apply (bundle_roundtrip demo_client demo_registry demo_reference (registry_reference demo_reference) demo_manifest "sha256:m"
    (mk_world ∅ []) demo_materialize.1 demo_bundle).
  vm_compute. reflexivity.
Defined.
