(* ===== verification/ContainerSpec.v ===== *)
(** * The runtime specification of a container
      ([crates/oci/src/runtime_spec.rs]; [crates/core/src/{process,io,ids,
       rootfs,builder}.rs]; [crates/vminitd-client/src/bundle.rs])

    What a container builder collects and the OCI specification it turns into:
    arguments, environment, user, capabilities, limits and mounts, the latter
    normalized and ordered.  Strings of the operating system ([OsString],
    [PathBuf]) are byte strings; what must be text is checked by [is_utf8]. *)
From S2P Require Import Prelude Ext4Path Ext4Writer BTree Types HostPaths HostFs E2bWire E2bRoutes E2bRegistry OciReference Artifacts ArtifactFiles OciClient.
Import Ids Hostnames.

(** ** Errors of the crate and guest paths *)
Inductive CoreError :=
| CoreInvalidContainerId (e : InvalidContainerId)
| CoreInvalidProcessId (e : InvalidProcessId)
| InvalidCommandArgument (index : Z)
| InvalidEnvironmentVariable (index : Z)
| InvalidWorkingDirectory
| InvalidGuestPath (path reason : string)
| PodDuplicateContainerName (id : string)
| PodDuplicateEmptyDirName (id : string)
| PodUnknownEmptyDirMount (container volume_name : string)
| RuntimeOperation (operation reason : string)
| InvalidWritableLayer (kind : string)
| InvalidSeccomp (reason : string).
Record GuestPath := mk_guest_path { guest_str : string }.
Definition NUL : ascii := ascii_of_N 0.
Definition validate_guest_path (path : string) : result CoreError unit :=
  if is_empty path then Err (InvalidGuestPath path "path cannot be empty")
  else if contains NUL path then Err (InvalidGuestPath path "path cannot contain NUL")
  else if String.eqb path "/" then Err (InvalidGuestPath path "path cannot be root")
  else if negb (starts_with "/" path) then Err (InvalidGuestPath path "path must be absolute")
  else if existsb (fun x => String.eqb x ".." || is_empty x) (tail (split "/" path)) then
    Err (InvalidGuestPath path "path must be normalized")
  else Ok tt.
Definition guest_path_new (path : string) : result CoreError GuestPath :=
  _ ← validate_guest_path path; Ok (mk_guest_path path).

(** ** Mounts *)
Module Mounts.
Record Mount := mk_mount { kind : string; source : string; destination : string; options : list string }.
Definition custom (kind source destination : string) : Mount := mk_mount kind source destination [].
Definition extra_option (o : string) (m : Mount) : Mount :=
  if existsb (String.eqb o) m.(options) then m
  else mk_mount m.(kind) m.(source) m.(destination) (m.(options) ++ [o]).
Definition read_only : Mount -> Mount := extra_option "ro".
Definition no_suid : Mount -> Mount := extra_option "nosuid".
Definition no_exec : Mount -> Mount := extra_option "noexec".
Definition no_dev : Mount -> Mount := extra_option "nodev".
Definition default_secure_options (m : Mount) : Mount := no_dev (no_exec (no_suid m)).
Definition virtiofs (tag destination : string) : Mount := custom "virtiofs" tag destination.
Definition bind (source destination : string) : Mount :=
  extra_option "rbind" (extra_option "rw" (extra_option "bind" (custom "bind" source destination))).
Definition block (format source destination : string) : Mount := custom format source destination.
Definition tmpfs (destination : string) : Mount := custom "tmpfs" "tmpfs" destination.
Definition overlay (lower : list string) (upper work destination : string) : Mount :=
  extra_option ("workdir=" +:+ work) (extra_option ("upperdir=" +:+ upper)
    (extra_option ("lowerdir=" +:+ join ":" lower) (custom "overlay" "overlay" destination))).
Definition proc (destination : string) : Mount := custom "proc" "proc" destination.
Definition sysfs (destination : string) : Mount := default_secure_options (custom "sysfs" "sysfs" destination).
Definition devtmpfs (destination : string) : Mount :=
  extra_option "mode=755" (no_suid (custom "devtmpfs" "none" destination)).
Definition devpts (destination : string) : Mount :=
  extra_option "ptmxmode=0666" (extra_option "mode=0620" (extra_option "gid=5" (extra_option "newinstance"
    (no_exec (no_suid (custom "devpts" "devpts" destination)))))).
Definition mqueue (destination : string) : Mount := default_secure_options (custom "mqueue" "mqueue" destination).
Definition cgroup2 (destination : string) : Mount := default_secure_options (custom "cgroup2" "none" destination).
Definition shm : Mount :=
  extra_option "size=65536k" (extra_option "mode=1777" (default_secure_options (tmpfs "/dev/shm"))).
Definition defaults : list Mount :=
  [proc "/proc"; sysfs "/sys"; devtmpfs "/dev"; mqueue "/dev/mqueue"; shm; cgroup2 "/sys/fs/cgroup"; devpts "/dev/pts"].
Definition oci_defaults : list Mount :=
  [proc "/proc"; extra_option "size=65536k" (extra_option "mode=755" (no_suid (tmpfs "/dev"))); devpts "/dev/pts"; sysfs "/sys";
   mqueue "/dev/mqueue"; shm; cgroup2 "/sys/fs/cgroup"].
End Mounts.
Import Mounts.

(** ** Users, capabilities and limits *)
Inductive User := Named (name : string) | Numeric (uid gid : Z) (extra_groups : list Z).
Definition user_root : User := Numeric 0 0 [].
Definition with_extra_groups (u : User) (groups : list Z) : User :=
  match u with Named n => Named n | Numeric uid gid _ => Numeric uid gid groups end.
Record OciUser := mk_oci_user { ou_uid : Z; ou_gid : Z; ou_additional_gids : list Z; ou_username : string }.
Definition user_into_oci (u : User) : OciUser :=
  match u with
  | Named n => mk_oci_user 0 0 [] n
  | Numeric uid gid extra => mk_oci_user uid gid extra ""
  end.
Definition parse_image_user (raw : string) : User :=
  let plain := match parse_uint 32 raw with Some uid => Numeric uid uid [] | None => Named raw end in
  match split_once ":" raw with
  | Some (uid, gid) =>
      match parse_uint 32 uid, parse_uint 32 gid with
      | Some uid, Some gid => Numeric uid gid []
      | _, _ => plain
      end
  | None => plain
  end.

Inductive Capability :=
| Chown | DacOverride | DacReadSearch | Fowner | Fsetid | Kill | Setgid | Setuid | Setpcap | LinuxImmutable
| NetBindService | NetBroadcast | NetAdmin | NetRaw | IpcLock | IpcOwner | SysModule | SysRawio | SysChroot | SysPtrace
| SysPacct | SysAdmin | SysBoot | SysNice | SysResource | SysTime | SysTtyConfig | Mknod | Lease | AuditWrite
| AuditControl | Setfcap | MacOverride | MacAdmin | Syslog | WakeAlarm | BlockSuspend | AuditRead | Perfmon | Bpf
| CheckpointRestore.
#[export] Instance capability_eq_dec : EqDecision Capability.
Proof. solve_decision. Defined.
Definition ALL : list Capability :=
  [Chown; DacOverride; DacReadSearch; Fowner; Fsetid; Kill; Setgid; Setuid; Setpcap; LinuxImmutable; NetBindService;
   NetBroadcast; NetAdmin; NetRaw; IpcLock; IpcOwner; SysModule; SysRawio; SysChroot; SysPtrace; SysPacct; SysAdmin;
   SysBoot; SysNice; SysResource; SysTime; SysTtyConfig; Mknod; Lease; AuditWrite; AuditControl; Setfcap; MacOverride;
   MacAdmin; Syslog; WakeAlarm; BlockSuspend; AuditRead; Perfmon; Bpf; CheckpointRestore].
Definition as_cap_str (c : Capability) : string :=
  match c with
  | Chown => "CAP_CHOWN" | DacOverride => "CAP_DAC_OVERRIDE" | DacReadSearch => "CAP_DAC_READ_SEARCH" | Fowner => "CAP_FOWNER"
  | Fsetid => "CAP_FSETID" | Kill => "CAP_KILL" | Setgid => "CAP_SETGID" | Setuid => "CAP_SETUID" | Setpcap => "CAP_SETPCAP"
  | LinuxImmutable => "CAP_LINUX_IMMUTABLE" | NetBindService => "CAP_NET_BIND_SERVICE" | NetBroadcast => "CAP_NET_BROADCAST"
  | NetAdmin => "CAP_NET_ADMIN" | NetRaw => "CAP_NET_RAW" | IpcLock => "CAP_IPC_LOCK" | IpcOwner => "CAP_IPC_OWNER"
  | SysModule => "CAP_SYS_MODULE" | SysRawio => "CAP_SYS_RAWIO" | SysChroot => "CAP_SYS_CHROOT" | SysPtrace => "CAP_SYS_PTRACE"
  | SysPacct => "CAP_SYS_PACCT" | SysAdmin => "CAP_SYS_ADMIN" | SysBoot => "CAP_SYS_BOOT" | SysNice => "CAP_SYS_NICE"
  | SysResource => "CAP_SYS_RESOURCE" | SysTime => "CAP_SYS_TIME" | SysTtyConfig => "CAP_SYS_TTY_CONFIG" | Mknod => "CAP_MKNOD"
  | Lease => "CAP_LEASE" | AuditWrite => "CAP_AUDIT_WRITE" | AuditControl => "CAP_AUDIT_CONTROL" | Setfcap => "CAP_SETFCAP"
  | MacOverride => "CAP_MAC_OVERRIDE" | MacAdmin => "CAP_MAC_ADMIN" | Syslog => "CAP_SYSLOG" | WakeAlarm => "CAP_WAKE_ALARM"
  | BlockSuspend => "CAP_BLOCK_SUSPEND" | AuditRead => "CAP_AUDIT_READ" | Perfmon => "CAP_PERFMON" | Bpf => "CAP_BPF"
  | CheckpointRestore => "CAP_CHECKPOINT_RESTORE"
  end.
(** The names the parser matches, without their prefix. *)
Definition cap_name (c : Capability) : string :=
  match c with
  | Chown => "CHOWN" | DacOverride => "DAC_OVERRIDE" | DacReadSearch => "DAC_READ_SEARCH" | Fowner => "FOWNER"
  | Fsetid => "FSETID" | Kill => "KILL" | Setgid => "SETGID" | Setuid => "SETUID" | Setpcap => "SETPCAP"
  | LinuxImmutable => "LINUX_IMMUTABLE" | NetBindService => "NET_BIND_SERVICE" | NetBroadcast => "NET_BROADCAST"
  | NetAdmin => "NET_ADMIN" | NetRaw => "NET_RAW" | IpcLock => "IPC_LOCK" | IpcOwner => "IPC_OWNER"
  | SysModule => "SYS_MODULE" | SysRawio => "SYS_RAWIO" | SysChroot => "SYS_CHROOT" | SysPtrace => "SYS_PTRACE"
  | SysPacct => "SYS_PACCT" | SysAdmin => "SYS_ADMIN" | SysBoot => "SYS_BOOT" | SysNice => "SYS_NICE"
  | SysResource => "SYS_RESOURCE" | SysTime => "SYS_TIME" | SysTtyConfig => "SYS_TTY_CONFIG" | Mknod => "MKNOD"
  | Lease => "LEASE" | AuditWrite => "AUDIT_WRITE" | AuditControl => "AUDIT_CONTROL" | Setfcap => "SETFCAP"
  | MacOverride => "MAC_OVERRIDE" | MacAdmin => "MAC_ADMIN" | Syslog => "SYSLOG" | WakeAlarm => "WAKE_ALARM"
  | BlockSuspend => "BLOCK_SUSPEND" | AuditRead => "AUDIT_READ" | Perfmon => "PERFMON" | Bpf => "BPF"
  | CheckpointRestore => "CHECKPOINT_RESTORE"
  end.
Definition upper (c : ascii) : ascii := if (97 <=? code c) && (code c <=? 122) then ascii_of (code c - 32) else c.
Definition to_ascii_uppercase (s : string) : string := String.string_of_list_ascii (upper <$> bytes s).
(** [raw.trim().to_ascii_uppercase()] without the prefix, looked up among the
    names; the error is the raw text. *)
Definition parse_name {A} (prefix : string) (name : A -> string) (all : list A) (raw : string) : result string A :=
  let u := to_ascii_uppercase (Volumes.trim raw) in
  let n := default u (strip_prefix prefix u) in
  ok_or raw (List.find (fun c => String.eqb (name c) n) all).
Definition parse_capability (raw : string) : result string Capability := parse_name "CAP_" cap_name ALL raw.
Record LinuxCapabilities := mk_caps {
  bounding : list Capability;
  effective : list Capability;
  inheritable : list Capability;
  permitted : list Capability;
  ambient : list Capability
}.
Definition single_set (caps : list Capability) : LinuxCapabilities := mk_caps caps caps [] caps [].
Definition caps_default_oci : LinuxCapabilities :=
  single_set [Chown; DacOverride; Fsetid; Fowner; Mknod; NetRaw; Setgid; Setuid; Setfcap; Setpcap; NetBindService; SysChroot; Kill; AuditWrite].
Definition caps_all : LinuxCapabilities := mk_caps ALL ALL ALL ALL ALL.
Definition caps_empty : LinuxCapabilities := mk_caps [] [] [] [] [].
Definition capabilities_to_oci (caps : list Capability) : list string := as_cap_str <$> caps.
Record OciCapabilities := mk_oci_caps {
  oc_bounding : list string;
  oc_effective : list string;
  oc_inheritable : list string;
  oc_permitted : list string;
  oc_ambient : list string
}.
Definition caps_into_oci (c : LinuxCapabilities) : OciCapabilities :=
  mk_oci_caps (capabilities_to_oci c.(bounding)) (capabilities_to_oci c.(effective)) (capabilities_to_oci c.(inheritable))
    (capabilities_to_oci c.(permitted)) (capabilities_to_oci c.(ambient)).

Inductive RlimitKind :=
| AddressSpace | CoreFileSize | CpuTime | DataSize | FileSize | Locks | LockedMemory | MessageQueue | Nice | OpenFiles
| NumberOfProcesses | ResidentSetSize | RealtimePriority | RealtimeTimeout | SignalsPending | StackSize.
#[export] Instance rlimit_kind_eq_dec : EqDecision RlimitKind.
Proof. solve_decision. Defined.
Definition RLIMIT_ALL : list RlimitKind :=
  [AddressSpace; CoreFileSize; CpuTime; DataSize; FileSize; Locks; LockedMemory; MessageQueue; Nice; OpenFiles;
   NumberOfProcesses; ResidentSetSize; RealtimePriority; RealtimeTimeout; SignalsPending; StackSize].
Definition as_rlimit_str (k : RlimitKind) : string :=
  match k with
  | AddressSpace => "RLIMIT_AS" | CoreFileSize => "RLIMIT_CORE" | CpuTime => "RLIMIT_CPU" | DataSize => "RLIMIT_DATA"
  | FileSize => "RLIMIT_FSIZE" | Locks => "RLIMIT_LOCKS" | LockedMemory => "RLIMIT_MEMLOCK" | MessageQueue => "RLIMIT_MSGQUEUE"
  | Nice => "RLIMIT_NICE" | OpenFiles => "RLIMIT_NOFILE" | NumberOfProcesses => "RLIMIT_NPROC" | ResidentSetSize => "RLIMIT_RSS"
  | RealtimePriority => "RLIMIT_RTPRIO" | RealtimeTimeout => "RLIMIT_RTTIME" | SignalsPending => "RLIMIT_SIGPENDING"
  | StackSize => "RLIMIT_STACK"
  end.
Definition rlimit_name (k : RlimitKind) : string :=
  match k with
  | AddressSpace => "AS" | CoreFileSize => "CORE" | CpuTime => "CPU" | DataSize => "DATA" | FileSize => "FSIZE" | Locks => "LOCKS"
  | LockedMemory => "MEMLOCK" | MessageQueue => "MSGQUEUE" | Nice => "NICE" | OpenFiles => "NOFILE" | NumberOfProcesses => "NPROC"
  | ResidentSetSize => "RSS" | RealtimePriority => "RTPRIO" | RealtimeTimeout => "RTTIME" | SignalsPending => "SIGPENDING"
  | StackSize => "STACK"
  end.
Definition parse_rlimit (raw : string) : result string RlimitKind := parse_name "RLIMIT_" rlimit_name RLIMIT_ALL raw.
Record LinuxRlimit := mk_rlimit { rl_kind : RlimitKind; rl_hard : Z; rl_soft : Z }.
Definition rlimit_into_oci (r : LinuxRlimit) : string * Z * Z := (as_rlimit_str r.(rl_kind), r.(rl_hard), r.(rl_soft)).

(** ** Files and sockets shared with the guest *)
Record FileMount := mk_file_mount { fm_source : string; fm_destination : string; fm_read_only : bool }.
Inductive SocketDirection := Into | OutOf.
Record UnixSocketConfig := mk_socket {
  us_id : string;
  us_source : string;
  us_destination : string;
  us_direction : SocketDirection;
  us_permissions : option Z
}.
Record PreparedFileMount := mk_prepared_file {
  pm_tag : string;
  pm_parent : string;
  pm_filename : string;
  pm_guest_holding_path : string;
  pm_container_destination : string;
  pm_read_only : bool
}.
Definition virtiofs_tag_error_text (e : InvalidVirtiofsTag) : string :=
  match e with
  | TagEmpty => "virtiofs tag is empty"
  | TagTooLong s => "virtiofs tag " +:+ bt s +:+ " exceeds 36 bytes"
  | TagForbiddenChars s => "virtiofs tag " +:+ bt s +:+ " contains forbidden characters"
  end.
Definition to_str (op what s : string) : result CoreError string :=
  if is_utf8 s then Ok s else Err (RuntimeOperation op (what +:+ s +:+ " is not valid UTF-8")).
Section FileMounts.
Context `{Sha256}.
(** What [canonicalize] and [metadata().is_file()] answer. *)
Context (canonicalize : string -> result string string) (is_file : string -> result string bool).
Definition prepare_error (reason : string) : CoreError := RuntimeOperation "prepare file mount" reason.
Definition file_mount_tag (parent : string) : result CoreError string :=
  p ← to_str "prepare file mount" "file mount parent " parent;
  let hex := sha256_hex (code <$> bytes p) in
  t ← map_err (fun e => prepare_error (virtiofs_tag_error_text e)) (VirtiofsTag_new (String.substring 0 36 hex));
  Ok t.(tag_str).
Definition from_mount (m : FileMount) : result CoreError PreparedFileMount :=
  source ← map_err (fun e => prepare_error (m.(fm_source) +:+ ": " +:+ e)) (canonicalize m.(fm_source));
  file ← map_err (fun e => prepare_error (source +:+ ": " +:+ e)) (is_file source);
  if negb file then Err (prepare_error (source +:+ " is not a regular file"))
  else
    filename ← ok_or (prepare_error (source +:+ " has no UTF-8 file name"))
                 (n ← path_file_name source; if is_utf8 n then Some n else None);
    parent ← ok_or (prepare_error (source +:+ " has no parent directory")) (HostPaths.path_parent source);
    tag ← file_mount_tag parent;
    Ok (mk_prepared_file tag parent filename ("/run/file-mounts/" +:+ tag) m.(fm_destination) m.(fm_read_only)).
Fixpoint prepare_file_mounts (ms : list FileMount) : result CoreError (list PreparedFileMount) :=
  match ms with
  | [] => Ok []
  | m :: ms => p ← from_mount m; ps ← prepare_file_mounts ms; Ok (p :: ps)
  end.
End FileMounts.
Definition oci_bind_mount (p : PreparedFileMount) : result CoreError Mount :=
  destination ← to_str "build file bind mount" "file mount destination " p.(pm_container_destination);
  let m := extra_option "bind" (custom "none" (p.(pm_guest_holding_path) +:+ "/" +:+ p.(pm_filename)) destination) in
  Ok (if p.(pm_read_only) then read_only m else extra_option "rw" m).

(** ** Normalizing and ordering mounts *)
Definition normalize_step (st : bool * list string) (x : Component) : bool * list string :=
  let '(absolute, parts) := st in
  match x with
  | RootDir => (true, parts)
  | CurDir => (absolute, parts)
  | ParentDir =>
      if match last parts with Some p => negb (String.eqb p "..") | None => false end then (absolute, removelast parts)
      else if negb absolute then (absolute, parts ++ [".."%string])
      else (absolute, parts)
  | Normal p => (absolute, parts ++ [p])
  end.
Definition render (absolute : bool) (parts : list string) : string :=
  match absolute, parts with
  | true, [] => "/"
  | true, _ => "/" +:+ join "/" parts
  | false, [] => "."
  | false, _ => join "/" parts
  end.
Definition normalize_mount_destination (d : string) : string :=
  let '(absolute, parts) := foldl normalize_step (false, []) (path_components d) in render absolute parts.
Definition mount_depth (d : string) : Z := Z.of_nat (length (filter (fun x => is_empty x = false) (split "/" d))).
(** [slice::sort_by_key], which is stable. *)
Section Sort.
Context {A : Type} (le : A -> A -> bool).
Fixpoint insert_by (x : A) (l : list A) : list A :=
  match l with
  | [] => [x]
  | y :: l' => if le x y then x :: l else y :: insert_by x l'
  end.
Definition stable_sort (l : list A) : list A := foldr insert_by [] l.
End Sort.
Definition set_destination (d : string) (m : Mount) : Mount := mk_mount m.(kind) m.(source) d m.(options).
Definition normalized (m : Mount) : Mount := set_destination (normalize_mount_destination m.(destination)) m.
(** The key of a mount: its depth, then its position. *)
Definition key_le (a b : nat * Mount) : bool :=
  let da := mount_depth a.2.(destination) in
  let db := mount_depth b.2.(destination) in
  (da <? db) || ((da =? db) && (a.1 <=? b.1)%nat).
Definition clean_and_sort_mounts (ms : list Mount) : list Mount :=
  snd <$> stable_sort key_le (imap (fun i m => (i, normalized m)) ms).

(** ** The builder *)
Section Builder.
Context {SeccompProfile JsonValue : Type} (json_from_str : string -> result string JsonValue).
Inductive SeccompConfig := Structured (p : SeccompProfile) | RawJson (json : string).
Inductive LinuxSeccomp := SeccompProfileOf (p : SeccompProfile) | SeccompRaw (v : JsonValue).
(** The fields that the specification is made from. *)
Record ContainerBuilder := mk_builder {
  cb_id : ContainerId;
  cb_command : list string;
  cb_command_explicit : bool;
  cb_env : list string;
  cb_working_dir : string;
  cb_user : User;
  cb_hostname : option string;
  cb_sysctl : list (string * string);
  cb_no_new_privileges : bool;
  cb_capabilities : LinuxCapabilities;
  cb_rlimits : list LinuxRlimit;
  cb_selinux_label : string;
  cb_apparmor_profile : string;
  cb_mounts : list Mount;
  cb_default_mounts : option (list Mount);
  cb_writable_layer : option Mount;
  cb_file_mounts : list FileMount;
  cb_seccomp : option SeccompConfig;
  cb_use_init : bool;
  cb_sockets : list UnixSocketConfig;
  cb_guest_rootfs : option GuestPath
}.
Definition DEFAULT_PATH_ENV : string := "PATH=/usr/local/sbin:/usr/local/bin:/usr/sbin:/usr/bin:/sbin:/bin".
Definition builder_new (id : ContainerId) : ContainerBuilder :=
  mk_builder id [] false [DEFAULT_PATH_ENV] "/" user_root None [] false caps_default_oci [] "" "" [] None None [] None false [] None.
Definition set_process (command : list string) (explicit : bool) (env : list string) (dir : string) (u : User) (b : ContainerBuilder)
  : ContainerBuilder :=
  mk_builder b.(cb_id) command explicit env dir u b.(cb_hostname) b.(cb_sysctl) b.(cb_no_new_privileges) b.(cb_capabilities)
    b.(cb_rlimits) b.(cb_selinux_label) b.(cb_apparmor_profile) b.(cb_mounts) b.(cb_default_mounts) b.(cb_writable_layer)
    b.(cb_file_mounts) b.(cb_seccomp) b.(cb_use_init) b.(cb_sockets) b.(cb_guest_rootfs).
Definition command (args : list string) (b : ContainerBuilder) : ContainerBuilder :=
  set_process args true b.(cb_env) b.(cb_working_dir) b.(cb_user) b.
Definition envs (vars : list (string * string)) (b : ContainerBuilder) : ContainerBuilder :=
  set_process b.(cb_command) b.(cb_command_explicit) (b.(cb_env) ++ ((fun kv => kv.1 +:+ "=" +:+ kv.2) <$> vars)) b.(cb_working_dir) b.(cb_user) b.
Definition image_config (c : ImageConfig) (b : ContainerBuilder) : ContainerBuilder :=
  set_process (if b.(cb_command_explicit) then b.(cb_command) else command_args c) b.(cb_command_explicit)
    (default b.(cb_env) c.(ic_env)) (default b.(cb_working_dir) c.(ic_working_dir))
    (match c.(ic_user) with Some u => parse_image_user u | None => b.(cb_user) end) b.
Definition with_mounts (ms : list Mount) (rootfs : option GuestPath) (b : ContainerBuilder) : ContainerBuilder :=
  mk_builder b.(cb_id) b.(cb_command) b.(cb_command_explicit) b.(cb_env) b.(cb_working_dir) b.(cb_user) b.(cb_hostname) b.(cb_sysctl)
    b.(cb_no_new_privileges) b.(cb_capabilities) b.(cb_rlimits) b.(cb_selinux_label) b.(cb_apparmor_profile)
    (b.(cb_mounts) ++ ms) b.(cb_default_mounts) b.(cb_writable_layer) b.(cb_file_mounts) b.(cb_seccomp) b.(cb_use_init) b.(cb_sockets) rootfs.

(** *** Bundles of the guest agent *)
Definition bundle_path (id : ContainerId) : string := "/run/container/" +:+ container_str id.
Definition rootfs_path (id : ContainerId) : string := bundle_path id +:+ "/rootfs".
Definition config_json_path (id : ContainerId) : string := bundle_path id +:+ "/config.json".
Definition guest_socket_staging_path (id : ContainerId) (socket_id : string) : string :=
  "/run/container/" +:+ container_str id +:+ "/sockets/" +:+ socket_id +:+ ".sock".

(** *** The specification *)
Record OciProcess := mk_oci_process {
  op_args : list string;
  op_env : list string;
  op_cwd : string;
  op_user : OciUser;
  op_no_new_privileges : bool;
  op_capabilities : OciCapabilities;
  op_rlimits : list (string * Z * Z);
  op_selinux_label : string;
  op_apparmor_profile : string;
  op_terminal : bool
}.
Inductive LinuxNamespaceType := NsPid | NsNetwork | NsUts | NsMount | NsIpc | NsUser | NsCgroup.
Record Spec := mk_spec {
  sp_version : string;
  sp_process : OciProcess;
  sp_hostname : string;
  sp_mounts : list Mount;
  sp_root_path : string;
  sp_root_readonly : bool;
  sp_cgroups_path : string;
  sp_namespaces : list LinuxNamespaceType;
  sp_sysctl : option (list (string * string));
  sp_seccomp : option LinuxSeccomp
}.
Definition ensure_writable_layer_is_block (m : Mount) : result CoreError unit :=
  if String.eqb m.(kind) "ext4" || String.eqb m.(kind) "xfs" || String.eqb m.(kind) "btrfs" then Ok tt
  else Err (InvalidWritableLayer m.(kind)).
Fixpoint os_strings_to_strings (err : Z -> CoreError) (index : Z) (l : list string) : result CoreError (list string) :=
  match l with
  | [] => Ok []
  | s :: l => if is_utf8 s then r ← os_strings_to_strings err (index + 1) l; Ok (s :: r) else Err (err index)
  end.
Definition runtime_spec_seccomp (b : ContainerBuilder) : result CoreError (option LinuxSeccomp) :=
  match b.(cb_seccomp) with
  | None => Ok None
  | Some (Structured p) => Ok (Some (SeccompProfileOf p))
  | Some (RawJson json) => v ← map_err InvalidSeccomp (json_from_str json); Ok (Some (SeccompRaw v))
  end.
Context `{Sha256} (canonicalize : string -> result string string) (is_file : string -> result string bool).
Fixpoint collect {X Y} (f : X -> result CoreError Y) (l : list X) : result CoreError (list Y) :=
  match l with [] => Ok [] | x :: l => y ← f x; ys ← collect f l; Ok (y :: ys) end.
Definition socket_mount (id : ContainerId) (s : UnixSocketConfig) : result CoreError Mount :=
  destination ← to_str "build socket bind mount" "socket destination " s.(us_destination);
  Ok (extra_option "bind" (custom "bind" (guest_socket_staging_path id s.(us_id)) destination)).
Definition into_guest (s : UnixSocketConfig) : bool := match s.(us_direction) with Into => true | OutOf => false end.
Definition runtime_spec_mounts (b : ContainerBuilder) (rosetta_mount : bool) : result CoreError (list Mount) :=
  let mounts := default Mounts.defaults b.(cb_default_mounts) ++ b.(cb_mounts) in
  let mounts := if rosetta_mount then mounts ++ [virtiofs "rosetta" "/run/rosetta"] else mounts in
  sockets ← collect (socket_mount b.(cb_id)) (filter (fun s => into_guest s = true) b.(cb_sockets));
  prepared ← prepare_file_mounts canonicalize is_file b.(cb_file_mounts);
  files ← collect oci_bind_mount prepared;
  let mounts := mounts ++ sockets ++ files in
  let mounts := if b.(cb_use_init) then mounts ++ [read_only (extra_option "bind" (custom "bind" "/sbin/vminitd" "/.cz-init"))] else mounts in
  Ok (clean_and_sort_mounts mounts).
Definition runtime_spec_root_path (b : ContainerBuilder) : string :=
  match b.(cb_guest_rootfs) with Some p => p.(guest_str) | None => rootfs_path b.(cb_id) end.
Definition runtime_spec_for_builder (b : ContainerBuilder) (terminal rosetta_mount : bool) : result CoreError Spec :=
  _ ← match b.(cb_writable_layer) with Some m => ensure_writable_layer_is_block m | None => Ok tt end;
  mounts ← runtime_spec_mounts b rosetta_mount;
  seccomp ← runtime_spec_seccomp b;
  args ← os_strings_to_strings InvalidCommandArgument 0 b.(cb_command);
  let args := if b.(cb_use_init) then ["/.cz-init"; "--"]%string ++ args else args in
  env ← os_strings_to_strings InvalidEnvironmentVariable 0 b.(cb_env);
  cwd ← (if is_utf8 b.(cb_working_dir) then Ok b.(cb_working_dir) else Err InvalidWorkingDirectory);
  Ok (mk_spec "1.1.0"
        (mk_oci_process args env cwd (user_into_oci b.(cb_user)) b.(cb_no_new_privileges) (caps_into_oci b.(cb_capabilities))
           (rlimit_into_oci <$> b.(cb_rlimits)) b.(cb_selinux_label) b.(cb_apparmor_profile) terminal)
        (default (container_str b.(cb_id)) b.(cb_hostname)) mounts (runtime_spec_root_path b) false
        ("/container/" +:+ container_str b.(cb_id)) [NsPid; NsMount; NsIpc; NsUts]
        (match b.(cb_sysctl) with [] => None | l => Some l end) seccomp).
End Builder.

(** * Properties *)

(** ** Sorting *)
Section SortLemmas.
Context {A : Type} (le : A -> A -> bool).
Lemma insert_by_perm x l : insert_by le x l ≡ₚ x :: l.
Proof.
  induction l as [|y l IH]; [done|]. cbn [insert_by]. destruct (le x y); [done|].
  rewrite IH. apply Permutation_swap.
Qed.
Lemma stable_sort_perm l : stable_sort le l ≡ₚ l.
Proof. induction l as [|x l IH]; [done|]. cbn [stable_sort foldr]. rewrite insert_by_perm. by f_equiv. Qed.
(** An element goes before everything it is below: among the elements of a
    class whose members it is below, it comes first. *)
Lemma insert_by_filter (P : A -> Prop) `{!forall x, Decision (P x)} x l :
  (forall y, y ∈ l -> P x -> P y -> le x y = true) ->
  filter P (insert_by le x l) = filter P (x :: l).
Proof.
  intros Hl. induction l as [|y l IH]; [done|]. cbn [insert_by]. destruct (le x y) eqn:E; [done|].
  rewrite filter_cons, IH by (intros; apply Hl; [by apply list_elem_of_further|done..]).
  rewrite !filter_cons. destruct (decide (P x)) as [Hx|]; [|done]. destruct (decide (P y)) as [Hy|]; [|done].
  rewrite Hl in E; [done|left|done..].
Qed.
Lemma stable_sort_filter (P : A -> Prop) `{!forall x, Decision (P x)} l :
  StronglySorted (fun x y => P x -> P y -> le x y = true) l -> filter P (stable_sort le l) = filter P l.
Proof.
  induction 1 as [|x l Hl IH Hx]; [done|]. cbn [stable_sort foldr].
  rewrite insert_by_filter, !filter_cons.
  - unfold stable_sort in IH. by rewrite IH.
  - intros y Hy. rewrite Forall_forall in Hx. apply Hx. rewrite <- (stable_sort_perm l). exact Hy.
Qed.
Lemma stable_sort_sorted (R : A -> A -> Prop) `{!Transitive R} l :
  (forall x y, le x y = true -> R x y) -> (forall x y, le x y = false -> R y x) ->
  StronglySorted R (stable_sort le l).
Proof.
  intros Ht Hf. induction l as [|x l IH]; [constructor|]. cbn [stable_sort foldr].
  change (foldr (insert_by le) [] l) with (stable_sort le l). induction IH as [|y l' Hl' IHl Hy]; cbn [insert_by].
  - repeat constructor.
  - destruct (le x y) eqn:E.
    + repeat constructor; try done; [by apply Ht|]. eapply Forall_impl; [exact Hy|]. intros z Hz. transitivity y; [by apply Ht|done].
    + constructor; [exact IHl|]. rewrite insert_by_perm. constructor; [by apply Hf|done].
Qed.
End SortLemmas.
Lemma StronglySorted_fmap' {A B} (f : A -> B) (R : B -> B -> Prop) l :
  StronglySorted (fun x y => R (f x) (f y)) l -> StronglySorted R (f <$> l).
Proof. induction 1 as [|x l Hl IH Hx]; [constructor|]. constructor; [done|]. by apply Forall_fmap. Qed.

(** ** Normalized destinations *)
Definition dest_depth (m : Mount) : Z := mount_depth m.(destination).
(** The parts of a normalized path: names, after leading [..] when it is
    relative. *)
Inductive normal_parts : bool -> list string -> Prop :=
| np_names a ps : Forall safe ps -> normal_parts a ps
| np_up ps : normal_parts false ps -> normal_parts false (".."%string :: ps).
Lemma classify_part s x :
  contains slash s = false -> classify s = Some x -> x = ParentDir /\ s = ".."%string \/ exists p, x = Normal p /\ safe p.
Proof.
  unfold classify. intros Hs. destruct (is_empty s || String.eqb s ".") eqn:E; [done|].
  apply orb_false_iff in E as [Hne Hd]. destruct (String.eqb_spec s "..") as [->|Hdd]; intros [= <-]; [by left|].
  right. exists s. split; [done|]. split; [split; [by apply is_empty_false|done]|].
  unfold bad_base. rewrite Hne, Hd. cbn. by apply String.eqb_neq.
Qed.
Definition step_part (x : Component) : Prop := x = ParentDir \/ exists p, x = Normal p /\ safe p.
Lemma classify_parts l : Forall (fun s => contains slash s = false) l -> Forall step_part (omap classify l).
Proof.
  induction 1 as [|s l Hs Hl IH]; [constructor|]. cbn. destruct (classify s) as [x|] eqn:E; [|done].
  constructor; [|done]. destruct (classify_part s x Hs E) as [[-> _]|Hp]; [by left|by right].
Qed.
Lemma dotdot_unsafe : ~ safe "..".
Proof. by intros [_ ?]. Qed.
Lemma np_mid a acc ps : normal_parts a (acc ++ ".."%string :: ps) -> a = false /\ Forall (eq ".."%string) acc.
Proof.
  revert a. induction acc as [|x acc IH]; intros a H; inversion H as [? ? Hs|? Hp]; subst.
  - inversion Hs. by destruct dotdot_unsafe.
  - by split.
  - apply Forall_app in Hs as [_ Hs]. inversion Hs. by destruct dotdot_unsafe.
  - destruct (IH _ Hp) as [_ Hacc]. split; [done|by constructor].
Qed.
Lemma np_snoc a ps p : normal_parts a ps -> safe p -> normal_parts a (ps ++ [p]).
Proof.
  induction 1 as [a ps Hs|ps Hp IH]; intros Hq; [|by apply np_up, IH].
  apply np_names, Forall_app. by split; [|constructor].
Qed.
Lemma np_pop a ps p : normal_parts a ps -> last ps = Some p -> p <> ".."%string -> normal_parts a (removelast ps).
Proof.
  induction 1 as [a ps Hs|ps Hp IH]; intros Hl Hne.
  - apply np_names. destruct (last_Some ps p) as [H _]. destruct (H Hl) as [l' ->]. rewrite removelast_last.
    by apply Forall_app in Hs as [? _].
  - destruct ps as [|q ps]; [by injection Hl|]. change (normal_parts false (".."%string :: removelast (q :: ps))).
    apply np_up, IH; done.
Qed.
Lemma np_push ps : normal_parts false ps -> (forall p, last ps = Some p -> p = ".."%string) -> normal_parts false (ps ++ [".."%string]).
Proof.
  intros H. remember false as a eqn:Ea. revert Ea. induction H as [a ps Hs|ps Hp IH]; intros Ea Hl; subst.
  - destruct ps as [|q ps _] using rev_ind; [apply np_up, np_names; constructor|].
    apply Forall_app in Hs as [_ Hq]. inversion Hq as [|? ? Hsafe]; subst. assert (q = ".."%string) as -> by (apply Hl; by rewrite last_snoc). by destruct dotdot_unsafe.
  - apply np_up, IH; [done|]. intros p Hp'. apply Hl. by destruct ps.
Qed.
Lemma normalize_step_parts a ps x : step_part x -> normal_parts a ps ->
  exists ps', normalize_step (a, ps) x = (a, ps') /\ normal_parts a ps'.
Proof.
  intros [->|(p & -> & Hp)] H; cbn [normalize_step]; [|by eauto using np_snoc].
  destruct (last ps) as [p|] eqn:El; [destruct (String.eqb_spec p "..") as [->|Hne]|]; cbn [negb].
  - destruct a; cbn [negb]; [by eauto|]. eexists. split; [done|]. apply np_push; [done|]. intros q Hq. congruence.
  - eexists. split; [done|]. by eapply np_pop.
  - destruct a; cbn [negb]; [by eauto|]. eexists. split; [done|]. apply np_push; [done|]. intros q Hq. congruence.
Qed.
Lemma normalize_steps_parts a l ps : Forall step_part l -> normal_parts a ps ->
  exists ps', foldl normalize_step (a, ps) l = (a, ps') /\ normal_parts a ps'.
Proof.
  intros Hl. revert ps. induction Hl as [|x l Hx Hl IH]; intros ps Hp; [by eauto|].
  destruct (normalize_step_parts a ps x Hx Hp) as (ps' & E & Hp'). cbn [foldl]. rewrite E. by apply IH.
Qed.
Lemma normalize_parts d : exists a ps, normalize_mount_destination d = render a ps /\ normal_parts a ps /\ a = starts_with slash d.
Proof.
  pose proof (split_no_sep slash d) as Hsep. unfold normalize_mount_destination, path_components.
  assert (normal_parts true [] /\ normal_parts false []) as [Ht Hf] by (split; apply np_names; constructor).
  destruct (starts_with slash d).
  - destruct (normalize_steps_parts true _ [] (classify_parts _ Hsep) Ht) as (ps & E & Hp).
    cbn [foldl normalize_step]. rewrite E. by exists true, ps.
  - destruct (split slash d) as [|f r] eqn:Es; [by exists false, []|]. destruct (String.eqb f ".").
    + inversion Hsep as [|? ? _ Hr]; subst. destruct (normalize_steps_parts false _ [] (classify_parts _ Hr) Hf) as (ps & E & Hp).
      cbn [foldl normalize_step]. rewrite E. by exists false, ps.
    + destruct (normalize_steps_parts false _ [] (classify_parts _ Hsep) Hf) as (ps & E & Hp).
      rewrite E. by exists false, ps.
Qed.
(** A normalized path is read back part by part. *)
Lemma normalize_steps_fix a acc ps : normal_parts a (acc ++ ps) ->
  foldl normalize_step (a, acc) (omap classify ps) = (a, acc ++ ps).
Proof.
  revert acc. induction ps as [|p ps IH]; intros acc H; [by rewrite app_nil_r|].
  assert (Hn : normal_parts a ((acc ++ [p]) ++ ps)) by by rewrite <- app_assoc.
  destruct (decide (p = ".."%string)) as [->|Hp].
  - destruct (np_mid _ _ _ H) as [-> Hacc]. change (omap classify (".."%string :: ps)) with (ParentDir :: omap classify ps).
    cbn [foldl normalize_step]. replace (match last acc with Some p => negb (String.eqb p "..") | None => false end) with false.
    + cbn [negb]. rewrite IH, <- app_assoc by done. done.
    + destruct (last acc) as [q|] eqn:El; [|done]. apply last_Some_elem_of in El. rewrite Forall_forall in Hacc.
      by destruct (Hacc q El).
  - assert (Hs : safe p).
    { remember (acc ++ p :: ps) as l eqn:El. clear IH Hn. revert acc El. induction H as [a l Hs|l _ IH]; intros acc El; subst.
      - apply Forall_app in Hs as [_ Hs]. by inversion Hs.
      - destruct acc as [|x acc]; [by injection El as <-|]. injection El as _ El. by eapply IH. }
    assert (classify p = Some (Normal p)) as Ec.
    { unfold classify. destruct Hs as [_ Hb]. unfold bad_base in Hb. by apply orb_false_iff in Hb as [-> ->]. }
    cbn [omap list_omap]. rewrite Ec. cbn [foldl normalize_step]. rewrite IH, <- app_assoc by done. done.
Qed.
Lemma np_part a ps : normal_parts a ps -> Forall (fun p => component p /\ p <> "."%string) ps /\ (a = true -> Forall safe ps).
Proof.
  assert (Hcomp : forall p, safe p -> component p /\ p <> "."%string).
  { intros p [Hc Hb]. split; [done|]. by intros ->. }
  induction 1 as [a ps Hs|ps Hp [IH _]]; (split; [|done]).
  - eapply Forall_impl; [exact Hs|done].
  - by constructor.
Qed.
Lemma component_split ps : ps <> [] -> Forall (fun p => component p /\ p <> "."%string) ps ->
  split slash (join "/" ps) = ps /\ starts_with slash (join "/" ps) = false.
Proof.
  intros Hne Hp. split.
  - apply (split_join slash); [done|]. eapply Forall_impl; [exact Hp|]. by intros p [[_ ?] _].
  - destruct Hp as [|p ps [[He Hc] _] _]; [done|]. destruct p as [|c p]; [done|].
    rewrite contains_cons in Hc. apply orb_false_iff in Hc as [Hc _]. destruct ps as [|q ps]; cbn [join]; [|rewrite append_cons]; cbn [starts_with]; by rewrite Hc.
Qed.
Lemma normalize_render a ps : normal_parts a ps -> normalize_mount_destination (render a ps) = render a ps.
Proof.
  intros H. destruct (np_part a ps H) as [Hc Hsafe]. destruct a.
  - destruct ps as [|p ps]; [done|]. change (render true (p :: ps)) with (String slash (join "/" (p :: ps))).
    destruct (component_split (p :: ps)) as [Hs _]; [done..|]. unfold normalize_mount_destination, path_components.
    assert (Ec : split slash (String slash (join "/" (p :: ps))) = EmptyString :: p :: ps) by (cbn [split]; by rewrite Hs).
    rewrite Ec. cbn [starts_with]. rewrite Ascii.eqb_refl. cbn [andb].
    change (omap classify (EmptyString :: p :: ps)) with (omap classify (p :: ps)).
    cbn [foldl normalize_step]. by rewrite (normalize_steps_fix true []).
  - destruct ps as [|p ps]; [done|]. change (render false (p :: ps)) with (join "/" (p :: ps)).
    destruct (component_split (p :: ps)) as [Hs Hst]; [done..|]. unfold normalize_mount_destination, path_components.
    rewrite Hs, Hst. inversion Hc as [|? ? [_ Hd] _]; subst. apply String.eqb_neq in Hd. rewrite Hd.
    by rewrite (normalize_steps_fix false []).
Qed.
Lemma render_names ps : Forall safe ps -> existsb (String.eqb "..") (split slash (render true ps)) = false.
Proof.
  intros H. destruct ps as [|p ps]; [done|]. change (render true (p :: ps)) with (String slash (join "/" (p :: ps))).
  destruct (component_split (p :: ps)) as [Hs _]; [done|by destruct (np_part true (p :: ps) (np_names _ _ H))|].
  cbn [split]. rewrite Hs, Ascii.eqb_refl. apply existsb_false. constructor; [done|]. eapply Forall_impl; [exact H|]. intros q Hq.
  apply String.eqb_neq. intros <-. by destruct dotdot_unsafe.
Qed.
Lemma normalized_destination d :
  normalize_mount_destination (normalize_mount_destination d) = normalize_mount_destination d /\
  (starts_with slash d = true ->
    starts_with slash (normalize_mount_destination d) = true /\ existsb (String.eqb "..") (split slash (normalize_mount_destination d)) = false).
Proof.
  destruct (normalize_parts d) as (a & ps & -> & Hp & ->). split; [by apply normalize_render|].
  intros E. rewrite E in *. destruct (np_part _ _ Hp) as [_ Hs]. split; [by destruct ps|]. by apply render_names, Hs.
Qed.

(** ** Mount order *)
Definition indexed (ms : list Mount) : list (nat * Mount) := imap (fun i m => (i, normalized m)) ms.
Lemma indexed_snd ms : snd <$> indexed ms = normalized <$> ms.
Proof.
  unfold indexed. rewrite fmap_imap. induction ms as [|m ms IH]; [done|].
  rewrite imap_cons, fmap_cons. cbn. f_equal. rewrite <- IH. by apply imap_ext.
Qed.
Lemma imap_sorted {B} (f : Mount -> B) (R : nat * B -> nat * B -> Prop) k ms :
  (forall i j x y, (i < j)%nat -> R (i, x) (j, y)) -> StronglySorted R (imap (fun i m => ((k + i)%nat, f m)) ms).
Proof.
  intros HR. revert k. induction ms as [|m ms IH]; intros k; [constructor|]. rewrite imap_cons. constructor.
  - erewrite imap_ext; [apply (IH (S k))|]. intros i x _. cbn. f_equal. lia.
  - rewrite Forall_forall. intros [j x] Hx. apply elem_of_lookup_imap in Hx as (i & y & [= -> ->] & _). apply HR. lia.
Qed.
Lemma filter_fmap_snd {X Y} (f : Y -> Z) d (l : list (X * Y)) :
  filter (fun y => f y = d) (snd <$> l) = snd <$> filter (fun p => f p.2 = d) l.
Proof.
  induction l as [|[x y] l IH]; [done|]. cbn [fmap list_fmap]. rewrite !filter_cons. cbn [snd].
  destruct (decide (f y = d)); [|done]. rewrite fmap_cons. by rewrite <- IH.
Qed.
(** The mounts of a container are the requested ones with normalized
    destinations, every parent directory before what is mounted below it, and
    mounts of the same depth in the order of the request; a normalized
    destination is not changed by normalizing it again, and one that was
    absolute stays absolute and has no component that leads upwards. *)
Theorem mounts_parents_first ms :
  clean_and_sort_mounts ms ≡ₚ normalized <$> ms /\
  StronglySorted (fun a b => dest_depth a <= dest_depth b) (clean_and_sort_mounts ms) /\
  (forall d, filter (fun m => dest_depth m = d) (clean_and_sort_mounts ms) = filter (fun m => dest_depth m = d) (normalized <$> ms)) /\
  Forall (fun m => let d := destination m in
    destination (normalized m) = d /\ (starts_with slash d = true -> existsb (String.eqb "..") (split slash d) = false)) (clean_and_sort_mounts ms) /\
  (forall m, starts_with slash (destination m) = true -> starts_with slash (destination (normalized m)) = true).
Proof.
  assert (Hperm : clean_and_sort_mounts ms ≡ₚ normalized <$> ms).
  { unfold clean_and_sort_mounts. rewrite stable_sort_perm. fold (indexed ms). by rewrite indexed_snd. }
  split; [done|]. split; [|split; [|split]].
  - apply StronglySorted_fmap', stable_sort_sorted; [intros x y z; lia|..]; intros x y; unfold key_le, dest_depth;
      rewrite ?orb_true_iff, ?orb_false_iff, ?andb_true_iff, ?andb_false_iff; lia.
  - intros d. unfold clean_and_sort_mounts. rewrite filter_fmap_snd, stable_sort_filter.
    + rewrite <- filter_fmap_snd. fold (indexed ms). by rewrite indexed_snd.
    + apply (imap_sorted normalized _ 0). intros i j x y Hij. unfold key_le, dest_depth. cbn [fst snd].
      intros -> ->. rewrite orb_true_iff, andb_true_iff. right. split; [lia|]. apply Nat.leb_le. lia.
  - rewrite Hperm, Forall_fmap, Forall_forall. intros m _. cbn. destruct (normalized_destination m.(destination)) as [E H].
    split; [done|]. intros Hs. rewrite <- E. apply normalized_destination. done.
  - intros m Hm. by destruct (normalized_destination m.(destination)) as [_ [? _]].
Qed.

(** ** Names of capabilities and limits *)
Section Names.
Context {A : Type} (prefix : string) (name : A -> string) (all : list A).
Context (Hall : forall c, c ∈ all) (Hinj : Inj (=) (=) name) (Hpre : forall c, strip_prefix prefix (name c) = None).
Lemma parse_name_spec raw c :
  let u := to_ascii_uppercase (Volumes.trim raw) in
  parse_name prefix name all raw = Ok c <-> u = prefix +:+ name c \/ u = name c.
Proof.
  cbv zeta. unfold parse_name. set (u := to_ascii_uppercase _).
  set (n := default u (strip_prefix prefix u)).
  assert (Hn : n = name c <-> u = prefix +:+ name c \/ u = name c).
  { unfold n. destruct (strip_prefix prefix u) as [r|] eqn:E; cbn [default from_option id].
    - apply strip_prefix_sound in E. rewrite E. split; [intros ->; by left|]. intros [H|H].
      + by apply append_inj_l in H.
      + specialize (Hpre c). rewrite <- H, strip_prefix_app in Hpre. done.
    - split; [by right|]. intros [H|H]; [|done]. rewrite H, strip_prefix_app in E. done. }
  rewrite <- Hn. destruct (List.find (fun c => String.eqb (name c) n) all) as [c'|] eqn:E; cbn [ok_or].
  - apply find_some in E as [_ E%String.eqb_eq]. split; [intros [= <-]; done|]. intros H. f_equal. apply Hinj. congruence.
  - split; [done|]. intros H. specialize (Hall c). apply list_elem_of_In in Hall. apply (find_none _ _ E) in Hall.
    by rewrite H, String.eqb_refl in Hall.
Qed.
End Names.
Lemma as_cap_str_name c : as_cap_str c = "CAP_" +:+ cap_name c.
Proof. by destruct c. Qed.
Lemma as_rlimit_str_name k : as_rlimit_str k = "RLIMIT_" +:+ rlimit_name k.
Proof. by destruct k. Qed.
(** Exactly the runtime's names, in any case, between blanks and with or
    without their prefix, are understood. *)
Theorem capability_names raw :
  let u := to_ascii_uppercase (Volumes.trim raw) in
  (forall c, parse_capability raw = Ok c <-> u = as_cap_str c \/ "CAP_" +:+ u = as_cap_str c) /\
  (forall k, parse_rlimit raw = Ok k <-> u = as_rlimit_str k \/ "RLIMIT_" +:+ u = as_rlimit_str k).
Proof.
  assert (Hap : forall p s t, p +:+ s = p +:+ t <-> s = t) by (split; [apply append_inj_l|congruence]).
  cbv zeta. split; intros c.
  - rewrite as_cap_str_name, Hap. apply parse_name_spec; [by intros []; apply (bool_decide_unpack _); vm_compute| |by intros []].
    intros [] [] [=]; reflexivity.
  - rewrite as_rlimit_str_name, Hap. apply parse_name_spec; [by intros []; apply (bool_decide_unpack _); vm_compute| |by intros []].
    intros [] [] [=]; reflexivity.
Qed.
(** An image may give an empty working directory, which many tools write for
    "none": it replaces the default and reaches the specification. *)
Lemma empty_working_dir_reaches_spec `{Sha256} {P J} (json : string -> result string J) canon file id :
  let c := mk_image_config None None None (Some ["/bin/true"%string]) (Some EmptyString) None None in
  exists spec, runtime_spec_for_builder (SeccompProfile := P) json canon file (image_config c (builder_new id)) false false = Ok spec /\
    spec.(sp_process).(op_cwd) = EmptyString.
Proof. cbv zeta. eexists. split; reflexivity. Qed.
(** A user with a named group is taken for the name of a user. *)
Lemma named_group_is_user_name : parse_image_user "1000:staff" = Named "1000:staff".
Proof. reflexivity. Qed.
