(* ===== verification/PodLayout.v ===== *)
(** * Pod declarations and the pod store
      ([crates/core/src/pod/{id,layout,spec,rootfs,store}.rs],
       [crates/vminitd-client/src/guest_ops.rs])

    What a pod declares, where its containers, templates and volumes lie in
    the pod store, and the requests that are sent to the guest agent for
    them. *)
From S2P Require Import Prelude Ext4Path Ext4Writer BTree Types HostPaths HostFs E2bWire E2bRoutes OciReference Artifacts ArtifactFiles OciClient ContainerSpec.
Import Ids Hostnames Mounts.

(** ** Identities and declarations *)
Record PodId := mk_pod_id { pod_name : ContainerId }.
Definition pod_str (p : PodId) : string := container_str p.(pod_name).
Definition pod_id_new (id : string) : result InvalidContainerId PodId := c ← ContainerId_new id; Ok (mk_pod_id c).
Inductive GuestFilesystem := GuestExt4.
Definition mount_type (f : GuestFilesystem) : string := match f with GuestExt4 => "ext4" end.
Inductive EmptyDirMedium := MediumDisk | MediumMemory.
Record EmptyDirVolume := mk_volume { ev_name : ContainerId; ev_medium : EmptyDirMedium; ev_size_limit : option Z }.
Definition volume_disk (name : string) : result InvalidContainerId EmptyDirVolume :=
  c ← ContainerId_new name; Ok (mk_volume c MediumDisk None).
Definition volume_memory (name : string) (size_limit : option Z) : result InvalidContainerId EmptyDirVolume :=
  c ← ContainerId_new name; Ok (mk_volume c MediumMemory size_limit).
Inductive PodRootfsSource :=
| RootfsGuestPath (path : GuestPath)
| RootfsOciBundle (bundle : ImageBundle)
| RootfsExt4Image (path : string).
Record PodVolumeMount := mk_volume_mount { vm_volume : ContainerId; vm_path : string; vm_read_only : bool }.
Definition volume_mount (name path : string) (read_only : bool) : result InvalidContainerId PodVolumeMount :=
  c ← ContainerId_new name; Ok (mk_volume_mount c path read_only).
Record PodContainerSpec := mk_container_spec {
  cs_id : ContainerId;
  cs_rootfs : PodRootfsSource;
  cs_command : list string;
  cs_env : list (string * string);
  cs_mounts : list Mount;
  cs_empty_dir_mounts : list PodVolumeMount
}.
Definition container_spec_new (id : ContainerId) (rootfs : PodRootfsSource) : PodContainerSpec :=
  mk_container_spec id rootfs [] [] [] [].
Definition cs_with (s : PodContainerSpec) command env mounts volumes : PodContainerSpec :=
  mk_container_spec s.(cs_id) s.(cs_rootfs) command env mounts volumes.
Definition cs_add_empty_dir (s : PodContainerSpec) (name path : string) (read_only : bool) : result InvalidContainerId PodContainerSpec :=
  m ← volume_mount name path read_only;
  Ok (cs_with s s.(cs_command) s.(cs_env) s.(cs_mounts) (s.(cs_empty_dir_mounts) ++ [m])).

(** ** Validation *)
Fixpoint validate_volume_mounts (names : list ContainerId) (container : ContainerId) (ms : list PodVolumeMount) : result CoreError unit :=
  match ms with
  | [] => Ok tt
  | m :: ms =>
      if bool_decide (m.(vm_volume) ∈ names) then validate_volume_mounts names container ms
      else Err (PodUnknownEmptyDirMount (container_str container) (container_str m.(vm_volume)))
  end.
Definition validate_container_empty_dir_mounts (dirs : list EmptyDirVolume) (s : PodContainerSpec) : result CoreError unit :=
  validate_volume_mounts (ev_name <$> dirs) s.(cs_id) s.(cs_empty_dir_mounts).
(** The two loops of the validator with the sets they have seen. *)
Fixpoint unique_volumes (seen : list ContainerId) (dirs : list EmptyDirVolume) : result CoreError unit :=
  match dirs with
  | [] => Ok tt
  | v :: dirs =>
      if bool_decide (v.(ev_name) ∈ seen) then Err (PodDuplicateEmptyDirName (container_str v.(ev_name)))
      else unique_volumes (v.(ev_name) :: seen) dirs
  end.
Fixpoint valid_containers (dirs : list EmptyDirVolume) (seen : list ContainerId) (cs : list PodContainerSpec) : result CoreError unit :=
  match cs with
  | [] => Ok tt
  | s :: cs =>
      if bool_decide (s.(cs_id) ∈ seen) then Err (PodDuplicateContainerName (container_str s.(cs_id)))
      else _ ← validate_container_empty_dir_mounts dirs s; valid_containers dirs (s.(cs_id) :: seen) cs
  end.
Definition validate_pod_spec (dirs : list EmptyDirVolume) (cs : list PodContainerSpec) : result CoreError unit :=
  _ ← unique_volumes [] dirs; valid_containers dirs [] cs.

(** ** The store *)
Record PodStoreSpec := mk_store { st_block_device : Z; st_guest_mount : GuestPath; st_filesystem : GuestFilesystem }.
Definition store_ext4 (device : Z) : PodStoreSpec := mk_store device (mk_guest_path "/run/firkin/pod-store") GuestExt4.
(** A device takes the letter of its slot; the second disk is [vdb]. *)
Definition block_device_guest_path (slot : Z) : result CoreError string :=
  let too_large := RuntimeOperation "map block device" ("block device slot " +:+ print_dec slot +:+ " is too large for /dev/vd* mapping") in
  let index := Z.min (Z.max (slot - 1) 0) 255 in
  if 255 <? 98 + index then Err too_large
  else if 122 <? 98 + index then Err too_large
  else Ok ("/dev/vd" +:+ sep (ascii_of (98 + index))).

(** *** Paths *)
Definition pod_path (store : PodStoreSpec) (pod : PodId) (components : list string) : result CoreError GuestPath :=
  guest_path_new (foldl (fun path x => path +:+ "/" +:+ x) (store.(st_guest_mount).(guest_str) +:+ "/pods/" +:+ pod_str pod) components).
Definition key_byte (c : ascii) : ascii :=
  if is_ascii_alphanumeric c || Ascii.eqb c "." || Ascii.eqb c "_" || Ascii.eqb c "-" then c else "-".
Definition path_safe_digest_key (digest : string) : result CoreError string :=
  let key := String.string_of_list_ascii (key_byte <$> bytes digest) in
  if is_empty key || String.eqb key "." || String.eqb key ".." then
    Err (RuntimeOperation "build pod digest path key" ("digest " +:+ bt digest +:+ " does not produce a safe path segment"))
  else Ok key.
Record PodTemplateKey := mk_template_key { key_str : string }.
#[export] Instance template_key_eq_dec : EqDecision PodTemplateKey.
Proof. solve_decision. Defined.
#[export] Program Instance template_key_countable : Countable PodTemplateKey :=
  inj_countable' key_str mk_template_key _.
Next Obligation. by intros []. Qed.
#[export] Program Instance container_id_countable : Countable ContainerId :=
  inj_countable' container_str mk_ContainerId _.
Next Obligation. by intros []. Qed.
Definition template_key_from_digest (digest : string) : result CoreError PodTemplateKey :=
  k ← path_safe_digest_key digest; Ok (mk_template_key k).
Section Paths.
Context (store : PodStoreSpec) (pod : PodId).
Definition pod_base_path := pod_path store pod [].
Definition pod_rootfs_base_path := pod_path store pod ["rootfs"].
Definition pod_rootfs_layers_base_path := pod_path store pod ["layers"].
Definition pod_templates_base_path := pod_path store pod ["templates"].
Definition pod_containers_base_path := pod_path store pod ["containers"].
Definition pod_empty_dir_base_path := pod_path store pod ["emptydir"].
Definition pod_rootfs_path (id : ContainerId) := pod_path store pod ["rootfs"; container_str id].
Definition pod_rootfs_layer_base_path (id : ContainerId) := pod_path store pod ["layers"; container_str id].
Definition pod_rootfs_layer_path (id : ContainerId) (layer : Layer) : result CoreError GuestPath :=
  k ← path_safe_digest_key layer.(ly_digest); pod_path store pod ["layers"; container_str id; k].
Definition pod_template_base_path (key : PodTemplateKey) := pod_path store pod ["templates"; key.(key_str)].
Definition pod_template_rootfs_path (key : PodTemplateKey) := pod_path store pod ["templates"; key.(key_str); "rootfs"].
Definition pod_template_layers_base_path (key : PodTemplateKey) := pod_path store pod ["templates"; key.(key_str); "layers"].
Definition pod_template_layer_path (key : PodTemplateKey) (layer : Layer) : result CoreError GuestPath :=
  k ← path_safe_digest_key layer.(ly_digest); pod_path store pod ["templates"; key.(key_str); "layers"; k].
Definition pod_container_base_path (id : ContainerId) := pod_path store pod ["containers"; container_str id].
Definition pod_container_upper_path (id : ContainerId) := pod_path store pod ["containers"; container_str id; "upper"].
Definition pod_container_work_path (id : ContainerId) := pod_path store pod ["containers"; container_str id; "work"].
Definition pod_container_merged_path (id : ContainerId) := pod_path store pod ["containers"; container_str id; "merged"].
Definition pod_empty_dir_path (name : ContainerId) := pod_path store pod ["emptydir"; container_str name].
End Paths.
Record PodContainerLayout := mk_layout { pl_base : GuestPath; pl_upper : GuestPath; pl_work : GuestPath; pl_merged : GuestPath }.
Definition layout_new (store : PodStoreSpec) (pod : PodId) (id : ContainerId) : result CoreError PodContainerLayout :=
  base ← pod_container_base_path store pod id;
  upper ← pod_container_upper_path store pod id;
  work ← pod_container_work_path store pod id;
  merged ← pod_container_merged_path store pod id;
  Ok (mk_layout base upper work merged).
Definition validate_empty_dir_relative_path (p : string) : result CoreError unit :=
  let invalid reason := Err (RuntimeOperation "build pod emptyDir file path" ("relative path " +:+ bt p +:+ " is invalid: " +:+ reason)) in
  if is_empty p then invalid "path cannot be empty"
  else if contains NUL p then invalid "path cannot contain NUL"
  else if starts_with "/" p then invalid "path must be relative"
  else if existsb (fun x => is_empty x || String.eqb x "." || String.eqb x "..") (split "/" p) then invalid "path must be normalized"
  else Ok tt.
Definition empty_dir_file_path (store : PodStoreSpec) (pod : PodId) (name : ContainerId) (p : string) : result CoreError GuestPath :=
  _ ← validate_empty_dir_relative_path p;
  base ← pod_empty_dir_path store pod name;
  guest_path_new (base.(guest_str) +:+ "/" +:+ p).

(** ** Requests of the guest agent *)
Inductive GuestCall :=
| Mkdir (path : string) (all : bool) (perms : Z)
| MountCall (type source destination : string) (options : list string)
| Umount (path : string) (flags : Z)
| RemovePath (path : string) (recursive allow_missing : bool)
| CopyIn (source destination : string) (create_parents archive : bool)
| ApplyOciLayer (archive_path destination : string)
| SyncCall
| WriteFile (path : string) (data : list Z) (mode : Z) (create_parent_dirs append create_if_missing : bool)
| Fstrim (path : string) (minimum_bytes : Z)
| FilesystemUsage (path : string).
Definition mkdir_request (path : GuestPath) (perms : Z) : GuestCall := Mkdir path.(guest_str) true perms.
Definition remove_request (path : GuestPath) : GuestCall := RemovePath path.(guest_str) true true.
Definition apply_oci_layer_request (archive destination : GuestPath) : GuestCall :=
  ApplyOciLayer archive.(guest_str) destination.(guest_str).
Definition container_overlay_mount_request (lower : GuestPath) (l : PodContainerLayout) : GuestCall :=
  MountCall "overlay" "overlay" l.(pl_merged).(guest_str)
    ["lowerdir=" +:+ lower.(guest_str); "upperdir=" +:+ l.(pl_upper).(guest_str); "workdir=" +:+ l.(pl_work).(guest_str)].
Definition container_overlay_umount_request (l : PodContainerLayout) : GuestCall := Umount l.(pl_merged).(guest_str) 2.
Definition container_layout_remove_request (l : PodContainerLayout) : GuestCall := remove_request l.(pl_base).
(** Bytes in use from an answer: total, free, block size. *)
Definition used_bytes (total free block_size : Z) : Z := sat_mul 64 (sat_sub total free) block_size.

(** * Properties *)

(** ** Validation accepts exactly the consistent declarations *)
Lemma volume_mounts_ok names c ms :
  validate_volume_mounts names c ms = Ok tt <-> Forall (fun m => m.(vm_volume) ∈ names) ms.
Proof.
  induction ms as [|m ms IH]; [by split|]. cbn [validate_volume_mounts]. rewrite Forall_cons.
  case_bool_decide; [by rewrite IH; naive_solver|]. naive_solver.
Qed.
Lemma unseen_cons {A} (x : A) seen l : Forall (fun n => n ∉ (x :: seen)) l <-> (x ∉ l) /\ Forall (fun n => n ∉ seen) l.
Proof. rewrite !Forall_forall. set_solver. Qed.
Lemma unique_volumes_ok seen dirs :
  unique_volumes seen dirs = Ok tt <-> NoDup (ev_name <$> dirs) /\ Forall (fun n => n ∉ seen) (ev_name <$> dirs).
Proof.
  revert seen. induction dirs as [|v dirs IH]; intros seen; [split; [split; constructor|done]|].
  cbn [unique_volumes]. rewrite fmap_cons, NoDup_cons, Forall_cons. case_bool_decide as Hin; [naive_solver|].
  rewrite IH, unseen_cons. naive_solver.
Qed.
Lemma valid_containers_ok dirs seen cs :
  valid_containers dirs seen cs = Ok tt <->
    NoDup (cs_id <$> cs) /\ Forall (fun n => n ∉ seen) (cs_id <$> cs) /\
    Forall (fun s => Forall (fun m => m.(vm_volume) ∈ ev_name <$> dirs) s.(cs_empty_dir_mounts)) cs.
Proof.
  revert seen. induction cs as [|s cs IH]; intros seen; [split; [intros _; split_and!; constructor|done]|].
  cbn [valid_containers]. rewrite fmap_cons, NoDup_cons, !Forall_cons. case_bool_decide as Hin; [naive_solver|].
  unfold validate_container_empty_dir_mounts. pose proof (volume_mounts_ok (ev_name <$> dirs) (cs_id s) (cs_empty_dir_mounts s)) as Hv.
  destruct (validate_volume_mounts _ _ _) as [[]|]; cbn.
  - rewrite IH, unseen_cons. naive_solver.
  - split; [done|]. intros (_ & _ & Hm & _). by apply Hv in Hm.
Qed.
Lemma validate_pod_spec_ok dirs cs :
  validate_pod_spec dirs cs = Ok tt <->
    NoDup (ev_name <$> dirs) /\ NoDup (cs_id <$> cs) /\
    Forall (fun s => Forall (fun m => m.(vm_volume) ∈ ev_name <$> dirs) s.(cs_empty_dir_mounts)) cs.
Proof.
  unfold validate_pod_spec. pose proof (unique_volumes_ok [] dirs) as Hu. pose proof (valid_containers_ok dirs [] cs) as Hc.
  assert (Hnil : forall l : list ContainerId, Forall (fun n => n ∉ []) l) by (intros l; rewrite Forall_forall; set_solver).
  destruct (unique_volumes [] dirs) as [[]|]; cbn; [rewrite Hc|]; naive_solver.
Qed.

(** ** Where the paths lie *)
(** The names a path goes through. *)
Definition resolved (p : string) : list string := List.filter (fun c => negb (is_empty c || String.eqb c ".")) (split slash p).
Definition within (dir p : GuestPath) : Prop := resolved dir.(guest_str) `prefix_of` resolved p.(guest_str).
Lemma split_slash_app h r : split slash (h +:+ String slash r) = split slash h ++ split slash r.
Proof.
  induction h as [|c h IH]; [done|]. rewrite append_cons. cbn [split]. rewrite IH.
  destruct (Ascii.eqb slash c); [done|]. pose proof (split_nonempty slash h). by destruct (split slash h).
Qed.
Lemma resolved_app h r : resolved (h +:+ "/" +:+ r) = resolved h ++ resolved r.
Proof. unfold resolved. change ("/" +:+ r) with (String slash r). by rewrite split_slash_app, List.filter_app. Qed.
Lemma resolved_safe x : safe x -> resolved x = [x].
Proof.
  intros [[Hne Hs] Hb]. unfold resolved. rewrite split_single by done. cbn. unfold bad_base in Hb.
  apply orb_false_iff in Hb as [-> _]. done.
Qed.
Definition mount_names (s : PodStoreSpec) : list string := resolved s.(st_guest_mount).(guest_str).
Lemma pod_path_resolved store pod cs p : safe (pod_str pod) -> Forall safe cs -> pod_path store pod cs = Ok p ->
  resolved p.(guest_str) = mount_names store ++ "pods"%string :: pod_str pod :: cs.
Proof.
  intros Hpod Hcs. unfold pod_path, guest_path_new.
  set (base := store.(st_guest_mount).(guest_str) +:+ "/pods/" +:+ pod_str pod).
  assert (Hb : resolved base = mount_names store ++ ["pods"%string; pod_str pod]).
  { unfold base. change ("/pods/" +:+ pod_str pod) with ("/" +:+ ("pods" +:+ "/" +:+ pod_str pod)).
    by rewrite !resolved_app, (resolved_safe (pod_str pod)). }
  enough (Hf : forall acc, resolved (foldl (fun path x => path +:+ "/" +:+ x) acc cs) = resolved acc ++ cs).
  { destruct (validate_guest_path _); [|done]. cbn. intros [= <-]. cbn [guest_str]. by rewrite Hf, Hb, <- app_assoc. }
  induction Hcs as [|x cs Hx Hcs IH]; intros acc; [by rewrite app_nil_r|]. cbn [foldl].
  rewrite IH, resolved_app, (resolved_safe x), <- app_assoc by done. done.
Qed.

(** *** Areas *)
(** The directories of a pod that are created, mounted and removed as a
    whole. *)
Inductive Area :=
| ContainerArea (id : ContainerId)
| TemplateArea (key : PodTemplateKey)
| VolumeArea (name : ContainerId)
| RootfsArea (id : ContainerId)
| LayersArea (id : ContainerId).
Definition area_path (store : PodStoreSpec) (pod : PodId) (a : Area) : result CoreError GuestPath :=
  match a with
  | ContainerArea id => pod_container_base_path store pod id
  | TemplateArea key => pod_template_base_path store pod key
  | VolumeArea name => pod_empty_dir_path store pod name
  | RootfsArea id => pod_rootfs_path store pod id
  | LayersArea id => pod_rootfs_layer_base_path store pod id
  end.
Definition area_names (a : Area) : list string :=
  match a with
  | ContainerArea id => ["containers"; container_str id]
  | TemplateArea key => ["templates"; key.(key_str)]
  | VolumeArea name => ["emptydir"; container_str name]
  | RootfsArea id => ["rootfs"; container_str id]
  | LayersArea id => ["layers"; container_str id]
  end.
Definition area_name (a : Area) : string :=
  match a with
  | ContainerArea id | VolumeArea id | RootfsArea id | LayersArea id => container_str id
  | TemplateArea key => key.(key_str)
  end.
(** A name the validators let through, other than [.]. *)
Definition plain_name (s : string) : Prop := s <> EmptyString /\ all_bytes is_id_byte s = true /\ s <> "."%string.
Lemma id_no_slash s : all_bytes is_id_byte s = true -> contains slash s = false.
Proof. by apply all_bytes_no_byte. Qed.
Lemma plain_safe s : plain_name s -> s <> ".."%string -> safe s.
Proof.
  intros (Hne & Hb & Hd) Hdd. split; [by split; [|apply id_no_slash]|]. unfold bad_base.
  apply is_empty_false in Hne. apply String.eqb_neq in Hd, Hdd. by rewrite Hne, Hd, Hdd.
Qed.
Lemma pod_path_str store pod cs p : pod_path store pod cs = Ok p ->
  validate_guest_path (foldl (fun path x => path +:+ "/" +:+ x) (store.(st_guest_mount).(guest_str) +:+ "/pods/" +:+ pod_str pod) cs) = Ok tt.
Proof. unfold pod_path, guest_path_new. by destruct (validate_guest_path _) as [[]|]. Qed.
Lemma pod_path_split store pod cs :
  Forall (fun s => contains slash s = false) (pod_str pod :: cs) ->
  split slash (foldl (fun path x => path +:+ "/" +:+ x) (store.(st_guest_mount).(guest_str) +:+ "/pods/" +:+ pod_str pod) cs) =
    split slash store.(st_guest_mount).(guest_str) ++ "pods"%string :: pod_str pod :: cs.
Proof.
  intros [Hp Hcs]%Forall_cons.
  enough (Hf : forall acc, split slash (foldl (fun path x => path +:+ "/" +:+ x) acc cs) = split slash acc ++ cs).
  { rewrite Hf. change ("/pods/" +:+ pod_str pod) with (String slash ("pods" +:+ String slash (pod_str pod))).
    rewrite !split_slash_app, (split_single (pod_str pod)), <- !app_assoc by done. done. }
  induction Hcs as [|x cs Hx Hcs IH]; intros acc; [by rewrite app_nil_r|]. cbn [foldl].
  rewrite IH. change ("/" +:+ x) with (String slash x). rewrite split_slash_app, (split_single x), <- app_assoc by done. done.
Qed.
(** No path is made with a component that leads upwards. *)
Lemma pod_path_no_up store pod cs p :
  Forall (fun s => contains slash s = false) (pod_str pod :: cs) -> pod_path store pod cs = Ok p ->
  Forall (fun s => s <> ".."%string) (pod_str pod :: cs).
Proof.
  intros Hs Hp%pod_path_str. unfold validate_guest_path in Hp. destruct (existsb _ _) eqn:He in Hp; [by repeat case_match|].
  change "/"%char with slash in He. rewrite pod_path_split in He by done.
  pose proof (split_nonempty slash store.(st_guest_mount).(guest_str)) as Hne.
  destruct (split slash store.(st_guest_mount).(guest_str)) as [|h t]; [done|]. cbn [tail app] in He.
  apply existsb_false in He. apply Forall_app in He as [_ He]. apply Forall_cons in He as [_ He].
  eapply Forall_impl; [exact He|]. intros x Hx ->. by cbn in Hx.
Qed.
Lemma plain_no_slash s : plain_name s -> contains slash s = false.
Proof. intros (_ & ? & _). by apply id_no_slash. Qed.
#[local] Hint Resolve plain_no_slash : core.
Lemma digest_key_plain d k : path_safe_digest_key d = Ok k -> plain_name k /\ k <> ".."%string.
Proof.
  unfold path_safe_digest_key. destruct (_ || _) eqn:E; [done|]. intros [= <-].
  apply orb_false_iff in E as [[Hne Hd]%orb_false_iff Hdd]. apply is_empty_false in Hne. apply String.eqb_neq in Hd, Hdd.
  split; [|done]. split_and!; [done| |done]. unfold all_bytes, bytes. rewrite String.list_ascii_of_string_of_list_ascii.
  generalize (String.list_ascii_of_string d). clear. intros l. induction l as [|c l IH]; [done|]. cbn [fmap list_fmap forallb].
  apply andb_true_iff. split; [|done]. unfold key_byte, is_id_byte.
  destruct (is_ascii_alphanumeric c) eqn:Ea; [by cbn; rewrite Ea|]. cbn [orb].
  destruct (Ascii.eqb c ".") eqn:E1; [by cbn; rewrite Ea, E1, orb_true_r|].
  destruct (Ascii.eqb c "_") eqn:E2; [by cbn; rewrite Ea, E2|].
  destruct (Ascii.eqb c "-") eqn:E3; [by cbn; rewrite Ea, E1, E2, E3|done].
Qed.
(** A path of the store, by its names. *)
Lemma pod_path_names store pod cs p : Forall plain_name (pod_str pod :: cs) -> pod_path store pod cs = Ok p ->
  resolved p.(guest_str) = mount_names store ++ "pods"%string :: pod_str pod :: cs.
Proof.
  intros Hn Hp. assert (Hs : Forall safe (pod_str pod :: cs)).
  { assert (Hu : Forall (fun s => s <> ".."%string) (pod_str pod :: cs)).
    { eapply pod_path_no_up; [|exact Hp]. eapply Forall_impl; [exact Hn|apply plain_no_slash]. }
    rewrite Forall_forall in *. intros x Hx. by apply plain_safe; [apply Hn|apply Hu]. }
  apply Forall_cons in Hs as [? ?]. by apply pod_path_resolved.
Qed.
(** The paths that are used inside an area. *)
Definition area_files (store : PodStoreSpec) (pod : PodId) (a : Area) (x : GuestPath) : Prop :=
  match a with
  | ContainerArea id => exists l, layout_new store pod id = Ok l /\ x ∈ [l.(pl_base); l.(pl_upper); l.(pl_work); l.(pl_merged)]
  | TemplateArea key =>
      pod_template_rootfs_path store pod key = Ok x \/ pod_template_layers_base_path store pod key = Ok x \/
      exists layer, pod_template_layer_path store pod key layer = Ok x
  | VolumeArea name => exists p, empty_dir_file_path store pod name p = Ok x
  | RootfsArea id => pod_rootfs_path store pod id = Ok x
  | LayersArea id => exists layer, pod_rootfs_layer_path store pod id layer = Ok x
  end.
Definition area_prefix (store : PodStoreSpec) (pod : PodId) (a : Area) : list string :=
  mount_names store ++ "pods"%string :: pod_str pod :: area_names a.
Lemma area_path_names store pod a p : plain_name (pod_str pod) -> plain_name (area_name a) -> area_path store pod a = Ok p ->
  resolved p.(guest_str) = area_prefix store pod a.
Proof. intros Hp Ha E. destruct a; eapply pod_path_names; try exact E; repeat (constructor; try done). Qed.
Lemma area_files_names store pod a x : plain_name (pod_str pod) -> plain_name (area_name a) -> area_files store pod a x ->
  exists rest, resolved x.(guest_str) = area_prefix store pod a ++ rest.
Proof.
  intros Hp Ha Hx.
  assert (Hin : forall rest, Forall plain_name rest -> pod_path store pod (area_names a ++ rest) = Ok x ->
    exists rest, resolved x.(guest_str) = area_prefix store pod a ++ rest).
  { intros rest Hr E. exists rest. unfold area_prefix. rewrite <- app_assoc. eapply pod_path_names; [|exact E].
    constructor; [done|]. apply Forall_app. split; [|done]. destruct a; repeat (constructor; try done). }
  destruct a as [id|key|name|id|id]; cbn [area_files] in Hx.
  - destruct Hx as (l & E & Hx). unfold layout_new in E.
    destruct (pod_container_base_path store pod id) as [b|] eqn:Eb; [|done].
    destruct (pod_container_upper_path store pod id) as [u|] eqn:Eu; [|done].
    destruct (pod_container_work_path store pod id) as [w|] eqn:Ew; [|done].
    destruct (pod_container_merged_path store pod id) as [g|] eqn:Eg; [|done]. injection E as <-. cbn in Hx.
    rewrite !elem_of_cons, elem_of_nil in Hx. destruct Hx as [->|[->|[->|[->|[]]]]].
    + by apply (Hin []).
    + by apply (Hin ["upper"%string]); [repeat constructor|].
    + by apply (Hin ["work"%string]); [repeat constructor|].
    + by apply (Hin ["merged"%string]); [repeat constructor|].
  - destruct Hx as [E|[E|(layer & E)]].
    + by apply (Hin ["rootfs"%string]); [repeat constructor|].
    + by apply (Hin ["layers"%string]); [repeat constructor|].
    + unfold pod_template_layer_path in E. destruct (path_safe_digest_key _) as [k|] eqn:Ek; [|done].
      apply (Hin ["layers"%string; k]); [|done]. apply digest_key_plain in Ek as [Hk _]. by constructor; [|constructor].
  - destruct Hx as (p & E). unfold empty_dir_file_path in E. destruct (validate_empty_dir_relative_path p); [|done]. cbn in E.
    destruct (pod_empty_dir_path store pod name) as [base|] eqn:Eb; [|done]. cbn in E.
    unfold guest_path_new in E. destruct (validate_guest_path _); [|done]. injection E as <-. cbn [guest_str].
    exists (resolved p). rewrite resolved_app. f_equal. by apply (area_path_names store pod (VolumeArea name)).
  - by apply (Hin []).
  - destruct Hx as (layer & E). unfold pod_rootfs_layer_path in E. destruct (path_safe_digest_key _) as [k|] eqn:Ek; [|done].
    apply (Hin [k]); [|done]. constructor; [|done]. by apply digest_key_plain in Ek as [? _].
Qed.
Lemma area_prefix_inj store pod a pod' b rest :
  area_prefix store pod' b `prefix_of` area_prefix store pod a ++ rest -> (pod, a) = (pod', b).
Proof.
  unfold area_prefix. rewrite <- app_assoc. intros H%prefix_app_inv. destruct H as [k E]. cbn in E.
  injection E as E1 E2. assert (pod = pod') as ->. { destruct pod as [[]], pod' as [[]]. cbn in E1. by subst. }
  f_equal. destruct a as [[]|[]|[]|[]|[]], b as [[]|[]|[]|[]|[]]; cbn in E2; by simplify_eq.
Qed.
(** The directories a pod works on never overlap.  With identities other
    than [.], the directory of one container, template, volume or rootfs lies
    neither around nor inside the one of another, of the same pod or of
    another pod of the store; and every path that is made for its contents,
    among them the files clients write into volumes under names of their own
    choice, lies in the directory and in no other. *)
Theorem pod_areas_disjoint store pod pod' a b p q :
  plain_name (pod_str pod) -> plain_name (pod_str pod') -> plain_name (area_name a) -> plain_name (area_name b) ->
  area_path store pod a = Ok p -> area_path store pod' b = Ok q -> (pod, a) <> (pod', b) ->
  ~ within p q /\ forall x, area_files store pod a x -> within p x /\ ~ within q x.
Proof.
  intros Hp Hp' Ha Hb Ep Eq Hne. unfold within.
  rewrite (area_path_names store pod a p), (area_path_names store pod' b q) by done. split.
  - intros H. rewrite <- (app_nil_r (area_prefix store pod' b)) in H. apply area_prefix_inj in H. congruence.
  - intros x (rest & ->)%area_files_names; [|done..]. split; [by apply prefix_app_r|].
    intros H%area_prefix_inj. congruence.
Qed.
Lemma pod_areas_disjoint_witness :
  exists p q x, area_path (store_ext4 1) (mk_pod_id (mk_ContainerId "pod-a")) (ContainerArea (mk_ContainerId "worker")) = Ok p /\
    ~ within p q /\ empty_dir_file_path (store_ext4 1) (mk_pod_id (mk_ContainerId "pod-a")) (mk_ContainerId "db") "requests/1" = Ok x /\ ~ within p x.
Proof.
  eexists _, _, _. split; [reflexivity|].
  assert (Hn : forall s, negb (is_empty s) && all_bytes is_id_byte s && negb (String.eqb s ".") = true -> plain_name s).
  { intros s H. apply andb_true_iff in H as [[Hne Hb]%andb_true_iff Hd]. apply negb_true_iff in Hne, Hd.
    split_and!; [by apply is_empty_false|done|by apply String.eqb_neq]. }
  split; [|split; [reflexivity|]].
  - apply (pod_areas_disjoint (store_ext4 1) (mk_pod_id (mk_ContainerId "pod-a")) (mk_pod_id (mk_ContainerId "pod-a"))
      (ContainerArea (mk_ContainerId "worker")) (VolumeArea (mk_ContainerId "db"))); try (by apply Hn); try reflexivity. discriminate.
  - apply (pod_areas_disjoint (store_ext4 1) (mk_pod_id (mk_ContainerId "pod-a")) (mk_pod_id (mk_ContainerId "pod-a"))
      (VolumeArea (mk_ContainerId "db")) (ContainerArea (mk_ContainerId "worker")) (mk_guest_path "/run/firkin/pod-store/pods/pod-a/emptydir/db"));
      try (by apply Hn); try reflexivity; [discriminate|]. by exists "requests/1"%string.
Defined.
(** The validators accept [.], and then the directory of a container is the
    one of all containers: removing it removes every container's state. *)
Lemma dot_container_covers_all :
  ContainerId_new "." = Ok (mk_ContainerId ".") /\
  exists dot worker, layout_new (store_ext4 1) (mk_pod_id (mk_ContainerId "pod-a")) (mk_ContainerId ".") = Ok dot /\
    layout_new (store_ext4 1) (mk_pod_id (mk_ContainerId "pod-a")) (mk_ContainerId "worker") = Ok worker /\
    within dot.(pl_base) worker.(pl_base).
Proof. split; [reflexivity|]. eexists _, _. split; [reflexivity|]. split; [reflexivity|]. by exists ["worker"%string]. Qed.
