(* ===== verification/Pod.v ===== *)
(** * Pods ([crates/core/src/pod/{exec,materialize,mod}.rs])

    A pod is a virtual machine with a store and any number of containers.
    Its registry is changed under a lock; the slow phases of adding a
    container and waiting for one run without it, so they interleave with
    everything else ([step]).  What the guest agent, the copies over vsock and
    the containers answer is a [Guest]; every request is recorded. *)
From S2P Require Import Prelude Ext4Path Ext4Writer BTree Types HostPaths HostFs E2bWire E2bRoutes OciReference Artifacts ArtifactFiles OciClient ContainerSpec PodLayout.
Import Ids Hostnames Mounts.

(** ** Requests and answers *)
(** A running container. *)
Record Handle := mk_handle { hd_id : ContainerId; hd_serial : Z }.
Definition Output : Type := list Z * list Z * Z.
Section Pods.
Context {SeccompProfile : Type}.
#[local] Abbreviation Builder := (@ContainerBuilder SeccompProfile).
Inductive PodCall :=
| Boot
| Connect
| GuestSetup
| Agent (c : GuestCall)
| StartContainer (b : Builder)
| Running (h : Handle)
| StopContainer (h : Handle)
| WaitContainer (h : Handle)
| StopVm.
Definition Log : Type := list PodCall.
Class Guest := {
  boot : Log -> result string unit;
  connect : Log -> result CoreError unit;
  guest_setup : Log -> result CoreError unit;
  rpc : Log -> GuestCall -> result string Z;
  usage : Log -> result string (Z * Z * Z);
  copy : Log -> string -> string -> result CoreError unit;
  start_container : Log -> Builder -> result CoreError Z;
  stop_container : Log -> Handle -> result CoreError Z;
  wait_output : Log -> Handle -> result CoreError Output;
  stop_machine : Log -> result string unit;
  (** The order in which a [HashMap] gives its entries out. *)
  drain : forall A, gmap ContainerId A -> list A;
  drain_all : forall A (m : gmap ContainerId A), drain A m ≡ₚ (map_to_list m).*2
}.

(** ** Effects *)
Definition ST (S A : Type) : Type := S -> S * result CoreError A.
#[export] Instance ST_ret {S} : MRet (ST S) := fun A a s => (s, Ok a).
#[export] Instance ST_bind {S} : MBind (ST S) := fun A B k m s =>
  match m s with (s', Ok a) => k a s' | (s', Err e) => (s', Err e) end.
Definition lift {S A} (r : result CoreError A) : ST S A := fun s => (s, r).
(** [let _ = ..]: the outcome is ignored. *)
Definition attempt {S A} (m : ST S A) : ST S unit := fun s => ((m s).1, Ok tt).
Definition ask {A} (c : PodCall) (answer : Log -> result CoreError A) : ST Log A := fun h => (h ++ [c], answer h).

Section Operations.
Context `{Guest}.
Definition runtime_rpc_error (operation reason : string) : CoreError := RuntimeOperation operation reason.
Definition agent (operation : string) (c : GuestCall) : ST Log Z :=
  ask (Agent c) (fun h => map_err (runtime_rpc_error operation) (rpc h c)).
Definition mkdir_guest_path (path : GuestPath) (perms : Z) (operation : string) : ST Log unit :=
  _ ← agent operation (mkdir_request path perms); mret tt.
Definition remove_guest_path (path : GuestPath) (operation : string) : ST Log unit :=
  _ ← agent operation (remove_request path); mret tt.
Definition copy_file_to_guest_path (source : string) (destination : GuestPath) : ST Log unit :=
  ask (Agent (CopyIn source destination.(guest_str) true false)) (fun h => copy h source destination.(guest_str)).
Fixpoint for_each {X} (f : X -> ST Log unit) (l : list X) : ST Log unit :=
  match l with [] => mret tt | x :: l => _ ← f x; for_each f l end.

(** *** The store *)
Definition mount_pod_store_with_client (spec : PodStoreSpec) : ST Log unit :=
  _ ← agent "mkdir pod store" (mkdir_request spec.(st_guest_mount) 493);
  device ← lift (block_device_guest_path spec.(st_block_device));
  _ ← agent "mount pod store" (MountCall (mount_type spec.(st_filesystem)) device spec.(st_guest_mount).(guest_str) ["rw"%string]);
  mret tt.
Definition mount_pod_store (spec : PodStoreSpec) : ST Log unit :=
  _ ← ask Connect connect; mount_pod_store_with_client spec.
Definition prepare_pod_directories (store : PodStoreSpec) (pod : PodId) : ST Log unit :=
  base ← lift (pod_base_path store pod);
  rootfs ← lift (pod_rootfs_base_path store pod);
  layers ← lift (pod_rootfs_layers_base_path store pod);
  templates ← lift (pod_templates_base_path store pod);
  containers ← lift (pod_containers_base_path store pod);
  emptydir ← lift (pod_empty_dir_base_path store pod);
  for_each (fun p => mkdir_guest_path p 493 "mkdir pod directory") [base; rootfs; layers; templates; containers; emptydir].
Definition prepare_empty_dir (store : PodStoreSpec) (pod : PodId) (v : EmptyDirVolume) : ST Log unit :=
  path ← lift (pod_empty_dir_path store pod v.(ev_name));
  _ ← mkdir_guest_path path 511 "mkdir pod emptyDir";
  match v.(ev_medium) with
  | MediumMemory =>
      let options := "rw"%string :: match v.(ev_size_limit) with Some n => ["size=" +:+ print_dec n] | None => [] end in
      _ ← agent "mount pod memory emptyDir" (MountCall "tmpfs" "tmpfs" path.(guest_str) options); mret tt
  | MediumDisk => mret tt
  end.
Definition prepare_empty_dirs (store : PodStoreSpec) (pod : PodId) (vs : list EmptyDirVolume) : ST Log unit :=
  for_each (prepare_empty_dir store pod) vs.

(** *** Root file systems *)
Definition materialize_layer (layer_path : Layer -> result CoreError GuestPath) (rootfs : GuestPath) (operation : string) (layer : Layer) : ST Log unit :=
  path ← lift (layer_path layer);
  _ ← copy_file_to_guest_path layer.(ly_path) path;
  _ ← agent operation (apply_oci_layer_request path rootfs);
  mret tt.
Definition materialize_oci_template (store : PodStoreSpec) (pod : PodId) (key : PodTemplateKey) (bundle : ImageBundle) : ST Log GuestPath :=
  base ← lift (pod_template_base_path store pod key);
  _ ← remove_guest_path base "remove existing pod template";
  rootfs ← lift (pod_template_rootfs_path store pod key);
  layer_dir ← lift (pod_template_layers_base_path store pod key);
  _ ← mkdir_guest_path rootfs 493 "mkdir pod template rootfs";
  _ ← mkdir_guest_path layer_dir 493 "mkdir pod template layer directory";
  _ ← for_each (materialize_layer (pod_template_layer_path store pod key) rootfs "apply pod template layer") bundle.(ib_layers);
  _ ← agent "sync pod template materialization" SyncCall;
  mret rootfs.
Definition ext4_unsupported (path : string) : CoreError :=
  RuntimeOperation "materialize ext4 pod rootfs" (path +:+ " requires a guest mount-and-copy helper; use an OCI bundle or GuestPath rootfs").
Definition materialize_rootfs_in_pod_store_for_pod (store : PodStoreSpec) (pod : PodId) (id : ContainerId) (source : PodRootfsSource)
  : ST Log (GuestPath * option string) :=
  _ ← prepare_pod_directories store pod;
  match source with
  | RootfsGuestPath path => mret (path, None)
  | RootfsExt4Image path => lift (Err (ext4_unsupported path))
  | RootfsOciBundle bundle =>
      rootfs ← lift (pod_rootfs_path store pod id);
      _ ← remove_guest_path rootfs "remove existing pod container rootfs";
      _ ← mkdir_guest_path rootfs 493 "mkdir pod container rootfs";
      layer_dir ← lift (pod_rootfs_layer_base_path store pod id);
      _ ← remove_guest_path layer_dir "remove existing pod rootfs layers";
      _ ← mkdir_guest_path layer_dir 493 "mkdir pod rootfs layer directory";
      _ ← for_each (materialize_layer (pod_rootfs_layer_path store pod id) rootfs "apply pod rootfs layer") bundle.(ib_layers);
      _ ← agent "sync pod rootfs materialization" SyncCall;
      mret (rootfs, Some bundle.(ib_digest))
  end.
Definition materialize_rootfs_in_pod_store (store : PodStoreSpec) (id : ContainerId) (source : PodRootfsSource)
  : ST Log (GuestPath * option string) :=
  _ ← ask Connect connect;
  pod ← lift (map_err CoreInvalidContainerId (pod_id_new "default"));
  _ ← prepare_pod_directories store pod;
  materialize_rootfs_in_pod_store_for_pod store pod id source.
Definition prepare_container_overlay_layout (l : PodContainerLayout) : ST Log unit :=
  for_each (fun p => mkdir_guest_path p 493 "mkdir pod container overlay path") [l.(pl_upper); l.(pl_work); l.(pl_merged)].
Definition cleanup_container_layout_with_client (l : PodContainerLayout) : ST Log unit :=
  _ ← attempt (agent "umount pod container overlay rootfs" (container_overlay_umount_request l));
  _ ← agent "remove pod container overlay state" (container_layout_remove_request l);
  mret tt.

(** ** A pod *)
Record Pod := mk_pod {
  pd_id : PodId;
  pd_store : PodStoreSpec;
  pd_empty_dirs : list EmptyDirVolume;
  pd_templates : gmap PodTemplateKey GuestPath;
  pd_layouts : gmap ContainerId PodContainerLayout;
  pd_containers : gmap ContainerId Handle;
  pd_pending : gset ContainerId
}.
Definition with_templates t (p : Pod) : Pod := mk_pod p.(pd_id) p.(pd_store) p.(pd_empty_dirs) t p.(pd_layouts) p.(pd_containers) p.(pd_pending).
Definition with_registry l c (p : Pod) : Pod := mk_pod p.(pd_id) p.(pd_store) p.(pd_empty_dirs) p.(pd_templates) l c p.(pd_pending).
Definition with_pending s (p : Pod) : Pod := mk_pod p.(pd_id) p.(pd_store) p.(pd_empty_dirs) p.(pd_templates) p.(pd_layouts) p.(pd_containers) s.
Definition PM (A : Type) : Type := ST (Pod * Log) A.
Definition on_guest {A} (m : ST Log A) : PM A := fun '(p, h) => let '(h', r) := m h in ((p, h'), r).
Definition get : PM Pod := fun s => (s, Ok s.1).
Definition put (f : Pod -> Pod) : PM unit := fun '(p, h) => ((f p, h), Ok tt).

(** *** Adding containers *)
Record PendingPodContainerAdd := mk_pending {
  pa_id : ContainerId;
  pa_spec : PodContainerSpec;
  pa_rootfs_path : GuestPath;
  pa_overlay_lower : option GuestPath;
  pa_layout : option PodContainerLayout;
  pa_mounts : list Mount
}.
Record PreparedPodContainerAdd := mk_prepared {
  pr_id : ContainerId;
  pr_spec : PodContainerSpec;
  pr_rootfs_path : GuestPath;
  pr_layout : option PodContainerLayout;
  pr_mounts : list Mount
}.
Record StartedPodContainerAdd := mk_started {
  sa_id : ContainerId;
  sa_container : Handle;
  sa_layout : option PodContainerLayout
}.
Fixpoint empty_dir_mounts (store : PodStoreSpec) (pod : PodId) (dirs : list EmptyDirVolume) (id : ContainerId) (ms : list PodVolumeMount)
  : result CoreError (list Mount) :=
  match ms with
  | [] => Ok []
  | m :: ms =>
      volume ← ok_or (RuntimeOperation "build pod emptyDir mounts" ("container " +:+ container_str id +:+ " references unknown emptyDir " +:+ container_str m.(vm_volume)))
                 (List.find (fun v => bool_decide (v.(ev_name) = m.(vm_volume))) dirs);
      destination ← to_str "build pod emptyDir mounts" "emptyDir destination " m.(vm_path);
      source ← pod_empty_dir_path store pod volume.(ev_name);
      let mount := Mounts.bind source.(guest_str) destination in
      let mount := if m.(vm_read_only) then read_only mount else mount in
      rest ← empty_dir_mounts store pod dirs id ms;
      Ok (mount :: rest)
  end.
Definition pod_container_mounts (p : Pod) (s : PodContainerSpec) : result CoreError (list Mount) :=
  dirs ← empty_dir_mounts p.(pd_store) p.(pd_id) p.(pd_empty_dirs) s.(cs_id) s.(cs_empty_dir_mounts);
  Ok (s.(cs_mounts) ++ dirs).
Definition ensure_oci_template (bundle : ImageBundle) : PM GuestPath :=
  p ← get;
  key ← lift (template_key_from_digest bundle.(ib_digest));
  match p.(pd_templates) !! key with
  | Some template => mret template
  | None =>
      template ← on_guest (materialize_oci_template p.(pd_store) p.(pd_id) key bundle);
      _ ← put (fun p => with_templates (<[key := template]> p.(pd_templates)) p);
      mret template
  end.
Definition already_exists (id : ContainerId) : CoreError :=
  RuntimeOperation "add pod container" ("container " +:+ container_str id +:+ " already exists").
Definition begin_container_add (spec : PodContainerSpec) : PM PendingPodContainerAdd :=
  p ← get;
  let id := spec.(cs_id) in
  if bool_decide (is_Some (p.(pd_containers) !! id)) || bool_decide (id ∈ p.(pd_pending)) then lift (Err (already_exists id))
  else
    _ ← lift (validate_container_empty_dir_mounts p.(pd_empty_dirs) spec);
    mounts ← lift (pod_container_mounts p spec);
    place ← match spec.(cs_rootfs) with
            | RootfsGuestPath path => mret (path, None, None)
            | RootfsExt4Image path => lift (Err (ext4_unsupported path))
            | RootfsOciBundle bundle =>
                template ← ensure_oci_template bundle;
                layout ← lift (layout_new p.(pd_store) p.(pd_id) id);
                mret (layout.(pl_merged), Some template, Some layout)
            end;
    _ ← put (fun p => with_pending ({[id]} ∪ p.(pd_pending)) p);
    let '(rootfs, lower, layout) := place in
    mret (mk_pending id spec rootfs lower layout mounts).
Definition mount_overlay (lower : GuestPath) (layout : PodContainerLayout) : ST Log unit := fun h =>
  match agent "mount pod container overlay rootfs" (container_overlay_mount_request lower layout) h with
  | (h, Ok _) => (h, Ok tt)
  | (h, Err e) => ((cleanup_container_layout_with_client layout h).1, Err e)
  end.
Definition no_lower (id : ContainerId) : CoreError :=
  RuntimeOperation "prepare pod container overlay" ("container " +:+ container_str id +:+ " has overlay layout without lower rootfs").
Definition pending_prepare (a : PendingPodContainerAdd) : ST Log PreparedPodContainerAdd :=
  _ ← match a.(pa_layout) with
      | None => mret tt
      | Some layout =>
          _ ← prepare_container_overlay_layout layout;
          lower ← lift (ok_or (no_lower a.(pa_id)) a.(pa_overlay_lower));
          mount_overlay lower layout
      end;
  mret (mk_prepared a.(pa_id) a.(pa_spec) a.(pa_rootfs_path) a.(pa_layout) a.(pa_mounts)).
(** The builder that [container_shared] gives, filled from the specification. *)
Definition prepared_builder (a : PreparedPodContainerAdd) : Builder :=
  let b := builder_new a.(pr_id) in
  let b := match a.(pr_spec).(cs_rootfs) with RootfsOciBundle bundle => image_config bundle.(ib_config) b | _ => b end in
  let b := match a.(pr_spec).(cs_command) with [] => b | command => ContainerSpec.command command b end in
  let b := match a.(pr_spec).(cs_env) with [] => b | env => envs env b end in
  with_mounts a.(pr_mounts) (Some a.(pr_rootfs_path)) b.
Definition prepared_start (a : PreparedPodContainerAdd) : ST Log StartedPodContainerAdd := fun h =>
  match ask (StartContainer (prepared_builder a)) (fun h => start_container h (prepared_builder a)) h with
  | (h, Ok serial) =>
      let c := mk_handle a.(pr_id) serial in
      (h ++ [Running c], Ok (mk_started a.(pr_id) c a.(pr_layout)))
  | (h, Err e) =>
      (match a.(pr_layout) with Some layout => (cleanup_container_layout_with_client layout h).1 | None => h end, Err e)
  end.
Definition pending_start (a : PendingPodContainerAdd) : ST Log StartedPodContainerAdd :=
  prepared ← pending_prepare a; prepared_start prepared.
Definition not_pending (p : Pod) (id : ContainerId) : CoreError :=
  RuntimeOperation "commit pod container add" ("container " +:+ container_str id +:+ " is not pending on pod " +:+ pod_str p.(pd_id)).
Definition commit_container_add (s : StartedPodContainerAdd) : PM unit :=
  p ← get;
  if negb (bool_decide (s.(sa_id) ∈ p.(pd_pending))) then lift (Err (not_pending p s.(sa_id)))
  else put (fun p => with_registry (match s.(sa_layout) with Some l => <[s.(sa_id) := l]> p.(pd_layouts) | None => p.(pd_layouts) end)
                       (<[s.(sa_id) := s.(sa_container)]> p.(pd_containers)) (with_pending (p.(pd_pending) ∖ {[s.(sa_id)]}) p)).
Definition abort_container_add (id : ContainerId) : PM unit := put (fun p => with_pending (p.(pd_pending) ∖ {[id]}) p).
Definition finish_add (a : PendingPodContainerAdd) : PM unit := fun s =>
  match on_guest (pending_start a) s with
  | (s, Ok started) => commit_container_add started s
  | (s, Err e) => ((abort_container_add a.(pa_id) s).1, Err e)
  end.
Definition add_container (spec : PodContainerSpec) : PM unit := pending ← begin_container_add spec; finish_add pending.

(** *** Waiting, removing and stopping *)
Record DetachedPodContainer := mk_detached { dt_id : ContainerId; dt_container : Handle; dt_layout : option PodContainerLayout }.
Definition not_tracked (operation : string) (p : Pod) (id : ContainerId) : CoreError :=
  RuntimeOperation operation ("container " +:+ container_str id +:+ " is not tracked by pod " +:+ pod_str p.(pd_id)).
Definition detach_container_for_wait (id : ContainerId) : PM DetachedPodContainer :=
  p ← get;
  container ← lift (ok_or (not_tracked "detach pod container for wait" p id) (p.(pd_containers) !! id));
  _ ← put (fun p => with_registry (delete id p.(pd_layouts)) (delete id p.(pd_containers)) p);
  mret (mk_detached id container (p.(pd_layouts) !! id)).
Definition detached_wait_with_output (d : DetachedPodContainer) : ST Log Output :=
  output ← ask (WaitContainer d.(dt_container)) (fun h => wait_output h d.(dt_container));
  _ ← match d.(dt_layout) with Some layout => cleanup_container_layout_with_client layout | None => mret tt end;
  mret output.
Definition wait_container (id : ContainerId) : PM Output :=
  detached ← detach_container_for_wait id; on_guest (detached_wait_with_output detached).
Definition cleanup_container_layout_for_id (id : ContainerId) : PM unit :=
  p ← get;
  match p.(pd_layouts) !! id with
  | Some layout =>
      _ ← on_guest (cleanup_container_layout_with_client layout);
      put (fun p => with_registry (delete id p.(pd_layouts)) p.(pd_containers) p)
  | None => mret tt
  end.
Definition stop_container_with_grace (c : Handle) : ST Log Z := ask (StopContainer c) (fun h => stop_container h c).
Definition remove_container (id : ContainerId) : PM Z :=
  p ← get;
  container ← lift (ok_or (not_tracked "remove pod container" p id) (p.(pd_containers) !! id));
  status ← on_guest (stop_container_with_grace container);
  _ ← cleanup_container_layout_for_id id;
  _ ← put (fun p => with_registry p.(pd_layouts) (delete id p.(pd_containers)) p);
  mret status.
Definition trim_store : PM Z := p ← get; on_guest (agent "trim pod store" (Fstrim p.(pd_store).(st_guest_mount).(guest_str) 0)).
Definition store_used_bytes : PM Z :=
  p ← get;
  on_guest (u ← ask (Agent (FilesystemUsage p.(pd_store).(st_guest_mount).(guest_str)))
                 (fun h => map_err (runtime_rpc_error "read pod-store filesystem usage") (usage h));
            let '(total, free, block_size) := u in mret (used_bytes total free block_size)).
Definition template_cache_entries (p : Pod) : Z := Z.of_nat (size p.(pd_templates)).
Definition stop_containers_and_cleanup : PM unit :=
  p ← get;
  _ ← put (with_registry p.(pd_layouts) ∅);
  _ ← on_guest (for_each (fun c => attempt (stop_container_with_grace c)) (drain Handle p.(pd_containers)));
  _ ← put (with_registry ∅ ∅);
  on_guest (for_each (fun l => attempt (cleanup_container_layout_with_client l)) (drain PodContainerLayout p.(pd_layouts))).
Definition stop_vm : ST Log unit := ask StopVm (fun h => map_err (RuntimeOperation "stop pod VM") (stop_machine h)).
Definition shutdown : PM unit := _ ← stop_containers_and_cleanup; on_guest stop_vm.
Definition shutdown_trimming_store : PM unit :=
  _ ← stop_containers_and_cleanup; _ ← attempt trim_store; on_guest stop_vm.

(** *** Files of volumes *)
Definition begin_empty_dir_file_write (name : ContainerId) (path : string) : PM GuestPath :=
  p ← get;
  if existsb (fun v => bool_decide (v.(ev_name) = name)) p.(pd_empty_dirs) then
    lift (empty_dir_file_path p.(pd_store) p.(pd_id) name path)
  else lift (Err (RuntimeOperation "write pod emptyDir file" ("emptyDir volume " +:+ container_str name +:+ " is not declared on pod " +:+ pod_str p.(pd_id)))).
Definition pending_write (destination : GuestPath) (data : list Z) : ST Log GuestPath :=
  _ ← agent "write pod emptyDir file" (WriteFile destination.(guest_str) data 420 true false true); mret destination.
Definition write_empty_dir_file (name : ContainerId) (path : string) (data : list Z) : PM GuestPath :=
  destination ← begin_empty_dir_file_write name path; on_guest (pending_write destination data).

(** *** The builder *)
Record PodBuilder := mk_pod_builder {
  pb_id : PodId;
  pb_store : PodStoreSpec;
  pb_empty_dirs : list EmptyDirVolume;
  pb_containers : list PodContainerSpec
}.
Definition pod_builder_new (id : string) (store : PodStoreSpec) : result CoreError PodBuilder :=
  p ← map_err CoreInvalidContainerId (pod_id_new id); Ok (mk_pod_builder p store [] []).
Definition builder_validate (b : PodBuilder) : result CoreError unit := validate_pod_spec b.(pb_empty_dirs) b.(pb_containers).
Definition pod_new (b : PodBuilder) : Pod := mk_pod b.(pb_id) b.(pb_store) b.(pb_empty_dirs) ∅ ∅ ∅ ∅.
(** The first container that cannot be added stops the pod. *)
Fixpoint add_containers (cs : list PodContainerSpec) : PM unit :=
  match cs with
  | [] => mret tt
  | c :: cs => fun s =>
      match add_container c s with
      | (s, Ok _) => add_containers cs s
      | (s, Err e) => ((shutdown s).1, Err e)
      end
  end.
Definition pod_boot (b : PodBuilder) : ST Log unit :=
  _ ← lift (builder_validate b);
  _ ← ask Boot (fun h => map_err (RuntimeOperation "boot pod VM") (boot h));
  _ ← ask Connect connect;
  _ ← ask GuestSetup guest_setup;
  _ ← mount_pod_store_with_client b.(pb_store);
  _ ← prepare_pod_directories b.(pb_store) b.(pb_id);
  prepare_empty_dirs b.(pb_store) b.(pb_id) b.(pb_empty_dirs).
Definition pod_spawn (b : PodBuilder) : ST Log Pod := fun h =>
  match pod_boot b h with
  | (h, Err e) => (h, Err e)
  | (h, Ok _) =>
      match add_containers b.(pb_containers) (pod_new b, h) with
      | ((p, h), Ok _) => (h, Ok p)
      | ((_, h), Err e) => (h, Err e)
      end
  end.
End Operations.

(** ** Interleavings
    Requests hold the lock of the pod while they change its registry; adding
    a container lets go of it between its reservation and its end
    ([apple_vz.rs], [add_pod_container]), waiting for one after it was
    detached ([wait_pod_container]). *)
Inductive Stage :=
| StPending (a : PendingPodContainerAdd)
| StPrepared (a : PreparedPodContainerAdd)
| StStarted (s : StartedPodContainerAdd)
| StFailed.
Record System := mk_system {
  sy_pod : Pod;
  sy_log : Log;
  sy_flights : list (ContainerId * Stage);
  sy_waits : list DetachedPodContainer
}.
Definition system_state (s : System) : Pod * Log := (s.(sy_pod), s.(sy_log)).
Definition remove_at {X} (i : nat) (l : list X) : list X := take i l ++ drop (S i) l.
Section Handlers.
Context `{Guest}.
Definition run_locked {A} (m : PM A) (s : System) (flights : result CoreError A -> list (ContainerId * Stage))
    (waits : result CoreError A -> list DetachedPodContainer) : System :=
  let '((p, h), r) := m (system_state s) in mk_system p h (flights r) (waits r).
Definition add_begin (spec : PodContainerSpec) (s : System) : System :=
  run_locked (begin_container_add spec) s
    (fun r => match r with Ok a => s.(sy_flights) ++ [(a.(pa_id), StPending a)] | Err _ => s.(sy_flights) end) (fun _ => s.(sy_waits)).
(** The next phase of the add at a position. *)
Definition add_advance (i : nat) (s : System) : System :=
  match s.(sy_flights) !! i with
  | Some (id, StPending a) =>
      let '(h, r) := pending_prepare a s.(sy_log) in
      mk_system s.(sy_pod) h (<[i := (id, match r with Ok a => StPrepared a | Err _ => StFailed end)]> s.(sy_flights)) s.(sy_waits)
  | Some (id, StPrepared a) =>
      let '(h, r) := prepared_start a s.(sy_log) in
      mk_system s.(sy_pod) h (<[i := (id, match r with Ok c => StStarted c | Err _ => StFailed end)]> s.(sy_flights)) s.(sy_waits)
  | Some (id, StStarted c) => run_locked (commit_container_add c) s (fun _ => remove_at i s.(sy_flights)) (fun _ => s.(sy_waits))
  | Some (id, StFailed) => run_locked (abort_container_add id) s (fun _ => remove_at i s.(sy_flights)) (fun _ => s.(sy_waits))
  | None => s
  end.
Definition wait_begin (id : ContainerId) (s : System) : System :=
  run_locked (detach_container_for_wait id) s (fun _ => s.(sy_flights))
    (fun r => match r with Ok d => s.(sy_waits) ++ [d] | Err _ => s.(sy_waits) end).
Definition wait_end (i : nat) (s : System) : System :=
  match s.(sy_waits) !! i with
  | Some d => mk_system s.(sy_pod) (detached_wait_with_output d s.(sy_log)).1 s.(sy_flights) (remove_at i s.(sy_waits))
  | None => s
  end.
Definition locked {A} (m : PM A) (s : System) : System := run_locked m s (fun _ => s.(sy_flights)) (fun _ => s.(sy_waits)).
End Handlers.
Inductive PodRequest :=
| AddBegin (spec : PodContainerSpec)
| AddAdvance (i : nat)
| WaitBegin (id : ContainerId)
| WaitEnd (i : nat)
| Remove (id : ContainerId)
| Shutdown (trim : bool)
| Trim
| WriteEmptyDir (name : ContainerId) (path : string) (data : list Z).
Definition handle `{Guest} (r : PodRequest) (s : System) : System :=
  match r with
  | AddBegin spec => add_begin spec s
  | AddAdvance i => add_advance i s
  | WaitBegin id => wait_begin id s
  | WaitEnd i => wait_end i s
  | Remove id => locked (remove_container id) s
  | Shutdown trim => locked (if trim then shutdown_trimming_store else shutdown) s
  | Trim => locked trim_store s
  | WriteEmptyDir name path data => locked (write_empty_dir_file name path data) s
  end.
(** The guest may answer every request in its own way. *)
Inductive reachable (b : PodBuilder) : System -> Prop :=
| reach_new h : (forall c, Running c ∉ h) -> reachable b (mk_system (pod_new b) h [] [])
| reach_step s (G : Guest) r : reachable b s -> reachable b (handle r s).
End Pods.
