(* ===== verification/PodInv.v ===== *)
(** * Properties of pods ([Pod])

    The registry stays consistent under every interleaving of the phases of
    requests, and no container that was started is forgotten; templates are
    built once per image. *)
From S2P Require Import Prelude Ext4Path Ext4Writer BTree Types HostPaths HostFs E2bWire E2bRoutes OciReference Artifacts ArtifactFiles OciClient ContainerSpec PodLayout Pod.
Import Ids Hostnames Mounts.

Create HintDb pods.
Section Proofs.
Context {P : Type}.
#[local] Abbreviation Log := (@Log P).
#[local] Abbreviation Call := (@PodCall P).

(** ** Requests that start no container *)
Definition unstarted (cs : Log) : Prop := forall c, Running c ∉ cs.
Definition quiet {A} (m : ST Log A) : Prop := forall h, exists cs, (m h).1 = h ++ cs /\ unstarted cs.
Lemma unstarted_nil : unstarted [].
Proof. intros c. apply not_elem_of_nil. Qed.
Lemma unstarted_app a b : unstarted a -> unstarted b -> unstarted (a ++ b).
Proof. intros Ha Hb c [H|H]%elem_of_app; [by apply (Ha c)|by apply (Hb c)]. Qed.
Lemma quiet_ret {A} (a : A) : quiet (mret a).
Proof. intros h. exists []. split; [by rewrite app_nil_r|apply unstarted_nil]. Qed.
Lemma quiet_lift {A} (r : result CoreError A) : quiet (lift r).
Proof. intros h. exists []. split; [by rewrite app_nil_r|apply unstarted_nil]. Qed.
Lemma quiet_ask {A} (c : Call) (f : Log -> result CoreError A) : (forall x, c <> Running x) -> quiet (ask c f).
Proof. intros Hc h. exists [c]. split; [done|]. intros x E%list_elem_of_singleton. by apply (Hc x). Qed.
Lemma quiet_bind {A B} (m : ST Log A) (k : A -> ST Log B) : quiet m -> (forall a, quiet (k a)) -> quiet (m ≫= k).
Proof.
  intros Hm Hk h. destruct (Hm h) as (cs & E & Hcs). unfold mbind, ST_bind. destruct (m h) as [h1 [a|e]]; cbn in E |- *; subst.
  - destruct (Hk a (h ++ cs)) as (cs' & -> & Hcs'). exists (cs ++ cs'). rewrite <- app_assoc. split; [done|by apply unstarted_app].
  - by exists cs.
Qed.
Lemma quiet_attempt {A} (m : ST Log A) : quiet m -> quiet (attempt m).
Proof. intros Hm h. apply Hm. Qed.
Lemma quiet_for_each {X} (f : X -> ST Log unit) l : (forall x, quiet (f x)) -> quiet (for_each f l).
Proof. intros Hf. induction l as [|x l IH]; [apply quiet_ret|]. cbn [for_each]. by apply quiet_bind. Qed.
End Proofs.
#[export] Hint Resolve quiet_ret quiet_lift quiet_bind quiet_attempt quiet_for_each : pods.
#[export] Hint Extern 1 (quiet (ask _ _)) => apply quiet_ask; discriminate : pods.
Ltac quiet_tac := repeat (apply quiet_bind; [|intros]); eauto with pods.
Section Proofs2.
Context {P : Type} `{G : @Guest P}.
#[local] Abbreviation Log := (@Log P).
Lemma quiet_agent op c : quiet (agent op c).
Proof. unfold agent. eauto with pods. Qed.
#[local] Hint Resolve quiet_agent : pods.
Lemma quiet_mkdir p perms op : quiet (mkdir_guest_path p perms op).
Proof. unfold mkdir_guest_path. quiet_tac. Qed.
Lemma quiet_remove p op : quiet (remove_guest_path p op).
Proof. unfold remove_guest_path. quiet_tac. Qed.
Lemma quiet_copy s p : quiet (copy_file_to_guest_path s p).
Proof. unfold copy_file_to_guest_path. eauto with pods. Qed.
#[local] Hint Resolve quiet_mkdir quiet_remove quiet_copy : pods.
Lemma quiet_layer f rootfs op l : quiet (materialize_layer f rootfs op l).
Proof. unfold materialize_layer. quiet_tac. Qed.
#[local] Hint Resolve quiet_layer : pods.
Lemma quiet_template store pod key bundle : quiet (materialize_oci_template store pod key bundle).
Proof. unfold materialize_oci_template. quiet_tac. Qed.
Lemma quiet_cleanup l : quiet (cleanup_container_layout_with_client l).
Proof. unfold cleanup_container_layout_with_client. quiet_tac. Qed.
Lemma quiet_overlay_dirs l : quiet (prepare_container_overlay_layout l).
Proof. unfold prepare_container_overlay_layout. eauto with pods. Qed.
#[local] Hint Resolve quiet_template quiet_cleanup quiet_overlay_dirs : pods.
Lemma quiet_mount_overlay lower l : quiet (mount_overlay lower l).
Proof.
  intros h. unfold mount_overlay. destruct (quiet_agent "mount pod container overlay rootfs" (container_overlay_mount_request lower l) h) as (cs & E & Hcs).
  destruct (agent _ _ h) as [h1 [x|e]]; cbn in E |- *; subst; [by exists cs|].
  destruct (quiet_cleanup l (h ++ cs)) as (cs' & -> & Hcs'). exists (cs ++ cs'). rewrite <- app_assoc. split; [done|by apply unstarted_app].
Qed.
#[local] Hint Resolve quiet_mount_overlay : pods.
Lemma quiet_prepare a : quiet (pending_prepare a).
Proof. unfold pending_prepare. apply quiet_bind; [|eauto with pods]. destruct (pa_layout a); quiet_tac. Qed.
Lemma quiet_stop c : quiet (stop_container_with_grace c).
Proof. unfold stop_container_with_grace. eauto with pods. Qed.
Lemma quiet_wait d : quiet (detached_wait_with_output d).
Proof. unfold detached_wait_with_output. apply quiet_bind; [eauto with pods|]. intros. destruct (dt_layout d); quiet_tac. Qed.
Lemma quiet_stop_vm : quiet stop_vm.
Proof. unfold stop_vm. eauto with pods. Qed.
Lemma quiet_write p data : quiet (pending_write p data).
Proof. unfold pending_write. quiet_tac. Qed.
End Proofs2.
#[export] Hint Resolve quiet_agent quiet_mkdir quiet_remove quiet_copy quiet_layer quiet_template quiet_cleanup
  quiet_overlay_dirs quiet_mount_overlay quiet_prepare quiet_stop quiet_wait quiet_stop_vm quiet_write : pods.

(** ** What each operation does to the registry *)
Section Specs.
Context {P : Type} `{G : @Guest P}.
#[local] Abbreviation Log := (@Log P).
(** A log with more requests, none of which started a container. *)
Definition ext (h h' : Log) : Prop := exists cs, h' = h ++ cs /\ unstarted cs.
#[export] Instance ext_preorder : PreOrder ext.
Proof.
  split.
  - intros h. exists []. split; [by rewrite app_nil_r|apply unstarted_nil].
  - intros h1 h2 h3 (c1 & -> & H1) (c2 & -> & H2). exists (c1 ++ c2). rewrite <- app_assoc. split; [done|by apply unstarted_app].
Qed.
Lemma ext_elem (h h' : Log) c : ext h h' -> c ∈ h -> c ∈ h'.
Proof. intros (cs & -> & _) Hc. apply elem_of_app. by left. Qed.
Lemma ext_running (h h' : Log) c : ext h h' -> Running c ∈ h' -> Running c ∈ h.
Proof. intros (cs & -> & Hu) [Hc|Hc]%elem_of_app; [done|]. by destruct (Hu c). Qed.
Lemma on_guest_eq {A} (m : ST Log A) p h : on_guest m (p, h) = ((p, (m h).1), (m h).2).
Proof. unfold on_guest. by destruct (m h). Qed.
Lemma ST_bind_ok {S A B} (m : ST S A) (k : A -> ST S B) s s' a : m s = (s', Ok a) -> (m ≫= k) s = k a s'.
Proof. intros E. unfold mbind, ST_bind. by rewrite E. Qed.
Lemma ST_bind_err {S A B} (m : ST S A) (k : A -> ST S B) s s' e : m s = (s', Err e) -> (m ≫= k) s = (s', Err e).
Proof. intros E. unfold mbind, ST_bind. by rewrite E. Qed.

Definition layout_ok (p : Pod) (id : ContainerId) (l : option PodContainerLayout) : Prop :=
  forall l', l = Some l' -> layout_new p.(pd_store) p.(pd_id) id = Ok l'.
Definition templates_ok (p : Pod) : Prop :=
  forall k x, p.(pd_templates) !! k = Some x -> pod_template_rootfs_path p.(pd_store) p.(pd_id) k = Ok x.
(** The fields that adding a template may not change. *)
Definition same_registry (p p' : Pod) : Prop :=
  p'.(pd_id) = p.(pd_id) /\ p'.(pd_store) = p.(pd_store) /\ p'.(pd_empty_dirs) = p.(pd_empty_dirs) /\
  p'.(pd_layouts) = p.(pd_layouts) /\ p'.(pd_containers) = p.(pd_containers) /\ p'.(pd_pending) = p.(pd_pending).
Lemma same_registry_refl p : same_registry p p.
Proof. by repeat split. Qed.
Lemma ext_refl (h : Log) : ext h h.
Proof. reflexivity. Qed.
#[local] Hint Resolve same_registry_refl ext_refl : core.

Lemma template_result store pod key bundle (h : Log) x :
  (materialize_oci_template store pod key bundle h).2 = Ok x -> pod_template_rootfs_path store pod key = Ok x.
Proof.
  unfold materialize_oci_template, mbind, ST_bind, lift.
  destruct (pod_template_base_path store pod key) as [b|]; [|done]. destruct (remove_guest_path _ _ _) as [h1 [[]|]]; [|done].
  destruct (pod_template_rootfs_path store pod key) as [r|]; [|done]. destruct (pod_template_layers_base_path store pod key) as [ld|]; [|done].
  repeat (case_match; try done).
Qed.
Lemma ensure_template_spec bundle p h p' h' r :
  ensure_oci_template bundle (p, h) = ((p', h'), r) -> templates_ok p ->
  ext h h' /\ same_registry p p' /\ templates_ok p'.
Proof.
  unfold ensure_oci_template, get, lift, mbind, ST_bind, mret, ST_ret. cbn [fst]. intros E Ht.
  destruct (template_key_from_digest _) as [key|e]; [|simplify_eq; split_and!; by auto].
  destruct (pd_templates p !! key) as [t|] eqn:Ek; [cbn in E; simplify_eq; split_and!; by auto|].
  rewrite on_guest_eq in E. destruct (quiet_template p.(pd_store) p.(pd_id) key bundle h) as (cs & Ecs & Hcs).
  pose proof (template_result p.(pd_store) p.(pd_id) key bundle h) as Hr.
  destruct (materialize_oci_template _ _ _ _ h) as [h1 [x|e]]; cbn in E, Ecs, Hr; simplify_eq.
  - split_and!; [by exists cs|by repeat split|]. intros k y. cbn [with_templates pd_templates pd_store pd_id].
    intros [[<- <-]|[_ Hy]]%lookup_insert_Some; [by apply Hr|by apply Ht].
  - split_and!; [by exists cs|by auto..].
Qed.
Lemma begin_spec spec p h p' h' r :
  begin_container_add spec (p, h) = ((p', h'), r) -> templates_ok p ->
  ext h h' /\ templates_ok p' /\
  match r with
  | Ok a =>
      p.(pd_containers) !! spec.(cs_id) = None /\ (spec.(cs_id) ∉ p.(pd_pending)) /\
      same_registry (with_pending ({[spec.(cs_id)]} ∪ p.(pd_pending)) p) p' /\
      a.(pa_id) = spec.(cs_id) /\ layout_ok p a.(pa_id) a.(pa_layout) /\ (a.(pa_overlay_lower) = None -> a.(pa_layout) = None)
  | Err _ => same_registry p p'
  end.
Proof.
  unfold begin_container_add, get, lift, mbind, ST_bind, mret, ST_ret. cbn [fst]. intros E Ht.
  destruct (bool_decide (is_Some _)) eqn:E1; [cbn in E; simplify_eq; split_and!; by auto|]. destruct (bool_decide (_ ∈ _)) eqn:E2; [cbn in E; simplify_eq; split_and!; by auto|].
  apply bool_decide_eq_false_1 in E1, E2. apply eq_None_not_Some in E1. cbn [orb] in E.
  destruct (validate_container_empty_dir_mounts _ _) as [[]|]; [|simplify_eq; split_and!; by auto].
  destruct (pod_container_mounts p spec) as [ms|]; [|simplify_eq; split_and!; by auto].
  destruct (cs_rootfs spec) as [g|bundle|path]; [|destruct (ensure_oci_template bundle (p, h)) as [[p1 h1] r1] eqn:Et|].
  - cbn in E. simplify_eq. cbn. split_and!; auto. by intros ? [=].
  - destruct (ensure_template_spec _ _ _ _ _ _ Et Ht) as (Hext & (Ha & Hb & Hc & Hd & He & Hf) & Ht').
    destruct r1 as [x|e]; [|simplify_eq; split_and!; by auto].
    destruct (layout_new _ _ _) as [l|] eqn:El; [|simplify_eq; split_and!; by auto]. cbn in E. simplify_eq. cbn.
    split_and!; try done; [|by intros l' [= <-]]. unfold same_registry. cbn. rewrite Ha, Hb, Hc, Hd, He, Hf. done.
  - simplify_eq; split_and!; by auto.
Qed.
Lemma quiet_ext {A} (m : ST Log A) h : quiet m -> ext h (m h).1.
Proof. intros Hm. apply Hm. Qed.
Lemma detach_spec id p h p' (h' : Log) r :
  detach_container_for_wait id (p, h) = ((p', h'), r) ->
  h' = h /\ match r with
            | Ok d => p' = with_registry (delete id p.(pd_layouts)) (delete id p.(pd_containers)) p /\
                      p.(pd_containers) !! id = Some d.(dt_container) /\ d.(dt_id) = id /\ d.(dt_layout) = p.(pd_layouts) !! id
            | Err _ => p' = p
            end.
Proof.
  unfold detach_container_for_wait, get, put, lift, mbind, ST_bind, mret, ST_ret. cbn [fst].
  destruct (pd_containers p !! id) as [c|] eqn:Ec; cbn; intros [= <- <- <-]; by split_and!.
Qed.
(** A container leaves the registry only after it was stopped. *)
Lemma remove_spec id p h p' h' r :
  remove_container id (p, h) = ((p', h'), r) ->
  ext h h' /\ (p' = p \/ p' = with_registry (delete id p.(pd_layouts)) (delete id p.(pd_containers)) p /\
    exists c, p.(pd_containers) !! id = Some c /\ StopContainer c ∈ h').
Proof.
  unfold remove_container, get, put, lift, mbind, ST_bind, mret, ST_ret. cbn [fst].
  destruct (pd_containers p !! id) as [c|] eqn:Ec; cbn [ok_or]; [|intros [= <- <- <-]; by auto].
  rewrite on_guest_eq. pose proof (quiet_ext _ h (quiet_stop c)) as Hs. assert (Hin : StopContainer c ∈ (stop_container_with_grace c h).1).
  { cbn. apply elem_of_app. right. by apply list_elem_of_singleton. }
  destruct (stop_container_with_grace c h) as [h1 [st|e]]; cbn [fst snd] in *; [|intros [= <- <- <-]; by auto].
  unfold cleanup_container_layout_for_id, get, mbind, ST_bind, mret, ST_ret. cbn [fst].
  destruct (pd_layouts p !! id) as [l|] eqn:El.
  - rewrite on_guest_eq. pose proof (quiet_ext _ h1 (quiet_cleanup l)) as Hc.
    assert (Hext : ext h (cleanup_container_layout_with_client l h1).1) by (by transitivity h1).
    pose proof (ext_elem _ _ _ Hc Hin).
    destruct (cleanup_container_layout_with_client l h1) as [h2 [[]|e]]; cbn [fst snd put] in *; intros [= <- <- <-]; [|by auto].
    split; [done|]. right. split; [done|]. by exists c.
  - intros [= <- <- <-]. split; [done|]. right. rewrite (delete_id (pd_layouts p)) by done. split; [done|]. by exists c.
Qed.
Lemma stop_all_elem cs c (h : Log) : c ∈ cs -> StopContainer c ∈ (for_each (fun c => attempt (stop_container_with_grace c)) cs h).1.
Proof.
  revert h. induction cs as [|x cs IH]; intros h Hc; [by apply elem_of_nil in Hc|]. cbn [for_each]. unfold mbind, ST_bind, attempt. cbn [fst].
  apply elem_of_cons in Hc as [->|Hc]; [|by apply IH]. eapply ext_elem; [apply quiet_ext; eauto with pods|].
  cbn. apply elem_of_app. right. by apply list_elem_of_singleton.
Qed.
Lemma for_each_attempt {X A} (f : X -> ST Log A) l h : (for_each (fun x => attempt (f x)) l h).2 = Ok tt.
Proof. revert h. induction l as [|x l IH]; intros h; [done|]. cbn [for_each]. unfold mbind, ST_bind, attempt. cbn. apply IH. Qed.
Lemma stop_cleanup_spec p h p' h' r : stop_containers_and_cleanup (p, h) = ((p', h'), r) ->
  ext h h' /\ p' = with_registry ∅ ∅ p /\ (forall id c, p.(pd_containers) !! id = Some c -> StopContainer c ∈ h').
Proof.
  unfold stop_containers_and_cleanup, get, put, mbind, ST_bind. cbn [fst]. rewrite on_guest_eq.
  set (stops := for_each _ (drain Handle _)). pose proof (quiet_ext stops h ltac:(eauto with pods)) as H1.
  assert (Hin : forall id c, pd_containers p !! id = Some c -> StopContainer c ∈ (stops h).1).
  { intros id c Hc. apply stop_all_elem. rewrite drain_all. apply list_elem_of_fmap. exists (id, c). split; [done|]. by apply elem_of_map_to_list. }
  assert (Hok : (stops h).2 = Ok tt) by apply for_each_attempt.
  destruct (stops h) as [h1 r1]. cbn [fst snd] in *. subst r1. rewrite on_guest_eq. intros [= <- <- <-].
  set (cleans := for_each _ _). pose proof (quiet_ext cleans h1 ltac:(eauto with pods)) as H2.
  split; [by transitivity h1|]. split; [done|]. intros id c Hc. eapply ext_elem; [exact H2|]. by eapply Hin.
Qed.
Lemma shutdown_spec (trim : bool) p h p' h' r :
  (if trim then shutdown_trimming_store else shutdown) (p, h) = ((p', h'), r) ->
  ext h h' /\ p' = with_registry ∅ ∅ p /\ (forall id c, p.(pd_containers) !! id = Some c -> StopContainer c ∈ h').
Proof.
  destruct (stop_containers_and_cleanup (p, h)) as [[p1 h1] r1] eqn:E. destruct (stop_cleanup_spec _ _ _ _ _ E) as (He & -> & Hin).
  assert (Hmore : forall h2, ext h1 h2 -> ext h h2 /\ with_registry ∅ ∅ p = with_registry ∅ ∅ p /\
    (forall id c, pd_containers p !! id = Some c -> StopContainer c ∈ h2)).
  { intros h2 Hx. split; [by transitivity h1|]. split; [done|]. intros id c Hc. eapply ext_elem; [exact Hx|by eapply Hin]. }
  destruct trim; unfold shutdown_trimming_store, shutdown, mbind, ST_bind; rewrite E; destruct r1 as [[]|]; try (intros [= <- <- <-]; by auto).
  - unfold attempt, trim_store, get, mbind, ST_bind. cbn [fst]. rewrite !on_guest_eq. cbn [fst]. rewrite on_guest_eq. intros [= <- <- <-].
    apply Hmore. rewrite <- app_assoc. eexists. split; [done|].
    by intros c [[=]|[[=]|[]%elem_of_nil]%elem_of_cons]%elem_of_cons.
  - rewrite on_guest_eq. intros [= <- <- <-]. apply Hmore. exact (quiet_ext stop_vm h1 quiet_stop_vm).
Qed.
Lemma bind_ret_ok {S A B} (m : ST S A) (x : B) s s' y : (m ≫= fun _ => mret x) s = (s', Ok y) -> y = x.
Proof. unfold mbind, ST_bind. destruct (m s) as [? []]; [|done]. by intros [= _ <-]. Qed.
Lemma prepare_spec a h h' r : pending_prepare a h = (h', r) ->
  ext h h' /\ forall a', r = Ok a' -> a'.(pr_id) = a.(pa_id) /\ a'.(pr_layout) = a.(pa_layout).
Proof.
  intros E. split; [rewrite (surjective_pairing (pending_prepare a h)) in E; injection E as <- _; apply quiet_ext; eauto with pods|].
  intros a' ->. apply bind_ret_ok in E as ->. done.
Qed.
Lemma start_spec a h h' r : prepared_start a h = (h', r) ->
  match r with
  | Ok s => s.(sa_id) = a.(pr_id) /\ s.(sa_container).(hd_id) = a.(pr_id) /\ s.(sa_layout) = a.(pr_layout) /\
            exists h1, ext h h1 /\ h' = h1 ++ [Running s.(sa_container)]
  | Err _ => ext h h'
  end.
Proof.
  unfold prepared_start, ask. set (h1 := h ++ [StartContainer _]).
  assert (H1 : ext h h1). { exists [StartContainer (prepared_builder a)]. split; [done|]. by intros c [=]%list_elem_of_singleton. }
  destruct (start_container _ _) as [n|e]; intros [= <- <-]; cbn.
  - split_and!; [done..|]. by exists h1.
  - destruct (pr_layout a) as [l|]; [|done]. etrans; [exact H1|]. apply quiet_ext. eauto with pods.
Qed.
End Specs.

(** ** The invariant *)
Section Invariant.
Context {P : Type}.
#[local] Abbreviation Log := (@Log P).
#[local] Abbreviation System := (@System P).
(** Who holds a container. *)
Definition held (s : System) (c : Handle) : Prop :=
  (exists id a, (id, StStarted a) ∈ s.(sy_flights) /\ a.(sa_container) = c) \/
  (exists id, s.(sy_pod).(pd_containers) !! id = Some c) \/
  (exists d, d ∈ s.(sy_waits) /\ d.(dt_container) = c).
(** Its end was asked for. *)
Definition ended (h : Log) (c : Handle) : Prop := StopContainer c ∈ h \/ WaitContainer c ∈ h.
Definition flight_ok (p : Pod) (f : ContainerId * Stage) : Prop :=
  match f.2 with
  | StPending a => a.(pa_id) = f.1 /\ layout_ok p f.1 a.(pa_layout)
  | StPrepared a => a.(pr_id) = f.1 /\ layout_ok p f.1 a.(pr_layout)
  | StStarted c => c.(sa_id) = f.1 /\ c.(sa_container).(hd_id) = f.1 /\ layout_ok p f.1 c.(sa_layout)
  | StFailed => True
  end.
Record Inv (s : System) : Prop := {
  inv_flights_nodup : NoDup s.(sy_flights).*1;
  inv_pending id : id ∈ s.(sy_pod).(pd_pending) <-> id ∈ s.(sy_flights).*1;
  inv_free id : id ∈ s.(sy_flights).*1 -> s.(sy_pod).(pd_containers) !! id = None;
  inv_layouts id l : s.(sy_pod).(pd_layouts) !! id = Some l ->
    is_Some (s.(sy_pod).(pd_containers) !! id) /\ layout_new s.(sy_pod).(pd_store) s.(sy_pod).(pd_id) id = Ok l;
  inv_ids id c : s.(sy_pod).(pd_containers) !! id = Some c -> c.(hd_id) = id;
  inv_templates : templates_ok s.(sy_pod);
  inv_flights : Forall (flight_ok s.(sy_pod)) s.(sy_flights);
  inv_kept c : Running c ∈ s.(sy_log) -> held s c \/ ended s.(sy_log) c
}.
Lemma ended_ext (h h' : Log) c : ext h h' -> ended h c -> ended h' c.
Proof. intros He [H|H]; [left|right]; by eapply ext_elem. Qed.
Lemma flight_ok_same p p' f : p'.(pd_id) = p.(pd_id) -> p'.(pd_store) = p.(pd_store) -> flight_ok p f -> flight_ok p' f.
Proof. intros E1 E2. unfold flight_ok, layout_ok. by rewrite E1, E2. Qed.
(** More requests, with the same registry, flights and waits. *)
Lemma inv_ext (s : System) p h :
  Inv s -> ext s.(sy_log) h -> same_registry s.(sy_pod) p -> templates_ok p -> Inv (mk_system p h s.(sy_flights) s.(sy_waits)).
Proof.
  intros [Hn Hp Hf Hl Hi Ht Hfl Hk] He (E1 & E2 & E3 & E4 & E5 & E6) Ht'. split; cbn; rewrite ?E1, ?E2, ?E4, ?E5, ?E6; try done.
  - eapply Forall_impl; [exact Hfl|]. intros f. by apply flight_ok_same.
  - intros c Hc%(ext_running _ _ _ He). destruct (Hk c Hc) as [Hh|Hend]; [left|right; by eapply ended_ext].
    unfold held in *. cbn. by rewrite E5.
Qed.
Lemma inv_start b h : (forall c, Running c ∉ h) -> Inv (mk_system (pod_new b) h [] []).
Proof.
  intros Hh. split; cbn; try done.
  - constructor.
  - intros id. set_solver.
  - intros c Hc. by destruct (Hh c).
Qed.
Lemma flights_fst_insert (l : list (ContainerId * Stage)) i id st st' :
  l !! i = Some (id, st) -> (<[i := (id, st')]> l).*1 = l.*1.
Proof. intros E. rewrite list_fmap_insert. cbn. apply list_insert_id. by rewrite list_lookup_fmap, E. Qed.
Lemma remove_at_elem {X} i (l : list X) x y : l !! i = Some x -> y ∈ l -> y = x \/ y ∈ remove_at i l.
Proof.
  intros E Hy. rewrite <- (take_drop_middle l i x E) in Hy. unfold remove_at. rewrite elem_of_app, elem_of_cons in Hy. rewrite elem_of_app. naive_solver.
Qed.
Lemma remove_at_sub {X} i (l : list X) y : y ∈ remove_at i l -> y ∈ l.
Proof.
  unfold remove_at. rewrite elem_of_app. rewrite <- (take_drop i l) at 3. rewrite elem_of_app. intros [H|H]; [by left|right].
  replace (S i) with (i + 1)%nat in H by lia. rewrite <- drop_drop in H. rewrite <- (take_drop 1 (drop i l)). apply elem_of_app. by right.
Qed.
(** Without a flight its identity is free. *)
Lemma remove_at_ids (l : list (ContainerId * Stage)) i id st : NoDup l.*1 -> l !! i = Some (id, st) ->
  NoDup (remove_at i l).*1 /\ forall x, x ∈ (remove_at i l).*1 <-> x ∈ l.*1 /\ x <> id.
Proof.
  intros Hn E. pose proof (take_drop_middle l i _ E) as El. revert El. unfold remove_at.
  generalize (take i l) (drop (S i) l). intros l1 l2 <-. rewrite !fmap_app, fmap_cons in *. cbn [fst] in *.
  apply NoDup_app in Hn as (H1 & H2 & H3). apply NoDup_cons in H3 as [H3 H4].
  split; [apply NoDup_app; split_and!; [done|set_solver|done]|]. intros x. set_solver.
Qed.

(** *** Preservation *)
Context `{G : @Guest P}.
Lemma inv_add_begin spec s : Inv s -> Inv (add_begin spec s).
Proof.
  intros HI. unfold add_begin, run_locked, system_state. destruct (begin_container_add spec _) as [[p h] r] eqn:E.
  destruct (begin_spec _ _ _ _ _ _ E (inv_templates _ HI)) as (He & Ht & Hr). destruct r as [a|e]; [|by apply inv_ext].
  destruct Hr as (Hfree & Hnp & (E1 & E2 & E3 & E4 & E5 & E6) & Hid & Hlay & _). cbn in E1, E2, E3, E4, E5, E6.
  destruct HI as [Hn Hp Hf Hl Hi _ Hfl Hk]. assert (Hnf : spec.(cs_id) ∉ s.(sy_flights).*1) by by rewrite <- Hp.
  split; cbn; rewrite ?fmap_app, ?E1, ?E2, ?E4, ?E5, ?E6; cbn; rewrite ?Hid; try done.
  - apply NoDup_app. split_and!; [done| |apply NoDup_singleton]. set_solver.
  - intros id. rewrite elem_of_union, elem_of_app, Hp. set_solver.
  - intros id [Hin|E0%list_elem_of_singleton]%elem_of_app; [by apply Hf|by subst].
  - apply Forall_app. split; [eapply Forall_impl; [exact Hfl|]; intros f; by apply flight_ok_same|].
    repeat constructor; cbn; [done|]. rewrite <- Hid. unfold layout_ok in *. by rewrite E1, E2.
  - intros c Hc%(ext_running _ _ _ He). destruct (Hk c Hc) as [Hh|Hend]; [left|right; by eapply ended_ext].
    destruct Hh as [(id & x & Hx & Ec)|[H|H]]; [left|right; left; cbn; by rewrite E5|by right; right].
    exists id, x. split; [|done]. cbn. apply elem_of_app. by left.
Qed.
(** A flight goes on to its next stage. *)
Lemma inv_replace s i id st st' h :
  Inv s -> s.(sy_flights) !! i = Some (id, st) -> (forall a, st <> StStarted a) -> flight_ok s.(sy_pod) (id, st') ->
  (forall c, Running c ∈ h -> Running c ∈ s.(sy_log) \/ exists a, st' = StStarted a /\ a.(sa_container) = c) ->
  (forall c, ended s.(sy_log) c -> ended h c) ->
  Inv (mk_system s.(sy_pod) h (<[i := (id, st')]> s.(sy_flights)) s.(sy_waits)).
Proof.
  intros [Hn Hp Hf Hl Hi Ht Hfl Hk] Ei Hst Hok Hrun Hend. split; cbn; rewrite ?(flights_fst_insert _ _ _ _ st' Ei); try done.
  - by apply Forall_insert.
  - assert (Hlt : (i < length s.(sy_flights))%nat) by by eapply lookup_lt_Some.
    intros c [Hc|(a & -> & Ha)]%Hrun.
    + destruct (Hk c Hc) as [[(j & x & Hx & Ec)|Hh]|He]; [left; left|left; by right|right; by apply Hend].
      exists j, x. split; [|done]. cbn. apply list_elem_of_lookup in Hx as [k Hx]. apply list_elem_of_lookup. exists k.
      rewrite list_lookup_insert_ne; [done|]. intros ->. rewrite Ei in Hx. injection Hx as _ ->. by apply (Hst x).
    + left. left. exists id, a. split; [|done]. cbn. apply list_elem_of_lookup. exists i. by apply list_lookup_insert_eq.
Qed.
Lemma ext_log s (h : Log) : ext s.(sy_log) h -> (forall c, Running c ∈ h -> Running c ∈ s.(sy_log)) /\ (forall c, ended s.(sy_log) c -> ended h c).
Proof. intros He. split; intros c; [by apply ext_running|by apply ended_ext]. Qed.
(** A flight ends and its identity is released. *)
Lemma inv_land s i id st p h :
  Inv s -> s.(sy_flights) !! i = Some (id, st) ->
  p.(pd_pending) = s.(sy_pod).(pd_pending) ∖ {[id]} -> p.(pd_id) = s.(sy_pod).(pd_id) -> p.(pd_store) = s.(sy_pod).(pd_store) ->
  p.(pd_templates) = s.(sy_pod).(pd_templates) ->
  (forall j, j <> id -> p.(pd_containers) !! j = s.(sy_pod).(pd_containers) !! j /\ p.(pd_layouts) !! j = s.(sy_pod).(pd_layouts) !! j) ->
  (forall l, p.(pd_layouts) !! id = Some l -> is_Some (p.(pd_containers) !! id) /\ layout_new p.(pd_store) p.(pd_id) id = Ok l) ->
  (forall c, p.(pd_containers) !! id = Some c -> c.(hd_id) = id) ->
  (forall a, st = StStarted a -> p.(pd_containers) !! id = Some a.(sa_container)) -> h = s.(sy_log) ->
  Inv (mk_system p h (remove_at i s.(sy_flights)) s.(sy_waits)).
Proof.
  intros [Hn Hp Hf Hl Hi Ht Hfl Hk] Ei Epend E1 E2 E3 Hother Hlay Hid Hst ->.
  destruct (remove_at_ids _ _ _ _ Hn Ei) as [Hn' Hin']. split; cbn; try done.
  - intros x. rewrite Epend, elem_of_difference, Hp, Hin', elem_of_singleton. done.
  - intros x [Hx Hne]%Hin'. destruct (Hother x Hne) as [-> _]. by apply Hf.
  - intros x l Hx. destruct (decide (x = id)) as [->|Hne]; [by apply Hlay|]. destruct (Hother x Hne) as [-> El].
    rewrite El in Hx. rewrite E1, E2. by apply Hl.
  - intros x c Hx. destruct (decide (x = id)) as [->|Hne]; [by apply Hid|]. destruct (Hother x Hne) as [El _]. rewrite El in Hx. by apply Hi.
  - unfold templates_ok. by rewrite E1, E2, E3.
  - rewrite Forall_forall in *. intros f Hf'%remove_at_sub. eapply flight_ok_same; [..|by apply Hfl]; done.
  - intros c Hc. destruct (Hk c Hc) as [[(j & a & Ha & Ec)|[(j & Hj)|Hw]]|He]; [left|left|left; by right; right|by right].
    + destruct (remove_at_elem _ _ _ _ Ei Ha) as [[= -> <-]|Ha'].
      * right. left. exists id. cbn. rewrite (Hst a), Ec; done.
      * left. by exists j, a.
    + right. left. exists j. cbn. destruct (Hother j) as [-> _]; [|done]. intros ->.
      rewrite Hf in Hj; [done|]. apply list_elem_of_fmap. exists (id, st). split; [done|]. by eapply list_elem_of_lookup_2.
Qed.
Lemma flight_at s i f : Inv s -> s.(sy_flights) !! i = Some f -> flight_ok s.(sy_pod) f /\ f.1 ∈ s.(sy_flights).*1.
Proof.
  intros HI E. split; [by eapply Forall_lookup_1; [apply inv_flights|]|]. apply list_elem_of_fmap. exists f.
  split; [done|]. by eapply list_elem_of_lookup_2.
Qed.
(** A reserved add is always accepted at its end. *)
Lemma commit_ok s i id c : Inv s -> s.(sy_flights) !! i = Some (id, StStarted c) ->
  exists p, commit_container_add c (system_state s) = ((p, s.(sy_log)), Ok tt) /\
    p = with_registry (match c.(sa_layout) with Some l => <[id := l]> s.(sy_pod).(pd_layouts) | None => s.(sy_pod).(pd_layouts) end)
          (<[id := c.(sa_container)]> s.(sy_pod).(pd_containers)) (with_pending (s.(sy_pod).(pd_pending) ∖ {[id]}) s.(sy_pod)).
Proof.
  intros HI E. destruct (flight_at _ _ _ HI E) as [(Hid & _ & _) Hin]. cbn in Hid, Hin. apply (inv_pending _ HI) in Hin.
  unfold commit_container_add, get, mbind, ST_bind, system_state. cbn [fst]. rewrite Hid.
  rewrite bool_decide_eq_true_2 by done. cbn [negb]. eexists. by split.
Qed.
Lemma inv_add_advance i s : Inv s -> Inv (add_advance i s).
Proof.
  intros HI. unfold add_advance. destruct (s.(sy_flights) !! i) as [[id st]|] eqn:Ei; [|done].
  destruct (flight_at _ _ _ HI Ei) as [Hok Hin]. cbn in Hin. destruct st as [a|a|c|].
  - destruct Hok as [Hid Hlay]. destruct (pending_prepare a _) as [h r] eqn:E. destruct (prepare_spec _ _ _ _ E) as [He Hr].
    destruct (ext_log s h He) as [H1 H2]. eapply inv_replace; [done|exact Ei|done| |intros x Hx; left; by apply H1|exact H2]. destruct r as [a'|]; [|done].
    destruct (Hr a' eq_refl) as [Ea El]. cbn in *. rewrite Ea, El. done.
  - destruct Hok as [Hid Hlay]. destruct (prepared_start a _) as [h r] eqn:E. apply start_spec in E. destruct r as [c|].
    + destruct E as (Ea & Eh & El & h1 & He & ->). cbn in Hid. destruct (ext_log s h1 He) as [H1 H2].
      eapply inv_replace; [done|exact Ei|done|cbn in *; by rewrite Ea, Eh, El, Hid|..].
      * intros x [Hx|Hx]%elem_of_app; [by left; apply H1|right]. apply list_elem_of_singleton in Hx as [= ->]. by exists c.
      * intros x [Hx|Hx]%H2; [left|right]; apply elem_of_app; by left.
    + destruct (ext_log s h E) as [H1 H2]. by eapply inv_replace; [done|exact Ei|done|done|intros x Hx; left; by apply H1|exact H2].
  - destruct (commit_ok s i id c HI Ei) as (p & Ec & Ep). unfold run_locked. rewrite Ec. destruct Hok as (Hid & Hh & Hlay). cbn in Hid, Hh, Hlay.
    eapply inv_land; eauto; subst p; cbn; try done.
    + intros j Hj. split; [by rewrite lookup_insert_ne|]. destruct (sa_layout c); [by rewrite lookup_insert_ne|done].
    + intros l Hl. rewrite lookup_insert_eq. split; [done|]. destruct (sa_layout c) as [l'|] eqn:El; [rewrite lookup_insert_eq in Hl; injection Hl as ->; by apply Hlay|].
      apply (inv_layouts _ HI) in Hl as [[x Hx] _]. by rewrite (inv_free _ HI id Hin) in Hx.
    + intros x Hx. rewrite lookup_insert_eq in Hx. by injection Hx as <-.
    + intros a [= <-]. apply lookup_insert_eq.
  - unfold run_locked, abort_container_add, put, system_state. eapply inv_land; eauto; cbn; try done.
    + intros l Hl. by apply (inv_layouts _ HI).
    + intros c Hc. by apply (inv_ids _ HI).
Qed.
(** Containers leave the registry. *)
Lemma inv_leave s h layouts containers waits :
  Inv s -> ext s.(sy_log) h ->
  (forall id c, containers !! id = Some c -> s.(sy_pod).(pd_containers) !! id = Some c) ->
  (forall id l, layouts !! id = Some l -> s.(sy_pod).(pd_layouts) !! id = Some l /\ containers !! id = s.(sy_pod).(pd_containers) !! id) ->
  (forall id c, s.(sy_pod).(pd_containers) !! id = Some c -> containers !! id = Some c \/ ended h c \/ exists d, d ∈ waits /\ d.(dt_container) = c) ->
  (forall d, d ∈ s.(sy_waits) -> d ∈ waits \/ ended h d.(dt_container)) ->
  Inv (mk_system (with_registry layouts containers s.(sy_pod)) h s.(sy_flights) waits).
Proof.
  intros [Hn Hp Hf Hl Hi Ht Hfl Hk] He Hsub Hlsub Hgone Hw. split; cbn; try done.
  - intros id Hin%Hf. destruct (containers !! id) as [c|] eqn:E; [|done]. apply Hsub in E. congruence.
  - intros id l Hx. destruct (Hlsub id l Hx) as [Hy ->]. by apply Hl.
  - intros id c Hc%Hsub. by apply Hi.
  - intros c Hc%(ext_running _ _ _ He). destruct (Hk c Hc) as [[Hh|[(id & Hid)|(d & Hd & Ed)]]|Hend].
    + left. by left.
    + destruct (Hgone id c Hid) as [H|[H|H]]; [left; right; left; by exists id|by right|left; by right; right].
    + destruct (Hw d Hd) as [H|H]; [left; right; right; by exists d|right; by rewrite <- Ed].
    + right. by eapply ended_ext.
Qed.
Lemma inv_wait_begin id s : Inv s -> Inv (wait_begin id s).
Proof.
  intros HI. unfold wait_begin, run_locked, system_state. destruct (detach_container_for_wait id _) as [[p h] r] eqn:E.
  destruct (detach_spec _ _ _ _ _ _ E) as [-> Hr]. destruct r as [d|e]; [|subst p; by destruct s].
  destruct Hr as (-> & Hc & Hid & Hl). apply (inv_leave s s.(sy_log)); [done|reflexivity|..].
  - by intros j c [_ ?]%lookup_delete_Some.
  - intros j l [Hne Hj]%lookup_delete_Some. split; [done|]. by rewrite lookup_delete_ne.
  - intros j c Hj. destruct (decide (j = id)) as [->|Hne]; [|left; by rewrite lookup_delete_ne].
    right. right. exists d. split; [apply elem_of_app; right; by apply list_elem_of_singleton|congruence].
  - intros d' Hd. left. apply elem_of_app. by left.
Qed.
Lemma inv_wait_end i s : Inv s -> Inv (wait_end i s).
Proof.
  intros HI. unfold wait_end. destruct (s.(sy_waits) !! i) as [d|] eqn:Ei; [|done].
  set (h := (detached_wait_with_output d s.(sy_log)).1). assert (He : ext s.(sy_log) h) by (apply quiet_ext, quiet_wait).
  assert (Hin : WaitContainer d.(dt_container) ∈ h).
  { unfold h, detached_wait_with_output, mbind at 1, ST_bind at 1, ask at 1. destruct (wait_output _ _) as [o|e].
    - eapply ext_elem; [apply (quiet_ext (_ ≫= _)); apply quiet_bind; [destruct (dt_layout d)|]; eauto with pods|].
      apply elem_of_app. right. by apply list_elem_of_singleton.
    - cbn. apply elem_of_app. right. by apply list_elem_of_singleton. }
  replace s.(sy_pod) with (with_registry s.(sy_pod).(pd_layouts) s.(sy_pod).(pd_containers) s.(sy_pod)) by by destruct (sy_pod s).
  apply (inv_leave s h); [done|done|done|by split|by intros; left|].
  intros d' Hd. destruct (remove_at_elem _ _ _ _ Ei Hd) as [->|H]; [right; by right|by left].
Qed.
Lemma inv_remove id s : Inv s -> Inv (locked (remove_container id) s).
Proof.
  intros HI. unfold locked, run_locked, system_state. destruct (remove_container id _) as [[p h] r] eqn:E.
  destruct (remove_spec _ _ _ _ _ _ E) as (He & [->|(-> & c & Hc & Hin)]); [apply inv_ext; [done..|apply same_registry_refl|apply (inv_templates _ HI)]|].
  apply (inv_leave s h); [done|done|..].
  - by intros j x [_ ?]%lookup_delete_Some.
  - intros j l [Hne Hj]%lookup_delete_Some. split; [done|]. by rewrite lookup_delete_ne.
  - intros j x Hj. destruct (decide (j = id)) as [->|Hne]; [|left; by rewrite lookup_delete_ne]. right. left. left. congruence.
  - by left.
Qed.
Lemma inv_shutdown (trim : bool) s : Inv s -> Inv (locked (if trim then shutdown_trimming_store else shutdown) s).
Proof.
  intros HI. unfold locked, run_locked, system_state. destruct ((if trim then shutdown_trimming_store else shutdown) _) as [[p h] r] eqn:E.
  destruct (shutdown_spec _ _ _ _ _ _ E) as (He & -> & Hin). apply (inv_leave s h); [done|done|..].
  - done.
  - done.
  - intros j x Hj. right. left. left. by eapply Hin.
  - by left.
Qed.
End Invariant.
Section Registry.
Context {P : Type}.
Lemma inv_handle `{G : @Guest P} r s : Inv s -> Inv (handle r s).
Proof.
  intros HI. destruct r as [spec|i|id|i|id|trim| |name path data]; cbn [handle];
    [by apply inv_add_begin|by apply inv_add_advance|by apply inv_wait_begin|by apply inv_wait_end|by apply inv_remove|by apply inv_shutdown|..].
  - unfold locked, run_locked, system_state, trim_store, get, mbind, ST_bind. cbn [fst]. rewrite on_guest_eq.
    apply inv_ext; [done|apply (quiet_ext (agent _ _)), quiet_agent|apply same_registry_refl|apply (inv_templates _ HI)].
  - unfold locked, run_locked, system_state, write_empty_dir_file, begin_empty_dir_file_write, get, lift, mbind, ST_bind. cbn [fst].
    assert (Hsame : Inv (mk_system s.(sy_pod) s.(sy_log) s.(sy_flights) s.(sy_waits))) by by destruct s.
    destruct (existsb _ _); [|done]. destruct (empty_dir_file_path _ _ _ _) as [d|e]; [|done]. rewrite on_guest_eq.
    apply inv_ext; [done|apply quiet_ext, quiet_write|apply same_registry_refl|apply (inv_templates _ HI)].
Qed.
Lemma reachable_inv b (s : @System P) : reachable b s -> Inv s.
Proof. induction 1 as [h Hh|s G r _ IH]; [by apply inv_start|by apply inv_handle]. Qed.

(** C5: The registry of a pod stays consistent however the phases of requests
    interleave and whatever the guest answers.  Every reservation belongs to
    exactly one add in flight, whose identity no registered container has, so
    an add whose container was started is never refused at its end and never
    replaces another container; every overlay on record is the one of a
    registered container; and no container that was started is forgotten: it
    is held by an add, the registry or a wait, unless its stop or its end was
    asked for. *)
Theorem pod_registry_sound b (s : @System P) : reachable b s ->
  NoDup s.(sy_flights).*1 /\
  (forall id, id ∈ s.(sy_pod).(pd_pending) <-> id ∈ s.(sy_flights).*1) /\
  (forall id, id ∈ s.(sy_flights).*1 -> s.(sy_pod).(pd_containers) !! id = None) /\
  (forall i id c, s.(sy_flights) !! i = Some (id, StStarted c) -> (commit_container_add c (system_state s)).2 = Ok tt) /\
  (forall id l, s.(sy_pod).(pd_layouts) !! id = Some l ->
    is_Some (s.(sy_pod).(pd_containers) !! id) /\ layout_new s.(sy_pod).(pd_store) s.(sy_pod).(pd_id) id = Ok l) /\
  (forall c, Running c ∈ s.(sy_log) -> held s c \/ ended s.(sy_log) c).
Proof.
  intros HI%reachable_inv. destruct HI as [Hn Hp Hf Hl Hi Ht Hfl Hk] eqn:E. split_and!; try done.
  intros i id c Hc. destruct (commit_ok s i id c HI Hc) as (p & -> & _). done.
Qed.
End Registry.
(** A guest that grants everything. *)
Definition ok_guest : @Guest unit := {|
  boot := fun _ => Ok tt; connect := fun _ => Ok tt; guest_setup := fun _ => Ok tt; rpc := fun _ _ => Ok 0;
  usage := fun _ => Ok (0, 0, 1); copy := fun _ _ _ => Ok tt; start_container := fun h _ => Ok (Z.of_nat (length h));
  stop_container := fun _ _ => Ok 0; wait_output := fun _ _ => Ok ([], [], 0); stop_machine := fun _ => Ok tt;
  drain := fun A m => (map_to_list m).*2; drain_all := fun A m => Permutation_refl _
|}.
Definition demo_builder : PodBuilder := mk_pod_builder (mk_pod_id (mk_ContainerId "pod-a")) (store_ext4 1) [] [].
Definition demo_bundle : ImageBundle :=
  mk_image_bundle "/cache" (mk_reference "docker.io" "library" "alpine" None None) "sha256:aa" linux_arm64 image_config_default
    [mk_layer "/cache/l1" "sha256:bb" "sha256:bb" 10 MediaTypes.TAR CompressionNone].
Definition demo_spec : PodContainerSpec := container_spec_new (mk_ContainerId "worker") (RootfsOciBundle demo_bundle).
Fixpoint demo_run (rs : list PodRequest) (s : @System unit) : @System unit :=
  match rs with [] => s | r :: rs => demo_run rs (@handle unit ok_guest r s) end.
Lemma pod_demo_reachable rs s : reachable demo_builder s -> reachable demo_builder (demo_run rs s).
Proof. revert s. induction rs as [|r rs IH]; intros s Hs; [done|]. apply IH. by apply reach_step. Qed.
Definition demo_start : @System unit := mk_system (pod_new demo_builder) [] [] [].
Lemma pod_registry_sound_witness :
  let s := demo_run [AddBegin demo_spec; AddAdvance 0; AddAdvance 0; AddAdvance 0] demo_start in
  let c := mk_handle (mk_ContainerId "worker") 10 in
  Running c ∈ s.(sy_log) /\ (held s c \/ ended s.(sy_log) c).
Proof.
  cbv zeta. assert (Hin : Running (mk_handle (mk_ContainerId "worker") 10) ∈
    (demo_run [AddBegin demo_spec; AddAdvance 0; AddAdvance 0; AddAdvance 0] demo_start).(sy_log)).
  { apply (list_elem_of_lookup_2 _ 11). vm_compute. reflexivity. }
  split; [exact Hin|]. apply (pod_registry_sound demo_builder); [|exact Hin].
  apply pod_demo_reachable, reach_new. intros c Hc. by apply elem_of_nil in Hc.
Defined.

(** ** Templates *)
Section Templates.
Context {P : Type} `{G : @Guest P}.
#[local] Abbreviation Log := (@Log P).
#[local] Abbreviation Call := (@PodCall P).
Definition is_ok {E A} (r : result E A) : bool := match r with Ok _ => true | Err _ => false end.
Definition served (h : Log) (c : Call) : bool :=
  match c with
  | Agent (CopyIn source destination _ _) => is_ok (copy h source destination)
  | Agent c => is_ok (rpc h c)
  | _ => false
  end.
Fixpoint all_served (h : Log) (cs : Log) : bool :=
  match cs with [] => true | c :: cs => served h c && all_served (h ++ [c]) cs end.
(** The program makes these requests in this order, up to the first that is
    refused, and has this result when none is. *)
Definition performs {A} (m : ST Log A) (cs : Log) (a : A) : Prop := forall h,
  if all_served h cs then m h = (h ++ cs, Ok a)
  else exists n e, m h = (h ++ take n cs, Err e).
Lemma all_served_app h cs ds : all_served h (cs ++ ds) = all_served h cs && all_served (h ++ cs) ds.
Proof.
  revert h. induction cs as [|c cs IH]; intros h; [by rewrite app_nil_r|]. cbn [all_served app].
  rewrite IH, <- app_assoc, andb_assoc. done.
Qed.
Lemma performs_bind {A B} (m : ST Log A) (k : A -> ST Log B) cs a ds b :
  performs m cs a -> performs (k a) ds b -> performs (m ≫= k) (cs ++ ds) b.
Proof.
  intros Hm Hk h. rewrite all_served_app. specialize (Hm h). destruct (all_served h cs); cbn [andb].
  - rewrite (ST_bind_ok _ _ _ _ _ Hm). specialize (Hk (h ++ cs)). destruct (all_served (h ++ cs) ds); [by rewrite app_assoc|].
    destruct Hk as (n & e & ->). exists (length cs + n)%nat, e. by rewrite take_app_add, app_assoc.
  - destruct Hm as (n & e & Hm). exists (min n (length cs)), e. rewrite (ST_bind_err _ _ _ _ _ Hm).
    enough (Et : take n cs = take (min n (length cs)) (cs ++ ds)) by by rewrite <- Et.
    destruct (decide (n <= length cs)%nat); [rewrite Nat.min_l, take_app_le by lia|rewrite Nat.min_r, take_app_length, take_ge by lia]; done.
Qed.
Lemma performs_ret {A} (a : A) : performs (mret a) [] a.
Proof. intros h. cbn. by rewrite app_nil_r. Qed.
Lemma performs_lift {A B} (r : result CoreError A) (k : A -> ST Log B) a cs b :
  r = Ok a -> performs (k a) cs b -> performs (lift r ≫= k) cs b.
Proof. intros -> H. exact H. Qed.
Lemma performs_agent {A} (a : A) op c : (forall s d x y, c <> CopyIn s d x y) ->
  performs (_ ← agent op c; mret a) [Agent c] a.
Proof.
  intros Hc h. assert (Es : all_served h [Agent c] = is_ok (rpc h c)).
  { cbn. rewrite andb_true_r. destruct c; try done. by edestruct Hc. }
  rewrite Es. unfold agent, ask, mbind, ST_bind. destruct (rpc h c) as [x|e]; cbn; [done|]. by eexists 1%nat, _.
Qed.
Lemma performs_copy source d : performs (copy_file_to_guest_path source d) [Agent (CopyIn source d.(guest_str) true false)] tt.
Proof.
  intros h. cbn. rewrite andb_true_r. unfold copy_file_to_guest_path, ask.
  destruct (copy h source (guest_str d)) as [[]|e]; cbn; [done|]. by eexists 1%nat, _.
Qed.
Lemma performs_for_each {X} (f : X -> ST Log unit) (calls : X -> Log) l :
  Forall (fun x => performs (f x) (calls x) tt) l -> performs (for_each f l) (concat (calls <$> l)) tt.
Proof.
  induction 1 as [|x l Hx Hl IH]; [apply performs_ret|]. cbn [for_each fmap list_fmap concat]. by eapply performs_bind.
Qed.
(** The requests of a template: its directory made anew, every layer copied
    and applied in the order of the image, and a last sync. *)
Definition layer_calls (path : Layer -> GuestPath) (rootfs : GuestPath) (l : Layer) : Log :=
  [Agent (CopyIn l.(ly_path) (path l).(guest_str) true false); Agent (ApplyOciLayer (path l).(guest_str) rootfs.(guest_str))].
Definition template_calls (base rootfs layer_dir : GuestPath) (path : Layer -> GuestPath) (layers : list Layer) : Log :=
  [Agent (RemovePath base.(guest_str) true true); Agent (Mkdir rootfs.(guest_str) true 493); Agent (Mkdir layer_dir.(guest_str) true 493)]
  ++ concat (layer_calls path rootfs <$> layers) ++ [Agent SyncCall].
Lemma performs_layer (path : Layer -> GuestPath) layer_path rootfs op l :
  layer_path l = Ok (path l) -> performs (materialize_layer layer_path rootfs op l) (layer_calls path rootfs l) tt.
Proof.
  intros E. unfold materialize_layer. eapply performs_lift; [exact E|].
  apply (performs_bind _ _ [_] tt [_]); [apply performs_copy|by apply performs_agent].
Qed.
Lemma performs_template store pod key bundle base rootfs layer_dir path :
  pod_template_base_path store pod key = Ok base -> pod_template_rootfs_path store pod key = Ok rootfs ->
  pod_template_layers_base_path store pod key = Ok layer_dir ->
  Forall (fun l => pod_template_layer_path store pod key l = Ok (path l)) bundle.(ib_layers) ->
  performs (materialize_oci_template store pod key bundle) (template_calls base rootfs layer_dir path bundle.(ib_layers)) rootfs.
Proof.
  intros E1 E2 E3 E4. unfold materialize_oci_template, template_calls. eapply performs_lift; [exact E1|].
  apply (performs_bind _ _ [_] tt); [by apply performs_agent|].
  eapply performs_lift; [exact E2|]. eapply performs_lift; [exact E3|].
  apply (performs_bind _ _ [_] tt); [by apply performs_agent|]. apply (performs_bind _ _ [_] tt); [by apply performs_agent|].
  eapply performs_bind; [apply (performs_for_each _ (layer_calls path rootfs))|].
  - eapply Forall_impl; [exact E4|]. intros l El. by apply performs_layer.
  - by apply performs_agent.
Qed.
(** An image is unpacked once per pod.  The first container of an image
    has its template directory made anew, every layer copied and applied in
    the order of the image and the result synced, in this order and up to the
    first request that is refused; the template is remembered exactly when
    none was.  From then on a container of the image costs no request. *)
Theorem template_built_once p h bundle key base rootfs layer_dir path :
  template_key_from_digest bundle.(ib_digest) = Ok key ->
  pod_template_base_path p.(pd_store) p.(pd_id) key = Ok base ->
  pod_template_rootfs_path p.(pd_store) p.(pd_id) key = Ok rootfs ->
  pod_template_layers_base_path p.(pd_store) p.(pd_id) key = Ok layer_dir ->
  Forall (fun l => pod_template_layer_path p.(pd_store) p.(pd_id) key l = Ok (path l)) bundle.(ib_layers) ->
  p.(pd_templates) !! key = None ->
  let calls := template_calls base rootfs layer_dir path bundle.(ib_layers) in
  let ready := with_templates (<[key := rootfs]> p.(pd_templates)) p in
  if all_served h calls then
    ensure_oci_template bundle (p, h) = ((ready, h ++ calls), Ok rootfs) /\
    forall h', ensure_oci_template bundle (ready, h') = ((ready, h'), Ok rootfs)
  else exists n e, ensure_oci_template bundle (p, h) = ((p, h ++ take n calls), Err e).
Proof.
  intros Ek E1 E2 E3 E4 Hnone. cbv zeta. pose proof (performs_template _ _ _ bundle _ _ _ _ E1 E2 E3 E4 h) as Hm.
  unfold ensure_oci_template, get, lift, put, mbind, ST_bind, mret, ST_ret. rewrite Ek. cbn [fst]. rewrite Hnone, on_guest_eq.
  destruct (all_served h _).
  - rewrite Hm. split; [done|]. intros h'. cbn [fst]. cbn [with_templates pd_templates]. by rewrite lookup_insert_eq.
  - destruct Hm as (n & e & ->). by exists n, e.
Qed.
End Templates.
Lemma template_built_once_witness :
  let calls := template_calls (P := unit) (mk_guest_path "/run/firkin/pod-store/pods/pod-a/templates/sha256-aa")
    (mk_guest_path "/run/firkin/pod-store/pods/pod-a/templates/sha256-aa/rootfs") (mk_guest_path "/run/firkin/pod-store/pods/pod-a/templates/sha256-aa/layers")
    (fun _ => mk_guest_path "/run/firkin/pod-store/pods/pod-a/templates/sha256-aa/layers/sha256-bb") demo_bundle.(ib_layers) in
  @all_served unit ok_guest [] calls = true /\
  (@ensure_oci_template unit ok_guest demo_bundle (pod_new demo_builder, [])).1.2 = calls.
Proof.
  cbv zeta. split; [reflexivity|].
  pose proof (@template_built_once unit ok_guest (pod_new demo_builder) [] demo_bundle (mk_template_key "sha256-aa")
    (mk_guest_path "/run/firkin/pod-store/pods/pod-a/templates/sha256-aa") (mk_guest_path "/run/firkin/pod-store/pods/pod-a/templates/sha256-aa/rootfs")
    (mk_guest_path "/run/firkin/pod-store/pods/pod-a/templates/sha256-aa/layers")
    (fun _ => mk_guest_path "/run/firkin/pod-store/pods/pod-a/templates/sha256-aa/layers/sha256-bb")
    eq_refl eq_refl eq_refl eq_refl ltac:(by repeat constructor) eq_refl) as H.
  destruct H as [H _]. exact (f_equal (fun x => x.1.2) H).
Defined.

(** ** Spawning *)
Section Spawn.
Context {P : Type} `{G : @Guest P}.
#[local] Abbreviation Log := (@Log P).
Lemma add_container_inv spec p (h : Log) p' h' r :
  Inv (mk_system p h [] []) -> add_container spec (p, h) = ((p', h'), r) ->
  Inv (mk_system p' h' [] []) /\
  match r with Ok _ => exists c, p'.(pd_containers) = <[spec.(cs_id) := c]> p.(pd_containers) | Err _ => p'.(pd_containers) = p.(pd_containers) end.
Proof.
  intros HI E. pose proof (inv_add_begin spec _ HI) as H1. unfold add_begin, run_locked, system_state in H1. cbn [sy_pod sy_log sy_flights sy_waits app] in H1.
  unfold add_container, mbind, ST_bind in E. destruct (begin_container_add spec (p, h)) as [[p1 h1] [a|e]] eqn:Eb;
    destruct (begin_spec _ _ _ _ _ _ Eb (inv_templates _ HI)) as (_ & _ & Hb); [|simplify_eq; split; [done|by destruct Hb as (_ & _ & _ & _ & ? & _)]].
  destruct Hb as (_ & _ & (_ & _ & _ & _ & Ec & _) & Eid & _). cbn in Ec.
  unfold finish_add in E. rewrite on_guest_eq in E. unfold pending_start, mbind, ST_bind in E.
  pose proof (inv_add_advance 0 _ H1) as H2. unfold add_advance in H2. cbn [sy_pod sy_log sy_flights sy_waits lookup list_lookup] in H2.
  destruct (pending_prepare a h1) as [h2 [a2|e]]; cbn [insert list_insert] in H2.
  - pose proof (inv_add_advance 0 _ H2) as H3. unfold add_advance in H3. cbn [sy_pod sy_log sy_flights sy_waits lookup list_lookup] in H3.
    destruct (prepared_start a2 h2) as [h3 [c|e]]; cbn [insert list_insert fst snd] in H3, E.
    + pose proof (inv_add_advance 0 _ H3) as H4. destruct (commit_ok _ 0 _ c H3 eq_refl) as (p4 & E4 & Ep4).
      unfold add_advance, run_locked in H4. cbn [sy_pod sy_log sy_flights sy_waits lookup list_lookup] in H4. rewrite E4 in H4.
      unfold system_state in E4. cbn in E4. rewrite E4 in E. injection E as <- <- <-. split; [exact H4|].
      exists c.(sa_container). rewrite Ep4. cbn. by rewrite Eid, Ec.
    + pose proof (inv_add_advance 0 _ H3) as H4. cbn in H4, E. injection E as <- <- <-. split; [exact H4|]. exact Ec.
  - pose proof (inv_add_advance 0 _ H2) as H3. cbn in H3, E. injection E as <- <- <-. split; [exact H3|]. exact Ec.
Qed.
Lemma inv_all_ended p (h : Log) h' c : Inv (mk_system p h [] []) -> ext h h' ->
  (forall id c, p.(pd_containers) !! id = Some c -> StopContainer c ∈ h') -> Running c ∈ h' -> ended h' c.
Proof.
  intros HI He Hstop Hc%(ext_running _ _ _ He). destruct (inv_kept _ HI c Hc) as [[(id & a & H & _)|[(id & Hid)|(d & H & _)]]|H]; cbn in *.
  - by apply elem_of_nil in H.
  - left. by eapply Hstop.
  - by apply elem_of_nil in H.
  - by eapply ended_ext.
Qed.
Lemma shutdown_last s : exists h, (shutdown s).1.2 = h ++ [StopVm].
Proof.
  destruct s as [p h]. unfold shutdown, mbind, ST_bind. destruct (stop_containers_and_cleanup (p, h)) as [[p1 h1] [[]|e]] eqn:E.
  - rewrite on_guest_eq. cbn. by exists h1.
  - unfold stop_containers_and_cleanup, get, put, mbind, ST_bind in E. cbn [fst] in E. rewrite on_guest_eq, for_each_attempt, on_guest_eq in E.
    injection E as _ _ E. by rewrite for_each_attempt in E.
Qed.
Lemma add_containers_spec cs p (h : Log) p' h' r :
  Inv (mk_system p h [] []) -> add_containers cs (p, h) = ((p', h'), r) ->
  match r with
  | Ok _ => Inv (mk_system p' h' [] []) /\ forall id, is_Some (p'.(pd_containers) !! id) <-> is_Some (p.(pd_containers) !! id) \/ id ∈ cs_id <$> cs
  | Err _ => (forall c, Running c ∈ h' -> ended h' c) /\ exists h0, h' = h0 ++ [StopVm]
  end.
Proof.
  revert p h. induction cs as [|c cs IH]; intros p h HI E.
  - injection E as <- <- <-. split; [done|]. intros id. cbn. rewrite elem_of_nil. tauto.
  - cbn [add_containers] in E. destruct (add_container c (p, h)) as [[p1 h1] r1] eqn:Ea. destruct (add_container_inv _ _ _ _ _ _ HI Ea) as [H1 Hc].
    destruct r1 as [[]|e].
    + specialize (IH p1 h1 H1 E). destruct r as [[]|e]; [|done]. destruct IH as [H2 Hdom]. split; [done|]. intros id.
      rewrite Hdom, fmap_cons, elem_of_cons. destruct Hc as [x ->]. rewrite lookup_insert_is_Some. destruct (decide (cs_id c = id)); naive_solver.
    + destruct (shutdown (p1, h1)) as [[p2 h2] r2] eqn:Es. destruct (shutdown_last (p1, h1)) as [h0 Hl]. rewrite Es in Hl. cbn in E, Hl. injection E as <- <- <-.
      destruct (shutdown_spec false _ _ _ _ _ Es) as (He & -> & Hstop). split; [|by exists h0].
      intros x Hx. eapply inv_all_ended; [exact H1|exact He|exact Hstop|exact Hx].
Qed.
(** C17: A pod that booted comes up whole or is stopped.  Spawning returns a pod
    whose registry has exactly the declared containers and nothing reserved, or
    fails with every container that was started stopped.  When the machine was
    booted and set up and a container cannot be added, stopping the machine is
    the last request.  When the boot itself or the setup after it fails (the
    agent, the pod store, the directories), spawning returns at once: nothing is
    requested any more, not even that the machine be stopped
    ([failed_setup_leaves_machine]). *)
Theorem spawn_all_or_stop b (h h' : Log) r :
  (forall c, Running c ∉ h) -> pod_spawn b h = (h', r) ->
  match r with
  | Ok p => (forall id, is_Some (p.(pd_containers) !! id) <-> id ∈ cs_id <$> b.(pb_containers)) /\ (forall id, id ∉ p.(pd_pending))
  | Err _ =>
      (forall c, Running c ∈ h' -> ended h' c) /\
      match (pod_boot b h).2 with
      | Ok _ => exists h0, h' = h0 ++ [StopVm]
      | Err _ => h' = (pod_boot b h).1
      end
  end.
Proof.
  intros Hh E. unfold pod_spawn in E. assert (Hq : quiet (pod_boot b)).
  { unfold pod_boot, mount_pod_store_with_client, prepare_pod_directories, prepare_empty_dirs. quiet_tac. apply quiet_for_each. intros v.
    unfold prepare_empty_dir. apply quiet_bind; [eauto with pods|]. intros d. apply quiet_bind; [eauto with pods|]. intros u. destruct (ev_medium v); quiet_tac. }
  pose proof (quiet_ext _ h Hq) as He. destruct (pod_boot b h) as [h1 [[]|e]]; cbn [fst] in He.
  - assert (HI : Inv (mk_system (pod_new b) h1 [] [])). { apply inv_start. intros c Hc%(ext_running _ _ _ He). by apply (Hh c). }
    destruct (add_containers _ _) as [[p' h2] r1] eqn:Ea. pose proof (add_containers_spec _ _ _ _ _ _ HI Ea) as Hs.
    destruct r1 as [[]|e]; injection E as <- <-; [|by destruct Hs]. destruct Hs as [HI' Hdom]. split.
    + intros id. rewrite Hdom. cbn. rewrite lookup_empty. split; [|by right]. by intros [[? [=]]|?].
    + intros id Hid%(inv_pending _ HI'). by apply elem_of_nil in Hid.
  - injection E as <- <-. split; [|done]. intros c Hc%(ext_running _ _ _ He). by destruct (Hh c).
Qed.
End Spawn.
Definition demo_pod : PodBuilder := mk_pod_builder (mk_pod_id (mk_ContainerId "pod-a")) (store_ext4 1) [] [demo_spec].
Lemma spawn_all_or_stop_witness : exists p h, @pod_spawn unit ok_guest demo_pod [] = (h, Ok p) /\
  is_Some (p.(pd_containers) !! mk_ContainerId "worker").
Proof.
  eexists _, _. split; [reflexivity|].
  pose proof (@spawn_all_or_stop unit ok_guest demo_pod [] (@pod_spawn unit ok_guest demo_pod []).1 (@pod_spawn unit ok_guest demo_pod []).2) as H.
  specialize (H ltac:(intros c Hc; by apply elem_of_nil in Hc) ltac:(apply surjective_pairing)).
  apply (proj2 (proj1 H (mk_ContainerId "worker"))). by apply list_elem_of_singleton.
Defined.

(** ** Where the guarantees end *)
(** A container that is waited for no longer occupies its identity, but still
    its directory: its end removes the overlay of a container that was added
    under the same identity in the meantime. *)
Lemma wait_removes_overlay_of_successor :
  let s := demo_run [AddBegin demo_spec; AddAdvance 0; AddAdvance 0; AddAdvance 0; WaitBegin (mk_ContainerId "worker");
                     AddBegin demo_spec; AddAdvance 0; AddAdvance 0; AddAdvance 0; WaitEnd 0] demo_start in
  exists c l, s.(sy_pod).(pd_containers) !! mk_ContainerId "worker" = Some c /\ s.(sy_pod).(pd_layouts) !! mk_ContainerId "worker" = Some l /\
    last s.(sy_log) = Some (Agent (container_layout_remove_request l)).
Proof. cbv zeta. eexists _, _. split; [vm_compute; reflexivity|]. split; vm_compute; reflexivity. Qed.
(** A guest that refuses the second directory of an overlay. *)
Definition full_guest : @Guest unit := {|
  boot := fun _ => Ok tt; connect := fun _ => Ok tt; guest_setup := fun _ => Ok tt;
  rpc := fun _ c => match c with Mkdir "/run/firkin/pod-store/pods/pod-a/containers/worker/work" _ _ => Err "ENOSPC"%string | _ => Ok 0 end;
  usage := fun _ => Ok (0, 0, 1); copy := fun _ _ _ => Ok tt; start_container := fun h _ => Ok 0;
  stop_container := fun _ _ => Ok 0; wait_output := fun _ _ => Ok ([], [], 0); stop_machine := fun _ => Ok tt;
  drain := fun A m => (map_to_list m).*2; drain_all := fun A m => Permutation_refl _
|}.
(** What was made of an overlay stays when a later directory is refused. *)
Lemma failed_prepare_leaves_directories :
  exists a l e, layout_new (store_ext4 1) (mk_pod_id (mk_ContainerId "pod-a")) (mk_ContainerId "worker") = Ok l /\ a.(pa_layout) = Some l /\
    @pending_prepare unit full_guest a [] = ([Agent (mkdir_request l.(pl_upper) 493); Agent (mkdir_request l.(pl_work) 493)], Err e).
Proof.
  set (l := mk_layout (mk_guest_path "/run/firkin/pod-store/pods/pod-a/containers/worker") (mk_guest_path "/run/firkin/pod-store/pods/pod-a/containers/worker/upper")
    (mk_guest_path "/run/firkin/pod-store/pods/pod-a/containers/worker/work") (mk_guest_path "/run/firkin/pod-store/pods/pod-a/containers/worker/merged")).
  eexists (mk_pending (mk_ContainerId "worker") demo_spec l.(pl_merged) (Some (mk_guest_path "/t")) (Some l) []), l, _. split; [reflexivity|]. split; reflexivity.
Qed.
(** A guest whose setup fails: the machine runs and is not stopped. *)
Definition setup_guest : @Guest unit := {|
  boot := fun _ => Ok tt; connect := fun _ => Ok tt; guest_setup := fun _ => Err (RuntimeOperation "guest setup" "agent unavailable");
  rpc := fun _ _ => Ok 0; usage := fun _ => Ok (0, 0, 1); copy := fun _ _ _ => Ok tt; start_container := fun h _ => Ok 0;
  stop_container := fun _ _ => Ok 0; wait_output := fun _ _ => Ok ([], [], 0); stop_machine := fun _ => Ok tt;
  drain := fun A m => (map_to_list m).*2; drain_all := fun A m => Permutation_refl _
|}.
Lemma failed_setup_leaves_machine :
  exists e, @pod_spawn unit setup_guest demo_pod [] = ([Boot; Connect; GuestSetup], Err e).
Proof. eexists. vm_compute. reflexivity. Qed.
