(* ===== verification/EnvdHttp.v ===== *)
(** * The envd service ([crates/e2b-server/src/envd_http.rs])

    The HTTP front of the process and file services of a sandbox: three wire
    encodings (Connect, gRPC-web and its text form), the framing they share,
    query parameters, file uploads and the dispatch to an adapter.  What
    [prost] makes of a message, base64 and gzip are parameters ([EnvdProto],
    [Base64]); an adapter is the class [EnvdAdapter]. *)
From S2P Require Import Prelude BTree Types HostFs HostPaths Envd E2bWire E2bRoutes E2bRegistry E2bServer SessionFiles.

(** ** Text *)
Definition lower (c : ascii) : ascii := if (65 <=? code c) && (code c <=? 90) then ascii_of (code c + 32) else c.
Definition to_ascii_lowercase (s : string) : string := String.string_of_list_ascii (lower <$> bytes s).
Definition eq_ignore_ascii_case (a b : string) : bool := String.eqb (to_ascii_lowercase a) (to_ascii_lowercase b).
(** [str::split_once] and [str::split] with a string. *)
Fixpoint split_once_str (d s : string) : option (string * string) :=
  match strip_prefix d s with
  | Some r => Some (EmptyString, r)
  | None => match s with
            | EmptyString => None
            | String c s => '(a, b) ← split_once_str d s; Some (String c a, b)
            end
  end.
Fixpoint split_str_aux (fuel : nat) (d s : string) : list string :=
  match fuel with
  | O => [s]
  | S fuel => match split_once_str d s with Some (a, b) => a :: split_str_aux fuel d b | None => [s] end
  end.
Definition split_str (d s : string) : list string := split_str_aux (S (String.length s)) d s.
Definition CRLF : string := String (ascii_of 13) (String (ascii_of 10) EmptyString).
Fixpoint trim_start_str_aux (fuel : nat) (d s : string) : string :=
  match fuel with
  | O => s
  | S fuel => match strip_prefix d s with Some r => trim_start_str_aux fuel d r | None => s end
  end.
Definition trim_start_str (d s : string) : string := trim_start_str_aux (S (String.length s)) d s.
(** [str::lines]: a carriage return is dropped only before a line feed. *)
Definition strip_cr (s : string) : string := default s (strip_suffix (String (ascii_of 13) EmptyString) s).
Definition text_lines (s : string) : list string :=
  let ls := split (ascii_of 10) s in
  (strip_cr <$> removelast ls) ++ (match last ls with Some rest => if is_empty rest then [] else [rest] | None => [] end).
Fixpoint find_map {A B} (f : A -> option B) (l : list A) : option B :=
  match l with [] => None | x :: l => match f x with Some y => Some y | None => find_map f l end end.

(** ** Framing *)
(** A frame of 4 GiB or more makes the source panic; the properties are about
    smaller ones ([fits]). *)
Record ConnectEnvelope := mk_envelope { env_flags : Z; env_data : list Z }.
Definition be32 (n : Z) : list Z := [n / 16777216 mod 256; n / 65536 mod 256; n / 256 mod 256; n mod 256].
Definition encode_connect_envelope (flags : Z) (data : list Z) : list Z := flags :: be32 (Z.of_nat (length data)) ++ data.
Fixpoint decode_envelopes (fuel : nat) (bytes : list Z) : result string (list ConnectEnvelope) :=
  match fuel with
  | O => Err "fuel"%string
  | S fuel =>
      match bytes with
      | [] => Ok []
      | flags :: a :: b :: c :: d :: rest =>
          let len := Z.to_nat (a * 16777216 + b * 65536 + c * 256 + d) in
          if (length rest <? len)%nat then Err "truncated Connect envelope body"%string
          else es ← decode_envelopes fuel (drop len rest); Ok (mk_envelope flags (take len rest) :: es)
      | _ => Err "truncated Connect envelope header"%string
      end
  end.
Definition decode_connect_envelopes (bytes : list Z) : result string (list ConnectEnvelope) :=
  decode_envelopes (S (length bytes)) bytes.
Inductive EnvdRpcEncoding := Connect | GrpcWebBinary | GrpcWebText.
Definition bytes_of (s : string) : list Z := code <$> bytes s.
Class Base64 := {
  b64_encode : list Z -> list Z;
  b64_decode : list Z -> result string (list Z)
}.
(** What is documented of a base64 engine. *)
Definition octets (d : list Z) : bool := forallb (between 0 255) d.
Class Base64Laws `{Base64} := { b64_roundtrip : forall d, octets d = true -> b64_decode (b64_encode d) = Ok d }.
Section Encodings.
Context `{Base64}.
Definition from_headers (headers : strmap string) : EnvdRpcEncoding :=
  let media := (fun v => Volumes.trim (default EmptyString (head (split ";" v)))) <$> (headers !! "content-type"%string ≫= E2bServer.to_str) in
  match media with
  | Some m =>
      if eq_ignore_ascii_case m "application/grpc-web+proto" then GrpcWebBinary
      else if eq_ignore_ascii_case m "application/grpc-web-text+proto" then GrpcWebText
      else Connect
  | None => Connect
  end.
Definition unary_content_type (e : EnvdRpcEncoding) : string :=
  match e with
  | Connect => "application/proto"
  | GrpcWebBinary => "application/grpc-web+proto"
  | GrpcWebText => "application/grpc-web-text+proto"
  end.
Definition streaming_content_type (e : EnvdRpcEncoding) : string :=
  match e with
  | Connect => "application/connect+proto"
  | GrpcWebBinary => "application/grpc-web+proto"
  | GrpcWebText => "application/grpc-web-text+proto"
  end.
Definition framed_request_body (e : EnvdRpcEncoding) (body : list Z) : result string (list Z) :=
  match e with
  | Connect | GrpcWebBinary => Ok body
  | GrpcWebText => map_err (fun x => "failed to decode gRPC-web-text body: " +:+ x) (b64_decode body)
  end.
Definition unary_request_body (e : EnvdRpcEncoding) (body : list Z) : result string (list Z) :=
  match e with
  | Connect => Ok body
  | _ =>
      body ← framed_request_body e body;
      envelopes ← decode_connect_envelopes body;
      envelope ← ok_or "missing gRPC-web request frame"%string (head envelopes);
      if negb (envelope.(env_flags) =? 0) then
        Err ("unsupported gRPC-web request frame flags " +:+ print_dec envelope.(env_flags))
      else Ok envelope.(env_data)
  end.
Definition encode_response_bytes (e : EnvdRpcEncoding) (body : list Z) : list Z :=
  match e with Connect | GrpcWebBinary => body | GrpcWebText => b64_encode body end.
Definition encode_stream_frame (e : EnvdRpcEncoding) (frame : list Z) : list Z := encode_response_bytes e frame.
Definition end_frame (e : EnvdRpcEncoding) : list Z :=
  match e with
  | Connect => encode_connect_envelope 2 (bytes_of "{}")
  | _ => encode_connect_envelope 128 (bytes_of ("grpc-status: 0" +:+ CRLF))
  end.
Definition encode_unary_response (e : EnvdRpcEncoding) (body : list Z) : list Z :=
  match e with
  | Connect => body
  | _ => encode_response_bytes e (encode_connect_envelope 0 body ++ end_frame e)
  end.
End Encodings.

(** ** Messages *)
Inductive SelectorOneof := SelectorPid (pid : Z) | SelectorTag (tag : string).
Record EnvdProcessSelectorProto := mk_selector_proto { sp_selector : option SelectorOneof }.
Inductive InputOneof := OneofStdin (data : list Z) | OneofPty (data : list Z).
Record EnvdProcessInputProto := mk_input_proto { ip_input : option InputOneof }.
Record EnvdSendInputRequestProto := mk_send_input { si_process : option EnvdProcessSelectorProto; si_input : option EnvdProcessInputProto }.
Record EnvdSendSignalRequestProto := mk_send_signal { ss_process : option EnvdProcessSelectorProto; ss_signal : Z }.
Record EnvdPtyProto := mk_pty_proto { pp_size : option EnvdPtySize }.
Record EnvdUpdateRequestProto := mk_update { ur_process : option EnvdProcessSelectorProto; ur_pty : option EnvdPtyProto }.
Record EnvdProcessConfigProto := mk_config_proto {
  pc_cmd : string;
  pc_args : list string;
  pc_envs : list (string * string);
  pc_cwd : option string
}.
Record EnvdStartRequestProto := mk_start_proto {
  sr_process : option EnvdProcessConfigProto;
  sr_pty : option EnvdPtyProto;
  sr_tag : option string;
  sr_stdin : option bool
}.
Record EnvdFilesystemEntryInfoProto := mk_entry_proto {
  ep_name : string;
  ep_file_type : Z;
  ep_path : string;
  ep_size : Z;
  ep_mode : Z;
  ep_permissions : string;
  ep_owner : string;
  ep_group : string;
  ep_symlink_target : option string
}.
Inductive ProcessEventProto :=
| ProtoStart (pid : Z)
| ProtoStdout (data : list Z)
| ProtoStderr (data : list Z)
| ProtoPty (data : list Z)
| ProtoEnd (exit_code : Z) (exited : bool) (status : string) (error : option string).
Inductive WatchEventProto := WatchStart | WatchFilesystem (name : string) (event_type : Z).
(** The messages of answers. *)
Inductive EnvdMessage :=
| EmptyMessage
| ListResponse (processes : list (EnvdProcessConfigProto * Z * option string))
| EntryResponse (entry : EnvdFilesystemEntryInfoProto)
| ListDirResponse (entries : list EnvdFilesystemEntryInfoProto)
| StartResponse (event : ProcessEventProto)
| ConnectResponse (event : ProcessEventProto)
| WatchDirResponse (event : WatchEventProto).
Class EnvdProto := {
  encode : EnvdMessage -> list Z;
  decode_list : list Z -> result string unit;
  decode_send_input : list Z -> result string EnvdSendInputRequestProto;
  decode_close_stdin : list Z -> result string (option EnvdProcessSelectorProto);
  decode_send_signal : list Z -> result string EnvdSendSignalRequestProto;
  decode_connect : list Z -> result string (option EnvdProcessSelectorProto);
  decode_update : list Z -> result string EnvdUpdateRequestProto;
  decode_start : list Z -> result string EnvdStartRequestProto;
  decode_list_dir : list Z -> result string (string * Z);
  decode_path : list Z -> result string string;
  decode_move : list Z -> result string (string * string);
  decode_watch_dir : list Z -> result string (string * bool)
}.
Definition decode_envd_selector (s : option EnvdProcessSelectorProto) : result string EnvdProcessSelector :=
  match s ≫= sp_selector with
  | Some (SelectorPid pid) => Ok (SelectPid pid)
  | Some (SelectorTag tag) => Ok (SelectTag tag)
  | None => Err "missing process selector"%string
  end.
Definition decode_envd_input (i : option EnvdProcessInputProto) : result string EnvdProcessInput :=
  match i ≫= ip_input with
  | Some (OneofStdin d) => Ok (InputStdin d)
  | Some (OneofPty d) => Ok (InputPty d)
  | None => Err "missing process input"%string
  end.
Definition decode_envd_signal (n : Z) : EnvdProcessSignal :=
  if n =? 0 then SignalUnspecified else if n =? 15 then Sigterm else if n =? 9 then Sigkill else SignalUnknown n.
Definition encode_envd_filesystem_entry (e : EnvdFilesystemEntry) : EnvdFilesystemEntryInfoProto :=
  mk_entry_proto e.(fe_entry_name) (match e.(fe_file_type) with FileEntry => 1 | DirectoryEntry => 2 end) e.(fe_path) e.(fe_size) e.(fe_mode)
    e.(fe_permissions) e.(fe_owner) e.(fe_group) e.(fe_symlink_target).
Definition encode_event (ev : EnvdProcessStreamEvent) : ProcessEventProto :=
  match ev with
  | EvStart pid => ProtoStart pid
  | EvStdout d => ProtoStdout d
  | EvStderr d => ProtoStderr d
  | EvPty d => ProtoPty d
  | EvEnd code exited status error => ProtoEnd code exited status error
  end.
Definition event_type_number (t : EnvdFilesystemEventType) : Z :=
  match t with FsCreate => 1 | FsWrite => 2 | FsRemove => 3 | FsRename => 4 | FsChmod => 5 end.

(** ** Streams *)
Inductive ProcessStreamEncoding := EncodeStart | EncodeConnect.
Section Streams.
Context `{Base64} `{EnvdProto}.
Definition encode_start_response (ev : ProcessEventProto) : list Z := encode_connect_envelope 0 (encode (StartResponse ev)).
Definition encode_connect_response (ev : ProcessEventProto) : list Z := encode_connect_envelope 0 (encode (ConnectResponse ev)).
Definition encode_process_stream_event (ev : EnvdProcessStreamEvent) (e : ProcessStreamEncoding) : list Z :=
  match e with EncodeStart => encode_start_response (encode_event ev) | EncodeConnect => encode_connect_response (encode_event ev) end.
Definition encode_envd_process_connect_output (o : EnvdProcessOutput) (e : EnvdRpcEncoding) : list Z :=
  concat ((fun ev => encode_process_stream_event ev EncodeConnect) <$> process_output_events o) ++ end_frame e.
Definition encode_filesystem_watch_response (ev : WatchEventProto) : list Z := encode_connect_envelope 0 (encode (WatchDirResponse ev)).
Definition encode_filesystem_watch_start_response : list Z := encode_filesystem_watch_response WatchStart.
Definition encode_filesystem_watch_event_response (ev : EnvdFilesystemEvent) : list Z :=
  encode_filesystem_watch_response (WatchFilesystem ev.(fe_name) (event_type_number ev.(fe_type))).
(** The data frames of a streamed body and whether it was cut off by an error
    of its source. *)
Record StreamBody := mk_stream { sb_frames : list (list Z); sb_aborted : bool }.
Fixpoint stream_events {A} (f : A -> list Z) (e : EnvdRpcEncoding) (l : list (result BackendError A)) : StreamBody :=
  match l with
  | [] => mk_stream [encode_stream_frame e (end_frame e)] false
  | Ok a :: l => let b := stream_events f e l in mk_stream (encode_stream_frame e (f a) :: b.(sb_frames)) b.(sb_aborted)
  | Err _ :: _ => mk_stream [] true
  end.
Definition envd_process_stream_body (l : list (result BackendError EnvdProcessStreamEvent)) (k : ProcessStreamEncoding) (e : EnvdRpcEncoding) : StreamBody :=
  stream_events (fun ev => encode_process_stream_event ev k) e l.
Definition envd_filesystem_watch_stream_body (l : list (result BackendError EnvdFilesystemEvent)) (e : EnvdRpcEncoding) : StreamBody :=
  let b := stream_events encode_filesystem_watch_event_response e l in
  mk_stream (encode_stream_frame e encode_filesystem_watch_start_response :: b.(sb_frames)) b.(sb_aborted).

(** ** Queries and uploads *)
(** [String::from_utf8_lossy] and gzip. *)
Context (lossy : list Z -> string) (gunzip : list Z -> result string (list Z)).
Definition query_hex_value (b : Z) : option Z :=
  if between 48 57 b then Some (b - 48)
  else if between 97 102 b then Some (b - 97 + 10)
  else if between 65 70 b then Some (b - 65 + 10) else None.
Fixpoint percent_decode_bytes (l : list Z) : list Z :=
  match l with
  | [] => []
  | b :: l1 =>
      if b =? 43 then 32 :: percent_decode_bytes l1
      else
        match l1 with
        | h :: l :: l3 =>
            if b =? 37 then
              match query_hex_value h, query_hex_value l with
              | Some high, Some low => high * 16 + low :: percent_decode_bytes l3
              | _, _ => b :: percent_decode_bytes l1
              end
            else b :: percent_decode_bytes l1
        | _ => b :: percent_decode_bytes l1
        end
  end.
Definition percent_decode_query_value (v : string) : string := lossy (percent_decode_bytes (bytes_of v)).
Definition query_param (query : option string) (key : string) : option string :=
  q ← query;
  find_map (fun pair => '(name, value) ← split_once "=" pair;
              if String.eqb name key then Some (percent_decode_query_value value) else None) (split "&" q).
Definition named_parameter (key part : string) : option string :=
  '(name, value) ← split_once "=" (Volumes.trim part);
  if eq_ignore_ascii_case name key then Some (trim_matches (ascii_of 34) value) else None.
Definition multipart_boundary_from_content_type (content_type : string) : option string :=
  match split ";" content_type with
  | [] => None
  | media :: parts =>
      if eq_ignore_ascii_case (Volumes.trim media) "multipart/form-data" then find_map (named_parameter "boundary") parts else None
  end.
Definition filename_from_content_disposition (header : string) : option string := find_map (named_parameter "filename") (split ";" header).
Definition is_disposition (line : string) : bool :=
  bool_decide (is_Some (strip_prefix "content-disposition:" (to_ascii_lowercase line))).
Definition parse_part (part : string) : option (string * list Z) :=
  '(headers, data) ← split_once_str (CRLF +:+ CRLF) part;
  path ← List.find is_disposition (text_lines headers) ≫= filename_from_content_disposition;
  Some (path, bytes_of (default data (strip_suffix CRLF data))).
Fixpoint parse_parts (parts : list string) : list (string * list Z) :=
  match parts with
  | [] => []
  | part :: parts =>
      let part := trim_start_str CRLF part in
      if bool_decide (is_Some (strip_prefix "--" part)) then []
      else match parse_part part with Some f => f :: parse_parts parts | None => parse_parts parts end
  end.
Definition parse_multipart_files (body : list Z) (boundary : string) : result string (list (string * list Z)) :=
  match parse_parts (tail (split_str ("--" +:+ boundary) (lossy body))) with
  | [] => Err "multipart upload did not include any file parts"%string
  | files => Ok files
  end.
Definition gunzip_bytes (b : list Z) : result string (list Z) := map_err (fun e => "failed to decode gzip upload: " +:+ e) (gunzip b).
End Streams.

(** ** Operations of a sandbox *)
Inductive EnvdOp :=
| ListProcesses
| SendProcessInput (selector : EnvdProcessSelector) (input : EnvdProcessInput)
| CloseProcessStdin (selector : EnvdProcessSelector)
| SignalProcess (selector : EnvdProcessSelector) (signal : EnvdProcessSignal)
| ConnectProcess (selector : EnvdProcessSelector)
| UpdateProcessPty (selector : EnvdProcessSelector) (pty : option EnvdPtySize)
| StartProcessStream (request : EnvdProcessStartRequest)
| ReadFile (path : string)
| WriteFile (path : string) (data : list Z)
| ListDir (path : string) (depth : Z)
| MakeDir (path : string)
| MoveEntry (source destination : string)
| RemoveEntry (path : string)
| StatEntry (path : string)
| WatchDirStream (path : string) (recursive : bool).
Definition envd_answer (op : EnvdOp) : Type :=
  match op with
  | ListProcesses => list EnvdProcessInfo
  | ConnectProcess _ => EnvdProcessOutput
  | StartProcessStream _ => list (result BackendError EnvdProcessStreamEvent)
  | ReadFile _ => list Z
  | WriteFile _ _ => EnvdFilesystemWriteInfo
  | ListDir _ _ => list EnvdFilesystemEntry
  | MakeDir _ | MoveEntry _ _ | StatEntry _ => EnvdFilesystemEntry
  | WatchDirStream _ _ => list (result BackendError EnvdFilesystemEvent)
  | _ => unit
  end.
Class EnvdAdapter (S : Type) := { perform : forall op : EnvdOp, S -> S * result BackendError (envd_answer op) }.

(** ** Requests and responses *)
Record EnvdRequest := mk_envd_request {
  rq_method : string;
  rq_path : string;
  rq_query : option string;
  rq_headers : strmap string;
  rq_body : result string (list Z)
}.
Inductive EnvdBody :=
| BodyBytes (b : list Z)
| BodyStream (b : StreamBody)
| BodyError (code message : string)
| BodyMessage (message : string)
| BodyWrites (infos : list EnvdFilesystemWriteInfo).
Record EnvdResponse := mk_envd_response { rs_status : Z; rs_content_type : option string; rs_body : EnvdBody }.
Definition connect_error_to_http (status : Z) (message : string) : EnvdResponse :=
  let code := if status =? 404 then "not_found"%string else if status =? 409 then "already_exists"%string
              else if status =? 400 then "invalid_argument"%string else if status =? 405 then "unimplemented"%string else "internal"%string in
  mk_envd_response status (Some "application/json"%string) (BodyError code message).
Definition backend_error_to_connect_http (e : BackendError) : EnvdResponse :=
  connect_error_to_http (match e with NotFound _ => 404 | AlreadyExists _ => 409 | Runtime _ => 500 end) (backend_display e).
Definition envd_auth_error (message : string) : EnvdResponse := mk_envd_response 401 (Some "application/json"%string) (BodyMessage message).

Section Handlers.
Context {S : Type} `{EnvdAdapter S} `{Base64} `{EnvdProto} (lossy : list Z -> string) (gunzip : list Z -> result string (list Z)).
Definition SM : Type := S -> S * EnvdResponse.
Definition refuse (r : EnvdResponse) : SM := fun s => (s, r).
Definition bad_request (e : string) : SM := refuse (connect_error_to_http 400 e).
Definition encode_unary_proto_response (m : EnvdMessage) (e : EnvdRpcEncoding) : EnvdResponse :=
  mk_envd_response 200 (Some (unary_content_type e)) (BodyBytes (encode_unary_response e (encode m))).
(** Carry an operation out and answer with what it gives. *)
Definition answer (op : EnvdOp) (fail : BackendError -> EnvdResponse) (ok : envd_answer op -> EnvdResponse) : SM := fun s =>
  match perform op s with (s, Ok a) => (s, ok a) | (s, Err e) => (s, fail e) end.
Definition internal_error (e : BackendError) : EnvdResponse := connect_error_to_http 500 (backend_display e).
(** A request is decoded or refused. *)
Definition decoded {M} (r : result string M) (k : M -> SM) : SM := match r with Ok m => k m | Err e => bad_request e end.
Definition decode_unary {M} (what : string) (dec : list Z -> result string M) (e : EnvdRpcEncoding) (body : list Z) : result string M :=
  body ← unary_request_body e body;
  map_err (fun x => "failed to decode " +:+ what +:+ ": " +:+ x) (dec body).
Definition decode_framed {M} (what : string) (dec : list Z -> result string M) (e : EnvdRpcEncoding) (body : list Z) : result string M :=
  body ← framed_request_body e body;
  envelopes ← decode_connect_envelopes body;
  envelope ← ok_or "missing Connect request envelope"%string (head envelopes);
  map_err (fun x => "failed to decode " +:+ what +:+ ": " +:+ x) (dec envelope.(env_data)).
Definition decode_envd_start_request (e : EnvdRpcEncoding) (body : list Z) : result string EnvdProcessStartRequest :=
  r ← decode_framed "process StartRequest" decode_start e body;
  p ← ok_or "missing process config"%string r.(sr_process);
  Ok (mk_process_start p.(pc_cmd) p.(pc_args) p.(pc_envs) p.(pc_cwd) r.(sr_tag) r.(sr_stdin) (r.(sr_pty) ≫= pp_size)).
Definition decode_envd_connect_selector (e : EnvdRpcEncoding) (body : list Z) : result string EnvdProcessSelector :=
  p ← decode_framed "process ConnectRequest" decode_connect e body; decode_envd_selector p.
Definition decode_envd_filesystem_watch_dir_request (e : EnvdRpcEncoding) (body : list Z) : result string (string * bool) :=
  decode_framed "filesystem WatchDirRequest" decode_watch_dir e body.
Definition encode_envd_process_list (ps : list EnvdProcessInfo) : list Z :=
  encode (ListResponse ((fun p => (mk_config_proto p.(pi_cmd) p.(pi_args) p.(pi_envs) p.(pi_cwd), p.(pi_pid), p.(pi_tag))) <$> ps)).

Definition handle_envd_process_list (body : list Z) (e : EnvdRpcEncoding) : SM :=
  decoded (decode_unary "process ListRequest" decode_list e body) (fun _ =>
    answer ListProcesses internal_error (fun ps =>
      mk_envd_response 200 (Some (unary_content_type e)) (BodyBytes (encode_unary_response e (encode_envd_process_list ps))))).
Definition handle_envd_process_send_input (body : list Z) (e : EnvdRpcEncoding) : SM :=
  decoded (r ← decode_unary "process SendInputRequest" decode_send_input e body;
           selector ← decode_envd_selector r.(si_process);
           input ← decode_envd_input r.(si_input);
           Ok (selector, input)) (fun '(selector, input) =>
    answer (SendProcessInput selector input) internal_error (fun _ => encode_unary_proto_response EmptyMessage e)).
Definition handle_envd_process_close_stdin (body : list Z) (e : EnvdRpcEncoding) : SM :=
  decoded (p ← decode_unary "process CloseStdinRequest" decode_close_stdin e body; decode_envd_selector p) (fun selector =>
    answer (CloseProcessStdin selector) internal_error (fun _ => encode_unary_proto_response EmptyMessage e)).
Definition handle_envd_process_send_signal (body : list Z) (e : EnvdRpcEncoding) : SM :=
  decoded (r ← decode_unary "process SendSignalRequest" decode_send_signal e body;
           selector ← decode_envd_selector r.(ss_process);
           Ok (selector, decode_envd_signal r.(ss_signal))) (fun '(selector, signal) =>
    answer (SignalProcess selector signal) internal_error (fun _ => encode_unary_proto_response EmptyMessage e)).
Definition handle_envd_process_connect (body : list Z) (e : EnvdRpcEncoding) : SM :=
  decoded (decode_envd_connect_selector e body) (fun selector =>
    answer (ConnectProcess selector) backend_error_to_connect_http (fun o =>
      mk_envd_response 200 (Some (streaming_content_type e)) (BodyBytes (encode_envd_process_connect_output o e)))).
Definition handle_envd_process_update (body : list Z) (e : EnvdRpcEncoding) : SM :=
  decoded (r ← decode_unary "process UpdateRequest" decode_update e body;
           selector ← decode_envd_selector r.(ur_process);
           Ok (selector, r.(ur_pty) ≫= pp_size)) (fun '(selector, pty) =>
    answer (UpdateProcessPty selector pty) backend_error_to_connect_http (fun _ => encode_unary_proto_response EmptyMessage e)).
Definition handle_envd_process_start (body : list Z) (e : EnvdRpcEncoding) : SM :=
  decoded (decode_envd_start_request e body) (fun request =>
    answer (StartProcessStream request) internal_error (fun events =>
      mk_envd_response 200 (Some (streaming_content_type e)) (BodyStream (envd_process_stream_body events EncodeStart e)))).
Definition entry_response (e : EnvdRpcEncoding) (entry : EnvdFilesystemEntry) : EnvdResponse :=
  encode_unary_proto_response (EntryResponse (encode_envd_filesystem_entry entry)) e.
Definition handle_envd_filesystem_list_dir (body : list Z) (e : EnvdRpcEncoding) : SM :=
  decoded (decode_unary "filesystem ListDirRequest" decode_list_dir e body) (fun '(path, depth) =>
    answer (ListDir path depth) backend_error_to_connect_http (fun entries =>
      encode_unary_proto_response (ListDirResponse (encode_envd_filesystem_entry <$> entries)) e)).
Definition handle_envd_filesystem_make_dir (body : list Z) (e : EnvdRpcEncoding) : SM :=
  decoded (decode_unary "filesystem MakeDirRequest" decode_path e body) (fun path =>
    answer (MakeDir path) backend_error_to_connect_http (entry_response e)).
Definition handle_envd_filesystem_move (body : list Z) (e : EnvdRpcEncoding) : SM :=
  decoded (decode_unary "filesystem MoveRequest" decode_move e body) (fun '(source, destination) =>
    answer (MoveEntry source destination) backend_error_to_connect_http (entry_response e)).
Definition handle_envd_filesystem_remove (body : list Z) (e : EnvdRpcEncoding) : SM :=
  decoded (decode_unary "filesystem RemoveRequest" decode_path e body) (fun path =>
    answer (RemoveEntry path) backend_error_to_connect_http (fun _ => encode_unary_proto_response EmptyMessage e)).
Definition handle_envd_filesystem_stat (body : list Z) (e : EnvdRpcEncoding) : SM :=
  decoded (decode_unary "filesystem StatRequest" decode_path e body) (fun path =>
    answer (StatEntry path) backend_error_to_connect_http (entry_response e)).
Definition handle_envd_filesystem_watch_dir (body : list Z) (e : EnvdRpcEncoding) : SM :=
  decoded (decode_envd_filesystem_watch_dir_request e body) (fun '(path, recursive) =>
    answer (WatchDirStream path recursive) backend_error_to_connect_http (fun events =>
      mk_envd_response 200 (Some (streaming_content_type e)) (BodyStream (envd_filesystem_watch_stream_body events e)))).
Definition handle_envd_files_read (rq : EnvdRequest) : SM :=
  match query_param lossy rq.(rq_query) "path" with
  | None => bad_request "missing file path"
  | Some path => answer (ReadFile path) backend_error_to_connect_http (fun b => mk_envd_response 200 (Some "application/octet-stream"%string) (BodyBytes b))
  end.
(** The files of an upload are written in order, up to the first failure. *)
Fixpoint write_files (infos : list EnvdFilesystemWriteInfo) (writes : list (string * list Z)) : SM :=
  match writes with
  | [] => refuse (mk_envd_response 200 (Some "application/json"%string) (BodyWrites infos))
  | (path, data) :: writes => fun s =>
      match perform (WriteFile path data) s with
      | (s, Ok info) => write_files (infos ++ [info]) writes s
      | (s, Err e) => (s, backend_error_to_connect_http e)
      end
  end.
Definition uploads (rq : EnvdRequest) (body : list Z) : result string (list (string * list Z)) :=
  let is_gzip := match rq.(rq_headers) !! "content-encoding"%string ≫= E2bServer.to_str with
                 | Some v => eq_ignore_ascii_case v "gzip" | None => false end in
  match ((rq.(rq_headers) !! "content-type"%string) ≫= E2bServer.to_str) ≫= multipart_boundary_from_content_type with
  | Some boundary => parse_multipart_files lossy body boundary
  | None =>
      path ← ok_or "missing file path"%string (query_param lossy rq.(rq_query) "path");
      data ← (if is_gzip then gunzip_bytes gunzip body else Ok body);
      Ok [(path, data)]
  end.
Definition handle_envd_files_write (rq : EnvdRequest) : SM :=
  decoded (map_err (fun e => "failed to read file upload body: " +:+ e) rq.(rq_body)) (fun body =>
    decoded (uploads rq body) (write_files [])).
(** The routes of the POST requests with a message. *)
Definition rpc_handler (path : string) : option (list Z -> EnvdRpcEncoding -> SM) :=
  if String.eqb path "/process.Process/List" then Some handle_envd_process_list
  else if String.eqb path "/process.Process/SendInput" then Some handle_envd_process_send_input
  else if String.eqb path "/process.Process/CloseStdin" then Some handle_envd_process_close_stdin
  else if String.eqb path "/process.Process/SendSignal" then Some handle_envd_process_send_signal
  else if String.eqb path "/process.Process/Connect" then Some handle_envd_process_connect
  else if String.eqb path "/process.Process/Update" then Some handle_envd_process_update
  else if String.eqb path "/filesystem.Filesystem/ListDir" then Some handle_envd_filesystem_list_dir
  else if String.eqb path "/filesystem.Filesystem/MakeDir" then Some handle_envd_filesystem_make_dir
  else if String.eqb path "/filesystem.Filesystem/Move" then Some handle_envd_filesystem_move
  else if String.eqb path "/filesystem.Filesystem/Remove" then Some handle_envd_filesystem_remove
  else if String.eqb path "/filesystem.Filesystem/Stat" then Some handle_envd_filesystem_stat
  else if String.eqb path "/filesystem.Filesystem/WatchDir" then Some handle_envd_filesystem_watch_dir
  else if String.eqb path "/process.Process/Start" then Some handle_envd_process_start
  else None.
Definition handle_envd_process_request (rq : EnvdRequest) : SM :=
  let e := from_headers rq.(rq_headers) in
  let get := String.eqb rq.(rq_method) "GET" in
  if get && String.eqb rq.(rq_path) "/health" then refuse (mk_envd_response 200 None (BodyBytes (bytes_of "ok")))
  else if negb (String.eqb rq.(rq_method) "POST") then
    if get && String.eqb rq.(rq_path) "/files" then handle_envd_files_read rq
    else refuse (connect_error_to_http 405 "envd process method not allowed")
  else if String.eqb rq.(rq_path) "/files" then handle_envd_files_write rq
  else
    decoded (map_err (fun x => "failed to read envd request body: " +:+ x) rq.(rq_body)) (fun body =>
      match rpc_handler rq.(rq_path) with
      | Some handler => handler body e
      | None => refuse (connect_error_to_http 404 "envd route not found")
      end).
Definition handle_envd_process_request_authenticated (access_token : option string) (rq : EnvdRequest) : SM :=
  if match access_token with
     | Some token => negb (header_matches (rq.(rq_headers) !! "x-access-token"%string) token)
     | None => false
     end
  then refuse (envd_auth_error "missing or invalid x-access-token")
  else handle_envd_process_request rq.
End Handlers.

(** * Properties *)

(** ** Frames *)
Definition is_byte (b : Z) : Prop := 0 <= b < 256.
Definition envelope_bytes (e : ConnectEnvelope) : list Z := encode_connect_envelope e.(env_flags) e.(env_data).
Definition envelope_fits (e : ConnectEnvelope) : Prop := Z.of_nat (length e.(env_data)) < 2 ^ 32.
Lemma be32_value n : 0 <= n < 2 ^ 32 ->
  n / 16777216 mod 256 * 16777216 + n / 65536 mod 256 * 65536 + n / 256 mod 256 * 256 + n mod 256 = n.
Proof. intros. Z.div_mod_to_equations. lia. Qed.
Lemma value_be32 a b c d : is_byte a -> is_byte b -> is_byte c -> is_byte d ->
  be32 (a * 16777216 + b * 65536 + c * 256 + d) = [a; b; c; d].
Proof. unfold is_byte. intros. unfold be32. repeat f_equal; Z.div_mod_to_equations; lia. Qed.
Lemma decode_encode_envelopes es fuel : Forall envelope_fits es -> (length (concat (envelope_bytes <$> es)) < fuel)%nat ->
  decode_envelopes fuel (concat (envelope_bytes <$> es)) = Ok es.
Proof.
  intros He. revert fuel. induction He as [|[flags data] es Hf He IH]; intros fuel Hlt; destruct fuel as [|fuel]; [cbn in Hlt; lia|done|cbn in Hlt; lia|].
  cbn [fmap list_fmap concat]. unfold envelope_bytes at 1, encode_connect_envelope, be32. cbn [env_flags env_data app].
  cbn [decode_envelopes]. unfold envelope_fits in Hf. cbn [env_data] in Hf. rewrite be32_value by lia. rewrite Nat2Z.id, length_app.
  replace (length data + length (concat (envelope_bytes <$> es)) <? length data)%nat with false by (symmetry; apply Nat.ltb_ge; lia).
  rewrite drop_app_length, take_app_length. rewrite IH; [done|]. cbn in Hlt. rewrite length_app in Hlt. lia.
Qed.
Lemma decode_envelopes_sound fuel bs es : Forall is_byte bs -> decode_envelopes fuel bs = Ok es ->
  bs = concat (envelope_bytes <$> es) /\ Forall envelope_fits es.
Proof.
  revert bs es. induction fuel as [|fuel IH]; intros bs es Hb; [done|]. cbn [decode_envelopes].
  destruct bs as [|f [|a [|b [|c [|d rest]]]]]; try done; [intros [= <-]; by split|].
  apply Forall_cons in Hb as [Hf Hb]. apply Forall_cons in Hb as [Ha Hb]. apply Forall_cons in Hb as [Hbb Hb].
  apply Forall_cons in Hb as [Hc Hb]. apply Forall_cons in Hb as [Hd Hb].
  set (n := a * 16777216 + b * 65536 + c * 256 + d). destruct (Nat.ltb_spec (length rest) (Z.to_nat n)) as [|Hge]; [done|].
  destruct (decode_envelopes fuel (drop _ rest)) as [es'|] eqn:E; [|done]. intros [= <-].
  apply IH in E as [E Hes]; [|by apply Forall_drop]. unfold is_byte in *. assert (Hn : 0 <= n < 2 ^ 32) by (unfold n; lia).
  assert (Hl : Z.of_nat (length (take (Z.to_nat n) rest)) = n) by (rewrite length_take; lia).
  split; [|constructor; [unfold envelope_fits; cbn [env_data]; lia|done]].
  cbn [fmap list_fmap concat]. rewrite <- E. unfold envelope_bytes at 1, encode_connect_envelope. cbn [env_flags env_data].
  rewrite Hl. unfold n at 1. rewrite value_be32 by done. cbn [app]. by rewrite take_drop.
Qed.
Lemma decode_envelopes_fuel fuel bs : (length bs < fuel)%nat -> decode_envelopes fuel bs <> Err "fuel"%string.
Proof.
  revert bs. induction fuel as [|fuel IH]; intros bs Hl; [lia|]. cbn [decode_envelopes].
  destruct bs as [|f [|a [|b [|c [|d rest]]]]]; try done. destruct (_ <? _)%nat; [done|].
  set (n := Z.to_nat _). specialize (IH (drop n rest)). rewrite length_drop in IH. cbn [length] in Hl.
  destruct (decode_envelopes fuel (drop n rest)) as [es|e]; [done|]. cbn. intros [= ->]. apply IH; [lia|done].
Qed.
(** C23: splitting a body into frames inverts framing exactly.  A body of bytes
    is accepted precisely when it is the concatenation of frames whose length
    fits their header, and then these are the frames; in all other cases the
    splitting ends with an error of its own, never with an exhausted loop. *)
Theorem frames_exact bs es : Forall is_byte bs ->
  (decode_connect_envelopes bs = Ok es <-> bs = concat (envelope_bytes <$> es) /\ Forall envelope_fits es) /\
  decode_connect_envelopes bs <> Err "fuel"%string.
Proof.
  intros Hb. split; [|apply decode_envelopes_fuel; lia]. split; [by apply decode_envelopes_sound|].
  intros [-> He]. apply decode_encode_envelopes; [done|lia].
Qed.
Lemma frames_exact_witness :
  Forall is_byte (envelope_bytes (mk_envelope 0 [104; 105]) ++ envelope_bytes (mk_envelope 2 [123; 125])) /\
  decode_connect_envelopes (envelope_bytes (mk_envelope 0 [104; 105]) ++ envelope_bytes (mk_envelope 2 [123; 125])) =
    Ok [mk_envelope 0 [104; 105]; mk_envelope 2 [123; 125]].
Proof.
  assert (Hb : Forall is_byte (envelope_bytes (mk_envelope 0 [104; 105]) ++ envelope_bytes (mk_envelope 2 [123; 125])))
    by (unfold is_byte; apply (bool_decide_unpack _); vm_compute; exact I).
  split; [exact Hb|]. apply (frames_exact _ [mk_envelope 0 [104; 105]; mk_envelope 2 [123; 125]] Hb).
  split; [reflexivity|]. repeat (apply Forall_cons; split; [reflexivity|]). constructor.
Defined.

(** ** Calls *)
(** What the fields of a message can hold: text is UTF-8, bytes are octets,
    integers have the width of their field, and a map has each key once (it is
    listed in the order of its keys). *)
Definition uint32 (n : Z) : bool := between 0 (2 ^ 32 - 1) n.
Definition int32 (n : Z) : bool := between (- 2 ^ 31) (2 ^ 31 - 1) n.
Definition opt_typed {A} (f : A -> bool) (o : option A) : bool := match o with Some a => f a | None => true end.
Fixpoint listed (m : list (string * string)) : bool :=
  match m with
  | (k, _) :: ((k', _) :: _) as m => match kcmp k k' with Lt => listed m | _ => false end
  | _ => true
  end.
Definition selector_typed (p : EnvdProcessSelectorProto) : bool :=
  opt_typed (fun o => match o with SelectorPid pid => uint32 pid | SelectorTag tag => is_utf8 tag end) p.(sp_selector).
Definition input_typed (i : EnvdProcessInputProto) : bool :=
  opt_typed (fun o => match o with OneofStdin d | OneofPty d => octets d end) i.(ip_input).
Definition pty_typed (p : EnvdPtyProto) : bool := opt_typed (fun z => uint32 z.(pty_cols) && uint32 z.(pty_rows)) p.(pp_size).
Definition config_typed (c : EnvdProcessConfigProto) : bool :=
  is_utf8 c.(pc_cmd) && forallb is_utf8 c.(pc_args) && opt_typed is_utf8 c.(pc_cwd) &&
  listed c.(pc_envs) && forallb (fun kv => is_utf8 kv.1 && is_utf8 kv.2) c.(pc_envs).
Definition send_input_typed (m : EnvdSendInputRequestProto) : bool := opt_typed selector_typed m.(si_process) && opt_typed input_typed m.(si_input).
Definition send_signal_typed (m : EnvdSendSignalRequestProto) : bool := opt_typed selector_typed m.(ss_process) && int32 m.(ss_signal).
Definition update_typed (m : EnvdUpdateRequestProto) : bool := opt_typed selector_typed m.(ur_process) && opt_typed pty_typed m.(ur_pty).
Definition start_typed (m : EnvdStartRequestProto) : bool :=
  opt_typed config_typed m.(sr_process) && opt_typed pty_typed m.(sr_pty) && opt_typed is_utf8 m.(sr_tag).
(** The encoders of a client's request messages, which the decoders invert. *)
Class EnvdClient `{EnvdProto} := {
  enc_list : list Z;
  enc_send_input : EnvdSendInputRequestProto -> list Z;
  enc_selector : option EnvdProcessSelectorProto -> list Z;
  enc_send_signal : EnvdSendSignalRequestProto -> list Z;
  enc_update : EnvdUpdateRequestProto -> list Z;
  enc_start : EnvdStartRequestProto -> list Z;
  enc_list_dir : string * Z -> list Z;
  enc_path : string -> list Z;
  enc_move : string * string -> list Z;
  enc_watch_dir : string * bool -> list Z;
  list_law : decode_list enc_list = Ok ();
  send_input_law m : send_input_typed m = true -> decode_send_input (enc_send_input m) = Ok m;
  close_stdin_law m : opt_typed selector_typed m = true -> decode_close_stdin (enc_selector m) = Ok m;
  connect_law m : opt_typed selector_typed m = true -> decode_connect (enc_selector m) = Ok m;
  send_signal_law m : send_signal_typed m = true -> decode_send_signal (enc_send_signal m) = Ok m;
  update_law m : update_typed m = true -> decode_update (enc_update m) = Ok m;
  start_law m : start_typed m = true -> decode_start (enc_start m) = Ok m;
  list_dir_law m : is_utf8 m.1 && uint32 m.2 = true -> decode_list_dir (enc_list_dir m) = Ok m;
  path_law m : is_utf8 m = true -> decode_path (enc_path m) = Ok m;
  move_law m : is_utf8 m.1 && is_utf8 m.2 = true -> decode_move (enc_move m) = Ok m;
  watch_dir_law m : is_utf8 m.1 = true -> decode_watch_dir (enc_watch_dir m) = Ok m
}.
Section Calls.
Context {S : Type} `{EnvdAdapter S} `{Base64Laws} `{EnvdClient} (lossy : list Z -> string) (gunzip : list Z -> result string (list Z)).
Abbreviation serve := (handle_envd_process_request_authenticated (S := S) lossy gunzip).
Definition selector_proto (p : EnvdProcessSelector) : option EnvdProcessSelectorProto :=
  Some (mk_selector_proto (Some (match p with SelectPid pid => SelectorPid pid | SelectTag tag => SelectorTag tag end))).
Definition input_proto (i : EnvdProcessInput) : option EnvdProcessInputProto :=
  Some (mk_input_proto (Some (match i with InputStdin d => OneofStdin d | InputPty d => OneofPty d end))).
Definition signal_number (g : EnvdProcessSignal) : Z :=
  match g with SignalUnspecified => 0 | Sigterm => 15 | Sigkill => 9 | SignalUnknown n => n end.
Definition signal_message (p : EnvdProcessSelector) (g : EnvdProcessSignal) : EnvdSendSignalRequestProto :=
  mk_send_signal (selector_proto p) (signal_number g).
Definition start_message (r : EnvdProcessStartRequest) : EnvdStartRequestProto :=
  mk_start_proto (Some (mk_config_proto r.(ps_cmd) r.(ps_args) r.(ps_envs) r.(ps_cwd))) (Some (mk_pty_proto r.(ps_pty))) r.(ps_tag) r.(ps_stdin).
(** An operation whose arguments its message can carry. *)
Definition typed_op (op : EnvdOp) : bool :=
  match op with
  | ListProcesses | ReadFile _ | WriteFile _ _ => true
  | SendProcessInput p i => send_input_typed (mk_send_input (selector_proto p) (input_proto i))
  | CloseProcessStdin p | ConnectProcess p => opt_typed selector_typed (selector_proto p)
  | SignalProcess p g => send_signal_typed (signal_message p g)
  | UpdateProcessPty p z => update_typed (mk_update (selector_proto p) (Some (mk_pty_proto z)))
  | StartProcessStream r => start_typed (start_message r)
  | ListDir path depth => is_utf8 path && uint32 depth
  | MakeDir path | RemoveEntry path | StatEntry path | WatchDirStream path _ => is_utf8 path
  | MoveEntry source destination => is_utf8 source && is_utf8 destination
  end.
(** The call of an operation: its route, whether it answers with a stream, and
    its message. *)
Definition call (op : EnvdOp) : option (string * bool * list Z) :=
  match op with
  | ListProcesses => Some ("/process.Process/List", false, enc_list)
  | SendProcessInput p i => Some ("/process.Process/SendInput", false, enc_send_input (mk_send_input (selector_proto p) (input_proto i)))
  | CloseProcessStdin p => Some ("/process.Process/CloseStdin", false, enc_selector (selector_proto p))
  | SignalProcess p g => Some ("/process.Process/SendSignal", false, enc_send_signal (signal_message p g))
  | ConnectProcess p => Some ("/process.Process/Connect", true, enc_selector (selector_proto p))
  | UpdateProcessPty p z => Some ("/process.Process/Update", false, enc_update (mk_update (selector_proto p) (Some (mk_pty_proto z))))
  | StartProcessStream r => Some ("/process.Process/Start", true, enc_start (start_message r))
  | ListDir path depth => Some ("/filesystem.Filesystem/ListDir", false, enc_list_dir (path, depth))
  | MakeDir path => Some ("/filesystem.Filesystem/MakeDir", false, enc_path path)
  | MoveEntry source destination => Some ("/filesystem.Filesystem/Move", false, enc_move (source, destination))
  | RemoveEntry path => Some ("/filesystem.Filesystem/Remove", false, enc_path path)
  | StatEntry path => Some ("/filesystem.Filesystem/Stat", false, enc_path path)
  | WatchDirStream path recursive => Some ("/filesystem.Filesystem/WatchDir", true, enc_watch_dir (path, recursive))
  | ReadFile _ | WriteFile _ _ => None
  end%string.
Definition call_body (e : EnvdRpcEncoding) (streaming : bool) (msg : list Z) : list Z :=
  match e, streaming with
  | Connect, false => msg
  | GrpcWebText, _ => b64_encode (encode_connect_envelope 0 msg)
  | _, _ => encode_connect_envelope 0 msg
  end.
Definition call_request (token : string) (e : EnvdRpcEncoding) (path : string) (streaming : bool) (msg : list Z) : EnvdRequest :=
  mk_envd_request "POST" path None
    (<["content-type"%string := if streaming then streaming_content_type e else unary_content_type e]> (<["x-access-token"%string := token]> ∅))
    (Ok (call_body e streaming msg)).
(** The messages an answer consists of, and whether the stream was finished. *)
Fixpoint ok_prefix {A} (l : list (result BackendError A)) : list A :=
  match l with Ok a :: l => a :: ok_prefix l | _ => [] end.
Definition all_ok {A} (l : list (result BackendError A)) : bool := forallb (fun r => match r with Ok _ => true | Err _ => false end) l.
Definition watch_message (ev : EnvdFilesystemEvent) : EnvdMessage := WatchDirResponse (WatchFilesystem ev.(fe_name) (event_type_number ev.(fe_type))).
Definition answer_messages (op : EnvdOp) : envd_answer op -> list EnvdMessage * bool :=
  match op with
  | ListProcesses => fun ps =>
      ([ListResponse ((fun p => (mk_config_proto p.(pi_cmd) p.(pi_args) p.(pi_envs) p.(pi_cwd), p.(pi_pid), p.(pi_tag))) <$> ps)], true)
  | ConnectProcess _ => fun o => ((fun ev => ConnectResponse (encode_event ev)) <$> process_output_events o, true)
  | StartProcessStream _ => fun l => ((fun ev => StartResponse (encode_event ev)) <$> ok_prefix l, all_ok l)
  | ListDir _ _ => fun es => ([ListDirResponse (encode_envd_filesystem_entry <$> es)], true)
  | MakeDir _ | MoveEntry _ _ | StatEntry _ => fun entry => ([EntryResponse (encode_envd_filesystem_entry entry)], true)
  | WatchDirStream _ _ => fun l => (WatchDirResponse WatchStart :: (watch_message <$> ok_prefix l), all_ok l)
  | ReadFile _ | WriteFile _ _ => fun _ => ([], true)
  | _ => fun _ => ([EmptyMessage], true)
  end.
(** How a client reads a response: chunk by chunk, the data frames, and whether
    the end frame was there. *)
Definition end_flag (e : EnvdRpcEncoding) : Z := match e with Connect => 2 | _ => 128 end.
Fixpoint read_chunks (e : EnvdRpcEncoding) (chunks : list (list Z)) : result string (list ConnectEnvelope) :=
  match chunks with
  | [] => Ok []
  | c :: chunks => b ← framed_request_body e c; es ← decode_connect_envelopes b; rest ← read_chunks e chunks; Ok (es ++ rest)
  end.
Definition read_frames (e : EnvdRpcEncoding) (chunks : list (list Z)) : result string (list (list Z) * bool) :=
  es ← read_chunks e chunks;
  Ok (env_data <$> List.filter (fun x => x.(env_flags) =? 0) es, existsb (fun x => x.(env_flags) =? end_flag e) es).
Definition client_read (e : EnvdRpcEncoding) (streaming : bool) (rs : EnvdResponse) : result string (list (list Z) * bool) :=
  match rs.(rs_body) with
  | BodyBytes b => match e, streaming with Connect, false => Ok ([b], true) | _, _ => read_frames e [b] end
  | BodyStream b => read_frames e b.(sb_frames)
  | _ => Err "error response"%string
  end.
Definition call_failure (op : EnvdOp) (err : BackendError) : EnvdResponse :=
  match op with
  | ListProcesses | SendProcessInput _ _ | CloseProcessStdin _ | SignalProcess _ _ | StartProcessStream _ => internal_error err
  | _ => backend_error_to_connect_http err
  end.
Definition signal_canonical (op : EnvdOp) : Prop :=
  match op with SignalProcess _ (SignalUnknown n) => n <> 0 /\ n <> 9 /\ n <> 15 | _ => True end.
(** The one response that a gRPC-web-text client cannot read. *)
Definition readable (op : EnvdOp) (e : EnvdRpcEncoding) : bool :=
  match op, e with ConnectProcess _, GrpcWebText => false | _, _ => true end.
(** A byte string whose length a frame header can hold. *)
Definition fits (l : list Z) : Prop := Z.of_nat (length l) < 2 ^ 32 /\ octets l = true.
Lemma octets_app a b : octets (a ++ b) = octets a && octets b.
Proof. apply forallb_app. Qed.
Lemma octets_be32 n : octets (be32 n) = true.
Proof. unfold octets, be32, between. cbn [forallb]. repeat (apply andb_true_intro; split); lia. Qed.
Lemma octets_envelope flags data : between 0 255 flags = true -> fits data -> octets (encode_connect_envelope flags data) = true.
Proof.
  intros Hf [Hl Hd]. unfold encode_connect_envelope. cbn [octets forallb]. rewrite Hf. fold (octets (be32 (Z.of_nat (length data)) ++ data)).
  rewrite octets_app, Hd, andb_true_r. apply octets_be32.
Qed.

Lemma one_envelope_decoded flags data : fits data ->
  decode_connect_envelopes (encode_connect_envelope flags data) = Ok [mk_envelope flags data].
Proof.
  intros Hf. unfold decode_connect_envelopes. replace (encode_connect_envelope flags data) with (concat (envelope_bytes <$> [mk_envelope flags data])) by (cbn; by rewrite app_nil_r).
  apply decode_encode_envelopes; [destruct Hf; by repeat constructor|lia].
Qed.
Lemma call_unframed e msg : fits msg -> framed_request_body e (call_body e true msg) = Ok (encode_connect_envelope 0 msg).
Proof.
  intros Hf. unfold framed_request_body, call_body. destruct e; [done|done|]. by rewrite b64_roundtrip by by apply octets_envelope.
Qed.
Lemma unary_body_read e msg : fits msg -> unary_request_body e (call_body e false msg) = Ok msg.
Proof.
  intros Hf. destruct e; [done| |]; unfold unary_request_body; change (call_body ?e false msg) with (call_body e true msg);
    rewrite call_unframed by done; cbn [mbind result_bind]; by rewrite one_envelope_decoded.
Qed.
Lemma decode_unary_call {M} what (dec : list Z -> result string M) e msg m : fits msg -> dec msg = Ok m ->
  decode_unary what dec e (call_body e false msg) = Ok m.
Proof. intros Hf Hd. unfold decode_unary. rewrite unary_body_read by done. cbn. by rewrite Hd. Qed.
Lemma decode_framed_call {M} what (dec : list Z -> result string M) e msg m : fits msg -> dec msg = Ok m ->
  decode_framed what dec e (call_body e true msg) = Ok m.
Proof.
  intros Hf Hd. unfold decode_framed. rewrite call_unframed by done. cbn [mbind result_bind map_err].
  rewrite one_envelope_decoded by done. cbn. by rewrite Hd.
Qed.
Lemma encoding_of_call token e path streaming msg :
  from_headers (call_request token e path streaming msg).(rq_headers) = e.
Proof.
  unfold from_headers, call_request. cbn [rq_headers]. rewrite lookup_insert_eq. by destruct e, streaming.
Qed.
(** The handler of an operation's route. *)
Definition op_handler (op : EnvdOp) : list Z -> EnvdRpcEncoding -> S -> S * EnvdResponse :=
  match op with
  | ListProcesses => handle_envd_process_list
  | SendProcessInput _ _ => handle_envd_process_send_input
  | CloseProcessStdin _ => handle_envd_process_close_stdin
  | SignalProcess _ _ => handle_envd_process_send_signal
  | ConnectProcess _ => handle_envd_process_connect
  | UpdateProcessPty _ _ => handle_envd_process_update
  | StartProcessStream _ => handle_envd_process_start
  | ListDir _ _ => handle_envd_filesystem_list_dir
  | MakeDir _ => handle_envd_filesystem_make_dir
  | MoveEntry _ _ => handle_envd_filesystem_move
  | RemoveEntry _ => handle_envd_filesystem_remove
  | StatEntry _ => handle_envd_filesystem_stat
  | WatchDirStream _ _ => handle_envd_filesystem_watch_dir
  | ReadFile _ | WriteFile _ _ => fun _ _ => refuse (connect_error_to_http 404 "envd route not found")
  end.
(** The response to a successful call. *)
Definition call_success (op : EnvdOp) (e : EnvdRpcEncoding) : envd_answer op -> EnvdResponse :=
  match op with
  | ConnectProcess _ => fun o => mk_envd_response 200 (Some (streaming_content_type e)) (BodyBytes (encode_envd_process_connect_output o e))
  | StartProcessStream _ => fun l => mk_envd_response 200 (Some (streaming_content_type e)) (BodyStream (envd_process_stream_body l EncodeStart e))
  | WatchDirStream _ _ => fun l => mk_envd_response 200 (Some (streaming_content_type e)) (BodyStream (envd_filesystem_watch_stream_body l e))
  | ListProcesses => fun ps => mk_envd_response 200 (Some (unary_content_type e)) (BodyBytes (encode_unary_response e (encode_envd_process_list ps)))
  | ListDir _ _ => fun es => encode_unary_proto_response (ListDirResponse (encode_envd_filesystem_entry <$> es)) e
  | MakeDir _ | MoveEntry _ _ | StatEntry _ => entry_response e
  | _ => fun _ => encode_unary_proto_response EmptyMessage e
  end.
Lemma call_routed token e op path streaming msg s : call op = Some (path, streaming, msg) -> E2bServer.to_str token = Some token ->
  serve (Some token) (call_request token e path streaming msg) s = op_handler op (call_body e streaming msg) e s.
Proof.
  intros Hc Ht. unfold handle_envd_process_request_authenticated, header_matches.
  change (rq_headers (call_request token e path streaming msg)) with
    (<["content-type"%string := if streaming then streaming_content_type e else unary_content_type e]> (<["x-access-token"%string := token]> (∅ : strmap string))).
  rewrite lookup_insert_ne, lookup_insert_eq by done. cbn [mbind option_bind]. rewrite Ht, String.eqb_refl. cbn [negb].
  unfold handle_envd_process_request. rewrite encoding_of_call. destruct op; cbn in Hc; try done; by injection Hc as <- <- <-.
Qed.
Lemma decoded_signal g : (forall n, g = SignalUnknown n -> n <> 0 /\ n <> 9 /\ n <> 15) -> decode_envd_signal (signal_number g) = g.
Proof.
  intros Hg. unfold decode_envd_signal. destruct g as [| | |n]; try done. destruct (Hg n eq_refl) as (N0 & N9 & N15). cbn [signal_number].
  by rewrite (proj2 (Z.eqb_neq n 0) N0), (proj2 (Z.eqb_neq n 15) N15), (proj2 (Z.eqb_neq n 9) N9).
Qed.
Lemma decoded_selector p : decode_envd_selector (selector_proto p) = Ok p.
Proof. by destruct p. Qed.
Lemma decoded_input i : decode_envd_input (input_proto i) = Ok i.
Proof. by destruct i. Qed.
Ltac call_message := first [rewrite (decode_unary_call _ _ _ _ _ ltac:(eassumption)
    ltac:(first [apply list_law|apply send_input_law|apply close_stdin_law|apply send_signal_law|apply update_law|apply list_dir_law|apply path_law|apply move_law]; eassumption))
  | rewrite (decode_framed_call _ _ _ _ _ ltac:(eassumption) ltac:(first [apply connect_law|apply start_law|apply watch_dir_law]; eassumption))].
Lemma call_handled op path streaming msg e s : call op = Some (path, streaming, msg) -> typed_op op = true -> fits msg -> signal_canonical op ->
  op_handler op (call_body e streaming msg) e s =
    match perform op s with (s', Ok a) => (s', call_success op e a) | (s', Err err) => (s', call_failure op err) end.
Proof.
  intros Hc Hty Hf Hk. destruct op as [|p i|p|p g|p|p z|r|pa|pa d|pa d|pa|a b|pa|pa|pa b]; cbn in Hc; try done; injection Hc as <- <- <-; cbn [op_handler]; cbn [typed_op] in Hty.
  - unfold handle_envd_process_list. rewrite (decode_unary_call _ _ _ _ _ Hf list_law). done.
  - unfold handle_envd_process_send_input. call_message. cbn [mbind result_bind si_process si_input]. by rewrite decoded_selector, decoded_input.
  - unfold handle_envd_process_close_stdin. call_message. cbn [mbind result_bind]. by rewrite decoded_selector.
  - unfold handle_envd_process_send_signal. call_message. cbn [mbind result_bind signal_message ss_process ss_signal]. rewrite decoded_selector.
    cbn [mbind result_bind decoded]. rewrite decoded_signal; [done|]. intros n ->. exact Hk.
  - unfold handle_envd_process_connect, decode_envd_connect_selector. call_message. cbn [mbind result_bind]. by rewrite decoded_selector.
  - unfold handle_envd_process_update. call_message. cbn [mbind result_bind ur_process ur_pty]. by rewrite decoded_selector.
  - unfold handle_envd_process_start, decode_envd_start_request. call_message. by destruct r.
  - unfold handle_envd_filesystem_list_dir. call_message. done.
  - unfold handle_envd_filesystem_make_dir. call_message. done.
  - unfold handle_envd_filesystem_move. call_message. done.
  - unfold handle_envd_filesystem_remove. call_message. done.
  - unfold handle_envd_filesystem_stat. call_message. done.
  - unfold handle_envd_filesystem_watch_dir, decode_envd_filesystem_watch_dir_request. call_message. done.
Qed.
Lemma body_decoded e b : octets b = true -> framed_request_body e (encode_response_bytes e b) = Ok b.
Proof. intros Hb. destruct e; [done|done|]. cbn. by rewrite b64_roundtrip. Qed.
Definition end_data (e : EnvdRpcEncoding) : list Z := match e with Connect => bytes_of "{}" | _ => bytes_of ("grpc-status: 0" +:+ CRLF) end.
Lemma end_frame_envelope e : end_frame e = envelope_bytes (mk_envelope (end_flag e) (end_data e)).
Proof. by destruct e. Qed.
Lemma end_data_fits e : fits (end_data e).
Proof. by destruct e. Qed.
Lemma octets_end e : octets (end_frame e) = true.
Proof. rewrite end_frame_envelope. apply octets_envelope; [by destruct e|apply end_data_fits]. Qed.
Lemma octets_frames ms : Forall fits ms -> octets (concat (encode_connect_envelope 0 <$> ms)) = true.
Proof.
  induction 1 as [|m ms Hm _ IH]; [done|]. cbn [fmap list_fmap concat]. rewrite octets_app, octets_envelope by done. exact IH.
Qed.
Lemma end_frame_decoded e : decode_connect_envelopes (end_frame e) = Ok [mk_envelope (end_flag e) (end_data e)].
Proof. rewrite end_frame_envelope. apply one_envelope_decoded, end_data_fits. Qed.
(** The frames of a response body in one piece. *)
Lemma read_one_body e ms : Forall fits ms ->
  read_frames e [encode_response_bytes e (concat (encode_connect_envelope 0 <$> ms) ++ end_frame e)] = Ok (ms, true).
Proof.
  intros Hf. unfold read_frames. cbn [read_chunks]. rewrite body_decoded by by rewrite octets_app, octets_end, octets_frames.
  cbn [mbind result_bind]. set (es := (mk_envelope 0 <$> ms) ++ [mk_envelope (end_flag e) (end_data e)]).
  assert (E : concat (encode_connect_envelope 0 <$> ms) ++ end_frame e = concat (envelope_bytes <$> es)).
  { unfold es. rewrite fmap_app, concat_app, <- list_fmap_compose. cbn. by rewrite app_nil_r, end_frame_envelope. }
  rewrite E. unfold decode_connect_envelopes. rewrite decode_encode_envelopes; [|unfold es|lia].
  2: { apply Forall_app. split; [apply Forall_fmap; eapply Forall_impl; [exact Hf|by intros m [? _]]|]. repeat constructor. apply end_data_fits. }
  cbn [mbind result_bind]. rewrite app_nil_r. unfold es. f_equal. f_equal.
  - rewrite List.filter_app, fmap_app. replace (List.filter _ [mk_envelope (end_flag e) (end_data e)]) with (@nil ConnectEnvelope) by (by destruct e).
    rewrite app_nil_r. clear Hf E es. induction ms as [|m ms IH]; [done|]. cbn. by f_equal.
  - rewrite existsb_app. apply orb_true_intro. right. cbn. by rewrite Z.eqb_refl.
Qed.
Lemma read_unary e m streaming ct : (e = Connect -> streaming = false) -> fits (encode m) ->
  client_read e streaming (mk_envd_response 200 ct (BodyBytes (encode_unary_response e (encode m)))) = Ok ([encode m], true).
Proof.
  intros Hs Hf. unfold client_read. cbn [rs_body]. pose proof (read_one_body e [encode m] ltac:(by apply Forall_singleton)) as R.
  cbn [fmap list_fmap concat] in R. rewrite app_nil_r in R. destruct e; [by rewrite Hs|exact R|exact R].
Qed.
(** The frames of a stream, chunk by chunk. *)
Lemma chunks_decoded e {A} (g f : A -> list Z) l pre : (forall a, f a = encode_connect_envelope 0 (g a)) -> Forall fits (pre ++ (g <$> ok_prefix l)) ->
  read_chunks e (((fun m => encode_stream_frame e (encode_connect_envelope 0 m)) <$> pre) ++ (stream_events f e l).(sb_frames)) =
    Ok ((mk_envelope 0 <$> pre ++ (g <$> ok_prefix l)) ++ if all_ok l then [mk_envelope (end_flag e) (end_data e)] else []).
Proof.
  intros Hfg [Hp Hf]%Forall_app. induction Hp as [|m pre Hm Hp IHp].
  - cbn [fmap list_fmap app]. induction l as [|[a|err] l IH]; [|cbn [ok_prefix fmap list_fmap] in Hf; apply Forall_cons in Hf as [Ha Hf]|done];
      cbn [stream_events sb_frames read_chunks]; unfold encode_stream_frame.
    + rewrite body_decoded by apply octets_end. cbn [mbind result_bind]. by rewrite end_frame_decoded.
    + rewrite Hfg, body_decoded by by apply octets_envelope. cbn [mbind result_bind]. rewrite one_envelope_decoded by done.
      cbn [mbind result_bind]. by rewrite IH.
  - rewrite fmap_cons. cbn [app read_chunks].
    change (encode_stream_frame e (encode_connect_envelope 0 m)) with (encode_response_bytes e (encode_connect_envelope 0 m)).
    rewrite body_decoded by by apply octets_envelope. cbn [mbind result_bind].
    rewrite one_envelope_decoded by done. cbn [mbind result_bind]. by rewrite IHp.
Qed.
Lemma read_stream e {A} (g f : A -> list Z) l pre : (forall a, f a = encode_connect_envelope 0 (g a)) -> Forall fits (pre ++ (g <$> ok_prefix l)) ->
  read_frames e (((fun m => encode_stream_frame e (encode_connect_envelope 0 m)) <$> pre) ++ (stream_events f e l).(sb_frames)) =
    Ok (pre ++ (g <$> ok_prefix l), all_ok l).
Proof.
  intros Hfg Hf. unfold read_frames. rewrite (chunks_decoded e g f) by done. cbn [mbind result_bind]. f_equal. f_equal.
  - rewrite List.filter_app, fmap_app. replace (List.filter _ (if all_ok l then _ else _)) with (@nil ConnectEnvelope)
      by (destruct (all_ok l), e; done). rewrite app_nil_r. clear Hf. induction (pre ++ _) as [|x xs IH]; [done|]. cbn. by f_equal.
  - rewrite existsb_app. replace (existsb _ (mk_envelope 0 <$> _)) with false; [by destruct (all_ok l), e|]. clear Hf.
    induction (pre ++ _) as [|x xs IH]; [done|]. cbn. rewrite <- IH. by destruct e.
Qed.
Lemma success_read op path streaming msg e a : call op = Some (path, streaming, msg) -> readable op e = true ->
  Forall fits (encode <$> (answer_messages op a).1) ->
  client_read e streaming (call_success op e a) = Ok (encode <$> (answer_messages op a).1, (answer_messages op a).2).
Proof.
  intros Hc Hr Hf. destruct op; cbn in Hc; try done; injection Hc as <- <- <-; cbn [call_success answer_messages fst snd fmap list_fmap] in *;
    try (apply read_unary; [done|by apply Forall_cons in Hf as [? _]]).
  - unfold client_read. cbn [rs_body]. unfold encode_envd_process_connect_output.
    rewrite <- list_fmap_compose in *. assert (Er : encode_response_bytes e = id) by (destruct e; [done|done|cbn in Hr; done]).
    pose proof (read_one_body e _ Hf) as R. rewrite Er in R. rewrite <- list_fmap_compose in R. destruct e; [exact R|exact R|done].
  - unfold client_read. cbn [rs_body]. unfold envd_process_stream_body. rewrite <- list_fmap_compose in *.
    by apply (read_stream e (fun ev => encode (StartResponse (encode_event ev))) _ a []).
  - unfold client_read. cbn [rs_body]. unfold envd_filesystem_watch_stream_body. cbn [sb_frames]. rewrite <- list_fmap_compose in *.
    by apply (read_stream e (fun ev => encode (watch_message ev)) _ a [encode (WatchDirResponse WatchStart)]).
Qed.
(** C20: A call is what the client meant.  For every operation with a route
    whose arguments its message can carry (text in UTF-8, integers of their
    width, each variable once; a signal called unknown has none of the numbers of
    the known ones) and every encoding, the request the client builds makes the
    service carry out exactly that operation once.  If it succeeds, the client
    reads exactly the messages of the answer back, and sees an end frame exactly
    when no event of a stream failed, except that the answer to a process
    connection cannot be read in gRPC-web-text ([connect_output_not_text]); if it
    fails, the response is the operation's error.  Without the token nothing is
    carried out.  Of the codec only that typed messages decode to themselves, and
    of base64 that bytes do, is assumed; messages are shorter than 4 GiB. *)
Theorem envd_calls_performed token e op path streaming msg s :
  call op = Some (path, streaming, msg) -> typed_op op = true -> fits msg -> signal_canonical op -> E2bServer.to_str token = Some token ->
  let rq := call_request token e path streaming msg in
  (match perform op s with
   | (s', Ok a) => serve (Some token) rq s = (s', call_success op e a) /\ (call_success op e a).(rs_status) = 200 /\
       (readable op e = true -> Forall fits (encode <$> (answer_messages op a).1) ->
        client_read e streaming (call_success op e a) = Ok (encode <$> (answer_messages op a).1, (answer_messages op a).2))
   | (s', Err err) => serve (Some token) rq s = (s', call_failure op err)
   end) /\
  forall other, other <> token -> serve (Some other) rq s = (s, envd_auth_error "missing or invalid x-access-token").
Proof.
  intros Hc Hty Hf Hk Ht rq. split.
  - subst rq. rewrite (call_routed token e op) by done. rewrite (call_handled op path streaming) by done.
    destruct (perform op s) as [s' [a|err]]; [|done]. split; [done|]. split; [by destruct op|]. intros. by eapply success_read.
  - intros other Ho. unfold handle_envd_process_request_authenticated, header_matches, rq, call_request. cbn [rq_headers].
    rewrite lookup_insert_ne, lookup_insert_eq by done. cbn [mbind option_bind]. rewrite Ht.
    by rewrite (proj2 (String.eqb_neq token other)) by done.
Qed.
End Calls.

(** *** Files *)
Lemma query_hex_upper n : 0 <= n < 16 -> query_hex_value (code (upper_hex n)) = Some n.
Proof. intros. unfold query_hex_value, upper_hex, between. destruct (n <? 10) eqn:E; rewrite code_ascii_of by lia; zcases; f_equal; lia. Qed.
Lemma percent_plain b l : b <> 43 -> b <> 37 -> percent_decode_bytes (b :: l) = b :: percent_decode_bytes l.
Proof. intros H1 H2. cbn. rewrite (proj2 (Z.eqb_neq _ _) H1), (proj2 (Z.eqb_neq _ _) H2). by destruct l as [|? [|? ?]]. Qed.
Lemma query_percent_roundtrip s : percent_decode_bytes (bytes_of (encode_path_segment s)) = bytes_of s.
Proof.
  induction s as [|c s IH]; [done|]. cbn [encode_path_segment]. unfold encode_byte. pose proof (code_range c).
  change (bytes_of (String c s)) with (code c :: bytes_of s). destruct (unreserved c) eqn:Hu.
  - rewrite append_cons, append_nil_l. change (bytes_of (String c ?t)) with (code c :: bytes_of t).
    rewrite percent_plain, IH; [done|..]; intros E; assert (Hc : c = ascii_of (code c)) by (by rewrite ascii_of_code);
      rewrite E in Hc; rewrite Hc in Hu; by vm_compute in Hu.
  - rewrite !append_cons, append_nil_l. change (bytes_of (String ?a (String ?b (String ?d ?t)))) with (code a :: code b :: code d :: bytes_of t).
    change (code "%") with 37. cbn [percent_decode_bytes Z.eqb]. rewrite !query_hex_upper by lia. f_equal; [lia|exact IH].
Qed.
(** A file is named by a percent-encoded query. *)
Lemma query_param_encoded lossy p : lossy (bytes_of p) = p -> query_param lossy (Some ("path=" +:+ encode_path_segment p)) "path" = Some p.
Proof.
  intros Hl. unfold query_param. cbn [mbind option_bind]. pose proof (encode_plain p) as Hp.
  rewrite (split_single (c := "&")); [|rewrite contains_app, (plain_contains "&" (encode_path_segment p)); done].
  cbn [find_map]. change ("path=" +:+ encode_path_segment p) with ("path" +:+ String "=" (encode_path_segment p)).
  rewrite split_once_app by done. cbn [mbind option_bind]. rewrite String.eqb_refl. unfold percent_decode_query_value.
  by rewrite query_percent_roundtrip, Hl.
Qed.
Section Files.
Context {S : Type} `{EnvdAdapter S} `{Base64} `{EnvdProto} (lossy : list Z -> string) (gunzip : list Z -> result string (list Z)).
Abbreviation serve_files := (handle_envd_process_request (S := S) lossy gunzip).
Definition file_request (method : string) (p : string) (body : list Z) : EnvdRequest :=
  mk_envd_request method "/files" (Some ("path=" +:+ encode_path_segment p)) ∅ (Ok body).
(** Reading and writing a file by its name reach exactly that file. *)
Lemma file_calls_performed p data s : lossy (bytes_of p) = p ->
  serve_files (file_request "GET" p []) s =
    match perform (ReadFile p) s with
    | (s', Ok b) => (s', mk_envd_response 200 (Some "application/octet-stream"%string) (BodyBytes b))
    | (s', Err e) => (s', backend_error_to_connect_http e)
    end /\
  serve_files (file_request "POST" p data) s =
    match perform (WriteFile p data) s with
    | (s', Ok i) => (s', mk_envd_response 200 (Some "application/json"%string) (BodyWrites [i]))
    | (s', Err e) => (s', backend_error_to_connect_http e)
    end.
Proof.
  intros Hl. pose proof (query_param_encoded lossy p Hl) as Hq. split.
  - change (serve_files (file_request "GET" p [])) with (handle_envd_files_read (S := S) lossy (file_request "GET" p [])).
    unfold handle_envd_files_read. change (rq_query (file_request "GET" p [])) with (Some ("path=" +:+ encode_path_segment p)). by rewrite Hq.
  - change (serve_files (file_request "POST" p data)) with (handle_envd_files_write (S := S) lossy gunzip (file_request "POST" p data)).
    unfold handle_envd_files_write. change (rq_body (file_request "POST" p data)) with (@Ok string _ data). cbn [map_err decoded]. unfold uploads.
    change (rq_query (file_request "POST" p data)) with (Some ("path=" +:+ encode_path_segment p)). rewrite Hq. done.
Qed.
End Files.
(** *** Observations *)
(** The answer to a process connection starts with a frame header whatever the
    encoding, so it is never base64 text. *)
Lemma connect_output_not_text `{Base64} `{EnvdProto} o e : head (encode_envd_process_connect_output o e) = Some 0.
Proof. done. Qed.
(** A delimiter inside a file's contents cuts the file. *)
Lemma multipart_cuts_contents : parse_multipart_files (fun b => String.string_of_list_ascii (ascii_of <$> b))
    (bytes_of ("--b" +:+ CRLF +:+ "content-disposition: form-data; filename=f" +:+ CRLF +:+ CRLF +:+ "one--btwo" +:+ CRLF +:+ "--b--")) "b" =
  Ok [("f"%string, bytes_of "one")].
Proof. vm_compute. reflexivity. Qed.

(** *** A client and a service *)
(** Any injective numbering of messages is a codec. *)
(** The binary digits of a positive, one per byte. *)
Fixpoint digits (p : positive) : list Z :=
  match p with xH => [] | xO p => 0 :: digits p | xI p => 1 :: digits p end.
Fixpoint of_digits (l : list Z) : positive :=
  match l with [] => xH | d :: l => if d =? 0 then xO (of_digits l) else xI (of_digits l) end.
Lemma of_digits_digits p : of_digits (digits p) = p.
Proof. induction p; cbn; by f_equal. Qed.
Definition num_enc {A M} `{Countable A} (f : M -> A) (m : M) : list Z := digits (countable.encode (f m)).
Definition num_dec {A M} `{Countable A} (g : A -> M) (l : list Z) : result string M :=
  match countable.decode (of_digits l) with Some a => Ok (g a) | None => Err "malformed"%string end.
Lemma num_law {A M} `{Countable A} (f : M -> A) (g : A -> M) m : g (f m) = m -> num_dec g (num_enc f m) = Ok m.
Proof. intros E. unfold num_dec, num_enc. rewrite of_digits_digits, countable.decode_encode. by rewrite E. Qed.
Definition sel_to (p : EnvdProcessSelectorProto) : option (Z + string) :=
  (fun o => match o with SelectorPid n => inl n | SelectorTag t => inr t end) <$> sp_selector p.
Definition sel_of (o : option (Z + string)) : EnvdProcessSelectorProto :=
  mk_selector_proto ((fun x => match x with inl n => SelectorPid n | inr t => SelectorTag t end) <$> o).
Lemma sel_of_to (o : option EnvdProcessSelectorProto) : sel_of <$> (sel_to <$> o) = o.
Proof. by destruct o as [[[[]|]]|]. Qed.
Definition inp_to (p : EnvdProcessInputProto) : option (list Z + list Z) :=
  (fun o => match o with OneofStdin d => inl d | OneofPty d => inr d end) <$> ip_input p.
Definition inp_of (o : option (list Z + list Z)) : EnvdProcessInputProto :=
  mk_input_proto ((fun x => match x with inl d => OneofStdin d | inr d => OneofPty d end) <$> o).
Lemma inp_of_to (o : option EnvdProcessInputProto) : inp_of <$> (inp_to <$> o) = o.
Proof. by destruct o as [[[[]|]]|]. Qed.
Definition pty_to (p : EnvdPtyProto) : option (Z * Z) := (fun z => (z.(pty_cols), z.(pty_rows))) <$> pp_size p.
Definition pty_of (o : option (Z * Z)) : EnvdPtyProto := mk_pty_proto ((fun '(c, r) => mk_pty_size c r) <$> o).
Lemma pty_of_to (o : option EnvdPtyProto) : pty_of <$> (pty_to <$> o) = o.
Proof. by destruct o as [[[[]|]]|]. Qed.
Definition cfg_to (p : EnvdProcessConfigProto) := (p.(pc_cmd), p.(pc_args), p.(pc_envs), p.(pc_cwd)).
Definition cfg_of '(cmd, args, envs, cwd) : EnvdProcessConfigProto := mk_config_proto cmd args envs cwd.
Lemma cfg_of_to (o : option EnvdProcessConfigProto) : cfg_of <$> (cfg_to <$> o) = o.
Proof. by destruct o as [[]|]. Qed.
Definition send_input_to m := (sel_to <$> m.(si_process), inp_to <$> m.(si_input)).
Definition send_input_of '(p, i) := mk_send_input (sel_of <$> p) (inp_of <$> i).
Definition signal_to m := (sel_to <$> m.(ss_process), m.(ss_signal)).
Definition signal_of '(p, g) := mk_send_signal (sel_of <$> p) g.
Definition update_to m := (sel_to <$> m.(ur_process), pty_to <$> m.(ur_pty)).
Definition update_of '(p, z) := mk_update (sel_of <$> p) (pty_of <$> z).
Definition start_to m := (cfg_to <$> m.(sr_process), pty_to <$> m.(sr_pty), m.(sr_tag), m.(sr_stdin)).
Definition start_of '(c, z, t, b) := mk_start_proto (cfg_of <$> c) (pty_of <$> z) t b.
#[local] Instance numbered_proto : EnvdProto := {|
  encode := fun m => match m with EmptyMessage => [] | _ => [7] end;
  decode_list := num_dec (fun u => u);
  decode_send_input := num_dec send_input_of;
  decode_close_stdin := num_dec (fmap sel_of);
  decode_send_signal := num_dec signal_of;
  decode_connect := num_dec (fmap sel_of);
  decode_update := num_dec update_of;
  decode_start := num_dec start_of;
  decode_list_dir := num_dec (fun x => x);
  decode_path := num_dec (fun x => x);
  decode_move := num_dec (fun x => x);
  decode_watch_dir := num_dec (fun x => x) |}.
Lemma send_input_num m : send_input_of (send_input_to m) = m.
Proof. destruct m. cbn. by rewrite sel_of_to, inp_of_to. Qed.
Lemma signal_num m : signal_of (signal_to m) = m.
Proof. destruct m. cbn. by rewrite sel_of_to. Qed.
Lemma update_num m : update_of (update_to m) = m.
Proof. destruct m. cbn. by rewrite sel_of_to, pty_of_to. Qed.
Lemma start_num m : start_of (start_to m) = m.
Proof. destruct m. cbn. by rewrite cfg_of_to, pty_of_to. Qed.
Definition numbered_client : @EnvdClient numbered_proto := {|
  enc_list := num_enc (fun u => u) ();
  enc_send_input := num_enc send_input_to;
  enc_selector := num_enc (fmap sel_to);
  enc_send_signal := num_enc signal_to;
  enc_update := num_enc update_to;
  enc_start := num_enc start_to;
  enc_list_dir := num_enc (fun x => x);
  enc_path := num_enc (fun x => x);
  enc_move := num_enc (fun x => x);
  enc_watch_dir := num_enc (fun x => x);
  list_law := num_law (fun u => u) (fun u => u) () eq_refl;
  send_input_law m _ := num_law send_input_to send_input_of m (send_input_num m);
  close_stdin_law m _ := num_law (fmap sel_to) (fmap sel_of) m (sel_of_to m);
  connect_law m _ := num_law (fmap sel_to) (fmap sel_of) m (sel_of_to m);
  send_signal_law m _ := num_law signal_to signal_of m (signal_num m);
  update_law m _ := num_law update_to update_of m (update_num m);
  start_law m _ := num_law start_to start_of m (start_num m);
  list_dir_law m _ := num_law (fun x => x) (fun x => x) m eq_refl;
  path_law m _ := num_law (fun x => x) (fun x => x) m eq_refl;
  move_law m _ := num_law (fun x => x) (fun x => x) m eq_refl;
  watch_dir_law m _ := num_law (fun x => x) (fun x => x) m eq_refl |}.
#[local] Instance plain_base64 : Base64 := {| b64_encode := fun d => 61 :: d; b64_decode := fun d => match d with 61 :: d => Ok d | _ => Err "Invalid byte"%string end |}.
Definition plain_base64_laws : @Base64Laws plain_base64 := {| b64_roundtrip := fun _ _ => eq_refl |}.
(** A service that records what it is asked and knows one file. *)
Definition recording_adapter : EnvdAdapter (list EnvdOp) := {| perform := fun op s => (op :: s,
  match op as op return result BackendError (envd_answer op) with
  | StatEntry path => Ok (mk_fs_entry "a"%string path FileEntry 3 420 "-rw-r--r--"%string "host"%string "host"%string None)
  | _ => Err (NotFound "process"%string)
  end) |}.
Lemma envd_calls_witness :
  let '(s, r) := @handle_envd_process_request_authenticated _ recording_adapter plain_base64 numbered_proto (fun _ => EmptyString) (fun b => Ok b) (Some "secret"%string)
    (@call_request plain_base64 "secret" GrpcWebText "/filesystem.Filesystem/Stat" false (num_enc (fun x => x) "/home/a"%string)) [] in
  s = [StatEntry "/home/a"] /\ @client_read plain_base64 GrpcWebText false r = Ok ([[7]], true).
Proof.
  pose proof (@envd_calls_performed _ recording_adapter plain_base64 plain_base64_laws numbered_proto numbered_client (fun _ => EmptyString) (fun b => Ok b)
    "secret" GrpcWebText (StatEntry "/home/a") "/filesystem.Filesystem/Stat" false (num_enc (fun x => x) "/home/a"%string) []
    eq_refl eq_refl (conj eq_refl eq_refl) I eq_refl) as [(E & _ & R) _].
  refine (eq_rect _ (fun p => let '(s, r) := p in s = [StatEntry "/home/a"] /\ @client_read plain_base64 GrpcWebText false r = Ok ([[7]], true)) _ _ (eq_sym E)).
  split; [reflexivity|]. refine (R eq_refl _). repeat constructor.
Defined.
