(* ===== verification/EnvdHost.v ===== *)
(** * The host adapter of the envd service
      ([crates/e2b-server/src/envd_http.rs], [HostEnvdAdapter])

    Files and processes of the host under one directory.  The operating system
    is the class [HostOs]: each call changes its world and answers.  Processes
    that stream their output have three tasks (two readers and a waiter) that
    share the table with the operations; their interleaving is the relation
    [step]. *)
From S2P Require Import Prelude BTree Types Ext4Path Ext4Writer HostPaths HostFs E2bWire E2bRoutes E2bRegistry SessionFiles EnvdHttp Envd.

(** ** The operating system *)
(** [modified] is the time since the epoch in nanoseconds, when there is one. *)
Record Metadata := mk_metadata { md_is_dir : bool; md_len : Z; md_mode : Z; md_modified : option Z }.
Record DirEntry := mk_dir_entry { de_name : string; de_metadata : result host_error Metadata }.
Record CommandLine := mk_command { cl_program : string; cl_args : list string; cl_cwd : string; cl_envs : list (string * string) }.
(** An exit status: its code, unless a signal ended the process. *)
Definition ExitStatus : Type := option Z.
Definition success (st : ExitStatus) : bool := bool_decide (st = Some 0).
Inductive OsCall :=
| OsCreateDirAll (p : string)
| OsReadAll (p : string)
| OsWriteAll (p : string) (data : list Z)
| OsCreateFile (p : string)
| OsWriteHandle (p : string) (data : list Z)
| OsFlush (p : string)
| OsReadDir (p : string)
| OsSymlinkMetadata (p : string)
| OsRename (source destination : string)
| OsRemoveDirAll (p : string)
| OsRemoveFile (p : string)
| OsOutput (c : CommandLine)
| OsSpawn (c : CommandLine).
Definition os_answer (c : OsCall) : Type :=
  match c with
  | OsReadAll _ => list Z
  | OsReadDir _ => list (result host_error DirEntry)
  | OsSymlinkMetadata _ => Metadata
  | OsOutput _ => ExitStatus * list Z * list Z
  | _ => unit
  end.
Class HostOs (W : Type) := os : forall c : OsCall, W -> W * result host_error (os_answer c).

(** ** Paths *)
Definition normalize_envd_path (p : string) : string := Volumes.normalize_volume_path p.
Definition join_envd_path (parent name : string) : string :=
  if String.eqb parent "/" then "/" +:+ name else trim_end_matches "/" parent +:+ "/" +:+ name.
Fixpoint push_components (path : string) (resolved : string) (cs : list Component) : result BackendError string :=
  match cs with
  | [] => Ok resolved
  | ParentDir :: _ => Err (Runtime ("envd path " +:+ bt path +:+ " escapes adapter root"))
  | (RootDir | CurDir) :: cs => push_components path resolved cs
  | Normal part :: cs => push_components path (path_join resolved part) cs
  end.
(** The adapter: its root and the environment of the sandbox. *)
Record HostEnvdAdapter := mk_host_adapter { ha_root : string; ha_base_envs : list (string * string) }.
Definition resolve_path (a : HostEnvdAdapter) (path : string) : result BackendError string :=
  push_components path a.(ha_root) (path_components path).
Definition effective_envs (a : HostEnvdAdapter) (rq : EnvdProcessStartRequest) : list (string * string) :=
  foldl (fun m kv => bt_insert kv.1 kv.2 m) a.(ha_base_envs) rq.(ps_envs).
Definition entry_from_metadata (path : string) (md : Metadata) : result BackendError EnvdFilesystemEntry :=
  let file_type := if md.(md_is_dir) then DirectoryEntry else FileEntry in
  if md.(md_len) <? 2 ^ 63 then
    Ok (mk_fs_entry (default "/"%string (last_component path)) path file_type md.(md_len) md.(md_mode)
         (match file_type with DirectoryEntry => "drwxr-xr-x" | FileEntry => "-rw-r--r--" end) "host" "host" None)
  else Err (Runtime ("file " +:+ bt path +:+ " is too large")).

(** ** Operations on files *)
Definition OM (W A : Type) : Type := W -> W * result BackendError A.
#[global] Instance OM_ret {W} : MRet (OM W) := fun A a w => (w, Ok a).
#[global] Instance OM_bind {W} : MBind (OM W) := fun A B k m w =>
  match m w with (w, Ok a) => k a w | (w, Err e) => (w, Err e) end.
Definition lift {W A} (r : result BackendError A) : OM W A := fun w => (w, r).
Section Files.
Context {W : Type} `{HostOs W} (a : HostEnvdAdapter).
(** [to_string_lossy] on names. *)
Context (lossy : string -> string).
(** One call, its error reported by [wrap]. *)
Definition sys (wrap : host_error -> BackendError) (c : OsCall) : OM W (os_answer c) := fun w =>
  let '(w, r) := os c w in (w, map_err wrap r).
Definition runtime (what : string) (e : host_error) : BackendError := Runtime (what +:+ ": " +:+ e.(host_message)).
Definition missing_or (path what : string) (e : host_error) : BackendError :=
  if decide (e.(host_kind) = IoNotFound) then NotFound path else runtime what e.
Definition host_adapter_new : OM W unit := sys (runtime "create envd root") (OsCreateDirAll a.(ha_root)).
Definition entry_for (envd_path : string) : OM W EnvdFilesystemEntry :=
  host_path ← lift (resolve_path a envd_path);
  md ← sys (missing_or envd_path ("stat " +:+ bt envd_path)) (OsSymlinkMetadata host_path);
  lift (entry_from_metadata (normalize_envd_path envd_path) md).
Definition read_file (path : string) : OM W (list Z) :=
  host_path ← lift (resolve_path a path);
  sys (missing_or path ("read " +:+ bt (lossy host_path))) (OsReadAll host_path).
Definition create_parent (p : string) (what : string) : OM W unit :=
  match HostPaths.path_parent p with
  | Some parent => sys (runtime what) (OsCreateDirAll parent)
  | None => mret tt
  end.
Definition write_file (path : string) (data : list Z) : OM W EnvdFilesystemWriteInfo :=
  host_path ← lift (resolve_path a path);
  _ ← create_parent host_path "create parent";
  _ ← sys (runtime ("create " +:+ bt path)) (OsCreateFile host_path);
  _ ← sys (runtime ("write " +:+ bt path)) (OsWriteHandle host_path data);
  _ ← sys (runtime ("flush " +:+ bt path)) (OsFlush host_path);
  mret (mk_write_info (default path (last_component path)) "file" (normalize_envd_path path)).
(** One directory of a listing: its entries, and the directories still to
    read. *)
Definition Pending : Type := string * string * Z.
Fixpoint list_entries (envd_dir host_dir : string) (depth level : Z) (es : list (result host_error DirEntry))
    (entries : list EnvdFilesystemEntry) (pending : list Pending) : result BackendError (list EnvdFilesystemEntry * list Pending) :=
  match es with
  | [] => Ok (entries, pending)
  | Err e :: _ => Err (runtime ("list " +:+ bt envd_dir) e)
  | Ok d :: es =>
      let envd_path := join_envd_path envd_dir (lossy d.(de_name)) in
      md ← map_err (runtime ("stat " +:+ bt envd_path)) d.(de_metadata);
      entry ← entry_from_metadata envd_path md;
      list_entries envd_dir host_dir depth level es (entries ++ [entry])
        (if md.(md_is_dir) && ((depth =? 0) || (level + 1 <? depth))
         then (envd_path, path_join host_dir d.(de_name), level + 1) :: pending else pending)
  end.
(** The directories are popped from a stack; [None]: out of fuel. *)
Fixpoint list_loop (fuel : nat) (depth : Z) (entries : list EnvdFilesystemEntry) (pending : list Pending)
  : W -> W * option (result BackendError (list EnvdFilesystemEntry)) := fun w =>
  match pending with
  | [] => (w, Some (Ok entries))
  | (envd_dir, host_dir, level) :: pending =>
      match fuel with
      | O => (w, None)
      | S fuel =>
          match sys (missing_or envd_dir ("list " +:+ bt envd_dir)) (OsReadDir host_dir) w with
          | (w, Err e) => (w, Some (Err e))
          | (w, Ok es) =>
              match list_entries envd_dir host_dir depth level es entries pending with
              | Err e => (w, Some (Err e))
              | Ok (entries, pending) => list_loop fuel depth entries pending w
              end
          end
      end
  end.
Definition list_dir (fuel : nat) (path : string) (depth : Z) : W -> W * option (result BackendError (list EnvdFilesystemEntry)) := fun w =>
  match resolve_path a path with
  | Err e => (w, Some (Err e))
  | Ok start => list_loop fuel depth [] [(normalize_envd_path path, start, 0)] w
  end.
Definition make_dir (path : string) : OM W EnvdFilesystemEntry :=
  host_path ← lift (resolve_path a path);
  _ ← sys (runtime ("mkdir " +:+ bt path)) (OsCreateDirAll host_path);
  entry_for path.
Definition move_entry (source destination : string) : OM W EnvdFilesystemEntry :=
  source_path ← lift (resolve_path a source);
  destination_path ← lift (resolve_path a destination);
  _ ← create_parent destination_path "create parent";
  _ ← sys (missing_or source ("move to " +:+ bt destination)) (OsRename source_path destination_path);
  entry_for destination.
Definition remove_entry (path : string) : OM W unit :=
  host_path ← lift (resolve_path a path);
  md ← sys (missing_or path ("stat " +:+ bt path)) (OsSymlinkMetadata host_path);
  if md.(md_is_dir) then sys (runtime ("remove " +:+ bt path)) (OsRemoveDirAll host_path)
  else sys (runtime ("remove " +:+ bt path)) (OsRemoveFile host_path).
Definition stat_entry (path : string) : OM W EnvdFilesystemEntry := entry_for path.
Definition watch_dir (path : string) (recursive : bool) : OM W (list EnvdFilesystemEvent) :=
  _ ← entry_for path;
  mret [mk_fs_event (normalize_envd_path path) (if recursive then FsWrite else FsCreate)].

(** ** Watching *)
Record HostWatchEntry := mk_watch_entry { we_len : Z; we_is_dir : bool; we_modified_ns : Z }.
Definition metadata_modified_ns (md : Metadata) : Z := default 0 md.(md_modified).
Abbreviation Snapshot := (list (string * HostWatchEntry)).
(** [None]: out of fuel. *)
Fixpoint collect_host_watch_entries (fuel : nat) (root base : string) (recursive : bool) (entries : Snapshot)
  : W -> W * option (result BackendError Snapshot) := fun w =>
  match fuel with
  | O => (w, None)
  | S fuel =>
      match sys (runtime ("watch read dir " +:+ bt base)) (OsReadDir root) w with
      | (w, Err e) => (w, Some (Err e))
      | (w, Ok es) =>
          (fix collect (es : list (result host_error DirEntry)) (entries : Snapshot) (w : W) : W * option (result BackendError Snapshot) :=
             match es with
             | [] => (w, Some (Ok entries))
             | Err e :: _ => (w, Some (Err (runtime "watch read entry" e)))
             | Ok d :: es =>
                 let envd_path := join_envd_path base (lossy d.(de_name)) in
                 match d.(de_metadata) with
                 | Err e => (w, Some (Err (runtime ("watch stat " +:+ bt envd_path) e)))
                 | Ok md =>
                     let entries := bt_insert envd_path (mk_watch_entry md.(md_len) md.(md_is_dir) (metadata_modified_ns md)) entries in
                     if recursive && md.(md_is_dir) then
                       match collect_host_watch_entries fuel (path_join root d.(de_name)) envd_path recursive entries w with
                       | (w, Some (Ok entries)) => collect es entries w
                       | r => r
                       end
                     else collect es entries w
                 end
             end) es entries w
      end
  end.
Definition host_watch_snapshot (fuel : nat) (root base : string) (recursive : bool) : W -> W * option (result BackendError Snapshot) :=
  collect_host_watch_entries fuel root base recursive [].
End Files.
#[global] Instance HostWatchEntry_eq : EqDecision HostWatchEntry.
Proof. solve_decision. Defined.
Definition diff_host_watch_snapshots (previous current : list (string * HostWatchEntry)) : list EnvdFilesystemEvent :=
  omap (fun p => match bt_get p.1 previous with None => Some (mk_fs_event p.1 FsCreate) | Some _ => None end) current ++
  omap (fun p => match bt_get p.1 current with None => Some (mk_fs_event p.1 FsRemove) | Some _ => None end) previous ++
  omap (fun p => match bt_get p.1 previous with
                 | Some e => if decide (e = p.2) then None else Some (mk_fs_event p.1 FsWrite)
                 | None => None
                 end) current.
(** What the task of a watched directory sends, for the snapshots of its
    ticks: it ends with the first error. *)
Fixpoint watch_ticks (previous : list (string * HostWatchEntry)) (snapshots : list (result BackendError (list (string * HostWatchEntry))))
  : list (result BackendError EnvdFilesystemEvent) :=
  match snapshots with
  | [] => []
  | Err e :: _ => [Err e]
  | Ok current :: snapshots => (Ok <$> diff_host_watch_snapshots previous current) ++ watch_ticks current snapshots
  end.
(** The initial snapshot and the first part of the stream. *)
Definition watch_dir_stream {W} `{HostOs W} (a : HostEnvdAdapter) (lossy : string -> string) (fuel : nat) (path : string) (recursive : bool)
    (snapshots : list (result BackendError (list (string * HostWatchEntry)))) : W -> W * option (result BackendError (list (result BackendError EnvdFilesystemEvent))) := fun w =>
  match entry_for a path w with
  | (w, Err e) => (w, Some (Err e))
  | (w, Ok _) =>
      match resolve_path a path with
      | Err e => (w, Some (Err e))
      | Ok root =>
          match host_watch_snapshot lossy fuel root (normalize_envd_path path) recursive w with
          | (w, Some (Ok previous)) => (w, Some (Ok (watch_ticks previous snapshots)))
          | (w, Some (Err e)) => (w, Some (Err e))
          | (w, None) => (w, None)
          end
      end
  end.

(** ** Processes *)
(** [stdin] and [child]: whether the record still has them. *)
Record HostEnvdProcessRecord := mk_host_process {
  hp_tag : option string;
  hp_cmd : string;
  hp_args : list string;
  hp_envs : list (string * string);
  hp_cwd : option string;
  hp_output : EnvdProcessOutput;
  hp_stdin : bool;
  hp_child : bool
}.
#[export, refine] Instance Z_ord : OrdKey Z := {| kcmp := Z.compare |}.
Proof.
  - apply Z.compare_eq_iff.
  - intros. apply Z.compare_antisym.
  - intros ? ? ?. rewrite !Z.compare_lt_iff. lia.
Defined.
Record HostEnvdState := mk_host_state { hs_next_pid : Z; hs_processes : list (Z * HostEnvdProcessRecord) }.
Definition host_state_default : HostEnvdState := mk_host_state 0 [].
Inductive ProcessOutputKind := KStdout | KStderr.
#[global] Instance ProcessOutputKind_eq : EqDecision ProcessOutputKind.
Proof. solve_decision. Defined.
Section Table.
Context (a : HostEnvdAdapter).
Implicit Types s : HostEnvdState.
Definition next_pid s : Z := Z.max (sat_add 32 s.(hs_next_pid) 1) 1.
Definition insert_process (pid : Z) (r : HostEnvdProcessRecord) s : HostEnvdState :=
  mk_host_state pid (bt_insert pid r s.(hs_processes)).
Definition allocate_process (rq : EnvdProcessStartRequest) s : HostEnvdState * Z :=
  let pid := next_pid s in
  (insert_process pid (mk_host_process rq.(ps_tag) rq.(ps_cmd) rq.(ps_args) (effective_envs a rq) rq.(ps_cwd)
     (mk_process_output pid [] [] [] 0 false "running" None) true true) s, pid).
Definition update_process (pid : Z) (f : HostEnvdProcessRecord -> HostEnvdProcessRecord) s : HostEnvdState :=
  match bt_get pid s.(hs_processes) with
  | Some r => mk_host_state s.(hs_next_pid) (bt_insert pid (f r) s.(hs_processes))
  | None => s
  end.
Definition set_output (o : EnvdProcessOutput) (stdin child : bool) (r : HostEnvdProcessRecord) : HostEnvdProcessRecord :=
  mk_host_process r.(hp_tag) r.(hp_cmd) r.(hp_args) r.(hp_envs) r.(hp_cwd) o stdin child.
Definition append_output (k : ProcessOutputKind) (bytes : list Z) (o : EnvdProcessOutput) : EnvdProcessOutput :=
  match k with
  | KStdout => mk_process_output o.(po_pid) (o.(po_stdout) ++ bytes) o.(po_stderr) o.(po_pty) o.(po_exit_code) o.(po_exited) o.(po_status) o.(po_error)
  | KStderr => mk_process_output o.(po_pid) o.(po_stdout) (o.(po_stderr) ++ bytes) o.(po_pty) o.(po_exit_code) o.(po_exited) o.(po_status) o.(po_error)
  end.
Definition append_process_output (pid : Z) (k : ProcessOutputKind) (bytes : list Z) s : HostEnvdState :=
  update_process pid (fun r => set_output (append_output k bytes r.(hp_output)) r.(hp_stdin) r.(hp_child) r) s.
Definition finish_process (pid exit_code : Z) (status : string) (error : option string) s : HostEnvdState :=
  update_process pid (fun r =>
    let o := r.(hp_output) in
    set_output (mk_process_output o.(po_pid) o.(po_stdout) o.(po_stderr) o.(po_pty) exit_code true status error) false false r) s.
Definition list_processes s : list EnvdProcessInfo :=
  (fun p => mk_process_info p.1 p.2.(hp_tag) p.2.(hp_cmd) p.2.(hp_args) p.2.(hp_envs) p.2.(hp_cwd)) <$> s.(hs_processes).
Definition require_process (sel : EnvdProcessSelector) s : result BackendError Z :=
  match sel with
  | SelectPid pid => match bt_get pid s.(hs_processes) with Some _ => Ok pid | None => Err (NotFound (print_dec pid)) end
  | SelectTag tag =>
      ok_or (NotFound tag) (find_map (fun p => if decide (p.2.(hp_tag) = Some tag) then Some p.1 else None) s.(hs_processes))
  end.
Definition close_process_stdin (sel : EnvdProcessSelector) s : HostEnvdState * result BackendError unit :=
  match require_process sel s with
  | Err e => (s, Err e)
  | Ok pid =>
      match bt_get pid s.(hs_processes) with
      | Some _ => (update_process pid (fun r => set_output r.(hp_output) false r.(hp_child) r) s, Ok tt)
      | None => (s, Err (NotFound (print_dec pid)))
      end
  end.
Definition connect_process (sel : EnvdProcessSelector) s : result BackendError EnvdProcessOutput :=
  pid ← require_process sel s;
  match bt_get pid s.(hs_processes) with Some r => Ok r.(hp_output) | None => Err (NotFound (print_dec pid)) end.
Definition update_process_pty (sel : EnvdProcessSelector) s : result BackendError unit := _ ← require_process sel s; Ok tt.
(** The sender of a process' input, if there is still one. *)
Definition input_sender (sel : EnvdProcessSelector) s : result BackendError Z :=
  pid ← require_process sel s;
  match bt_get pid s.(hs_processes) with
  | Some r => if r.(hp_stdin) then Ok pid else Err (Runtime ("process " +:+ print_dec pid +:+ " stdin is closed"))
  | None => Err (Runtime ("process " +:+ print_dec pid +:+ " stdin is closed"))
  end.
Definition process_log_fields (pid : Z) (stream : string) (r : HostEnvdProcessRecord) : strmap string :=
  let fields : strmap string := <["pid"%string := print_dec pid]> (<["stream"%string := stream]> (<["cmd"%string := r.(hp_cmd)]>
    (<["status"%string := r.(hp_output).(po_status)]> ∅))) in
  match r.(hp_tag) with Some tag => <["tag"%string := tag]> fields | None => fields end.
(** [now] is the time of the call. *)
Definition process_logs (lossy : list Z -> string) (now : string) (pid : Z) (r : HostEnvdProcessRecord) : list SandboxLogEntry :=
  let o := r.(hp_output) in
  (if decide (o.(po_stdout) = []) then [] else [mk_log_entry now Info (lossy o.(po_stdout)) (process_log_fields pid "stdout" r)]) ++
  (if decide (o.(po_stderr) = []) then [] else [mk_log_entry now Error (lossy o.(po_stderr)) (process_log_fields pid "stderr" r)]) ++
  (match o.(po_error) with Some e => [mk_log_entry now Error e (process_log_fields pid "exit" r)] | None => [] end).
Definition captured_process_logs (lossy : list Z -> string) (now : string) s : list SandboxLogEntry :=
  concat ((fun p => process_logs lossy now p.1 p.2) <$> s.(hs_processes)).
End Table.

(** *** Running commands *)
Definition has_prefix (p s : string) : bool := match strip_prefix p s with Some _ => true | None => false end.
Definition trim_start (s : string) : string := String.string_of_list_ascii (ascii_of <$> Volumes.trim_start_white (code <$> bytes s)).
Definition host_mcp_gateway_request (rq : EnvdProcessStartRequest) : bool :=
  String.eqb rq.(ps_cmd) "mcp-gateway" || existsb (fun arg => has_prefix "mcp-gateway --config" (trim_start arg)) rq.(ps_args).
(** How a process ended: code, status and error. *)
Definition exit_report (st : result string ExitStatus) : Z * string * option string :=
  match st with
  | Ok st =>
      let exit_code := default 128 st in
      (exit_code, if success st then "exited"%string else "errored"%string,
       if success st then None else Some ("process exited " +:+ print_dec exit_code))
  | Err e => (128, "errored"%string, Some ("wait failed: " +:+ e))
  end.
Section Commands.
Context {W : Type} `{HostOs W} (a : HostEnvdAdapter).
Definition process_cwd (rq : EnvdProcessStartRequest) : result BackendError string :=
  match rq.(ps_cwd) with
  | Some cwd => if is_empty cwd then Ok a.(ha_root) else resolve_path a cwd
  | None => Ok a.(ha_root)
  end.
Definition command_line (rq : EnvdProcessStartRequest) (cwd : string) : CommandLine :=
  mk_command rq.(ps_cmd) rq.(ps_args) cwd (effective_envs a rq).
Definition run_host_mcp_gateway_stub (rq : EnvdProcessStartRequest) : OM W EnvdProcessOutput :=
  token ← lift (ok_or (Runtime "MCP gateway request missing GATEWAY_ACCESS_TOKEN") (bt_get "GATEWAY_ACCESS_TOKEN"%string rq.(ps_envs)));
  token_path ← lift (resolve_path a "/etc/mcp-gateway/.token");
  _ ← create_parent token_path "create MCP token dir";
  _ ← sys (runtime "write MCP token") (OsWriteAll token_path (bytes_of token));
  mret (mk_process_output 0 [] [] [] 0 true "exited" None).
Definition run_command (rq : EnvdProcessStartRequest) : OM W EnvdProcessOutput :=
  if host_mcp_gateway_request rq then run_host_mcp_gateway_stub rq
  else if is_empty rq.(ps_cmd) then lift (Err (Runtime "process command is required"))
  else
    cwd ← lift (process_cwd rq);
    _ ← sys (runtime "create process cwd") (OsCreateDirAll cwd);
    '(st, stdout, stderr) ← sys (runtime ("run process " +:+ bt rq.(ps_cmd))) (OsOutput (command_line rq cwd));
    let '(exit_code, status, error) := exit_report (Ok st) in
    mret (mk_process_output 0 stdout stderr [] exit_code true status error).
Definition spawn_command (rq : EnvdProcessStartRequest) : OM W unit :=
  if is_empty rq.(ps_cmd) then lift (Err (Runtime "process command is required"))
  else
    cwd ← lift (process_cwd rq);
    _ ← sys (runtime "create process cwd") (OsCreateDirAll cwd);
    sys (runtime ("spawn process " +:+ bt rq.(ps_cmd))) (OsSpawn (command_line rq cwd)).
Definition with_pid (pid : Z) (o : EnvdProcessOutput) : EnvdProcessOutput :=
  mk_process_output pid o.(po_stdout) o.(po_stderr) o.(po_pty) o.(po_exit_code) o.(po_exited) o.(po_status) o.(po_error).
(** The part of [start_process] under the lock. *)
Definition record_finished (rq : EnvdProcessStartRequest) (o : EnvdProcessOutput) (s : HostEnvdState) : HostEnvdState * EnvdProcessOutput :=
  let pid := next_pid s in
  let o := with_pid pid o in
  (insert_process pid (mk_host_process rq.(ps_tag) rq.(ps_cmd) rq.(ps_args) (effective_envs a rq) rq.(ps_cwd) o false false) s, o).
Definition start_process (rq : EnvdProcessStartRequest) (s : HostEnvdState) : W -> W * (HostEnvdState * result BackendError EnvdProcessOutput) := fun w =>
  match run_command rq w with
  | (w, Err e) => (w, (s, Err e))
  | (w, Ok o) => let '(s, o) := record_finished rq o s in (w, (s, Ok o))
  end.
End Commands.

(** *** The tasks of streamed processes *)
(** A reader reads, then records what it read, then sends it, which may take
    until the client catches up.  The waiter holds the mutex of the child while
    it waits, then records the exit, then sends the end. *)
Inductive Reader := Reading | Sending (bytes : list Z) | Stopped.
Inductive Waiter := WaitPending | WaitHolding | WaitSending (exit_code : Z) (status : string) (error : option string) | WaitDone.
(** A process started with [start_process_stream]: what was sent to the client
    so far, whether the client still listens, the tasks, and the signals that
    reached the child. *)
Record Stream := mk_stream_state {
  sm_sent : list (result BackendError EnvdProcessStreamEvent);
  sm_open : bool;
  sm_stdout : Reader;
  sm_stderr : Reader;
  sm_waiter : Waiter;
  sm_kills : nat
}.
Record System := mk_system { sy_state : HostEnvdState; sy_streams : gmap Z Stream }.
Definition send_event (ev : result BackendError EnvdProcessStreamEvent) (x : Stream) : Stream :=
  if x.(sm_open) then mk_stream_state (x.(sm_sent) ++ [ev]) x.(sm_open) x.(sm_stdout) x.(sm_stderr) x.(sm_waiter) x.(sm_kills) else x.
Definition reader (k : ProcessOutputKind) (x : Stream) : Reader := match k with KStdout => x.(sm_stdout) | KStderr => x.(sm_stderr) end.
Definition set_reader (k : ProcessOutputKind) (rd : Reader) (x : Stream) : Stream :=
  match k with
  | KStdout => mk_stream_state x.(sm_sent) x.(sm_open) rd x.(sm_stderr) x.(sm_waiter) x.(sm_kills)
  | KStderr => mk_stream_state x.(sm_sent) x.(sm_open) x.(sm_stdout) rd x.(sm_waiter) x.(sm_kills)
  end.
Definition set_waiter (wt : Waiter) (x : Stream) : Stream :=
  mk_stream_state x.(sm_sent) x.(sm_open) x.(sm_stdout) x.(sm_stderr) wt x.(sm_kills).
Definition add_kill (x : Stream) : Stream :=
  mk_stream_state x.(sm_sent) x.(sm_open) x.(sm_stdout) x.(sm_stderr) x.(sm_waiter) (S x.(sm_kills)).
Definition output_event (k : ProcessOutputKind) (bytes : list Z) : EnvdProcessStreamEvent :=
  match k with KStdout => EvStdout bytes | KStderr => EvStderr bytes end.
Definition hang_up (x : Stream) : Stream := mk_stream_state x.(sm_sent) false x.(sm_stdout) x.(sm_stderr) x.(sm_waiter) x.(sm_kills).
Section Tasks.
Context (a : HostEnvdAdapter).
(** [start_process_stream] once the child is spawned. *)
Definition begin_stream (rq : EnvdProcessStartRequest) (y : System) : System :=
  let '(s, pid) := allocate_process a rq y.(sy_state) in
  mk_system s (<[pid := mk_stream_state [Ok (EvStart pid)] true Reading Reading WaitPending 0]> y.(sy_streams)).
(** A reader's turn with what it read: nothing, bytes, or an error. *)
Definition reader_turn (pid : Z) (k : ProcessOutputKind) (r : result string (list Z)) (y : System) (x : Stream) : System :=
  match r with
  | Ok [] => mk_system y.(sy_state) (<[pid := set_reader k Stopped x]> y.(sy_streams))
  | Ok bytes => mk_system (append_process_output pid k bytes y.(sy_state)) (<[pid := set_reader k (Sending bytes) x]> y.(sy_streams))
  | Err e => mk_system y.(sy_state) (<[pid := set_reader k Stopped (send_event (Err (Runtime ("read process output: " +:+ e))) x)]> y.(sy_streams))
  end.
(** The send completes, or fails because the client is gone. *)
Definition reader_send (k : ProcessOutputKind) (bytes : list Z) (x : Stream) : Stream :=
  set_reader k (if x.(sm_open) then Reading else Stopped) (send_event (Ok (output_event k bytes)) x).
(** The process ended, and then the end is sent. *)
Definition waiter_exit (pid : Z) (st : result string ExitStatus) (y : System) (x : Stream) : System :=
  let '(exit_code, status, error) := exit_report st in
  mk_system (finish_process pid exit_code status error y.(sy_state)) (<[pid := set_waiter (WaitSending exit_code status error) x]> y.(sy_streams)).
Definition waiter_send (exit_code : Z) (status : string) (error : option string) (x : Stream) : Stream :=
  set_waiter WaitDone (send_event (Ok (EvEnd exit_code true status error)) x).
(** Signals that end a process. *)
Definition kills (g : EnvdProcessSignal) : bool := match g with SignalUnspecified => false | _ => true end.
(** [signal_process]: the child it has to lock, if there is still one. *)
Definition signal_target (sel : EnvdProcessSelector) (s : HostEnvdState) : result BackendError (option Z) :=
  pid ← require_process sel s;
  Ok (match bt_get pid s.(hs_processes) with Some r => if r.(hp_child) then Some pid else None | None => None end).
Inductive step : System -> System -> Prop :=
| StepStart rq y : step y (begin_stream rq y)
| StepRun rq o y : step y (mk_system (record_finished a rq o y.(sy_state)).1 y.(sy_streams))
| StepRead pid k r y x : y.(sy_streams) !! pid = Some x -> reader k x = Reading -> step y (reader_turn pid k r y x)
| StepSend pid k bytes y x : y.(sy_streams) !! pid = Some x -> reader k x = Sending bytes ->
    step y (mk_system y.(sy_state) (<[pid := reader_send k bytes x]> y.(sy_streams)))
| StepHangUp pid y x : y.(sy_streams) !! pid = Some x -> step y (mk_system y.(sy_state) (<[pid := hang_up x]> y.(sy_streams)))
| StepLock pid y x : y.(sy_streams) !! pid = Some x -> x.(sm_waiter) = WaitPending ->
    step y (mk_system y.(sy_state) (<[pid := set_waiter WaitHolding x]> y.(sy_streams)))
| StepExit pid st y x : y.(sy_streams) !! pid = Some x -> x.(sm_waiter) = WaitHolding -> step y (waiter_exit pid st y x)
| StepEnd pid c st er y x : y.(sy_streams) !! pid = Some x -> x.(sm_waiter) = WaitSending c st er ->
    step y (mk_system y.(sy_state) (<[pid := waiter_send c st er x]> y.(sy_streams)))
| StepClose sel y : step y (mk_system (close_process_stdin sel y.(sy_state)).1 y.(sy_streams))
| StepSignal sel g pid y x : signal_target sel y.(sy_state) = Ok (Some pid) -> y.(sy_streams) !! pid = Some x -> x.(sm_waiter) <> WaitHolding ->
    step y (mk_system y.(sy_state) (<[pid := if kills g then add_kill x else x]> y.(sy_streams))).
Inductive reachable : System -> Prop :=
| ReachStart : reachable (mk_system host_state_default ∅)
| ReachStep y y' : reachable y -> step y y' -> reachable y'.
End Tasks.

(** * Properties *)

(** ** Confinement *)
Definition normal_part (s : string) : Prop := s <> EmptyString /\ contains "/" s = false /\ s <> "."%string /\ s <> ".."%string.
Definition root_ok (root : string) : Prop := root <> EmptyString /\ ends_with "/" root = false.
(** Paths below the root, by their names. *)
Definition under (root p : string) : Prop := exists parts, Forall normal_part parts /\ p = foldl path_join root parts.
(** Calls that stay below the root; the parent of the root may be created. *)
Definition confined (root : string) (c : OsCall) : Prop :=
  match c with
  | OsCreateDirAll p => under root p \/ HostPaths.path_parent root = Some p
  | OsRename p q => under root p /\ under root q
  | OsOutput cl | OsSpawn cl => under root cl.(cl_cwd)
  | OsReadAll p | OsWriteAll p _ | OsCreateFile p | OsWriteHandle p _ | OsFlush p | OsReadDir p | OsSymlinkMetadata p | OsRemoveDirAll p | OsRemoveFile p => under root p
  end.
Lemma under_root root : under root root.
Proof. by exists []. Qed.
Lemma under_join root p n : under root p -> normal_part n -> under root (path_join p n).
Proof. intros (parts & Hp & ->) Hn. exists (parts ++ [n]). split; [|by rewrite foldl_snoc]. apply Forall_app. split; [done|]. by apply Forall_singleton. Qed.
Lemma classify_normal part c : contains "/" part = false -> classify part = Some c -> c = ParentDir \/ (c = Normal part /\ normal_part part).
Proof.
  intros Hc. unfold classify. destruct (is_empty part) eqn:E1; [done|]. destruct (String.eqb_spec part "."); [done|].
  destruct (String.eqb_spec part ".."); intros [= <-]; [by left|right]. split; [done|]. split_and!; try done. by intros ->.
Qed.
Lemma classified_normal parts : Forall (fun p => contains "/" p = false) parts ->
  Forall (fun c => match c with Normal p => normal_part p | _ => True end) (omap classify parts).
Proof.
  induction 1 as [|p ps Hp _ IH]; [done|]. cbn. destruct (classify p) as [c|] eqn:E; [|done]. constructor; [|done].
  by destruct (classify_normal _ _ Hp E) as [-> | [-> Hn]].
Qed.
Lemma components_normal path : Forall (fun c => match c with Normal p => normal_part p | _ => True end) (path_components path).
Proof.
  unfold path_components. pose proof (split_no_sep slash path) as Hs. destruct (starts_with slash path).
  - constructor; [done|]. by apply classified_normal.
  - destruct (split slash path) as [|first rest]; [done|]. destruct (String.eqb first "."); [constructor; [done|]|].
    + apply classified_normal. by apply Forall_cons in Hs as [_ Hs].
    + by apply classified_normal.
Qed.
Lemma push_under root path cs p res : Forall (fun c => match c with Normal p => normal_part p | _ => True end) cs -> under root p ->
  push_components path p cs = Ok res -> under root res.
Proof.
  intros Hc. revert p. induction Hc as [|c cs Hn Hc IH]; intros p Hp; cbn [push_components]; [by intros [= <-]|].
  destruct c as [| | |part]; [by apply IH|by apply IH|done|]. apply IH. by apply under_join.
Qed.
Lemma resolve_under a path p : resolve_path a path = Ok p -> under a.(ha_root) p.
Proof. apply push_under; [apply components_normal|apply under_root]. Qed.
Lemma ends_with_suffix c s t : t <> EmptyString -> ends_with c (s +:+ t) = ends_with c t.
Proof.
  intros Ht. induction s as [|d s IH]; [done|]. rewrite append_cons. cbn [ends_with]. destruct (s +:+ t) as [|e u] eqn:E; [|exact IH].
  destruct s; [by rewrite append_nil_l in E|by rewrite append_cons in E].
Qed.
Lemma ends_with_contains c s : contains c s = false -> ends_with c s = false.
Proof.
  induction s as [|d s IH]; [done|]. rewrite contains_cons. intros [Hd Hs]%orb_false_iff. cbn [ends_with]. destruct s; [done|]. by apply IH.
Qed.
Lemma join_ok p n : root_ok p -> normal_part n -> path_join p n = p +:+ "/" +:+ n /\ root_ok (path_join p n).
Proof.
  intros [Hp He] (Hn & Hc & _). unfold path_join. rewrite He. destruct p as [|c p]; [done|]. cbn [is_empty]. split; [done|]. split; [done|].
  rewrite (ends_with_suffix "/" (String c p) ("/" +:+ n)) by done. destruct n as [|d n]; [done|]. by apply (ends_with_contains _ (String d n)).
Qed.
Lemma parent_join p n : root_ok p -> normal_part n -> HostPaths.path_parent (path_join p n) = Some p.
Proof.
  intros Hp Hn. destruct (join_ok p n Hp Hn) as [-> _]. destruct Hp as [Hp _], Hn as (Hn & Hc & Hd & Hdd). change ("/" +:+ n) with (String "/" n).
  unfold HostPaths.path_parent, path_file_name. assert (Hs : split_dir (p +:+ String "/" n) = (p +:+ "/", n)).
  { change (String "/" n) with ("/" +:+ n). rewrite <- append_assoc. apply split_dir_app; [right; by exists p|done]. }
  rewrite Hs. cbn [snd]. rewrite (proj2 (String.eqb_neq _ _) Hd), (proj2 (String.eqb_neq _ _) Hdd). destruct n as [|c n]; [done|]. cbn [is_empty orb].
  rewrite rsplit_once_at by done. by destruct p.
Qed.
Lemma under_ok root p : root_ok root -> under root p -> root_ok p.
Proof.
  intros Hr (parts & Hp & ->). revert root Hr. induction Hp as [|n parts Hn Hp IH]; intros root Hr; [done|]. cbn [foldl].
  apply IH. by apply join_ok.
Qed.
Lemma parent_under root p q : root_ok root -> under root p -> HostPaths.path_parent p = Some q -> under root q \/ HostPaths.path_parent root = Some q.
Proof.
  intros Hr (parts & Hp & ->). destruct parts as [|n parts _] using rev_ind; [by right|]. apply Forall_app in Hp as [Hp Hn].
  apply Forall_cons in Hn as [Hn _]. rewrite foldl_snoc. assert (Hu : under root (foldl path_join root parts)) by (by exists parts).
  rewrite parent_join; [intros [= <-]; by left|by apply (under_ok root)|done].
Qed.
Section Confinement.
Context {W : Type} `{HostOs W} (a : HostEnvdAdapter) (lossy : string -> string).
Context (Hroot : root_ok a.(ha_root)).
(** The names a directory lists are single components. *)
Definition os_names : Prop := forall p w es, (os (OsReadDir p) w).2 = Ok es ->
  Forall (fun r => match r with Ok d => normal_part d.(de_name) | Err _ => True end) es.
Context (Hnames : os_names).
Context (P : W -> Prop) (HP : forall c w, confined a.(ha_root) c -> P w -> P (os c w).1).
Definition keeps {A} (m : W -> W * A) : Prop := forall w, P w -> P (m w).1.
Lemma confine_bind {A B} (m : OM W A) (k : A -> OM W B) : keeps m -> (forall x, keeps (k x)) -> keeps (x ← m; k x).
Proof.
  intros Hm Hk w Hw. unfold mbind, OM_bind. specialize (Hm w Hw). destruct (m w) as [w' [x|e]]; [|done]. by apply Hk.
Qed.
Lemma keeps_lift_bind {A B} (r : result BackendError A) (k : A -> OM W B) : (forall x, r = Ok x -> keeps (k x)) -> keeps (x ← lift r; k x).
Proof. intros Hk w Hw. unfold mbind, OM_bind, lift. destruct r as [x|e]; [|done]. by apply Hk. Qed.
Lemma confine_ret {A} (x : A) : keeps (mret x : OM W A).
Proof. by intros w Hw. Qed.
Lemma confine_lift {A} (r : result BackendError A) : keeps (lift r : OM W A).
Proof. by intros w Hw. Qed.
Lemma keeps_sys wrap c : confined a.(ha_root) c -> keeps (sys wrap c).
Proof. intros Hc w Hw. unfold sys. pose proof (HP c w Hc Hw) as H'. by destruct (os c w) as [w' r]. Qed.
Ltac keeps_call := match goal with |- keeps (sys ?wrap ?c) => refine (keeps_sys wrap c _); cbn [confined cl_cwd command_line]; auto using under_root end.
Lemma keeps_parent p what : under a.(ha_root) p -> keeps (create_parent p what).
Proof.
  intros Hp. unfold create_parent. destruct (HostPaths.path_parent p) as [q|] eqn:E; [|apply confine_ret]. keeps_call.
  by apply (parent_under _ p).
Qed.
Ltac keeps := repeat first [apply keeps_lift_bind; intros ? ?%resolve_under | apply confine_bind; [|intros ?] | apply keeps_parent; done
  | keeps_call; done | apply confine_ret | apply confine_lift | case_match ].
Lemma keeps_entry_for path : keeps (entry_for a path).
Proof. unfold entry_for. keeps. Qed.
Lemma keeps_read path : keeps (read_file a lossy path).
Proof. unfold read_file. keeps. Qed.
Lemma keeps_write path data : keeps (write_file a path data).
Proof. unfold write_file. keeps. Qed.
Lemma keeps_make path : keeps (make_dir a path).
Proof. unfold make_dir. keeps. Qed.
Lemma keeps_move p q : keeps (move_entry a p q).
Proof. unfold move_entry. keeps. Qed.
Lemma keeps_remove path : keeps (remove_entry a path).
Proof. unfold remove_entry. keeps. Qed.
Lemma keeps_watch_dir path r : keeps (watch_dir a path r).
Proof. unfold watch_dir. keeps. Qed.
Lemma cwd_under rq cwd : process_cwd a rq = Ok cwd -> under a.(ha_root) cwd.
Proof.
  unfold process_cwd. destruct (ps_cwd rq) as [c|]; [destruct (is_empty c)|]; [intros [= <-]; apply under_root|apply resolve_under|].
  intros [= <-]. apply under_root.
Qed.
Lemma keeps_run rq : keeps (run_command a rq).
Proof.
  unfold run_command. case_match.
  - unfold run_host_mcp_gateway_stub. apply keeps_lift_bind. intros token _. keeps.
  - case_match; [apply confine_lift|]. apply keeps_lift_bind. intros cwd Hc%cwd_under. apply confine_bind; [keeps_call|intros _].
    apply confine_bind; [keeps_call|]. intros [[st out] err]. apply confine_ret.
Qed.
Lemma keeps_spawn rq : keeps (spawn_command a rq).
Proof.
  unfold spawn_command. case_match; [apply confine_lift|]. apply keeps_lift_bind. intros cwd Hc%cwd_under.
  apply confine_bind; [keeps_call|intros _]. keeps_call.
Qed.
Definition normal_names (es : list (result host_error DirEntry)) : Prop :=
  Forall (fun r => match r with Ok d => normal_part d.(de_name) | Err _ => True end) es.
Lemma read_dir_names wrap p w w' es : sys wrap (OsReadDir p) w = (w', Ok es) -> normal_names es.
Proof.
  unfold sys. pose proof (Hnames p w) as Hn. destruct (os (OsReadDir p) w) as [w1 r]. cbn [snd] in Hn. destruct r as [es'|e]; [|done].
  intros [= _ <-]. by apply Hn.
Qed.
Definition pending_under (l : list Pending) : Prop := Forall (fun p => under a.(ha_root) p.1.2) l.
Lemma list_entries_under envd_dir host_dir depth level es acc pending acc' pending' : normal_names es -> under a.(ha_root) host_dir -> pending_under pending ->
  list_entries lossy envd_dir host_dir depth level es acc pending = Ok (acc', pending') -> pending_under pending'.
Proof.
  intros Hn Hd. revert acc pending. induction Hn as [|[d|e] es Hx Hn IH]; intros acc pending Hp; cbn [list_entries]; [by intros [= _ <-]| |done].
  destruct (de_metadata d) as [md|e]; [|done]. cbn [map_err mbind result_bind]. destruct (entry_from_metadata _ md) as [en|e]; [|done]. cbn [mbind result_bind].
  apply IH. case_match; [|done]. constructor; [|done]. cbn. by apply under_join.
Qed.
Lemma keeps_list_loop fuel depth acc pending : pending_under pending -> keeps (list_loop lossy fuel depth acc pending).
Proof.
  revert acc pending. induction fuel as [|fuel IH]; intros acc pending Hp w Hw; destruct pending as [|[[e d] l] pending]; try done.
  cbn [list_loop]. apply Forall_cons in Hp as [Hd Hp]. cbn in Hd. pose proof (keeps_sys (missing_or e ("list " +:+ bt e)) (OsReadDir d) Hd w Hw) as Hs.
  destruct (sys _ (OsReadDir d) w) as [w' [es|err]] eqn:E; [|done]. apply read_dir_names in E.
  destruct (list_entries lossy e d depth l es acc pending) as [[acc' pending']|err] eqn:El; [|done].
  apply IH; [|done]. by eapply list_entries_under.
Qed.
Lemma keeps_list fuel path depth : keeps (list_dir a lossy fuel path depth).
Proof.
  intros w Hw. unfold list_dir. destruct (resolve_path a path) as [p|e] eqn:E; [|done]. apply keeps_list_loop; [|done].
  repeat constructor. cbn. by eapply resolve_under.
Qed.
Lemma keeps_collect fuel root base recursive entries : under a.(ha_root) root ->
  keeps (collect_host_watch_entries lossy fuel root base recursive entries).
Proof.
  revert root base entries. induction fuel as [|fuel IH]; intros root base entries Hr w Hw; [done|]. cbn [collect_host_watch_entries].
  pose proof (keeps_sys (runtime ("watch read dir " +:+ bt base)) (OsReadDir root) Hr w Hw) as Hs.
  destruct (sys _ (OsReadDir root) w) as [w' [es|err]] eqn:E; [|done]. apply read_dir_names in E. cbn [fst] in Hs. clear w Hw. revert entries w' Hs.
  induction E as [|[d|e] es Hx E IHe]; intros entries w Hw; [done| |done]. destruct (de_metadata d) as [md|e]; [|done].
  destruct (recursive && md_is_dir md); [|by apply IHe].
  match goal with |- context [collect_host_watch_entries lossy fuel ?r ?b recursive ?en w] => pose proof (IH r b en (under_join _ _ _ Hr Hx) w Hw) as Hk;
    destruct (collect_host_watch_entries lossy fuel r b recursive en w) as [w' [[sn|err]|]] end; [by apply IHe|done|done].
Qed.
Lemma keeps_watch fuel path recursive snaps : keeps (watch_dir_stream a lossy fuel path recursive snaps).
Proof.
  intros w Hw. unfold watch_dir_stream. pose proof (keeps_entry_for path w Hw) as He. destruct (entry_for a path w) as [w' [en|err]]; [|done].
  destruct (resolve_path a path) as [p|err] eqn:E; [|done]. apply resolve_under in E. unfold host_watch_snapshot.
  pose proof (keeps_collect fuel p (normalize_envd_path path) recursive [] E w' He) as Hc.
  by destruct (collect_host_watch_entries lossy fuel p (normalize_envd_path path) recursive [] w') as [w'' [[?|?]|]].
Qed.
End Confinement.
(** The world after the calls an operation makes. *)
Definition os_effect {W} `{HostOs W} (a : HostEnvdAdapter) (lossy : string -> string) (fuel : nat) (op : EnvdOp) (w : W) : W :=
  match op with
  | ReadFile p => (read_file a lossy p w).1
  | WriteFile p d => (write_file a p d w).1
  | ListDir p depth => (list_dir a lossy fuel p depth w).1
  | MakeDir p => (make_dir a p w).1
  | MoveEntry p q => (move_entry a p q w).1
  | RemoveEntry p => (remove_entry a p w).1
  | StatEntry p => (stat_entry a p w).1
  | WatchDirStream p r => (watch_dir_stream a lossy fuel p r [] w).1
  | StartProcessStream rq => if host_mcp_gateway_request rq then (run_command a rq w).1 else (spawn_command a rq w).1
  | ListProcesses | SendProcessInput _ _ | CloseProcessStdin _ | SignalProcess _ _ | ConnectProcess _ | UpdateProcessPty _ _ => w
  end.
(** C19: Whatever a client asks, the host is only asked about paths made of the
    root and ordinary names (no [..], no separator), except that the parent of
    the root may be created; programs run in such a directory.  Said of any
    property of the host that such calls keep: every operation keeps it. *)
Theorem host_paths_confined {W} `{HostOs W} a lossy fuel op (P : W -> Prop) w :
  root_ok a.(ha_root) -> os_names (W := W) -> (forall c w, confined a.(ha_root) c -> P w -> P (os c w).1) -> P w ->
  P (os_effect a lossy fuel op w).
Proof.
  intros Hr Hn HP Hw. destruct op; cbn [os_effect]; try done.
  - destruct (host_mcp_gateway_request request); [by eapply keeps_run|by eapply keeps_spawn].
  - by eapply keeps_read.
  - by eapply keeps_write.
  - by eapply keeps_list.
  - by eapply keeps_make.
  - by eapply keeps_move.
  - by eapply keeps_remove.
  - by eapply keeps_entry_for.
  - by eapply keeps_watch.
Qed.
(** A host that writes down what it is asked. *)
#[local] Instance logging_os : HostOs (list OsCall) := fun c w => (c :: w,
  match c as c return result host_error (os_answer c) with
  | OsReadAll _ => Ok [104; 105]
  | OsReadDir p => Ok (if String.eqb p "/srv/env/home" then [Ok (mk_dir_entry "a" (Ok (mk_metadata true 0 16877 None)))] else [])
  | OsSymlinkMetadata _ => Ok (mk_metadata true 0 16877 None)
  | OsOutput _ => Ok (Some 0, [], [])
  | _ => Ok tt
  end).
Definition demo_adapter : HostEnvdAdapter := mk_host_adapter "/srv/env" [].
Lemma host_paths_confined_witness :
  Forall (confined "/srv/env") (os_effect demo_adapter (fun s => s) 5 (ListDir "/home" 0) []) /\
  os_effect demo_adapter (fun s => s) 5 (ListDir "/home" 0) [] = [OsReadDir "/srv/env/home/a"; OsReadDir "/srv/env/home"] /\
  (list_dir demo_adapter (fun s => s) 5 "/../etc" 0 []).2 = Some (Err (Runtime "envd path `/../etc` escapes adapter root")).
Proof.
  split; [|split; reflexivity]. apply (host_paths_confined demo_adapter (fun s => s) 5 (ListDir "/home" 0) (Forall (confined "/srv/env"))).
  - split; [discriminate|reflexivity].
  - intros p w es [= <-]. case_match; [|constructor]. repeat constructor; try discriminate.
  - intros c w Hc Hw. constructor; assumption.
  - constructor.
Defined.

(** ** Watching reports changes *)
Section Diff.
Implicit Types previous current : list (string * HostWatchEntry).
Definition known (l : list (string * HostWatchEntry)) : gset string := list_to_set l.*1.
Lemma elem_known l p : bt_sorted l -> p ∈ known l <-> is_Some (bt_get p l).
Proof.
  intros Hs. unfold known. rewrite elem_of_list_to_set, list_elem_of_fmap. split.
  - intros ([k e] & -> & Hin). exists e. by apply bt_get_elem.
  - intros [e He]. exists (p, e). split; [done|]. by apply bt_get_elem.
Qed.
Lemma create_events previous current p : bt_sorted current ->
  mk_fs_event p FsCreate ∈ diff_host_watch_snapshots previous current <-> bt_get p previous = None /\ is_Some (bt_get p current).
Proof.
  intros Hs. unfold diff_host_watch_snapshots. rewrite !elem_of_app, !list_elem_of_omap. split.
  - intros [([q e] & Hin & E)|[([q e] & Hin & E)|([q e] & Hin & E)]]; cbn in E; repeat case_match; simplify_eq. split; [done|].
    exists e. by apply bt_get_elem.
  - intros [Hn [e He]]. left. exists (p, e). split; [by apply bt_get_elem|]. cbn. by rewrite Hn.
Qed.
Lemma remove_events previous current p : bt_sorted previous ->
  mk_fs_event p FsRemove ∈ diff_host_watch_snapshots previous current <-> is_Some (bt_get p previous) /\ bt_get p current = None.
Proof.
  intros Hs. unfold diff_host_watch_snapshots. rewrite !elem_of_app, !list_elem_of_omap. split.
  - intros [([q e] & Hin & E)|[([q e] & Hin & E)|([q e] & Hin & E)]]; cbn in E; repeat case_match; simplify_eq. split; [|done].
    exists e. by apply bt_get_elem.
  - intros [[e He] Hn]. right. left. exists (p, e). split; [by apply bt_get_elem|]. cbn. by rewrite Hn.
Qed.
Lemma write_events previous current p : bt_sorted current ->
  mk_fs_event p FsWrite ∈ diff_host_watch_snapshots previous current <->
    exists e e', bt_get p previous = Some e /\ bt_get p current = Some e' /\ e <> e'.
Proof.
  intros Hs. unfold diff_host_watch_snapshots. rewrite !elem_of_app, !list_elem_of_omap. split.
  - intros [([q e] & Hin & E)|[([q e] & Hin & E)|([q e] & Hin & E)]]; cbn in E; repeat case_match; simplify_eq. eexists _, e. split; [eassumption|].
    split; [by apply bt_get_elem|done].
  - intros (e & e' & He & He' & Hne). right. right. exists (p, e'). split; [by apply bt_get_elem|]. cbn. rewrite He. by rewrite decide_False.
Qed.
Lemma diff_types previous current ev : ev ∈ diff_host_watch_snapshots previous current ->
  ev.(fe_type) = FsCreate \/ ev.(fe_type) = FsRemove \/ ev.(fe_type) = FsWrite.
Proof.
  unfold diff_host_watch_snapshots. rewrite !elem_of_app, !list_elem_of_omap.
  intros [([q e] & Hin & E)|[([q e] & Hin & E)|([q e] & Hin & E)]]; repeat case_match; simplify_eq; auto.
Qed.
Lemma omap_names {A} (f : string * A -> option EnvdFilesystemEvent) l : (forall p ev, f p = Some ev -> ev.(fe_name) = p.1) -> NoDup l.*1 ->
  NoDup (fe_name <$> omap f l).
Proof.
  intros Hf. induction l as [|[k x] l IH]; [done|]. rewrite fmap_cons. intros [Hk Hl]%NoDup_cons. cbn [omap list_omap]. destruct (f (k, x)) as [ev|] eqn:E; [|by apply IH].
  rewrite fmap_cons. constructor; [|by apply IH]. rewrite (Hf _ _ E). intros (ev' & Ev & (p & Hp & E')%list_elem_of_omap)%list_elem_of_fmap.
  apply Hk, list_elem_of_fmap. exists p. split; [|done]. rewrite <- (Hf _ _ E'). done.
Qed.
Lemma diff_names previous current : bt_sorted previous -> bt_sorted current -> NoDup (fe_name <$> diff_host_watch_snapshots previous current).
Proof.
  intros Hp Hc. unfold diff_host_watch_snapshots. rewrite !fmap_app.
  assert (Hd : forall (f : string * HostWatchEntry -> option EnvdFilesystemEvent) l, bt_sorted l -> (forall p ev, f p = Some ev -> ev.(fe_name) = p.1) -> NoDup (fe_name <$> omap f l))
    by (intros f l Hl Hf; apply omap_names; [done|by apply bt_sorted_keys]).
  apply NoDup_app. split_and!; [apply Hd; [done|intros; repeat case_match; by simplify_eq]| |apply NoDup_app; split_and!].
  - intros x (ev & -> & ([k e] & Hin & E)%list_elem_of_omap)%list_elem_of_fmap. rewrite elem_of_app, !list_elem_of_fmap.
    cbn in E. destruct (bt_get k previous) eqn:Eg; simplify_eq. cbn.
    intros [(ev & En & ([k' e'] & Hin' & E')%list_elem_of_omap)|(ev & En & ([k' e'] & Hin' & E')%list_elem_of_omap)]; cbn in E'; repeat case_match; simplify_eq; cbn in *;
      subst; first [congruence | apply bt_get_elem in Hin'; [congruence|done]].
  - apply Hd; [done|intros; repeat case_match; by simplify_eq].
  - intros x (ev & -> & ([k e] & Hin & E)%list_elem_of_omap)%list_elem_of_fmap (ev' & En & ([k' e'] & Hin' & E')%list_elem_of_omap)%list_elem_of_fmap.
    cbn in E, E'. repeat case_match; simplify_eq; cbn in *; subst. apply bt_get_elem in Hin'; [congruence|done].
  - apply Hd; [done|intros; repeat case_match; by simplify_eq].
Qed.
(** What a client knows after an event. *)
Definition track (s : gset string) (ev : result BackendError EnvdFilesystemEvent) : gset string :=
  match ev with
  | Ok ev => match ev.(fe_type) with FsCreate => {[ev.(fe_name)]} ∪ s | FsRemove => s ∖ {[ev.(fe_name)]} | _ => s end
  | Err _ => s
  end.
Lemma track_spec evs s p : NoDup (fe_name <$> evs) ->
  p ∈ foldl track s (Ok <$> evs) <-> mk_fs_event p FsCreate ∈ evs \/ (p ∈ s /\ mk_fs_event p FsRemove ∉ evs).
Proof.
  revert s. induction evs as [|[n t] evs IH]; intros s Hnd; [cbn; rewrite !elem_of_nil; naive_solver|].
  rewrite fmap_cons in Hnd. apply NoDup_cons in Hnd as [Hn Hnd]. cbn [fmap list_fmap foldl]. change (list_fmap _ _ ?f ?l) with (f <$> l).
  rewrite IH by done. rewrite !elem_of_cons. clear IH.
  assert (Ho : forall t', mk_fs_event n t' ∉ evs) by (intros t' Hin; apply Hn, list_elem_of_fmap; by exists (mk_fs_event n t')).
  destruct t; cbn [track fe_type fe_name]; (destruct (decide (p = n)) as [->|Hne]; [pose proof (Ho FsCreate); pose proof (Ho FsRemove)|]); set_solver.
Qed.
Lemma diff_tracks previous current : bt_sorted previous -> bt_sorted current ->
  foldl track (known previous) (Ok <$> diff_host_watch_snapshots previous current) = known current.
Proof.
  intros Hp Hc. apply set_eq. intros p. rewrite track_spec by (by apply diff_names). rewrite create_events, remove_events by done.
  rewrite !elem_known by done. destruct (bt_get p previous), (bt_get p current); split; naive_solver.
Qed.
(** The change an event reports. *)
Definition changed previous current (ev : EnvdFilesystemEvent) : Prop :=
  match ev.(fe_type), bt_get ev.(fe_name) previous, bt_get ev.(fe_name) current with
  | FsCreate, None, Some _ => True
  | FsRemove, Some _, None => True
  | FsWrite, Some e, Some e' => e <> e'
  | _, _, _ => False
  end.
Lemma diff_exact previous current ev : bt_sorted previous -> bt_sorted current ->
  ev ∈ diff_host_watch_snapshots previous current <-> changed previous current ev.
Proof.
  intros Hp Hc. destruct ev as [n t]. unfold changed. cbn [fe_type fe_name]. destruct t.
  - rewrite create_events by done. destruct (bt_get n previous), (bt_get n current); split; naive_solver.
  - rewrite write_events by done. destruct (bt_get n previous), (bt_get n current); split; naive_solver.
  - rewrite remove_events by done. destruct (bt_get n previous), (bt_get n current); split; naive_solver.
  - split; [|by repeat case_match]. by intros [?|[?|?]]%diff_types.
  - split; [|by repeat case_match]. by intros [?|[?|?]]%diff_types.
Qed.
Lemma diff_nil previous current : bt_sorted previous -> bt_sorted current ->
  diff_host_watch_snapshots previous current = [] <-> previous = current.
Proof.
  intros Hp Hc. split.
  - intros E. apply bt_ext; [done..|]. intros k. assert (Hn : forall t, ~ changed previous current (mk_fs_event k t)).
    { intros t Ht. apply diff_exact in Ht; [|done..]. rewrite E in Ht. by apply elem_of_nil in Ht. }
    unfold changed in Hn. cbn [fe_type fe_name] in Hn. pose proof (Hn FsCreate) as H1. pose proof (Hn FsRemove) as H2. pose proof (Hn FsWrite) as H3.
    destruct (bt_get k previous) as [e|], (bt_get k current) as [e'|]; try tauto. destruct (decide (e = e')) as [->|]; [done|tauto].
  - intros ->. destruct (diff_host_watch_snapshots current current) as [|ev l] eqn:E; [done|]. assert (Hin : ev ∈ diff_host_watch_snapshots current current)
      by (rewrite E; by left). apply diff_exact in Hin; [|done..]. unfold changed in Hin. by destruct (fe_type ev), (bt_get (fe_name ev) current).
Qed.
Lemma ticks_track previous snapshots : bt_sorted previous -> Forall bt_sorted snapshots ->
  foldl track (known previous) (watch_ticks previous (Ok <$> snapshots)) = known (default previous (last snapshots)).
Proof.
  intros Hp Hs. revert previous Hp. induction Hs as [|sn snaps Hsn Hs IH]; intros previous Hp; [done|]. rewrite fmap_cons. cbn [watch_ticks].
  rewrite foldl_app, diff_tracks by done. rewrite IH by done. destruct snaps as [|s2 snaps]; [done|]. rewrite last_cons_cons.
  by destruct (last_is_Some (s2 :: snaps)) as [_ [x ->]].
Qed.
Lemma ticks_error previous snapshots e rest :
  watch_ticks previous ((Ok <$> snapshots) ++ Err e :: rest) = watch_ticks previous (Ok <$> snapshots) ++ [Err e].
Proof.
  revert previous. induction snapshots as [|sn snaps IH]; intros previous; [done|]. rewrite fmap_cons. cbn [app watch_ticks]. by rewrite IH, app_assoc.
Qed.
End Diff.
(** Every snapshot is a sorted map. *)
Lemma collect_sorted {W} `{HostOs W} lossy fuel root base recursive entries w w' sn : bt_sorted entries ->
  collect_host_watch_entries lossy fuel root base recursive entries w = (w', Some (Ok sn)) -> bt_sorted sn.
Proof.
  revert root base entries w w' sn. induction fuel as [|fuel IH]; intros root base entries w w' sn Hs; [done|]. cbn [collect_host_watch_entries].
  destruct (sys _ (OsReadDir root) w) as [w1 [es|e]]; [|done]. revert entries w1 Hs.
  induction es as [|[d|e] es IHe]; intros entries w1 Hs; [by intros [= _ <-]| |done]. destruct (de_metadata d) as [md|e]; [|done].
  destruct (recursive && md_is_dir md); [|apply IHe; by apply bt_insert_sorted].
  match goal with |- context [collect_host_watch_entries lossy fuel ?r ?b recursive ?en w1] =>
    destruct (collect_host_watch_entries lossy fuel r b recursive en w1) as [w2 [[sn'|err]|]] eqn:E end; [|done|done].
  apply IHe. apply IH in E; [done|by apply bt_insert_sorted].
Qed.
(** A watch reports exactly what changed.  Between two snapshots there is an
    event for a path precisely when it appeared, vanished or differs, one per
    path and none when nothing changed; a client that replays the events knows
    after every tick exactly the paths that are there; an error ends the
    stream.  Snapshots are sorted maps. *)
Theorem watch_reports_changes first snapshots : bt_sorted first -> Forall bt_sorted snapshots ->
  (forall previous current, previous ∈ first :: snapshots -> current ∈ snapshots ->
    (forall ev, ev ∈ diff_host_watch_snapshots previous current <-> changed previous current ev) /\
    NoDup (fe_name <$> diff_host_watch_snapshots previous current) /\
    (diff_host_watch_snapshots previous current = [] <-> previous = current)) /\
  foldl track (known first) (watch_ticks first (Ok <$> snapshots)) = known (default first (last snapshots)) /\
  (forall e rest, watch_ticks first ((Ok <$> snapshots) ++ Err e :: rest) = watch_ticks first (Ok <$> snapshots) ++ [Err e]) /\
  forall W (H : HostOs W) lossy fuel root base recursive w w' sn,
    host_watch_snapshot lossy fuel root base recursive w = (w', Some (Ok sn)) -> bt_sorted sn.
Proof.
  intros Hf Hs. split_and!; [|by apply ticks_track|intros; apply ticks_error|intros * E; by eapply collect_sorted in E].
  intros previous current Hp Hc. rewrite Forall_forall in Hs. assert (Hps : bt_sorted previous) by (apply elem_of_cons in Hp as [->|Hp]; [done|by apply Hs]).
  split_and!; [intros; apply diff_exact; auto|apply diff_names; auto|apply diff_nil; auto].
Qed.
Lemma watch_reports_changes_witness :
  let a := [("/a"%string, mk_watch_entry 1 false 10); ("/b"%string, mk_watch_entry 2 false 10)] in
  let b := [("/b"%string, mk_watch_entry 3 false 11); ("/c"%string, mk_watch_entry 1 true 12)] in
  watch_ticks a [Ok b] = Ok <$> [mk_fs_event "/c" FsCreate; mk_fs_event "/a" FsRemove; mk_fs_event "/b" FsWrite] /\
  foldl track (known a) (watch_ticks a (Ok <$> [b])) = known b.
Proof.
  split; [reflexivity|]. refine (proj1 (proj2 (watch_reports_changes _ [_] _ _))).
  - repeat constructor.
  - constructor; [repeat constructor|constructor].
Defined.

(** ** Streams and records *)
Section Streams.
Context (a : HostEnvdAdapter).
Implicit Types (s : HostEnvdState) (y : System) (x : Stream).
Definition sent_output (k : ProcessOutputKind) (sent : list (result BackendError EnvdProcessStreamEvent)) : list Z :=
  concat (omap (fun ev => match ev, k with Ok (EvStdout b), KStdout => Some b | Ok (EvStderr b), KStderr => Some b | _, _ => None end) sent).
Definition sent_ends (sent : list (result BackendError EnvdProcessStreamEvent)) : list (Z * bool * string * option string) :=
  omap (fun ev => match ev with Ok (EvEnd c e st er) => Some (c, e, st, er) | _ => None end) sent.
Definition recorded (k : ProcessOutputKind) (o : EnvdProcessOutput) : list Z := match k with KStdout => o.(po_stdout) | KStderr => o.(po_stderr) end.
Definition finished x : bool := match x.(sm_waiter) with WaitSending _ _ _ | WaitDone => true | _ => false end.
Definition to_send (k : ProcessOutputKind) x : list Z := match reader k x with Sending b => b | _ => [] end.
(** The end already sent. *)
Definition end_due x (o : EnvdProcessOutput) : list (Z * bool * string * option string) :=
  match x.(sm_waiter) with WaitDone => [(o.(po_exit_code), true, o.(po_status), o.(po_error))] | _ => [] end.
(** What the client of a stream was told against the record of its process. *)
Definition stream_ok s (pid : Z) x : Prop :=
  exists r, bt_get pid s.(hs_processes) = Some r /\
    r.(hp_output).(po_pid) = pid /\ r.(hp_child) = negb (finished x) /\ r.(hp_output).(po_exited) = finished x /\
    head x.(sm_sent) = Some (Ok (EvStart pid)) /\
    (forall k, if x.(sm_open) then sent_output k x.(sm_sent) ++ to_send k x = recorded k r.(hp_output)
               else sent_output k x.(sm_sent) `prefix_of` recorded k r.(hp_output)) /\
    (if x.(sm_open) then sent_ends x.(sm_sent) = end_due x r.(hp_output) else sent_ends x.(sm_sent) `prefix_of` end_due x r.(hp_output)) /\
    (forall c st er, x.(sm_waiter) = WaitSending c st er -> r.(hp_output).(po_exit_code) = c /\ r.(hp_output).(po_status) = st /\ r.(hp_output).(po_error) = er).
Definition state_ok s : Prop :=
  bt_sorted s.(hs_processes) /\ 0 <= s.(hs_next_pid) /\ forall pid r, bt_get pid s.(hs_processes) = Some r -> 0 < pid <= s.(hs_next_pid).
Definition system_ok y : Prop := state_ok y.(sy_state) /\ forall pid x, y.(sy_streams) !! pid = Some x -> stream_ok y.(sy_state) pid x.
Lemma get_update pid q f s : bt_sorted s.(hs_processes) ->
  bt_get q (update_process pid f s).(hs_processes) = if decide (q = pid) then f <$> bt_get pid s.(hs_processes) else bt_get q s.(hs_processes).
Proof.
  intros Hs. unfold update_process. destruct (bt_get pid (hs_processes s)) as [r|] eqn:E; cbn [hs_processes].
  - case_decide; [subst; by rewrite bt_get_insert|by rewrite bt_get_insert_ne].
  - case_decide; [by subst|done].
Qed.
Lemma update_state_ok pid f s : state_ok s -> state_ok (update_process pid f s).
Proof.
  intros (Hs & Hn & Hb). unfold update_process. destruct (bt_get pid (hs_processes s)) as [r|] eqn:E; [|done]. split_and!; cbn [hs_processes hs_next_pid]; [by apply bt_insert_sorted|done|].
  intros q r' Hq. destruct (decide (q = pid)) as [->|Hne]; [by eapply Hb|]. rewrite bt_get_insert_ne in Hq by done. by eapply Hb.
Qed.
(** Records under other numbers and streams of other processes are untouched. *)
Lemma stream_ok_get s s' pid x : bt_get pid s'.(hs_processes) = bt_get pid s.(hs_processes) -> stream_ok s pid x -> stream_ok s' pid x.
Proof. intros E (r & Hr & H). exists r. by rewrite E. Qed.
Lemma fresh_pid s : state_ok s -> next_pid s < max_uint 32 -> next_pid s = s.(hs_next_pid) + 1 /\ bt_get (next_pid s) s.(hs_processes) = None.
Proof.
  intros (Hs & Hn & Hb) Hm. assert (E : next_pid s = s.(hs_next_pid) + 1) by (unfold next_pid, sat_add in *; lia). split; [done|].
  destruct (bt_get (next_pid s) (hs_processes s)) as [r|] eqn:Eg; [|done]. apply Hb in Eg. lia.
Qed.
Lemma insert_state_ok r s : state_ok s -> next_pid s < max_uint 32 -> state_ok (insert_process (next_pid s) r s).
Proof.
  intros Hok Hm. pose proof (fresh_pid s Hok Hm) as [E Ef]. destruct Hok as (Hs & Hn & Hb). split_and!; cbn [insert_process hs_processes hs_next_pid]; [by apply bt_insert_sorted|lia|].
  intros q r' Hq. destruct (decide (q = next_pid s)) as [->|Hne]; [lia|]. rewrite bt_get_insert_ne in Hq by done. apply Hb in Hq. lia.
Qed.
Lemma others_after_insert r s pid x : state_ok s -> next_pid s < max_uint 32 -> stream_ok s pid x -> pid <> next_pid s -> stream_ok (insert_process (next_pid s) r s) pid x.
Proof. intros (Hs & _) Hm Hx Hne. eapply stream_ok_get; [|exact Hx]. cbn [insert_process hs_processes]. by apply bt_get_insert_ne. Qed.
Lemma stream_not_next s pid x : state_ok s -> next_pid s < max_uint 32 -> stream_ok s pid x -> pid <> next_pid s.
Proof. intros Hok Hm (r & Hr & _) ->. destruct (fresh_pid s Hok Hm) as [_ E]. congruence. Qed.
(** One process changes, with its stream. *)
Lemma change_one y pid f x' : system_ok y -> stream_ok (update_process pid f y.(sy_state)) pid x' ->
  system_ok (mk_system (update_process pid f y.(sy_state)) (<[pid := x']> y.(sy_streams))).
Proof.
  intros [Hs Hx] Hx'. split; cbn [sy_state sy_streams]; [by apply update_state_ok|]. intros q x. destruct (decide (q = pid)) as [->|Hne].
  - rewrite lookup_insert_eq. by intros [= <-].
  - rewrite lookup_insert_ne by done. intros Hq. eapply stream_ok_get; [|by apply Hx]. rewrite get_update by apply Hs. by rewrite decide_False.
Qed.
Lemma change_stream y pid x' : system_ok y -> stream_ok y.(sy_state) pid x' -> system_ok (mk_system y.(sy_state) (<[pid := x']> y.(sy_streams))).
Proof.
  intros [Hs Hx] Hx'. split; cbn [sy_state sy_streams]; [done|]. intros q x. destruct (decide (q = pid)) as [->|Hne].
  - rewrite lookup_insert_eq. by intros [= <-].
  - rewrite lookup_insert_ne by done. by apply Hx.
Qed.
Lemma sent_output_snoc k sent ev : sent_output k (sent ++ [ev]) = sent_output k sent ++ sent_output k [ev].
Proof. unfold sent_output. by rewrite omap_app, concat_app. Qed.
Lemma sent_ends_snoc sent ev : sent_ends (sent ++ [ev]) = sent_ends sent ++ sent_ends [ev].
Proof. unfold sent_ends. by rewrite omap_app. Qed.
Lemma head_snoc {A} (l : list A) h b : head l = Some h -> head (l ++ [b]) = Some h.
Proof. by destruct l. Qed.
Lemma stream_ok_same s pid x x' : x'.(sm_sent) = x.(sm_sent) -> x'.(sm_open) = x.(sm_open) -> x'.(sm_waiter) = x.(sm_waiter) ->
  (forall k, to_send k x' = to_send k x) -> stream_ok s pid x -> stream_ok s pid x'.
Proof.
  intros E1 E2 E3 E4 (r & Hr & Hp & Hc & He & Hh & Ho & Hn & Hw). exists r. unfold finished, end_due in *. rewrite E1, E2, E3. split_and!; [done..| |done|done].
  intros k. rewrite E4. apply Ho.
Qed.
(** The fields a change of a reader keeps. *)
Lemma set_reader_fields k rd x : sm_sent (set_reader k rd x) = sm_sent x /\ sm_open (set_reader k rd x) = sm_open x /\ sm_waiter (set_reader k rd x) = sm_waiter x /\
  sm_kills (set_reader k rd x) = sm_kills x /\
  forall k', reader k' (set_reader k rd x) = if decide (k' = k) then rd else reader k' x.
Proof. destruct k; split_and!; try done; by intros []. Qed.
Lemma read_step y pid k r x : system_ok y -> y.(sy_streams) !! pid = Some x -> reader k x = Reading -> system_ok (reader_turn pid k r y x).
Proof.
  intros Hy Hx Hk. destruct Hy as [Hs Hall]. pose proof (Hall pid x Hx) as Hok. destruct r as [[|b bytes]|e]; cbn [reader_turn].
  - apply change_stream; [by split|]. destruct (set_reader_fields k Stopped x) as (E1 & E2 & E3 & _ & E4). apply (stream_ok_same _ _ x); [done..| |done].
    intros k'. unfold to_send. rewrite E4. case_decide; [subst; by rewrite Hk|done].
  - apply change_one; [by split|]. set (bs := b :: bytes). destruct Hok as (r & Hr & Hp & Hc & He & Hh & Ho & Hn & Hw).
    destruct (set_reader_fields k (Sending bs) x) as (E1 & E2 & E3 & _ & E4).
    eexists. rewrite get_update by apply Hs. rewrite decide_True, Hr by done. split; [reflexivity|]. unfold finished, end_due. rewrite E1, E2, E3.
    cbn [set_output hp_output hp_child]. split_and!; [by destruct k|done|by destruct k|done| |by destruct k|by destruct k].
    intros k'. specialize (Ho k'). assert (Hrec : recorded k' (append_output k bs (hp_output r)) = recorded k' (hp_output r) ++ (if decide (k' = k) then bs else []))
      by (destruct k, k'; cbn; by rewrite ?app_nil_r). rewrite Hrec. unfold to_send in *. rewrite E4. destruct (sm_open x).
    + case_decide; [subst; rewrite Hk in Ho; by rewrite <- Ho, app_nil_r|by rewrite app_nil_r].
    + by apply prefix_app_r.
  - apply change_stream; [by split|]. set (ev := Err (Runtime _)). destruct (set_reader_fields k Stopped (send_event ev x)) as (E1 & E2 & E3 & _ & E4).
    destruct Hok as (r & Hr & Hp & Hc & He & Hh & Ho & Hn & Hw). exists r. unfold finished, end_due. rewrite E1, E2, E3. unfold send_event.
    assert (Ht : forall k', to_send k' (set_reader k Stopped (send_event ev x)) = to_send k' x).
    { intros k'. unfold to_send. rewrite E4. case_decide; [subst; by rewrite Hk|]. unfold send_event. by destruct k', (sm_open x). }
    destruct (sm_open x) eqn:Eo; cbn [sm_open sm_sent sm_waiter]; rewrite ?Eo; (split_and!; [done..| | | |done]).
    + by apply head_snoc.
    + intros k'. specialize (Ho k'). rewrite <- Ho, sent_output_snoc. specialize (Ht k'). unfold send_event in Ht. rewrite Eo in Ht. rewrite Ht. cbn. destruct k'; by rewrite app_nil_r.
    + rewrite sent_ends_snoc, Hn. cbn. by rewrite app_nil_r.
    + done.
    + done.
    + done.
Qed.
Lemma send_step y pid k bytes x : system_ok y -> y.(sy_streams) !! pid = Some x -> reader k x = Sending bytes ->
  system_ok (mk_system y.(sy_state) (<[pid := reader_send k bytes x]> y.(sy_streams))).
Proof.
  intros Hy Hx Hk. apply change_stream; [done|]. destruct Hy as [Hs Hall]. destruct (Hall pid x Hx) as (r & Hr & Hp & Hc & He & Hh & Ho & Hn & Hw). exists r.
  unfold reader_send. set (z := send_event _ x). destruct (set_reader_fields k (if sm_open x then Reading else Stopped) z) as (E1 & E2 & E3 & _ & E4).
  assert (Ht : forall k', to_send k' (set_reader k (if sm_open x then Reading else Stopped) z) = if decide (k' = k) then [] else to_send k' x).
  { intros k'. unfold to_send. rewrite E4. case_decide; [by destruct (sm_open x)|]. subst z. unfold send_event. by destruct k', (sm_open x). }
  unfold finished, end_due in *. rewrite E1, E2, E3. subst z. unfold send_event in *.
  destruct (sm_open x) eqn:Eo; cbn [sm_open sm_sent sm_waiter]; rewrite ?Eo; (split_and!; [done..| | | |done]).
  - by apply head_snoc.
  - intros k'. specialize (Ho k'). rewrite Ht, <- Ho, sent_output_snoc. unfold to_send. case_decide as Ek; [subst k'; rewrite Hk; destruct k; cbn; by rewrite !app_nil_r|].
    destruct k, k'; try done; cbn; by rewrite app_nil_r.
  - rewrite sent_ends_snoc, Hn. destruct k; cbn; by rewrite app_nil_r.
  - done.
  - done.
  - done.
Qed.
Lemma exit_step y pid st x : system_ok y -> y.(sy_streams) !! pid = Some x -> x.(sm_waiter) = WaitHolding -> system_ok (waiter_exit pid st y x).
Proof.
  intros Hy Hx Hw. destruct Hy as [Hs Hall]. pose proof (Hall pid x Hx) as (r & Hr & Hp & Hc & He & Hh & Ho & Hn & Hsd). unfold waiter_exit.
  destruct (exit_report st) as [[code status] error]. apply change_one; [by split|]. eexists. rewrite get_update by apply Hs. rewrite decide_True, Hr by done.
  split; [reflexivity|]. unfold end_due in *. rewrite Hw in Hn. cbn. split_and!; try done. by intros ? ? ? [= -> -> ->].
Qed.
Lemma end_step y pid c st er x : system_ok y -> y.(sy_streams) !! pid = Some x -> x.(sm_waiter) = WaitSending c st er ->
  system_ok (mk_system y.(sy_state) (<[pid := waiter_send c st er x]> y.(sy_streams))).
Proof.
  intros Hy Hx Hw. apply change_stream; [done|]. destruct Hy as [Hs Hall]. destruct (Hall pid x Hx) as (r & Hr & Hp & Hc & He & Hh & Ho & Hn & Hsd). exists r.
  unfold finished, end_due in *. rewrite Hw in Hc, He, Hn. destruct (Hsd _ _ _ Hw) as (<- & <- & <-).
  unfold waiter_send, send_event. destruct (sm_open x) eqn:Eo; cbn [set_waiter sm_open sm_sent sm_waiter]; rewrite ?Eo; (split_and!; [done..| | | |done]).
  - by apply head_snoc.
  - intros k. specialize (Ho k). rewrite sent_output_snoc, <- Ho. destruct k; cbn; by rewrite app_nil_r.
  - rewrite sent_ends_snoc, Hn. done.
  - done.
  - intros k. specialize (Ho k). by destruct k.
  - apply prefix_nil_inv in Hn. rewrite Hn. apply prefix_nil.
Qed.
Lemma start_step rq y : system_ok y -> (begin_stream a rq y).(sy_state).(hs_next_pid) < max_uint 32 -> system_ok (begin_stream a rq y).
Proof.
  intros [Hs Hall]. unfold begin_stream, allocate_process. cbn [sy_state hs_next_pid insert_process]. intros Hm. split; cbn [sy_state sy_streams]; [by apply insert_state_ok|].
  intros q x. destruct (decide (q = next_pid (sy_state y))) as [->|Hne].
  - rewrite lookup_insert_eq. intros [= <-]. eexists. cbn [insert_process hs_processes]. rewrite bt_get_insert. split; [reflexivity|]. cbn. split_and!; try done.
    by intros [].
  - rewrite lookup_insert_ne by done. intros Hq. apply others_after_insert; [done..|by apply Hall|done].
Qed.
Lemma step_ok y y' : step a y y' -> system_ok y -> y'.(sy_state).(hs_next_pid) < max_uint 32 -> system_ok y'.
Proof.
  intros Hstep Hy Hm. destruct Hstep as [rq y|rq o y|pid k r y x Hx Hk|pid k bs y x Hx Hk|pid y x Hx|pid y x Hx Hw|pid st y x Hx Hw|pid c st er y x Hx Hw|sel y|sel g pid y x _ Hx Hw].
  - by apply start_step.
  - destruct Hy as [Hs Hall]. cbn [record_finished fst sy_state insert_process hs_next_pid] in Hm. split; cbn [record_finished fst sy_state sy_streams]; [by apply insert_state_ok|].
    intros q x Hq. apply others_after_insert; [done..|by apply Hall|]. by eapply stream_not_next, Hall.
  - by apply read_step.
  - by apply send_step.
  - apply change_stream; [done|]. destruct Hy as [Hs Hall]. destruct (Hall pid x Hx) as (r & Hr & Hp & Hc & He & Hh & Ho & Hn & Hsd). exists r. cbn [hang_up sm_open sm_sent].
    split_and!; [done..| | |done].
    + intros k. specialize (Ho k). destruct (sm_open x); [rewrite <- Ho; by apply prefix_app_r|done].
    + change (end_due (hang_up x)) with (end_due x). destruct (sm_open x); [by rewrite Hn|done].
  - apply change_stream; [done|]. destruct Hy as [Hs Hall]. destruct (Hall pid x Hx) as (r & Hr & Hp & Hc & He & Hh & Ho & Hn & Hsd). exists r.
    unfold finished, end_due in *. rewrite Hw in Hc, He, Hn. cbn. by split_and!.
  - by apply exit_step.
  - by apply end_step.
  - unfold close_process_stdin. destruct (require_process sel (sy_state y)) as [pid|e]; [|by destruct y]. destruct (bt_get pid (hs_processes (sy_state y))) as [r|] eqn:E; [|by destruct y].
    destruct Hy as [Hs Hall]. split; cbn [fst sy_state sy_streams]; [by apply update_state_ok|]. intros q x Hq. destruct (Hall q x Hq) as (r' & Hr & H).
    destruct (decide (q = pid)) as [->|Hne]; [|exists r'; rewrite get_update by apply Hs; by rewrite decide_False].
    eexists. rewrite get_update by apply Hs. rewrite decide_True, Hr by done. split; [reflexivity|]. exact H.
  - apply change_stream; [done|]. destruct (kills g); [apply (stream_ok_same _ _ x); [done..|by apply Hy]|by apply Hy].
Qed.
Lemma next_pid_grows y y' : step a y y' -> y.(sy_state).(hs_next_pid) <= max_uint 32 -> y.(sy_state).(hs_next_pid) <= y'.(sy_state).(hs_next_pid) <= max_uint 32.
Proof.
  intros Hstep Hm. assert (Hn : forall s, s.(hs_next_pid) <= max_uint 32 -> s.(hs_next_pid) <= next_pid s <= max_uint 32)
    by (intros s; unfold next_pid, sat_add, max_uint; lia).
  assert (Hu : forall pid f s, (update_process pid f s).(hs_next_pid) = s.(hs_next_pid)) by (intros pid f s; unfold update_process; by case_match).
  destruct Hstep as [rq y|rq o y|pid k [[|b l]|e] y x Hx _|pid k bs y x Hx _|pid y x Hx|pid y x Hx Hw|pid st y x Hx Hw|pid c st er y x Hx Hw|sel y|sel g pid y x _ Hx Hw];
    cbn [reader_turn begin_stream allocate_process record_finished sy_state fst insert_process hs_next_pid]; auto with lia.
  - unfold append_process_output. rewrite Hu. lia.
  - unfold waiter_exit. destruct (exit_report st) as [[? ?] ?]. cbn [sy_state]. unfold finish_process. rewrite Hu. lia.
  - unfold close_process_stdin. repeat case_match; cbn [fst]; rewrite ?Hu; lia.
Qed.
End Streams.
Lemma reachable_ok a y : reachable a y -> y.(sy_state).(hs_next_pid) <= max_uint 32 /\ (y.(sy_state).(hs_next_pid) < max_uint 32 -> system_ok y).
Proof.
  induction 1 as [|y y' Hr [IHm IHok] Hstep].
  - split; [done|]. intros _. split; [|by intros ? ?]. split_and!; done.
  - pose proof (next_pid_grows a y y' Hstep IHm) as Hg. split; [lia|]. intros Hm. apply (step_ok a y); [done|apply IHok; lia|done].
Qed.
(** C18: Under every interleaving of starts, readers, waiters, disconnecting
    clients and other operations, what the client of a streamed process was
    told agrees with the table: the start event comes first, the output sent
    and what its readers are about to send is the output recorded (what was
    sent is a prefix of it once the client is gone), the end is sent at most
    once, after the exit is recorded and with the recorded exit.  Said while
    process numbers last. *)
Theorem streams_match_records a y pid x : reachable a y -> y.(sy_state).(hs_next_pid) < max_uint 32 ->
  y.(sy_streams) !! pid = Some x -> stream_ok y.(sy_state) pid x.
Proof. intros Hr Hm Hx. apply reachable_ok in Hr as [_ Hok]. by apply Hok. Qed.
(** A run in which the end is sent before the last output: the waiter does not
    wait for the readers. *)
Definition demo_start : EnvdProcessStartRequest := mk_process_start "sh" [] [] None None None None.
Definition demo_stream (sent : list (result BackendError EnvdProcessStreamEvent)) (out : Reader) (wt : Waiter) : Stream := mk_stream_state sent true out Reading wt 0.
Definition demo_table (out : list Z) (exited : bool) : HostEnvdState :=
  mk_host_state 1 [(1, mk_host_process None "sh" [] [] None (mk_process_output 1 out [] [] 0 exited (if exited then "exited" else "running") None) (negb exited) (negb exited))].
Definition demo_system (out : list Z) (exited : bool) (x : Stream) : System := mk_system (demo_table out exited) {[1 := x]}.
Definition told : list (result BackendError EnvdProcessStreamEvent) := [Ok (EvStart 1)].
Definition told_end : list (result BackendError EnvdProcessStreamEvent) := told ++ [Ok (EvEnd 0 true "exited" None)].
Definition demo_late : System := demo_system [111; 107] true (demo_stream (told_end ++ [Ok (EvStdout [111; 107])]) Reading WaitDone).
Lemma late_reachable : reachable demo_adapter demo_late.
Proof.
  assert (R1 : reachable demo_adapter (demo_system [] false (demo_stream told Reading WaitPending))).
  { apply (ReachStep _ (mk_system host_state_default ∅)); [constructor|]. exact (StepStart demo_adapter demo_start (mk_system host_state_default ∅)). }
  assert (R2 : reachable demo_adapter (demo_system [] false (demo_stream told Reading WaitHolding))).
  { eapply ReachStep; [exact R1|]. exact (StepLock demo_adapter 1 (demo_system [] false (demo_stream told Reading WaitPending)) _ eq_refl eq_refl). }
  assert (R3 : reachable demo_adapter (demo_system [] true (demo_stream told Reading (WaitSending 0 "exited" None)))).
  { eapply ReachStep; [exact R2|]. exact (StepExit demo_adapter 1 (Ok (Some 0)) (demo_system [] false (demo_stream told Reading WaitHolding)) _ eq_refl eq_refl). }
  assert (R4 : reachable demo_adapter (demo_system [] true (demo_stream told_end Reading WaitDone))).
  { eapply ReachStep; [exact R3|]. exact (StepEnd demo_adapter 1 0 "exited" None (demo_system [] true (demo_stream told Reading (WaitSending 0 "exited" None))) _ eq_refl eq_refl). }
  assert (R5 : reachable demo_adapter (demo_system [111; 107] true (demo_stream told_end (Sending [111; 107]) WaitDone))).
  { eapply ReachStep; [exact R4|]. exact (StepRead demo_adapter 1 KStdout (Ok [111; 107]) (demo_system [] true (demo_stream told_end Reading WaitDone)) _ eq_refl eq_refl). }
  eapply ReachStep; [exact R5|]. exact (StepSend demo_adapter 1 KStdout [111; 107] (demo_system [111; 107] true (demo_stream told_end (Sending [111; 107]) WaitDone)) _ eq_refl eq_refl).
Qed.
Lemma output_after_end : exists y x, reachable demo_adapter y /\ y.(sy_streams) !! 1 = Some x /\
  x.(sm_sent) = [Ok (EvStart 1); Ok (EvEnd 0 true "exited" None); Ok (EvStdout [111; 107])].
Proof. exists demo_late. eexists. split; [apply late_reachable|]. split; reflexivity. Qed.
Lemma streams_match_records_witness :
  stream_ok demo_late.(sy_state) 1 (demo_stream (told_end ++ [Ok (EvStdout [111; 107])]) Reading WaitDone).
Proof. apply (streams_match_records demo_adapter demo_late); [apply late_reachable|reflexivity|reflexivity]. Defined.
(** While the waiter waits, no signal reaches the process: the waiter holds the
    child's mutex until the process has ended by itself. *)
Lemma signal_waits_for_exit a y y' pid x x' : reachable a y -> step a y y' -> y'.(sy_state).(hs_next_pid) < max_uint 32 ->
  y.(sy_streams) !! pid = Some x -> x.(sm_waiter) = WaitHolding -> y'.(sy_streams) !! pid = Some x' -> x'.(sm_kills) = x.(sm_kills).
Proof.
  intros Hr Hstep Hm Hx Hw. apply reachable_ok in Hr as [Hle Hok]. pose proof (next_pid_grows a y y' Hstep Hle) as Hg. specialize (Hok ltac:(lia)).
  assert (Hone : forall q z z', y.(sy_streams) !! q = Some z -> sm_kills z' = sm_kills z -> <[q := z']> y.(sy_streams) !! pid = Some x' -> x'.(sm_kills) = x.(sm_kills)).
  { intros q z z' Hq Hk. destruct (decide (q = pid)) as [->|Hne]; [rewrite lookup_insert_eq; intros [= <-]; congruence|].
    rewrite lookup_insert_ne by done. intros; congruence. }
  assert (Hsend : forall ev z, sm_kills (send_event ev z) = sm_kills z) by (intros ev z; unfold send_event; by destruct (sm_open z)).
  assert (Hrd : forall k rd z, sm_kills (set_reader k rd z) = sm_kills z) by (intros k rd z; by destruct k).
  destruct Hstep as [rq y|rq o y|q k r y z Hz _|q k bs y z Hz _|q y z Hz|q y z Hz Hwz|q st y z Hz Hwz|q c st er y z Hz Hwz|sel y|sel g q y z _ Hz Hwz];
    cbn [sy_streams sy_state begin_stream allocate_process] in *.
  - rewrite lookup_insert_ne; [intros; congruence|]. intros E. destruct Hok as [Hs Hall]. eapply stream_not_next; [exact Hs| |by apply Hall|done]. done.
  - intros; congruence.
  - destruct r as [[|b l]|e]; cbn [reader_turn sy_streams]; apply (Hone q z); rewrite ?Hrd, ?Hsend; done.
  - apply (Hone q z); [done|]. unfold reader_send. by rewrite Hrd, Hsend.
  - by apply (Hone q z).
  - by apply (Hone q z).
  - unfold waiter_exit. destruct (exit_report st) as [[? ?] ?]. by apply (Hone q z).
  - apply (Hone q z); [done|]. unfold waiter_send. cbn [set_waiter sm_kills]. by rewrite Hsend.
  - intros; congruence.
  - destruct (decide (q = pid)) as [->|Hne]; [congruence|]. rewrite lookup_insert_ne by done. intros; congruence.
Qed.

(** ** Listings *)
Inductive HostNode := HostLeaf (len mode : Z) | HostDir (mode : Z) (children : list (string * HostNode)).
Definition node_metadata (t : HostNode) : Metadata :=
  match t with HostLeaf len mode => mk_metadata false len mode None | HostDir mode _ => mk_metadata true 0 mode None end.
Fixpoint node_size (t : HostNode) : nat :=
  match t with
  | HostLeaf _ _ => 0%nat
  | HostDir _ cs => S ((fix go (cs : list (string * HostNode)) : nat := match cs with [] => 0%nat | (_, c) :: cs => (node_size c + go cs)%nat end) cs)
  end.
Definition children_size (cs : list (string * HostNode)) : nat := sum_list_with (fun c => node_size c.2) cs.
Lemma dir_size mode cs : node_size (HostDir mode cs) = S (children_size cs).
Proof. cbn [node_size]. f_equal. induction cs as [|[n c] cs IH]; [done|]. unfold children_size in *. cbn [sum_list_with snd]. by rewrite <- IH. Qed.
Section Listing.
Context {W : Type} `{HostOs W} (a : HostEnvdAdapter) (lossy : string -> string) (depth : Z).
Definition dir_entries (cs : list (string * HostNode)) : list (result host_error DirEntry) :=
  (fun c => Ok (mk_dir_entry c.1 (Ok (node_metadata c.2)))) <$> cs.
(** The host shows the tree [t] at the path [p]. *)
Fixpoint shows (p : string) (t : HostNode) : Prop :=
  match t with
  | HostLeaf len _ => len < 2 ^ 63
  | HostDir _ cs => (forall w, os (OsReadDir p) w = (w, Ok (dir_entries cs))) /\
      (fix go cs := match cs with [] => True | (n, c) :: cs => shows (path_join p n) c /\ go cs end) cs
  end.
Definition node_entry (envd_path : string) (t : HostNode) : EnvdFilesystemEntry :=
  let md := node_metadata t in
  mk_fs_entry (default "/"%string (last_component envd_path)) envd_path (if md.(md_is_dir) then DirectoryEntry else FileEntry) md.(md_len) md.(md_mode)
    (if md.(md_is_dir) then "drwxr-xr-x" else "-rw-r--r--") "host" "host" None.
Definition descends (level : Z) (t : HostNode) : bool := (node_metadata t).(md_is_dir) && ((depth =? 0) || (level + 1 <? depth)).
(** The entries of a directory: its children, and theirs down to the depth. *)
Fixpoint listed (envd_dir : string) (level : Z) (t : HostNode) : list EnvdFilesystemEntry :=
  match t with
  | HostLeaf _ _ => []
  | HostDir _ cs =>
      (fix go cs := match cs with
                    | [] => []
                    | (n, c) :: cs =>
                        let path := join_envd_path envd_dir (lossy n) in
                        node_entry path c :: (if descends level c then listed path (level + 1) c else []) ++ go cs
                    end) cs
  end.
Lemma entry_of_node path t p : shows p t -> entry_from_metadata path (node_metadata t) = Ok (node_entry path t).
Proof. intros Ht. unfold entry_from_metadata. destruct t as [len mode|mode cs]; cbn in *; [|done]. by rewrite (proj2 (Z.ltb_lt _ _) Ht). Qed.
(** A directory on the stack, with its tree. *)
Record Task := mk_task { tk_envd : string; tk_host : string; tk_level : Z; tk_node : HostNode }.
Definition task_pending (k : Task) : Pending := (k.(tk_envd), k.(tk_host), k.(tk_level)).
Definition task_ok (k : Task) : Prop := shows k.(tk_host) k.(tk_node) /\ (node_metadata k.(tk_node)).(md_is_dir) = true.
Definition tasks_size (ks : list Task) : nat := sum_list_with (fun k => node_size k.(tk_node)) ks.
Definition tasks_listed (ks : list Task) : list EnvdFilesystemEntry := concat ((fun k => listed k.(tk_envd) k.(tk_level) k.(tk_node)) <$> ks).
Definition children_shown (p : string) (cs : list (string * HostNode)) : Prop := Forall (fun c => shows (path_join p c.1) c.2) cs.
Lemma shows_children p mode cs : shows p (HostDir mode cs) -> (forall w, os (OsReadDir p) w = (w, Ok (dir_entries cs))) /\ children_shown p cs.
Proof.
  cbn. intros [Hr Hc]. split; [done|]. clear Hr. induction cs as [|[n c] cs IH]; [constructor|]. destruct Hc as [Hc Hcs]. constructor; [done|]. by apply IH.
Qed.
Definition children_listed (envd_dir : string) (level : Z) (cs : list (string * HostNode)) : list EnvdFilesystemEntry := listed envd_dir level (HostDir 0 cs).
(** One directory: its entries are appended, its directories pushed. *)
Lemma list_entries_tree envd host level cs acc ks : children_shown host cs ->
  exists acc' ks', list_entries lossy envd host depth level (dir_entries cs) acc (task_pending <$> ks) = Ok (acc ++ acc', task_pending <$> ks' ++ ks) /\
    Forall task_ok ks' /\ (tasks_size ks' <= children_size cs)%nat /\ acc' ++ tasks_listed ks' ≡ₚ children_listed envd level cs.
Proof.
  intros Hc. revert acc ks. induction Hc as [|[n c] cs Hc Hcs IH]; intros acc ks.
  - exists [], []. rewrite app_nil_r. by split_and!.
  - change (dir_entries ((n, c) :: cs)) with (Ok (mk_dir_entry n (Ok (node_metadata c))) :: dir_entries cs). cbn [list_entries de_name de_metadata map_err mbind result_bind].
    set (path := join_envd_path envd (lossy n)). cbn [fst snd] in Hc. rewrite (entry_of_node path c _ Hc). cbn [mbind result_bind].
    fold (descends level c). set (k := mk_task path (path_join host n) (level + 1) c).
    assert (Hl : children_listed envd level ((n, c) :: cs) =
      node_entry path c :: (if descends level c then listed path (level + 1) c else []) ++ children_listed envd level cs) by done.
    rewrite Hl. assert (Hz : children_size ((n, c) :: cs) = (node_size c + children_size cs)%nat) by done. rewrite Hz.
    destruct (descends level c) eqn:Ed.
    + destruct (IH (acc ++ [node_entry path c]) (k :: ks)) as (acc' & ks' & E & Hok & Hsz & Hp). rewrite fmap_cons in E.
      exists (node_entry path c :: acc'), (ks' ++ [k]). unfold Pending in *. change (path, path_join host n, level + 1) with (task_pending k). rewrite E. split_and!.
      * by rewrite <- !app_assoc.
      * apply Forall_app. split; [done|]. apply Forall_singleton. split; [done|]. unfold descends in Ed. by apply andb_true_iff in Ed as [Ed _].
      * unfold tasks_size in *. rewrite sum_list_with_app. cbn. lia.
      * rewrite <- app_comm_cons. constructor. unfold tasks_listed in *. rewrite fmap_app, concat_app. cbn [fmap list_fmap concat]. rewrite app_nil_r.
        rewrite app_assoc, Hp. apply Permutation_app_comm.
    + destruct (IH (acc ++ [node_entry path c]) ks) as (acc' & ks' & E & Hok & Hsz & Hp). exists (node_entry path c :: acc'), ks'. rewrite E. split_and!.
      * by rewrite <- app_assoc.
      * done.
      * lia.
      * rewrite <- app_comm_cons. by constructor.
Qed.
Lemma list_loop_tree fuel acc ks w : Forall task_ok ks -> (tasks_size ks <= fuel)%nat ->
  exists es, list_loop lossy fuel depth acc (task_pending <$> ks) w = (w, Some (Ok (acc ++ es))) /\ es ≡ₚ tasks_listed ks.
Proof.
  revert acc ks. induction fuel as [|fuel IH]; intros acc ks Hok Hsz; (destruct ks as [|[envd host level t] ks]; [exists []; by rewrite app_nil_r|]).
  - apply Forall_cons in Hok as [[_ Hd] _]. destruct t as [|mode cs]; [done|]. unfold tasks_size in Hsz. cbn [sum_list_with tk_node] in Hsz. rewrite dir_size in Hsz. lia.
  - apply Forall_cons in Hok as [[Hs Hd] Hok]. destruct t as [|mode cs]; [done|]. cbn [tk_host tk_node] in Hs. apply shows_children in Hs as [Hr Hc].
    rewrite fmap_cons. cbn [list_loop task_pending tk_envd tk_host tk_level]. unfold sys. rewrite Hr. cbn [map_err].
    destruct (list_entries_tree envd host level cs acc ks Hc) as (acc' & ks' & E & Hok' & Hsz' & Hp). rewrite E.
    unfold tasks_size in Hsz. cbn [sum_list_with tk_node] in Hsz. rewrite dir_size in Hsz.
    destruct (IH (acc ++ acc') (ks' ++ ks)) as (es & El & Hes).
    + by apply Forall_app.
    + unfold tasks_size in *. rewrite sum_list_with_app. lia.
    + exists (acc' ++ es). rewrite El, <- app_assoc. split; [done|]. rewrite Hes. unfold tasks_listed in *. rewrite fmap_app, concat_app, app_assoc, Hp.
      done.
Qed.
(** Listing a directory terminates and is complete.  When the host shows a
    finite tree there, a number of turns no larger than its directories
    suffices, and the answer is, in some order, each child of the directory,
    each grandchild if the depth is not 1, and so on down to the depth, with 0
    for the whole tree; the host is left alone. *)
Theorem host_listing_exact path p t w fuel : resolve_path a path = Ok p -> shows p t -> (node_metadata t).(md_is_dir) = true -> (node_size t <= fuel)%nat ->
  exists es, list_dir a lossy fuel path depth w = (w, Some (Ok es)) /\ es ≡ₚ listed (normalize_envd_path path) 0 t.
Proof.
  intros Hp Ht Hd Hf. unfold list_dir. rewrite Hp.
  destruct (list_loop_tree fuel [] [mk_task (normalize_envd_path path) p 0 t] w) as (es & E & He).
  - apply Forall_singleton. by split.
  - unfold tasks_size. cbn. lia.
  - exists es. split; [exact E|]. rewrite He. unfold tasks_listed. cbn. by rewrite app_nil_r.
Qed.
End Listing.
#[local] Instance tree_os : HostOs unit := fun c w => (w,
  match c as c return result host_error (os_answer c) with
  | OsReadDir p => Ok (if String.eqb p "/srv/env/home" then dir_entries [("a"%string, HostDir 493 [("b"%string, HostLeaf 3 420)]); ("c"%string, HostLeaf 5 420)]
                       else if String.eqb p "/srv/env/home/a" then dir_entries [("b"%string, HostLeaf 3 420)] else [])
  | _ => Err not_found
  end).
Lemma host_listing_exact_witness :
  let t := HostDir 493 [("a"%string, HostDir 493 [("b"%string, HostLeaf 3 420)]); ("c"%string, HostLeaf 5 420)] in
  exists es, list_dir demo_adapter (fun s => s) 2 "/home" 0 tt = (tt, Some (Ok es)) /\
    es ≡ₚ [node_entry "/home/a" (HostDir 493 [("b"%string, HostLeaf 3 420)]); node_entry "/home/a/b" (HostLeaf 3 420); node_entry "/home/c" (HostLeaf 5 420)].
Proof.
  refine (host_listing_exact demo_adapter (fun s => s) 0 "/home" "/srv/env/home" (HostDir 493 [("a"%string, HostDir 493 [("b"%string, HostLeaf 3 420)]); ("c"%string, HostLeaf 5 420)]) tt 2
    eq_refl _ eq_refl _); [|cbn; lia]. cbn. repeat split; try (intros w; reflexivity); lia.
Defined.
(** ** The last process number *)
(** Numbers saturate: once the largest is taken, every new process replaces the
    record of the one before. *)
Lemma last_pid_reused r s : s.(hs_next_pid) = max_uint 32 -> next_pid s = max_uint 32 /\
  bt_get (max_uint 32) (insert_process (next_pid s) r s).(hs_processes) = Some r.
Proof.
  intros E. assert (En : next_pid s = max_uint 32) by (unfold next_pid; rewrite E; reflexivity). rewrite En. split; [done|]. apply bt_get_insert.
Qed.
