(* ===== verification/DomainProxy.v ===== *)
(** * The domain proxy ([crates/e2b-server/src/domain_proxy.rs])

    Requests for [{port}-{sandbox}.{domain}] are passed to the port of a
    sandbox: how a request is routed, when its connection is kept for the next
    one, and how the answer to a websocket upgrade is read.  Headers are the
    list of their names (lower case) and values; the checks of the [http] crate
    on names and values are parameters; a stream is the chunks its reads
    give. *)
From S2P Require Import Prelude BTree Types HostPaths HostFs E2bWire E2bRoutes E2bRegistry E2bServer RuntimeRestore EnvdHttp.
Import Ids Hostnames ProxyHosts.

(** ** Requests *)
Record ProxyRequest := mk_proxy_request {
  px_method : string;
  px_path : string;
  px_path_and_query : option string;
  px_headers : list (string * string);
  px_body : result string (list Z)
}.
Definition header (rq : ProxyRequest) (name : string) : option string :=
  find_map (fun h => if String.eqb h.1 name then Some h.2 else None) rq.(px_headers).
(** [to_str] with the message of its error. *)
Definition to_str_err : string := "failed to convert header to a str".
Definition text_header (rq : ProxyRequest) (name what : string) : result string string :=
  v ← ok_or ("missing " +:+ what +:+ " header") (header rq name);
  ok_or ("invalid " +:+ what +:+ " header: " +:+ to_str_err) (E2bServer.to_str v).

(** ** Routing *)
Definition container_id_display (e : InvalidContainerId) : string :=
  match e with
  | Ids.Empty => "container id is empty"
  | Ids.TooLong s => "container id " +:+ bt s +:+ " is too long (max 64 chars)"
  | Ids.ForbiddenChars s => "container id " +:+ bt s +:+ " contains forbidden characters"
  end.
Definition proxy_host_display (e : InvalidPortSandboxHost) : string :=
  match e with
  | DomainMismatch host expected => "host " +:+ bt host +:+ " is not under expected proxy domain " +:+ bt expected
  | MissingSeparator host => "host " +:+ bt host +:+ " is missing `port-sandbox` separator"
  | InvalidPort p => "proxy host port " +:+ bt p +:+ " is invalid"
  | InvalidSandboxId e => "proxy host sandbox id is invalid: " +:+ container_id_display e
  end.
Definition request_host (rq : ProxyRequest) : result string string :=
  host ← text_header rq "host" "host";
  Ok (default host ('(name, port) ← rsplit_once ":" host; _ ← parse_uint 16 port; Some name)).
Definition request_header_route (rq : ProxyRequest) (domain : Hostname) : result string PortSandboxHost :=
  sandbox_id ← text_header rq "e2b-sandbox-id" "e2b-sandbox-id";
  port ← text_header rq "e2b-sandbox-port" "e2b-sandbox-port";
  port ← ok_or "invalid e2b-sandbox-port header"%string (n ← parse_uint 16 port; NonZero_new n);
  sandbox_id ← map_err (fun e => "invalid e2b-sandbox-id header: " +:+ container_id_display e) (ContainerId_new sandbox_id);
  Ok (mk_host port sandbox_id domain).
Definition request_route (rq : ProxyRequest) (domain : Hostname) : result string PortSandboxHost :=
  match host ← request_host rq; map_err proxy_host_display (parse_for_domain host domain) with
  | Ok route => Ok route
  | Err host_error => map_err (fun header_error => host_error +:+ "; header route unavailable: " +:+ header_error) (request_header_route rq domain)
  end.
Definition port_target_pool_key (t : PortTarget) : string :=
  match t with
  | Tcp host port => "tcp:" +:+ host +:+ ":" +:+ print_dec port
  | Vsock cid port => "vsock:" +:+ print_dec cid +:+ ":" +:+ print_dec port
  | UnixSocket path => "unix:" +:+ path
  end.
Definition pool_key (route : PortSandboxHost) (t : PortTarget) : string :=
  container_str route.(sandbox_id) +:+ "|" +:+ print_dec route.(port) +:+ "|" +:+ port_target_pool_key t.
Definition request_pool_key (rq : ProxyRequest) (route : PortSandboxHost) (t : PortTarget) : option string :=
  if negb (String.eqb rq.(px_method) "POST") || negb (route.(port) =? Restore.DEFAULT_ENVD_PORT) || negb (String.eqb rq.(px_path) "/process.Process/SendInput")
  then None else Some (pool_key route t).

(** ** Upgrades *)
Definition header_has_token (v : option string) (expected : string) : bool :=
  match v ≫= E2bServer.to_str with
  | Some s => existsb (fun token => eq_ignore_ascii_case (Volumes.trim token) expected) (split "," s)
  | None => false
  end.
Definition header_eq (v : option string) (expected : string) : bool :=
  match v ≫= E2bServer.to_str with Some s => eq_ignore_ascii_case s expected | None => false end.
Definition is_websocket_upgrade (rq : ProxyRequest) : bool :=
  String.eqb rq.(px_method) "GET" && header_has_token (header rq "connection") "upgrade" && header_eq (header rq "upgrade") "websocket" &&
  bool_decide (is_Some (header rq "sec-websocket-key")).
Fixpoint header_lines (hs : list (string * string)) : result string string :=
  match hs with
  | [] => Ok EmptyString
  | (name, value) :: hs =>
      value ← ok_or ("invalid websocket header " +:+ name +:+ ": " +:+ to_str_err) (E2bServer.to_str value);
      rest ← header_lines hs;
      Ok (name +:+ ": " +:+ value +:+ CRLF +:+ rest)
  end.
Definition websocket_request_head (rq : ProxyRequest) : result string string :=
  if negb (is_websocket_upgrade rq) then Err "request is not a websocket upgrade"%string
  else
    lines ← header_lines rq.(px_headers);
    Ok ("GET " +:+ default "/"%string rq.(px_path_and_query) +:+ " HTTP/1.1" +:+ CRLF +:+ lines +:+ CRLF).

(** *** Reading the head of a response *)
Definition invalid_data (m : string) : host_error := mk_host_error IoOther m.
Definition MAX_RESPONSE_HEAD : Z := 64 * 1024.
(** [b"\r\n\r\n"]. *)
Definition starts_end (l : list Z) : bool := bool_decide (take 4 l = [13; 10; 13; 10]).
Fixpoint find_header_end (l : list Z) : option nat :=
  if starts_end l then Some O else match l with [] => None | _ :: l => S <$> find_header_end l end.
(** Words of [str::split_whitespace]. *)
Definition white_at (l : list Z) : bool :=
  match l with
  | b :: c :: d :: _ => Network.is_white_byte b || Network.is_white2 b c || Network.is_white3 b c d
  | [b; c] => Network.is_white_byte b || Network.is_white2 b c
  | [b] => Network.is_white_byte b
  | [] => false
  end.
Fixpoint take_word (l : list Z) : list Z * list Z :=
  match l with
  | [] => ([], [])
  | b :: rest => if white_at l then ([], l) else let '(w, r) := take_word rest in (b :: w, r)
  end.
Definition text (l : list Z) : string := String.string_of_list_ascii (ascii_of <$> l).
Definition next_word (l : list Z) : option (string * list Z) :=
  match Volumes.trim_start_white l with
  | [] => None
  | t => let '(w, r) := take_word t in Some (text w, r)
  end.
Section Heads.
(** What [HeaderName::from_bytes], [HeaderValue::from_str], [u16::from_str] and
    [str::from_utf8] say of what they refuse. *)
Context (header_name header_value : string -> result string string) (int_error utf8_error : string).
Definition parse_response_status (line : list Z) : result host_error Z :=
  '(version, rest) ← ok_or (invalid_data "missing response version") (next_word line);
  if bool_decide (strip_prefix "HTTP/" version = None) then Err (invalid_data ("invalid response version: " +:+ version))
  else
    '(code, _) ← ok_or (invalid_data "missing response status") (next_word rest);
    code ← ok_or (invalid_data ("invalid response status: " +:+ int_error)) (parse_uint 16 code);
    if (100 <=? code) && (code <=? 999) then Ok code else Err (invalid_data "unsupported response status: invalid status code").
Fixpoint parse_header_lines (lines : list string) : result host_error (list (string * string)) :=
  match lines with
  | [] => Ok []
  | line :: lines =>
      if is_empty line then parse_header_lines lines
      else
        '(name, value) ← ok_or (invalid_data ("malformed response header: " +:+ line)) (split_once ":" line);
        name ← map_err (fun e => invalid_data ("invalid response header name: " +:+ e)) (header_name name);
        value ← map_err (fun e => invalid_data ("invalid response header value: " +:+ e))
                  (header_value (text (Volumes.trim_start_white (bytes_of value))));
        rest ← parse_header_lines lines;
        Ok ((name, value) :: rest)
  end.
Definition parse_head (head : list Z) : result host_error (Z * list (string * string)) :=
  if negb (utf8_valid head) then Err (invalid_data ("response head was not UTF-8: " +:+ utf8_error))
  else
    match split_str CRLF (text head) with
    | [] => Err (invalid_data "missing response status line")
    | status_line :: lines =>
        status ← parse_response_status (bytes_of status_line);
        headers ← parse_header_lines lines;
        Ok (status, headers)
    end.
(** The reads of a stream: an error, a chunk, or the end (an empty chunk).
    [None]: the next read does not return. *)
Fixpoint read_head (bytes : list Z) (reads : list (result host_error (list Z))) : option (result host_error (list Z * nat * list (result host_error (list Z)))) :=
  if MAX_RESPONSE_HEAD <? Z.of_nat (length bytes) then Some (Err (invalid_data "response headers exceeded 64KiB"))
  else
    match reads with
    | [] => None
    | Err e :: _ => Some (Err e)
    | Ok [] :: _ => Some (Err (mk_host_error IoOther "connection closed before response headers"))
    | Ok chunk :: reads =>
        let bytes := bytes ++ chunk in
        match find_header_end bytes with
        | Some n => Some (Ok (bytes, n, reads))
        | None => read_head bytes reads
        end
    end.
(** The status, the headers, what was read beyond them and the reads to come. *)
Definition read_http_response_head (reads : list (result host_error (list Z)))
  : option (result host_error (Z * list (string * string) * list Z * list (result host_error (list Z)))) :=
  match read_head [] reads with
  | None => None
  | Some (Err e) => Some (Err e)
  | Some (Ok (bytes, header_end, reads)) =>
      Some ('(status, headers) ← parse_head (take header_end bytes); Ok (status, headers, drop (header_end + 4) bytes, reads))
  end.
End Heads.

(** ** What is done with a request *)
(** The request passed on: everything as it came, without the authority. *)
Record UpstreamRequest := mk_upstream { up_method : string; up_uri : string; up_headers : list (string * string); up_body : list Z }.
Inductive ProxyPlan :=
| Refuse (status : Z) (message : string)
| Websocket (sandbox : string) (target : PortTarget) (head : string)
| Tunnel (sandbox : string) (target : PortTarget)
| Forward (sandbox : string) (target : PortTarget) (key : option string) (rq : UpstreamRequest).
Definition proxy_plan (rq : ProxyRequest) (sandbox : string) (target : PortTarget) (key : option string) : ProxyPlan :=
  if is_websocket_upgrade rq then
    match websocket_request_head rq with Ok head => Websocket sandbox target head | Err e => Refuse 400 e end
  else if String.eqb rq.(px_method) "CONNECT" then Tunnel sandbox target
  else
    match rq.(px_body) with
    | Err e => Refuse 400 ("failed to read proxy request body: " +:+ e)
    | Ok body => Forward sandbox target key (mk_upstream rq.(px_method) (default "/"%string rq.(px_path_and_query)) rq.(px_headers) body)
    end.
Section Handler.
Context {A : Type} (port_target : string -> Z -> A -> A * result BackendError PortTarget).
Definition handle_domain_proxy_request (rq : ProxyRequest) (domain : Hostname) (w : A) : A * ProxyPlan :=
  match request_route rq domain with
  | Err e => (w, Refuse 400 e)
  | Ok route =>
      let sandbox := container_str route.(sandbox_id) in
      match port_target sandbox route.(port) w with
      | (w, Err e) => (w, Refuse 502 (backend_display e))
      | (w, Ok target) => (w, proxy_plan rq sandbox target (request_pool_key rq route target))
      end
  end.
End Handler.

(** ** The pool of connections *)
(** A connection is a number; [opened] says where each one leads. *)
Abbreviation Pool := (strmap (list nat)).
Definition take_sender (key : string) (p : Pool) : Pool * option nat :=
  match p !! key with
  | Some l => match last l with Some c => (<[key := removelast l]> p, Some c) | None => (p, None) end
  | None => (p, None)
  end.
Definition return_sender (key : string) (c : nat) (p : Pool) : Pool := <[key := default [] (p !! key) ++ [c]]> p.
(** A pooled request between its turns: it has to connect, or it is waiting for
    the answer on a connection. *)
Record Flight := mk_flight { fl_route : PortSandboxHost; fl_target : PortTarget; fl_conn : option nat }.
Record ProxyState := mk_proxy_state { ps_pool : Pool; ps_opened : gmap nat (string * PortTarget); ps_flights : gmap nat Flight }.
Definition flight_key (f : Flight) : string := pool_key f.(fl_route) f.(fl_target).
(** [send_unary_response] up to the exchange: a pooled connection unless it was
    closed meanwhile, which is then dropped. *)
Definition flight_begin (id : nat) (route : PortSandboxHost) (t : PortTarget) (is_closed : nat -> bool) (y : ProxyState) : ProxyState :=
  let '(p, c) := take_sender (pool_key route t) y.(ps_pool) in
  let c := match c with Some c => if is_closed c then None else Some c | None => None end in
  mk_proxy_state p y.(ps_opened) (<[id := mk_flight route t c]> y.(ps_flights)).
Definition flight_open (id c : nat) (f : Flight) (y : ProxyState) : ProxyState :=
  mk_proxy_state y.(ps_pool) (<[c := (container_str f.(fl_route).(sandbox_id), f.(fl_target))]> y.(ps_opened))
    (<[id := mk_flight f.(fl_route) f.(fl_target) (Some c)]> y.(ps_flights)).
Definition flight_return (id c : nat) (f : Flight) (y : ProxyState) : ProxyState :=
  mk_proxy_state (return_sender (flight_key f) c y.(ps_pool)) y.(ps_opened) (delete id y.(ps_flights)).
(** What the types of a target guarantee. *)
Definition target_typed (t : PortTarget) : Prop :=
  match t with Tcp _ p => in_uint 16 p | Vsock cid p => in_uint 32 cid /\ in_uint 32 p | UnixSocket _ => True end.
Inductive pool_step : ProxyState -> ProxyState -> Prop :=
| PoolBegin id route t is_closed y : y.(ps_flights) !! id = None -> host_typed route -> target_typed t ->
    pool_step y (flight_begin id route t is_closed y)
| PoolOpen id c f y : y.(ps_flights) !! id = Some f -> f.(fl_conn) = None -> y.(ps_opened) !! c = None -> pool_step y (flight_open id c f y)
| PoolReturn id c f y : y.(ps_flights) !! id = Some f -> f.(fl_conn) = Some c -> pool_step y (flight_return id c f y)
| PoolFail id f y : y.(ps_flights) !! id = Some f -> pool_step y (mk_proxy_state y.(ps_pool) y.(ps_opened) (delete id y.(ps_flights))).
Inductive pool_reachable : ProxyState -> Prop :=
| PoolStart : pool_reachable (mk_proxy_state ∅ ∅ ∅)
| PoolStep y y' : pool_reachable y -> pool_step y y' -> pool_reachable y'.

(** * Properties *)

(** ** Keys tell connections apart *)
Lemma id_no_bar s : valid_id s -> contains "|" s = false.
Proof. intros (_ & _ & Hb). by apply (all_bytes_no_byte is_id_byte). Qed.
Lemma digits_no c n : 0 <= n -> is_ascii_digit c = false -> contains c (print_dec n) = false.
Proof. intros Hn Hc. apply digits_no_byte; [done|]. by apply print_dec_digits. Qed.
Lemma print_dec_eq a b : in_uint 64 a -> in_uint 64 b -> print_dec a = print_dec b -> a = b.
Proof. intros Ha Hb E. pose proof (parse_uint_print 64 a Ha) as Ea. rewrite E, parse_uint_print in Ea by done. congruence. Qed.
Lemma split_once_eq c a a' b b' : contains c a = false -> contains c a' = false -> a +:+ String c b = a' +:+ String c b' -> a = a' /\ b = b'.
Proof. intros Ha Ha' E. pose proof (split_once_app c a b Ha) as E1. rewrite E, split_once_app in E1 by done. by injection E1 as -> ->. Qed.
Lemma target_key_inj t t' : target_typed t -> target_typed t' -> port_target_pool_key t = port_target_pool_key t' -> t = t'.
Proof.
  intros Ht Ht' E. destruct t as [h p|c p|u], t' as [h' p'|c' p'|u']; unfold port_target_pool_key in E; try discriminate; apply append_inj_l in E; cbn [target_typed] in *.
  - assert (Hd : forall n, in_uint 16 n -> contains ":" (print_dec n) = false) by (intros n Hn; apply digits_no; [uint_lia|done]).
    pose proof (rsplit_once_at ":" h (print_dec p) (Hd p Ht)) as E1. change (h +:+ String ":" (print_dec p)) with (h +:+ ":" +:+ print_dec p) in E1.
    rewrite E in E1. pose proof (rsplit_once_at ":" h' (print_dec p') (Hd p' Ht')) as E2. change (h' +:+ String ":" (print_dec p')) with (h' +:+ ":" +:+ print_dec p') in E2.
    rewrite E2 in E1. injection E1 as -> Ep. apply print_dec_eq in Ep; [by subst|uint_lia|uint_lia].
  - destruct Ht, Ht'. apply split_once_eq in E as [Ec Ep]; [|apply digits_no; [uint_lia|done]..].
    apply print_dec_eq in Ec; [|uint_lia..]. apply print_dec_eq in Ep; [|uint_lia..]. by subst.
  - by subst.
Qed.
(** A key determines the sandbox, its port and the target. *)
Lemma pool_key_inj r t r' t' : host_typed r -> host_typed r' -> target_typed t -> target_typed t' -> pool_key r t = pool_key r' t' ->
  container_str r.(sandbox_id) = container_str r'.(sandbox_id) /\ r.(port) = r'.(port) /\ t = t'.
Proof.
  intros [Hp Hi] [Hp' Hi'] Ht Ht' E. unfold pool_key in E. apply split_once_eq in E as [Ei E]; [|by apply id_no_bar..].
  apply split_once_eq in E as [Ep E]; [|apply digits_no; [lia|done]..]. apply print_dec_eq in Ep; [|uint_lia..]. apply target_key_inj in E; done.
Qed.

(** ** Pooled connections *)
Section Pooled.
Implicit Types y : ProxyState.
Inductive Holder := InPool (key : string) | InFlight (id : nat).
Definition holds y (c : nat) (h : Holder) : Prop :=
  match h with
  | InPool key => exists l, y.(ps_pool) !! key = Some l /\ c ∈ l
  | InFlight id => exists f, y.(ps_flights) !! id = Some f /\ f.(fl_conn) = Some c
  end.
Definition leads_to y (c : nat) (r : PortSandboxHost) (t : PortTarget) : Prop := y.(ps_opened) !! c = Some (container_str r.(sandbox_id), t).
Record pool_ok y : Prop := {
  pooled_leads : forall key c, holds y c (InPool key) -> exists r t, host_typed r /\ target_typed t /\ key = pool_key r t /\ leads_to y c r t;
  flights_typed : forall id f, y.(ps_flights) !! id = Some f -> host_typed f.(fl_route) /\ target_typed f.(fl_target) /\
    forall c, f.(fl_conn) = Some c -> leads_to y c f.(fl_route) f.(fl_target);
  lists_nodup : forall key l, y.(ps_pool) !! key = Some l -> NoDup l;
  one_holder : forall c h h', holds y c h -> holds y c h' -> h = h'
}.
(** What taking a connection does to the lists. *)
Lemma take_cases key (p : Pool) : (exists l c, p !! key = Some (l ++ [c]) /\ take_sender key p = (<[key := l]> p, Some c)) \/ take_sender key p = (p, None).
Proof.
  unfold take_sender. destruct (p !! key) as [l|] eqn:E; [|by right]. destruct (last l) as [c|] eqn:El; [|by right]. left.
  apply last_Some in El as [l' ->]. exists l', c. split; [done|]. by rewrite removelast_last.
Qed.
Lemma begin_ok y id r t closed : pool_ok y -> y.(ps_flights) !! id = None -> host_typed r -> target_typed t -> pool_ok (flight_begin id r t closed y).
Proof.
  intros [Hl Hf Hn Ho] Hid Hr Ht. unfold flight_begin. set (key := pool_key r t). destruct (take_cases key y.(ps_pool)) as [(l & c & El & ->)| ->].
  - assert (Hc : holds y c (InPool key)) by (exists (l ++ [c]); split; [done|]; apply elem_of_app; right; by apply list_elem_of_singleton).
    assert (Hnl : NoDup (l ++ [c])) by (by apply (Hn key)). apply NoDup_app in Hnl as (Hnl & Hcl & _).
    assert (Hcnl : c ∉ l) by (intros Hin; by apply (Hcl c Hin), list_elem_of_singleton).
    set (y' := mk_proxy_state _ _ _). set (oc := if closed c then None else Some c).
    assert (Hpool : forall d k, holds y' d (InPool k) -> holds y d (InPool k) /\ d <> c).
    { intros d k (m & Em & Hd). cbn in Em. destruct (decide (k = key)) as [->|Hne].
      - rewrite lookup_insert_eq in Em. injection Em as <-. split; [exists (l ++ [c]); split; [done|]; apply elem_of_app; by left|]. by intros ->.
      - rewrite lookup_insert_ne in Em by done. split; [by exists m|]. intros ->. assert (E : InPool k = InPool key) by (apply (Ho c); [by exists m|done]). by injection E. }
    assert (Hfl : forall d i, holds y' d (InFlight i) -> (i = id /\ d = c) \/ (i <> id /\ holds y d (InFlight i))).
    { intros d i (f & Ef & Hd). cbn in Ef. destruct (decide (i = id)) as [->|Hne]; [left|right; rewrite lookup_insert_ne in Ef by done; split; [done|by exists f]].
      rewrite lookup_insert_eq in Ef. injection Ef as <-. cbn in Hd. destruct (closed c); [done|]. by injection Hd as ->. }
    constructor.
    + intros k d Hd. apply Hpool in Hd as [Hd _]. by apply Hl in Hd.
    + intros i f Ef. cbn in Ef. destruct (decide (i = id)) as [->|Hne]; [|rewrite lookup_insert_ne in Ef by done; by apply (Hf i)].
      rewrite lookup_insert_eq in Ef. injection Ef as <-. cbn. split_and!; [done..|]. intros d Hd. destruct (closed c); [done|]. injection Hd as <-.
      destruct (Hl key c Hc) as (r' & t' & Hr' & Ht' & Ek & Hlead). apply pool_key_inj in Ek as (Ei & _ & ->); [|done..]. unfold leads_to in *. cbn. by rewrite Ei.
    + intros k m Em. cbn in Em. destruct (decide (k = key)) as [->|Hne]; [rewrite lookup_insert_eq in Em; by injection Em as <-|rewrite lookup_insert_ne in Em by done; by apply (Hn k)].
    + assert (Hnf : forall i, holds y c (InFlight i) -> False) by (intros i Hi; discriminate (Ho c _ _ Hi Hc)).
      intros d [k|i] [k'|i'] Hh Hh'.
      * apply Hpool in Hh as [Hh _]. apply Hpool in Hh' as [Hh' _]. by apply (Ho d).
      * apply Hpool in Hh as [Hh Hd]. apply Hfl in Hh' as [[_ ->]|[_ Hh']]; [done|]. by apply (Ho d).
      * apply Hpool in Hh' as [Hh' Hd]. apply Hfl in Hh as [[_ ->]|[_ Hh]]; [done|]. by apply (Ho d).
      * apply Hfl in Hh as [[-> ->]|[Hi Hh]]; apply Hfl in Hh' as [[-> Hd]|[Hi' Hh']]; [done|by apply Hnf in Hh'|subst d; by apply Hnf in Hh|by apply (Ho d)].
  - set (y' := mk_proxy_state _ _ _).
    assert (Hfl : forall d h, holds y' d h -> holds y d h).
    { intros d [k|i]; [done|]. intros (f & Ef & Hd). cbn in Ef. destruct (decide (i = id)) as [->|Hne]; [rewrite lookup_insert_eq in Ef; by injection Ef as <-|].
      rewrite lookup_insert_ne in Ef by done. by exists f. }
    constructor.
    + intros k d Hd. by apply Hl.
    + intros i f Ef. cbn in Ef. destruct (decide (i = id)) as [->|Hne]; [rewrite lookup_insert_eq in Ef; by injection Ef as <-|rewrite lookup_insert_ne in Ef by done; by apply (Hf i)].
    + exact Hn.
    + intros d h h' Hh%Hfl Hh'%Hfl. by apply (Ho d).
Qed.
Lemma open_ok y id c f : pool_ok y -> y.(ps_flights) !! id = Some f -> f.(fl_conn) = None -> y.(ps_opened) !! c = None -> pool_ok (flight_open id c f y).
Proof.
  intros [Hl Hf Hn Ho] Hid Hc Hnew. set (y' := flight_open id c f y).
  assert (Hold : forall d r t, leads_to y d r t -> leads_to y' d r t) by (intros d r t Hd; unfold leads_to in *; cbn; rewrite lookup_insert_ne; [done|congruence]).
  assert (Hleads : forall d h, holds y d h -> exists r t, leads_to y d r t).
  { intros d [k|i] Hd; [destruct (Hl _ _ Hd) as (r & t & _ & _ & _ & H); eauto|]. destruct Hd as (g & Eg & Hd). destruct (Hf i g Eg) as (_ & _ & H). eauto. }
  assert (Hnone : forall h, ~ holds y c h) by (intros h Hh; destruct (Hleads _ _ Hh) as (r & t & E); unfold leads_to in E; congruence).
  assert (Hhold : forall d h, holds y' d h -> (d = c /\ h = InFlight id) \/ holds y d h).
  { intros d [k|i]; [by right|]. intros (g & Eg & Hd). cbn in Eg. destruct (decide (i = id)) as [->|Hne].
    - rewrite lookup_insert_eq in Eg. injection Eg as <-. injection Hd as ->. by left.
    - rewrite lookup_insert_ne in Eg by done. right. by exists g. }
  constructor.
  - intros k d Hd. destruct (Hl k d Hd) as (r & t & Hr & Ht & Ek & Hlead). exists r, t. by split_and!; [..|apply Hold].
  - intros i g Eg. cbn in Eg. destruct (decide (i = id)) as [->|Hne].
    + rewrite lookup_insert_eq in Eg. injection Eg as <-. destruct (Hf id f Hid) as (Hr & Ht & _). cbn. split_and!; [done..|]. intros d [= <-].
      unfold leads_to. cbn. by rewrite lookup_insert_eq.
    + rewrite lookup_insert_ne in Eg by done. destruct (Hf i g Eg) as (Hr & Ht & Hg). split_and!; [done..|]. intros d Hd. by apply Hold, Hg.
  - exact Hn.
  - intros d h h' Hh Hh'. apply Hhold in Hh as [[-> ->]|Hh]; apply Hhold in Hh' as [[Hd ->]|Hh']; [done|by apply Hnone in Hh'|subst d; by apply Hnone in Hh|by apply (Ho d)].
Qed.
(** Ending a request: its connection is dropped, or goes to the pool. *)
Lemma fail_ok y id : pool_ok y -> pool_ok (mk_proxy_state y.(ps_pool) y.(ps_opened) (delete id y.(ps_flights))).
Proof.
  intros [Hl Hf Hn Ho]. set (y' := mk_proxy_state _ _ _). assert (Hhold : forall d h, holds y' d h -> holds y d h).
  { intros d [k|i]; [done|]. intros (g & Eg & Hd). cbn in Eg. apply lookup_delete_Some in Eg as [_ Eg]. by exists g. }
  constructor; [done| |done|intros d h h' Hh%Hhold Hh'%Hhold; by apply (Ho d)]. intros i g Eg. cbn in Eg. apply lookup_delete_Some in Eg as [_ Eg]. by apply (Hf i).
Qed.
Lemma return_ok y id c f : pool_ok y -> y.(ps_flights) !! id = Some f -> f.(fl_conn) = Some c -> pool_ok (flight_return id c f y).
Proof.
  intros Hok Hid Hc. pose proof (fail_ok y id Hok) as Hok'. destruct Hok as [Hl Hf Hn Ho]. destruct Hok' as [Hl' Hf' Hn' Ho'].
  set (y1 := mk_proxy_state (ps_pool y) (ps_opened y) (delete id (ps_flights y))) in *. set (y' := flight_return id c f y). set (key := flight_key f).
  assert (Hcf : holds y c (InFlight id)) by (by exists f). destruct (Hf id f Hid) as (Hr & Ht & Hlead). specialize (Hlead c Hc).
  assert (Hnone : forall h, ~ holds y1 c h).
  { intros [k|i] Hh; [discriminate (Ho c (InFlight id) (InPool k) Hcf Hh)|]. destruct Hh as (g & Eg & Hd). cbn in Eg. apply lookup_delete_Some in Eg as [Hne Eg].
    assert (E : InFlight id = InFlight i) by (apply (Ho c); [done|by exists g]). by injection E. }
  assert (Hhold : forall d h, holds y' d h -> (d = c /\ h = InPool key) \/ holds y1 d h).
  { intros d [k|i]; [|by right]. intros (l & El & Hd). cbn in El. unfold return_sender in El. fold key in El. destruct (decide (k = key)) as [->|Hne].
    - rewrite lookup_insert_eq in El. injection El as <-. apply elem_of_app in Hd as [Hd|Hd%list_elem_of_singleton]; [right|by left].
      destruct (ps_pool y !! key) as [l|] eqn:E; [by exists l|by apply elem_of_nil in Hd].
    - rewrite lookup_insert_ne in El by done. right. by exists l. }
  constructor.
  - intros k d Hd. apply Hhold in Hd as [[-> [= ->]]|Hd]; [by exists f.(fl_route), f.(fl_target)|by apply Hl'].
  - exact Hf'.
  - intros k l El. cbn in El. unfold return_sender in El. fold key in El. destruct (decide (k = key)) as [->|Hne]; [|rewrite lookup_insert_ne in El by done; by apply (Hn k)].
    rewrite lookup_insert_eq in El. injection El as <-. destruct (ps_pool y !! key) as [l|] eqn:E; [|apply NoDup_singleton]. cbn. apply NoDup_app.
    split_and!; [by apply (Hn key)| |apply NoDup_singleton]. intros d Hd ->%list_elem_of_singleton. apply (Hnone (InPool key)). by exists l.
  - intros d h h' Hh Hh'. apply Hhold in Hh as [[-> ->]|Hh]; apply Hhold in Hh' as [[Hd ->]|Hh']; [done|by apply Hnone in Hh'|subst d; by apply Hnone in Hh|by apply (Ho' d)].
Qed.
Lemma pool_reachable_ok y : pool_reachable y -> pool_ok y.
Proof.
  induction 1 as [|y y' _ IH Hstep].
  - constructor; [intros k c (l & E & _)|intros i f E|intros k l E|intros c [k|i] h' (x & E & _)]; cbn in E; by rewrite lookup_empty in E.
  - destruct Hstep as [id r t closed y Hid Hr Ht|id c f y Hid Hc Hn|id c f y Hid Hc|id f y Hid]; [by apply begin_ok|by apply open_ok|by apply return_ok|by apply fail_ok].
Qed.
(** C21: Requests that share the pool never share a connection.  In every
    interleaving of requests, whatever connections close or fail, a request is
    sent on a connection that was opened for its own sandbox and target, no
    other request uses that connection at the same time, and it is not in the
    pool meanwhile; a connection in the pool waits under one key only, the one
    of the sandbox and target it leads to. *)
Theorem pooled_connections_exclusive y : pool_reachable y ->
  (forall id f c, y.(ps_flights) !! id = Some f -> f.(fl_conn) = Some c ->
    y.(ps_opened) !! c = Some (container_str f.(fl_route).(sandbox_id), f.(fl_target)) /\
    (forall id' f', y.(ps_flights) !! id' = Some f' -> f'.(fl_conn) = Some c -> id' = id) /\
    (forall key l, y.(ps_pool) !! key = Some l -> c ∉ l)) /\
  (forall key l c, y.(ps_pool) !! key = Some l -> c ∈ l ->
    (exists r t, key = pool_key r t /\ y.(ps_opened) !! c = Some (container_str r.(sandbox_id), t)) /\ NoDup l /\
    forall key' l', y.(ps_pool) !! key' = Some l' -> c ∈ l' -> key' = key).
Proof.
  intros [Hl Hf Hn Ho]%pool_reachable_ok. split.
  - intros id f c Hid Hc. assert (Hh : holds y c (InFlight id)) by (by exists f). split_and!; [by apply (Hf id)| |].
    + intros id' f' Hid' Hc'. assert (E : InFlight id' = InFlight id) by (apply (Ho c); [by exists f'|done]). by injection E.
    + intros key l El Hin. by assert (E : InPool key = InFlight id) by (apply (Ho c); [by exists l|done]).
  - intros key l c El Hin. assert (Hh : holds y c (InPool key)) by (by exists l). split_and!; [|by apply (Hn key)|].
    + destruct (Hl key c Hh) as (r & t & _ & _ & Ek & Hlead). by exists r, t.
    + intros key' l' El' Hin'. assert (E : InPool key' = InPool key) by (apply (Ho c); [by exists l'|done]). by injection E.
Qed.
End Pooled.
Definition demo_route (id : string) : PortSandboxHost := mk_host 49983 (mk_ContainerId id) (mk_Hostname "cube.localhost").
Lemma demo_route_typed id : valid_id id -> host_typed (demo_route id).
Proof. intros Hid. split; [cbn; lia|done]. Qed.
(** Two requests of one sandbox: the second one reuses the connection. *)
Lemma pooled_connections_exclusive_witness :
  let t := Tcp "127.0.0.1" 39001 in
  let r := demo_route "sbx-1" in
  let y1 := flight_open 0 7 (mk_flight r t None) (flight_begin 0 r t (fun _ => false) (mk_proxy_state ∅ ∅ ∅)) in
  let y2 := flight_begin 1 r t (fun _ => false) (flight_return 0 7 (mk_flight r t (Some 7%nat)) y1) in
  y2.(ps_flights) !! 1%nat = Some (mk_flight r t (Some 7%nat)) /\ y2.(ps_opened) !! 7%nat = Some ("sbx-1"%string, t).
Proof.
  intros t r y1 y2. assert (Hr : host_typed r) by (apply demo_route_typed; split_and!; [discriminate|vm_compute; discriminate|reflexivity]).
  assert (Ht : target_typed t) by (split; reflexivity || (vm_compute; discriminate)).
  assert (R : pool_reachable y2).
  { eapply PoolStep; [eapply PoolStep; [eapply PoolStep; [eapply PoolStep; [apply PoolStart|]|]|]|].
    - apply (PoolBegin 0 r t (fun _ => false)); [reflexivity|exact Hr|exact Ht].
    - apply (PoolOpen 0 7 (mk_flight r t None)); reflexivity.
    - apply (PoolReturn 0 7 (mk_flight r t (Some 7%nat))); reflexivity.
    - apply PoolBegin; [reflexivity|exact Hr|exact Ht]. }
  split; [reflexivity|]. apply (proj1 (pooled_connections_exclusive y2 R) 1%nat (mk_flight r t (Some 7%nat)) 7%nat); reflexivity.
Defined.

(** ** Upgrades lose no bytes *)
Lemma starts_end_app l k : starts_end l = true -> starts_end (l ++ k) = true.
Proof. unfold starts_end. rewrite !bool_decide_eq_true. destruct l as [|a [|b [|c [|d l]]]]; cbn; try done. Qed.
Lemma starts_end_short l k : (4 <= length l)%nat -> starts_end (l ++ k) = starts_end l.
Proof. intros Hl. unfold starts_end. by rewrite take_app_le. Qed.
Lemma header_end_inside l n : find_header_end l = Some n -> (n + 4 <= length l)%nat.
Proof.
  revert n. induction l as [|b l IH]; intros n; cbn [find_header_end].
  - by destruct (starts_end []) eqn:E.
  - destruct (starts_end (b :: l)) eqn:E.
    + intros [= <-]. unfold starts_end in E. apply bool_decide_eq_true in E. assert (Hl : length (take 4 (b :: l)) = 4%nat) by (by rewrite E). rewrite length_take in Hl. lia.
    + destruct (find_header_end l) as [m|]; [|done]. intros [= <-]. specialize (IH m eq_refl). cbn. lia.
Qed.
Lemma header_end_app l k n : find_header_end l = Some n -> find_header_end (l ++ k) = Some n.
Proof.
  revert n. induction l as [|b l IH]; intros n; cbn [find_header_end app].
  - by destruct (starts_end []) eqn:E.
  - destruct (starts_end (b :: l)) eqn:E.
    + intros [= <-]. change (b :: l ++ k) with ((b :: l) ++ k). by rewrite starts_end_app.
    + destruct (find_header_end l) as [m|] eqn:El; [|done]. intros [= <-]. change (b :: l ++ k) with ((b :: l) ++ k).
      apply header_end_inside in El as Hm. rewrite starts_end_short by (cbn; lia). by rewrite E, (IH m).
Qed.
Lemma header_end_late l k n : find_header_end l = None -> find_header_end (l ++ k) = Some n -> (length l < n + 4)%nat.
Proof.
  revert n. induction l as [|b l IH]; intros n Hl Hlk; [cbn; lia|]. cbn [find_header_end app] in *. destruct (starts_end (b :: l)) eqn:E; [done|].
  destruct (find_header_end l) as [m|] eqn:El; [done|]. destruct (starts_end (b :: l ++ k)) eqn:E'.
  - injection Hlk as <-. destruct (decide (4 <= length (b :: l))%nat) as [Hge|Hlt]; [|lia]. change (b :: l ++ k) with ((b :: l) ++ k) in E'.
    rewrite starts_end_short in E' by done. congruence.
  - destruct (find_header_end (l ++ k)) as [m|] eqn:Em; [|done]. injection Hlk as <-. specialize (IH m eq_refl eq_refl). cbn. lia.
Qed.
Lemma read_head_chunks bytes chunks n : Forall (fun c => c <> []) chunks -> find_header_end bytes = None -> find_header_end (bytes ++ concat chunks) = Some n ->
  Z.of_nat n + 3 <= MAX_RESPONSE_HEAD ->
  exists got rest, chunks = got ++ rest /\ find_header_end (bytes ++ concat got) = Some n /\
    read_head bytes (Ok <$> chunks) = Some (Ok (bytes ++ concat got, n, Ok <$> rest)).
Proof.
  intros Hc. revert bytes. induction Hc as [|c chunks Hne Hc IH]; intros bytes Hb Hn Hm; [cbn [concat] in Hn; rewrite app_nil_r in Hn; congruence|].
  pose proof (header_end_late _ _ _ Hb Hn) as Hlt. rewrite fmap_cons. cbn [read_head].
  replace (MAX_RESPONSE_HEAD <? Z.of_nat (length bytes)) with false by (symmetry; apply Z.ltb_ge; lia). destruct c as [|b c]; [done|].
  cbn [concat] in Hn. destruct (find_header_end (bytes ++ b :: c)) as [m|] eqn:E.
  - pose proof (header_end_app _ (concat chunks) _ E) as E'. rewrite <- app_assoc in E'. assert (m = n) as -> by congruence.
    exists [b :: c], chunks. cbn [concat]. by rewrite app_nil_r.
  - destruct (IH (bytes ++ b :: c)) as (got & rest & -> & Ef & Er); [done|by rewrite <- app_assoc|done|]. exists ((b :: c) :: got), rest. cbn [concat].
    rewrite Er. rewrite <- app_assoc in *. by split_and!.
Qed.
Lemma read_head_eof bytes chunks : Forall (fun c => c <> []) chunks -> find_header_end (bytes ++ concat chunks) = None ->
  Z.of_nat (length (bytes ++ concat chunks)) <= MAX_RESPONSE_HEAD ->
  read_head bytes ((Ok <$> chunks) ++ [Ok []]) = Some (Err (mk_host_error IoOther "connection closed before response headers")).
Proof.
  intros Hc. revert bytes. induction Hc as [|c chunks Hne Hc IH]; intros bytes Hn Hm; rewrite length_app in Hm.
  - cbn [fmap list_fmap app read_head]. by replace (MAX_RESPONSE_HEAD <? Z.of_nat (length bytes)) with false by (symmetry; apply Z.ltb_ge; lia).
  - rewrite fmap_cons. cbn [app read_head]. replace (MAX_RESPONSE_HEAD <? Z.of_nat (length bytes)) with false by (symmetry; apply Z.ltb_ge; lia).
    destruct c as [|b c]; [done|]. cbn [concat] in *. rewrite length_app in Hm. destruct (find_header_end (bytes ++ b :: c)) as [m|] eqn:E.
    + pose proof (header_end_app _ (concat chunks) _ E) as E'. rewrite <- app_assoc in E'. congruence.
    + apply IH; [by rewrite <- app_assoc|]. rewrite <- app_assoc, !length_app. lia.
Qed.
Section Upgrades.
Context (header_name header_value : string -> result string string) (int_error utf8_error : string).
Abbreviation read_response := (read_http_response_head header_name header_value int_error utf8_error).
Abbreviation parse_response := (parse_head header_name header_value int_error utf8_error).
(** Reading the head of an upgrade's answer does not depend on how the
    bytes arrive.  When the head ends within 64 KiB, every way of cutting the
    stream gives what parsing exactly the bytes of the head gives, and the bytes
    read beyond it and those still to come are, in order, exactly the bytes
    after the blank line.  A stream that closes before is reported as such. *)
Theorem upgrade_loses_no_bytes chunks : Forall (fun c => c <> []) chunks ->
  (forall n, find_header_end (concat chunks) = Some n -> Z.of_nat n + 3 <= MAX_RESPONSE_HEAD ->
    exists buffered rest, buffered ++ concat rest = drop (n + 4) (concat chunks) /\
      read_response (Ok <$> chunks) =
        Some ('(status, headers) ← parse_response (take n (concat chunks)); Ok (status, headers, buffered, Ok <$> rest))) /\
  (find_header_end (concat chunks) = None -> Z.of_nat (length (concat chunks)) <= MAX_RESPONSE_HEAD ->
    read_response ((Ok <$> chunks) ++ [Ok []]) = Some (Err (mk_host_error IoOther "connection closed before response headers"))).
Proof.
  intros Hc. split.
  - intros n Hn Hm. destruct (read_head_chunks [] chunks n) as (got & rest & -> & Ef & Er); [done..|]. exists (drop (n + 4) (concat got)), rest.
    rewrite concat_app in *. cbn [app] in Er, Ef. apply header_end_inside in Ef.
    split; [by rewrite drop_app_le|]. unfold read_http_response_head. rewrite Er. by rewrite take_app_le by lia.
  - intros Hn Hm. unfold read_http_response_head. by rewrite (read_head_eof [] chunks).
Qed.
End Upgrades.
(** The answer of a server in three chunks, the blank line cut in two. *)
Definition demo_chunks : list (list Z) :=
  [bytes_of ("HTTP/1.1 101 Switching Protocols" +:+ CRLF +:+ "Upgrade:  websocket" +:+ String (ascii_of 13) EmptyString);
   10 :: bytes_of (CRLF +:+ "ab"); bytes_of "cd"].
Lemma upgrade_loses_no_bytes_witness : exists buffered rest, buffered ++ concat rest = bytes_of "abcd" /\
  read_http_response_head (fun n => Ok n) (fun v => Ok v) "" "" (Ok <$> demo_chunks) =
    Some (Ok (101, [("Upgrade"%string, "websocket"%string)], buffered, Ok <$> rest)).
Proof.
  refine (proj1 (upgrade_loses_no_bytes (fun n => Ok n) (fun v => Ok v) "" "" demo_chunks _) 53%nat _ _).
  - repeat constructor; discriminate.
  - vm_compute. reflexivity.
  - vm_compute. discriminate.
Defined.
