(* ===== verification/HostRuntime.v ===== *)
(** * The host runtime adapter ([crates/e2b-server/src/backend.rs], [HostRuntimeAdapter])

    The runtime adapter that runs sandboxes as directories and processes of the
    host, an implementation of [RuntimeAdapter].  The host is the class
    [HostRt]; each operation is written with its calls in order and what it
    leaves behind when one fails. *)
From S2P Require Import Prelude BTree Types Ext4Path Ext4Writer HostPaths HostFs ArtifactFiles E2bRoutes E2bRegistry E2bServerInv RuntimeRestore EnvdHttp EnvdHost Envd E2bWire E2bServer.
Import Hostnames Network.
#[local] Existing Instances ST_ret ST_bind.

(** ** The host *)
Inductive FileKind := KindFile | KindDir | KindSymlink.
Inductive HostCall :=
| HcCreateDirAll (p : string)
| HcRemoveDirAll (p : string)
| HcRemoveFile (p : string)
| HcWrite (p : string) (data : list Z)
| HcRead (p : string)
| HcExists (p : string)
| HcSymlinkMetadata (p : string)
| HcReadLink (p : string)
| HcSymlink (source destination : string)
| HcReadDir (p : string)
| HcCopy (source destination : string)
| HcUnpack (archive : list Z) (p : string)
| HcOutput (c : CommandLine)
| HcSpawn (c : CommandLine)
| HcKill (child : nat)
| HcBind
| HcLocalAddr (listener : nat)
| HcNow.
Definition host_answer (c : HostCall) : Type :=
  match c with
  | HcRead _ => result host_error (list Z)
  | HcExists _ => bool
  | HcSymlinkMetadata _ => result host_error FileKind
  | HcReadLink _ => result host_error string
  | HcReadDir _ => result host_error (list (result host_error string))
  | HcOutput _ => result host_error (ExitStatus * list Z)
  | HcBind => result host_error nat
  | HcLocalAddr _ => result host_error Z
  | HcNow => Z
  | HcKill _ => unit
  | _ => result host_error unit
  end.
Class HostRt (W : Type) := host : forall c : HostCall, W -> W * host_answer c.

(** ** State *)
(** What runs on behalf of a sandbox: tasks of the executor and children.  A
    handle ([JoinHandle], [Arc<Mutex<Child>>]) is a number. *)
Inductive Job :=
| EnvdServer (port : Z) (sandbox_root : string)
| Probe (service : string) (port : Z) (sandbox_id : string)
| StartCommand (c : CommandLine).
Record HostRuntimeSandbox := mk_host_sandbox {
  hr_root : string;
  hr_envd_adapter : HostEnvdAdapter;
  hr_envd_state : HostEnvdState;
  hr_start_children : list nat;
  hr_envd_port : Z;
  hr_envd_task : nat;
  hr_code_interpreter_port : Z;
  hr_code_interpreter_task : nat;
  hr_mcp_port : Z;
  hr_mcp_task : nat;
  hr_paused : bool
}.
Record HostRuntimePod := mk_host_pod { hpd_root : string; hpd_containers : strmap string }.
Record HostRuntimeState := mk_runtime_state {
  hrs_next_sandbox : Z;
  hrs_next_pod : Z;
  hrs_sandboxes : strmap HostRuntimeSandbox;
  hrs_pods : strmap HostRuntimePod
}.
(** The adapter in its process: the host, the jobs that run, the handle the next
    one gets, and the state. *)
Record HostRun (W : Type) := mk_run { run_world : W; run_jobs : gmap nat Job; run_next : nat; run_state : HostRuntimeState }.
Arguments mk_run {W}.
Arguments run_world {W}.
Arguments run_jobs {W}.
Arguments run_next {W}.
Arguments run_state {W}.
Definition set_sandboxes (m : strmap HostRuntimeSandbox) (s : HostRuntimeState) : HostRuntimeState :=
  mk_runtime_state s.(hrs_next_sandbox) s.(hrs_next_pod) m s.(hrs_pods).
Definition set_pods (m : strmap HostRuntimePod) (s : HostRuntimeState) : HostRuntimeState :=
  mk_runtime_state s.(hrs_next_sandbox) s.(hrs_next_pod) s.(hrs_sandboxes) m.
Record HostTemplateMetadata := mk_template_metadata { tm_envs : strmap string; tm_start_cmd : option string; tm_ready_cmd : option string }.
Definition template_metadata_default : HostTemplateMetadata := mk_template_metadata ∅ None None.
Definition HOST_TEMPLATE_METADATA_FILE : string := ".firkin-template.json".

(** ** Paths *)
Fixpoint rooted_components (label path child : string) (saw : bool) (cs : list Component) : result BackendError string :=
  match cs with
  | [] => if saw then Ok child else Err (Runtime (label +:+ " " +:+ bt path +:+ " must not target the root"))
  | ParentDir :: _ => Err (Runtime (label +:+ " " +:+ bt path +:+ " escapes its root"))
  | (RootDir | CurDir) :: cs => rooted_components label path child saw cs
  | Normal part :: cs => rooted_components label path (path_join child part) true cs
  end.
Definition rooted_child_path (root path label : string) : result BackendError string :=
  rooted_components label path root false (path_components path).

(** ** Probes ([serve_host_service_probe]) *)
Definition json_string (s : string) : string := String (ascii_of_N 34) s +:+ String (ascii_of_N 34) EmptyString.
Definition probe_response (service sandbox_id : string) (ok_paths : list string) (path : string) : Z * string :=
  if decide (path ∈ ok_paths)
  then (200, "{" +:+ json_string "status" +:+ ":" +:+ json_string "ok" +:+ "," +:+ json_string "service" +:+ ":" +:+ json_string service
             +:+ "," +:+ json_string "sandboxID" +:+ ":" +:+ json_string sandbox_id +:+ "}")
  else (404, "{" +:+ json_string "error" +:+ ":" +:+ json_string "not found" +:+ "}").
Definition code_interpreter_paths : list string := ["/"; "/health"]%string.
Definition mcp_paths : list string := ["/"; "/mcp"]%string.

Section Adapter.
Context {W : Type} `{HostRt W} `{Serde HostTemplateMetadata}.
(** The root, the domain, RFC 3339 times, UTF-8 repair, and how deep a copy
    may nest. *)
Context (root domain : string) (rfc3339 : Z -> string) (lossy : list Z -> string) (copy_fuel : nat).
Abbreviation HRM := (ST (HostRun W) BackendError).
Definition with_world (w : W) (y : HostRun W) : HostRun W := mk_run w y.(run_jobs) y.(run_next) y.(run_state).
Definition hmodify (f : HostRuntimeState -> HostRuntimeState) : HRM unit := fun y =>
  (mk_run y.(run_world) y.(run_jobs) y.(run_next) (f y.(run_state)), Ok tt).
(** A call of the host that cannot fail, and one that can. *)
Definition ask (c : HostCall) : HRM (host_answer c) := fun y =>
  let '(w, r) := host c y.(run_world) in (with_world w y, Ok r).
Definition hc {A} (c : HostCall) (get : host_answer c -> result host_error A) (what : string) : HRM A :=
  r ← ask c; lift (map_err (EnvdHost.runtime what) (get r)).
(** Start a job, and end one. *)
Definition run_job (j : Job) : HRM nat := fun y =>
  (mk_run y.(run_world) (<[y.(run_next) := j]> y.(run_jobs)) (S y.(run_next)) y.(run_state), Ok y.(run_next)).
Definition end_job (h : nat) : HRM unit := fun y =>
  (mk_run y.(run_world) (delete h y.(run_jobs)) y.(run_next) y.(run_state), Ok tt).
Definition create_dir_all (p what : string) : HRM unit := hc (HcCreateDirAll p) (fun r => r) what.
Definition host_volume_path (name : string) : result BackendError string := rooted_child_path (path_join root "volumes") name "volume name".
Definition host_template_artifact_path (template_id build_id : string) : string :=
  path_join (path_join (path_join root "templates") template_id) build_id.
Definition host_snapshot_artifact_path (id : string) : result BackendError string := rooted_child_path (path_join root "snapshots") id "snapshot id".
Definition host_pod_path (pod_id : string) : result BackendError string := rooted_child_path (path_join root "pods") pod_id "pod id".
Definition host_pod_container_path (pod_id name : string) : result BackendError string :=
  pod ← host_pod_path pod_id; rooted_child_path (path_join pod "containers") name "pod container name".

(** ** Files *)
Definition remove_existing_mount_path (p : string) : HRM unit :=
  md ← ask (HcSymlinkMetadata p);
  match md with
  | Err e => if decide (e.(host_kind) = IoNotFound) then mret tt else throw (EnvdHost.runtime "stat existing mount path" e)
  | Ok KindDir => hc (HcRemoveDirAll p) (fun r => r) "clear existing mount path"
  | Ok _ => hc (HcRemoveFile p) (fun r => r) "clear existing mount path"
  end.
Definition parent_dir (p what : string) : HRM unit :=
  match HostPaths.path_parent p with Some d => create_dir_all d what | None => mret tt end.
(** A directory nested deeper than the fuel counts as a failing copy. *)
Fixpoint copy_host_path (fuel : nat) (source destination : string) : HRM unit :=
  match fuel with
  | O => throw (Runtime "copy nests too deep")
  | S fuel =>
      kind ← hc (HcSymlinkMetadata source) (fun r => r) "stat copy source";
      match kind with
      | KindSymlink =>
          target ← hc (HcReadLink source) (fun r => r) "read symlink copy source";
          _ ← parent_dir destination "create symlink destination parent";
          e ← ask (HcExists destination);
          _ ← (if e : bool then hc (HcRemoveFile destination) (fun r => r) "remove existing symlink destination" else mret tt);
          hc (HcSymlink target destination) (fun r => r) "copy symlink"
      | KindDir =>
          _ ← create_dir_all destination "create copy destination";
          names ← hc (HcReadDir source) (fun r => r) "read copy source dir";
          (fix copy_entries (names : list (result host_error string)) : HRM unit :=
             match names with
             | [] => mret tt
             | Err e :: _ => throw (EnvdHost.runtime "read copy entry" e)
             | Ok n :: names => _ ← copy_host_path fuel (path_join source n) (path_join destination n); copy_entries names
             end) names
      | KindFile =>
          _ ← parent_dir destination "create copy destination parent";
          hc (HcCopy source destination) (fun r => r) "copy file"
      end
  end.
Definition copy_host_directory_contents (source destination : string) : HRM unit :=
  _ ← create_dir_all destination "create sandbox template root"; copy_host_path copy_fuel source destination.
Definition apply_copy_archive_to_artifact (archive : list Z) (source destination artifact : string) : HRM unit :=
  let unpack := path_join artifact ".copy-unpack" in
  e ← ask (HcExists unpack);
  _ ← (if e : bool then hc (HcRemoveDirAll unpack) (fun r => r) "clear COPY unpack dir" else mret tt);
  _ ← create_dir_all unpack "create COPY unpack dir";
  _ ← hc (HcUnpack archive unpack) (fun r => r) "unpack COPY archive";
  source_path ← lift (rooted_child_path unpack source "COPY source");
  destination_path ← lift (rooted_child_path artifact destination "COPY destination");
  _ ← copy_host_path copy_fuel source_path destination_path;
  hc (HcRemoveDirAll unpack) (fun r => r) "remove COPY unpack dir".
Definition write_host_template_metadata (artifact : string) (m : HostTemplateMetadata) : HRM unit :=
  bytes ← lift (map_err (fun e => Runtime ("encode host template metadata: " +:+ e)) (serialize m));
  hc (HcWrite (path_join artifact HOST_TEMPLATE_METADATA_FILE) bytes) (fun r => r) "write host template metadata".
Definition read_host_template_metadata (artifact : string) : HRM HostTemplateMetadata :=
  r ← ask (HcRead (path_join artifact HOST_TEMPLATE_METADATA_FILE));
  match r with
  | Ok bytes => lift (map_err (fun e => Runtime ("decode host template metadata: " +:+ e)) (deserialize bytes))
  | Err e => if decide (e.(host_kind) = IoNotFound) then mret template_metadata_default else throw (EnvdHost.runtime "read host template metadata" e)
  end.
Definition template_command (command workdir : string) (envs : strmap string) (user : option string) : CommandLine :=
  mk_command "/bin/bash" ["-l"; "-c"; command]%string workdir
    (entries envs ++ match user with Some u => [("USER"%string, u); ("LOGNAME"%string, u)] | None => [] end).
Definition run_host_template_command (command workdir : string) (envs : strmap string) (user : option string) : HRM unit :=
  _ ← create_dir_all workdir "create template command cwd";
  '(st, stderr) ← hc (HcOutput (template_command command workdir envs user)) (fun r => r) "run template command";
  if success st then mret tt
  else throw (Runtime ("template RUN exited " +:+ print_dec (default 128 st) +:+ ": " +:+ lossy stderr)).
Definition spawn_host_template_command (command workdir : string) (envs : strmap string) (user : option string) : HRM nat :=
  _ ← create_dir_all workdir "create template command cwd";
  let c := template_command command workdir envs user in
  _ ← hc (HcSpawn c) (fun r => r) "spawn template start command";
  run_job (StartCommand c).
(** [start_kill]: its error is dropped. *)
Fixpoint kill_host_template_children (children : list nat) : HRM unit :=
  match children with [] => mret tt | c :: cs => _ ← ask (HcKill c); _ ← end_job c; kill_host_template_children cs end.
Definition stop_host_runtime_sandbox_services (s : HostRuntimeSandbox) : HRM unit :=
  _ ← end_job s.(hr_envd_task);
  _ ← end_job s.(hr_code_interpreter_task);
  _ ← end_job s.(hr_mcp_task);
  kill_host_template_children s.(hr_start_children).

(** ** Sandboxes *)
(** The last second [OffsetDateTime] can hold, 9999-12-31T23:59:59Z. *)
Definition max_time : Z := 253402300799.
(** The panic of an addition past it unwinds the call with what it has done so
    far, like an error. *)
Definition time_panic : BackendError := Runtime "panic: resulting value is out of range".
Definition timestamps (timeout : option Z) : HRM (string * string) :=
  now ← ask HcNow;
  let t := default 300 timeout in
  if 2 ^ 63 <=? t then throw (Runtime "sandbox timeout is too large")
  else if max_time <? now + t then throw time_panic
  else mret (rfc3339 now, rfc3339 (now + t)).
Definition attach_host_volume (sandbox_root : string) (mount : VolumeMount) : HRM unit :=
  volume_root ← lift (host_volume_path mount.(mount_name));
  _ ← create_dir_all volume_root "create host volume";
  mount_path ← lift (rooted_child_path sandbox_root mount.(mount_path) "volume mount path");
  _ ← parent_dir mount_path "create mount parent";
  _ ← remove_existing_mount_path mount_path;
  hc (HcSymlink volume_root mount_path) (fun r => r) "mount host volume".
Fixpoint attach_host_volumes (sandbox_root : string) (mounts : list VolumeMount) : HRM unit :=
  match mounts with [] => mret tt | m :: ms => _ ← attach_host_volume sandbox_root m; attach_host_volumes sandbox_root ms end.
(** [TcpListener::bind], [local_addr] and [tokio::spawn]. *)
Definition bind_service (what : string) (job : Z -> Job) : HRM (Z * nat) :=
  listener ← hc HcBind (fun r => r) ("bind host " +:+ what +:+ " listener");
  port ← hc (HcLocalAddr listener) (fun r => r) ("read host " +:+ what +:+ " listener");
  h ← run_job (job port);
  mret (port, h).
Definition start_envd_for_sandbox (sandbox_id : string) (paused : bool) (env_vars : strmap string) (mounts : list VolumeMount) (children : list nat) : HRM Z :=
  let sandbox_root := path_join root sandbox_id in
  _ ← create_dir_all sandbox_root "create sandbox root";
  _ ← attach_host_volumes sandbox_root mounts;
  _ ← create_dir_all sandbox_root "create envd root";
  '(envd_port, envd) ← bind_service "envd" (fun p => EnvdServer p sandbox_root);
  '(code_port, code) ← bind_service "code-interpreter" (fun p => Probe "code-interpreter" p sandbox_id);
  '(mcp_port, mcp) ← bind_service "MCP" (fun p => Probe "mcp" p sandbox_id);
  s ← gets run_state;
  _ ← hmodify (fun s => set_sandboxes (<[sandbox_id := mk_host_sandbox sandbox_root (mk_host_adapter sandbox_root (entries env_vars)) host_state_default
                 children envd_port envd code_port code mcp_port mcp paused]> s.(hrs_sandboxes)) s);
  _ ← (match s.(hrs_sandboxes) !! sandbox_id with Some previous => stop_host_runtime_sandbox_services previous | None => mret tt end);
  mret envd_port.
(** [restore_from_state]: the sandboxes of a state in key order. *)
Definition host_number (id : string) : option Z := suffix ← strip_prefix "sbx_host_" id; parse_uint 64 suffix.
Fixpoint restore_sandboxes (next : Z) (l : list (string * bool * strmap string * list VolumeMount)) : HRM Z :=
  match l with
  | [] => mret next
  | (id, paused, envs, mounts) :: l =>
      _ ← start_envd_for_sandbox id paused envs mounts [];
      restore_sandboxes (match host_number id with Some n => Z.max next n | None => next end) l
  end.
Definition restore_from_state (l : list (string * bool * strmap string * list VolumeMount)) : HRM unit :=
  next ← restore_sandboxes 0 l;
  hmodify (fun s => mk_runtime_state next s.(hrs_next_pod) s.(hrs_sandboxes) s.(hrs_pods)).
Definition runtime_sandbox (sandbox_id : string) (times : string * string) : RuntimeSandbox :=
  mk_runtime_sandbox (mk_runtime_config sandbox_id domain "host" (Some "host-envd-token"%string) (Some "host-traffic-token"%string) times.1 times.2 1 512)
    [Restore.DEFAULT_ENVD_PORT; DEFAULT_CODE_INTERPRETER_PORT; DEFAULT_MCP_PORT].
Definition next_sandbox_id : HRM string :=
  s ← gets run_state;
  let n := Z.max (sat_add 64 s.(hrs_next_sandbox) 1) 1 in
  _ ← hmodify (fun s => mk_runtime_state n s.(hrs_next_pod) s.(hrs_sandboxes) s.(hrs_pods));
  mret ("sbx_host_" +:+ print_dec n).
(** Run [m]; when it fails the children are killed. *)
Definition or_kill {A} (children : list nat) (m : HRM A) : HRM A := fun y =>
  match m y with
  | (y, Ok a) => (y, Ok a)
  | (y, Err e) => let '(y, _) := kill_host_template_children children y in (y, Err e)
  end.
(** [start] once the start command runs: readiness, services and times. *)
Definition boot (rq : StartSandboxRequest) (sandbox_id : string) (ready_cmd : option string) (base_envs : strmap string) (children : list nat)
  : HRM RuntimeSandbox :=
  let sandbox_root := path_join root sandbox_id in
  _ ← (match ready_cmd with
       | Some command => or_kill children (run_host_template_command command sandbox_root base_envs None)
       | None => mret tt
       end);
  _ ← or_kill children (start_envd_for_sandbox sandbox_id false base_envs rq.(ss_create_request).(cr_volume_mounts) children);
  times ← timestamps (match rq.(ss_create_request).(cr_timeout) with Some t => Some t | None => Some 300 end);
  mret (runtime_sandbox sandbox_id times).
(** The template of a sandbox, copied into its root. *)
Definition lay_out (template : option PreparedTemplate) (sandbox_root : string) : HRM HostTemplateMetadata :=
  match template with
  | Some t =>
      if is_empty t.(pt_artifact) then mret template_metadata_default
      else
        md ← read_host_template_metadata t.(pt_artifact);
        _ ← copy_host_directory_contents t.(pt_artifact) sandbox_root;
        mret md
  | None => mret template_metadata_default
  end.
Definition start (rq : StartSandboxRequest) : HRM RuntimeSandbox :=
  _ ← create_dir_all root "create host runtime root";
  sandbox_id ← next_sandbox_id;
  let sandbox_root := path_join root sandbox_id in
  md ← lay_out rq.(ss_prepared_template) sandbox_root;
  let base_envs := rq.(ss_create_request).(cr_env_vars) ∪ md.(tm_envs) in
  match md.(tm_start_cmd) with
  | Some command =>
      child ← spawn_host_template_command command sandbox_root base_envs None;
      boot rq sandbox_id md.(tm_ready_cmd) base_envs [child]
  | None => boot rq sandbox_id md.(tm_ready_cmd) base_envs []
  end.
Definition start_followup (rq : StartSandboxRequest) (sn : FollowupSnapshot) : HRM RuntimeSandbox :=
  start (mk_start_request rq.(ss_create_request)
    (Some (mk_prepared sn.(E2bWire.fs_snapshot_id) sn.(E2bWire.fs_snapshot_id) sn.(fs_location) true sn.(fs_artifact_integrity)))).
Definition find_sandbox (id : string) : HRM HostRuntimeSandbox := s ← gets run_state; lift (ok_or (NotFound id) (s.(hrs_sandboxes) !! id)).
Definition stop (sandbox_id : string) : HRM unit :=
  sandbox ← find_sandbox sandbox_id;
  _ ← hmodify (fun s => set_sandboxes (delete sandbox_id s.(hrs_sandboxes)) s);
  _ ← stop_host_runtime_sandbox_services sandbox;
  hc (HcRemoveDirAll sandbox.(hr_root)) (fun r => r) "remove sandbox root".
Definition set_paused (b : bool) (s : HostRuntimeSandbox) : HostRuntimeSandbox :=
  mk_host_sandbox s.(hr_root) s.(hr_envd_adapter) s.(hr_envd_state) s.(hr_start_children)
    s.(hr_envd_port) s.(hr_envd_task) s.(hr_code_interpreter_port) s.(hr_code_interpreter_task) s.(hr_mcp_port) s.(hr_mcp_task) b.
Definition pause (sandbox_id : string) : HRM PausedSandbox :=
  sandbox ← find_sandbox sandbox_id;
  _ ← hmodify (fun s => set_sandboxes (<[sandbox_id := set_paused true sandbox]> s.(hrs_sandboxes)) s);
  mret (mk_paused sandbox_id None).
Definition resume (p : PausedSandbox) : HRM RuntimeSandbox :=
  sandbox ← find_sandbox p.(pd_sandbox_id);
  _ ← hmodify (fun s => set_sandboxes (<[p.(pd_sandbox_id) := set_paused false sandbox]> s.(hrs_sandboxes)) s);
  times ← timestamps (Some 300);
  mret (runtime_sandbox p.(pd_sandbox_id) times).
Definition snapshot (sandbox_id : string) (name : option string) : HRM SnapshotRef :=
  let snapshot_id := default (sandbox_id +:+ "-host-snapshot") name in
  snapshot_root ← lift (host_snapshot_artifact_path snapshot_id);
  e ← ask (HcExists snapshot_root);
  if e : bool then throw (AlreadyExists snapshot_id)
  else
    sandbox ← find_sandbox sandbox_id;
    _ ← copy_host_directory_contents sandbox.(hr_root) snapshot_root;
    mret (mk_snapshot_ref snapshot_id (Some snapshot_root) None).
Definition delete_snapshot (snapshot_id : string) : HRM unit :=
  snapshot_root ← lift (host_snapshot_artifact_path snapshot_id);
  e ← ask (HcExists snapshot_root);
  if e : bool then hc (HcRemoveDirAll snapshot_root) (fun r => r) "remove host snapshot" else mret tt.
Definition metrics (sandbox_id : string) : HRM (list SandboxMetric) :=
  _ ← find_sandbox sandbox_id;
  now ← ask HcNow;
  mret [mk_metric (rfc3339 now) 0 1 0 (512 * 1024 * 1024) 0 0].
Definition logs (sandbox_id : string) : HRM SandboxLogs :=
  sandbox ← find_sandbox sandbox_id;
  now ← ask HcNow;
  let l := captured_process_logs lossy (rfc3339 now) sandbox.(hr_envd_state) in
  match l with
  | [] => now ← ask HcNow; mret (mk_logs [mk_log_entry (rfc3339 now) Info "host envd adapter running" ∅])
  | _ => mret (mk_logs l)
  end.
Definition apply_network (sandbox_id : string) (policy : SandboxNetworkPolicy) : HRM unit :=
  throw (Runtime "host runtime adapter does not enforce E2B network policy").
Definition port_target (sandbox_id : string) (port : Z) : HRM PortTarget :=
  sandbox ← find_sandbox sandbox_id;
  if sandbox.(hr_paused) then throw (Runtime ("sandbox " +:+ bt sandbox_id +:+ " is paused"))
  else
    mret (Tcp "127.0.0.1"
      (if port =? Restore.DEFAULT_ENVD_PORT then sandbox.(hr_envd_port)
       else if port =? DEFAULT_CODE_INTERPRETER_PORT then sandbox.(hr_code_interpreter_port)
       else if port =? DEFAULT_MCP_PORT then sandbox.(hr_mcp_port) else port)).
Definition preflight : HRM RuntimeCapabilitySet :=
  mret (mk_capabilities "host" ["e2b-control-plane"; "domain-host-proxy"; "e2b-envd-compatible-api"; "host-command-execution"; "host-filesystem"]
    [("vm-isolation", "host adapter executes on the host under a rooted directory");
     ("e2b-network-policy", "host adapter does not enforce per-sandbox network policy");
     ("snapshot-backed-pause-resume-connect", "pause/resume is control-plane state only for the host adapter")])%string.

(** ** Templates *)
Definition prepare_template (rq : TemplateBuildRequest) : HRM PreparedTemplate :=
  let name := default "host-template"%string rq.(br_name) in
  mret (mk_prepared ("host-" +:+ name) "host-build" (path_join (path_join root "templates") name) true None).
(** What the steps of a build change: environment, working directory, user. *)
Record BuildState := mk_build_state { bs_envs : strmap string; bs_workdir : string; bs_user : option string }.
Definition step_arg (st : TemplateStep) (n : nat) (what : string) : HRM string :=
  lift (ok_or (Runtime ("template " +:+ what)) (st.(step_args) !! n)).
Definition build_step (artifact : string) (files : strmap Bytes) (st : TemplateStep) (b : BuildState) : HRM BuildState :=
  match st.(step_kind) with
  | Copy =>
      hash ← lift (ok_or (Runtime "template COPY step is missing filesHash") st.(step_files_hash));
      archive ← lift (ok_or (NotFound hash) (files !! hash));
      source ← step_arg st 0 "COPY step is missing source";
      destination ← step_arg st 1 "COPY step is missing destination";
      _ ← apply_copy_archive_to_artifact archive source destination artifact;
      mret b
  | Env =>
      key ← step_arg st 0 "ENV step is missing key";
      value ← step_arg st 1 "ENV step is missing value";
      mret (mk_build_state (<[key := value]> b.(bs_envs)) b.(bs_workdir) b.(bs_user))
  | Workdir =>
      path ← step_arg st 0 "WORKDIR step is missing path";
      workdir ← lift (rooted_child_path artifact path "template WORKDIR");
      _ ← create_dir_all workdir "create template WORKDIR";
      mret (mk_build_state b.(bs_envs) workdir b.(bs_user))
  | Run =>
      command ← step_arg st 0 "RUN step is missing command";
      _ ← run_host_template_command command b.(bs_workdir) b.(bs_envs) b.(bs_user);
      mret b
  | User =>
      user ← step_arg st 0 "USER step is missing user";
      mret (mk_build_state b.(bs_envs) b.(bs_workdir) (Some user))
  end.
Fixpoint build_steps (artifact : string) (files : strmap Bytes) (sts : list TemplateStep) (b : BuildState) : HRM BuildState :=
  match sts with [] => mret b | st :: sts => b ← build_step artifact files st b; build_steps artifact files sts b end.
Definition build_template (rq : RuntimeTemplateBuild) : HRM PreparedTemplate :=
  let artifact := host_template_artifact_path rq.(rb_template_id) rq.(rb_build_id) in
  _ ← remove_existing_mount_path artifact;
  _ ← create_dir_all artifact "create host template";
  b ← build_steps artifact rq.(rb_uploaded_files) rq.(rb_start).(steps) (mk_build_state ∅ artifact None);
  _ ← write_host_template_metadata artifact (mk_template_metadata b.(bs_envs) rq.(rb_start).(start_cmd) rq.(rb_start).(ready_cmd));
  mret (mk_prepared rq.(rb_template_id) rq.(rb_build_id) artifact true None).

(** ** Pods *)
Definition create_host_pod_container (pod_id : string) (rq : PodContainerCreateRequest) : HRM PodContainerInfo :=
  container_root ← lift (host_pod_container_path pod_id rq.(pc_name));
  e ← ask (HcExists container_root);
  if e : bool then throw (AlreadyExists rq.(pc_name))
  else
    _ ← create_dir_all container_root "create host pod container";
    _ ← hc (HcWrite (path_join container_root "template_id") (bytes_of rq.(pc_template_id))) (fun r => r) "write host pod container metadata";
    mret (running rq).
Fixpoint create_empty_dirs (base : string) (volumes : list PodEmptyDir) : HRM unit :=
  match volumes with
  | [] => mret tt
  | v :: vs =>
      p ← lift (rooted_child_path base v.(empty_dir_name) "pod emptyDir name");
      _ ← create_dir_all p "create host pod emptyDir";
      create_empty_dirs base vs
  end.
Fixpoint create_pod_containers (pod_id : string) (cs : list PodContainerCreateRequest) (paths : strmap string) : HRM (list PodContainerInfo * strmap string) :=
  match cs with
  | [] => mret ([], paths)
  | c :: cs =>
      info ← create_host_pod_container pod_id c;
      p ← lift (host_pod_container_path pod_id c.(pc_name));
      '(infos, paths) ← create_pod_containers pod_id cs (<[c.(pc_name) := p]> paths);
      mret (info :: infos, paths)
  end.
Definition next_pod_id : HRM string :=
  s ← gets run_state;
  let n := Z.max (sat_add 64 s.(hrs_next_pod) 1) 1 in
  _ ← hmodify (fun s => mk_runtime_state s.(hrs_next_sandbox) n s.(hrs_sandboxes) s.(hrs_pods));
  mret ("pod_host_" +:+ print_dec n).
Definition start_pod (rq : StartPodRequest) : HRM RuntimePod :=
  let create := rq.(sp_create_request) in
  _ ← create_dir_all (path_join root "pods") "create host pod root";
  pod_id ← (match create.(pr_pod_id) with Some id => mret id | None => next_pod_id end);
  pod_root ← lift (host_pod_path pod_id);
  e ← ask (HcExists pod_root);
  if e : bool then throw (AlreadyExists pod_id)
  else
    _ ← create_dir_all (path_join pod_root "emptydir") "create host pod emptyDir root";
    _ ← create_empty_dirs (path_join pod_root "emptydir") create.(pr_empty_dirs);
    _ ← create_dir_all (path_join pod_root "containers") "create host pod containers root";
    '(infos, paths) ← create_pod_containers pod_id create.(pr_containers) ∅;
    times ← timestamps (match create.(pr_timeout) with Some t => Some t | None => Some 300 end);
    _ ← hmodify (fun s => set_pods (<[pod_id := mk_host_pod pod_root paths]> s.(hrs_pods)) s);
    mret (mk_runtime_pod (mk_pod_config pod_id times.1 times.2) infos).
Definition find_pod (pod_id : string) : HRM HostRuntimePod := s ← gets run_state; lift (ok_or (NotFound pod_id) (s.(hrs_pods) !! pod_id)).
Definition stop_pod (pod_id : string) : HRM unit :=
  pod ← find_pod pod_id;
  _ ← hmodify (fun s => set_pods (delete pod_id s.(hrs_pods)) s);
  hc (HcRemoveDirAll pod.(hpd_root)) (fun r => r) "remove host pod root".
Definition add_pod_container (pod_id : string) (rq : PodContainerCreateRequest) : HRM PodContainerInfo :=
  pod ← find_pod pod_id;
  if decide (is_Some (pod.(hpd_containers) !! rq.(pc_name))) then throw (AlreadyExists rq.(pc_name))
  else
    info ← create_host_pod_container pod_id rq;
    pod ← find_pod pod_id;
    p ← lift (host_pod_container_path pod_id rq.(pc_name));
    _ ← hmodify (fun s => set_pods (<[pod_id := mk_host_pod pod.(hpd_root) (<[rq.(pc_name) := p]> pod.(hpd_containers))]> s.(hrs_pods)) s);
    mret info.
Definition remove_pod_container (pod_id name : string) : HRM unit :=
  pod ← find_pod pod_id;
  p ← lift (ok_or (NotFound name) (pod.(hpd_containers) !! name));
  _ ← hmodify (fun s => set_pods (<[pod_id := mk_host_pod pod.(hpd_root) (delete name pod.(hpd_containers))]> s.(hrs_pods)) s);
  hc (HcRemoveDirAll p) (fun r => r) "remove host pod container".
#[global] Instance host_runtime_adapter : RuntimeAdapter (HostRun W) := {|
  ra_preflight := preflight;
  ra_prepare_template := prepare_template;
  ra_build_template := build_template;
  ra_start := start;
  ra_start_followup := start_followup;
  ra_start_pod := start_pod;
  ra_stop_pod := stop_pod;
  ra_add_pod_container := add_pod_container;
  ra_remove_pod_container := remove_pod_container;
  ra_wait_pod_container := default_wait_pod_container;
  ra_stop := stop;
  ra_pause := pause;
  ra_resume := resume;
  ra_snapshot := snapshot;
  ra_delete_snapshot := delete_snapshot;
  ra_metrics := metrics;
  ra_logs := logs;
  ra_apply_network := apply_network;
  ra_port_target := port_target
|}.
End Adapter.
