(* ===== verification/HostRuntimeInv.v ===== *)
(** * What the host runtime adapter promises ([crates/e2b-server/src/backend.rs])

    The jobs of the adapter and the sandboxes that own them, over any sequence
    of calls after a restore, and what every call of a runtime adapter does to
    the sandboxes it has, failing calls included.  Outcomes are triples over jobs, handles and
    state; calls that only ask the host are skipped. *)
From S2P Require Import Prelude BTree Types Ext4Path Ext4Writer HostPaths HostFs ArtifactFiles E2bRoutes E2bRegistry E2bWire RuntimeRestore EnvdHttp EnvdHost Envd DomainProxy E2bServer HostRuntime E2bServerInv.
Import Hostnames Network.
#[local] Existing Instances ST_ret ST_bind.

Section Proofs.
Context {W : Type} `{HostRt W} `{Serde HostTemplateMetadata}.
Context (root domain : string) (rfc3339 : Z -> string) (lossy : list Z -> string) (copy_fuel : nat).
Implicit Types y : HostRun W.
Abbreviation HRM := (ST (HostRun W) BackendError).

(** ** Computations that only ask the host *)
Definition core y : gmap nat Job * nat * HostRuntimeState := (y.(run_jobs), y.(run_next), y.(run_state)).
Definition quiet {A} (m : HRM A) : Prop := forall k, keeps (fun y => core y = k) m.
Lemma quiet_core {A} (m : HRM A) y : quiet m -> core (m y).1 = core y.
Proof. intros Hm. exact (Hm (core y) y eq_refl). Qed.
Lemma host_quiet_ask c : quiet (ask c : HRM _).
Proof. intros k y <-. unfold ask. by destruct (host c (run_world y)). Qed.
Lemma quiet_hc {A} c (get : host_answer c -> result host_error A) what : quiet (hc c get what : HRM A).
Proof. intros k. apply st_keeps_bind; [apply host_quiet_ask|]. intros. apply st_keeps_lift. Qed.
Lemma quiet_keeps {A} (m : HRM A) k : quiet m -> keeps (fun y => core y = k) m.
Proof. intros Hm. apply Hm. Qed.
#[local] Hint Resolve host_quiet_ask quiet_hc quiet_keeps : keeps.
#[local] Hint Extern 1 (keeps _ (ask ?c)) => exact (host_quiet_ask c _) : keeps.
#[local] Hint Extern 1 (keeps _ (hc ?c ?g ?m)) => exact (quiet_hc c g m _) : keeps.
Ltac quiet := intros ?; keeps.
Lemma quiet_create p what : quiet (create_dir_all p what : HRM _).
Proof. apply quiet_hc. Qed.
#[local] Hint Resolve quiet_create : keeps.
Lemma quiet_parent p what : quiet (parent_dir p what : HRM _).
Proof. unfold parent_dir. quiet. Qed.
Lemma quiet_remove_existing p : quiet (remove_existing_mount_path p : HRM _).
Proof. unfold remove_existing_mount_path. quiet. Qed.
#[local] Hint Resolve quiet_parent quiet_remove_existing : keeps.
Lemma host_quiet_copy fuel source destination : quiet (copy_host_path fuel source destination : HRM _).
Proof.
  revert source destination. induction fuel as [|fuel IH]; intros source destination; cbn [copy_host_path]; [quiet|].
  quiet. match goal with |- keeps _ (_ ?l) => rename l into names end. induction names as [|[n|e] names IHn]; cbn; keeps.
Qed.
#[local] Hint Resolve host_quiet_copy : keeps.
Lemma quiet_copy_contents source destination : quiet (copy_host_directory_contents copy_fuel source destination : HRM _).
Proof. unfold copy_host_directory_contents. quiet. Qed.
Lemma quiet_run c d envs u : quiet (run_host_template_command lossy c d envs u : HRM _).
Proof. unfold run_host_template_command. quiet. Qed.
Lemma quiet_archive a s d art : quiet (apply_copy_archive_to_artifact copy_fuel a s d art : HRM _).
Proof. unfold apply_copy_archive_to_artifact. quiet. Qed.
Lemma quiet_write_metadata a m : quiet (write_host_template_metadata a m : HRM _).
Proof. unfold write_host_template_metadata. quiet. Qed.
Lemma quiet_read_metadata a : quiet (read_host_template_metadata a : HRM _).
Proof. unfold read_host_template_metadata. quiet. Qed.
Lemma quiet_timestamps t : quiet (timestamps rfc3339 t : HRM _).
Proof. unfold timestamps. quiet. Qed.
Lemma quiet_attach sr ms : quiet (attach_host_volumes root sr ms : HRM _).
Proof. induction ms as [|m ms IH]; cbn [attach_host_volumes]; unfold attach_host_volume; quiet. Qed.
Lemma quiet_find id : quiet (find_sandbox id : HRM _).
Proof. unfold find_sandbox. quiet. Qed.
Lemma quiet_find_pod id : quiet (find_pod id : HRM _).
Proof. unfold find_pod. quiet. Qed.
Lemma quiet_pod_container id rq : quiet (create_host_pod_container root id rq : HRM _).
Proof. unfold create_host_pod_container. quiet. Qed.
#[local] Hint Resolve quiet_copy_contents quiet_run quiet_archive quiet_write_metadata quiet_read_metadata quiet_timestamps quiet_attach
  quiet_find quiet_find_pod quiet_pod_container : keeps.
Lemma quiet_build_step art files st b : quiet (build_step lossy copy_fuel art files st b : HRM _).
Proof. unfold build_step, step_arg. quiet. Qed.
Lemma quiet_build_steps art files sts b : quiet (build_steps lossy copy_fuel art files sts b : HRM _).
Proof. revert b. induction sts as [|st sts IH]; intros b; cbn [build_steps]; quiet. apply quiet_build_step. Qed.
#[local] Hint Resolve quiet_build_steps : keeps.
Lemma quiet_build rq : quiet (build_template root lossy copy_fuel rq : HRM _).
Proof. unfold build_template. quiet. Qed.
Lemma quiet_snapshot id name : quiet (snapshot root copy_fuel id name : HRM _).
Proof. unfold snapshot. quiet. Qed.
Lemma quiet_delete_snapshot id : quiet (delete_snapshot root id : HRM _).
Proof. unfold delete_snapshot. quiet. Qed.
Lemma quiet_metrics id : quiet (metrics rfc3339 id : HRM _).
Proof. unfold metrics. quiet. Qed.
Lemma quiet_logs id : quiet (logs rfc3339 lossy id : HRM _).
Proof. unfold logs. quiet. Qed.
Lemma quiet_port id p : quiet (port_target id p : HRM _).
Proof. unfold port_target. quiet. Qed.

(** ** Outcomes
    [triple k m Q R]: run where the jobs, the next handle and the state are [k],
    [m] succeeds as [Q] says or fails as [R] says. *)
Definition Core : Type := gmap nat Job * nat * HostRuntimeState.
Definition outcome {A} (Q : A -> Core -> Prop) (R : BackendError -> Core -> Prop) (o : HostRun W * result BackendError A) : Prop :=
  match o.2 with Ok a => Q a (core o.1) | Err e => R e (core o.1) end.
Definition triple {A} (k : Core) (m : HRM A) (Q : A -> Core -> Prop) (R : BackendError -> Core -> Prop) : Prop :=
  forall y, core y = k -> outcome Q R (m y).
Lemma host_triple_bind {A B} k (m : HRM A) (f : A -> HRM B) Q' Q R :
  triple k m Q' R -> (forall a k', Q' a k' -> triple k' (f a) Q R) -> triple k (m ≫= f) Q R.
Proof.
  intros Hm Hf y Hy. specialize (Hm y Hy). unfold outcome in Hm. unfold mbind, ST_bind.
  destruct (m y) as [y' [a|e]]; [exact (Hf a (core y') Hm y' eq_refl)|exact Hm].
Qed.
Lemma triple_quiet {A} k (m : HRM A) (Q : A -> Core -> Prop) (R : BackendError -> Core -> Prop) :
  quiet m -> (forall a, Q a k) -> (forall e, R e k) -> triple k m Q R.
Proof. intros Hm HQ HR y Hy. pose proof (quiet_core m y Hm) as Hc. unfold outcome. rewrite Hc, Hy. destruct (m y).2; auto. Qed.
(** Skip a computation that only asks the host. *)
Lemma triple_skip {A B} k (m : HRM A) (f : A -> HRM B) Q (R : BackendError -> Core -> Prop) :
  quiet m -> (forall e, R e k) -> (forall a, triple k (f a) Q R) -> triple k (m ≫= f) Q R.
Proof. intros Hm HR Hf. apply (host_triple_bind k m f (fun _ k' => k' = k)); [by apply triple_quiet|]. intros a k' ->. apply Hf. Qed.
Lemma host_triple_conseq {A} k (m : HRM A) (Q Q' : A -> Core -> Prop) (R R' : BackendError -> Core -> Prop) :
  triple k m Q' R' -> (forall a k', Q' a k' -> Q a k') -> (forall e k', R' e k' -> R e k') -> triple k m Q R.
Proof. intros Hm HQ HR y Hy. specialize (Hm y Hy). unfold outcome in *. destruct (m y).2; auto. Qed.
Lemma host_triple_ret {A} k (a : A) (Q : A -> Core -> Prop) R : Q a k -> triple k (mret a : HRM A) Q R.
Proof. by intros HQ y <-. Qed.
Lemma triple_throw {A} k e (Q : A -> Core -> Prop) (R : BackendError -> Core -> Prop) : R e k -> triple k (throw e : HRM A) Q R.
Proof. by intros HQ y <-. Qed.
Lemma host_triple_state {A} k (f : HostRuntimeState -> HRM A) Q R :
  triple k (f k.2) Q R -> triple k (gets run_state ≫= f) Q R.
Proof. intros Hf y <-. by apply Hf. Qed.
Lemma triple_modify {A} J n s g (f : unit -> HRM A) Q R :
  triple (J, n, g s) (f tt) Q R -> triple (J, n, s) (hmodify g ≫= f) Q R.
Proof. intros Hf y Hy. unfold core in Hy. simplify_eq. by apply Hf. Qed.
Lemma triple_job {A} J n s j (f : nat -> HRM A) Q R :
  triple (<[n := j]> J, S n, s) (f n) Q R -> triple (J, n, s) (run_job j ≫= f) Q R.
Proof. intros Hf y Hy. unfold core in Hy. simplify_eq. by apply Hf. Qed.
Lemma triple_end {A} J n s h (f : unit -> HRM A) Q R :
  triple (delete h J, n, s) (f tt) Q R -> triple (J, n, s) (end_job h ≫= f) Q R.
Proof. intros Hf y Hy. unfold core in Hy. simplify_eq. by apply Hf. Qed.
Lemma triple_run {A} k (m : HRM A) Q R y : triple k m Q R -> core y = k -> outcome Q R (m y).
Proof. auto. Qed.
Lemma triple_find {A} k id (f : HostRuntimeSandbox -> HRM A) Q (R : BackendError -> Core -> Prop) :
  (forall sb, k.2.(hrs_sandboxes) !! id = Some sb -> triple k (f sb) Q R) ->
  (k.2.(hrs_sandboxes) !! id = None -> R (NotFound id) k) -> triple k (find_sandbox id ≫= f) Q R.
Proof.
  intros Hf HR y <-. unfold find_sandbox, mbind, ST_bind, gets, lift. cbn [core snd] in *.
  destruct (hrs_sandboxes (run_state y) !! id) as [sb|]; cbn [ok_or]; [by apply (Hf sb)|by apply HR].
Qed.

(** ** Ending jobs *)
Definition forget (hs : list nat) (J : gmap nat Job) : gmap nat Job := fold_left (fun J h => delete h J) hs J.
Lemma forget_lookup hs J h : forget hs J !! h = if decide (h ∈ hs) then None else J !! h.
Proof.
  revert J. induction hs as [|x hs IH]; intros J; cbn.
  { by rewrite decide_False by apply not_elem_of_nil. }
  fold (forget hs (delete x J)). rewrite IH. destruct (decide (h ∈ hs)) as [Hi|Hi]; [by rewrite decide_True by by right|].
  destruct (decide (h = x)) as [->|Hx]; [by rewrite decide_True, lookup_delete_eq by by left|].
  rewrite decide_False, lookup_delete_ne by (done || by intros [?|?]%elem_of_cons). done.
Qed.
Definition handles (sb : HostRuntimeSandbox) : list nat :=
  sb.(hr_envd_task) :: sb.(hr_code_interpreter_task) :: sb.(hr_mcp_task) :: sb.(hr_start_children).
Lemma kill_spec J n s hs Q R : Q tt (forget hs J, n, s) -> triple (J, n, s) (kill_host_template_children hs) Q R.
Proof.
  revert J. induction hs as [|h hs IH]; intros J HQ; cbn [kill_host_template_children]; [by apply host_triple_ret|].
  intros y Hy. unfold mbind, ST_bind, ask. destruct (host (HcKill h) (run_world y)) as [w r].
  unfold core in Hy. simplify_eq. by apply (IH (delete h (run_jobs y)) HQ (mk_run w (delete h (run_jobs y)) (run_next y) (run_state y))).
Qed.
Lemma services_spec J n s sb Q R : Q tt (forget (handles sb) J, n, s) -> triple (J, n, s) (stop_host_runtime_sandbox_services sb) Q R.
Proof. intros HQ. unfold stop_host_runtime_sandbox_services. do 3 apply triple_end. by apply kill_spec. Qed.

(** ** What runs for a sandbox *)
Definition serves (id : string) (sb : HostRuntimeSandbox) (J : gmap nat Job) : Prop :=
  sb.(hr_root) = path_join root id /\
  J !! sb.(hr_envd_task) = Some (EnvdServer sb.(hr_envd_port) sb.(hr_root)) /\
  J !! sb.(hr_code_interpreter_task) = Some (Probe "code-interpreter" sb.(hr_code_interpreter_port) id) /\
  J !! sb.(hr_mcp_task) = Some (Probe "mcp" sb.(hr_mcp_port) id) /\
  Forall (fun h => exists c, J !! h = Some (StartCommand c)) sb.(hr_start_children).
Lemma serves_live id sb J h : serves id sb J -> h ∈ handles sb -> is_Some (J !! h).
Proof.
  intros (_ & H1 & H2 & H3 & H4) Hin. unfold handles in Hin. rewrite !elem_of_cons in Hin. rewrite Forall_forall in H4.
  destruct Hin as [->|[->|[->|Hin]]]; [by eexists..|]. destruct (H4 h Hin). by eexists.
Qed.
Lemma serves_same id sb J J' : serves id sb J -> (forall h, h ∈ handles sb -> J' !! h = J !! h) -> serves id sb J'.
Proof.
  intros (Hr & H1 & H2 & H3 & H4) Hs. unfold handles in Hs. split; [done|]. rewrite !Hs by (rewrite !elem_of_cons; tauto).
  split; [done|]. split; [done|]. split; [done|]. rewrite Forall_forall in *. intros h Hh. destruct (H4 h Hh) as [c Hc]. exists c.
  by rewrite Hs by (rewrite !elem_of_cons; tauto).
Qed.
Record JobsOk (k : Core) : Prop := {
  wf_fresh h : is_Some (k.1.1 !! h) -> (h < k.1.2)%nat;
  wf_serves id sb : k.2.(hrs_sandboxes) !! id = Some sb -> serves id sb k.1.1;
  wf_own id id' sb sb' h : k.2.(hrs_sandboxes) !! id = Some sb -> k.2.(hrs_sandboxes) !! id' = Some sb' ->
    h ∈ handles sb -> h ∈ handles sb' -> id = id'
}.
Record Wf (k : Core) : Prop := {
  wf_jobs :> JobsOk k;
  wf_ids id n : is_Some (k.2.(hrs_sandboxes) !! id) -> host_number id = Some n -> n <= k.2.(hrs_next_sandbox);
  wf_next : in_uint 64 k.2.(hrs_next_sandbox)
}.
(** No job runs that no sandbox owns. *)
Definition no_strays (k : Core) : Prop :=
  forall h, is_Some (k.1.1 !! h) -> exists id sb, k.2.(hrs_sandboxes) !! id = Some sb /\ h ∈ handles sb.
(** A failing call leaves the jobs there were; new ones may have been started. *)
Definition only_new (k k' : Core) : Prop :=
  (k.1.2 <= k'.1.2)%nat /\ (forall h, is_Some (k.1.1 !! h) -> k'.1.1 !! h = k.1.1 !! h) /\
  (forall h, is_Some (k'.1.1 !! h) -> is_Some (k.1.1 !! h) \/ (h < k'.1.2)%nat).
Definition leak (e : BackendError) : Prop :=
  exists what x, what ∈ ["code-interpreter"; "MCP"]%string /\
    (e = EnvdHost.runtime ("bind host " +:+ what +:+ " listener") x \/ e = EnvdHost.runtime ("read host " +:+ what +:+ " listener") x).
(** The sandbox of a successful start: its handles are the new ones, and those of
    a sandbox it replaces are gone. *)
Definition opened (id : string) (sb : HostRuntimeSandbox) (k k' : Core) : Prop :=
  (k.1.2 <= k'.1.2)%nat /\ serves id sb k'.1.1 /\ (forall h, h ∈ handles sb -> (h < k'.1.2)%nat /\ k.1.1 !! h = None) /\
  (forall h, h ∉ handles sb -> k'.1.1 !! h = forget (from_option handles [] (k.2.(hrs_sandboxes) !! id)) k.1.1 !! h) /\
  k'.2.(hrs_sandboxes) = <[id := sb]> k.2.(hrs_sandboxes).
Lemma triple_bind_service {A} J n s what job (f : Z * nat -> HRM A) Q (R : BackendError -> Core -> Prop) :
  (forall e, R (EnvdHost.runtime ("bind host " +:+ what +:+ " listener") e) (J, n, s)) ->
  (forall e, R (EnvdHost.runtime ("read host " +:+ what +:+ " listener") e) (J, n, s)) ->
  (forall p, triple (<[n := job p]> J, S n, s) (f (p, n)) Q R) -> triple (J, n, s) (bind_service what job ≫= f) Q R.
Proof.
  intros HR HR' Hf y Hy. unfold bind_service, hc, mbind, ST_bind, lift, ask. destruct (host HcBind (run_world y)) as [w [l|e]]; cbn [map_err].
  - cbn [with_world run_world]. destruct (host (HcLocalAddr l) w) as [w' [p|e]]; cbn [map_err].
    + unfold core in Hy. simplify_eq. by apply (Hf p (mk_run w' (<[run_next y := job p]> (run_jobs y)) (S (run_next y)) (run_state y))).
    + rewrite <- Hy in HR'. exact (HR' e).
  - rewrite <- Hy in HR. exact (HR e).
Qed.
(** The jobs after the three services of a sandbox are up. *)
Definition three (id : string) (ep cp mp : Z) (n : nat) (J : gmap nat Job) : gmap nat Job :=
  <[S (S n) := Probe "mcp" mp id]> (<[S n := Probe "code-interpreter" cp id]> (<[n := EnvdServer ep (path_join root id)]> J)).
Lemma three_lookup id ep cp mp n J h : h <> n -> h <> S n -> h <> S (S n) -> three id ep cp mp n J !! h = J !! h.
Proof. intros. unfold three. by rewrite !lookup_insert_ne by congruence. Qed.
Lemma insert_new J n s m j : (forall h, is_Some (J !! h) -> (h < n)%nat) -> (n <= m)%nat -> only_new (J, n, s) (<[m := j]> J, S m, s).
Proof.
  intros Hf Hm. split; [cbn; lia|]. cbn [fst snd]. split.
  - intros h Hh. specialize (Hf h Hh). by rewrite lookup_insert_ne by lia.
  - intros h Hh. destruct (decide (h = m)) as [->|Hne]; [right; lia|]. rewrite lookup_insert_ne in Hh by done. by left.
Qed.
Lemma insert_two J n s c d : (forall h, is_Some (J !! h) -> (h < n)%nat) -> only_new (J, n, s) (<[S n := d]> (<[n := c]> J), S (S n), s).
Proof.
  intros Hf. split; [cbn; lia|]. cbn [fst snd]. split.
  - intros h Hh. specialize (Hf h Hh). by rewrite !lookup_insert_ne by lia.
  - intros h Hh. destruct (decide (h = n)) as [->|]; [right; lia|]. destruct (decide (h = S n)) as [->|]; [right; lia|].
    rewrite !lookup_insert_ne in Hh by done. by left.
Qed.
Lemma only_new_refl k : only_new k k.
Proof. repeat split; auto. Qed.
Lemma envd_spec id paused envs mounts children J n s :
  (forall h, is_Some (J !! h) -> (h < n)%nat) ->
  (forall h, h ∈ children -> exists c, J !! h = Some (StartCommand c)) ->
  (forall p h, s.(hrs_sandboxes) !! id = Some p -> h ∈ handles p -> (h < n)%nat /\ h ∉ children) ->
  triple (J, n, s) (start_envd_for_sandbox root id paused envs mounts children)
    (fun _ k' => exists sb, k'.2 = set_sandboxes (<[id := sb]> s.(hrs_sandboxes)) s /\ sb.(hr_paused) = paused /\ sb.(hr_start_children) = children /\
       serves id sb k'.1.1 /\ (forall h, h ∈ handles sb -> (h < k'.1.2)%nat /\ (h ∈ children \/ J !! h = None)) /\ (n <= k'.1.2)%nat /\
       (forall h, h ∉ handles sb -> k'.1.1 !! h = forget (from_option handles [] (s.(hrs_sandboxes) !! id)) J !! h))
    (fun e k' => k'.2 = s /\ only_new (J, n, s) k' /\ (leak e \/ k'.1.1 = J)).
Proof.
  intros Hf Hc Hp. unfold start_envd_for_sandbox.
  assert (Hnew : forall m, (n <= m)%nat -> J !! m = None).
  { intros m Hm. destruct (J !! m) eqn:E; [|done]. specialize (Hf m). rewrite E in Hf. specialize (Hf ltac:(eauto)). lia. }
  assert (Hsame : forall e, (J, n, s).2 = s /\ only_new (J, n, s) (J, n, s) /\ (leak e \/ (J, n, s).1.1 = J)).
  { intros e. split; [done|]. split; [apply only_new_refl|]. by right. }
  apply triple_skip; [apply quiet_create|done|]. intros _. apply triple_skip; [apply quiet_attach|done|]. intros _.
  apply triple_skip; [apply quiet_create|done|]. intros _.
  apply triple_bind_service; [intros; apply Hsame..|]. intros ep.
  assert (Hl1 : forall e c, leak e -> let k := (<[n := c]> J, S n, s) in k.2 = s /\ only_new (J, n, s) k /\ (leak e \/ k.1.1 = J)).
  { intros e c He k. split; [done|]. split; [by apply insert_new|by left]. }
  apply triple_bind_service; [intros e; apply Hl1; exists "code-interpreter"%string, e; (split; [by left|auto])..|].
  intros cp.
  assert (Hl2 : forall e c d, leak e -> let k := (<[S n := d]> (<[n := c]> J), S (S n), s) in k.2 = s /\ only_new (J, n, s) k /\ (leak e \/ k.1.1 = J)).
  { intros e c d He k. split; [done|]. split; [|by left]. by apply insert_two. }
  apply triple_bind_service; [intros e; apply Hl2; exists "MCP"%string, e; (split; [right; by left|auto])..|].
  intros mp. apply host_triple_state. cbn [snd]. apply triple_modify.
  fold (three id ep cp mp n J).
  set (sb := mk_host_sandbox _ _ _ _ _ _ _ _ _ _ _).
  assert (Hprev : forall Q R, Q tt (forget (from_option handles [] (s.(hrs_sandboxes) !! id)) (three id ep cp mp n J), S (S (S n)), set_sandboxes (<[id := sb]> s.(hrs_sandboxes)) s) ->
    triple (three id ep cp mp n J, S (S (S n)), set_sandboxes (<[id := sb]> s.(hrs_sandboxes)) s)
      (match s.(hrs_sandboxes) !! id with Some p => stop_host_runtime_sandbox_services p | None => mret tt end) Q R).
  { intros Q R HQ. destruct (hrs_sandboxes s !! id); [by apply services_spec|by apply host_triple_ret]. }
  assert (Hkeep : forall h, (n <= h)%nat \/ h ∈ children -> forget (from_option handles [] (s.(hrs_sandboxes) !! id)) (three id ep cp mp n J) !! h = three id ep cp mp n J !! h).
  { intros h Hh. rewrite forget_lookup, decide_False; [done|]. destruct (hrs_sandboxes s !! id) as [p|] eqn:E; cbn; [|apply not_elem_of_nil].
    intros Hin. destruct (Hp p h eq_refl Hin). destruct Hh; [lia|done]. }
  apply (host_triple_bind _ _ _ (fun _ k' => k' = (forget (from_option handles [] (s.(hrs_sandboxes) !! id)) (three id ep cp mp n J), S (S (S n)),
    set_sandboxes (<[id := sb]> s.(hrs_sandboxes)) s))); [by apply Hprev|]. intros _ k' ->. apply host_triple_ret.
  exists sb. split; [done|]. split; [done|]. split; [done|]. cbn [fst snd].
  split; [|split; [|split; [lia|]]].
  - split; [done|]. unfold sb; cbn [hr_envd_task hr_code_interpreter_task hr_mcp_task hr_start_children hr_envd_port hr_root hr_code_interpreter_port hr_mcp_port].
    rewrite !Hkeep by (left; lia). unfold three at 1 2 3. split; [by rewrite !lookup_insert_ne, lookup_insert_eq by lia|].
    split; [by rewrite lookup_insert_ne, lookup_insert_eq by lia|]. split; [by rewrite lookup_insert_eq|].
    apply Forall_forall. intros h Hh. rewrite Hkeep by by right. destruct (Hc h Hh) as [c Hc']. exists c.
    assert (h < n)%nat by (apply Hf; eauto). rewrite three_lookup by lia. done.
  - intros h Hh. unfold sb, handles in Hh; cbn [hr_envd_task hr_code_interpreter_task hr_mcp_task hr_start_children] in Hh.
    rewrite !elem_of_cons in Hh. destruct Hh as [->|[->|[->|Hh]]]; [split; [lia|right; apply Hnew; lia]..|].
    split; [|by left]. destruct (Hc h Hh) as [c Hc']. assert (h < n)%nat by (apply Hf; eauto). lia.
  - intros h Hh. unfold sb, handles in Hh; cbn [hr_envd_task hr_code_interpreter_task hr_mcp_task hr_start_children] in Hh.
    rewrite !not_elem_of_cons in Hh. rewrite !forget_lookup, three_lookup by tauto. done.
Qed.

(** ** Starting *)
Definition next_number (s : HostRuntimeState) : Z := Z.max (sat_add 64 s.(hrs_next_sandbox) 1) 1.
(** A failing start leaves the sandboxes; a server it had started stays when
    the port of a later one cannot be bound. *)
Definition failed (k : Core) (e : BackendError) (k' : Core) : Prop :=
  k'.2.(hrs_sandboxes) = k.2.(hrs_sandboxes) /\ k.2.(hrs_next_sandbox) <= k'.2.(hrs_next_sandbox) <= next_number k.2 /\
  only_new k k' /\ (leak e \/ k'.1.1 = k.1.1).
Definition late (e : BackendError) : Prop := e = Runtime "sandbox timeout is too large" \/ e = time_panic.
Definition host_id (n : Z) : string := "sbx_host_" +:+ print_dec n.
Definition bump (s : HostRuntimeState) : HostRuntimeState := mk_runtime_state (next_number s) s.(hrs_next_pod) s.(hrs_sandboxes) s.(hrs_pods).
Lemma host_number_id n : in_uint 64 n -> host_number (host_id n) = Some n.
Proof. intros Hn. unfold host_number, host_id. rewrite strip_prefix_app. cbn. by apply parse_uint_print. Qed.
Lemma fresh_id k : Wf k -> k.2.(hrs_next_sandbox) < 2 ^ 64 - 1 -> k.2.(hrs_sandboxes) !! host_id (next_number k.2) = None.
Proof.
  intros Hk Hn. destruct (hrs_sandboxes k.2 !! _) eqn:E; [|done]. pose proof (wf_next _ Hk) as Hu.
  assert (next_number k.2 = hrs_next_sandbox k.2 + 1) as Hnn by (unfold next_number, sat_add, max_uint, in_uint in *; lia).
  pose proof (wf_ids _ Hk (host_id (next_number k.2)) (next_number k.2) ltac:(eauto)) as Hle.
  rewrite host_number_id in Hle by (unfold in_uint in *; lia). specialize (Hle eq_refl). lia.
Qed.
Lemma triple_or_kill {A} k children (m : HRM A) Q R :
  triple k m Q (fun e k' => R e (forget children k'.1.1, k'.1.2, k'.2)) -> triple k (or_kill children m) Q R.
Proof.
  intros Hm y Hy. specialize (Hm y Hy). unfold or_kill. destruct (m y) as [y' [a|e]]; [done|].
  pose proof (kill_spec (run_jobs y') (run_next y') (run_state y') children
    (fun _ k' => k' = (forget children (run_jobs y'), run_next y', run_state y')) (fun _ _ => False) eq_refl y' eq_refl) as Hk.
  unfold outcome in *. destruct (kill_host_template_children children y') as [y2 [[]|e2]]; cbn in *; [|done]. by rewrite Hk.
Qed.
(** The jobs once the start command runs, as [boot] finds them. *)
Definition with_children (J : gmap nat Job) (n : nat) (children : list nat) (J2 : gmap nat Job) (n2 : nat) : Prop :=
  (n <= n2)%nat /\ (forall h, is_Some (J2 !! h) -> (h < n2)%nat) /\
  (forall h, h ∈ children -> J !! h = None /\ exists c, J2 !! h = Some (StartCommand c)) /\
  (forall h, h ∉ children -> J2 !! h = J !! h).
Lemma kill_restores J n children J2 n2 : with_children J n children J2 n2 -> forget children J2 = J.
Proof.
  intros (_ & _ & Hc & Ho). apply map_eq. intros h. rewrite forget_lookup. case_decide as Hh; [|by apply Ho]. symmetry. by apply Hc.
Qed.
Lemma kill_only_new J n s children J2 n2 s' k' : with_children J n children J2 n2 -> only_new (J2, n2, s) k' ->
  only_new (J, n, s') (forget children k'.1.1, k'.1.2, k'.2).
Proof.
  intros (Hn & Hf & Hc & Ho) (Hn' & Hk & Hl). cbn [fst snd] in *. split; [cbn; lia|]. cbn [fst snd]. split.
  - intros h Hh. rewrite forget_lookup. case_decide as Hin; [destruct (Hc h Hin) as [E _]; rewrite E in Hh; by destruct Hh|].
    rewrite Hk; [by apply Ho|]. by rewrite Ho.
  - intros h Hh. rewrite forget_lookup in Hh. case_decide as Hin; [by destruct Hh|]. destruct (Hl h Hh) as [Hh'|]; [|by right].
    left. by rewrite <- Ho.
Qed.
Definition started_as (k : Core) (id : string) (k' : Core) : Prop :=
  exists sb, opened id sb k k' /\ sb.(hr_paused) = false /\ k'.2.(hrs_next_sandbox) = next_number k.2.
Lemma boot_spec rq ready envs children J n s J2 n2 :
  with_children J n children J2 n2 -> s.(hrs_sandboxes) !! host_id (next_number s) = None -> in_uint 64 s.(hrs_next_sandbox) ->
  triple (J2, n2, bump s) (boot root domain rfc3339 lossy rq (host_id (next_number s)) ready envs children)
    (fun rt k' => rt.(rs_config).(rc_sandbox_id) = host_id (next_number s) /\ started_as (J, n, s) (host_id (next_number s)) k')
    (fun e k' => (late e /\ started_as (J, n, s) (host_id (next_number s)) k') \/ failed (J, n, s) e k').
Proof.
  intros Hw Hid Hu. unfold boot. set (R := fun e k' => _ \/ _).
  assert (HR : forall e k', only_new (J2, n2, bump s) k' -> k'.2 = bump s -> leak e \/ k'.1.1 = J2 -> R e (forget children k'.1.1, k'.1.2, k'.2)).
  { intros e k' Ho E Hl. right. rewrite E. unfold failed. cbn [fst snd hrs_sandboxes hrs_next_sandbox bump].
    split; [done|]. split; [unfold next_number, sat_add, max_uint, in_uint in *; lia|]. split; [rewrite <- E; by eapply kill_only_new|].
    destruct Hl as [?| ->]; [by left|right]. by eapply kill_restores. }
  apply (host_triple_bind _ _ _ (fun _ k' => k' = (J2, n2, bump s))).
  { destruct ready; [|by apply host_triple_ret]. apply triple_or_kill, triple_quiet; [apply quiet_run|done|].
    intros e. apply HR; [apply only_new_refl|done|by right]. }
  intros _ k' ->. destruct Hw as (Hn & Hf & Hc & Ho).
  apply (host_triple_bind _ _ _ (fun _ k' => started_as (J, n, s) (host_id (next_number s)) k')).
  { apply triple_or_kill. eapply host_triple_conseq.
    - apply (envd_spec (host_id (next_number s)) false envs _ children J2 n2 (bump s)); [done|by intros; apply Hc|].
      intros p h Hp. cbn in Hp. rewrite Hid in Hp. done.
    - cbn beta. intros _ k' (sb & Es & Hps & Hch & Hsv & Hhs & Hnn & Hoth). exists sb. split; [|rewrite Es; done].
      split; [cbn; lia|]. split; [done|]. split; [|split; [|by rewrite Es]].
      + intros h Hh. destruct (Hhs h Hh) as [? [Hin|HJ]]; (split; [done|]); cbn; [by apply Hc|].
        rewrite <- Ho; [done|]. intros Hin. destruct (Hc h Hin) as [_ [c Hc']]. congruence.
      + intros h Hh. rewrite (Hoth h Hh). cbn [fst snd bump hrs_sandboxes]. rewrite Hid. cbn. apply Ho.
        intros Hin. apply Hh. unfold handles. rewrite Hch. do 3 right. done.
    - cbn beta. intros e k' (E & Hon & Hl). by apply HR. }
  intros _ k' Hst. apply (host_triple_bind _ _ _ (fun _ k2 => k2 = k')).
  - intros y Hy. unfold timestamps, mbind, ST_bind, ask, lift, throw, mret, ST_ret. destruct (host HcNow (run_world y)) as [w now].
    subst k'. destruct (2 ^ 63 <=? _); [left; split; [by left|exact Hst]|]. destruct (max_time <? _); [left; split; [by right|exact Hst]|]. done.
  - intros times k2 ->. apply host_triple_ret. done.
Qed.
Lemma quiet_lay_out t r : quiet (lay_out copy_fuel t r : HRM _).
Proof. unfold lay_out. quiet. Qed.
Lemma host_start_spec rq k : Wf k -> k.2.(hrs_next_sandbox) < 2 ^ 64 - 1 ->
  triple k (start root domain rfc3339 lossy copy_fuel rq)
    (fun rt k' => rt.(rs_config).(rc_sandbox_id) = host_id (next_number k.2) /\ started_as k (host_id (next_number k.2)) k')
    (fun e k' => (late e /\ started_as k (host_id (next_number k.2)) k') \/ failed k e k').
Proof.
  intros Hk Hn. pose proof (fresh_id k Hk Hn) as Hid. pose proof (wf_next _ Hk) as Hu. pose proof (wf_fresh _ Hk) as Hf.
  destruct k as [[J n] s]. cbn [fst snd] in *. unfold start, next_sandbox_id.
  set (R := fun e k' => _ \/ _).
  assert (HR : forall e s', s' = s \/ s' = bump s -> R e (J, n, s')).
  { intros e s' Hs'. right. split; [by destruct Hs' as [->| ->]|].
    split; [destruct Hs' as [->| ->]; cbn; unfold next_number, sat_add, max_uint, in_uint in *; lia|].
    split; [|by right]. repeat split; auto. }
  apply triple_skip; [apply quiet_create|intros; apply HR; by left|]. intros _.
  apply (host_triple_bind _ _ _ (fun id k' => id = host_id (next_number s) /\ k' = (J, n, bump s))).
  { apply host_triple_state, triple_modify, host_triple_ret. done. }
  intros id k' [-> ->]. apply triple_skip; [apply quiet_lay_out|intros; apply HR; by right|]. intros md.
  destruct (tm_start_cmd md) as [c|].
  - unfold spawn_host_template_command. apply (host_triple_bind _ _ _ (fun h k' => h = n /\ exists c, k' = (<[n := StartCommand c]> J, S n, bump s))).
    { apply triple_skip; [apply quiet_create|intros; apply HR; by right|]. intros _.
      apply triple_skip; [apply quiet_hc|intros; apply HR; by right|]. intros _ y Hy. unfold core in Hy. simplify_eq.
      split; [done|]. eexists. unfold run_job, core. cbn [fst snd run_jobs run_next run_state]. by f_equal. }
    intros h k' [-> [c' ->]]. apply boot_spec; [|done|done]. split; [lia|]. split; [|split].
    + intros h Hh. destruct (decide (h = n)) as [->|]; [lia|]. rewrite lookup_insert_ne in Hh by done. specialize (Hf h Hh). lia.
    + intros h ->%list_elem_of_singleton. split; [|exists c'; by rewrite lookup_insert_eq].
      destruct (J !! n) eqn:E; [|done]. specialize (Hf n). rewrite E in Hf. specialize (Hf ltac:(eauto)). lia.
    + intros h Hh. rewrite list_elem_of_singleton in Hh. by rewrite lookup_insert_ne.
  - apply boot_spec; [|done|done]. split; [lia|]. split; [done|]. split; [|done]. intros h []%elem_of_nil.
Qed.

(** ** The invariant *)
Lemma jobs_opened k id sb k' : JobsOk k -> opened id sb k k' -> JobsOk k' /\ (no_strays k -> no_strays k').
Proof.
  intros Hk (Hnn & Hsv & Hhs & Hoth & Es).
  assert (Hlive : forall id' sb' h, id' <> id -> k.2.(hrs_sandboxes) !! id' = Some sb' -> h ∈ handles sb' ->
    (h ∉ handles sb) /\ k'.1.1 !! h = k.1.1 !! h).
  { intros id' sb' h Hne E Hin.
    assert (Hnew : h ∉ handles sb).
    { intros Hin2. destruct (Hhs h Hin2) as [_ HN]. destruct (serves_live _ _ _ h (wf_serves _ Hk _ _ E) Hin). congruence. }
    split; [done|]. rewrite Hoth, forget_lookup, decide_False; [done| |done].
    destruct (hrs_sandboxes k.2 !! id) as [p|] eqn:Ep; cbn; [|apply not_elem_of_nil]. intros Hin2.
    apply Hne. by apply (wf_own _ Hk _ _ _ _ h E Ep). }
  split; [split|].
  - intros h Hh. destruct (decide (h ∈ handles sb)) as [Hin|Hin]; [by apply Hhs|]. rewrite Hoth, forget_lookup in Hh by done.
    case_decide; [by destruct Hh|]. pose proof (wf_fresh _ Hk h Hh). lia.
  - intros id' sb'. rewrite Es. intros [[<- <-]|[Hne E]]%lookup_insert_Some; [done|].
    eapply serves_same; [by apply (wf_serves _ Hk)|]. intros h Hh. by eapply Hlive.
  - intros id1 id2 sb1 sb2 h. rewrite Es. intros [[<- <-]|[N1 E1]]%lookup_insert_Some [[<- <-]|[N2 E2]]%lookup_insert_Some h1 h2; [done|..].
    + by destruct (Hlive _ _ h (not_eq_sym N2) E2 h2).
    + by destruct (Hlive _ _ h (not_eq_sym N1) E1 h1).
    + by apply (wf_own _ Hk _ _ _ _ h E1 E2).
  - intros Hno h Hh. rewrite Es. destruct (decide (h ∈ handles sb)) as [Hin|Hin]; [by exists id, sb; rewrite lookup_insert_eq|].
    rewrite Hoth, forget_lookup in Hh by done. case_decide as Hp; [by destruct Hh|].
    destruct (Hno h Hh) as (id' & sb' & E & Hin'). exists id', sb'. split; [|done]. rewrite lookup_insert_ne; [done|].
    intros <-. rewrite E in Hp. done.
Qed.
Lemma next_number_eq s : in_uint 64 s.(hrs_next_sandbox) -> s.(hrs_next_sandbox) < 2 ^ 64 - 1 -> next_number s = s.(hrs_next_sandbox) + 1.
Proof. unfold next_number, sat_add, max_uint, in_uint. lia. Qed.
Lemma wf_started k k' : Wf k -> k.2.(hrs_next_sandbox) < 2 ^ 64 - 1 -> started_as k (host_id (next_number k.2)) k' ->
  Wf k' /\ (no_strays k -> no_strays k').
Proof.
  intros Hk Hn (sb & Ho & _ & En). pose proof (wf_next _ Hk) as Hu. pose proof (next_number_eq _ Hu Hn) as Enn.
  destruct (jobs_opened _ _ _ _ Hk Ho) as [HJ HS]. destruct Ho as (_ & _ & _ & _ & Es). split; [|done]. split; [done|..].
  - intros id m. rewrite Es, En. intros Hi Hm. destruct (decide (id = host_id (next_number k.2))) as [->|Hne].
    + rewrite host_number_id in Hm by (unfold in_uint in *; lia). simplify_eq. lia.
    + rewrite lookup_insert_ne in Hi by congruence. pose proof (wf_ids _ Hk id m Hi Hm). lia.
  - rewrite En. unfold in_uint in *. lia.
Qed.
Lemma wf_failed k e k' : Wf k -> k.2.(hrs_next_sandbox) < 2 ^ 64 - 1 -> failed k e k' -> Wf k' /\ (no_strays k -> leak e \/ no_strays k').
Proof.
  intros Hk Hlt (Es & Hle & (Hn & Hold & Hnew) & Hl). pose proof (wf_next _ Hk) as Hu. pose proof (next_number_eq _ Hu Hlt) as Enn.
  split; [split; [split|..]|].
  - intros h Hh. destruct (Hnew h Hh) as [Ho|]; [|done]. pose proof (wf_fresh _ Hk h Ho). lia.
  - intros id sb. rewrite Es. intros E. eapply serves_same; [by apply (wf_serves _ Hk)|]. intros h Hh. apply Hold.
    by eapply serves_live; [apply (wf_serves _ Hk)|].
  - intros id1 id2 sb1 sb2 h. rewrite Es. apply (wf_own _ Hk).
  - intros id m. rewrite Es. intros Hi Hm. pose proof (wf_ids _ Hk id m Hi Hm). lia.
  - unfold in_uint in *. lia.
  - intros Hno. destruct Hl as [|EJ]; [by left|right]. intros h. rewrite EJ, Es. apply Hno.
Qed.
Lemma triple_stop k id Q (R : BackendError -> Core -> Prop) :
  (k.2.(hrs_sandboxes) !! id = None -> R (NotFound id) k) ->
  (forall sb, k.2.(hrs_sandboxes) !! id = Some sb ->
     let k' := (forget (handles sb) k.1.1, k.1.2, set_sandboxes (delete id k.2.(hrs_sandboxes)) k.2) in
     Q tt k' /\ forall e, R (EnvdHost.runtime "remove sandbox root" e) k') ->
  triple k (stop id) Q R.
Proof.
  intros HN HS. unfold stop. apply triple_find; [|done]. intros sb E. destruct (HS sb E) as [HQ HR]. destruct k as [[J n] s].
  apply triple_modify. apply (host_triple_bind _ _ _ (fun _ k' => k' = (forget (handles sb) J, n, set_sandboxes (delete id (hrs_sandboxes s)) s))).
  { by apply services_spec. }
  intros _ k' ->. intros y Hy. unfold hc, mbind, ST_bind, lift, ask. destruct (host (HcRemoveDirAll (hr_root sb)) (run_world y)) as [w [[]|e]];
    cbn [map_err]; unfold outcome; cbn [fst snd]; change (core (with_world w y)) with (core y); rewrite Hy; [done|apply HR].
Qed.
Lemma wf_stop k id sb : Wf k -> k.2.(hrs_sandboxes) !! id = Some sb ->
  let k' := (forget (handles sb) k.1.1, k.1.2, set_sandboxes (delete id k.2.(hrs_sandboxes)) k.2) in Wf k' /\ (no_strays k -> no_strays k').
Proof.
  intros Hk E k'. split; [split; [split|..]|]; cbn [k' fst snd set_sandboxes hrs_sandboxes hrs_next_sandbox].
  - intros h. rewrite forget_lookup. case_decide; [by intros []|]. apply (wf_fresh _ Hk).
  - intros id' sb' [Hne E']%lookup_delete_Some. eapply serves_same; [by apply (wf_serves _ Hk)|]. intros h Hh.
    rewrite forget_lookup, decide_False; [done|]. intros Hin. apply Hne. by apply (wf_own _ Hk _ _ _ _ h E E').
  - intros id1 id2 sb1 sb2 h [_ E1]%lookup_delete_Some [_ E2]%lookup_delete_Some. by apply (wf_own _ Hk).
  - intros id' m [sb' [_ E']%lookup_delete_Some]. apply (wf_ids _ Hk). by eexists.
  - apply (wf_next _ Hk).
  - intros Hno h. cbn [k' fst snd]. rewrite forget_lookup. case_decide as Hin; [by intros []|]. intros Hh. destruct (Hno h Hh) as (id' & sb' & E' & Hin').
    exists id', sb'. split; [|done]. cbn. rewrite lookup_delete_ne; [done|]. intros ->. simplify_eq. done.
Qed.

(** ** Pausing, resuming and pods *)
(** The sandbox [id] is paused or not; nothing else changes. *)
Definition marked (b : bool) (id : string) (k k' : Core) : Prop :=
  exists sb, k.2.(hrs_sandboxes) !! id = Some sb /\ k' = (k.1, set_sandboxes (<[id := set_paused b sb]> k.2.(hrs_sandboxes)) k.2).
Lemma pause_spec k id : triple k (pause id) (fun p k' => p = mk_paused id None /\ marked true id k k')
  (fun e k' => e = NotFound id /\ k.2.(hrs_sandboxes) !! id = None /\ k' = k).
Proof.
  unfold pause. apply triple_find; [|done]. intros sb E. destruct k as [[J n] s]. apply triple_modify, host_triple_ret. split; [done|]. by exists sb.
Qed.
Lemma resume_spec k p : triple k (resume domain rfc3339 p)
  (fun rt k' => rt.(rs_config).(rc_sandbox_id) = p.(pd_sandbox_id) /\ marked false p.(pd_sandbox_id) k k')
  (fun e k' => (e = NotFound p.(pd_sandbox_id) /\ k.2.(hrs_sandboxes) !! p.(pd_sandbox_id) = None /\ k' = k) \/
               (late e /\ marked false p.(pd_sandbox_id) k k')).
Proof.
  unfold resume. apply triple_find; [|by left]. intros sb E. destruct k as [[J n] s]. apply triple_modify.
  set (k1 := (J, n, _)). assert (Hm : marked false (pd_sandbox_id p) (J, n, s) k1) by by exists sb.
  apply (host_triple_bind _ _ _ (fun _ k2 => k2 = k1)); [|intros t k2 ->; by apply host_triple_ret].
  intros y Hy. unfold timestamps, mbind, ST_bind, ask, lift, throw, mret, ST_ret. destruct (host HcNow (run_world y)) as [w now].
  rewrite <- Hy in Hm |- *. destruct (2 ^ 63 <=? _); [right; split; [by left|exact Hm]|].
  destruct (max_time <? _); [right; split; [by right|exact Hm]|]. done.
Qed.
Lemma wf_marked b id k k' : Wf k -> marked b id k k' -> Wf k' /\ (no_strays k -> no_strays k').
Proof.
  intros Hk (sb & E & ->). 
  assert (Hl : forall id' sb', <[id := set_paused b sb]> k.2.(hrs_sandboxes) !! id' = Some sb' ->
    exists sb0, k.2.(hrs_sandboxes) !! id' = Some sb0 /\ handles sb' = handles sb0 /\ forall J, serves id' sb0 J -> serves id' sb' J).
  { intros id' sb' [[<- <-]|[_ E']]%lookup_insert_Some; [by exists sb|by exists sb']. }
  split; [split; [split|..]|]; cbn [fst snd set_sandboxes hrs_sandboxes hrs_next_sandbox].
  - apply (wf_fresh _ Hk).
  - intros id' sb' (sb0 & E' & _ & Hs)%Hl. by apply Hs, (wf_serves _ Hk).
  - intros id1 id2 sb1 sb2 h (b1 & E1 & -> & _)%Hl (b2 & E2 & -> & _)%Hl. by apply (wf_own _ Hk).
  - intros id' m [sb' (sb0 & E' & _)%Hl]. apply (wf_ids _ Hk). by eexists.
  - apply (wf_next _ Hk).
  - intros Hno h Hh. destruct (Hno h Hh) as (id' & sb' & E' & Hin). destruct (decide (id' = id)) as [->|Hne].
    + exists id, (set_paused b sb). cbn. rewrite lookup_insert_eq. simplify_eq. done.
    + exists id', sb'. cbn. by rewrite lookup_insert_ne.
Qed.
(** Calls that leave jobs and sandboxes alone. *)
Definition sandbox_part (k : Core) := (k.1, k.2.(hrs_sandboxes), k.2.(hrs_next_sandbox)).
Definition harmless {A} (m : HRM A) : Prop := forall k, keeps (fun y => sandbox_part (core y) = k) m.
Lemma quiet_harmless {A} (m : HRM A) : quiet m -> harmless m.
Proof. intros Hm k y <-. by rewrite quiet_core. Qed.
Lemma harmless_set_pods f k : keeps (fun y => sandbox_part (core y) = k) (hmodify (fun s => set_pods (f s) s) : HRM unit).
Proof. by intros y <-. Qed.
Lemma quiet_part {A} (m : HRM A) k : quiet m -> keeps (fun y => sandbox_part (core y) = k) m.
Proof. intros Hm. by apply quiet_harmless. Qed.
#[local] Hint Resolve quiet_harmless harmless_set_pods quiet_part : keeps.
#[local] Hint Extern 1 (keeps _ (ask ?c)) => exact (quiet_part (ask c) _ (host_quiet_ask c)) : keeps.
#[local] Hint Extern 1 (keeps _ (hc ?c ?g ?m)) => exact (quiet_part (hc c g m) _ (quiet_hc c g m)) : keeps.
Lemma harmless_empty_dirs b vs : quiet (create_empty_dirs b vs : HRM _).
Proof. induction vs as [|v vs IH]; cbn [create_empty_dirs]; quiet. Qed.
Lemma harmless_containers id cs ps : quiet (create_pod_containers root id cs ps : HRM _).
Proof. revert ps. induction cs as [|c cs IH]; intros ps; cbn [create_pod_containers]; quiet. Qed.
#[local] Hint Resolve harmless_empty_dirs harmless_containers : keeps.
Lemma harmless_next_pod : harmless (next_pod_id : HRM _).
Proof. unfold next_pod_id. intros k. keeps. by intros y <-. Qed.
Lemma harmless_start_pod rq : harmless (start_pod root rfc3339 rq : HRM _).
Proof. unfold start_pod. intros k. keeps. apply harmless_next_pod. Qed.
Lemma harmless_stop_pod id : harmless (stop_pod id : HRM _).
Proof. unfold stop_pod. intros k. keeps. Qed.
Lemma harmless_add id rq : harmless (add_pod_container root id rq : HRM _).
Proof. unfold add_pod_container. intros k. keeps. Qed.
Lemma harmless_remove id n : harmless (remove_pod_container id n : HRM _).
Proof. unfold remove_pod_container. intros k. keeps. Qed.
Lemma wf_part k k' : Wf k -> sandbox_part k' = sandbox_part k -> Wf k' /\ (no_strays k -> no_strays k').
Proof.
  intros [[] ] E. unfold sandbox_part in E. destruct k as [[J n] s], k' as [[J' n'] s']. cbn [fst snd] in *. injection E as -> -> Es En.
  unfold no_strays. split; [split; [split|..]|]; cbn [fst snd]; by rewrite ?Es, ?En.
Qed.

(** ** Runs *)
Inductive HostOp :=
| HoStart (rq : StartSandboxRequest)
| HoStartFollowup (rq : StartSandboxRequest) (sn : FollowupSnapshot)
| HoStop (id : string)
| HoPause (id : string)
| HoResume (p : PausedSandbox)
| HoPrepareTemplate (rq : TemplateBuildRequest)
| HoBuildTemplate (rq : RuntimeTemplateBuild)
| HoSnapshot (id : string) (name : option string)
| HoDeleteSnapshot (id : string)
| HoMetrics (id : string)
| HoLogs (id : string)
| HoNetwork (id : string) (policy : SandboxNetworkPolicy)
| HoPort (id : string) (port : Z)
| HoStartPod (rq : StartPodRequest)
| HoStopPod (id : string)
| HoAddContainer (id : string) (rq : PodContainerCreateRequest)
| HoRemoveContainer (id name : string)
| HoWaitContainer (id name : string).
Definition drop_result {A} (m : HRM A) : HRM unit := _ ← m; mret tt.
#[local] Instance adapter_here : RuntimeAdapter (HostRun W) := host_runtime_adapter root domain rfc3339 lossy copy_fuel.
Definition perform (op : HostOp) : HRM unit :=
  match op with
  | HoStart rq => drop_result (ra_start rq)
  | HoStartFollowup rq sn => drop_result (ra_start_followup rq sn)
  | HoStop id => ra_stop id
  | HoPause id => drop_result (ra_pause id)
  | HoResume p => drop_result (ra_resume p)
  | HoPrepareTemplate rq => drop_result (ra_prepare_template rq)
  | HoBuildTemplate rq => drop_result (ra_build_template rq)
  | HoSnapshot id name => drop_result (ra_snapshot id name)
  | HoDeleteSnapshot id => ra_delete_snapshot id
  | HoMetrics id => drop_result (ra_metrics id)
  | HoLogs id => drop_result (ra_logs id)
  | HoNetwork id p => ra_apply_network id p
  | HoPort id p => drop_result (ra_port_target id p)
  | HoStartPod rq => drop_result (ra_start_pod rq)
  | HoStopPod id => ra_stop_pod id
  | HoAddContainer id rq => drop_result (ra_add_pod_container id rq)
  | HoRemoveContainer id n => ra_remove_pod_container id n
  | HoWaitContainer id n => drop_result (ra_wait_pod_container id n)
  end.
(** A sequence of calls, with the errors it answered. *)
Fixpoint performs (ops : list HostOp) y : HostRun W * list BackendError :=
  match ops with
  | [] => (y, [])
  | op :: ops => let '(y1, r) := perform op y in let '(y2, es) := performs ops y1 in (y2, match r with Ok _ => es | Err e => e :: es end)
  end.
(** What one call does to the invariant. *)
Definition steps_well (k : Core) (k' : Core) (e : option BackendError) : Prop :=
  Wf k' /\ (no_strays k -> (exists e', e = Some e' /\ leak e') \/ no_strays k') /\ k'.2.(hrs_next_sandbox) <= k.2.(hrs_next_sandbox) + 1.
Definition err_of {A} (r : result BackendError A) : option BackendError := match r with Ok _ => None | Err e => Some e end.
Definition well {A} (m : HRM A) : Prop := forall k, Wf k -> k.2.(hrs_next_sandbox) < 2 ^ 64 - 1 ->
  triple k m (fun _ k' => steps_well k k' None) (fun e k' => steps_well k k' (Some e)).
Lemma well_harmless {A} (m : HRM A) : harmless m -> well m.
Proof.
  intros Hm k Hk _ y Hy. pose proof (Hm (sandbox_part k) y (f_equal sandbox_part Hy)) as E. cbn beta in E.
  destruct (wf_part k (core (m y).1) Hk E) as [HW HS].
  assert (En : hrs_next_sandbox (core (m y).1).2 = hrs_next_sandbox k.2) by (unfold sandbox_part in E; congruence).
  unfold outcome, steps_well. destruct (m y).2; rewrite En; (split; [done|]; split; [by right; auto|lia]).
Qed.
Lemma well_start rq : well (start root domain rfc3339 lossy copy_fuel rq).
Proof.
  intros k Hk Hn. pose proof (next_number_eq _ (wf_next _ Hk) Hn) as En.
  assert (Hst : forall k' e, started_as k (host_id (next_number k.2)) k' -> steps_well k k' e).
  { intros k' e Hs. destruct (wf_started _ _ Hk Hn Hs). split; [done|]. split; [auto|]. destruct Hs as (? & _ & _ & ->). lia. }
  eapply host_triple_conseq; [by apply host_start_spec|..]; cbn beta.
  - intros rt k' [_ Hs]. auto.
  - intros e k' [[_ Hs]|Hf]; [auto|]. destruct (wf_failed _ _ _ Hk Hn Hf) as [HW HS]. split; [done|]. split.
    + intros Hno. destruct (HS Hno); [left; eauto|by right].
    + destruct Hf as (_ & ? & _). lia.
Qed.
Lemma well_marked b id k k' e : Wf k -> marked b id k k' -> steps_well k k' e.
Proof. intros Hk Hm. destruct (wf_marked _ _ _ _ Hk Hm). split; [done|]. split; [auto|]. destruct Hm as (? & _ & ->). cbn. lia. Qed.
Lemma well_same k e : Wf k -> steps_well k k e.
Proof. intros. split; [done|]. split; [auto|lia]. Qed.
Lemma well_stop id : well (stop id).
Proof.
  intros k Hk Hn. apply triple_stop; [by intros; apply well_same|]. intros sb E. destruct (wf_stop k id sb Hk E).
  split; intros; (split; [done|]; split; [by auto|cbn; lia]).
Qed.
Lemma well_pause id : well (pause id).
Proof.
  intros k Hk Hn. eapply host_triple_conseq; [apply pause_spec|..]; cbn beta.
  - intros p k' [_ Hm]. by eapply well_marked.
  - intros e k' (_ & _ & ->). by apply well_same.
Qed.
Lemma well_resume p : well (resume domain rfc3339 p).
Proof.
  intros k Hk Hn. eapply host_triple_conseq; [apply resume_spec|..]; cbn beta.
  - intros rt k' [_ Hm]. by eapply well_marked.
  - intros e k' [(_ & _ & ->)|[_ Hm]]; [by apply well_same|by eapply well_marked].
Qed.
Lemma well_drop {A} (m : HRM A) : well m -> well (drop_result m).
Proof.
  intros Hm k Hk Hn y Hy. specialize (Hm k Hk Hn y Hy). unfold outcome, drop_result, mbind, ST_bind in *. by destruct (m y) as [y' [a|e]].
Qed.
Definition lifecycle (op : HostOp) : bool :=
  match op with HoStart _ | HoStartFollowup _ _ | HoStop _ | HoPause _ | HoResume _ => true | _ => false end.
Lemma harmless_drop {A} (m : HRM A) : harmless m -> harmless (drop_result m).
Proof. intros Hm k. apply st_keeps_bind; [apply Hm|]. intros. apply st_keeps_ret. Qed.
Lemma harmless_perform op : lifecycle op = false -> harmless (perform op).
Proof.
  destruct op; try done; intros _; cbn [perform]; try apply harmless_drop;
    first [apply harmless_start_pod|apply harmless_stop_pod|apply harmless_add|apply harmless_remove|apply quiet_harmless].
  all: first [apply quiet_build|apply quiet_snapshot|apply quiet_delete_snapshot|apply quiet_metrics|apply quiet_logs|apply quiet_port|by intros ? ?].
Qed.
Lemma well_perform op : well (perform op).
Proof.
  destruct (lifecycle op) eqn:E; [|by apply well_harmless, harmless_perform].
  destruct op; try done; cbn [perform]; try apply well_drop; first [apply well_start|apply well_stop|apply well_pause|apply well_resume].
Qed.

(** ** Restoring a persisted state *)
Definition ids_below (m : strmap HostRuntimeSandbox) (next : Z) : Prop :=
  in_uint 64 next /\ forall id n, is_Some (m !! id) -> host_number id = Some n -> n <= next.
Lemma host_number_uint id n : host_number id = Some n -> in_uint 64 n.
Proof. unfold host_number. destruct (strip_prefix _ id) as [t|]; [|done]. cbn. by apply parse_uint_range. Qed.
Lemma restore_spec l next k : JobsOk k -> no_strays k -> ids_below k.2.(hrs_sandboxes) next ->
  triple k (restore_sandboxes root next l)
    (fun nx k' => JobsOk k' /\ no_strays k' /\ ids_below k'.2.(hrs_sandboxes) nx) (fun _ _ => True).
Proof.
  revert next k. induction l as [|[[[id paused] envs] mounts] l IH]; intros next k Hk Hno Hi; cbn [restore_sandboxes]; [by apply host_triple_ret|].
  destruct k as [[J n] s].
  eapply host_triple_bind; [eapply (host_triple_conseq _ _ (fun _ k' => exists sb, opened id sb (J, n, s) k') _ (fun _ _ => True))|].
  - apply envd_spec; [apply (wf_fresh _ Hk)|by intros h []%elem_of_nil|].
    intros p h Ep Hh. split; [|apply not_elem_of_nil]. apply (wf_fresh _ Hk). by eapply serves_live; [apply (wf_serves _ Hk)|].
  - cbn beta. intros _ k' (sb & Es & _ & _ & Hsv & Hhs & Hnn & Hoth). exists sb. split; [done|]. split; [done|]. split; [|split; [done|by rewrite Es]].
    intros h Hh. destruct (Hhs h Hh) as [? [[]%elem_of_nil|?]]. done.
  - done.
  - cbn beta. intros _ k' (sb & Ho). destruct (jobs_opened _ _ _ _ Hk Ho) as [HJ HS]. apply IH; [done|auto|].
    destruct Ho as (_ & _ & _ & _ & Es). destruct Hi as [Hu Hi]. cbn [snd] in *. rewrite Es. split.
    + destruct (host_number id) as [m|] eqn:E; [|done]. apply host_number_uint in E. unfold in_uint in *. lia.
    + intros id' m Hid Hm. destruct (decide (id' = id)) as [->|Hne]; [rewrite Hm; lia|].
      rewrite lookup_insert_ne in Hid by congruence. specialize (Hi id' m Hid Hm). destruct (host_number id); lia.
Qed.
Definition fresh_run (w : W) : HostRun W := mk_run w ∅ 0 (mk_runtime_state 0 0 ∅ ∅).
Lemma restored_wf w l y : restore_from_state root l (fresh_run w) = (y, Ok tt) -> Wf (core y) /\ no_strays (core y).
Proof.
  intros E. assert (Ht : triple (core (fresh_run w)) (restore_from_state root l) (fun _ k => Wf k /\ no_strays k) (fun _ _ => True)).
  { unfold restore_from_state. eapply host_triple_bind.
    - apply (restore_spec l 0).
      + split; [by intros h [j Hj]|by intros ? ? ?|by intros].
      + by intros h [j Hj].
      + split; [by unfold in_uint|]. by intros id n [sb Hs].
    - cbn beta. intros nx [[J n] s] (HJ & HS & Hu & Hi). intros y' Hy. unfold core in Hy. simplify_eq.
      split; [|exact HS]. split; [split; apply HJ|exact Hi|exact Hu]. }
  specialize (Ht (fresh_run w) eq_refl). rewrite E in Ht. exact Ht.
Qed.
Lemma performs_wf ops y : Wf (core y) -> y.(run_state).(hrs_next_sandbox) + Z.of_nat (length ops) < 2 ^ 64 - 1 ->
  Wf (core (performs ops y).1) /\ (no_strays (core y) -> Forall (fun e => ~ leak e) (performs ops y).2 -> no_strays (core (performs ops y).1)).
Proof.
  revert y. induction ops as [|op ops IH]; intros y Hy Hn; cbn [performs]; [done|].
  cbn [length] in Hn. pose proof (well_perform op (core y) Hy ltac:(cbn; lia) y eq_refl) as Hw. unfold outcome in Hw.
  destruct (perform op y) as [y1 r]. cbn [fst snd] in Hw. destruct (performs ops y1) as [y2 es] eqn:Ep.
  assert (Hs : steps_well (core y) (core y1) (err_of r)) by by destruct r. destruct Hs as (HW & HS & Hb). cbn in Hb.
  specialize (IH y1 HW ltac:(lia)). rewrite Ep in IH. cbn [fst snd] in *. destruct IH as [IH1 IH2]. split; [done|].
  intros Hno Hl. apply IH2; [|by destruct r; [|apply Forall_cons in Hl as [_ ?]]].
  destruct (HS Hno) as [(e & He & Hlk)|?]; [|done]. destruct r as [a|e']; [done|]. cbn in He. simplify_eq. by apply Forall_cons in Hl as [? _].
Qed.

(** ** The contract of a runtime adapter *)
Definition state_of_sandbox (sb : HostRuntimeSandbox) : SandboxState := if sb.(hr_paused) then Paused else Running.
Definition status_at (k : Core) : strmap SandboxState := state_of_sandbox <$> k.2.(hrs_sandboxes).
Lemma status_none k id : status_at k !! id = None <-> k.2.(hrs_sandboxes) !! id = None.
Proof. unfold status_at. rewrite lookup_fmap. by destruct (hrs_sandboxes k.2 !! id). Qed.
Lemma status_started k id k' : started_as k id k' -> status_at k' = <[id := Running]> (status_at k).
Proof. intros (sb & (_ & _ & _ & _ & Es) & Hp & _). unfold status_at. rewrite Es, fmap_insert. unfold state_of_sandbox at 1. by rewrite Hp. Qed.
Lemma status_failed k e k' : failed k e k' -> status_at k' = status_at k.
Proof. intros (Es & _). unfold status_at. by rewrite Es. Qed.
Lemma status_marked b id k k' : marked b id k k' ->
  is_Some (status_at k !! id) /\ status_at k' = <[id := if b then Paused else Running]> (status_at k).
Proof.
  intros (sb & E & ->). unfold status_at. cbn [snd set_sandboxes hrs_sandboxes]. rewrite fmap_insert, lookup_fmap, E. split; [by eexists|]. by destruct b.
Qed.
Lemma status_harmless {A} (m : HRM A) y : harmless m -> status_at (core (m y).1) = status_at (core y).
Proof. intros Hm. pose proof (Hm _ y eq_refl) as E. cbn beta in E. unfold sandbox_part in E. unfold status_at. congruence. Qed.
(** A start that succeeds has a new sandbox, running; one that fails changes
    nothing, unless the times of its answer were out of range. *)
Definition starts_one y (o : HostRun W * result BackendError RuntimeSandbox) : Prop :=
  match o with
  | (y', Ok rt) => let id := rt.(rs_config).(rc_sandbox_id) in
      status_at (core y) !! id = None /\ status_at (core y') = <[id := Running]> (status_at (core y))
  | (y', Err e) => status_at (core y') = status_at (core y) \/
      (late e /\ exists id, status_at (core y) !! id = None /\ status_at (core y') = <[id := Running]> (status_at (core y)))
  end.
Lemma start_one rq y : Wf (core y) -> y.(run_state).(hrs_next_sandbox) < 2 ^ 64 - 1 ->
  starts_one y (start root domain rfc3339 lossy copy_fuel rq y).
Proof.
  intros Hy Hn. pose proof (host_start_spec rq (core y) Hy Hn y eq_refl) as Hs. pose proof (fresh_id _ Hy Hn) as Hf.
  unfold outcome in Hs. destruct (start _ _ _ _ _ rq y) as [y' [rt|e]]; cbn [fst snd] in Hs; cbn [starts_one].
  - destruct Hs as [-> Hs]. split; [by apply status_none|by apply status_started].
  - destruct Hs as [[Hl Hs]|Hs]; [right|left; by eapply status_failed]. split; [done|]. eexists. split; [by apply status_none|by apply status_started].
Qed.
(** The ports of a running sandbox lead to its own services. *)
Definition port_served y (id : string) (port target : Z) : Prop := exists h j, y.(run_jobs) !! h = Some j /\
  (port = Restore.DEFAULT_ENVD_PORT -> j = EnvdServer target (path_join root id)) /\
  (port = DEFAULT_CODE_INTERPRETER_PORT -> j = Probe "code-interpreter" target id) /\
  (port = DEFAULT_MCP_PORT -> j = Probe "mcp" target id).
Lemma port_spec id port y : JobsOk (core y) ->
  match (port_target id port y).2 with
  | Ok t => status_at (core y) !! id = Some Running /\ exists target, t = Tcp "127.0.0.1" target /\ port_served y id port target /\
      (port ∉ [Restore.DEFAULT_ENVD_PORT; DEFAULT_CODE_INTERPRETER_PORT; DEFAULT_MCP_PORT] -> target = port)
  | Err _ => status_at (core y) !! id <> Some Running
  end.
Proof.
  intros Hy. unfold port_target, find_sandbox, mbind, ST_bind, gets, lift, throw, status_at. rewrite lookup_fmap. cbn [core snd].
  destruct (hrs_sandboxes (run_state y) !! id) as [sb|] eqn:E; cbn [ok_or]; [|done]. pose proof (wf_serves _ Hy id sb E) as (Er & H1 & H2 & H3 & _).
  cbn [fmap option_fmap option_map]. unfold state_of_sandbox. destruct (hr_paused sb); [done|]. cbn [snd]. split; [done|].
  eexists. split; [reflexivity|]. rewrite Er in H1. cbn [core fst] in *.
  destruct (port =? Restore.DEFAULT_ENVD_PORT) eqn:P1; [|destruct (port =? DEFAULT_CODE_INTERPRETER_PORT) eqn:P2; [|destruct (port =? DEFAULT_MCP_PORT) eqn:P3]].
  - apply Z.eqb_eq in P1 as ->. split; [eexists _, _; split_and!; [exact H1|done..]|]. intros []. by left.
  - apply Z.eqb_eq in P2 as ->. split; [eexists _, _; split_and!; [exact H2|done..]|]. intros []. right. by left.
  - apply Z.eqb_eq in P3 as ->. split; [eexists _, _; split_and!; [exact H3|done..]|]. intros []. right. right. by left.
  - apply Z.eqb_neq in P1, P2, P3. split; [|done]. eexists _, _. split_and!; [exact H1|done..].
Qed.
Lemma stop_status id y :
  status_at (core (stop id y).1) = delete id (status_at (core y)) /\
  ((stop id y).2 = Err (NotFound id) -> status_at (core y) !! id = None) /\
  (status_at (core y) !! id = None -> (stop id y).2 = Err (NotFound id) /\ core (stop id y).1 = core y).
Proof.
  assert (Hs : triple (core y) (stop id)
    (fun _ k' => is_Some (status_at (core y) !! id) /\ status_at k' = delete id (status_at (core y)))
    (fun e k' => (e = NotFound id /\ status_at (core y) !! id = None /\ k' = core y) \/
                 (e <> NotFound id /\ is_Some (status_at (core y) !! id) /\ status_at k' = delete id (status_at (core y))))).
  { apply triple_stop; [left; split; [done|]; split; [by apply status_none|done]|]. intros sb E k'.
    assert (Hsome : is_Some (status_at (core y) !! id)) by (unfold status_at; rewrite lookup_fmap, E; by eexists).
    assert (Hd : status_at k' = delete id (status_at (core y))) by (unfold status_at, k'; cbn [snd set_sandboxes hrs_sandboxes]; by rewrite fmap_delete).
    split; [done|]. intros e. right. split; [by intros [=]|done]. }
  specialize (Hs y eq_refl). unfold outcome in Hs. destruct (stop id y) as [y' [[]|e]]; cbn [fst snd] in *.
  - destruct Hs as [[? Hi] ->]. split; [done|]. split; [done|]. congruence.
  - destruct Hs as [(-> & Hn & ->)|(He & [? Hi] & ->)].
    + split; [by rewrite delete_id|]. done.
    + split; [done|]. split; [congruence|]. congruence.
Qed.

(** C34: Started on a persisted state, and whatever calls follow, every sandbox of
    the host runtime keeps its own jobs running: its envd server on its own
    directory, its two probes under its own id and its start command; no job is
    shared by two sandboxes and no new id clashes with a restored one.  And no
    job outlives its sandbox, unless a start failed to bind the port of its
    second or third service. *)
Theorem host_jobs_owned w l ops y :
  restore_from_state root l (fresh_run w) = (y, Ok tt) ->
  y.(run_state).(hrs_next_sandbox) + Z.of_nat (length ops) < 2 ^ 64 - 1 ->
  let '(y', errors) := performs ops y in
  Wf (core y') /\ (Forall (fun e => ~ leak e) errors -> no_strays (core y')).
Proof.
  intros Hr Hn. destruct (restored_wf _ _ _ Hr) as [HW HS]. destruct (performs_wf ops y HW Hn) as [H1 H2].
  destruct (performs ops y) as [y' errors]. cbn [fst snd] in *. auto.
Qed.

(** C35: The host runtime keeps the contract of a runtime adapter: a start that
    succeeds adds one sandbox, running, under an id not in use, and a start that
    fails adds none, except that one whose answer has times out of range fails
    with its sandbox running; pausing and resuming change one sandbox and fail
    only for one that is not there (or out of range times); a stop forgets the
    sandbox whatever it answers, so that a second stop finds none; a port of a
    running sandbox leads to that sandbox's own service; and nothing else
    changes which sandboxes there are. *)
Theorem host_adapter_contract y :
  Wf (core y) -> y.(run_state).(hrs_next_sandbox) < 2 ^ 64 - 1 ->
  (forall rq, starts_one y (ra_start rq y)) /\
  (forall rq sn, starts_one y (ra_start_followup rq sn y)) /\
  (forall id, let '(y', r) := ra_stop id y in
     status_at (core y') = delete id (status_at (core y)) /\
     (r = Err (NotFound id) <-> status_at (core y) !! id = None) /\ (ra_stop id y').2 = Err (NotFound id)) /\
  (forall id, match ra_pause id y with
     | (y', Ok _) => is_Some (status_at (core y) !! id) /\ status_at (core y') = <[id := Paused]> (status_at (core y))
     | (y', Err e) => e = NotFound id /\ status_at (core y) !! id = None /\ core y' = core y
     end) /\
  (forall p, let id := p.(pd_sandbox_id) in match ra_resume p y with
     | (y', Ok _) => is_Some (status_at (core y) !! id) /\ status_at (core y') = <[id := Running]> (status_at (core y))
     | (y', Err e) => (e = NotFound id /\ status_at (core y) !! id = None /\ core y' = core y) \/
                      (late e /\ status_at (core y') = <[id := Running]> (status_at (core y)))
     end) /\
  (forall id port, match (ra_port_target id port y).2 with
     | Ok t => status_at (core y) !! id = Some Running /\ exists target, t = Tcp "127.0.0.1" target /\ port_served y id port target /\
         (port ∉ [Restore.DEFAULT_ENVD_PORT; DEFAULT_CODE_INTERPRETER_PORT; DEFAULT_MCP_PORT] -> target = port)
     | Err _ => status_at (core y) !! id <> Some Running
     end) /\
  (forall op, lifecycle op = false -> status_at (core (perform op y).1) = status_at (core y)).
Proof.
  intros Hy Hn. split_and!.
  - intros rq. by apply start_one.
  - intros rq sn. by apply start_one.
  - intros id. cbn [ra_stop adapter_here host_runtime_adapter]. destruct (stop_status id y) as (H1 & H2 & H3).
    destruct (stop id y) as [y' r]. cbn [fst snd] in *. split; [done|]. split; [split; [done|by intros []%H3]|].
    apply stop_status. rewrite H1. apply lookup_delete_eq.
  - intros id. cbn [ra_pause adapter_here host_runtime_adapter]. pose proof (pause_spec (core y) id y eq_refl) as Hs. unfold outcome in Hs.
    destruct (pause id y) as [y' [p|e]]; cbn [fst snd] in Hs; [by destruct Hs as [_ ?%status_marked]|]. by rewrite status_none.
  - intros p. cbn [ra_resume adapter_here host_runtime_adapter]. pose proof (resume_spec (core y) p y eq_refl) as Hs. unfold outcome in Hs.
    destruct (resume domain rfc3339 p y) as [y' [rt|e]]; cbn [fst snd] in Hs; [by destruct Hs as [_ ?%status_marked]|].
    rewrite status_none. destruct Hs as [?|[? [_ ?]%status_marked]]; [by left|by right].
  - intros id port. exact (port_spec id port y Hy).
  - intros op Ho. by apply status_harmless, harmless_perform.
Qed.
End Proofs.

(** ** A host on which every call succeeds, up to [limit] ports *)
Definition demo_host (limit : nat) : HostRt nat := fun c w =>
  match c as c return nat * host_answer c with
  | HcBind => if decide (w < limit)%nat then (S w, Ok w) else (w, Err (mk_host_error IoOther "out of ports"))
  | HcLocalAddr l => (w, Ok (40000 + Z.of_nat l))
  | HcRead _ => (w, Err (mk_host_error IoNotFound "no such file"))
  | HcExists _ => (w, false)
  | HcSymlinkMetadata _ => (w, Err (mk_host_error IoNotFound "no such file"))
  | HcReadLink _ => (w, Err (mk_host_error IoNotFound "no such file"))
  | HcReadDir _ => (w, Ok [])
  | HcOutput _ => (w, Ok (Some 0, []))
  | HcNow => (w, 1700000000)
  | HcKill _ => (w, tt)
  | HcRemoveDirAll _ => (w, Err (mk_host_error IoOther "busy"))
  | _ => (w, Ok tt)
  end.
#[local] Instance demo_serde : Serde HostTemplateMetadata := {|
  serialize _ := Ok []; deserialize _ := Ok template_metadata_default |}.
Definition demo_request (timeout : Z) : StartSandboxRequest :=
  mk_start_request (mk_create_request "base" (Some timeout) ∅ ∅ None None None None None None []) None.
Definition demo_times (t : Z) : string := print_dec t.
Definition demo_lossy (b : list Z) : string := EmptyString.
Definition demo_restored : HostRun nat :=
  (let _ := demo_host 9 in restore_from_state "/srv" [("sbx_host_7"%string, false, ∅, [])] (fresh_run 0%nat)).1.
Definition demo_ops : list HostOp := [HoStart (demo_request 60); HoPause "sbx_host_8"; HoStop "sbx_host_7"]%string.
Lemma host_jobs_owned_witness :
  let _ := demo_host 9 in
  let '(y', errors) := performs "/srv" "localhost" demo_times demo_lossy 4 demo_ops demo_restored in
  Wf "/srv" (core y') /\ no_strays (core y') /\ map_to_list (status_at (core y')) = [("sbx_host_8"%string, Paused)] /\ size y'.(run_jobs) = 3%nat.
Proof.
  intros H. pose proof (host_jobs_owned "/srv" "localhost" demo_times demo_lossy 4 0%nat [("sbx_host_7"%string, false, ∅, [])] demo_ops demo_restored
    eq_refl eq_refl) as Hc.
  destruct (performs "/srv" "localhost" demo_times demo_lossy 4 demo_ops demo_restored) as [y' errors] eqn:E.
  vm_compute in E. injection E as <- <-. destruct Hc as [HW HS]. split; [exact HW|]. split; [|split; reflexivity]. apply HS.
  repeat constructor. intros (what & x & _ & [Hx|Hx]); discriminate Hx.
Defined.
Lemma host_adapter_contract_witness :
  let _ := demo_host 9 in
  let y := demo_restored in
  starts_one y (start "/srv" "localhost" demo_times demo_lossy 4 (demo_request 60) y) /\
  (match (start "/srv" "localhost" demo_times demo_lossy 4 (demo_request 60) y).2 with Ok rt => rt.(rs_config).(rc_sandbox_id) | Err _ => EmptyString end) = "sbx_host_8"%string.
Proof.
  intros H y. split; [|vm_compute; reflexivity].
  pose proof (proj1 (restored_wf "/srv" demo_times 0%nat [("sbx_host_7"%string, false, ∅, [])] y eq_refl)) as Hy.
  assert (Hn : y.(run_state).(hrs_next_sandbox) < 2 ^ 64 - 1) by (vm_compute; reflexivity).
  destruct (host_adapter_contract "/srv" "localhost" demo_times demo_lossy 4 y Hy Hn) as [Hs _].
  specialize (Hs (demo_request 60)). unfold adapter_here, host_runtime_adapter in Hs. cbn [ra_start] in Hs. exact Hs.
Defined.
(** A timeout out of range: the call fails, the sandbox runs. *)
Lemma host_start_late : let _ := demo_host 9 in
  let '(y', r) := start "/srv" "localhost" demo_times demo_lossy 4 (demo_request (2 ^ 63)) (fresh_run 0%nat) in
  r = Err (Runtime "sandbox timeout is too large") /\ map_to_list (status_at (core y')) = [("sbx_host_1"%string, Running)].
Proof. vm_compute. split; reflexivity. Qed.
(** A port that cannot be bound: the call fails, the envd server runs on. *)
Lemma host_start_leaks : let _ := demo_host 1 in
  let '(y', r) := start "/srv" "localhost" demo_times demo_lossy 4 (demo_request 60) (fresh_run 0%nat) in
  r = Err (Runtime "bind host code-interpreter listener: out of ports") /\ map_to_list (status_at (core y')) = [] /\
  map_to_list y'.(run_jobs) = [(0%nat, EnvdServer 40000 "/srv/sbx_host_1")].
Proof. split; [|split]; vm_compute; reflexivity. Qed.
(** Snapshots nest: the directory of one can lie in that of another. *)
Lemma host_snapshots_nest :
  host_snapshot_artifact_path "/srv" "a" = Ok "/srv/snapshots/a"%string /\ host_snapshot_artifact_path "/srv" "a/b" = Ok "/srv/snapshots/a/b"%string.
Proof. split; vm_compute; reflexivity. Qed.
(** The host runtime below the control plane of [E2bServerInv]: two creations at
    once, the first sandbox paused and its deletion failing after the adapter
    forgot it.  Its ids are fresh, and the registry follows its answers. *)
Section HostRun.
#[local] Instance host_here : HostRt nat := demo_host 9.
#[local] Instance state_here : StateJson := demo_state_json no_state.
#[local] Instance host_adapter : RuntimeAdapter (HostRun nat) := host_runtime_adapter "/srv" "localhost" demo_times demo_lossy 4.
Definition host_front : Front (Observed (HostRun nat)) :=
  mk_front (server_new (backend_new (observe (fresh_run 0%nat)) "now") (mk_world ∅ [])) [].
Definition host_events : list Event :=
  [begin_default; begin_default; next 1; next 1; next 1; next 0; http "POST" "/sandboxes/sbx_host_1/pause"; http "DELETE" "/sandboxes/sbx_host_1"].
Lemma host_answers_fresh :
  calm host_front host_events = true /\ fresh_starts (front_log (serve host_front host_events)) = true /\
  front_log (serve host_front host_events) =
    [AnsStopFailed "sbx_host_1"; AnsPaused "sbx_host_1"; AnsStarted "sbx_host_2"; AnsStarted "sbx_host_1"]%string /\
  map_to_list (state_of <$> registered (serve host_front host_events)) = [("sbx_host_1"%string, Paused)].
Proof. split; [|split; [|split]]; vm_compute; reflexivity. Qed.
End HostRun.
