(* ===== verification/SandboxApi.v ===== *)
(** * The vocabulary of the public sandbox API ([crates/sandbox/src])

    Identifiers and their validation, capabilities, errors, guest paths and
    ports, templates, sandboxes, commands and processes as the crate declares
    them.  What a backend does with them is [SandboxNode], the retained shells
    of a client [RetainedShell]. *)
From S2P Require Import Prelude BTree E2bWire.

Module Sb.
(** ** Identifiers ([ids.rs]) *)
Inductive InvalidId :=
| Empty (kind : string)
| TooLong (kind value : string) (max : Z)
| ForbiddenChars (kind value : string).
Definition invalid_id_display (e : InvalidId) : string :=
  match e with
  | Empty kind => kind +:+ " is empty"
  | TooLong kind value max => kind +:+ " " +:+ bt value +:+ " is too long (max " +:+ print_dec max +:+ " chars)"
  | ForbiddenChars kind value => kind +:+ " " +:+ bt value +:+ " contains forbidden characters"
  end.
Definition is_id_byte (c : ascii) : bool :=
  is_ascii_alphanumeric c || Ascii.eqb c "_" || Ascii.eqb c "." || Ascii.eqb c "-".
Definition MAX_LEN : Z := 128.
Definition validate_id (kind value : string) : result InvalidId unit :=
  if is_empty value then Err (Empty kind)
  else if MAX_LEN <? chars_count value then Err (TooLong kind value MAX_LEN)
  else if negb (all_bytes is_id_byte value) then Err (ForbiddenChars kind value)
  else Ok tt.

(** ** Capabilities ([capability.rs]) *)
Inductive CapabilityName :=
| RuntimeCreate | RuntimeAttach | RuntimeList | RuntimeDeadline | SandboxStop | SandboxKill | SandboxDelete
| SnapshotCapture | SnapshotRestore | SnapshotDelete | SnapshotExport | SnapshotImport | PauseCapture | PauseResume
| ProcessRun | ProcessStart | ProcessStream | ProcessStdin | ProcessSignal | ProcessPty
| FilesystemRead | FilesystemWrite | FilesystemCopyIn | FilesystemCopyOut | FilesystemList | FilesystemWatch
| PortsConnect | PortsExpose | PortsDomainProxy
| TemplatePrepare | TemplateReady | TemplateFreshness | TemplateDataPlaneNone | TemplateDataPlaneEnvdInject | TemplateDataPlaneEnvdVerify
| SandboxDataPlaneInit | WarmPoolPrewarm | WarmPoolCheckout | EventsSubscribe | MetricsHost | MetricsGuest | NetworkPolicy.
Definition capability_as_str (n : CapabilityName) : string :=
  match n with
  | RuntimeCreate => "runtime.create"
  | RuntimeAttach => "runtime.attach"
  | RuntimeList => "runtime.list"
  | RuntimeDeadline => "runtime.deadline"
  | SandboxStop => "sandbox.stop"
  | SandboxKill => "sandbox.kill"
  | SandboxDelete => "sandbox.delete"
  | SnapshotCapture => "snapshot.capture"
  | SnapshotRestore => "snapshot.restore"
  | SnapshotDelete => "snapshot.delete"
  | SnapshotExport => "snapshot.export"
  | SnapshotImport => "snapshot.import"
  | PauseCapture => "pause.capture"
  | PauseResume => "pause.resume"
  | ProcessRun => "process.run"
  | ProcessStart => "process.start"
  | ProcessStream => "process.stream"
  | ProcessStdin => "process.stdin"
  | ProcessSignal => "process.signal"
  | ProcessPty => "process.pty"
  | FilesystemRead => "filesystem.read"
  | FilesystemWrite => "filesystem.write"
  | FilesystemCopyIn => "filesystem.copy_in"
  | FilesystemCopyOut => "filesystem.copy_out"
  | FilesystemList => "filesystem.list"
  | FilesystemWatch => "filesystem.watch"
  | PortsConnect => "ports.connect"
  | PortsExpose => "ports.expose"
  | PortsDomainProxy => "ports.domain_proxy"
  | TemplatePrepare => "template.prepare"
  | TemplateReady => "template.ready"
  | TemplateFreshness => "template.freshness"
  | TemplateDataPlaneNone => "template.data_plane.none"
  | TemplateDataPlaneEnvdInject => "template.data_plane.envd.inject"
  | TemplateDataPlaneEnvdVerify => "template.data_plane.envd.verify"
  | SandboxDataPlaneInit => "sandbox.data_plane.init"
  | WarmPoolPrewarm => "warm_pool.prewarm"
  | WarmPoolCheckout => "warm_pool.checkout"
  | EventsSubscribe => "events.subscribe"
  | MetricsHost => "metrics.host"
  | MetricsGuest => "metrics.guest"
  | NetworkPolicy => "network.policy"
  end.
Definition ALL_CAPABILITY_NAMES : list CapabilityName :=
  [RuntimeCreate; RuntimeAttach; RuntimeList; RuntimeDeadline; SandboxStop; SandboxKill; SandboxDelete;
   SnapshotCapture; SnapshotRestore; SnapshotDelete; SnapshotExport; SnapshotImport; PauseCapture; PauseResume;
   ProcessRun; ProcessStart; ProcessStream; ProcessStdin; ProcessSignal; ProcessPty;
   FilesystemRead; FilesystemWrite; FilesystemCopyIn; FilesystemCopyOut; FilesystemList; FilesystemWatch;
   PortsConnect; PortsExpose; PortsDomainProxy;
   TemplatePrepare; TemplateReady; TemplateFreshness; TemplateDataPlaneNone; TemplateDataPlaneEnvdInject; TemplateDataPlaneEnvdVerify;
   SandboxDataPlaneInit; WarmPoolPrewarm; WarmPoolCheckout; EventsSubscribe; MetricsHost; MetricsGuest; NetworkPolicy].
Definition capability_from_str (value : string) : option CapabilityName :=
  List.find (fun n => String.eqb (capability_as_str n) value) ALL_CAPABILITY_NAMES.
#[global] Instance capability_name_eq : EqDecision CapabilityName.
Proof. solve_decision. Defined.
Lemma capability_roundtrip n : capability_from_str (capability_as_str n) = Some n.
Proof. by destruct n. Qed.
#[global] Instance capability_name_countable : Countable CapabilityName := inj_countable _ _ capability_roundtrip.
Inductive CapabilityReason :=
| Permanent (detail : string)
| BuildFeatureGated (feature : string)
| HostPreflightGated (prerequisite : string)
| RuntimeStateGated (state : string).
Inductive CapabilityStatus := Supported | Unsupported (reason : CapabilityReason).
Definition Capabilities : Type := gmap CapabilityName CapabilityStatus.
Definition all_unsupported (reason : CapabilityReason) : Capabilities :=
  list_to_map ((fun n => (n, Unsupported reason)) <$> ALL_CAPABILITY_NAMES).
Definition with_supported (name : CapabilityName) (c : Capabilities) : Capabilities := <[name := Supported]> c.
Definition with_unsupported (name : CapabilityName) (reason : CapabilityReason) (c : Capabilities) : Capabilities :=
  <[name := Unsupported reason]> c.
Definition capability_status (c : Capabilities) (name : CapabilityName) : CapabilityStatus :=
  default (Unsupported (Permanent "capability was not reported by backend")) (c !! name).
Definition supports (c : Capabilities) (name : CapabilityName) : bool :=
  match capability_status c name with Supported => true | Unsupported _ => false end.
Definition capabilities_iter (c : Capabilities) : list (CapabilityName * CapabilityStatus) :=
  (fun n => (n, capability_status c n)) <$> ALL_CAPABILITY_NAMES.

(** ** Errors ([error.rs]) *)
Inductive RetryClass := Retryable | NotRetryable | Unknown.
Inductive ResourceKind := RkRuntime | RkTemplate | RkSandbox | RkProcess | RkSnapshot | RkWarmPool | RkPort | RkFile.
Inductive InvalidSpecReason :=
| MissingBackend | MissingTemplate | MissingSnapshot | MissingSandbox
| BadId (value : string) | BadPath (value : string) | BadPort (port : Z) | InvalidTimeout
| InvalidResources (value : string) | InvalidCommand (value : string) | InvalidDataPlane (value : string).
Inductive GuestArch := Aarch64 | X86_64.
Inductive TemplatePrepareFailure :=
| EnvdMissing (reference : option string)
| EnvdWrongArch (expected found : GuestArch)
| EnvdVersionMismatch (expected found : string)
| EnvdIntegrityMismatch (expected_sha256 found_sha256 : string)
| EnvdHealthFailed (port : Z) (path : string) (status : option Z)
| EnvdInitFailed (reason : string)
| EntrypointUnsupported (reason : string)
| EntrypointNotWrapped
| PortConflict (port : Z)
| DefaultUserMissing (user : string)
| DefaultWorkdirMissing (path : string)
| ReadOnlyRootfs
| WritableLayerRequired
| UnsupportedImageConfig (reason : string)
| RegistryUnavailable (reference : string)
| SnapshotAfterPrepareFailed (reason : string).
Inductive Error :=
| UnsupportedCapability (operation : string) (capability : CapabilityName) (reason : CapabilityReason)
| InvalidSpec (operation : string) (reason : InvalidSpecReason)
| NotFound (operation : string) (resource : ResourceKind) (id : string)
| AlreadyExists (operation : string) (resource : ResourceKind) (id : string)
| CapacityRejected (operation backend reason : string) (retry : RetryClass)
| DeadlineExceeded (operation : string) (sandbox_id : option string) (retry : RetryClass)
| PrepareFailure (f : TemplatePrepareFailure)
| ProcessFailure (operation : string) (sandbox_id process_id : option string) (reason : string) (retry : RetryClass)
| FilesystemFailure (operation : string) (sandbox_id path : option string) (reason : string) (retry : RetryClass)
| SnapshotIntegrityFailure (operation : string) (snapshot_id : option string) (reason : string)
| PortFailure (operation : string) (sandbox_id : option string) (reason : string) (retry : RetryClass)
| BackendFailure (operation backend reason : string) (retry : RetryClass)
| IoFailure (operation resource reason : string) (retry : RetryClass).
Definition from_invalid_id (e : InvalidId) : Error := InvalidSpec "validate id" (BadId (invalid_id_display e)).
(** [XId::new(value)?] in a function that answers [Error]. *)
Definition new_id (kind value : string) : result Error string :=
  map_err from_invalid_id (_ ← validate_id kind value; Ok value).

(** ** Guest paths and ports ([filesystem.rs], [ports.rs], [data_plane.rs]) *)
Inductive InvalidSandboxPath := PathEmpty | PathRelative (path : string) | PathNul (path : string).
Definition invalid_path_display (e : InvalidSandboxPath) : string :=
  match e with
  | PathEmpty => "sandbox path is empty"
  | PathRelative p => "sandbox path " +:+ bt p +:+ " must be absolute"
  | PathNul p => "sandbox path " +:+ bt p +:+ " contains a NUL byte"
  end.
Definition validate_path (path : string) : result InvalidSandboxPath unit :=
  if is_empty path then Err PathEmpty
  else if negb (starts_with "/" path) then Err (PathRelative path)
  else if contains Ascii.zero path then Err (PathNul path)
  else Ok tt.
Definition from_invalid_path (e : InvalidSandboxPath) : Error := InvalidSpec "validate sandbox path" (BadPath (invalid_path_display e)).
Definition new_path (path : string) : result Error string := map_err from_invalid_path (_ ← validate_path path; Ok path).
Definition validate_port (port : Z) : result Error Z := if port =? 0 then Err (InvalidSpec "validate port" (BadPort port)) else Ok port.
Definition ENVD_DEFAULT : Z := 49983.
Definition reserved_port (port : Z) : result Error Z := if port =? 0 then Err (InvalidSpec "configure reserved port" (BadPort port)) else Ok port.
Inductive PortProtocol := ProtoTcp | ProtoUdp.
Record PortBinding := mk_binding { pb_guest : Z; pb_host : option Z; pb_protocol : PortProtocol }.
Inductive PortTarget := TargetTcp (host : string) (port : Z) | TargetUnix (path : string) | TargetVsock (cid port : Z).
Record PortExposure := mk_exposure { px_protocol : PortProtocol; px_host_port : option Z }.

(** ** Files ([filesystem.rs]) *)
Inductive FileType := TypeFile | TypeDirectory | TypeSymlink | TypeOther.
Record FileEntry := mk_file_entry { fe_path : string; fe_file_type : FileType; fe_size_bytes : Z }.
Record FilePermissions := mk_permissions { fp_mode : Z }.
Record FileStat := mk_file_stat { fs_entry : FileEntry; fs_permissions : FilePermissions }.
Record WriteOptions := mk_write_options { wo_append : bool }.
Record ListOptions := mk_list_options { lo_recursive : bool }.
Record CopyOptions := mk_copy_options { cp_overwrite : bool }.
Inductive FilesystemEvent := FileCreated (e : FileEntry) | FileModified (e : FileEntry) | FileRemoved (path : string).

(** ** Data planes ([data_plane.rs]) *)
Inductive DataPlaneKind := KindNone | KindEnvd.
Inductive DataPlaneProvisioning := Inject | AlreadyPresent.
Inductive EnvdSource :=
| PinnedLayer (reference sha256 : string)
| PinnedArtifact (url sha256 : string)
| VendoredBuild (commit sha256 : string).
Inductive EnvdStartup := Supervised | ImageEntrypointWrapped | AlreadyRunning.
Inductive EnvdInitMode := NonFirecracker | ExplicitMetadataProvider.
Record EnvdHealthProbe := mk_probe { hp_path : string; hp_expected_status : Z }.
Definition health_probe_new (path : string) (expected_status : Z) : result Error EnvdHealthProbe :=
  if negb (starts_with "/" path)
  then Err (InvalidSpec "configure envd health probe" (InvalidDataPlane "health path must be absolute"))
  else Ok (mk_probe path expected_status).
Definition health_probe_default : EnvdHealthProbe := mk_probe "/health" 200.
Record EnvdDataPlaneSpec := mk_envd_spec {
  ed_provisioning : DataPlaneProvisioning;
  ed_version : option string;
  ed_source : option EnvdSource;
  ed_arch : option GuestArch;
  ed_port : Z;
  ed_startup : EnvdStartup;
  ed_init_mode : EnvdInitMode;
  ed_default_user : option string;
  ed_health : EnvdHealthProbe
}.
Definition envd_spec_default : EnvdDataPlaneSpec :=
  mk_envd_spec Inject None None None ENVD_DEFAULT Supervised NonFirecracker None health_probe_default.
Inductive DataPlaneSpec := DataPlaneNone | DataPlaneEnvd (spec : EnvdDataPlaneSpec).
Definition set_provisioning (p : DataPlaneProvisioning) (e : EnvdDataPlaneSpec) : EnvdDataPlaneSpec :=
  mk_envd_spec p e.(ed_version) e.(ed_source) e.(ed_arch) e.(ed_port) e.(ed_startup) e.(ed_init_mode) e.(ed_default_user) e.(ed_health).
Definition inject (e : EnvdDataPlaneSpec) : DataPlaneSpec := DataPlaneEnvd (set_provisioning Inject e).
Definition already_present (e : EnvdDataPlaneSpec) : DataPlaneSpec := DataPlaneEnvd (set_provisioning AlreadyPresent e).
Definition envd_with_port (port : Z) (e : EnvdDataPlaneSpec) : result Error EnvdDataPlaneSpec :=
  port ← reserved_port port;
  Ok (mk_envd_spec e.(ed_provisioning) e.(ed_version) e.(ed_source) e.(ed_arch) port e.(ed_startup) e.(ed_init_mode) e.(ed_default_user) e.(ed_health)).
Record PreparedEnvdDataPlane := mk_prepared_envd {
  pe_version : string;
  pe_commit : option string;
  pe_sha256 : string;
  pe_arch : GuestArch;
  pe_port : Z;
  pe_startup : EnvdStartup;
  pe_init_mode : EnvdInitMode;
  pe_default_user : option string;
  pe_health : EnvdHealthProbe;
  pe_health_checked_at : Z
}.
Inductive DataPlaneInfo := InfoNone | InfoEnvd (p : PreparedEnvdDataPlane).
Definition data_plane_kind (i : DataPlaneInfo) : DataPlaneKind := match i with InfoNone => KindNone | InfoEnvd _ => KindEnvd end.

(** ** Templates ([template.rs]); times are nanoseconds since the epoch *)
Inductive TemplateSource := Oci (reference : string) | Git (url : string) | Local (path : string).
Inductive TemplateCommand := TcShell (command : string) | TcArgv (program : string) (args : list string).
Inductive TemplateReadyProbe := ReadyCommand (c : TemplateCommand) | ReadyEnvdHealth.
Record TemplateSpec := mk_template_spec {
  ts_id : option string;
  ts_source : TemplateSource;
  ts_data_plane : DataPlaneSpec;
  ts_env : strmap string;
  ts_setup : list TemplateCommand;
  ts_start : option TemplateCommand;
  ts_ready : list TemplateReadyProbe;
  ts_timeout : option Z
}.
Definition template_new (source : TemplateSource) : TemplateSpec :=
  mk_template_spec None source (inject envd_spec_default) ∅ [] None [] None.
Definition template_oci (reference : string) : TemplateSpec :=
  mk_template_spec None (Oci reference) (inject envd_spec_default) ∅ [] None [] None.
Definition template_git (url : string) : TemplateSpec := template_new (Git url).
Definition template_local (path : string) : TemplateSpec := template_new (Local path).
Definition template_with_id (id : string) (t : TemplateSpec) : TemplateSpec :=
  mk_template_spec (Some id) t.(ts_source) t.(ts_data_plane) t.(ts_env) t.(ts_setup) t.(ts_start) t.(ts_ready) t.(ts_timeout).
Definition template_with_data_plane (d : DataPlaneSpec) (t : TemplateSpec) : TemplateSpec :=
  mk_template_spec t.(ts_id) t.(ts_source) d t.(ts_env) t.(ts_setup) t.(ts_start) t.(ts_ready) t.(ts_timeout).
Record PreparedTemplate := mk_prepared {
  pt_id : string;
  pt_source : TemplateSource;
  pt_data_plane : DataPlaneInfo;
  pt_prepared_at : Z;
  pt_artifact : option string;
  pt_metadata : strmap string
}.
Definition prepared_new (now : Z) (id : string) (source : TemplateSource) (d : DataPlaneInfo) : PreparedTemplate :=
  mk_prepared id source d now None ∅.
Inductive TemplateState := TplPreparing | TplReady | TplFailed | TplDeleted.
Record TemplateInfo := mk_template_info {
  ti_id : string;
  ti_state : TemplateState;
  ti_source : TemplateSource;
  ti_data_plane : DataPlaneInfo;
  ti_prepared_at : option Z
}.

(** ** Sandboxes ([sandbox.rs]) *)
Record SandboxResources := mk_resources { rs_vcpus : Z; rs_memory_bytes : Z; rs_disk_bytes : option Z }.
Definition resources_new (vcpus memory_bytes : Z) : SandboxResources := mk_resources vcpus memory_bytes None.
Inductive SandboxDeadline := Timeout (d : Z) | At (t : Z).
Inductive SnapshotKind := KTemplate | KContinuation | KPause.
#[global] Instance snapshot_kind_eq : EqDecision SnapshotKind.
Proof. solve_decision. Defined.
Record SnapshotRef := mk_snapshot_ref { sf_id : string; sf_kind : SnapshotKind }.
Inductive SandboxSpec :=
| SpecTemplate (template_id : string) (resources : option SandboxResources) (env : strmap string)
    (deadline : option SandboxDeadline) (metadata : strmap string)
| SpecSnapshot (snapshot : SnapshotRef) (resources : option SandboxResources) (env : strmap string)
    (deadline : option SandboxDeadline) (metadata : strmap string).
Definition from_template (t : PreparedTemplate) : SandboxSpec := SpecTemplate t.(pt_id) None ∅ None ∅.
Definition from_snapshot (s : SnapshotRef) : SandboxSpec := SpecSnapshot s None ∅ None ∅.
Definition spec_with_resources (r : SandboxResources) (s : SandboxSpec) : SandboxSpec :=
  match s with
  | SpecTemplate t _ env d m => SpecTemplate t (Some r) env d m
  | SpecSnapshot t _ env d m => SpecSnapshot t (Some r) env d m
  end.
Definition spec_with_env (key value : string) (s : SandboxSpec) : SandboxSpec :=
  match s with
  | SpecTemplate t r env d m => SpecTemplate t r (<[key := value]> env) d m
  | SpecSnapshot t r env d m => SpecSnapshot t r (<[key := value]> env) d m
  end.
Definition spec_with_deadline (d : SandboxDeadline) (s : SandboxSpec) : SandboxSpec :=
  match s with
  | SpecTemplate t r env _ m => SpecTemplate t r env (Some d) m
  | SpecSnapshot t r env _ m => SpecSnapshot t r env (Some d) m
  end.
Definition spec_with_metadata (key value : string) (s : SandboxSpec) : SandboxSpec :=
  match s with
  | SpecTemplate t r env d m => SpecTemplate t r env d (<[key := value]> m)
  | SpecSnapshot t r env d m => SpecSnapshot t r env d (<[key := value]> m)
  end.
Inductive SandboxState := StCreating | StRunning | StStopping | StStopped | StDeleted | StFailed.
#[global] Instance sandbox_state_eq : EqDecision SandboxState.
Proof. solve_decision. Defined.
Record SandboxInfo := mk_info {
  in_id : string;
  in_state : SandboxState;
  in_template_id : option string;
  in_snapshot_id : option string;
  in_resources : option SandboxResources;
  in_deadline : option SandboxDeadline;
  in_created_at : Z;
  in_metadata : strmap string
}.
Inductive StopMode := Graceful | ForceAfter (d : Z).
Inductive KillSignal := KillTerm | KillKill | KillInterrupt | KillNumber (n : Z).
Record SandboxFilter := mk_sandbox_filter { sb_state : option SandboxState }.

(** ** Snapshots ([snapshot.rs]) *)
Record SnapshotIntegrity := mk_integrity { sg_sha256 : string; sg_size_bytes : Z }.
Record SnapshotInfo := mk_snapshot_info {
  si_id : string;
  si_kind : SnapshotKind;
  si_source_sandbox_id : option string;
  si_source_template_id : option string;
  si_created_at : Z;
  si_integrity : option SnapshotIntegrity
}.
Record SnapshotOptions := mk_snapshot_options { so_name : option string; so_metadata : strmap string }.
Record SnapshotFilter := mk_snapshot_filter { sn_kind : option SnapshotKind }.

(** ** Warm pools ([warm_pool.rs]) *)
Inductive WarmEvictionPolicy := Oldest | Newest.
Record WarmPoolSpec := mk_warm_spec { wp_depth : Z; wp_min_ready : Z; wp_eviction : WarmEvictionPolicy }.
Definition warm_depth (depth : Z) : WarmPoolSpec := mk_warm_spec depth depth Oldest.
Record WarmPoolEntry := mk_warm_entry { we_key : string; we_ready : Z; we_total : Z }.
Record WarmLease := mk_warm_lease { wl_key : string; wl_sandbox_id : string }.
Inductive WarmLeasePolicy := RequireReady | CreateIfEmpty.
Record WarmMaintainReport := mk_warm_report { wr_created : Z; wr_evicted : Z; wr_ready : Z }.
Record WarmPoolTarget := mk_warm_target { wt_template_id : string; wt_spec : WarmPoolSpec }.

(** ** Commands and processes ([process.rs]) *)
Inductive CommandMode := Shell (command : string) | Argv (program : string) (args : list string).
Record PtySize := mk_pty { rows : Z; cols : Z }.
Record Command := mk_command {
  cmd_mode : CommandMode;
  cmd_cwd : option string;
  cmd_env : strmap string;
  cmd_user : option string;
  cmd_stdin : option (list Z);
  cmd_pty : option PtySize;
  cmd_tag : option string;
  cmd_timeout : option Z
}.
Definition command_new (mode : CommandMode) : Command := mk_command mode None ∅ None None None None None.
Inductive Signal := Term | Kill | Interrupt | Number (n : Z).
Inductive CommandStatus := Exited (code : Z) | Signaled (s : Signal).
Record CommandOutput := mk_output { out_status : CommandStatus; out_stdout : list Z; out_stderr : list Z }.
Inductive ProcessStatus := PsStarting | PsRunning | PsExited (code : Z) | PsSignaled (s : Signal).
Record ProcessInfo := mk_process_info { pi_id : string; pi_tag : option string; pi_status : ProcessStatus }.
Inductive ProcessSelector := SelId (id : string) | SelTag (tag : string).
Inductive ProcessEvent :=
| Started (info : ProcessInfo)
| Stdout (bytes : list Z)
| Stderr (bytes : list Z)
| EvExited (code : Z)
| EvSignaled (s : Signal).
Inductive ProcessInput := InputBytes (bytes : list Z) | InputEof.
End Sb.

(** ** Identifiers *)
Lemma new_id_ok kind value v : Sb.new_id kind value = Ok v <->
  v = value /\ value <> EmptyString /\ chars_count value <= 128 /\ all_bytes Sb.is_id_byte value = true.
Proof.
  unfold Sb.new_id, Sb.validate_id, Sb.MAX_LEN, mbind, result_bind. rewrite <- is_empty_false.
  destruct (is_empty value); [split; [done|by intros (_ & ? & _)]|].
  destruct (128 <? chars_count value) eqn:E; [split; [done|intros (_ & _ & ? & _); lia]|].
  destruct (all_bytes Sb.is_id_byte value) eqn:Eb; cbn [negb map_err]; [|split; [done|by intros (_ & _ & _ & ?)]].
  split; [intros [= <-]; repeat split; [lia]|by intros (-> & _)].
Qed.
Lemma all_capabilities n : n ∈ Sb.ALL_CAPABILITY_NAMES.
Proof. apply list_elem_of_In. destruct n; cbn; tauto. Qed.
