(* ===== verification/RetainedShell.v ===== *)
(** * Retained shells ([crates/sandbox/src/process.rs])

    A shell that stays open in a sandbox and runs one command after another:
    the script a command becomes, the lines it reports its output in and their
    reading, the shell with its lock on the event stream, and pools of shells.
    The process service of the sandbox is the class [ProcessService]; base64 is
    the class [Base64]; random identifiers are arguments. *)
From S2P Require Import Prelude BTree Types HostFs HostPaths Envd Backend E2bWire E2bRoutes SessionFiles EnvdHttp DomainProxy SandboxApi.
Import Sb.

(** ** Quoting *)
Definition apostrophe : ascii := "'".
Fixpoint quote_chars (s : string) : string :=
  match s with
  | EmptyString => EmptyString
  | String c s => if Ascii.eqb c apostrophe then "'\''" +:+ quote_chars s else String c (quote_chars s)
  end.
Definition shell_quote (value : string) : string := "'" +:+ quote_chars value +:+ "'".

(** ** The script of a command *)
Record ShellCommandPlan := mk_plan { pl_mode : CommandMode; pl_cwd : option string; pl_env : strmap string }.
Definition process_failure (operation : string) (sandbox_id : option string) (reason : string) (retry : RetryClass) : Error :=
  ProcessFailure operation sandbox_id None reason retry.
Definition plan_new (c : Command) : result Error ShellCommandPlan :=
  match c.(cmd_pty), c.(cmd_stdin) with
  | Some _, _ => Err (process_failure "prepare retained shell command" None "pty commands are unsupported for retained shell dispatch" NotRetryable)
  | None, Some _ => Err (process_failure "prepare retained shell command" None
      "initial stdin is unsupported for retained shell dispatch; use Shell::send_input for an active command" NotRetryable)
  | None, None => Ok (mk_plan c.(cmd_mode) c.(cmd_cwd) c.(cmd_env))
  end.
Definition command_text (m : CommandMode) : string :=
  match m with Shell command => command | Argv program args => join " " (shell_quote program :: (shell_quote <$> args)) end.
Definition assignment (kv : string * string) : string := kv.1 +:+ "=" +:+ shell_quote kv.2 +:+ " ".
Definition invocation_script (p : ShellCommandPlan) : string :=
  let command := command_text p.(pl_mode) in
  match p.(pl_cwd), entries p.(pl_env) with
  | None, [] => command
  | cwd, env =>
      "( " +:+ match cwd with Some d => "cd " +:+ shell_quote d +:+ " && " | None => EmptyString end
      +:+ join EmptyString (assignment <$> env) +:+ command +:+ " )"
  end.
Definition nl : string := String (ascii_of_N 10) EmptyString.
Definition out_var : string := dq "$__fk_out".
Definition err_var : string := dq "$__fk_err".
Definition report_line (name nonce format variable : string) : string :=
  "printf '\036FK_" +:+ name +:+ ":" +:+ nonce +:+ ":" +:+ format +:+ "\n' " +:+ dq variable +:+ "; ".
Definition dispatch_script (p : ShellCommandPlan) (nonce : string) : string :=
  "__fk_out=" +:+ shell_quote ("/tmp/fk-shell-" +:+ nonce +:+ ".stdout")
  +:+ "; __fk_err=" +:+ shell_quote ("/tmp/fk-shell-" +:+ nonce +:+ ".stderr")
  +:+ "; rm -f " +:+ out_var +:+ " " +:+ err_var +:+ "; "
  +:+ "{ " +:+ invocation_script p +:+ "; __fk_rc=$?; } >" +:+ out_var +:+ " 2>" +:+ err_var +:+ "; "
  +:+ "__fk_b64_out=$(base64 < " +:+ out_var +:+ " | tr -d '\n'); "
  +:+ "__fk_b64_err=$(base64 < " +:+ err_var +:+ " | tr -d '\n'); "
  +:+ report_line "STDOUT" nonce "%s" "$__fk_b64_out"
  +:+ report_line "STDERR" nonce "%s" "$__fk_b64_err"
  +:+ report_line "END" nonce "%d" "$__fk_rc"
  +:+ "rm -f " +:+ out_var +:+ " " +:+ err_var +:+ nl.

(** ** Reading what a command reports *)
Fixpoint strip_bytes (pre l : list Z) : option (list Z) :=
  match pre, l with
  | [], _ => Some l
  | p :: pre, b :: l => if p =? b then strip_bytes pre l else None
  | _ :: _, [] => None
  end.
(** [trim_end_matches('\n')]. *)
Fixpoint trim_newlines (l : list Z) : list Z :=
  match l with
  | [] => []
  | b :: l => match trim_newlines l with [] => if b =? 10 then [] else [b] | r => b :: r end
  end.
(** The line up to the first newline, which stays in it, and the rest. *)
Fixpoint take_line (l : list Z) : option (list Z * list Z) :=
  match l with
  | [] => None
  | b :: l => if b =? 10 then Some ([b], l) else match take_line l with Some (a, r) => Some (b :: a, r) | None => None end
  end.
Record ShellDispatchCapture := mk_capture {
  sc_nonce : string;
  sc_stdout_line : list Z;
  sc_stdout : option (list Z);
  sc_stderr : option (list Z);
  sc_protocol_stderr : list Z
}.
Definition capture_new (nonce : string) : ShellDispatchCapture := mk_capture nonce [] None None [].
Definition parse_i32 (s : string) : result string Z := from_str_radix 10 (- 2 ^ 31) (max_uint 31) s.
Definition marker (name nonce : string) : list Z := bytes_of ("FK_" +:+ name +:+ ":" +:+ nonce +:+ ":").
Section Capture.
Context `{Base64} (utf8_error : list Z -> string).
Definition decode_shell_payload (encoded : list Z) (stream : string) : result Error (list Z) :=
  map_err (fun e => process_failure "decode retained shell payload" None ("invalid " +:+ stream +:+ " payload: " +:+ e) NotRetryable) (b64_decode encoded).
Definition set_stdout (d : list Z) (c : ShellDispatchCapture) : ShellDispatchCapture :=
  mk_capture c.(sc_nonce) c.(sc_stdout_line) (Some d) c.(sc_stderr) c.(sc_protocol_stderr).
Definition set_stderr (d : list Z) (c : ShellDispatchCapture) : ShellDispatchCapture :=
  mk_capture c.(sc_nonce) c.(sc_stdout_line) c.(sc_stdout) (Some d) c.(sc_protocol_stderr).
Definition set_line (l : list Z) (c : ShellDispatchCapture) : ShellDispatchCapture :=
  mk_capture c.(sc_nonce) l c.(sc_stdout) c.(sc_stderr) c.(sc_protocol_stderr).
Definition handle_protocol_line (line : list Z) (c : ShellDispatchCapture) : ShellDispatchCapture * result Error (option CommandOutput) :=
  match strip_bytes [30] line with
  | None => (c, Ok None)
  | Some stripped =>
      if negb (utf8_valid stripped)
      then (c, Err (process_failure "decode retained shell protocol" None ("protocol line was not utf-8: " +:+ utf8_error stripped) NotRetryable))
      else
        let line := trim_newlines stripped in
        match strip_bytes (marker "STDOUT" c.(sc_nonce)) line with
        | Some encoded =>
            match decode_shell_payload encoded "stdout" with Ok d => (set_stdout d c, Ok None) | Err e => (c, Err e) end
        | None =>
        match strip_bytes (marker "STDERR" c.(sc_nonce)) line with
        | Some encoded =>
            match decode_shell_payload encoded "stderr" with Ok d => (set_stderr d c, Ok None) | Err e => (c, Err e) end
        | None =>
        match strip_bytes (marker "END" c.(sc_nonce)) line with
        | Some code =>
            match parse_i32 (text code) with
            | Ok n => (mk_capture c.(sc_nonce) c.(sc_stdout_line) None None c.(sc_protocol_stderr),
                       Ok (Some (mk_output (Exited n) (default [] c.(sc_stdout)) (default [] c.(sc_stderr)))))
            | Err e => (c, Err (process_failure "decode retained shell exit status" None
                                  ("invalid exit status " +:+ bt (text code) +:+ ": " +:+ e) NotRetryable))
            end
        | None => (c, Ok None)
        end end end
  end.
(** [while let Some(newline) = ..]: every turn takes a byte at least. *)
Fixpoint drain_lines (fuel : nat) (c : ShellDispatchCapture) : ShellDispatchCapture * result Error (option CommandOutput) :=
  match fuel with
  | O => (c, Ok None)
  | S fuel =>
      match take_line c.(sc_stdout_line) with
      | None => (c, Ok None)
      | Some (line, rest) =>
          match handle_protocol_line line (set_line rest c) with
          | (c, Ok None) => drain_lines fuel c
          | r => r
          end
      end
  end.
Definition push_stdout (bytes : list Z) (c : ShellDispatchCapture) : ShellDispatchCapture * result Error (option CommandOutput) :=
  let c := set_line (c.(sc_stdout_line) ++ bytes) c in
  drain_lines (length c.(sc_stdout_line)) c.
Definition push_protocol_stderr (bytes : list Z) (c : ShellDispatchCapture) : ShellDispatchCapture :=
  mk_capture c.(sc_nonce) c.(sc_stdout_line) c.(sc_stdout) c.(sc_stderr) (c.(sc_protocol_stderr) ++ bytes).

(** ** A shell *)
Definition signal_debug (s : Signal) : string :=
  match s with Term => "Term" | Kill => "Kill" | Interrupt => "Interrupt" | Number n => "Number(" +:+ Backend.print_i32 n +:+ ")" end.
(** What the event stream still delivers: events, and whether it ends after
    them ([false]: it stays silent). *)
Record EventQueue := mk_queue { eq_events : list (result Error ProcessEvent); eq_ends : bool }.
(** The reading loop of a run: what is left unread, and the outcome when there
    is one; [None] is a run that waits for more. *)
Fixpoint read_events (sandbox_id : string) (c : ShellDispatchCapture) (events : list (result Error ProcessEvent)) (ends : bool)
  : list (result Error ProcessEvent) * option (result Error CommandOutput) :=
  let failed reason := Some (Err (process_failure "run retained shell command" (Some sandbox_id) reason NotRetryable)) in
  match events with
  | [] => ([], if ends then failed "retained shell event stream ended before dispatch completed"%string else None)
  | Err e :: events => (events, Some (Err e))
  | Ok (Started _) :: events => read_events sandbox_id c events ends
  | Ok (Stdout bytes) :: events =>
      match push_stdout bytes c with
      | (_, Err e) => (events, Some (Err e))
      | (_, Ok (Some output)) => (events, Some (Ok output))
      | (c, Ok None) => read_events sandbox_id c events ends
      end
  | Ok (Stderr bytes) :: events => read_events sandbox_id (push_protocol_stderr bytes c) events ends
  | Ok (EvExited code) :: events => (events, failed ("retained shell exited before dispatch completed: " +:+ Backend.print_i32 code))
  | Ok (EvSignaled s) :: events => (events, failed ("retained shell was signaled before dispatch completed: " +:+ signal_debug s))
  end.
(** The process service of the sandboxes ([ProcessControl]), as far as a shell
    calls it. *)
Class ProcessService (B : Type) := {
  has_processes : bool;
  start_process_stream : string -> Command -> B -> B * result Error unit;
  send_process_input : string -> ProcessSelector -> ProcessInput -> B -> B * result Error unit;
  signal_process : string -> ProcessSelector -> Signal -> B -> B * result Error unit
}.
Record ShellState := mk_shell { sh_tag : string; sh_closed : bool; sh_queue : EventQueue }.
Definition set_queue (q : EventQueue) (s : ShellState) : ShellState := mk_shell s.(sh_tag) s.(sh_closed) q.
Definition unsupported (operation : string) (capability : CapabilityName) : Error :=
  UnsupportedCapability operation capability (Permanent "backend did not provide this control surface").
Section Service.
Context {B : Type} `{ProcessService B} (sandbox_id : string).
Definition with_processes {A} (operation : string) (capability : CapabilityName) (call : B -> B * result Error A) (b : B) : B * result Error A :=
  if has_processes (B := B) then call b else (b, Err (unsupported operation capability)).
Definition send_to_shell (s : ShellState) (input : ProcessInput) : B -> B * result Error unit :=
  with_processes "send retained shell input" ProcessStdin (send_process_input sandbox_id (SelTag s.(sh_tag)) input).
(** [events]: what the stream delivers until the run ends. *)
Definition run_plan_with_nonce (p : ShellCommandPlan) (nonce : string) (s : ShellState) (b : B)
  : ShellState * B * option (result Error CommandOutput) :=
  if s.(sh_closed) then (s, b, Some (Err (process_failure "run retained shell command" (Some sandbox_id) "retained shell is closed" NotRetryable)))
  else
    match send_to_shell s (InputBytes (bytes_of (dispatch_script p nonce))) b with
    | (b, Err e) => (s, b, Some (Err e))
    | (b, Ok _) =>
        let '(rest, r) := read_events sandbox_id (capture_new nonce) s.(sh_queue).(eq_events) s.(sh_queue).(eq_ends) in
        (set_queue (mk_queue rest s.(sh_queue).(eq_ends)) s, b, r)
    end.
(** [Shell::run]: a run with a timeout that is still waiting fails; one without
    waits on. *)
Definition shell_run (c : Command) (nonce : string) (s : ShellState) (b : B) : ShellState * B * option (result Error CommandOutput) :=
  match plan_new c with
  | Err e => (s, b, Some (Err e))
  | Ok p =>
      match run_plan_with_nonce p nonce s b, c.(cmd_timeout) with
      | (s, b, None), Some _ => (s, b, Some (Err (process_failure "run retained shell command" (Some sandbox_id) "retained shell dispatch timed out" Unknown)))
      | r, _ => r
      end
  end.
Definition run_stream : result Error unit :=
  Err (process_failure "stream retained shell command" (Some sandbox_id)
         "retained shell streaming is not implemented; use Shell::run for exact captured output" NotRetryable).
Definition cancel (s : ShellState) : B -> B * result Error unit :=
  with_processes "interrupt retained shell" ProcessSignal (signal_process sandbox_id (SelTag s.(sh_tag)) Interrupt).
Definition close_shell (s : ShellState) (b : B) : ShellState * B * result Error unit :=
  if s.(sh_closed) then (s, b, Ok tt)
  else
    let '(b, r) := with_processes "close retained shell" ProcessSignal (signal_process sandbox_id (SelTag s.(sh_tag)) Kill) b in
    (mk_shell s.(sh_tag) true s.(sh_queue), b, r).

(** ** Opening shells *)
Record ShellOpts := mk_shell_opts {
  so_program : string;
  so_args : list string;
  so_env : strmap string;
  so_user : option string;
  so_cwd : option string;
  so_tag_prefix : string
}.
Definition shell_opts_default : ShellOpts := mk_shell_opts "/bin/bash" ["-l"%string] ∅ None None "fk-shell".
Definition shell_tag (o : ShellOpts) (uuid : string) : result Error string :=
  map_err (fun e => process_failure "open retained shell" None ("invalid retained shell tag: " +:+ invalid_id_display e) NotRetryable)
    (_ ← validate_id "process tag" (o.(so_tag_prefix) +:+ "-" +:+ uuid); Ok (o.(so_tag_prefix) +:+ "-" +:+ uuid)).
Definition start_command (o : ShellOpts) (tag : string) : Command :=
  mk_command (Argv o.(so_program) o.(so_args)) o.(so_cwd) o.(so_env) o.(so_user) None None (Some tag) None.
(** [uuid] and what the new stream will deliver come from outside. *)
Definition shell_with (o : ShellOpts) (fresh : string * EventQueue) (b : B) : B * result Error ShellState :=
  with_processes "open retained shell" ProcessStream (fun b =>
    match shell_tag o fresh.1 with
    | Err e => (b, Err e)
    | Ok tag =>
        match start_process_stream sandbox_id (start_command o tag) b with
        | (b, Err e) => (b, Err e)
        | (b, Ok _) => (b, Ok (mk_shell tag false fresh.2))
        end
    end) b.

(** ** Pools *)
Record ShellPool := mk_pool { sp_shells : list ShellState; sp_next : Z }.
Definition pool_new (shells : list ShellState) : result Error ShellPool :=
  match shells with
  | [] => Err (process_failure "create retained shell pool" None "retained shell pool requires at least one shell" NotRetryable)
  | _ => Ok (mk_pool shells 0)
  end.
Fixpoint open_shells (fresh : list (string * EventQueue)) (shells : list ShellState) (b : B) : B * result Error (list ShellState) :=
  match fresh with
  | [] => (b, Ok shells)
  | f :: fresh =>
      match shell_with shell_opts_default f b with
      | (b, Err e) => (b, Err e)
      | (b, Ok s) => open_shells fresh (shells ++ [s]) b
      end
  end.
(** One fresh identifier and stream per shell. *)
Definition pool_open (fresh : list (string * EventQueue)) (b : B) : B * result Error ShellPool :=
  match fresh with
  | [] => (b, Err (process_failure "open retained shell pool" (Some sandbox_id) "retained shell pool size must be greater than zero" NotRetryable))
  | _ => let '(b, r) := open_shells fresh [] b in (b, r ≫= pool_new)
  end.
(** [fetch_add] wraps; the shell at the index is shared. *)
Definition lease (p : ShellPool) : ShellPool * nat :=
  (mk_pool p.(sp_shells) (wrap 64 (p.(sp_next) + 1)), Z.to_nat (p.(sp_next) mod Z.of_nat (length p.(sp_shells)))).
Definition slot (p : ShellPool) (index : nat) : option ShellState := p.(sp_shells) !! index.
(** [self.lease().run(command)]: a pool has a shell at every index it leases. *)
Definition pool_run (c : Command) (nonce : string) (p : ShellPool) (b : B) : ShellPool * B * option (result Error CommandOutput) :=
  let '(p, index) := lease p in
  match slot p index with
  | Some s => let '(s, b, r) := shell_run c nonce s b in (mk_pool (<[index := s]> p.(sp_shells)) p.(sp_next), b, r)
  | None => (p, b, None)
  end.
Fixpoint close_shells (shells : list ShellState) (first_error : option Error) (b : B) : list ShellState * B * option Error :=
  match shells with
  | [] => ([], b, first_error)
  | s :: shells =>
      let '(s, b, r) := close_shell s b in
      let '(rest, b, e) := close_shells shells (match first_error, r with None, Err e => Some e | _, _ => first_error end) b in
      (s :: rest, b, e)
  end.
Definition pool_close (p : ShellPool) (b : B) : ShellPool * B * result Error unit :=
  let '(shells, b, e) := close_shells p.(sp_shells) None b in
  (mk_pool shells p.(sp_next), b, match e with Some e => Err e | None => Ok tt end).
End Service.
End Capture.

(** ** Words
    How a POSIX shell cuts a simple command into words, as far as no expansion,
    redirection or operator is involved ([None] otherwise): apostrophes quote,
    a backslash quotes one character, blanks separate. *)
Definition is_blank (c : ascii) : bool := Ascii.eqb c " " || Ascii.eqb c "009".
Definition is_plain (c : ascii) : bool :=
  is_ascii_alphanumeric c || existsb (Ascii.eqb c) (bytes "_-./:,@%+").
Definition so_far (word : option string) : string := match word with Some w => w | None => EmptyString end.
Fixpoint read_words (quoted : bool) (word : option string) (s : string) : option (list string) :=
  match s with
  | EmptyString => if quoted then None else Some (match word with Some w => [w] | None => [] end)
  | String c s =>
      if quoted then
        if Ascii.eqb c apostrophe then read_words false word s
        else read_words true (Some (so_far word +:+ String c EmptyString)) s
      else if Ascii.eqb c apostrophe then read_words true (Some (so_far word)) s
      else if Ascii.eqb c "\" then
        match s with
        | String d s => if Ascii.eqb d "010" then None else read_words false (Some (so_far word +:+ String d EmptyString)) s
        | EmptyString => None
        end
      else if is_blank c then
        match read_words false None s with
        | Some ws => Some (match word with Some w => w :: ws | None => ws end)
        | None => None
        end
      else if is_plain c then read_words false (Some (so_far word +:+ String c EmptyString)) s
      else None
  end.
Definition shell_words (s : string) : option (list string) := read_words false None s.

Lemma append_one w c s : (w +:+ String c EmptyString) +:+ s = w +:+ String c s.
Proof. by rewrite append_assoc. Qed.
Lemma read_quoted v w tail : read_words true (Some w) (quote_chars v +:+ String apostrophe tail) = read_words false (Some (w +:+ v)) tail.
Proof.
  revert w. induction v as [|c v IH]; intros w; cbn [quote_chars].
  { by rewrite append_nil_r. }
  destruct (Ascii.eqb_spec c apostrophe) as [->|Hc].
  - rewrite append_assoc. change ("'\''" +:+ ?x) with (String apostrophe (String "\" (String apostrophe (String apostrophe x)))).
    cbn [read_words so_far]. rewrite !Ascii.eqb_refl. change (Ascii.eqb "\" apostrophe) with false. change (Ascii.eqb apostrophe "010") with false.
    cbn [Ascii.eqb Bool.eqb]. rewrite IH, append_one. done.
  - rewrite append_cons. cbn [read_words]. rewrite (proj2 (Ascii.eqb_neq _ _) Hc). cbn [so_far]. rewrite IH, append_one. done.
Qed.
Lemma read_shell_quote v tail : read_words false None (shell_quote v +:+ tail) = read_words false (Some v) tail.
Proof.
  unfold shell_quote. rewrite !append_assoc. change ("'" +:+ ?s) with (String apostrophe s). cbn [read_words].
  rewrite Ascii.eqb_refl. change ("'" +:+ tail) with (String apostrophe tail). by rewrite read_quoted.
Qed.
Lemma read_blank w s : read_words false (Some w) (" " +:+ s) = match read_words false None s with Some ws => Some (w :: ws) | None => None end.
Proof. reflexivity. Qed.
(** C37: The command line a retained shell builds from a program and its
    arguments is read back by the word splitting of a shell ([shell_words]: blanks,
    quotes and escapes) as exactly that program and those arguments, whatever
    characters they hold; a NUL, which no process argument can carry, is a
    character like any other here. *)
Theorem argv_words_exact program args :
  shell_words (command_text (Argv program args)) = Some (program :: args).
Proof.
  unfold shell_words. cbn [command_text]. revert program. induction args as [|a args IH]; intros program.
  - change (read_words false None (shell_quote program) = Some [program]). rewrite <- (append_nil_r (shell_quote program)).
    by rewrite read_shell_quote.
  - change (read_words false None (shell_quote program +:+ " " +:+ join " " (shell_quote a :: (shell_quote <$> args))) = Some (program :: a :: args)).
    by rewrite read_shell_quote, read_blank, IH.
Qed.

(** ** Numbers and text *)
Lemma text_bytes_of s : text (bytes_of s) = s.
Proof.
  unfold text, bytes_of, bytes. induction s as [|c s IH]; [done|]. cbn [String.list_ascii_of_string]. rewrite !fmap_cons, ascii_of_code.
  cbn [String.string_of_list_ascii]. by rewrite IH.
Qed.
Lemma bytes_of_app s t : bytes_of (s +:+ t) = bytes_of s ++ bytes_of t.
Proof. unfold bytes_of. by rewrite bytes_app, fmap_app. Qed.
Lemma utf8_ascii l : Forall (fun b => 0 <= b < 128) l -> utf8_valid l = true.
Proof. induction 1 as [|b l Hb _ IH]; [done|]. cbn [utf8_valid]. by replace (b <? 128) with true by lia. Qed.

(** ** Lines *)
Lemma take_line_none l : take_line l = None <-> 10 ∉ l.
Proof.
  induction l as [|b l IH]; cbn; [split; [intros _; apply not_elem_of_nil|done]|]. rewrite not_elem_of_cons.
  destruct (Z.eqb_spec b 10) as [->|Hb]; [split; [done|by intros [[]]]|]. destruct (take_line l) as [[a r]|]; split; try done.
  - intros [_ H]. by apply IH in H.
  - intros _. split; [congruence|by apply IH].
Qed.
Lemma take_line_some l a r : take_line l = Some (a, r) <-> exists body, a = body ++ [10] /\ (10 ∉ body) /\ l = a ++ r.
Proof.
  revert a. induction l as [|b l IH]; intros a; cbn.
  { split; [done|]. intros (body & -> & _ & E). by destruct body. }
  destruct (Z.eqb_spec b 10) as [->|Hb].
  - split; [intros [= <- <-]; exists []; repeat split; [apply not_elem_of_nil]|]. intros (body & -> & Hn & E).
    destruct body as [|x body]; cbn in E; [by injection E as ->|]. injection E as <- _. by destruct Hn; left.
  - destruct (take_line l) as [[a' r']|] eqn:E.
    + split.
      * intros [= <- <-]. destruct (proj1 (IH a') eq_refl) as (body & -> & Hn & ->). exists (b :: body).
        repeat split; [rewrite not_elem_of_cons; by split].
      * intros (body & -> & Hn & E2). destruct body as [|x body]; cbn in E2; [congruence|]. injection E2 as <- E2.
        rewrite not_elem_of_cons in Hn. destruct Hn as [_ Hn].
        assert (Some (a', r') = Some (body ++ [10], r)) as [= -> ->]; [|done]. apply (IH (body ++ [10])). by exists body.
    + split; [done|]. intros (body & -> & Hn & E2). destruct body as [|x body]; cbn in E2; [congruence|]. injection E2 as <- E2.
      rewrite not_elem_of_cons in Hn. destruct Hn as [_ Hn]. assert (None = Some (body ++ [10], r)) as [=]. apply (IH (body ++ [10])). by exists body.
Qed.
Lemma take_line_app l a r t : take_line l = Some (a, r) -> take_line (l ++ t) = Some (a, r ++ t).
Proof.
  intros (body & -> & Hn & ->)%take_line_some. apply take_line_some. exists body. by rewrite <- !app_assoc.
Qed.
Lemma take_line_own body r : 10 ∉ body -> take_line (body ++ [10] ++ r) = Some (body ++ [10], r).
Proof. intros Hn. apply take_line_some. exists body. by rewrite app_assoc. Qed.
Lemma trim_newlines_one t : 10 ∉ t -> trim_newlines (t ++ [10]) = t.
Proof.
  induction t as [|b t IH]; intros Hn; [done|]. rewrite not_elem_of_cons in Hn. cbn. rewrite IH by tauto.
  destruct t; [|done]. by rewrite (proj2 (Z.eqb_neq b 10)) by (intros ->; tauto).
Qed.
Lemma strip_bytes_app p l : strip_bytes p (p ++ l) = Some l.
Proof. induction p as [|b p IH]; cbn; [done|]. by rewrite Z.eqb_refl. Qed.

Section Reading.
Context `{Base64} (utf8_error : list Z -> string).
Abbreviation handle := (handle_protocol_line utf8_error).
Abbreviation push := (push_stdout utf8_error).
(** The lines in a buffer, whatever its length. *)
Definition drained (l : list Z) (c : ShellDispatchCapture) : ShellDispatchCapture * result Error (option CommandOutput) :=
  drain_lines utf8_error (length l) (set_line l c).
Lemma handle_line x line c : handle line (set_line x c) = (set_line x (handle line c).1, (handle line c).2).
Proof.
  unfold handle_protocol_line. destruct (strip_bytes [30] line); [|done]. destruct (negb _); [done|]. cbn [sc_nonce set_line].
  repeat case_match; done.
Qed.
Lemma drain_enough n m c : (length c.(sc_stdout_line) <= n)%nat -> (length c.(sc_stdout_line) <= m)%nat ->
  drain_lines utf8_error n c = drain_lines utf8_error m c.
Proof.
  revert m c. induction n as [|n IH]; intros m c Hn Hm.
  { destruct m; [done|]. cbn [drain_lines]. by destruct (sc_stdout_line c); [|cbn in Hn; lia]. }
  destruct m as [|m]; [cbn [drain_lines]; by destruct (sc_stdout_line c); [|cbn in Hm; lia]|].
  cbn [drain_lines]. destruct (take_line (sc_stdout_line c)) as [[a r]|] eqn:E; [|done].
  pose proof E as (body & -> & _ & El)%take_line_some. rewrite El, !length_app in Hn, Hm. cbn [length] in Hn, Hm.
  rewrite handle_line. destruct (handle (body ++ [10]) c) as [c' [[o|]|e]]; cbn [fst snd]; [done| |done].
  apply IH; cbn [set_line sc_stdout_line]; lia.
Qed.
Lemma drained_set l x c : drained l (set_line x c) = drained l c.
Proof. done. Qed.
Lemma drained_none l c : (10 ∉ l) -> drained l c = (set_line l c, Ok None).
Proof.
  intros Hn. unfold drained. destruct l as [|b l]; [done|]. cbn [length drain_lines set_line sc_stdout_line].
  by rewrite (proj2 (take_line_none _) Hn).
Qed.
Lemma drained_step l a r c : take_line l = Some (a, r) ->
  drained l c = match handle a c with (c', Ok None) => drained r c' | (c', o) => (set_line r c', o) end.
Proof.
  intros E. pose proof E as (body & -> & _ & ->)%take_line_some. unfold drained at 1. rewrite (drain_enough _ (S (length (body ++ [10] ++ r)))); cbn [set_line sc_stdout_line].
  2-3: rewrite !length_app; cbn; lia.
  cbn [drain_lines set_line sc_stdout_line]. rewrite E. change (set_line r (set_line _ c)) with (set_line r c). rewrite handle_line.
  destruct (handle (body ++ [10]) c) as [c' [[o|]|e]]; cbn [fst snd]; [done| |done].
  unfold drained. apply drain_enough; cbn [set_line sc_stdout_line]; rewrite ?length_app; cbn; lia.
Qed.
Lemma push_drained bs c : push bs c = drained (c.(sc_stdout_line) ++ bs) c.
Proof. done. Qed.
(** However the bytes are cut, the outcome is that of all of them. *)
Lemma push_app x t c :
  match push x c with
  | (c', Ok None) => push (x ++ t) c = push t c'
  | (_, r) => (push (x ++ t) c).2 = r
  end.
Proof.
  rewrite !push_drained, app_assoc. generalize (sc_stdout_line c ++ x). intros l.
  remember (length l) as n eqn:En. revert l c En. induction n as [n IH] using lt_wf_ind. intros l c ->.
  destruct (take_line l) as [[a r]|] eqn:E.
  - rewrite (drained_step l a r c E), (drained_step (l ++ t) a (r ++ t) c (take_line_app _ _ _ _ E)).
    destruct (handle a c) as [c' [[o|]|e]]; [done| |done]. apply (IH (length r)); [|done].
    apply take_line_some in E as (body & -> & _ & ->). rewrite !length_app. cbn. lia.
  - apply take_line_none in E. rewrite (drained_none l c E). rewrite push_drained. cbn [set_line sc_stdout_line].
    by rewrite <- (drained_set (l ++ t) l c).
Qed.
(** Output that a run passes over: complete lines that do not begin with the
    record separator, and lines that do but are text and carry none of the
    markers of this run (the reports of runs with other nonces among them).  What
    is left out ends or alters the run: a line of this run's markers, and a line
    behind a record separator that is not UTF-8 ([undecodable_line_fails]). *)
Definition line_bytes (l : list Z) : Prop := Forall (fun b => 32 <= b < 128) l.
Definition report (name nonce : string) (payload : list Z) : list Z := 30 :: marker name nonce ++ payload ++ [10].
Definition names : list string := ["STDOUT"; "STDERR"; "END"]%string.
Inductive noise (nonce : string) : list Z -> Prop :=
  | noise_plain body : (10 ∉ body) -> head body <> Some 30 -> noise nonce (body ++ [10])
  | noise_foreign body : (10 ∉ body) -> utf8_valid (body ++ [10]) = true ->
      (forall name, name ∈ names -> strip_bytes (marker name nonce) body = None) -> noise nonce (30 :: body ++ [10]).
Lemma strip_bytes_ne p q l : length p = length q -> p <> q -> strip_bytes p (q ++ l) = None.
Proof.
  revert q. induction p as [|b p IH]; intros [|d q] El Hne; [done..|]. cbn. destruct (Z.eqb_spec b d) as [->|]; [|done].
  apply IH; [by injection El|congruence].
Qed.
Lemma length_bytes_of s : length (bytes_of s) = String.length s.
Proof. unfold bytes_of, bytes. rewrite length_fmap. induction s as [|c s IH]; [done|]. cbn. by rewrite IH. Qed.
Lemma bytes_of_inj s t : bytes_of s = bytes_of t -> s = t.
Proof. intros E. by rewrite <- (text_bytes_of s), E, text_bytes_of. Qed.
Lemma marker_split name nonce : marker name nonce = bytes_of ("FK_" +:+ name +:+ ":") ++ bytes_of nonce ++ [58].
Proof. unfold marker. rewrite !bytes_of_app, <- !app_assoc. done. Qed.
Lemma strip_other name name' nonce other l : name ∈ names -> name' ∈ names -> other <> nonce -> String.length other = String.length nonce ->
  strip_bytes (marker name nonce) (marker name' other ++ l) = None.
Proof.
  intros Hn Hn' Hne El. rewrite !marker_split, <- !app_assoc.
  assert (strip_bytes (bytes_of nonce ++ [58]) ((bytes_of other ++ [58]) ++ l) = None) as Hd.
  { apply strip_bytes_ne; [rewrite !length_app, !length_bytes_of; lia|]. intros E. apply (f_equal reverse) in E. rewrite !reverse_snoc in E.
    injection E as E. apply (inj reverse) in E. by apply bytes_of_inj in E. }
  rewrite <- app_assoc in Hd. unfold names in *. rewrite !elem_of_cons, elem_of_nil in Hn, Hn'.
  destruct Hn as [->|[->|[->|[]]]], Hn' as [->|[->|[->|[]]]]; first [exact Hd|reflexivity].
Qed.
Lemma line_plain l : line_bytes l -> (10 ∉ l) /\ utf8_valid (l ++ [10]) = true.
Proof.
  intros Hl. split; [intros Hin; pose proof (proj1 (Forall_forall _ _) Hl _ Hin) as Hx; cbn in Hx; lia|]. apply utf8_ascii. apply Forall_app. split; [|by repeat constructor].
  eapply Forall_impl; [exact Hl|]. cbn. lia.
Qed.
Lemma marker_plain name nonce : name ∈ names -> line_bytes (bytes_of nonce) -> line_bytes (marker name nonce).
Proof.
  intros Hn Hl. rewrite marker_split. unfold names, line_bytes in *. rewrite !elem_of_cons, elem_of_nil in Hn.
  rewrite !Forall_app. split; [|split; [done|repeat constructor; done]].
  destruct Hn as [->|[->|[->|[]]]]; cbn; repeat constructor; done.
Qed.
Lemma report_line_ok name nonce payload : name ∈ names -> line_bytes (bytes_of nonce) -> line_bytes payload ->
  (10 ∉ (30 :: marker name nonce ++ payload)) /\ utf8_valid (marker name nonce ++ payload ++ [10]) = true
  /\ trim_newlines (marker name nonce ++ payload ++ [10]) = marker name nonce ++ payload.
Proof.
  intros Hn Hl Hp. assert (line_bytes (marker name nonce ++ payload)) as Ha.
  { apply Forall_app. split; [by apply marker_plain|done]. }
  destruct (line_plain _ Ha) as [H10 Hu]. rewrite app_assoc. repeat split; [|done|by apply trim_newlines_one].
  rewrite not_elem_of_cons. by split.
Qed.
(** The late report of a run that was given up. *)
Lemma noise_stale nonce name other payload : name ∈ names -> other <> nonce -> String.length other = String.length nonce ->
  line_bytes (bytes_of other) -> line_bytes payload -> noise nonce (report name other payload).
Proof.
  intros Hn Hne El Ho Hp. destruct (report_line_ok name other payload Hn Ho Hp) as (H10 & Hu & _). unfold report. rewrite app_assoc in *.
  apply noise_foreign; [|done|intros name' Hn'; by apply strip_other]. by apply not_elem_of_cons in H10 as [_ ?].
Qed.
Lemma handle_noise nonce line c : noise nonce line -> c.(sc_nonce) = nonce -> handle line c = (c, Ok None).
Proof.
  intros [body Hb Hh|body Hb Hu Hm] En; unfold handle_protocol_line.
  - assert (strip_bytes [30] (body ++ [10]) = None) as ->; [|done]. destruct body as [|b body]; [done|]. cbn [app strip_bytes].
    destruct (Z.eqb_spec 30 b) as [<-|]; [by destruct Hh|done].
  - cbn [strip_bytes]. rewrite Z.eqb_refl, Hu, trim_newlines_one by done. cbn [negb]. by rewrite En, !Hm by (unfold names; set_solver).
Qed.
Lemma noise_line nonce line : noise nonce line -> exists body, line = body ++ [10] /\ (10 ∉ body).
Proof.
  intros [body Hb Hh|body Hb Hu Hm]; [by exists body|]. exists (30 :: body). split; [done|]. by apply not_elem_of_cons.
Qed.
Lemma drained_line body r c : 10 ∉ body ->
  drained ((body ++ [10]) ++ r) c = match handle (body ++ [10]) c with (c', Ok None) => drained r c' | (c', o) => (set_line r c', o) end.
Proof. intros Hb. apply drained_step. rewrite <- app_assoc. by apply take_line_own. Qed.
Lemma drained_noise nonce lines r c : Forall (noise nonce) lines -> c.(sc_nonce) = nonce -> drained (concat lines ++ r) c = drained r c.
Proof.
  intros Hl En. induction Hl as [|line lines Hn _ IH]; [done|]. cbn [concat]. rewrite <- app_assoc.
  destruct (noise_line _ _ Hn) as (body & -> & Hb). rewrite drained_line, (handle_noise nonce _ _ Hn En) by done. exact IH.
Qed.
(** Base64 text is printable, and decodes to what was encoded. *)
Class Base64Text := {
  b64_text d : Forall (in_uint 8) d -> line_bytes (b64_encode d);
  b64_text_roundtrip d : Forall (in_uint 8) d -> b64_decode (b64_encode d) = Ok d
}.
Context `{!Base64Text}.
(** What the script of a run prints when its command has ended. *)
Definition reports (nonce : string) (out err : list Z) (rc : Z) : list Z :=
  report "STDOUT" nonce (b64_encode out) ++ report "STDERR" nonce (b64_encode err) ++ report "END" nonce (bytes_of (print_dec rc)).
Lemma strip_sibling name name' nonce l : name ∈ names -> name' ∈ names ->
  strip_bytes (marker name nonce) (marker name' nonce ++ l) = if decide (name = name') then Some l else None.
Proof.
  unfold names. rewrite !elem_of_cons, !elem_of_nil. intros Hn Hn'.
  destruct Hn as [->|[->|[->|[]]]], Hn' as [->|[->|[->|[]]]]; try (rewrite decide_True by done; apply strip_bytes_app); try (rewrite decide_False by done; reflexivity).
Qed.
Lemma drained_report name nonce payload r c : name ∈ names -> line_bytes (bytes_of nonce) -> line_bytes payload -> c.(sc_nonce) = nonce ->
  drained (report name nonce payload ++ r) c =
  match (if decide (name = "STDOUT"%string)
         then match decode_shell_payload payload "stdout" with Ok d => (set_stdout d c, Ok None) | Err e => (c, Err e) end
         else if decide (name = "STDERR"%string)
         then match decode_shell_payload payload "stderr" with Ok d => (set_stderr d c, Ok None) | Err e => (c, Err e) end
         else match parse_i32 (text payload) with
              | Ok n => (mk_capture nonce c.(sc_stdout_line) None None c.(sc_protocol_stderr),
                         Ok (Some (mk_output (Exited n) (default [] c.(sc_stdout)) (default [] c.(sc_stderr)))))
              | Err e => (c, Err (process_failure "decode retained shell exit status" None
                                    ("invalid exit status " +:+ bt (text payload) +:+ ": " +:+ e) NotRetryable))
              end) with
  | (c', Ok None) => drained r c'
  | (c', o) => (set_line r c', o)
  end.
Proof.
  intros Hn Hl Hp En. destruct (report_line_ok name nonce payload Hn Hl Hp) as (Hb & Hu & Ht).
  replace (report name nonce payload) with ((30 :: marker name nonce ++ payload) ++ [10]) by (unfold report; by rewrite <- app_comm_cons, <- app_assoc).
  rewrite drained_line by done. unfold handle_protocol_line. cbn [app strip_bytes]. rewrite Z.eqb_refl, <- !app_assoc, Hu, Ht, En. cbn [negb].
  rewrite !strip_sibling by (done || (unfold names; set_solver)). unfold names in Hn. rewrite !elem_of_cons, elem_of_nil in Hn.
  by destruct Hn as [->|[->|[->|[]]]].
Qed.
Lemma digits_line n : 0 <= n -> line_bytes (bytes_of (print_dec n)).
Proof.
  intros Hn. pose proof (print_dec_digits n Hn) as Hd. unfold all_bytes in Hd. unfold line_bytes, bytes_of. revert Hd.
  induction (bytes (print_dec n)) as [|x l IH]; [constructor|]. cbn [forallb]. rewrite andb_true_iff. intros [Hx Hl]. rewrite fmap_cons.
  constructor; [unfold is_ascii_digit in Hx; lia|by apply IH].
Qed.
Lemma drained_reports nonce out err rc r c : line_bytes (bytes_of nonce) -> Forall (in_uint 8) out -> Forall (in_uint 8) err -> in_uint 31 rc ->
  c.(sc_nonce) = nonce -> (drained (reports nonce out err rc ++ r) c).2 = Ok (Some (mk_output (Exited rc) out err)).
Proof.
  intros Hl Ho He Hrc En. unfold reports. rewrite <- !app_assoc.
  rewrite (drained_report "STDOUT" nonce) by first [done|by apply b64_text|unfold names; set_solver].
  unfold decode_shell_payload. rewrite b64_text_roundtrip by done. cbn [map_err].
  change (if decide ("STDOUT" = "STDOUT")%string then ?a else _) with a. cbn beta iota.
  rewrite (drained_report "STDERR" nonce) by first [done|by apply b64_text|unfold names; set_solver].
  unfold decode_shell_payload. rewrite b64_text_roundtrip by done. cbn [map_err].
  change (if decide ("STDERR" = "STDOUT")%string then _ else if decide ("STDERR" = "STDERR")%string then ?a else _) with a. cbn beta iota.
  rewrite (drained_report "END" nonce) by first [done|apply digits_line; uint_lia|unfold names; set_solver].
  change (if decide ("END" = "STDOUT")%string then _ else if decide ("END" = "STDERR")%string then _ else ?a) with a. rewrite text_bytes_of. unfold parse_i32. by rewrite from_str_print.
Qed.

(** ** Reading the events *)
Lemma drained_clean l c c' : drained l c = (c', Ok None) -> (10 ∉ c'.(sc_stdout_line)) /\ c'.(sc_nonce) = c.(sc_nonce).
Proof.
  remember (length l) as n eqn:En. revert l c En. induction n as [n IH] using lt_wf_ind. intros l c -> E.
  destruct (take_line l) as [[a r]|] eqn:Et.
  - rewrite (drained_step l a r c Et) in E. assert ((handle a c).1.(sc_nonce) = c.(sc_nonce)) as Hn.
    { unfold handle_protocol_line. by repeat case_match. }
    destruct (handle a c) as [c1 [[o|]|e]]; [done| |done]. cbn in Hn. rewrite <- Hn. apply (IH (length r) ) in E; [done| |done].
    apply take_line_some in Et as (body & -> & _ & ->). rewrite !length_app. cbn. lia.
  - apply take_line_none in Et. rewrite (drained_none l c Et) in E. by injection E as <-.
Qed.
Lemma drained_stderr bs l c : drained l (push_protocol_stderr bs c) = (push_protocol_stderr bs (drained l c).1, (drained l c).2).
Proof.
  remember (length l) as n eqn:En. revert l c En. induction n as [n IH] using lt_wf_ind. intros l c ->.
  destruct (take_line l) as [[a r]|] eqn:Et.
  - rewrite !(drained_step l a r _ Et). assert (handle a (push_protocol_stderr bs c) = (push_protocol_stderr bs (handle a c).1, (handle a c).2)) as ->.
    { unfold handle_protocol_line. cbn [sc_nonce push_protocol_stderr sc_stdout sc_stderr]. by repeat case_match. }
    destruct (handle a c) as [c1 [[o|]|e]]; cbn [fst snd]; [done| |done]. apply (IH (length r)); [|done].
    apply take_line_some in Et as (body & -> & _ & ->). rewrite !length_app. cbn. lia.
  - apply take_line_none in Et. by rewrite !(drained_none l _ Et).
Qed.
(** The events a shell sends while it lives. *)
Definition alive (e : result Error ProcessEvent) : bool :=
  match e with Ok (Started _) | Ok (Stdout _) | Ok (Stderr _) => true | _ => false end.
Definition stdout_of (e : result Error ProcessEvent) : list Z := match e with Ok (Stdout bs) => bs | _ => [] end.
Lemma read_alive sid evs more ends c out : Forall (fun e => alive e = true) evs -> (10 ∉ c.(sc_stdout_line)) ->
  (push (concat (stdout_of <$> evs)) c).2 = Ok (Some out) ->
  exists rest, rest `suffix_of` evs /\ read_events utf8_error sid c (evs ++ more) ends = (rest ++ more, Some (Ok out)).
Proof.
  intros Ha. revert c. induction Ha as [|e evs He _ IH]; intros c Hc Hp.
  { cbn [concat fmap list_fmap] in Hp. rewrite push_drained, app_nil_r, drained_none in Hp by done. done. }
  destruct e as [[i|bs|bs|n|g]|er]; try done; cbn [app read_events fmap list_fmap stdout_of concat] in *.
  - destruct (IH c Hc Hp) as (rest & Hs & ->). exists rest. split; [by apply suffix_cons_r|done].
  - pose proof (push_app bs (concat (stdout_of <$> evs)) c) as Hcut. destruct (push bs c) as [c' [[o|]|er]] eqn:E.
    + change (concat (list_fmap _ _ stdout_of evs)) with (concat (stdout_of <$> evs)) in Hp. rewrite Hp in Hcut. injection Hcut as <-.
      exists evs. split; [by apply suffix_cons_r|done].
    + change (concat (list_fmap _ _ stdout_of evs)) with (concat (stdout_of <$> evs)) in Hp. rewrite Hcut in Hp.
      rewrite push_drained in E. apply drained_clean in E as [Hc' _]. destruct (IH c' Hc' Hp) as (rest & Hs & ->).
      exists rest. split; [by apply suffix_cons_r|done].
    + change (concat (list_fmap _ _ stdout_of evs)) with (concat (stdout_of <$> evs)) in Hp. rewrite Hp in Hcut. done.
  - destruct (IH (push_protocol_stderr bs c) Hc) as (rest & Hs & ->).
    + rewrite push_drained, drained_stderr. exact Hp.
    + exists rest. split; [by apply suffix_cons_r|done].
Qed.
(** C36: A retained run returns exactly what its command did.  If the shell is
    open and takes the script, and what it sends is, on its standard output and
    however cut into events, complete lines that are no report of this run
    followed by the report of this run, then the run returns the command's exit
    code, standard output and standard error, byte for byte; it reads no event
    past the one that completes the report, and the shell stays open.  The lines
    before may be anything that does not begin with the record separator, and
    behind one any UTF-8 text without a marker of this run (prompts, background
    output, late reports of earlier runs that were given up); a line that begins
    with the separator and is not UTF-8 fails the run instead
    ([undecodable_line_fails]). *)
Theorem retained_run_exact {B} `{ProcessService B} sid cmd p nonce (s : ShellState) (b b' : B) lines out err rc evs more after ends :
  plan_new cmd = Ok p -> s.(sh_closed) = false -> s.(sh_queue) = mk_queue (evs ++ more) ends ->
  send_to_shell sid s (InputBytes (bytes_of (dispatch_script p nonce))) b = (b', Ok tt) ->
  line_bytes (bytes_of nonce) -> Forall (noise nonce) lines ->
  Forall (in_uint 8) out -> Forall (in_uint 8) err -> in_uint 8 rc ->
  Forall (fun e => alive e = true) evs -> concat (stdout_of <$> evs) = concat lines ++ reports nonce out err rc ++ after ->
  exists rest, rest `suffix_of` evs /\
    shell_run utf8_error sid cmd nonce s b =
    (mk_shell s.(sh_tag) false (mk_queue (rest ++ more) ends), b', Some (Ok (mk_output (Exited rc) out err))).
Proof.
  intros Hp Hc Hq Hs Hn Hl Ho He Hrc Ha Eo.
  destruct (read_alive sid evs more ends (capture_new nonce) (mk_output (Exited rc) out err) Ha) as (rest & Hr & E).
  { apply not_elem_of_nil. }
  { rewrite Eo, push_drained. cbn [capture_new sc_stdout_line app]. rewrite (drained_noise nonce) by done.
    apply drained_reports; try done. uint_lia. }
  exists rest. split; [done|]. unfold shell_run, run_plan_with_nonce. rewrite Hp, Hc, Hs, Hq. cbn [eq_events eq_ends]. rewrite E.
  unfold set_queue. by rewrite Hc.
Qed.
End Reading.

(** ** Closing and leasing *)
Section Pools.
Context {B : Type} `{ProcessService B} (sid : string).
Lemma close_closed s (b : B) : s.(sh_closed) = true -> close_shell sid s b = (s, b, Ok tt).
Proof. intros Hc. unfold close_shell. by rewrite Hc. Qed.
Lemma close_shell_closes s (b : B) : (close_shell sid s b).1.1.(sh_closed) = true.
Proof.
  unfold close_shell. destruct (sh_closed s) eqn:E; [done|]. by destruct (with_processes _ _ _ b).
Qed.
Lemma close_shells_closes shells first_error (b : B) :
  Forall (fun s => s.(sh_closed) = true) (close_shells sid shells first_error b).1.1.
Proof.
  revert first_error b. induction shells as [|s shells IH]; intros fe b; [constructor|]. cbn [close_shells].
  pose proof (close_shell_closes s b) as Hc. destruct (close_shell sid s b) as [[s' b1] r]. specialize (IH (match fe, r with None, Err e => Some e | _, _ => fe end) b1).
  destruct (close_shells sid shells _ b1) as [[rest b2] e]. by constructor.
Qed.
Lemma close_shells_again shells (b : B) : Forall (fun s => s.(sh_closed) = true) shells -> close_shells sid shells None b = (shells, b, None).
Proof. induction 1 as [|s shells Hs _ IH]; [done|]. cbn [close_shells]. rewrite close_closed by done. by rewrite IH. Qed.
(** Closing a pool closes every shell of it, also the ones after one whose
    signal fails, and a second close does nothing. *)
Lemma pool_close_closes p (b : B) : let '(p', b', _) := pool_close sid p b in
  Forall (fun s => s.(sh_closed) = true) p'.(sp_shells) /\ pool_close sid p' b' = (p', b', Ok tt).
Proof.
  unfold pool_close. pose proof (close_shells_closes p.(sp_shells) None b) as Hc.
  destruct (close_shells sid p.(sp_shells) None b) as [[shells b1] e]. cbn in Hc. split; [done|]. cbn [sp_shells sp_next].
  by rewrite close_shells_again.
Qed.
End Pools.
Fixpoint leases (n : nat) (p : ShellPool) : list nat :=
  match n with O => [] | S n => let '(p, i) := lease p in i :: leases n p end.
(** The leases go round the shells, in order, until the counter wraps. *)
Lemma leases_round n p : 0 <= p.(sp_next) -> p.(sp_next) + Z.of_nat n <= 2 ^ 64 ->
  leases n p = (fun k => Z.to_nat ((p.(sp_next) + Z.of_nat k) mod Z.of_nat (length p.(sp_shells)))) <$> seq 0 n.
Proof.
  revert p. induction n as [|n IH]; intros p H0 Hn; [done|]. cbn [leases lease seq]. rewrite fmap_cons, Z.add_0_r. f_equal.
  destruct n as [|n]; [done|]. rewrite IH; cbn [sp_next sp_shells]; rewrite ?wrap_small by (unfold in_uint, max_uint; lia); try lia.
  rewrite <- fmap_S_seq, <- list_fmap_compose. apply list_fmap_ext. intros i k _. unfold compose. rewrite Nat2Z.inj_succ. f_equal. f_equal. lia.
Qed.

(** ** Concrete runs *)
(** Two letters per byte. *)
Fixpoint letters (l : list Z) : list Z := match l with [] => [] | b :: l => 97 + b / 16 :: 97 + b mod 16 :: letters l end.
Fixpoint unletters (l : list Z) : list Z := match l with a :: b :: l => (a - 97) * 16 + (b - 97) :: unletters l | _ => [] end.
#[local] Instance letters_base64 : Base64 := {| b64_encode := letters; b64_decode := fun l => Ok (unletters l) |}.
#[local] Instance letters_text : Base64Text.
Proof.
  split; intros d Hd; cbn; induction Hd as [|b l Hb _ IH]; cbn [letters unletters]; try done; try constructor.
  - unfold in_uint in Hb. pose proof (Z.div_pos b 16). pose proof (Z.div_lt_upper_bound b 16 16). lia.
  - constructor; [|done]. pose proof (Z.mod_pos_bound b 16). lia.
  - do 2 f_equal; [pose proof (Z.div_mod b 16); lia|congruence].
Qed.
#[local] Instance quiet_service : ProcessService unit := {|
  has_processes := true;
  start_process_stream := fun _ _ b => (b, Ok tt);
  send_process_input := fun _ _ _ b => (b, Ok tt);
  signal_process := fun _ _ _ b => (b, Ok tt)
|}.
Definition no_utf8_error : list Z -> string := fun _ => "invalid utf-8"%string.
Definition sample_events : list (result Error ProcessEvent) :=
  [Ok (Stdout (bytes_of ("motd" +:+ nl) ++ report "END" "n0" (bytes_of "7") ++ [30; 70])); Ok (Stderr [1]);
   Ok (Stdout (drop 2 (reports "n1" [104; 105] [] 3)))].
Definition sample_shell : ShellState := mk_shell "t" false (mk_queue sample_events false).
Definition sample_command : Command := mk_command (Argv "ls" []) None ∅ None None None None None.
Lemma retained_run_exact_witness : exists rest, rest `suffix_of` sample_events /\
  shell_run no_utf8_error "sb" sample_command "n1" sample_shell tt =
  (mk_shell "t" false (mk_queue (rest ++ []) false), tt, Some (Ok (mk_output (Exited 3) [104; 105] []))).
Proof.
  apply (retained_run_exact no_utf8_error "sb" sample_command (mk_plan (Argv "ls" []) None ∅) "n1" sample_shell tt tt
           [bytes_of "motd" ++ [10]; report "END" "n0" (bytes_of "7")] [104; 105] [] 3 sample_events [] []).
  1-4: reflexivity.
  1: repeat constructor; done.
  1: apply Forall_cons_2; [apply noise_plain; [vm_compute; set_solver|done]|apply Forall_singleton].
  1: apply (noise_stale no_utf8_error); [unfold names; set_solver|done|done|repeat constructor; done|repeat constructor; done].
  1-2: repeat constructor; done.
  1: done.
  1: repeat constructor.
  reflexivity.
Defined.
(** Output that does not end its line hides the report that follows it: the
    run then succeeds with an empty standard output. *)
Lemma unended_line_hides_stdout :
  let evs := [Ok (Stdout (bytes_of "no newline" ++ reports "n1" [104; 105] [] 0))] in
  (shell_run no_utf8_error "sb" sample_command "n1" (mk_shell "t" false (mk_queue evs false)) tt).2
  = Some (Ok (mk_output (Exited 0) [] [])).
Proof. reflexivity. Qed.
(** A line behind a record separator that is not text fails the run, although
    its report follows. *)
Lemma undecodable_line_fails :
  let evs := [Ok (Stdout ([30; 255; 10] ++ reports "n1" [104; 105] [] 0))] in
  exists e, (shell_run no_utf8_error "sb" sample_command "n1" (mk_shell "t" false (mk_queue evs false)) tt).2 = Some (Err e).
Proof. eexists. reflexivity. Qed.
(** The variables of a command line are set for its first simple command only. *)
Lemma env_first_command_only :
  invocation_script (mk_plan (Shell "true; run") None {["K" := "v"]}) = "( K='v' true; run )"%string.
Proof. reflexivity. Qed.
