(* ===== verification/SandboxNode.v ===== *)
(** * The public sandbox API on a single node ([crates/single-node/src/sandbox_api.rs])

    [AppleVzBackend]: templates and warm pools of its own over the node of
    [Backend], which keeps the sessions and the snapshots.  The files of a
    sandbox are reached through shell commands.  What clock and disk show is
    read from the [Readings], one after the other; the registries' locks are
    never poisoned (nothing under them panics) and not modelled; the counter of
    the sandbox identities, a u64, is taken to stay below its limit. *)
From S2P Require Import Prelude HostPaths HostFs BTree Types Capacity E2bWire E2bRegistry E2bRoutes SessionFiles EnvdHttp Scheduler NodeState DiskGuard Envd Backend SandboxApi.
Import Sizes.

(** ** State *)
Record Readings := mk_readings { rd_surroundings : nat -> Surroundings; rd_now_utc : nat -> Z }.
Record AppleVzBackend (D : Type) := mk_vz {
  vz_inner : Node D;
  vz_templates : strmap Sb.PreparedTemplate;
  vz_warm_pools : strmap (list string);
  vz_next_sandbox : Z;
  vz_readings : Readings
}.
Arguments mk_vz {D} vz_inner vz_templates vz_warm_pools vz_next_sandbox vz_readings.
Arguments vz_inner {D} a.
Arguments vz_templates {D} a.
Arguments vz_warm_pools {D} a.
Arguments vz_next_sandbox {D} a.
Arguments vz_readings {D} a.
Definition from_single_node {D} (n : Node D) (r : Readings) : AppleVzBackend D := mk_vz n ∅ ∅ 0 r.
Definition VM (D A : Type) : Type := AppleVzBackend D -> AppleVzBackend D * result Sb.Error A.
#[global] Instance VM_ret {D} : MRet (VM D) := fun A a v => (v, Ok a).
#[global] Instance VM_bind {D} : MBind (VM D) := fun A B k m v =>
  match m v with (v', Ok a) => k a v' | (v', Err e) => (v', Err e) end.

(** ** Errors *)
Definition backend_name : string := "apple-vz".
Definition node_error_display (e : Error) : string :=
  match e with
  | InvalidRequest m => "invalid single-node runtime request: " +:+ m
  | UnsupportedCapability m => "unsupported single-node runtime capability: " +:+ m
  | CapacityRejected m => "single-node runtime capacity rejected operation: " +:+ m
  | DiskPressure m => "single-node runtime disk pressure: " +:+ m
  | SandboxNotFound m => "single-node sandbox not found: " +:+ m
  | SnapshotNotFound m => "single-node snapshot not found: " +:+ m
  | Conflict m => "single-node runtime conflict: " +:+ m
  | TemplateBuildFailed m => "single-node template build failed: " +:+ m
  | RuntimeLaunchFailed m => "single-node runtime launch failed: " +:+ m
  | RuntimeCommandFailed m => "single-node runtime command failed: " +:+ m
  | StatePersistenceFailed m => "single-node runtime state persistence failed: " +:+ m
  | ProtocolFailure m => "single-node runtime protocol failure: " +:+ m
  end.
Definition map_error (operation : string) (e : Error) : Sb.Error :=
  match e with
  | UnsupportedCapability reason => Sb.UnsupportedCapability operation Sb.RuntimeCreate (Sb.Permanent reason)
  | SandboxNotFound id => Sb.NotFound operation Sb.RkSandbox id
  | SnapshotNotFound id => Sb.NotFound operation Sb.RkSnapshot id
  | CapacityRejected reason => Sb.CapacityRejected operation backend_name reason Sb.Unknown
  | DiskPressure reason => Sb.CapacityRejected operation backend_name reason Sb.Retryable
  | Conflict id => Sb.AlreadyExists operation Sb.RkSandbox id
  | other => Sb.BackendFailure operation backend_name (node_error_display other) Sb.Unknown
  end.
Definition process_backend_failure (operation : string) (e : BackendError) : Sb.Error :=
  Sb.ProcessFailure operation None None (backend_display e) Sb.Unknown.
Definition filesystem_failure (operation : string) (path : option string) (reason : string) : Sb.Error :=
  Sb.FilesystemFailure operation None path reason Sb.Unknown.

(** ** Capabilities *)
Definition capabilities : Sb.Capabilities :=
  foldl (fun c n => Sb.with_supported n c)
    (Sb.all_unsupported (Sb.Permanent "Apple/VZ single-node adapter does not implement this capability yet"))
    [Sb.TemplatePrepare; Sb.TemplateDataPlaneNone; Sb.RuntimeCreate; Sb.RuntimeAttach; Sb.RuntimeList; Sb.RuntimeDeadline;
     Sb.SandboxStop; Sb.SandboxKill; Sb.SandboxDelete; Sb.SnapshotCapture; Sb.SnapshotDelete; Sb.ProcessRun; Sb.ProcessStart;
     Sb.ProcessStream; Sb.ProcessStdin; Sb.ProcessSignal; Sb.FilesystemRead; Sb.FilesystemWrite; Sb.FilesystemCopyIn;
     Sb.FilesystemCopyOut; Sb.FilesystemList; Sb.WarmPoolPrewarm; Sb.WarmPoolCheckout].

(** ** Identifiers *)
Definition sanitize_id_value (raw : string) : string :=
  let cleaned := String.string_of_list_ascii ((fun b => if Sb.is_id_byte b then b else "_"%char) <$> bytes raw) in
  String.substring 0 64 (trim_matches "_" cleaned).
Definition source_reference (s : Sb.TemplateSource) : option string :=
  match s with Sb.Oci reference => Some reference | Sb.Git url => Some url | Sb.Local path => Some path end.
Definition template_id_from_source (s : Sb.TemplateSource) : string :=
  sanitize_id_value (match source_reference s with Some r => r | None => "template"%string end).
Definition warm_pool_key (template_id : string) : result Sb.Error string := Sb.new_id "warm-pool key" ("template-" +:+ template_id).
Definition default_resources : SandboxResources := resources_new 2 (gib 8).
Definition single_node_resources (r : Sb.SandboxResources) : SandboxResources :=
  resources_new r.(Sb.rs_vcpus) (size_bytes r.(Sb.rs_memory_bytes)).

Section Node.
Context {D : Type} `{RuntimeDriver D}.
Context `{Json (list ActiveSessionRecord), Json (list SnapshotRecord), Json Logs}.
Abbreviation M := (VM D).
Definition raise {A} (e : Sb.Error) : M A := fun v => (v, Err e).
Definition lift {A} (r : result Sb.Error A) : M A := fun v => (v, r).
Definition set_inner (n : Node D) (v : AppleVzBackend D) : AppleVzBackend D :=
  mk_vz n v.(vz_templates) v.(vz_warm_pools) v.(vz_next_sandbox) v.(vz_readings).
Definition set_templates (t : strmap Sb.PreparedTemplate) (v : AppleVzBackend D) : AppleVzBackend D :=
  mk_vz v.(vz_inner) t v.(vz_warm_pools) v.(vz_next_sandbox) v.(vz_readings).
Definition set_warm (w : strmap (list string)) (v : AppleVzBackend D) : AppleVzBackend D :=
  mk_vz v.(vz_inner) v.(vz_templates) w v.(vz_next_sandbox) v.(vz_readings).
(** [self.inner.m().map_err(|error| Self::map_error(operation, error))]. *)
Definition inner {A} (operation : string) (m : BM D A) : M A := fun v =>
  let '(n, r) := m v.(vz_inner) in (set_inner n v, map_err (map_error operation) r).
Definition templates : M (strmap Sb.PreparedTemplate) := fun v => (v, Ok v.(vz_templates)).
Definition surroundings : M Surroundings := fun v =>
  (mk_vz v.(vz_inner) v.(vz_templates) v.(vz_warm_pools) v.(vz_next_sandbox)
     (mk_readings (fun k => v.(vz_readings).(rd_surroundings) (S k)) v.(vz_readings).(rd_now_utc)),
   Ok (v.(vz_readings).(rd_surroundings) O)).
Definition now_utc : M Z := fun v =>
  (mk_vz v.(vz_inner) v.(vz_templates) v.(vz_warm_pools) v.(vz_next_sandbox)
     (mk_readings v.(vz_readings).(rd_surroundings) (fun k => v.(vz_readings).(rd_now_utc) (S k))),
   Ok (v.(vz_readings).(rd_now_utc) O)).
Definition next_sandbox_id : M string := fun v =>
  let next := v.(vz_next_sandbox) + 1 in
  (mk_vz v.(vz_inner) v.(vz_templates) v.(vz_warm_pools) next v.(vz_readings),
   Sb.new_id "sandbox id" ("sbx_firkin_" +:+ print_dec next)).
Definition active_records : BM D (list ActiveSessionRecord) := on_state (fun _ => on_store load_active).
Definition snapshot_records : BM D (list SnapshotRecord) := on_state (fun _ => on_store load_snapshots).

(** ** Templates *)
Definition register (id : string) (prepared : Sb.PreparedTemplate) : M Sb.PreparedTemplate := fun v =>
  (set_templates (<[id := prepared]> v.(vz_templates)) v, Ok prepared).
Definition prepare_template (spec : Sb.TemplateSpec) : M Sb.PreparedTemplate :=
  match spec.(Sb.ts_data_plane) with
  | Sb.DataPlaneEnvd e =>
      match e.(Sb.ed_provisioning) with
      | Sb.Inject => raise (Sb.PrepareFailure (Sb.EnvdMissing (source_reference spec.(Sb.ts_source))))
      | Sb.AlreadyPresent => raise (Sb.PrepareFailure (Sb.UnsupportedImageConfig
                               "single-node Apple/VZ adapter cannot verify preinstalled envd yet"))
      end
  | Sb.DataPlaneNone =>
      (* [unwrap_or]: the identity of the source is made, and may be refused, in any case *)
      own ← lift (Sb.new_id "template id" (template_id_from_source spec.(Sb.ts_source)));
      let id := match spec.(Sb.ts_id) with Some id => id | None => own end in
      now ← now_utc;
      register id (Sb.prepared_new now id spec.(Sb.ts_source) Sb.InfoNone)
  end.
Definition get_template (id : string) : M Sb.TemplateInfo :=
  ts ← templates;
  match ts !! id with
  | None => raise (Sb.NotFound "get template" Sb.RkTemplate id)
  | Some t => now ← now_utc; mret (Sb.mk_template_info t.(Sb.pt_id) Sb.TplReady t.(Sb.pt_source) t.(Sb.pt_data_plane) (Some now))
  end.
Fixpoint get_templates (ids : list string) : M (list Sb.TemplateInfo) :=
  match ids with [] => mret [] | id :: ids => t ← get_template id; ts ← get_templates ids; mret (t :: ts) end.
Definition list_templates : M (list Sb.TemplateInfo) := ts ← templates; get_templates (fst <$> entries ts).
Definition delete_template (id : string) : M unit := fun v => (set_templates (delete id v.(vz_templates)) v, Ok tt).
Definition runtime_template_id (template_id : string) : M string :=
  ts ← templates;
  match ts !! template_id with
  | None => raise (Sb.NotFound "resolve runtime template" Sb.RkTemplate template_id)
  | Some t =>
      match t.(Sb.pt_source) with
      | Sb.Oci reference => mret reference
      | Sb.Git url => raise (Sb.PrepareFailure (Sb.UnsupportedImageConfig
                         ("single-node Apple/VZ adapter cannot create Git template source " +:+ bt url)))
      | Sb.Local path => raise (Sb.PrepareFailure (Sb.UnsupportedImageConfig
                         ("single-node Apple/VZ adapter cannot create local template source " +:+ bt path)))
      end
  end.
Definition is_source (runtime_template : string) (p : string * Sb.PreparedTemplate) : bool :=
  match p.2.(Sb.pt_source) with Sb.Oci reference => String.eqb reference runtime_template | _ => false end.
Definition public_template_id_for_runtime (runtime_template : string) : M string :=
  ts ← templates;
  match List.find (is_source runtime_template) (entries ts) with
  | Some (id, _) => mret id
  | None => lift (Sb.new_id "template id" (sanitize_id_value runtime_template))
  end.

(** ** Sandboxes *)
(** [OffsetDateTime::from_unix_timestamp]: the years -9999 to 9999. *)
Definition from_unix_timestamp (seconds : Z) : option Z :=
  if (-377705116800 <=? seconds) && (seconds <=? 253402300799) then Some (seconds * 1000000000) else None.
Definition active_to_info (record : ActiveSessionRecord) : M Sb.SandboxInfo :=
  id ← lift (Sb.new_id "sandbox id" record.(as_sandbox_id));
  template_id ← public_template_id_for_runtime record.(as_template_id);
  created_at ← match from_unix_timestamp record.(as_started_at) with Some t => mret t | None => now_utc end;
  mret (Sb.mk_info id Sb.StRunning (Some template_id) None
          (Some (Sb.resources_new record.(as_resources).(vcpus) record.(as_resources).(memory_bytes))) None created_at ∅).
Definition inspect_sandbox (id : string) : M Sb.SandboxInfo :=
  records ← inner "inspect sandbox" active_records;
  match List.find (is_session id) records with
  | None => raise (Sb.NotFound "inspect sandbox" Sb.RkSandbox id)
  | Some record => active_to_info record
  end.
Definition attach_sandbox (id : string) : M Sb.SandboxInfo := inspect_sandbox id.
Definition in_state (f : Sb.SandboxFilter) (i : Sb.SandboxInfo) : bool :=
  match f.(Sb.sb_state) with None => true | Some s => bool_decide (s = i.(Sb.in_state)) end.
Fixpoint list_records (f : Sb.SandboxFilter) (records : list ActiveSessionRecord) : M (list Sb.SandboxInfo) :=
  match records with
  | [] => mret []
  | r :: records => i ← active_to_info r; rest ← list_records f records; mret (if in_state f i then i :: rest else rest)
  end.
Definition list_sandboxes (f : Sb.SandboxFilter) : M (list Sb.SandboxInfo) :=
  records ← inner "list sandboxes" active_records; list_records f records.
Definition create_request_from_spec (sandbox_id : string) (spec : Sb.SandboxSpec) : M SingleNodeCreateRequest :=
  match spec with
  | Sb.SpecTemplate template_id resources env deadline _ =>
      runtime_template ← runtime_template_id template_id;
      let request := create_request_new sandbox_id runtime_template
        (match resources with Some r => single_node_resources r | None => default_resources end) in
      let request := match deadline with Some (Sb.Timeout timeout) => with_timeout request timeout | _ => request end in
      mret (mk_create_request request.(cr_sandbox_id) request.(cr_template_id) request.(cr_resources) request.(cr_runtime_mode)
              request.(cr_timeout) env)
  | Sb.SpecSnapshot snapshot _ _ _ _ =>
      raise (Sb.InvalidSpec "create sandbox" (Sb.InvalidCommand ("use restore for snapshot " +:+ snapshot.(Sb.sf_id))))
  end.
Definition create_sandbox (spec : Sb.SandboxSpec) : M Sb.SandboxInfo :=
  sandbox_id ← next_sandbox_id;
  request ← create_request_from_spec sandbox_id spec;
  env ← surroundings;
  _ ← inner "create sandbox" (create env request);
  inspect_sandbox sandbox_id.
Definition find_snapshot (id : string) : M SnapshotRecord :=
  records ← inner "find snapshot" snapshot_records;
  match List.find (is_snapshot id) records with
  | Some record => mret record
  | None => raise (Sb.NotFound "find snapshot" Sb.RkSnapshot id)
  end.
Definition restore_sandbox (snapshot : Sb.SnapshotRef) : M Sb.SandboxInfo :=
  sandbox_id ← next_sandbox_id;
  record ← find_snapshot snapshot.(Sb.sf_id);
  let request := create_request_new sandbox_id
    (match record.(sr_template_metadata).(tm_start_cmd) with Some c => c | None => "snapshot"%string end) (resources_new 2 (gib 8)) in
  env ← surroundings;
  _ ← inner "restore sandbox" (restore env request record);
  inspect_sandbox sandbox_id.
Definition stop_sandbox (id : string) (mode : Sb.StopMode) : M unit := inner "stop sandbox" (delete_session id).
Definition kill_sandbox (id : string) (signal : Sb.KillSignal) : M unit := stop_sandbox id Sb.Graceful.
Definition delete_sandbox (id : string) : M unit := inner "delete sandbox" (delete_session id).
Definition update_sandbox_deadline (id : string) (deadline : Sb.SandboxDeadline) : M unit :=
  match deadline with
  | Sb.Timeout timeout => env ← surroundings; inner "update sandbox deadline" (update_deadline env id timeout)
  | Sb.At _ => raise (Sb.InvalidSpec "update sandbox deadline" Sb.InvalidTimeout)
  end.

(** ** Snapshots *)
Definition snapshot_info (record : SnapshotRecord) : M Sb.SnapshotInfo :=
  id ← lift (Sb.new_id "snapshot id" record.(sr_snapshot_id));
  source ← lift (Sb.new_id "sandbox id" record.(sr_source_sandbox_id));
  now ← now_utc;
  mret (Sb.mk_snapshot_info id Sb.KContinuation (Some source) None now None).
Definition capture_snapshot (sandbox_id : string) (options : Sb.SnapshotOptions) : M Sb.SnapshotRef :=
  env ← surroundings;
  snapshot ← inner "capture snapshot" (snapshot_session env sandbox_id options.(Sb.so_name));
  id ← lift (Sb.new_id "snapshot id" snapshot.(rs_snapshot_id));
  mret (Sb.mk_snapshot_ref id Sb.KContinuation).
Definition get_snapshot (id : string) : M Sb.SnapshotInfo := record ← find_snapshot id; snapshot_info record.
Definition of_kind (f : Sb.SnapshotFilter) (i : Sb.SnapshotInfo) : bool :=
  match f.(Sb.sn_kind) with None => true | Some k => bool_decide (k = i.(Sb.si_kind)) end.
Fixpoint list_snapshot_records (f : Sb.SnapshotFilter) (records : list SnapshotRecord) : M (list Sb.SnapshotInfo) :=
  match records with
  | [] => mret []
  | r :: records => i ← snapshot_info r; rest ← list_snapshot_records f records; mret (if of_kind f i then i :: rest else rest)
  end.
Definition list_snapshots (f : Sb.SnapshotFilter) : M (list Sb.SnapshotInfo) :=
  records ← inner "list snapshots" snapshot_records; list_snapshot_records f records.
Definition remove_snapshot (id : string) : M unit := inner "delete snapshot" (delete_snapshot id).
Definition unsupported {A} (operation : string) (capability : Sb.CapabilityName) (detail : string) : M A :=
  raise (Sb.UnsupportedCapability operation capability (Sb.Permanent detail)).
Definition export_snapshot (id : string) : M unit :=
  unsupported "export snapshot" Sb.SnapshotExport "single-node adapter has not exposed portable snapshot export yet".
Definition import_snapshot (id : option string) : M Sb.SnapshotRef :=
  unsupported "import snapshot" Sb.SnapshotImport "single-node adapter has not exposed portable snapshot import yet".
Definition pause_sandbox (id : string) : M Sb.SnapshotRef :=
  unsupported "pause sandbox" Sb.PauseCapture "single-node adapter supports continuation snapshots, not same-identity pause".

(** ** Processes *)
Definition command_request (c : Sb.Command) : result Sb.Error CommandRequest :=
  Ok (command_request_new
        (match c.(Sb.cmd_mode) with Sb.Shell command => command | Sb.Argv program args => join " " (program :: args) end)).
Definition pty_size (s : Sb.PtySize) : EnvdPtySize := mk_pty_size s.(Sb.cols) s.(Sb.rows).
Definition process_start_request (c : Sb.Command) : result Sb.Error EnvdProcessStartRequest :=
  let '(cmd, args) :=
    match c.(Sb.cmd_mode) with
    | Sb.Shell command => ("/bin/sh"%string, ["-lc"%string; command])
    | Sb.Argv program args => (program, args)
    end in
  Ok (mk_process_start cmd args (entries c.(Sb.cmd_env)) c.(Sb.cmd_cwd) c.(Sb.cmd_tag) (Some true) (option_map pty_size c.(Sb.cmd_pty))).
Definition process_selector (s : Sb.ProcessSelector) : EnvdProcessSelector :=
  match s with
  | Sb.SelId id => match from_str_radix 10 0 (max_uint 32) id with Ok pid => SelectPid pid | Err _ => SelectTag id end
  | Sb.SelTag tag => SelectTag tag
  end.
Definition process_signal (s : Sb.Signal) : EnvdProcessSignal :=
  match s with Sb.Term => Sigterm | Sb.Kill => Sigkill | Sb.Interrupt => SignalUnknown 2 | Sb.Number n => SignalUnknown n end.
Definition process_input (i : Sb.ProcessInput) : EnvdProcessInput :=
  match i with Sb.InputBytes bytes => InputStdin bytes | Sb.InputEof => InputStdin [] end.
Definition process_info_from_pid (pid : Z) : result Sb.Error Sb.ProcessInfo :=
  id ← Sb.new_id "process id" (print_dec pid);
  Ok (Sb.mk_process_info id None Sb.PsRunning).
Definition process_info (i : EnvdProcessInfo) : result Sb.Error Sb.ProcessInfo :=
  id ← Sb.new_id "process id" (print_dec i.(pi_pid));
  tag ← match i.(pi_tag) with Some tag => tag ← Sb.new_id "process tag" tag; Ok (Some tag) | None => Ok None end;
  Ok (Sb.mk_process_info id tag Sb.PsRunning).
Definition process_event (e : EnvdProcessStreamEvent) : result Sb.Error Sb.ProcessEvent :=
  match e with
  | EvStart pid => i ← process_info_from_pid pid; Ok (Sb.Started i)
  | EvStdout bytes => Ok (Sb.Stdout bytes)
  | EvStderr bytes => Ok (Sb.Stderr bytes)
  | EvPty bytes => Ok (Sb.Stdout bytes)
  | EvEnd exit_code exited _ _ => Ok (if exited then Sb.EvExited exit_code else Sb.EvSignaled (Sb.Number exit_code))
  end.
Definition command_output (o : CommandOutput) : Sb.CommandOutput := Sb.mk_output (Sb.Exited o.(co_exit_code)) o.(co_stdout) o.(co_stderr).
Definition command_output_from_envd (o : EnvdProcessOutput) : Sb.CommandOutput :=
  Sb.mk_output (Sb.Exited o.(po_exit_code)) o.(po_stdout) o.(po_stderr).
Definition run_process (sandbox_id : string) (c : Sb.Command) : M Sb.CommandOutput :=
  request ← lift (command_request c);
  output ← inner "run process" (run_command sandbox_id request);
  mret (command_output output).
(** The service answers each call with the reply of its kind; the other kinds
    do not occur. *)
Definition infos_of (r : ProcessReply) : list EnvdProcessInfo := match r with ProcessInfos l => l | _ => [] end.
Definition output_of (r : ProcessReply) : option EnvdProcessOutput := match r with ProcessOutput o => Some o | _ => None end.
(** [stream.recv()] in a loop, over what the stream delivers until it ends or,
    with [ends] false, falls silent: [None] is a call that waits on. *)
Fixpoint await_start (sandbox_id : string) (delivered : list (result BackendError EnvdProcessStreamEvent)) (ends : bool)
  : option (result Sb.Error Sb.ProcessInfo) :=
  let failed reason := Some (Err (Sb.ProcessFailure "start process" (Some sandbox_id) None reason Sb.NotRetryable)) in
  match delivered with
  | [] => if ends then failed "process stream ended before start event"%string else None
  | Err e :: _ => Some (Err (process_backend_failure "start process" e))
  | Ok (EvStart pid) :: _ => Some (process_info_from_pid pid)
  | Ok (EvStdout _) :: delivered | Ok (EvStderr _) :: delivered | Ok (EvPty _) :: delivered => await_start sandbox_id delivered ends
  | Ok (EvEnd exit_code _ _ _) :: _ => failed ("process exited before start event: " +:+ print_i32 exit_code)
  end.
Definition start_process (sandbox_id : string) (c : Sb.Command) (delivered : list (result BackendError EnvdProcessStreamEvent)) (ends : bool)
  : M (option (result Sb.Error Sb.ProcessInfo)) :=
  request ← lift (process_start_request c);
  _ ← inner "start process" (process_call sandbox_id (StartProcessStream request));
  mret (await_start sandbox_id delivered ends).
Definition start_process_stream (sandbox_id : string) (c : Sb.Command) (delivered : list (result BackendError EnvdProcessStreamEvent))
  : M (list (result Sb.Error Sb.ProcessEvent)) :=
  request ← lift (process_start_request c);
  _ ← inner "stream process" (process_call sandbox_id (StartProcessStream request));
  mret ((fun e => e ← map_err (process_backend_failure "stream process") e; process_event e) <$> delivered).
Fixpoint process_infos (l : list EnvdProcessInfo) : result Sb.Error (list Sb.ProcessInfo) :=
  match l with [] => Ok [] | i :: l => i ← process_info i; l ← process_infos l; Ok (i :: l) end.
Definition list_processes (sandbox_id : string) : M (list Sb.ProcessInfo) :=
  reply ← inner "list processes" (process_call sandbox_id ListProcesses);
  lift (process_infos (infos_of reply)).
Definition connect_process (sandbox_id : string) (s : Sb.ProcessSelector) : M (option Sb.ProcessInfo) :=
  reply ← inner "connect process" (process_call sandbox_id (ConnectProcess (process_selector s)));
  match output_of reply with Some o => i ← lift (process_info_from_pid o.(po_pid)); mret (Some i) | None => mret None end.
Definition signal_process (sandbox_id : string) (s : Sb.ProcessSelector) (signal : Sb.Signal) : M unit :=
  _ ← inner "signal process" (process_call sandbox_id (SignalProcess (process_selector s) (process_signal signal))); mret tt.
Definition send_process_input (sandbox_id : string) (s : Sb.ProcessSelector) (input : Sb.ProcessInput) : M unit :=
  _ ← inner "process stdin" (process_call sandbox_id (SendProcessInput (process_selector s) (process_input input))); mret tt.
Definition close_process_stdin (sandbox_id : string) (s : Sb.ProcessSelector) : M unit :=
  _ ← inner "close process stdin" (process_call sandbox_id (CloseProcessStdin (process_selector s))); mret tt.
Definition resize_process_pty (sandbox_id : string) (s : Sb.ProcessSelector) (size : Sb.PtySize) : M unit :=
  _ ← inner "resize pty" (process_call sandbox_id (ResizeProcessPty (process_selector s) (Some (pty_size size)))); mret tt.
Definition wait_process (sandbox_id : string) (s : Sb.ProcessSelector) : M (option Sb.CommandOutput) :=
  reply ← inner "wait process" (process_call sandbox_id (ConnectProcess (process_selector s)));
  mret (option_map command_output_from_envd (output_of reply)).

(** ** Files *)
Definition nl : string := String (ascii_of_N 10) EmptyString.
Definition fs_path : string := dq "$FIRKIN_FS_PATH".
Definition fs_source : string := dq "$FIRKIN_FS_SOURCE".
Definition fs_destination : string := dq "$FIRKIN_FS_DESTINATION".
Definition unless (test arg : string) : string := "if [ ! " +:+ test +:+ " " +:+ arg +:+ " ]; then exit 44; fi" +:+ nl.
Definition node_stat_format : string := "'" +:+ join sep_tab ["%n"; "%F"; "%s"; "%f"]%string +:+ "'".
Definition request_env (k v : string) (q : CommandRequest) : CommandRequest :=
  mk_command_request q.(cmd_command) q.(cmd_cwd) (<[k := v]> q.(cmd_envs)) q.(cmd_user) q.(cmd_stdin).
Definition request_stdin (d : list Z) (q : CommandRequest) : CommandRequest :=
  mk_command_request q.(cmd_command) q.(cmd_cwd) q.(cmd_envs) q.(cmd_user) d.
Definition on_path (command path : string) : CommandRequest := request_env "FIRKIN_FS_PATH" path (command_request_new command).
Section Files.
(** [String::from_utf8_lossy]. *)
Context (lossy : list Z -> string).
Definition run_filesystem_command (operation sandbox_id : string) (path : option string) (q : CommandRequest) : M CommandOutput :=
  output ← inner operation (run_command sandbox_id q);
  if output.(co_exit_code) =? 44
  then raise (Sb.NotFound operation Sb.RkFile (match path with Some p => p | None => sandbox_id end))
  else if negb (output.(co_exit_code) =? 0)
  then
    let stderr := Volumes.trim (lossy output.(co_stderr)) in
    raise (filesystem_failure operation path
             ("guest command exited with " +:+ print_i32 output.(co_exit_code)
              +:+ if is_empty stderr then EmptyString else ": " +:+ stderr))
  else mret output.
Definition read_file (sandbox_id path : string) : M (list Z) :=
  output ← run_filesystem_command "read file" sandbox_id (Some path) (on_path (unless "-f" fs_path +:+ "cat -- " +:+ fs_path) path);
  mret output.(co_stdout).
(** [line.trim_end()]. *)
Definition trim_end (s : string) : string :=
  String.string_of_list_ascii (ascii_of <$> rev (Volumes.trim_end_rev (rev (code <$> bytes s)))).
Definition filesystem_stat_fields (operation : string) (path : option string) (line : string) : result Sb.Error (string * string * string * string) :=
  match split tab (trim_end line) with
  | [name; kind; size; mode] => Ok (name, kind, size, mode)
  | _ => Err (filesystem_failure operation path ("invalid filesystem stat output " +:+ bt line))
  end.
Definition filesystem_file_type (value : string) : Sb.FileType :=
  if String.eqb value "directory" then Sb.TypeDirectory
  else if String.eqb value "file" || String.eqb value "regular file" then Sb.TypeFile
  else if String.eqb value "symbolic link" || String.eqb value "symlink" then Sb.TypeSymlink
  else Sb.TypeOther.
Definition filesystem_entry_from_stat_line (operation : string) (requested : option string) (line : string) : result Sb.Error Sb.FileEntry :=
  '(name, kind, size, mode) ← filesystem_stat_fields operation requested line;
  path ← Sb.new_path name;
  size_bytes ← map_err (fun e => filesystem_failure operation requested ("invalid filesystem size " +:+ bt size +:+ ": " +:+ e))
    (from_str_radix 10 0 (max_uint 64) size);
  Ok (Sb.mk_file_entry path (filesystem_file_type kind) size_bytes).
Definition filesystem_permissions_from_stat_line (operation : string) (requested : option string) (line : string)
  : result Sb.Error Sb.FilePermissions :=
  '(name, kind, size, mode) ← filesystem_stat_fields operation requested line;
  n ← map_err (fun e => filesystem_failure operation requested ("invalid filesystem mode " +:+ bt mode +:+ ": " +:+ e))
    (parse_u32 16 (trim_start_str "0x" mode));
  Ok (Sb.mk_permissions n).
Definition stat_file (sandbox_id path : string) : M Sb.FileStat :=
  output ← run_filesystem_command "stat file" sandbox_id (Some path)
    (on_path (unless "-e" fs_path +:+ "stat -c " +:+ node_stat_format +:+ " -- " +:+ fs_path) path);
  match lines (lossy output.(co_stdout)) with
  | [] => raise (filesystem_failure "stat file" (Some path) "missing filesystem stat output")
  | line :: _ =>
      entry ← lift (filesystem_entry_from_stat_line "stat file" (Some path) line);
      permissions ← lift (filesystem_permissions_from_stat_line "stat file" (Some path) line);
      mret (Sb.mk_file_stat entry permissions)
  end.
Definition stat_entry (sandbox_id path : string) : M Sb.FileEntry := s ← stat_file sandbox_id path; mret s.(Sb.fs_entry).
Definition write_script : string :=
  mkdir_parent "$FIRKIN_FS_PATH" +:+ nl +:+ "if [ " +:+ dq "$FIRKIN_FS_APPEND" +:+ " = " +:+ dq "1" +:+ " ]; then" +:+ nl
  +:+ "  cat >> " +:+ fs_path +:+ nl +:+ "else" +:+ nl +:+ "  cat > " +:+ fs_path +:+ nl +:+ "fi".
Definition write_file (sandbox_id path : string) (data : list Z) (options : Sb.WriteOptions) : M Sb.FileEntry :=
  _ ← run_filesystem_command "write file" sandbox_id (Some path)
    (request_stdin data (request_env "FIRKIN_FS_APPEND" (if options.(Sb.wo_append) then "1" else "0") (on_path write_script path)));
  stat_entry sandbox_id path.
Definition on_world {A} (m : HM Sb.Error A) : M A := fun v =>
  let n := v.(vz_inner) in
  let '(w, r) := m n.(nd_world) in
  (set_inner (mk_node n.(nd_config) n.(nd_scheduler) n.(nd_driver) n.(nd_state) n.(nd_files) n.(nd_guard) w) v, r).
Definition io_failure (operation resource : string) (e : host_error) : Sb.Error :=
  Sb.IoFailure operation resource e.(host_message) Sb.Unknown.
Definition copy_in (sandbox_id host guest : string) : M Sb.FileEntry :=
  r ← on_world (HostFs.read_file host);
  data ← lift (map_err (io_failure "copy into sandbox" host) r);
  write_file sandbox_id guest data (Sb.mk_write_options false).
Definition copy_out (sandbox_id guest host : string) (options : Sb.CopyOptions) : M unit :=
  there ← (if options.(Sb.cp_overwrite) then mret false else on_world (path_exists host));
  if (there : bool) then raise (Sb.AlreadyExists "copy out of sandbox" Sb.RkFile host)
  else
    data ← read_file sandbox_id guest;
    _ ← match path_parent host with
        | Some parent => on_world (HostFs.create_dir_all (io_failure "copy out of sandbox" parent))
        | None => mret tt
        end;
    on_world (write_contents (io_failure "copy out of sandbox" host) host data).
Definition find_script (recursive : bool) : string :=
  unless "-d" fs_path +:+ "find " +:+ fs_path +:+ " -mindepth 1 " +:+ (if recursive then EmptyString else "-maxdepth 1 "%string)
  +:+ "-exec stat -c " +:+ node_stat_format +:+ " -- {} +".
Fixpoint entries_of_lines (path : string) (l : list string) : result Sb.Error (list Sb.FileEntry) :=
  match l with
  | [] => Ok []
  | line :: l =>
      if is_empty (Volumes.trim line) then entries_of_lines path l
      else e ← filesystem_entry_from_stat_line "list files" (Some path) line; l ← entries_of_lines path l; Ok (e :: l)
  end.
Definition list_files (sandbox_id path : string) (options : Sb.ListOptions) : M (list Sb.FileEntry) :=
  output ← run_filesystem_command "list files" sandbox_id (Some path) (on_path (find_script options.(Sb.lo_recursive)) path);
  lift (entries_of_lines path (lines (lossy output.(co_stdout)))).
Definition mkdir (sandbox_id path : string) (recursive : bool) : M Sb.FileEntry :=
  _ ← run_filesystem_command "make directory" sandbox_id (Some path)
    (on_path ("mkdir " +:+ (if recursive then "-p "%string else EmptyString) +:+ "-- " +:+ fs_path) path);
  stat_entry sandbox_id path.
Definition rename (sandbox_id from to : string) : M Sb.FileEntry :=
  _ ← run_filesystem_command "rename file" sandbox_id (Some from)
    (request_env "FIRKIN_FS_DESTINATION" to (request_env "FIRKIN_FS_SOURCE" from (command_request_new
       (unless "-e" fs_source +:+ mkdir_parent "$FIRKIN_FS_DESTINATION" +:+ nl +:+ "mv -- " +:+ fs_source +:+ " " +:+ fs_destination))));
  stat_entry sandbox_id to.
Definition remove_file (sandbox_id path : string) : M unit :=
  _ ← run_filesystem_command "remove file" sandbox_id (Some path) (on_path (unless "-e" fs_path +:+ "rm -rf -- " +:+ fs_path) path);
  mret tt.
End Files.

(** ** Warm pools *)
Definition pool (key : string) (w : strmap (list string)) : list string := match w !! key with Some l => l | None => [] end.
Definition warm_ready_count (key : string) : M Z := fun v => (v, Ok (Z.of_nat (length (pool key v.(vz_warm_pools))))).
Definition record_warm_sandbox (key sandbox_id : string) : M unit := fun v =>
  (set_warm (<[key := pool key v.(vz_warm_pools) ++ [sandbox_id]]> v.(vz_warm_pools)) v, Ok tt).
Definition create_warm_sandbox (template_id : string) : M string :=
  sandbox_id ← next_sandbox_id;
  runtime_template ← runtime_template_id template_id;
  env ← surroundings;
  _ ← inner "prewarm sandbox" (create env (create_request_new sandbox_id runtime_template default_resources));
  mret sandbox_id.
Fixpoint fill (needed : nat) (template_id key : string) : M unit :=
  match needed with
  | O => mret tt
  | S needed => id ← create_warm_sandbox template_id; _ ← record_warm_sandbox key id; fill needed template_id key
  end.
(** One pool filled to its depth: how many sandboxes were made, how many are ready. *)
Definition fill_pool (template_id : string) (spec : Sb.WarmPoolSpec) : M (Z * Z) :=
  key ← lift (warm_pool_key template_id);
  current ← warm_ready_count key;
  let needed := Z.max 0 (spec.(Sb.wp_depth) - current) in
  _ ← fill (Z.to_nat needed) template_id key;
  ready ← warm_ready_count key;
  mret (needed, ready).
Definition prewarm (template : Sb.PreparedTemplate) (spec : Sb.WarmPoolSpec) : M Sb.WarmMaintainReport :=
  r ← fill_pool template.(Sb.pt_id) spec; mret (Sb.mk_warm_report r.1 0 r.2).
Fixpoint maintain_targets (targets : list Sb.WarmPoolTarget) (report : Sb.WarmMaintainReport) : M Sb.WarmMaintainReport :=
  match targets with
  | [] => mret report
  | t :: targets =>
      r ← fill_pool t.(Sb.wt_template_id) t.(Sb.wt_spec);
      maintain_targets targets
        (Sb.mk_warm_report (report.(Sb.wr_created) + r.1) report.(Sb.wr_evicted) (report.(Sb.wr_ready) + r.2))
  end.
Definition maintain (targets : list Sb.WarmPoolTarget) : M Sb.WarmMaintainReport := maintain_targets targets (Sb.mk_warm_report 0 0 0).
Definition warm_status : M (list Sb.WarmPoolEntry) := fun v =>
  (v, Ok ((fun p => Sb.mk_warm_entry p.1 (Z.of_nat (length p.2)) (Z.of_nat (length p.2))) <$> entries v.(vz_warm_pools))).
(** [Vec::pop]. *)
Definition pop_warm (key : string) : M string := fun v =>
  match last (pool key v.(vz_warm_pools)) with
  | None => (v, Err (Sb.NotFound "checkout warm sandbox" Sb.RkWarmPool key))
  | Some id => (set_warm (<[key := removelast (pool key v.(vz_warm_pools))]> v.(vz_warm_pools)) v, Ok id)
  end.
Definition checkout (template : Sb.PreparedTemplate) (policy : Sb.WarmLeasePolicy) : M Sb.WarmLease :=
  key ← lift (warm_pool_key template.(Sb.pt_id));
  ready ← match policy with Sb.CreateIfEmpty => warm_ready_count key | Sb.RequireReady => mret 1 end;
  _ ← (if ready =? 0 then fill 1 template.(Sb.pt_id) key else mret tt);
  sandbox_id ← pop_warm key;
  mret (Sb.mk_warm_lease key sandbox_id).
(** [split_off]: the last [count] of the pool. *)
Definition take_warm (key : string) (count : Z) : M (list string) := fun v =>
  let sandboxes := pool key v.(vz_warm_pools) in
  let keep := (length sandboxes - Z.to_nat count)%nat in
  (set_warm (<[key := take keep sandboxes]> v.(vz_warm_pools)) v, Ok (drop keep sandboxes)).
Fixpoint delete_all (ids : list string) : M unit :=
  match ids with [] => mret tt | id :: ids => _ ← inner "evict warm sandboxes" (delete_session id); delete_all ids end.
Definition evict (key : string) (count : Z) : M Sb.WarmMaintainReport :=
  evicted ← take_warm key count;
  _ ← delete_all evicted;
  ready ← warm_ready_count key;
  mret (Sb.mk_warm_report 0 (Z.of_nat (length evicted)) ready).
End Node.
