(* ===== verification/SandboxNodeInv.v ===== *)
(** * The sandbox API keeps its pools and the node apart

    Operations of [SandboxNode] as triples over the sessions the node accounts
    for, the warm pools and the leases given out; the lines of [stat]; and the
    places where the API does less than it says. *)
From S2P Require Import Prelude HostPaths HostFs BTree Types Capacity E2bWire E2bRegistry E2bRoutes SessionFiles EnvdHttp Scheduler NodeState DiskGuard Envd Backend BackendInv SandboxApi SandboxNode.
Import Sizes.

Create HintDb quiet.

(** ** Triples *)
Section VTriples.
Context {D : Type}.
Definition vtriple {A} (P : AppleVzBackend D -> Prop) (m : VM D A) (Q : result Sb.Error A -> AppleVzBackend D -> Prop) : Prop :=
  forall v, P v -> Q (m v).2 (m v).1.
Lemma vtriple_bind {A B} P (m : VM D A) (k : A -> VM D B) R Q :
  vtriple P m (fun r v => match r with Ok a => R a v | Err e => Q (Err e) v end) ->
  (forall a, vtriple (R a) (k a) Q) -> vtriple P (x ← m; k x) Q.
Proof.
  intros Hm Hk v Hv. specialize (Hm v Hv). unfold mbind, VM_bind. destruct (m v) as [v' [a|e]]; cbn in *; [by apply Hk|done].
Qed.
Lemma vtriple_keep {A B} P (m : VM D A) (k : A -> VM D B) (Q : result Sb.Error B -> AppleVzBackend D -> Prop) :
  vtriple P m (fun _ => P) -> (forall e v, P v -> Q (Err e) v) -> (forall a, vtriple P (k a) Q) -> vtriple P (x ← m; k x) Q.
Proof.
  intros Hm He Hk. apply (vtriple_bind P m k (fun _ => P)); [|done]. intros v Hv. specialize (Hm v Hv).
  destruct (m v) as [v' [a|e]]; cbn in *; auto.
Qed.
Lemma vtriple_ret {A} P (a : A) (Q : result Sb.Error A -> AppleVzBackend D -> Prop) : (forall v, P v -> Q (Ok a) v) -> vtriple P (mret a) Q.
Proof. intros Hq v Hv. by apply Hq. Qed.
Lemma vtriple_lift {A} P (r : result Sb.Error A) : vtriple P (lift r) (fun _ => P).
Proof. by intros v Hv. Qed.
Lemma vtriple_raise {A} P e (Q : result Sb.Error A -> AppleVzBackend D -> Prop) : (forall v, P v -> Q (Err e) v) -> vtriple P (raise e) Q.
Proof. intros Hq v Hv. by apply Hq. Qed.
End VTriples.

(** ** The invariant *)
Definition sandbox_name (k : Z) : string := "sbx_firkin_" +:+ print_dec k.
Lemma sandbox_name_inj a b : 0 <= a -> 0 <= b -> sandbox_name a = sandbox_name b -> a = b.
Proof.
  intros Ha Hb E. apply append_inj_l in E. pose proof (Z.pow_gt_lin_r 2 (Z.max a b) ltac:(lia) ltac:(lia)).
  assert (in_uint (Z.max a b) a) as Ea by (unfold in_uint; lia). assert (in_uint (Z.max a b) b) as Eb by (unfold in_uint; lia).
  apply parse_uint_print in Ea, Eb. congruence.
Qed.
Section Invariant.
Context {D : Type} `{RuntimeDriver D, !DriverLaws D}.
Context `{Json (list ActiveSessionRecord), !JsonRoundtrip (list ActiveSessionRecord), Json (list SnapshotRecord), Json Logs}.
Context (cfg : SingleNodeSchedulerConfig).
(** The node accounts for the sessions [l], [leased] have been handed out. *)
Record pools_ok (l : list ActiveSessionRecord) (leased : list string) (v : AppleVzBackend D) : Prop := {
  po_accounts : accounts cfg l v.(vz_inner);
  po_next : 0 <= v.(vz_next_sandbox);
  po_named id : id ∈ ids l \/ id ∈ leased -> exists k, 0 < k <= v.(vz_next_sandbox) /\ id = sandbox_name k;
  po_running key id : id ∈ pool key v.(vz_warm_pools) -> id ∈ ids l;
  po_nodup key : NoDup (pool key v.(vz_warm_pools));
  po_apart key key' id : id ∈ pool key v.(vz_warm_pools) -> id ∈ pool key' v.(vz_warm_pools) -> key = key';
  po_once : NoDup leased;
  po_unleased key id : id ∈ pool key v.(vz_warm_pools) -> id ∉ leased
}.
(** What the invariant looks at. *)
Lemma pools_ok_same l leased v v' : v'.(vz_inner) = v.(vz_inner) -> v'.(vz_warm_pools) = v.(vz_warm_pools) ->
  v'.(vz_next_sandbox) = v.(vz_next_sandbox) -> pools_ok l leased v -> pools_ok l leased v'.
Proof using. intros Ei Ew En []. split; rewrite ?Ei, ?En; intros; rewrite ?Ew in *; eauto. Qed.
(** The same, with counter and pools fixed. *)
Definition rests (l : list ActiveSessionRecord) (leased : list string) (next : Z) (w : strmap (list string)) (v : AppleVzBackend D) : Prop :=
  pools_ok l leased v /\ v.(vz_next_sandbox) = next /\ v.(vz_warm_pools) = w.
Definition quiet {A} (m : VM D A) : Prop := forall l leased next w, vtriple (rests l leased next w) m (fun _ => rests l leased next w).
Lemma vz_quiet_bind {A B} (m : VM D A) (k : A -> VM D B) : quiet m -> (forall a, quiet (k a)) -> quiet (x ← m; k x).
Proof using. intros Hm Hk l leased next w. apply vtriple_keep; [apply Hm|done|intros a; apply Hk]. Qed.
Lemma vz_quiet_ret {A} (a : A) : quiet (mret a).
Proof using. intros l leased next w. by apply vtriple_ret. Qed.
Lemma vz_quiet_raise {A} e : quiet (raise e : VM D A).
Proof using. intros l leased next w. by apply vtriple_raise. Qed.
Lemma vz_quiet_lift {A} (r : result Sb.Error A) : quiet (lift r : VM D A).
Proof using. intros l leased next w. apply vtriple_lift. Qed.
Lemma vz_quiet_same {A} (m : VM D A) : (forall v, (m v).1.(vz_inner) = v.(vz_inner) /\ (m v).1.(vz_warm_pools) = v.(vz_warm_pools) /\
  (m v).1.(vz_next_sandbox) = v.(vz_next_sandbox)) -> quiet m.
Proof using.
  intros Hm l leased next w v (Hv & Hn & Hw). destruct (Hm v) as (Ei & Ew & En). split_and!; [by apply (pools_ok_same l leased v)|congruence..].
Qed.
Lemma vz_quiet_templates : quiet (templates : VM D _).
Proof using. by apply vz_quiet_same. Qed.
Lemma vz_quiet_surroundings : quiet (surroundings : VM D _).
Proof using. by apply vz_quiet_same. Qed.
Lemma vz_quiet_now : quiet (now_utc : VM D _).
Proof using. by apply vz_quiet_same. Qed.
Lemma vz_quiet_register id t : quiet (register id t : VM D _).
Proof using. by apply vz_quiet_same. Qed.
Lemma vz_quiet_delete_template id : quiet (delete_template id : VM D _).
Proof using. by apply vz_quiet_same. Qed.
Lemma vz_quiet_count key : quiet (warm_ready_count key : VM D _).
Proof using. by apply vz_quiet_same. Qed.
Lemma pools_ok_inner l l' leased v n : pools_ok l leased v -> accounts cfg l' n ->
  (forall id, id ∈ ids l' -> id ∈ ids l) -> (forall key id, id ∈ pool key v.(vz_warm_pools) -> id ∈ ids l') -> pools_ok l' leased (set_inner n v).
Proof using. intros [] Ha Hsub Hpool. split; cbn; auto. intros id [Hin|Hin]; auto. Qed.
(** An operation of the node that leaves its sessions alone. *)
Lemma vz_quiet_inner {A} op (m : BM D A) : (forall l, triple (accounts cfg l) m (fun _ => accounts cfg l)) -> quiet (inner op m).
Proof using.
  intros Hm l leased next w v (Hv & Hn & Hw). specialize (Hm l v.(vz_inner) (po_accounts _ _ _ Hv)). unfold inner.
  destruct (m (vz_inner v)) as [n r]. cbn in Hm |- *. split; [|done]. apply (pools_ok_inner l l); [done..|]. apply Hv.
Qed.
Lemma vz_quiet_records op : quiet (inner op active_records).
Proof using.
  apply vz_quiet_inner. intros l n (Hnd & Hn). pose proof Hn as ((Hs & Hd) & Hr). unfold active_records, on_state.
  rewrite (load_active_holds (nd_files n) l) by done. cbn. split; [done|]. split; [split; [exact Hs|exact Hd]|exact Hr].
Qed.
Lemma vz_quiet_snapshots op : quiet (inner op snapshot_records).
Proof using.
  apply vz_quiet_inner. intros l n (Hnd & ((Hs & Hd) & Hr)). unfold snapshot_records, on_state, on_store, load_snapshots. cbn.
  split; [done|]. split; [split; [exact Hs|exact Hd]|exact Hr].
Qed.
Hint Resolve vz_quiet_ret vz_quiet_raise vz_quiet_lift vz_quiet_templates vz_quiet_surroundings vz_quiet_now vz_quiet_register vz_quiet_count vz_quiet_records vz_quiet_snapshots : quiet.
(** A computation made of quiet parts is quiet. *)
Ltac vz_quiet_parts := repeat match goal with
  | |- quiet (mbind _ _) => apply vz_quiet_bind; [|intros ?]
  | |- quiet (match ?x with _ => _ end) => destruct x
  | |- quiet _ => solve [auto with quiet]
  end.
Lemma vz_quiet_info r : quiet (active_to_info r : VM D _).
Proof using. unfold active_to_info, public_template_id_for_runtime. vz_quiet_parts. Qed.
Hint Resolve vz_quiet_info : quiet.
Lemma vz_quiet_inspect id : quiet (inspect_sandbox id : VM D _).
Proof using. unfold inspect_sandbox. vz_quiet_parts. Qed.
Lemma vz_quiet_runtime_template id : quiet (runtime_template_id id : VM D _).
Proof using. unfold runtime_template_id. vz_quiet_parts. Qed.
Lemma vz_quiet_prepare spec : quiet (prepare_template spec : VM D _).
Proof using. unfold prepare_template. vz_quiet_parts. Qed.
Lemma vz_quiet_find_snapshot id : quiet (find_snapshot id : VM D _).
Proof using. unfold find_snapshot. vz_quiet_parts. Qed.
Hint Resolve vz_quiet_inspect vz_quiet_runtime_template vz_quiet_find_snapshot : quiet.
Lemma vz_quiet_request id spec : quiet (create_request_from_spec id spec : VM D _).
Proof using. unfold create_request_from_spec. vz_quiet_parts. Qed.

(** ** New sandboxes *)
Lemma vtriple_next l leased next w : vtriple (rests l leased next w) next_sandbox_id (fun r v => rests l leased (next + 1) w v /\
  match r with Ok id => (id ∉ ids l) /\ (id ∉ leased) /\ id = sandbox_name (next + 1) /\ 0 < next + 1 | Err _ => True end).
Proof using.
  intros v (Hv & <- & <-). unfold next_sandbox_id. cbn [fst snd]. split.
  - split; [|done]. destruct Hv. split; cbn; auto; [lia|]. intros id Hin. destruct (po_named0 id Hin) as (k & Hk & ->). exists k. split; [lia|done].
  - fold (sandbox_name (vz_next_sandbox v + 1)). destruct (Sb.new_id _ _) as [id|] eqn:E; [|done]. apply new_id_ok in E as (-> & _). cbn.
    pose proof (po_next _ _ _ Hv).
    assert (forall id, id ∈ ids l \/ id ∈ leased -> id <> sandbox_name (vz_next_sandbox v + 1)) as Hne.
    { intros id Hin ->. destruct (po_named _ _ _ Hv _ Hin) as (k & Hk & E). apply sandbox_name_inj in E; lia. }
    split_and!; [intros Hin; eapply Hne; [by left|done]|intros Hin; eapply Hne; [by right|done]|done|lia].
Qed.
(** A session more, under a name of its own. *)
Lemma pools_ok_started l leased s v n : pools_ok l leased v -> accounts cfg (l ++ [s]) n ->
  s.(as_sandbox_id) = sandbox_name v.(vz_next_sandbox) -> 0 < v.(vz_next_sandbox) -> pools_ok (l ++ [s]) leased (set_inner n v).
Proof using.
  intros [] Ha Hs Hp. split; cbn; auto.
  - unfold ids. rewrite fmap_app. intros id [Hin|Hin]; [|auto]. rewrite elem_of_app in Hin. cbn in Hin. rewrite list_elem_of_singleton in Hin.
    destruct Hin as [Hin|Hin]; [apply po_named0; by left|]. exists (vz_next_sandbox v). split; [lia|congruence].
  - intros key id Hin. unfold ids. rewrite fmap_app, elem_of_app. left. by apply (po_running0 key).
Qed.
Definition with_session (l : list ActiveSessionRecord) (leased : list string) (next : Z) (w : strmap (list string)) (id : string)
    (v : AppleVzBackend D) : Prop := exists s, s.(as_sandbox_id) = id /\ rests (l ++ [s]) leased next w v.
Lemma vtriple_start l leased next w op what start env q :
  (forall d d' c, start d = (d', Ok c) -> c.(rc_sandbox_id) = q.(cr_sandbox_id)) -> q.(cr_sandbox_id) ∉ ids l -> resources_typed q.(cr_resources) ->
  q.(cr_sandbox_id) = sandbox_name next -> 0 < next ->
  vtriple (rests l leased next w) (inner op (start_session what start env q))
    (fun r v => match r with Ok _ => with_session l leased next w q.(cr_sandbox_id) v | Err _ => rests l leased next w v end).
Proof using All.
  intros Hlaw Hf Hr Hq Hp v (Hv & Hn & Hw). pose proof (start_session_ok cfg l what start env q Hlaw Hf Hr (vz_inner v) (po_accounts _ _ _ Hv)) as Hs.
  unfold inner. destruct (start_session what start env q (vz_inner v)) as [n [c|e]]; cbn [fst snd map_err start_post] in Hs |- *.
  - destruct Hs as [Hc Ha]. exists (started env q c). split; [done|]. split; [|done]. apply pools_ok_started; [done..| |lia]. cbn. congruence.
  - split; [|done]. apply (pools_ok_inner l l); [done..|]. apply Hv.
Qed.
(** What a computation returns when it succeeds. *)
Definition yields {A} (P : A -> Prop) (m : VM D A) : Prop := forall v a, (m v).2 = Ok a -> P a.
Lemma vtriple_quiet {A B} (P : A -> Prop) l leased next w (m : VM D A) (k : A -> VM D B) (Q : result Sb.Error B -> AppleVzBackend D -> Prop) :
  quiet m -> yields P m -> (forall e v, rests l leased next w v -> Q (Err e) v) ->
  (forall a, P a -> vtriple (rests l leased next w) (k a) Q) -> vtriple (rests l leased next w) (x ← m; k x) Q.
Proof using.
  intros Hm Hy He Hk v Hv. specialize (Hm _ _ _ _ v Hv). specialize (Hy v). unfold mbind, VM_bind. destruct (m v) as [v' [a|e]]; cbn in *; [|auto].
  by apply Hk; [apply Hy|].
Qed.
Definition settled (leased : list string) (v : AppleVzBackend D) : Prop := exists l, pools_ok l leased v.
Lemma rests_settled l leased next w v : rests l leased next w v -> settled leased v.
Proof using. intros (Hv & _). by exists l. Qed.
Lemma settled_rests {A} leased (m : VM D A) Q :
  (forall l next w, vtriple (rests l leased next w) m Q) -> vtriple (settled leased) m Q.
Proof using. intros Hm v (l & Hv). by apply (Hm l v.(vz_next_sandbox) v.(vz_warm_pools)). Qed.
Lemma vz_quiet_settled {A} (m : VM D A) leased : quiet m -> vtriple (settled leased) m (fun _ => settled leased).
Proof using. intros Hm. apply settled_rests. intros l next w v Hv. by apply (rests_settled l leased next w), Hm. Qed.
(** The shape of the operations that start a sandbox: a new identity, some
    preparation, the start, and something quiet. *)
Lemma vtriple_new_sandbox {A B} leased op (prep : string -> VM D A) what (start : string -> A -> D -> D * result Error RuntimeCreatedSandbox)
    (q : string -> A -> SingleNodeCreateRequest) (rest : string -> VM D B) (Q : result Sb.Error B -> AppleVzBackend D -> Prop) l next w :
  (forall id, quiet (prep id)) ->
  (forall id, yields (fun a => (q id a).(cr_sandbox_id) = id /\ resources_typed (q id a).(cr_resources) /\
      forall d d' c, start id a d = (d', Ok c) -> c.(rc_sandbox_id) = (q id a).(cr_sandbox_id)) (prep id)) ->
  (forall e v, rests l leased (next + 1) w v -> Q (Err e) v) ->
  (forall id, (id ∉ ids l) -> (id ∉ leased) -> vtriple (with_session l leased (next + 1) w id) (rest id) Q) ->
  vtriple (rests l leased next w)
    (id ← next_sandbox_id; a ← prep id; env ← surroundings; _ ← inner op (start_session what (start id a) env (q id a)); rest id) Q.
Proof using All.
  intros Hp Hy He Hr. apply (vtriple_bind _ _ _ (fun id v => rests l leased (next + 1) w v /\
    (id ∉ ids l) /\ (id ∉ leased) /\ id = sandbox_name (next + 1) /\ 0 < next + 1)).
  { intros v Hv. pose proof (vtriple_next _ _ _ _ v Hv) as [Hn Hi]. destruct (next_sandbox_id v) as [v' [id|e]]; cbn in *; auto. }
  intros id v (Hv & Hid & Hl & En & Hpos). revert v Hv. eapply vtriple_quiet; [apply Hp|apply Hy|done|]. cbn beta. intros a (Eq & Ht & Hlaw).
  eapply (vtriple_quiet (fun _ => True)); [apply vz_quiet_surroundings|done|done|]. intros env _.
  eapply vtriple_bind; [|intros c; apply (Hr id Hid Hl)]. intros v Hv.
  pose proof (vtriple_start l leased (next + 1) w op what (start id a) env (q id a) Hlaw ltac:(by rewrite Eq) Ht ltac:(by rewrite Eq) Hpos v Hv) as Hs.
  destruct (inner op _ v) as [v' [c|e]]; cbn in *; [by rewrite Eq in Hs|auto].
Qed.
Lemma default_typed : resources_typed default_resources.
Proof using. split; vm_compute; split; congruence. Qed.
Lemma vtriple_create_warm l leased next w template_id : vtriple (rests l leased next w) (create_warm_sandbox template_id) (fun r v =>
  match r with Ok id => (id ∉ ids l) /\ (id ∉ leased) /\ with_session l leased (next + 1) w id v | Err _ => rests l leased (next + 1) w v end).
Proof using All.
  unfold create_warm_sandbox, create.
  apply (vtriple_new_sandbox leased "prewarm sandbox" (fun _ => runtime_template_id template_id) "sandbox create"
           (fun id t => drv_create (create_request_new id t default_resources)) (fun id t => create_request_new id t default_resources) (fun id => mret id)).
  - intros id. apply vz_quiet_runtime_template.
  - intros id v t _. split; [done|]. split; [apply default_typed|apply create_identity].
  - done.
  - intros id Hi Hl. apply vtriple_ret. by intros v Hv.
Qed.

(** ** The pools *)
Lemma pool_insert key key' l (w : strmap (list string)) : pool key (<[key' := l]> w) = if decide (key = key') then l else pool key w.
Proof using. unfold pool. destruct (decide (key = key')) as [->|]; [by rewrite lookup_insert_eq|by rewrite lookup_insert_ne by done]. Qed.
(** A pool replaced by a part of it. *)
Lemma pools_ok_shrink l leased key k v : pools_ok l leased v -> k `sublist_of` pool key v.(vz_warm_pools) ->
  pools_ok l leased (set_warm (<[key := k]> v.(vz_warm_pools)) v).
Proof using.
  intros [] Hs. assert (forall key' id, id ∈ pool key' (<[key := k]> (vz_warm_pools v)) -> id ∈ pool key' (vz_warm_pools v)) as Hin.
  { intros key' id. rewrite pool_insert. destruct (decide _) as [->|]; [|done]. intros Hx. apply sublist_submseteq in Hs. eauto using elem_of_submseteq. }
  split; cbn; eauto. intros key'. rewrite pool_insert. destruct (decide _) as [->|]; [|done]. eapply sublist_NoDup; [apply po_nodup0|exact Hs].
Qed.
Lemma pools_ok_record l leased key id v : pools_ok l leased v -> id ∈ ids l -> (id ∉ leased) -> (forall k, id ∉ pool k v.(vz_warm_pools)) ->
  pools_ok l leased (record_warm_sandbox key id v).1.
Proof using.
  intros [] Hid Hl Hnew. cbn [record_warm_sandbox fst].
  assert (forall key' x, x ∈ pool key' (<[key := pool key (vz_warm_pools v) ++ [id]]> (vz_warm_pools v)) ->
            x ∈ pool key' (vz_warm_pools v) \/ x = id /\ key' = key) as Hin.
  { intros key' x. rewrite pool_insert. destruct (decide _) as [->|]; [|by left]. rewrite elem_of_app, list_elem_of_singleton. intuition. }
  split; cbn; auto.
  - intros key' x [Hx|[-> _]]%Hin; eauto.
  - intros key'. rewrite pool_insert. destruct (decide _) as [->|]; [|done]. apply NoDup_app. split_and!; [done| |apply NoDup_singleton].
    intros x Hx ->%list_elem_of_singleton. by apply (Hnew key).
  - intros k1 k2 x [H1'|[-> ->]]%Hin [H2'|[E ->]]%Hin; subst; eauto; exfalso; by eapply Hnew.
  - intros key' x [Hx|[-> _]]%Hin; eauto.
Qed.
Lemma vtriple_fill n template_id key leased : vtriple (settled leased) (fill n template_id key) (fun _ => settled leased).
Proof using All.
  induction n as [|n IH]; [by apply vtriple_ret|]. cbn [fill]. apply settled_rests. intros l next w v0 Hv0.
  assert (forall id k, (id ∉ ids l) -> id ∉ pool k w) as Hw by (destruct Hv0 as ([] & _ & <-); eauto). revert v0 Hv0.
  change (vtriple (rests l leased next w) (id ← create_warm_sandbox template_id; _ ← record_warm_sandbox key id; fill n template_id key)
            (fun _ => settled leased)).
  apply (vtriple_bind _ _ _ (fun id v => (id ∉ ids l) /\ (id ∉ leased) /\ with_session l leased (next + 1) w id v)).
  { intros v Hv. pose proof (vtriple_create_warm l leased next w template_id v Hv) as Hc.
    destruct (create_warm_sandbox template_id v) as [v' [id|e]]; cbn in *; [done|]. by eapply rests_settled. }
  intros id. apply (vtriple_bind _ _ _ (fun _ => settled leased)); [|intros; apply IH].
  intros v (Hid & Hl & s & Es & Hv & _ & Ew). exists (l ++ [s]). apply pools_ok_record; [done| |done|].
  - unfold ids. rewrite fmap_app, elem_of_app. right. cbn. apply list_elem_of_singleton. congruence.
  - intros k. rewrite Ew. by apply Hw.
Qed.
Lemma vtriple_fill_pool template_id spec leased : vtriple (settled leased) (fill_pool template_id spec) (fun _ => settled leased).
Proof using All.
  unfold fill_pool. apply vtriple_keep; [apply vz_quiet_settled, vz_quiet_lift|done|]. intros key.
  apply vtriple_keep; [apply vz_quiet_settled, vz_quiet_count|done|]. intros current. cbv zeta. apply vtriple_keep; [apply vtriple_fill|done|]. intros _.
  apply vtriple_keep; [apply vz_quiet_settled, vz_quiet_count|done|]. intros ready. by apply vtriple_ret.
Qed.
Lemma vtriple_maintain targets report leased : vtriple (settled leased) (maintain_targets targets report) (fun _ => settled leased).
Proof using All.
  revert report. induction targets as [|t targets IH]; intros report; [by apply vtriple_ret|]. cbn [maintain_targets].
  apply vtriple_keep; [apply vtriple_fill_pool|done|]. intros r. apply IH.
Qed.
(** A checkout hands out a running sandbox that has not been handed out before. *)
Lemma vtriple_checkout template policy leased : vtriple (settled leased) (checkout template policy) (fun r v =>
  match r with
  | Ok lease => (exists l, pools_ok l (lease.(Sb.wl_sandbox_id) :: leased) v /\ lease.(Sb.wl_sandbox_id) ∈ ids l) /\ (lease.(Sb.wl_sandbox_id) ∉ leased)
  | Err _ => settled leased v
  end).
Proof using All.
  unfold checkout. apply vtriple_keep; [apply vz_quiet_settled, vz_quiet_lift|done|]. intros key.
  apply vtriple_keep; [apply vz_quiet_settled; destruct policy; [apply vz_quiet_ret|apply vz_quiet_count]|done|]. intros ready.
  apply vtriple_keep; [destruct (ready =? 0); [apply vtriple_fill|by apply vtriple_ret]|done|]. intros _ v (l & Hv).
  unfold mbind, VM_bind, pop_warm. destruct (last (pool key (vz_warm_pools v))) as [id|] eqn:E; cbn [fst snd]; [|by exists l].
  apply last_Some in E as [k E]. cbn. assert (id ∈ pool key (vz_warm_pools v)) as Hin by (rewrite E; apply elem_of_app; right; by apply list_elem_of_singleton).
  split; [|by apply (po_unleased _ _ _ Hv key)]. exists l. split; [|by apply (po_running _ _ _ Hv key)].
  rewrite E, removelast_last.
  assert (pools_ok l leased (set_warm (<[key := k]> (vz_warm_pools v)) v)) as [] by (apply pools_ok_shrink; [done|rewrite E; by apply sublist_inserts_r]).
  split; auto.
  - intros x [Hx|Hx]; [auto|]. apply elem_of_cons in Hx as [->|Hx]; [|auto]. apply (po_named _ _ _ Hv). left. by apply (po_running _ _ _ Hv key).
  - constructor; [by apply (po_unleased _ _ _ Hv key)|done].
  - intros key' x Hx. rewrite not_elem_of_cons. split; [|by apply (po_unleased0 key')]. intros ->. cbn in Hx. rewrite pool_insert in Hx.
    destruct (decide (key' = key)) as [->|Hne]; [|by apply Hne, (po_apart _ _ _ Hv _ _ id)].
    pose proof (po_nodup _ _ _ Hv key) as Hnd. rewrite E in Hnd. apply NoDup_app in Hnd as (_ & Hnd & _). apply (Hnd id Hx). by apply list_elem_of_singleton.
Qed.

(** ** Sandboxes that end *)
Definition settled_at (leased : list string) (w : strmap (list string)) (v : AppleVzBackend D) : Prop :=
  settled leased v /\ v.(vz_warm_pools) = w.
Lemma vtriple_delete op id leased w : (forall key, id ∉ pool key w) ->
  vtriple (settled_at leased w) (inner op (delete_session id)) (fun _ => settled_at leased w).
Proof using All.
  intros Hw v ((l & Hv) & Ew). pose proof (delete_session_ok cfg l id (vz_inner v) (po_accounts _ _ _ Hv)) as Hd.
  unfold inner. destruct (delete_session id (vz_inner v)) as [n [[]|e]]; cbn [fst snd] in Hd |- *; (split; [|done]).
  - destruct Hd as [_ Ha]. eexists. apply (pools_ok_inner l); [done..| |].
    + intros x Hx. eapply elem_of_submseteq; [exact Hx|]. apply sublist_submseteq, ids_filter.
    + intros key x Hx. pose proof (po_running _ _ _ Hv key x Hx) as Hin. unfold ids in Hin |- *. apply list_elem_of_fmap in Hin as (r & -> & Hr).
      apply list_elem_of_fmap. exists r. split; [done|]. apply list_elem_of_In, filter_In. split; [by apply list_elem_of_In|].
      unfold is_session. destruct (String.eqb_spec (as_sandbox_id r) id) as [<-|]; [|done]. rewrite Ew in Hx. by apply Hw in Hx.
  - exists l. apply (pools_ok_inner l l); [done..|]. apply Hv.
Qed.
Lemma vtriple_delete_all l leased w : Forall (fun id => forall key, id ∉ pool key w) l ->
  vtriple (settled_at leased w) (delete_all l) (fun _ => settled_at leased w).
Proof using All.
  induction 1 as [|id l Hid _ IH]; [by apply vtriple_ret|]. cbn [delete_all]. apply vtriple_keep; [by apply vtriple_delete|done|]. by intros _.
Qed.
Lemma vtriple_evict key count leased : vtriple (settled leased) (evict key count) (fun _ => settled leased).
Proof using All.
  unfold evict. apply (vtriple_bind _ _ _ (fun out v => settled_at leased v.(vz_warm_pools) v /\ Forall (fun id => forall key, id ∉ pool key v.(vz_warm_pools)) out)).
  - intros v (l & Hv). set (keep := (length (pool key (vz_warm_pools v)) - Z.to_nat count)%nat).
    change ((take_warm key count v).2) with (Ok (E := Sb.Error) (drop keep (pool key (vz_warm_pools v)))).
    change ((take_warm key count v).1) with (set_warm (<[key := take keep (pool key (vz_warm_pools v))]> (vz_warm_pools v)) v). split.
    + split; [|done]. exists l. apply pools_ok_shrink; [done|apply sublist_take].
    + apply Forall_forall. intros id Hid key' Hin. cbn in Hin. rewrite pool_insert in Hin. pose proof (po_nodup _ _ _ Hv key) as Hnd.
      rewrite <- (take_drop keep) in Hnd. apply NoDup_app in Hnd as (_ & Hnd & _).
      destruct (decide (key' = key)) as [->|Hne]; [by apply (Hnd id)|]. apply Hne, (po_apart _ _ _ Hv _ _ id Hin).
      rewrite <- (take_drop keep). apply elem_of_app. by right.
  - intros out v (Hv & Hout). pose proof (vtriple_delete_all out leased _ Hout v Hv) as Hd.
    unfold mbind, VM_bind. destruct (delete_all out v) as [v' [[]|e]]; cbn in Hd |- *; apply Hd.
Qed.

(** ** The other operations *)
Definition spec_typed (spec : Sb.SandboxSpec) : Prop :=
  match spec with
  | Sb.SpecTemplate _ (Some r) _ _ _ => in_uint 32 r.(Sb.rs_vcpus) /\ in_uint 64 r.(Sb.rs_memory_bytes)
  | _ => True
  end.
Lemma request_typed id spec : spec_typed spec ->
  yields (fun q => q.(cr_sandbox_id) = id /\ resources_typed q.(cr_resources) /\
            forall d d' c, drv_create q d = (d', Ok c) -> c.(rc_sandbox_id) = q.(cr_sandbox_id)) (create_request_from_spec id spec : VM D _).
Proof using DriverLaws0.
  intros Ht v q. destruct spec as [t r env dl m|? ? ? ? ?]; cbn [create_request_from_spec]; [|done].
  unfold mbind, VM_bind. destruct (runtime_template_id t v) as [v' [rt|e]]; [|done]. cbn. intros [= <-].
  split; [by destruct dl as [[]|]|]. split; [|by apply create_identity].
  assert (resources_typed (match r with Some r => single_node_resources r | None => default_resources end)) as Hr; [|by destruct dl as [[]|]].
  destruct r as [r|]; [|apply default_typed]. exact Ht.
Qed.
Lemma with_session_settled l leased next w id v : with_session l leased next w id v -> settled leased v.
Proof using. intros (s & _ & Hv). by eapply rests_settled. Qed.
Lemma vtriple_after {A} (m : VM D A) l leased next w id : quiet m ->
  vtriple (with_session l leased next w id) m (fun _ => settled leased).
Proof using. intros Hm v Hv. apply (vz_quiet_settled m leased Hm). by eapply with_session_settled. Qed.
Lemma vtriple_create spec leased : spec_typed spec -> vtriple (settled leased) (create_sandbox spec) (fun _ => settled leased).
Proof using All.
  intros Ht. apply settled_rests. intros l next w. unfold create_sandbox, create.
  apply (vtriple_new_sandbox leased "create sandbox" (fun id => create_request_from_spec id spec) "sandbox create" (fun _ q => drv_create q) (fun _ q => q)
           inspect_sandbox).
  - intros id. apply vz_quiet_request.
  - intros id. by apply request_typed.
  - intros e v Hv. by eapply rests_settled.
  - intros id _ _. apply vtriple_after, vz_quiet_inspect.
Qed.
Lemma vtriple_restore snapshot leased : vtriple (settled leased) (restore_sandbox snapshot) (fun _ => settled leased).
Proof using All.
  apply settled_rests. intros l next w. unfold restore_sandbox, restore.
  set (q := fun id (record : SnapshotRecord) => create_request_new id
    (match record.(sr_template_metadata).(tm_start_cmd) with Some c => c | None => "snapshot"%string end) (resources_new 2 (gib 8))).
  apply (vtriple_new_sandbox leased "restore sandbox" (fun _ => find_snapshot snapshot.(Sb.sf_id)) "sandbox restore"
           (fun id record => drv_restore (q id record) record) q inspect_sandbox).
  - intros id. apply vz_quiet_find_snapshot.
  - intros id v r _. split; [done|]. split; [apply default_typed|apply restore_identity].
  - intros e v Hv. by eapply rests_settled.
  - intros id _ _. apply vtriple_after, vz_quiet_inspect.
Qed.
Lemma vtriple_deadline id deadline leased : vtriple (settled leased) (update_sandbox_deadline id deadline) (fun _ => settled leased).
Proof using All.
  destruct deadline as [t|t]; [|by apply vtriple_raise]. cbn [update_sandbox_deadline].
  apply vtriple_keep; [apply vz_quiet_settled, vz_quiet_surroundings|done|]. intros env v (l & Hv).
  pose proof (update_deadline_ok cfg l env id t (vz_inner v) (po_accounts _ _ _ Hv)) as Hd. unfold inner.
  destruct (update_deadline env id t (vz_inner v)) as [n [[]|e]]; cbn [fst snd] in Hd |- *.
  - destruct Hd as (l' & Hs & Ha). apply set_deadline_map in Hs. assert (ids l' = ids l) as Ei by (by rewrite <- !fst_entries, Hs).
    exists l'. apply (pools_ok_inner l); [done..| |]; rewrite Ei; [done|]. apply Hv.
  - exists l. apply (pools_ok_inner l l); [done..|]. apply Hv.
Qed.
Lemma vz_quiet_capture id options : quiet (capture_snapshot id options : VM D _).
Proof using All.
  unfold capture_snapshot. apply vz_quiet_bind; [apply vz_quiet_surroundings|]. intros env.
  apply vz_quiet_bind; [apply vz_quiet_inner; intros l; apply snapshot_ok|]. intros s. vz_quiet_parts.
Qed.
Lemma vz_quiet_remove_snapshot id : quiet (remove_snapshot id : VM D _).
Proof using All. apply vz_quiet_inner. intros l. apply delete_snapshot_ok. Qed.
Lemma vz_quiet_call op id c : quiet (inner op (process_call id c) : VM D _).
Proof using All. apply vz_quiet_inner. intros l. apply pass_on_ok. Qed.
Lemma vz_quiet_command op id q : quiet (inner op (run_command id q) : VM D _).
Proof using All. apply vz_quiet_inner. intros l. apply pass_on_ok. Qed.
Lemma vz_quiet_world {A} (m : HM Sb.Error A) : (forall dir, leaves (active_path dir) m) -> quiet (on_world m : VM D _).
Proof using.
  intros Hm l leased next w v (Hv & Hn & Hw). unfold on_world. specialize (fun dir => Hm dir (nd_world (vz_inner v))) as Hl.
  destruct (m (nd_world (vz_inner v))) as [h r]. cbn in Hl |- *. split; [|done]. apply (pools_ok_inner l l); [done| |done|apply Hv].
  destruct (po_accounts _ _ _ Hv) as (Hnd & (Hs & Hd) & Hr). split; [done|]. split; [|exact Hr]. split; [done|].
  intros dir Hdir. cbn in Hdir |- *. rewrite <- (Hd dir Hdir). apply document_ext. cbn. apply Hl.
Qed.
Hint Resolve vz_quiet_call vz_quiet_command : quiet.
Section Quiet.
Context (lossy : list Z -> string).
Lemma vz_quiet_fs op id path q : quiet (run_filesystem_command lossy op id path q : VM D _).
Proof using All. unfold run_filesystem_command. vz_quiet_parts. Qed.
Hint Resolve vz_quiet_fs : quiet.
Lemma vz_quiet_read_file id path : quiet (read_file lossy id path : VM D _).
Proof using All. unfold read_file. vz_quiet_parts. Qed.
Lemma vz_quiet_stat id path : quiet (stat_entry lossy id path : VM D _).
Proof using All. unfold stat_entry, stat_file. vz_quiet_parts. Qed.
Hint Resolve vz_quiet_read_file vz_quiet_stat : quiet.
Lemma vz_quiet_write id path data o : quiet (write_file lossy id path data o : VM D _).
Proof using All. unfold write_file. vz_quiet_parts. Qed.
Hint Resolve vz_quiet_write : quiet.
Lemma vz_quiet_copy_in id host guest : quiet (copy_in lossy id host guest : VM D _).
Proof using All.
  unfold copy_in. apply vz_quiet_bind; [|intros; vz_quiet_parts]. apply vz_quiet_world. intros dir w. unfold HostFs.read_file. by repeat case_match.
Qed.
Lemma vz_quiet_copy_out id guest host o : (forall dir, host <> active_path dir) -> quiet (copy_out lossy id guest host o : VM D _).
Proof using All.
  intros Hh. unfold copy_out. apply vz_quiet_bind; [destruct (Sb.cp_overwrite o); [apply vz_quiet_ret|by apply vz_quiet_world]|]. intros there.
  destruct there; [apply vz_quiet_raise|]. apply vz_quiet_bind; [apply vz_quiet_read_file|]. intros data. apply vz_quiet_bind.
  - destruct (path_parent host); [apply vz_quiet_world; intros dir; apply leaves_create_dir|apply vz_quiet_ret].
  - intros _. apply vz_quiet_world. intros dir. by apply leaves_write, not_eq_sym.
Qed.
End Quiet.

(** ** Runs *)
(** The identities of the sandboxes that run, and those that wait in a pool. *)
Definition running (v : AppleVzBackend D) : list string := ids (guarded v.(vz_inner).(nd_state).(st_active)).
Definition waits (id : string) (v : AppleVzBackend D) : Prop := exists key, id ∈ pool key v.(vz_warm_pools).
Definition handed_out (r : result Sb.Error Sb.WarmLease) : list string := match r with Ok lease => [lease.(Sb.wl_sandbox_id)] | Err _ => [] end.
(** One operation, with the lease it gives out.  Clients stop, kill and delete
    sandboxes that do not wait in a pool, and copy no file over a document of
    the node. *)
Inductive vz_step (v : AppleVzBackend D) : list string -> AppleVzBackend D -> Prop :=
| vs_prepare spec : vz_step v [] (prepare_template spec v).1
| vs_delete_template id : vz_step v [] (delete_template id v).1
| vs_create spec : spec_typed spec -> vz_step v [] (create_sandbox spec v).1
| vs_restore snapshot : vz_step v [] (restore_sandbox snapshot v).1
| vs_inspect id : vz_step v [] (inspect_sandbox id v).1
| vs_stop id mode : ~ waits id v -> vz_step v [] (stop_sandbox id mode v).1
| vs_kill id signal : ~ waits id v -> vz_step v [] (kill_sandbox id signal v).1
| vs_delete id : ~ waits id v -> vz_step v [] (delete_sandbox id v).1
| vs_deadline id deadline : vz_step v [] (update_sandbox_deadline id deadline v).1
| vs_capture id options : vz_step v [] (capture_snapshot id options v).1
| vs_remove_snapshot id : vz_step v [] (remove_snapshot id v).1
| vs_run id c : vz_step v [] (run_process id c v).1
| vs_start id c delivered ends : vz_step v [] (start_process id c delivered ends v).1
| vs_signal id s signal : vz_step v [] (signal_process id s signal v).1
| vs_input id s input : vz_step v [] (send_process_input id s input v).1
| vs_stream id c delivered : vz_step v [] (start_process_stream id c delivered v).1
| vs_list_processes id : vz_step v [] (list_processes id v).1
| vs_connect id s : vz_step v [] (connect_process id s v).1
| vs_close_stdin id s : vz_step v [] (close_process_stdin id s v).1
| vs_resize id s size : vz_step v [] (resize_process_pty id s size v).1
| vs_wait id s : vz_step v [] (wait_process id s v).1
| vs_list_files lossy id path o : vz_step v [] (list_files lossy id path o v).1
| vs_mkdir lossy id path recursive : vz_step v [] (mkdir lossy id path recursive v).1
| vs_rename lossy id from to : vz_step v [] (rename lossy id from to v).1
| vs_remove lossy id path : vz_step v [] (remove_file lossy id path v).1
| vs_read lossy id path : vz_step v [] (read_file lossy id path v).1
| vs_write lossy id path data o : vz_step v [] (write_file lossy id path data o v).1
| vs_copy_in lossy id host guest : vz_step v [] (copy_in lossy id host guest v).1
| vs_copy_out lossy id guest host o : (forall dir, host <> active_path dir) -> vz_step v [] (copy_out lossy id guest host o v).1
| vs_prewarm t spec : vz_step v [] (prewarm t spec v).1
| vs_maintain targets : vz_step v [] (maintain targets v).1
| vs_evict key count : vz_step v [] (evict key count v).1
| vs_checkout t policy : vz_step v (handed_out (checkout t policy v).2) (checkout t policy v).1.
Inductive vz_run (v0 : AppleVzBackend D) : list string -> AppleVzBackend D -> Prop :=
| vz_run_start : vz_run v0 [] v0
| vz_run_step leased v new v' : vz_run v0 leased v -> vz_step v new v' -> vz_run v0 (new ++ leased) v'.
Lemma vtriple_end op id leased v : ~ waits id v -> settled leased v -> settled leased (inner op (delete_session id) v).1.
Proof using All.
  intros Hw Hv. apply (vtriple_delete op id leased v.(vz_warm_pools)); [|by split]. intros key Hin. apply Hw. by exists key.
Qed.
Hint Resolve vz_quiet_prepare vz_quiet_delete_template vz_quiet_capture vz_quiet_remove_snapshot vz_quiet_inspect vz_quiet_fs vz_quiet_read_file vz_quiet_stat vz_quiet_write
  vz_quiet_copy_in vz_quiet_copy_out : quiet.
Ltac vz_quiet_operation := unfold run_process, start_process, signal_process, send_process_input, start_process_stream, list_processes, connect_process,
  close_process_stdin, resize_process_pty, wait_process, list_files, mkdir, rename, remove_file; vz_quiet_parts.
Lemma step_settled leased v new v' : settled leased v -> vz_step v new v' -> settled (new ++ leased) v'.
Proof using All.
  intros Hv []; cbn [app]; try (by apply vtriple_end); try (by apply (vz_quiet_settled _ leased); [vz_quiet_operation|done]).
  - by apply (vtriple_create _ leased).
  - by apply (vtriple_restore _ leased).
  - by apply (vtriple_deadline _ _ leased).
  - unfold prewarm, mbind, VM_bind. pose proof (vtriple_fill_pool t.(Sb.pt_id) spec leased v Hv) as Hf.
    by destruct (fill_pool t.(Sb.pt_id) spec v) as [? [?|?]].
  - by apply (vtriple_maintain _ _ leased).
  - by apply (vtriple_evict _ _ leased).
  - pose proof (vtriple_checkout t policy leased v Hv) as Hc. destruct (checkout t policy v) as [v1 [lease|e]]; cbn in *; [|done].
    destruct Hc as ((l & Hl & _) & _). by exists l.
Qed.
Lemma fresh_settled n r : accounts cfg [] n -> settled [] (from_single_node n r).
Proof using.
  intros Hn. exists []. split; [done|done| | | | |constructor|].
  - intros id [Hin|Hin]; by apply elem_of_nil in Hin.
  - intros key id Hin. by apply elem_of_nil in Hin.
  - intros key. constructor.
  - intros key key' id Hin. by apply elem_of_nil in Hin.
  - intros key id Hin. by apply elem_of_nil in Hin.
Qed.
Lemma run_settled n r leased v : accounts cfg [] n -> vz_run (from_single_node n r) leased v -> settled leased v.
Proof using All. intros Hn. induction 1 as [|leased v new v' _ IH Hs]; [by apply fresh_settled|by apply (step_settled leased v)]. Qed.
(** C38: Warm sandboxes are handed out running, and once.  From a node without
    sessions, through any sequence of operations of the sandbox API (templates
    prepared and deleted, sandboxes created, restored, stopped and deleted,
    commands, files, snapshots, pools filled, evicted and checked out, whatever
    of it fails on the way), as long as clients do not stop or delete a sandbox
    that waits in a pool and do not copy a file over the node's own session
    document: no two leases name the same sandbox, every waiting
    sandbox runs, waits once in one pool and has never been leased; the node
    accounts for its sessions; and the next checkout, if it succeeds, hands out
    a sandbox that runs and that no earlier lease names. *)
Theorem warm_leases_exclusive n r leased v template policy :
  accounts cfg [] n -> vz_run (from_single_node n r) leased v ->
  NoDup leased /\
  (forall key, NoDup (pool key v.(vz_warm_pools))) /\
  (forall key id, id ∈ pool key v.(vz_warm_pools) -> id ∈ running v /\ (id ∉ leased) /\
     forall key', id ∈ pool key' v.(vz_warm_pools) -> key' = key) /\
  accounts cfg (guarded v.(vz_inner).(nd_state).(st_active)) v.(vz_inner) /\
  match checkout template policy v with
  | (v', Ok lease) => lease.(Sb.wl_sandbox_id) ∈ running v' /\ (lease.(Sb.wl_sandbox_id) ∉ leased)
  | (_, Err _) => True
  end.
Proof using All.
  intros Hn Hrun. pose proof (run_settled n r leased v Hn Hrun) as Hs. pose proof Hs as (l & Hv).
  pose proof (accounts_sessions cfg l _ (po_accounts _ _ _ Hv)) as El. unfold running. rewrite El. split_and!; [by apply Hv..| |apply Hv|].
  - intros key id Hin. split_and!; [by apply (po_running _ _ _ Hv key)|by apply (po_unleased _ _ _ Hv key)|]. intros key' Hin'. by apply (po_apart _ _ _ Hv _ _ id).
  - pose proof (vtriple_checkout template policy leased v Hs) as Hc. destruct (checkout template policy v) as [v' [lease|e]]; [|done].
    cbn in Hc. destruct Hc as ((l' & Hv' & Hin) & Hnot). split; [|done]. by rewrite (accounts_sessions cfg l' _ (po_accounts _ _ _ Hv')).
Qed.
End Invariant.

(** ** A node in use *)
Section Examples.
Import DemoJson.
Definition demo_readings : Readings := mk_readings (fun _ => demo_surroundings) (fun _ => 0).
Definition demo_vz : AppleVzBackend (list string) := from_single_node demo_file_node demo_readings.
Definition plain_template (id reference : string) : Sb.TemplateSpec :=
  Sb.template_with_data_plane Sb.DataPlaneNone (Sb.template_with_id id (Sb.template_oci reference)).
Definition demo_template : Sb.PreparedTemplate := Sb.prepared_new 0 "base" (Sb.Oci "alpine") Sb.InfoNone.
Definition demo_prepared : AppleVzBackend (list string) := (prepare_template (plain_template "base" "alpine") demo_vz).1.
(** Two sandboxes wait. *)
Definition demo_warm : AppleVzBackend (list string) := (prewarm demo_template (Sb.warm_depth 2) demo_prepared).1.
Definition demo_leased : AppleVzBackend (list string) := (checkout demo_template Sb.RequireReady demo_warm).1.
Lemma warm_leases_exclusive_witness :
  vz_run demo_vz ["sbx_firkin_2"%string] demo_leased /\ pool "template-base" demo_leased.(vz_warm_pools) = ["sbx_firkin_1"%string] /\
  "sbx_firkin_1"%string ∈ running demo_leased /\ ("sbx_firkin_1"%string ∉ ["sbx_firkin_2"%string]).
Proof.
  assert (Hrun : vz_run demo_vz ["sbx_firkin_2"%string] demo_leased).
  { change ["sbx_firkin_2"%string] with (handed_out (checkout demo_template Sb.RequireReady demo_warm).2 ++ [] ++ [] ++ []).
    apply vz_run_step with (v := demo_warm); [|apply vs_checkout].
    apply vz_run_step with (v := demo_prepared); [|apply vs_prewarm].
    apply vz_run_step with (v := demo_vz); [constructor|apply vs_prepare]. }
  assert (Hpool : pool "template-base" demo_leased.(vz_warm_pools) = ["sbx_firkin_1"%string]) by (vm_compute; reflexivity).
  destruct (warm_leases_exclusive (nc_scheduler demo_node_config) demo_file_node demo_readings ["sbx_firkin_2"%string] demo_leased demo_template Sb.RequireReady
    demo_file_node_accounts Hrun) as (_ & _ & Hall & _).
  split; [exact Hrun|]. split; [exact Hpool|]. destruct (Hall "template-base"%string "sbx_firkin_1"%string) as (Hr & Hl & _).
  { rewrite Hpool. constructor. }
  split; [exact Hr|exact Hl].
Defined.

(** ** Where the API does less than it says *)
(** The default of a template, an injected data plane, is always refused. *)
Lemma default_template_refused reference (v : AppleVzBackend (list string)) :
  prepare_template (Sb.template_oci reference) v = (v, Err (Sb.PrepareFailure (Sb.EnvdMissing (Some reference)))).
Proof. reflexivity. Qed.
(** A sandbox that is deleted while it waits is leased all the same. *)
Lemma deleted_sandbox_is_leased :
  let '(v, r) := checkout demo_template Sb.RequireReady (delete_sandbox "sbx_firkin_2" demo_warm).1 in
  handed_out r = ["sbx_firkin_2"%string] /\ running v = ["sbx_firkin_1"%string].
Proof. vm_compute. split; reflexivity. Qed.
(** An eviction that fails forgets the sandboxes it did not get to: they run on
    in no pool. *)
Lemma failed_eviction_forgets :
  let '(v, r) := evict "template-base" 2 (delete_sandbox "sbx_firkin_1" demo_warm).1 in
  (exists e, r = Err e) /\ pool "template-base" v.(vz_warm_pools) = [] /\ running v = ["sbx_firkin_2"%string].
Proof. vm_compute. split_and!; [by eexists|reflexivity..]. Qed.
(** Evicting takes the sandbox that was made last. *)
Lemma eviction_takes_the_newest :
  pool "template-base" (evict "template-base" 1 demo_warm).1.(vz_warm_pools) = ["sbx_firkin_1"%string].
Proof. vm_compute. reflexivity. Qed.
(** A sandbox of the second of two templates with one image reports the first. *)
Lemma template_of_another :
  let v := (prepare_template (plain_template "other" "alpine") demo_prepared).1 in
  option_map Sb.in_template_id (match (create_sandbox (Sb.SpecTemplate "other" None ∅ None ∅) v).2 with Ok i => Some i | Err _ => None end)
  = Some (Some "base"%string).
Proof. vm_compute. reflexivity. Qed.
(** After a restart the identities start over: creating a sandbox fails on the
    first session that is still there, and gives its resources away. *)
Lemma restart_reuses_identities :
  let restarted := (prepare_template (plain_template "base" "alpine") (from_single_node demo_warm.(vz_inner) demo_readings)).1 in
  let '(v, r) := create_sandbox (Sb.SpecTemplate "base" None ∅ None ∅) restarted in
  r = Err (Sb.AlreadyExists "create sandbox" Sb.RkSandbox "sbx_firkin_1") /\
  running v = ["sbx_firkin_1"%string; "sbx_firkin_2"%string] /\
  available_resources v.(vz_inner).(nd_scheduler) = Ok (mk_resources 6 (2 ^ 33)).
Proof. vm_compute. split_and!; reflexivity. Qed.
(** The arguments of a command are joined without quotes, and its directory,
    variables and input are dropped. *)
Lemma run_process_drops_the_rest mode cwd env user stdin pty tag timeout :
  command_request (Sb.mk_command mode cwd env user stdin pty tag timeout) = command_request (Sb.command_new mode) /\
  command_request (Sb.command_new (Sb.Argv "rm" ["a b"%string])) = command_request (Sb.command_new (Sb.Argv "rm" ["a"%string; "b"%string])).
Proof. split; reflexivity. Qed.
(** [stat] calls an empty file a regular empty file. *)
Lemma empty_file_is_other : filesystem_file_type "regular empty file" = Sb.TypeOther.
Proof. reflexivity. Qed.
(** Every capability is reported; restoring is reported as missing. *)
Lemma restore_not_reported : Sb.supports capabilities Sb.SnapshotRestore = false /\ Sb.supports capabilities Sb.SnapshotCapture = true.
Proof. split; vm_compute; reflexivity. Qed.
End Examples.

(** ** A listing reads back *)
(** What [stat] prints for a file: path, type in words, size, mode in hex. *)
Record Printed := mk_printed { pr_path : string; pr_kind : string; pr_size : Z; pr_mode : Z }.
Definition printed_fields (f : Printed) : list string := [f.(pr_path); f.(pr_kind); print_dec f.(pr_size); print_hex f.(pr_mode)].
Definition printed_line (f : Printed) : string := join sep_tab (printed_fields f).
Definition printed (l : list Printed) : string := join "" ((fun f => printed_line f +:+ nl) <$> l).
Definition printable (f : Printed) : Prop :=
  Sb.validate_path f.(pr_path) = Ok tt /\ plain f.(pr_path) /\ plain f.(pr_kind) /\ in_uint 63 f.(pr_size) /\ in_uint 32 f.(pr_mode).
Definition entry_of (f : Printed) : Sb.FileEntry := Sb.mk_file_entry f.(pr_path) (filesystem_file_type f.(pr_kind)) f.(pr_size).
Lemma printed_plain f : printable f -> Forall plain (printed_fields f).
Proof.
  intros (_ & Hp & Hk & Hs & Hm). unfold printed_fields. rewrite !Forall_cons. split_and!; try done.
  - apply SessionFiles.digits_plain, print_dec_digits. uint_lia.
  - apply hex_digits_plain, print_hex_aux_digits; [uint_lia|done].
Qed.
Lemma trim_end_solid s c : is_ascii_alphanumeric c = true -> trim_end (s +:+ String c EmptyString) = s +:+ String c EmptyString.
Proof.
  intros Hc. unfold trim_end. rewrite bytes_app, fmap_app, rev_app_distr. cbn [bytes String.list_ascii_of_string fmap list_fmap rev app].
  assert (32 < code c < 128) as Hb by (unfold is_ascii_alphanumeric, is_ascii_digit in Hc; lia).
  assert (forall l, Volumes.trim_end_rev (code c :: l) = code c :: l) as ->.
  { intros l. cbn [Volumes.trim_end_rev]. unfold Network.is_white_byte, Network.is_white2, Network.is_white3.
    replace ((code c =? 32) || ((9 <=? code c) && (code c <=? 13))) with false by lia. destruct l as [|x l]; [done|].
    replace (code c =? 133) with false by lia. replace (code c =? 160) with false by lia. rewrite andb_false_r. destruct l as [|y l]; [done|].
    replace (128 <=? code c) with false by lia. replace (code c =? 128) with false by lia. replace (code c =? 168) with false by lia.
    replace (code c =? 169) with false by lia. replace (code c =? 175) with false by lia. replace (code c =? 159) with false by lia.
    cbn [andb orb]. by rewrite !andb_false_r. }
  cbn [rev]. rewrite rev_involutive, fmap_app. rewrite <- list_fmap_compose.
  rewrite (list_fmap_ext _ id) by (intros ? x _; cbn; by rewrite ascii_of_code). rewrite list_fmap_id. cbn [fmap list_fmap]. rewrite ascii_of_code.
  change [c] with (bytes (String c EmptyString)). rewrite <- bytes_app. apply String.string_of_list_ascii_of_string.
Qed.
Lemma string_last t : t <> EmptyString -> exists s c, t = s +:+ String c EmptyString.
Proof.
  induction t as [|c t IH]; [done|]. intros _. destruct (decide (t = EmptyString)) as [->|Hne]; [by exists EmptyString, c|].
  destruct (IH Hne) as (s & d & ->). by exists (String c s), d.
Qed.
Lemma hex_alphanumeric c : is_Some (to_digit 16 c) -> is_ascii_alphanumeric c = true.
Proof.
  unfold to_digit, digit_value, is_ascii_alphanumeric, is_ascii_digit. intros [d Hd].
  destruct ((48 <=? code c) && (code c <=? 57)); [done|]. destruct ((97 <=? code c) && (code c <=? 122)); [by rewrite orb_true_r|].
  by destruct ((65 <=? code c) && (code c <=? 90)).
Qed.
Lemma print_hex_digits n : 0 <= n -> all_bytes (fun c => bool_decide (is_Some (to_digit 16 c))) (print_hex n) = true.
Proof. intros Hn. by apply print_hex_aux_digits. Qed.
Lemma trim_end_printed f : printable f -> trim_end (printed_line f) = printed_line f.
Proof.
  intros (_ & _ & _ & _ & Hm). destruct (string_last (print_hex f.(pr_mode)) (print_hex_nonempty _)) as (s & c & E).
  assert (exists t, printed_line f = t +:+ String c EmptyString) as [t ->].
  { unfold printed_line, printed_fields. cbn [join]. rewrite E.
    exists (pr_path f +:+ sep_tab +:+ pr_kind f +:+ sep_tab +:+ print_dec (pr_size f) +:+ sep_tab +:+ s). by rewrite !append_assoc. }
  apply trim_end_solid, hex_alphanumeric. pose proof (print_hex_digits f.(pr_mode) ltac:(uint_lia)) as Hd. rewrite E, all_bytes_app in Hd.
  apply andb_true_iff in Hd as [_ Hd]. unfold all_bytes in Hd. cbn [bytes String.list_ascii_of_string forallb] in Hd. rewrite andb_true_r in Hd.
  by apply bool_decide_eq_true in Hd.
Qed.
Lemma stat_fields_printed op req f : printable f ->
  filesystem_stat_fields op req (printed_line f) = Ok (f.(pr_path), f.(pr_kind), print_dec f.(pr_size), print_hex f.(pr_mode)).
Proof.
  intros Hf. unfold filesystem_stat_fields. rewrite trim_end_printed by done. unfold printed_line. change sep_tab with (sep tab).
  rewrite split_join; [done|done|]. eapply Forall_impl; [by apply printed_plain|]. by intros x [? _].
Qed.
Lemma entry_printed op req f : printable f -> filesystem_entry_from_stat_line op req (printed_line f) = Ok (entry_of f).
Proof.
  intros Hf. unfold filesystem_entry_from_stat_line. rewrite stat_fields_printed by done. destruct Hf as (Hp & _ & _ & Hs & _).
  unfold mbind, result_bind. unfold Sb.new_path. rewrite Hp. cbn [map_err mbind result_bind].
  rewrite (from_str_print 64 0) by (done || uint_lia). done.
Qed.
Lemma permissions_printed op req f : printable f ->
  filesystem_permissions_from_stat_line op req (printed_line f) = Ok (Sb.mk_permissions f.(pr_mode)).
Proof.
  intros Hf. unfold filesystem_permissions_from_stat_line. rewrite stat_fields_printed by done. destruct Hf as (_ & _ & _ & _ & Hm).
  unfold mbind, result_bind. assert (trim_start_str "0x" (print_hex f.(pr_mode)) = print_hex f.(pr_mode)) as ->; [|by rewrite from_str_hex].
  unfold trim_start_str. cbn [trim_start_str_aux]. destruct (strip_prefix "0x" (print_hex (pr_mode f))) as [r|] eqn:E; [|done].
  exfalso. apply strip_prefix_sound in E. pose proof (print_hex_digits f.(pr_mode) ltac:(uint_lia)) as Hd. rewrite E in Hd. done.
Qed.
Lemma printed_slash f : printable f -> exists s, printed_line f = String "/" s.
Proof.
  intros (Hp & _). unfold Sb.validate_path in Hp. destruct f as [[|c p] k n m]; [done|]. cbn [pr_path] in Hp. cbn [is_empty] in Hp.
  unfold starts_with in Hp. cbn [strip_prefix] in Hp. destruct (Ascii.eqb_spec "/" c) as [<-|]; [|done].
  eexists. reflexivity.
Qed.
Lemma trim_start_slash l : Volumes.trim_start_white (code "/" :: l) = code "/" :: l.
Proof. by destruct l as [|x [|y l]]. Qed.
Lemma printed_solid f : printable f -> is_empty (Volumes.trim (printed_line f)) = false.
Proof.
  intros Hf. assert (Volumes.trim (printed_line f) = printed_line f) as ->; [|by destruct (printed_slash f Hf) as [s ->]].
  rewrite <- (trim_end_printed f Hf) at 2. destruct (printed_slash f Hf) as [s ->]. unfold Volumes.trim, trim_end.
  do 5 f_equal. apply trim_start_slash.
Qed.
Lemma printed_lines l : Forall printable l -> lines (printed l) = printed_line <$> l.
Proof.
  intros Hl. unfold printed. replace ((fun f => printed_line f +:+ nl) <$> l)
    with ((fun x => x +:+ String newline EmptyString) <$> (printed_line <$> l)) by (by rewrite <- list_fmap_compose).
  apply lines_concat. rewrite Forall_fmap. eapply Forall_impl; [exact Hl|]. intros f Hf. unfold compose, printed_line.
  pose proof (printed_plain f Hf) as Hp. unfold printed_fields in *. cbn [join]. rewrite !contains_app. rewrite !Forall_cons in Hp.
  destruct Hp as ((? & -> & ->) & (? & -> & ->) & (? & -> & ->) & (? & -> & ->) & _). by split.
Qed.
Section Listing.
Context {D : Type} `{RuntimeDriver D} `{Json (list ActiveSessionRecord), Json (list SnapshotRecord), Json Logs}.
Lemma fs_command_ok lossy op id path q (v : AppleVzBackend D) n out : run_command id q v.(vz_inner) = (n, Ok out) -> out.(co_exit_code) = 0 ->
  run_filesystem_command lossy op id path q v = (set_inner n v, Ok out).
Proof. intros E Ex. unfold run_filesystem_command, mbind, VM_bind, inner. rewrite E. cbn [map_err]. by rewrite Ex. Qed.
(** What [stat] says of files is what the API returns.  If the guest runs
    the listing command and prints one line per file, and the paths are absolute
    and carry no NUL byte, tab or line break, the listing returns the files in
    that order with their paths, types and sizes; and asking for one of them
    returns its entry and its mode. *)
Theorem listing_exact lossy id path o (v : AppleVzBackend D) n out files : Forall printable files ->
  run_command id (on_path (find_script o.(Sb.lo_recursive)) path) v.(vz_inner) = (n, Ok out) -> out.(co_exit_code) = 0 ->
  lossy out.(co_stdout) = printed files ->
  list_files lossy id path o v = (set_inner n v, Ok (entry_of <$> files)) /\
  forall f, f ∈ files -> forall w n' out',
    run_command id (on_path (unless "-e" fs_path +:+ "stat -c " +:+ node_stat_format +:+ " -- " +:+ fs_path) f.(pr_path)) w.(vz_inner) = (n', Ok out') ->
    out'.(co_exit_code) = 0 -> lossy out'.(co_stdout) = printed [f] ->
    stat_file lossy id f.(pr_path) w = (set_inner n' w, Ok (Sb.mk_file_stat (entry_of f) (Sb.mk_permissions f.(pr_mode)))).
Proof.
  intros Hf Hrun Hx Hout. split.
  - unfold list_files, mbind at 1, VM_bind at 1. rewrite (fs_command_ok _ _ _ _ _ _ _ _ Hrun Hx), Hout, printed_lines by done.
    unfold lift. f_equal. clear Hout. induction Hf as [|f files Hf _ IH]; [done|]. rewrite !fmap_cons. cbn [entries_of_lines].
    rewrite printed_solid, entry_printed by done. unfold mbind, result_bind. by rewrite IH.
  - intros f Hin w n' out' Hrun' Hx' Hout'. rewrite Forall_forall in Hf. specialize (Hf f Hin).
    unfold stat_file, mbind at 1, VM_bind at 1. rewrite (fs_command_ok _ _ _ _ _ _ _ _ Hrun' Hx'), Hout', printed_lines by (by constructor).
    cbn [fmap list_fmap]. unfold lift, mbind, VM_bind. by rewrite entry_printed, permissions_printed.
Qed.
End Listing.
(** A guest with a few files, which answers the two commands. *)
#[local] Instance listing_driver : RuntimeDriver (list Printed) := {
  runtime_sandbox_exists _ _ := Ok true;
  drv_create q d := (d, Ok (mk_created q.(cr_sandbox_id) "client" None None));
  drv_delete _ d := (d, Ok tt);
  drv_restore q _ d := (d, Ok (mk_created q.(cr_sandbox_id) "client" None None));
  drv_snapshot _ _ d := Backend.unsupported "snapshot" d;
  drv_delete_snapshot := default_delete_snapshot;
  drv_run_command _ q d :=
    let shown := if String.eqb q.(cmd_command) (find_script false) then d
                 else List.filter (fun f => bool_decide (Some f.(pr_path) = q.(cmd_envs) !! "FIRKIN_FS_PATH"%string)) d in
    (d, Ok (mk_command_output (bytes_of (printed shown)) [] 0));
  drv_process := default_process;
  drv_start_template_command _ _ _ d := Backend.unsupported "template start command" d
}.
Section ListingExample.
Import DemoJson.
Definition demo_files : list Printed := [mk_printed "/tmp/a b" "regular file" 5 33188; mk_printed "/tmp/d" "directory" 4096 16877].
Definition listing_node : Node (list Printed) :=
  (create demo_surroundings (demo_request "a")
     (with_driver_scheduler_and_state demo_node_config demo_files (scheduler_new (nc_scheduler demo_node_config)) store_new demo_world)).1.
Definition listing_vz : AppleVzBackend (list Printed) := from_single_node listing_node demo_readings.
Definition plain_text (l : list Z) : string := String.string_of_list_ascii (ascii_of <$> l).
Lemma listing_exact_witness :
  (list_files plain_text "a" "/tmp" (Sb.mk_list_options false) listing_vz).2 =
    Ok [Sb.mk_file_entry "/tmp/a b" Sb.TypeFile 5; Sb.mk_file_entry "/tmp/d" Sb.TypeDirectory 4096] /\
  (stat_file plain_text "a" "/tmp/d" listing_vz).2 =
    Ok (Sb.mk_file_stat (Sb.mk_file_entry "/tmp/d" Sb.TypeDirectory 4096) (Sb.mk_permissions 16877)).
Proof.
  destruct (listing_exact plain_text "a" "/tmp" (Sb.mk_list_options false) listing_vz listing_node
    (mk_command_output (bytes_of (printed demo_files)) [] 0) demo_files) as [Hl Hs].
  - repeat constructor; by vm_compute.
  - vm_compute. reflexivity.
  - reflexivity.
  - vm_compute. reflexivity.
  - split; [by rewrite Hl|].
    assert (E : stat_file plain_text "a" "/tmp/d" listing_vz = (set_inner listing_node listing_vz,
      Ok (Sb.mk_file_stat (Sb.mk_file_entry "/tmp/d" Sb.TypeDirectory 4096) (Sb.mk_permissions 16877)))); [|by rewrite E].
    apply (Hs (mk_printed "/tmp/d" "directory" 4096 16877) ltac:(right; left) listing_vz listing_node
      (mk_command_output (bytes_of (printed [mk_printed "/tmp/d" "directory" 4096 16877])) [] 0)); [|done|]; vm_compute; reflexivity.
Defined.
End ListingExample.
