(* ===== verification/Float64.v ===== *)
(** * Double precision floats

    An [f64] is its 64 bits.  Arithmetic decodes to the standard library's
    model of IEEE 754, rounds to nearest even and encodes; a NaN that
    arithmetic makes is the quiet one.  [total_cmp] is the order of the bits
    that [f64::total_cmp] uses, [gt], [lt] and [le] the comparison operators,
    which are false on NaN.  The lemmas relate the two orders. *)
From S2P Require Import Prelude.
From Stdlib Require Import SpecFloat.

Module F64.
Definition prec : Z := 53.
Definition emax : Z := 1024.
(** The magnitude and the sign bit. *)
Definition mag (x : Z) : Z := x mod 2 ^ 63.
Definition neg (x : Z) : bool := 2 ^ 63 <=? x.
Definition expo (x : Z) : Z := mag x / 2 ^ 52.
Definition mant (x : Z) : Z := mag x mod 2 ^ 52.
Definition finite (s : bool) (m e : Z) : spec_float :=
  match m with Zpos p => S754_finite s p e | _ => S754_zero s end.
Definition decode (x : Z) : spec_float :=
  if expo x =? 2047 then (if mant x =? 0 then S754_infinity (neg x) else S754_nan)
  else if expo x =? 0 then finite (neg x) (mant x) (-1074)
  else finite (neg x) (2 ^ 52 + mant x) (expo x - 1075).
Definition sign (s : bool) : Z := if s then 2 ^ 63 else 0.
Definition encode (f : spec_float) : Z :=
  match f with
  | S754_zero s => sign s
  | S754_infinity s => sign s + 2047 * 2 ^ 52
  | S754_nan => 2047 * 2 ^ 52 + 2 ^ 51
  | S754_finite s m e => sign s + (e + 1074) * 2 ^ 52 + Zpos m
  end.
Definition is_nan (x : Z) : bool := (expo x =? 2047) && negb (mant x =? 0).

Definition add (x y : Z) : Z := encode (SFadd prec emax (decode x) (decode y)).
Definition sub (x y : Z) : Z := encode (SFsub prec emax (decode x) (decode y)).
Definition mul (x y : Z) : Z := encode (SFmul prec emax (decode x) (decode y)).
Definition div (x y : Z) : Z := encode (SFdiv prec emax (decode x) (decode y)).
Definition sqrt (x : Z) : Z := encode (SFsqrt prec emax (decode x)).
(** [abs] clears the sign bit, of NaN too. *)
Definition abs (x : Z) : Z := mag x.
Definition gt (x y : Z) : bool := SFltb (decode y) (decode x).
Definition lt (x y : Z) : bool := SFltb (decode x) (decode y).
Definition le (x y : Z) : bool := SFleb (decode x) (decode y).
(** [n as f64] of an unsigned integer. *)
Definition of_int (n : Z) : Z := encode (binary_normalize prec emax n 0 false).
(** [f64::EPSILON], 2^-52. *)
Definition EPSILON : Z := (1023 - 52) * 2 ^ 52.
(** [iter().sum()] starts from -0.0. *)
Definition sum (l : list Z) : Z := foldl add (2 ^ 63) l.

(** [total_cmp]: the bits as a signed integer, the magnitude of a negative one
    flipped. *)
Definition total_key (x : Z) : Z := if neg x then - mag x - 1 else mag x.
Definition total_le (x y : Z) : Prop := total_key x <= total_key y.
#[global] Instance total_le_dec : RelDecision total_le.
Proof. intros x y. apply Z_le_dec. Defined.
#[global] Instance total_le_trans : Transitive total_le.
Proof. intros x y z. unfold total_le. lia. Qed.
#[global] Instance total_le_total : Total total_le.
Proof. intros x y. unfold total_le. lia. Qed.
(** [sort_by(f64::total_cmp)]: equal elements have equal bits. *)
Definition sort (l : list Z) : list Z := merge_sort total_le l.

(** ** The two orders *)
(** The number a float stands for, scaled to an order-preserving integer. *)
Definition num_key (x : Z) : Z := if neg x then - mag x else mag x.
Lemma total_num x y : total_key x <= total_key y -> num_key x <= num_key y.
Proof.
  unfold total_key, num_key, mag.
  pose proof (Z.mod_pos_bound x (2 ^ 63) eq_refl). pose proof (Z.mod_pos_bound y (2 ^ 63) eq_refl).
  destruct (neg x), (neg y); lia.
Qed.
Definition mag_of (m e : Z) : Z := (e + 1074) * 2 ^ 52 + m.
Definition canonical_float (m e : Z) : Prop := -1074 <= e /\ 0 <= m < 2 ^ 53 /\ (-1074 < e -> 2 ^ 52 <= m).
Lemma canonical_lt m e m' e' :
  canonical_float m e -> canonical_float m' e' ->
  mag_of m e < mag_of m' e' <-> e < e' \/ (e = e' /\ m < m').
Proof.
  unfold canonical_float, mag_of. intros (H1 & H2 & H3) (H1' & H2' & H3').
  destruct (Z.lt_trichotomy e e') as [He|[->|He]].
  - specialize (H3' ltac:(lia)). split; [lia|]. intros _. lia.
  - lia.
  - specialize (H3 ltac:(lia)). split; [|lia]. lia.
Qed.
(** A float that is not NaN, by its mantissa and exponent; an infinity as the
    one value of an exponent of its own. *)
Lemma decode_shape x :
  is_nan x = false ->
  exists m e, canonical_float m e /\ mag x = mag_of m e /\
    ((e = 972 /\ m = 2 ^ 52 /\ decode x = S754_infinity (neg x)) \/ (e < 972 /\ decode x = finite (neg x) m e)).
Proof.
  unfold is_nan, decode. intros Hn.
  pose proof (Z.mod_pos_bound x (2 ^ 63) eq_refl) as Hx. fold (mag x) in Hx.
  pose proof (Z.div_mod (mag x) (2 ^ 52) ltac:(lia)) as Hd. fold (expo x) (mant x) in Hd.
  pose proof (Z.mod_pos_bound (mag x) (2 ^ 52) eq_refl) as Hm. fold (mant x) in Hm.
  assert (He : 0 <= expo x < 2048) by lia.
  destruct (expo x =? 2047) eqn:E1; cbn [andb] in Hn.
  - destruct (mant x =? 0) eqn:E2; [|done]. exists (2 ^ 52), 972. unfold canonical_float, mag_of. split_and!; try lia.
    left. done.
  - destruct (expo x =? 0) eqn:E2.
    + exists (mant x), (-1074). unfold canonical_float, mag_of. split_and!; try lia. right. split; [lia|done].
    + exists (2 ^ 52 + mant x), (expo x - 1075). unfold canonical_float, mag_of. split_and!; try lia. right. split; [lia|done].
Qed.
Lemma compare_finite s m e s' m' e' :
  canonical_float m e -> canonical_float m' e' ->
  SFltb (finite s m e) (finite s' m' e') =
    ((if s then - mag_of m e else mag_of m e) <? (if s' then - mag_of m' e' else mag_of m' e')).
Proof.
  intros Hc Hc'. pose proof (canonical_lt m e m' e' Hc Hc') as H1. pose proof (canonical_lt m' e' m e Hc' Hc) as H2.
  assert (Hz : 0 <= mag_of m e) by (unfold canonical_float, mag_of in *; lia).
  assert (Hz' : 0 <= mag_of m' e') by (unfold canonical_float, mag_of in *; lia).
  assert (Hp : 0 < m -> 0 < mag_of m e) by (unfold canonical_float, mag_of in *; lia).
  assert (Hp' : 0 < m' -> 0 < mag_of m' e') by (unfold canonical_float, mag_of in *; lia).
  assert (H0 : m = 0 -> mag_of m e = 0).
  { unfold canonical_float, mag_of in *. intros ->. destruct (decide (e = -1074)); lia. }
  assert (H0' : m' = 0 -> mag_of m' e' = 0).
  { unfold canonical_float, mag_of in *. intros ->. destruct (decide (e' = -1074)); lia. }
  assert (0 <= m /\ 0 <= m') as [? ?] by (unfold canonical_float in *; lia). clear Hc Hc'.
  set (a := mag_of m e) in *. set (b := mag_of m' e') in *. clearbody a b.
  unfold SFltb, SFcompare, finite.
  destruct m as [|p|p]; [|..|lia]; (destruct m' as [|p'|p']; [|..|lia]); destruct s, s';
    try (rewrite H0, ?H0' by done); try (rewrite H0' by done); try (symmetry; lia).
  all: destruct (Z.compare_spec e e'); try (symmetry; lia);
    change (Pos.compare_cont Eq p p') with (Pos.compare p p'); destruct (Pos.compare_spec p p'); cbn; symmetry; lia.
Qed.
Lemma finite_cases s m e : (exists f, finite s m e = S754_zero f) \/ (exists p, finite s m e = S754_finite s p e).
Proof. destruct m; cbn; eauto. Qed.
Lemma lt_num x y : is_nan x = false -> is_nan y = false -> lt x y = (num_key x <? num_key y).
Proof.
  intros Hx Hy. destruct (decode_shape x Hx) as (m & e & Hc & Hm & Hd). destruct (decode_shape y Hy) as (m' & e' & Hc' & Hm' & Hd').
  unfold lt, num_key. rewrite Hm, Hm'.
  pose proof (canonical_lt m e m' e' Hc Hc') as H1. pose proof (canonical_lt m' e' m e Hc' Hc) as H2.
  assert (0 <= mag_of m e /\ 0 <= mag_of m' e') as [? ?] by (unfold canonical_float, mag_of in *; lia).
  destruct Hd as [(-> & -> & ->)|[He ->]], Hd' as [(-> & -> & ->)|[He' ->]].
  - by destruct (neg x), (neg y); vm_compute.
  - assert (Hlt : mag_of m' e' < mag_of (2 ^ 52) 972) by (apply H2; lia).
    destruct (finite_cases (neg y) m' e') as [[f Hf]|[p Hf]]; rewrite Hf; destruct (neg x), (neg y); cbn; symmetry; lia.
  - assert (Hlt : mag_of m e < mag_of (2 ^ 52) 972) by (apply H1; lia).
    destruct (finite_cases (neg x) m e) as [[f Hf]|[p Hf]]; rewrite Hf; destruct (neg x), (neg y); cbn; symmetry; lia.
  - by apply compare_finite.
Qed.
(** What is not above a bound stays below it going down the total order. *)
Lemma not_gt_down x y b :
  is_nan x = false -> is_nan y = false -> total_le x y -> gt y b = false -> gt x b = false.
Proof.
  intros Hx Hy Hle Hg. unfold gt in *. fold (lt b y) in Hg. fold (lt b x). destruct (is_nan b) eqn:Eb.
  { unfold is_nan in Eb. unfold lt, decode. apply andb_true_iff in Eb as [-> Eb]. by destruct (mant b =? 0). }
  rewrite lt_num in Hg |- * by done. apply total_num in Hle. lia.
Qed.
(** Encoding undoes decoding. *)
Lemma encode_decode x : in_uint 64 x -> is_nan x = false -> encode (decode x) = x.
Proof.
  intros Hr Hx. assert (Hs : sign (neg x) + mag x = x).
  { unfold in_uint, sign, neg, mag in *. destruct (Z.leb_spec (2 ^ 63) x); [|rewrite Z.mod_small; lia].
    pose proof (Z.div_mod x (2 ^ 63) ltac:(lia)). pose proof (Z.mod_pos_bound x (2 ^ 63) eq_refl). nia. }
  destruct (decode_shape x Hx) as (m & e & Hc & Hm & [(-> & -> & ->)|[He ->]]); rewrite Hm in Hs.
  - rewrite <-Hs at 2. unfold mag_of. cbn [encode]. lia.
  - destruct m as [|p|p]; [|cbn [finite encode]; unfold mag_of in Hs; lia|unfold canonical_float in Hc; lia].
    unfold canonical_float, mag_of in *. cbn [finite encode]. destruct (decide (e = -1074)); lia.
Qed.
(** Small integers are what they should be. *)
Example of_int_75 : of_int 75 = (1023 + 6) * 2 ^ 52 + (75 - 64) * 2 ^ 46.
Proof. vm_compute. reflexivity. Qed.
Example mean_of_two : div (add (of_int 1) (of_int 2)) (of_int 2) = add (of_int 1) (div (of_int 1) (of_int 2)).
Proof. vm_compute. reflexivity. Qed.
End F64.
