(* ===== verification/MetricCatalog.v ===== *)
(** * The catalog of metrics ([crates/evidence/src/{catalog,metric_contract}.rs])

    What can be measured, who owns a measurement, which measurements a
    scorecard needs, and from which pair of events a decision-grade metric is
    derived.  [Catalog] and [Contract] hold the tables row by row and their
    lookups; [CatalogProofs] shows that the lookups are exact. *)
From S2P Require Import Prelude Trace.

(** ** The catalog ([catalog.rs]) *)
Module Catalog.
Import Samples.
Inductive BenchmarkMetricGroup :=
| Product | Startup | Exec | AgentTask | Autoscale | Demand | Capacity | Disk | Memory | Cpu | Pressure | Network | Pids
| Pod | Cache | Isolation | Cleanup | Reliability | Density | Power.
#[global] Instance BenchmarkMetricGroup_eq_dec : EqDecision BenchmarkMetricGroup.
Proof. solve_decision. Defined.
Definition group_str (g : BenchmarkMetricGroup) : string :=
  match g with
  | Product => "product" | Startup => "startup" | Exec => "exec" | AgentTask => "agent_task"
  | Autoscale => "autoscale" | Demand => "demand" | Capacity => "capacity" | Disk => "disk"
  | Memory => "memory" | Cpu => "cpu" | Pressure => "pressure" | Network => "network"
  | Pids => "pids" | Pod => "pod" | Cache => "cache" | Isolation => "isolation"
  | Cleanup => "cleanup" | Reliability => "reliability" | Density => "density" | Power => "power"
  end.
Inductive BenchmarkRequirementLevel := P0Dashboard | AutoscaleDashboard | Core | Drilldown | FutureHarness.
#[global] Instance BenchmarkRequirementLevel_eq_dec : EqDecision BenchmarkRequirementLevel.
Proof. solve_decision. Defined.
Definition requirement_str (l : BenchmarkRequirementLevel) : string :=
  match l with
  | P0Dashboard => "p0_dashboard" | AutoscaleDashboard => "autoscale_dashboard" | Core => "core"
  | Drilldown => "drilldown" | FutureHarness => "future_harness"
  end.
Inductive BenchmarkMeasurementStatus := SignedLiveExact | SignedLiveProxy | UnitValidatedOnly | NeedsLiveHarness.
#[global] Instance BenchmarkMeasurementStatus_eq_dec : EqDecision BenchmarkMeasurementStatus.
Proof. solve_decision. Defined.
Definition status_str (s : BenchmarkMeasurementStatus) : string :=
  match s with
  | SignedLiveExact => "signed_live_exact" | SignedLiveProxy => "signed_live_proxy"
  | UnitValidatedOnly => "unit_validated_only" | NeedsLiveHarness => "needs_live_harness"
  end.
Record BenchmarkMetricDefinition := metric {
  def_name : string;
  def_group : BenchmarkMetricGroup;
  def_kind : BenchmarkMetricKind;
  def_unit : BenchmarkUnit;
  def_requirement : BenchmarkRequirementLevel;
  def_notes : string
}.
Record BenchmarkMeasurementCoverage := coverage {
  cov_metric : string;
  cov_status : BenchmarkMeasurementStatus;
  cov_source : string;
  cov_notes : string
}.
Inductive BenchmarkMetricMatch := Exact (expected : string) | Prefix (prefix : string) | Fallback.
Definition matches (p : BenchmarkMetricMatch) (m : string) : bool :=
  match p with
  | Exact expected => String.eqb m expected
  | Prefix prefix => String.prefix prefix m
  | Fallback => true
  end.
Definition match_str (p : BenchmarkMetricMatch) : string :=
  match p with Exact v | Prefix v => v | Fallback => "*" end.
Definition match_kind (p : BenchmarkMetricMatch) : string :=
  match p with Exact _ => "exact" | Prefix _ => "prefix" | Fallback => "fallback" end.
Record BenchmarkMetricOwnership := ownership {
  metric_match : BenchmarkMetricMatch;
  phase_label : string;
  owner : string;
  next_action_hint : string
}.

(** *** The tables *)
Definition P0_SCORECARD_METRICS : list string := [
  "start.hot_to_first_stdout_ms";
  "start.hot_to_ready_ms";
  "start.warm_to_first_stdout_ms";
  "start.agent_task_ready_ms";
  "pool.lease_ms";
  "exec.direct_command_start_ms";
  "exec.direct_first_stdout_byte_ms";
  "exec.batch_100_small_commands_ms";
  "density.max_active_before_retained_shell_first_stdout_p95_doubles";
  "disk.sparse_bloat_after_trim";
  "disk.host_bytes_reclaimed_after_trim";
  "cleanup.leftover_bytes";
  "reliability.unknown_failure_rate"].
Definition AUTOSCALE_EFFICIENCY_SCORECARD_METRICS : list string := [
  "autoscale.ready_queue_hit_rate_pct";
  "product.agent_computer_ready_ms";
  "product.agent_computer_resume_ms";
  "autoscale.safe_spare_limiting_utilization_pct";
  "autoscale.pressure_to_safe_floor_ms";
  "autoscale.pressure_clear_to_ready_target_ms";
  "density.max_agent_computers_before_ready_p95_doubles";
  "density.max_prestarted_agent_slots_before_checkout_ready_p95_doubles";
  "density.prestarted_agent_slot_fifo_acceptance_p95_ms";
  "autoscale.active_evictions_due_to_pool_pressure";
  "autoscale.reserve_floor_violations";
  "cleanup.leftover_bytes";
  "reliability.unknown_failure_rate"].
Definition AGENT_COMPUTER_SCORECARD_METRICS : list string := [
  "product.agent_computer_ready_ms";
  "product.agent_computer_resume_ms";
  "density.max_agent_computers_before_ready_p95_doubles";
  "cleanup.leftover_bytes";
  "reliability.unknown_failure_rate"].
Definition AGENT_COMPUTER_DRILLDOWN_METRICS : list string := [
  "product.cli_ready_ms";
  "product.browser_ready_ms";
  "product.database_ready_ms"].
Definition P0_SCORECARD_MEASUREMENT_COVERAGE : list BenchmarkMeasurementCoverage := [
  coverage "start.hot_to_first_stdout_ms" SignedLiveExact "event_trace:start.hot_to_first_stdout_ms" "derived from PoolLeaseAcquired through FirstStdoutByte on the hot tiny-exec path";
  coverage "start.hot_to_ready_ms" SignedLiveExact "event_trace:start.hot_to_ready_ms" "derived from PoolLeaseAcquired through ReadyProbePassed on the hot readiness path";
  coverage "start.warm_to_first_stdout_ms" SignedLiveExact "event_trace:start.warm_to_first_stdout_ms" "derived from RequestStart through FirstStdoutByte on the warm tiny-exec path";
  coverage "start.agent_task_ready_ms" SignedLiveExact "event_trace:start.agent_task_ready_ms" "derived from external RequestStart through FirstStdoutByte for first useful stdout";
  coverage "pool.lease_ms" SignedLiveExact "event_trace:pool.lease_ms" "derived from PoolLeaseRequested through PoolLeaseAcquired and excludes readiness, workspace, exec, stdout, and cleanup";
  coverage "exec.direct_command_start_ms" SignedLiveExact "event_trace:exec.direct_command_start_ms" "derived from ExecRequestSent through ProcessStarted on the direct argv exec workload";
  coverage "exec.direct_first_stdout_byte_ms" SignedLiveExact "event_trace:exec.direct_first_stdout_byte_ms" "derived from ExecRequestSent through FirstStdoutByte on the direct argv exec workload";
  coverage "exec.batch_100_small_commands_ms" SignedLiveExact "event_trace:exec.batch_100_small_commands_ms" "derived from the first batch ExecRequestSent through the final ProcessExited";
  coverage "density.max_active_before_retained_shell_first_stdout_p95_doubles" SignedLiveExact "event_trace:density.max_active_before_retained_shell_first_stdout_p95_doubles" "derived from retained-shell first-stdout p95 points under concurrent dispatch";
  coverage "disk.sparse_bloat_after_trim" SignedLiveExact "event_trace:disk.sparse_bloat_after_trim" "derived from paired host allocated bytes and guest used bytes after fstrim";
  coverage "disk.host_bytes_reclaimed_after_trim" SignedLiveExact "event_trace:disk.host_bytes_reclaimed_after_trim" "derived from host allocated-byte delta across FstrimStart and FstrimDone";
  coverage "cleanup.leftover_bytes" SignedLiveExact "event_trace:cleanup.leftover_bytes" "derived from run-scoped Firkin-owned cleanup scan at CleanupDone";
  coverage "reliability.unknown_failure_rate" SignedLiveExact "event_trace:reliability.unknown_failure_rate" "derived from classified attempts after known boot, agent, DNS, workspace, and OOM failures are excluded"].
Definition AUTOSCALE_EFFICIENCY_MEASUREMENT_COVERAGE : list BenchmarkMeasurementCoverage := [
  coverage "autoscale.ready_queue_hit_rate_pct" UnitValidatedOnly "autoscale_trace:ready_queue_hit_rate_pct" "unit-validated ready-hit/miss calculation; still requires signed-live request outcome classification between ready hot/resumed capacity and warm/cold creation";
  coverage "product.agent_computer_ready_ms" UnitValidatedOnly "autoscale_trace:product.agent_computer_ready_ms" "unit-validated event-pair derivation; still requires signed-live browser + database + CLI product readiness harness";
  coverage "product.agent_computer_resume_ms" UnitValidatedOnly "autoscale_trace:product.agent_computer_resume_ms" "unit-validated event-pair derivation; still requires signed-live pressure-suspended agent-computer resume harness";
  coverage "autoscale.safe_spare_limiting_utilization_pct" UnitValidatedOnly "autoscale_trace:safe_spare_limiting_utilization_pct" "unit-validated limiting-resource derivation; still requires signed-live per-resource safe spare accounting";
  coverage "autoscale.pressure_to_safe_floor_ms" UnitValidatedOnly "autoscale_trace:pressure_to_safe_floor_ms" "unit-validated event-pair derivation; still requires signed-live pressure-state and reserve-floor harness";
  coverage "autoscale.pressure_clear_to_ready_target_ms" UnitValidatedOnly "autoscale_trace:pressure_clear_to_ready_target_ms" "unit-validated event-pair derivation; still requires signed-live pressure-clear and ready-target harness";
  coverage "density.max_agent_computers_before_ready_p95_doubles" UnitValidatedOnly "autoscale_trace:density.max_agent_computers_before_ready_p95_doubles" "unit-validated p95-doubling breakpoint; still requires browser + database + CLI density sweep, not shell-only density";
  coverage "density.max_prestarted_agent_slots_before_checkout_ready_p95_doubles" UnitValidatedOnly "autoscale_trace:density.max_prestarted_agent_slots_before_checkout_ready_p95_doubles" "unit-validated p95-doubling breakpoint for already-running slots; signed-live smoke exists but still needs decision-grade repeats and non-serialized completion observation";
  coverage "density.prestarted_agent_slot_fifo_acceptance_p95_ms" UnitValidatedOnly "autoscale_trace:density.prestarted_agent_slot_fifo_acceptance_p95_ms" "unit-validated absolute FIFO acceptance guard for already-running slots; signed-live smoke proves the c4 checkout path while the p95-doubling breakpoint remains diagnostic";
  coverage "autoscale.active_evictions_due_to_pool_pressure" UnitValidatedOnly "autoscale_trace:active_evictions_due_to_pool_pressure" "unit-validated protection-count sample; still requires signed-live eviction cause classification that separates active protection from pool comfort";
  coverage "autoscale.reserve_floor_violations" UnitValidatedOnly "autoscale_trace:reserve_floor_violations" "unit-validated protection-count sample; still requires signed-live controller decisions to record configured reserves and post-decision resource state";
  coverage "cleanup.leftover_bytes" SignedLiveExact "event_trace:cleanup.leftover_bytes" "shared guardrail from the P0 scorecard; must remain exact for autoscale runs";
  coverage "reliability.unknown_failure_rate" SignedLiveExact "event_trace:reliability.unknown_failure_rate" "shared guardrail from the P0 scorecard; must remain exact for autoscale runs"].
Definition ownership_exact_1 : list BenchmarkMetricOwnership := [
  ownership (Exact "product.agent_computer_ready_ms") "product_agent_computer_ready" "firkin-benchmark/firkin-runtime" "inspect external request through browser, database, and CLI readiness probes";
  ownership (Exact "product.agent_computer_resume_ms") "product_agent_computer_resume" "firkin-runtime/firkin-single-node" "inspect pressure-suspended resume through browser, database, and CLI readiness probes";
  ownership (Exact "autoscale.ready_queue_hit_rate_pct") "autoscale_ready_queue" "firkin-admission/firkin-runtime" "inspect demand classification and whether requests were served from hot or resumed ready capacity";
  ownership (Exact "autoscale.safe_spare_limiting_utilization_pct") "autoscale_safe_spare" "firkin-admission/firkin-benchmark" "inspect per-resource safe spare accounting and limiting-resource selection";
  ownership (Exact "autoscale.pressure_to_safe_floor_ms") "autoscale_pressure_shrink" "firkin-admission/firkin-hygiene" "inspect pressure detection, shrink decisions, reclaim, and reserve-floor satisfaction";
  ownership (Exact "autoscale.pressure_clear_to_ready_target_ms") "autoscale_pressure_refill" "firkin-admission/firkin-runtime" "inspect pressure-clear detection, refill decisions, and restored ready target";
  ownership (Exact "density.max_agent_computers_before_ready_p95_doubles") "density_agent_computer_ready" "firkin-benchmark/firkin-runtime" "inspect browser + database + CLI density sweep for product-readiness p95 breakpoint";
  ownership (Exact "density.max_prestarted_agent_slots_before_checkout_ready_p95_doubles") "density_prestarted_agent_slot_ready" "firkin-benchmark/firkin-runtime/firkin-single-node" "inspect already-running agent-slot checkout density and completion observation";
  ownership (Exact "density.prestarted_agent_slot_fifo_acceptance_p95_ms") "density_prestarted_agent_slot_fifo_acceptance" "firkin-benchmark/firkin-runtime/firkin-single-node" "inspect absolute FIFO acceptance latency for already-running prestarted agent slots";
  ownership (Exact "autoscale.active_evictions_due_to_pool_pressure") "autoscale_active_protection" "firkin-admission/firkin-runtime" "inspect eviction causes and reject active-session eviction for pool comfort";
  ownership (Exact "autoscale.reserve_floor_violations") "autoscale_reserve_floor" "firkin-admission/firkin-hygiene" "inspect reserve-floor configuration, controller decisions, and post-decision resource state";
  ownership (Exact "start.hot_to_first_stdout_ms") "startup_hot_to_stdout" "firkin-runtime/firkin-vminitd-client" "inspect readiness, exec dispatch, process start, and first stdout wait after a hot pool lease";
  ownership (Exact "start.hot_to_ready_ms") "startup_hot_to_ready" "firkin-runtime" "inspect guest ping, workspace probe, exec probe, and optional DNS readiness after a hot pool lease";
  ownership (Exact "start.resume_to_first_stdout_ms") "startup_resume_to_stdout" "firkin-runtime/firkin-single-node" "inspect snapshot restore, readiness, exec dispatch, and first stdout on the resumed path";
  ownership (Exact "start.warm_to_first_stdout_ms") "startup_warm_to_stdout" "firkin-runtime/firkin-single-node" "inspect warm start, readiness, exec dispatch, and first stdout from request start";
  ownership (Exact "start.agent_task_ready_ms") "agent_task_ready" "firkin-benchmark/firkin-runtime" "inspect external request handling through first useful stdout";
  ownership (Exact "pool.lease_ms") "pool_lease" "firkin-admission/firkin-runtime" "inspect pool lookup and lease acquisition without readiness, workspace, exec, stdout, or cleanup"].
Definition ownership_exact_2 : list BenchmarkMetricOwnership := [
  ownership (Exact "exec.direct_command_start_ms") "direct_exec_first_process" "firkin-vminitd-client/firkin-runtime" "inspect direct exec RPC dispatch, vsock handoff, and guest process start without shell startup";
  ownership (Exact "exec.direct_first_stdout_byte_ms") "direct_exec_first_output" "firkin-vminitd-client/firkin-runtime" "inspect direct exec stdout transport buffering and first-byte propagation without shell startup";
  ownership (Exact "exec.batch_100_small_commands_ms") "exec_batch_100" "firkin-benchmark/firkin-vminitd-client" "inspect small-command batch dispatch and final process exit";
  ownership (Exact "density.max_active_before_retained_shell_first_stdout_p95_doubles") "density_retained_shell_stdout" "firkin-benchmark/firkin-runtime" "inspect retained-shell concurrent dispatch p95 breakpoint";
  ownership (Exact "disk.sparse_bloat_after_trim") "disk_trim_bloat" "firkin-benchmark/firkin-single-node" "inspect paired host allocation and guest used bytes after fstrim";
  ownership (Exact "disk.host_bytes_reclaimed_after_trim") "disk_trim_reclaim" "firkin-benchmark/firkin-single-node" "inspect host allocation delta across fstrim";
  ownership (Exact "cleanup.leftover_bytes") "cleanup_leftover" "firkin-hygiene/firkin-runtime" "inspect run-scoped Firkin-owned leftover bytes after destroy";
  ownership (Exact "reliability.unknown_failure_rate") "runtime_reliability" "firkin-benchmark/firkin-runtime" "inspect classified attempts and unknown failure bucketing";
  ownership (Exact "agent_task_ready_ms") "agent_task_ready" "firkin-runtime/firkin-benchmark" "inspect lifecycle span from sandbox create request through first useful stdout";
  ownership (Exact "command_start") "exec_first_process" "firkin-vminitd-client/firkin-runtime" "inspect command dispatch, vsock handoff, and guest process spawn timing";
  ownership (Exact "first_stdout_byte") "exec_first_output" "firkin-vminitd-client/firkin-runtime" "inspect stdout transport buffering and first-byte propagation";
  ownership (Exact "warm_snapshot_restore") "startup_warm_restore" "firkin-runtime/firkin-single-node" "inspect warm snapshot restore and ready-template checkout path";
  ownership (Exact "cold_template_build") "startup_cold_template" "firkin-runtime/firkin-single-node" "inspect cold template materialization and product create path";
  ownership (Exact "template.build_ms") "template_build" "firkin-template/firkin-runtime" "inspect template command execution and rootfs bake path";
  ownership (Exact "template.snapshot_save_ms") "template_snapshot" "firkin-template/firkin-runtime" "inspect template snapshot capture path";
  ownership (Exact "kill_delete") "cleanup_delete" "firkin-runtime/firkin-hygiene" "inspect sandbox kill, delete, and managed-root cleanup";
  ownership (Exact "concurrent_create") "density_concurrent_create" "firkin-benchmark/firkin-runtime" "inspect concurrent create sweep and runtime capacity blockers"].
Definition ownership_prefix : list BenchmarkMetricOwnership := [
  ownership (Prefix "sandbox.disk.") "disk_io" "firkin-oci/firkin-template/firkin-core" "inspect rootfs, pod-store, filesystem, and trim measurement path";
  ownership (Prefix "sandbox.mem.") "memory_attribution" "firkin-vmm/firkin-runtime" "inspect VM task attribution, guest reclaim, and host residual accounting";
  ownership (Prefix "sandbox.net.") "network" "firkin-vmm/firkin-vminitd-client" "inspect guest networking, vsock, and policy-denial path";
  ownership (Prefix "sandbox.exec.") "exec_control" "firkin-vminitd-client/firkin-runtime" "inspect exec RPC, stream transport, signal, and log backpressure path";
  ownership (Prefix "sandbox.start.") "startup" "firkin-runtime/firkin-single-node" "inspect runtime create, template restore, VZ start, and guest readiness path";
  ownership (Prefix "sandbox.cleanup.") "cleanup" "firkin-runtime/firkin-hygiene" "inspect managed-root scan, artifact deletion, and cleanup accounting";
  ownership (Prefix "sandbox.density.") "density" "firkin-benchmark/firkin-runtime" "inspect benchmark concurrency sweep and runtime capacity policy";
  ownership (Prefix "sandbox.pressure.") "guest_pressure" "firkin-vminitd-client/firkin-benchmark" "inspect guest PSI collection, kernel support, and pressure workload trigger";
  ownership (Prefix "sandbox.reliability.") "runtime_reliability" "firkin-runtime/firkin-benchmark" "inspect classified runtime attempts, boot failures, and unknown failure buckets";
  ownership (Prefix "product.") "product_path" "firkin-benchmark/firkin-runtime" "inspect product-level readiness probes and user-visible task path spans";
  ownership (Prefix "autoscale.") "autoscale_controller" "firkin-admission/firkin-runtime" "inspect autoscale demand, supply, pressure, controller, and actuator traces";
  ownership (Prefix "demand.") "autoscale_demand" "firkin-admission/firkin-benchmark" "inspect request arrival, priority, queueing, timeout, and cancellation traces";
  ownership (Prefix "capacity.") "autoscale_capacity" "firkin-admission/firkin-runtime" "inspect active, ready, hot, resumed, warm, and reserve capacity accounting";
  ownership (Prefix "pressure.") "autoscale_pressure" "firkin-admission/firkin-hygiene" "inspect host pressure sampling, reserve floors, thermal state, and sample freshness";
  ownership Fallback "benchmark" "firkin-benchmark" "inspect suite definition and metric emission before assigning a narrower owner"].
Definition BENCHMARK_METRIC_OWNERSHIP : list BenchmarkMetricOwnership :=
  ownership_exact_1 ++ ownership_exact_2 ++ ownership_prefix.
Definition catalog_product : list BenchmarkMetricDefinition := [
  metric "product.agent_computer_ready_ms" Product LifecycleLatency Milliseconds AutoscaleDashboard "external-request-to-browser-database-cli-ready";
  metric "product.agent_computer_resume_ms" Product LifecycleLatency Milliseconds AutoscaleDashboard "pressure-suspended-agent-computer-to-product-ready";
  metric "product.browser_ready_ms" Product LifecycleLatency Milliseconds Drilldown "browser-sidecar-ready-probe";
  metric "product.database_ready_ms" Product LifecycleLatency Milliseconds Drilldown "sqlite-through-code-interpreter-proxy-until-db-sidecar";
  metric "product.cli_ready_ms" Product LifecycleLatency Milliseconds Drilldown "cli-exec-ready-probe"].
Definition catalog_autoscale : list BenchmarkMetricDefinition := [
  metric "autoscale.ready_queue_hit_rate_pct" Autoscale WorkloadResource Percent AutoscaleDashboard "requests-served-from-hot-or-resumed-ready-capacity";
  metric "autoscale.safe_spare_utilization_pct" Autoscale WorkloadResource Percent Core "active-plus-ready-resource-over-safe-spare-resource";
  metric "autoscale.safe_spare_cpu_utilization_pct" Autoscale WorkloadResource Percent Core "cpu-safe-spare-utilization";
  metric "autoscale.safe_spare_memory_utilization_pct" Autoscale WorkloadResource Percent Core "memory-safe-spare-utilization";
  metric "autoscale.safe_spare_disk_utilization_pct" Autoscale WorkloadResource Percent Core "disk-safe-spare-utilization";
  metric "autoscale.safe_spare_limiting_utilization_pct" Autoscale WorkloadResource Percent AutoscaleDashboard "limiting-resource-safe-spare-utilization";
  metric "autoscale.pressure_to_safe_floor_ms" Autoscale LifecycleLatency Milliseconds AutoscaleDashboard "pressure-detected-to-reserve-floors-satisfied";
  metric "autoscale.pressure_clear_to_ready_target_ms" Autoscale LifecycleLatency Milliseconds AutoscaleDashboard "pressure-clear-or-demand-rise-to-ready-target-restored";
  metric "autoscale.active_evictions_due_to_pool_pressure" Autoscale WorkloadResource Count AutoscaleDashboard "active-sessions-evicted-only-for-pool-comfort";
  metric "autoscale.reserve_floor_violations" Autoscale WorkloadResource Count AutoscaleDashboard "controller-drove-resource-below-configured-reserve-floor";
  metric "autoscale.tick_ms" Autoscale LifecycleLatency Milliseconds Drilldown "autoscale-control-loop-tick-duration";
  metric "autoscale.decision_latency_ms" Autoscale LifecycleLatency Milliseconds Core "demand-supply-pressure-sample-to-controller-decision";
  metric "autoscale.decision" Autoscale WorkloadResource Count Drilldown "controller-decision-classification-count";
  metric "autoscale.decision_reason" Autoscale WorkloadResource Count Drilldown "controller-decision-reason-count";
  metric "autoscale.desired_ready_agent_computers" Autoscale WorkloadResource Count Core "computed-agent-computer-ready-target";
  metric "autoscale.desired_warm_cli_sandboxes" Autoscale WorkloadResource Count Core "computed-cli-warm-pool-target";
  metric "autoscale.desired_reserved_disk_bytes" Autoscale WorkloadResource Bytes Core "computed-disk-reserve-floor";
  metric "autoscale.desired_reserved_memory_bytes" Autoscale WorkloadResource Bytes Core "computed-memory-reserve-floor";
  metric "autoscale.actions_requested" Autoscale WorkloadResource Count Core "controller-actions-requested";
  metric "autoscale.actions_completed" Autoscale WorkloadResource Count Core "controller-actions-completed";
  metric "autoscale.action_failure_count" Autoscale WorkloadResource Count Core "controller-action-failures";
  metric "autoscale.stop_sidecars_ms" Autoscale LifecycleLatency Milliseconds Drilldown "stop-agent-computer-sidecars-duration";
  metric "autoscale.restart_sidecars_ms" Autoscale LifecycleLatency Milliseconds Drilldown "restart-agent-computer-sidecars-duration";
  metric "autoscale.suspend_agent_computer_ms" Autoscale LifecycleLatency Milliseconds Core "suspend-agent-computer-duration";
  metric "autoscale.resume_agent_computer_ms" Autoscale LifecycleLatency Milliseconds Core "resume-agent-computer-duration";
  metric "autoscale.destroy_idle_sandbox_ms" Autoscale LifecycleLatency Milliseconds Core "destroy-idle-sandbox-duration";
  metric "autoscale.create_ready_sandbox_ms" Autoscale LifecycleLatency Milliseconds Core "create-ready-sandbox-duration";
  metric "autoscale.reclaim_disk_bytes" Autoscale WorkloadResource Bytes Core "disk-bytes-reclaimed-by-autoscale-action";
  metric "autoscale.reclaim_memory_bytes" Autoscale WorkloadResource Bytes Core "memory-bytes-reclaimed-by-autoscale-action";
  metric "autoscale.action_timeout_count" Autoscale WorkloadResource Count Core "autoscale-action-timeouts";
  metric "autoscale.idle_ready_agent_computer_ms" Autoscale FirkinOverhead Milliseconds Core "idle-ready-agent-computer-retention-time";
  metric "autoscale.ready_agent_computer_used_before_eviction_pct" Autoscale FirkinOverhead Percent Core "ready-agent-computers-used-before-eviction";
  metric "autoscale.wasted_ready_ms_per_served_request" Autoscale FirkinOverhead Milliseconds Core "idle-ready-time-per-served-request";
  metric "autoscale.wasted_disk_byte_ms" Autoscale FirkinOverhead Milliseconds Core "idle-ready-disk-byte-time";
  metric "autoscale.wasted_memory_byte_ms" Autoscale FirkinOverhead Milliseconds Core "idle-ready-memory-byte-time"].
Definition catalog_demand : list BenchmarkMetricDefinition := [
  metric "demand.request_arrival_rate_per_s" Demand WorkloadResource CountPerSecond Core "autoscale-request-arrival-rate";
  metric "demand.burst_size" Demand WorkloadResource Count Core "requests-in-burst-window";
  metric "demand.pending_agent_computers" Demand WorkloadResource Count Core "queued-agent-computer-requests";
  metric "demand.pending_cli_sandboxes" Demand WorkloadResource Count Core "queued-cli-sandbox-requests";
  metric "demand.queue_wait_ms" Demand LifecycleLatency Milliseconds Core "request-queue-wait-duration";
  metric "demand.queue_timeout_rate_pct" Demand WorkloadResource Percent Core "queued-requests-that-time-out";
  metric "demand.cancelled_while_queued_rate_pct" Demand WorkloadResource Percent Core "queued-requests-cancelled-before-admission";
  metric "demand.priority_class" Demand WorkloadResource Count Drilldown "request-priority-classification-count"].
Definition catalog_capacity : list BenchmarkMetricDefinition := [
  metric "capacity.active_agent_computers" Capacity WorkloadResource Count Core "currently-active-agent-computers";
  metric "capacity.ready_agent_computers" Capacity WorkloadResource Count Core "ready-agent-computers";
  metric "capacity.hot_agent_computers" Capacity WorkloadResource Count Core "hot-agent-computers";
  metric "capacity.resumed_agent_computers" Capacity WorkloadResource Count Core "resumed-agent-computers";
  metric "capacity.warm_pool_entries" Capacity WorkloadResource Count Core "warm-cli-or-template-pool-entries";
  metric "capacity.prepared_templates" Capacity WorkloadResource Count Core "prepared-template-count";
  metric "capacity.cold_templates_available" Capacity WorkloadResource Count Core "available-cold-template-count";
  metric "capacity.ready_target" Capacity WorkloadResource Count Core "controller-ready-target";
  metric "capacity.ready_deficit" Capacity WorkloadResource Count Core "ready-target-minus-ready-capacity";
  metric "capacity.ready_surplus" Capacity WorkloadResource Count Core "ready-capacity-above-ready-target";
  metric "capacity.active_sessions" Capacity WorkloadResource Count Core "currently-active-sessions";
  metric "capacity.pending_active_sessions" Capacity WorkloadResource Count Core "requests-accepted-but-not-yet-active";
  metric "capacity.max_configured_agent_computers" Capacity WorkloadResource Count Core "configured-agent-computer-cap"].
Definition catalog_pressure : list BenchmarkMetricDefinition := [
  metric "pressure.state" Pressure WorkloadResource Count Core "autoscale-pressure-state-classification";
  metric "pressure.reason" Pressure WorkloadResource Count Core "autoscale-pressure-reason-classification";
  metric "pressure.disk_available_bytes" Pressure WorkloadResource Bytes Core "host-disk-available-to-autoscale";
  metric "pressure.disk_reserved_floor_bytes" Pressure WorkloadResource Bytes Core "configured-disk-reserve-floor";
  metric "pressure.memory_available_bytes" Pressure WorkloadResource Bytes Core "host-memory-available-to-autoscale";
  metric "pressure.memory_reserved_floor_bytes" Pressure WorkloadResource Bytes Core "configured-memory-reserve-floor";
  metric "pressure.cpu_load_pct" Pressure WorkloadResource Percent Core "host-cpu-load-seen-by-autoscale";
  metric "pressure.cpu_pressure_pct" Pressure WorkloadResource Percent Core "cpu-pressure-seen-by-autoscale";
  metric "pressure.io_pressure_pct" Pressure WorkloadResource Percent Core "io-pressure-seen-by-autoscale";
  metric "pressure.thermal_state" Pressure WorkloadResource Count Core "host-thermal-state-classification";
  metric "pressure.power_state" Pressure WorkloadResource Count Core "host-power-state-classification";
  metric "pressure.low_power_mode" Pressure WorkloadResource Count Core "low-power-mode-state";
  metric "pressure.sample_age_ms" Pressure LifecycleLatency Milliseconds Core "age-of-pressure-sample-at-decision-time"].
Definition catalog_agenttask : list BenchmarkMetricDefinition := [
  metric "start.agent_task_ready_ms" AgentTask LifecycleLatency Milliseconds P0Dashboard "external-request-to-first-useful-stdout";
  metric "agent_task_ready_ms" AgentTask LifecycleLatency Milliseconds Core "legacy-host-api-call-to-first-useful-tool-output";
  metric "sandbox.task.time_to_first_tool_ms" AgentTask LifecycleLatency Milliseconds Core "first-meaningful-tool-result";
  metric "sandbox.task.time_to_first_test_ms" AgentTask LifecycleLatency Milliseconds Core "first-test-output";
  metric "sandbox.task.wall_ms" AgentTask LifecycleLatency Milliseconds Core "full-agent-task-wall-clock";
  metric "sandbox.task.success" AgentTask WorkloadResource Count Core "successful-agent-task-count";
  metric "sandbox.task.failure_reason" AgentTask WorkloadResource Count Core "classified-agent-task-failures";
  metric "sandbox.task.repo_import_ms" AgentTask LifecycleLatency Milliseconds Drilldown "repo-materialization-time";
  metric "sandbox.task.repo_index_ms" AgentTask LifecycleLatency Milliseconds Drilldown "repo-index-time";
  metric "sandbox.task.patch_apply_ms" AgentTask LifecycleLatency Milliseconds Drilldown "patch-application-time";
  metric "sandbox.task.artifact_export_ms" AgentTask LifecycleLatency Milliseconds Drilldown "artifact-export-time"].
Definition catalog_startup : list BenchmarkMetricDefinition := [
  metric "sandbox.start.total_ms" Startup LifecycleLatency Milliseconds Core "request-to-ready-total";
  metric "start.hot_to_first_stdout_ms" Startup LifecycleLatency Milliseconds P0Dashboard "pool-lease-acquired-to-first-stdout";
  metric "start.hot_to_ready_ms" Startup LifecycleLatency Milliseconds P0Dashboard "pool-lease-acquired-to-exec-proven-ready";
  metric "start.resume_to_first_stdout_ms" Startup LifecycleLatency Milliseconds Core "raw-snapshot-restore-start-to-first-stdout";
  metric "start.warm_to_first_stdout_ms" Startup LifecycleLatency Milliseconds P0Dashboard "warm-request-start-to-first-stdout";
  metric "pool.lease_ms" Startup LifecycleLatency Milliseconds P0Dashboard "pool-lease-requested-to-acquired";
  metric "sandbox.start.warm_ready_ms" Startup LifecycleLatency Milliseconds Core "legacy-warm-local-image-ready";
  metric "sandbox.start.cold_ready_ms" Startup LifecycleLatency Milliseconds Core "legacy-cold-local-image-ready";
  metric "sandbox.start.hot_pool_checkout_ms" Startup LifecycleLatency Milliseconds Core "legacy-hot-pool-checkout-to-ready";
  metric "sandbox.start.request_received_ms" Startup LifecycleLatency Milliseconds Drilldown "host-request-accepted";
  metric "sandbox.start.config_built_ms" Startup LifecycleLatency Milliseconds Core "runtime-config-build";
  metric "sandbox.start.image_resolve_ms" Startup LifecycleLatency Milliseconds Core "oci-manifest-resolve";
  metric "sandbox.start.image_pull_ms" Startup LifecycleLatency Milliseconds Drilldown "remote-image-fetch";
  metric "sandbox.start.image_unpack_ms" Startup LifecycleLatency Milliseconds Drilldown "image-layer-unpack";
  metric "sandbox.start.rootfs_prepare_ms" Startup LifecycleLatency Milliseconds Core "rootfs-materialization";
  metric "template.build_ms" Startup LifecycleLatency Milliseconds Core "template-command-build";
  metric "template.snapshot_save_ms" Startup LifecycleLatency Milliseconds Core "template-snapshot-save";
  metric "sandbox.start.rootfs_clone_ms" Startup LifecycleLatency Milliseconds Drilldown "rootfs-clone";
  metric "sandbox.start.overlay_create_ms" Startup LifecycleLatency Milliseconds Drilldown "overlay-create";
  metric "sandbox.start.workspace_create_ms" Startup LifecycleLatency Milliseconds Core "workspace-materialization";
  metric "sandbox.start.disk_attach_ms" Startup LifecycleLatency Milliseconds Core "disk-device-attach";
  metric "sandbox.start.vm_create_ms" Startup LifecycleLatency Milliseconds Core "vm-object-create";
  metric "sandbox.start.vz_validate_ms" Startup LifecycleLatency Milliseconds Drilldown "virtualization-config-validation";
  metric "sandbox.start.vm_start_call_ms" Startup LifecycleLatency Milliseconds Drilldown "vz-start-call";
  metric "sandbox.start.vm_boot_ms" Startup LifecycleLatency Milliseconds Core "vm-start-to-guest-agent-listening";
  metric "sandbox.start.kernel_boot_ms" Startup LifecycleLatency Milliseconds Drilldown "kernel-to-userspace";
  metric "sandbox.start.init_started_ms" Startup LifecycleLatency Milliseconds Drilldown "guest-init-start";
  metric "sandbox.start.guest_agent_ms" Startup LifecycleLatency Milliseconds Core "guest-agent-readiness";
  metric "sandbox.start.agent_handshake_ms" Startup LifecycleLatency Milliseconds Core "vsock-agent-handshake";
  metric "sandbox.start.network_device_attach_ms" Startup LifecycleLatency Milliseconds Core "network-device-attach";
  metric "sandbox.start.ip_assignment_ms" Startup LifecycleLatency Milliseconds Core "guest-ip-assignment";
  metric "sandbox.start.network_ready_ms" Startup LifecycleLatency Milliseconds Core "network-usable";
  metric "sandbox.start.dns_ready_ms" Startup LifecycleLatency Milliseconds Core "dns-usable";
  metric "sandbox.start.mounts_ready_ms" Startup LifecycleLatency Milliseconds Core "workspace-and-volume-mounts-ready";
  metric "sandbox.start.cgroups_ready_ms" Startup LifecycleLatency Milliseconds Core "cgroup-limits-installed";
  metric "sandbox.start.first_exec_ms" Startup LifecycleLatency Milliseconds Core "first-command-accepted";
  metric "sandbox.start.first_stdout_ms" Startup LifecycleLatency Milliseconds Core "first-command-output"].
Definition catalog_exec : list BenchmarkMetricDefinition := [
  metric "sandbox.exec.count" Exec WorkloadResource Count Core "executed-command-count";
  metric "sandbox.exec.latency_ms" Exec LifecycleLatency Milliseconds Core "exec-request-roundtrip";
  metric "exec.command_start_ms" Exec LifecycleLatency Milliseconds Drilldown "aggregate-exec-request-sent-to-process-started";
  metric "exec.first_stdout_byte_ms" Exec LifecycleLatency Milliseconds Drilldown "aggregate-exec-request-sent-to-first-stdout-byte";
  metric "exec.direct_command_start_ms" Exec LifecycleLatency Milliseconds P0Dashboard "direct-argv-exec-request-sent-to-process-started";
  metric "exec.direct_first_stdout_byte_ms" Exec LifecycleLatency Milliseconds P0Dashboard "direct-argv-exec-request-sent-to-first-stdout-byte";
  metric "exec.batch_100_small_commands_ms" Exec LifecycleLatency Milliseconds P0Dashboard "retained-shell-batch-100-small-commands-through-final-process-exit";
  metric "sandbox.exec.first_latency_ms" Exec LifecycleLatency Milliseconds Core "legacy-first-exec-latency";
  metric "sandbox.exec.first_stdout_ms" Exec LifecycleLatency Milliseconds Core "legacy-exec-request-to-first-stdout";
  metric "sandbox.exec.exit_collection_ms" Exec LifecycleLatency Milliseconds Core "exit-status-collection";
  metric "sandbox.exec.exit_code" Exec WorkloadResource Count Drilldown "process-exit-code";
  metric "sandbox.exec.timeout_count" Exec WorkloadResource Count Core "process-timeouts";
  metric "sandbox.exec.signal_latency_ms" Exec LifecycleLatency Milliseconds Core "signal-delivery-latency";
  metric "sandbox.exec.stdin_write_latency_ms" Exec LifecycleLatency Milliseconds Drilldown "stdin-write-latency";
  metric "sandbox.exec.stdout_stream_lag_ms" Exec LifecycleLatency Milliseconds Core "stdout-stream-lag";
  metric "sandbox.exec.stderr_stream_lag_ms" Exec LifecycleLatency Milliseconds Core "stderr-stream-lag";
  metric "sandbox.exec.max_log_backpressure_ms" Exec LifecycleLatency Milliseconds Core "log-stream-backpressure"].
Definition catalog_cpu : list BenchmarkMetricDefinition := [
  metric "sandbox.cpu.host_percent" Cpu WorkloadResource Percent Core "host-cpu-percent";
  metric "sandbox.cpu.guest_usage_usec" Cpu WorkloadResource Microseconds Core "guest-cpu-usage";
  metric "sandbox.cpu.cgroup_usage_usec" Cpu WorkloadResource Microseconds Core "cgroup-cpu-usage";
  metric "sandbox.cpu.throttled_usec" Cpu WorkloadResource Microseconds Core "cgroup-throttled-time";
  metric "sandbox.cpu.throttle_count" Cpu WorkloadResource Count Core "cgroup-throttle-events";
  metric "sandbox.cpu.idle_tax_percent" Cpu FirkinOverhead Percent Core "idle-cpu-per-hot-sandbox";
  metric "sandbox.cpu.context_switches_per_sec" Cpu WorkloadResource CountPerSecond Drilldown "context-switch-rate"].
Definition catalog_pressure_2 : list BenchmarkMetricDefinition := [
  metric "sandbox.pressure.cpu_some_avg10" Pressure WorkloadResource Percent Core "cpu-psi-some-avg10";
  metric "sandbox.pressure.cpu_full_avg10" Pressure WorkloadResource Percent Core "cpu-psi-full-avg10";
  metric "sandbox.pressure.memory_some_avg10" Pressure WorkloadResource Percent Core "memory-psi-some-avg10";
  metric "sandbox.pressure.memory_full_avg10" Pressure WorkloadResource Percent Core "memory-psi-full-avg10";
  metric "sandbox.pressure.io_some_avg10" Pressure WorkloadResource Percent Core "io-psi-some-avg10";
  metric "sandbox.pressure.io_full_avg10" Pressure WorkloadResource Percent Core "io-psi-full-avg10";
  metric "sandbox.pressure.events_per_task" Pressure WorkloadResource Count Core "pressure-events-per-task"].
Definition catalog_memory : list BenchmarkMetricDefinition := [
  metric "sandbox.mem.host_footprint_bytes" Memory WorkloadResource Bytes Core "host-vm-footprint";
  metric "sandbox.mem.idle_host_footprint_bytes" Memory WorkloadResource Bytes Core "idle-host-footprint-per-sandbox";
  metric "sandbox.mem.host_rss_bytes" Memory WorkloadResource Bytes Core "host-rss";
  metric "sandbox.mem.host_private_dirty_bytes" Memory WorkloadResource Bytes Core "host-private-dirty";
  metric "sandbox.mem.host_compressed_bytes" Memory WorkloadResource Bytes Drilldown "host-compressed-estimate";
  metric "sandbox.mem.guest_available_bytes" Memory WorkloadResource Bytes Core "guest-memavailable";
  metric "sandbox.mem.guest_used_bytes" Memory WorkloadResource Bytes Core "guest-used-memory";
  metric "sandbox.mem.guest_page_cache_bytes" Memory WorkloadResource Bytes Core "guest-page-cache";
  metric "sandbox.mem.guest_slab_bytes" Memory WorkloadResource Bytes Drilldown "guest-slab";
  metric "sandbox.mem.cgroup_current_bytes" Memory WorkloadResource Bytes Core "cgroup-memory-current";
  metric "sandbox.mem.cgroup_peak_bytes" Memory WorkloadResource Bytes Core "cgroup-memory-peak";
  metric "sandbox.mem.cgroup_oom_count" Memory WorkloadResource Count Core "cgroup-oom-count";
  metric "sandbox.mem.cgroup_oom_kill_count" Memory WorkloadResource Count Core "cgroup-oom-kill-count";
  metric "sandbox.mem.balloon_target_bytes" Memory WorkloadResource Bytes Core "balloon-target";
  metric "sandbox.mem.reclaimed_bytes" Memory WorkloadResource Bytes Core "host-memory-reclaimed";
  metric "sandbox.mem.retention_ratio" Memory WorkloadResource Ratio Core "memory-retention-after-guest-free";
  metric "sandbox.mem.post_task_residual_bytes" Memory WorkloadResource Bytes Core "post-task-host-residual-memory";
  metric "sandbox.mem.reclaim_effectiveness_ratio" Memory WorkloadResource Ratio Core "host-memory-reclaim-effectiveness";
  metric "sandbox.mem.recycle_required" Memory WorkloadResource Count Core "recycle-required-after-memory-spike"].
Definition catalog_disk : list BenchmarkMetricDefinition := [
  metric "sandbox.disk.read_bytes" Disk WorkloadResource Bytes Core "disk-read-bytes";
  metric "sandbox.disk.write_bytes" Disk WorkloadResource Bytes Core "disk-write-bytes";
  metric "sandbox.disk.read_iops" Disk WorkloadResource Iops Core "read-iops";
  metric "sandbox.disk.write_iops" Disk WorkloadResource Iops Core "write-iops";
  metric "sandbox.disk.seq_read_mib_s" Disk WorkloadResource MebibytesPerSecond Drilldown "sequential-read-throughput";
  metric "sandbox.disk.seq_write_mib_s" Disk WorkloadResource MebibytesPerSecond Drilldown "sequential-write-throughput";
  metric "sandbox.disk.rand_read_iops_4k_qd1" Disk WorkloadResource Iops Drilldown "4k-random-read-qd1";
  metric "sandbox.disk.rand_write_iops_4k_qd1" Disk WorkloadResource Iops Drilldown "4k-random-write-qd1";
  metric "sandbox.disk.rand_read_iops_4k_qd32" Disk WorkloadResource Iops Drilldown "4k-random-read-qd32";
  metric "sandbox.disk.rand_write_iops_4k_qd32" Disk WorkloadResource Iops Drilldown "4k-random-write-qd32";
  metric "sandbox.disk.read_latency_p99_us" Disk WorkloadResource Microseconds Drilldown "read-latency-p99";
  metric "sandbox.disk.write_latency_p99_us" Disk WorkloadResource Microseconds Drilldown "write-latency-p99";
  metric "sandbox.disk.fsync_p99_us" Disk WorkloadResource Microseconds Core "fsync-latency-p99";
  metric "sandbox.disk.fdatasync_p99_us" Disk WorkloadResource Microseconds Core "fdatasync-latency-p99";
  metric "sandbox.disk.metadata_create_stat_unlink_ms" Disk LifecycleLatency Milliseconds Core "small-file-create-stat-unlink-bundle";
  metric "sandbox.disk.create_10k_files_ms" Disk LifecycleLatency Milliseconds Core "create-10k-files";
  metric "sandbox.disk.stat_10k_files_ms" Disk LifecycleLatency Milliseconds Core "stat-10k-files";
  metric "sandbox.disk.unlink_10k_files_ms" Disk LifecycleLatency Milliseconds Core "unlink-10k-files";
  metric "sandbox.disk.rename_10k_files_ms" Disk LifecycleLatency Milliseconds Drilldown "rename-10k-files";
  metric "sandbox.disk.git_checkout_ms" Disk LifecycleLatency Milliseconds Core "git-checkout-workload";
  metric "sandbox.disk.git_status_ms" Disk LifecycleLatency Milliseconds Core "git-status-workload";
  metric "sandbox.disk.cargo_build_ms" Disk LifecycleLatency Milliseconds Core "cargo-build-workload";
  metric "sandbox.disk.npm_install_ms" Disk LifecycleLatency Milliseconds Core "npm-install-workload";
  metric "sandbox.disk.sqlite_txn_s" Disk WorkloadResource OperationsPerSecond Drilldown "sqlite-transaction-rate";
  metric "sandbox.disk.guest_used_bytes" Disk WorkloadResource Bytes Core "guest-df-used";
  metric "sandbox.disk.guest_available_bytes" Disk WorkloadResource Bytes Core "guest-df-available";
  metric "sandbox.disk.host_allocated_bytes" Disk WorkloadResource Bytes Core "host-allocated-bytes";
  metric "sandbox.disk.host_logical_bytes" Disk WorkloadResource Bytes Core "host-logical-bytes";
  metric "disk.sparse_bloat_after_delete" Disk WorkloadResource Ratio Core "host-allocated-to-guest-used-ratio-after-delete-before-fstrim";
  metric "disk.sparse_bloat_after_trim" Disk WorkloadResource Ratio P0Dashboard "host-allocated-to-guest-used-ratio-after-fstrim";
  metric "sandbox.disk.sparse_bloat_ratio" Disk WorkloadResource Ratio Core "legacy-host-allocated-to-guest-used-ratio";
  metric "sandbox.disk.trim_ms" Disk LifecycleLatency Milliseconds Core "fstrim-duration";
  metric "sandbox.disk.trim_reclaimed_bytes" Disk WorkloadResource Bytes Core "host-bytes-reclaimed-after-trim";
  metric "disk.host_bytes_reclaimed_after_trim" Disk WorkloadResource Bytes P0Dashboard "host-bytes-reclaimed-after-fstrim";
  metric "sandbox.disk.trim_reclaim_bytes_per_sec" Disk WorkloadResource BytesPerSecond Core "trim-reclaim-throughput";
  metric "sandbox.disk.host_bytes_reclaimed_after_destroy" Disk WorkloadResource Bytes Core "host-bytes-reclaimed-after-destroy";
  metric "sandbox.disk.volume_delete_ms" Disk LifecycleLatency Milliseconds Core "volume-delete-duration"].
Definition catalog_network : list BenchmarkMetricDefinition := [
  metric "sandbox.net.rx_bytes" Network WorkloadResource Bytes Core "network-rx-bytes";
  metric "sandbox.net.tx_bytes" Network WorkloadResource Bytes Core "network-tx-bytes";
  metric "sandbox.net.dns_ms" Network LifecycleLatency Milliseconds Core "first-dns-lookup";
  metric "sandbox.net.connect_ms" Network LifecycleLatency Milliseconds Core "first-tcp-connect";
  metric "sandbox.net.tls_handshake_ms" Network LifecycleLatency Milliseconds Drilldown "tls-handshake";
  metric "sandbox.net.http_get_small_ms" Network LifecycleLatency Milliseconds Core "small-http-get";
  metric "sandbox.net.download_mib_s" Network WorkloadResource MebibytesPerSecond Drilldown "http-download-throughput";
  metric "sandbox.net.rtt_us" Network WorkloadResource Microseconds Core "network-rtt";
  metric "sandbox.net.vsock_rtt_us" Network WorkloadResource Microseconds Core "vsock-rtt";
  metric "sandbox.net.vsock_throughput_mib_s" Network WorkloadResource MebibytesPerSecond Core "vsock-throughput";
  metric "sandbox.net.policy_denied_count" Network WorkloadResource Count Core "network-policy-denials";
  metric "sandbox.net.dns_denied_count" Network WorkloadResource Count Core "dns-policy-denials";
  metric "sandbox.net.packet_loss_percent" Network WorkloadResource Percent Drilldown "packet-loss";
  metric "sandbox.net.connection_failure_rate" Network WorkloadResource Percent Core "connection-failure-rate"].
Definition catalog_pids : list BenchmarkMetricDefinition := [
  metric "sandbox.pids.current" Pids WorkloadResource Count Core "pids-current";
  metric "sandbox.pids.peak" Pids WorkloadResource Count Core "pids-peak";
  metric "sandbox.pids.limit_hits" Pids WorkloadResource Count Core "pids-limit-hits";
  metric "sandbox.pids.zombie_count" Pids WorkloadResource Count Drilldown "zombie-process-count";
  metric "sandbox.pids.reap_latency_ms" Pids LifecycleLatency Milliseconds Core "process-reap-latency"].
Definition catalog_pod : list BenchmarkMetricDefinition := [
  metric "sandbox.pod.vm_ready_ms" Pod LifecycleLatency Milliseconds Core "pod-vm-ready";
  metric "sandbox.pod.container_spawn_ms" Pod LifecycleLatency Milliseconds Core "container-spawn-inside-pod";
  metric "sandbox.pod.additional_container_memory_bytes" Pod WorkloadResource Bytes Core "marginal-container-memory";
  metric "sandbox.pod.localhost_rtt_us" Pod WorkloadResource Microseconds Core "pod-localhost-rtt";
  metric "sandbox.pod.shared_volume_latency_us" Pod WorkloadResource Microseconds Drilldown "shared-volume-latency";
  metric "sandbox.pod.amortization_savings_ratio" Pod WorkloadResource Ratio Core "pod-vs-vm-memory-savings"].
Definition catalog_cache : list BenchmarkMetricDefinition := [
  metric "sandbox.cache.hit_ratio" Cache WorkloadResource Ratio Core "cache-hit-ratio";
  metric "sandbox.cache.lookup_ms" Cache LifecycleLatency Milliseconds Core "cache-lookup";
  metric "sandbox.cache.restore_ms" Cache LifecycleLatency Milliseconds Core "cache-restore";
  metric "sandbox.cache.save_ms" Cache LifecycleLatency Milliseconds Core "cache-save";
  metric "sandbox.cache.bytes_retained" Cache WorkloadResource Bytes Core "cache-retained-bytes";
  metric "sandbox.cache.evictions" Cache WorkloadResource Count Core "cache-eviction-count";
  metric "sandbox.cache.corruption_count" Cache WorkloadResource Count Core "cache-corruption-count"].
Definition catalog_isolation : list BenchmarkMetricDefinition := [
  metric "sandbox.isolation.host_mount_count" Isolation WorkloadResource Count Core "host-mount-count";
  metric "sandbox.isolation.host_mount_writable_count" Isolation WorkloadResource Count Core "writable-host-mount-count";
  metric "sandbox.isolation.host_writable_bytes_exposed" Isolation WorkloadResource Bytes Core "host-writable-byte-exposure";
  metric "sandbox.isolation.capabilities_granted_count" Isolation WorkloadResource Count Core "linux-capability-count";
  metric "sandbox.isolation.network_profile" Isolation WorkloadResource Count Core "network-profile-classification";
  metric "sandbox.isolation.risk_flags" Isolation WorkloadResource Count Core "security-risk-flag-count";
  metric "sandbox.isolation.secret_exposure_duration_ms" Isolation LifecycleLatency Milliseconds Drilldown "secret-mount-exposure-duration"].
Definition catalog_cleanup : list BenchmarkMetricDefinition := [
  metric "sandbox.cleanup.total_ms" Cleanup LifecycleLatency Milliseconds Core "cleanup-total";
  metric "sandbox.cleanup.fstrim_ms" Cleanup LifecycleLatency Milliseconds Core "cleanup-fstrim";
  metric "sandbox.cleanup.host_disk_reclaimed_bytes" Cleanup WorkloadResource Bytes Core "disk-reclaimed-during-cleanup";
  metric "sandbox.cleanup.host_mem_reclaimed_bytes" Cleanup WorkloadResource Bytes Core "memory-reclaimed-during-cleanup";
  metric "cleanup.leftover_bytes" Cleanup WorkloadResource Bytes P0Dashboard "run-scoped-firkin-leftover-bytes-after-destroy";
  metric "sandbox.cleanup.leftover_bytes" Cleanup WorkloadResource Bytes Core "legacy-bytes-left-after-cleanup";
  metric "sandbox.cleanup.orphan_count" Cleanup WorkloadResource Count Core "orphaned-resource-count";
  metric "sandbox.cleanup.leaked_bytes_per_sandbox" Cleanup WorkloadResource Bytes Core "leak-test-byte-slope"].
Definition catalog_reliability : list BenchmarkMetricDefinition := [
  metric "sandbox.reliability.boot_failure_rate" Reliability WorkloadResource Percent Core "boot-failure-rate";
  metric "sandbox.reliability.agent_handshake_failure_rate" Reliability WorkloadResource Percent Core "agent-handshake-failure-rate";
  metric "sandbox.reliability.network_ready_failure_rate" Reliability WorkloadResource Percent Core "network-readiness-failure-rate";
  metric "sandbox.reliability.first_exec_failure_rate" Reliability WorkloadResource Percent Core "first-exec-failure-rate";
  metric "reliability.unknown_failure_rate" Reliability WorkloadResource Percent P0Dashboard "unknown-failure-rate-after-classified-failure-exclusion";
  metric "sandbox.reliability.unknown_failure_rate" Reliability WorkloadResource Percent Core "legacy-unclassified-failure-rate";
  metric "sandbox.reliability.forced_kill_count" Reliability WorkloadResource Count Core "forced-kill-count"].
Definition catalog_density : list BenchmarkMetricDefinition := [
  metric "sandbox.density.ready_p95_by_concurrency_ms" Density LifecycleLatency Milliseconds Core "ready-p95-under-concurrency";
  metric "sandbox.density.task_wall_p95_by_concurrency_ms" Density LifecycleLatency Milliseconds Core "task-wall-p95-under-concurrency";
  metric "sandbox.density.max_idle_hot_sandboxes_before_pressure" Density WorkloadResource Count Core "max-idle-hot-pool-before-pressure";
  metric "density.max_active_before_hot_to_first_stdout_p95_doubles" Density WorkloadResource Count Core "max-active-before-hot-to-first-stdout-p95-doubles";
  metric "density.max_active_before_retained_shell_first_stdout_p95_doubles" Density WorkloadResource Count P0Dashboard "max-active-before-retained-shell-first-stdout-p95-doubles";
  metric "density.max_agent_computers_before_ready_p95_doubles" Density WorkloadResource Count AutoscaleDashboard "max-browser-database-cli-agent-computers-before-product-ready-p95-doubles";
  metric "density.max_prestarted_agent_slots_before_checkout_ready_p95_doubles" Density WorkloadResource Count AutoscaleDashboard "max-prestarted-agent-slots-before-checkout-ready-p95-doubles";
  metric "density.prestarted_agent_slot_fifo_acceptance_p95_ms" Density LifecycleLatency Milliseconds AutoscaleDashboard "prestarted-agent-slot-fifo-acceptance-p95-snappy-guard";
  metric "sandbox.density.max_active_before_p95_doubles" Density WorkloadResource Count Core "legacy-max-active-before-unqualified-p95-doubles";
  metric "sandbox.density.sandboxes_per_gb_idle" Density WorkloadResource Count Core "idle-density-per-gb";
  metric "sandbox.density.tasks_per_minute" Density WorkloadResource CountPerSecond Core "successful-task-throughput";
  metric "sandbox.density.p95_degradation_per_doubling" Density WorkloadResource Ratio Core "tail-degradation-slope"].
Definition catalog_power : list BenchmarkMetricDefinition := [
  metric "sandbox.power.idle_cpu_percent_with_hot_pool" Power FirkinOverhead Percent Core "host-idle-cpu-with-hot-pool";
  metric "sandbox.power.wakeups_per_sec" Power FirkinOverhead CountPerSecond Core "host-wakeup-rate";
  metric "sandbox.power.battery_drain_percent_per_hour" Power FirkinOverhead Percent FutureHarness "battery-drain-estimate";
  metric "sandbox.power.thermal_pressure_state" Power FirkinOverhead Count FutureHarness "thermal-pressure-classification"].
Definition BENCHMARK_METRIC_CATALOG : list BenchmarkMetricDefinition :=
  catalog_product ++
  catalog_autoscale ++
  catalog_demand ++
  catalog_capacity ++
  catalog_pressure ++
  catalog_agenttask ++
  catalog_startup ++
  catalog_exec ++
  catalog_cpu ++
  catalog_pressure_2 ++
  catalog_memory ++
  catalog_disk ++
  catalog_network ++
  catalog_pids ++
  catalog_pod ++
  catalog_cache ++
  catalog_isolation ++
  catalog_cleanup ++
  catalog_reliability ++
  catalog_density ++
  catalog_power.

(** *** Lookups; [expect] on a miss is a panic *)
Fixpoint find_def (name : string) (l : list BenchmarkMetricDefinition) : option BenchmarkMetricDefinition :=
  match l with
  | [] => None
  | d :: l => if String.eqb d.(def_name) name then Some d else find_def name l
  end.
Definition benchmark_metric_definition (name : string) : option BenchmarkMetricDefinition :=
  find_def name BENCHMARK_METRIC_CATALOG.
Fixpoint expect_all (names : list string) : exec Empty_set (list BenchmarkMetricDefinition) :=
  match names with
  | [] => Done []
  | name :: names => d ← unwrap (benchmark_metric_definition name); ds ← expect_all names; Done (d :: ds)
  end.
Definition required_scorecard_metric_definitions : exec Empty_set (list BenchmarkMetricDefinition) :=
  expect_all P0_SCORECARD_METRICS.
Definition required_autoscale_efficiency_metric_definitions : exec Empty_set (list BenchmarkMetricDefinition) :=
  expect_all AUTOSCALE_EFFICIENCY_SCORECARD_METRICS.
Definition required_agent_computer_metric_definitions : exec Empty_set (list BenchmarkMetricDefinition) :=
  expect_all AGENT_COMPUTER_SCORECARD_METRICS.
Fixpoint find_owner (m : string) (l : list BenchmarkMetricOwnership) : option BenchmarkMetricOwnership :=
  match l with
  | [] => None
  | o :: l => if matches o.(metric_match) m then Some o else find_owner m l
  end.
Definition benchmark_metric_ownership (m : string) : exec Empty_set BenchmarkMetricOwnership :=
  unwrap (find_owner m BENCHMARK_METRIC_OWNERSHIP).
End Catalog.

(** ** The contract of decision-grade metrics ([metric_contract.rs]) *)
Module Contract.
Inductive DecisionMetricLevel := FocusedDashboard.
Definition level_str (l : DecisionMetricLevel) : string := match l with FocusedDashboard => "focused_dashboard" end.
Inductive MetricEndpoint :=
| RequestStart | PoolLeaseRequested | PoolLeaseAcquired | SnapshotRestoreStart | VzStartCalled | ReadyProbePassed
| ExecRequestSent | ProcessStarted | FirstStdoutByte | ProcessExited | CleanupStart | FstrimStart | FstrimDone
| CleanupDone.
Definition endpoint_str (e : MetricEndpoint) : string :=
  match e with
  | RequestStart => "RequestStart" | PoolLeaseRequested => "PoolLeaseRequested"
  | PoolLeaseAcquired => "PoolLeaseAcquired" | SnapshotRestoreStart => "SnapshotRestoreStart"
  | VzStartCalled => "VzStartCalled" | ReadyProbePassed => "ReadyProbePassed"
  | ExecRequestSent => "ExecRequestSent" | ProcessStarted => "ProcessStarted"
  | FirstStdoutByte => "FirstStdoutByte" | ProcessExited => "ProcessExited"
  | CleanupStart => "CleanupStart" | FstrimStart => "FstrimStart" | FstrimDone => "FstrimDone"
  | CleanupDone => "CleanupDone"
  end.
Inductive LifecycleClass := ColdUnprepared | ColdPrepared | Warm | Hot | Resumed.
Definition lifecycle_str (l : LifecycleClass) : string :=
  match l with
  | ColdUnprepared => "cold_unprepared" | ColdPrepared => "cold_prepared" | Warm => "warm" | Hot => "hot"
  | Resumed => "resumed"
  end.
Inductive WorkloadClass :=
| TinyExec | DirectExec | ShellExec | Batch100Execs | DiskBloatReclaim | ConcurrentCreate | ReadinessProbe.
Definition workload_str (w : WorkloadClass) : string :=
  match w with
  | TinyExec => "tiny_exec" | DirectExec => "direct_exec" | ShellExec => "shell_exec"
  | Batch100Execs => "batch_100_execs" | DiskBloatReclaim => "disk_bloat_reclaim"
  | ConcurrentCreate => "concurrent_create" | ReadinessProbe => "readiness_probe"
  end.
Inductive RuntimeProfile := FastAgent | DiskReclaim | Density.
Definition profile_str (p : RuntimeProfile) : string :=
  match p with FastAgent => "fast_agent" | DiskReclaim => "disk_reclaim" | Density => "density" end.
Record PercentilePolicy := policy_new { p95_min_samples : Z; p99_min_samples : Z }.
Record MetricContract := contract_new {
  ct_metric : string;
  ct_start_event : MetricEndpoint;
  ct_end_event : MetricEndpoint;
  ct_lifecycle : LifecycleClass;
  ct_workload : WorkloadClass;
  ct_profile : RuntimeProfile;
  ct_included_phases : string;
  ct_excluded_phases : string;
  ct_owner : string;
  ct_percentile_policy : PercentilePolicy;
  ct_level : DecisionMetricLevel
}.
Definition FAST_PATH_POLICY : PercentilePolicy := policy_new 100 500.
Definition SLOW_PATH_POLICY : PercentilePolicy := policy_new 30 500.
Definition FOCUSED : DecisionMetricLevel := FocusedDashboard.
Definition DECISION_GRADE_METRICS : list MetricContract := [
  contract_new "start.hot_to_first_stdout_ms" PoolLeaseAcquired FirstStdoutByte Hot TinyExec FastAgent "readiness check, exec request, process start, stdout wait" "pool lease acquisition, template lookup, snapshot restore, cleanup" "firkin-runtime/firkin-vminitd-client" FAST_PATH_POLICY FOCUSED;
  contract_new "start.hot_to_ready_ms" PoolLeaseAcquired ReadyProbePassed Hot ReadinessProbe FastAgent "guest ping, workspace probe, exec probe, optional DNS probe" "pool lease acquisition, first user command stdout, cleanup" "firkin-runtime" FAST_PATH_POLICY FOCUSED;
  contract_new "start.warm_to_first_stdout_ms" RequestStart FirstStdoutByte Warm TinyExec FastAgent "warm start, readiness, exec request, stdout wait" "cold image/template preparation, hot pool lease-only path, cleanup" "firkin-runtime/firkin-single-node" FAST_PATH_POLICY FOCUSED;
  contract_new "start.agent_task_ready_ms" RequestStart FirstStdoutByte Hot TinyExec FastAgent "external API request, sandbox create, readiness, first useful stdout" "post-first-stdout task wall time and cleanup" "firkin-benchmark/firkin-runtime" FAST_PATH_POLICY FOCUSED;
  contract_new "pool.lease_ms" PoolLeaseRequested PoolLeaseAcquired Hot TinyExec FastAgent "pool lookup and lease acquisition" "readiness, workspace setup, exec, stdout, cleanup" "firkin-admission/firkin-runtime" FAST_PATH_POLICY FOCUSED;
  contract_new "exec.direct_command_start_ms" ExecRequestSent ProcessStarted Hot DirectExec FastAgent "direct argv exec RPC dispatch through guest process start" "shell startup, pool lease, readiness, stdout wait, process exit, cleanup" "firkin-vminitd-client/firkin-runtime" FAST_PATH_POLICY FOCUSED;
  contract_new "exec.direct_first_stdout_byte_ms" ExecRequestSent FirstStdoutByte Hot DirectExec FastAgent "direct argv exec RPC dispatch, process start, stdout wait" "shell startup, pool lease, readiness, process exit, cleanup" "firkin-vminitd-client/firkin-runtime" FAST_PATH_POLICY FOCUSED;
  contract_new "exec.batch_100_small_commands_ms" ExecRequestSent ProcessExited Hot Batch100Execs FastAgent "one retained shell execution processing 100 tiny command payloads through final process exit" "sandbox startup, pool lease, cleanup, independent process startup per command" "firkin-benchmark/firkin-vminitd-client" FAST_PATH_POLICY FOCUSED;
  contract_new "density.max_active_before_retained_shell_first_stdout_p95_doubles" ExecRequestSent FirstStdoutByte Hot ShellExec Density "concurrency sweep of retained-shell dispatch first-stdout p95" "sandbox create/start latency, cold/warm/resumed lifecycles, independent process startup per command" "firkin-benchmark/firkin-runtime" SLOW_PATH_POLICY FOCUSED;
  contract_new "disk.sparse_bloat_after_trim" FstrimDone FstrimDone Hot DiskBloatReclaim DiskReclaim "host allocated bytes and guest used bytes after fstrim" "pre-task and pre-trim bloat states" "firkin-benchmark/firkin-single-node" SLOW_PATH_POLICY FOCUSED;
  contract_new "disk.host_bytes_reclaimed_after_trim" FstrimStart FstrimDone Hot DiskBloatReclaim DiskReclaim "host allocated-byte delta across fstrim" "guest-reported trim bytes without host allocation delta" "firkin-benchmark/firkin-single-node" SLOW_PATH_POLICY FOCUSED;
  contract_new "cleanup.leftover_bytes" CleanupStart CleanupDone Hot TinyExec FastAgent "run-scoped Firkin-owned leftover bytes after destroy" "global cache/state roots and unrelated templates" "firkin-hygiene/firkin-runtime" SLOW_PATH_POLICY FOCUSED;
  contract_new "reliability.unknown_failure_rate" RequestStart CleanupDone Hot TinyExec FastAgent "classified create, readiness, exec, and cleanup attempts" "known boot, agent, DNS, workspace, and OOM failures" "firkin-benchmark/firkin-runtime" SLOW_PATH_POLICY FOCUSED].
Definition decision_grade_metric_contract : list MetricContract := DECISION_GRADE_METRICS.
End Contract.

(** ** The lookups are exact *)
Module CatalogProofs.
Import Samples Catalog.

(** *** Lookup by name *)
Fixpoint distinct (l : list string) : bool :=
  match l with [] => true | x :: l => negb (existsb (String.eqb x) l) && distinct l end.
Lemma existsb_eqb x l : existsb (String.eqb x) l = true <-> x ∈ l.
Proof.
  rewrite existsb_exists. setoid_rewrite String.eqb_eq. setoid_rewrite <-list_elem_of_In. naive_solver.
Qed.
Lemma distinct_nodup l : distinct l = true -> NoDup l.
Proof.
  induction l as [|x l IH]; cbn; [constructor|]. rewrite andb_true_iff, negb_true_iff. intros [Hx Hl].
  constructor; [|auto]. rewrite <-existsb_eqb. by rewrite Hx.
Qed.
Lemma find_def_in name l d : find_def name l = Some d -> d ∈ l /\ d.(def_name) = name.
Proof.
  induction l as [|e l IH]; cbn; [done|]. destruct (String.eqb_spec (def_name e) name); [|set_solver].
  intros [= ->]. set_solver.
Qed.
Lemma find_def_nodup l d : NoDup (def_name <$> l) -> d ∈ l -> find_def d.(def_name) l = Some d.
Proof.
  induction l as [|e l IH]; cbn; [by rewrite elem_of_nil|]. rewrite NoDup_cons, elem_of_cons. intros [He Hl] [->|Hd].
  - by rewrite String.eqb_refl.
  - destruct (String.eqb_spec (def_name e) (def_name d)) as [Heq|]; [|auto].
    exfalso. apply He. rewrite Heq. by apply list_elem_of_fmap_2.
Qed.
Lemma catalog_names : NoDup (def_name <$> BENCHMARK_METRIC_CATALOG).
Proof. apply distinct_nodup. vm_compute. reflexivity. Qed.
Lemma definition_exact name d :
  benchmark_metric_definition name = Some d <-> d ∈ BENCHMARK_METRIC_CATALOG /\ d.(def_name) = name.
Proof.
  split; [apply find_def_in|]. intros [Hd <-]. by apply find_def_nodup, Hd; apply catalog_names.
Qed.

(** *** Scorecards *)
Lemma expect_all_done names :
  (forall n, n ∈ names -> is_Some (benchmark_metric_definition n)) ->
  exists ds, expect_all names = Done ds /\ Forall2 (fun n d => benchmark_metric_definition n = Some d) names ds.
Proof.
  induction names as [|n names IH]; intros H; [by exists []|].
  destruct (H n) as [d Hd]; [set_solver|]. destruct IH as (ds & Hds & Hf); [set_solver|].
  exists (d :: ds). split; [|by constructor].
  unfold mbind, exec_bind in *. cbn [expect_all unwrap]. rewrite Hd. cbn [unwrap]. by rewrite Hds.
Qed.
Definition defined (n : string) : bool :=
  match benchmark_metric_definition n with Some _ => true | None => false end.
Lemma defined_all l : forallb defined l = true -> forall n, n ∈ l -> is_Some (benchmark_metric_definition n).
Proof.
  rewrite forallb_forall. setoid_rewrite <-list_elem_of_In. intros H n Hn. specialize (H n Hn). unfold defined in H.
  destruct (benchmark_metric_definition n); [by eexists|done].
Qed.
Definition at_level (l : BenchmarkRequirementLevel) (names : list string) : bool :=
  forallb (fun d => Bool.eqb (bool_decide (d.(def_requirement) = l)) (existsb (String.eqb d.(def_name)) names))
    BENCHMARK_METRIC_CATALOG.
Lemma at_level_exact l names :
  at_level l names = true -> forallb defined names = true ->
  forall n, n ∈ names <-> exists d, benchmark_metric_definition n = Some d /\ d.(def_requirement) = l.
Proof.
  unfold at_level. rewrite forallb_forall. setoid_rewrite <-list_elem_of_In. intros H Hd n. split.
  - intros Hn. destruct (defined_all _ Hd n Hn) as [d Hf]. exists d. split; [done|].
    apply definition_exact in Hf as [Hin <-]. specialize (H d Hin). apply eqb_prop in H.
    rewrite (proj2 (existsb_eqb _ _) Hn) in H. by apply bool_decide_eq_true in H.
  - intros (d & Hf & Hl). apply definition_exact in Hf as [Hin <-]. specialize (H d Hin). apply eqb_prop in H.
    rewrite bool_decide_true in H by done. by apply existsb_eqb.
Qed.

Definition GUARDRAILS : list string := ["cleanup.leftover_bytes"; "reliability.unknown_failure_rate"]%string.
Definition autoscale_only : list string := take 11 AUTOSCALE_EFFICIENCY_SCORECARD_METRICS.
Lemma autoscale_names n :
  n ∈ AUTOSCALE_EFFICIENCY_SCORECARD_METRICS <->
  (exists d, benchmark_metric_definition n = Some d /\ d.(def_requirement) = AutoscaleDashboard) \/
  n = "cleanup.leftover_bytes"%string \/ n = "reliability.unknown_failure_rate"%string.
Proof.
  rewrite <-(at_level_exact AutoscaleDashboard autoscale_only); [|vm_compute; reflexivity..].
  change AUTOSCALE_EFFICIENCY_SCORECARD_METRICS with (autoscale_only ++ GUARDRAILS).
  rewrite elem_of_app. unfold GUARDRAILS. by rewrite elem_of_cons, list_elem_of_singleton.
Qed.

(** *** Owners *)
Lemma prefix_nested p q m :
  String.prefix p m = true -> String.prefix q m = true -> String.prefix p q = true \/ String.prefix q p = true.
Proof.
  revert p q. induction m as [|c m IH]; intros [|a p] [|b q]; cbn; try tauto; try done.
  destruct (ascii_dec a c) as [->|]; [|done]. destruct (ascii_dec b c) as [->|]; [|done].
  destruct (ascii_dec c c); [|done]. apply IH.
Qed.
(** How narrow a pattern is: a name, a family, anything. *)
Definition breadth (p : BenchmarkMetricMatch) : Z := match p with Exact _ => 0 | Prefix _ => 1 | Fallback => 2 end.
Definition disjoint_rows (p q : BenchmarkMetricMatch) : bool :=
  match p, q with
  | Exact a, Exact b => negb (String.eqb a b)
  | Prefix a, Prefix b => negb (String.prefix a b) && negb (String.prefix b a)
  | _, _ => false
  end.
Lemma disjoint_rows_sound p q m :
  disjoint_rows p q = true -> matches p m = true -> matches q m = true -> False.
Proof.
  destruct p as [a|a|], q as [b|b|]; cbn; try done.
  - rewrite !String.eqb_eq. intros H -> ->. by rewrite String.eqb_refl in H.
  - intros H Ha Hb. destruct (prefix_nested a b m Ha Hb) as [E|E]; rewrite E in H; [done|]. by rewrite andb_false_r in H.
Qed.
(** A row comes before the rows that are broader, and shares nothing with the
    others of its breadth. *)
Definition before (o o' : BenchmarkMetricOwnership) : bool :=
  let p := o.(metric_match) in let q := o'.(metric_match) in
  (breadth p <? breadth q) || ((breadth p =? breadth q) && disjoint_rows p q).
Fixpoint narrowest_first (l : list BenchmarkMetricOwnership) : bool :=
  match l with [] => true | o :: l => forallb (before o) l && narrowest_first l end.
Definition owner_of (m : string) (l : list BenchmarkMetricOwnership) (o : BenchmarkMetricOwnership) : Prop :=
  o ∈ l /\ matches o.(metric_match) m = true /\
  forall o', o' ∈ l -> matches o'.(metric_match) m = true -> breadth o.(metric_match) <= breadth o'.(metric_match).
Lemma find_owner_exact m l o : narrowest_first l = true -> find_owner m l = Some o <-> owner_of m l o.
Proof.
  unfold owner_of. induction l as [|r l IH]; cbn.
  { intros _. split; [done|]. by intros [?%elem_of_nil _]. }
  rewrite andb_true_iff, forallb_forall. setoid_rewrite <-list_elem_of_In. intros [Hr Hl]. specialize (IH Hl).
  destruct (matches (metric_match r) m) eqn:Em.
  - assert (Hb : forall o', o' ∈ l -> matches (metric_match o') m = true -> breadth (metric_match r) < breadth (metric_match o')).
    { intros o' Ho' Hm'. specialize (Hr o' Ho'). unfold before in Hr. apply orb_true_iff in Hr as [?|[_ Hd]%andb_true_iff]; [lia|].
      destruct (disjoint_rows_sound _ _ m Hd Em Hm'). }
    split.
    + intros [= ->]. split; [set_solver|]. split; [done|]. intros o' [->|Ho']%elem_of_cons Hm'; [lia|]. specialize (Hb _ Ho' Hm'). lia.
    + intros (Ho & Hm & Hmin). apply elem_of_cons in Ho as [->|Ho]; [done|].
      specialize (Hmin r ltac:(set_solver) Em). specialize (Hb _ Ho Hm). lia.
  - rewrite IH. split; intros (Ho & Hm & Hmin).
    + split; [set_solver|]. split; [done|]. intros o' [->|Ho']%elem_of_cons; [congruence|auto].
    + apply elem_of_cons in Ho as [->|Ho]; [congruence|]. split; [done|]. split; [done|]. intros o' Ho'. apply Hmin. set_solver.
Qed.
Lemma ownership_ordered : narrowest_first BENCHMARK_METRIC_OWNERSHIP = true.
Proof. vm_compute. reflexivity. Qed.
Lemma find_owner_fallback m l o : o ∈ l -> o.(metric_match) = Fallback -> is_Some (find_owner m l).
Proof.
  intros Ho Hf. induction l as [|r l IH]; [by apply elem_of_nil in Ho|]. cbn.
  destruct (matches (metric_match r) m) eqn:Em; [by eexists|]. apply elem_of_cons in Ho as [->|Ho]; [|auto].
  by rewrite Hf in Em.
Qed.
Lemma ownership_total m : is_Some (find_owner m BENCHMARK_METRIC_OWNERSHIP).
Proof.
  apply (find_owner_fallback m _ (List.last BENCHMARK_METRIC_OWNERSHIP (ownership (Exact "") "" "" ""))); [|reflexivity].
  apply list_elem_of_In. vm_compute. repeat (first [left; reflexivity | right]).
Qed.

(** Every metric, known or not, has exactly one owner, and looking it up never
    panics: the row that names the metric, else the row of its family (no two
    families overlap), else the fallback. *)
Theorem ownership_exact m :
  (exists o, benchmark_metric_ownership m = Done o) /\
  (forall o, benchmark_metric_ownership m = Done o <-> owner_of m BENCHMARK_METRIC_OWNERSHIP o).
Proof.
  unfold benchmark_metric_ownership. split.
  - destruct (ownership_total m) as [o ->]. by exists o.
  - intros o. rewrite <-(find_owner_exact m _ o ownership_ordered). destruct (find_owner m _); cbn; naive_solver.
Qed.

(** The scorecards never panic and are exactly what the catalog marks: a
    metric is on the P0 scorecard iff its definition requires the P0
    dashboard, and on the autoscale scorecard iff it requires the autoscale
    dashboard or is one of the two shared guardrails; every row of measurement
    coverage is for a metric of its scorecard, and the other way round. *)
Theorem scorecards_exact :
  (exists ds, required_scorecard_metric_definitions = Done ds /\
     Forall2 (fun n d => benchmark_metric_definition n = Some d) P0_SCORECARD_METRICS ds) /\
  (exists ds, required_autoscale_efficiency_metric_definitions = Done ds /\
     Forall2 (fun n d => benchmark_metric_definition n = Some d) AUTOSCALE_EFFICIENCY_SCORECARD_METRICS ds) /\
  (exists ds, required_agent_computer_metric_definitions = Done ds /\
     Forall2 (fun n d => benchmark_metric_definition n = Some d) AGENT_COMPUTER_SCORECARD_METRICS ds) /\
  (forall n, n ∈ P0_SCORECARD_METRICS <->
     exists d, benchmark_metric_definition n = Some d /\ d.(def_requirement) = P0Dashboard) /\
  (forall n, n ∈ AUTOSCALE_EFFICIENCY_SCORECARD_METRICS <->
     (exists d, benchmark_metric_definition n = Some d /\ d.(def_requirement) = AutoscaleDashboard) \/
     n = "cleanup.leftover_bytes"%string \/ n = "reliability.unknown_failure_rate"%string) /\
  cov_metric <$> P0_SCORECARD_MEASUREMENT_COVERAGE ≡ₚ P0_SCORECARD_METRICS /\
  cov_metric <$> AUTOSCALE_EFFICIENCY_MEASUREMENT_COVERAGE ≡ₚ AUTOSCALE_EFFICIENCY_SCORECARD_METRICS.
Proof.
  split; [apply expect_all_done, defined_all; vm_compute; reflexivity|].
  split; [apply expect_all_done, defined_all; vm_compute; reflexivity|].
  split; [apply expect_all_done, defined_all; vm_compute; reflexivity|].
  split; [apply at_level_exact; vm_compute; reflexivity|].
  split; [apply autoscale_names|].
  split; [by vm_compute|]. by vm_compute.
Qed.
End CatalogProofs.
