(* ===== verification/MetricDerive.v ===== *)
(** * Metrics derived from event traces ([crates/evidence/src/derive.rs])

    A decision-grade sample is the time between two events of one trace, taken
    only when the trace has the labels the metric asks for.  [Derive] holds the
    code, [DeriveProofs] what a derived sample stands for. *)
From S2P Require Import Prelude Trace MetricCatalog.

#[global] Instance BenchmarkUnit_eq_dec : EqDecision Samples.BenchmarkUnit.
Proof. solve_decision. Defined.
#[global] Instance trace_lifecycle_eq_dec : EqDecision Events.LifecycleClass.
Proof. solve_decision. Defined.
#[global] Instance trace_profile_eq_dec : EqDecision Events.RuntimeProfile.
Proof. solve_decision. Defined.

Module Derive.
Import Events Samples Catalog.
Inductive DerivedMetricTrust := ExactHostEventPair.
Definition trust_str (t : DerivedMetricTrust) : string := match t with ExactHostEventPair => "exact_host_event_pair" end.
Inductive DerivedMetricConfidence := SmokeOnly.
Definition confidence_str (c : DerivedMetricConfidence) : string := match c with SmokeOnly => "smoke_only" end.
(** The value, [duration.as_secs_f64() * 1000.0], is kept as the duration. *)
Record DerivedMetricSample := mk_derived {
  d_metric : string;
  d_value : SampleValue;
  d_kind : BenchmarkMetricKind;
  d_unit : BenchmarkUnit;
  d_lifecycle : LifecycleClass;
  d_workload : WorkloadClass;
  d_profile : RuntimeProfile;
  d_start_event : SandboxEventName;
  d_end_event : SandboxEventName;
  d_trust : DerivedMetricTrust;
  d_confidence : DerivedMetricConfidence
}.

(** *** Product metrics *)
Inductive ProductAutoscaleDurationMetric :=
| MAgentComputerReady | MAgentComputerResume | MAgentComputerCliReady | MAgentComputerBrowserReady
| MAgentComputerDatabaseReady | MPressureToSafeFloor | MPressureClearToReadyTarget.
Definition pa_metric (m : ProductAutoscaleDurationMetric) : string :=
  match m with
  | MAgentComputerReady => "product.agent_computer_ready_ms"
  | MAgentComputerResume => "product.agent_computer_resume_ms"
  | MAgentComputerCliReady => "product.cli_ready_ms"
  | MAgentComputerBrowserReady => "product.browser_ready_ms"
  | MAgentComputerDatabaseReady => "product.database_ready_ms"
  | MPressureToSafeFloor => "autoscale.pressure_to_safe_floor_ms"
  | MPressureClearToReadyTarget => "autoscale.pressure_clear_to_ready_target_ms"
  end.
Definition pa_start_event (m : ProductAutoscaleDurationMetric) : SandboxEventName :=
  match m with
  | MAgentComputerReady | MAgentComputerCliReady | MAgentComputerBrowserReady | MAgentComputerDatabaseReady =>
      AgentComputerRequestStart
  | MAgentComputerResume => AgentComputerResumed
  | MPressureToSafeFloor => PressureDetected
  | MPressureClearToReadyTarget => SafeFloorRestored
  end.
Definition pa_end_event (m : ProductAutoscaleDurationMetric) : SandboxEventName :=
  match m with
  | MAgentComputerReady | MAgentComputerResume => AgentComputerReady
  | MAgentComputerCliReady => CliFirstUsefulStdout
  | MAgentComputerBrowserReady => BrowserReady
  | MAgentComputerDatabaseReady => DatabaseReady
  | MPressureToSafeFloor => SafeFloorRestored
  | MPressureClearToReadyTarget => ReadyTargetRestored
  end.
Definition pa_lifecycle (m : ProductAutoscaleDurationMetric) : LifecycleClass :=
  match m with MAgentComputerResume => Resumed | _ => Hot end.
Definition pa_workload (m : ProductAutoscaleDurationMetric) : WorkloadClass :=
  match m with MPressureToSafeFloor | MPressureClearToReadyTarget => AutoscaleScenario | _ => AgentComputer end.
Definition pa_profile (m : ProductAutoscaleDurationMetric) : RuntimeProfile := BrowserDbCli.
Definition PRODUCT_AUTOSCALE_DURATION_METRICS : list ProductAutoscaleDurationMetric :=
  [MAgentComputerReady; MAgentComputerResume; MAgentComputerCliReady; MAgentComputerBrowserReady;
   MAgentComputerDatabaseReady; MPressureToSafeFloor; MPressureClearToReadyTarget].

(** *** Samples *)
(** [format!("{:?}", name)]. *)
Definition event_debug (e : SandboxEventName) : string :=
  match e with
  | RequestStart => "RequestStart" | AgentComputerRequestStart => "AgentComputerRequestStart" | AgentComputerSandboxCreated => "AgentComputerSandboxCreated" | AgentComputerProbeStart => "AgentComputerProbeStart"
  | TemplateLookupDone => "TemplateLookupDone" | PoolLeaseRequested => "PoolLeaseRequested" | PoolLeaseAcquired => "PoolLeaseAcquired" | SnapshotRestoreStart => "SnapshotRestoreStart"
  | SnapshotRestoreDone => "SnapshotRestoreDone" | VzStartCalled => "VzStartCalled" | GuestAgentConnected => "GuestAgentConnected" | LocalReadyFlagChecked => "LocalReadyFlagChecked"
  | GuestAgentPingPassed => "GuestAgentPingPassed" | NetworkReady => "NetworkReady" | DnsReady => "DnsReady" | WorkspaceReady => "WorkspaceReady"
  | CgroupsReady => "CgroupsReady" | ReadyProbePassed => "ReadyProbePassed" | ExecRequestSent => "ExecRequestSent" | ProcessStarted => "ProcessStarted"
  | FirstStdoutByte => "FirstStdoutByte" | CliFirstUsefulStdout => "CliFirstUsefulStdout" | BrowserReady => "BrowserReady" | DatabaseReady => "DatabaseReady"
  | AgentComputerReady => "AgentComputerReady" | AgentComputerSuspended => "AgentComputerSuspended" | AgentComputerResumed => "AgentComputerResumed" | PressureDetected => "PressureDetected"
  | SafeFloorRestored => "SafeFloorRestored" | ReadyTargetRestored => "ReadyTargetRestored" | AutoscaleDecisionMade => "AutoscaleDecisionMade" | AutoscaleActionStarted => "AutoscaleActionStarted"
  | AutoscaleActionDone => "AutoscaleActionDone" | ProcessExited => "ProcessExited" | CleanupStart => "CleanupStart" | FstrimStart => "FstrimStart"
  | FstrimDone => "FstrimDone" | CleanupDone => "CleanupDone"
  end.
Definition with_product_probe_boundary_tags (s : BenchmarkSample) (m : string) : BenchmarkSample :=
  let boundary surface b := with_tag (with_tag s "probe_surface" surface) "measurement_boundary" b in
  if (m =? "product.agent_computer_ready_ms")%string || (m =? "product.agent_computer_resume_ms")%string
  then boundary "browser_db_cli_readiness"%string "product_path"%string
  else if (m =? "product.cli_ready_ms")%string then boundary "code_interpreter_exec"%string "cli_proxy"%string
  else if (m =? "product.browser_ready_ms")%string then boundary "code_interpreter_health"%string "browser_proxy"%string
  else if (m =? "product.database_ready_ms")%string
  then boundary "code_interpreter_exec"%string "sqlite_proxy_not_db_sidecar"%string
  else s.
Definition into_benchmark_sample (d : DerivedMetricSample) : BenchmarkSample :=
  let s := sample_new d.(d_metric) d.(d_kind) d.(d_unit) d.(d_value) in
  let s := with_tag s "trust" (trust_str d.(d_trust)) in
  let s := with_tag s "confidence" (confidence_str d.(d_confidence)) in
  let s := with_tag s "start_event" (event_debug d.(d_start_event)) in
  let s := with_tag s "end_event" (event_debug d.(d_end_event)) in
  with_product_probe_boundary_tags s d.(d_metric).

Inductive MetricDerivationError :=
| MissingCatalogDefinition (m : string)
| UnsupportedValueSource (m : string)
| MissingEndpoint (m : string) (event : SandboxEventName)
| MissingPrerequisite (m : string) (event : SandboxEventName)
| WrongLifecycle (m : string) (expected actual : LifecycleClass)
| WrongWorkload (m : string) (expected actual : WorkloadClass)
| WrongProfile (m : string) (expected actual : RuntimeProfile)
| EventPair (m : string) (source : SandboxEventTraceError).

(** *** Derivation *)
Definition endpoint_to_event (e : Contract.MetricEndpoint) : SandboxEventName :=
  match e with
  | Contract.RequestStart => RequestStart
  | Contract.PoolLeaseRequested => PoolLeaseRequested
  | Contract.PoolLeaseAcquired => PoolLeaseAcquired
  | Contract.SnapshotRestoreStart => SnapshotRestoreStart
  | Contract.VzStartCalled => VzStartCalled
  | Contract.ReadyProbePassed => ReadyProbePassed
  | Contract.ExecRequestSent => ExecRequestSent
  | Contract.ProcessStarted => ProcessStarted
  | Contract.FirstStdoutByte => FirstStdoutByte
  | Contract.ProcessExited => ProcessExited
  | Contract.CleanupStart => CleanupStart
  | Contract.FstrimStart => FstrimStart
  | Contract.FstrimDone => FstrimDone
  | Contract.CleanupDone => CleanupDone
  end.
Definition lifecycle_to_trace (l : Contract.LifecycleClass) : LifecycleClass :=
  match l with
  | Contract.ColdUnprepared => ColdUnprepared
  | Contract.ColdPrepared => ColdPrepared
  | Contract.Warm => Warm
  | Contract.Hot => Hot
  | Contract.Resumed => Resumed
  end.
Definition workload_to_trace (w : Contract.WorkloadClass) : WorkloadClass :=
  match w with
  | Contract.TinyExec => TinyExec
  | Contract.DirectExec => DirectExec
  | Contract.ShellExec => ShellExec
  | Contract.Batch100Execs => Batch100Execs
  | Contract.DiskBloatReclaim => DiskBloatReclaim
  | Contract.ConcurrentCreate => ConcurrentCreate
  | Contract.ReadinessProbe => ReadinessProbe
  end.
Definition profile_to_trace (p : Contract.RuntimeProfile) : RuntimeProfile :=
  match p with
  | Contract.FastAgent => FastAgent
  | Contract.DiskReclaim => DiskReclaim
  | Contract.Density => Events.Density
  end.
Fixpoint require_events (t : SandboxEventTrace) (m : string) (l : list SandboxEventName) : result MetricDerivationError unit :=
  match l with
  | [] => Ok tt
  | e :: l => match headline_event t e with None => Err (MissingPrerequisite m e) | Some _ => require_events t m l end
  end.
Definition require_readiness_prerequisites (t : SandboxEventTrace) (m : string) : result MetricDerivationError unit :=
  if negb (m =? "start.hot_to_ready_ms")%string then Ok tt
  else require_events t m [GuestAgentPingPassed; WorkspaceReady].
Definition product_prerequisites (m : ProductAutoscaleDurationMetric) : list SandboxEventName :=
  match m with
  | MAgentComputerReady | MAgentComputerResume => [CliFirstUsefulStdout; BrowserReady; DatabaseReady]
  | MAgentComputerCliReady | MAgentComputerBrowserReady | MAgentComputerDatabaseReady => []
  | MPressureToSafeFloor => [AutoscaleDecisionMade; AutoscaleActionStarted]
  | MPressureClearToReadyTarget => []
  end.
Definition require_product_autoscale_prerequisites (t : SandboxEventTrace) (m : ProductAutoscaleDurationMetric)
  : result MetricDerivationError unit := require_events t (pa_metric m) (product_prerequisites m).
Definition validate_event_labels (m : string) (e : SandboxTraceEvent) (l : LifecycleClass) (w : WorkloadClass)
    (p : RuntimeProfile) : result MetricDerivationError unit :=
  if negb (bool_decide (e.(ev_lifecycle) = l)) then Err (WrongLifecycle m l e.(ev_lifecycle))
  else if negb (bool_decide (e.(ev_workload) = w)) then Err (WrongWorkload m w e.(ev_workload))
  else if negb (bool_decide (e.(ev_profile) = p)) then Err (WrongProfile m p e.(ev_profile))
  else Ok tt.
Definition duration_backed (d : BenchmarkMetricDefinition) : bool :=
  bool_decide (d.(def_kind) = LifecycleLatency) && bool_decide (d.(def_unit) = Milliseconds).
(** From the endpoints to the sample: the same lines in both derivations. *)
Definition sample_of_pair (t : SandboxEventTrace) (m : string) (d : BenchmarkMetricDefinition)
    (start_event end_event : SandboxEventName) (l : LifecycleClass) (w : WorkloadClass) (p : RuntimeProfile)
  : result MetricDerivationError DerivedMetricSample :=
  start ← ok_or (MissingEndpoint m start_event) (headline_event t start_event);
  end_ ← ok_or (MissingEndpoint m end_event) (headline_event t end_event);
  _ ← validate_event_labels m start l w p;
  _ ← validate_event_labels m end_ l w p;
  duration ← map_err (EventPair m) (duration_between t start_event end_event);
  Ok (mk_derived m (Elapsed duration) d.(def_kind) d.(def_unit) l w p start_event end_event ExactHostEventPair SmokeOnly).
Definition derive_contract_metric_sample (t : SandboxEventTrace) (c : Contract.MetricContract)
  : result MetricDerivationError DerivedMetricSample :=
  let m := c.(Contract.ct_metric) in
  d ← ok_or (MissingCatalogDefinition m) (benchmark_metric_definition m);
  if negb (duration_backed d) then Err (UnsupportedValueSource m)
  else
    let start_event := endpoint_to_event c.(Contract.ct_start_event) in
    let end_event := endpoint_to_event c.(Contract.ct_end_event) in
    _ ← require_readiness_prerequisites t m;
    sample_of_pair t m d start_event end_event (lifecycle_to_trace c.(Contract.ct_lifecycle))
      (workload_to_trace c.(Contract.ct_workload)) (profile_to_trace c.(Contract.ct_profile)).
Definition derive_product_autoscale_metric_sample (t : SandboxEventTrace) (m : ProductAutoscaleDurationMetric)
  : result MetricDerivationError DerivedMetricSample :=
  let name := pa_metric m in
  d ← ok_or (MissingCatalogDefinition name) (benchmark_metric_definition name);
  if negb (duration_backed d) then Err (UnsupportedValueSource name)
  else
    _ ← require_product_autoscale_prerequisites t m;
    sample_of_pair t name d (pa_start_event m) (pa_end_event m) (pa_lifecycle m) (pa_workload m) (pa_profile m).
(** [.ok().map(into_benchmark_sample)]. *)
Definition sample_if_ok (r : result MetricDerivationError DerivedMetricSample) : list BenchmarkSample :=
  match r with Ok d => [into_benchmark_sample d] | Err _ => [] end.
Definition derive_available_contract_metric_samples (traces : list SandboxEventTrace) : list BenchmarkSample :=
  flat_map (fun t => flat_map (fun c => sample_if_ok (derive_contract_metric_sample t c))
    Contract.decision_grade_metric_contract) traces.
Definition derive_available_product_autoscale_metric_samples (traces : list SandboxEventTrace) : list BenchmarkSample :=
  flat_map (fun t => flat_map (fun m => sample_if_ok (derive_product_autoscale_metric_sample t m))
    PRODUCT_AUTOSCALE_DURATION_METRICS) traces.
End Derive.

(** ** What a derived sample stands for *)
Module DeriveProofs.
Import Events Samples Catalog Derive TraceProofs.

Lemma require_events_ok t m l :
  require_events t m l = Ok tt <-> forall e, e ∈ l -> is_Some (headline_event t e).
Proof.
  induction l as [|e l IH]; cbn.
  - split; [|done]. intros _ e He. by apply elem_of_nil in He.
  - destruct (headline_event t e) as [x|] eqn:E.
    + rewrite IH. setoid_rewrite elem_of_cons. naive_solver.
    + split; [done|]. intros H. destruct (H e) as [? Hx]; [set_solver|]. congruence.
Qed.
Definition labelled (e : SandboxTraceEvent) (l : LifecycleClass) (w : WorkloadClass) (p : RuntimeProfile) : Prop :=
  e.(ev_lifecycle) = l /\ e.(ev_workload) = w /\ e.(ev_profile) = p.
Lemma validate_ok m e l w p : validate_event_labels m e l w p = Ok tt <-> labelled e l w p.
Proof. unfold validate_event_labels, labelled. repeat case_bool_decide; cbn; naive_solver. Qed.
Lemma duration_backed_spec d : duration_backed d = true <-> d.(def_kind) = LifecycleLatency /\ d.(def_unit) = Milliseconds.
Proof. unfold duration_backed. by rewrite andb_true_iff, !bool_decide_eq_true. Qed.

(** The pair of events a sample is taken from, and the time between them. *)
Definition event_pair (t : SandboxEventTrace) (a b : SandboxEventName) (l : LifecycleClass) (w : WorkloadClass)
    (p : RuntimeProfile) (nanos : Z) : Prop :=
  exists start end_,
    headline_event t a = Some start /\ headline_event t b = Some end_ /\
    labelled start l w p /\ labelled end_ l w p /\
    nanos = end_.(host_monotonic_ns) - start.(host_monotonic_ns) /\ 0 <= nanos <= max_uint 64.
Definition exact_sample (m : string) (nanos : Z) (a b : SandboxEventName) (l : LifecycleClass) (w : WorkloadClass)
    (p : RuntimeProfile) : DerivedMetricSample :=
  mk_derived m (Elapsed nanos) LifecycleLatency Milliseconds l w p a b ExactHostEventPair SmokeOnly.
Lemma unit_ok {E} (r : result E unit) : r = Ok tt \/ exists e, r = Err e.
Proof. destruct r as [[]|e]; eauto. Qed.
Lemma sample_of_pair_ok t m d a b l w p s :
  duration_backed d = true ->
  sample_of_pair t m d a b l w p = Ok s <->
  exists nanos, event_pair t a b l w p nanos /\ s = exact_sample m nanos a b l w p.
Proof.
  intros [Hk Hu]%duration_backed_spec. unfold sample_of_pair, duration_between, event_pair. rewrite Hk, Hu.
  unfold mbind, result_bind.
  destruct (headline_event t a) as [x|] eqn:Ea; cbn [ok_or]; [|naive_solver].
  destruct (headline_event t b) as [y|] eqn:Eb; cbn [ok_or]; [|naive_solver].
  pose proof (validate_ok m x l w p) as Hx. pose proof (validate_ok m y l w p) as Hy.
  destruct (unit_ok (validate_event_labels m x l w p)) as [E|[e E]]; rewrite E in Hx |- *.
  2:{ split; [done|]. intros (n & (x' & y' & [= <-] & [= <-] & Hl & _) & _). by apply Hx in Hl. }
  destruct (unit_ok (validate_event_labels m y l w p)) as [E'|[e E']]; rewrite E' in Hy |- *.
  2:{ split; [done|]. intros (n & (x' & y' & [= <-] & [= <-] & _ & Hl & _) & _). by apply Hy in Hl. }
  pose proof (proj1 Hx eq_refl) as Hlx. pose proof (proj1 Hy eq_refl) as Hly.
  set (delta := host_monotonic_ns y - host_monotonic_ns x).
  assert (Hsame : forall n, (exists start end_, Some x = Some start /\ Some y = Some end_ /\ labelled start l w p /\
      labelled end_ l w p /\ n = host_monotonic_ns end_ - host_monotonic_ns start /\ 0 <= n <= max_uint 64) <->
      n = delta /\ 0 <= n <= max_uint 64).
  { intros n. split; [|intros [-> Hn]; by exists x, y]. by intros (? & ? & [= <-] & [= <-] & _ & _ & ? & ?). }
  setoid_rewrite Hsame. destruct (delta <? 0) eqn:E1; [split; [done|]; intros (n & [-> ?] & _); lia|].
  destruct (max_uint 64 <? delta) eqn:E2; cbn [map_err]; [split; [done|]; intros (n & [-> ?] & _); lia|].
  split; [intros [= <-]; exists delta; split; [split; [done|lia]|done]|]. by intros (n & [-> _] & ->).
Qed.
Lemma product_sample_ok t m s :
  derive_product_autoscale_metric_sample t m = Ok s <->
  exists d nanos,
    benchmark_metric_definition (pa_metric m) = Some d /\ duration_backed d = true /\
    (forall e, e ∈ product_prerequisites m -> is_Some (headline_event t e)) /\
    event_pair t (pa_start_event m) (pa_end_event m) (pa_lifecycle m) (pa_workload m) (pa_profile m) nanos /\
    s = exact_sample (pa_metric m) nanos (pa_start_event m) (pa_end_event m) (pa_lifecycle m) (pa_workload m) (pa_profile m).
Proof.
  unfold derive_product_autoscale_metric_sample. unfold mbind, result_bind.
  destruct (benchmark_metric_definition (pa_metric m)) as [d|] eqn:Ed; cbn [ok_or]; [|split; [done|]; by intros (d' & n & ? & _)].
  destruct (duration_backed d) eqn:Eb; cbn [negb]; [|split; [done|]; intros (d' & n & [= <-] & Hb & _); congruence].
  pose proof (require_events_ok t (pa_metric m) (product_prerequisites m)) as Hr.
  unfold require_product_autoscale_prerequisites.
  destruct (unit_ok (require_events t (pa_metric m) (product_prerequisites m))) as [E|[e E]]; rewrite E in Hr |- *.
  - rewrite sample_of_pair_ok by done. split; [|intros (d' & n & _ & _ & _ & Hn & ->); by exists n].
    intros (n & Hn & ->). exists d, n. split_and!; [done|done|by apply Hr|done|done].
  - split; [done|]. intros (d' & n & _ & _ & Hp & _). by apply Hr in Hp.
Qed.

(** *** Tags *)
Lemma add_tag_new tags k v :
  tag_value k tags = None -> k <> ""%string -> len k <= MAX_TAG_KEY_BYTES -> len v <= MAX_TAG_VALUE_BYTES ->
  (length tags < 16)%nat -> add_tag tags k v = tags ++ [(k, v)].
Proof.
  intros Ht Hk Hlk Hlv Hn. unfold add_tag, push_tag, validate_tag, validate_tag_str.
  replace (is_empty k) with false by by destruct k. cbn [orb].
  replace (MAX_TAG_KEY_BYTES <? len k) with false by lia. replace (MAX_TAG_VALUE_BYTES <? len v) with false by lia.
  cbn [map_err]. rewrite Ht. unfold MAX_SAMPLE_TAGS. cbn. replace (16 <=? _) with false by lia. done.
Qed.
Lemma event_debug_short e : len (event_debug e) <= MAX_TAG_VALUE_BYTES.
Proof. by destruct e; vm_compute. Qed.
Definition source_tags (a b : SandboxEventName) : list (string * string) :=
  [("trust", "exact_host_event_pair"); ("confidence", "smoke_only"); ("start_event", event_debug a);
   ("end_event", event_debug b)]%string.
(** What the sample of a product metric says of the probe behind it. *)
Definition boundary_tags (m : ProductAutoscaleDurationMetric) : list (string * string) :=
  match m with
  | MAgentComputerReady | MAgentComputerResume =>
      [("probe_surface", "browser_db_cli_readiness"); ("measurement_boundary", "product_path")]
  | MAgentComputerCliReady => [("probe_surface", "code_interpreter_exec"); ("measurement_boundary", "cli_proxy")]
  | MAgentComputerBrowserReady =>
      [("probe_surface", "code_interpreter_health"); ("measurement_boundary", "browser_proxy")]
  | MAgentComputerDatabaseReady =>
      [("probe_surface", "code_interpreter_exec"); ("measurement_boundary", "sqlite_proxy_not_db_sidecar")]
  | MPressureToSafeFloor | MPressureClearToReadyTarget => []
  end%string.
Lemma with_tag_new s k v :
  tag_value k s.(sample_tags) = None -> k <> ""%string -> len k <= MAX_TAG_KEY_BYTES -> len v <= MAX_TAG_VALUE_BYTES ->
  (length s.(sample_tags) < 16)%nat -> with_tag s k v = with_tags s (s.(sample_tags) ++ [(k, v)]).
Proof. intros. unfold with_tag. by rewrite add_tag_new. Qed.
Ltac tag_side := first [apply event_debug_short | vm_compute; done | cbn; lia | done].
Lemma into_sample_tags m n a b l w p :
  into_benchmark_sample (exact_sample m n a b l w p) =
  with_product_probe_boundary_tags (mk_sample m LifecycleLatency Milliseconds (Elapsed n) (source_tags a b)) m.
Proof.
  unfold into_benchmark_sample, exact_sample, sample_new. cbn [d_metric d_kind d_unit d_value d_trust d_confidence
    d_start_event d_end_event]. do 4 (rewrite (with_tag_new (mk_sample _ _ _ _ _)) by tag_side; unfold with_tags;
    cbn [Samples.metric sample_kind sample_unit sample_value sample_tags app]).
  done.
Qed.
Lemma product_sample_tags m n :
  let a := pa_start_event m in let b := pa_end_event m in
  into_benchmark_sample (exact_sample (pa_metric m) n a b (pa_lifecycle m) (pa_workload m) (pa_profile m)) =
  mk_sample (pa_metric m) LifecycleLatency Milliseconds (Elapsed n) (source_tags a b ++ boundary_tags m).
Proof. cbn zeta. rewrite into_sample_tags. by destruct m; vm_compute. Qed.
Lemma product_defined m :
  exists d, benchmark_metric_definition (pa_metric m) = Some d /\ duration_backed d = true.
Proof. destruct m; eexists; (split; [vm_compute; reflexivity|reflexivity]). Qed.
Lemma elem_of_flat_map {A B} (f : A -> list B) l y : y ∈ flat_map f l <-> exists x, x ∈ l /\ y ∈ f x.
Proof. rewrite list_elem_of_In, in_flat_map. by setoid_rewrite <-list_elem_of_In. Qed.
Lemma elem_of_sample_if_ok s r : s ∈ sample_if_ok r <-> exists d, r = Ok d /\ s = into_benchmark_sample d.
Proof.
  destruct r as [d|e]; cbn; [rewrite list_elem_of_singleton; naive_solver|]. rewrite elem_of_nil. naive_solver.
Qed.

(** *** From what was recorded *)
(** The trace of a recording: its events pushed in order. *)
Definition recorded (cap : Z) (l : list SandboxTraceEvent) : SandboxEventTrace := foldl Events.push (with_event_cap cap) l.
(** The first successful event of a name among those that fit the trace. *)
Definition first_success (cap : Z) (l : list SandboxTraceEvent) (name : SandboxEventName) : option SandboxTraceEvent :=
  find_event (succeeded name) (take (Z.to_nat cap) l).
Definition measured (cap : Z) (rec : list SandboxTraceEvent) (a b : SandboxEventName) (l : LifecycleClass)
    (w : WorkloadClass) (p : RuntimeProfile) (nanos : Z) : Prop :=
  exists start end_,
    first_success cap rec a = Some start /\ first_success cap rec b = Some end_ /\
    labelled start l w p /\ labelled end_ l w p /\
    nanos = end_.(host_monotonic_ns) - start.(host_monotonic_ns) /\ 0 <= nanos <= max_uint 64.
Lemma recorded_headline cap l name :
  0 <= cap -> Forall fresh l -> headline_event (recorded cap l) name = first_success cap l name.
Proof. intros Hc Hl. apply (headline_is_first cap l name Hc Hl). Qed.
Lemma measured_pair cap rec a b l w p n :
  0 <= cap -> Forall fresh rec -> event_pair (recorded cap rec) a b l w p n <-> measured cap rec a b l w p n.
Proof. intros Hc Hl. unfold event_pair, measured. by rewrite !recorded_headline. Qed.

Theorem product_samples_exact cap recs s :
  0 <= cap -> Forall (Forall fresh) recs ->
  s ∈ derive_available_product_autoscale_metric_samples (recorded cap <$> recs) <->
  exists rec m nanos,
    rec ∈ recs /\ (forall e, e ∈ product_prerequisites m -> is_Some (first_success cap rec e)) /\
    measured cap rec (pa_start_event m) (pa_end_event m) (pa_lifecycle m) (pa_workload m) (pa_profile m) nanos /\
    s = mk_sample (pa_metric m) LifecycleLatency Milliseconds (Elapsed nanos)
          (source_tags (pa_start_event m) (pa_end_event m) ++ boundary_tags m).
Proof.
  intros Hc Hf. rewrite Forall_forall in Hf. unfold derive_available_product_autoscale_metric_samples. rewrite elem_of_flat_map.
  setoid_rewrite elem_of_flat_map. setoid_rewrite elem_of_sample_if_ok. split.
  - intros (t & Ht & m & _ & d & Hd & ->). apply list_elem_of_fmap in Ht as (rec & -> & Hrec). specialize (Hf rec Hrec).
    apply product_sample_ok in Hd as (def & n & Hdef & Hb & Hp & Hpair & ->).
    setoid_rewrite recorded_headline in Hp; [|done..]. rewrite measured_pair in Hpair by done.
    exists rec, m, n. by rewrite product_sample_tags.
  - intros (rec & m & n & Hrec & Hp & Hpair & ->). specialize (Hf rec Hrec).
    exists (recorded cap rec). split; [by apply list_elem_of_fmap_2|].
    exists m. split; [by destruct m; set_solver|]. eexists. split; [|symmetry; apply product_sample_tags].
    destruct (product_defined m) as (def & Hdef & Hb). apply product_sample_ok. exists def, n.
    split_and!; [done|done| |by apply measured_pair|done]. intros e He. rewrite recorded_headline by done. auto.
Qed.

(** *** Concrete recordings *)
Definition hot (name : SandboxEventName) (ns : Z) (w : WorkloadClass) : SandboxTraceEvent :=
  event_new name ns Hot w FastAgent.
(** A batch is timed to the first process that exits, not to the last. *)
Example batch_stops_at_first_exit :
  derive_available_contract_metric_samples
    [recorded 1024 [hot ExecRequestSent 0 Batch100Execs; hot ProcessExited 7 Batch100Execs; hot ProcessExited 900 Batch100Execs]] =
  [mk_sample "exec.batch_100_small_commands_ms" LifecycleLatency Milliseconds (Elapsed 7) (source_tags ExecRequestSent ProcessExited)].
Proof. vm_compute. reflexivity. Qed.
(** A readiness that was recorded before its probes passed still counts: the
    probes have to be there, in any order. *)
Definition computer (name : SandboxEventName) (ns : Z) (l : LifecycleClass) : SandboxTraceEvent :=
  event_new name ns l AgentComputer BrowserDbCli.
Example probes_in_any_order :
  is_ok (derive_product_autoscale_metric_sample
    (recorded 1024 [computer AgentComputerRequestStart 0 Hot; computer AgentComputerReady 5 Hot;
       computer CliFirstUsefulStdout 6 Hot; computer BrowserReady 7 Hot; computer DatabaseReady 8 Hot]) MAgentComputerReady) = true.
Proof. vm_compute. reflexivity. Qed.
(** A resume is measured in a trace of its own: after a first readiness the
    second one is a duplicate. *)
Example resume_needs_its_own_trace :
  derive_product_autoscale_metric_sample
    (recorded 1024 [computer CliFirstUsefulStdout 1 Resumed; computer BrowserReady 2 Resumed; computer DatabaseReady 3 Resumed;
       computer AgentComputerReady 5 Resumed; computer AgentComputerResumed 50 Resumed; computer AgentComputerReady 60 Resumed])
    MAgentComputerResume =
  Err (EventPair "product.agent_computer_resume_ms" (EventOrder AgentComputerResumed AgentComputerReady)).
Proof. vm_compute. reflexivity. Qed.
End DeriveProofs.
