(* ===== verification/Evidence.v ===== *)
(** * Evidence for production ([crates/evidence/src])

    [Summary] ([benchmark.rs]): the statistics of the samples of one metric.
    [Slo] ([slo.rs]): the gate that compares them with targets.  [Reports]
    ([lifecycle.rs], [overhead.rs]): grouping samples and requiring metrics.
    [Soak] ([soak.rs]): the evidence of a soak run.  [EvidenceProofs] shows
    what a passed gate says of the samples. *)
From S2P Require Import Prelude BTree Trace MetricCatalog MetricDerive Float64.

(** The value of a sample: a recorded duration is [as_secs_f64() * 1000.0]. *)
Definition secs_f64 (nanos : Z) : Z :=
  F64.add (F64.of_int (nanos / 1000000000)) (F64.div (F64.of_int (nanos mod 1000000000)) (F64.of_int 1000000000)).
Definition value_f64 (v : Samples.SampleValue) : Z :=
  match v with
  | Samples.Elapsed nanos => F64.mul (secs_f64 nanos) (F64.of_int 1000)
  | Samples.Float bits => bits
  end.

(** ** Summaries ([benchmark.rs]) *)
Module Summary.
Import Samples.
Inductive BenchmarkSummaryError := SummaryEmpty | MetricMismatch (expected : string) | MixedShape.
Inductive PercentileAvailability :=
| SmokeOnly | SuperfastIteration | FastIteration | BaselineCheckpoint | P50P90DecisionGrade | P95DecisionGrade
| P99DecisionGrade.
Definition for_sample_policy (count p95_min_samples p99_min_samples : Z) : PercentileAvailability :=
  if p99_min_samples <=? count then P99DecisionGrade
  else if p95_min_samples <=? count then P95DecisionGrade
  else if 30 <=? count then P50P90DecisionGrade
  else if 10 <=? count then BaselineCheckpoint
  else if 5 <=? count then FastIteration
  else if 3 <=? count then SuperfastIteration
  else SmokeOnly.
Definition for_sample_count (count : Z) : PercentileAvailability := for_sample_policy count 100 500.
Definition availability_str (a : PercentileAvailability) : string :=
  match a with
  | SmokeOnly => "smoke_only" | SuperfastIteration => "superfast_iteration" | FastIteration => "fast_iteration"
  | BaselineCheckpoint => "baseline_checkpoint" | P50P90DecisionGrade => "p50_p90_decision_grade"
  | P95DecisionGrade => "p95_decision_grade" | P99DecisionGrade => "p99_decision_grade"
  end.
Definition unstable_percentile (a : PercentileAvailability) : bool :=
  match a with P95DecisionGrade | P99DecisionGrade => false | _ => true end.
Definition p95_status (a : PercentileAvailability) : string :=
  match a with P95DecisionGrade | P99DecisionGrade => "decision_grade" | _ => "unstable" end.
Definition p99_status (a : PercentileAvailability) : string :=
  match a with P99DecisionGrade => "decision_grade" | _ => "experimental" end.
Record BenchmarkSummary := mk_summary {
  sm_metric : string;
  sm_kind : BenchmarkMetricKind;
  sm_unit : BenchmarkUnit;
  sm_count : Z;
  sm_min : Z;
  sm_mean : Z;
  sm_median_absolute_deviation : Z;
  sm_coefficient_of_variation : Z;
  sm_p50 : Z;
  sm_p90 : Z;
  sm_p95 : Z;
  sm_p99 : Z;
  sm_max : Z;
  sm_availability : PercentileAvailability
}.
(** An empty slice has no last index: a panic. *)
Definition percentile_nearest_rank {E} (sorted_values : list Z) (percentile : Z) : exec E Z :=
  match sorted_values with
  | [] => Panic
  | _ =>
      let n := Z.of_nat (length sorted_values) in
      let rank := (sat_mul 64 n percentile + 99) / 100 in
      let index := Z.min (sat_sub rank 1) (n - 1) in
      idx sorted_values (Z.to_nat index)
  end.
Fixpoint find_contract (m : string) (l : list Contract.MetricContract) : option Contract.MetricContract :=
  match l with
  | [] => None
  | c :: l => if (c.(Contract.ct_metric) =? m)%string then Some c else find_contract m l
  end.
Definition percentile_availability_for_metric (m : string) (count : Z) : PercentileAvailability :=
  match find_contract m Contract.decision_grade_metric_contract with
  | None => for_sample_count count
  | Some c =>
      let policy := c.(Contract.ct_percentile_policy) in
      for_sample_policy count policy.(Contract.p95_min_samples) policy.(Contract.p99_min_samples)
  end.
Definition same_shape (k : BenchmarkMetricKind) (u : BenchmarkUnit) (s : BenchmarkSample) : bool :=
  bool_decide (s.(sample_kind) = k) && bool_decide (s.(sample_unit) = u).
(** The statistics, once the samples are known to agree. *)
Definition statistics (m : string) (k : BenchmarkMetricKind) (u : BenchmarkUnit) (given : list Z)
  : exec BenchmarkSummaryError BenchmarkSummary :=
  let values := F64.sort given in
  p50 ← percentile_nearest_rank values 50;
  let absolute_deviations := F64.sort ((fun v => F64.abs (F64.sub v p50)) <$> values) in
  let n := F64.of_int (Z.of_nat (length values)) in
  let mean := F64.div (F64.sum values) n in
  let variance := F64.div (F64.sum ((fun v => let delta := F64.sub v mean in F64.mul delta delta) <$> values)) n in
  let coefficient_of_variation :=
    if F64.lt (F64.abs mean) F64.EPSILON then 0 else F64.div (F64.sqrt variance) (F64.abs mean) in
  let availability := percentile_availability_for_metric m (Z.of_nat (length values)) in
  min ← idx values 0;
  mad ← percentile_nearest_rank absolute_deviations 50;
  p90 ← percentile_nearest_rank values 90;
  p95 ← percentile_nearest_rank values 95;
  p99 ← percentile_nearest_rank values 99;
  max ← idx values (length values - 1);
  Done (mk_summary m k u (Z.of_nat (length values)) min mean mad coefficient_of_variation p50 p90 p95 p99 max availability).
Definition from_samples (m : string) (samples : list BenchmarkSample) : exec BenchmarkSummaryError BenchmarkSummary :=
  match samples with
  | [] => Failed SummaryEmpty
  | first :: _ =>
      if existsb (fun s => negb (s.(Samples.metric) =? m)%string) samples then Failed (MetricMismatch m)
      else if existsb (fun s => negb (same_shape first.(sample_kind) first.(sample_unit) s)) samples then Failed MixedShape
      else statistics m first.(sample_kind) first.(sample_unit) ((fun s => value_f64 s.(sample_value)) <$> samples)
  end.
End Summary.

(** ** The gate ([slo.rs]) *)
Module Slo.
Import Samples Summary.
Record BenchmarkSloTarget := target_new {
  tg_metric : string;
  tg_kind : BenchmarkMetricKind;
  tg_unit : BenchmarkUnit;
  tg_max_p95 : Z;
  tg_min_samples : Z
}.
Inductive BenchmarkSloGateError :=
| MissingMetric (m : string)
| WrongShape (m : string) (expected_kind actual_kind : BenchmarkMetricKind) (expected_unit actual_unit : BenchmarkUnit)
| InsufficientSamples (m : string) (required actual : Z)
| P95Exceeded (m : string) (allowed actual : Z).
Fixpoint summary_for (m : string) (l : list BenchmarkSummary) : option BenchmarkSummary :=
  match l with [] => None | s :: l => if (s.(sm_metric) =? m)%string then Some s else summary_for m l end.
(** The body of the loop over the targets. *)
Definition check_target (summaries : list BenchmarkSummary) (t : BenchmarkSloTarget) : result BenchmarkSloGateError unit :=
  s ← ok_or (MissingMetric t.(tg_metric)) (summary_for t.(tg_metric) summaries);
  if negb (bool_decide (s.(sm_kind) = t.(tg_kind))) || negb (bool_decide (s.(sm_unit) = t.(tg_unit)))
  then Err (WrongShape t.(tg_metric) t.(tg_kind) s.(sm_kind) t.(tg_unit) s.(sm_unit))
  else if s.(sm_count) <? t.(tg_min_samples) then Err (InsufficientSamples t.(tg_metric) t.(tg_min_samples) s.(sm_count))
  else if F64.gt s.(sm_p95) t.(tg_max_p95) then Err (P95Exceeded t.(tg_metric) t.(tg_max_p95) s.(sm_p95))
  else Ok tt.
(** The targets passed so far are [passed]. *)
Fixpoint from_summaries (summaries : list BenchmarkSummary) (targets passed : list BenchmarkSloTarget)
  : result BenchmarkSloGateError (list BenchmarkSloTarget) :=
  match targets with
  | [] => Ok passed
  | t :: targets => _ ← check_target summaries t; from_summaries summaries targets (passed ++ [t])
  end.
End Slo.

(** ** Reports ([lifecycle.rs], [overhead.rs]) *)
Module Reports.
Import Samples Summary Slo.
Inductive BenchmarkEvidenceError :=
| MissingLifecycleLatency (m : string)
| WrongLifecycleLatencyShape (m : string)
| MissingFirkinOverhead (m : string)
| WrongFirkinOverheadShape (m : string)
| SummaryInvalid (m : string) (source : BenchmarkSummaryError).
Definition grouped_entry (g : gmap string (list BenchmarkSample)) (s : BenchmarkSample) : gmap string (list BenchmarkSample) :=
  <[s.(Samples.metric) := match g !! s.(Samples.metric) with Some l => l | None => [] end ++ [s]]> g.
Definition grouped (samples : list BenchmarkSample) : gmap string (list BenchmarkSample) := foldl grouped_entry ∅ samples.
Definition summarize (m : string) (samples : list BenchmarkSample) : exec BenchmarkEvidenceError BenchmarkSummary :=
  match Summary.from_samples m samples with
  | Done s => Done s
  | Failed e => Failed (SummaryInvalid m e)
  | Panic => Panic
  end.
(** The metrics that are not required, in the order of the map. *)
Fixpoint summarize_rest (required : string -> bool) (l : list (string * list BenchmarkSample)) (summaries : list BenchmarkSummary)
  : exec BenchmarkEvidenceError (list BenchmarkSummary) :=
  match l with
  | [] => Done summaries
  | (m, samples) :: l =>
      if required m then summarize_rest required l summaries
      else s ← summarize m samples; summarize_rest required l (summaries ++ [s])
  end.
Record BenchmarkReport := mk_report { required_metrics : list string; summaries : list BenchmarkSummary }.

(** *** Lifecycle latencies *)
Definition REQUIRED_LIFECYCLE_LATENCY_METRICS : list string := [
  "start.hot_to_first_stdout_ms"; "start.hot_to_ready_ms"; "start.resume_to_first_stdout_ms";
  "start.warm_to_first_stdout_ms"; "start.agent_task_ready_ms"; "pool.lease_ms"; "exec.direct_command_start_ms";
  "exec.direct_first_stdout_byte_ms"; "exec.batch_100_small_commands_ms"]%string.
Record RequiredLifecycleLatencyTarget := latency_target { lt_name : string; lt_p50_ms : Z; lt_p95_ms : Z; lt_notes : string }.
Definition REQUIRED_LIFECYCLE_LATENCY_TARGETS : list RequiredLifecycleLatencyTarget := [
  latency_target "start.hot_to_first_stdout_ms" 50 75 "hot-lease-acquired-through-first-stdout";
  latency_target "start.hot_to_ready_ms" 50 75 "hot-lease-acquired-through-real-readiness";
  latency_target "start.resume_to_first_stdout_ms" 35 50 "snapshot-restore-start-through-first-stdout";
  latency_target "start.warm_to_first_stdout_ms" 350 500 "warm-request-through-first-stdout";
  latency_target "start.agent_task_ready_ms" 50 75 "external-request-through-first-useful-stdout";
  latency_target "pool.lease_ms" 1 5 "pool-lease-only";
  latency_target "exec.direct_command_start_ms" 15 25 "direct-exec-request-sent-through-process-start";
  latency_target "exec.direct_first_stdout_byte_ms" 20 35 "direct-exec-request-sent-through-first-stdout-byte";
  latency_target "exec.batch_100_small_commands_ms" 2000 3000 "batch-100-small-commands"].
Definition default_lifecycle_latency_slo_targets (min_samples : Z) : list BenchmarkSloTarget :=
  (fun t => target_new t.(lt_name) LifecycleLatency Milliseconds (F64.of_int t.(lt_p95_ms)) min_samples)
    <$> REQUIRED_LIFECYCLE_LATENCY_TARGETS.
Fixpoint required_lifecycle (g : gmap string (list BenchmarkSample)) (names : list string) (summaries : list BenchmarkSummary)
  : exec BenchmarkEvidenceError (list BenchmarkSummary) :=
  match names with
  | [] => Done summaries
  | m :: names =>
      match g !! m with
      | None => Failed (MissingLifecycleLatency m)
      | Some samples =>
          if existsb (fun s => negb (same_shape LifecycleLatency Milliseconds s)) samples
          then Failed (WrongLifecycleLatencyShape m)
          else s ← summarize m samples; required_lifecycle g names (summaries ++ [s])
      end
  end.
Definition is_required_lifecycle (m : string) : bool := existsb (String.eqb m) REQUIRED_LIFECYCLE_LATENCY_METRICS.
Definition lifecycle_from_samples (samples : list BenchmarkSample) : exec BenchmarkEvidenceError BenchmarkReport :=
  let g := grouped samples in
  summaries ← required_lifecycle g REQUIRED_LIFECYCLE_LATENCY_METRICS [];
  summaries ← summarize_rest is_required_lifecycle (entries g) summaries;
  Done (mk_report REQUIRED_LIFECYCLE_LATENCY_METRICS summaries).

(** *** Overhead *)
Record RequiredFirkinOverheadMetric := overhead_metric { ov_name : string; ov_unit : BenchmarkUnit; ov_max_p95 : Z; ov_notes : string }.
Definition REQUIRED_FIRKIN_OVERHEAD_METRICS : list RequiredFirkinOverheadMetric := [
  overhead_metric "control_plane_cpu_idle" Percent (F64.of_int 1) "firkin-and-cube-idle-tax-excluding-running-vms";
  overhead_metric "control_plane_rss_idle" Mebibytes (F64.of_int 256)
    "firkin-and-cube-resident-memory-excluding-vm-guest-memory";
  overhead_metric "per_sandbox_host_rss" Mebibytes (F64.of_int 128)
    "host-side-bookkeeping-excluding-vm-guest-memory-and-rootfs-artifacts-calibrated-for-signed-live-apple-vz";
  overhead_metric "disk_metadata_growth" Bytes (F64.of_int 1048576)
    "firkin-control-metadata-growth-per-sandbox-excluding-rootfs-and-snapshot-bytes";
  overhead_metric "idle_wakeup_rate" Hertz (F64.of_int 1) "steady-state-runtime-wakeups-with-warm-pool-maintained"].
Definition default_firkin_overhead_slo_targets (min_samples : Z) : list BenchmarkSloTarget :=
  (fun m => target_new m.(ov_name) FirkinOverhead m.(ov_unit) m.(ov_max_p95) min_samples) <$> REQUIRED_FIRKIN_OVERHEAD_METRICS.
Fixpoint required_overhead (g : gmap string (list BenchmarkSample)) (metrics : list RequiredFirkinOverheadMetric)
    (summaries : list BenchmarkSummary) : exec BenchmarkEvidenceError (list BenchmarkSummary) :=
  match metrics with
  | [] => Done summaries
  | m :: metrics =>
      match g !! m.(ov_name) with
      | None => Failed (MissingFirkinOverhead m.(ov_name))
      | Some samples =>
          if existsb (fun s => negb (same_shape FirkinOverhead m.(ov_unit) s)) samples
          then Failed (WrongFirkinOverheadShape m.(ov_name))
          else s ← summarize m.(ov_name) samples; required_overhead g metrics (summaries ++ [s])
      end
  end.
Definition is_required_overhead (m : string) : bool :=
  existsb (fun r => (r.(ov_name) =? m)%string) REQUIRED_FIRKIN_OVERHEAD_METRICS.
Definition overhead_from_samples (samples : list BenchmarkSample) : exec BenchmarkEvidenceError BenchmarkReport :=
  let g := grouped samples in
  summaries ← required_overhead g REQUIRED_FIRKIN_OVERHEAD_METRICS [];
  summaries ← summarize_rest is_required_overhead (entries g) summaries;
  Done (mk_report (ov_name <$> REQUIRED_FIRKIN_OVERHEAD_METRICS) summaries).

(** *** The gate over a report *)
Definition from_lifecycle_report (r : BenchmarkReport) (targets : list BenchmarkSloTarget) :=
  from_summaries r.(summaries) targets [].
Definition from_overhead_report (r : BenchmarkReport) (targets : list BenchmarkSloTarget) :=
  from_summaries r.(summaries) targets [].
End Reports.

(** ** Soak runs ([soak.rs]) *)
Module Soak.
Inductive SoakStep :=
| CreateSandbox | RunCommand | WriteFile | SaveSnapshot | RestoreSnapshot | FollowUpPrompt | CleanupStep.
#[global] Instance SoakStep_eq_dec : EqDecision SoakStep.
Proof. solve_decision. Defined.
Definition required_inspect_loop : list SoakStep :=
  [CreateSandbox; RunCommand; WriteFile; SaveSnapshot; RestoreSnapshot; FollowUpPrompt; CleanupStep].
(** Durations in nanoseconds. *)
Definition hours (n : Z) : Z := n * 3600 * 1000000000.
Record SoakScenario := scenario_new { sc_duration : Z; sc_steps : list SoakStep }.
Definition inspect_like (duration : Z) : SoakScenario := scenario_new duration required_inspect_loop.
Definition contains_step (s : SoakScenario) (step : SoakStep) : bool := bool_decide (step ∈ s.(sc_steps)).
Definition is_production_evidence (s : SoakScenario) : bool :=
  (hours 24 <=? s.(sc_duration)) && forallb (contains_step s) required_inspect_loop.
Record SoakStepEvidence := step_evidence { se_step : SoakStep; se_attempts : Z; se_failures : Z }.
Record SoakCleanupEvidence := cleanup_new {
  orphaned_vms : Z; orphaned_snapshots : Z; orphaned_logs : Z; leaked_capacity_reservations : Z
}.
Definition cleanup_clean : SoakCleanupEvidence := cleanup_new 0 0 0 0.
Definition is_clean (c : SoakCleanupEvidence) : bool :=
  (c.(orphaned_vms) =? 0) && (c.(orphaned_snapshots) =? 0) && (c.(orphaned_logs) =? 0) && (c.(leaked_capacity_reservations) =? 0).
Record SoakEvidenceReport := mk_soak {
  duration_seconds : Z;
  soak_steps : list SoakStepEvidence;
  benchmark_artifact : option string;
  cleanup_evidence : option SoakCleanupEvidence
}.
Definition soak_new (duration : Z) (steps : list (SoakStep * Z * Z)) : SoakEvidenceReport :=
  mk_soak (duration / 1000000000) ((fun '(s, a, f) => step_evidence s a f) <$> steps) None None.
Definition with_benchmark_artifact (r : SoakEvidenceReport) (artifact : string) : SoakEvidenceReport :=
  mk_soak r.(duration_seconds) r.(soak_steps) (Some artifact) r.(cleanup_evidence).
Definition with_cleanup_evidence (r : SoakEvidenceReport) (c : SoakCleanupEvidence) : SoakEvidenceReport :=
  mk_soak r.(duration_seconds) r.(soak_steps) r.(benchmark_artifact) (Some c).
Fixpoint find_step (step : SoakStep) (l : list SoakStepEvidence) : option SoakStepEvidence :=
  match l with
  | [] => None
  | e :: l => if bool_decide (e.(se_step) = step) then Some e else find_step step l
  end.
Inductive SoakEvidenceError :=
| DurationTooShort (required_seconds actual_seconds : Z)
| MissingStep (step : SoakStep)
| StepNotAttempted (step : SoakStep)
| StepFailed (step : SoakStep) (failures : Z)
| MissingBenchmarkArtifact
| MissingCleanupEvidence
| CleanupLeaked (vms snapshots logs reservations : Z).
Record SoakEvidenceGateReport := mk_gate {
  covered_steps : list SoakStep;
  gate_artifact : string;
  gate_cleanup : SoakCleanupEvidence
}.
Fixpoint check_steps (r : SoakEvidenceReport) (l : list SoakStep) : result SoakEvidenceError unit :=
  match l with
  | [] => Ok tt
  | step :: l =>
      e ← ok_or (MissingStep step) (find_step step r.(soak_steps));
      if e.(se_attempts) =? 0 then Err (StepNotAttempted step)
      else if 0 <? e.(se_failures) then Err (StepFailed step e.(se_failures))
      else check_steps r l
  end.
Definition validate_production (r : SoakEvidenceReport) : result SoakEvidenceError SoakEvidenceGateReport :=
  let required_seconds := hours 24 / 1000000000 in
  if r.(duration_seconds) <? required_seconds then Err (DurationTooShort required_seconds r.(duration_seconds))
  else
    _ ← check_steps r required_inspect_loop;
    artifact ← ok_or MissingBenchmarkArtifact
      (match r.(benchmark_artifact) with Some a => if is_empty a then None else Some a | None => None end);
    c ← ok_or MissingCleanupEvidence r.(cleanup_evidence);
    if negb (is_clean c)
    then Err (CleanupLeaked c.(orphaned_vms) c.(orphaned_snapshots) c.(orphaned_logs) c.(leaked_capacity_reservations))
    else Ok (mk_gate required_inspect_loop artifact c).
End Soak.

(** ** What the evidence shows *)
Module EvidenceProofs.
Import Samples Summary Slo Reports Soak.

(** *** Sorted values *)
Lemma sort_perm l : F64.sort l ≡ₚ l.
Proof. apply merge_sort_Permutation. Qed.
Lemma sort_sorted l : StronglySorted F64.total_le (F64.sort l).
Proof. apply StronglySorted_merge_sort; apply _. Qed.
Lemma sorted_lookup l i j x y :
  StronglySorted F64.total_le l -> (i <= j)%nat -> l !! i = Some x -> l !! j = Some y -> F64.total_le x y.
Proof.
  intros Hs. revert i j. induction Hs as [|a l Hs IH Ha]; intros i j Hij Hx Hy; [done|].
  destruct i as [|i], j as [|j]; cbn in *; simplify_eq; try lia.
  - unfold F64.total_le. lia.
  - rewrite Forall_forall in Ha. apply Ha. by eapply list_elem_of_lookup_2.
  - eapply (IH i j); [lia|done|done].
Qed.
(** How many of the values are at most [v], and how many are below it. *)
Definition at_most (v : Z) (l : list Z) : nat := length (filter (fun x => F64.total_le x v) l).
Definition below (v : Z) (l : list Z) : nat := length (filter (fun x => ~ F64.total_le v x) l).
#[local] Instance at_most_proper v : Proper (Permutation ==> eq) (at_most v).
Proof. intros l k H. unfold at_most. by rewrite H. Qed.
#[local] Instance below_proper v : Proper (Permutation ==> eq) (below v).
Proof. intros l k H. unfold below. by rewrite H. Qed.
Lemma sorted_at_most l i v :
  StronglySorted F64.total_le l -> l !! i = Some v -> (i < at_most v l)%nat.
Proof.
  intros Hs. revert i. induction Hs as [|a l Hs IH Ha]; intros i Hi; [done|]. unfold at_most in *.
  assert (Hav : F64.total_le a v).
  { destruct i as [|i]; cbn in Hi; [simplify_eq; unfold F64.total_le; lia|]. rewrite Forall_forall in Ha. apply Ha. by eapply list_elem_of_lookup_2. }
  rewrite filter_cons_True by done. destruct i as [|i]; cbn [length]; [lia|]. specialize (IH i Hi). lia.
Qed.
Lemma sorted_below l i v :
  StronglySorted F64.total_le l -> l !! i = Some v -> (below v l <= i)%nat.
Proof.
  intros Hs. revert i. induction Hs as [|a l Hs IH Ha]; intros i Hi; [done|]. unfold below in *. destruct i as [|i]; cbn in Hi.
  - simplify_eq. rewrite filter_cons_False by (unfold F64.total_le; lia). rewrite Forall_forall in Ha.
    destruct (filter (fun x => ~ F64.total_le v x) l) as [|x k] eqn:E; [cbn; lia|].
    assert (Hx : x ∈ filter (fun x => ~ F64.total_le v x) l) by (rewrite E; set_solver).
    apply list_elem_of_filter in Hx as [Hn Hx]. by destruct Hn; apply Ha.
  - specialize (IH i Hi). rewrite filter_cons. case_decide; cbn [length]; lia.
Qed.

(** *** Nearest rank *)
(** [v] is the [q]-th percentile of [l]: one of its values, with [q] percent of
    the values at most [v] and fewer than [q] percent below it. *)
Definition is_percentile (q : Z) (l : list Z) (v : Z) : Prop :=
  v ∈ l /\ q * Z.of_nat (length l) <= 100 * Z.of_nat (at_most v l) /\
  100 * Z.of_nat (below v l) < q * Z.of_nat (length l).
Definition rank_index (q : Z) (n : nat) : nat := Z.to_nat ((q * Z.of_nat n + 99) / 100 - 1).
Lemma nearest_rank {E} q l :
  l <> [] -> 1 <= q <= 100 -> Z.of_nat (length l) < 2 ^ 56 ->
  exists v, percentile_nearest_rank (E:=E) l q = Done v /\ l !! rank_index q (length l) = Some v.
Proof.
  intros Hl Hq Hn. assert (0 < Z.of_nat (length l)) by (destruct l; [done|cbn [length]; lia]).
  assert (Heq : percentile_nearest_rank (E:=E) l q =
    idx l (Z.to_nat (Z.min (sat_sub ((sat_mul 64 (Z.of_nat (length l)) q + 99) / 100) 1) (Z.of_nat (length l) - 1)))) by by destruct l.
  rewrite Heq. clear Heq. unfold sat_mul, sat_sub, max_uint.
  set (n := Z.of_nat (length l)) in *. replace (Z.min (n * q) (2 ^ 64 - 1)) with (q * n) by nia.
  assert (Hd : 1 <= (q * n + 99) / 100 <= n).
  { split; [apply Z.div_le_lower_bound; nia|]. apply Z.lt_succ_r, Z.div_lt_upper_bound; nia. }
  replace (Z.min (Z.max ((q * n + 99) / 100 - 1) 0) (n - 1)) with ((q * n + 99) / 100 - 1) by lia.
  unfold idx. change (Z.to_nat ((q * n + 99) / 100 - 1)) with (rank_index q (length l)).
  destruct (lookup_lt_is_Some_2 l (rank_index q (length l))) as [v Hv]; [unfold rank_index; subst n; lia|].
  rewrite Hv. by exists v.
Qed.
Lemma rank_percentile q l k v :
  StronglySorted F64.total_le l -> l ≡ₚ k -> l <> [] -> 1 <= q <= 100 -> l !! rank_index q (length l) = Some v -> is_percentile q k v.
Proof.
  intros Hs Hp Hl Hq Hv. unfold is_percentile. rewrite <-!Hp.
  split; [by eapply list_elem_of_lookup_2|]. pose proof (sorted_at_most _ _ _ Hs Hv) as Ha. pose proof (sorted_below _ _ _ Hs Hv) as Hb.
  assert (0 < Z.of_nat (length l)) by (destruct l; [done|cbn; lia]).
  unfold rank_index in *. set (n := Z.of_nat (length l)) in *.
  pose proof (Z.div_mod (q * n + 99) 100 ltac:(lia)). pose proof (Z.mod_pos_bound (q * n + 99) 100 eq_refl).
  assert (0 < q * n) by nia. lia.
Qed.
Definition values (l : list BenchmarkSample) : list Z := (fun s => value_f64 s.(sample_value)) <$> l.
Definition shaped (m : string) (k : BenchmarkMetricKind) (u : BenchmarkUnit) (s : BenchmarkSample) : Prop :=
  s.(Samples.metric) = m /\ s.(sample_kind) = k /\ s.(sample_unit) = u.
Lemma same_shape_true k u s : same_shape k u s = true <-> s.(sample_kind) = k /\ s.(sample_unit) = u.
Proof. unfold same_shape. by rewrite andb_true_iff, !bool_decide_eq_true. Qed.
Lemma existsb_negb {A} (f : A -> bool) l :
  match existsb (fun x => negb (f x)) l with
  | true => exists x, x ∈ l /\ f x = false
  | false => Forall (fun x => f x = true) l
  end.
Proof.
  destruct (existsb (fun x => negb (f x)) l) eqn:E.
  - apply existsb_exists in E as (x & Hx & Hf). exists x. split; [by apply list_elem_of_In|]. by apply negb_true_iff.
  - apply Forall_forall. intros x Hx. destruct (f x) eqn:Ex; [done|]. exfalso.
    assert (existsb (fun x => negb (f x)) l = true); [|congruence].
    apply existsb_exists. exists x. split; [by apply list_elem_of_In|]. by rewrite Ex.
Qed.
Lemma sort_nonempty l : l <> [] -> F64.sort l <> [].
Proof. intros Hl E. apply Hl. apply Permutation_nil_r. rewrite <-E. symmetry. apply sort_perm. Qed.
(** The order statistics of a summary, over the values as they were given. *)
Definition summarizes (vs : list Z) (s : BenchmarkSummary) : Prop :=
  s.(sm_count) = Z.of_nat (length vs) /\
  (s.(sm_min) ∈ vs /\ forall v, v ∈ vs -> F64.total_le s.(sm_min) v) /\
  is_percentile 50 vs s.(sm_p50) /\ is_percentile 90 vs s.(sm_p90) /\ is_percentile 95 vs s.(sm_p95) /\
  is_percentile 99 vs s.(sm_p99) /\
  (s.(sm_max) ∈ vs /\ forall v, v ∈ vs -> F64.total_le v s.(sm_max)) /\
  is_percentile 50 ((fun v => F64.abs (F64.sub v s.(sm_p50))) <$> vs) s.(sm_median_absolute_deviation) /\
  F64.total_le s.(sm_p50) s.(sm_p90) /\ F64.total_le s.(sm_p90) s.(sm_p95) /\ F64.total_le s.(sm_p95) s.(sm_p99).
Lemma sorted_first l v x : StronglySorted F64.total_le l -> l !! 0%nat = Some v -> x ∈ l -> F64.total_le v x.
Proof. intros Hs Hv [i Hi]%list_elem_of_lookup_1. eapply sorted_lookup; [done| |done..]. lia. Qed.
Lemma sorted_last l v x : StronglySorted F64.total_le l -> l !! (length l - 1)%nat = Some v -> x ∈ l -> F64.total_le x v.
Proof.
  intros Hs Hv [i Hi]%list_elem_of_lookup_1. pose proof (lookup_lt_Some _ _ _ Hi). eapply sorted_lookup; [done| |done..]. lia.
Qed.
Lemma rank_index_mono p q n : p <= q -> (rank_index p n <= rank_index q n)%nat.
Proof. intros H. unfold rank_index. assert ((p * Z.of_nat n + 99) / 100 <= (q * Z.of_nat n + 99) / 100) by (apply Z.div_le_mono; nia). lia. Qed.
Lemma percentile_spec {E} q vs :
  vs <> [] -> 1 <= q <= 100 -> Z.of_nat (length vs) < 2 ^ 56 ->
  exists v, percentile_nearest_rank (E:=E) (F64.sort vs) q = Done v /\ is_percentile q vs v /\
    F64.sort vs !! rank_index q (length vs) = Some v.
Proof.
  intros Hv Hq Hn. pose proof (sort_perm vs) as Hp. pose proof (Permutation_length Hp) as Hlen.
  destruct (nearest_rank (E:=E) q (F64.sort vs)) as (v & Hd & Hl); [by apply sort_nonempty|done|lia|].
  exists v. rewrite <-Hlen. split_and!; [done| |done].
  eapply rank_percentile; [apply sort_sorted|done|by apply sort_nonempty|done|done].
Qed.
Lemma percentile_map q (f : Z -> Z) l k v : l ≡ₚ k -> is_percentile q (f <$> l) v -> is_percentile q (f <$> k) v.
Proof. intros Hp. unfold is_percentile. by rewrite Hp. Qed.
Lemma statistics_spec m k u vs :
  vs <> [] -> Z.of_nat (length vs) < 2 ^ 56 ->
  exists s, statistics m k u vs = Done s /\ s.(sm_metric) = m /\ s.(sm_kind) = k /\ s.(sm_unit) = u /\ summarizes vs s.
Proof.
  intros Hv Hn. pose proof (sort_perm vs) as Hp. pose proof (Permutation_length Hp) as Hlen.
  pose proof (sort_sorted vs) as Hs. pose proof (sort_nonempty vs Hv) as Hne.
  destruct (percentile_spec (E:=BenchmarkSummaryError) 50 vs) as (p50 & E50 & H50 & L50); [done|lia|done|].
  destruct (percentile_spec (E:=BenchmarkSummaryError) 90 vs) as (p90 & E90 & H90 & L90); [done|lia|done|].
  destruct (percentile_spec (E:=BenchmarkSummaryError) 95 vs) as (p95 & E95 & H95 & L95); [done|lia|done|].
  destruct (percentile_spec (E:=BenchmarkSummaryError) 99 vs) as (p99 & E99 & H99 & L99); [done|lia|done|].
  set (dev := (fun v => F64.abs (F64.sub v p50)) <$> F64.sort vs).
  assert (Hdn : length dev = length vs) by (unfold dev; by rewrite length_fmap).
  destruct (percentile_spec (E:=BenchmarkSummaryError) 50 dev) as (mad & Em & Hm & _);
    [intros E; rewrite E in Hdn; by destruct vs|lia|lia|].
  assert (0 < length (F64.sort vs))%nat by (destruct (F64.sort vs); [done|cbn; lia]).
  destruct (lookup_lt_is_Some_2 (F64.sort vs) 0) as [mn Hmn]; [lia|].
  destruct (lookup_lt_is_Some_2 (F64.sort vs) (length (F64.sort vs) - 1)) as [mx Hmx]; [lia|].
  assert (Hin : forall v, v ∈ vs <-> v ∈ F64.sort vs) by (intros v; by rewrite Hp).
  unfold statistics, mbind, exec_bind. rewrite E50. unfold idx. rewrite Hmn. fold dev. rewrite Em, E90, E95, E99, Hmx.
  eexists. split; [reflexivity|]. split_and!; [done..|]. unfold summarizes. cbn [sm_count sm_min sm_p50 sm_p90 sm_p95 sm_p99 sm_max sm_median_absolute_deviation].
  setoid_rewrite Hin. rewrite Hlen.
  split_and!; try done.
  - by eapply list_elem_of_lookup_2.
  - intros v. by apply sorted_first.
  - by eapply list_elem_of_lookup_2.
  - intros v. by apply sorted_last.
  - by eapply percentile_map.
  - eapply sorted_lookup; [done| |done..]. by apply rank_index_mono.
  - eapply sorted_lookup; [done| |done..]. by apply rank_index_mono.
  - eapply sorted_lookup; [done| |done..]. by apply rank_index_mono.
Qed.

Lemma values_nonempty l : l <> [] -> values l <> [].
Proof. intros Hl E. by apply fmap_nil_inv in E. Qed.
(** The ways a summary can end. *)
Lemma from_samples_split m l :
  l <> [] ->
  (Summary.from_samples m l = Failed (MetricMismatch m) /\ m = m /\ exists s, s ∈ l /\ s.(Samples.metric) <> m) \/
  (Summary.from_samples m l = Failed MixedShape /\ Forall (fun s => s.(Samples.metric) = m) l /\
     exists s s', s ∈ l /\ s' ∈ l /\ ~ (s.(sample_kind) = s'.(sample_kind) /\ s.(sample_unit) = s'.(sample_unit))) \/
  (exists k u, Forall (shaped m k u) l /\ Summary.from_samples m l = statistics m k u (values l)).
Proof.
  intros Hl. destruct l as [|first k] eqn:El; [done|]. cbn [Summary.from_samples]. rewrite <-El.
  assert (Hfirst : first ∈ l) by (rewrite El; set_solver).
  pose proof (existsb_negb (fun s => (s.(Samples.metric) =? m)%string) l) as E1. destruct (existsb _ l) in E1 |- *.
  { left. destruct E1 as (x & Hx & Hne). apply String.eqb_neq in Hne. eauto. }
  pose proof (existsb_negb (same_shape first.(sample_kind) first.(sample_unit)) l) as E2.
  rewrite Forall_forall in E1. setoid_rewrite String.eqb_eq in E1. right.
  destruct (existsb _ l) in E2 |- *.
  { left. destruct E2 as (x & Hx & Hne). split; [done|]. split; [by apply Forall_forall|]. exists x, first. split_and!; [done..|].
    rewrite <-same_shape_true. congruence. }
  rewrite Forall_forall in E2. setoid_rewrite same_shape_true in E2. right.
  exists first.(sample_kind), first.(sample_unit). split; [|done]. apply Forall_forall. intros x Hx. split; [by apply E1|by apply E2].
Qed.
Lemma from_samples_done m l s :
  Z.of_nat (length l) < 2 ^ 56 -> Summary.from_samples m l = Done s ->
  Forall (shaped m s.(sm_kind) s.(sm_unit)) l /\ s.(sm_metric) = m /\ summarizes (values l) s.
Proof.
  intros Hn Hd. assert (Hl : l <> []) by (intros ->; done).
  destruct (from_samples_split m l Hl) as [[E _]|[[E _]|(k & u & Hf & E)]]; [congruence..|].
  destruct (statistics_spec m k u (values l)) as (s' & Hs & Hm & <- & <- & Hv);
    [by apply values_nonempty|unfold values; by rewrite length_fmap|]. rewrite Hd, Hs in E. by injection E as ->.
Qed.

(** The summary of a metric says what it measures.  Samples that are not
    empty, all of the metric and all of one kind and unit give a summary, and
    only those: each way to refuse names its cause, and nothing panics.  Its
    count is the number of samples, its minimum and maximum bound them, and
    every percentile is a value that was given, with at least that percentage
    of the values at most it and less than that percentage below it; the
    deviation is the median of the distances to the median, and the
    percentiles are ordered. *)
Theorem summary_exact m l :
  Z.of_nat (length l) < 2 ^ 56 ->
  match Summary.from_samples m l with
  | Panic => False
  | Failed SummaryEmpty => l = []
  | Failed (MetricMismatch e) => e = m /\ exists s, s ∈ l /\ s.(Samples.metric) <> m
  | Failed MixedShape =>
      Forall (fun s => s.(Samples.metric) = m) l /\
      exists s s', s ∈ l /\ s' ∈ l /\ ~ (s.(sample_kind) = s'.(sample_kind) /\ s.(sample_unit) = s'.(sample_unit))
  | Done s => Forall (shaped m s.(sm_kind) s.(sm_unit)) l /\ s.(sm_metric) = m /\ summarizes (values l) s
  end.
Proof.
  intros Hn. destruct (decide (l = [])) as [->|Hl]; [done|].
  destruct (from_samples_split m l Hl) as [[-> Hx]|[[-> Hx]|(k & u & Hf & E)]]; [done|done|].
  destruct (Summary.from_samples m l) as [s|e|] eqn:Er; [by apply from_samples_done|..].
  all: destruct (statistics_spec m k u (values l)) as (s & Hs & _); [by apply values_nonempty|unfold values; by rewrite length_fmap|congruence].
Qed.

(** *** Groups and reports *)
Definition of_metric (m : string) (l : list BenchmarkSample) : list BenchmarkSample :=
  filter (fun s => s.(Samples.metric) = m) l.
Definition nonempty {A} (l : list A) : option (list A) := match l with [] => None | _ => Some l end.
Lemma nonempty_snoc {A} (l : list A) x : nonempty (l ++ [x]) = Some (l ++ [x]).
Proof. by destruct l. Qed.
Lemma of_metric_snoc m l s :
  of_metric m (l ++ [s]) = of_metric m l ++ (if decide (s.(Samples.metric) = m) then [s] else []).
Proof. unfold of_metric. rewrite filter_app. f_equal. Qed.
Lemma grouped_lookup l m : grouped l !! m = nonempty (of_metric m l).
Proof.
  induction l as [|s l IH] using rev_ind; [done|].
  unfold grouped in *. rewrite foldl_app. cbn [foldl]. set (g := foldl grouped_entry ∅ l) in *.
  unfold grouped_entry. rewrite of_metric_snoc.
  destruct (decide (s.(Samples.metric) = m)) as [Hm|Hm].
  - rewrite Hm, lookup_insert_eq, IH, nonempty_snoc. f_equal. f_equal. by destruct (of_metric m l).
  - rewrite lookup_insert_ne by done. by rewrite app_nil_r.
Qed.
Lemma statistics_shape m k u vs s : statistics m k u vs = Done s -> s.(sm_metric) = m.
Proof.
  unfold statistics, mbind, exec_bind. intros H.
  repeat match goal with H : match ?x with _ => _ end = _ |- _ => destruct x; try done end. by simplify_eq.
Qed.
Lemma from_samples_metric m l s : Summary.from_samples m l = Done s -> s.(sm_metric) = m.
Proof.
  unfold Summary.from_samples. destruct l as [|first k]; [done|]. destruct (existsb _ _); [done|].
  destruct (existsb _ _); [done|]. apply statistics_shape.
Qed.
(** Every summary is that of the samples of its metric. *)
Definition faithful (samples : list BenchmarkSample) (sums : list BenchmarkSummary) : Prop :=
  forall s, s ∈ sums -> Summary.from_samples s.(sm_metric) (of_metric s.(sm_metric) samples) = Done s.
Lemma summarize_done m l s : summarize m l = Done s -> Summary.from_samples m l = Done s.
Proof. unfold summarize. destruct (Summary.from_samples m l); naive_solver. Qed.
Lemma nonempty_some {A} (l k : list A) : nonempty l = Some k -> k = l.
Proof. destruct l; cbn; congruence. Qed.
Lemma faithful_snoc samples sums m l s :
  faithful samples sums -> grouped samples !! m = Some l -> summarize m l = Done s -> faithful samples (sums ++ [s]).
Proof.
  intros Hf Hg Hs x. rewrite elem_of_app, list_elem_of_singleton. intros [Hx| ->]; [by apply Hf|].
  rewrite grouped_lookup in Hg. apply nonempty_some in Hg as ->. apply summarize_done in Hs.
  by rewrite (from_samples_metric _ _ _ Hs).
Qed.
Lemma required_lifecycle_faithful samples names : forall sums sums',
  faithful samples sums -> required_lifecycle (grouped samples) names sums = Done sums' -> faithful samples sums'.
Proof.
  induction names as [|m names IH]; intros sums sums' Hf; cbn; [naive_solver|]. unfold mbind, exec_bind.
  destruct (grouped samples !! m) as [l|] eqn:Eg; [|done]. destruct (existsb _ l); [done|].
  destruct (summarize m l) as [s| |] eqn:Es; [|done..]. apply IH. by eapply faithful_snoc.
Qed.
Lemma required_overhead_faithful samples ms : forall sums sums',
  faithful samples sums -> required_overhead (grouped samples) ms sums = Done sums' -> faithful samples sums'.
Proof.
  induction ms as [|m ms IH]; intros sums sums' Hf; cbn; [naive_solver|]. unfold mbind, exec_bind.
  destruct (grouped samples !! ov_name m) as [l|] eqn:Eg; [|done]. destruct (existsb _ l); [done|].
  destruct (summarize (ov_name m) l) as [s| |] eqn:Es; [|done..]. apply IH. by eapply faithful_snoc.
Qed.
Lemma summarize_rest_faithful samples required l : forall sums sums',
  (forall m k, (m, k) ∈ l -> grouped samples !! m = Some k) ->
  faithful samples sums -> summarize_rest required l sums = Done sums' -> faithful samples sums'.
Proof.
  induction l as [|[m k] l IH]; intros sums sums' Hl Hf; cbn; [naive_solver|]. unfold mbind, exec_bind.
  destruct (required m); [apply IH; [set_solver|done]|].
  destruct (summarize m k) as [s| |] eqn:Es; [|done..]. apply IH; [set_solver|]. eapply faithful_snoc; [done| |done]. set_solver.
Qed.
(** A report of either kind made from these samples. *)
Definition report_of (samples : list BenchmarkSample) (r : BenchmarkReport) : Prop :=
  lifecycle_from_samples samples = Done r \/ overhead_from_samples samples = Done r.
Lemma report_faithful samples r : report_of samples r -> faithful samples r.(summaries).
Proof.
  assert (He : forall m k, (m, k) ∈ entries (grouped samples) -> grouped samples !! m = Some k).
  { intros m k. apply elem_of_entries. }
  assert (H0 : faithful samples []) by (intros s Hs; by apply elem_of_nil in Hs).
  unfold report_of, lifecycle_from_samples, overhead_from_samples, mbind, exec_bind. intros [H|H].
  - destruct (required_lifecycle _ _ _) as [sums| |] eqn:E1; [|done..].
    destruct (summarize_rest _ _ _) as [sums'| |] eqn:E2; [|done..]. injection H as <-.
    eapply summarize_rest_faithful; [done|by eapply required_lifecycle_faithful|done].
  - destruct (required_overhead _ _ _) as [sums| |] eqn:E1; [|done..].
    destruct (summarize_rest _ _ _) as [sums'| |] eqn:E2; [|done..]. injection H as <-.
    eapply summarize_rest_faithful; [done|by eapply required_overhead_faithful|done].
Qed.

(** *** The gate *)
Lemma from_summaries_ok sums targets : forall passed out,
  from_summaries sums targets passed = Ok out <->
  out = passed ++ targets /\ Forall (fun t => check_target sums t = Ok tt) targets.
Proof.
  induction targets as [|t targets IH]; intros passed out; cbn [from_summaries].
  - rewrite app_nil_r. split; [intros [= ->]; split; [done|constructor]|by intros [-> _]].
  - unfold mbind, result_bind. destruct (check_target sums t) as [[]|e] eqn:Ec.
    + rewrite IH, Forall_cons, <-app_assoc. naive_solver.
    + rewrite Forall_cons. split; [done|]. intros (_ & Hc & _). congruence.
Qed.
Lemma summary_for_in m sums s : summary_for m sums = Some s -> s ∈ sums /\ s.(sm_metric) = m.
Proof.
  induction sums as [|x sums IH]; cbn; [done|]. destruct (String.eqb_spec (sm_metric x) m); [|set_solver].
  intros [= ->]. set_solver.
Qed.
Lemma check_target_ok sums t :
  check_target sums t = Ok tt ->
  exists s, s ∈ sums /\ s.(sm_metric) = t.(tg_metric) /\ s.(sm_kind) = t.(tg_kind) /\ s.(sm_unit) = t.(tg_unit) /\
    t.(tg_min_samples) <= s.(sm_count) /\ F64.gt s.(sm_p95) t.(tg_max_p95) = false.
Proof.
  unfold check_target, mbind, result_bind. destruct (summary_for _ sums) as [s|] eqn:Es; cbn [ok_or]; [|done].
  apply summary_for_in in Es as [Hin Hm]. intros H. exists s. repeat case_bool_decide; cbn [negb orb] in H; try done.
  destruct (sm_count s <? tg_min_samples t) eqn:Ec; [done|]. destruct (F64.gt (sm_p95 s) (tg_max_p95 t)) eqn:Eg; [done|].
  split_and!; try done. lia.
Qed.
(** How many values do not exceed a bound. *)
Definition within_bound (b : Z) (vs : list Z) : nat := length (filter (fun v => F64.gt v b = false) vs).
Lemma at_most_within v b vs :
  Forall (fun x => F64.is_nan x = false) vs -> F64.is_nan v = false -> F64.gt v b = false -> (at_most v vs <= within_bound b vs)%nat.
Proof.
  intros Hn Hv Hg. unfold at_most, within_bound. induction Hn as [|x vs Hx Hn IH]; [done|].
  rewrite !filter_cons. destruct (decide (F64.total_le x v)) as [Hle|].
  - rewrite decide_True by (by eapply F64.not_gt_down). cbn [length]. lia.
  - case_decide; cbn [length]; lia.
Qed.

(** C40: a passed gate says what it seems to say of the samples.  When the
    gate passes the targets over a lifecycle or an overhead report, and no
    value is NaN, then for every target all the samples of its metric have its
    kind and unit, there are as many as it asks for, and ninety-five percent
    of them do not exceed its bound. *)
Theorem slo_gate_sound samples r targets passed :
  report_of samples r -> from_summaries r.(summaries) targets [] = Ok passed ->
  Z.of_nat (length samples) < 2 ^ 56 ->
  Forall (fun s => F64.is_nan (value_f64 s.(sample_value)) = false) samples ->
  passed = targets /\
  Forall (fun t =>
    let l := of_metric t.(tg_metric) samples in
    l <> [] /\ t.(tg_min_samples) <= Z.of_nat (length l) /\
    Forall (shaped t.(tg_metric) t.(tg_kind) t.(tg_unit)) l /\
    95 * Z.of_nat (length l) <= 100 * Z.of_nat (within_bound t.(tg_max_p95) (values l))) targets.
Proof.
  intros Hr Hg Hn Hnan. apply report_faithful in Hr. apply from_summaries_ok in Hg as [-> Hg]. split; [done|].
  eapply Forall_impl; [exact Hg|]. intros t (s & Hin & Hm & Hk & Hu & Hc & Hp)%check_target_ok. cbn zeta.
  specialize (Hr s Hin). rewrite Hm in Hr. set (l := of_metric (tg_metric t) samples) in *.
  assert (Hsub : forall x, x ∈ l -> x ∈ samples) by (intros x [_ Hx]%list_elem_of_filter; done).
  assert (Hlen : (length l <= length samples)%nat) by apply length_filter.
  destruct (from_samples_done (tg_metric t) l s ltac:(lia) Hr) as (Hf & _ & Hs). destruct Hs as (Hcount & _ & _ & _ & (Hin95 & Hat & Hbelow) & _). unfold values in *. rewrite length_fmap in *.
  assert (Hv : Forall (fun x => F64.is_nan x = false) ((fun s => value_f64 (sample_value s)) <$> l)).
  { apply Forall_fmap, Forall_forall. intros x Hx. rewrite Forall_forall in Hnan. by apply Hnan, Hsub. }
  split_and!; [intros E; by rewrite E in Hr|lia|by rewrite <-Hk, <-Hu|].
  pose proof (at_most_within (sm_p95 s) (tg_max_p95 t) _ Hv) as Hw. rewrite Forall_forall in Hv. specialize (Hw (Hv _ Hin95) Hp). lia.
Qed.

(** *** Soak evidence *)
Definition step_passed (r : SoakEvidenceReport) (step : SoakStep) : Prop :=
  exists e, find_step step r.(soak_steps) = Some e /\ e.(se_attempts) <> 0 /\ e.(se_failures) <= 0.
Lemma check_steps_ok r l : check_steps r l = Ok tt <-> Forall (step_passed r) l.
Proof.
  induction l as [|step l IH]; cbn [check_steps]; [split; [constructor|done]|]. rewrite Forall_cons, <-IH. unfold step_passed, mbind, result_bind.
  destruct (find_step step (soak_steps r)) as [e|]; cbn [ok_or]; [|split; [done|]; by intros [(e & ? & _) _]].
  destruct (Z.eqb_spec (se_attempts e) 0) as [He|He]; [split; [done|]; by intros [(e' & [= <-] & Hne & _) _]|].
  destruct (0 <? se_failures e) eqn:Ef; [|split; [intros H; split; [exists e; split_and!; [done|done|lia]|done]|by intros [_ ?]]].
  split; [done|]. intros [(e' & [= <-] & _ & Hf) _]. lia.
Qed.
Lemma is_clean_iff c : is_clean c = true <-> c = cleanup_clean.
Proof. unfold is_clean, cleanup_clean. destruct c as [a b d e]. cbn. rewrite !andb_true_iff, !Z.eqb_eq. naive_solver. Qed.
(** A report counts as production evidence exactly when the run took a day,
    the first entry of every step of the loop was attempted without a failure,
    a benchmark artifact is named and nothing was left behind. *)
Theorem soak_gate_exact r g :
  validate_production r = Ok g <->
  86400 <= r.(duration_seconds) /\ Forall (step_passed r) required_inspect_loop /\
  r.(benchmark_artifact) = Some g.(gate_artifact) /\ is_empty g.(gate_artifact) = false /\
  r.(cleanup_evidence) = Some cleanup_clean /\ g.(gate_cleanup) = cleanup_clean /\ g.(covered_steps) = required_inspect_loop.
Proof.
  unfold validate_production, mbind, result_bind. change (hours 24 / 1000000000) with 86400.
  destruct (duration_seconds r <? 86400) eqn:Ed; [split; [done|]; intros [? _]; lia|].
  pose proof (check_steps_ok r required_inspect_loop) as Hs. destruct (check_steps r required_inspect_loop) as [[]|e].
  2:{ split; [done|]. intros (_ & Hf & _). by apply Hs in Hf. }
  pose proof (proj1 Hs eq_refl) as Hf.
  destruct (benchmark_artifact r) as [a|]; cbn [ok_or]; [|split; [done|]; by intros (_ & _ & ? & _)].
  destruct (is_empty a) eqn:Ea; cbn [ok_or]; [split; [done|]; intros (_ & _ & [= ->] & ? & _); congruence|].
  destruct (cleanup_evidence r) as [c|]; cbn [ok_or]; [|split; [done|]; by intros (_ & _ & _ & _ & ? & _)].
  pose proof (is_clean_iff c) as Hc. destruct (is_clean c); cbn [negb].
  - pose proof (proj1 Hc eq_refl) as ->. destruct g as [cs ga gc]. cbn. split; [intros [= <- <- <-]; split_and!; try done; lia|].
    by intros (_ & _ & [= ->] & _ & _ & -> & ->).
  - split; [done|]. intros (_ & _ & _ & _ & [= ->] & _). discriminate (proj2 Hc eq_refl).
Qed.

(** *** Concrete evidence *)
Definition lease_sample (bits : Z) : BenchmarkSample := sample_new "pool.lease_ms" LifecycleLatency Milliseconds (Float bits).
Definition three : list BenchmarkSample := [lease_sample (F64.of_int 3); lease_sample (F64.of_int 1); latency "pool.lease_ms" 2000000].
Example three_summary :
  match Summary.from_samples "pool.lease_ms" three with
  | Done s => (s.(sm_min), s.(sm_mean), s.(sm_median_absolute_deviation), s.(sm_p50), s.(sm_p95), s.(sm_availability)) =
      (F64.of_int 1, F64.of_int 2, F64.of_int 1, F64.of_int 2, F64.of_int 3, SuperfastIteration)
  | _ => False
  end.
Proof. vm_compute. reflexivity. Qed.
Lemma summary_exact_witness :
  match Summary.from_samples "pool.lease_ms" three with Done s => summarizes (values three) s | _ => False end.
Proof.
  pose proof (summary_exact "pool.lease_ms" three ltac:(reflexivity)) as H.
  destruct (Summary.from_samples "pool.lease_ms" three) as [s|e|] eqn:E; [apply H|vm_compute in E; congruence..].
Defined.
Definition idle : list BenchmarkSample :=
  (fun m => sample_new m.(ov_name) FirkinOverhead m.(ov_unit) (Float (F64.of_int 1))) <$> REQUIRED_FIRKIN_OVERHEAD_METRICS.
Definition idle_report : BenchmarkReport :=
  match overhead_from_samples idle with Done r => r | _ => mk_report [] [] end.
Lemma slo_gate_sound_witness :
  default_firkin_overhead_slo_targets 1 = default_firkin_overhead_slo_targets 1 /\
  Forall (fun t =>
    let l := of_metric t.(tg_metric) idle in
    l <> [] /\ t.(tg_min_samples) <= Z.of_nat (length l) /\
    Forall (shaped t.(tg_metric) t.(tg_kind) t.(tg_unit)) l /\
    95 * Z.of_nat (length l) <= 100 * Z.of_nat (within_bound t.(tg_max_p95) (values l)))
    (default_firkin_overhead_slo_targets 1).
Proof.
  apply (slo_gate_sound idle idle_report).
  - right. vm_compute. reflexivity.
  - vm_compute. reflexivity.
  - reflexivity.
  - repeat constructor.
Defined.
(** A value that is not a number passes the gate: no bound is below it. *)
Definition NAN : Z := F64.encode SpecFloat.S754_nan.
Example nan_passes_the_gate :
  match Summary.from_samples "pool.lease_ms" [lease_sample NAN] with
  | Done s => from_summaries [s] [target_new "pool.lease_ms" LifecycleLatency Milliseconds (F64.of_int 5) 1] []
  | _ => Err (MissingMetric "pool.lease_ms")
  end = Ok [target_new "pool.lease_ms" LifecycleLatency Milliseconds (F64.of_int 5) 1].
Proof. vm_compute. reflexivity. Qed.
(** Only the first entry of a step counts, a failure recorded after it does not. *)
Definition day_of_loops : SoakEvidenceReport :=
  with_cleanup_evidence (with_benchmark_artifact
    (soak_new (hours 24) (((fun s => (s, 1, 0)) <$> required_inspect_loop) ++ [(RestoreSnapshot, 10, 10)])) "bench.json") cleanup_clean.
Example later_failures_ignored : is_ok (validate_production day_of_loops) = true.
Proof. vm_compute. reflexivity. Qed.
End EvidenceProofs.
