(* ===== verification/Scorecard.v ===== *)
(** * Scorecards ([crates/evidence/src/scorecard.rs])

    The three scorecards (agent, autoscale, agent computer) ask for the metrics
    of their list, summarize them, compare them with the snappy targets and say
    what keeps a scorecard from being promoted.  The three reports are built by
    the same lines with another list, which [summarize_definitions] holds. *)
From S2P Require Import Prelude BTree Trace MetricCatalog MetricDerive Float64 Evidence.

Module Scorecard.
Import Samples Catalog Summary Slo Reports.
(** The three error types have the same cases. *)
Inductive ScorecardError :=
| MissingRequiredMetric (m : string)
| WrongRequiredMetricShape (m : string) (expected_kind actual_kind : BenchmarkMetricKind)
    (expected_unit actual_unit : BenchmarkUnit)
| InsufficientSamples (m : string) (required actual : Z)
| SummaryError (m : string) (source : BenchmarkSummaryError).
Definition AgentBenchmarkScorecardError : Type := ScorecardError.
Definition AutoscaleEfficiencyScorecardError : Type := ScorecardError.
Definition AgentComputerScorecardError : Type := ScorecardError.

(** *** Snappy targets *)
Inductive ScorecardSnappyTargetDirection := AtMost | AtLeast.
Definition direction_str (d : ScorecardSnappyTargetDirection) : string :=
  match d with AtMost => "at_most" | AtLeast => "at_least" end.
Record ScorecardSnappyTarget := snappy_target {
  sn_metric : string;
  sn_direction : ScorecardSnappyTargetDirection;
  sn_p95_threshold : Z
}.
Definition at_most_p95 (m : string) (t : Z) : ScorecardSnappyTarget := snappy_target m AtMost t.
Definition at_least_p95 (m : string) (t : Z) : ScorecardSnappyTarget := snappy_target m AtLeast t.
Record ScorecardSnappyTargetMiss := snappy_miss {
  ms_metric : string;
  ms_direction : ScorecardSnappyTargetDirection;
  ms_p95_threshold : Z;
  ms_actual_p95 : Z
}.
Definition passed (t : ScorecardSnappyTarget) (actual : Z) : bool :=
  match t.(sn_direction) with
  | AtMost => F64.le actual t.(sn_p95_threshold)
  | AtLeast => F64.le t.(sn_p95_threshold) actual
  end.
Definition evaluate (t : ScorecardSnappyTarget) (s : BenchmarkSummary) : option ScorecardSnappyTargetMiss :=
  let actual := s.(sm_p95) in
  if passed t actual then None else Some (snappy_miss t.(sn_metric) t.(sn_direction) t.(sn_p95_threshold) actual).
Definition AGENT_SCORECARD_SNAPPY_TARGETS : list ScorecardSnappyTarget := [
  at_most_p95 "start.hot_to_first_stdout_ms" (F64.of_int 75);
  at_most_p95 "start.warm_to_first_stdout_ms" (F64.of_int 350);
  at_most_p95 "start.agent_task_ready_ms" (F64.of_int 150);
  at_most_p95 "pool.lease_ms" (F64.of_int 1);
  at_most_p95 "exec.direct_command_start_ms" (F64.of_int 20);
  at_most_p95 "exec.direct_first_stdout_byte_ms" (F64.of_int 25);
  at_most_p95 "exec.batch_100_small_commands_ms" (F64.of_int 500);
  at_least_p95 "density.max_active_before_retained_shell_first_stdout_p95_doubles" (F64.of_int 8);
  at_most_p95 "disk.sparse_bloat_after_trim" (F64.div (F64.of_int 5) (F64.of_int 4));
  at_most_p95 "cleanup.leftover_bytes" (F64.of_int 0);
  at_most_p95 "reliability.unknown_failure_rate" (F64.of_int 0)].
Definition AUTOSCALE_SCORECARD_SNAPPY_TARGETS : list ScorecardSnappyTarget := [
  at_least_p95 "autoscale.ready_queue_hit_rate_pct" (F64.of_int 90);
  at_most_p95 "product.agent_computer_ready_ms" (F64.of_int 250);
  at_most_p95 "product.agent_computer_resume_ms" (F64.of_int 75);
  at_least_p95 "autoscale.safe_spare_limiting_utilization_pct" (F64.of_int 70);
  at_most_p95 "autoscale.pressure_to_safe_floor_ms" (F64.of_int 5000);
  at_most_p95 "autoscale.pressure_clear_to_ready_target_ms" (F64.of_int 10000);
  at_most_p95 "density.prestarted_agent_slot_fifo_acceptance_p95_ms" (F64.of_int 5);
  at_most_p95 "autoscale.active_evictions_due_to_pool_pressure" (F64.of_int 0);
  at_most_p95 "autoscale.reserve_floor_violations" (F64.of_int 0);
  at_most_p95 "cleanup.leftover_bytes" (F64.of_int 0);
  at_most_p95 "reliability.unknown_failure_rate" (F64.of_int 0)].
Definition AGENT_COMPUTER_SCORECARD_SNAPPY_TARGETS : list ScorecardSnappyTarget := [
  at_most_p95 "product.agent_computer_ready_ms" (F64.of_int 250);
  at_most_p95 "product.agent_computer_resume_ms" (F64.of_int 75);
  at_most_p95 "cleanup.leftover_bytes" (F64.of_int 0);
  at_most_p95 "reliability.unknown_failure_rate" (F64.of_int 0)].
Fixpoint scorecard_snappy_target_misses (summaries : list BenchmarkSummary) (targets : list ScorecardSnappyTarget)
  : list ScorecardSnappyTargetMiss :=
  match targets with
  | [] => []
  | t :: targets =>
      match s ← summary_for t.(sn_metric) summaries; evaluate t s with Some m => [m] | None => [] end
        ++ scorecard_snappy_target_misses summaries targets
  end.

(** *** Tags *)
Definition tagged (s : BenchmarkSample) (key value : string) : bool :=
  bool_decide (tag_value key s.(sample_tags) = Some value).
Definition tagged_all (s : BenchmarkSample) (l : list (string * string)) : bool := forallb (fun '(k, v) => tagged s k v) l.
Definition has_tag (s : BenchmarkSample) (key : string) : bool :=
  match tag_value key s.(sample_tags) with Some _ => true | None => false end.
Definition autoscale_sample_promotes_metric (m : string) (s : BenchmarkSample) : bool :=
  if (m =? "autoscale.ready_queue_hit_rate_pct")%string
  then tagged_all s [("source", "autoscale-ready-queue-outcomes"); ("measurement_boundary", "signed_live_product_path"); ("request_classification", "hot_or_resumed_ready_capacity"); ("demand_source", "agent_computer_scorecard_harness"); ("outcome_source", "observed_product_request_results")]
  else if (m =? "autoscale.safe_spare_limiting_utilization_pct")%string
  then tagged_all s [("source", "autoscale-safe-spare-utilization"); ("measurement_boundary", "signed_live_resource_accounting"); ("total_resource_source", "host_capacity_probe"); ("active_resource_source", "runtime_active_pod_registry_budget"); ("reserved_floor_source", "runtime_reserve_floor_config"); ("ready_queue_resource_source", "observed_ready_queue_capacity_budget"); ("resource_accounting_scope", "agent_computer_scorecard_harness_observation")] && has_tag s "limiting_resource"
  else if (m =? "product.agent_computer_ready_ms")%string || (m =? "product.agent_computer_resume_ms")%string
  then tagged_all s [("trust", "exact_host_event_pair"); ("measurement_boundary", "product_path"); ("cli_boundary", "real_cli"); ("browser_boundary", "real_browser_sidecar"); ("database_boundary", "real_db_sidecar")]
  else if (m =? "density.max_agent_computers_before_ready_p95_doubles")%string
  then tagged_all s [("measurement_boundary", "product_path"); ("pod_surface", "product_pod_ready_deck"); ("excludes_container_add", "false"); ("ready_signal", "agent_computer_ready_after_container_add"); ("cli_boundary", "real_cli"); ("browser_boundary", "real_browser_sidecar"); ("database_boundary", "real_db_sidecar")]
  else if (m =? "density.max_prestarted_agent_slots_before_checkout_ready_p95_doubles")%string
  then tagged_all s [("measurement_boundary", "prestarted_slot_checkout"); ("slot_surface", "prestarted_agent_slot"); ("excludes_container_add", "true"); ("ready_signal", "request_fifo_acceptance"); ("output_wait_preserved", "true")]
  else if (m =? "density.prestarted_agent_slot_fifo_acceptance_p95_ms")%string
  then tagged_all s [("source", "prestarted-agent-slot-fifo-acceptance-p95"); ("measurement_boundary", "prestarted_slot_checkout"); ("slot_surface", "prestarted_agent_slot"); ("capacity_source", "already_prestarted_slot"); ("autoscale_refill_observed", "false"); ("excludes_container_add", "true"); ("ready_signal", "request_fifo_acceptance"); ("output_wait_preserved", "true")] && has_tag s "max_concurrency_level"
  else if (m =? "autoscale.active_evictions_due_to_pool_pressure")%string || (m =? "autoscale.reserve_floor_violations")%string
  then tagged_all s [("source", "autoscale-protection-counts"); ("measurement_boundary", "signed_live_product_path"); ("eviction_scope", "active_session_protection"); ("reserve_scope", "configured_runtime_floor"); ("pressure_policy", "no_pool_comfort_eviction"); ("pressure_stress_observed", "true"); ("protection_evidence_scope", "pressure_stress"); ("protection_count_source", "observed_pressure_scenario_completion")]
  else if (m =? "autoscale.pressure_to_safe_floor_ms")%string
  then tagged_all s [("trust", "exact_host_event_pair"); ("measurement_boundary", "signed_live_autoscale_scenario"); ("pressure_source", "runtime_pressure_signal"); ("safe_floor_source", "runtime_reserve_floor_probe"); ("pressure_transition", "violated_to_satisfied"); ("autoscale_work_observed", "capacity_reclaimed"); ("start_event", "PressureDetected"); ("end_event", "SafeFloorRestored")]
  else if (m =? "autoscale.pressure_clear_to_ready_target_ms")%string
  then tagged_all s [("trust", "exact_host_event_pair"); ("measurement_boundary", "signed_live_autoscale_scenario"); ("pressure_clear_source", "runtime_pressure_signal"); ("ready_target_source", "runtime_ready_queue_probe"); ("ready_queue_transition", "drained_to_target"); ("autoscale_work_observed", "ready_capacity_refilled"); ("refill_setup_excluded", "true"); ("ready_queue_prepared_before_pressure_clear", "true"); ("start_event", "SafeFloorRestored"); ("end_event", "ReadyTargetRestored")]
  else false.
Definition autoscale_metric_has_promotable_samples (g : gmap string (list BenchmarkSample)) (m : string) : bool :=
  match g !! m with
  | Some samples => negb (bool_decide (samples = [])) && forallb (autoscale_sample_promotes_metric m) samples
  | None => false
  end.

(** *** Density tiers *)
(** [max_ready_ms] is a whole number of milliseconds. *)
Record ProductDensityCapacityTier := tier_new { concurrency : Z; max_ready_ms : Z; tier_name : string }.
Definition PRODUCT_DENSITY_CAPACITY_TIERS : list ProductDensityCapacityTier :=
  [tier_new 4 125 "snappy_4"; tier_new 8 250 "snappy_8"; tier_new 16 500 "degraded_16"].
Definition tier_metric (t : ProductDensityCapacityTier) : string :=
  "debug.product.agent_computer_ready_deck_c" +:+ print_dec t.(concurrency) +:+ "_ms".
Record PromotionBlocker := blocker_new { bl_metric : string; bl_blocker : string; bl_next_action : string }.
Definition DENSITY : string := "density.max_agent_computers_before_ready_p95_doubles".
Definition product_density_capacity_tier_sample_passes (t : ProductDensityCapacityTier) (s : BenchmarkSample) : bool :=
  same_shape LifecycleLatency Milliseconds s && F64.le (value_f64 s.(sample_value)) (F64.of_int t.(max_ready_ms)) &&
  tagged_all s [("measurement_boundary", "product_path_density_level"); ("probe_surface", "browser_db_cli_readiness");
    ("cli_boundary", "real_cli"); ("browser_boundary", "real_browser_sidecar"); ("database_boundary", "real_db_sidecar");
    ("pod_surface", "product_pod_ready_deck"); ("excludes_container_add", "false");
    ("ready_signal", "agent_computer_ready_after_container_add"); ("density_tier", t.(tier_name));
    ("capacity_status", "pass")].
Definition product_density_trust_blockers (g : gmap string (list BenchmarkSample)) : list PromotionBlocker :=
  if autoscale_metric_has_promotable_samples g DENSITY then []
  else [blocker_new DENSITY
    "product density lacks signed-live browser + database + CLI add/start readiness boundaries"
    "tag density.max_agent_computers_before_ready_p95_doubles with product_path/product_pod_ready_deck boundaries only after the density sweep gates on AgentComputerReady"].
(** One step of the loop over the tiers. *)
Definition tier_blocker (g : gmap string (list BenchmarkSample)) (t : ProductDensityCapacityTier) : list PromotionBlocker :=
  let capacity_metric := tier_metric t in
  match g !! capacity_metric with
  | None => [blocker_new DENSITY
      ("product density is missing c" +:+ print_dec t.(concurrency) +:+ " ready-deck capacity tier evidence")
      ("emit " +:+ capacity_metric +:+ " with measurement_boundary=product_path_density_level and density_tier=" +:+ t.(tier_name))]
  | Some samples =>
      if existsb (fun s => negb (product_density_capacity_tier_sample_passes t s)) samples
      then [blocker_new DENSITY
        ("product density c" +:+ print_dec t.(concurrency) +:+ " ready-deck p95 misses the " +:+ print_dec t.(max_ready_ms)
           +:+ "ms " +:+ t.(tier_name) +:+ " tier or lacks product-path tags")
        ("reduce product add/start contention until " +:+ capacity_metric +:+ " reports capacity_status=pass")]
      else []
  end.
Definition product_density_capacity_tier_blockers (g : gmap string (list BenchmarkSample)) : list PromotionBlocker :=
  if negb (autoscale_metric_has_promotable_samples g DENSITY) then []
  else flat_map (tier_blocker g) PRODUCT_DENSITY_CAPACITY_TIERS.

(** *** What keeps a scorecard from being promoted *)
Definition unproven (g : gmap string (list BenchmarkSample)) (c : BenchmarkMeasurementCoverage) : bool :=
  negb (bool_decide (c.(cov_status) = SignedLiveExact)) && negb (autoscale_metric_has_promotable_samples g c.(cov_metric)).
Definition coverage_blocker (c : BenchmarkMeasurementCoverage) : PromotionBlocker :=
  blocker_new c.(cov_metric)
    ("autoscale scorecard metric is " +:+ status_str c.(cov_status) +:+ ", not signed_live_exact")
    ("replace " +:+ c.(cov_source) +:+ " with signed-live autoscale harness evidence before enforcing this SLA").
Definition autoscale_promotion_blockers (g : gmap string (list BenchmarkSample)) : list PromotionBlocker :=
  (coverage_blocker <$> List.filter (unproven g) AUTOSCALE_EFFICIENCY_MEASUREMENT_COVERAGE) ++
  product_density_capacity_tier_blockers g.
Definition group_of (g : gmap string (list BenchmarkSample)) (m : string) : list BenchmarkSample :=
  match g !! m with Some l => l | None => [] end.
Definition sqlite_proxy (s : BenchmarkSample) : bool := tagged s "measurement_boundary" "sqlite_proxy_not_db_sidecar".
Definition real_boundaries (s : BenchmarkSample) : bool :=
  tagged_all s [("cli_boundary", "real_cli"); ("browser_boundary", "real_browser_sidecar"); ("database_boundary", "real_db_sidecar")].
Definition boundary_blocker (g : gmap string (list BenchmarkSample)) (m : string) : list PromotionBlocker :=
  if existsb (fun s => negb (real_boundaries s)) (group_of g m)
  then [blocker_new m
    "agent-computer readiness lacks real CLI, browser, or database product health boundaries"
    "tag product readiness with cli_boundary=real_cli, browser_boundary=real_browser_sidecar, and database_boundary=real_db_sidecar only after those checks gate AgentComputerReady"]
  else [].
Definition agent_computer_promotion_blockers (g : gmap string (list BenchmarkSample)) : list PromotionBlocker :=
  product_density_trust_blockers g ++ product_density_capacity_tier_blockers g ++
  (if existsb sqlite_proxy (group_of g "product.database_ready_ms")
   then [blocker_new "product.database_ready_ms"
     "database readiness is measured by SQLite through code-interpreter, not a real database sidecar health probe"
     "emit DatabaseReady from a real DB sidecar health check before enforcing the database-sidecar SLA"]
   else []) ++
  flat_map (boundary_blocker g) ["product.agent_computer_ready_ms"; "product.agent_computer_resume_ms"]%string.

(** *** Reports *)
Fixpoint find_misshapen (k : BenchmarkMetricKind) (u : BenchmarkUnit) (l : list BenchmarkSample) : option BenchmarkSample :=
  match l with [] => None | s :: l => if same_shape k u s then find_misshapen k u l else Some s end.
Definition samples_for_definition (g : gmap string (list BenchmarkSample)) (d : BenchmarkMetricDefinition)
  : exec ScorecardError (list BenchmarkSample) :=
  match g !! d.(def_name) with
  | None => Failed (MissingRequiredMetric d.(def_name))
  | Some samples =>
      match find_misshapen d.(def_kind) d.(def_unit) samples with
      | Some s => Failed (WrongRequiredMetricShape d.(def_name) d.(def_kind) s.(sample_kind) d.(def_unit) s.(sample_unit))
      | None => Done samples
      end
  end.
Definition scorecard_summary (m : string) (samples : list BenchmarkSample) : exec ScorecardError BenchmarkSummary :=
  match Summary.from_samples m samples with
  | Done s => Done s
  | Failed e => Failed (SummaryError m e)
  | Panic => Panic
  end.
Fixpoint summarize_definitions (g : gmap string (list BenchmarkSample)) (min_samples : Z) (ds : list BenchmarkMetricDefinition)
    (summaries : list BenchmarkSummary) : exec ScorecardError (list BenchmarkSummary) :=
  match ds with
  | [] => Done summaries
  | d :: ds =>
      samples ← samples_for_definition g d;
      s ← scorecard_summary d.(def_name) samples;
      if s.(sm_count) <? min_samples then Failed (InsufficientSamples d.(def_name) min_samples s.(sm_count))
      else summarize_definitions g min_samples ds (summaries ++ [s])
  end.
(** A scorecard metric that the catalog does not define is a panic. *)
Definition expected {A} (e : exec Empty_set A) : exec ScorecardError A :=
  match e with Done a => Done a | Failed e => match e with end | Panic => Panic end.
Record ScorecardReport := mk_scorecard {
  sr_required_metrics : list string;
  sr_summaries : list BenchmarkSummary;
  sr_promotion_blockers : list PromotionBlocker
}.
Definition agent_from_samples_with_min_samples (samples : list BenchmarkSample) (min_samples : Z) : exec ScorecardError ScorecardReport :=
  let g := grouped samples in
  ds ← expected required_scorecard_metric_definitions;
  summaries ← summarize_definitions g min_samples ds [];
  Done (mk_scorecard P0_SCORECARD_METRICS summaries []).
Definition autoscale_from_samples_with_min_samples (samples : list BenchmarkSample) (min_samples : Z) : exec ScorecardError ScorecardReport :=
  let g := grouped samples in
  ds ← expected required_autoscale_efficiency_metric_definitions;
  summaries ← summarize_definitions g min_samples ds [];
  Done (mk_scorecard AUTOSCALE_EFFICIENCY_SCORECARD_METRICS summaries (autoscale_promotion_blockers g)).
(** The drilldown metrics are optional: those that were measured. *)
Fixpoint summarize_drilldown (g : gmap string (list BenchmarkSample)) (names : list string) (summaries : list BenchmarkSummary)
  : exec ScorecardError (list BenchmarkSummary) :=
  match names with
  | [] => Done summaries
  | m :: names =>
      match g !! m with
      | None => summarize_drilldown g names summaries
      | Some samples =>
          d ← expected (unwrap (benchmark_metric_definition m));
          match find_misshapen d.(def_kind) d.(def_unit) samples with
          | Some s => Failed (WrongRequiredMetricShape d.(def_name) d.(def_kind) s.(sample_kind) d.(def_unit) s.(sample_unit))
          | None =>
              s ← scorecard_summary d.(def_name) samples;
              summarize_drilldown g names (summaries ++ [s])
          end
      end
  end.
Definition computer_from_samples_with_min_samples (samples : list BenchmarkSample) (min_samples : Z) : exec ScorecardError ScorecardReport :=
  let g := grouped samples in
  ds ← expected required_agent_computer_metric_definitions;
  summaries ← summarize_definitions g min_samples ds [];
  summaries ← summarize_drilldown g AGENT_COMPUTER_DRILLDOWN_METRICS summaries;
  Done (mk_scorecard AGENT_COMPUTER_SCORECARD_METRICS summaries (agent_computer_promotion_blockers g)).
Definition agent_from_samples (samples : list BenchmarkSample) := agent_from_samples_with_min_samples samples 1.
Definition autoscale_from_samples (samples : list BenchmarkSample) := autoscale_from_samples_with_min_samples samples 1.
Definition computer_from_samples (samples : list BenchmarkSample) := computer_from_samples_with_min_samples samples 1.

(** *** Checking a report again *)
Fixpoint validate_definitions (r : ScorecardReport) (min_samples : Z) (ds : list BenchmarkMetricDefinition) : exec ScorecardError unit :=
  match ds with
  | [] => Done tt
  | d :: ds =>
      match summary_for d.(def_name) r.(sr_summaries) with
      | None => Failed (MissingRequiredMetric d.(def_name))
      | Some s =>
          if negb (bool_decide (s.(sm_kind) = d.(def_kind))) || negb (bool_decide (s.(sm_unit) = d.(def_unit)))
          then Failed (WrongRequiredMetricShape d.(def_name) d.(def_kind) s.(sm_kind) d.(def_unit) s.(sm_unit))
          else if s.(sm_count) <? min_samples then Failed (InsufficientSamples d.(def_name) min_samples s.(sm_count))
          else validate_definitions r min_samples ds
      end
  end.
Definition agent_validate_min_samples (r : ScorecardReport) (min_samples : Z) : exec ScorecardError unit :=
  ds ← expected required_scorecard_metric_definitions; validate_definitions r min_samples ds.
Definition autoscale_validate_min_samples (r : ScorecardReport) (min_samples : Z) : exec ScorecardError unit :=
  ds ← expected required_autoscale_efficiency_metric_definitions; validate_definitions r min_samples ds.
Definition computer_validate_min_samples (r : ScorecardReport) (min_samples : Z) : exec ScorecardError unit :=
  ds ← expected required_agent_computer_metric_definitions; validate_definitions r min_samples ds.
Definition agent_snappy_target_misses (r : ScorecardReport) := scorecard_snappy_target_misses r.(sr_summaries) AGENT_SCORECARD_SNAPPY_TARGETS.
Definition autoscale_snappy_target_misses (r : ScorecardReport) :=
  scorecard_snappy_target_misses r.(sr_summaries) AUTOSCALE_SCORECARD_SNAPPY_TARGETS.
Definition computer_snappy_target_misses (r : ScorecardReport) :=
  scorecard_snappy_target_misses r.(sr_summaries) AGENT_COMPUTER_SCORECARD_SNAPPY_TARGETS.
End Scorecard.

(** ** What a scorecard says *)
Module ScorecardProofs.
Import Samples Catalog Summary Slo Reports Scorecard EvidenceProofs.

(** *** A report passes its own check *)
Lemma statistics_kind m k u vs s : statistics m k u vs = Done s -> s.(sm_kind) = k /\ s.(sm_unit) = u.
Proof.
  unfold statistics, mbind, exec_bind. intros H.
  repeat match goal with H : match ?x with _ => _ end = _ |- _ => destruct x; try done end. by simplify_eq.
Qed.
Lemma from_samples_kind m l s k u :
  Summary.from_samples m l = Done s -> find_misshapen k u l = None -> s.(sm_kind) = k /\ s.(sm_unit) = u.
Proof.
  unfold Summary.from_samples. destruct l as [|first l]; [done|]. destruct (existsb _ _); [done|].
  destruct (existsb _ _); [done|]. intros H Hf. apply statistics_kind in H as [-> ->]. cbn in Hf.
  destruct (same_shape k u first) eqn:E; [|done]. by apply same_shape_true.
Qed.
(** The summary of one definition. *)
Definition summary_ok (g : gmap string (list BenchmarkSample)) (min_samples : Z) (d : BenchmarkMetricDefinition) (s : BenchmarkSummary) : Prop :=
  exists l, g !! d.(def_name) = Some l /\ Summary.from_samples d.(def_name) l = Done s /\
    s.(sm_kind) = d.(def_kind) /\ s.(sm_unit) = d.(def_unit) /\ min_samples <= s.(sm_count).
Lemma scorecard_summary_done m l s : scorecard_summary m l = Done s -> Summary.from_samples m l = Done s.
Proof. unfold scorecard_summary. destruct (Summary.from_samples m l); naive_solver. Qed.
Lemma summarize_definitions_done g n ds : forall sums out,
  summarize_definitions g n ds sums = Done out ->
  exists news, out = sums ++ news /\ Forall2 (summary_ok g n) ds news.
Proof.
  induction ds as [|d ds IH]; intros sums out; cbn.
  { intros [= ->]. exists []. by rewrite app_nil_r. }
  unfold mbind, exec_bind. unfold samples_for_definition. destruct (g !! def_name d) as [l|] eqn:Eg; [|done].
  destruct (find_misshapen (def_kind d) (def_unit d) l) eqn:Em; [done|].
  destruct (scorecard_summary (def_name d) l) as [s| |] eqn:Es; [|done..]. apply scorecard_summary_done in Es.
  destruct (sm_count s <? n) eqn:Ec; [done|]. intros (news & -> & Hf)%IH. exists (s :: news).
  rewrite <-app_assoc. split; [done|]. constructor; [|done].
  destruct (from_samples_kind _ _ _ _ _ Es Em). exists l. split_and!; try done. lia.
Qed.
Definition from_group (g : gmap string (list BenchmarkSample)) (s : BenchmarkSummary) : Prop :=
  exists l, g !! s.(sm_metric) = Some l /\ Summary.from_samples s.(sm_metric) l = Done s.
Lemma summary_ok_from g n d s : summary_ok g n d s -> from_group g s /\ s.(sm_metric) = d.(def_name).
Proof.
  intros (l & Hg & Hs & _). pose proof (from_samples_metric _ _ _ Hs) as Hm. split; [|done]. exists l. by rewrite Hm.
Qed.
Lemma summary_for_some m sums s : s ∈ sums -> s.(sm_metric) = m -> is_Some (summary_for m sums).
Proof.
  induction sums as [|x sums IH]; cbn; intros Hs Hm; [by apply elem_of_nil in Hs|].
  destruct (String.eqb_spec (sm_metric x) m); [by eexists|]. apply elem_of_cons in Hs as [->|Hs]; [done|auto].
Qed.
Lemma from_group_unique g s s' : from_group g s -> from_group g s' -> s.(sm_metric) = s'.(sm_metric) -> s = s'.
Proof. intros (l & Hl & Hs) (l' & Hl' & Hs') E. rewrite <-E in *. congruence. Qed.
Lemma validate_definitions_ok g n r ds :
  Forall (from_group g) r.(sr_summaries) ->
  Forall (fun d => exists s, s ∈ r.(sr_summaries) /\ summary_ok g n d s) ds ->
  validate_definitions r n ds = Done tt.
Proof.
  intros Hg Hd. induction Hd as [|d ds (s & Hin & Hs) Hd IH]; [done|]. cbn.
  destruct (summary_ok_from _ _ _ _ Hs) as [Hf Hm]. destruct (summary_for_some _ _ s Hin Hm) as [s' Hs']. rewrite Hs'.
  apply summary_for_in in Hs' as [Hin' Hm']. rewrite Forall_forall in Hg.
  assert (s' = s) as -> by (eapply from_group_unique; [by apply Hg|done|congruence]).
  destruct Hs as (l & _ & _ & Hk & Hu & Hc). rewrite !bool_decide_true by done. cbn [negb orb].
  by replace (sm_count s <? n) with false by lia.
Qed.
Lemma summarized_valid g n ds sums :
  summarize_definitions g n ds [] = Done sums ->
  Forall (from_group g) sums /\ Forall (fun d => exists s, s ∈ sums /\ summary_ok g n d s) ds.
Proof.
  intros (news & -> & Hf)%summarize_definitions_done. cbn [app]. induction Hf as [|d s ds news Hs Hf [IH1 IH2]]; [done|].
  split; constructor; [by eapply summary_ok_from|done|exists s; split; [set_solver|done]|].
  eapply Forall_impl; [exact IH2|]. intros d' (s' & Hin & Hs'). exists s'. set_solver.
Qed.
Lemma drilldown_valid g names : forall sums out,
  Forall (from_group g) sums -> summarize_drilldown g names sums = Done out ->
  Forall (from_group g) out /\ sums `sublist_of` out.
Proof.
  induction names as [|m names IH]; intros sums out Hs; cbn [summarize_drilldown]; [intros [= ->]; done|].
  destruct (g !! m) as [l|] eqn:Eg; [|by apply IH]. unfold mbind, exec_bind.
  destruct (benchmark_metric_definition m) as [d|] eqn:Ed; [|done]. cbn [unwrap expected].
  destruct (find_misshapen _ _ l); [done|]. destruct (scorecard_summary (def_name d) l) as [s| |] eqn:Es; [|done..].
  apply scorecard_summary_done in Es. apply CatalogProofs.definition_exact in Ed as [_ Hn].
  intros H. apply IH in H as [Ho Hsub].
  - split; [done|]. etrans; [|exact Hsub]. by apply sublist_inserts_r.
  - apply Forall_app. split; [done|]. constructor; [|done]. rewrite Hn in Es.
    pose proof (from_samples_metric _ _ _ Es) as Hm. exists l. by rewrite Hm.
Qed.

(** A scorecard built with a minimum of samples passes the check for that
    minimum, for each of the three scorecards. *)
Theorem scorecards_validated l n r :
  (agent_from_samples_with_min_samples l n = Done r -> agent_validate_min_samples r n = Done tt) /\
  (autoscale_from_samples_with_min_samples l n = Done r -> autoscale_validate_min_samples r n = Done tt) /\
  (computer_from_samples_with_min_samples l n = Done r -> computer_validate_min_samples r n = Done tt).
Proof.
  unfold agent_from_samples_with_min_samples, agent_validate_min_samples, autoscale_from_samples_with_min_samples,
    autoscale_validate_min_samples, computer_from_samples_with_min_samples, computer_validate_min_samples, mbind, exec_bind.
  split_and!.
  - destruct (expected _) as [ds| |]; [|done..]. destruct (summarize_definitions _ _ _ _) as [sums| |] eqn:E; [|done..].
    intros [= <-]. apply summarized_valid in E as [H1 H2]. by eapply validate_definitions_ok.
  - destruct (expected _) as [ds| |]; [|done..]. destruct (summarize_definitions _ _ _ _) as [sums| |] eqn:E; [|done..].
    intros [= <-]. apply summarized_valid in E as [H1 H2]. by eapply validate_definitions_ok.
  - destruct (expected _) as [ds| |]; [|done..]. destruct (summarize_definitions _ _ _ _) as [sums| |] eqn:E; [|done..].
    destruct (summarize_drilldown _ _ _) as [out| |] eqn:E'; [|done..].
    intros [= <-]. apply summarized_valid in E as [H1 H2]. apply drilldown_valid in E' as [H3 H4]; [|done].
    eapply validate_definitions_ok; [done|]. eapply Forall_impl; [exact H2|]. intros d (s & Hin & Hs). exists s.
    split; [|done]. cbn. by eapply elem_of_sublist.
Qed.

(** *** Targets *)
Lemma misses_exact sums targets :
  scorecard_snappy_target_misses sums targets = [] <->
  forall t s, t ∈ targets -> summary_for t.(sn_metric) sums = Some s -> passed t s.(sm_p95) = true.
Proof.
  induction targets as [|t targets IH]; cbn.
  { split; [|done]. intros _ t s Ht. by apply elem_of_nil in Ht. }
  unfold mbind, option_bind. destruct (summary_for (sn_metric t) sums) as [s|] eqn:Es.
  - unfold evaluate. destruct (passed t (sm_p95 s)) eqn:Ep.
    + cbn. rewrite IH. split; intros H t' s' Ht'; [apply elem_of_cons in Ht' as [->|Ht']; [congruence|by apply H]|].
      apply H. set_solver.
    + split; [done|]. intros H. rewrite (H t s) in Ep; [done|set_solver|done].
  - cbn. rewrite IH. split; intros H t' s' Ht'; [apply elem_of_cons in Ht' as [->|Ht']; [congruence|by apply H]|].
    apply H. set_solver.
Qed.

(** *** Promotion *)
Lemma promotable_iff l m :
  autoscale_metric_has_promotable_samples (grouped l) m = true <->
  of_metric m l <> [] /\ Forall (fun s => autoscale_sample_promotes_metric m s = true) (of_metric m l).
Proof.
  unfold autoscale_metric_has_promotable_samples. rewrite grouped_lookup. destruct (of_metric m l) as [|s k] eqn:E.
  { cbn. split; [done|]. by intros [? _]. }
  cbn [nonempty]. rewrite bool_decide_false by done. cbn [negb andb]. rewrite forallb_forall, Forall_forall.
  setoid_rewrite <-list_elem_of_In. naive_solver.
Qed.
Lemma flat_map_nil {A B} (f : A -> list B) l : flat_map f l = [] <-> forall x, x ∈ l -> f x = [].
Proof.
  induction l as [|x l IH]; cbn; [split; [|done]; intros _ x Hx; by apply elem_of_nil in Hx|].
  split.
  - intros [Hx Hl]%app_eq_nil y [->|Hy]%elem_of_cons; [done|]. by apply IH.
  - intros H. rewrite (H x) by set_solver. cbn. apply IH. intros y Hy. apply H. set_solver.
Qed.
Lemma tier_clear l t :
  tier_blocker (grouped l) t = [] <->
  of_metric (tier_metric t) l <> [] /\
  Forall (fun s => product_density_capacity_tier_sample_passes t s = true) (of_metric (tier_metric t) l).
Proof.
  unfold tier_blocker. rewrite grouped_lookup. destruct (of_metric (tier_metric t) l) as [|s k] eqn:E.
  { cbn. split; [done|]. by intros [? _]. }
  cbn [nonempty]. pose proof (existsb_negb (product_density_capacity_tier_sample_passes t) (s :: k)) as Hx.
  destruct (existsb _ (s :: k)); [|by split].
  split; [done|]. intros [_ Hf]. destruct Hx as (x & Hx & Hne). rewrite Forall_forall in Hf. rewrite Hf in Hne; done.
Qed.
Lemma filter_nil_iff {A} (f : A -> bool) l : List.filter f l = [] <-> forall x, x ∈ l -> f x = false.
Proof.
  induction l as [|x l IH]; cbn; [split; [|done]; intros _ x Hx; by apply elem_of_nil in Hx|].
  destruct (f x) eqn:E.
  - split; [done|]. intros H. rewrite H in E by set_solver. done.
  - rewrite IH. split; intros H y Hy; [apply elem_of_cons in Hy as [->|Hy]; [done|by apply H]|]. apply H. set_solver.
Qed.
(** An autoscale scorecard without blockers is backed by live evidence: every
    metric that is not signed-live by itself has samples, all tagged as its
    rule asks, and every density tier was measured, within its bound and along
    the product path. *)
Theorem promotion_exact l :
  autoscale_promotion_blockers (grouped l) = [] <->
  (forall c, c ∈ AUTOSCALE_EFFICIENCY_MEASUREMENT_COVERAGE -> c.(cov_status) <> SignedLiveExact ->
     of_metric c.(cov_metric) l <> [] /\
     Forall (fun s => autoscale_sample_promotes_metric c.(cov_metric) s = true) (of_metric c.(cov_metric) l)) /\
  (forall t, t ∈ PRODUCT_DENSITY_CAPACITY_TIERS ->
     of_metric (tier_metric t) l <> [] /\
     Forall (fun s => product_density_capacity_tier_sample_passes t s = true) (of_metric (tier_metric t) l)).
Proof.
  unfold autoscale_promotion_blockers. set (cov := AUTOSCALE_EFFICIENCY_MEASUREMENT_COVERAGE).
  assert (Hcov : coverage_blocker <$> List.filter (unproven (grouped l)) cov = [] <->
    forall c, c ∈ cov -> cov_status c <> SignedLiveExact -> autoscale_metric_has_promotable_samples (grouped l) (cov_metric c) = true).
  { transitivity (List.filter (unproven (grouped l)) cov = []); [by destruct (List.filter _ cov)|]. rewrite filter_nil_iff.
    unfold unproven. split; intros H c Hc; specialize (H c Hc).
    - intros Hs. rewrite bool_decide_false in H by done. by destruct (autoscale_metric_has_promotable_samples _ _).
    - case_bool_decide as Hs; [done|]. by rewrite (H Hs). }
  assert (Hd : exists c, c ∈ cov /\ cov_status c <> SignedLiveExact /\ cov_metric c = DENSITY).
  { eexists. split; [apply (list_elem_of_lookup_2 _ 6); reflexivity|]. split; [done|reflexivity]. }
  unfold product_density_capacity_tier_blockers. setoid_rewrite <-promotable_iff. setoid_rewrite <-tier_clear. split.
  - intros [Hc Ht]%app_eq_nil. pose proof (proj1 Hcov Hc) as Hp. split; [done|].
    destruct Hd as (c & Hin & Hs & Hm). specialize (Hp c Hin Hs). rewrite Hm in Hp. rewrite Hp in Ht. by apply flat_map_nil.
  - intros [Hp Ht]. rewrite (proj2 Hcov Hp). destruct (negb _); [done|]. by apply flat_map_nil.
Qed.
(** NaN misses every target, unlike the SLO gate. *)
Example nan_misses_targets :
  match Summary.from_samples "pool.lease_ms" [lease_sample NAN] with
  | Done s => length (scorecard_snappy_target_misses [s] AGENT_SCORECARD_SNAPPY_TARGETS) = 1%nat
  | _ => False
  end.
Proof. vm_compute. reflexivity. Qed.
(** A product sample as it is derived does not promote its metric: nothing
    tags the boundaries of its probes. *)
Example derived_sample_does_not_promote :
  forallb (fun s => negb (autoscale_sample_promotes_metric s.(Samples.metric) s))
    (Derive.derive_available_product_autoscale_metric_samples
       [DeriveProofs.recorded 1024 [DeriveProofs.computer Events.AgentComputerRequestStart 0 Events.Hot;
          DeriveProofs.computer Events.CliFirstUsefulStdout 1 Events.Hot; DeriveProofs.computer Events.BrowserReady 2 Events.Hot;
          DeriveProofs.computer Events.DatabaseReady 3 Events.Hot; DeriveProofs.computer Events.AgentComputerReady 5 Events.Hot]]) = true.
Proof. vm_compute. reflexivity. Qed.
End ScorecardProofs.
